(* ===== verification/_CoqProject ===== *)
-Q . S2P
Prelude.v
Bitmap.v
Pmm.v
PmmBoot.v
Ring.v
Heap.v
HeapInv.v
HeapSpec.v
HeapContract.v
Slab.v
Kva.v
Frames.v
Vmm.v
VmmInv.v
VmmOps.v
VmmSpace.v
VmmUser.v
VmmFork.v
VmmDestroy.v
UserMap.v
VmmSim.v
UserMapSpec.v
Shm.v
VmmTheorems.v
Runq.v
SortedQ.v
Kstack.v
AsRef.v
SchedState.v
Sched.v
Cred.v
SchedFrame.v
SchedInv.v
SchedSpec.v
SchedTick.v
Itimer.v
SchedOps.v
SchedLive.v
Process.v
Fd.v
ProcessFiles.v
ProcessInv.v
ProcessSpec.v
FdSpec.v
ProcessExit.v
ProcessBoot.v
ProcessContract.v
ProcessTheorems.v
Sync.v
SyncSpec.v
Mailbox.v
SyncTheorems.v
Cring.v
WaitQ.v
Tty.v
TtySpec.v
Pty.v
TermTheorems.v
FileIo.v
Pipe.v
PipeSpec.v
PipeTheorems.v
Lz4.v
Lz4Spec.v
Lz4Frame.v
Lz4Theorems.v
Tmpfs.v
TmpfsSpec.v
TmpfsInv.v
TmpfsRep.v
TmpfsOps.v
TmpfsSim.v
Vfs.v
VfsSpec.v
VfsTmpfs.v
FsTheorems.v
Initrd.v
InitrdSpec.v
InitrdTar.v
InitrdTheorems.v
