(* ===== verification/Prelude.v ===== *)
(** AdrOS: a verification of the core of the kernel.

    AdrOS is a Unix-like operating system in C for 32-bit x86 with PAE paging.  This
    library models its memory management, its processes and scheduler, its
    synchronisation primitives, terminals, pipes and descriptors, its file system in
    memory with paths and mounts, and the initial RAM disk with its decompressor, and
    proves what they promise each other.  Paths below are relative to the repository; [src/mm]
    stands for the directory src/mm of the kernel.

    * The parts and their files

    - Page frames: Bitmap, Pmm ([src/mm/pmm.c]), PmmBoot ([src/arch/x86/pmm_boot.c]).  The
      record [Pmm.pmm] has the bitmap, the reference counts and the cursor of the
      code; [Pmm.frames] is the abstract allocator it refines.
    - Linked lists: Ring, the circular and the null-terminated lists of the other parts.
    - Kernel heap: Heap, HeapInv, HeapSpec, HeapContract ([src/mm/heap.c]); Slab
      ([src/mm/slab.c]) uses any heap that meets the class [Slab.KernelHeap]; Kva
      ([src/kernel/kva_alloc.c]).
    - Virtual memory: Frames is the interface of a page allocator (class [FrameAlloc],
      implemented by Pmm).  Vmm models [src/arch/x86/vmm.c], [src/mm/vmm.c],
      [src/arch/x86/uaccess.c] and the page fault path of [src/arch/x86/idt.c] on the
      contents of physical memory; VmmInv to VmmDestroy are its invariants and the
      lemmas of each operation; UserMap has mmap, munmap, brk and mprotect of
      [src/kernel/syscall.c], Shm has [src/kernel/shm.c]; VmmSim and UserMapSpec relate
      them to the memory a process sees; VmmTheorems has the results, and a small machine
      on which the statements are exercised.
    - Scheduler and processes: Runq, SortedQ, Kstack, AsRef, SchedState, Sched,
      SchedFrame, SchedInv, SchedSpec, SchedTick, SchedOps, SchedLive
      ([src/kernel/scheduler.c], [src/kernel/sched_pcpu.c]); Process, ProcessFiles,
      ProcessInv, ProcessSpec, ProcessExit, ProcessBoot,
      ProcessContract, ProcessTheorems; Itimer, Cred, Fd, FdSpec
      (parts of [src/kernel/syscall.c]).  The state is one record of link
      fields and process records, as the C structures are.
    - Synchronisation: Sync, SyncSpec, Mailbox, SyncTheorems ([src/kernel/sync.c]).
    - Terminals: Cring, WaitQ ([include/waitqueue.h]), Tty, TtySpec ([src/kernel/tty.c]),
      Pty ([src/kernel/pty.c]), TermTheorems.
    - Read, write and pipes: FileIo, Pipe, PipeSpec, PipeTheorems (parts of
      [src/kernel/syscall.c] and [src/kernel/fs.c]).
    - Files in memory: Tmpfs ([src/kernel/tmpfs.c]) has the nodes with their links and
      buffers; TmpfsSpec is the abstract tree; TmpfsInv says how nodes show a tree,
      TmpfsRep that the updates agree, TmpfsOps that each operation does, TmpfsSim that
      operations by path and sequences do.
    - Paths and mounts: Vfs ([src/kernel/fs.c]) over the class [Vfs.NodeOps] of what a file
      system offers, which Tmpfs and Initrd implement; VfsSpec has the mount table,
      VfsTmpfs the lookups and sequences over Tmpfs; FsTheorems has the results.
    - LZ4: Lz4, Lz4Spec, Lz4Frame, Lz4Theorems
      ([src/kernel/lz4.c], [include/xxhash32.h]).
    - Initial RAM disk: Initrd ([src/drivers/initrd.c]) has the table of entries, the tar
      headers, [initrd_init] on an image that may be compressed, and the operations of
      the nodes; InitrdSpec relates the table to a tree, InitrdTar an archive to its
      members and to the table; InitrdTheorems has images, an encoder and the results.

    * How code is modelled

    A C function is a function that returns [res]: [Ok] with a value, [Ub] where C has no
    defined behaviour or the kernel would fault, [NoFuel] where the bound of a loop is
    reached.  Integers are [Z] with the wrap-around of their width written out ([u8], [u16],
    [u32], [u64], [s32]); arrays are bounds-checked.  A section under a lock is one step.
    A call that blocks is split where it calls schedule().  Calls into parts that are not
    modelled are arguments of a definition, or entries of a log.

    * What the theorems show

    The conditions of a theorem are in its statement, and the comment before it names them.
    Where the code breaks a contract outside these conditions, that is a theorem or an
    example too, next to the part it concerns.

    - Allocators: every operation of the page allocator refines a set of free frames with
      counts; memory discovery ends on what the boot loader left, when it reports at least a
      page; the heap and the slab caches hand out disjoint live blocks under any history
      of use; address runs are first fit.
    - Memory of processes: stores, loads, forks, switches, exits, fresh pages and unmapped
      pages, in sequences in which each finds the frames it needs, give each process a
      memory of its own, although pages are shared and copied on write; an anonymous mmap of
      up to 4 MB with frames to spare, its munmap, brk and copy_from_user are functions of
      that memory; a fork without memory, and a failed segment, leave nothing behind.  The places where the
      code leaves this model are proved as well: copy_to_user without CR0.WP, mprotect of
      shared pages, mmap without a frame for a page table, the end of a process that has
      attached shared memory.
    - Processes: the invariant of scheduler, process table and descriptors holds in every
      state that boot and the operations of [ProcessContract.allowed] reach; the reference
      count of a file is the number of descriptors that name it and of those that were left
      behind in processes collected with open files; the choice of the next process, ticks,
      exit, waiting and signals are characterised, with all that they leave unchanged; every
      ready process runs after a bounded number of schedules.
      [ProcessContract.allowed] leaves out what the kernel does not survive: alarms that wrap
      around, signals to a group with a member that refuses them, negative descriptors of
      F_DUPFD, and load balancing while a woken process is still current.
    - Synchronisation, terminals, pipes: mutual exclusion, queues that are exact, and
      what a line typed becomes when it is read.  A key that signals is covered when the
      process that was interrupted may signal the foreground group, a write to the master of
      a pseudo-terminal when it signals nobody, and a pipe when it is not shrunk to exactly
      what it holds.
    - Files: any sequence of operations on the file system in memory does what it does on
      an abstract tree, with well-typed links and an exact quota; what is written is read
      back; every path has one mount on which all parts agree; operations by path are safe
      for any strings but the empty one, of which a lookup reads past the end, and lookups
      end whatever the links are.
    - LZ4: the decompressor accepts exactly the blocks and the frames of the format, stays in
      its buffers and inverts an encoder, on inputs whose longest run of 255s cannot encode a
      length that wraps a pointer around; on one that can, it reads past its input.
    - Initial RAM disk: an image that keeps clear of the end of the address space is read
      safely, when the pages for the archive are either refused or all mapped, whatever its
      bytes are and whatever else the allocators answer; an image of a tar archive, plain or
      in an LZ4 frame, reads back by path as the files of the archive.  An image that
      announces nearly 4 GB, and pages that are not mapped for want of a page table, make
      the kernel fault.

    * Bounds and fuel

    Loops over a table run over its size.  Other loops have fuel that the definition
    computes from its arguments (pages of a range, bytes of a buffer, entries of a list),
    and the theorems show [NoFuel] is never the result on the inputs they cover.
    A faulting store is retried once: after a resolved copy-on-write fault the page is
    writable.  The theorems on mappings cover up to 1024 pages per call, the number the
    rollback remembers, and require two free frames per page, one for the page and one
    for a page table.  Walks along siblings have one step more than there are nodes,
    the growth of a buffer 32 doublings, a lookup ten levels of links, of which the code
    allows nine.  The loop over an archive has one step more than there are bytes, and
    each member takes at least 512 of them.

    * Assumptions

    The answers of kmalloc to the file system are addresses that no live node has, and
    nodes that are passed in are live; names fit in their 128 bytes.  A file buffer that
    kmalloc grants has the size asked for, which for the sizes of 8 MB and
    more that [Tmpfs.grow] asks for is more than this heap gives (HeapContract).  For the initial RAM
    disk an answer is null or a block that holds the request and fits in the heap.  The
    pages it takes come from an interface with laws, [InitrdTheorems.PageLaws]: frames
    that are handed out were free, and a mapping is made or, without a frame for a page
    table, dropped.

    The steps of a pipe are whole calls, although the code takes no lock: the theorems are
    about uses one after the other.  Taking a slot of a mailbox and the signal that follows
    it are one step; the signal only adds a permit.  The entry by which a page directory
    refers to itself is left out of the recursive mapping, which under the invariant reads
    the same tables.

    Physical memory has the pages the page allocator manages.  The translation cache
    agrees with the tables after an invalidation.  The running process uses its own
    address space.  References to a frame outside page tables are a function [pin], and
    no frame reaches 65536 references.

    * Not modelled

    File systems on disk (ext2, FAT) and the other virtual ones (overlayfs, procfs, devfs),
    since their state is a block device or text made up on reading; the text of
    /proc/mounts; open files that outlive the node they name; sockets, which are wrappers
    of lwIP; drivers and consoles, port and device accesses; program
    loading and the delivery of signals to user mode; boot, assembly and the set-up of processors; the other ports (arm, mips, riscv);
    poll, epoll, inotify, locks and asynchronous I/O among the system calls;
    vmm_as_clone_user, which nothing calls; SMAP; the contents of a new kernel
    stack; and user space. *)

(** * Shared vocabulary

    The result monad of the modelled C functions, fixed width integers, bounds-checked
    arrays, bits of bytes, and the generic lemmas on them. *)

From stdpp Require Export base tactics numbers list option gmap.
From Stdlib Require Export ZArith Lia.


Declare Scope adros_scope.
Delimit Scope adros_scope with adros.
#[global] Open Scope Z_scope.
#[global] Open Scope adros_scope.

(** A record with some fields changed, one after the other. *)
Notation "x |> f" := (f x) (at level 45, left associativity, only parsing) : adros_scope.

Create HintDb adros.
Create Rewrite HintDb arr.

(** ** Results of C code

    [Ok a] is a normal return.  [Ub] is an access outside an array or through
    a pointer that does not point to an object: the C program has no defined
    behaviour there.  [NoFuel] says that the bound a definition puts on the
    iterations of a loop was reached; the theorems show it never is. *)
Inductive res (A : Type) : Type :=
| Ok (a : A)
| Ub
| NoFuel.
Arguments Ok {A} a.
Arguments Ub {A}.
Arguments NoFuel {A}.

#[global] Instance res_ret : MRet res := fun A a => Ok a.
#[global] Instance res_bind : MBind res := fun A B f m =>
  match m with Ok a => f a | Ub => Ub | NoFuel => NoFuel end.

Lemma res_bind_then {A B C} (m : res A) (f : A -> res B) (g : B -> res C) b :
  (x ← m; f x) = Ok b -> (x ← m; y ← f x; g y) = g b.
Proof. destruct m; simpl; try discriminate. unfold mbind, res_bind. intros ->. reflexivity. Qed.

Lemma res_bind_ok {A B} (a : A) (f : A -> res B) : (Ok a ≫= f) = f a.
Proof. reflexivity. Qed.

Lemma res_bind_3 {A B C D E} (m : res A) (f : A -> res B) (g : B -> res C) (h : C -> res D)
    (k : D -> res E) :
  (y ← (a ← m; b ← f a; c ← g b; h c); k y) = (a ← m; b ← f a; c ← g b; y ← h c; k y).
Proof.
  destruct m; try reflexivity. unfold mbind, res_bind. destruct (f a); try reflexivity.
  destruct (g a0); reflexivity.
Qed.

Lemma res_bind_ok_inv {A B} (m : res A) (f : A -> res B) b :
  (m ≫= f) = Ok b -> exists a, m = Ok a /\ f a = Ok b.
Proof. destruct m; simpl; intros H; try discriminate; eauto. Qed.

Definition of_option {A} (o : option A) : res A :=
  match o with Some a => Ok a | None => Ub end.

(** ** Fixed width integers *)

Definition u8 (z : Z) : Z := z mod 256.
Definition u16 (z : Z) : Z := z mod 65536.
Definition u32 (z : Z) : Z := z mod 4294967296.
Definition u64 (z : Z) : Z := z mod 18446744073709551616.
Definition s32 (z : Z) : Z := (z + 2147483648) mod 4294967296 - 2147483648.

Definition is_u8 (z : Z) : Prop := 0 <= z < 256.
Definition is_u32 (z : Z) : Prop := 0 <= z < 4294967296.
Definition is_u64 (z : Z) : Prop := 0 <= z < 18446744073709551616.

Lemma u8_small z : 0 <= z < 256 -> u8 z = z.
Proof. apply Z.mod_small. Qed.
Lemma u16_small z : 0 <= z < 65536 -> u16 z = z.
Proof. apply Z.mod_small. Qed.
Lemma u32_small z : 0 <= z < 4294967296 -> u32 z = z.
Proof. apply Z.mod_small. Qed.
Lemma u64_small z : 0 <= z < 18446744073709551616 -> u64 z = z.
Proof. apply Z.mod_small. Qed.
Lemma s32_small z : -2147483648 <= z < 2147483648 -> s32 z = z.
Proof. intros. unfold s32. rewrite Z.mod_small; lia. Qed.

Lemma u8_range z : 0 <= u8 z < 256.
Proof. apply Z.mod_pos_bound; lia. Qed.
Lemma u16_range z : 0 <= u16 z < 65536.
Proof. apply Z.mod_pos_bound; lia. Qed.
Lemma u32_range z : 0 <= u32 z < 4294967296.
Proof. apply Z.mod_pos_bound; lia. Qed.
Lemma u64_range z : 0 <= u64 z < 18446744073709551616.
Proof. apply Z.mod_pos_bound; lia. Qed.

Lemma u32_wrap z : 4294967296 <= z < 8589934592 -> u32 z = z - 4294967296.
Proof. intros. unfold u32. rewrite <- (Z.mod_small (z - 4294967296) 4294967296), <- (Z.mod_add (z - 4294967296) 1) by lia. f_equal. lia. Qed.

#[export] Hint Resolve u8_range u16_range u32_range u64_range : adros.

(** Replaces the wrap-around of an expression that stays in range. *)
Ltac nowrap :=
  repeat first
    [ rewrite u64_small by lia | rewrite u32_small by lia
    | rewrite u16_small by lia | rewrite u8_small by lia
    | rewrite s32_small by lia ].
Tactic Notation "nowrap" "in" hyp(H) :=
  repeat first
    [ rewrite u64_small in H by lia | rewrite u32_small in H by lia
    | rewrite u16_small in H by lia | rewrite u8_small in H by lia
    | rewrite s32_small in H by lia ].

(** Turns the boolean comparison that a conditional tests into a fact. *)
Ltac bdestr :=
  match goal with
  | |- context [?a <? ?b] => destruct (Z.ltb_spec a b)
  | |- context [?a <=? ?b] => destruct (Z.leb_spec a b)
  | |- context [?a =? ?b] => destruct (Z.eqb_spec a b)
  end.
Ltac bdestr_in H :=
  match type of H with
  | context [?a <? ?b] => destruct (Z.ltb_spec a b)
  | context [?a <=? ?b] => destruct (Z.leb_spec a b)
  | context [?a =? ?b] => destruct (Z.eqb_spec a b)
  end.

(** The same for the condition of the first conditional of the goal. *)
Ltac ifdestr :=
  match goal with
  | |- context [if ?c then _ else _] =>
      lazymatch c with
      | ?a <? ?b => destruct (Z.ltb_spec a b)
      | ?a <=? ?b => destruct (Z.leb_spec a b)
      | ?a =? ?b => destruct (Z.eqb_spec a b)
      | _ => destruct c eqn:?
      end
  end.

(** Decides a comparison whose outcome [lia] knows. *)
Ltac zdecide :=
  repeat match goal with
  | |- context [?a <? ?b] =>
      first [ rewrite (proj2 (Z.ltb_lt a b)) by lia
            | rewrite (proj2 (Z.ltb_ge a b)) by lia ]
  | |- context [?a <=? ?b] =>
      first [ rewrite (proj2 (Z.leb_le a b)) by lia
            | rewrite (proj2 (Z.leb_gt a b)) by lia ]
  | |- context [?a =? ?b] =>
      first [ rewrite (proj2 (Z.eqb_eq a b)) by lia
            | rewrite (proj2 (Z.eqb_neq a b)) by lia ]
  end.

(** ** Arrays

    A C array of [arr_len] elements.  Cells that were never written hold the
    default element, the zero initialisation of static storage.  Access
    outside the array is [Ub]. *)
Record array (A : Type) : Type := Array {
  arr_len : Z;
  arr_dflt : A;
  arr_cells : gmap Z A
}.
Arguments Array {A} _ _ _.
Arguments arr_len {A} _.
Arguments arr_dflt {A} _.
Arguments arr_cells {A} _.

Definition arr_new {A} (n : Z) (d : A) : array A := Array n d ∅.

Definition arr_at {A} (a : array A) (i : Z) : A :=
  default (arr_dflt a) (arr_cells a !! i).

Definition arr_in {A} (a : array A) (i : Z) : bool :=
  (0 <=? i) && (i <? arr_len a).

Definition arr_get {A} (a : array A) (i : Z) : res A :=
  if arr_in a i then Ok (arr_at a i) else Ub.

Definition arr_put {A} (a : array A) (i : Z) (x : A) : array A :=
  Array (arr_len a) (arr_dflt a) (<[i := x]> (arr_cells a)).

Definition arr_set {A} (a : array A) (i : Z) (x : A) : res (array A) :=
  if arr_in a i then Ok (arr_put a i x) else Ub.

Section arrays.
Context {A : Type}.
Implicit Types (a : array A) (x : A) (i j : Z).

Lemma arr_in_true a i : 0 <= i < arr_len a -> arr_in a i = true.
Proof. unfold arr_in. intros. zdecide. reflexivity. Qed.

Lemma arr_in_false a i : ~ (0 <= i < arr_len a) -> arr_in a i = false.
Proof. unfold arr_in. intros. repeat bdestr; simpl; auto; lia. Qed.

Lemma arr_get_ok a i : 0 <= i < arr_len a -> arr_get a i = Ok (arr_at a i).
Proof. intros. unfold arr_get. rewrite arr_in_true; auto. Qed.

Lemma arr_set_ok a i x : 0 <= i < arr_len a -> arr_set a i x = Ok (arr_put a i x).
Proof. intros. unfold arr_set. rewrite arr_in_true; auto. Qed.

Lemma arr_get_inv a i x :
  arr_get a i = Ok x -> 0 <= i < arr_len a /\ x = arr_at a i.
Proof.
  unfold arr_get, arr_in. repeat bdestr; simpl; intros; simplify_eq; auto.
Qed.

Lemma arr_set_inv a a' i x :
  arr_set a i x = Ok a' -> 0 <= i < arr_len a /\ a' = arr_put a i x.
Proof.
  unfold arr_set, arr_in. repeat bdestr; simpl; intros; simplify_eq; auto.
Qed.

Lemma arr_at_put_eq a i x : arr_at (arr_put a i x) i = x.
Proof. unfold arr_at, arr_put; simpl. rewrite lookup_insert_eq. reflexivity. Qed.

Lemma arr_at_put_ne a i j x : i <> j -> arr_at (arr_put a i x) j = arr_at a j.
Proof. intros. unfold arr_at, arr_put; simpl. rewrite lookup_insert_ne; auto. Qed.

Lemma arr_at_put a i j x :
  arr_at (arr_put a i x) j = if i =? j then x else arr_at a j.
Proof.
  bdestr; [subst; apply arr_at_put_eq | apply arr_at_put_ne; auto].
Qed.

Lemma arr_len_put a i x : arr_len (arr_put a i x) = arr_len a.
Proof. reflexivity. Qed.

Lemma arr_at_new n (d : A) i : arr_at (arr_new n d) i = d.
Proof. unfold arr_at, arr_new; simpl. rewrite lookup_empty. reflexivity. Qed.
End arrays.

#[export] Hint Rewrite @arr_at_put_eq @arr_len_put @arr_at_new : arr.

(** ** Bits *)

Lemma land_bit_eqb b k :
  0 <= k -> (Z.land b (Z.shiftl 1 k) =? 0) = negb (Z.testbit b k).
Proof.
  intros Hk. rewrite Z.shiftl_1_l.
  destruct (Z.testbit b k) eqn:E; simpl.
  - apply Z.eqb_neq. intros H0.
    assert (Z.testbit (Z.land b (2 ^ k)) k = false) by (rewrite H0; apply Z.bits_0).
    rewrite Z.land_spec, E, Z.pow2_bits_true in H by lia. discriminate.
  - apply Z.eqb_eq, Z.bits_inj'. intros n Hn. rewrite Z.bits_0, Z.land_spec.
    destruct (Z.eq_dec n k) as [->|].
    + rewrite E. reflexivity.
    + rewrite (Z.pow2_bits_false k n) by lia. apply andb_false_r.
Qed.

Lemma testbit_setbit b k j :
  0 <= k -> 0 <= j ->
  Z.testbit (Z.lor b (Z.shiftl 1 k)) j = (k =? j) || Z.testbit b j.
Proof.
  intros. rewrite Z.lor_spec, Z.shiftl_1_l. bdestr.
  - subst. rewrite Z.pow2_bits_true by lia. apply orb_true_r.
  - rewrite Z.pow2_bits_false by lia. apply orb_false_r.
Qed.

Lemma testbit_clearbit b k j :
  0 <= k -> 0 <= j ->
  Z.testbit (Z.land b (Z.lnot (Z.shiftl 1 k))) j = negb (k =? j) && Z.testbit b j.
Proof.
  intros. rewrite Z.land_spec, Z.lnot_spec, Z.shiftl_1_l by lia. bdestr.
  - subst. rewrite Z.pow2_bits_true by lia. simpl. apply andb_false_r.
  - rewrite Z.pow2_bits_false by lia. simpl. apply andb_true_r.
Qed.

Lemma is_u8_bits b : is_u8 b <-> 0 <= b /\ forall n, 8 <= n -> Z.testbit b n = false.
Proof.
  split.
  - intros [H0 H1]. split; [lia|]. intros n Hn.
    destruct (Z.eq_dec b 0) as [->|]; [apply Z.bits_0|].
    apply Z.bits_above_log2; [lia|].
    assert (Z.log2 b < 8) by (apply Z.log2_lt_pow2; lia). lia.
  - intros [H0 H]. split; auto.
    destruct (Z.lt_ge_cases b 256) as [|Hge]; auto. exfalso.
    assert (8 <= Z.log2 b) by (apply Z.log2_le_pow2; simpl; lia).
    specialize (H (Z.log2 b) ltac:(lia)). rewrite Z.bit_log2 in H by lia. discriminate.
Qed.

Lemma is_u8_setbit b k : is_u8 b -> 0 <= k < 8 -> is_u8 (Z.lor b (Z.shiftl 1 k)).
Proof.
  intros [H0 H]%is_u8_bits Hk. apply is_u8_bits. split.
  - apply Z.lor_nonneg. split; auto. apply Z.shiftl_nonneg. lia.
  - intros n Hn. rewrite testbit_setbit by lia. rewrite H by lia. zdecide. reflexivity.
Qed.

Lemma is_u8_clearbit b k : is_u8 b -> is_u8 (Z.land b (Z.lnot (Z.shiftl 1 k))).
Proof.
  intros [H0 H]%is_u8_bits. apply is_u8_bits. split.
  - apply Z.land_nonneg. auto.
  - intros n Hn. rewrite Z.land_spec, H by lia. reflexivity.
Qed.

(** The same at 32 bits. *)
Lemma is_u32_bits b : is_u32 b <-> 0 <= b /\ forall n, 32 <= n -> Z.testbit b n = false.
Proof.
  split.
  - intros [H0 H1]. split; [lia|]. intros n Hn.
    destruct (Z.eq_dec b 0) as [->|]; [apply Z.bits_0|].
    apply Z.bits_above_log2; [lia|].
    assert (Z.log2 b < 32) by (apply Z.log2_lt_pow2; lia). lia.
  - intros [H0 H]. split; auto.
    destruct (Z.lt_ge_cases b 4294967296) as [|Hge]; auto. exfalso.
    assert (32 <= Z.log2 b) by (apply Z.log2_le_pow2; simpl; lia).
    specialize (H (Z.log2 b) ltac:(lia)). rewrite Z.bit_log2 in H by lia. discriminate.
Qed.

Lemma is_u32_setbit b k : is_u32 b -> 0 <= k < 32 -> is_u32 (Z.lor b (Z.shiftl 1 k)).
Proof.
  intros [H0 H]%is_u32_bits Hk. apply is_u32_bits. split.
  - apply Z.lor_nonneg. split; auto. apply Z.shiftl_nonneg. lia.
  - intros n Hn. rewrite testbit_setbit by lia. rewrite H by lia. zdecide. reflexivity.
Qed.

Lemma is_u32_land b x : is_u32 b -> is_u32 (Z.land b x).
Proof.
  intros [H0 H]%is_u32_bits. apply is_u32_bits. split.
  - apply Z.land_nonneg. auto.
  - intros n Hn. rewrite Z.land_spec, H by lia. reflexivity.
Qed.

Lemma u32_land_ones x : u32 x = Z.land x (Z.ones 32).
Proof. rewrite Z.land_ones by lia. reflexivity. Qed.

(** The complement of a mask at 32 bits. *)
Lemma land_u32_lnot b x : is_u32 b -> Z.land b (u32 (Z.lnot x)) = Z.land b (Z.lnot x).
Proof.
  intros Hb. rewrite u32_land_ones, Z.land_assoc, <- u32_land_ones.
  apply u32_small. apply is_u32_land. auto.
Qed.

Lemma is_u32_zero b : is_u32 b -> (forall i, 0 <= i < 32 -> Z.testbit b i = false) -> b = 0.
Proof.
  intros [H0 H]%is_u32_bits Hz. apply Z.bits_inj'. intros n Hn. rewrite Z.bits_0.
  destruct (Z.lt_ge_cases n 32); auto.
Qed.

(** ** Power-of-two alignment *)

Lemma align_down_spec v k :
  0 <= k -> Z.land v (Z.lnot (2 ^ k - 1)) = v / 2 ^ k * 2 ^ k.
Proof.
  intros. replace (2 ^ k - 1) with (Z.ones k) by (rewrite Z.ones_equiv; lia).
  rewrite <- Z.ldiff_land, Z.ldiff_ones_r by lia.
  rewrite Z.shiftl_mul_pow2, Z.shiftr_div_pow2 by lia. reflexivity.
Qed.

(** ** Ranges *)

Lemma ring_index_inj cap r i j : 0 <= i < cap -> 0 <= j < cap -> (r + i) mod cap = (r + j) mod cap -> i = j.
Proof.
  intros Hi Hj E. assert (H : (i - j) mod cap = 0).
  { replace (i - j) with ((r + i) - (r + j)) by lia. rewrite Zminus_mod, E, Z.sub_diag. apply Z.mod_0_l. lia. }
  apply Z.mod_divide in H; [|lia]. destruct H as [k Hk]. assert (k = 0) by nia. lia.
Qed.

Lemma seqZ_snoc m n : 0 <= n -> seqZ m (n + 1) = seqZ m n ++ [m + n].
Proof.
  intros. rewrite seqZ_app by lia. f_equal.
Qed.

(** ** Byte-addressed memory

    A total map from addresses to bytes, for code that reads memory it was
    handed by the hardware or the boot loader. *)
Definition mem : Type := Z -> Z.

Definition rd8 (m : mem) (a : Z) : Z := u8 (m a).
Definition rd32 (m : mem) (a : Z) : Z :=
  rd8 m a + 256 * rd8 m (a + 1) + 65536 * rd8 m (a + 2) + 16777216 * rd8 m (a + 3).
Definition rd64 (m : mem) (a : Z) : Z := rd32 m a + 4294967296 * rd32 m (a + 4).

Lemma rd32_range m a : is_u32 (rd32 m a).
Proof.
  unfold rd32, rd8, is_u32. pose proof (u8_range (m a)). pose proof (u8_range (m (a + 1))).
  pose proof (u8_range (m (a + 2))). pose proof (u8_range (m (a + 3))). lia.
Qed.

Lemma rd64_range m a : is_u64 (rd64 m a).
Proof.
  unfold rd64, is_u64. pose proof (rd32_range m a) as [? ?].
  pose proof (rd32_range m (a + 4)) as [? ?]. lia.
Qed.

(** Memory whose contents from [base] on is the given byte list. *)
Definition mem_of_list (base : Z) (l : list Z) : mem :=
  fun a => if (base <=? a) then default 0 (l !! Z.to_nat (a - base)) else 0.

Definition bytes32 (v : Z) : list Z :=
  [u8 v; u8 (v / 256); u8 (v / 65536); u8 (v / 16777216)].
Definition bytes64 (v : Z) : list Z := bytes32 v ++ bytes32 (v / 4294967296).

Lemma filter_all {A} (P : A -> Prop) `{!forall x, Decision (P x)} (l : list A) :
  (forall x, x ∈ l -> P x) -> filter P l = l.
Proof.
  induction l as [|x l IH]; intros Hl; [reflexivity|].
  rewrite filter_cons_True by (apply Hl; set_solver). f_equal. apply IH. intros y Hy. apply Hl. set_solver.
Qed.

Lemma filter_iff_in {A} (P R : A -> Prop) `{!forall x, Decision (P x), !forall x, Decision (R x)}
    (l : list A) :
  (forall x, x ∈ l -> P x <-> R x) -> filter P l = filter R l.
Proof.
  induction l as [|x l IH]; intros Hl; [reflexivity|].
  assert (filter P l = filter R l) as E by (apply IH; intros y Hy; apply Hl; set_solver).
  destruct (Hl x ltac:(set_solver)) as [H1 H2]. destruct (decide (P x)).
  - rewrite !filter_cons_True by auto. congruence.
  - rewrite !filter_cons_False by auto. auto.
Qed.
