(* ===== verification/Bitmap.v ===== *)
(** Bitmaps kept in byte arrays, the representation the physical page
    allocator and the kernel virtual address allocator share: the view of an
    array as a predicate on bit numbers, and counting. *)

From S2P Require Import Prelude.

Definition bit_at (bm : array Z) (i : Z) : bool :=
  Z.testbit (arr_at bm (i / 8)) (i mod 8).

Definition bytes_ok (bm : array Z) : Prop := forall i, is_u8 (arr_at bm i).

Definition setbit (bm : array Z) (i : Z) : array Z :=
  arr_put bm (i / 8) (Z.lor (arr_at bm (i / 8)) (Z.shiftl 1 (i mod 8))).

Definition clearbit (bm : array Z) (i : Z) : array Z :=
  arr_put bm (i / 8) (Z.land (arr_at bm (i / 8)) (Z.lnot (Z.shiftl 1 (i mod 8)))).

Lemma mod8_range i : 0 <= i mod 8 < 8.
Proof. apply Z.mod_pos_bound. lia. Qed.

Lemma div8_mod8_eq i j : i / 8 = j / 8 -> i mod 8 = j mod 8 -> i = j.
Proof. intros. rewrite (Z.div_mod i 8), (Z.div_mod j 8) by lia. lia. Qed.

Lemma bit_at_setbit bm i j : bit_at (setbit bm i) j = (i =? j) || bit_at bm j.
Proof.
  pose proof (mod8_range i). pose proof (mod8_range j).
  unfold bit_at, setbit. rewrite arr_at_put.
  destruct (Z.eqb_spec (i / 8) (j / 8)) as [E|E].
  - rewrite testbit_setbit by lia. rewrite E. f_equal.
    destruct (Z.eqb_spec i j) as [->|Hne]; [apply Z.eqb_refl|].
    apply Z.eqb_neq. intros E'. apply Hne, div8_mod8_eq; auto.
  - destruct (Z.eqb_spec i j) as [->|]; [congruence|reflexivity].
Qed.

Lemma bit_at_clearbit bm i j : bit_at (clearbit bm i) j = negb (i =? j) && bit_at bm j.
Proof.
  pose proof (mod8_range i). pose proof (mod8_range j).
  unfold bit_at, clearbit. rewrite arr_at_put.
  destruct (Z.eqb_spec (i / 8) (j / 8)) as [E|E].
  - rewrite testbit_clearbit by lia. rewrite E. f_equal. f_equal.
    destruct (Z.eqb_spec i j) as [->|Hne]; [apply Z.eqb_refl|].
    apply Z.eqb_neq. intros E'. apply Hne, div8_mod8_eq; auto.
  - destruct (Z.eqb_spec i j) as [->|]; [congruence|reflexivity].
Qed.

Lemma setbit_bytes bm i : bytes_ok bm -> bytes_ok (setbit bm i).
Proof.
  intros H j. unfold setbit. rewrite arr_at_put. bdestr; auto.
  apply is_u8_setbit; auto using mod8_range.
Qed.

Lemma clearbit_bytes bm i : bytes_ok bm -> bytes_ok (clearbit bm i).
Proof.
  intros H j. unfold clearbit. rewrite arr_at_put. bdestr; auto.
  apply is_u8_clearbit; auto.
Qed.

Lemma setbit_len bm i : arr_len (setbit bm i) = arr_len bm.
Proof. reflexivity. Qed.
Lemma clearbit_len bm i : arr_len (clearbit bm i) = arr_len bm.
Proof. reflexivity. Qed.

(** A bit whose number is below eight times the length lies in the array. *)
Lemma bit_in_range i n : 0 <= i < 8 * n -> 0 <= i / 8 < n.
Proof. intros. split; [apply Z.div_pos; lia | apply Z.div_lt_upper_bound; lia]. Qed.

#[export] Hint Resolve setbit_bytes clearbit_bytes bit_in_range : adros.
#[export] Hint Rewrite bit_at_setbit bit_at_clearbit setbit_len clearbit_len : arr.

(** ** Counting the numbers below a bound that satisfy a predicate *)

Fixpoint countb (p : Z -> bool) (n : nat) : Z :=
  match n with
  | O => 0
  | S n => countb p n + Z.b2z (p (Z.of_nat n))
  end.

Lemma countb_range p n : 0 <= countb p n <= Z.of_nat n.
Proof. induction n; simpl countb; [lia|]. destruct (p _); simpl Z.b2z; lia. Qed.

Lemma countb_ext p q n :
  (forall i, 0 <= i < Z.of_nat n -> p i = q i) -> countb p n = countb q n.
Proof.
  induction n; simpl countb; intros H; auto.
  rewrite IHn, H by (intros; try apply H; lia). reflexivity.
Qed.

Lemma countb_flip p q n i :
  0 <= i < Z.of_nat n -> p i = false -> q i = true ->
  (forall j, 0 <= j < Z.of_nat n -> j <> i -> p j = q j) ->
  countb q n = countb p n + 1.
Proof.
  induction n; simpl countb; intros Hi Hp Hq Hne; [lia|].
  destruct (Z.eq_dec i (Z.of_nat n)) as [->|].
  - rewrite Hp, Hq. rewrite (countb_ext p q n) by (intros; apply Hne; lia).
    simpl. lia.
  - rewrite IHn by (auto; try lia; intros; apply Hne; lia).
    rewrite (Hne (Z.of_nat n)) by lia. lia.
Qed.

Lemma countb_pos p n i : 0 <= i < Z.of_nat n -> p i = true -> 1 <= countb p n.
Proof.
  induction n; simpl countb; intros Hi Hp; [lia|].
  pose proof (countb_range p n).
  destruct (Z.eq_dec i (Z.of_nat n)) as [->|].
  - rewrite Hp. simpl. lia.
  - assert (1 <= countb p n) by (apply IHn; auto; lia). destruct (p (Z.of_nat n)); simpl Z.b2z; lia.
Qed.

Lemma countb_all p n :
  (forall i, 0 <= i < Z.of_nat n -> p i = true) -> countb p n = Z.of_nat n.
Proof.
  induction n; simpl countb; intros H; auto.
  rewrite IHn, H by (intros; try apply H; lia). simpl. lia.
Qed.
