(* ===== verification/Pmm.v ===== *)
(** The physical memory manager of src/mm/pmm.c: a bitmap of page frames with
    a next-fit cursor, frame reference counts and contiguous allocation.

    Each operation takes [pmm_lock] for its whole body, so an operation is one
    atomic step here; [kprintf] output is not modelled.  Pointers are 32-bit
    ([uintptr_t] on the primary x86 target), frame numbers are [uint64_t]. *)

From S2P Require Import Prelude Bitmap.

Definition PAGE_SIZE : Z := 4096.
Definition MAX_RAM_SIZE : Z := 512 * 1024 * 1024.
Definition BITMAP_SIZE : Z := MAX_RAM_SIZE / PAGE_SIZE / 8.
Definition MAX_FRAMES : Z := MAX_RAM_SIZE / PAGE_SIZE.

(** The static variables of pmm.c. *)
Record pmm : Type := Pmm {
  memory_bitmap : array Z;
  frame_refcount : array Z;
  total_memory : Z;
  used_memory : Z;
  max_frames : Z;
  last_alloc_frame : Z
}.

Definition pmm_static : pmm := {|
  memory_bitmap := arr_new BITMAP_SIZE 0;
  frame_refcount := arr_new MAX_FRAMES 0;
  total_memory := 0;
  used_memory := 0;
  max_frames := 0;
  last_alloc_frame := 1 |}.

Definition with_bitmap (s : pmm) (bm : array Z) (um : Z) : pmm :=
  Pmm bm (frame_refcount s) (total_memory s) um (max_frames s) (last_alloc_frame s).
Definition with_refcount (s : pmm) (rc : array Z) : pmm :=
  Pmm (memory_bitmap s) rc (total_memory s) (used_memory s) (max_frames s) (last_alloc_frame s).
Definition with_last (s : pmm) (l : Z) : pmm :=
  Pmm (memory_bitmap s) (frame_refcount s) (total_memory s) (used_memory s) (max_frames s) l.

Definition align_down (value align : Z) : Z :=
  Z.land value (Z.lnot (align - 1)).

Definition align_up (value align : Z) : Z :=
  Z.land (u64 (value + align - 1)) (Z.lnot (align - 1)).

Definition bitmap_set (bm : array Z) (bit : Z) : res (array Z) :=
  b ← arr_get bm (bit / 8);
  arr_set bm (bit / 8) (u8 (Z.lor b (Z.shiftl 1 (bit mod 8)))).

Definition bitmap_unset (bm : array Z) (bit : Z) : res (array Z) :=
  b ← arr_get bm (bit / 8);
  arr_set bm (bit / 8) (u8 (Z.land b (Z.lnot (Z.shiftl 1 (bit mod 8))))).

Definition bitmap_test (bm : array Z) (bit : Z) : res Z :=
  b ← arr_get bm (bit / 8);
  mret (Z.land b (Z.shiftl 1 (bit mod 8))).

(** One iteration per frame; the loop leaves at [max_frames] at the latest,
    which bounds the fuel. *)
Fixpoint mark_region_loop (fuel : nat) (s : pmm) (start_frame frames_count i : Z)
    (used : bool) : res pmm :=
  match fuel with
  | O => NoFuel
  | S fuel =>
      if i <? frames_count then
        if max_frames s <=? start_frame + i then mret s
        else
          let frame := start_frame + i in
          t ← bitmap_test (memory_bitmap s) frame;
          let was_used := negb (t =? 0) in
          s' ← (if used then
                  if negb was_used then
                    bm ← bitmap_set (memory_bitmap s) frame;
                    mret (with_bitmap s bm (u64 (used_memory s + PAGE_SIZE)))
                  else mret s
                else
                  if was_used then
                    bm ← bitmap_unset (memory_bitmap s) frame;
                    mret (with_bitmap s bm (u64 (used_memory s - PAGE_SIZE)))
                  else mret s);
          mark_region_loop fuel s' start_frame frames_count (i + 1) used
      else mret s
  end.

Definition pmm_mark_region (s : pmm) (base size : Z) (used : bool) : res pmm :=
  let start_frame := base / PAGE_SIZE in
  let frames_count := size / PAGE_SIZE in
  mark_region_loop (S (Z.to_nat (max_frames s))) s start_frame frames_count 0 used.

Definition pmm_set_limits (s : pmm) (total_mem max_fr : Z) : pmm :=
  let total_mem := if MAX_RAM_SIZE <? total_mem then MAX_RAM_SIZE else total_mem in
  let total_mem := align_down total_mem PAGE_SIZE in
  let mf := if max_fr =? 0 then total_mem / PAGE_SIZE else max_fr in
  Pmm (memory_bitmap s) (frame_refcount s) total_mem (u64 (mf * PAGE_SIZE)) mf
      (last_alloc_frame s).

(** The weak default of the architecture hook. *)
Definition pmm_arch_init_default (s : pmm) : res pmm :=
  mret (pmm_set_limits s (16 * 1024 * 1024) 0).

(** What pmm.c asks of the hardware layer (include/hal/mm.h). *)
Record hal_mm : Type := HalMm {
  hal_mm_virt_to_phys : Z -> Z;
  hal_mm_kernel_virt_base : Z
}.

Fixpoint fill_bitmap (n : nat) (bm : array Z) : res (array Z) :=
  match n with
  | O => mret bm
  | S n =>
      bm' ← fill_bitmap n bm;
      arr_set bm' (Z.of_nat n) 255
  end.

(** The physical range of the kernel image, with the fallback for a hardware
    layer whose translation returns 0. *)
Definition kernel_phys_range (hal : hal_mm) (virt_start virt_end : Z) : Z * Z :=
  let phys_start := hal_mm_virt_to_phys hal virt_start in
  let phys_end := hal_mm_virt_to_phys hal virt_end in
  if (phys_start =? 0) && negb (virt_start =? 0) then
    let kvbase := hal_mm_kernel_virt_base hal in
    if negb (kvbase =? 0) && (kvbase <=? virt_start)
    then (u64 (virt_start - kvbase), u64 (virt_end - kvbase))
    else (virt_start, virt_end)
  else (phys_start, phys_end).

Definition pmm_init (hal : hal_mm) (virt_start virt_end : Z)
    (pmm_arch_init : pmm -> res pmm) (s : pmm) : res pmm :=
  bm ← fill_bitmap (Z.to_nat BITMAP_SIZE) (memory_bitmap s);
  s ← pmm_arch_init (with_bitmap s bm (used_memory s));
  let '(phys_start, phys_end) := kernel_phys_range hal virt_start virt_end in
  let phys_start_aligned := align_down phys_start PAGE_SIZE in
  let phys_end_aligned := align_up phys_end PAGE_SIZE in
  let phys_end_aligned :=
    if phys_end_aligned <? phys_start_aligned then phys_start_aligned
    else phys_end_aligned in
  let kernel_size := phys_end_aligned - phys_start_aligned in
  pmm_mark_region s phys_start_aligned kernel_size true.

(** The scan of [pmm_alloc_page]: next fit from [last_alloc_frame], wrapping
    to frame 1. *)
Fixpoint alloc_page_loop (fuel : nat) (s : pmm) (scanned : Z) : res (Z * pmm) :=
  match fuel with
  | O => NoFuel
  | S fuel =>
      if scanned <? u64 (max_frames s - 1) then
        let i := u64 (last_alloc_frame s + scanned) in
        let i := if max_frames s <=? i then u64 (1 + (i - max_frames s)) else i in
        t ← bitmap_test (memory_bitmap s) i;
        if t =? 0 then
          bm ← bitmap_set (memory_bitmap s) i;
          rc ← arr_set (frame_refcount s) i 1;
          let s1 := with_refcount (with_bitmap s bm (u64 (used_memory s + PAGE_SIZE))) rc in
          let last := u64 (i + 1) in
          let last := if max_frames s <=? last then 1 else last in
          mret (u32 (i * PAGE_SIZE), with_last s1 last)
        else alloc_page_loop fuel s (scanned + 1)
      else mret (0, s)
  end.

Definition pmm_alloc_page (s : pmm) : res (Z * pmm) :=
  let s := if last_alloc_frame s <? 1 then with_last s 1 else s in
  let s := if max_frames s <=? last_alloc_frame s then with_last s 1 else s in
  alloc_page_loop (Z.to_nat (max_frames s)) s 0.

(** The inner loop of [pmm_alloc_blocks]: the first [j] whose frame is used. *)
Fixpoint find_used (n : nat) (bm : array Z) (start j : Z) : res (option Z) :=
  match n with
  | O => mret None
  | S n =>
      t ← bitmap_test bm (start + j);
      if negb (t =? 0) then mret (Some j) else find_used n bm start (j + 1)
  end.

Fixpoint take_frames (n : nat) (s : pmm) (start j : Z) : res pmm :=
  match n with
  | O => mret s
  | S n =>
      bm ← bitmap_set (memory_bitmap s) (start + j);
      rc ← arr_set (frame_refcount s) (start + j) 1;
      take_frames n (with_refcount (with_bitmap s bm (u64 (used_memory s + PAGE_SIZE))) rc)
                  start (j + 1)
  end.

Fixpoint alloc_blocks_loop (fuel : nat) (s : pmm) (count start : Z) : res (Z * pmm) :=
  match fuel with
  | O => NoFuel
  | S fuel =>
      if start + count <=? max_frames s then
        hit ← find_used (Z.to_nat count) (memory_bitmap s) start 0;
        match hit with
        | Some j => alloc_blocks_loop fuel s count (start + j + 1)
        | None =>
            s' ← take_frames (Z.to_nat count) s start 0;
            mret (u32 (start * PAGE_SIZE), s')
        end
      else mret (0, s)
  end.

Definition pmm_alloc_blocks (s : pmm) (count : Z) : res (Z * pmm) :=
  if count =? 0 then mret (0, s)
  else if count =? 1 then pmm_alloc_page s
  else alloc_blocks_loop (S (Z.to_nat (max_frames s))) s count 1.

Definition pmm_free_page (s : pmm) (addr : Z) : res pmm :=
  let frame := addr / PAGE_SIZE in
  if (frame =? 0) || (max_frames s <=? frame) then mret s
  else
    rc ← arr_get (frame_refcount s) frame;
    free ← (if rc =? 0 then mret true
            else t ← bitmap_test (memory_bitmap s) frame; mret (t =? 0));
    if (free : bool) then mret s           (* double free: reported, no change *)
    else if 1 <? rc then
      rcs ← arr_set (frame_refcount s) frame (rc - 1);
      mret (with_refcount s rcs)
    else
      rcs ← arr_set (frame_refcount s) frame 0;
      bm ← bitmap_unset (memory_bitmap s) frame;
      mret (with_bitmap (with_refcount s rcs) bm (u64 (used_memory s - PAGE_SIZE))).

Fixpoint free_blocks_loop (n : nat) (s : pmm) (addr i : Z) : res pmm :=
  match n with
  | O => mret s
  | S n =>
      s' ← pmm_free_page s (u32 (addr + i * PAGE_SIZE));
      free_blocks_loop n s' addr (i + 1)
  end.

Definition pmm_free_blocks (s : pmm) (addr count : Z) : res pmm :=
  free_blocks_loop (Z.to_nat count) s addr 0.

Definition pmm_incref (s : pmm) (paddr : Z) : res pmm :=
  let frame := paddr / PAGE_SIZE in
  if (frame =? 0) || (max_frames s <=? frame) then mret s
  else
    rc ← arr_get (frame_refcount s) frame;
    rcs ← arr_set (frame_refcount s) frame (u32 (rc + 1));
    mret (with_refcount s rcs).

Definition pmm_decref (s : pmm) (paddr : Z) : res (Z * pmm) :=
  let frame := paddr / PAGE_SIZE in
  if (frame =? 0) || (max_frames s <=? frame) then mret (0, s)
  else
    rc ← arr_get (frame_refcount s) frame;
    if rc =? 0 then mret (0, s)            (* underflow: reported, no change *)
    else
      let new_val := rc - 1 in
      rcs ← arr_set (frame_refcount s) frame new_val;
      let s1 := with_refcount s rcs in
      if new_val =? 0 then
        bm ← bitmap_unset (memory_bitmap s1) frame;
        mret (new_val, with_bitmap s1 bm (u64 (used_memory s1 - PAGE_SIZE)))
      else mret (new_val, s1).

Definition pmm_get_refcount (s : pmm) (paddr : Z) : res Z :=
  let frame := paddr / PAGE_SIZE in
  if max_frames s <=? frame then mret 0 else arr_get (frame_refcount s) frame.

(** The figures [pmm_print_stats] reports, in KB: total, used, free. *)
Definition pmm_print_stats (s : pmm) : Z * Z * Z :=
  (total_memory s / 1024, used_memory s / 1024,
   if used_memory s <? total_memory s
   then (total_memory s - used_memory s) / 1024 else 0).

(** ** The frame view of the state *)

Definition used (s : pmm) (f : Z) : bool := bit_at (memory_bitmap s) f.
Definition rc_of (s : pmm) (f : Z) : Z := arr_at (frame_refcount s) f.
Definition used_count (s : pmm) : Z := countb (used s) (Z.to_nat (max_frames s)).

(** The invariant: the arrays have their static size, a frame with references
    is marked used, and [used_memory] counts the marked frames. *)
Record pmm_ok (s : pmm) : Prop := PmmOk {
  ok_bm_len : arr_len (memory_bitmap s) = BITMAP_SIZE;
  ok_rc_len : arr_len (frame_refcount s) = MAX_FRAMES;
  ok_bytes : bytes_ok (memory_bitmap s);
  ok_rc : forall f, is_u32 (rc_of s f);
  ok_max : 1 <= max_frames s <= MAX_FRAMES;
  ok_last : 0 <= last_alloc_frame s <= MAX_FRAMES;
  ok_live : forall f, 0 <= f < max_frames s -> 0 < rc_of s f -> used s f = true;
  ok_used : used_memory s = PAGE_SIZE * used_count s
}.

Lemma consts_eq : BITMAP_SIZE = 16384 /\ MAX_FRAMES = 131072 /\ PAGE_SIZE = 4096.
Proof. repeat split. Qed.

Ltac pmm_consts :=
  let H1 := fresh in let H2 := fresh in let H3 := fresh in
  destruct consts_eq as (H1 & H2 & H3); rewrite ?H1, ?H2, ?H3 in *; clear H1 H2 H3.

Section bitmap_ops.
Variable bm : array Z.
Hypothesis Hlen : arr_len bm = BITMAP_SIZE.
Hypothesis Hbytes : bytes_ok bm.

Lemma frame_in_bitmap f : 0 <= f < MAX_FRAMES -> 0 <= f / 8 < arr_len bm.
Proof. rewrite Hlen. intros. apply bit_in_range. pmm_consts. lia. Qed.

Lemma bitmap_test_ok f :
  0 <= f < MAX_FRAMES ->
  exists t, bitmap_test bm f = Ok t /\ (t =? 0) = negb (bit_at bm f).
Proof.
  intros Hf. unfold bitmap_test. rewrite arr_get_ok by auto using frame_in_bitmap.
  simpl. eexists; split; [reflexivity|]. apply land_bit_eqb, mod8_range.
Qed.

Lemma bitmap_set_ok f : 0 <= f < MAX_FRAMES -> bitmap_set bm f = Ok (setbit bm f).
Proof.
  intros Hf. unfold bitmap_set. pose proof (frame_in_bitmap f Hf).
  rewrite arr_get_ok by auto. simpl. rewrite arr_set_ok by auto.
  rewrite u8_small; [reflexivity|].
  apply is_u8_setbit; auto using mod8_range.
Qed.

Lemma bitmap_unset_ok f : 0 <= f < MAX_FRAMES -> bitmap_unset bm f = Ok (clearbit bm f).
Proof.
  intros Hf. unfold bitmap_unset. pose proof (frame_in_bitmap f Hf).
  rewrite arr_get_ok by auto. simpl. rewrite arr_set_ok by auto.
  rewrite u8_small; [reflexivity|].
  apply is_u8_clearbit; auto.
Qed.
End bitmap_ops.

(** Elementary state changes and their effect on the invariant. *)
Definition take (s : pmm) (f : Z) : pmm :=
  with_refcount (with_bitmap s (setbit (memory_bitmap s) f)
                   (u64 (used_memory s + PAGE_SIZE)))
                (arr_put (frame_refcount s) f 1).

Definition drop (s : pmm) (f : Z) : pmm :=
  with_bitmap (with_refcount s (arr_put (frame_refcount s) f 0))
              (clearbit (memory_bitmap s) f) (u64 (used_memory s - PAGE_SIZE)).

Definition recount (s : pmm) (f n : Z) : pmm :=
  with_refcount s (arr_put (frame_refcount s) f n).

Section preservation.
Context (s : pmm) (Hok : pmm_ok s).

Lemma used_count_range : 0 <= used_count s <= max_frames s.
Proof.
  pose proof (ok_max s Hok).
  pose proof (countb_range (used s) (Z.to_nat (max_frames s))).
  unfold used_count. lia.
Qed.

Lemma pmm_ok_mark f :
  0 <= f < max_frames s -> used s f = false ->
  pmm_ok (with_bitmap s (setbit (memory_bitmap s) f) (u64 (used_memory s + PAGE_SIZE))).
Proof.
  intros Hf Hu. pose proof used_count_range. destruct Hok. pmm_consts.
  assert (Hc : countb (bit_at (setbit (memory_bitmap s) f)) (Z.to_nat (max_frames s))
               = used_count s + 1).
  { unfold used_count. apply countb_flip with f; auto; try lia.
    - rewrite bit_at_setbit, Z.eqb_refl. reflexivity.
    - intros j _ Hj. rewrite bit_at_setbit. zdecide. reflexivity. }
  split; simpl; auto; try (pmm_consts; lia).
  - apply setbit_bytes; auto.
  - intros g Hg Hr. unfold used; simpl. rewrite bit_at_setbit.
    unfold used in ok_live0. rewrite ok_live0 by auto. apply orb_true_r.
  - change (u64 (used_memory s + PAGE_SIZE) = PAGE_SIZE *
      countb (bit_at (setbit (memory_bitmap s) f)) (Z.to_nat (max_frames s))).
    rewrite Hc, ok_used0. pmm_consts. rewrite u64_small; lia.
Qed.

Lemma pmm_ok_unmark f :
  0 <= f < max_frames s -> used s f = true -> rc_of s f = 0 ->
  pmm_ok (with_bitmap s (clearbit (memory_bitmap s) f) (u64 (used_memory s - PAGE_SIZE))).
Proof.
  intros Hf Hu Hr0. pose proof used_count_range. destruct Hok. pmm_consts.
  assert (Hc : used_count s
     = countb (bit_at (clearbit (memory_bitmap s) f)) (Z.to_nat (max_frames s)) + 1).
  { unfold used_count. apply countb_flip with f; auto; try lia.
    - rewrite bit_at_clearbit, Z.eqb_refl. reflexivity.
    - intros j _ Hj. rewrite bit_at_clearbit. zdecide. reflexivity. }
  pose proof (countb_range (bit_at (clearbit (memory_bitmap s) f)) (Z.to_nat (max_frames s))).
  split; simpl; auto; try (pmm_consts; lia).
  - apply clearbit_bytes; auto.
  - intros g Hg Hr. unfold used; simpl. rewrite bit_at_clearbit.
    unfold used in ok_live0. rewrite ok_live0 by auto.
    destruct (Z.eqb_spec f g); [subst; unfold rc_of in *; simpl in *; lia | reflexivity].
  - change (u64 (used_memory s - PAGE_SIZE) = PAGE_SIZE *
      countb (bit_at (clearbit (memory_bitmap s) f)) (Z.to_nat (max_frames s))).
    rewrite ok_used0, Hc. pmm_consts. rewrite u64_small; lia.
Qed.

Lemma pmm_ok_recount f n :
  is_u32 n -> (0 < n -> used s f = true) -> pmm_ok (recount s f n).
Proof.
  intros Hn Hu. destruct Hok. split; simpl; auto.
  - intros g. unfold rc_of; simpl. rewrite arr_at_put. bdestr; auto. apply ok_rc0.
  - intros g Hg. unfold rc_of; simpl. rewrite arr_at_put.
    bdestr; intros; [subst; apply Hu; auto | apply ok_live0; auto].
Qed.

Lemma pmm_ok_last l : 0 <= l <= MAX_FRAMES -> pmm_ok (with_last s l).
Proof. intros. destruct Hok. split; auto. Qed.
End preservation.

#[export] Hint Resolve pmm_ok_mark pmm_ok_unmark pmm_ok_recount pmm_ok_last : adros.

Lemma take_ok s f : pmm_ok s -> 0 <= f < max_frames s -> used s f = false -> pmm_ok (take s f).
Proof.
  intros H Hf Hu. unfold take.
  apply (pmm_ok_recount
    (with_bitmap s (setbit (memory_bitmap s) f) (u64 (used_memory s + PAGE_SIZE))));
    [auto with adros | split; lia |].
  intros _. unfold used; simpl. rewrite bit_at_setbit, Z.eqb_refl. reflexivity.
Qed.

Lemma drop_ok s f : pmm_ok s -> 0 <= f < max_frames s -> used s f = true -> pmm_ok (drop s f).
Proof.
  intros H Hf Hu. unfold drop.
  apply (pmm_ok_unmark (recount s f 0)); auto.
  - apply pmm_ok_recount; [auto | split; lia | lia].
  - unfold rc_of; simpl. apply arr_at_put_eq.
Qed.

Lemma used_take s f g : used (take s f) g = (f =? g) || used s g.
Proof. apply bit_at_setbit. Qed.
Lemma used_drop s f g : used (drop s f) g = negb (f =? g) && used s g.
Proof. apply bit_at_clearbit. Qed.
Lemma rc_take s f g : rc_of (take s f) g = if f =? g then 1 else rc_of s g.
Proof. apply arr_at_put. Qed.
Lemma rc_drop s f g : rc_of (drop s f) g = if f =? g then 0 else rc_of s g.
Proof. apply arr_at_put. Qed.
Lemma rc_recount s f n g : rc_of (recount s f n) g = if f =? g then n else rc_of s g.
Proof. apply arr_at_put. Qed.

(** ** Functional behaviour of the operations *)

(** The frame the scan of [pmm_alloc_page] looks at in iteration [k]. *)
Definition cursor (s : pmm) (k : Z) : Z :=
  let i := last_alloc_frame s + k in
  if max_frames s <=? i then 1 + (i - max_frames s) else i.

Lemma cursor_range s k :
  1 <= last_alloc_frame s < max_frames s -> 0 <= k < max_frames s - 1 ->
  1 <= cursor s k < max_frames s.
Proof. intros. unfold cursor. bdestr; lia. Qed.

Lemma cursor_onto s f :
  1 <= last_alloc_frame s < max_frames s -> 1 <= f < max_frames s ->
  exists k, 0 <= k < max_frames s - 1 /\ cursor s k = f.
Proof.
  intros. destruct (Z.le_gt_cases (last_alloc_frame s) f).
  - exists (f - last_alloc_frame s). unfold cursor. zdecide. lia.
  - exists (f - 1 + max_frames s - last_alloc_frame s). unfold cursor. zdecide. lia.
Qed.

(** What a single-page allocation may do: hand out a frame that was free, or
    report exhaustion when every frame is in use. *)
Inductive alloc_result (s : pmm) : Z -> pmm -> Prop :=
| AllocPage f l :
    1 <= f < max_frames s -> used s f = false -> 1 <= l <= MAX_FRAMES ->
    alloc_result s (f * PAGE_SIZE) (with_last (take s f) l)
| AllocOom l :
    (forall f, 1 <= f < max_frames s -> used s f = true) -> 0 <= l <= MAX_FRAMES ->
    alloc_result s 0 (with_last s l).

Lemma alloc_page_loop_ok fuel : forall s k,
  pmm_ok s -> 1 <= last_alloc_frame s -> 0 <= k <= max_frames s - 1 ->
  (last_alloc_frame s < max_frames s \/ max_frames s = 1) ->
  max_frames s - 1 - k < Z.of_nat fuel ->
  (forall j, 0 <= j < k -> used s (cursor s j) = true) ->
  exists r s', alloc_page_loop fuel s k = Ok (r, s') /\ alloc_result s r s'.
Proof.
  induction fuel as [|fuel IH]; intros s k Hok Hl1 Hk Hl2 Hfuel Hseen; [lia|].
  pose proof (ok_max s Hok) as Hmax. pmm_consts.
  simpl. rewrite (u64_small (max_frames s - 1)) by lia. bdestr.
  2:{ exists 0, s. split; [reflexivity|].
      replace s with (with_last s (last_alloc_frame s)) at 2 by (destruct s; reflexivity).
      apply AllocOom; [|destruct Hok; lia].
      intros f Hf. destruct (cursor_onto s f) as (j & Hj & <-); [lia..|]. apply Hseen. lia. }
  rewrite (u64_small (last_alloc_frame s + k)) by (pmm_consts; lia).
  replace (if max_frames s <=? last_alloc_frame s + k
           then u64 (1 + (last_alloc_frame s + k - max_frames s))
           else last_alloc_frame s + k) with (cursor s k)
    by (unfold cursor; bdestr; rewrite ?u64_small by lia; reflexivity).
  pose proof (cursor_range s k ltac:(lia) ltac:(lia)) as Hc.
  assert (Hc' : 0 <= cursor s k < MAX_FRAMES) by (pmm_consts; lia).
  destruct (bitmap_test_ok (memory_bitmap s) (ok_bm_len s Hok) (cursor s k) Hc') as (t & -> & Ht).
  simpl. rewrite Ht. fold (used s (cursor s k)).
  destruct (used s (cursor s k)) eqn:Hu; simpl.
  - apply IH; auto; try lia. intros j Hj.
    destruct (Z.eq_dec j k) as [->|]; auto. apply Hseen. lia.
  - rewrite bitmap_set_ok by (destruct Hok; auto). simpl.
    rewrite arr_set_ok by (rewrite (ok_rc_len s Hok); auto). simpl.
    rewrite (u64_small (cursor s k + 1)), (u32_small (cursor s k * PAGE_SIZE)) by (pmm_consts; lia).
    eexists _, _. split; [reflexivity|].
    apply AllocPage; auto; pmm_consts; bdestr; lia.
Qed.

(** [pmm_alloc_page] in full: it always returns, and it fails only when no
    frame is free. *)
Lemma pmm_alloc_page_ok s :
  pmm_ok s -> exists r s', pmm_alloc_page s = Ok (r, s') /\ alloc_result s r s'.
Proof.
  intros Hok. unfold pmm_alloc_page.
  pose proof (ok_max s Hok) as Hmax. pose proof (ok_last s Hok) as Hlast.
  set (l1 := if last_alloc_frame s <? 1 then 1 else last_alloc_frame s).
  set (l2 := if max_frames s <=? l1 then 1 else l1).
  assert (E1 : (if last_alloc_frame s <? 1 then with_last s 1 else s) = with_last s l1)
    by (unfold l1; destruct s; simpl; bdestr; reflexivity).
  rewrite E1.
  assert (E2 : (if max_frames (with_last s l1) <=? last_alloc_frame (with_last s l1)
                then with_last (with_last s l1) 1 else with_last s l1) = with_last s l2)
    by (unfold l2; simpl; bdestr; reflexivity).
  rewrite E2.
  assert (Hl : 1 <= l2 <= MAX_FRAMES) by (unfold l2, l1; pmm_consts; repeat bdestr; lia).
  destruct (alloc_page_loop_ok (Z.to_nat (max_frames (with_last s l2))) (with_last s l2) 0)
    as (r & s' & E & R); simpl; try lia.
  - apply pmm_ok_last; auto. lia.
  - unfold l2. bdestr; lia.
  - exists r, s'. split; [exact E|]. 
    destruct R as [f l|l]; [apply (AllocPage s f l) | apply (AllocOom s l)]; auto.
Qed.

Lemma alloc_result_ok s r s' : pmm_ok s -> alloc_result s r s' -> pmm_ok s'.
Proof.
  intros Hok [f l Hf Hu Hl | l Hall Hl]; apply pmm_ok_last; auto; try lia.
  apply take_ok; auto. lia.
Qed.

(** Contiguous allocation: the frames of a run, one after the other. *)
Fixpoint take_run (n : nat) (s : pmm) (f : Z) : pmm :=
  match n with
  | O => s
  | S n => take_run n (take s f) (f + 1)
  end.

Lemma used_take_run n : forall s f g,
  used (take_run n s f) g = (f <=? g) && (g <? f + Z.of_nat n) || used s g.
Proof.
  induction n as [|n IH]; intros s f g; simpl.
  - repeat bdestr; simpl; auto; lia.
  - rewrite IH, used_take. destruct (used s g); rewrite ?orb_true_r; auto.
    rewrite !orb_false_r. repeat bdestr; simpl; auto; lia.
Qed.

Lemma rc_take_run n : forall s f g,
  rc_of (take_run n s f) g = if (f <=? g) && (g <? f + Z.of_nat n) then 1 else rc_of s g.
Proof.
  induction n as [|n IH]; intros s f g; simpl.
  - repeat bdestr; simpl; auto; lia.
  - rewrite IH, rc_take. repeat bdestr; simpl; auto; lia.
Qed.

Lemma max_take_run n : forall s f, max_frames (take_run n s f) = max_frames s.
Proof. induction n; intros; simpl; auto. rewrite IHn. reflexivity. Qed.

Lemma take_run_ok n : forall s f,
  pmm_ok s -> 0 <= f -> f + Z.of_nat n <= max_frames s ->
  (forall g, f <= g < f + Z.of_nat n -> used s g = false) -> pmm_ok (take_run n s f).
Proof.
  induction n as [|n IH]; intros s f Hok Hf Hn Hfree; simpl; auto.
  apply IH; try (simpl; lia).
  - apply take_ok; auto; [lia|]. apply Hfree. lia.
  - intros g Hg. rewrite used_take, Hfree by lia. zdecide. reflexivity.
Qed.

Lemma take_frames_ok n : forall s start j,
  pmm_ok s -> 0 <= start + j -> start + j + Z.of_nat n <= max_frames s ->
  (forall g, start + j <= g < start + j + Z.of_nat n -> used s g = false) ->
  take_frames n s start j = Ok (take_run n s (start + j)).
Proof.
  induction n as [|n IH]; intros s start j Hok Hj Hn Hfree; simpl; auto.
  pose proof (ok_max s Hok).
  rewrite bitmap_set_ok by (destruct Hok; auto; lia). simpl.
  rewrite arr_set_ok by (rewrite (ok_rc_len s Hok); lia). simpl.
  fold (take s (start + j)). rewrite IH; simpl; try lia.
  - f_equal. f_equal. lia.
  - apply take_ok; auto; [lia|]. apply Hfree. lia.
  - intros g Hg. rewrite used_take, Hfree by lia. zdecide. reflexivity.
Qed.

Lemma find_used_ok n : forall s start j,
  pmm_ok s -> 0 <= start + j -> start + j + Z.of_nat n <= max_frames s ->
  (exists k, find_used n (memory_bitmap s) start j = Ok (Some k) /\
             j <= k < j + Z.of_nat n /\ used s (start + k) = true) \/
  (find_used n (memory_bitmap s) start j = Ok None /\
   forall g, start + j <= g < start + j + Z.of_nat n -> used s g = false).
Proof.
  induction n as [|n IH]; intros s start j Hok Hj Hn; simpl.
  - right. split; auto. lia.
  - pose proof (ok_max s Hok).
    destruct (bitmap_test_ok (memory_bitmap s) (ok_bm_len s Hok) (start + j))
      as (t & -> & Ht); [lia|].
    simpl. rewrite Ht, negb_involutive. fold (used s (start + j)).
    destruct (used s (start + j)) eqn:Hu.
    + left. exists j. repeat split; auto; lia.
    + destruct (IH s start (j + 1) Hok) as [(k & E & Hk & Hku) | (E & Hfree)]; try lia.
      * left. exists k. repeat split; auto; lia.
      * right. split; auto. intros g Hg. destruct (Z.eq_dec g (start + j)) as [->|]; auto.
        apply Hfree. lia.
Qed.

(** A run of [count] frames starting at [f] is free. *)
Definition run_free (s : pmm) (count f : Z) : Prop :=
  forall g, f <= g < f + count -> used s g = false.

Inductive blocks_result (s : pmm) (count : Z) : Z -> pmm -> Prop :=
| BlocksRun f l :
    1 <= f -> f + count <= max_frames s -> run_free s count f -> 0 <= l <= MAX_FRAMES ->
    blocks_result s count (f * PAGE_SIZE) (with_last (take_run (Z.to_nat count) s f) l)
| BlocksOom l :
    (forall f, 1 <= f -> f + count <= max_frames s -> ~ run_free s count f) ->
    0 <= l <= MAX_FRAMES -> blocks_result s count 0 (with_last s l).

Lemma with_last_id s : with_last s (last_alloc_frame s) = s.
Proof. destruct s; reflexivity. Qed.

Lemma last_take_run n : forall s f, last_alloc_frame (take_run n s f) = last_alloc_frame s.
Proof. induction n; intros; simpl; auto. rewrite IHn. reflexivity. Qed.

(** The skip past a used frame loses no candidate run. *)
Lemma alloc_blocks_loop_ok fuel : forall s count start,
  pmm_ok s -> 0 < count -> 1 <= start <= max_frames s ->
  max_frames s - start < Z.of_nat fuel ->
  (forall f, 1 <= f < start -> f + count <= max_frames s -> ~ run_free s count f) ->
  exists r s', alloc_blocks_loop fuel s count start = Ok (r, s') /\ blocks_result s count r s'.
Proof.
  induction fuel as [|fuel IH]; intros s count start Hok Hc Hs Hfuel Hseen.
  { simpl. lia. }
  simpl. pose proof (ok_max s Hok). pose proof (ok_last s Hok). bdestr.
  2:{ exists 0, s. split; [reflexivity|]. rewrite <- (with_last_id s) at 2.
      apply BlocksOom; auto. intros f Hf Hfc. apply Hseen; lia. }
  destruct (find_used_ok (Z.to_nat count) s start 0 Hok) as [(k & E & Hk & Hku) | (E & Hfree)];
    try lia; rewrite E; simpl.
  - apply IH; auto; try lia. intros f Hf Hfc.
    destruct (Z.lt_ge_cases f start) as [|Hge]; [apply Hseen; lia|].
    intros Hrun. rewrite Hrun in Hku by lia. discriminate.
  - rewrite take_frames_ok by (auto; lia). simpl.
    rewrite u32_small by (pmm_consts; lia). rewrite Z.add_0_r in *.
    eexists _, _. split; [reflexivity|].
    rewrite <- (with_last_id (take_run _ _ _)). rewrite last_take_run.
    apply BlocksRun; auto; [lia|]. intros g Hg. apply Hfree. lia.
Qed.

Lemma pmm_alloc_blocks_ok s count :
  pmm_ok s -> 0 < count ->
  exists r s', pmm_alloc_blocks s count = Ok (r, s') /\ blocks_result s count r s'.
Proof.
  intros Hok Hc. unfold pmm_alloc_blocks. pose proof (ok_max s Hok). bdestr; [lia|]. bdestr.
  - subst. destruct (pmm_alloc_page_ok s Hok) as (r & s' & -> & R).
    eexists _, _. split; [reflexivity|].
    destruct R as [f l Hf Hu Hl | l Hall Hl].
    + apply (BlocksRun s 1 f l); try lia. intros g Hg. replace g with f by lia. auto.
    + apply BlocksOom; auto. intros f Hf Hfc Hrun. specialize (Hrun f ltac:(lia)).
      rewrite Hall in Hrun by lia. discriminate.
  - apply alloc_blocks_loop_ok; auto; try lia.
Qed.

Lemma blocks_result_ok s count r s' :
  pmm_ok s -> 0 < count -> blocks_result s count r s' -> pmm_ok s'.
Proof.
  intros Hok Hc [f l Hf Hfc Hrun Hl | l Hall Hl]; apply pmm_ok_last; auto.
  apply take_run_ok; auto; try lia. intros g Hg. apply Hrun. lia.
Qed.

(** Reference counting on every branch. *)
Definition in_frames (s : pmm) (f : Z) : Prop := 1 <= f < max_frames s.

Lemma frame_guard s addr :
  0 <= addr ->
  (addr / PAGE_SIZE =? 0) || (max_frames s <=? addr / PAGE_SIZE) = false ->
  in_frames s (addr / PAGE_SIZE).
Proof.
  intros Ha H. apply orb_false_iff in H as [H1%Z.eqb_neq H2%Z.leb_gt].
  assert (0 <= addr / PAGE_SIZE) by (apply Z.div_pos; pmm_consts; lia).
  unfold in_frames. lia.
Qed.

Lemma frame_guard_true s addr :
  (addr / PAGE_SIZE =? 0) || (max_frames s <=? addr / PAGE_SIZE) = true ->
  ~ in_frames s (addr / PAGE_SIZE).
Proof.
  intros H. apply orb_true_iff in H as [H%Z.eqb_eq | H%Z.leb_le]; unfold in_frames; lia.
Qed.

Section counting.
Context (s : pmm) (Hok : pmm_ok s) (addr : Z) (Haddr : 0 <= addr).
Let f := addr / PAGE_SIZE.

Lemma rc_get : in_frames s f -> arr_get (frame_refcount s) f = Ok (rc_of s f).
Proof.
  intros [? ?]. pose proof (ok_max s Hok).
  apply arr_get_ok. rewrite (ok_rc_len s Hok). lia.
Qed.

Lemma rc_set n :
  in_frames s f -> arr_set (frame_refcount s) f n = Ok (arr_put (frame_refcount s) f n).
Proof.
  intros [? ?]. pose proof (ok_max s Hok).
  apply arr_set_ok. rewrite (ok_rc_len s Hok). lia.
Qed.

Lemma pmm_free_page_ok :
  pmm_free_page s addr = Ok
    (if bool_decide (in_frames s f /\ 0 < rc_of s f) then
       if 1 <? rc_of s f then recount s f (rc_of s f - 1) else drop s f
     else s).
Proof.
  unfold pmm_free_page. fold f. pose proof (ok_max s Hok). pose proof (ok_rc s Hok f) as [? ?].
  destruct ((f =? 0) || (max_frames s <=? f)) eqn:G.
  { apply frame_guard_true in G. rewrite bool_decide_eq_false_2 by tauto. reflexivity. }
  apply frame_guard in G; auto. fold f in G. pose proof G as [? ?].
  rewrite rc_get by auto. simpl. destruct (Z.eqb_spec (rc_of s f) 0); simpl.
  { rewrite bool_decide_eq_false_2 by (intros [_ ?]; lia). reflexivity. }
  rewrite bool_decide_eq_true_2 by (split; [auto|lia]).
  destruct (bitmap_test_ok (memory_bitmap s) (ok_bm_len s Hok) f) as (t & -> & Ht); [lia|].
  simpl. rewrite Ht. fold (used s f). rewrite (ok_live s Hok) by lia. simpl.
  bdestr; rewrite rc_set by auto; simpl; [reflexivity|].
  rewrite bitmap_unset_ok by (destruct Hok; auto; lia). reflexivity.
Qed.

Lemma pmm_incref_ok :
  pmm_incref s addr = Ok
    (if bool_decide (in_frames s f) then recount s f (u32 (rc_of s f + 1)) else s).
Proof.
  unfold pmm_incref. fold f.
  destruct ((f =? 0) || (max_frames s <=? f)) eqn:G.
  { apply frame_guard_true in G. rewrite bool_decide_eq_false_2 by tauto. reflexivity. }
  apply frame_guard in G; auto. fold f in G.
  rewrite rc_get, bool_decide_eq_true_2 by auto. simpl. rewrite rc_set by auto. reflexivity.
Qed.

Lemma pmm_decref_ok :
  pmm_decref s addr = Ok
    (if bool_decide (in_frames s f /\ 0 < rc_of s f) then
       (rc_of s f - 1,
        if 1 <? rc_of s f then recount s f (rc_of s f - 1) else drop s f)
     else (0, s)).
Proof.
  unfold pmm_decref. fold f. pose proof (ok_rc s Hok f) as [? ?].
  destruct ((f =? 0) || (max_frames s <=? f)) eqn:G.
  { apply frame_guard_true in G. rewrite bool_decide_eq_false_2 by tauto. reflexivity. }
  apply frame_guard in G; auto. fold f in G. pose proof G as [? ?].
  pose proof (ok_max s Hok).
  rewrite rc_get by auto. simpl. destruct (Z.eqb_spec (rc_of s f) 0).
  { rewrite bool_decide_eq_false_2 by (intros [_ ?]; lia). reflexivity. }
  rewrite bool_decide_eq_true_2 by (split; [auto|lia]).
  rewrite rc_set by auto. simpl. bdestr; bdestr; try lia; [reflexivity|].
  rewrite bitmap_unset_ok by (destruct Hok; auto; lia). simpl.
  replace (rc_of s f - 1) with 0 by lia. reflexivity.
Qed.
End counting.

(** ** The contract: reference-counted frames

    The abstract allocator keeps the set of available frames and the reference
    count of each live frame.  Allocation picks any available frame (or run);
    releasing the last reference makes the frame available again; releasing a
    frame that is not live changes nothing. *)
Record frames : Type := Frames {
  avail : gset Z;
  live : gmap Z Z
}.

Inductive fop : Type :=
| OpAllocPage
| OpAllocBlocks (count : Z)
| OpFreePage (addr : Z)
| OpIncref (addr : Z)
| OpDecref (addr : Z).

Definition run_set (f count : Z) : gset Z := list_to_set (seqZ f count).
Definition run_map (f count : Z) : gmap Z Z := gset_to_gmap 1 (run_set f count).

Inductive fstep : frames -> fop -> Z -> frames -> Prop :=
| FAlloc A L f : f ∈ A ->
    fstep (Frames A L) OpAllocPage (f * PAGE_SIZE) (Frames (A ∖ {[f]}) (<[f := 1]> L))
| FAllocOom L : fstep (Frames ∅ L) OpAllocPage 0 (Frames ∅ L)
| FBlocks A L f n : 0 < n -> run_set f n ⊆ A ->
    fstep (Frames A L) (OpAllocBlocks n) (f * PAGE_SIZE)
          (Frames (A ∖ run_set f n) (run_map f n ∪ L))
| FBlocksOom A L n : (n = 0 \/ forall f, ~ run_set f n ⊆ A) ->
    fstep (Frames A L) (OpAllocBlocks n) 0 (Frames A L)
| FFreeShared A L a n : L !! (a / PAGE_SIZE) = Some n -> 1 < n ->
    fstep (Frames A L) (OpFreePage a) 0 (Frames A (<[a / PAGE_SIZE := n - 1]> L))
| FFreeLast A L a : L !! (a / PAGE_SIZE) = Some 1 ->
    fstep (Frames A L) (OpFreePage a) 0
          (Frames ({[a / PAGE_SIZE]} ∪ A) (delete (a / PAGE_SIZE) L))
| FFreeDead A L a : L !! (a / PAGE_SIZE) = None ->
    fstep (Frames A L) (OpFreePage a) 0 (Frames A L)
| FIncref A L a n : L !! (a / PAGE_SIZE) = Some n ->
    fstep (Frames A L) (OpIncref a) 0 (Frames A (<[a / PAGE_SIZE := n + 1]> L))
| FDecrefShared A L a n : L !! (a / PAGE_SIZE) = Some n -> 1 < n ->
    fstep (Frames A L) (OpDecref a) (n - 1) (Frames A (<[a / PAGE_SIZE := n - 1]> L))
| FDecrefLast A L a : L !! (a / PAGE_SIZE) = Some 1 ->
    fstep (Frames A L) (OpDecref a) 0
          (Frames ({[a / PAGE_SIZE]} ∪ A) (delete (a / PAGE_SIZE) L))
| FDecrefDead A L a : L !! (a / PAGE_SIZE) = None ->
    fstep (Frames A L) (OpDecref a) 0 (Frames A L).

(** The callers' side of the contract: addresses are pointers, and a reference
    is only added to a frame that is live and whose counter has room. *)
Definition fop_pre (F : frames) (op : fop) : Prop :=
  match op with
  | OpAllocPage => True
  | OpAllocBlocks n => is_u32 n
  | OpFreePage a | OpDecref a => is_u32 a
  | OpIncref a =>
      is_u32 a /\ exists n, live F !! (a / PAGE_SIZE) = Some n /\ n + 1 < 4294967296
  end.

Definition pmm_run (op : fop) (s : pmm) : res (Z * pmm) :=
  match op with
  | OpAllocPage => pmm_alloc_page s
  | OpAllocBlocks n => pmm_alloc_blocks s n
  | OpFreePage a => s' ← pmm_free_page s a; mret (0, s')
  | OpIncref a => s' ← pmm_incref s a; mret (0, s')
  | OpDecref a => pmm_decref s a
  end.

(** The abstraction function. *)
Definition frames_of (s : pmm) : frames :=
  let fs := seqZ 1 (max_frames s - 1) in
  Frames (list_to_set (filter (fun f => used s f = false) fs))
         (list_to_map ((fun f => (f, rc_of s f)) <$> filter (fun f => 0 < rc_of s f) fs)).

Lemma elem_of_avail s f :
  f ∈ avail (frames_of s) <-> in_frames s f /\ used s f = false.
Proof.
  unfold in_frames. simpl. rewrite elem_of_list_to_set, list_elem_of_filter, elem_of_seqZ.
  intuition lia.
Qed.

Lemma lookup_live s f :
  live (frames_of s) !! f =
  if bool_decide (in_frames s f /\ 0 < rc_of s f) then Some (rc_of s f) else None.
Proof.
  simpl. case_bool_decide as H.
  - apply elem_of_list_to_map_1.
    + rewrite <- list_fmap_compose. apply NoDup_fmap_2; [intros ? ? ?; auto|].
      apply NoDup_filter, NoDup_seqZ.
    + apply list_elem_of_fmap. exists f. split; auto.
      rewrite list_elem_of_filter, elem_of_seqZ. unfold in_frames in H. lia.
  - apply not_elem_of_list_to_map_1. rewrite <- list_fmap_compose.
    intros (g & -> & Hg)%list_elem_of_fmap.
    rewrite list_elem_of_filter, elem_of_seqZ in Hg. apply H. unfold in_frames; simpl. lia.
Qed.

Lemma frames_eq s A L :
  (forall f, f ∈ A <-> in_frames s f /\ used s f = false) ->
  (forall f, L !! f = if bool_decide (in_frames s f /\ 0 < rc_of s f)
                      then Some (rc_of s f) else None) ->
  frames_of s = Frames A L.
Proof.
  intros HA HL. destruct (frames_of s) as [A' L'] eqn:E. f_equal.
  - apply set_eq. intros f. rewrite HA, <- elem_of_avail, E. reflexivity.
  - apply map_eq. intros f. rewrite HL, <- lookup_live, E. reflexivity.
Qed.

(** How the elementary changes look in the abstraction. *)
Section abstraction.
Context (s : pmm).

Lemma frames_last l : frames_of (with_last s l) = frames_of s.
Proof. reflexivity. Qed.

Lemma frames_take f :
  in_frames s f ->
  frames_of (take s f) =
  Frames (avail (frames_of s) ∖ {[f]}) (<[f := 1]> (live (frames_of s))).
Proof.
  intros Hf. apply frames_eq.
  - intros g. rewrite elem_of_difference, elem_of_singleton, elem_of_avail, used_take.
    change (in_frames (take s f) g) with (in_frames s g).
    destruct (Z.eqb_spec f g); simpl; intuition congruence.
  - intros g. rewrite rc_take. change (in_frames (take s f) g) with (in_frames s g).
    destruct (Z.eqb_spec f g) as [->|].
    + rewrite lookup_insert_eq, bool_decide_eq_true_2 by (split; [auto|lia]). reflexivity.
    + rewrite lookup_insert_ne, lookup_live by auto. reflexivity.
Qed.

Lemma frames_drop f :
  in_frames s f ->
  frames_of (drop s f) =
  Frames ({[f]} ∪ avail (frames_of s)) (delete f (live (frames_of s))).
Proof.
  intros Hf. apply frames_eq.
  - intros g. rewrite elem_of_union, elem_of_singleton, elem_of_avail, used_drop.
    change (in_frames (drop s f) g) with (in_frames s g).
    destruct (Z.eqb_spec f g) as [->|]; simpl; intuition congruence.
  - intros g. rewrite rc_drop. change (in_frames (drop s f) g) with (in_frames s g).
    destruct (Z.eqb_spec f g) as [->|].
    + rewrite lookup_delete_eq, bool_decide_eq_false_2 by (intros [_ ?]; lia). reflexivity.
    + rewrite lookup_delete_ne, lookup_live by auto. reflexivity.
Qed.

Lemma frames_recount f n :
  in_frames s f -> 0 < n ->
  frames_of (recount s f n) =
  Frames (avail (frames_of s)) (<[f := n]> (live (frames_of s))).
Proof.
  intros Hf Hn. apply frames_eq.
  - intros g. apply (elem_of_avail s).
  - intros g. rewrite rc_recount. change (in_frames (recount s f n) g) with (in_frames s g).
    destruct (Z.eqb_spec f g) as [->|].
    + rewrite lookup_insert_eq, bool_decide_eq_true_2 by auto. reflexivity.
    + rewrite lookup_insert_ne, lookup_live by auto. reflexivity.
Qed.

Lemma elem_of_run_set f n g : g ∈ run_set f n <-> f <= g < f + n.
Proof. unfold run_set. rewrite elem_of_list_to_set, elem_of_seqZ. reflexivity. Qed.

Lemma frames_take_run f n :
  0 < n -> 1 <= f -> f + n <= max_frames s ->
  frames_of (take_run (Z.to_nat n) s f) =
  Frames (avail (frames_of s) ∖ run_set f n) (run_map f n ∪ live (frames_of s)).
Proof.
  intros Hn Hf Hfn.
  assert (Hin : forall g, in_frames (take_run (Z.to_nat n) s f) g <-> in_frames s g)
    by (intros g; unfold in_frames; rewrite max_take_run; tauto).
  assert (Hrun : forall g, ((f <=? g) && (g <? f + Z.of_nat (Z.to_nat n)))
                           = bool_decide (g ∈ run_set f n)).
  { intros g. rewrite (bool_decide_ext _ _ (elem_of_run_set f n g)).
    repeat bdestr; simpl; case_bool_decide; auto; lia. }
  apply frames_eq.
  - intros g. rewrite elem_of_difference, elem_of_avail, used_take_run, Hrun, Hin.
    case_bool_decide; simpl; intuition congruence.
  - intros g. rewrite rc_take_run, Hrun. rewrite (bool_decide_ext _ _ (and_iff_compat_r _ (Hin g))).
    unfold run_map. destruct (decide (g ∈ run_set f n)) as [Hg|Hg];
      [rewrite (bool_decide_eq_true_2 (g ∈ _)) by auto
      |rewrite (bool_decide_eq_false_2 (g ∈ _)) by auto].
    + rewrite (lookup_union_Some_l _ _ g 1) by (apply lookup_gset_to_gmap_Some; auto).
      rewrite bool_decide_eq_true_2; [reflexivity|].
      apply elem_of_run_set in Hg. unfold in_frames. lia.
    + rewrite lookup_union_r by (apply lookup_gset_to_gmap_None; auto).
      apply lookup_live.
Qed.
End abstraction.

Lemma live_some s f n :
  live (frames_of s) !! f = Some n -> in_frames s f /\ 0 < rc_of s f /\ rc_of s f = n.
Proof. rewrite lookup_live. case_bool_decide; intros; simplify_eq; tauto. Qed.

Lemma release_refines s a :
  pmm_ok s ->
  let f := a / PAGE_SIZE in
  let s' := if bool_decide (in_frames s f /\ 0 < rc_of s f) then
              if 1 <? rc_of s f then recount s f (rc_of s f - 1) else drop s f
            else s in
  pmm_ok s' /\
  match live (frames_of s) !! f with
  | None => frames_of s' = frames_of s
  | Some n => n = rc_of s f /\
      (if 1 <? n then frames_of s' = Frames (avail (frames_of s)) (<[f := n - 1]> (live (frames_of s)))
       else n = 1 /\ frames_of s' = Frames ({[f]} ∪ avail (frames_of s)) (delete f (live (frames_of s))))
  end.
Proof.
  intros Hok f s'. rewrite lookup_live. unfold s'. pose proof (ok_rc s Hok f) as [? ?].
  case_bool_decide as H1; [|split; auto].
  destruct H1 as [Hin Hrc]. pose proof Hin as [? ?].
  assert (used s f = true) by (apply ok_live; auto; lia).
  destruct (Z.ltb_spec 1 (rc_of s f)).
  - split; [apply pmm_ok_recount; [auto|split; lia|auto] |].
    split; auto. apply frames_recount; auto; lia.
  - split; [apply drop_ok; auto; lia|]. split; auto. split; [lia|]. apply frames_drop; auto.
Qed.

(** One lemma per operation; [refines op] is the diagram for [op]. *)
Definition refines (op : fop) : Prop := forall s,
  pmm_ok s -> fop_pre (frames_of s) op ->
  exists r s', pmm_run op s = Ok (r, s') /\ pmm_ok s' /\
               fstep (frames_of s) op r (frames_of s').

Lemma alloc_page_refines : refines OpAllocPage.
Proof.
  intros s Hok _. destruct (pmm_alloc_page_ok s Hok) as (r & s' & E & R).
  exists r, s'. split; [auto|]. split; [eauto using alloc_result_ok|].
  destruct R as [f l Hf Hu Hl | l Hall Hl]; rewrite frames_last.
  - rewrite frames_take by auto.
    assert (f ∈ avail (frames_of s)) by (apply elem_of_avail; auto).
    destruct (frames_of s). apply FAlloc. auto.
  - assert (E0 : avail (frames_of s) = ∅).
    { apply elem_of_equiv_empty_L. intros f [Hf Hu]%elem_of_avail.
      rewrite Hall in Hu by auto. discriminate. }
    destruct (frames_of s); simpl in E0; subst. apply FAllocOom.
Qed.

Lemma alloc_blocks_refines n : refines (OpAllocBlocks n).
Proof.
  intros s Hok [Hn0 Hn1]. destruct (Z.eq_dec n 0) as [->|Hne].
  { exists 0, s. split; [reflexivity|]. split; auto.
    destruct (frames_of s). apply FBlocksOom. auto. }
  destruct (pmm_alloc_blocks_ok s n Hok) as (r & s' & E & R); [lia|].
  exists r, s'. split; [auto|]. split; [eapply blocks_result_ok; eauto; lia|].
  destruct R as [f l Hf Hfn Hrun Hl | l Hall Hl]; rewrite frames_last.
  - rewrite frames_take_run by lia.
    assert (run_set f n ⊆ avail (frames_of s)).
    { intros g Hg%elem_of_run_set. apply elem_of_avail.
      split; [unfold in_frames; lia | apply Hrun; lia]. }
    destruct (frames_of s). apply FBlocks; auto. lia.
  - assert (Hno : forall f, ~ run_set f n ⊆ avail (frames_of s)).
    { intros f Hsub.
      assert (Hin : forall g, f <= g < f + n -> in_frames s g /\ used s g = false).
      { intros g Hg. apply elem_of_avail, Hsub, elem_of_run_set. auto. }
      destruct (Hin f ltac:(lia)) as [[? ?] _].
      destruct (Hin (f + n - 1) ltac:(lia)) as [[? ?] _].
      apply (Hall f); try lia. intros g Hg. apply Hin. auto. }
    destruct (frames_of s). apply FBlocksOom. auto.
Qed.

Lemma free_page_refines a : refines (OpFreePage a).
Proof.
  intros s Hok [? ?]. simpl. rewrite pmm_free_page_ok by auto. simpl.
  destruct (release_refines s a Hok) as [Hok' R].
  eexists _, _. split; [reflexivity|]. split; [exact Hok'|]. revert R.
  destruct (frames_of s) as [A L]; simpl. destruct (L !! (a / PAGE_SIZE)) as [n|] eqn:EL.
  - intros [-> R]. destruct (Z.ltb_spec 1 (rc_of s (a / PAGE_SIZE))).
    + rewrite R. apply FFreeShared; auto.
    + destruct R as [E1 R]. rewrite R. apply FFreeLast. congruence.
  - intros ->. apply FFreeDead. auto.
Qed.

Lemma incref_refines a : refines (OpIncref a).
Proof.
  intros s Hok ([? ?] & n & EL & Hn). simpl. rewrite pmm_incref_ok by auto. simpl.
  destruct (live_some s (a / PAGE_SIZE) n EL) as (Hin & Hrc & <-).
  rewrite bool_decide_eq_true_2, u32_small by (auto; lia). pose proof Hin as [? ?].
  eexists _, _. split; [reflexivity|]. split.
  - apply pmm_ok_recount; auto; [split; lia|]. intros _. apply ok_live; auto; lia.
  - rewrite frames_recount by (auto; lia). destruct (frames_of s). apply FIncref. auto.
Qed.

Lemma decref_refines a : refines (OpDecref a).
Proof.
  intros s Hok [? ?]. simpl. rewrite pmm_decref_ok by auto.
  destruct (release_refines s a Hok) as [Hok' R]. revert Hok' R.
  pose proof (lookup_live s (a / PAGE_SIZE)) as EL. rewrite EL. revert EL.
  case_bool_decide as Hd; intros EL Hok' R; eexists _, _;
    (split; [reflexivity|]; split; [exact Hok'|]).
  - destruct (frames_of s) as [A L]; simpl in *. destruct R as [_ R].
    destruct (Z.ltb_spec 1 (rc_of s (a / PAGE_SIZE))).
    + rewrite R. apply FDecrefShared; auto.
    + destruct R as [E1 R]. rewrite R, E1. apply FDecrefLast. congruence.
  - destruct (frames_of s). apply FDecrefDead. auto.
Qed.

(** C1: the page allocator implements reference-counted frames.  Every call
    that honours the contract returns (no out-of-range access, no endless
    scan), keeps the invariant, and is a step of the abstract allocator: a
    page or run handed out was available and becomes live with one reference,
    a failing allocation means that no page (or no run of that length) was
    available, the last release makes a frame available, and releasing a dead
    frame changes nothing. *)
Theorem pmm_refines_frames (s : pmm) (op : fop) :
  pmm_ok s -> fop_pre (frames_of s) op ->
  exists r s', pmm_run op s = Ok (r, s') /\ pmm_ok s' /\
               fstep (frames_of s) op r (frames_of s').
Proof.
  destruct op; [apply alloc_page_refines | apply alloc_blocks_refines
    | apply free_page_refines | apply incref_refines | apply decref_refines].
Qed.

(** ** Boot: limits, regions and the kernel image *)

Definition in_region (base size g : Z) : bool :=
  (base / PAGE_SIZE <=? g) && (g <? base / PAGE_SIZE + size / PAGE_SIZE).

(** [marked s s' P v]: [s'] is [s] with the frames of [P] marked as [v]. *)
Record marked (s s' : pmm) (P : Z -> bool) (v : bool) : Prop := Marked {
  mk_ok : pmm_ok s';
  mk_max : max_frames s' = max_frames s;
  mk_total : total_memory s' = total_memory s;
  mk_rc : forall g, rc_of s' g = rc_of s g;
  mk_used : forall g, 0 <= g < max_frames s -> used s' g = if P g then v else used s g
}.

Lemma marked_step s s1 s2 P Q v f :
  marked s s1 (fun g => f =? g) v -> marked s1 s2 P v ->
  (forall g, Q g = (f =? g) || P g) -> marked s s2 Q v.
Proof.
  intros [_ Hm1 Ht1 Hr1 Hu1] [Ho2 Hm2 Ht2 Hr2 Hu2] HQ. split; try congruence.
  intros g Hg. rewrite Hu2, Hu1, HQ by (rewrite ?Hm1; auto).
    destruct (f =? g), (P g); reflexivity.
Qed.

Lemma mark_one s f (v : bool) :
  pmm_ok s -> 0 <= f < max_frames s -> (v = false -> rc_of s f = 0) ->
  exists s', marked s s' (fun g => f =? g) v /\
    (t ← bitmap_test (memory_bitmap s) f;
     let was_used := negb (t =? 0) in
     if v then
       if negb was_used then
         bm ← bitmap_set (memory_bitmap s) f;
         mret (with_bitmap s bm (u64 (used_memory s + PAGE_SIZE)))
       else mret s
     else
       if was_used then
         bm ← bitmap_unset (memory_bitmap s) f;
         mret (with_bitmap s bm (u64 (used_memory s - PAGE_SIZE)))
       else mret s) = Ok s'.
Proof.
  intros Hok Hf Hv. pose proof (ok_max s Hok).
  destruct (bitmap_test_ok (memory_bitmap s) (ok_bm_len s Hok) f) as (t & -> & Ht); [lia|].
  simpl. rewrite Ht, negb_involutive. fold (used s f).
  assert (Hsame : used s f = v -> marked s s (fun g => f =? g) v).
  { intros E. split; auto. intros g Hg. bdestr; subst; auto. }
  destruct v, (used s f) eqn:Hu; simpl; try (eexists; split; [apply Hsame; auto | reflexivity]).
  - rewrite bitmap_set_ok by (destruct Hok; auto; lia).
    eexists; split; [|reflexivity]. split; auto with adros.
    intros g Hg. unfold used; simpl. rewrite bit_at_setbit. destruct (f =? g); reflexivity.
  - rewrite bitmap_unset_ok by (destruct Hok; auto; lia).
    eexists; split; [|reflexivity]. split; auto with adros.
    intros g Hg. unfold used; simpl. rewrite bit_at_clearbit. destruct (f =? g); reflexivity.
Qed.

Lemma mark_region_loop_ok fuel : forall s start count i v,
  pmm_ok s -> 0 <= start -> 0 <= i ->
  max_frames s - (start + i) < Z.of_nat fuel -> (0 < fuel)%nat ->
  (v = false -> forall g, 0 <= g < max_frames s -> start <= g < start + count -> rc_of s g = 0) ->
  exists s', mark_region_loop fuel s start count i v = Ok s' /\
             marked s s' (fun g => (start + i <=? g) && (g <? start + count)) v.
Proof.
  induction fuel as [|fuel IH]; intros s start count i v Hok Hs Hi Hfuel Hpos Hv; [lia|].
  assert (Hdone : (count <= i \/ max_frames s <= start + i) ->
    marked s s (fun g => (start + i <=? g) && (g <? start + count)) v).
  { intros Hd. split; auto. intros g Hg. repeat bdestr; simpl; auto; lia. }
  simpl. bdestr; [|exists s; auto]. bdestr; [exists s; auto|].
  destruct (mark_one s (start + i) v Hok) as (s1 & M1 & E1); [lia|intros; apply Hv; auto; lia|].
  destruct (bitmap_test (memory_bitmap s) (start + i)) as [t| |]; try discriminate.
  simpl in E1 |- *. rewrite E1; simpl. pose proof M1 as [Hok1 Hm1 _ Hrc1 _].
  destruct (IH s1 start count (i + 1) v Hok1) as (s2 & E2 & M2); try lia.
  { intros E g Hg Hr. rewrite Hrc1. apply Hv; auto; lia. }
  exists s2. split; [exact E2|]. eapply marked_step; eauto.
  intros g; simpl. repeat bdestr; simpl; auto; lia.
Qed.

Lemma pmm_mark_region_ok s base size v :
  pmm_ok s -> 0 <= base ->
  (v = false -> forall g, 0 <= g < max_frames s -> in_region base size g = true -> rc_of s g = 0) ->
  exists s', pmm_mark_region s base size v = Ok s' /\ marked s s' (in_region base size) v.
Proof.
  intros Hok Hb Hv. pose proof (ok_max s Hok).
  assert (0 <= base / PAGE_SIZE) by (apply Z.div_pos; pmm_consts; lia).
  destruct (mark_region_loop_ok (S (Z.to_nat (max_frames s))) s (base / PAGE_SIZE)
              (size / PAGE_SIZE) 0 v) as (s' & E & M); auto; try lia.
  - intros Ev g Hg Hr. apply Hv; auto. unfold in_region. zdecide. reflexivity.
  - exists s'. split; [exact E|]. destruct M. split; auto.
    intros g Hg. rewrite mk_used0 by auto. unfold in_region. rewrite Z.add_0_r. reflexivity.
Qed.

(** The state between the two halves of [pmm_init]: every frame reserved, no
    references. *)
Record reserved (s : pmm) : Prop := Reserved {
  rs_bm_len : arr_len (memory_bitmap s) = BITMAP_SIZE;
  rs_rc_len : arr_len (frame_refcount s) = MAX_FRAMES;
  rs_bytes : bytes_ok (memory_bitmap s);
  rs_rc : forall f, rc_of s f = 0;
  rs_last : 0 <= last_alloc_frame s <= MAX_FRAMES;
  rs_used : forall f, 0 <= f < MAX_FRAMES -> used s f = true
}.

Lemma align_down_page v : align_down v PAGE_SIZE = v / PAGE_SIZE * PAGE_SIZE.
Proof. apply (align_down_spec v 12). lia. Qed.

Lemma align_up_page v :
  0 <= v -> v + PAGE_SIZE - 1 < 18446744073709551616 ->
  align_up v PAGE_SIZE = (v + PAGE_SIZE - 1) / PAGE_SIZE * PAGE_SIZE.
Proof.
  intros. unfold align_up. rewrite u64_small by (pmm_consts; lia).
  apply (align_down_spec _ 12). lia.
Qed.

Lemma pmm_set_limits_ok s total_mem :
  reserved s -> PAGE_SIZE <= total_mem ->
  pmm_ok (pmm_set_limits s total_mem 0) /\
  max_frames (pmm_set_limits s total_mem 0) = Z.min total_mem MAX_RAM_SIZE / PAGE_SIZE.
Proof.
  intros [] Ht. unfold pmm_set_limits. simpl.
  set (tm := if MAX_RAM_SIZE <? total_mem then MAX_RAM_SIZE else total_mem).
  assert (Htm : tm = Z.min total_mem MAX_RAM_SIZE) by (unfold tm; bdestr; lia).
  rewrite align_down_page, Z.div_mul by (pmm_consts; lia). rewrite Htm in *.
  assert (Hr : 1 <= Z.min total_mem MAX_RAM_SIZE / PAGE_SIZE <= MAX_FRAMES).
  { split; [apply Z.div_le_lower_bound; pmm_consts; unfold MAX_RAM_SIZE; lia|].
    unfold MAX_FRAMES. apply Z.div_le_mono; [pmm_consts|]; lia. }
  split; [|reflexivity]. split; simpl; auto.
  - intros f. change (is_u32 (rc_of s f)). rewrite rs_rc0. split; lia.
  - intros f _. change (0 < rc_of s f -> used s f = true). rewrite rs_rc0. lia.
  - unfold used_count; simpl.
    rewrite countb_all by (intros i Hi; apply rs_used0; lia).
    rewrite Z2Nat.id by lia. rewrite u64_small by (pmm_consts; lia). lia.
Qed.

Lemma fill_bitmap_ok n : forall bm,
  Z.of_nat n <= arr_len bm ->
  exists bm', fill_bitmap n bm = Ok bm' /\ arr_len bm' = arr_len bm /\
    forall i, arr_at bm' i = if (0 <=? i) && (i <? Z.of_nat n) then 255 else arr_at bm i.
Proof.
  induction n as [|n IH]; intros bm Hn.
  - exists bm. repeat split; auto. intros i. repeat bdestr; simpl; auto; lia.
  - destruct (IH bm) as (bm1 & E & Hl & Hat); [lia|].
    simpl. rewrite E; simpl. rewrite arr_set_ok by lia.
    exists (arr_put bm1 (Z.of_nat n) 255). repeat split; auto.
    intros i. rewrite arr_at_put, Hat. repeat bdestr; simpl; auto; lia.
Qed.

Lemma bit_255 k : 0 <= k < 8 -> Z.testbit 255 k = true.
Proof. intros. apply (Z.ones_spec_low 8). lia. Qed.

(** Static storage at boot. *)
Record zeroed (s : pmm) : Prop := Zeroed {
  zs_bm_len : arr_len (memory_bitmap s) = BITMAP_SIZE;
  zs_rc_len : arr_len (frame_refcount s) = MAX_FRAMES;
  zs_bytes : bytes_ok (memory_bitmap s);
  zs_rc : forall f, rc_of s f = 0;
  zs_last : 0 <= last_alloc_frame s <= MAX_FRAMES
}.

Lemma zeroed_static : zeroed pmm_static.
Proof.
  split; [reflexivity | reflexivity | | |].
  - intros i. unfold memory_bitmap, pmm_static. rewrite arr_at_new. split; lia.
  - intros f. apply arr_at_new.
  - pmm_consts. simpl. lia.
Qed.

Lemma fill_bitmap_reserved s n :
  zeroed s -> Z.of_nat n = BITMAP_SIZE ->
  exists bm, fill_bitmap n (memory_bitmap s) = Ok bm /\
             reserved (with_bitmap s bm (used_memory s)).
Proof.
  intros [] Hn.
  destruct (fill_bitmap_ok n (memory_bitmap s)) as (bm & E & Hlen & Hat); [lia|].
  exists bm. split; [exact E|]. split; simpl; auto; try congruence.
  - intros i. rewrite Hat. destruct (_ && _); auto. split; lia.
  - intros f Hf. unfold used, bit_at; simpl. rewrite Hat, Hn.
    assert (0 <= f / 8 < BITMAP_SIZE) by (apply bit_in_range; pmm_consts; lia).
    zdecide. simpl. apply bit_255, mod8_range.
Qed.

(** What pmm.c asks of an architecture: from the all-reserved state it fixes
    the limits and releases the available regions, without touching the
    reference counts. *)
Class PmmArch (arch_init : pmm -> res pmm) : Prop := {
  arch_init_ok : forall s, reserved s ->
    exists s', arch_init s = Ok s' /\ pmm_ok s' /\ forall f, rc_of s' f = 0
}.

#[export] Instance pmm_arch_default_ok : PmmArch pmm_arch_init_default.
Proof.
  split. intros s Hs. eexists. split; [reflexivity|].
  destruct (pmm_set_limits_ok s (16 * 1024 * 1024) Hs) as [H _]; [pmm_consts; lia|].
  split; auto. apply (rs_rc s Hs).
Qed.

(** The last step of [pmm_init]: marking the page-aligned kernel range covers
    every frame that overlaps it. *)
Lemma mark_kernel_ok s p0 p1 :
  pmm_ok s -> is_u32 p0 -> is_u32 p1 ->
  let a := align_down p0 PAGE_SIZE in
  let b := align_up p1 PAGE_SIZE in
  exists s', pmm_mark_region s a ((if b <? a then a else b) - a) true = Ok s' /\
    pmm_ok s' /\ max_frames s' = max_frames s /\ (forall f, rc_of s' f = rc_of s f) /\
    forall f, 0 <= f < max_frames s -> p0 < (f + 1) * PAGE_SIZE -> f * PAGE_SIZE < p1 ->
              used s' f = true.
Proof.
  intros Hok [? ?] [? ?]. cbv zeta. rewrite align_down_page, align_up_page by (pmm_consts; lia).
  set (a := p0 / PAGE_SIZE * PAGE_SIZE).
  set (b := (p1 + PAGE_SIZE - 1) / PAGE_SIZE * PAGE_SIZE).
  assert (0 <= p0 / PAGE_SIZE) by (apply Z.div_pos; pmm_consts; lia).
  destruct (pmm_mark_region_ok s a ((if b <? a then a else b) - a) true) as (s' & E & M);
    [auto | unfold a; pmm_consts; lia | discriminate |].
  destruct M. exists s'. repeat (split; [solve [auto]|]).
  intros f Hf Hlo Hhi. rewrite mk_used0 by lia. replace (in_region a _ f) with true; auto.
  symmetry.
  assert (f + 1 <= (p1 + PAGE_SIZE - 1) / PAGE_SIZE)
    by (apply Z.div_le_lower_bound; pmm_consts; lia).
  assert (p0 / PAGE_SIZE <= f) by (apply Z.lt_succ_r, Z.div_lt_upper_bound; pmm_consts; lia).
  replace (if b <? a then a else b) with b
    by (destruct (Z.ltb_spec b a); [unfold a, b in *; pmm_consts; nia | reflexivity]).
  unfold in_region, a, b.
  rewrite <- Z.mul_sub_distr_r, !Z.div_mul by (pmm_consts; lia). zdecide. reflexivity.
Qed.

Lemma pmm_init_ok hal vs ve arch s p0 p1 :
  PmmArch arch -> zeroed s -> kernel_phys_range hal vs ve = (p0, p1) ->
  is_u32 p0 -> is_u32 p1 ->
  exists s', pmm_init hal vs ve arch s = Ok s' /\ pmm_ok s' /\
    (forall f, rc_of s' f = 0) /\
    (forall f, 0 <= f < max_frames s' -> p0 < (f + 1) * PAGE_SIZE -> f * PAGE_SIZE < p1 ->
               used s' f = true).
Proof.
  intros HA Hz EK Hp0 Hp1. unfold pmm_init.
  destruct (fill_bitmap_reserved s (Z.to_nat BITMAP_SIZE) Hz) as (bm & E1 & R);
    [apply Z2Nat.id; pmm_consts; lia|].
  destruct (arch_init_ok _ R) as (s1 & E2 & Hok1 & Hrc1).
  rewrite E1, res_bind_ok, E2, res_bind_ok, EK.
  destruct (mark_kernel_ok s1 p0 p1 Hok1 Hp0 Hp1) as (s' & E & Hok & Hm & Hrc & Hu).
  exists s'. split; [exact E|]. split; [auto|]. split; [intros f; rewrite Hrc; auto|].
  rewrite Hm. auto.
Qed.

(** C2: [pmm_init] on any architecture that meets the hook's contract returns
    with the invariant established, no references, and every frame that
    overlaps the kernel image (between the physical addresses of [_start] and
    [_end]) marked used: none of them is available. *)
Theorem pmm_init_protects_kernel (hal : hal_mm) (virt_start virt_end p0 p1 : Z)
    (arch : pmm -> res pmm) :
  PmmArch arch -> kernel_phys_range hal virt_start virt_end = (p0, p1) ->
  is_u32 p0 -> is_u32 p1 ->
  exists s, pmm_init hal virt_start virt_end arch pmm_static = Ok s /\ pmm_ok s /\
    (forall f, rc_of s f = 0) /\
    (forall f, 0 <= f < max_frames s -> p0 < (f + 1) * PAGE_SIZE -> f * PAGE_SIZE < p1 ->
               f ∉ avail (frames_of s)).
Proof.
  intros HA EK H0 H1.
  destruct (pmm_init_ok hal virt_start virt_end arch pmm_static p0 p1 HA zeroed_static EK H0 H1)
    as (s & E & Hok & Hrc & Hu).
  exists s. repeat (split; [assumption|]). intros f Hf Ha Hb.
  rewrite elem_of_avail, Hu by auto. intros [_ ?]. discriminate.
Qed.

(** ** Concrete states *)

(** Four frames, frame 0 reserved. *)
Definition pmm_demo : pmm :=
  Pmm (arr_put (arr_new BITMAP_SIZE 0) 0 1) (arr_new MAX_FRAMES 0) 16384 4096 4 1.

Lemma pmm_demo_ok : pmm_ok pmm_demo.
Proof.
  assert (Hrc : forall f, rc_of pmm_demo f = 0) by (intros; apply arr_at_new).
  split; [reflexivity | reflexivity | | | | | | reflexivity].
  - intros i. unfold pmm_demo, memory_bitmap. rewrite arr_at_put, arr_at_new.
    bdestr; split; lia.
  - intros f. rewrite Hrc. split; lia.
  - pmm_consts. simpl. lia.
  - pmm_consts. simpl. lia.
  - intros f _. rewrite Hrc. lia.
Qed.

Lemma pmm_refines_frames_witness :
  exists r s', pmm_run OpAllocPage pmm_demo = Ok (r, s') /\ pmm_ok s' /\
               fstep (frames_of pmm_demo) OpAllocPage r (frames_of s').
Proof. apply (pmm_refines_frames pmm_demo OpAllocPage pmm_demo_ok). exact I. Defined.

Example pmm_demo_alloc_free :
  ('(a, s1) ← pmm_alloc_page pmm_demo;
  '(b, s2) ← pmm_alloc_blocks s1 2;
  '(c, s3) ← pmm_alloc_page s2;
  s4 ← pmm_incref s3 a;
  s5 ← pmm_free_page s4 a;
  '(r, s6) ← pmm_decref s5 a;
  mret (a, b, c, r, used_memory s2, used_memory s6))
  = Ok (4096, 8192, 0, 0, 16384, 12288).
Proof. vm_compute. reflexivity. Qed.

(** The x86 translation of src/hal/x86/mm.c. *)
Definition hal_x86 : hal_mm := HalMm (fun v => u32 (v - 3221225472)) 3221225472.

Lemma pmm_init_protects_kernel_witness :
  exists s, pmm_init hal_x86 3222274048 3222536192 pmm_arch_init_default pmm_static = Ok s /\
            pmm_ok s /\ (256 < max_frames s -> 256 ∉ avail (frames_of s)).
Proof.
  destruct (pmm_init_protects_kernel hal_x86 3222274048 3222536192 1048576 1310720
              pmm_arch_init_default pmm_arch_default_ok eq_refl
              ltac:(unfold is_u32; lia) ltac:(unfold is_u32; lia)) as (s & E & Hok & _ & Hk).
  exists s. split; [exact E|]. split; [exact Hok|].
  intros Hm. apply Hk; unfold PAGE_SIZE; lia.
Defined.
