(* ===== verification/PmmBoot.v ===== *)
(** The x86 memory discovery of src/arch/x86/pmm_boot.c: a three-pass walk over
    the Multiboot2 information structure that fixes the limits of the page
    allocator, releases the available regions and protects the modules and
    the structure itself.  The contents of the structure are arbitrary bytes
    of memory. *)

From S2P Require Import Prelude Bitmap Pmm.

Definition PMM_MAX_RAM : Z := 512 * 1024 * 1024.

(** include/arch/x86/multiboot2.h *)
Definition MULTIBOOT_TAG_TYPE_END : Z := 0.
Definition MULTIBOOT_TAG_TYPE_MODULE : Z := 3.
Definition MULTIBOOT_TAG_TYPE_BASIC_MEMINFO : Z := 4.
Definition MULTIBOOT_TAG_TYPE_MMAP : Z := 6.
Definition MULTIBOOT_MEMORY_AVAILABLE : Z := 1.

Definition align_up32 (value align : Z) : Z :=
  Z.land (u32 (value + align - 1)) (Z.lnot (align - 1)).
Definition align_down32 (value align : Z) : Z :=
  Z.land value (Z.lnot (align - 1)).

Section boot.
Variable m : mem.
Variable boot_info : Z.

(** The loop the three passes share: bounds and size checks on the tag at
    [cursor], stop at the end tag, run the pass's body, advance to the next
    8-byte aligned tag.  All arithmetic on the cursor is 32-bit. *)
Fixpoint walk_tags {S : Type} (fuel : nat) (body : Z -> Z -> Z -> S -> res S)
    (total_size cursor : Z) (st : S) : res S :=
  match fuel with
  | O => NoFuel
  | Datatypes.S fuel =>
      if u32 (cursor + 8) <=? total_size then
        let tag := u32 (boot_info + cursor) in
        let type := rd32 m tag in
        let size := rd32 m (u32 (tag + 4)) in
        if size <? 8 then mret st
        else if total_size <? u32 (cursor + size) then mret st
        else if type =? MULTIBOOT_TAG_TYPE_END then mret st
        else
          st' ← body tag type size st;
          walk_tags fuel body total_size
            (u32 (cursor + Z.land (u32 (size + 7)) (Z.lnot 7))) st'
      else mret st
  end.

(** The loop over the entries of a memory map tag. *)
Fixpoint walk_entries {S : Type} (fuel : nat) (body : Z -> S -> res S)
    (last entry_size e : Z) (st : S) : res S :=
  match fuel with
  | O => NoFuel
  | Datatypes.S fuel =>
      if e <? last then
        st' ← body e st;
        walk_entries fuel body last entry_size (u32 (e + entry_size)) st'
      else mret st
  end.

(** A tag is at most 65536 bytes and an entry at least one. *)
Definition FUEL : nat := Z.to_nat 65540.

Definition for_entries {S : Type} (tag size : Z) (body : Z -> S -> res S) (st : S) : res S :=
  let entry_size := rd32 m (u32 (tag + 8)) in
  if entry_size =? 0 then mret st
  else walk_entries FUEL body (u32 (tag + size)) entry_size (u32 (tag + 16)) st.

(** Pass 1: (total_mem, highest_avail, saw_mmap). *)
Definition pass1_entry (e : Z) (highest_avail : Z) : res Z :=
  if negb (rd32 m (u32 (e + 16)) =? MULTIBOOT_MEMORY_AVAILABLE) then mret highest_avail
  else
    let end64 := u64 (rd64 m e + rd64 m (u32 (e + 8))) in
    let last := if 4294967295 <? end64 then 4294967295 else end64 in
    mret (if highest_avail <? last then last else highest_avail).

Definition pass1_tag (tag type size : Z) (st : Z * Z * bool) : res (Z * Z * bool) :=
  let '(total_mem, highest_avail, saw_mmap) := st in
  let total_mem :=
    if type =? MULTIBOOT_TAG_TYPE_BASIC_MEMINFO
    then u32 (u32 (rd32 m (u32 (tag + 12)) * 1024) + 1024 * 1024) else total_mem in
  if type =? MULTIBOOT_TAG_TYPE_MMAP then
    highest_avail ← for_entries tag size pass1_entry highest_avail;
    mret (total_mem, highest_avail, true)
  else mret (total_mem, highest_avail, saw_mmap).

Definition boot_total_size : Z :=
  let total_size := rd32 m boot_info in
  if (total_size <? 8) || (65536 <? total_size) then 8 else total_size.

Definition boot_total_mem : res (Z * bool) :=
  '(total_mem, highest_avail, saw_mmap) ←
    walk_tags FUEL pass1_tag boot_total_size 8 (0, 0, false);
  let total_mem := if total_mem <? highest_avail then highest_avail else total_mem in
  let total_mem := if total_mem =? 0 then 16 * 1024 * 1024 else total_mem in
  let total_mem := if PMM_MAX_RAM <? total_mem then PMM_MAX_RAM else total_mem in
  mret (total_mem, saw_mmap).

(** Pass 2: release the available regions. *)
Definition pass2_entry (total_mem : Z) (e : Z) (s : pmm) : res pmm :=
  if negb (rd32 m (u32 (e + 16)) =? MULTIBOOT_MEMORY_AVAILABLE) then mret s
  else
    let b64 := rd64 m e in
    let l64 := rd64 m (u32 (e + 8)) in
    if total_mem <=? b64 then mret s
    else
      let l64 := if total_mem <? u64 (b64 + l64) then u64 (total_mem - b64) else l64 in
      let base := align_up32 (u32 b64) PAGE_SIZE in
      let len := align_down32 (u32 l64) PAGE_SIZE in
      if len =? 0 then mret s else pmm_mark_region s base len false.

Definition pass2_tag (total_mem : Z) (tag type size : Z) (s : pmm) : res pmm :=
  if negb (type =? MULTIBOOT_TAG_TYPE_MMAP) then mret s
  else for_entries tag size (pass2_entry total_mem) s.

(** Pass 3: protect the modules. *)
Definition pass3_tag (tag type size : Z) (s : pmm) : res pmm :=
  if type =? MULTIBOOT_TAG_TYPE_MODULE then
    let ms := align_down32 (rd32 m (u32 (tag + 8))) PAGE_SIZE in
    let me := align_up32 (rd32 m (u32 (tag + 12))) PAGE_SIZE in
    if ms <? me then pmm_mark_region s ms (me - ms) true else mret s
  else mret s.

(** Without a memory map, everything above 1 MB is released. *)
Definition release_fallback (total_mem : Z) (saw_mmap : bool) (s : pmm) : res pmm :=
  if negb saw_mmap then
    let base := 1048576 in
    let len := if base <? total_mem then total_mem - base else 0 in
    let base := align_up32 base PAGE_SIZE in
    let len := align_down32 len PAGE_SIZE in
    if negb (len =? 0) then pmm_mark_region s base len false else mret s
  else mret s.

(** The counter [freed_frames] only feeds a log message and is left out. *)
Definition pmm_arch_init (kvbase : Z) (s : pmm) : res pmm :=
  if boot_info =? 0 then mret s
  else
    '(total_mem, saw_mmap) ← boot_total_mem;
    let s := pmm_set_limits s total_mem 0 in
    s ← walk_tags FUEL (pass2_tag total_mem) boot_total_size 8 s;
    s ← release_fallback total_mem saw_mmap s;
    s ← pmm_mark_region s 0 1048576 true;
    s ← walk_tags FUEL pass3_tag boot_total_size 8 s;
    if (kvbase =? 0) || (boot_info <? kvbase)
    then pmm_mark_region s boot_info 4096 true else mret s.
End boot.

(** ** What the loader guarantees

    [sane_tags]: the size fields the walk meets (of tags, and of the entries of
    memory map tags) are below 2^31.  Without it the 32-bit cursor arithmetic
    wraps, see [oversized_tag_hangs]. *)
Definition sane_tag (m : mem) (tag : Z) : bool :=
  (rd32 m (u32 (tag + 4)) <? 2147483648) &&
  ((negb (rd32 m tag =? MULTIBOOT_TAG_TYPE_MMAP)) || (rd32 m (u32 (tag + 8)) <? 2147483648)).

Fixpoint sane_tags (fuel : nat) (m : mem) (boot_info total_size cursor : Z) : bool :=
  match fuel with
  | O => true
  | S fuel =>
      if cursor + 8 <=? total_size then
        let tag := u32 (boot_info + cursor) in
        let size := rd32 m (u32 (tag + 4)) in
        sane_tag m tag &&
        ((size <? 8) || (total_size <? cursor + size) ||
         sane_tags fuel m boot_info total_size (cursor + Z.land (size + 7) (Z.lnot 7)))
      else true
  end.

Record loader_ok (m : mem) (boot_info : Z) : Prop := LoaderOk {
  lo_addr : 0 < boot_info < 1073741824;
  lo_sane : sane_tags FUEL m boot_info (boot_total_size m boot_info) 8 = true
}.

Lemma round8_bounds n : 0 <= n -> n <= Z.land (n + 7) (Z.lnot 7) <= n + 7.
Proof.
  intros. change 7 with (2 ^ 3 - 1) at 2. change 7 with (2 ^ 3 - 1) at 3.
  rewrite align_down_spec by lia.
  pose proof (Z.div_mod (n + 7) (2 ^ 3)). pose proof (Z.mod_pos_bound (n + 7) (2 ^ 3)).
  change (2 ^ 3) with 8 in *. lia.
Qed.

Section walks.
Variable m : mem.
Variable boot_info : Z.
Hypothesis Hbi : 0 < boot_info < 1073741824.

Lemma walk_entries_ok {S : Type} (P : S -> Prop) (body : Z -> S -> res S) last esz :
  (forall e st, P st -> exists st', body e st = Ok st' /\ P st') ->
  0 < esz < 2147483648 -> 0 <= last < 1073900000 ->
  forall fuel e st, P st -> 0 <= e < 1073900000 + 2147483648 ->
    last - e < Z.of_nat fuel -> (0 < fuel)%nat ->
    exists st', walk_entries fuel body last esz e st = Ok st' /\ P st'.
Proof.
  intros Hb Hes Hl. induction fuel as [|fuel IH]; intros e st HP He Hf H0; [lia|].
  simpl. bdestr; [|eauto]. destruct (Hb e st HP) as (st1 & -> & HP1). simpl.
  rewrite u32_small by lia. apply IH; auto; lia.
Qed.

Lemma for_entries_ok {S : Type} (P : S -> Prop) (body : Z -> S -> res S) tag size st :
  (forall e st, P st -> exists st', body e st = Ok st' /\ P st') ->
  0 <= tag < 1073741824 + 65600 -> 8 <= size <= 65536 ->
  rd32 m (u32 (tag + 8)) < 2147483648 -> P st ->
  exists st', for_entries m tag size body st = Ok st' /\ P st'.
Proof.
  intros Hb Ht Hs He HP. unfold for_entries. bdestr; [eauto|].
  pose proof (rd32_range m (u32 (tag + 8))) as [? ?].
  rewrite (u32_small (tag + size)), (u32_small (tag + 16)) by lia.
  eapply walk_entries_ok; eauto; try lia; unfold FUEL; lia.
Qed.

Lemma walk_tags_ok {S : Type} (P : S -> Prop) (body : Z -> Z -> Z -> S -> res S) total :
  (forall tag st, P st -> 0 <= tag < 1073741824 + 65600 -> sane_tag m tag = true ->
     8 <= rd32 m (u32 (tag + 4)) <= 65536 ->
     exists st', body tag (rd32 m tag) (rd32 m (u32 (tag + 4))) st = Ok st' /\ P st') ->
  total <= 65536 ->
  forall fuel cursor st, P st -> 8 <= cursor <= total + 8 ->
    total - cursor < Z.of_nat fuel -> (0 < fuel)%nat ->
    sane_tags fuel m boot_info total cursor = true ->
    exists st', walk_tags m boot_info fuel body total cursor st = Ok st' /\ P st'.
Proof.
  intros Hb Htot. induction fuel as [|fuel IH]; intros cursor st HP Hc Hf H0 Hsane; [lia|].
  simpl in Hsane |- *. rewrite (u32_small (cursor + 8)) by lia.
  destruct (Z.leb_spec (cursor + 8) total); [|eauto].
  apply andb_true_iff in Hsane as [Hst Hrest].
  rewrite (u32_small (boot_info + cursor)) in * by lia.
  pose proof Hst as [Hsz%Z.ltb_lt _]%andb_true_iff.
  set (tag := boot_info + cursor) in *. set (size := rd32 m (u32 (tag + 4))) in *.
  pose proof (rd32_range m (u32 (tag + 4))) as [Hs0 _]. fold size in Hs0.
  destruct (Z.ltb_spec size 8); [eauto|]. rewrite (u32_small (cursor + size)) by lia.
  destruct (Z.ltb_spec total (cursor + size)); [eauto|]. bdestr; [eauto|].
  destruct (Hb tag st HP) as (st1 & E & HP1); auto; [unfold tag; lia | fold size; lia |].
  fold size in E. rewrite E. pose proof (round8_bounds size Hs0). simpl in Hrest |- *.
  rewrite (u32_small (size + 7)) by lia. rewrite u32_small by lia.
  apply IH; auto; lia.
Qed.
End walks.

(** ** Correctness of the x86 hook *)

(** What holds throughout the boot with [M] frames: the allocator's invariant
    and no references yet. *)
Definition boot_inv (M : Z) (s : pmm) : Prop :=
  pmm_ok s /\ max_frames s = M /\ forall f, rc_of s f = 0.

Definition low_reserved (s : pmm) : Prop :=
  forall f, 0 <= f < 256 -> f < max_frames s -> used s f = true.

Lemma boot_mark M s base size v :
  boot_inv M s -> 0 <= base ->
  exists s', pmm_mark_region s base size v = Ok s' /\ boot_inv M s' /\
             marked s s' (in_region base size) v.
Proof.
  intros (Hok & HM & Hrc) Hb.
  destruct (pmm_mark_region_ok s base size v Hok Hb) as (s' & E & Mk); auto.
  exists s'. split; [exact E|]. split; auto. destruct Mk.
  split; [auto|]. split; [congruence|]. intros f. rewrite mk_rc. auto.
Qed.

Lemma marked_low s s' P : marked s s' P true -> low_reserved s -> low_reserved s'.
Proof.
  intros [_ Hm _ _ Hu] Hlow f Hf Hfm. rewrite Hu by lia.
  destruct (P f); auto. apply Hlow; lia.
Qed.

Lemma align32_nonneg v a : 0 <= Z.land (u32 v) (Z.lnot a).
Proof. apply Z.land_nonneg. left. apply u32_range. Qed.

Lemma pass1_entry_ok m e h : exists h', pass1_entry m e h = Ok h'.
Proof. unfold pass1_entry. destruct (negb _); eauto. Qed.

Lemma pass2_entry_ok M m total_mem e s :
  boot_inv M s -> exists s', pass2_entry m total_mem e s = Ok s' /\ boot_inv M s'.
Proof.
  intros Hs. unfold pass2_entry. destruct (negb _); [eauto|].
  destruct (total_mem <=? rd64 m e); [eauto|].
  set (len := align_down32 _ _). destruct (len =? 0); [eauto|].
  destruct (boot_mark M s (align_up32 (u32 (rd64 m e)) PAGE_SIZE) len false Hs)
    as (s' & E & Hs' & _); [apply align32_nonneg | eauto].
Qed.

Lemma pass3_tag_ok M m tag type size s :
  boot_inv M s -> low_reserved s ->
  exists s', pass3_tag m tag type size s = Ok s' /\ boot_inv M s' /\ low_reserved s'.
Proof.
  intros Hs Hlow. unfold pass3_tag. ifdestr; [|eauto]. ifdestr; [|eauto].
  set (ms := align_down32 _ _). set (me := align_up32 _ _).
  destruct (boot_mark M s ms (me - ms) true Hs) as (s' & E & Hs' & Mk).
  - apply Z.land_nonneg. left. apply rd32_range.
  - eauto using marked_low.
Qed.

Lemma boot_total_size_range m bi : 8 <= boot_total_size m bi <= 65536.
Proof. unfold boot_total_size. repeat bdestr; simpl; lia. Qed.

Section hook.
Variable m : mem.
Variable boot_info : Z.
Hypothesis Hl : loader_ok m boot_info.

(** Every pass over the tags terminates, whatever its body does. *)
Lemma pass_ok {S : Type} (P : S -> Prop) (body : Z -> Z -> Z -> S -> res S) st :
  (forall tag st, P st -> 0 <= tag < 1073741824 + 65600 -> sane_tag m tag = true ->
     8 <= rd32 m (u32 (tag + 4)) <= 65536 ->
     exists st', body tag (rd32 m tag) (rd32 m (u32 (tag + 4))) st = Ok st' /\ P st') ->
  P st ->
  exists st', walk_tags m boot_info FUEL body (boot_total_size m boot_info) 8 st = Ok st' /\ P st'.
Proof.
  intros Hb HP. destruct Hl as [Hbi Hs]. pose proof (boot_total_size_range m boot_info).
  eapply walk_tags_ok; eauto; try lia; unfold FUEL; lia.
Qed.

Lemma mmap_entry_size tag :
  sane_tag m tag = true -> rd32 m tag = MULTIBOOT_TAG_TYPE_MMAP ->
  rd32 m (u32 (tag + 8)) < 2147483648.
Proof.
  intros [_ H]%andb_true_iff E. rewrite E in H. simpl in H. apply Z.ltb_lt. exact H.
Qed.

Lemma boot_total_mem_ok : exists t saw, boot_total_mem m boot_info = Ok (t, saw).
Proof.
  unfold boot_total_mem.
  destruct (pass_ok (fun _ => True) (pass1_tag m) (0, 0, false)) as ([[t h] saw] & E & _); auto.
  - intros tag [[t h] saw] _ Ht Hst Hsz. unfold pass1_tag.
    destruct (Z.eqb_spec (rd32 m tag) MULTIBOOT_TAG_TYPE_MMAP) as [Em|]; [|eauto].
    destruct (for_entries_ok m (fun _ => True) (pass1_entry m) tag (rd32 m (u32 (tag + 4))) h)
      as (h' & -> & _); auto using mmap_entry_size; [|simpl; eauto].
    intros e st _. destruct (pass1_entry_ok m e st); eauto.
  - rewrite E. simpl. eauto.
Qed.

Lemma fallback_ok M t saw s :
  boot_inv M s -> exists s', release_fallback t saw s = Ok s' /\ boot_inv M s'.
Proof.
  intros Hs. unfold release_fallback. destruct saw; simpl; [eauto|].
  set (len := align_down32 _ _). destruct (len =? 0); simpl; [eauto|].
  destruct (boot_mark M s (align_up32 1048576 PAGE_SIZE) len false Hs)
    as (s3 & E & ? & _); [apply align32_nonneg | eauto].
Qed.

Lemma low_mark_reserved s s' :
  marked s s' (in_region 0 1048576) true -> low_reserved s'.
Proof.
  intros [_ Hm _ _ Hu] f Hf Hfm. rewrite Hu by lia. unfold in_region.
  change (0 / PAGE_SIZE) with 0. change (1048576 / PAGE_SIZE) with 256. zdecide. reflexivity.
Qed.

Lemma pmm_arch_init_ok kvbase t saw s :
  boot_total_mem m boot_info = Ok (t, saw) -> PAGE_SIZE <= t -> reserved s ->
  exists s', pmm_arch_init m boot_info kvbase s = Ok s' /\
    boot_inv (Z.min t MAX_RAM_SIZE / PAGE_SIZE) s' /\ low_reserved s' /\
    ((kvbase =? 0) || (boot_info <? kvbase) = true ->
     boot_info / PAGE_SIZE < max_frames s' -> used s' (boot_info / PAGE_SIZE) = true).
Proof.
  intros Et Ht Hs. destruct (lo_addr _ _ Hl) as [? ?].
  destruct (pmm_set_limits_ok s t Hs Ht) as [Hok1 HM1].
  set (M := Z.min t MAX_RAM_SIZE / PAGE_SIZE) in *.
  unfold pmm_arch_init. rewrite (proj2 (Z.eqb_neq boot_info 0)), Et, res_bind_ok by lia.
  assert (H1 : boot_inv M (pmm_set_limits s t 0))
    by (split; [auto|]; split; [auto|]; apply (rs_rc s Hs)).
  destruct (pass_ok (boot_inv M) (pass2_tag m t) (pmm_set_limits s t 0)) as (s2 & -> & H2); auto.
  { intros tag st Hst Htag Hsane Hsz. unfold pass2_tag.
    destruct (Z.eqb_spec (rd32 m tag) MULTIBOOT_TAG_TYPE_MMAP) as [Em|]; simpl; [|eauto].
    apply for_entries_ok; auto using mmap_entry_size, pass2_entry_ok. }
  rewrite res_bind_ok. destruct (fallback_ok M t saw s2 H2) as (s3 & -> & H3).
  rewrite res_bind_ok.
  destruct (boot_mark M s3 0 1048576 true H3) as (s4 & -> & H4 & Mk4); [lia|].
  apply low_mark_reserved in Mk4. rewrite res_bind_ok.
  destruct (pass_ok (fun s => boot_inv M s /\ low_reserved s) (pass3_tag m) s4)
    as (s5 & -> & H5 & L5); auto.
  { intros tag st [Hst HL] _ _ _. apply pass3_tag_ok; auto. }
  rewrite res_bind_ok.
  destruct ((kvbase =? 0) || (boot_info <? kvbase));
    [|exists s5; repeat (split; [solve [eauto]|]); discriminate].
  destruct (boot_mark M s5 boot_info 4096 true H5) as (s6 & -> & H6 & Mk6); [lia|].
  exists s6. repeat (split; [solve [eauto using marked_low]|]). intros _ Hf.
  destruct Mk6 as [_ Hm _ _ Hu]. rewrite Hu.
  - unfold in_region. change (4096 / PAGE_SIZE) with 1. zdecide. reflexivity.
  - split; [apply Z.div_pos; pmm_consts; lia | lia].
Qed.
End hook.

#[export] Instance pmm_arch_x86_ok m boot_info kvbase t saw :
  loader_ok m boot_info -> boot_total_mem m boot_info = Ok (t, saw) -> PAGE_SIZE <= t ->
  PmmArch (pmm_arch_init m boot_info kvbase).
Proof.
  intros Hl Et Ht. split. intros s Hs.
  destruct (pmm_arch_init_ok m boot_info Hl kvbase t saw s Et Ht Hs)
    as (s' & E & (Hok & _ & Hrc) & _). eauto.
Qed.

(** C5: memory discovery on whatever the boot loader left in memory, as long as it is below
    1 GB and the sizes of tags and entries are below 2^31.  The first pass always ends
    with an amount of memory [t].  When that is at least one page, the other two passes
    end as well, without leaving the bitmap: the limit is [t] capped at 512 MB, no frame
    is counted, and the first megabyte and the first page of the information structure
    stay reserved. *)
Theorem pmm_arch_init_total (m : mem) (boot_info kvbase : Z) (s : pmm) :
  loader_ok m boot_info -> reserved s ->
  exists t saw, boot_total_mem m boot_info = Ok (t, saw) /\
    (PAGE_SIZE <= t ->
     exists s', pmm_arch_init m boot_info kvbase s = Ok s' /\ pmm_ok s' /\
       max_frames s' = Z.min t MAX_RAM_SIZE / PAGE_SIZE /\ (forall f, rc_of s' f = 0) /\
       (forall f, 0 <= f < 256 -> f ∉ avail (frames_of s')) /\
       (boot_info < kvbase -> boot_info / PAGE_SIZE ∉ avail (frames_of s'))).
Proof.
  intros Hl Hs. destruct (boot_total_mem_ok m boot_info Hl) as (t & saw & Et). exists t, saw. split; [exact Et|]. intros Ht.
  destruct (pmm_arch_init_ok m boot_info Hl kvbase t saw s Et Ht Hs)
    as (s' & E & (Hok & HM & Hrc) & Hlow & Hbi).
  exists s'. repeat (split; [assumption|]). split.
  - intros f Hf [[? ?] Hu]%elem_of_avail. rewrite Hlow in Hu by lia. discriminate.
  - intros Hk [[? ?] Hu]%elem_of_avail. rewrite Hbi in Hu; [discriminate | | lia].
    apply orb_true_iff. right. apply Z.ltb_lt. auto.
Qed.

(** ** Concrete boot information *)

Definition tag_mmap (entries : list (Z * Z * Z)) : list Z :=
  bytes32 6 ++ bytes32 (16 + 24 * Z.of_nat (length entries)) ++ bytes32 24 ++ bytes32 0 ++
  concat ((fun '(a, l, t) => bytes64 a ++ bytes64 l ++ bytes32 t ++ bytes32 0) <$> entries).
Definition tag_end : list Z := bytes32 0 ++ bytes32 8.

Definition boot_image (tags : list Z) : list Z :=
  bytes32 (8 + Z.of_nat (length tags)) ++ bytes32 0 ++ tags.

Definition boot_at : Z := 65536.

(** 2 MB of memory at 1 MB. *)
Definition boot_mem : mem :=
  mem_of_list boot_at (boot_image (tag_mmap [(1048576, 2097152, 1)] ++ tag_end)).

(** All frames reserved, as [pmm_init] leaves them for the hook: the state a
    fully set byte array describes, with the fill written as the default. *)
Definition pmm_reserved : pmm :=
  Pmm (arr_new BITMAP_SIZE 255) (arr_new MAX_FRAMES 0) 0 0 0 1.

Lemma pmm_reserved_ok : reserved pmm_reserved.
Proof.
  split; [reflexivity | reflexivity | | | pmm_consts; simpl; lia |].
  - intros i. unfold pmm_reserved, memory_bitmap. rewrite arr_at_new. split; lia.
  - intros f. apply arr_at_new.
  - intros f Hf. unfold used, bit_at, pmm_reserved, memory_bitmap. rewrite arr_at_new.
    apply bit_255, mod8_range.
Qed.

Lemma boot_mem_loader : loader_ok boot_mem boot_at.
Proof. split; [unfold boot_at; lia | vm_compute; reflexivity]. Qed.

Lemma boot_mem_total : boot_total_mem boot_mem boot_at = Ok (3145728, true).
Proof. vm_compute. reflexivity. Qed.

Lemma pmm_arch_init_total_witness :
  exists s', pmm_arch_init boot_mem boot_at 3221225472 pmm_reserved = Ok s' /\
    max_frames s' = 768 /\ boot_at / PAGE_SIZE ∉ avail (frames_of s').
Proof.
  destruct (pmm_arch_init_total boot_mem boot_at 3221225472 pmm_reserved boot_mem_loader pmm_reserved_ok) as (t & saw & Et & Hrest).
  rewrite boot_mem_total in Et. injection Et as <- <-. destruct (Hrest ltac:(unfold PAGE_SIZE; lia)) as (s' & E & _ & HM & _ & _ & Hb).
  exists s'. split; [exact E|]. split; [exact HM|]. apply Hb. unfold boot_at. lia.
Defined.

(** The page rounding of pass 2 rounds the base up but keeps the rounded-down
    length of the whole region, so a region that does not start on a page
    boundary can release a frame outside it: here the byte range
    [0x100001, 0x101001) is available and [0x101001, 0x200000) is reserved,
    yet frame 0x101 is released. *)
Definition boot_mem_unaligned : mem :=
  mem_of_list boot_at (boot_image
    (tag_mmap [(1048577, 4096, 1); (1052673, 1044479, 2); (2097152, 1048576, 1)] ++ tag_end)).

Theorem unaligned_region_releases_reserved_frame :
  exists s', pmm_arch_init boot_mem_unaligned boot_at 3221225472 pmm_reserved = Ok s' /\
             used s' 257 = false /\ 257 * PAGE_SIZE + 1 = 1052673.
Proof. eexists. split; [vm_compute; reflexivity|]. split; reflexivity. Qed.

(** A tag of size 0xFFFFFFF9 passes both checks of the walk (the 32-bit sum
    wraps) and advances the cursor by zero: the loop never ends. *)
Definition boot_mem_oversized : mem :=
  mem_of_list boot_at (boot_image (bytes32 1 ++ bytes32 4294967289)).

Theorem oversized_tag_hangs (S : Type) (body : Z -> Z -> Z -> S -> res S) (fuel : nat) :
  (forall tag type size st, exists st', body tag type size st = Ok st') ->
  forall st, walk_tags boot_mem_oversized boot_at fuel body 16 8 st = NoFuel.
Proof.
  intros Hb. induction fuel as [|fuel IH]; intros st; [reflexivity|].
  destruct (Hb (boot_at + 8) 1 4294967289 st) as (st1 & E1).
  cbn [walk_tags]. change (u32 (8 + 8) <=? 16) with true. cbv iota.
  change (u32 (boot_at + 8)) with (boot_at + 8).
  replace (rd32 boot_mem_oversized (boot_at + 8)) with 1 by (vm_compute; reflexivity).
  replace (rd32 boot_mem_oversized (u32 (boot_at + 8 + 4))) with 4294967289
    by (vm_compute; reflexivity).
  change (4294967289 <? 8) with false. change (16 <? u32 (8 + 4294967289)) with false.
  change (1 =? MULTIBOOT_TAG_TYPE_END) with false. cbv iota.
  rewrite E1, res_bind_ok.
  change (u32 (8 + Z.land (u32 (4294967289 + 7)) (Z.lnot 7))) with 8. apply IH.
Qed.
