(* ===== verification/Ring.v ===== *)
(** Doubly linked lists as pointer maps.  First the circular ones with a sentinel, as the
    heap has them: [nexts] and [prevs] hold the link fields, and [ring nx pv s ns] says
    that following the links from the sentinel [s] visits exactly the nodes [ns].

    Then the null-terminated ones threaded through the fields of records, as the run
    queues, the sleep queue and the alarm queue of the scheduler are: the two link fields
    are maps from the address of a record, and 0 is the null pointer.  [seg nx pv p l n]
    says that the records [l] are linked in order, with [p] before the first and [n]
    after the last. *)

From S2P Require Import Prelude.

Section ring.
Context {K : Type} `{Countable K}.
Implicit Types (nx pv : gmap K K) (l k t : list K) (p q s n : K).

(** Consecutive elements are linked in both directions. *)
Fixpoint linked nx pv (l : list K) : Prop :=
  match l with
  | p :: ((q :: _) as l') => nx !! p = Some q /\ pv !! q = Some p /\ linked nx pv l'
  | _ => True
  end.

Definition ring nx pv s (ns : list K) : Prop :=
  linked nx pv (s :: ns ++ [s]) /\ NoDup (s :: ns).

Lemma linked_app nx pv k x t :
  linked nx pv (k ++ x :: t) <-> linked nx pv (k ++ [x]) /\ linked nx pv (x :: t).
Proof.
  induction k as [|p k IH]; [simpl; tauto|].
  destruct k as [|q k]; simpl in *; [tauto|]. rewrite IH. tauto.
Qed.

(** The links of a list depend on the next fields of all but its last and the
    prev fields of all but its first element. *)
Lemma linked_ext nx pv nx' pv' l :
  (forall i x, l !! i = Some x -> (S i < length l)%nat -> nx' !! x = nx !! x) ->
  (forall i x, l !! S i = Some x -> pv' !! x = pv !! x) ->
  linked nx pv l -> linked nx' pv' l.
Proof.
  induction l as [|p l IH]; [auto|]. destruct l as [|q l]; [auto|].
  intros Hn Hp (H1 & H2 & H3). simpl. split; [|split].
  - rewrite (Hn 0%nat p) by (simpl; auto; lia). auto.
  - rewrite (Hp 0%nat q) by reflexivity. auto.
  - apply IH; auto.
    + intros i x Hi Hlt. apply (Hn (S i)); auto. simpl in *. lia.
    + intros i x Hi. apply (Hp (S i)). auto.
Qed.

Lemma linked_ext_snoc nx pv nx' pv' p l e :
  (forall x, x ∈ p :: l -> nx' !! x = nx !! x) ->
  (forall x, x ∈ l ++ [e] -> pv' !! x = pv !! x) ->
  linked nx pv (p :: l ++ [e]) -> linked nx' pv' (p :: l ++ [e]).
Proof.
  intros Hn Hp. apply linked_ext.
  - intros i x Hi Hlt. apply Hn. rewrite app_comm_cons in Hi, Hlt.
    rewrite length_app in Hlt; simpl in Hlt.
    rewrite lookup_app_l in Hi by (simpl; lia). apply list_elem_of_lookup. eauto.
  - intros i x Hi. apply Hp. apply list_elem_of_lookup. simpl in Hi. eauto.
Qed.

Lemma ring_ext nx pv nx' pv' s ns :
  (forall x, x ∈ s :: ns -> nx' !! x = nx !! x /\ pv' !! x = pv !! x) ->
  ring nx pv s ns -> ring nx' pv' s ns.
Proof.
  intros He [Hl Hd]. split; [|auto].
  eapply linked_ext_snoc; [| |exact Hl].
  - intros x Hx. apply He. auto.
  - intros x Hx. apply He. set_solver.
Qed.

Lemma ring_next nx pv s ns : ring nx pv s ns -> nx !! s = Some (hd s ns).
Proof. intros [Hl _]. destruct ns; simpl in *; tauto. Qed.

Lemma ring_prev_sentinel nx pv s ns : ring nx pv s ns -> is_Some (pv !! s).
Proof.
  intros [Hl _]. destruct (exists_last (l := s :: ns)) as (k & p & E); [discriminate|].
  rewrite app_comm_cons, E, <- app_assoc in Hl. simpl in Hl.
  apply linked_app in Hl as [_ Hl]. simpl in Hl. destruct Hl as (_ & -> & _). eauto.
Qed.

Lemma ring_empty_test nx pv s ns : ring nx pv s ns -> (nx !! s = Some s <-> ns = []).
Proof.
  intros Hr. rewrite (ring_next _ _ _ _ Hr). destruct ns as [|a ns]; simpl; [tauto|].
  split; [|discriminate]. intros [= ->]. destruct Hr as [_ Hd].
  apply NoDup_cons in Hd as [Hd _]. set_solver.
Qed.

Lemma ring_init nx pv s : ring (<[s := s]> nx) (<[s := s]> pv) s [].
Proof.
  split; [|apply NoDup_singleton]. simpl. rewrite !lookup_insert_eq. auto.
Qed.

(** Insertion after the sentinel. *)
Lemma ring_add nx pv s ns n :
  ring nx pv s ns -> n ∉ s :: ns ->
  ring (<[s := n]> (<[n := hd s ns]> nx)) (<[hd s ns := n]> (<[n := s]> pv)) s (n :: ns).
Proof.
  intros [Hl Hd] Hn. assert (n <> s) by set_solver.
  split; [|apply NoDup_cons; split; [|apply NoDup_cons; split];
           apply NoDup_cons in Hd as [? ?]; set_solver].
  destruct ns as [|a ns].
  - simpl. simplify_map_eq. auto.
  - assert (n <> a) by set_solver.
    assert (a <> s) by (apply NoDup_cons in Hd as [? _]; set_solver).
    destruct Hl as (_ & _ & Hl). change (linked nx pv (a :: ns ++ [s])) in Hl.
    refine (conj _ (conj _ (conj _ (conj _ (linked_ext_snoc nx pv _ _ a ns s _ _ Hl)))));
      simpl; try (simplify_map_eq; done).
    + intros x Hx. apply NoDup_cons in Hd as [Hs Hd].
      rewrite !lookup_insert_ne; auto; intros ->; set_solver.
    + intros x Hx. apply NoDup_cons in Hd as [Hs Hd]. apply NoDup_cons in Hd as [Ha Hd].
      rewrite !lookup_insert_ne; auto; intros ->; set_solver.
Qed.

Lemma ring_split nx pv s l1 n l2 :
  ring nx pv s (l1 ++ n :: l2) ->
  exists k p q t, s :: l1 = k ++ [p] /\ l2 ++ [s] = q :: t /\
    pv !! n = Some p /\ nx !! n = Some q /\
    linked nx pv (k ++ [p]) /\ linked nx pv (q :: t).
Proof.
  intros [Hl _].
  destruct (exists_last (l := s :: l1)) as (k & p & Ek); [discriminate|].
  destruct (l2 ++ [s]) as [|q t] eqn:Et; [destruct l2; discriminate|].
  exists k, p, q, t. rewrite <- app_assoc, app_comm_cons, Ek in Hl. simpl in Hl.
  rewrite Et, <- app_assoc in Hl. simpl in Hl.
  apply linked_app in Hl as [Hk (H1 & H2 & H3 & H4 & H5)]. auto 10.
Qed.

(** Removal of any node. *)
Lemma ring_del nx pv s l1 n l2 :
  ring nx pv s (l1 ++ n :: l2) ->
  exists p q, pv !! n = Some p /\ nx !! n = Some q /\ p <> n /\ q <> n /\
    p ∈ s :: l1 ++ l2 /\ q ∈ s :: l1 ++ l2 /\
    ring (<[p := q]> nx) (<[q := p]> pv) s (l1 ++ l2).
Proof.
  intros Hr. destruct (ring_split _ _ _ _ _ _ Hr) as (k & p & q & t & Ek & Et & Hp & Hq & Lk & Lt).
  destruct Hr as [_ Hd]. exists p, q.
  assert (Hpin : p ∈ s :: l1) by (rewrite Ek; set_solver).
  assert (Hqin : q ∈ l2 ++ [s]) by (rewrite Et; set_solver).
  apply NoDup_cons in Hd as [Hs Hd]. apply NoDup_app in Hd as (Hd1 & Hd12 & Hd2).
  apply NoDup_cons in Hd2 as [Hn2 Hd2].
  assert (Hdk : NoDup (k ++ [p])) by (rewrite <- Ek; apply NoDup_cons; set_solver).
  assert (Hdq : NoDup (q :: t))
    by (rewrite <- Et; apply NoDup_app; split; [auto|]; split; [set_solver|apply NoDup_singleton]).
  assert (Hdisj : forall x, x ∈ l1 -> x ∈ l2 -> False) by set_solver.
  split_and!; auto; try set_solver.
  split; [|apply NoDup_cons; split; [set_solver|]; apply NoDup_app; set_solver].
  replace (s :: (l1 ++ l2) ++ [s]) with (k ++ p :: q :: t)
    by (rewrite <- app_assoc, Et, app_comm_cons, Ek, <- app_assoc; reflexivity).
  apply linked_app. split; [|split; [|split]].
  - eapply linked_ext; [| |exact Lk].
    + intros i x Hi Hlt. rewrite length_app in Hlt; simpl in Hlt.
      rewrite lookup_app_l in Hi by lia. rewrite lookup_insert_ne; auto. intros ->.
      apply NoDup_app in Hdk as (_ & Hdk & _). apply (Hdk x); [apply list_elem_of_lookup; eauto | set_solver].
    + intros i x Hi. rewrite <- Ek in Hi. simpl in Hi.
      assert (x ∈ l1) by (apply list_elem_of_lookup; eauto).
      rewrite lookup_insert_ne; auto. intros ->. set_solver.
  - apply lookup_insert_eq.
  - apply lookup_insert_eq.
  - eapply linked_ext; [| |exact Lt].
    + intros i x Hi Hlt. rewrite <- Et in Hi, Hlt. rewrite length_app in Hlt; simpl in Hlt.
      rewrite lookup_app_l in Hi by lia.
      assert (x ∈ l2) by (apply list_elem_of_lookup; eauto).
      rewrite lookup_insert_ne; auto. intros ->. set_solver.
    + intros i x Hi. simpl in Hi. apply NoDup_cons in Hdq as [Hqt _].
      assert (x ∈ t) by (apply list_elem_of_lookup; eauto).
      rewrite lookup_insert_ne; auto. intros ->. auto.
Qed.
End ring.

(** ** Fields

    Reading or writing a field of something that is not a record is
    undefined. *)
Definition fget {A} (m : gmap Z A) (p : Z) : res A := of_option (m !! p).
Definition fset {A} (m : gmap Z A) (p : Z) (v : A) : res (gmap Z A) :=
  match m !! p with Some _ => Ok (<[p := v]> m) | None => Ub end.

Lemma fget_ok {A} (m : gmap Z A) p v : m !! p = Some v -> fget m p = Ok v.
Proof. unfold fget. intros ->. reflexivity. Qed.

Lemma fset_ok {A} (m : gmap Z A) p v : is_Some (m !! p) -> fset m p v = Ok (<[p := v]> m).
Proof. unfold fset. intros [x ->]. reflexivity. Qed.

Lemma insert_is_Some {A} (m : gmap Z A) p q v : is_Some (m !! q) -> is_Some (<[p := v]> m !! q).
Proof.
  intros Hs. destruct (decide (p = q)) as [->|].
  - rewrite lookup_insert_eq. eauto.
  - rewrite lookup_insert_ne by auto. exact Hs.
Qed.
#[export] Hint Resolve insert_is_Some : adros.

(** [if (k) k->field = v;] *)
Definition upd0 {A} (k : Z) (v : A) (m : gmap Z A) : gmap Z A :=
  if k =? 0 then m else <[k := v]> m.
Definition fset0 {A} (m : gmap Z A) (p : Z) (v : A) : res (gmap Z A) :=
  if p =? 0 then Ok m else fset m p v.

Lemma fset0_ok {A} (m : gmap Z A) p v :
  p <> 0 -> is_Some (m !! p) -> fset0 m p v = Ok (upd0 p v m).
Proof.
  intros Hp Hs. unfold fset0, upd0. destruct (Z.eqb_spec p 0); [contradiction|].
  apply fset_ok. auto.
Qed.

Lemma fset0_opt {A} (m : gmap Z A) p v :
  (p = 0 \/ is_Some (m !! p)) -> fset0 m p v = Ok (upd0 p v m).
Proof.
  intros [->|Hs]; [reflexivity|]. unfold fset0, upd0. destruct (Z.eqb_spec p 0); [reflexivity|].
  apply fset_ok. auto.
Qed.

Lemma upd0_ne {A} k (v : A) m x : x <> k -> upd0 k v m !! x = m !! x.
Proof. unfold upd0. intros. destruct (k =? 0); auto. apply lookup_insert_ne. auto. Qed.

Lemma upd0_is_Some {A} k (v : A) m x : is_Some (m !! x) -> is_Some (upd0 k v m !! x).
Proof. unfold upd0. intros. destruct (k =? 0); auto with adros. Qed.
#[export] Hint Resolve upd0_is_Some : adros.

(** ** Segments *)

Fixpoint seg (nx pv : gmap Z Z) (p : Z) (l : list Z) (n : Z) : Prop :=
  match l with
  | [] => True
  | x :: l' => pv !! x = Some p /\ nx !! x = Some (hd n l') /\ seg nx pv x l' n
  end.

Fixpoint lastd (p : Z) (l : list Z) : Z :=
  match l with [] => p | x :: l => lastd x l end.

Lemma hd_app n (l1 l2 : list Z) : hd n (l1 ++ l2) = hd (hd n l2) l1.
Proof. destruct l1; reflexivity. Qed.

Lemma lastd_app l1 : forall p l2, lastd p (l1 ++ l2) = lastd (lastd p l1) l2.
Proof. induction l1; simpl; auto. Qed.

Lemma lastd_elem l : forall p, lastd p l = p \/ lastd p l ∈ l.
Proof.
  induction l as [|x l IH]; intros p; simpl; [auto|]. right.
  destruct (IH x) as [->|Hin]; set_solver.
Qed.

Lemma hd_elem n (l : list Z) : hd n l = n \/ hd n l ∈ l.
Proof. destruct l; simpl; [auto|set_solver]. Qed.

Lemma lastd_nonzero p l : 0 ∉ l -> l <> [] -> lastd p l <> 0.
Proof.
  destruct l as [|x l]; [congruence|]. intros H0 _ E. simpl in E.
  destruct (lastd_elem l x) as [E'|Hin]; apply H0; [rewrite E' in E|rewrite E in Hin]; set_solver.
Qed.

Section seg.
Implicit Types (nx pv : gmap Z Z) (l : list Z) (p q n x : Z).

Lemma seg_app nx pv l1 : forall p l2 n,
  seg nx pv p (l1 ++ l2) n <-> seg nx pv p l1 (hd n l2) /\ seg nx pv (lastd p l1) l2 n.
Proof.
  induction l1 as [|x l1 IH]; intros p l2 n; simpl; [tauto|]. rewrite IH, hd_app. tauto.
Qed.

Lemma seg_ext nx pv nx' pv' l : forall p n,
  (forall x, x ∈ l -> nx' !! x = nx !! x /\ pv' !! x = pv !! x) ->
  seg nx pv p l n -> seg nx' pv' p l n.
Proof.
  induction l as [|x l IH]; intros p n He Hs; [auto|]. destruct Hs as (H1 & H2 & H3).
  destruct (He x) as [E1 E2]; [set_solver|]. simpl. rewrite E1, E2. split_and!; auto.
  apply IH; auto. intros y Hy. apply He. set_solver.
Qed.

Lemma seg_in nx pv l p n x : seg nx pv p l n -> x ∈ l -> is_Some (nx !! x) /\ is_Some (pv !! x).
Proof.
  revert p. induction l as [|y l IH]; intros p Hs Hx; [set_solver|].
  destruct Hs as (H1 & H2 & H3). apply elem_of_cons in Hx as [->|Hx]; eauto.
Qed.

(** Changing what follows the last record. *)
Lemma seg_end nx pv l : forall p n n',
  seg nx pv p l n -> NoDup l -> 0 ∉ l -> p = 0 \/ p ∉ l ->
  seg (if l then nx else <[lastd p l := n']> nx) pv p l n'.
Proof.
  induction l as [|x l IH]; intros p n n' Hs Hd H0 Hp; [auto|].
  destruct Hs as (H1 & H2 & H3). apply NoDup_cons in Hd as [Hx Hd]. simpl.
  destruct l as [|y l].
  - simpl in *. rewrite lookup_insert_eq. auto.
  - specialize (IH x n n' H3 Hd ltac:(set_solver) (or_intror Hx)).
    split_and!; auto. simpl in *. rewrite lookup_insert_ne; auto.
    destruct (lastd_elem l y) as [->|Hin]; [set_solver|]. intros <-. set_solver.
Qed.

(** Changing what precedes the first record. *)
Lemma seg_begin nx pv l p p' n :
  seg nx pv p l n -> NoDup l -> seg nx (if l then pv else <[hd n l := p']> pv) p' l n.
Proof.
  destruct l as [|x l]; [auto|]. intros (H1 & H2 & H3) [Hx _]%NoDup_cons. simpl.
  split; [apply lookup_insert_eq|]. split; [auto|].
  eapply seg_ext; [|exact H3]. intros y Hy. split; [auto|]. apply lookup_insert_ne. set_solver.
Qed.

Lemma seg_insert nx pv l1 l2 p :
  seg nx pv 0 (l1 ++ l2) 0 -> NoDup (l1 ++ l2) -> 0 ∉ l1 ++ l2 -> p ∉ l1 ++ l2 ->
  p <> 0 ->
  seg (upd0 (lastd 0 l1) p (<[p := hd 0 l2]> nx)) (upd0 (hd 0 l2) p (<[p := lastd 0 l1]> pv))
      0 (l1 ++ p :: l2) 0.
Proof.
  intros Hs Hd H0 Hp Hp0. apply seg_app in Hs as [Hs1 Hs2]. apply NoDup_app in Hd as (Hd1 & Hd12 & Hd2).
  apply seg_app. simpl hd. split.
  - eapply seg_ext; [|exact (seg_end nx pv l1 0 _ p Hs1 Hd1 ltac:(set_solver) (or_introl eq_refl))].
    intros x Hx. split.
    + destruct l1 as [|y l1]; [set_solver|]. unfold upd0.
      destruct (Z.eqb_spec (lastd 0 (y :: l1)) 0) as [E|].
      * exfalso. apply (lastd_nonzero 0 (y :: l1)) in E; [auto|set_solver|discriminate].
      * destruct (decide (x = lastd 0 (y :: l1))) as [->|];
          [rewrite !lookup_insert_eq; auto|rewrite !lookup_insert_ne by set_solver; auto].
    + rewrite upd0_ne, lookup_insert_ne; auto; [set_solver|].
      destruct (hd_elem 0 l2) as [->|Hin]; [set_solver|]. intros ->. exact (Hd12 _ Hx Hin).
  - assert (Hpl : p <> lastd 0 l1) by (destruct (lastd_elem l1 0) as [->|Hin]; [auto|intros ->; set_solver]).
    assert (Hph : p <> hd 0 l2 \/ l2 = [])
      by (destruct l2; [auto|left; simpl; set_solver]).
    split; [|split].
    + destruct Hph as [| ->]; [rewrite upd0_ne by auto|]; apply lookup_insert_eq.
    + destruct (decide (p = lastd 0 l1)); [contradiction|].
      rewrite upd0_ne by auto. apply lookup_insert_eq.
    + eapply seg_ext; [|exact (seg_begin nx pv l2 _ p 0 Hs2 Hd2)]. intros x Hx. split.
      * rewrite upd0_ne, lookup_insert_ne; auto; [set_solver|].
        destruct (lastd_elem l1 0) as [->|Hin]; [set_solver|]. intros ->. exact (Hd12 _ Hin Hx).
      * destruct l2 as [|y l2]; [set_solver|]. unfold upd0. simpl.
        destruct (Z.eqb_spec y 0) as [->|]; [set_solver|].
        destruct (decide (x = y)) as [->|];
          [rewrite !lookup_insert_eq; auto|rewrite !lookup_insert_ne by set_solver; auto].
Qed.

Lemma seg_mid nx pv p l1 x l2 n :
  seg nx pv p (l1 ++ x :: l2) n ->
  pv !! x = Some (lastd p l1) /\ nx !! x = Some (hd n l2).
Proof. intros [_ (H1 & H2 & _)]%seg_app. auto. Qed.

Lemma seg_remove nx pv l1 x l2 :
  seg nx pv 0 (l1 ++ x :: l2) 0 -> NoDup (l1 ++ x :: l2) -> 0 ∉ l1 ++ x :: l2 ->
  seg (<[x := 0]> (upd0 (lastd 0 l1) (hd 0 l2) nx)) (<[x := 0]> (upd0 (hd 0 l2) (lastd 0 l1) pv))
      0 (l1 ++ l2) 0.
Proof.
  intros Hs Hd H0. apply seg_app in Hs as [Hs1 (_ & _ & Hs2)].
  apply NoDup_app in Hd as (Hd1 & Hd12 & [Hx2 Hd2]%NoDup_cons).
  assert (Hx1 : x ∉ l1) by (intros Hx; apply (Hd12 x Hx); set_solver).
  apply seg_app. split.
  - eapply seg_ext; [|exact (seg_end nx pv l1 0 _ (hd 0 l2) Hs1 Hd1 ltac:(set_solver)
                                      (or_introl eq_refl))].
    intros y Hy. rewrite !lookup_insert_ne by set_solver. split.
    + destruct l1 as [|z l1]; [set_solver|]. unfold upd0.
      destruct (Z.eqb_spec (lastd 0 (z :: l1)) 0) as [E|]; [|auto].
      exfalso. apply (lastd_nonzero 0 (z :: l1)) in E; [auto|set_solver|discriminate].
    + apply upd0_ne. destruct (hd_elem 0 l2) as [->|Hin]; [set_solver|]. intros ->.
      apply (Hd12 _ Hy). set_solver.
  - eapply seg_ext; [|exact (seg_begin nx pv l2 _ (lastd 0 l1) 0 Hs2 Hd2)]. intros y Hy.
    rewrite !lookup_insert_ne by set_solver. split.
    + apply upd0_ne. destruct (lastd_elem l1 0) as [->|Hin]; [set_solver|]. intros ->.
      apply (Hd12 _ Hin). set_solver.
    + destruct l2 as [|z l2]; [set_solver|]. unfold upd0. simpl.
      destruct (Z.eqb_spec z 0) as [->|]; [set_solver|auto].
Qed.
End seg.
