(* ===== verification/Heap.v ===== *)
(** The kernel heap of src/mm/heap.c: a buddy allocator over 8 MB with block
    headers in place and one circular doubly linked free list per order.

    Memory is modelled by what the allocator keeps in it: the header at an
    address ([hdrs]) and the two link fields of a free-list node ([nexts],
    [prevs]), whose address is the sentinel of a list or a place in the heap.
    Headers and nodes of different blocks never share a byte, because a block
    has at least 32 bytes, its header the first 16 and its node the next 8.
    Reading a field that was never written is [Ub], as is any access outside
    the heap and the sentinels. *)

From S2P Require Import Prelude.

Definition KHEAP_START : Z := 3489660928.          (* 0xD0000000 *)
Definition BUDDY_MIN_ORDER : Z := 5.
Definition BUDDY_MAX_ORDER : Z := 23.
Definition BUDDY_NUM_ORDERS : Z := BUDDY_MAX_ORDER - BUDDY_MIN_ORDER + 1.
Definition BUDDY_HEAP_SIZE : Z := 8388608.         (* 1 << BUDDY_MAX_ORDER *)
Definition BUDDY_MAGIC : Z := 3170945790.          (* 0xBD00CAFE *)
Definition HDR_SIZE : Z := 16.

Record block_hdr : Type := BlockHdr {
  magic : Z;
  order : Z;
  is_free : Z;
  pad : Z
}.

(** Addresses of free-list nodes: the sentinel [&free_lists[i]], or a node in
    the data area of a block. *)
Inductive fptr : Type :=
| FL (i : Z)
| FN (a : Z).

#[export] Instance fptr_eq_dec : EqDecision fptr.
Proof. solve_decision. Defined.
#[export] Instance fptr_countable : Countable fptr.
Proof.
  refine (inj_countable' (fun p => match p with FL i => inl i | FN a => inr a end)
                         (fun s => match s with inl i => FL i | inr a => FN a end) _).
  intros []; reflexivity.
Defined.

(** The part of [struct process] the corruption handler writes. *)
Record cproc : Type := CProc {
  cp_zombie : bool;
  cp_exit_status : Z
}.

Record heap : Type := Heap {
  hdrs : gmap Z block_hdr;
  nexts : gmap fptr fptr;
  prevs : gmap fptr fptr;
  current_process : option cproc;
  schedule_calls : nat
}.

(** ** Memory access *)

Definition hdr_addr_ok (a : Z) : bool :=
  (KHEAP_START <=? a) && (a + HDR_SIZE <=? KHEAP_START + BUDDY_HEAP_SIZE).
Definition node_ok (p : fptr) : bool :=
  match p with
  | FL i => (0 <=? i) && (i <? BUDDY_NUM_ORDERS)
  | FN a => (KHEAP_START + HDR_SIZE <=? a) && (a + 8 <=? KHEAP_START + BUDDY_HEAP_SIZE)
  end.

Definition get_hdr (h : heap) (a : Z) : res block_hdr := of_option (hdrs h !! a).
Definition put_hdr (h : heap) (a : Z) (x : block_hdr) : res heap :=
  if hdr_addr_ok a
  then Ok (Heap (<[a := x]> (hdrs h)) (nexts h) (prevs h) (current_process h) (schedule_calls h))
  else Ub.
Definition get_next (h : heap) (p : fptr) : res fptr := of_option (nexts h !! p).
Definition get_prev (h : heap) (p : fptr) : res fptr := of_option (prevs h !! p).
Definition put_next (h : heap) (p q : fptr) : res heap :=
  if node_ok p
  then Ok (Heap (hdrs h) (<[p := q]> (nexts h)) (prevs h) (current_process h) (schedule_calls h))
  else Ub.
Definition put_prev (h : heap) (p q : fptr) : res heap :=
  if node_ok p
  then Ok (Heap (hdrs h) (nexts h) (<[p := q]> (prevs h)) (current_process h) (schedule_calls h))
  else Ub.

(** ** Inline helpers *)

Definition blk_to_fn (h : Z) : fptr := FN (h + HDR_SIZE).
Definition fn_to_blk (p : fptr) : res Z :=
  match p with FN a => Ok (a - HDR_SIZE) | FL _ => Ub end.

Definition fl_init (h : heap) (s : fptr) : res heap :=
  h ← put_next h s s;
  put_prev h s s.

Definition fl_empty (h : heap) (s : fptr) : res bool :=
  n ← get_next h s;
  mret (bool_decide (n = s)).

Definition fl_add (h : heap) (s n : fptr) : res heap :=
  sn ← get_next h s;
  h ← put_next h n sn;
  h ← put_prev h n s;
  sn ← get_next h s;
  h ← put_prev h sn n;
  put_next h s n.

Definition fl_del (h : heap) (n : fptr) : res heap :=
  pv ← get_prev h n;
  nx ← get_next h n;
  h ← put_next h pv nx;
  nx ← get_next h n;
  pv ← get_prev h n;
  put_prev h nx pv.

Definition fl_pop (h : heap) (s : fptr) : res (fptr * heap) :=
  n ← get_next h s;
  h ← fl_del h n;
  mret (n, h).

Definition buddy_of (b order : Z) : option Z :=
  let off := u32 (b - KHEAP_START) in
  let buddy_off := Z.lxor off (Z.shiftl 1 order) in
  if BUDDY_HEAP_SIZE <=? buddy_off then None else Some (KHEAP_START + buddy_off).

(** [while ((1U << order) < total && order < BUDDY_MAX_ORDER) order++;] *)
Fixpoint order_loop (fuel : nat) (total order : Z) : Z :=
  match fuel with
  | O => order
  | S fuel =>
      if (Z.shiftl 1 order <? total) && (order <? BUDDY_MAX_ORDER)
      then order_loop fuel total (order + 1) else order
  end.

(** The order rises from 5 to at most 23: 18 iterations are enough. *)
Definition size_to_order (size : Z) : Z :=
  let total := u32 (size + HDR_SIZE) in
  order_loop 18 total BUDDY_MIN_ORDER.

(** The corruption handler: the current process becomes a zombie with status
    128 and the scheduler runs. *)
Definition corruption (h : heap) : heap :=
  match current_process h with
  | Some _ =>
      Heap (hdrs h) (nexts h) (prevs h) (Some (CProc true 128)) (S (schedule_calls h))
  | None => h
  end.

(** ** Public operations *)

(** The order of the first non-empty list, [BUDDY_MAX_ORDER + 1] if none. *)
Fixpoint find_order (fuel : nat) (h : heap) (k : Z) : res Z :=
  match fuel with
  | O => mret k
  | S fuel =>
      if k <=? BUDDY_MAX_ORDER then
        e ← fl_empty h (FL (k - BUDDY_MIN_ORDER));
        if (e : bool) then find_order fuel h (k + 1) else mret k
      else mret k
  end.

Definition set_order (h : heap) (a k : Z) : res heap :=
  x ← get_hdr h a;
  put_hdr h a (BlockHdr (magic x) (u8 k) (is_free x) (pad x)).
Definition set_free (h : heap) (a v : Z) : res heap :=
  x ← get_hdr h a;
  put_hdr h a (BlockHdr (magic x) (order x) v (pad x)).

(** [while (k > order)]: split off the upper half until the order fits. *)
Fixpoint split_loop (fuel : nat) (h : heap) (blk k order : Z) : res heap :=
  match fuel with
  | O => NoFuel
  | S fuel =>
      if order <? k then
        let k := k - 1 in
        let buddy := u32 (blk + Z.shiftl 1 k) in
        h ← put_hdr h buddy (BlockHdr BUDDY_MAGIC (u8 k) 1 0);
        h ← fl_add h (FL (k - BUDDY_MIN_ORDER)) (blk_to_fn buddy);
        h ← set_order h blk k;
        split_loop fuel h blk k order
      else mret h
  end.

Definition kmalloc (h : heap) (size : Z) : res (Z * heap) :=
  if size =? 0 then mret (0, h)
  else
    let ord := size_to_order size in
    if BUDDY_MAX_ORDER <? ord then mret (0, h)
    else
      k ← find_order 19 h ord;
      if BUDDY_MAX_ORDER <? k then mret (0, h)
      else
        '(fn, h) ← fl_pop h (FL (k - BUDDY_MIN_ORDER));
        blk ← fn_to_blk fn;
        x ← get_hdr h blk;
        if negb (magic x =? BUDDY_MAGIC) || (is_free x =? 0) then mret (0, corruption h)
        else
          h ← split_loop 19 h blk k ord;
          h ← set_free h blk 0;
          mret (blk + HDR_SIZE, h).

(** [while (order < BUDDY_MAX_ORDER)]: merge with the buddy while it is free
    and of the same order; returns the block and its order. *)
Fixpoint merge_loop (fuel : nat) (h : heap) (blk ord : Z) : res (Z * Z * heap) :=
  match fuel with
  | O => NoFuel
  | S fuel =>
      if ord <? BUDDY_MAX_ORDER then
        match buddy_of blk ord with
        | None => mret (blk, ord, h)
        | Some buddy =>
            x ← get_hdr h buddy;
            if negb (magic x =? BUDDY_MAGIC) || (is_free x =? 0) || negb (order x =? u8 ord)
            then mret (blk, ord, h)
            else
              h ← fl_del h (blk_to_fn buddy);
              let blk := if buddy <? blk then buddy else blk in
              let ord := ord + 1 in
              h ← set_order h blk ord;
              merge_loop fuel h blk ord
        end
      else mret (blk, ord, h)
  end.

Definition kfree (h : heap) (ptr : Z) : res heap :=
  if ptr =? 0 then mret h
  else
    let blk := u32 (ptr - HDR_SIZE) in
    x ← get_hdr h blk;
    if negb (magic x =? BUDDY_MAGIC) then mret (corruption h)
    else if negb (is_free x =? 0) then mret (corruption h)
    else
      h ← set_free h blk 1;
      '(blk, ord, h) ← merge_loop 19 h blk (order x);
      fl_add h (FL (ord - BUDDY_MIN_ORDER)) (blk_to_fn blk).

(** ** Initialisation *)

Fixpoint init_lists (n : nat) (h : heap) (i : Z) : res heap :=
  match n with
  | O => mret h
  | S n => h ← fl_init h (FL i); init_lists n h (i + 1)
  end.

Section init.
(** The page allocator and the page mapper, on whatever state they keep. *)
Context {W : Type}.
Variable pmm_alloc_page : W -> res (Z * W).
Variable vmm_map_page : W -> Z -> Z -> Z -> res W.

Definition VMM_FLAG_PRESENT : Z := 1.
Definition VMM_FLAG_RW : Z := 2.

(** Maps the pages of the heap; [false] when memory runs out. *)
Fixpoint map_heap (n : nat) (w : W) (va : Z) : res (bool * W) :=
  match n with
  | O => mret (true, w)
  | S n =>
      '(phys, w) ← pmm_alloc_page w;
      if phys =? 0 then mret (false, w)
      else
        w ← vmm_map_page w phys va (Z.lor VMM_FLAG_PRESENT VMM_FLAG_RW);
        map_heap n w (u32 (va + 4096))
  end.

Definition kheap_init (h : heap) (w : W) : res (heap * W) :=
  h ← init_lists (Z.to_nat BUDDY_NUM_ORDERS) h 0;
  '(mapped, w) ← map_heap (Z.to_nat (BUDDY_HEAP_SIZE / 4096)) w KHEAP_START;
  if (mapped : bool) then
    h ← put_hdr h KHEAP_START (BlockHdr BUDDY_MAGIC BUDDY_MAX_ORDER 1 0);
    h ← fl_add h (FL (BUDDY_MAX_ORDER - BUDDY_MIN_ORDER)) (blk_to_fn KHEAP_START);
    mret (h, w)
  else mret (h, w).
End init.
