(* ===== verification/HeapInv.v ===== *)
(** The invariant of the buddy allocator and its preservation by the
    elementary steps of [kmalloc] and [kfree]: the blocks tile the heap, each
    block carries a faithful header, the free lists are rings that hold exactly
    the free blocks, and no two free buddies are left unmerged. *)

From S2P Require Import Prelude Ring Heap.

(** ** Buddies *)

Lemma lxor_buddy a o :
  0 <= o -> Z.lxor a (2 ^ o) = if Z.testbit a o then a - 2 ^ o else a + 2 ^ o.
Proof.
  intros Ho.
  assert (Hadd : forall b, Z.testbit b o = false -> b + 2 ^ o = Z.lxor b (2 ^ o)).
  { intros b Hb. apply Z.add_nocarry_lxor. apply Z.bits_inj'. intros n Hn.
    rewrite Z.land_spec, Z.bits_0. destruct (Z.eq_dec n o) as [->|].
    - rewrite Hb. reflexivity.
    - rewrite (Z.pow2_bits_false o n) by lia. apply andb_false_r. }
  destruct (Z.testbit a o) eqn:E; [|symmetry; auto].
  assert (Hb : Z.testbit (Z.lxor a (2 ^ o)) o = false)
    by (rewrite Z.lxor_spec, E, Z.pow2_bits_true by lia; reflexivity).
  apply Hadd in Hb. rewrite Z.lxor_assoc, Z.lxor_nilpotent, Z.lxor_0_r in Hb. lia.
Qed.

Lemma pow2_double o : 0 <= o -> 2 ^ (o + 1) = 2 * 2 ^ o.
Proof. intros. rewrite Z.pow_add_r by lia. lia. Qed.

Lemma pow2_pos o : 0 <= o -> 0 < 2 ^ o.
Proof. intros. apply Z.pow_pos_nonneg; lia. Qed.

Lemma pow2_divide i j : 0 <= i <= j -> (2 ^ i | 2 ^ j).
Proof. intros. exists (2 ^ (j - i)). rewrite <- Z.pow_add_r by lia. f_equal. lia. Qed.

(** The lower of two buddies is aligned to their union. *)
Lemma buddy_pair a o :
  0 <= o -> (2 ^ o | a) ->
  let c := Z.lxor a (2 ^ o) in
  (2 ^ (o + 1) | Z.min a c) /\ Z.max a c = Z.min a c + 2 ^ o /\ (2 ^ o | c).
Proof.
  intros Ho [q Hq] c. pose proof (pow2_pos o Ho) as Hp. unfold c. rewrite lxor_buddy by auto.
  assert (Hodd : Z.testbit a o = Z.odd q).
  { rewrite Z.testbit_odd, Z.shiftr_div_pow2, Hq, Z.div_mul by lia. reflexivity. }
  rewrite Hodd. destruct (Z.odd q) eqn:E.
  - apply Z.odd_spec in E as [r Hr]. rewrite Z.min_r, Z.max_l by lia.
    split_and!; [exists r; rewrite pow2_double by auto; nia | lia | exists (q - 1); lia].
  - rewrite <- Z.negb_even in E. apply negb_false_iff, Z.even_spec in E as [r Hr].
    rewrite Z.min_l, Z.max_r by lia.
    split_and!; [exists r; rewrite pow2_double by auto; nia | lia | exists (q + 1); lia].
Qed.

(** A dyadic interval that contains a point contains the aligned interval of
    any smaller order around it. *)
Lemma dyadic_nest b ob p op :
  0 <= op <= ob -> (2 ^ ob | b) -> (2 ^ op | p) ->
  forall x, b <= x < b + 2 ^ ob -> p <= x < p + 2 ^ op ->
  b <= p /\ p + 2 ^ op <= b + 2 ^ ob.
Proof.
  intros Ho [i ->] [j ->] x Hb Hp. destruct (pow2_divide op ob Ho) as [d Hd].
  pose proof (pow2_pos op ltac:(lia)). rewrite Hd in *. rewrite !Z.mul_assoc in *.
  replace (i * d * 2 ^ op + d * 2 ^ op) with ((i * d + d) * 2 ^ op) in * by ring.
  replace (j * 2 ^ op + 2 ^ op) with ((j + 1) * 2 ^ op) in * by ring.
  assert (i * d < j + 1) by (apply (Z.mul_lt_mono_pos_r (2 ^ op)); lia).
  assert (j < i * d + d) by (apply (Z.mul_lt_mono_pos_r (2 ^ op)); lia).
  split; apply Z.mul_le_mono_nonneg_r; lia.
Qed.

Lemma aligned_start b c k :
  0 <= k -> (2 ^ k | b) -> (2 ^ k | c) -> b <= c < b + 2 ^ k -> b = c.
Proof.
  intros Hk [i ->] [j ->] H. pose proof (pow2_pos k Hk).
  replace (i * 2 ^ k + 2 ^ k) with ((i + 1) * 2 ^ k) in H by ring.
  assert (i <= j) by (apply (Z.mul_le_mono_pos_r _ _ (2 ^ k)); lia).
  assert (j < i + 1) by (apply (Z.mul_lt_mono_pos_r (2 ^ k)); lia).
  f_equal. lia.
Qed.

(** ** Tilings of the heap *)

Record tiling (m : gmap Z (Z * bool)) : Prop := Tiling {
  t_block : forall a o f, m !! a = Some (o, f) ->
    BUDDY_MIN_ORDER <= o <= BUDDY_MAX_ORDER /\ 0 <= a /\ a + 2 ^ o <= BUDDY_HEAP_SIZE /\
    (2 ^ o | a);
  t_disj : forall a b oa ob fa fb, m !! a = Some (oa, fa) -> m !! b = Some (ob, fb) ->
    a < b -> a + 2 ^ oa <= b;
  t_cover : forall x, 0 <= x < BUDDY_HEAP_SIZE ->
    exists a o f, m !! a = Some (o, f) /\ a <= x < a + 2 ^ o
}.

Ltac heap_consts := unfold BUDDY_NUM_ORDERS in *;
  unfold BUDDY_MIN_ORDER, BUDDY_MAX_ORDER, BUDDY_HEAP_SIZE, HDR_SIZE, KHEAP_START in *.

Lemma heap_size_pow : BUDDY_HEAP_SIZE = 2 ^ BUDDY_MAX_ORDER.
Proof. reflexivity. Qed.

Lemma block_small m a o f : tiling m -> m !! a = Some (o, f) -> 32 <= 2 ^ o /\ 0 <= o.
Proof.
  intros T Hm. destruct (t_block m T _ _ _ Hm) as (Ho & _).
  split; [|heap_consts; lia]. change 32 with (2 ^ 5). apply Z.pow_le_mono_r; heap_consts; lia.
Qed.

Section buddy.
Context (m : gmap Z (Z * bool)) (T : tiling m) (a o : Z) (f : bool).
Hypothesis (Hm : m !! a = Some (o, f)) (Ho : o < BUDDY_MAX_ORDER).

Lemma buddy_pair_bounds :
  let c := Z.lxor a (2 ^ o) in
  0 <= Z.min a c /\ Z.min a c + 2 ^ (o + 1) <= BUDDY_HEAP_SIZE.
Proof.
  intros c. destruct (t_block m T _ _ _ Hm) as (Hor & Ha & Hend & Hdiv).
  assert (Ho0 : 0 <= o) by (heap_consts; lia).
  destruct (buddy_pair a o Ho0 Hdiv) as (Hd & Hmax & Hdc). fold c in Hd, Hmax, Hdc.
  destruct (dyadic_nest 0 BUDDY_MAX_ORDER (Z.min a c) (o + 1)) with (x := a) as [H1 H2].
  - heap_consts; lia.
  - apply Z.divide_0_r.
  - auto.
  - pose proof (pow2_pos o Ho0). rewrite heap_size_pow in Hend. lia.
  - rewrite pow2_double by auto. pose proof (pow2_pos o Ho0). lia.
  - rewrite heap_size_pow. lia.
Qed.

(** The buddy address of a block is always the start of a block, of the same
    order or smaller: the header [kfree] reads there is a real one. *)
Lemma buddy_exists : exists oc fc, m !! (Z.lxor a (2 ^ o)) = Some (oc, fc) /\ oc <= o.
Proof.
  set (c := Z.lxor a (2 ^ o)). destruct (t_block m T _ _ _ Hm) as (Hor & Ha & Hend & Hdiv).
  assert (Ho0 : 0 <= o) by (heap_consts; lia). pose proof (pow2_pos o Ho0) as Hp.
  destruct (buddy_pair a o Ho0 Hdiv) as (Hd & Hmax & Hdc). fold c in Hd, Hmax, Hdc.
  destruct buddy_pair_bounds as [Hlo Hhi]. fold c in Hlo, Hhi. rewrite pow2_double in * by auto.
  destruct (t_cover m T c) as (b & ob & fb & Hb & Hin); [lia|].
  destruct (t_block m T _ _ _ Hb) as (Hob & Hb0 & _ & Hdb).
  destruct (Z.le_gt_cases ob o) as [Hle|Hgt].
  - exists ob, fb. split; auto. replace c with b; auto.
    apply (aligned_start b c ob); auto; [heap_consts; lia|].
    transitivity (2 ^ o); auto. apply pow2_divide. heap_consts; lia.
  - exfalso. destruct (dyadic_nest b ob (Z.min a c) (o + 1)) with (x := c) as [H1 H2];
      rewrite ?pow2_double by auto; auto; try lia.
    rewrite pow2_double in H2 by auto.
    destruct (Z.lt_trichotomy a b) as [H|[->|H]]; [lia | rewrite Hm in Hb; simplify_eq; lia |].
    pose proof (t_disj m T b a _ _ _ _ Hb Hm H). lia.
Qed.
End buddy.

(** Changing the status of a block keeps the tiling. *)
Lemma tiling_status m a o f f' :
  tiling m -> m !! a = Some (o, f) -> tiling (<[a := (o, f')]> m).
Proof.
  intros T Hm.
  assert (Hlk : forall b ob fb, <[a := (o, f')]> m !! b = Some (ob, fb) ->
                exists fb', m !! b = Some (ob, fb')).
  { intros b ob fb Hb. destruct (decide (a = b)) as [->|]; simplify_map_eq; eauto. }
  destruct T as [T1 T2 T3]. split.
  - intros b ob fb [fb' Hb]%Hlk. eauto.
  - intros x y ox oy fx fy [fx' Hx]%Hlk [fy' Hy]%Hlk. eauto.
  - intros x Hx. destruct (T3 x Hx) as (b & ob & fb & Hb & Hin).
    destruct (decide (a = b)) as [->|]; [|exists b, ob, fb; simplify_map_eq; auto].
    rewrite Hm in Hb. simplify_eq. exists b, ob, f'. simplify_map_eq. auto.
Qed.

(** Splitting a block into two halves. *)
Definition split_block (m : gmap Z (Z * bool)) (a k : Z) : gmap Z (Z * bool) :=
  <[a + 2 ^ k := (k, true)]> (<[a := (k, false)]> m).

Lemma split_fresh m a k f :
  tiling m -> 0 <= k -> m !! a = Some (k + 1, f) -> m !! (a + 2 ^ k) = None.
Proof.
  intros T Hk Hm. destruct (m !! (a + 2 ^ k)) as [[ob fb]|] eqn:E; auto. exfalso.
  pose proof (pow2_pos k Hk). pose proof (t_disj m T a _ _ _ _ _ Hm E ltac:(lia)).
  rewrite pow2_double in H0 by auto. lia.
Qed.

Lemma tiling_split m a k f :
  tiling m -> BUDDY_MIN_ORDER <= k -> m !! a = Some (k + 1, f) -> tiling (split_block m a k).
Proof.
  intros T Hk Hm. assert (Hk0 : 0 <= k) by (heap_consts; lia). pose proof (pow2_pos k Hk0) as Hp.
  pose proof (t_block m T _ _ _ Hm) as (Ho & Ha & Hend & Hdiv).
  rewrite pow2_double in Hend, Hdiv by auto.
  assert (Hd : (2 ^ k | a)) by (destruct Hdiv as [q ->]; exists (q * 2); lia).
  assert (Hlk : forall b ob fb, split_block m a k !! b = Some (ob, fb) ->
     (b = a /\ ob = k) \/ (b = a + 2 ^ k /\ ob = k) \/
     (b <> a /\ b <> a + 2 ^ k /\ m !! b = Some (ob, fb))).
  { intros b ob fb Hb. unfold split_block in Hb.
    destruct (decide (a + 2 ^ k = b)) as [<-|]; [simplify_map_eq; auto|].
    destruct (decide (a = b)) as [<-|]; simplify_map_eq; auto. }
  assert (Hout : forall b ob fb, b <> a -> m !! b = Some (ob, fb) ->
     b + 2 ^ ob <= a \/ a + 2 * 2 ^ k <= b).
  { intros b ob fb Hne Hb. rewrite <- pow2_double by auto.
    destruct (Z.lt_total a b) as [|[|]]; [right|congruence|left];
      eapply (t_disj m T); eauto. }
  assert (Hsz : forall b ob fb, m !! b = Some (ob, fb) -> 0 < 2 ^ ob)
    by (intros b ob fb Hb; pose proof (block_small m _ _ _ T Hb); lia).
  split.
  - intros b ob fb [[-> ->]|[[-> ->]|(_ & _ & Hb)]]%Hlk; [| |eapply (t_block m T); eauto].
    + split_and!; auto; lia.
    + split_and!; auto; try lia. apply Z.divide_add_r; [auto|apply Z.divide_refl].
  - intros x y ox oy fx fy Hx Hy Hlt.
    apply Hlk in Hx as [[-> ->]|[[-> ->]|(Hx1 & Hx2 & Hx)]];
    apply Hlk in Hy as [[-> ->]|[[-> ->]|(Hy1 & Hy2 & Hy)]]; try lia;
      try (pose proof (Hout _ _ _ Hy1 Hy); pose proof (Hsz _ _ _ Hy); lia);
      try (pose proof (Hout _ _ _ Hx1 Hx); pose proof (Hsz _ _ _ Hx); lia).
    eapply (t_disj m T); eauto.
  - intros x Hx. destruct (t_cover m T x Hx) as (b & ob & fb & Hb & Hin).
    destruct (Z.eq_dec b a) as [->|Hne].
    + rewrite Hm in Hb. simplify_eq. rewrite pow2_double in Hin by auto. unfold split_block.
      destruct (Z.lt_ge_cases x (a + 2 ^ k)).
      * exists a, k, false. rewrite lookup_insert_ne, lookup_insert_eq by lia. split; [auto|lia].
      * exists (a + 2 ^ k), k, true. rewrite lookup_insert_eq. split; auto. lia.
    + exists b, ob, fb. split; auto. unfold split_block.
      pose proof (Hout _ _ _ Hne Hb). pose proof (Hsz _ _ _ Hb).
      rewrite !lookup_insert_ne by lia. auto.
Qed.

(** Merging a block with its buddy. *)
Definition merge_block (m : gmap Z (Z * bool)) (p o : Z) : gmap Z (Z * bool) :=
  <[p := (o + 1, false)]> (delete (p + 2 ^ o) m).

Lemma tiling_merge m p o f1 f2 :
  tiling m -> o < BUDDY_MAX_ORDER -> (2 ^ (o + 1) | p) ->
  m !! p = Some (o, f1) -> m !! (p + 2 ^ o) = Some (o, f2) -> tiling (merge_block m p o).
Proof.
  intros T Ho Hdiv H1 H2. destruct (t_block m T _ _ _ H1) as (Ho1 & Hp0 & _).
  assert (Ho0 : 0 <= o) by (heap_consts; lia). pose proof (pow2_pos o Ho0) as Hp.
  destruct (t_block m T _ _ _ H2) as (_ & _ & Hend & _).
  assert (Hlk : forall b ob fb, merge_block m p o !! b = Some (ob, fb) ->
     (b = p /\ ob = o + 1) \/ (b <> p /\ b <> p + 2 ^ o /\ m !! b = Some (ob, fb))).
  { intros b ob fb Hb. unfold merge_block in Hb. destruct (decide (p = b)) as [<-|]; [simplify_map_eq; auto|].
    destruct (decide (p + 2 ^ o = b)) as [<-|]; simplify_map_eq; auto. }
  assert (Hout : forall b ob fb, b <> p -> b <> p + 2 ^ o -> m !! b = Some (ob, fb) ->
     b + 2 ^ ob <= p \/ p + 2 * 2 ^ o <= b).
  { intros b ob fb Hn1 Hn2 Hb. destruct (Z.lt_total p b) as [Hl|[|Hl]]; [right|congruence|left].
    - pose proof (t_disj m T p b _ _ _ _ H1 Hb Hl).
      pose proof (t_disj m T (p + 2 ^ o) b _ _ _ _ H2 Hb ltac:(lia)). lia.
    - eapply (t_disj m T); eauto. }
  split.
  - intros b ob fb [[-> ->]|(_ & _ & Hb)]%Hlk; [|eapply (t_block m T); eauto].
    rewrite pow2_double in * by auto. split_and!; auto; heap_consts; lia.
  - intros x y ox oy fx fy Hx Hy Hlt.
    apply Hlk in Hx as [[-> ->]|(Hx1 & Hx2 & Hx)]; apply Hlk in Hy as [[-> ->]|(Hy1 & Hy2 & Hy)].
    + lia.
    + rewrite pow2_double by auto. pose proof (Hout _ _ _ Hy1 Hy2 Hy).
      pose proof (block_small m _ _ _ T Hy). lia.
    + eapply (t_disj m T); eauto.
    + eapply (t_disj m T); eauto.
  - intros x Hx. destruct (t_cover m T x Hx) as (b & ob & fb & Hb & Hin).
    destruct (Z.eq_dec b p) as [->|]; [|destruct (Z.eq_dec b (p + 2 ^ o)) as [->|]].
    + rewrite H1 in Hb. simplify_eq. exists p, (ob + 1), false. unfold merge_block.
      rewrite lookup_insert_eq, pow2_double by auto. split; auto. lia.
    + rewrite H2 in Hb. simplify_eq. exists p, (ob + 1), false. unfold merge_block.
      rewrite lookup_insert_eq, pow2_double by auto. split; auto. lia.
    + exists b, ob, fb. unfold merge_block.
      rewrite lookup_insert_ne, lookup_delete_ne by auto. auto.
Qed.

(** ** Free lists *)

Definition node (a : Z) : fptr := FN (KHEAP_START + a + HDR_SIZE).
Definition lst (i : Z) : fptr := FL (i - BUDDY_MIN_ORDER).

Definition valid_order (i : Z) : Prop := BUDDY_MIN_ORDER <= i <= BUDDY_MAX_ORDER.
Definition valid_node (a : Z) : Prop := 0 <= a /\ a + 24 <= BUDDY_HEAP_SIZE.

Lemma node_ok_node a : valid_node a -> node_ok (node a) = true.
Proof.
  intros []. unfold node_ok, node. rewrite andb_true_iff, !Z.leb_le. heap_consts. lia.
Qed.

Lemma node_ok_lst i : valid_order i -> node_ok (lst i) = true.
Proof.
  unfold valid_order, node_ok, lst. rewrite andb_true_iff, Z.leb_le, Z.ltb_lt. heap_consts. lia.
Qed.

#[global] Arguments node : simpl never.
#[global] Arguments lst : simpl never.
#[global] Arguments node_ok : simpl never.

#[global] Instance node_inj : Inj (=) (=) node.
Proof. intros a b [= H]. lia. Qed.

Lemma lst_inj i j : lst i = lst j -> i = j.
Proof. intros [= H]. lia. Qed.

(** The links of [h] hold, for every order, a ring of exactly the free blocks
    of that order. *)
Definition lists_ok (h : heap) (m : gmap Z (Z * bool)) : Prop :=
  exists F : Z -> list Z,
    (forall i a, a ∈ F i <-> m !! a = Some (i, true)) /\
    (forall i, valid_order i -> ring (nexts h) (prevs h) (lst i) (node <$> F i)) /\
    (forall i a, a ∈ F i -> valid_node a).

Lemma lists_ok_ext h m m' :
  (forall a i, m !! a = Some (i, true) <-> m' !! a = Some (i, true)) ->
  lists_ok h m -> lists_ok h m'.
Proof.
  intros He (F & HF & HR & HV). exists F. split_and!; auto. intros i a. rewrite HF. auto.
Qed.

Lemma lists_ok_links h h' m :
  nexts h' = nexts h -> prevs h' = prevs h -> lists_ok h m -> lists_ok h' m.
Proof. unfold lists_ok. intros -> ->. auto. Qed.

(** [h'] differs from [h] in the links only. *)
Definition same_hdrs (h h' : heap) : Prop :=
  hdrs h' = hdrs h /\ current_process h' = current_process h /\
  schedule_calls h' = schedule_calls h.

Lemma lists_empty h m i :
  lists_ok h m -> valid_order i ->
  exists e, fl_empty h (lst i) = Ok e /\
    (if e then forall a, m !! a <> Some (i, true) else exists a, m !! a = Some (i, true)).
Proof.
  intros (F & HF & HR & _) Hi. specialize (HR i Hi). unfold fl_empty, get_next.
  rewrite (ring_next _ _ _ _ HR).
  exists (bool_decide (hd (lst i) (node <$> F i) = lst i)). split; [reflexivity|].
  destruct (F i) as [|a r] eqn:E.
  - rewrite bool_decide_eq_true_2 by auto. intros a Ha. apply HF in Ha. rewrite E in Ha.
    set_solver.
  - rewrite bool_decide_eq_false_2 by discriminate. exists a. apply HF. rewrite E. set_solver.
Qed.

Lemma put_next_ok h p q :
  node_ok p = true ->
  put_next h p q = Ok (Heap (hdrs h) (<[p := q]> (nexts h)) (prevs h) (current_process h)
                            (schedule_calls h)).
Proof. unfold put_next. intros ->. reflexivity. Qed.

Lemma put_prev_ok h p q :
  node_ok p = true ->
  put_prev h p q = Ok (Heap (hdrs h) (nexts h) (<[p := q]> (prevs h)) (current_process h)
                            (schedule_calls h)).
Proof. unfold put_prev. intros ->. reflexivity. Qed.

Lemma get_next_ok h p q : nexts h !! p = Some q -> get_next h p = Ok q.
Proof. unfold get_next. intros ->. reflexivity. Qed.

Lemma get_prev_ok h p q : prevs h !! p = Some q -> get_prev h p = Ok q.
Proof. unfold get_prev. intros ->. reflexivity. Qed.

Section lists.
Context (h : heap) (m : gmap Z (Z * bool)) (i a : Z).
Hypothesis (HL : lists_ok h m) (Hi : valid_order i) (Ha : valid_node a).

(** Rings of other orders do not contain the cells an insertion or a removal
    in the list of order [i] touches. *)
Lemma other_ring F nx pv j :
  (forall i a, a ∈ F i <-> m !! a = Some (i, true)) ->
  (forall x, x <> node a -> ~ x ∈ lst i :: (node <$> F i) ->
     nx !! x = nexts h !! x /\ pv !! x = prevs h !! x) ->
  j <> i -> m !! a <> Some (j, true) ->
  ring (nexts h) (prevs h) (lst j) (node <$> F j) -> ring nx pv (lst j) (node <$> F j).
Proof.
  intros HF Hout Hj Hna. apply ring_ext. intros x Hx. apply Hout.
  - intros ->. apply elem_of_cons in Hx as [Hx|Hx]; [discriminate|].
    apply list_elem_of_fmap in Hx as (b & ->%node_inj & Hb). apply HF in Hb. auto.
  - intros Hxi. apply elem_of_cons in Hx as [->|Hx]; apply elem_of_cons in Hxi as [Hy|Hy].
    + apply lst_inj in Hy. auto.
    + apply list_elem_of_fmap in Hy as (b & ? & _). discriminate.
    + subst x. apply list_elem_of_fmap in Hx as (b & ? & _). discriminate.
    + apply list_elem_of_fmap in Hx as (b & -> & Hb).
      apply list_elem_of_fmap in Hy as (c & ->%node_inj & Hc).
      apply HF in Hb, Hc. congruence.
Qed.

Lemma lists_add :
  m !! a = Some (i, false) ->
  exists h', fl_add h (lst i) (node a) = Ok h' /\ same_hdrs h h' /\
    lists_ok h' (<[a := (i, true)]> m).
Proof.
  intros Hm. destruct HL as (F & HF & HR & HV). pose proof (HR i Hi) as Hr.
  assert (Hna : node a ∉ lst i :: (node <$> F i)).
  { intros [?|(b & ->%node_inj & Hb)%list_elem_of_fmap]%elem_of_cons; [discriminate|].
    apply HF in Hb. congruence. }
  set (sn := hd (lst i) (node <$> F i)).
  assert (Hsn : sn ∈ lst i :: (node <$> F i)) by (subst sn; destruct (F i); set_solver).
  assert (Hsok : node_ok sn = true).
  { subst sn. destruct (F i) as [|b r] eqn:E; [apply node_ok_lst; auto|].
    apply node_ok_node, (HV i). rewrite E. set_solver. }
  eexists. split; [|split].
  - unfold fl_add. rewrite (get_next_ok _ _ sn), res_bind_ok by (apply (ring_next _ _ _ _ Hr)).
    rewrite put_next_ok, res_bind_ok by (apply node_ok_node; auto).
    rewrite put_prev_ok, res_bind_ok by (apply node_ok_node; auto).
    rewrite (get_next_ok _ _ sn), res_bind_ok
      by (simpl; rewrite lookup_insert_ne by discriminate; apply (ring_next _ _ _ _ Hr)).
    rewrite put_prev_ok, res_bind_ok by auto.
    rewrite put_next_ok by (apply node_ok_lst; auto). reflexivity.
  - split_and!; reflexivity.
  - exists (fun j => if decide (j = i) then a :: F i else F j). simpl. split_and!.
    + intros j b. destruct (decide (j = i)) as [->|].
      * rewrite elem_of_cons, HF. destruct (decide (a = b)) as [->|];
          [rewrite lookup_insert_eq; naive_solver|rewrite lookup_insert_ne by auto; naive_solver].
      * rewrite HF. destruct (decide (a = b)) as [->|];
          [rewrite lookup_insert_eq; split; intros; simplify_eq|].
        rewrite lookup_insert_ne by auto. reflexivity.
    + intros j Hj. destruct (decide (j = i)) as [->|Hne]; [apply ring_add; auto|].
      eapply (other_ring F); eauto; [|congruence].
      intros x Hx Hxr. rewrite !lookup_insert_ne; auto; intros <-; set_solver.
    + intros j b. destruct (decide (j = i)); eauto.
      intros [->|Hb]%elem_of_cons; eauto.
Qed.

Lemma lists_del :
  m !! a = Some (i, true) ->
  exists h', fl_del h (node a) = Ok h' /\ same_hdrs h h' /\
    lists_ok h' (<[a := (i, false)]> m).
Proof.
  intros Hm. destruct HL as (F & HF & HR & HV). pose proof (HR i Hi) as Hr.
  pose proof (proj2 (HF i a) Hm) as Hin. apply list_elem_of_split in Hin as (l1 & l2 & E).
  rewrite E, fmap_app in Hr. simpl in Hr.
  destruct (ring_del _ _ _ _ _ _ Hr) as (p & q & Hp & Hq & Hpn & Hqn & Hpi & Hqi & Hr').
  assert (Hok : forall x, x ∈ lst i :: (node <$> l1) ++ (node <$> l2) -> node_ok x = true).
  { intros x [->|Hx]%elem_of_cons; [apply node_ok_lst; auto|]. rewrite <- fmap_app in Hx.
    apply list_elem_of_fmap in Hx as (b & -> & Hb). apply node_ok_node, (HV i). rewrite E.
    set_solver. }
  eexists. split; [|split].
  - unfold fl_del. rewrite (get_prev_ok _ _ p), res_bind_ok by auto.
    rewrite (get_next_ok _ _ q), res_bind_ok by auto.
    rewrite put_next_ok, res_bind_ok by auto.
    rewrite (get_next_ok _ _ q), res_bind_ok by (simpl; rewrite lookup_insert_ne; auto).
    rewrite (get_prev_ok _ _ p), res_bind_ok by auto.
    rewrite put_prev_ok by auto. reflexivity.
  - split_and!; reflexivity.
  - assert (Hnd : NoDup (l1 ++ a :: l2)).
    { destruct Hr as [_ Hd%NoDup_cons]. destruct Hd as [_ Hd].
      apply (NoDup_fmap_1 node). rewrite fmap_app. exact Hd. }
    exists (fun j => if decide (j = i) then l1 ++ l2 else F j). simpl. split_and!.
    + intros j b. destruct (decide (j = i)) as [->|].
      * destruct (decide (a = b)) as [->|].
        -- rewrite lookup_insert_eq. split; [|intros; simplify_eq]. intros Hb. exfalso.
           apply NoDup_app in Hnd as (_ & H1 & [H2 _]%NoDup_cons).
           apply elem_of_app in Hb as [Hb|Hb]; [apply (H1 _ Hb); set_solver|auto].
        -- rewrite lookup_insert_ne by auto. rewrite <- HF, E. set_solver.
      * rewrite HF. destruct (decide (a = b)) as [->|];
          [rewrite lookup_insert_eq; split; intros; simplify_eq|].
        rewrite lookup_insert_ne by auto. reflexivity.
    + intros j Hj. destruct (decide (j = i)) as [->|Hne]; [rewrite fmap_app; exact Hr'|].
      eapply (other_ring F); eauto; [|congruence].
      intros x Hx Hxr. rewrite E, fmap_app in Hxr.
      rewrite !lookup_insert_ne; auto; intros <-; set_solver.
    + intros j b. destruct (decide (j = i)); eauto. intros Hb. apply (HV i). rewrite E. set_solver.
Qed.
End lists.
