(* ===== verification/HeapSpec.v ===== *)
(** The invariant of the kernel heap and the lemmas on [kmalloc], [kfree] and
    [kheap_init] of src/mm/heap.c: the elementary steps of the operations, the
    loops made of them, and two facts about the layout (an aligned free interval
    lies in one free block; the live blocks determine the layout). *)

From S2P Require Import Prelude Ring Heap HeapInv.

(** ** The invariant *)

Definition no_free_pair (m : gmap Z (Z * bool)) : Prop :=
  forall a o, m !! a = Some (o, true) -> o < BUDDY_MAX_ORDER ->
  m !! (Z.lxor a (2 ^ o)) <> Some (o, true).

Definition hdrs_ok (fl : option Z) (h : heap) (m : gmap Z (Z * bool)) : Prop :=
  forall a o f, m !! a = Some (o, f) ->
  exists x, hdrs h !! (KHEAP_START + a) = Some x /\ magic x = BUDDY_MAGIC /\ order x = o /\
    is_free x = Z.b2z (f || bool_decide (fl = Some a)).

(** [m] gives every block its order and whether it is on a free list; [fl] is
    the block an operation in progress has taken off the lists, whose header
    still says free. *)
Record heap_inv (fl : option Z) (h : heap) (m : gmap Z (Z * bool)) : Prop := HeapInv {
  hi_tiling : tiling m;
  hi_hdrs : hdrs_ok fl h m;
  hi_lists : lists_ok h m;
  hi_pairs : no_free_pair m;
  hi_fl : forall a, fl = Some a -> exists o, m !! a = Some (o, false)
}.

(** The blocks handed out: offset and order. *)
Definition owned (m : gmap Z (Z * bool)) : gmap Z Z :=
  omap (fun x : Z * bool => if x.2 then None else Some x.1) m.

Lemma owned_lookup m a o : owned m !! a = Some o <-> m !! a = Some (o, false).
Proof.
  unfold owned. rewrite lookup_omap_Some. split.
  - intros ([o' []] & H & Hm); simpl in *; naive_solver.
  - intros H. exists (o, false). auto.
Qed.

Section block.
Context (fl : option Z) (h : heap) (m : gmap Z (Z * bool)) (HI : heap_inv fl h m).
Context (a o : Z) (f : bool) (Hm : m !! a = Some (o, f)).

Lemma block_order : valid_order o.
Proof. destruct (t_block m (hi_tiling _ _ _ HI) _ _ _ Hm) as (H & _). exact H. Qed.

Lemma block_node : valid_node a.
Proof.
  destruct (t_block m (hi_tiling _ _ _ HI) _ _ _ Hm) as (_ & ? & ? & _).
  pose proof (block_small m _ _ _ (hi_tiling _ _ _ HI) Hm). unfold valid_node. lia.
Qed.

Lemma block_hdr_addr : hdr_addr_ok (KHEAP_START + a) = true.
Proof.
  destruct block_node. unfold hdr_addr_ok. rewrite andb_true_iff, !Z.leb_le. heap_consts. lia.
Qed.

Lemma block_u32 : forall x, 0 <= x < 2 ^ o -> u32 (KHEAP_START + a + x) = KHEAP_START + a + x.
Proof.
  destruct (t_block m (hi_tiling _ _ _ HI) _ _ _ Hm) as (_ & ? & ? & _).
  intros. apply u32_small. unfold is_u32. heap_consts. lia.
Qed.
End block.

Definition with_hdrs (h : heap) (H : gmap Z block_hdr) : heap :=
  Heap H (nexts h) (prevs h) (current_process h) (schedule_calls h).

Lemma put_hdr_ok h b x : hdr_addr_ok b = true -> put_hdr h b x = Ok (with_hdrs h (<[b := x]> (hdrs h))).
Proof. unfold put_hdr. intros ->. reflexivity. Qed.

(** [same_hdrs] carries header facts across list operations. *)
Lemma hdrs_ok_same fl h h' m : same_hdrs h h' -> hdrs_ok fl h m -> hdrs_ok fl h' m.
Proof. unfold hdrs_ok. intros (-> & _ & _). auto. Qed.

(** Rewriting one header. *)
Lemma hdrs_ok_put fl h m a o f x :
  magic x = BUDDY_MAGIC -> order x = o -> is_free x = Z.b2z (f || bool_decide (fl = Some a)) ->
  (forall b ob fb, b <> a -> m !! b = Some (ob, fb) ->
     exists y, hdrs h !! (KHEAP_START + b) = Some y /\ magic y = BUDDY_MAGIC /\ order y = ob /\
       is_free y = Z.b2z (fb || bool_decide (fl = Some b))) ->
  hdrs_ok fl (with_hdrs h (<[KHEAP_START + a := x]> (hdrs h))) (<[a := (o, f)]> m).
Proof.
  intros H1 H2 H3 Hoth b ob fb Hb. simpl. destruct (decide (a = b)) as [<-|Hne].
  - rewrite lookup_insert_eq in Hb. rewrite lookup_insert_eq. simplify_eq. eauto.
  - rewrite lookup_insert_ne in Hb by auto. rewrite lookup_insert_ne by lia. eauto.
Qed.

(** ** Elementary steps *)

(** Taking the first block off a list. *)
Lemma step_pop h m i :
  heap_inv None h m -> valid_order i -> (exists a, m !! a = Some (i, true)) ->
  exists a h', fl_pop h (lst i) = Ok (node a, h') /\ m !! a = Some (i, true) /\
    heap_inv (Some a) h' (<[a := (i, false)]> m) /\ same_hdrs h h'.
Proof.
  intros HI Hi [a0 Ha0]. destruct (hi_lists _ _ _ HI) as (F & HF & HR & HV).
  destruct (F i) as [|a r] eqn:EF; [apply HF in Ha0; rewrite EF in Ha0; set_solver|].
  assert (Ha : m !! a = Some (i, true)) by (apply HF; rewrite EF; set_solver).
  destruct (lists_del h m i a (hi_lists _ _ _ HI) Hi (block_node _ _ _ HI _ _ _ Ha) Ha)
    as (h' & Hdel & Hsame & HL').
  exists a, h'. split_and!; auto.
  - unfold fl_pop. rewrite (get_next_ok _ _ (node a)), res_bind_ok, Hdel; [reflexivity|].
    rewrite (ring_next _ _ _ _ (HR i Hi)), EF. reflexivity.
  - split; auto.
    + eapply tiling_status; eauto using hi_tiling.
    + eapply hdrs_ok_same; [exact Hsame|]. intros b ob fb Hb.
      destruct (decide (a = b)) as [<-|Hne].
      * rewrite lookup_insert_eq in Hb. simplify_eq.
        destruct (hi_hdrs _ _ _ HI _ _ _ Ha) as (x & ? & ? & ? & Hx). exists x.
        rewrite bool_decide_eq_true_2 by auto. split_and!; auto.
      * rewrite lookup_insert_ne in Hb by auto.
        destruct (hi_hdrs _ _ _ HI _ _ _ Hb) as (x & ? & ? & ? & Hx). exists x.
        rewrite bool_decide_eq_false_2 by congruence.
        rewrite bool_decide_eq_false_2 in Hx by congruence. auto.
    + intros b ob Hb Hob Hc.
      destruct (decide (a = b)) as [<-|]; [rewrite lookup_insert_eq in Hb; simplify_eq|].
      destruct (decide (a = Z.lxor b (2 ^ ob))) as [E'|];
        [rewrite E', lookup_insert_eq in Hc; simplify_eq|].
      rewrite lookup_insert_ne in Hb, Hc by auto. exact (hi_pairs _ _ _ HI _ _ Hb Hob Hc).
    + intros ? [= <-]. exists i. apply lookup_insert_eq.
Qed.

(** Splitting the block in progress and listing its upper half. *)
Lemma lxor_split a k : 0 <= k -> (2 ^ (k + 1) | a) -> Z.lxor a (2 ^ k) = a + 2 ^ k.
Proof.
  intros Hk [q Hq]. rewrite lxor_buddy by auto. replace (Z.testbit a k) with false; auto.
  symmetry. rewrite Z.testbit_odd, Z.shiftr_div_pow2, Hq, pow2_double by lia.
  pose proof (pow2_pos k Hk). replace (q * (2 * 2 ^ k)) with (2 * q * 2 ^ k) by ring.
  rewrite Z.div_mul, Z.odd_mul by lia. reflexivity.
Qed.

Lemma lxor_involutive a b : Z.lxor (Z.lxor a b) b = a.
Proof. rewrite Z.lxor_assoc, Z.lxor_nilpotent, Z.lxor_0_r. reflexivity. Qed.

Lemma no_free_pair_split m a k f :
  tiling m -> BUDDY_MIN_ORDER <= k -> m !! a = Some (k + 1, f) -> no_free_pair m ->
  no_free_pair (split_block m a k).
Proof.
  intros T Hk Hm HP. assert (Hk0 : 0 <= k) by (heap_consts; lia). pose proof (pow2_pos k Hk0) as Hp.
  destruct (t_block m T _ _ _ Hm) as (_ & _ & _ & Hd).
  pose proof (lxor_split a k Hk0 Hd) as Hx.
  assert (Hx' : Z.lxor (a + 2 ^ k) (2 ^ k) = a) by (rewrite <- Hx; apply lxor_involutive).
  assert (Hlk : forall b ob, split_block m a k !! b = Some (ob, true) ->
     (b = a + 2 ^ k /\ ob = k) \/ (b <> a /\ b <> a + 2 ^ k /\ m !! b = Some (ob, true))).
  { intros b ob Hb. unfold split_block in Hb.
    destruct (decide (a + 2 ^ k = b)) as [<-|]; [simplify_map_eq; auto|].
    destruct (decide (a = b)) as [<-|]; simplify_map_eq; auto. }
  intros b ob [[-> ->]|(Hb1 & Hb2 & Hb)]%Hlk Hob [[Hc1 Hc2]|(Hc1 & Hc2 & Hc)]%Hlk.
  - rewrite Hx' in Hc1. lia.
  - rewrite Hx' in Hc1. lia.
  - apply Hb1. rewrite <- Hx', <- Hc1, <- Hc2, lxor_involutive. reflexivity.
  - exact (HP _ _ Hb Hob Hc).
Qed.

Lemma step_split h m a k :
  heap_inv (Some a) h m -> BUDDY_MIN_ORDER <= k -> m !! a = Some (k + 1, false) ->
  exists h', (h ← put_hdr h (u32 (KHEAP_START + a + Z.shiftl 1 k)) (BlockHdr BUDDY_MAGIC (u8 k) 1 0);
              h ← fl_add h (FL (k - BUDDY_MIN_ORDER)) (blk_to_fn (u32 (KHEAP_START + a + Z.shiftl 1 k)));
              set_order h (KHEAP_START + a) k) = Ok h' /\
    heap_inv (Some a) h' (split_block m a k).
Proof.
  intros HI Hk Hm. assert (Hk0 : 0 <= k) by (heap_consts; lia). pose proof (pow2_pos k Hk0) as Hp.
  pose proof (hi_tiling _ _ _ HI) as T.
  pose proof (block_order _ _ _ HI _ _ _ Hm) as Ho. unfold valid_order in Ho.
  rewrite Z.shiftl_1_l, (block_u32 _ _ _ HI _ _ _ Hm) by (rewrite pow2_double by auto; lia).
  assert (Hu8 : u8 k = k) by (apply u8_small; unfold is_u8; heap_consts; lia). rewrite Hu8.
  set (c := a + 2 ^ k).
  assert (T' : tiling (split_block m a k)) by (eapply tiling_split; eauto).
  assert (Hc : split_block m a k !! c = Some (k, true)) by apply lookup_insert_eq.
  assert (Hca : a <> c) by lia. assert (Hfresh : m !! c = None) by (eapply split_fresh; eauto).
  assert (Hcb : 0 <= c /\ c + 32 <= BUDDY_HEAP_SIZE).
  { destruct (t_block _ T' _ _ _ Hc) as (_ & ? & ? & _).
    pose proof (block_small _ _ _ _ T' Hc). lia. }
  replace (KHEAP_START + a + 2 ^ k) with (KHEAP_START + c) by lia.
  rewrite put_hdr_ok, res_bind_ok
    by (unfold hdr_addr_ok; rewrite andb_true_iff, !Z.leb_le; heap_consts; lia).
  set (h1 := with_hdrs h _).
  assert (HL1 : lists_ok h1 (<[c := (k, false)]> (<[a := (k, false)]> m))).
  { eapply lists_ok_links; [| |eapply lists_ok_ext; [|exact (hi_lists _ _ _ HI)]]; auto.
    intros b i. destruct (decide (c = b)) as [<-|]; [rewrite lookup_insert_eq, Hfresh; naive_solver|].
    rewrite lookup_insert_ne by auto.
    destruct (decide (a = b)) as [<-|]; [rewrite lookup_insert_eq, Hm; naive_solver|].
    rewrite lookup_insert_ne by auto. reflexivity. }
  destruct (lists_add h1 _ k c HL1) as (h2 & Hadd & (Eh & Ep & Es) & HL2);
    [unfold valid_order; lia|unfold valid_node; lia|apply lookup_insert_eq|].
  rewrite insert_insert_eq in HL2. change (<[c := (k, true)]> _) with (split_block m a k) in HL2.
  change (FL (k - BUDDY_MIN_ORDER)) with (lst k). change (blk_to_fn (KHEAP_START + c)) with (node c).
  rewrite Hadd, res_bind_ok. destruct (hi_hdrs _ _ _ HI _ _ _ Hm) as (x & Hx & Hmag & Hord & Hfr).
  unfold set_order, get_hdr. rewrite Eh. simpl (hdrs h1). rewrite lookup_insert_ne by lia.
  rewrite Hx. simpl of_option. rewrite res_bind_ok, put_hdr_ok by (eapply block_hdr_addr; eauto).
  eexists. split; [reflexivity|]. split; auto.
  - rewrite Eh, Hu8. unfold split_block. rewrite insert_insert_ne by auto.
    intros b ob fb Hb. simpl in *.
    destruct (decide (a = b)) as [<-|Hab];
      [|destruct (decide (c = b)) as [<-|Hcb'];
        [|rewrite !lookup_insert_ne in Hb by auto; rewrite !lookup_insert_ne by lia;
          exact (hi_hdrs _ _ _ HI _ _ _ Hb)]].
    + rewrite lookup_insert_eq in Hb. rewrite lookup_insert_eq. simplify_eq. eexists; eauto.
    + rewrite lookup_insert_ne, lookup_insert_eq in Hb by auto.
      rewrite lookup_insert_ne, lookup_insert_eq by lia. simplify_eq. eexists; eauto.
  - eapply no_free_pair_split; eauto. apply (hi_pairs _ _ _ HI).
  - intros ? [= <-]. exists k. unfold split_block. rewrite lookup_insert_ne by auto.
    apply lookup_insert_eq.
Qed.

Lemma owned_insert_free m a o : owned (<[a := (o, true)]> m) = delete a (owned m).
Proof. unfold owned. apply omap_insert_None. reflexivity. Qed.

Lemma owned_insert_owned m a o : owned (<[a := (o, false)]> m) = <[a := o]> (owned m).
Proof. unfold owned. apply omap_insert_Some. reflexivity. Qed.

Lemma owned_delete m a : owned (delete a m) = delete a (owned m).
Proof. unfold owned. apply omap_delete. Qed.

Lemma owned_none m a : m !! a = None -> owned m !! a = None.
Proof. unfold owned. rewrite lookup_omap. intros ->. reflexivity. Qed.

Lemma owned_free m a o : m !! a = Some (o, true) -> owned m !! a = None.
Proof. unfold owned. rewrite lookup_omap. intros ->. reflexivity. Qed.

Lemma owned_split m a k f :
  tiling m -> 0 <= k -> m !! a = Some (k + 1, f) ->
  owned (split_block m a k) = <[a := k]> (owned m).
Proof.
  intros T Hk Hm. pose proof (pow2_pos k Hk). unfold split_block.
  rewrite owned_insert_free, owned_insert_owned, delete_insert_ne by lia.
  rewrite delete_id; auto. apply owned_none. eapply split_fresh; eauto.
Qed.

Lemma res_bind3 {A} (x : res A) (f g : A -> res A) (k : A -> res A) y :
  (a ← x; b ← f a; g b) = Ok y -> (a ← x; b ← f a; c ← g b; k c) = k y.
Proof.
  intros (a & -> & (b & Hb & Hg)%res_bind_ok_inv)%res_bind_ok_inv.
  rewrite res_bind_ok, Hb, res_bind_ok, Hg. reflexivity.
Qed.

Lemma split_loop_ok fuel : forall h m a k ord,
  heap_inv (Some a) h m -> m !! a = Some (k, false) -> BUDDY_MIN_ORDER <= ord <= k ->
  k - ord < Z.of_nat fuel ->
  exists h' m', split_loop fuel h (KHEAP_START + a) k ord = Ok h' /\ heap_inv (Some a) h' m' /\
    m' !! a = Some (ord, false) /\ owned m' = <[a := ord]> (owned m).
Proof.
  induction fuel as [|fuel IH]; intros h m a k ord HI Hm Hk Hf; [lia|].
  cbn [split_loop]. destruct (Z.ltb_spec ord k) as [Hlt|Hge].
  - replace k with (k - 1 + 1) in Hm by lia.
    destruct (step_split h m a (k - 1) HI ltac:(lia) Hm) as (h1 & Hrun & HI1).
    rewrite (res_bind3 _ _ _ _ _ Hrun).
    destruct (IH h1 _ a (k - 1) ord HI1) as (h' & m' & Hr & HI' & Hm' & Ho); [|lia|lia|].
    + destruct (hi_fl _ _ _ HI1 a eq_refl) as [o Hao]. rewrite Hao. unfold split_block in Hao.
      pose proof (pow2_pos (k - 1) ltac:(heap_consts; lia)).
      rewrite lookup_insert_ne, lookup_insert_eq in Hao by lia. congruence.
    + exists h', m'. split_and!; auto. rewrite Ho.
      rewrite (owned_split m a (k - 1) false (hi_tiling _ _ _ HI) ltac:(heap_consts; lia) Hm).
      apply insert_insert_eq.
  - exists h, m. replace ord with k by lia. split_and!; auto.
    symmetry. apply insert_id. apply owned_lookup. auto.
Qed.

(** Setting and clearing the flag of the block in progress. *)
Lemma step_flag fl fl' h m a o v :
  heap_inv fl h m -> m !! a = Some (o, false) ->
  (fl = None \/ fl = Some a) -> (fl' = None \/ fl' = Some a) ->
  v = Z.b2z (bool_decide (fl' = Some a)) ->
  exists h', set_free h (KHEAP_START + a) v = Ok h' /\ heap_inv fl' h' m.
Proof.
  intros HI Hm Hfl Hfl' ->. destruct (hi_hdrs _ _ _ HI _ _ _ Hm) as (x & Hx & Hmag & Hord & Hfr).
  unfold set_free, get_hdr. rewrite Hx. simpl of_option.
  rewrite res_bind_ok, put_hdr_ok by (eapply block_hdr_addr; eauto).
  eexists. split; [reflexivity|]. split; try apply HI.
  - rewrite <- (insert_id m a (o, false)) by auto. apply hdrs_ok_put; simpl; auto.
    intros b ob fb Hne Hb. destruct (hi_hdrs _ _ _ HI _ _ _ Hb) as (y & ? & ? & ? & Hy).
    exists y. rewrite bool_decide_eq_false_2 by (destruct Hfl' as [->| ->]; congruence).
    rewrite bool_decide_eq_false_2 in Hy by (destruct Hfl as [->| ->]; congruence). auto.
  - intros b ->. destruct Hfl' as [|[= <-]]; [discriminate|eauto].
Qed.

(** Absorbing the free buddy of the block in progress. *)
Lemma no_free_pair_sub m m' :
  (forall b o, m' !! b = Some (o, true) -> m !! b = Some (o, true)) ->
  no_free_pair m -> no_free_pair m'.
Proof. intros Hs HP b o Hb Ho Hc. exact (HP _ _ (Hs _ _ Hb) Ho (Hs _ _ Hc)). Qed.

Section merge.
Context (h : heap) (m : gmap Z (Z * bool)) (a o : Z).
Hypothesis (HI : heap_inv (Some a) h m) (Hm : m !! a = Some (o, false)).
Hypothesis (Ho : o < BUDDY_MAX_ORDER).
Let c := Z.lxor a (2 ^ o).
Let p := Z.min a c.
Hypothesis (Hc : m !! c = Some (o, true)).

Lemma merge_geometry :
  0 <= o /\ 0 < 2 ^ o /\ a <> c /\ (2 ^ (o + 1) | p) /\ p + 2 ^ o = Z.max a c /\
  (p = a /\ p + 2 ^ o = c \/ p = c /\ p + 2 ^ o = a).
Proof.
  pose proof (block_order _ _ _ HI _ _ _ Hm) as Hor. unfold valid_order in Hor.
  assert (Ho0 : 0 <= o) by (heap_consts; lia).
  destruct (t_block _ (hi_tiling _ _ _ HI) _ _ _ Hm) as (_ & _ & _ & Hd).
  destruct (buddy_pair a o Ho0 Hd) as (Hdp & Hmax & _). fold c in Hdp, Hmax. fold p in Hdp, Hmax.
  pose proof (pow2_pos o Ho0). split_and!; auto; subst p; lia.
Qed.

Lemma merge_lookup b :
  merge_block m p o !! b =
  if decide (b = p) then Some (o + 1, false) else if decide (b = a \/ b = c) then None else m !! b.
Proof.
  destruct merge_geometry as (_ & Hp & Hac & _ & Hmx & Hcase). unfold merge_block.
  destruct (decide (b = p)) as [->|]; [apply lookup_insert_eq|].
  rewrite lookup_insert_ne by auto. destruct (decide (b = a \/ b = c)) as [Hb|Hb].
  - replace b with (p + 2 ^ o) by lia. apply lookup_delete_eq.
  - apply lookup_delete_ne. lia.
Qed.

Lemma merge_owned : delete p (owned (merge_block m p o)) = delete a (owned m).
Proof.
  destruct merge_geometry as (_ & _ & Hac & _ & _ & Hcase). unfold merge_block.
  rewrite owned_insert_owned, owned_delete, delete_insert_eq.
  assert (Hc' : delete c (owned m) = owned m) by (apply delete_id; eapply owned_free; eauto).
  destruct Hcase as [[E1 E2]|[E1 E2]]; rewrite E2, ?E1; [rewrite Hc'|]; auto.
  rewrite delete_delete, Hc'. auto.
Qed.

Lemma step_merge :
  exists h', (h ← fl_del h (node c); set_order h (KHEAP_START + p) (o + 1)) = Ok h' /\
    heap_inv (Some p) h' (merge_block m p o).
Proof.
  destruct merge_geometry as (Ho0 & Hp & Hac & Hd & Hmx & Hcase).
  pose proof (hi_tiling _ _ _ HI) as T. pose proof (block_order _ _ _ HI _ _ _ Hc) as Hor.
  destruct (lists_del h m o c (hi_lists _ _ _ HI) Hor (block_node _ _ _ HI _ _ _ Hc) Hc)
    as (h1 & Hdel & (Eh & Ep & Es) & HL1).
  rewrite Hdel, res_bind_ok.
  assert (Hpm : exists f, m !! p = Some (o, f)) by (destruct Hcase as [[-> _]|[-> _]]; eauto).
  destruct Hpm as [fp Hpm]. destruct (hi_hdrs _ _ _ HI _ _ _ Hpm) as (x & Hx & Hmag & Hord & Hfr).
  assert (Hfr1 : is_free x = 1).
  { rewrite Hfr. destruct Hcase as [[E _]|[E _]]; rewrite E in *.
    - rewrite bool_decide_eq_true_2 by auto. rewrite orb_true_r. auto.
    - rewrite Hc in Hpm. simplify_eq. reflexivity. }
  unfold set_order, get_hdr. rewrite Eh, Hx. simpl of_option.
  rewrite res_bind_ok, put_hdr_ok by (eapply block_hdr_addr; eauto).
  eexists. split; [reflexivity|]. split.
  - apply tiling_merge with (f1 := fp) (f2 := xorb fp true); auto.
    destruct Hcase as [[E1 E2]|[E1 E2]]; rewrite E2, E1 in *; simplify_eq; auto.
  - unfold merge_block. apply hdrs_ok_put; simpl; auto.
    + apply u8_small. unfold is_u8, valid_order in *. heap_consts. lia.
    + rewrite bool_decide_eq_true_2 by auto. auto.
    + intros b ob fb Hne Hb. destruct (decide (p + 2 ^ o = b)) as [<-|Hne2];
        [rewrite lookup_delete_eq in Hb; discriminate|].
      rewrite lookup_delete_ne in Hb by auto. rewrite Eh.
      destruct (hi_hdrs _ _ _ HI _ _ _ Hb) as (y & ? & ? & ? & Hy). exists y.
      rewrite bool_decide_eq_false_2 by congruence.
      rewrite bool_decide_eq_false_2 in Hy by (intros [= ->]; lia). auto.
  - eapply lists_ok_links; [| |eapply lists_ok_ext; [|exact HL1]]; auto.
    intros b i. rewrite merge_lookup. destruct (decide (b = p)) as [->|].
    + destruct Hcase as [[E _]|[E _]]; rewrite E, ?lookup_insert_eq, ?lookup_insert_ne, ?Hm;
        naive_solver.
    + destruct (decide (b = a \/ b = c)) as [[->| ->]|];
        rewrite ?lookup_insert_eq, ?lookup_insert_ne, ?Hm; naive_solver.
  - eapply no_free_pair_sub; [|exact (hi_pairs _ _ _ HI)]. intros b i. rewrite merge_lookup.
    repeat case_decide; naive_solver.
  - intros b [= <-]. exists (o + 1). unfold merge_block. apply lookup_insert_eq.
Qed.
End merge.

Lemma buddy_of_ok m a o f :
  tiling m -> m !! a = Some (o, f) -> o < BUDDY_MAX_ORDER ->
  buddy_of (KHEAP_START + a) o = Some (KHEAP_START + Z.lxor a (2 ^ o)).
Proof.
  intros T Hm Ho. destruct (buddy_exists m T a o f Hm Ho) as (oc & fc & Hc & _).
  destruct (t_block m T _ _ _ Hm) as (_ & ? & ? & _).
  destruct (t_block m T _ _ _ Hc) as (_ & ? & ? & _).
  pose proof (block_small m _ _ _ T Hm). pose proof (block_small m _ _ _ T Hc).
  unfold buddy_of. rewrite Z.shiftl_1_l.
  replace (KHEAP_START + a - KHEAP_START) with a by lia.
  rewrite u32_small by (unfold is_u32; heap_consts; lia).
  destruct (Z.leb_spec BUDDY_HEAP_SIZE (Z.lxor a (2 ^ o))); [lia|reflexivity].
Qed.

Lemma step_insert h m a o :
  heap_inv (Some a) h m -> m !! a = Some (o, false) ->
  (o < BUDDY_MAX_ORDER -> m !! (Z.lxor a (2 ^ o)) <> Some (o, true)) ->
  exists h', fl_add h (lst o) (node a) = Ok h' /\ heap_inv None h' (<[a := (o, true)]> m).
Proof.
  intros HI Hm Hb. destruct (lists_add h m o a (hi_lists _ _ _ HI) (block_order _ _ _ HI _ _ _ Hm)
    (block_node _ _ _ HI _ _ _ Hm) Hm) as (h' & Hadd & Hsame & HL').
  exists h'. split; auto. split; auto.
  - eapply tiling_status; eauto using hi_tiling.
  - eapply hdrs_ok_same; [exact Hsame|]. intros b ob fb Hbm.
    destruct (decide (a = b)) as [<-|Hne].
    + rewrite lookup_insert_eq in Hbm. simplify_eq.
      destruct (hi_hdrs _ _ _ HI _ _ _ Hm) as (x & ? & ? & ? & Hx). exists x.
      rewrite bool_decide_eq_true_2 in Hx by auto. auto.
    + rewrite lookup_insert_ne in Hbm by auto.
      destruct (hi_hdrs _ _ _ HI _ _ _ Hbm) as (x & ? & ? & ? & Hx). exists x.
      rewrite bool_decide_eq_false_2 by congruence.
      rewrite bool_decide_eq_false_2 in Hx by congruence. auto.
  - intros b ob Hbm Hob Hc. destruct (decide (a = b)) as [<-|Hne].
    + rewrite lookup_insert_eq in Hbm. simplify_eq. apply (Hb Hob).
      destruct (decide (a = Z.lxor a (2 ^ ob))) as [E|];
        [|rewrite lookup_insert_ne in Hc by auto; exact Hc].
      exfalso. rewrite lxor_buddy in E by (eapply block_small; eauto using hi_tiling).
      pose proof (block_small m _ _ _ (hi_tiling _ _ _ HI) Hm). destruct (Z.testbit a ob); lia.
    + rewrite lookup_insert_ne in Hbm by auto. destruct (decide (a = Z.lxor b (2 ^ ob))) as [E|].
      * rewrite E, lookup_insert_eq in Hc. simplify_eq. apply (Hb Hob).
        rewrite lxor_involutive. exact Hbm.
      * rewrite lookup_insert_ne in Hc by auto. exact (hi_pairs _ _ _ HI _ _ Hbm Hob Hc).
  - discriminate.
Qed.

Lemma res_bind2 {A B} (x : res A) (f : A -> res A) (k : A -> res B) y :
  (a ← x; f a) = Ok y -> (a ← x; c ← f a; k c) = k y.
Proof. intros (a & -> & Hf)%res_bind_ok_inv. rewrite res_bind_ok, Hf. reflexivity. Qed.

Lemma merge_loop_ok fuel : forall h m a o,
  heap_inv (Some a) h m -> m !! a = Some (o, false) ->
  BUDDY_MAX_ORDER - o < Z.of_nat fuel ->
  exists a' o' h' m', merge_loop fuel h (KHEAP_START + a) o = Ok (KHEAP_START + a', o', h') /\
    heap_inv (Some a') h' m' /\ m' !! a' = Some (o', false) /\
    delete a' (owned m') = delete a (owned m) /\
    (o' < BUDDY_MAX_ORDER -> m' !! (Z.lxor a' (2 ^ o')) <> Some (o', true)).
Proof.
  induction fuel as [|fuel IH]; intros h m a o HI Hm Hf.
  { pose proof (block_order _ _ _ HI _ _ _ Hm). unfold valid_order in *. lia. }
  cbn [merge_loop]. pose proof (hi_tiling _ _ _ HI) as T.
  destruct (Z.ltb_spec o BUDDY_MAX_ORDER) as [Ho|Ho];
    [|exists a, o, h, m; split_and!; auto; lia].
  rewrite (buddy_of_ok m a o false T Hm Ho). set (c := Z.lxor a (2 ^ o)).
  destruct (buddy_exists m T a o false Hm Ho) as (oc & fc & Hc & Hoc). fold c in Hc.
  assert (Hac : a <> c).
  { subst c. rewrite lxor_buddy by (eapply block_small; eauto).
    pose proof (block_small m _ _ _ T Hm). destruct (Z.testbit a o); lia. }
  destruct (hi_hdrs _ _ _ HI _ _ _ Hc) as (x & Hx & Hmag & Hord & Hfr).
  rewrite bool_decide_eq_false_2, orb_false_r in Hfr by congruence.
  unfold get_hdr. rewrite Hx. simpl of_option. rewrite res_bind_ok, Hmag, Hfr, Hord, Z.eqb_refl.
  pose proof (block_order _ _ _ HI _ _ _ Hm) as Hor. unfold valid_order in Hor.
  rewrite (u8_small o) by (unfold is_u8; heap_consts; lia). simpl negb. rewrite orb_false_l.
  destruct fc; simpl; [|exists a, o, h, m; split_and!; auto; intros _; fold c; congruence].
  destruct (Z.eqb_spec oc o) as [->|Hne]; simpl;
    [|exists a, o, h, m; split_and!; auto; intros _; fold c; congruence].
  destruct (step_merge h m a o HI Hm Ho Hc) as (h1 & Hrun & HI1).
  fold c in Hrun, HI1. change (blk_to_fn (KHEAP_START + c)) with (node c).
  replace (if KHEAP_START + c <? KHEAP_START + a then KHEAP_START + c else KHEAP_START + a)
    with (KHEAP_START + Z.min a c)
    by (destruct (Z.ltb_spec (KHEAP_START + c) (KHEAP_START + a)); lia).
  rewrite (res_bind2 _ _ (fun h => merge_loop fuel h (KHEAP_START + Z.min a c) (o + 1)) _ Hrun).
  destruct (IH h1 _ (Z.min a c) (o + 1) HI1) as (a' & o' & h' & m' & Hr & HI' & Hm' & Ho' & Hb');
    [apply lookup_insert_eq|lia|].
  exists a', o', h', m'. split_and!; auto. rewrite Ho'. apply (merge_owned h); auto.
Qed.

(** [kfree] of a live block releases exactly that block. *)
Lemma kfree_ok h m a o :
  heap_inv None h m -> m !! a = Some (o, false) ->
  exists h' m', kfree h (KHEAP_START + a + HDR_SIZE) = Ok h' /\ heap_inv None h' m' /\
    owned m' = delete a (owned m).
Proof.
  intros HI Hm. unfold kfree. pose proof (block_node _ _ _ HI _ _ _ Hm) as [Ha0 Ha1].
  destruct (Z.eqb_spec (KHEAP_START + a + HDR_SIZE) 0); [heap_consts; lia|].
  replace (KHEAP_START + a + HDR_SIZE - HDR_SIZE) with (KHEAP_START + a) by lia.
  rewrite u32_small by (unfold is_u32; heap_consts; lia).
  destruct (hi_hdrs _ _ _ HI _ _ _ Hm) as (x & Hx & Hmag & Hord & Hfr).
  rewrite bool_decide_eq_false_2 in Hfr by discriminate.
  unfold get_hdr. rewrite Hx. simpl of_option. rewrite res_bind_ok, Hmag, Hfr, Hord, Z.eqb_refl.
  change (Z.b2z (false || false) =? 0) with true. cbn [negb].
  destruct (step_flag None (Some a) h m a o 1 HI Hm) as (h1 & Hset & HI1); auto;
    [rewrite bool_decide_eq_true_2; auto|].
  rewrite Hset, res_bind_ok. pose proof (block_order _ _ _ HI _ _ _ Hm) as Hor.
  destruct (merge_loop_ok 19 h1 m a o HI1 Hm) as (a' & o' & h2 & m2 & Hrun & HI2 & Hm2 & Hown & Hb);
    [unfold valid_order in Hor; heap_consts; lia|].
  rewrite Hrun, res_bind_ok. destruct (step_insert h2 m2 a' o' HI2 Hm2 Hb) as (h3 & Hadd & HI3).
  exists h3, (<[a' := (o', true)]> m2). split_and!; auto. rewrite owned_insert_free. auto.
Qed.

(** ** Allocation *)

Lemma find_order_ok fuel : forall h m k,
  lists_ok h m -> BUDDY_MIN_ORDER <= k <= BUDDY_MAX_ORDER + 1 ->
  BUDDY_MAX_ORDER + 1 - k <= Z.of_nat fuel ->
  exists k', find_order fuel h k = Ok k' /\ k <= k' <= BUDDY_MAX_ORDER + 1 /\
    (k' <= BUDDY_MAX_ORDER -> exists a, m !! a = Some (k', true)) /\
    (forall j a, k <= j < k' -> m !! a <> Some (j, true)).
Proof.
  induction fuel as [|fuel IH]; intros h m k HL Hk Hf; cbn [find_order].
  { exists k. split_and!; auto; lia. }
  destruct (Z.leb_spec k BUDDY_MAX_ORDER) as [Hle|]; [|exists k; split_and!; auto; lia].
  destruct (lists_empty h m k HL) as (e & He & Hspec); [unfold valid_order; lia|].
  unfold lst in He. rewrite He, res_bind_ok. destruct e.
  - destruct (IH h m (k + 1) HL) as (k' & Hr & Hk' & Hex & Hno); [lia|lia|].
    exists k'. split_and!; auto; try lia. intros j a Hj.
    destruct (Z.eq_dec j k) as [->|]; [auto|apply Hno; lia].
  - exists k. split_and!; auto; lia.
Qed.

Lemma order_loop_spec n : forall total k,
  k + Z.of_nat n = BUDDY_MAX_ORDER ->
  let r := order_loop n total k in
  k <= r <= BUDDY_MAX_ORDER /\ (r < BUDDY_MAX_ORDER -> total <= 2 ^ r) /\
  (r = k \/ 2 ^ (r - 1) < total).
Proof.
  induction n as [|n IH]; intros total k Hk; cbn [order_loop]; [split_and!; auto; lia|].
  rewrite Z.shiftl_1_l. destruct (Z.ltb_spec (2 ^ k) total); cbn [andb];
    [|split_and!; auto; lia].
  destruct (Z.ltb_spec k BUDDY_MAX_ORDER); [|split_and!; auto; lia].
  destruct (IH total (k + 1)) as (H1 & H2 & H3); [lia|]. split_and!; auto; [lia|lia|].
  destruct H3 as [->|]; [|auto]. right. replace (k + 1 - 1) with k by lia. auto.
Qed.

(** The order of a request that fits the heap is the least one that holds the
    request and its header. *)
Lemma size_to_order_spec size :
  0 < size <= BUDDY_HEAP_SIZE - HDR_SIZE ->
  let o := size_to_order size in
  valid_order o /\ size + HDR_SIZE <= 2 ^ o /\
  (forall k, BUDDY_MIN_ORDER <= k < o -> 2 ^ k < size + HDR_SIZE).
Proof.
  intros Hs o. subst o. unfold size_to_order.
  rewrite u32_small by (unfold is_u32; heap_consts; lia).
  destruct (order_loop_spec 18 (size + HDR_SIZE) BUDDY_MIN_ORDER eq_refl) as (H1 & H2 & H3).
  set (r := order_loop _ _ _) in *. split_and!; auto; try (unfold valid_order; lia).
  - destruct (Z.eq_dec r BUDDY_MAX_ORDER) as [->|]; [rewrite <- heap_size_pow; lia|apply H2; lia].
  - intros k Hk. destruct H3 as [?|H3]; [lia|].
    apply Z.le_lt_trans with (2 ^ (r - 1)); auto. apply Z.pow_le_mono_r; lia.
Qed.

Lemma size_to_order_valid size : valid_order (size_to_order size).
Proof.
  destruct (order_loop_spec 18 (u32 (size + HDR_SIZE)) BUDDY_MIN_ORDER eq_refl) as (H1 & _).
  exact H1.
Qed.

Lemma kmalloc_ok h m size :
  heap_inv None h m -> size <> 0 ->
  (kmalloc h size = Ok (0, h) /\
   forall a o, m !! a = Some (o, true) -> o < size_to_order size) \/
  (exists a h' m', kmalloc h size = Ok (KHEAP_START + a + HDR_SIZE, h') /\ heap_inv None h' m' /\
   owned m !! a = None /\ owned m' = <[a := size_to_order size]> (owned m)).
Proof.
  intros HI Hs. pose proof (size_to_order_valid size) as Hor. unfold kmalloc.
  destruct (Z.eqb_spec size 0); [contradiction|]. set (ord := size_to_order size) in *.
  unfold valid_order in Hor. destruct (Z.ltb_spec BUDDY_MAX_ORDER ord); [lia|].
  destruct (find_order_ok 19 h m ord (hi_lists _ _ _ HI)) as (k & Hfind & Hk & Hex & Hno);
    [lia|heap_consts; lia|].
  rewrite Hfind, res_bind_ok. destruct (Z.ltb_spec BUDDY_MAX_ORDER k) as [Hgt|Hle].
  - left. split; auto. intros a o Ha. destruct (Z.lt_ge_cases o ord); auto. exfalso.
    pose proof (block_order _ _ _ HI _ _ _ Ha). unfold valid_order in *.
    apply (Hno o a); auto. lia.
  - right. destruct (step_pop h m k HI) as (a & h1 & Hpop & Ha & HI1 & _);
      [unfold valid_order; lia|auto|].
    change (FL (k - BUDDY_MIN_ORDER)) with (lst k). rewrite Hpop, res_bind_ok.
    unfold fn_to_blk, node. rewrite res_bind_ok.
    replace (KHEAP_START + a + HDR_SIZE - HDR_SIZE) with (KHEAP_START + a) by lia.
    destruct (hi_hdrs _ _ _ HI1 a k false (lookup_insert_eq _ _ _)) as (x & Hx & Hmag & _ & Hfr).
    rewrite bool_decide_eq_true_2 in Hfr by auto.
    unfold get_hdr. rewrite Hx. simpl of_option. rewrite res_bind_ok, Hmag, Hfr, Z.eqb_refl.
    change (negb true || (Z.b2z (false || true) =? 0)) with false. cbv iota.
    destruct (split_loop_ok 19 h1 _ a k ord HI1 (lookup_insert_eq _ _ _))
      as (h2 & m2 & Hrun & HI2 & Hm2 & Hown); [lia|heap_consts; lia|].
    rewrite Hrun, res_bind_ok.
    destruct (step_flag (Some a) None h2 m2 a ord 0 HI2 Hm2) as (h3 & Hset & HI3); auto.
    rewrite Hset, res_bind_ok. exists a, h3, m2. split_and!; auto.
    + eapply owned_free; eauto.
    + rewrite Hown, owned_insert_owned. apply insert_insert_eq.
Qed.

(** ** Completeness of the free lists *)

Definition overlaps (a o p k : Z) : Prop := a < p + 2 ^ k /\ p < a + 2 ^ o.

(** An aligned interval no live block overlaps lies inside one free block. *)
Lemma free_interval m (n : nat) : forall p,
  tiling m -> no_free_pair m ->
  let k := BUDDY_MIN_ORDER + Z.of_nat n in
  k <= BUDDY_MAX_ORDER -> (2 ^ k | p) -> 0 <= p -> p + 2 ^ k <= BUDDY_HEAP_SIZE ->
  (forall a o, m !! a = Some (o, false) -> ~ overlaps a o p k) ->
  exists b o, m !! b = Some (o, true) /\ k <= o /\ b <= p /\ p + 2 ^ k <= b + 2 ^ o.
Proof.
  induction n as [|n IH]; intros p T HP k Hk Hd Hp Hend Hfree.
  - assert (Hk0 : 0 < 2 ^ k) by (apply pow2_pos; heap_consts; lia).
    destruct (t_cover m T p) as (b & o & f & Hb & Hin); [lia|].
    destruct (t_block m T _ _ _ Hb) as (Ho & _ & _ & Hdb).
    destruct f; [|exfalso; apply (Hfree b o Hb); unfold overlaps; lia].
    destruct (dyadic_nest b o p k) with (x := p) as [H1 H2]; auto; [heap_consts; lia|lia|].
    exists b, o. split_and!; auto; heap_consts; lia.
  - set (j := BUDDY_MIN_ORDER + Z.of_nat n). replace k with (j + 1) in * by lia. clear k.
    assert (Hj0 : 0 <= j) by (heap_consts; lia). pose proof (pow2_pos j Hj0) as Hpj.
    rewrite pow2_double in * by auto. unfold overlaps in Hfree.
    rewrite pow2_double in Hfree by auto.
    assert (Hdj : (2 ^ j | p)) by (destruct Hd as [q ->]; exists (q * 2); lia).
    assert (Hnest : forall b o f x, m !! b = Some (o, f) -> j + 1 <= o ->
        b <= x < b + 2 ^ o -> p <= x < p + 2 * 2 ^ j -> b <= p /\ p + 2 * 2 ^ j <= b + 2 ^ o).
    { intros b o f x Hb Ho Hx1 Hx2. destruct (t_block m T _ _ _ Hb) as (_ & _ & _ & Hdb).
      rewrite <- pow2_double in * by auto. eapply dyadic_nest; eauto. lia. }
    destruct (IH p T HP) as (b1 & o1 & Hb1 & Ho1 & Hl1 & Hr1); fold j; auto; try lia.
    { intros a o Ha Hov. apply (Hfree a o Ha). unfold overlaps in Hov. fold j in Hov. lia. }
    fold j in Ho1, Hr1. destruct (Z.eq_dec o1 j) as [->|];
      [|exists b1, o1; destruct (Hnest b1 o1 true p Hb1); try lia; split_and!; auto; lia].
    destruct (IH (p + 2 ^ j) T HP) as (b2 & o2 & Hb2 & Ho2 & Hl2 & Hr2); fold j; auto; try lia.
    { apply Z.divide_add_r; auto. apply Z.divide_refl. }
    { intros a o Ha Hov. apply (Hfree a o Ha). unfold overlaps in Hov. fold j in Hov. lia. }
    fold j in Ho2, Hr2. destruct (Z.eq_dec o2 j) as [->|];
      [|exists b2, o2; destruct (Hnest b2 o2 true (p + 2 ^ j) Hb2); try lia; split_and!; auto; lia].
    exfalso. assert (b1 = p) as -> by lia. assert (b2 = p + 2 ^ j) as -> by lia.
    apply (HP p j Hb1); [lia|]. rewrite lxor_split; auto. rewrite pow2_double; auto.
Qed.

(** ** The layout is determined by the live blocks *)

Lemma free_block_covered m m' a o :
  tiling m -> tiling m' -> no_free_pair m' -> owned m = owned m' -> m !! a = Some (o, true) ->
  exists b o', m' !! b = Some (o', true) /\ o <= o' /\ b <= a /\ a + 2 ^ o <= b + 2 ^ o'.
Proof.
  intros T T' HP' Hown Ha. destruct (t_block m T _ _ _ Ha) as (Ho & Ha0 & Hend & Hd).
  destruct (free_interval m' (Z.to_nat (o - BUDDY_MIN_ORDER)) a T' HP')
    as (b & o' & Hb & Hle & H1 & H2);
    replace (BUDDY_MIN_ORDER + Z.of_nat (Z.to_nat (o - BUDDY_MIN_ORDER))) with o in * by lia;
    auto; [lia| |exists b, o'; auto].
  intros c oc Hc Hov. unfold overlaps in Hov.
  assert (Hc' : m !! c = Some (oc, false)) by (apply owned_lookup; rewrite Hown; apply owned_lookup; auto).
  destruct (Z.lt_total c a) as [Hl|[->|Hl]]; [|congruence|].
  - pose proof (t_disj m T _ _ _ _ _ _ Hc' Ha Hl). lia.
  - pose proof (t_disj m T _ _ _ _ _ _ Ha Hc' Hl). lia.
Qed.

Lemma free_block_same m m' a o :
  tiling m -> tiling m' -> no_free_pair m -> no_free_pair m' -> owned m = owned m' ->
  m !! a = Some (o, true) -> m' !! a = Some (o, true).
Proof.
  intros T T' HP HP' Hown Ha.
  destruct (free_block_covered m m' a o) as (b & o1 & Hb & Ho1 & Hl1 & Hr1); auto.
  destruct (free_block_covered m' m b o1) as (c & o2 & Hc & Ho2 & Hl2 & Hr2); auto.
  pose proof (block_small m _ _ _ T Ha). pose proof (block_small m' _ _ _ T' Hb).
  assert (c = a) as ->.
  { destruct (Z.lt_total c a) as [Hl|[|]]; [|auto|lia].
    pose proof (t_disj m T _ _ _ _ _ _ Hc Ha Hl). lia. }
  rewrite Ha in Hc. simplify_eq. assert (o1 = o2) by lia. subst o1.
  replace a with b by lia. auto.
Qed.

Lemma layout_unique m m' :
  tiling m -> tiling m' -> no_free_pair m -> no_free_pair m' -> owned m = owned m' -> m = m'.
Proof.
  intros T T' HP HP' Hown. apply map_eq. intros a.
  assert (Hsub : forall m1 m2, tiling m1 -> tiling m2 -> no_free_pair m1 -> no_free_pair m2 ->
     owned m1 = owned m2 -> forall x, m1 !! a = Some x -> m2 !! a = Some x).
  { intros m1 m2 T1 T2 P1 P2 E [o []] H; [eauto using free_block_same|].
    apply owned_lookup. rewrite <- E. apply owned_lookup. auto. }
  destruct (m !! a) as [x|] eqn:E; [symmetry; eauto|].
  destruct (m' !! a) as [x|] eqn:E'; [|auto].
  rewrite (Hsub m' m T' T HP' HP (eq_sym Hown) x E') in E. discriminate.
Qed.

(** ** Initialisation *)

Lemma init_lists_ok n : forall h i,
  0 <= i -> i + Z.of_nat n <= BUDDY_NUM_ORDERS ->
  exists h', init_lists n h i = Ok h' /\ hdrs h' = hdrs h /\
    (forall j, i <= j < i + Z.of_nat n ->
       nexts h' !! FL j = Some (FL j) /\ prevs h' !! FL j = Some (FL j)) /\
    (forall j, j < i -> nexts h' !! FL j = nexts h !! FL j /\ prevs h' !! FL j = prevs h !! FL j).
Proof.
  induction n as [|n IH]; intros h i Hi Hn; cbn [init_lists].
  { exists h. split_and!; auto; intros; lia. }
  assert (Hok : node_ok (FL i) = true)
    by (unfold node_ok; rewrite andb_true_iff, Z.leb_le, Z.ltb_lt; lia).
  unfold fl_init. rewrite put_next_ok, res_bind_ok, put_prev_ok, res_bind_ok by auto.
  destruct (IH (Heap (hdrs h) (<[FL i := FL i]> (nexts h)) (<[FL i := FL i]> (prevs h))
                     (current_process h) (schedule_calls h)) (i + 1))
    as (h' & Hr & Hh & Hin & Hout); [lia|lia|].
  exists h'. split_and!; auto; simpl in *.
  - intros j Hj. destruct (Z.eq_dec j i) as [->|]; [|apply Hin; lia].
    destruct (Hout i ltac:(lia)) as [-> ->]. rewrite !lookup_insert_eq. auto.
  - intros j Hj. destruct (Hout j ltac:(lia)) as [-> ->].
    rewrite !lookup_insert_ne by (intros [= ->]; lia). auto.
Qed.

Lemma init_lists_empty h :
  exists h', init_lists (Z.to_nat BUDDY_NUM_ORDERS) h 0 = Ok h' /\ lists_ok h' ∅.
Proof.
  destruct (init_lists_ok (Z.to_nat BUDDY_NUM_ORDERS) h 0) as (h' & Hr & _ & Hin & _);
    [lia|heap_consts; lia|].
  exists h'. split; [exact Hr|]. clear Hr. exists (fun _ => []). split_and!.
  - intros i a. rewrite lookup_empty. set_solver.
  - intros i Hi. unfold lst. destruct (Hin (i - BUDDY_MIN_ORDER)) as [H1 H2];
      [unfold valid_order in Hi; heap_consts; lia|].
    split; [simpl; auto|apply NoDup_singleton].
  - set_solver.
Qed.

Lemma tiling_whole f : tiling {[0 := (BUDDY_MAX_ORDER, f)]}.
Proof.
  split.
  - intros a o f' [<- [= <- <-]]%lookup_singleton_Some. split_and!; try (heap_consts; lia).
    apply Z.divide_0_r.
  - intros a b oa ob fa fb [<- _]%lookup_singleton_Some [<- _]%lookup_singleton_Some. lia.
  - intros x Hx. exists 0, BUDDY_MAX_ORDER, f. rewrite lookup_singleton_eq. split; [auto|].
    rewrite <- heap_size_pow. lia.
Qed.

Section init_spec.
Context {W : Type} (pmm_alloc_page : W -> res (Z * W)) (vmm_map_page : W -> Z -> Z -> Z -> res W).

Lemma kheap_init_ok h w w' :
  map_heap pmm_alloc_page vmm_map_page (Z.to_nat (BUDDY_HEAP_SIZE / 4096)) w KHEAP_START
    = Ok (true, w') ->
  exists h', kheap_init pmm_alloc_page vmm_map_page h w = Ok (h', w') /\
    heap_inv None h' {[0 := (BUDDY_MAX_ORDER, true)]}.
Proof.
  intros Hmap. destruct (init_lists_empty h) as (h1 & Hi & HL). unfold kheap_init.
  rewrite Hi, res_bind_ok, Hmap, res_bind_ok. clear Hi Hmap. cbv iota.
  rewrite put_hdr_ok, res_bind_ok by reflexivity. set (h2 := with_hdrs h1 _).
  assert (HI : heap_inv (Some 0) h2 {[0 := (BUDDY_MAX_ORDER, false)]}).
  { split.
    - apply tiling_whole.
    - intros a o f [<- [= <- <-]]%lookup_singleton_Some.
      change (KHEAP_START + 0) with KHEAP_START. subst h2. simpl hdrs. rewrite lookup_insert_eq.
      rewrite bool_decide_eq_true_2 by auto. eauto.
    - eapply lists_ok_links; [| |eapply lists_ok_ext; [|exact HL]]; auto.
      intros a i. rewrite lookup_empty, lookup_singleton_Some. naive_solver.
    - intros a o Ha. apply lookup_singleton_Some in Ha as [_ [=]].
    - intros a [= <-]. eexists. apply lookup_singleton_eq. }
  destruct (step_insert h2 _ 0 BUDDY_MAX_ORDER HI (lookup_singleton_eq _ _)) as (h3 & Hadd & HI3);
    [lia|].
  change (FL (BUDDY_MAX_ORDER - BUDDY_MIN_ORDER)) with (lst BUDDY_MAX_ORDER).
  change (blk_to_fn KHEAP_START) with (node 0). rewrite Hadd, res_bind_ok.
  exists h3. split; auto.
Qed.
End init_spec.
