(* ===== verification/HeapContract.v ===== *)
(** The contract of the kernel heap of src/mm/heap.c.  The abstract state is
    the map of live blocks (offset to order); clients allocate, free what they
    own and write inside what they own.  The theorems say that every such
    history runs without undefined behaviour and meets the contract, when a
    request may fail, that the layout depends on the live blocks only, and how
    misuse and oversized requests are handled. *)

From S2P Require Import Prelude Ring Heap HeapInv HeapSpec.

(** ** The contract *)

(** A client may change the bytes of the data area of a live block: headers
    and nodes that overlap such an area may change, nothing else. *)
Definition in_live (L : gmap Z Z) (lo hi : Z) : Prop :=
  exists a o, L !! a = Some o /\ KHEAP_START + a + HDR_SIZE < hi /\ lo < KHEAP_START + a + 2 ^ o.

Definition client_write (L : gmap Z Z) (h h' : heap) : Prop :=
  (forall x, ~ in_live L x (x + HDR_SIZE) -> hdrs h' !! x = hdrs h !! x) /\
  (forall x, ~ in_live L x (x + 8) ->
     nexts h' !! FN x = nexts h !! FN x /\ prevs h' !! FN x = prevs h !! FN x) /\
  (forall i, nexts h' !! FL i = nexts h !! FL i /\ prevs h' !! FL i = prevs h !! FL i).

Inductive hop : Type :=
| HMalloc (size : Z)
| HFree (ptr : Z)
| HWrite (f : heap -> heap).

Definition hop_pre (L : gmap Z Z) (h : heap) (op : hop) : Prop :=
  match op with
  | HMalloc size => is_u32 size
  | HFree ptr => ptr = 0 \/ exists a, ptr = KHEAP_START + a + HDR_SIZE /\ is_Some (L !! a)
  | HWrite f => client_write L h (f h)
  end.

Definition hop_run (h : heap) (op : hop) : res (Z * heap) :=
  match op with
  | HMalloc size => kmalloc h size
  | HFree ptr => h ← kfree h ptr; mret (0, h)
  | HWrite f => mret (0, f h)
  end.

(** The live blocks after the operation returned [r]. *)
Definition hop_next (L : gmap Z Z) (op : hop) (r : Z) : gmap Z Z :=
  match op with
  | HMalloc size =>
      if r =? 0 then L else <[r - HDR_SIZE - KHEAP_START := size_to_order size]> L
  | HFree ptr => if ptr =? 0 then L else delete (ptr - HDR_SIZE - KHEAP_START) L
  | HWrite _ => L
  end.

(** Offset [a] starts an aligned interval of order [o] that no live block
    overlaps. *)
Definition room (L : gmap Z Z) (a o : Z) : Prop :=
  0 <= a /\ a + 2 ^ o <= BUDDY_HEAP_SIZE /\ (2 ^ o | a) /\
  forall b ob, L !! b = Some ob -> ~ overlaps b ob a o.

Definition hop_promise (L : gmap Z Z) (op : hop) (r : Z) : Prop :=
  match op with
  | HMalloc size =>
      let o := size_to_order size in
      (r = 0 /\ (size = 0 \/ forall a, ~ room L a o)) \/
      (exists a, r = KHEAP_START + a + HDR_SIZE /\ size <> 0 /\ room L a o /\
         (size <= BUDDY_HEAP_SIZE - HDR_SIZE -> size + HDR_SIZE <= 2 ^ o))
  | _ => r = 0
  end.

(** The histories of a heap that [kheap_init] built. *)
Inductive reachable : gmap Z Z -> heap -> Prop :=
| reach_init (W : Type) (alloc : W -> res (Z * W)) (map_page : W -> Z -> Z -> Z -> res W)
    (h0 h : heap) (w w' : W) :
    map_heap alloc map_page (Z.to_nat (BUDDY_HEAP_SIZE / 4096)) w KHEAP_START = Ok (true, w') ->
    kheap_init alloc map_page h0 w = Ok (h, w') ->
    reachable ∅ h
| reach_step (L : gmap Z Z) (h h' : heap) (op : hop) (r : Z) :
    reachable L h -> hop_pre L h op -> hop_run h op = Ok (r, h') ->
    reachable (hop_next L op r) h'.

(** ** The simulation *)

Lemma room_owned m a o : tiling m -> m !! a = Some (o, true) -> room (owned m) a o.
Proof.
  intros T Ha. destruct (t_block m T _ _ _ Ha) as (_ & ? & ? & ?). split_and!; auto.
  intros b ob Hb Hov. apply owned_lookup in Hb. unfold overlaps in Hov.
  destruct (Z.lt_total b a) as [Hl|[->|Hl]]; [|congruence|].
  - pose proof (t_disj m T _ _ _ _ _ _ Hb Ha Hl). lia.
  - pose proof (t_disj m T _ _ _ _ _ _ Ha Hb Hl). lia.
Qed.

Lemma no_room h m o :
  heap_inv None h m -> valid_order o ->
  (forall a k, m !! a = Some (k, true) -> k < o) -> forall a, ~ room (owned m) a o.
Proof.
  intros HI Ho Hno a (H0 & H1 & H2 & H3). unfold valid_order in Ho.
  destruct (free_interval m (Z.to_nat (o - BUDDY_MIN_ORDER)) a (hi_tiling _ _ _ HI)
    (hi_pairs _ _ _ HI)) as (b & k & Hb & Hle & _);
    replace (BUDDY_MIN_ORDER + Z.of_nat (Z.to_nat (o - BUDDY_MIN_ORDER))) with o in * by lia;
    auto; [lia| |].
  - intros b ob Hb. apply H3, owned_lookup. auto.
  - specialize (Hno b k Hb). lia.
Qed.

(** A block that became live occupies an interval where there was room. *)
Lemma room_new m h' m' a o :
  heap_inv None h' m' -> owned m !! a = None -> owned m' = <[a := o]> (owned m) ->
  room (owned m) a o.
Proof.
  intros HI' Hn Ho. pose proof (hi_tiling _ _ _ HI') as T'.
  assert (Ha : m' !! a = Some (o, false))
    by (apply owned_lookup; rewrite Ho; apply lookup_insert_eq).
  destruct (t_block m' T' _ _ _ Ha) as (_ & ? & ? & ?). split_and!; auto.
  intros b ob Hb Hov. unfold overlaps in Hov. assert (a <> b) by congruence.
  assert (Hb' : m' !! b = Some (ob, false))
    by (apply owned_lookup; rewrite Ho, lookup_insert_ne; auto).
  destruct (Z.lt_total b a) as [Hl|[->|Hl]]; [|congruence|].
  - pose proof (t_disj m' T' _ _ _ _ _ _ Hb' Ha Hl). lia.
  - pose proof (t_disj m' T' _ _ _ _ _ _ Ha Hb' Hl). lia.
Qed.

Lemma client_write_inv h h' m :
  heap_inv None h m -> client_write (owned m) h h' -> heap_inv None h' m.
Proof.
  intros HI (Hh & Hn & Hs). pose proof (hi_tiling _ _ _ HI) as T. split; try apply HI.
  - intros a o f Ha. rewrite Hh; [exact (hi_hdrs _ _ _ HI _ _ _ Ha)|].
    intros (b & ob & Hb & H1 & H2). apply owned_lookup in Hb. unfold HDR_SIZE in *.
    pose proof (block_small m _ _ _ T Hb). pose proof (block_small m _ _ _ T Ha).
    destruct (Z.lt_total b a) as [Hl|[->|Hl]]; [|lia|].
    + pose proof (t_disj m T _ _ _ _ _ _ Hb Ha Hl). lia.
    + lia.
  - destruct (hi_lists _ _ _ HI) as (F & HF & HR & HV). exists F. split_and!; auto.
    intros i Hi. eapply ring_ext; [|exact (HR i Hi)].
    intros x [->|(a & -> & Ha)%list_elem_of_fmap]%elem_of_cons; [apply Hs|].
    apply HF in Ha. apply Hn. intros (b & ob & Hb & H1 & H2). apply owned_lookup in Hb.
    unfold HDR_SIZE in *.
    pose proof (block_small m _ _ _ T Hb). pose proof (block_small m _ _ _ T Ha).
    destruct (Z.lt_total b a) as [Hl|[->|Hl]]; [|congruence|].
    + pose proof (t_disj m T _ _ _ _ _ _ Hb Ha Hl). lia.
    + pose proof (t_disj m T _ _ _ _ _ _ Ha Hb Hl). lia.
Qed.

Lemma hop_sim h m op :
  heap_inv None h m -> hop_pre (owned m) h op ->
  exists r h' m', hop_run h op = Ok (r, h') /\ heap_inv None h' m' /\
    hop_promise (owned m) op r /\ owned m' = hop_next (owned m) op r.
Proof.
  intros HI Hpre. destruct op as [size|ptr|f]; simpl in Hpre.
  - destruct (Z.eq_dec size 0) as [->|Hs].
    { exists 0, h, m. unfold hop_run, kmalloc. split_and!; auto. left. auto. }
    destruct (kmalloc_ok h m size HI Hs) as [[Hr Hno]|(a & h' & m' & Hr & HI' & Hn & Ho)].
    + exists 0, h, m. split_and!; auto. left. split; auto. right.
      eapply no_room; eauto using size_to_order_valid.
    + exists (KHEAP_START + a + HDR_SIZE), h', m'.
      pose proof (room_new m h' m' a _ HI' Hn Ho) as Hroom. split_and!; auto.
      * right. exists a. split_and!; auto. intros Hle. unfold is_u32 in Hpre.
        apply size_to_order_spec. lia.
      * rewrite Ho. simpl. destruct Hroom as (H0 & _).
        destruct (Z.eqb_spec (KHEAP_START + a + HDR_SIZE) 0); [heap_consts; lia|].
        f_equal. lia.
  - destruct Hpre as [->|(a & -> & [o Ho%owned_lookup])]; [exists 0, h, m; split_and!; first [reflexivity|auto]|].
    destruct (kfree_ok h m a o HI Ho) as (h' & m' & Hr & HI' & Hown).
    exists 0, h', m'. unfold hop_run. rewrite Hr, Hown.
    split_and!; try reflexivity; auto. simpl.
    pose proof (block_node _ _ _ HI _ _ _ Ho) as [H0 _].
    destruct (Z.eqb_spec (KHEAP_START + a + HDR_SIZE) 0); [heap_consts; lia|].
    f_equal. lia.
  - exists 0, (f h), m. split_and!; try reflexivity. eapply client_write_inv; eauto.
Qed.

Lemma reachable_inv L h : reachable L h -> exists m, heap_inv None h m /\ owned m = L.
Proof.
  induction 1 as [W alloc mp h0 h w w' Hmap Hi|L h h' op r _ (m & HI & <-) Hpre Hrun].
  - destruct (kheap_init_ok alloc mp h0 w w' Hmap) as (h1 & Hi' & HI).
    rewrite Hi in Hi'. injection Hi' as <-. eexists. split; [exact HI|reflexivity].
  - destruct (hop_sim h m op HI Hpre) as (r' & h1 & m' & Hrun' & HI' & _ & Hn).
    rewrite Hrun in Hrun'. injection Hrun' as <- <-. eauto.
Qed.

(** A double free is detected: whatever the merges did, the header at the freed
    address keeps its magic and says free. *)
Definition marked_free (h : heap) (a : Z) : Prop :=
  exists x, hdrs h !! a = Some x /\ magic x = BUDDY_MAGIC /\ is_free x = 1.

Lemma set_order_marked h b k h' a :
  marked_free h a -> set_order h b k = Ok h' -> marked_free h' a.
Proof.
  intros (x & Hx & H1 & H2) (y & Hy & Hput)%res_bind_ok_inv. unfold put_hdr in Hput.
  destruct (hdr_addr_ok b); [injection Hput as <-|discriminate]. unfold marked_free. simpl.
  unfold get_hdr in Hy. destruct (decide (b = a)) as [->|];
    [rewrite lookup_insert_eq; rewrite Hx in Hy; injection Hy as <-; eauto|].
  rewrite lookup_insert_ne by auto. eauto.
Qed.

Lemma put_next_hdrs h p q h' : put_next h p q = Ok h' -> hdrs h' = hdrs h.
Proof. unfold put_next. destruct (node_ok p); [intros [= <-]|discriminate]. auto. Qed.
Lemma put_prev_hdrs h p q h' : put_prev h p q = Ok h' -> hdrs h' = hdrs h.
Proof. unfold put_prev. destruct (node_ok p); [intros [= <-]|discriminate]. auto. Qed.

Ltac inv_binds :=
  repeat match goal with
  | H : (_ ≫= _) = Ok _ |- _ =>
      let x := fresh "x" in let Hx := fresh "Hx" in
      apply res_bind_ok_inv in H as (x & Hx & H); simpl in H
  end.

Lemma fl_del_hdrs h n h' : fl_del h n = Ok h' -> hdrs h' = hdrs h.
Proof.
  unfold fl_del. intros H. inv_binds. apply put_prev_hdrs in H.
  rewrite H. eapply put_next_hdrs; eauto.
Qed.

Lemma fl_add_hdrs h s n h' : fl_add h s n = Ok h' -> hdrs h' = hdrs h.
Proof.
  unfold fl_add. intros H. inv_binds.
  repeat match goal with
  | H : put_next _ _ _ = Ok _ |- _ => apply put_next_hdrs in H
  | H : put_prev _ _ _ = Ok _ |- _ => apply put_prev_hdrs in H
  end. congruence.
Qed.

Lemma merge_loop_marked fuel : forall h b o b' o' h' a,
  merge_loop fuel h b o = Ok (b', o', h') -> marked_free h a -> marked_free h' a.
Proof.
  induction fuel as [|fuel IH]; intros h b o b' o' h' a; cbn [merge_loop]; [discriminate|].
  destruct (o <? BUDDY_MAX_ORDER); [|intros [= <- <- <-]; auto].
  destruct (buddy_of b o) as [c|]; [|intros [= <- <- <-]; auto].
  intros (x & _ & H)%res_bind_ok_inv. destruct (_ || _); [injection H as <- <- <-; auto|].
  apply res_bind_ok_inv in H as (h1 & Hd & (h2 & Hs & H)%res_bind_ok_inv). intros Hm.
  eapply IH; [exact H|]. eapply set_order_marked; [|exact Hs].
  unfold marked_free. rewrite (fl_del_hdrs _ _ _ Hd). exact Hm.
Qed.

Lemma kfree_marks h m a o h' :
  heap_inv None h m -> m !! a = Some (o, false) ->
  kfree h (KHEAP_START + a + HDR_SIZE) = Ok h' -> marked_free h' (KHEAP_START + a).
Proof.
  intros HI Hm. pose proof (block_node _ _ _ HI _ _ _ Hm) as [Ha0 Ha1]. unfold kfree.
  destruct (Z.eqb_spec (KHEAP_START + a + HDR_SIZE) 0); [heap_consts; lia|].
  replace (KHEAP_START + a + HDR_SIZE - HDR_SIZE) with (KHEAP_START + a) by lia.
  rewrite u32_small by (unfold is_u32; heap_consts; lia).
  destruct (hi_hdrs _ _ _ HI _ _ _ Hm) as (x & Hx & Hmag & Hord & Hfr).
  rewrite bool_decide_eq_false_2 in Hfr by discriminate.
  unfold get_hdr. rewrite Hx. simpl of_option. rewrite res_bind_ok, Hmag, Hfr, Z.eqb_refl.
  change (Z.b2z (false || false) =? 0) with true. cbn [negb].
  intros (h1 & Hset & H)%res_bind_ok_inv.
  apply res_bind_ok_inv in H as ([[b k] h2] & Hrun & Hadd).
  unfold marked_free. rewrite (fl_add_hdrs _ _ _ _ Hadd). eapply merge_loop_marked; [exact Hrun|].
  unfold set_free, get_hdr in Hset. rewrite Hx in Hset. simpl in Hset. unfold put_hdr in Hset.
  destruct (hdr_addr_ok _); [injection Hset as <-|discriminate].
  unfold marked_free. simpl. rewrite lookup_insert_eq. eauto.
Qed.

(** ** Properties *)

(** C6: In every history of the heap after a successful [kheap_init], a call of
    [kmalloc] with any 32-bit size, a [kfree] of NULL or of a live pointer, and
    a client write inside live blocks all run to completion without undefined
    access, and meet the contract: [kmalloc] returns NULL only for size 0 or
    when no aligned interval of the request's order is free of live blocks, and
    otherwise a block of that order, aligned to its size, inside the heap, that
    overlaps no live block and holds the request. *)
Theorem heap_refines_live L h op :
  reachable L h -> hop_pre L h op ->
  exists r h', hop_run h op = Ok (r, h') /\ hop_promise L op r /\
    reachable (hop_next L op r) h'.
Proof.
  intros HR Hpre. destruct (reachable_inv L h HR) as (m & HI & <-).
  destruct (hop_sim h m op HI Hpre) as (r & h' & m' & Hrun & _ & Hprom & _).
  exists r, h'. split_and!; auto. eapply reach_step; eauto.
Qed.

(** A [kfree] undoes the [kmalloc] that returned its argument, whatever
    splits and merges the two calls performed: the heap has again exactly the
    blocks, free and live, that it had before. *)
Theorem kfree_undoes_kmalloc h m size p h1 h2 :
  heap_inv None h m -> is_u32 size -> kmalloc h size = Ok (p, h1) -> p <> 0 ->
  kfree h1 p = Ok h2 -> heap_inv None h2 m.
Proof.
  intros HI Hs Hmal Hp Hfree. assert (Hs0 : size <> 0).
  { intros ->. change (Ok (0, h) = Ok (p, h1)) in Hmal. congruence. }
  destruct (kmalloc_ok h m size HI Hs0) as [[Hr _]|(a & h' & m1 & Hr & HI1 & Hn & Ho)];
    [congruence|].
  rewrite Hmal in Hr. injection Hr as -> <-.
  assert (Ha : m1 !! a = Some (size_to_order size, false))
    by (apply owned_lookup; rewrite Ho; apply lookup_insert_eq).
  destruct (kfree_ok h1 m1 a _ HI1 Ha) as (h3 & m2 & Hr & HI2 & Ho2).
  rewrite Hfree in Hr. injection Hr as <-.
  replace m with m2; auto. apply layout_unique; eauto using hi_tiling, hi_pairs.
  rewrite Ho2, Ho, delete_insert_id; auto.
Qed.

(** Freeing a live block twice in a row is always detected, also when the
    block was merged away: the second call leaves the heap alone and runs the
    corruption handler. *)
Theorem double_free_detected L h a o h' :
  reachable L h -> L !! a = Some o -> kfree h (KHEAP_START + a + HDR_SIZE) = Ok h' ->
  kfree h' (KHEAP_START + a + HDR_SIZE) = Ok (corruption h').
Proof.
  intros HR Ha Hfree. destruct (reachable_inv L h HR) as (m & HI & <-).
  apply owned_lookup in Ha. pose proof (block_node _ _ _ HI _ _ _ Ha) as [Ha0 Ha1].
  destruct (kfree_marks h m a o h' HI Ha Hfree) as (x & Hx & Hmag & Hfr). unfold kfree.
  destruct (Z.eqb_spec (KHEAP_START + a + HDR_SIZE) 0); [heap_consts; lia|].
  replace (KHEAP_START + a + HDR_SIZE - HDR_SIZE) with (KHEAP_START + a) by lia.
  rewrite u32_small by (unfold is_u32; heap_consts; lia).
  unfold get_hdr. rewrite Hx. simpl of_option. rewrite res_bind_ok, Hmag, Hfr, Z.eqb_refl.
  reflexivity.
Qed.

(** A request the heap can never satisfy is not refused.  [size_to_order]
    never exceeds the largest order, so the guard of [kmalloc] is dead, and on
    an empty heap every request above 8 MB minus the header succeeds with a
    block that is smaller than the request. *)
Theorem oversized_request_gets_small_block h size :
  heap_inv None h {[0 := (BUDDY_MAX_ORDER, true)]} ->
  BUDDY_HEAP_SIZE - HDR_SIZE < size < 2 ^ 32 ->
  exists a h', kmalloc h size = Ok (KHEAP_START + a + HDR_SIZE, h') /\
    2 ^ size_to_order size < size + HDR_SIZE.
Proof.
  intros HI Hs. assert (Hs0 : size <> 0) by (heap_consts; lia).
  pose proof (size_to_order_valid size) as Ho. unfold valid_order in Ho.
  destruct (kmalloc_ok h _ size HI Hs0) as [[_ Hno]|(a & h' & m' & Hr & _)].
  - specialize (Hno 0 BUDDY_MAX_ORDER (lookup_singleton_eq _ _)). lia.
  - exists a, h'. split; auto.
    assert (2 ^ size_to_order size <= 2 ^ BUDDY_MAX_ORDER) by (apply Z.pow_le_mono_r; lia).
    rewrite <- heap_size_pow in *. lia.
Qed.

(** ** Witnesses *)

Definition demo_alloc (w : Z) : res (Z * Z) := Ok (w, w + 4096).
Definition demo_map (w : Z) (phys va flags : Z) : res Z := Ok w.
Definition demo_heap0 : heap := Heap ∅ ∅ ∅ (Some (CProc false 0)) 0.
Definition demo_heap : heap :=
  match kheap_init demo_alloc demo_map demo_heap0 1048576 with
  | Ok (h, _) => h
  | _ => demo_heap0
  end.
Definition demo_heap1 : heap :=
  match kmalloc demo_heap 100 with Ok (_, h) => h | _ => demo_heap end.
Definition demo_heap2 : heap :=
  match kfree demo_heap1 (KHEAP_START + 16) with Ok h => h | _ => demo_heap end.

Lemma demo_reachable : reachable ∅ demo_heap.
Proof.
  apply (reach_init Z demo_alloc demo_map demo_heap0 demo_heap 1048576 (1048576 + 8388608));
    vm_compute; reflexivity.
Qed.

Lemma demo_kmalloc : kmalloc demo_heap 100 = Ok (KHEAP_START + 16, demo_heap1).
Proof. vm_compute. reflexivity. Qed.

Lemma demo_kfree : kfree demo_heap1 (KHEAP_START + 16) = Ok demo_heap2.
Proof. vm_compute. reflexivity. Qed.

Lemma demo_inv : heap_inv None demo_heap {[0 := (BUDDY_MAX_ORDER, true)]}.
Proof.
  destruct (kheap_init_ok demo_alloc demo_map demo_heap0 1048576 (1048576 + 8388608))
    as (h & Hi & HI); [vm_compute; reflexivity|].
  replace demo_heap with h; [exact HI|]. unfold demo_heap. rewrite Hi. reflexivity.
Qed.

Lemma demo_reachable1 : reachable {[0 := 7]} demo_heap1.
Proof.
  change (reachable (hop_next ∅ (HMalloc 100) (KHEAP_START + 16)) demo_heap1).
  eapply (reach_step _ demo_heap); [exact demo_reachable| |exact demo_kmalloc].
  unfold hop_pre, is_u32. lia.
Qed.

Lemma heap_refines_live_witness :
  exists r h', hop_run demo_heap1 (HMalloc 5000) = Ok (r, h') /\
    hop_promise {[0 := 7]} (HMalloc 5000) r /\
    reachable (hop_next {[0 := 7]} (HMalloc 5000) r) h'.
Proof.
  apply (heap_refines_live {[0 := 7]} demo_heap1 (HMalloc 5000) demo_reachable1).
  unfold hop_pre, is_u32. lia.
Defined.

Lemma kfree_undoes_kmalloc_witness :
  heap_inv None demo_heap2 {[0 := (BUDDY_MAX_ORDER, true)]}.
Proof.
  apply (kfree_undoes_kmalloc demo_heap _ 100 (KHEAP_START + 16) demo_heap1 demo_heap2 demo_inv).
  - unfold is_u32. lia.
  - exact demo_kmalloc.
  - discriminate.
  - exact demo_kfree.
Defined.

Lemma double_free_detected_witness :
  kfree demo_heap2 (KHEAP_START + 0 + HDR_SIZE) = Ok (corruption demo_heap2).
Proof.
  apply (double_free_detected {[0 := 7]} demo_heap1 0 7 demo_heap2 demo_reachable1).
  - apply lookup_singleton_eq.
  - exact demo_kfree.
Defined.

Lemma oversized_request_gets_small_block_witness :
  exists a h', kmalloc demo_heap 4294967290 = Ok (KHEAP_START + a + HDR_SIZE, h') /\
    2 ^ size_to_order 4294967290 < 4294967290 + HDR_SIZE.
Proof.
  apply (oversized_request_gets_small_block demo_heap 4294967290 demo_inv).
  unfold BUDDY_HEAP_SIZE, HDR_SIZE. lia.
Defined.
