(* ===== verification/Slab.v ===== *)
(** The slab caches of src/mm/slab.c: object caches cut out of 4096-byte chunks
    of the kernel heap, with the free objects chained through their own first
    word.  The heap enters through the interface [KernelHeap], which the buddy
    allocator of Heap.v implements. *)

From S2P Require Import Prelude Ring Heap HeapInv HeapSpec HeapContract.

(** ** The interface of the heap *)

(** [kh_inv s L]: the regions of [L] (address to size) are allocated in [s]. *)
Class KernelHeap (S : Type) : Type := {
  kh_malloc : S -> Z -> res (Z * S);
  kh_inv : S -> gmap Z Z -> Prop;
  kh_region : forall s L p n, kh_inv s L -> L !! p = Some n -> 0 < p /\ 0 <= n /\ p + n < 2 ^ 32;
  kh_disjoint : forall s L p q n k, kh_inv s L -> L !! p = Some n -> L !! q = Some k -> p <> q ->
    p + n <= q \/ q + k <= p;
  kh_malloc_spec : forall s L size, kh_inv s L -> 0 < size <= BUDDY_HEAP_SIZE - HDR_SIZE ->
    exists r s', kh_malloc s size = Ok (r, s') /\
      ((r = 0 /\ kh_inv s' L) \/
       (r <> 0 /\ L !! r = None /\ kh_inv s' (<[r := size]> L)))
}.

Definition heap_regions (h : heap) (R : gmap Z Z) : Prop :=
  exists L, reachable L h /\
    forall p n, R !! p = Some n ->
      exists o, L !! (p - HDR_SIZE - KHEAP_START) = Some o /\ 0 <= n /\ n + HDR_SIZE <= 2 ^ o.

Lemma heap_regions_block h R p n :
  heap_regions h R -> R !! p = Some n ->
  KHEAP_START + HDR_SIZE <= p /\ 0 <= n /\ p + n <= KHEAP_START + BUDDY_HEAP_SIZE.
Proof.
  intros (L & HR & HL) Hp. destruct (HL p n Hp) as (o & Ho & Hn & Hle).
  destruct (reachable_inv L h HR) as (m & HI & <-). apply owned_lookup in Ho.
  destruct (t_block m (hi_tiling _ _ _ HI) _ _ _ Ho) as (_ & ? & ? & _). lia.
Qed.

Lemma heap_regions_disjoint h R p q n k :
  heap_regions h R -> R !! p = Some n -> R !! q = Some k -> p <> q -> p + n <= q \/ q + k <= p.
Proof.
  intros (L & HR & HL) Hp Hq Hne. destruct (HL p n Hp) as (o & Ho & Hn & Hle).
  destruct (HL q k Hq) as (o' & Ho' & Hk & Hle').
  destruct (reachable_inv L h HR) as (m & HI & <-). apply owned_lookup in Ho, Ho'.
  pose proof (hi_tiling _ _ _ HI) as T. unfold HDR_SIZE in *.
  destruct (Z.lt_total p q) as [Hl|[|Hl]]; [left|contradiction|right].
  - pose proof (t_disj m T _ _ _ _ _ _ Ho Ho' ltac:(lia)). lia.
  - pose proof (t_disj m T _ _ _ _ _ _ Ho' Ho ltac:(lia)). lia.
Qed.

Lemma heap_regions_malloc h R size :
  heap_regions h R -> 0 < size <= BUDDY_HEAP_SIZE - HDR_SIZE ->
  exists r h', kmalloc h size = Ok (r, h') /\
    ((r = 0 /\ heap_regions h' R) \/
     (r <> 0 /\ R !! r = None /\ heap_regions h' (<[r := size]> R))).
Proof.
  intros (L & HR & HL) Hs. destruct (reachable_inv L h HR) as (m & HI & EL).
  assert (Hpre : hop_pre L h (HMalloc size)) by (unfold hop_pre, is_u32; heap_consts; lia).
  rewrite <- EL in Hpre. destruct (hop_sim h m _ HI Hpre) as (r & h' & m' & Hrun & _ & Hprom & _).
  rewrite EL in Hprom, Hpre. pose proof (reach_step L h h' _ r HR Hpre Hrun) as HR'.
  exists r, h'. split; auto. simpl in HR', Hprom.
  destruct Hprom as [[-> _]|(a & -> & _ & (Ha & Hend & _ & Hno) & Hsz)]; [left|right].
  - split; auto. exists L. auto.
  - destruct (Z.eqb_spec (KHEAP_START + a + HDR_SIZE) 0) as [|Hr0]; [heap_consts; lia|].
    replace (KHEAP_START + a + HDR_SIZE - HDR_SIZE - KHEAP_START) with a in HR' by lia.
    assert (Hfresh : L !! a = None).
    { destruct (L !! a) as [o|] eqn:E; auto. exfalso. apply (Hno a o E). unfold overlaps.
      rewrite <- EL in E. apply owned_lookup in E.
      pose proof (block_small _ _ _ _ (hi_tiling _ _ _ HI) E).
      pose proof (size_to_order_valid size) as Hv. unfold valid_order in Hv.
      pose proof (pow2_pos (size_to_order size)). heap_consts. lia. }
    split_and!; auto.
    + destruct (R !! _) as [n|] eqn:E; auto. destruct (HL _ _ E) as (o & Ho & _).
      replace (KHEAP_START + a + HDR_SIZE - HDR_SIZE - KHEAP_START) with a in Ho by lia. congruence.
    + eexists. split; [exact HR'|]. intros p n Hp.
      destruct (decide (p = KHEAP_START + a + HDR_SIZE)) as [->|Hne].
      * rewrite lookup_insert_eq in Hp. simplify_eq. exists (size_to_order n).
        replace (KHEAP_START + a + HDR_SIZE - HDR_SIZE - KHEAP_START) with a by lia.
        rewrite lookup_insert_eq. split_and!; auto; lia.
      * rewrite lookup_insert_ne in Hp by auto. destruct (HL p n Hp) as (o & Ho & Hn).
        exists o. rewrite lookup_insert_ne by lia. auto.
Qed.

#[export] Instance buddy_kernel_heap : KernelHeap heap.
Proof.
  refine {| kh_malloc := kmalloc; kh_inv := heap_regions |}.
  - intros h R p n Hi Hp. pose proof (heap_regions_block h R p n Hi Hp). heap_consts. lia.
  - exact heap_regions_disjoint.
  - exact heap_regions_malloc.
Defined.

(** ** The cache *)

Definition PAGE_SIZE : Z := 4096.
Definition NODE_SIZE : Z := 4.    (* sizeof(struct slab_free_node) *)

Record slab_cache : Type := SlabCache {
  obj_size : Z;
  objs_per_slab : Z;
  free_list : Z;
  total_allocs : Z;
  total_frees : Z
}.

(** The cache, the [next] fields of the free objects and the heap. *)
Record slab (S : Type) : Type := Slab {
  cache : slab_cache;
  links : gmap Z Z;
  kheap : S
}.
Arguments Slab {S}.
Arguments cache {S}.
Arguments links {S}.
Arguments kheap {S}.

(** A division by zero is undefined behaviour. *)
Definition slab_cache_init (size : Z) : res slab_cache :=
  let size := if size <? NODE_SIZE then NODE_SIZE else size in
  let osz := Z.land (u32 (size + 7)) (u32 (Z.lnot 7)) in
  if osz =? 0 then Ub else mret (SlabCache osz (PAGE_SIZE / osz) 0 0 0).

Section ops.
Context {S : Type} `{KernelHeap S}.

Definition set_free_list (c : slab_cache) (p : Z) : slab_cache :=
  SlabCache (obj_size c) (objs_per_slab c) p (total_allocs c) (total_frees c).

(** The loop of [slab_grow], from object [i] on. *)
Fixpoint grow_loop (n : nat) (s : slab S) (vbase i : Z) : slab S :=
  match n with
  | O => s
  | Datatypes.S n =>
      let node := u32 (vbase + u32 (i * obj_size (cache s))) in
      let s := Slab (set_free_list (cache s) node)
                    (<[node := free_list (cache s)]> (links s)) (kheap s) in
      grow_loop n s vbase (i + 1)
  end.

Definition slab_grow (s : slab S) : res (Z * slab S) :=
  '(vbase, k) ← kh_malloc (kheap s) PAGE_SIZE;
  let s := Slab (cache s) (links s) k in
  if vbase =? 0 then mret (-1, s)
  else mret (0, grow_loop (Z.to_nat (objs_per_slab (cache s))) s vbase 0).

Definition slab_take (s : slab S) : res (Z * slab S) :=
  let node := free_list (cache s) in
  next ← of_option (links s !! node);
  let c := cache s in
  mret (node, Slab (SlabCache (obj_size c) (objs_per_slab c) next (u32 (total_allocs c + 1))
                              (total_frees c)) (links s) (kheap s)).

Definition slab_alloc (s : slab S) : res (Z * slab S) :=
  if free_list (cache s) =? 0 then
    '(r, s) ← slab_grow s;
    if r <? 0 then mret (0, s) else slab_take s
  else slab_take s.

Definition slab_free (s : slab S) (obj : Z) : slab S :=
  if obj =? 0 then s
  else
    let c := cache s in
    Slab (SlabCache (obj_size c) (objs_per_slab c) obj (total_allocs c) (u32 (total_frees c + 1)))
         (<[obj := free_list c]> (links s)) (kheap s).

(** ** Invariant *)

(** The free objects, in list order, chained from [p]. *)
Fixpoint chain (l : gmap Z Z) (p : Z) (fs : list Z) : Prop :=
  match fs with
  | [] => p = 0
  | x :: fs => p = x /\ x <> 0 /\ exists q, l !! x = Some q /\ chain l q fs
  end.

Definition slot (c : slab_cache) (bases : list Z) (x : Z) : Prop :=
  exists b i, b ∈ bases /\ 0 <= i < objs_per_slab c /\ x = b + i * obj_size c.

Definition geometry_ok (c : slab_cache) : Prop :=
  NODE_SIZE <= obj_size c /\ 1 <= objs_per_slab c /\ objs_per_slab c * obj_size c <= PAGE_SIZE.

(** [bases] are the chunks of the cache, [fs] its free objects, [live] the
    objects handed out. *)
Definition slab_inv (s : slab S) (bases fs : list Z) (live : gset Z) (R : gmap Z Z) : Prop :=
  geometry_ok (cache s) /\ kh_inv (kheap s) R /\
  (forall b, b ∈ bases -> R !! b = Some PAGE_SIZE) /\
  chain (links s) (free_list (cache s)) fs /\ NoDup fs /\
  (forall x, slot (cache s) bases x <-> x ∈ fs \/ x ∈ live) /\
  (forall x, x ∈ fs -> x ∉ live).

Lemma chain_ext l l' fs : forall p,
  (forall x, x ∈ fs -> l' !! x = l !! x) -> chain l p fs -> chain l' p fs.
Proof.
  induction fs as [|x fs IH]; intros p He Hc; [auto|].
  destruct Hc as (-> & Hx & q & Hq & Hc). split; [auto|]. split; [auto|].
  exists q. rewrite He by set_solver. split; auto. apply IH; [set_solver|auto].
Qed.

Lemma slot_offset c i : geometry_ok c -> 0 <= i < objs_per_slab c ->
  0 <= i * obj_size c /\ i * obj_size c + obj_size c <= PAGE_SIZE.
Proof.
  intros (? & ? & ?) Hi. unfold NODE_SIZE in *. split; [nia|].
  assert ((i + 1) * obj_size c <= objs_per_slab c * obj_size c)
    by (apply Z.mul_le_mono_nonneg_r; lia). lia.
Qed.

Lemma slot_region s bases fs live R x :
  slab_inv s bases fs live R -> slot (cache s) bases x ->
  exists b, b ∈ bases /\ 0 < b /\ b + PAGE_SIZE < 2 ^ 32 /\ b <= x /\
    x + obj_size (cache s) <= b + PAGE_SIZE.
Proof.
  intros (HG & HK & HB & _) (b & i & Hb & Hi & ->).
  destruct (kh_region _ _ _ _ HK (HB b Hb)) as (? & ? & ?). exists b.
  destruct (slot_offset _ _ HG Hi). split_and!; auto; lia.
Qed.

(** Different slots do not overlap. *)
Lemma slot_disjoint s bases fs live R x y :
  slab_inv s bases fs live R -> slot (cache s) bases x -> slot (cache s) bases y -> x <> y ->
  x + obj_size (cache s) <= y \/ y + obj_size (cache s) <= x.
Proof.
  intros (HG & HK & HB & _) Hx Hy Hne.
  destruct Hx as (b0 & i & Hb0 & Hi & ->), Hy as (c & j & Hc & Hj & ->).
  destruct (Z.eq_dec b0 c) as [->|Hbc].
  - assert (i < j \/ j < i) as [|] by (destruct (Z.lt_total i j) as [|[->|]]; auto; contradiction).
    + left. destruct HG as (? & _). unfold NODE_SIZE in *. nia.
    + right. destruct HG as (? & _). unfold NODE_SIZE in *. nia.
  - destruct (slot_offset _ _ HG Hi), (slot_offset _ _ HG Hj).
    destruct (kh_disjoint _ _ _ _ _ _ HK (HB b0 Hb0) (HB c Hc) Hbc); [left|right]; lia.
Qed.

(** ** Operations *)

Definition new_slot (c : slab_cache) (vbase i x : Z) : Prop :=
  exists j, i <= j < objs_per_slab c /\ x = vbase + j * obj_size c.

Lemma grow_loop_ok n : forall s vbase i fs,
  geometry_ok (cache s) -> 0 < vbase -> vbase + PAGE_SIZE < 2 ^ 32 -> 0 <= i ->
  i + Z.of_nat n = objs_per_slab (cache s) ->
  chain (links s) (free_list (cache s)) fs -> NoDup fs ->
  (forall x, x ∈ fs -> ~ new_slot (cache s) vbase i x) ->
  let s' := grow_loop n s vbase i in
  kheap s' = kheap s /\ (exists p, cache s' = set_free_list (cache s) p) /\
  exists fs', chain (links s') (free_list (cache s')) fs' /\ NoDup fs' /\
    forall x, x ∈ fs' <-> x ∈ fs \/ new_slot (cache s) vbase i x.
Proof.
  induction n as [|n IH]; intros s vbase i fs HG Hv0 Hv1 Hi Hn Hc Hd Hfr; cbn [grow_loop].
  { split; [auto|]. split; [exists (free_list (cache s)); destruct (cache s); reflexivity|].
    exists fs. split_and!; auto. intros x. split; [auto|]. intros [|(j & Hj & _)]; [auto|lia]. }
  destruct (slot_offset _ i HG ltac:(lia)) as [Ho1 Ho2].
  destruct HG as (HG1 & HG2 & HG3).
  rewrite (u32_small (i * _)) by (unfold is_u32, PAGE_SIZE, NODE_SIZE in *; lia).
  rewrite u32_small by (unfold is_u32, PAGE_SIZE, NODE_SIZE in *; lia).
  set (x0 := vbase + i * obj_size (cache s)). set (s1 := Slab _ _ _).
  assert (Hx0 : x0 ∉ fs) by (intros Hx; apply (Hfr x0 Hx); exists i; split; [lia|reflexivity]).
  destruct (IH s1 vbase (i + 1) (x0 :: fs)) as (Hk & (p & Hp) & fs' & Hc' & Hd' & Hf');
    simpl; auto; try lia.
  - split_and!; auto.
  - split; [auto|]. split; [lia|]. eexists. rewrite lookup_insert_eq. split; [reflexivity|].
    eapply chain_ext; [|exact Hc]. intros x Hx. apply lookup_insert_ne. set_solver.
  - apply NoDup_cons. auto.
  - intros x [->|Hx]%elem_of_cons (j & Hj & E); simpl in *.
    + unfold NODE_SIZE in *. subst x0. nia.
    + apply (Hfr x Hx). exists j. split; [lia|auto].
  - split; [auto|]. split; [exists p; rewrite Hp; reflexivity|]. exists fs'. split_and!; auto.
    intros x. rewrite Hf', elem_of_cons. split.
    + intros [[->|Hx]|(j & Hj & E)]; simpl in *; auto.
      * right. exists i. split; [lia|reflexivity].
      * right. exists j. split; [lia|auto].
    + intros [Hx|(j & Hj & E)]; auto. destruct (Z.eq_dec j i) as [->|]; [auto|].
      right. exists j. simpl. split; [lia|auto].
Qed.

Lemma slab_take_ok s bases x fs live R :
  slab_inv s bases (x :: fs) live R ->
  exists s', slab_take s = Ok (x, s') /\ x <> 0 /\ x ∉ live /\ slot (cache s) bases x /\
    slab_inv s' bases fs ({[x]} ∪ live) R /\ obj_size (cache s') = obj_size (cache s).
Proof.
  intros (HG & HK & HB & (Ep & Hx & q & Hq & Hc) & Hd & Hs & Hf). unfold slab_take.
  apply NoDup_cons in Hd as [Hxf Hd]. rewrite Ep, Hq. simpl of_option. rewrite res_bind_ok.
  eexists. split; [reflexivity|]. split; [auto|]. split; [apply Hf; set_solver|].
  split; [apply Hs; set_solver|]. split; [|reflexivity].
  split; [exact HG|]. split; [exact HK|]. split; [exact HB|]. split; [exact Hc|].
  split; [exact Hd|]. split.
  - intros y. specialize (Hs y). unfold slot in *. simpl. rewrite Hs. set_solver.
  - intros y Hy. specialize (Hf y). set_solver.
Qed.

Lemma slab_grow_ok s bases live R :
  slab_inv s bases [] live R ->
  exists r s', slab_grow s = Ok (r, s') /\ obj_size (cache s') = obj_size (cache s) /\
    ((r = -1 /\ slab_inv s' bases [] live R) \/
     (r = 0 /\ exists b x fs R', slab_inv s' (b :: bases) (x :: fs) live R')).
Proof.
  intros HI. pose proof HI as (HG & HK & HB & Hc & _ & Hs & _). unfold slab_grow.
  destruct (kh_malloc_spec _ R PAGE_SIZE HK) as (r & k & Hr & Hcase);
    [unfold PAGE_SIZE; heap_consts; lia|].
  rewrite Hr, res_bind_ok. destruct Hcase as [[-> HK']|(Hr0 & Hfresh & HK')].
  - eexists _, _. split; [reflexivity|]. split; [reflexivity|]. left. split; auto.
    destruct HI as (_ & _ & _ & HI). exact (conj HG (conj HK' (conj HB HI))).
  - destruct (Z.eqb_spec r 0); [contradiction|].
    destruct (kh_region _ _ r PAGE_SIZE HK') as (Hp0 & _ & Hp1); [apply lookup_insert_eq|].
    simpl in Hc. pose proof HG as (_ & HG2 & _).
    destruct (grow_loop_ok (Z.to_nat (objs_per_slab (cache s))) (Slab (cache s) (links s) k) r 0 [])
      as (Hk & (p & Ep) & fs & Hc' & Hd' & Hf');
      [exact HG|exact Hp0|exact Hp1|lia|simpl; lia|exact Hc|apply NoDup_nil_2|set_solver|].
    cbn [cache]. eexists _, _. split; [reflexivity|]. rewrite Ep. split; [reflexivity|]. right. split; auto.
    destruct fs as [|x fs].
    { exfalso. assert (Hin : r ∈ @nil Z); [|set_solver]. apply Hf'. right. exists 0. simpl. lia. }
    exists r, x, fs, (<[r := PAGE_SIZE]> R). unfold slab_inv. rewrite Ep, Hk. simpl.
    rewrite Ep in Hc'.
    split; [exact HG|]. split; [exact HK'|]. split; [|split; [exact Hc'|split; [exact Hd'|]]].
    { intros b [->|Hb]%elem_of_cons; [apply lookup_insert_eq|].
      rewrite lookup_insert_ne; auto. intros ->. rewrite (HB _ Hb) in Hfresh. discriminate. }
    assert (Hlive : forall y, y ∈ live -> ~ new_slot (cache s) r 0 y).
    { intros y Hy (j & Hj & ->). destruct (proj2 (Hs _) (or_intror Hy)) as (b & i & Hb & Hi & E).
      assert (Hbr : b <> r) by (intros ->; rewrite (HB _ Hb) in Hfresh; discriminate).
      destruct (slot_offset _ _ HG Hj), (slot_offset _ _ HG Hi), HG as (HG1 & _).
      unfold NODE_SIZE in *.
      destruct (kh_disjoint _ _ b r PAGE_SIZE PAGE_SIZE HK'); auto; try lia;
        [rewrite lookup_insert_ne by auto; apply HB; auto|apply lookup_insert_eq]. }
    split.
    + intros y. rewrite Hf'. unfold slot, new_slot in *. simpl. split.
      * intros (b & i & [->|Hb]%elem_of_cons & Hi & ->); [left; right; eauto|].
        right. destruct (proj1 (Hs (b + i * obj_size (cache s)))); [eauto|set_solver|auto].
      * intros [[?|(j & Hj & ->)]|Hy]; [set_solver|exists r, j; set_solver|].
        destruct (proj2 (Hs y) (or_intror Hy)) as (b & i & Hb & Hi & ->).
        exists b, i. set_solver.
    + intros y Hy Hyl. apply Hf' in Hy as [Hy|Hy]; [set_solver|]. exact (Hlive y Hyl Hy).
Qed.
End ops.

(** ** Contract *)

Section contract.
Context {S : Type} `{KernelHeap S}.

(** [live] are the objects of the cache in use; the rest is bookkeeping. *)
Definition slab_ok (s : slab S) (live : gset Z) : Prop :=
  exists bases fs R, slab_inv s bases fs live R.

(** A client writes to the objects it holds: the [next] fields that overlap a
    live object may change. *)
Definition object_write (s : slab S) (live : gset Z) (l' : gmap Z Z) : Prop :=
  forall x, (forall y, y ∈ live -> x + NODE_SIZE <= y \/ y + obj_size (cache s) <= x) ->
  l' !! x = links s !! x.

Inductive slab_op : Type :=
| SAlloc
| SFree (obj : Z)
| SWrite (l : gmap Z Z).

Definition slab_pre (s : slab S) (live : gset Z) (op : slab_op) : Prop :=
  match op with
  | SAlloc => True
  | SFree obj => obj = 0 \/ obj ∈ live
  | SWrite l => object_write s live l
  end.

Definition slab_run (s : slab S) (op : slab_op) : res (Z * slab S) :=
  match op with
  | SAlloc => slab_alloc s
  | SFree obj => mret (0, slab_free s obj)
  | SWrite l => mret (0, Slab (cache s) l (kheap s))
  end.

(** The live objects after an operation that returned [r]; a returned object
    is fresh and overlaps no live one. *)
Definition slab_post (s : slab S) (live : gset Z) (op : slab_op) (r : Z) (live' : gset Z) : Prop :=
  match op with
  | SAlloc =>
      (r = 0 /\ live' = live) \/
      (r <> 0 /\ r ∉ live /\ live' = {[r]} ∪ live /\
       forall x, x ∈ live -> r + obj_size (cache s) <= x \/ x + obj_size (cache s) <= r)
  | SFree obj => live' = live ∖ {[obj]}
  | SWrite _ => live' = live
  end.

Lemma slab_alloc_ok s live :
  slab_ok s live ->
  exists r s' live', slab_alloc s = Ok (r, s') /\ slab_ok s' live' /\
    slab_post s live SAlloc r live' /\ obj_size (cache s') = obj_size (cache s).
Proof.
  intros (bases & fs & R & HI). unfold slab_alloc.
  assert (Htake : forall s1 bases1 x fs1 R1, slab_inv s1 bases1 (x :: fs1) live R1 ->
    obj_size (cache s1) = obj_size (cache s) ->
    exists r s' live', slab_take s1 = Ok (r, s') /\ slab_ok s' live' /\
      slab_post s live SAlloc r live' /\ obj_size (cache s') = obj_size (cache s)).
  { intros s1 bases1 x fs1 R1 H1 Esz.
    destruct (slab_take_ok s1 bases1 x fs1 live R1 H1) as (s' & Hr & Hx0 & Hxl & Hsl & HI' & Esz').
    exists x, s', ({[x]} ∪ live). split; [auto|]. split; [exists bases1, fs1, R1; auto|].
    split; [|congruence]. right. split_and!; auto. intros y Hy. rewrite <- Esz.
    eapply slot_disjoint; [exact H1|auto| |set_solver].
    destruct H1 as (_ & _ & _ & _ & _ & Hs & _). apply Hs. auto. }
  pose proof HI as (_ & _ & _ & Hc & _). destruct fs as [|x fs].
  - simpl in Hc. rewrite Hc. simpl.
    destruct (slab_grow_ok s bases live R HI) as (r & s1 & Hr & Esz & Hcase). rewrite Hr, res_bind_ok.
    destruct Hcase as [[-> HI1]|(-> & b & x & fs & R' & HI1)]; simpl; [|eauto].
    exists 0, s1, live. split; [reflexivity|]. split; [exists bases, [], R; auto|].
    split; [left; auto|auto].
  - destruct Hc as (-> & Hx & _). destruct (Z.eqb_spec x 0); [contradiction|]. eauto.
Qed.

Lemma slab_free_ok s live obj :
  slab_ok s live -> obj = 0 \/ obj ∈ live -> slab_ok (slab_free s obj) (live ∖ {[obj]}).
Proof.
  intros (bases & fs & R & HI) Hpre. pose proof HI as (HG & HK & HB & Hc & Hd & Hs & Hf).
  assert (H0 : 0 ∉ live).
  { intros Hin. destruct (slot_region s bases fs live R 0 HI) as (b & _ & Hb & _ & Hle & _);
      [apply Hs; auto|lia]. }
  unfold slab_free. destruct (Z.eqb_spec obj 0) as [->|Hobj].
  { exists bases, fs, R. replace (live ∖ {[0]}) with live by set_solver. exact HI. }
  destruct Hpre as [|Hin]; [contradiction|]. assert (Hnf : obj ∉ fs) by (intros Hx; exact (Hf _ Hx Hin)).
  exists bases, (obj :: fs), R. split; [exact HG|]. split; [exact HK|]. split; [exact HB|].
  split; [|split; [apply NoDup_cons; auto|split]]; simpl.
  - split; [auto|]. split; [auto|]. eexists. rewrite lookup_insert_eq. split; [reflexivity|].
    eapply chain_ext; [|exact Hc]. intros x Hx. apply lookup_insert_ne. set_solver.
  - intros x. unfold slot in *. simpl. rewrite Hs, elem_of_cons, elem_of_difference.
    destruct (decide (x = obj)) as [->|]; set_solver.
  - intros x. specialize (Hf x). set_solver.
Qed.

Lemma object_write_ok s live l :
  slab_ok s live -> object_write s live l -> slab_ok (Slab (cache s) l (kheap s)) live.
Proof.
  intros (bases & fs & R & HI) Hw. pose proof HI as (HG & HK & HB & Hc & Hd & Hs & Hf).
  exists bases, fs, R. split; [exact HG|]. split; [exact HK|]. split; [exact HB|].
  split; [|split; [exact Hd|split; [exact Hs|exact Hf]]]. simpl.
  eapply chain_ext; [|exact Hc]. intros x Hx. apply Hw. intros y Hy.
  destruct (slot_disjoint s bases fs live R x y HI) as [|]; auto.
  - apply Hs. auto.
  - apply Hs. auto.
  - intros ->. exact (Hf _ Hx Hy).
  - left. destruct HG as (HG1 & _). lia.
Qed.

(** C7: Over any heap that meets the [KernelHeap] interface, a slab cache is an
    allocator of disjoint objects: [slab_alloc] always returns, NULL or an
    object that is not in use and overlaps none in use; [slab_free] of a live
    object releases exactly it; client writes to live objects disturb
    nothing. *)
Theorem slab_refines_objects s live op :
  slab_ok s live -> slab_pre s live op ->
  exists r s' live', slab_run s op = Ok (r, s') /\ slab_ok s' live' /\
    slab_post s live op r live' /\ obj_size (cache s') = obj_size (cache s).
Proof.
  intros Hok Hpre. destruct op as [|obj|l]; simpl in Hpre.
  - apply slab_alloc_ok. auto.
  - exists 0, (slab_free s obj), (live ∖ {[obj]}). split; [reflexivity|].
    split; [apply slab_free_ok; auto|]. split; [reflexivity|].
    unfold slab_free. destruct (obj =? 0); reflexivity.
  - exists 0, (Slab (cache s) l (kheap s)), live. split; [reflexivity|].
    split; [apply object_write_ok; auto|]. split; reflexivity.
Qed.

(** [slab_cache_init] for objects of at most a page sets up an empty cache. *)
Lemma slab_cache_init_ok size (k : S) R :
  0 <= size <= PAGE_SIZE -> kh_inv k R ->
  exists c, slab_cache_init size = Ok c /\ size <= obj_size c /\ slab_ok (Slab c ∅ k) ∅.
Proof.
  intros Hs HK. unfold slab_cache_init. set (z := if size <? NODE_SIZE then NODE_SIZE else size).
  assert (Hz : size <= z /\ NODE_SIZE <= z <= PAGE_SIZE)
    by (subst z; unfold NODE_SIZE, PAGE_SIZE in *; destruct (Z.ltb_spec size 4); lia).
  rewrite (u32_small (z + 7)) by (unfold is_u32, PAGE_SIZE, NODE_SIZE in *; lia).
  assert (E : Z.land (z + 7) (u32 (Z.lnot 7)) = (z + 7) / 8 * 8).
  { change (u32 (Z.lnot 7)) with (Z.land (Z.lnot (2 ^ 3 - 1)) (Z.ones 32)).
    rewrite Z.land_assoc, align_down_spec, Z.land_ones by lia. change (2 ^ 3) with 8.
    unfold PAGE_SIZE, NODE_SIZE in *. pose proof (Z.div_mod (z + 7) 8).
    pose proof (Z.mod_pos_bound (z + 7) 8). apply Z.mod_small. lia. }
  rewrite E. pose proof (Z.div_mod (z + 7) 8 ltac:(lia)) as Hdm.
  pose proof (Z.mod_pos_bound (z + 7) 8 ltac:(lia)) as Hmb. set (q := (z + 7) / 8) in *.
  assert (Hq : z <= q * 8 <= PAGE_SIZE) by (unfold PAGE_SIZE in *; lia). unfold NODE_SIZE in *.
  destruct (Z.eqb_spec (q * 8) 0); [lia|].
  eexists. split; [reflexivity|]. simpl. split; [lia|].
  exists [], [], R. split; [|split; [exact HK|]].
  - unfold geometry_ok, NODE_SIZE. simpl. split; [lia|]. split.
    + apply Z.div_le_lower_bound; lia.
    + rewrite Z.mul_comm. apply Z.mul_div_le. lia.
  - split; [set_solver|]. split; [reflexivity|]. split; [apply NoDup_nil_2|].
    split; [|set_solver]. intros x. unfold slot. set_solver.
Qed.

(** Objects larger than a page: the chunk holds none, and the first allocation
    reads through a null pointer. *)
Lemma large_object_faults c (k k' : S) r :
  objs_per_slab c = 0 -> free_list c = 0 -> kh_malloc k PAGE_SIZE = Ok (r, k') -> r <> 0 ->
  slab_alloc (Slab c ∅ k) = Ub.
Proof.
  intros Hn Hf Hr Hr0. unfold slab_alloc, slab_grow. simpl. rewrite Hf. simpl. rewrite Hr.
  simpl. destruct (Z.eqb_spec r 0); [contradiction|]. simpl. rewrite Hn. simpl.
  unfold slab_take. simpl. rewrite Hf. reflexivity.
Qed.
End contract.

Lemma slab_refines_objects_witness :
  exists r s' live', slab_run (Slab (SlabCache 40 102 0 0 0) ∅ demo_heap1) SAlloc = Ok (r, s') /\
    slab_ok s' live' /\
    slab_post (Slab (SlabCache 40 102 0 0 0) ∅ demo_heap1) ∅ SAlloc r live' /\
    obj_size (cache s') = 40.
Proof.
  apply (slab_refines_objects (Slab (SlabCache 40 102 0 0 0) ∅ demo_heap1) ∅ SAlloc); [|exact I].
  destruct (slab_cache_init_ok (S := heap) 33 demo_heap1 ∅) as (c & Hc & _ & Hok).
  - unfold PAGE_SIZE. lia.
  - exists {[0 := 7]}. split; [exact demo_reachable1|]. intros p n Hp.
    rewrite lookup_empty in Hp. discriminate.
  - injection Hc as <-. exact Hok.
Defined.

Example large_objects_have_no_slots :
  (c ← slab_cache_init 5000; mret (objs_per_slab c, free_list c)) = Ok (0, 0).
Proof. reflexivity. Qed.
