(* ===== verification/Kva.v ===== *)
(** The kernel virtual address allocator of src/kernel/kva_alloc.c: a first-fit
    allocator of page runs in a 3 MB window, with one bit per page. *)

From S2P Require Import Prelude Bitmap.

Definition KVA_ALLOC_BASE : Z := 3226468352.       (* 0xC0500000 *)
Definition KVA_ALLOC_END : Z := 3229614080.        (* 0xC0800000 *)
Definition KVA_ALLOC_PAGES : Z := Z.shiftr (KVA_ALLOC_END - KVA_ALLOC_BASE) 12.

Definition kva_alloc_init : array Z := arr_new (KVA_ALLOC_PAGES / 8) 0.

Definition bitmap_set (bm : array Z) (bit : Z) : res (array Z) :=
  b ← arr_get bm (Z.shiftr bit 3);
  arr_set bm (Z.shiftr bit 3) (u8 (Z.lor b (Z.shiftl 1 (Z.land bit 7)))).

Definition bitmap_clear (bm : array Z) (bit : Z) : res (array Z) :=
  b ← arr_get bm (Z.shiftr bit 3);
  arr_set bm (Z.shiftr bit 3) (u8 (Z.land b (Z.lnot (Z.shiftl 1 (Z.land bit 7))))).

Definition bitmap_test (bm : array Z) (bit : Z) : res Z :=
  b ← arr_get bm (Z.shiftr bit 3);
  mret (Z.land (Z.shiftr b (Z.land bit 7)) 1).

(** [for (j = 0; j < page_count; j++)]: whether the run at [i] is free. *)
Fixpoint run_free (n : nat) (bm : array Z) (i j : Z) : res bool :=
  match n with
  | O => mret true
  | S n =>
      t ← bitmap_test bm (u32 (i + j));
      if negb (t =? 0) then mret false else run_free n bm i (j + 1)
  end.

(** [for (i = 0; i <= KVA_ALLOC_PAGES - page_count; i++)]: the first free run. *)
Fixpoint find_run (fuel : nat) (bm : array Z) (page_count i : Z) : res (option Z) :=
  match fuel with
  | O => NoFuel
  | S fuel =>
      if i <=? KVA_ALLOC_PAGES - page_count then
        f ← run_free (Z.to_nat page_count) bm i 0;
        if (f : bool) then mret (Some i) else find_run fuel bm page_count (i + 1)
      else mret None
  end.

Fixpoint set_run (n : nat) (bm : array Z) (start i : Z) : res (array Z) :=
  match n with
  | O => mret bm
  | S n => bm ← bitmap_set bm (u32 (start + i)); set_run n bm start (i + 1)
  end.

Fixpoint clear_run (n : nat) (bm : array Z) (start i : Z) : res (array Z) :=
  match n with
  | O => mret bm
  | S n => bm ← bitmap_clear bm (u32 (start + i)); clear_run n bm start (i + 1)
  end.

(** At most [KVA_ALLOC_PAGES] starting points are tried, so that one more unit
    of fuel is enough. *)
Definition kva_alloc_pages (bm : array Z) (page_count : Z) : res (Z * array Z) :=
  if (page_count =? 0) || (KVA_ALLOC_PAGES <? page_count) then mret (0, bm)
  else
    found ← find_run (S (Z.to_nat KVA_ALLOC_PAGES)) bm page_count 0;
    match found with
    | None => mret (0, bm)
    | Some start =>
        bm ← set_run (Z.to_nat page_count) bm start 0;
        mret (u32 (KVA_ALLOC_BASE + u32 (Z.shiftl start 12)), bm)
    end.

Definition kva_free_pages (bm : array Z) (virt page_count : Z) : res (array Z) :=
  if (virt <? KVA_ALLOC_BASE) || (KVA_ALLOC_END <=? virt) then mret bm
  else
    let start := Z.shiftr (u32 (virt - KVA_ALLOC_BASE)) 12 in
    if KVA_ALLOC_PAGES <? u32 (start + page_count) then mret bm
    else clear_run (Z.to_nat page_count) bm start 0.

(** ** Bit operations *)

Definition kva_ok (bm : array Z) : Prop := arr_len bm = KVA_ALLOC_PAGES / 8 /\ bytes_ok bm.

Lemma kva_pages : KVA_ALLOC_PAGES = 768.
Proof. reflexivity. Qed.

Lemma kva_init_ok : kva_ok kva_alloc_init.
Proof.
  split; [reflexivity|]. intros i. unfold kva_alloc_init. rewrite arr_at_new. unfold is_u8. lia.
Qed.

Lemma shiftr3 i : Z.shiftr i 3 = i / 8.
Proof. rewrite Z.shiftr_div_pow2 by lia. reflexivity. Qed.

Lemma land7 i : Z.land i 7 = i mod 8.
Proof. change 7 with (Z.ones 3). rewrite Z.land_ones by lia. reflexivity. Qed.

Section bits.
Context (bm : array Z) (i : Z) (Hok : kva_ok bm) (Hi : 0 <= i < KVA_ALLOC_PAGES).

Lemma kva_idx : 0 <= i / 8 < arr_len bm.
Proof.
  destruct Hok as [-> _]. apply bit_in_range. rewrite kva_pages in *. change (768 / 8) with 96. lia.
Qed.

Lemma kva_bitmap_set_ok : bitmap_set bm i = Ok (setbit bm i).
Proof.
  unfold bitmap_set. rewrite shiftr3, land7, arr_get_ok by apply kva_idx. rewrite res_bind_ok.
  rewrite u8_small by (apply is_u8_setbit; [apply Hok|apply mod8_range]).
  apply arr_set_ok, kva_idx.
Qed.

Lemma bitmap_clear_ok : bitmap_clear bm i = Ok (clearbit bm i).
Proof.
  unfold bitmap_clear. rewrite shiftr3, land7, arr_get_ok by apply kva_idx. rewrite res_bind_ok.
  rewrite u8_small by (apply is_u8_clearbit, Hok). apply arr_set_ok, kva_idx.
Qed.

Lemma kva_bitmap_test_ok : bitmap_test bm i = Ok (Z.b2z (bit_at bm i)).
Proof.
  unfold bitmap_test. rewrite shiftr3, land7, arr_get_ok by apply kva_idx. rewrite res_bind_ok.
  unfold mret, res_ret. f_equal. change 1 with (Z.ones 1).
  rewrite Z.land_ones, <- Z.bit0_mod, Z.shiftr_spec by lia. rewrite Z.add_0_l. reflexivity.
Qed.

Lemma setbit_kva_ok : kva_ok (setbit bm i).
Proof. destruct Hok. split; auto with adros. Qed.

Lemma clearbit_kva_ok : kva_ok (clearbit bm i).
Proof. destruct Hok. split; auto with adros. Qed.
End bits.

(** ** Runs *)

(** [lo <= i < lo + n] *)
Definition in_run (lo n i : Z) : bool := (lo <=? i) && (i <? lo + n).

Lemma run_free_ok n : forall bm i j,
  kva_ok bm -> 0 <= i -> 0 <= j -> i + j + Z.of_nat n <= KVA_ALLOC_PAGES ->
  exists f, run_free n bm i j = Ok f /\
    (f = true <-> forall g, i + j <= g < i + j + Z.of_nat n -> bit_at bm g = false).
Proof.
  induction n as [|n IH]; intros bm i j Hok Hi Hj Hn; cbn [run_free].
  { exists true. split; [reflexivity|]. split; [intros _ g Hg; lia|auto]. }
  rewrite u32_small by (rewrite kva_pages in *; lia).
  rewrite (kva_bitmap_test_ok bm (i + j) Hok ltac:(lia)), res_bind_ok.
  destruct (bit_at bm (i + j)) eqn:Hb; simpl.
  - exists false. split; [reflexivity|]. split; [discriminate|].
    intros Hall. rewrite Hall in Hb by lia. discriminate.
  - destruct (IH bm i (j + 1) Hok) as (f & -> & Hf); [lia|lia|lia|]. exists f. split; [auto|].
    rewrite Hf. split; intros Hall g Hg.
    + destruct (Z.eq_dec g (i + j)) as [->|]; [auto|apply Hall; lia].
    + apply Hall. lia.
Qed.

Definition free_run (bm : array Z) (n i : Z) : Prop :=
  0 <= i /\ i + n <= KVA_ALLOC_PAGES /\ forall g, i <= g < i + n -> bit_at bm g = false.

Lemma find_run_ok fuel : forall bm n i,
  kva_ok bm -> 0 < n <= KVA_ALLOC_PAGES -> 0 <= i <= KVA_ALLOC_PAGES - n + 1 ->
  KVA_ALLOC_PAGES - n - i + 1 < Z.of_nat fuel ->
  (forall g, g < i -> ~ free_run bm n g) ->
  exists r, find_run fuel bm n i = Ok r /\
    match r with
    | Some s => free_run bm n s /\ forall g, g < s -> ~ free_run bm n g
    | None => forall g, ~ free_run bm n g
    end.
Proof.
  induction fuel as [|fuel IH]; intros bm n i Hok Hn Hi Hf Hno.
  { lia. }
  cbn [find_run]. destruct (Z.leb_spec i (KVA_ALLOC_PAGES - n)) as [Hle|Hgt].
  - destruct (run_free_ok (Z.to_nat n) bm i 0 Hok) as (f & -> & Hspec); [lia|lia|lia|].
    rewrite res_bind_ok. rewrite Z.add_0_r, Z2Nat.id in Hspec by lia. destruct f.
    + exists (Some i). split; [reflexivity|]. split; [|auto].
      split; [lia|]. split; [lia|]. apply Hspec. reflexivity.
    + apply IH; auto; try lia. intros g Hg Hfr. destruct (Z.eq_dec g i) as [->|].
      * destruct Hfr as (_ & _ & Hall). apply Hspec in Hall. discriminate.
      * apply (Hno g); auto. lia.
  - exists None. split; [reflexivity|]. intros g Hfr. apply (Hno g); auto.
    destruct Hfr as (_ & ? & _). lia.
Qed.

Lemma set_run_ok n : forall bm start i,
  kva_ok bm -> 0 <= start -> 0 <= i -> start + i + Z.of_nat n <= KVA_ALLOC_PAGES ->
  exists bm', set_run n bm start i = Ok bm' /\ kva_ok bm' /\
    forall g, bit_at bm' g = in_run (start + i) (Z.of_nat n) g || bit_at bm g.
Proof.
  induction n as [|n IH]; intros bm start i Hok Hs Hi Hn; cbn [set_run].
  { exists bm. split; [reflexivity|]. split; [auto|]. intros g. unfold in_run.
    destruct (Z.leb_spec (start + i) g), (Z.ltb_spec g (start + i + Z.of_nat 0)); try lia; auto. }
  rewrite u32_small by (rewrite kva_pages in *; lia).
  rewrite (kva_bitmap_set_ok bm (start + i) Hok ltac:(lia)), res_bind_ok.
  destruct (IH (setbit bm (start + i)) start (i + 1)) as (bm' & Hr & Hok' & Hbits); try lia.
  { apply setbit_kva_ok; auto. }
  exists bm'. split; [auto|]. split; [auto|]. intros g. rewrite Hbits, bit_at_setbit, orb_assoc.
  f_equal. unfold in_run. apply eq_true_iff_eq.
  rewrite orb_true_iff, !andb_true_iff, !Z.leb_le, !Z.ltb_lt, Z.eqb_eq. lia.
Qed.

Lemma clear_run_ok n : forall bm start i,
  kva_ok bm -> 0 <= start -> 0 <= i -> start + i + Z.of_nat n <= KVA_ALLOC_PAGES ->
  exists bm', clear_run n bm start i = Ok bm' /\ kva_ok bm' /\
    forall g, bit_at bm' g = negb (in_run (start + i) (Z.of_nat n) g) && bit_at bm g.
Proof.
  induction n as [|n IH]; intros bm start i Hok Hs Hi Hn; cbn [clear_run].
  { exists bm. split; [reflexivity|]. split; [auto|]. intros g. unfold in_run.
    destruct (Z.leb_spec (start + i) g), (Z.ltb_spec g (start + i + Z.of_nat 0)); try lia; auto. }
  rewrite u32_small by (rewrite kva_pages in *; lia).
  rewrite (bitmap_clear_ok bm (start + i) Hok ltac:(lia)), res_bind_ok.
  destruct (IH (clearbit bm (start + i)) start (i + 1)) as (bm' & Hr & Hok' & Hbits); try lia.
  { apply clearbit_kva_ok; auto. }
  exists bm'. split; [auto|]. split; [auto|]. intros g. rewrite Hbits, bit_at_clearbit, andb_assoc.
  f_equal. unfold in_run. apply eq_true_iff_eq.
  rewrite andb_true_iff, !negb_true_iff, !andb_false_iff, !Z.leb_gt, !Z.ltb_ge, Z.eqb_neq. lia.
Qed.

Lemma kva_alloc_ok bm n :
  kva_ok bm -> is_u32 n ->
  exists r bm', kva_alloc_pages bm n = Ok (r, bm') /\ kva_ok bm' /\
    ((r = 0 /\ bm' = bm /\ (n = 0 \/ forall g, ~ free_run bm n g)) \/
     (exists s, r = KVA_ALLOC_BASE + 4096 * s /\ 0 < n /\ free_run bm n s /\
        (forall g, g < s -> ~ free_run bm n g) /\
        forall g, bit_at bm' g = in_run s n g || bit_at bm g)).
Proof.
  intros Hok Hn. unfold is_u32 in Hn. unfold kva_alloc_pages.
  destruct (Z.eqb_spec n 0) as [->|Hn0]; cbn [orb].
  { exists 0, bm. split; [reflexivity|]. split; auto. }
  destruct (Z.ltb_spec KVA_ALLOC_PAGES n) as [Hgt|Hle].
  { exists 0, bm. split; [reflexivity|]. split; [auto|]. left. split_and!; auto. right.
    intros g (? & ? & _). lia. }
  destruct (find_run_ok (S (Z.to_nat KVA_ALLOC_PAGES)) bm n 0 Hok) as (r & Hr & Hspec);
    [lia|lia|rewrite kva_pages; lia|intros g Hg (? & _); lia|].
  rewrite Hr, res_bind_ok. destruct r as [s|].
  - destruct Hspec as [Hfr Hmin]. pose proof Hfr as (Hs0 & Hs1 & _).
    destruct (set_run_ok (Z.to_nat n) bm s 0 Hok) as (bm' & Hset & Hok' & Hbits); [lia..|].
    rewrite Hset, res_bind_ok. rewrite Z.add_0_r, Z2Nat.id in Hbits by lia.
    eexists _, bm'. split; [reflexivity|]. split; [auto|]. right. exists s.
    split; [|split_and!; auto; lia].
    rewrite Z.shiftl_mul_pow2 by lia. rewrite kva_pages in *.
    rewrite (u32_small (s * _)) by lia. unfold KVA_ALLOC_BASE. rewrite u32_small; lia.
  - exists 0, bm. split; [reflexivity|]. split; auto.
Qed.

Lemma kva_free_ok bm s n :
  kva_ok bm -> 0 <= s -> 0 <= n -> s + n <= KVA_ALLOC_PAGES -> s < KVA_ALLOC_PAGES ->
  exists bm', kva_free_pages bm (KVA_ALLOC_BASE + 4096 * s) n = Ok bm' /\ kva_ok bm' /\
    forall g, bit_at bm' g = negb (in_run s n g) && bit_at bm g.
Proof.
  intros Hok Hs Hn Hsn Hs2. unfold kva_free_pages. rewrite kva_pages in *.
  destruct (Z.ltb_spec (KVA_ALLOC_BASE + 4096 * s) KVA_ALLOC_BASE); [lia|].
  destruct (Z.leb_spec KVA_ALLOC_END (KVA_ALLOC_BASE + 4096 * s));
    [unfold KVA_ALLOC_END, KVA_ALLOC_BASE in *; lia|]. cbn [orb].
  replace (KVA_ALLOC_BASE + 4096 * s - KVA_ALLOC_BASE) with (s * 2 ^ 12) by lia.
  rewrite (u32_small (s * _)), Z.shiftr_div_pow2, Z.div_mul by lia.
  rewrite u32_small by lia. destruct (Z.ltb_spec 768 (s + n)); [lia|].
  destruct (clear_run_ok (Z.to_nat n) bm s 0 Hok) as (bm' & Hr & Hok' & Hbits);
    [lia|lia|rewrite kva_pages; lia|].
  rewrite Z.add_0_r, Z2Nat.id in Hbits by lia. eauto.
Qed.

(** C8: [kva_alloc_pages] is a complete first-fit allocator: for every 32-bit
    count it returns; the answer is 0 only for count 0 or when no free run of
    that length exists; otherwise it is the lowest such run, exactly its pages
    become used, and [kva_free_pages] with the same count restores every
    bit. *)
Theorem kva_first_fit bm n :
  kva_ok bm -> is_u32 n ->
  exists r bm', kva_alloc_pages bm n = Ok (r, bm') /\ kva_ok bm' /\
    ((r = 0 /\ bm' = bm /\ (n = 0 \/ forall g, ~ free_run bm n g)) \/
     (exists s, r = KVA_ALLOC_BASE + 4096 * s /\ free_run bm n s /\
        (forall g, g < s -> ~ free_run bm n g) /\
        (forall g, bit_at bm' g = in_run s n g || bit_at bm g) /\
        exists bm'', kva_free_pages bm' r n = Ok bm'' /\ kva_ok bm'' /\
          forall g, bit_at bm'' g = bit_at bm g)).
Proof.
  intros Hok Hn. destruct (kva_alloc_ok bm n Hok Hn) as (r & bm' & Hr & Hok' & Hcase).
  exists r, bm'. split; [auto|]. split; [auto|].
  destruct Hcase as [|(s & -> & Hn0 & Hfr & Hmin & Hbits)]; [auto|right].
  exists s. split_and!; auto. pose proof Hfr as (Hs0 & Hs1 & Hz).
  destruct (kva_free_ok bm' s n Hok') as (bm'' & Hf & Hok'' & Hb); try lia.
  exists bm''. split_and!; auto. intros g. rewrite Hb, Hbits.
  destruct (in_run s n g) eqn:E; simpl; [|auto].
  unfold in_run in E. rewrite andb_true_iff, Z.leb_le, Z.ltb_lt in E. symmetry. auto.
Qed.

Lemma kva_first_fit_witness :
  exists r bm', kva_alloc_pages kva_alloc_init 20 = Ok (r, bm') /\ kva_ok bm' /\
    ((r = 0 /\ bm' = kva_alloc_init /\ (20 = 0 \/ forall g, ~ free_run kva_alloc_init 20 g)) \/
     (exists s, r = KVA_ALLOC_BASE + 4096 * s /\ free_run kva_alloc_init 20 s /\
        (forall g, g < s -> ~ free_run kva_alloc_init 20 g) /\
        (forall g, bit_at bm' g = in_run s 20 g || bit_at kva_alloc_init g) /\
        exists bm'', kva_free_pages bm' r 20 = Ok bm'' /\ kva_ok bm'' /\
          forall g, bit_at bm'' g = bit_at kva_alloc_init g)).
Proof. apply (kva_first_fit kva_alloc_init 20 kva_init_ok). unfold is_u32. lia. Defined.

(** The bound check of [kva_free_pages] wraps at 32 bits: a count close to
    2^32 passes it and the loop runs off the bitmap. *)
Lemma clear_run_oob n : forall bm start i,
  kva_ok bm -> 0 <= start -> 0 <= i -> start + i <= KVA_ALLOC_PAGES ->
  KVA_ALLOC_PAGES < start + i + Z.of_nat n -> clear_run n bm start i = Ub.
Proof.
  induction n as [|n IH]; intros bm start i Hok Hs Hi Hle Hgt; cbn [clear_run]; [lia|].
  rewrite u32_small by (rewrite kva_pages in *; lia).
  destruct (Z.eq_dec (start + i) KVA_ALLOC_PAGES) as [E|].
  - unfold bitmap_clear, arr_get. rewrite arr_in_false; [reflexivity|].
    destruct Hok as [-> _]. rewrite E, shiftr3. rewrite kva_pages.
    change (768 / 8) with 96. lia.
  - rewrite (bitmap_clear_ok bm (start + i) Hok ltac:(lia)), res_bind_ok.
    apply IH; try lia. apply clearbit_kva_ok; auto.
Qed.

Lemma kva_free_count_wraps bm :
  kva_ok bm -> kva_free_pages bm (KVA_ALLOC_BASE + 4096) 4294967295 = Ub.
Proof.
  intros Hok. unfold kva_free_pages.
  change ((KVA_ALLOC_BASE + 4096 <? KVA_ALLOC_BASE) || (KVA_ALLOC_END <=? KVA_ALLOC_BASE + 4096))
    with false.
  change (Z.shiftr (u32 (KVA_ALLOC_BASE + 4096 - KVA_ALLOC_BASE)) 12) with 1.
  change (KVA_ALLOC_PAGES <? u32 (1 + 4294967295)) with false. cbv iota.
  apply clear_run_oob; auto; rewrite ?kva_pages; lia.
Qed.
