(* ===== verification/Frames.v ===== *)
(** The interface of the page allocator towards the virtual memory manager: frames
    with reference counts.  The allocator of Pmm.v implements it. *)

From S2P Require Import Prelude Pmm.

(** A reference of the frame [f] is given back. *)
Definition released (A : gset Z) (L : gmap Z Z) (f : Z) (A' : gset Z) (L' : gmap Z Z) : Prop :=
  exists n, L !! f = Some n /\
    if 1 <? n then A' = A /\ L' = <[f := n - 1]> L else A' = {[f]} ∪ A /\ L' = delete f L.

(** [fa_avail]: the numbers of the frames that can be handed out; [fa_live]: the
    reference counts of the others. *)
Class FrameAlloc (S : Type) : Type := {
  fa_alloc : S -> res (Z * S);
  fa_free : S -> Z -> res S;
  fa_incref : S -> Z -> res S;
  fa_decref : S -> Z -> res (Z * S);
  fa_refcount : S -> Z -> res Z;
  fa_ok : S -> Prop;
  fa_avail : S -> gset Z;
  fa_live : S -> gmap Z Z;
  fa_range : forall s f, fa_ok s -> f ∈ fa_avail s \/ is_Some (fa_live s !! f) -> 0 < f < 1048576;
  fa_disjoint : forall s f, fa_ok s -> f ∈ fa_avail s -> fa_live s !! f = None;
  fa_positive : forall s f n, fa_ok s -> fa_live s !! f = Some n -> 0 < n;
  fa_alloc_none : forall s, fa_ok s -> fa_avail s = ∅ ->
    exists s', fa_alloc s = Ok (0, s') /\ fa_ok s' /\ fa_avail s' = ∅ /\ fa_live s' = fa_live s;
  fa_alloc_some : forall s, fa_ok s -> fa_avail s <> ∅ ->
    exists f s', fa_alloc s = Ok (f * 4096, s') /\ fa_ok s' /\ f ∈ fa_avail s /\
      fa_avail s' = fa_avail s ∖ {[f]} /\ fa_live s' = <[f := 1]> (fa_live s);
  fa_free_live : forall s f, fa_ok s -> is_Some (fa_live s !! f) ->
    exists s', fa_free s (f * 4096) = Ok s' /\ fa_ok s' /\ released (fa_avail s) (fa_live s) f (fa_avail s') (fa_live s');
  fa_decref_live : forall s f, fa_ok s -> is_Some (fa_live s !! f) ->
    exists n s', fa_decref s (f * 4096) = Ok (n, s') /\ fa_ok s' /\ released (fa_avail s) (fa_live s) f (fa_avail s') (fa_live s');
  fa_incref_live : forall s f n, fa_ok s -> fa_live s !! f = Some n -> n + 1 < 4294967296 ->
    exists s', fa_incref s (f * 4096) = Ok s' /\ fa_ok s' /\ fa_avail s' = fa_avail s /\ fa_live s' = <[f := n + 1]> (fa_live s);
  fa_refcount_live : forall s f n, fa_ok s -> fa_live s !! f = Some n -> fa_refcount s (f * 4096) = Ok n
}.

(** ** The page allocator *)

Lemma frame_of_addr f : f * 4096 / PAGE_SIZE = f.
Proof. unfold PAGE_SIZE. apply Z.div_mul. lia. Qed.

(** The steps of the abstract allocator, by operation. *)
Lemma alloc_inv F r F' :
  fstep F OpAllocPage r F' ->
  (exists f, f ∈ avail F /\ r = f * 4096 /\ avail F' = avail F ∖ {[f]} /\ live F' = <[f := 1]> (live F)) \/
  (avail F = ∅ /\ r = 0 /\ avail F' = ∅ /\ live F' = live F).
Proof. inversion 1; subst; simpl; [left; eauto|right; auto]. Qed.

Lemma release_inv F op f r F' :
  op = OpFreePage (f * 4096) \/ op = OpDecref (f * 4096) -> is_Some (live F !! f) -> fstep F op r F' ->
  released (avail F) (live F) f (avail F') (live F').
Proof.
  intros Hop [n Hn] Hs. unfold released. exists n. split; [auto|].
  destruct Hop as [-> | ->]; inversion Hs; subst; simpl in *; rewrite frame_of_addr in *; simplify_eq; zdecide; auto.
Qed.

Lemma incref_inv F f n r F' :
  live F !! f = Some n -> fstep F (OpIncref (f * 4096)) r F' -> avail F' = avail F /\ live F' = <[f := n + 1]> (live F).
Proof. intros Hn Hs. inversion Hs; subst; simpl in *. rewrite frame_of_addr in *. simplify_eq. auto. Qed.

Section pmm.
Context (s : pmm) (H : pmm_ok s).

Lemma pmm_range f : f ∈ avail (frames_of s) \/ is_Some (live (frames_of s) !! f) -> 0 < f < 1048576.
Proof.
  intros Hf. assert (Hi : in_frames s f).
  { destruct Hf as [Hf|[n Hn]]; [apply elem_of_avail in Hf; tauto|apply live_some in Hn; tauto]. }
  destruct consts_eq as (_ & Em & _). pose proof (ok_max s H). unfold in_frames in Hi. lia.
Qed.

Lemma pmm_disjoint f : f ∈ avail (frames_of s) -> live (frames_of s) !! f = None.
Proof.
  intros [Hi Hu]%elem_of_avail. destruct (live (frames_of s) !! f) as [n|] eqn:E; [|reflexivity].
  apply live_some in E as (_ & Hr & _). unfold in_frames in Hi. rewrite (ok_live s H f) in Hu by lia. discriminate.
Qed.

Lemma pmm_alloc_none : avail (frames_of s) = ∅ ->
  exists s', pmm_alloc_page s = Ok (0, s') /\ pmm_ok s' /\ avail (frames_of s') = ∅ /\ live (frames_of s') = live (frames_of s).
Proof.
  intros E. destruct (alloc_page_refines s H Logic.I) as (r & s' & Hr & Hok & Hst). exists s'.
  destruct (alloc_inv _ _ _ Hst) as [(f & Hf & _)|(_ & -> & EA & EL)]; [rewrite E in Hf; set_solver|auto].
Qed.

Lemma pmm_alloc_some : avail (frames_of s) <> ∅ ->
  exists f s', pmm_alloc_page s = Ok (f * 4096, s') /\ pmm_ok s' /\ f ∈ avail (frames_of s) /\
    avail (frames_of s') = avail (frames_of s) ∖ {[f]} /\ live (frames_of s') = <[f := 1]> (live (frames_of s)).
Proof.
  intros E. destruct (alloc_page_refines s H Logic.I) as (r & s' & Hr & Hok & Hst).
  destruct (alloc_inv _ _ _ Hst) as [(f & Hf & -> & EA & EL)|(E0 & _)]; [|contradiction]. exists f, s'. auto.
Qed.

Lemma pmm_release (op : fop) f :
  op = OpFreePage (f * 4096) \/ op = OpDecref (f * 4096) -> is_Some (live (frames_of s) !! f) ->
  exists n s', pmm_run op s = Ok (n, s') /\ pmm_ok s' /\
    released (avail (frames_of s)) (live (frames_of s)) f (avail (frames_of s')) (live (frames_of s')).
Proof.
  intros Hop Hn. assert (Hf : 0 < f < 1048576) by (apply pmm_range; auto).
  assert (Hu : is_u32 (f * 4096)) by (unfold is_u32; lia).
  assert (Hr : exists r s', pmm_run op s = Ok (r, s') /\ pmm_ok s' /\ fstep (frames_of s) op r (frames_of s'))
    by (destruct Hop as [-> | ->]; [apply free_page_refines|apply decref_refines]; auto).
  destruct Hr as (r & s' & Hr & Hok & Hst). exists r, s'. split; [auto|]. split; [auto|]. eapply release_inv; eauto.
Qed.

Lemma pmm_add_ref f n :
  live (frames_of s) !! f = Some n -> n + 1 < 4294967296 ->
  exists s', pmm_incref s (f * 4096) = Ok s' /\ pmm_ok s' /\ avail (frames_of s') = avail (frames_of s) /\
    live (frames_of s') = <[f := n + 1]> (live (frames_of s)).
Proof.
  intros Hn Hm. assert (Hf : 0 < f < 1048576) by (apply pmm_range; eauto).
  destruct (incref_refines (f * 4096) s H) as (r & s' & Hr & Hok & Hst).
  { split; [unfold is_u32; lia|]. exists n. rewrite frame_of_addr. auto. }
  simpl in Hr. apply res_bind_ok_inv in Hr as (s1 & E & [= <- <-]). exists s1. split; [auto|]. split; [auto|].
  eapply incref_inv; eauto.
Qed.

Lemma pmm_count f n : live (frames_of s) !! f = Some n -> pmm_get_refcount s (f * 4096) = Ok n.
Proof.
  intros (Hi & _ & <-)%live_some. unfold pmm_get_refcount. rewrite frame_of_addr. unfold in_frames in Hi. zdecide.
  rewrite arr_get_ok; [reflexivity|]. rewrite (ok_rc_len s H). pose proof (ok_max s H). lia.
Qed.
End pmm.

Lemma pmm_live_positive s f n : live (frames_of s) !! f = Some n -> 0 < n.
Proof. intros (_ & Hp & <-)%live_some. exact Hp. Qed.

Lemma pmm_free_live s f : pmm_ok s -> is_Some (live (frames_of s) !! f) ->
  exists s', pmm_free_page s (f * 4096) = Ok s' /\ pmm_ok s' /\
    released (avail (frames_of s)) (live (frames_of s)) f (avail (frames_of s')) (live (frames_of s')).
Proof.
  intros H Hf. destruct (pmm_release s H (OpFreePage (f * 4096)) f (or_introl eq_refl) Hf) as (n & s' & Hr & Hok & Hl).
  simpl in Hr. apply res_bind_ok_inv in Hr as (s1 & E & [= <- <-]). eauto.
Qed.

#[export] Instance pmm_frames : FrameAlloc pmm := {
  fa_alloc := pmm_alloc_page;
  fa_free := pmm_free_page;
  fa_incref := pmm_incref;
  fa_decref := pmm_decref;
  fa_refcount := pmm_get_refcount;
  fa_ok := pmm_ok;
  fa_avail := fun s => avail (frames_of s);
  fa_live := fun s => live (frames_of s);
  fa_range := fun s f H => pmm_range s H f;
  fa_disjoint := fun s f H => pmm_disjoint s H f;
  fa_positive := fun s f n _ => pmm_live_positive s f n;
  fa_alloc_none := pmm_alloc_none;
  fa_alloc_some := pmm_alloc_some;
  fa_free_live := pmm_free_live;
  fa_decref_live := fun s f H Hf => pmm_release s H (OpDecref (f * 4096)) f (or_intror eq_refl) Hf;
  fa_incref_live := fun s f n H => pmm_add_ref s H f n;
  fa_refcount_live := fun s f n H => pmm_count s H f n
}.
