(* ===== verification/Vmm.v ===== *)
(** The virtual memory manager for PAE paging (src/arch/x86/vmm.c, src/mm/vmm.c) on the
    contents of physical memory: page tables are pages whose words are entries, and the
    recursive mapping is the walk the processor does.  An access that faults in the
    kernel is [Ub].  The page allocator enters through [FrameAlloc]; the section under
    [vmm_lock] is one step, and invalidations of the TLB have no effect on the model.

    [user_store] is the store instruction of a user process with the page faults it
    causes (src/arch/x86/idt.c), [copy_to_user] the store of the kernel for a process
    (src/arch/x86/uaccess.c).  [v_wp] is the bit of CR0 that makes read-only pages
    read-only for the kernel too. *)

From S2P Require Import Prelude Frames.

Definition VMM_FLAG_PRESENT : Z := 1.
Definition VMM_FLAG_RW : Z := 2.
Definition VMM_FLAG_USER : Z := 4.
Definition VMM_FLAG_PWT : Z := 8.
Definition VMM_FLAG_PCD : Z := 16.
Definition VMM_FLAG_COW : Z := 512.
Definition VMM_FLAG_NX : Z := 1024.

Definition X86_PTE_PRESENT : Z := 1.
Definition X86_PTE_RW : Z := 2.
Definition X86_PTE_USER : Z := 4.
Definition X86_PTE_PWT : Z := 8.
Definition X86_PTE_PCD : Z := 16.
Definition X86_PTE_COW : Z := 512.
Definition X86_PTE_NX : Z := 9223372036854775808.

Definition PAE_USER_PDPT_MAX : Z := 3.

(** [e & bit] as a condition *)
Definition has (e bit : Z) : bool := negb (Z.land e bit =? 0).

Definition pae_pdpt_index (va : Z) : Z := Z.land (Z.shiftr va 30) 3.
Definition pae_pd_index (va : Z) : Z := Z.land (Z.shiftr va 21) 511.
Definition pae_pt_index (va : Z) : Z := Z.land (Z.shiftr va 12) 511.

(** The frame of an entry, as the code takes it and as the processor does. *)
Definition entry_frame (e : Z) : Z := Z.land e 4294963200.
Definition hw_frame (e : Z) : Z := Z.land e 4503599627366400.

(** A page of physical memory: 512 words of 64 bits. *)
Notation page := (array Z) (only parsing).
Definition zero_page : page := arr_new 512 0.

(** A byte of a page. *)
Definition page_byte (p : page) (off : Z) : res Z :=
  w ← arr_get p (off / 8); mret (Z.land (Z.shiftr w (8 * (off mod 8))) 255).
Definition page_set_byte (p : page) (off b : Z) : res page :=
  w ← arr_get p (off / 8);
  let sh := 8 * (off mod 8) in
  arr_set p (off / 8) (Z.lor (Z.ldiff w (Z.shiftl 255 sh)) (Z.shiftl b sh)).

(** [for (i = lo; i < lo + n; i++)] *)
Fixpoint for_z {A} (n : nat) (i : Z) (body : Z -> A -> res A) (a : A) : res A :=
  match n with
  | O => mret a
  | Datatypes.S n => a ← body i a; for_z n (i + 1) body a
  end.

Section vmm.
Context {S : Type} {FA : FrameAlloc S}.

(** The allocator, physical memory by page address, and the registers and variables:
    CR3, CR0.WP, [g_kernel_as], [g_nxe_enabled]. *)
Record vm : Type := Vm {
  v_alloc : S;
  v_mem : gmap Z page;
  v_cr3 : Z;
  v_wp : bool;
  v_kernel_as : Z;
  v_nxe : bool
}.

Definition set_alloc (a : S) (v : vm) : vm := Vm a (v_mem v) (v_cr3 v) (v_wp v) (v_kernel_as v) (v_nxe v).
Definition set_mem (m : gmap Z page) (v : vm) : vm := Vm (v_alloc v) m (v_cr3 v) (v_wp v) (v_kernel_as v) (v_nxe v).
Definition set_cr3 (as_ : Z) (v : vm) : vm := Vm (v_alloc v) (v_mem v) as_ (v_wp v) (v_kernel_as v) (v_nxe v).

Definition vmm_as_activate (as_ : Z) (v : vm) : vm := if as_ =? 0 then v else set_cr3 as_ v.

Definition alloc_page (v : vm) : res (Z * vm) := '(f, a) ← fa_alloc (v_alloc v); mret (f, set_alloc a v).
Definition free_page (v : vm) (f : Z) : res vm := a ← fa_free (v_alloc v) f; mret (set_alloc a v).
Definition incref (v : vm) (f : Z) : res vm := a ← fa_incref (v_alloc v) f; mret (set_alloc a v).
Definition decref (v : vm) (f : Z) : res vm := '(_, a) ← fa_decref (v_alloc v) f; mret (set_alloc a v).

(** ** Physical memory *)

(** Word [i] of the page at [f], and the whole page. *)
Definition rd (v : vm) (f i : Z) : res Z := p ← of_option (v_mem v !! f); arr_get p i.
Definition wr (v : vm) (f i x : Z) : res vm :=
  p ← of_option (v_mem v !! f);
  p ← arr_set p i x;
  mret (set_mem (<[f := p]> (v_mem v)) v).
Definition rd_page (v : vm) (f : Z) : res page := of_option (v_mem v !! f).
Definition wr_page (v : vm) (f : Z) (p : page) : res vm :=
  _ ← of_option (v_mem v !! f); mret (set_mem (<[f := p]> (v_mem v)) v).

(** The page an entry points to; a fault if it is not present. *)
Definition follow (e : Z) : res Z := if has e X86_PTE_PRESENT then mret (hw_frame e) else Ub.

(** The pages behind [pae_pd_recursive(pi)] and [pae_pt_recursive(pi, di)]: entry 508 +
    [pi] of the fourth page directory, used as a page directory entry. *)
Definition pae_pd_recursive (v : vm) (pi : Z) : res Z :=
  e ← rd v (v_cr3 v) 3; pd3 ← follow e;
  e ← rd v pd3 (508 + pi); follow e.
Definition pae_pt_recursive (v : vm) (pi di : Z) : res Z :=
  pd ← pae_pd_recursive v pi; e ← rd v pd di; follow e.

(** [pd[di]] and [pt[ti]] through these pointers. *)
Definition pd_get (v : vm) (pi di : Z) : res Z := pd ← pae_pd_recursive v pi; rd v pd di.
Definition pd_set (v : vm) (pi di x : Z) : res vm := pd ← pae_pd_recursive v pi; wr v pd di x.
Definition pt_get (v : vm) (pi di ti : Z) : res Z := pt ← pae_pt_recursive v pi di; rd v pt ti.
Definition pt_set (v : vm) (pi di ti x : Z) : res vm := pt ← pae_pt_recursive v pi di; wr v pt ti x.

(** The walk of the processor: the page, and the entries of both levels; [None] when
    one is not present. *)
Definition walk (v : vm) (va : Z) : res (option (Z * Z * Z)) :=
  e ← rd v (v_cr3 v) (pae_pdpt_index va);
  if negb (has e X86_PTE_PRESENT) then mret None
  else
    pde ← rd v (hw_frame e) (pae_pd_index va);
    if negb (has pde X86_PTE_PRESENT) then mret None
    else
      pte ← rd v (hw_frame pde) (pae_pt_index va);
      if negb (has pte X86_PTE_PRESENT) then mret None else mret (Some (hw_frame pte, pde, pte)).

(** The protection check of an access. *)
Definition allowed (v : vm) (user write : bool) (pde pte : Z) : bool :=
  (negb user || (has pde X86_PTE_USER && has pte X86_PTE_USER)) &&
  (negb (write && (user || v_wp v)) || (has pde X86_PTE_RW && has pte X86_PTE_RW)).

(** The page an access goes to; [None] when it faults. *)
Definition access (v : vm) (user write : bool) (va : Z) : res (option Z) :=
  o ← walk v va;
  match o with
  | Some (f, pde, pte) => mret (if allowed v user write pde pte then Some f else None)
  | None => mret None
  end.

(** An access of the kernel that must not fault. *)
Definition kernel_page (v : vm) (write : bool) (va : Z) : res Z := o ← access v false write va; of_option o.

Definition vmm_flags_to_x86 (v : vm) (flags : Z) : Z :=
  let f := 0 in
  let f := if has flags VMM_FLAG_PRESENT then Z.lor f X86_PTE_PRESENT else f in
  let f := if has flags VMM_FLAG_RW then Z.lor f X86_PTE_RW else f in
  let f := if has flags VMM_FLAG_USER then Z.lor f X86_PTE_USER else f in
  let f := if has flags VMM_FLAG_PWT then Z.lor f X86_PTE_PWT else f in
  let f := if has flags VMM_FLAG_PCD then Z.lor f X86_PTE_PCD else f in
  let f := if has flags VMM_FLAG_COW then Z.lor f X86_PTE_COW else f in
  if has flags VMM_FLAG_NX && v_nxe v then Z.lor f X86_PTE_NX else f.

(** ** Mapping pages *)

(** The page table for [virt] in the current address space is there or allocated; false
    when there is no memory for it. *)
Definition ensure_table (v : vm) (pi di flags : Z) : res (bool * vm) :=
  e ← pd_get v pi di;
  if has e X86_PTE_PRESENT then mret (true, v)
  else
    '(pt_phys, v) ← alloc_page v;
    if pt_phys =? 0 then mret (false, v)
    else
      let pde_flags := Z.lor X86_PTE_PRESENT X86_PTE_RW in
      let pde_flags := if has flags VMM_FLAG_USER then Z.lor pde_flags X86_PTE_USER else pde_flags in
      v ← pd_set v pi di (Z.lor pt_phys pde_flags);
      v ← for_z 512 0 (fun i v => pt_set v pi di i 0) v;
      mret (true, v).

Definition vmm_map_page_nolock (v : vm) (phys virt flags : Z) : res vm :=
  let pi := pae_pdpt_index virt in
  let di := pae_pd_index virt in
  let ti := pae_pt_index virt in
  '(ok, v) ← ensure_table v pi di flags;
  if negb ok then mret v
  else
    e ← pd_get v pi di;
    v ← (if has flags VMM_FLAG_USER && negb (has e X86_PTE_USER) then pd_set v pi di (Z.lor e X86_PTE_USER) else mret v);
    pt_set v pi di ti (Z.lor (Z.land phys 4294963200) (vmm_flags_to_x86 v flags)).

Definition vmm_unmap_page_nolock (v : vm) (virt : Z) : res vm :=
  let pi := pae_pdpt_index virt in
  let di := pae_pd_index virt in
  let ti := pae_pt_index virt in
  e ← pd_get v pi di;
  if negb (has e X86_PTE_PRESENT) then mret v else pt_set v pi di ti 0.

Definition vmm_set_page_flags_nolock (v : vm) (virt flags : Z) : res vm :=
  let pi := pae_pdpt_index virt in
  let di := pae_pd_index virt in
  let ti := pae_pt_index virt in
  e ← pd_get v pi di;
  if negb (has e X86_PTE_PRESENT) then mret v
  else
    pte ← pt_get v pi di ti;
    if negb (has pte X86_PTE_PRESENT) then mret v
    else pt_set v pi di ti (Z.lor (Z.land pte 4503599627366400) (vmm_flags_to_x86 v flags)).

Definition vmm_as_map_page_nolock (v : vm) (as_ phys virt flags : Z) : res vm :=
  if as_ =? 0 then mret v
  else
    let old_as := v_cr3 v in
    if negb (old_as =? as_) then
      v ← vmm_map_page_nolock (vmm_as_activate as_ v) phys virt flags;
      mret (vmm_as_activate old_as v)
    else vmm_map_page_nolock v phys virt flags.

Definition vmm_virt_to_phys (v : vm) (virt : Z) : res Z :=
  let pi := pae_pdpt_index virt in
  let di := pae_pd_index virt in
  let ti := pae_pt_index virt in
  e ← pd_get v pi di;
  if negb (has e X86_PTE_PRESENT) then mret 0
  else
    pte ← pt_get v pi di ti;
    if negb (has pte X86_PTE_PRESENT) then mret 0 else mret (u32 (Z.land pte (u64 (Z.lnot 4095)))).

(** [for (va = start;; va += 0x1000) { vmm_set_page_flags(va, flags); if (va == end) break; }] *)
Fixpoint protect_loop (fuel : nat) (v : vm) (va end_ flags : Z) : res vm :=
  match fuel with
  | O => NoFuel
  | Datatypes.S f =>
      v ← vmm_set_page_flags_nolock v va flags;
      if va =? end_ then mret v else protect_loop f v (u64 (va + 4096)) end_ flags
  end.

Definition vmm_protect_range (v : vm) (vaddr len flags : Z) : res vm :=
  if len =? 0 then mret v
  else
    let start := Z.land vaddr (u64 (Z.lnot 4095)) in
    let end_ := Z.land (u64 (vaddr + len - 1)) (u64 (Z.lnot 4095)) in
    protect_loop (Datatypes.S (Z.to_nat ((end_ - start) / 4096))) v start end_ (Z.lor flags VMM_FLAG_PRESENT).

(** ** Address spaces *)

Definition TMP_VA : Z := 3221217280.
Definition TMP_COW_VA : Z := 3221213184.

(** The kernel's stores through a temporary mapping: a word, and [memset]. *)
Definition kernel_wr (v : vm) (va i x : Z) : res vm := f ← kernel_page v true va; wr v f i x.
Definition kernel_zero (v : vm) (va : Z) : res vm := f ← kernel_page v true va; wr_page v f zero_page.
(** [memcpy(dst, src, 4096)] for two page addresses *)
Definition kernel_copy_page (v : vm) (dst src : Z) : res vm :=
  s ← kernel_page v false src;
  p ← rd_page v s;
  d ← kernel_page v true dst;
  wr_page v d p.

(** [pmm_free_page] for each address of the list. *)
Fixpoint free_pages (v : vm) (l : list Z) : res vm :=
  match l with [] => mret v | f :: l => v ← free_page v f; free_pages v l end.

(** The four page directories; those allocated are freed again when one fails. *)
Fixpoint alloc_dirs (n : nat) (v : vm) (done : list Z) : res (option (list Z) * vm) :=
  match n with
  | O => mret (Some done, v)
  | Datatypes.S n =>
      '(f, v) ← alloc_page v;
      if f =? 0 then v ← free_pages v done; mret (None, v)
      else alloc_dirs n v (done ++ [f])
  end.

Definition fill_pdpt (v : vm) (pdpt_phys : Z) (pd_phys : list Z) : res vm :=
  v ← vmm_map_page_nolock v pdpt_phys TMP_VA (Z.lor VMM_FLAG_PRESENT VMM_FLAG_RW);
  v ← kernel_zero v TMP_VA;
  v ← for_z 4 0 (fun i v => d ← of_option (pd_phys !! Z.to_nat i); kernel_wr v TMP_VA i (Z.lor d 1)) v;
  vmm_unmap_page_nolock v TMP_VA.

Definition fill_pd (v : vm) (pd_phys : list Z) (i : Z) : res vm :=
  d ← of_option (pd_phys !! Z.to_nat i);
  v ← vmm_map_page_nolock v d TMP_VA (Z.lor VMM_FLAG_PRESENT VMM_FLAG_RW);
  v ← kernel_zero v TMP_VA;
  v ← (if i =? 3 then
         v ← for_z 512 0 (fun j v => e ← pd_get v 3 j; kernel_wr v TMP_VA j e) v;
         for_z 4 0 (fun j v => d ← of_option (pd_phys !! Z.to_nat j);
                     kernel_wr v TMP_VA (508 + j) (Z.lor (Z.lor d X86_PTE_PRESENT) X86_PTE_RW)) v
       else mret v);
  vmm_unmap_page_nolock v TMP_VA.

Definition vmm_as_create_kernel_clone (v : vm) : res (Z * vm) :=
  '(pdpt_phys, v) ← alloc_page v;
  if pdpt_phys =? 0 then mret (0, v)
  else
    '(o, v) ← alloc_dirs 4 v [];
    match o with
    | None => v ← free_page v pdpt_phys; mret (0, v)
    | Some pd_phys =>
        v ← fill_pdpt v pdpt_phys pd_phys;
        v ← for_z 4 0 (fun i v => fill_pd v pd_phys i) v;
        mret (pdpt_phys, v)
    end.

(** The body of the loops of [vmm_as_destroy]: one entry of a page table, one page
    table. *)
Definition destroy_pte (pi di ti : Z) (v : vm) : res vm :=
  pte ← pt_get v pi di ti;
  if negb (has pte X86_PTE_PRESENT) then mret v
  else v ← free_page v (entry_frame pte); pt_set v pi di ti 0.

Definition destroy_pde (pi di : Z) (v : vm) : res vm :=
  pde ← pd_get v pi di;
  if negb (has pde X86_PTE_PRESENT) then mret v
  else
    v ← for_z 512 0 (destroy_pte pi di) v;
    v ← free_page v (entry_frame pde);
    pd_set v pi di 0.

Definition vmm_as_destroy (v : vm) (as_ : Z) : res vm :=
  if as_ =? 0 then mret v
  else if as_ =? v_kernel_as v then mret v
  else
    let old_as := v_cr3 v in
    let v := vmm_as_activate as_ v in
    v ← for_z 3 0 (fun pi => for_z 512 0 (destroy_pde pi)) v;
    e0 ← pd_get v 3 508; e1 ← pd_get v 3 509; e2 ← pd_get v 3 510; e3 ← pd_get v 3 511;
    let v := vmm_as_activate old_as v in
    v ← free_pages v (filter (fun f => f <> 0) (map entry_frame [e0; e1; e2; e3]));
    free_page v as_.

(** ** Copy on write *)

(** One entry of the loop of [vmm_as_clone_user_cow]. *)
Definition clone_pte (new_as pi di ti : Z) (v : vm) : res vm :=
  pte ← pt_get v pi di ti;
  if negb (has pte X86_PTE_PRESENT) then mret v
  else if negb (has pte X86_PTE_USER) then mret v
  else
    let frame_phys := entry_frame pte in
    let va := Z.lor (Z.lor (Z.shiftl pi 30) (Z.shiftl di 21)) (Z.shiftl ti 12) in
    let new_pte := Z.lor (Z.lor frame_phys X86_PTE_PRESENT) X86_PTE_USER in
    let new_pte := if has pte X86_PTE_RW
                   then (let new_pte := Z.lor new_pte X86_PTE_COW in
                         if has pte X86_PTE_NX then Z.lor new_pte X86_PTE_NX else new_pte)
                   else pte in
    v ← (if has pte X86_PTE_RW then pt_set v pi di ti new_pte else mret v);
    v ← incref v frame_phys;
    vmm_as_map_page_nolock v new_as frame_phys va
      (Z.lor (Z.lor (Z.lor VMM_FLAG_PRESENT VMM_FLAG_USER) (if has new_pte X86_PTE_COW then VMM_FLAG_COW else 0))
        (if has new_pte X86_PTE_NX then VMM_FLAG_NX else 0)).

Definition clone_pde (new_as pi di : Z) (v : vm) : res vm :=
  pde ← pd_get v pi di;
  if negb (has pde X86_PTE_PRESENT) then mret v else for_z 512 0 (clone_pte new_as pi di) v.

Definition vmm_as_clone_user_cow (v : vm) (src_as : Z) : res (Z * vm) :=
  if src_as =? 0 then mret (0, v)
  else
    '(new_as, v) ← vmm_as_create_kernel_clone v;
    if new_as =? 0 then mret (0, v)
    else
      let old_as := v_cr3 v in
      let v := vmm_as_activate src_as v in
      v ← for_z 3 0 (fun pi => for_z 512 0 (clone_pde new_as pi)) v;
      mret (new_as, vmm_as_activate old_as v).

Definition vmm_handle_cow_fault (v : vm) (fault_addr : Z) : res (Z * vm) :=
  let va := Z.land fault_addr (u32 (Z.lnot 4095)) in
  let pi := pae_pdpt_index va in
  let di := pae_pd_index va in
  let ti := pae_pt_index va in
  if PAE_USER_PDPT_MAX <=? pi then mret (0, v)
  else
    e ← pd_get v pi di;
    if negb (has e X86_PTE_PRESENT) then mret (0, v)
    else
      pte ← pt_get v pi di ti;
      if negb (has pte X86_PTE_PRESENT) then mret (0, v)
      else if negb (has pte X86_PTE_COW) then mret (0, v)
      else
        let old_frame := entry_frame pte in
        rc ← fa_refcount (v_alloc v) old_frame;
        let rc := u16 rc in
        let nx := Z.land pte X86_PTE_NX in
        let writable f := Z.lor (Z.lor (Z.lor (Z.lor f X86_PTE_PRESENT) X86_PTE_RW) X86_PTE_USER) nx in
        if rc <=? 1 then v ← pt_set v pi di ti (writable old_frame); mret (1, v)
        else
          '(new_frame, v) ← alloc_page v;
          if new_frame =? 0 then mret (0, v)
          else
            v ← vmm_map_page_nolock v new_frame TMP_COW_VA (Z.lor VMM_FLAG_PRESENT VMM_FLAG_RW);
            v ← kernel_copy_page v TMP_COW_VA va;
            v ← vmm_unmap_page_nolock v TMP_COW_VA;
            v ← decref v old_frame;
            v ← pt_set v pi di ti (writable new_frame);
            mret (1, v).

(** ** Free areas *)

Definition page_mapped (v : vm) (va : Z) : res bool :=
  e ← pd_get v (pae_pdpt_index va) (pae_pd_index va);
  if has e X86_PTE_PRESENT then
    pte ← pt_get v (pae_pdpt_index va) (pae_pd_index va) (pae_pt_index va);
    mret (has pte X86_PTE_PRESENT)
  else mret false.

Fixpoint find_loop (fuel : nat) (v : vm) (va end_ pages_needed run_start run_len : Z) : res Z :=
  match fuel with
  | O => NoFuel
  | Datatypes.S f =>
      if negb (va <? end_) then mret 0
      else
        mapped ← page_mapped v va;
        if negb mapped then
          let run_start := if run_len =? 0 then va else run_start in
          let run_len := u32 (run_len + 1) in
          if pages_needed <=? run_len then mret run_start
          else find_loop f v (u32 (va + 4096)) end_ pages_needed run_start run_len
        else find_loop f v (u32 (va + 4096)) end_ pages_needed run_start 0
  end.

Definition vmm_find_free_area (v : vm) (start end_ length : Z) : res Z :=
  if length =? 0 then mret 0
  else
    let pages_needed := Z.shiftr (u32 (length + 4095)) 12 in
    let run_start := Z.land start (u32 (Z.lnot 4095)) in
    find_loop (Datatypes.S (Z.to_nat ((end_ - run_start + 4095) / 4096))) v run_start end_ pages_needed run_start 0.

(** [nxe] is what [check_nxe_enabled] reads from the processor. *)
Definition vmm_init (v : vm) (nxe : bool) : res vm :=
  let v := Vm (v_alloc v) (v_mem v) (v_cr3 v) (v_wp v) (v_cr3 v) nxe in
  vmm_map_page_nolock v 753664 3221979136 (Z.lor VMM_FLAG_PRESENT VMM_FLAG_RW).

(** ** Accesses to the memory of a process *)

(** A byte store, with the page faults it causes: a fault that the handler resolves
    repeats the instruction.  [None]: the fault is not resolved, which is SIGSEGV for
    the process and the recovery point of [copy_to_user] for the kernel. *)
Fixpoint store_retry (fuel : nat) (v : vm) (user : bool) (va b : Z) : res (option unit * vm) :=
  match fuel with
  | O => NoFuel
  | Datatypes.S fuel =>
      o ← access v user true va;
      match o with
      | Some f =>
          p ← rd_page v f;
          p ← page_set_byte p (va mod 4096) b;
          v ← wr_page v f p;
          mret (Some tt, v)
      | None =>
          '(r, v) ← vmm_handle_cow_fault v va;
          if r =? 0 then mret (None, v) else store_retry fuel v user va b
      end
  end.

Definition user_store (v : vm) (va b : Z) : res (option unit * vm) := store_retry 2 v true va b.

(** A byte load: a fault of a load is never resolved. *)
Definition load (v : vm) (user : bool) (va : Z) : res (option Z) :=
  o ← access v user false va;
  match o with
  | Some f => p ← rd_page v f; b ← page_byte p (va mod 4096); mret (Some b)
  | None => mret None
  end.

Definition user_load (v : vm) (va : Z) : res (option Z) := load v true va.

Definition KERNEL_VIRT_BASE : Z := 3221225472.

Definition x86_user_range_basic_ok (uaddr len : Z) : bool :=
  if len =? 0 then true
  else if uaddr =? 0 then false
  else if KERNEL_VIRT_BASE <=? uaddr then false
  else
    let end_ := u32 (uaddr + len - 1) in
    if end_ <? uaddr then false else negb (KERNEL_VIRT_BASE <=? end_).

Definition x86_user_page_present_and_user (v : vm) (vaddr : Z) : res bool :=
  let pi := Z.land (Z.shiftr vaddr 30) 3 in
  let di := Z.land (Z.shiftr vaddr 21) 511 in
  let ti := Z.land (Z.shiftr vaddr 12) 511 in
  pde ← pd_get v pi di;
  if negb (has pde 1) then mret false
  else if negb (has pde 4) then mret false
  else
    pte ← pt_get v pi di ti;
    if negb (has pte 1) then mret false
    else if negb (has pte 4) then mret false else mret true.

Definition x86_user_page_writable_user (v : vm) (vaddr : Z) : res bool :=
  let pi := Z.land (Z.shiftr vaddr 30) 3 in
  let di := Z.land (Z.shiftr vaddr 21) 511 in
  let ti := Z.land (Z.shiftr vaddr 12) 511 in
  pde ← pd_get v pi di;
  if negb (has pde 1) then mret false
  else if negb (has pde 4) then mret false
  else
    pte ← pt_get v pi di ti;
    if negb (has pte 1) then mret false
    else if negb (has pte 4) then mret false
    else if has pte 2 then mret true
    else if has pte 512 then mret true else mret false.

(** [for (va = start;; va += 0x1000) { if (!page(va)) return 0; if (va == end) break; }] *)
Fixpoint range_loop (fuel : nat) (ok : Z -> res bool) (va end_ : Z) : res bool :=
  match fuel with
  | O => NoFuel
  | Datatypes.S fuel =>
      b ← ok va;
      if negb b then mret false
      else if va =? end_ then mret true else range_loop fuel ok (u32 (va + 4096)) end_
  end.

Definition range_check (ok : Z -> res bool) (uaddr len : Z) : res bool :=
  if negb (x86_user_range_basic_ok uaddr len) then mret false
  else if len =? 0 then mret true
  else
    let start := Z.land uaddr (u32 (Z.lnot 4095)) in
    let end_ := Z.land (u32 (uaddr + len - 1)) (u32 (Z.lnot 4095)) in
    range_loop (Datatypes.S (Z.to_nat ((end_ - start) / 4096))) ok start end_.

Definition x86_user_range_mapped_and_user (v : vm) (uaddr len : Z) : res bool :=
  range_check (x86_user_page_present_and_user v) uaddr len.
Definition x86_user_range_writable_user (v : vm) (uaddr len : Z) : res bool :=
  range_check (x86_user_page_writable_user v) uaddr len.

Definition EFAULT : Z := 14.

(** The bytes of [copy_to_user], one store each. *)
Fixpoint put_user_bytes (v : vm) (up : Z) (src : list Z) : res (Z * vm) :=
  match src with
  | [] => mret (0, v)
  | b :: src =>
      '(o, v) ← store_retry 2 v false up b;
      match o with Some _ => put_user_bytes v (up + 1) src | None => mret (- EFAULT, v) end
  end.

Definition copy_to_user (v : vm) (dst_user : Z) (src : list Z) : res (Z * vm) :=
  if Z.of_nat (length src) =? 0 then mret (0, v)
  else
    ok ← x86_user_range_writable_user v dst_user (Z.of_nat (length src));
    if negb ok then mret (- EFAULT, v) else put_user_bytes v dst_user src.

Fixpoint get_user_bytes (v : vm) (n : nat) (up : Z) : res (option (list Z)) :=
  match n with
  | O => mret (Some [])
  | Datatypes.S n =>
      o ← load v false up;
      match o with
      | Some b => r ← get_user_bytes v n (up + 1); mret (cons b <$> r)
      | None => mret None
      end
  end.

(** [None]: [-EFAULT]. *)
Definition copy_from_user (v : vm) (src_user len : Z) : res (option (list Z)) :=
  if len =? 0 then mret (Some [])
  else
    ok ← x86_user_range_mapped_and_user v src_user len;
    if negb ok then mret None else get_user_bytes v (Z.to_nat len) src_user.
End vmm.
Arguments vm S : clear implicits.
