(* ===== verification/VmmInv.v ===== *)
(** The page tables in physical memory: the arithmetic of page table entries and of the
    indices of a virtual address, which page holds which table, and what each access
    through the recursive mapping reads and writes. *)

From S2P Require Import Prelude Frames Vmm.

(** ** Flags *)

Lemma has_lor a b k : has (Z.lor a b) k = has a k || has b k.
Proof.
  unfold has. rewrite Z.land_lor_distr_l. destruct (Z.land a k =? 0) eqn:Ea, (Z.land b k =? 0) eqn:Eb; simpl;
    repeat match goal with H : (_ =? _) = true |- _ => apply Z.eqb_eq in H as -> | H : (_ =? _) = false |- _ => apply Z.eqb_neq in H end.
  - reflexivity.
  - rewrite Z.lor_0_l. apply negb_true_iff, Z.eqb_neq. auto.
  - rewrite Z.lor_0_r. apply negb_true_iff, Z.eqb_neq. auto.
  - apply negb_true_iff, Z.eqb_neq. intros [? ?]%Z.lor_eq_0_iff. auto.
Qed.

Lemma has_land a k k' : has (Z.land a k) k' = has a (Z.land k k').
Proof. unfold has. rewrite Z.land_assoc. reflexivity. Qed.

(** The address of a frame has no bits below 12. *)
Lemma land_frame f k : 0 <= k < 4096 -> Z.land (f * 4096) k = 0.
Proof.
  intros Hk. apply Z.bits_inj'. intros n Hn. rewrite Z.land_spec, Z.bits_0.
  change 4096 with (2 ^ 12) in *. rewrite <- Z.shiftl_mul_pow2 by lia.
  destruct (Z.lt_ge_cases n 12) as [Hlt|Hge].
  - rewrite Z.shiftl_spec_low by lia. reflexivity.
  - replace k with (k mod 2 ^ 12) by (apply Z.mod_small; lia). rewrite Z.mod_pow2_bits_high by lia. apply andb_false_r.
Qed.

Lemma has_frame f k : 0 <= k < 4096 -> has (f * 4096) k = false.
Proof. intros. unfold has. rewrite land_frame by auto. reflexivity. Qed.

Lemma has_frame_nx f : 0 <= f < 1048576 -> has (f * 4096) X86_PTE_NX = false.
Proof.
  intros Hf. unfold has. apply negb_false_iff, Z.eqb_eq, Z.bits_inj'. intros n Hn. rewrite Z.land_spec, Z.bits_0.
  change X86_PTE_NX with (2 ^ 63). destruct (Z.eq_dec n 63) as [->|].
  - replace (f * 4096) with ((f * 4096) mod 2 ^ 32) by (apply Z.mod_small; lia). rewrite Z.mod_pow2_bits_high by lia. reflexivity.
  - rewrite Z.pow2_bits_false by lia. apply andb_false_r.
Qed.

Lemma land_window f lo n : 0 <= lo -> 0 <= f < 2 ^ n -> Z.land (f * 2 ^ lo) (Z.ones n * 2 ^ lo) = f * 2 ^ lo.
Proof.
  intros Hl Hf. assert (0 <= n) by (destruct (Z.lt_ge_cases n 0); [rewrite Z.pow_neg_r in Hf by lia; lia|lia]).
  rewrite <- !Z.shiftl_mul_pow2 by lia. rewrite <- Z.shiftl_land, Z.land_ones by lia. rewrite Z.mod_small; auto.
Qed.

Lemma hw_frame_addr f : 0 <= f < 1048576 -> hw_frame (f * 4096) = f * 4096.
Proof. intros. apply (land_window f 12 40); lia. Qed.
Lemma entry_frame_addr f : 0 <= f < 1048576 -> entry_frame (f * 4096) = f * 4096.
Proof. intros. apply (land_window f 12 20); lia. Qed.

Lemma hw_frame_lor a b : hw_frame (Z.lor a b) = Z.lor (hw_frame a) (hw_frame b).
Proof. apply Z.land_lor_distr_l. Qed.
Lemma entry_frame_lor a b : entry_frame (Z.lor a b) = Z.lor (entry_frame a) (entry_frame b).
Proof. apply Z.land_lor_distr_l. Qed.

(** A word of flags only. *)
Definition flags_only (x : Z) : Prop := hw_frame x = 0 /\ entry_frame x = 0.

Lemma flags_only_lor a b : flags_only a -> flags_only b -> flags_only (Z.lor a b).
Proof. intros [A1 A2] [B1 B2]. split; [rewrite hw_frame_lor, A1, B1|rewrite entry_frame_lor, A2, B2]; reflexivity. Qed.

Lemma hw_frame_entry f x : 0 <= f < 1048576 -> flags_only x -> hw_frame (Z.lor (f * 4096) x) = f * 4096.
Proof. intros Hf [E _]. rewrite hw_frame_lor, E, hw_frame_addr by auto. apply Z.lor_0_r. Qed.
Lemma entry_frame_entry f x : 0 <= f < 1048576 -> flags_only x -> entry_frame (Z.lor (f * 4096) x) = f * 4096.
Proof. intros Hf [_ E]. rewrite entry_frame_lor, E, entry_frame_addr by auto. apply Z.lor_0_r. Qed.

Section flags.
Context {S : Type} {FA : FrameAlloc S}.
Implicit Types v : vm S.

Lemma flags_only_x86 v fl : flags_only (vmm_flags_to_x86 v fl).
Proof. unfold vmm_flags_to_x86. repeat (case_match; try (split; reflexivity)). Qed.

Lemma has_x86 v fl :
  has (vmm_flags_to_x86 v fl) X86_PTE_PRESENT = has fl VMM_FLAG_PRESENT /\
  has (vmm_flags_to_x86 v fl) X86_PTE_RW = has fl VMM_FLAG_RW /\
  has (vmm_flags_to_x86 v fl) X86_PTE_USER = has fl VMM_FLAG_USER /\
  has (vmm_flags_to_x86 v fl) X86_PTE_COW = has fl VMM_FLAG_COW /\
  has (vmm_flags_to_x86 v fl) X86_PTE_NX = has fl VMM_FLAG_NX && v_nxe v.
Proof. unfold vmm_flags_to_x86. repeat (case_match; try (repeat split; reflexivity)). Qed.
End flags.

(** ** Indices *)

Lemma pdpt_index_div va : 0 <= va < 4294967296 -> pae_pdpt_index va = va / 1073741824.
Proof.
  intros H. unfold pae_pdpt_index. rewrite Z.shiftr_div_pow2 by lia. change 3 with (Z.ones 2). rewrite Z.land_ones by lia.
  change (2 ^ 30) with 1073741824. change (2 ^ 2) with 4. apply Z.mod_small.
  split; [apply Z.div_pos; lia|apply Z.div_lt_upper_bound; lia].
Qed.
Lemma pd_index_div va : pae_pd_index va = va / 2097152 mod 512.
Proof. unfold pae_pd_index. rewrite Z.shiftr_div_pow2 by lia. change 511 with (Z.ones 9). rewrite Z.land_ones by lia. reflexivity. Qed.
Lemma pt_index_div va : pae_pt_index va = va / 4096 mod 512.
Proof. unfold pae_pt_index. rewrite Z.shiftr_div_pow2 by lia. change 511 with (Z.ones 9). rewrite Z.land_ones by lia. reflexivity. Qed.

(** The page number, the slot of its page table among those of the user half. *)
Definition vpn (va : Z) : Z := va / 4096.
Definition user_va (va : Z) : Prop := 0 <= va < 3221225472.

Lemma va_indices va : user_va va ->
  0 <= pae_pdpt_index va < 3 /\ 0 <= pae_pd_index va < 512 /\ 0 <= pae_pt_index va < 512 /\
  vpn va / 512 = pae_pdpt_index va * 512 + pae_pd_index va /\ vpn va mod 512 = pae_pt_index va /\
  vpn va = (pae_pdpt_index va * 512 + pae_pd_index va) * 512 + pae_pt_index va /\ 0 <= vpn va < 786432.
Proof. unfold user_va, vpn. intros H. rewrite pdpt_index_div, pd_index_div, pt_index_div by lia. Z.to_euclidean_division_equations. lia. Qed.

(** The address of a page from its indices, as [vmm_as_clone_user_cow] builds it. *)
Lemma lor_shift a b n : 0 <= n -> 0 <= b < 2 ^ n -> Z.lor (Z.shiftl a n) b = a * 2 ^ n + b.
Proof.
  intros Hn Hb. rewrite <- Z.shiftl_mul_pow2 by lia. symmetry. apply Z.add_nocarry_lor.
  apply Z.bits_inj'. intros k Hk. rewrite Z.land_spec, Z.bits_0. destruct (Z.lt_ge_cases k n).
  - rewrite Z.shiftl_spec_low by lia. reflexivity.
  - replace b with (b mod 2 ^ n) by (apply Z.mod_small; lia). rewrite Z.mod_pow2_bits_high by lia. apply andb_false_r.
Qed.

Lemma clone_va pi di ti : 0 <= pi < 3 -> 0 <= di < 512 -> 0 <= ti < 512 ->
  Z.lor (Z.lor (Z.shiftl pi 30) (Z.shiftl di 21)) (Z.shiftl ti 12) = ((pi * 512 + di) * 512 + ti) * 4096.
Proof.
  intros Hp Hd Ht. rewrite <- Z.lor_assoc. rewrite (Z.shiftl_mul_pow2 ti) by lia.
  rewrite (lor_shift di) by (try change (2 ^ 21) with 2097152; change (2 ^ 12) with 4096; lia).
  rewrite lor_shift by (change (2 ^ 21) with 2097152; change (2 ^ 12) with 4096; change (2 ^ 30) with 1073741824; lia).
  change (2 ^ 21) with 2097152; change (2 ^ 12) with 4096; change (2 ^ 30) with 1073741824. lia.
Qed.

(** ** Loops *)

Lemma for_z_ok {A} (I : Z -> A -> Prop) n i (body : Z -> A -> res A) a :
  I i a -> (forall k a, i <= k < i + Z.of_nat n -> I k a -> exists a', body k a = Ok a' /\ I (k + 1) a') ->
  exists a', for_z n i body a = Ok a' /\ I (i + Z.of_nat n) a'.
Proof.
  revert i a. induction n as [|n IH]; intros i a Ha Hb.
  - exists a. split; [reflexivity|]. rewrite Z.add_0_r. auto.
  - destruct (Hb i a) as (a1 & E1 & H1); [lia|auto|]. destruct (IH (i + 1) a1 H1) as (a2 & E2 & H2).
    { intros k a' Hk. apply Hb. lia. }
    exists a2. simpl. rewrite E1, res_bind_ok. split; [auto|]. replace (i + Z.of_nat (Datatypes.S n)) with (i + 1 + Z.of_nat n) by lia. auto.
Qed.

(** The use of a page as a table: the top level of address space [a], its directory
    [i], its page table for slot [g] of the user half. *)
Inductive role : Type := Top (a : Z) | Dir (a i : Z) | Tab (a g : Z).

#[export] Instance role_eq_dec : EqDecision role.
Proof. solve_decision. Defined.

(** The address spaces, the pages of their tables, and the entries that are present,
    by address space and page number. *)
Record tables : Type := Tables {
  t_sp : gset Z;
  t_dir : gmap (Z * Z) Z;
  t_tab : gmap (Z * Z) Z;
  t_own : gmap Z role;
  t_pte : gmap (Z * Z) Z
}.

Definition word (m : gmap Z page) (f i : Z) : option Z :=
  match m !! f with Some p => if arr_in p i then Some (arr_at p i) else None | None => None end.
Definition points (m : gmap Z page) (f i d : Z) : Prop :=
  exists e, word m f i = Some e /\ has e X86_PTE_PRESENT = true /\ hw_frame e = d /\ entry_frame e = d.
Definition full (m : gmap Z page) (f : Z) : Prop := exists p, m !! f = Some p /\ arr_len p = 512.

(** A directory entry of the user half. *)
Definition pde_ok (G : tables) (a g e : Z) : Prop :=
  match t_tab G !! (a, g) with
  | None => has e X86_PTE_PRESENT = false
  | Some t => has e X86_PTE_PRESENT = true /\ has e X86_PTE_RW = true /\ hw_frame e = t /\ entry_frame e = t /\
      forall ti e', 0 <= ti < 512 -> t_pte G !! (a, g * 512 + ti) = Some e' -> has e' X86_PTE_USER = true -> has e X86_PTE_USER = true
  end.

Record dirs_ok (m : gmap Z page) (G : tables) : Prop := {
  dk_all a i : a ∈ t_sp G -> 0 <= i < 4 -> is_Some (t_dir G !! (a, i));
  dk_dir a i d : t_dir G !! (a, i) = Some d ->
    0 <= i < 4 /\ a ∈ t_sp G /\ t_own G !! a = Some (Top a) /\ t_own G !! d = Some (Dir a i) /\ points m a i d;
  dk_self a i d d3 : t_dir G !! (a, i) = Some d -> t_dir G !! (a, 3) = Some d3 -> points m d3 (508 + i) d
}.

(** The table a page is used as. *)
Definition registered (G : tables) (f : Z) (r : role) : Prop :=
  match r with
  | Top a => f = a /\ a ∈ t_sp G
  | Dir a i => t_dir G !! (a, i) = Some f
  | Tab a g => t_tab G !! (a, g) = Some f
  end.

Record shape (m : gmap Z page) (G : tables) : Prop := {
  sh_dirs : dirs_ok m G;
  sh_tab a g t : t_tab G !! (a, g) = Some t -> 0 <= g < 1536 /\ a ∈ t_sp G /\ t_own G !! t = Some (Tab a g);
  sh_pde a i di d : t_dir G !! (a, i) = Some d -> i < 3 -> 0 <= di < 512 ->
    exists e, word m d di = Some e /\ pde_ok G a (i * 512 + di) e;
  sh_pte a g t ti : t_tab G !! (a, g) = Some t -> 0 <= ti < 512 ->
    exists e, word m t ti = Some e /\ t_pte G !! (a, g * 512 + ti) = if has e X86_PTE_PRESENT then Some e else None;
  sh_some a n e : t_pte G !! (a, n) = Some e -> 0 <= n /\ is_Some (t_tab G !! (a, n / 512));
  sh_own f r : t_own G !! f = Some r -> exists n, f = n * 4096 /\ 0 < n < 1048576 /\ full m f;
  sh_reg f r : t_own G !! f = Some r -> registered G f r
}.

(** ** Memory *)

Lemma word_ne m f p f' i : f <> f' -> word (<[f := p]> m) f' i = word m f' i.
Proof. intros. unfold word. rewrite lookup_insert_ne by auto. reflexivity. Qed.

Lemma word_put m f p i j x :
  m !! f = Some p -> arr_len p = 512 -> 0 <= i < 512 -> word (<[f := arr_put p i x]> m) f j = if i =? j then Some x else word m f j.
Proof.
  intros Hp Hl Hi. unfold word. rewrite lookup_insert_eq, Hp. simpl. unfold arr_in. rewrite arr_len_put, arr_at_put.
  destruct (Z.eqb_spec i j); [subst; zdecide|]; reflexivity.
Qed.

Lemma word_full m f i : full m f -> 0 <= i < 512 -> is_Some (word m f i).
Proof. intros (p & E & L) Hi. unfold word. rewrite E. simpl. rewrite arr_in_true by lia. eauto. Qed.

Lemma full_insert m f f' p : arr_len p = 512 -> full m f' -> full (<[f := p]> m) f'.
Proof. intros Hl (q & E & L). destruct (decide (f = f')) as [->|]; [exists p|exists q]; rewrite ?lookup_insert_eq, ?lookup_insert_ne by auto; auto. Qed.

Section access.
Context {S : Type} {FA : FrameAlloc S}.
Implicit Types v : vm S.

Lemma rd_word v f i e : word (v_mem v) f i = Some e -> rd v f i = Ok e.
Proof.
  unfold word, rd. destruct (v_mem v !! f) as [p|]; [|discriminate]. simpl. unfold arr_get, arr_in.
  destruct (_ && _); [|discriminate]. intros [= ->]. reflexivity.
Qed.

Lemma wr_put v f p i x :
  v_mem v !! f = Some p -> arr_len p = 512 -> 0 <= i < 512 -> wr v f i x = Ok (set_mem (<[f := arr_put p i x]> (v_mem v)) v).
Proof. intros E L Hi. unfold wr. rewrite E. simpl. rewrite arr_set_ok by lia. reflexivity. Qed.

Lemma follow_points v f i d : points (v_mem v) f i d -> exists e, rd v f i = Ok e /\ follow e = Ok d.
Proof. intros (e & E & P & <- & _). exists e. unfold follow. rewrite P. auto using rd_word. Qed.

Section dirs.
Context (v : vm S) (G : tables) (H : dirs_ok (v_mem v) G) (Ha : v_cr3 v ∈ t_sp G).

Lemma pd_recursive_ok i d : t_dir G !! (v_cr3 v, i) = Some d -> pae_pd_recursive v i = Ok d.
Proof.
  intros Hd. destruct (dk_all _ _ H _ 3 Ha) as (d3 & Hd3); [lia|]. unfold pae_pd_recursive.
  destruct (dk_dir _ _ H _ _ _ Hd3) as (_ & _ & _ & _ & P3). destruct (follow_points _ _ _ _ P3) as (e & -> & F). rewrite res_bind_ok, F, res_bind_ok.
  destruct (follow_points _ _ _ _ (dk_self _ _ H _ _ _ _ Hd Hd3)) as (e' & -> & F'). auto.
Qed.

Lemma pt_recursive_word i di d e :
  t_dir G !! (v_cr3 v, i) = Some d -> word (v_mem v) d di = Some e -> has e X86_PTE_PRESENT = true -> pae_pt_recursive v i di = Ok (hw_frame e).
Proof.
  intros Hd He Hp. unfold pae_pt_recursive. rewrite (pd_recursive_ok _ _ Hd), res_bind_ok.
  rewrite (rd_word _ _ _ _ He), res_bind_ok. unfold follow. rewrite Hp. reflexivity.
Qed.
End dirs.

Section tables.
Context (v : vm S) (G : tables) (H : shape (v_mem v) G) (Ha : v_cr3 v ∈ t_sp G).
Notation a := (v_cr3 v).

Lemma pd_get_ok i di : 0 <= i < 3 -> 0 <= di < 512 ->
  exists d e, t_dir G !! (a, i) = Some d /\ word (v_mem v) d di = Some e /\ pd_get v i di = Ok e /\ pde_ok G a (i * 512 + di) e.
Proof.
  intros Hi Hdi. destruct (dk_all _ _ (sh_dirs _ _ H) a i Ha) as (d & Hd); [lia|]. destruct (sh_pde _ _ H a i di d) as (e & He & Hok); try lia; auto.
  exists d, e. unfold pd_get. rewrite (pd_recursive_ok _ _ (sh_dirs _ _ H) Ha _ _ Hd). eauto 6 using rd_word.
Qed.

Lemma pt_recursive_ok i di t : 0 <= i < 3 -> 0 <= di < 512 -> t_tab G !! (a, i * 512 + di) = Some t -> pae_pt_recursive v i di = Ok t.
Proof.
  intros Hi Hdi Ht. destruct (pd_get_ok i di) as (d & e & Hd & He & _ & Hok); auto. unfold pde_ok in Hok. rewrite Ht in Hok.
  destruct Hok as (Hp & _ & <- & _). eapply pt_recursive_word; eauto. apply H.
Qed.

Lemma pt_get_ok i di ti t : 0 <= i < 3 -> 0 <= di < 512 -> 0 <= ti < 512 -> t_tab G !! (a, i * 512 + di) = Some t ->
  exists e, word (v_mem v) t ti = Some e /\ pt_get v i di ti = Ok e /\
    t_pte G !! (a, (i * 512 + di) * 512 + ti) = if has e X86_PTE_PRESENT then Some e else None.
Proof.
  intros Hi Hdi Hti Ht. destruct (sh_pte _ _ H _ _ _ _ Ht Hti) as (e & He & Hp). exists e. unfold pt_get.
  rewrite (pt_recursive_ok i di t) by auto. rewrite res_bind_ok. auto using rd_word.
Qed.

Lemma tab_full g t : t_tab G !! (a, g) = Some t -> full (v_mem v) t.
Proof. intros Ht. destruct (sh_tab _ _ H _ _ _ Ht) as (_ & _ & Ho). destruct (sh_own _ _ H _ _ Ho) as (? & _ & _ & F). exact F. Qed.
End tables.
End access.

(** ** Changes *)

Lemma points_eq m m' f i d : m' !! f = m !! f -> points m f i d -> points m' f i d.
Proof. intros E (e & He & R). exists e. split; [|exact R]. unfold word in *. rewrite E. exact He. Qed.

(** The pages the recursive mapping goes through to reach the directories. *)
Definition upper (r : role) : Prop := match r with Top _ => True | Dir _ i => i = 3 | Tab _ _ => False end.

Lemma dirs_frame m m' G G' :
  t_sp G' = t_sp G -> t_dir G' = t_dir G ->
  (forall f r, t_own G !! f = Some r -> (forall a g, r <> Tab a g) -> t_own G' !! f = Some r) ->
  (forall f r, t_own G !! f = Some r -> upper r -> m' !! f = m !! f) ->
  dirs_ok m G -> dirs_ok m' G'.
Proof.
  intros Es Ed Eo Em H. split; rewrite ?Es, ?Ed; [apply H| |].
  - intros a i d Hd. destruct (dk_dir _ _ H _ _ _ Hd) as (? & ? & Ho & Hod & P). repeat (split; [assumption|]).
    split; [apply Eo; [auto|discriminate]|]. split; [apply Eo; [auto|discriminate]|].
    exact (points_eq _ _ _ _ _ (Em _ _ Ho Logic.I) P).
  - intros a i d d3 Hd Hd3. destruct (dk_dir _ _ H _ _ _ Hd3) as (_ & _ & _ & Ho & _).
    exact (points_eq _ _ _ _ _ (Em _ _ Ho eq_refl) (dk_self _ _ H _ _ _ _ Hd Hd3)).
Qed.

(** Pages that hold no table. *)
Lemma shape_frame m m' G : (forall f r, t_own G !! f = Some r -> m' !! f = m !! f) -> shape m G -> shape m' G.
Proof.
  intros E H. split.
  - apply (dirs_frame m _ G); auto; [eauto|apply H].
  - apply H.
  - intros a i di d Hd Hi Hdi. destruct (sh_pde _ _ H a i di d) as (e & He & Hok); auto. exists e. split; [|auto].
    destruct (dk_dir _ _ (sh_dirs _ _ H) _ _ _ Hd) as (_ & _ & _ & Ho & _). unfold word. rewrite (E _ _ Ho). exact He.
  - intros a g t ti Ht Hti. destruct (sh_pte _ _ H _ _ _ _ Ht Hti) as (e & He & Hp). exists e. split; [|auto].
    destruct (sh_tab _ _ H _ _ _ Ht) as (_ & _ & Ho). unfold word. rewrite (E _ _ Ho). exact He.
  - apply H.
  - intros f r Ho. destruct (sh_own _ _ H f r Ho) as (n & ? & ? & F). exists n. unfold full. rewrite (E _ _ Ho). auto.
  - apply (sh_reg _ _ H).
Qed.

(** An entry of a page table. *)
Definition set_pte (k : Z * Z) (x : Z) (G : tables) : tables :=
  Tables (t_sp G) (t_dir G) (t_tab G) (t_own G) (if has x X86_PTE_PRESENT then <[k := x]> (t_pte G) else delete k (t_pte G)).

Lemma set_pte_ne k x G k' : k <> k' -> t_pte (set_pte k x G) !! k' = t_pte G !! k'.
Proof. intros. simpl. destruct (has x _); [apply lookup_insert_ne|apply lookup_delete_ne]; auto. Qed.
Lemma set_pte_eq k x G : t_pte (set_pte k x G) !! k = if has x X86_PTE_PRESENT then Some x else None.
Proof. simpl. destruct (has x _); [apply lookup_insert_eq|apply lookup_delete_eq]. Qed.

Lemma shape_pte m G a g t p ti x :
  shape m G -> t_tab G !! (a, g) = Some t -> m !! t = Some p -> 0 <= ti < 512 ->
  (has x X86_PTE_PRESENT = true -> has x X86_PTE_USER = true ->
   forall d e, t_dir G !! (a, g / 512) = Some d -> word m d (g mod 512) = Some e -> has e X86_PTE_USER = true) ->
  shape (<[t := arr_put p ti x]> m) (set_pte (a, g * 512 + ti) x G).
Proof.
  intros H Ht Hp Hti Hu. destruct (sh_tab _ _ H _ _ _ Ht) as (Hg & Hsp & Ho). destruct (sh_own _ _ H _ _ Ho) as (n & _ & _ & (p' & Hp' & Hl)). simplify_eq.
  split.
  - apply (dirs_frame m _ G); auto; [|exact (sh_dirs _ _ H)]. intros f r Hf Hr. apply lookup_insert_ne. intros <-.
    rewrite Ho in Hf. injection Hf as <-. exact Hr.
  - apply H.
  - simpl. intros a' i di d Hd Hi Hdi. destruct (dk_dir _ _ (sh_dirs _ _ H) _ _ _ Hd) as (Hi' & _ & _ & Hod & _).
    destruct (sh_pde _ _ H a' i di d) as (e & He & Hok); auto. exists e. rewrite word_ne by congruence. split; [auto|].
    unfold pde_ok in *. change (t_tab (set_pte (a, g * 512 + ti) x G)) with (t_tab G). destruct (t_tab G !! (a', i * 512 + di)) as [t'|] eqn:Et; [|auto].
    destruct Hok as (? & ? & ? & ? & Hus). repeat (split; [assumption|]). intros tj e' Htj He' Hue.
    destruct (decide ((a, g * 512 + ti) = (a', (i * 512 + di) * 512 + tj))) as [[= -> E]|Hne].
    + assert (g = i * 512 + di /\ ti = tj) as [-> ->] by lia. rewrite set_pte_eq in He'. destruct (has x X86_PTE_PRESENT) eqn:Ex; [|discriminate].
      injection He' as <-. apply (Hu eq_refl Hue d e).
      * rewrite Z.div_add_l, Z.div_small, Z.add_0_r by lia. auto.
      * rewrite Z.add_comm, Z.mod_add, Z.mod_small by lia. auto.
    + rewrite set_pte_ne in He' by auto. eauto.
  - change (t_tab (set_pte (a, g * 512 + ti) x G)) with (t_tab G). intros a' g' t' tj Ht' Htj. destruct (sh_tab _ _ H _ _ _ Ht') as (_ & _ & Ho').
    destruct (sh_pte _ _ H _ _ _ _ Ht' Htj) as (e & He & Hpe). destruct (decide (t' = t)) as [->|Hne].
    + assert (a' = a /\ g' = g) as [-> ->] by (split; congruence). rewrite word_put by auto. destruct (Z.eqb_spec ti tj) as [->|].
      * exists x. split; [auto|]. apply set_pte_eq.
      * exists e. split; [auto|]. rewrite set_pte_ne by (intros [=]; lia). auto.
    + exists e. rewrite word_ne by auto. split; [auto|]. rewrite set_pte_ne; [auto|]. intros [= -> E]. assert (g = g') as -> by lia. congruence.
  - change (t_tab (set_pte (a, g * 512 + ti) x G)) with (t_tab G). intros a' n' e He. destruct (decide ((a, g * 512 + ti) = (a', n'))) as [[= -> <-]|Hne].
    + split; [lia|]. rewrite Z.div_add_l, Z.div_small, Z.add_0_r by lia. eauto.
    + rewrite set_pte_ne in He by auto. eapply (sh_some _ _ H); eauto.
  - intros f r Hf. destruct (sh_own _ _ H f r Hf) as (n' & ? & ? & F). exists n'. split; [auto|]. split; [auto|].
    apply full_insert; [rewrite arr_len_put|]; auto.
  - apply (sh_reg _ _ H).
Qed.

(** An entry of a directory of the user half. *)
Lemma shape_pde m m' G G' a i d p di e :
  shape m G -> t_dir G !! (a, i) = Some d -> i < 3 -> 0 <= di < 512 -> m !! d = Some p ->
  (forall f r, t_own G !! f = Some r -> f <> d -> m' !! f = m !! f) -> m' !! d = Some (arr_put p di e) ->
  t_sp G' = t_sp G -> t_dir G' = t_dir G -> (forall k, k <> (a, i * 512 + di) -> t_tab G' !! k = t_tab G !! k) ->
  (forall f r, t_own G !! f = Some r -> (forall a' g, r = Tab a' g -> (a', g) <> (a, i * 512 + di)) -> t_own G' !! f = Some r) ->
  t_pte G' = t_pte G -> pde_ok G' a (i * 512 + di) e ->
  (forall t, t_tab G' !! (a, i * 512 + di) = Some t -> 0 <= i /\ t_own G' !! t = Some (Tab a (i * 512 + di)) /\
     forall ti, 0 <= ti < 512 -> exists e, word m' t ti = Some e /\ t_pte G !! (a, (i * 512 + di) * 512 + ti) = if has e X86_PTE_PRESENT then Some e else None) ->
  (t_tab G' !! (a, i * 512 + di) = None -> forall ti, 0 <= ti < 512 -> t_pte G !! (a, (i * 512 + di) * 512 + ti) = None) ->
  (forall f r, t_own G' !! f = Some r -> t_own G !! f = Some r \/ (r = Tab a (i * 512 + di) /\ exists n, f = n * 4096 /\ 0 < n < 1048576 /\ full m' f)) ->
  (forall f, t_own G' !! f = Some (Tab a (i * 512 + di)) -> t_tab G' !! (a, i * 512 + di) = Some f) ->
  shape m' G'.
Proof.
  intros H Hd Hi Hdi Hp Em Emd Es Ed Et Eo Ep Hok Hnew Hnone Hfull Hreg.
  destruct (dk_dir _ _ (sh_dirs _ _ H) _ _ _ Hd) as (Hi0 & Hsp & Hoa & Hod & _).
  destruct (sh_own _ _ H _ _ Hod) as (nd & _ & _ & (p' & Hp' & Hl)). simplify_eq.
  assert (Hw : forall j, word m' d j = if di =? j then Some e else word m d j).
  { intros j. rewrite <- (word_put m d p di j e) by auto. unfold word. rewrite Emd, lookup_insert_eq. reflexivity. }
  assert (Hww : forall f r j, t_own G !! f = Some r -> f <> d -> word m' f j = word m f j).
  { intros f r j Hf Hne. unfold word. rewrite (Em f r); auto. }
  split.
  - apply (dirs_frame m _ G); auto; [| |exact (sh_dirs _ _ H)].
    + intros f r Hf Hr. apply Eo; [auto|]. intros a' g' ->. exfalso. eapply Hr. reflexivity.
    + intros f r Hf Hr. apply (Em f r); [auto|]. intros ->. rewrite Hod in Hf. injection Hf as <-. simpl in Hr. lia.
  - intros a' g' t' Ht'. rewrite Es. destruct (decide ((a', g') = (a, i * 512 + di))) as [[= -> ->]|Hne].
    + destruct (Hnew t' Ht') as (? & ? & _). split; [lia|auto].
    + rewrite Et in Ht' by auto. destruct (sh_tab _ _ H _ _ _ Ht') as (? & ? & Ho). split; [auto|]. split; [auto|].
      apply Eo; [auto|]. intros ? ? [= <- <-]. auto.
  - rewrite Ed. intros a' i' dj d' Hd' Hi' Hdj. destruct (sh_pde _ _ H a' i' dj d') as (e' & He' & Hok'); auto.
    destruct (dk_dir _ _ (sh_dirs _ _ H) _ _ _ Hd') as (_ & _ & _ & Hod' & _). destruct (decide ((a', i', dj) = (a, i, di))) as [[= -> -> ->]|Hne].
    + assert (d' = d) as -> by congruence. exists e. rewrite Hw, Z.eqb_refl. auto.
    + exists e'. split.
      * destruct (decide (d' = d)) as [->|]; [|erewrite Hww; eauto]. assert (a' = a /\ i' = i) as [-> ->] by (split; congruence).
        rewrite Hw. destruct (Z.eqb_spec di dj); [congruence|auto].
      * unfold pde_ok in *. rewrite Et, Ep; [auto|]. intros [= -> E]. apply Hne. f_equal; [f_equal|]; lia.
  - rewrite Ep. intros a' g' t' tj Ht' Htj. destruct (decide ((a', g') = (a, i * 512 + di))) as [[= -> ->]|Hne].
    + destruct (Hnew t' Ht') as (_ & _ & Hx). auto.
    + rewrite Et in Ht' by auto. destruct (sh_pte _ _ H _ _ _ _ Ht' Htj) as (x & Hx & Hpx). exists x. split; [|auto].
      destruct (sh_tab _ _ H _ _ _ Ht') as (_ & _ & Ho'). erewrite Hww; eauto. congruence.
  - rewrite Ep. intros a' n x Hx. destruct (sh_some _ _ H _ _ _ Hx) as (? & ?). split; [auto|].
    destruct (decide ((a', n / 512) = (a, i * 512 + di))) as [[= -> E]|Hne]; [|rewrite Et by auto; auto].
    rewrite E. destruct (t_tab G' !! (a, i * 512 + di)) as [t|] eqn:ET; [eauto|]. exfalso.
    specialize (Hnone eq_refl (n mod 512)). rewrite <- E in Hnone. pose proof (Z.mod_pos_bound n 512). pose proof (Z.div_mod n 512).
    replace (n / 512 * 512 + n mod 512) with n in Hnone by lia. rewrite Hnone in Hx by lia. discriminate.
  - intros f r Hf. destruct (Hfull f r Hf) as [Ho|(_ & ?)]; [|auto]. destruct (sh_own _ _ H f r Ho) as (n' & ? & ? & (q & Hq & Lq)).
    exists n'. split; [auto|]. split; [auto|]. destruct (decide (f = d)) as [->|].
    + exists (arr_put p di e). simplify_eq. rewrite arr_len_put. auto.
    + exists q. rewrite (Em f r) by auto. auto.
  - intros f r Hf. destruct (decide (r = Tab a (i * 512 + di))) as [->|Hr]; [apply Hreg, Hf|]. destruct (Hfull f r Hf) as [Ho|(? & _)]; [|contradiction].
    apply (sh_reg _ _ H) in Ho. unfold registered in *. destruct r as [b|b j|b g]; rewrite ?Es, ?Ed; auto. rewrite Et; auto. congruence.
Qed.

Lemma shape_pde_user m G a i d p di e :
  shape m G -> t_dir G !! (a, i) = Some d -> i < 3 -> 0 <= di < 512 -> m !! d = Some p -> word m d di = Some e ->
  is_Some (t_tab G !! (a, i * 512 + di)) -> shape (<[d := arr_put p di (Z.lor e X86_PTE_USER)]> m) G.
Proof.
  intros H Hd Hi Hdi Hp He [t Ht]. destruct (sh_pde _ _ H a i di d) as (e' & He' & Hok); auto. simplify_eq.
  pose proof (sh_tab _ _ H _ _ _ Ht) as (Hg & _ & Ho). destruct (dk_dir _ _ (sh_dirs _ _ H) _ _ _ Hd) as (Hi0 & _ & _ & Hod & _).
  eapply (shape_pde m _ G G a i d p di (Z.lor e X86_PTE_USER)); eauto.
  - intros f r Hf Hne. apply lookup_insert_ne. auto.
  - apply lookup_insert_eq.
  - unfold pde_ok in *. rewrite Ht in *. destruct Hok as (A & B & C & D & F). rewrite !has_lor, A, B, hw_frame_lor, entry_frame_lor, C, D.
    split; [reflexivity|]. split; [reflexivity|]. split; [apply Z.lor_0_r|]. split; [apply Z.lor_0_r|]. intros. apply orb_true_r.
  - intros t' Ht'. simplify_eq. split; [lia|]. split; [auto|]. intros ti Hti. rewrite word_ne by congruence. apply (sh_pte _ _ H); auto.
  - intros E. congruence.
  - intros f Hf. apply (sh_reg _ _ H _ _ Hf).
Qed.

(** A new page table, empty. *)
Definition add_tab (a g t : Z) (G : tables) : tables :=
  Tables (t_sp G) (t_dir G) (<[(a, g) := t]> (t_tab G)) (<[t := Tab a g]> (t_own G)) (t_pte G).

Lemma shape_add_tab m G a i d p di n fl z :
  shape m G -> t_dir G !! (a, i) = Some d -> i < 3 -> 0 <= di < 512 -> m !! d = Some p ->
  t_tab G !! (a, i * 512 + di) = None -> t_own G !! (n * 4096) = None -> 0 < n < 1048576 -> fl = 3 \/ fl = 7 ->
  arr_len z = 512 -> (forall k, 0 <= k < 512 -> arr_at z k = 0) ->
  shape (<[n * 4096 := z]> (<[d := arr_put p di (Z.lor (n * 4096) fl)]> m)) (add_tab a (i * 512 + di) (n * 4096) G).
Proof.
  intros H Hd Hi Hdi Hp Ht Hfresh Hn Hfl Hlz Hz. destruct (dk_dir _ _ (sh_dirs _ _ H) _ _ _ Hd) as (Hi0 & _ & _ & Hod & _).
  assert (Hnone : forall ti, 0 <= ti < 512 -> t_pte G !! (a, (i * 512 + di) * 512 + ti) = None).
  { intros ti Hti. destruct (t_pte G !! _) eqn:E; [|reflexivity]. apply (sh_some _ _ H) in E as (_ & [t E]).
    rewrite Z.div_add_l, Z.div_small, Z.add_0_r in E by lia. congruence. }
  assert (Hfo : flags_only fl) by (destruct Hfl as [-> | ->]; split; reflexivity).
  eapply (shape_pde m _ G); eauto; simpl.
  - intros f r Hf Hne. rewrite !lookup_insert_ne by congruence. reflexivity.
  - rewrite lookup_insert_ne, lookup_insert_eq by congruence. reflexivity.
  - intros k Hk. apply lookup_insert_ne. auto.
  - intros f r Hf _. rewrite lookup_insert_ne by congruence. auto.
  - unfold pde_ok. simpl. rewrite lookup_insert_eq. rewrite !has_lor, !has_frame, hw_frame_entry, entry_frame_entry by (auto; lia || (unfold X86_PTE_PRESENT, X86_PTE_RW; lia)).
    split; [destruct Hfl as [-> | ->]; reflexivity|]. split; [destruct Hfl as [-> | ->]; reflexivity|]. split; [reflexivity|]. split; [reflexivity|].
    intros ti e' Hti He'. rewrite Hnone in He' by auto. discriminate.
  - rewrite lookup_insert_eq. intros t [= <-]. split; [lia|]. split; [apply lookup_insert_eq|]. intros ti Hti. exists 0. split.
    + unfold word. rewrite lookup_insert_eq. simpl. rewrite arr_in_true, Hz by lia. reflexivity.
    + apply Hnone. auto.
  - intros f r H0. destruct (decide (f = n * 4096)) as [->|]; [right|rewrite lookup_insert_ne in H0 by auto; auto].
    rewrite lookup_insert_eq in H0. injection H0 as <-. split; [auto|]. exists n. split; [auto|]. split; [auto|]. exists z. rewrite lookup_insert_eq. auto.
  - intros f. destruct (decide (f = n * 4096)) as [->|]; [intros _; apply lookup_insert_eq|]. rewrite lookup_insert_ne by auto. intros Hf%(sh_reg _ _ H). simpl in Hf. congruence.
Qed.

(** A page table without entries goes. *)
Definition del_tab (a g t : Z) (G : tables) : tables :=
  Tables (t_sp G) (t_dir G) (delete (a, g) (t_tab G)) (delete t (t_own G)) (t_pte G).

Lemma shape_del_tab m G a i d p di t :
  shape m G -> t_dir G !! (a, i) = Some d -> i < 3 -> 0 <= di < 512 -> m !! d = Some p -> t_tab G !! (a, i * 512 + di) = Some t ->
  (forall ti, 0 <= ti < 512 -> t_pte G !! (a, (i * 512 + di) * 512 + ti) = None) ->
  shape (<[d := arr_put p di 0]> m) (del_tab a (i * 512 + di) t G).
Proof.
  intros H Hd Hi Hdi Hp Ht Hnone. pose proof (sh_tab _ _ H _ _ _ Ht) as (Hg & _ & Ho).
  eapply (shape_pde m _ G); eauto; simpl.
  - intros f r Hf Hne. apply lookup_insert_ne. auto.
  - apply lookup_insert_eq.
  - intros k Hk. apply lookup_delete_ne. auto.
  - intros f r Hf Hr. rewrite lookup_delete_ne; [auto|]. intros <-. rewrite Ho in Hf. injection Hf as <-. eapply Hr; reflexivity.
  - unfold pde_ok. simpl. rewrite lookup_delete_eq. reflexivity.
  - rewrite lookup_delete_eq. discriminate.
  - intros f r [_ Hf]%lookup_delete_Some. auto.
  - intros f [Hne Hf]%lookup_delete_Some. apply (sh_reg _ _ H) in Hf. simpl in Hf. congruence.
Qed.

(** A new address space with empty user directories. *)
Definition add_space (a d0 d1 d2 d3 : Z) (G : tables) : tables :=
  Tables ({[a]} ∪ t_sp G)
    (<[(a, 0) := d0]> (<[(a, 1) := d1]> (<[(a, 2) := d2]> (<[(a, 3) := d3]> (t_dir G)))))
    (t_tab G)
    (<[a := Top a]> (<[d0 := Dir a 0]> (<[d1 := Dir a 1]> (<[d2 := Dir a 2]> (<[d3 := Dir a 3]> (t_own G))))))
    (t_pte G).

Section add_space.
Context (m : gmap Z page) (G : tables) (a d0 d1 d2 d3 : Z).
Context (H : shape m G) (Hsp : a ∉ t_sp G) (Hnd : NoDup [a; d0; d1; d2; d3]).
Context (Hfresh : forall f, f ∈ [a; d0; d1; d2; d3] -> t_own G !! f = None /\ exists n, f = n * 4096 /\ 0 < n < 1048576 /\ full m f).
Context (Hptop : forall i d, [d0; d1; d2; d3] !! Z.to_nat i = Some d -> 0 <= i -> points m a i d /\ points m d3 (508 + i) d).
Context (Hempty : forall d k, d ∈ [d0; d1; d2] -> 0 <= k < 512 -> word m d k = Some 0).
Notation G' := (add_space a d0 d1 d2 d3 G).

Lemma add_dir_inv a' i d : t_dir G' !! (a', i) = Some d ->
  a' = a /\ 0 <= i < 4 /\ [d0; d1; d2; d3] !! Z.to_nat i = Some d /\ t_own G' !! d = Some (Dir a i) \/ a' <> a /\ t_dir G !! (a', i) = Some d.
Proof.
  simpl. intros Hd. repeat setoid_rewrite NoDup_cons in Hnd. set_unfold in Hnd. destruct (decide (a' = a)) as [->|Hne].
  - left. split; [auto|]. repeat (apply lookup_insert_Some in Hd as [[[= <-] <-]|[_ Hd]];
      [split; [lia|]; split; [reflexivity|]; repeat (rewrite lookup_insert_ne by intuition congruence); apply lookup_insert_eq|]).
    exfalso. apply (dk_dir _ _ (sh_dirs _ _ H)) in Hd. tauto.
  - right. split; [auto|]. rewrite !lookup_insert_ne in Hd by congruence. auto.
Qed.

Lemma add_own_old f r : t_own G !! f = Some r -> t_own G' !! f = Some r.
Proof.
  intros Hf. simpl. assert (f ∉ [a; d0; d1; d2; d3]) as Hn by (intros Hin; apply Hfresh in Hin as [? _]; congruence).
  set_unfold in Hn. rewrite !lookup_insert_ne by (intros ->; tauto). auto.
Qed.

Lemma add_own_inv f r : t_own G' !! f = Some r -> f ∈ [a; d0; d1; d2; d3] \/ t_own G !! f = Some r.
Proof. simpl. intros Hf. repeat (apply lookup_insert_Some in Hf as [[<- _]|[_ Hf]]; [left; clear; set_solver|]). auto. Qed.

Lemma add_dirs_ok : dirs_ok m G'.
Proof.
  pose proof H. pose proof Hnd. pose proof Hptop. split.
  - intros a' i Ha' Hi. simpl in *. apply elem_of_union in Ha' as [->%elem_of_singleton|Ha'].
    + assert (i = 0 \/ i = 1 \/ i = 2 \/ i = 3) as [-> | [-> | [-> | ->]]] by lia;
        repeat (first [rewrite lookup_insert_eq; eauto; fail|rewrite lookup_insert_ne by congruence]).
    + rewrite !lookup_insert_ne by (intros [= -> _]; auto). apply (sh_dirs _ _ H); auto.
  - intros a' i d Hd. apply add_dir_inv in Hd as [(-> & Hi & Hl & Ho)|(Hne & Hd)].
    + split; [auto|]. split; [simpl; set_solver|]. split; [apply lookup_insert_eq|]. split; [exact Ho|]. apply Hptop; [auto|lia].
    + destruct (dk_dir _ _ (sh_dirs _ _ H) _ _ _ Hd) as (? & ? & ? & ? & ?). split; [auto|]. split; [simpl; set_solver|].
      split; [apply add_own_old; auto|]. split; [apply add_own_old; auto|]. auto.
  - intros a' i d d3' Hd Hd3. apply add_dir_inv in Hd as [(-> & Hi & Hl & Ho)|(Hne & Hd)]; apply add_dir_inv in Hd3 as [(? & _ & Hl3 & _)|(? & Hd3)]; try congruence.
    + simpl in Hl3. injection Hl3 as <-. apply Hptop; [auto|lia].
    + eapply (dk_self _ _ (sh_dirs _ _ H)); eauto.
Qed.

Lemma add_no_tab g : t_tab G !! (a, g) = None.
Proof. destruct (t_tab G !! (a, g)) eqn:E; [|reflexivity]. apply (sh_tab _ _ H) in E. tauto. Qed.

Lemma shape_add_space : shape m G'.
Proof.
  pose proof H. pose proof Hempty. pose proof add_no_tab. split.
  - apply add_dirs_ok.
  - intros a' g t Ht. destruct (sh_tab _ _ H _ _ _ Ht) as (? & ? & ?). split; [auto|]. split; [simpl; set_solver|apply add_own_old; auto].
  - intros a' i di d Hd Hi Hdi. apply add_dir_inv in Hd as [(-> & Hi' & Hl & Ho)|(Hne & Hd)].
    + exists 0. split; [|unfold pde_ok; simpl; rewrite add_no_tab; reflexivity].
      assert (d ∈ [d0; d1; d2]); [|auto]. assert (i = 0 \/ i = 1 \/ i = 2) as [-> | [-> | ->]] by lia; simpl in Hl; injection Hl as <-; set_solver.
    + apply (sh_pde _ _ H); auto.
  - apply (sh_pte _ _ H).
  - apply (sh_some _ _ H).
  - intros f r Hf. apply add_own_inv in Hf as [Hf|Hf]; [apply Hfresh, Hf|apply (sh_own _ _ H _ _ Hf)].
  - intros f r. pose proof Hnd as Hd. repeat setoid_rewrite NoDup_cons in Hd. set_unfold in Hd. simpl. intros Hf.
    repeat (apply lookup_insert_Some in Hf as [[<- <-]|[_ Hf]];
      [simpl; first [split; [reflexivity|set_solver]|repeat (first [rewrite lookup_insert_eq; reflexivity|rewrite lookup_insert_ne by congruence])]|]).
    apply (sh_reg _ _ H) in Hf. destruct r as [b|b j|b g]; simpl in *; [split; [tauto|set_solver]| |auto].
    apply (dk_dir _ _ (sh_dirs _ _ H)) in Hf as Hb. rewrite !lookup_insert_ne; [auto|intros [= <- _]; tauto..].
Qed.
End add_space.

(** An address space without page tables goes. *)
Definition role_as (r : role) : Z := match r with Top a | Dir a _ | Tab a _ => a end.
Definition del_space (a : Z) (G : tables) : tables :=
  Tables (t_sp G ∖ {[a]}) (filter (fun x => x.1.1 <> a) (t_dir G)) (t_tab G) (filter (fun x => role_as x.2 <> a) (t_own G)) (t_pte G).

Lemma del_dir a G a' i d : t_dir (del_space a G) !! (a', i) = Some d <-> a' <> a /\ t_dir G !! (a', i) = Some d.
Proof. simpl. rewrite map_lookup_filter_Some. simpl. tauto. Qed.
Lemma del_own a G f r : t_own (del_space a G) !! f = Some r <-> role_as r <> a /\ t_own G !! f = Some r.
Proof. simpl. rewrite map_lookup_filter_Some. simpl. tauto. Qed.

Lemma shape_del_space m G a : shape m G -> (forall g, t_tab G !! (a, g) = None) -> shape m (del_space a G).
Proof.
  intros H Hno. split.
  - split.
    + intros a' i Ha' Hi. simpl in Ha'. destruct (dk_all _ _ (sh_dirs _ _ H) a' i) as [d Hd]; [set_solver|auto|]. exists d. apply del_dir. set_solver.
    + intros a' i d (Hne & Hd)%del_dir. destruct (dk_dir _ _ (sh_dirs _ _ H) _ _ _ Hd) as (? & ? & ? & ? & ?).
      split; [auto|]. split; [simpl; set_solver|]. rewrite !del_own. auto.
    + intros a' i d d3 (_ & Hd)%del_dir (_ & Hd3)%del_dir. eapply (dk_self _ _ (sh_dirs _ _ H)); eauto.
  - intros a' g t Ht. change (t_tab G !! (a', g) = Some t) in Ht. destruct (sh_tab _ _ H _ _ _ Ht) as (? & ? & ?).
    assert (a' <> a) by congruence. split; [auto|]. split; [simpl; set_solver|]. apply del_own. auto.
  - intros a' i di d (_ & Hd)%del_dir. apply (sh_pde _ _ H); auto.
  - apply (sh_pte _ _ H).
  - apply (sh_some _ _ H).
  - intros f r (_ & Hf)%del_own. apply (sh_own _ _ H _ _ Hf).
  - intros f r (Hr & Hf)%del_own. apply (sh_reg _ _ H) in Hf. destruct r as [b|b j|b g]; simpl in *; [set_solver| |auto].
    apply map_lookup_filter_Some. auto.
Qed.
