(* ===== verification/VmmOps.v ===== *)
(** Mapping and unmapping a page, the walk of the processor, and the temporary mappings
    of the kernel, on well-formed page tables. *)

From S2P Require Import Prelude Frames Vmm VmmInv.

Section ops.
Context {S : Type} {FA : FrameAlloc S}.
Implicit Types v : vm S.

(** The pages of the tables are not free; those of processes have one reference each. *)
Record vm_ok (v : vm S) (G : tables) : Prop := {
  vk_shape : shape (v_mem v) G;
  vk_cur : v_cr3 v ∈ t_sp G;
  vk_alloc : fa_ok (v_alloc v);
  vk_own n r : t_own G !! (n * 4096) = Some r ->
    n ∉ fa_avail (v_alloc v) /\ (role_as r <> v_kernel_as v -> fa_live (v_alloc v) !! n = Some 1);
  vk_ram n : n ∈ fa_avail (v_alloc v) \/ is_Some (fa_live (v_alloc v) !! n) -> full (v_mem v) (n * 4096)
}.

Lemma sp_own v G a : vm_ok v G -> a ∈ t_sp G -> t_own G !! a = Some (Top a).
Proof.
  intros H Ha. destruct (dk_all _ _ (sh_dirs _ _ (vk_shape _ _ H)) a 0 Ha) as [d Hd]; [lia|].
  apply (dk_dir _ _ (sh_dirs _ _ (vk_shape _ _ H))) in Hd. tauto.
Qed.

Lemma sp_frame v G a : vm_ok v G -> a ∈ t_sp G -> exists n, a = n * 4096 /\ 0 < n < 1048576.
Proof. intros H Ha. destruct (sh_own _ _ (vk_shape _ _ H) _ _ (sp_own _ _ _ H Ha)) as (n & ? & ? & _). eauto. Qed.

Lemma activate_eq v G a : vm_ok v G -> a ∈ t_sp G -> vmm_as_activate a v = set_cr3 a v.
Proof. intros H Ha. destruct (sp_frame _ _ _ H Ha) as (n & -> & Hn). unfold vmm_as_activate. zdecide. reflexivity. Qed.

Lemma vm_ok_cr3 v G a : vm_ok v G -> a ∈ t_sp G -> vm_ok (set_cr3 a v) G.
Proof. intros [] Ha. split; auto. Qed.

(** The registers and variables other than memory and the allocator. *)
Definition same_regs (v v' : vm S) : Prop :=
  v_cr3 v' = v_cr3 v /\ v_wp v' = v_wp v /\ v_kernel_as v' = v_kernel_as v /\ v_nxe v' = v_nxe v.

Lemma same_regs_refl v : same_regs v v.
Proof. repeat split. Qed.
Lemma same_regs_trans v1 v2 v3 : same_regs v1 v2 -> same_regs v2 v3 -> same_regs v1 v3.
Proof. unfold same_regs. intuition congruence. Qed.

(** Frame [t] is allocated. *)
Definition takes (s s' : S) (t : Z) : Prop :=
  t ∈ fa_avail s /\ fa_avail s' = fa_avail s ∖ {[t]} /\ fa_live s' = <[t := 1]> (fa_live s).

(** ** Frames *)

Lemma fresh_not_own v G n : vm_ok v G -> n ∈ fa_avail (v_alloc v) -> t_own G !! (n * 4096) = None.
Proof. intros H Hn. destruct (t_own G !! (n * 4096)) as [r|] eqn:E; [|reflexivity]. apply (vk_own _ _ H) in E. tauto. Qed.

Lemma alloc_ok v G : vm_ok v G -> fa_avail (v_alloc v) <> ∅ ->
  exists t s', alloc_page v = Ok (t * 4096, set_alloc s' v) /\ takes (v_alloc v) s' t /\ 0 < t < 1048576 /\ vm_ok (set_alloc s' v) G.
Proof.
  intros H Hne. destruct (fa_alloc_some _ (vk_alloc _ _ H) Hne) as (t & s' & Hr & Hok & Ht & Ea & El). exists t, s'.
  unfold alloc_page. rewrite Hr. split; [reflexivity|]. split; [split; auto|]. split; [exact (fa_range _ t (vk_alloc _ _ H) (or_introl Ht))|].
  split; simpl; try apply H; auto.
  - intros n r Hn. destruct (vk_own _ _ H n r Hn) as [Hna Hl]. rewrite Ea, El. split; [set_solver|]. intros Hr'.
    rewrite lookup_insert_ne by (intros <-; auto). auto.
  - intros n Hn. apply H. rewrite Ea, El in Hn. destruct (decide (n = t)) as [->|]; [auto|]. rewrite lookup_insert_ne in Hn by auto. set_solver.
Qed.

Lemma alloc_none v G : vm_ok v G -> fa_avail (v_alloc v) = ∅ ->
  exists s', alloc_page v = Ok (0, set_alloc s' v) /\ fa_avail s' = ∅ /\ fa_live s' = fa_live (v_alloc v) /\ vm_ok (set_alloc s' v) G.
Proof.
  intros H E. destruct (fa_alloc_none _ (vk_alloc _ _ H) E) as (s' & Hr & Hok & Ea & El). exists s'. unfold alloc_page. rewrite Hr.
  split; [reflexivity|]. split; [auto|]. split; [auto|]. split; simpl; try apply H; auto.
  - intros n r Hn. destruct (vk_own _ _ H n r Hn). rewrite Ea, El. set_solver.
  - intros n Hn. apply H. rewrite Ea, El in Hn. set_solver.
Qed.

(** A change of pages that keeps the tables well formed. *)
Lemma vm_ok_mem v G m' G' :
  vm_ok v G -> shape m' G' -> (forall f, full (v_mem v) f -> full m' f) -> t_sp G' = t_sp G -> t_own G' = t_own G -> vm_ok (set_mem m' v) G'.
Proof. intros H Hs Hf Es Eo. split; simpl; rewrite ?Es, ?Eo; auto; try apply H. intros n Hn. apply Hf, H. auto. Qed.

(** A page without table changes. *)
Lemma vm_ok_data v G f p :
  vm_ok v G -> t_own G !! f = None -> arr_len p = 512 -> vm_ok (set_mem (<[f := p]> (v_mem v)) v) G.
Proof.
  intros H Ho Hl. apply (vm_ok_mem v G); auto.
  - apply (shape_frame (v_mem v)); [|apply H]. intros f' r Hf'. apply lookup_insert_ne. congruence.
  - intros f' Hf'. apply full_insert; auto.
Qed.

(** ** Entries *)

Lemma pt_set_ok v G i di ti x t :
  vm_ok v G -> 0 <= i < 3 -> 0 <= di < 512 -> 0 <= ti < 512 -> t_tab G !! (v_cr3 v, i * 512 + di) = Some t ->
  (has x X86_PTE_PRESENT = true -> has x X86_PTE_USER = true ->
   forall d e, t_dir G !! (v_cr3 v, i) = Some d -> word (v_mem v) d di = Some e -> has e X86_PTE_USER = true) ->
  exists m', pt_set v i di ti x = Ok (set_mem m' v) /\ vm_ok (set_mem m' v) (set_pte (v_cr3 v, (i * 512 + di) * 512 + ti) x G) /\
    forall f, f <> t -> m' !! f = v_mem v !! f.
Proof.
  intros H Hi Hdi Hti Ht Hu. pose proof (vk_shape _ _ H) as Hs. destruct (tab_full v G Hs _ _ Ht) as (p & Hp & Hl).
  exists (<[t := arr_put p ti x]> (v_mem v)). unfold pt_set. rewrite (pt_recursive_ok v G Hs (vk_cur _ _ H) i di t), res_bind_ok by auto.
  rewrite (wr_put v t p) by auto. split; [reflexivity|]. split; [|intros f Hf; apply lookup_insert_ne; auto].
  apply (vm_ok_mem v G); auto.
  - apply shape_pte; auto. intros Hp1 Hu1 d e Hd He. rewrite Z.div_add_l, Z.div_small, Z.add_0_r in Hd by lia.
    rewrite Z.add_comm, Z.mod_add, Z.mod_small in He by lia. eauto.
  - intros f Hf. apply full_insert; [rewrite arr_len_put|]; auto.
Qed.

(** The entry of a page, as the code finds it: its directory entry is not present, or
    it has a page table. *)
Lemma find_pte v G va : vm_ok v G -> user_va va ->
  exists pde, pd_get v (pae_pdpt_index va) (pae_pd_index va) = Ok pde /\
    ((t_tab G !! (v_cr3 v, vpn va / 512) = None /\ has pde X86_PTE_PRESENT = false /\ t_pte G !! (v_cr3 v, vpn va) = None) \/
     exists t e, t_tab G !! (v_cr3 v, vpn va / 512) = Some t /\ has pde X86_PTE_PRESENT = true /\ has pde X86_PTE_RW = true /\ hw_frame pde = t /\
       pt_get v (pae_pdpt_index va) (pae_pd_index va) (pae_pt_index va) = Ok e /\
       t_pte G !! (v_cr3 v, vpn va) = (if has e X86_PTE_PRESENT then Some e else None) /\
       (has e X86_PTE_PRESENT = true -> has e X86_PTE_USER = true -> has pde X86_PTE_USER = true)).
Proof.
  intros H Hva. destruct (va_indices va Hva) as (Hi & Hdi & Hti & Eg & _ & En & _). pose proof (vk_shape _ _ H) as Hs.
  destruct (pd_get_ok v G Hs (vk_cur _ _ H) _ _ Hi Hdi) as (d & pde & Hd & Hw & Hr & Hok). exists pde. split; [auto|]. rewrite Eg, En.
  unfold pde_ok in Hok. destruct (t_tab G !! _) as [t|] eqn:Et.
  - right. destruct Hok as (A & B & C & _ & D). destruct (pt_get_ok v G Hs (vk_cur _ _ H) _ _ _ t Hi Hdi Hti Et) as (e & _ & Hpg & Hpe).
    exists t, e. split; [auto|]. split; [auto|]. split; [auto|]. split; [auto|]. split; [auto|]. split; [auto|].
    intros Hp Hu. eapply D; [exact Hti| |exact Hu]. rewrite Hpe, Hp. reflexivity.
  - left. split; [auto|]. split; [auto|]. destruct (t_pte G !! _) as [e|] eqn:Ee; [|reflexivity].
    apply (sh_some _ _ Hs) in Ee as [_ [t Ht]]. rewrite Z.div_add_l, Z.div_small, Z.add_0_r in Ht by lia. congruence.
Qed.

(** ** Page tables *)

Definition keeps (G G' : tables) : Prop :=
  t_sp G' = t_sp G /\ t_dir G' = t_dir G /\ t_tab G' = t_tab G /\ t_own G' = t_own G.

(** The page table of slot [g] of the current address space is there, or is allocated. *)
Definition grown (g : Z) (v : vm S) (G : tables) (v' : vm S) (G' : tables) : Prop :=
  same_regs v v' /\ (forall f, t_own G' !! f = None -> v_mem v' !! f = v_mem v !! f) /\
  (v_alloc v' = v_alloc v /\ is_Some (t_tab G !! (v_cr3 v, g)) /\ keeps G G' \/
   exists t, t_tab G !! (v_cr3 v, g) = None /\ takes (v_alloc v) (v_alloc v') t /\ keeps (add_tab (v_cr3 v) g (t * 4096) G) G').

(** The loop that clears a new page table [t]; [e] is its directory entry. *)
Lemma zero_table v G i di d e p :
  dirs_ok (v_mem v) G -> v_cr3 v ∈ t_sp G -> t_dir G !! (v_cr3 v, i) = Some d -> word (v_mem v) d di = Some e ->
  has e X86_PTE_PRESENT = true -> t_own G !! hw_frame e = None -> v_mem v !! hw_frame e = Some p -> arr_len p = 512 ->
  exists z, for_z 512 0 (fun k v => pt_set v i di k 0) v = Ok (set_mem (<[hw_frame e := z]> (v_mem v)) v) /\
    arr_len z = 512 /\ forall k, 0 <= k < 512 -> arr_at z k = 0.
Proof.
  intros Hd Ha Hdi He Hp Ho Ht Hl. set (t := hw_frame e) in *.
  destruct (for_z_ok (fun k v' => exists z, v' = set_mem (<[t := z]> (v_mem v)) v /\ arr_len z = 512 /\ forall j, 0 <= j < k -> arr_at z j = 0)
    512 0 (fun k v => pt_set v i di k 0) v) as (v' & E & z & -> & Lz & Hz).
  - exists p. rewrite insert_id by auto. destruct v. split; [reflexivity|]. split; [auto|lia].
  - intros k v' Hk (z & -> & Lz & Hz). assert (Hne : d <> t) by (intros ->; apply (dk_dir _ _ Hd) in Hdi as (_ & _ & _ & Ho' & _); congruence).
    exists (set_mem (<[t := arr_put z k 0]> (v_mem v)) v). split.
    + assert (HD : dirs_ok (<[t := z]> (v_mem v)) G).
      { apply (dirs_frame (v_mem v) _ G); auto. intros f r Hf _. apply lookup_insert_ne. intros <-. congruence. }
      assert (Hw : word (<[t := z]> (v_mem v)) d di = Some e) by (rewrite word_ne; auto).
      unfold pt_set. rewrite (pt_recursive_word (set_mem (<[t := z]> (v_mem v)) v) G HD Ha i di d e Hdi Hw Hp), res_bind_ok. fold t.
      rewrite (wr_put _ _ z) by (simpl; first [apply lookup_insert_eq|lia]). simpl. rewrite insert_insert_eq. reflexivity.
    + exists (arr_put z k 0). split; [reflexivity|]. rewrite arr_len_put. split; [auto|]. intros j Hj. rewrite arr_at_put.
      destruct (Z.eqb_spec k j); [reflexivity|apply Hz; lia].
  - exists z. auto.
Qed.

Lemma ensure_table_ok v G i di fl :
  vm_ok v G -> 0 <= i < 3 -> 0 <= di < 512 -> is_Some (t_tab G !! (v_cr3 v, i * 512 + di)) \/ fa_avail (v_alloc v) <> ∅ ->
  exists v' G', ensure_table v i di fl = Ok (true, v') /\ vm_ok v' G' /\ grown (i * 512 + di) v G v' G' /\ t_pte G' = t_pte G /\
    is_Some (t_tab G' !! (v_cr3 v, i * 512 + di)).
Proof.
  intros H Hi Hdi Hor. pose proof (vk_shape _ _ H) as Hs. pose proof (vk_cur _ _ H) as Ha. unfold ensure_table.
  destruct (pd_get_ok v G Hs Ha i di Hi Hdi) as (d & e & Hd & Hw & -> & Hok). rewrite res_bind_ok. unfold pde_ok in Hok.
  destruct (t_tab G !! (v_cr3 v, i * 512 + di)) as [t|] eqn:Et.
  - destruct Hok as (-> & _). exists v, G. split; [reflexivity|]. split; [exact H|]. split; [|split; [reflexivity|rewrite Et; eauto]].
    split; [apply same_regs_refl|]. split; [auto|]. left. rewrite Et. repeat split; eauto.
  - rewrite Hok. destruct Hor as [[? ?]|Hne]; [discriminate|]. destruct (alloc_ok v G H Hne) as (t & s' & -> & Htk & Ht & H1). rewrite res_bind_ok. zdecide.
    set (fl' := if has fl VMM_FLAG_USER then _ else _). assert (Hfl : fl' = 3 \/ fl' = 7) by (unfold fl'; case_match; [right|left]; reflexivity).
    assert (Hfo : flags_only fl') by (destruct Hfl as [-> | ->]; split; reflexivity).
    destruct (dk_dir _ _ (sh_dirs _ _ Hs) _ _ _ Hd) as (_ & _ & _ & Hod & _). destruct (sh_own _ _ Hs _ _ Hod) as (_ & _ & _ & (p & Hp & Hl)).
    pose proof (fresh_not_own v G t H (proj1 Htk)) as Hot. destruct (vk_ram _ _ H t (or_introl (proj1 Htk))) as (q & Hq & Lq).
    unfold pd_set. rewrite (pd_recursive_ok (set_alloc s' v) G (sh_dirs _ _ Hs) Ha _ _ Hd), res_bind_ok, (wr_put _ d p), res_bind_ok by auto.
    change (v_mem (set_alloc s' v)) with (v_mem v). set (m1 := <[d := _]> (v_mem v)). assert (He1 : word m1 d di = Some (Z.lor (t * 4096) fl')) by (unfold m1; rewrite word_put by auto; rewrite Z.eqb_refl; reflexivity).
    assert (Eh : hw_frame (Z.lor (t * 4096) fl') = t * 4096) by (apply hw_frame_entry; [lia|auto]).
    destruct (zero_table (set_mem m1 (set_alloc s' v)) G i di d (Z.lor (t * 4096) fl') q) as (z & -> & Lz & Hz); simpl; auto; rewrite ?Eh; auto.
    { apply (dirs_frame (v_mem v) _ G); auto; [|apply Hs]. intros f r Hf Hr. apply lookup_insert_ne. intros <-. rewrite Hod in Hf. injection Hf as <-. simpl in Hr. lia. }
    { rewrite has_lor, has_frame by (unfold X86_PTE_PRESENT; lia). destruct Hfl as [-> | ->]; reflexivity. }
    { unfold m1. rewrite lookup_insert_ne by congruence. auto. }
    exists (set_mem (<[t * 4096 := z]> m1) (set_alloc s' v)), (add_tab (v_cr3 v) (i * 512 + di) (t * 4096) G). split; [reflexivity|].
    split; [|split; [|split; [reflexivity|simpl; rewrite lookup_insert_eq; eauto]]].
    + split; simpl; try apply H1.
      * apply shape_add_tab; auto; lia.
      * intros n r. destruct (decide (n = t)) as [->|].
        -- rewrite lookup_insert_eq. intros [= <-]. destruct Htk as (_ & -> & ->). rewrite lookup_insert_eq. split; [set_solver|auto].
        -- rewrite lookup_insert_ne by lia. apply (vk_own _ _ H1).
      * intros n Hn. apply full_insert; [auto|]. apply full_insert; [rewrite arr_len_put; auto|]. apply (vk_ram _ _ H1 n Hn).
    + split; [repeat split|]. split; [|right; exists t; split; [auto|]; split; [auto|repeat split]].
      simpl. intros f [Hf Hne']%lookup_insert_None. unfold m1. rewrite !lookup_insert_ne by congruence. reflexivity.
Qed.

(** The step that opens a directory entry to user accesses. *)
Lemma pde_user_ok v G i di fl :
  vm_ok v G -> 0 <= i < 3 -> 0 <= di < 512 -> is_Some (t_tab G !! (v_cr3 v, i * 512 + di)) ->
  exists e m', pd_get v i di = Ok e /\
    (if has fl VMM_FLAG_USER && negb (has e X86_PTE_USER) then pd_set v i di (Z.lor e X86_PTE_USER) else mret v) = Ok (set_mem m' v) /\
    vm_ok (set_mem m' v) G /\ (forall f, t_own G !! f = None -> m' !! f = v_mem v !! f) /\
    (has fl VMM_FLAG_USER = true -> forall d e', t_dir G !! (v_cr3 v, i) = Some d -> word m' d di = Some e' -> has e' X86_PTE_USER = true).
Proof.
  intros H Hi Hdi [t Ht]. pose proof (vk_shape _ _ H) as Hs. pose proof (vk_cur _ _ H) as Ha.
  destruct (pd_get_ok v G Hs Ha i di Hi Hdi) as (d & e & Hd & Hw & Hr & Hok). exists e.
  destruct (dk_dir _ _ (sh_dirs _ _ Hs) _ _ _ Hd) as (_ & _ & _ & Hod & _). destruct (sh_own _ _ Hs _ _ Hod) as (_ & _ & _ & (p & Hp & Hl)).
  destruct (has fl VMM_FLAG_USER) eqn:Ef; [destruct (has e X86_PTE_USER) eqn:Ee|]; simpl.
  - exists (v_mem v). destruct v. split; [auto|]. split; [reflexivity|]. split; [exact H|]. split; [auto|]. intros _ d' e' Hd' He'. simplify_eq. auto.
  - exists (<[d := arr_put p di (Z.lor e X86_PTE_USER)]> (v_mem v)). split; [auto|].
    unfold pd_set. rewrite (pd_recursive_ok v G (sh_dirs _ _ Hs) Ha _ _ Hd), res_bind_ok, (wr_put _ d p) by auto. split; [reflexivity|].
    split; [|split].
    + apply (vm_ok_mem v G); auto; [eapply shape_pde_user; eauto; lia|]. intros f Hf. apply full_insert; [rewrite arr_len_put|]; auto.
    + intros f Hf. apply lookup_insert_ne. congruence.
    + intros _ d' e' Hd' He'. simplify_eq. rewrite word_put, Z.eqb_refl in He' by auto. simplify_eq. rewrite has_lor. apply orb_true_r.
  - exists (v_mem v). destruct v. split; [auto|]. split; [reflexivity|]. split; [exact H|]. split; [auto|]. discriminate.
Qed.

(** [vmm_map_page] makes an entry for the page, when there is memory for the page table
    it may need. *)
Lemma map_page_ok v G n va fl :
  vm_ok v G -> user_va va -> 0 <= n < 1048576 -> has fl VMM_FLAG_PRESENT = true ->
  is_Some (t_tab G !! (v_cr3 v, vpn va / 512)) \/ fa_avail (v_alloc v) <> ∅ ->
  exists v' G', vmm_map_page_nolock v (n * 4096) va fl = Ok v' /\ vm_ok v' G' /\ grown (vpn va / 512) v G v' G' /\
    t_pte G' = <[(v_cr3 v, vpn va) := Z.lor (n * 4096) (vmm_flags_to_x86 v fl)]> (t_pte G) /\
    is_Some (t_tab G' !! (v_cr3 v, vpn va / 512)).
Proof.
  intros H Hva Hn Hfl Hor. destruct (va_indices va Hva) as (Hi & Hdi & Hti & Eg & _ & En & _). unfold vmm_map_page_nolock. rewrite Eg in *.
  destruct (ensure_table_ok v G _ _ fl H Hi Hdi Hor) as (v1 & G1 & -> & H1 & (Hreg & Hmem & Hgr) & Ep1 & [t Ht]). rewrite res_bind_ok. cbn [negb].
  destruct Hreg as (Ecr & Ewp & Eka & Enx). rewrite <- Ecr in Ht.
  destruct (pde_user_ok v1 G1 _ _ fl H1 Hi Hdi (mk_is_Some _ _ Ht)) as (e & m2 & -> & E2 & H2 & Hm2 & Hu). rewrite res_bind_ok, E2, res_bind_ok.
  set (v2 := set_mem m2 v1) in *. set (x := Z.lor (Z.land (n * 4096) 4294963200) _).
  assert (Ex : x = Z.lor (n * 4096) (vmm_flags_to_x86 v fl)).
  { unfold x. f_equal; [apply entry_frame_addr; lia|]. unfold vmm_flags_to_x86. simpl. rewrite Enx. reflexivity. }
  assert (Hpx : has x X86_PTE_PRESENT = true) by (rewrite Ex, has_lor; destruct (has_x86 v fl) as (-> & _); rewrite Hfl; apply orb_true_r).
  destruct (pt_set_ok v2 G1 _ _ (pae_pt_index va) x t H2 Hi Hdi Hti Ht) as (m3 & E3 & H3 & Hm3).
  { intros _ Hux. rewrite Ex, has_lor, has_frame in Hux by (unfold X86_PTE_USER; lia). destruct (has_x86 v fl) as (_ & _ & E & _). rewrite E in Hux. exact (Hu Hux). }
  exists (set_mem m3 v2), (set_pte (v_cr3 v, vpn va) x G1). split; [exact E3|]. destruct (sh_tab _ _ (vk_shape _ _ H1) _ _ _ Ht) as (_ & _ & Hot).
  split; [rewrite En, <- Ecr; exact H3|]. split; [|split; [|simpl; rewrite <- Ecr; eauto]].
  - split; [repeat split; auto|]. split.
    + intros f Hf. simpl in *. rewrite Hm3 by congruence. simpl. rewrite Hm2, Hmem; auto.
    + exact Hgr.
  - cbn [set_pte t_pte]. rewrite Hpx, Ep1, Ex. reflexivity.
Qed.

(** Without memory for the page table nothing happens. *)
Lemma map_page_oom v G n va fl :
  vm_ok v G -> user_va va -> t_tab G !! (v_cr3 v, vpn va / 512) = None -> fa_avail (v_alloc v) = ∅ ->
  exists s', vmm_map_page_nolock v (n * 4096) va fl = Ok (set_alloc s' v) /\ vm_ok (set_alloc s' v) G /\
    fa_avail s' = ∅ /\ fa_live s' = fa_live (v_alloc v).
Proof.
  intros H Hva Ht Ha. destruct (va_indices va Hva) as (Hi & Hdi & _ & Eg & _). unfold vmm_map_page_nolock, ensure_table.
  destruct (pd_get_ok v G (vk_shape _ _ H) (vk_cur _ _ H) _ _ Hi Hdi) as (d & e & _ & _ & -> & Hok). rewrite res_bind_ok.
  unfold pde_ok in Hok. rewrite <- Eg, Ht in Hok. rewrite Hok. destruct (alloc_none v G H Ha) as (s' & -> & ? & ? & ?). exists s'. auto.
Qed.

(** [vmm_unmap_page] removes the entry. *)
Lemma unmap_page_ok v G va :
  vm_ok v G -> user_va va ->
  exists m' G', vmm_unmap_page_nolock v va = Ok (set_mem m' v) /\ vm_ok (set_mem m' v) G' /\ keeps G G' /\
    (forall f, t_own G !! f = None -> m' !! f = v_mem v !! f) /\ t_pte G' = delete (v_cr3 v, vpn va) (t_pte G).
Proof.
  intros H Hva. destruct (va_indices va Hva) as (Hi & Hdi & Hti & Eg & _ & En & _). unfold vmm_unmap_page_nolock.
  destruct (find_pte v G va H Hva) as (pde & -> & Hc). rewrite res_bind_ok. destruct Hc as [(Ht & -> & Hnone)|(t & e & Ht & -> & _)]; simpl.
  - exists (v_mem v), G. destruct v. split; [reflexivity|]. split; [exact H|]. split; [repeat split|]. split; [auto|].
    rewrite delete_id; auto.
  - pose proof Ht as Ht'. rewrite Eg in Ht'. destruct (pt_set_ok v G _ _ _ 0 t H Hi Hdi Hti Ht') as (m' & E' & H' & Hm'); [discriminate|].
    exists m', (set_pte (v_cr3 v, vpn va) 0 G). rewrite E', En. split; [reflexivity|]. split; [exact H'|]. split; [repeat split|]. split; [|reflexivity].
    intros f Hf. apply Hm'. intros ->. apply (sh_tab _ _ (vk_shape _ _ H)) in Ht as (_ & _ & ?). congruence.
Qed.

(** ** The walk *)

Lemma walk_ok v G va : vm_ok v G -> user_va va ->
  match t_pte G !! (v_cr3 v, vpn va) with
  | None => walk v va = Ok None
  | Some e => exists pde, walk v va = Ok (Some (hw_frame e, pde, e)) /\ has pde X86_PTE_RW = true /\ has e X86_PTE_PRESENT = true /\
      (has e X86_PTE_USER = true -> has pde X86_PTE_USER = true)
  end.
Proof.
  intros H Hva. destruct (va_indices va Hva) as (Hi & Hdi & Hti & Eg & Em & En & _). pose proof (vk_shape _ _ H) as Hs. pose proof (vk_cur _ _ H) as Ha.
  destruct (pd_get_ok v G Hs Ha _ _ Hi Hdi) as (d & pde & Hd & Hw & _ & Hok). destruct (dk_dir _ _ (sh_dirs _ _ Hs) _ _ _ Hd) as (_ & _ & _ & _ & (e0 & He0 & Hp0 & Hf0 & _)).
  unfold walk. rewrite (rd_word _ _ _ _ He0), res_bind_ok, Hp0, Hf0. simpl negb. cbv iota. rewrite (rd_word _ _ _ _ Hw), res_bind_ok.
  destruct (find_pte v G va H Hva) as (pde' & E & Hc). unfold pd_get in E. rewrite (pd_recursive_ok v G (sh_dirs _ _ Hs) Ha _ _ Hd), res_bind_ok, (rd_word _ _ _ _ Hw) in E.
  injection E as <-. destruct Hc as [(Ht & Hpp & ->)|(t & e & Ht & Hpp & Hrw & Hft & Hg & Hpe & Hu)]; rewrite Hpp; simpl negb; cbv iota; [reflexivity|].
  unfold pt_get in Hg. rewrite Eg in Ht. rewrite (pt_recursive_ok v G Hs Ha _ _ t Hi Hdi Ht), res_bind_ok in Hg. rewrite Hft, Hg, res_bind_ok, Hpe.
  destruct (has e X86_PTE_PRESENT) eqn:Ep; simpl; [exists pde; rewrite Ep; auto|reflexivity].
Qed.

(** The permissions of an access, on the page table entry alone. *)
Definition may (v : vm S) (user write : bool) (e : Z) : bool :=
  (negb user || has e X86_PTE_USER) && (negb (write && (user || v_wp v)) || has e X86_PTE_RW).

Lemma access_ok v G user write va : vm_ok v G -> user_va va ->
  access v user write va =
    Ok (match t_pte G !! (v_cr3 v, vpn va) with Some e => if may v user write e then Some (hw_frame e) else None | None => None end).
Proof.
  intros H Hva. pose proof (walk_ok v G va H Hva) as Hw. unfold access. destruct (t_pte G !! _) as [e|]; [|rewrite Hw; reflexivity].
  destruct Hw as (pde & -> & Hrw & _ & Hu). rewrite res_bind_ok. unfold allowed, may. rewrite Hrw. simpl.
  destruct user, (has e X86_PTE_USER); simpl; rewrite ?Hu, ?andb_false_r by auto; reflexivity.
Qed.

(** [vmm_virt_to_phys] *)
Lemma virt_to_phys_ok v G va : vm_ok v G -> user_va va ->
  vmm_virt_to_phys v va = Ok (match t_pte G !! (v_cr3 v, vpn va) with Some e => u32 (Z.land e (u64 (Z.lnot 4095))) | None => 0 end).
Proof.
  intros H Hva. unfold vmm_virt_to_phys. destruct (find_pte v G va H Hva) as (pde & -> & Hc). rewrite res_bind_ok.
  destruct Hc as [(_ & -> & ->)|(t & e & _ & -> & _ & _ & -> & -> & _)]; [reflexivity|]. cbn [negb]. cbv iota. rewrite res_bind_ok.
  destruct (has e X86_PTE_PRESENT); reflexivity.
Qed.

(** ** Growth *)

(** The frames [N] become tables; everything else stays. *)
Record extends (v : vm S) (G : tables) (v' : vm S) (G' : tables) (N : gset Z) : Prop := {
  ex_regs : same_regs v v';
  ex_sub : N ⊆ fa_avail (v_alloc v);
  ex_avail : fa_avail (v_alloc v') = fa_avail (v_alloc v) ∖ N;
  ex_live n : n ∉ N -> fa_live (v_alloc v') !! n = fa_live (v_alloc v) !! n;
  ex_new n : n ∈ N -> is_Some (t_own G' !! (n * 4096));
  ex_own f r : t_own G !! f = Some r -> t_own G' !! f = Some r;
  ex_own_inv f r : t_own G' !! f = Some r -> t_own G !! f = Some r \/ exists n, n ∈ N /\ f = n * 4096;
  ex_sp : t_sp G ⊆ t_sp G';
  ex_tab k t : t_tab G !! k = Some t -> t_tab G' !! k = Some t;
  ex_mem f : t_own G' !! f = None -> v_mem v' !! f = v_mem v !! f
}.

Lemma extends_refl v G v' G' :
  same_regs v v' -> v_alloc v' = v_alloc v -> keeps G G' -> (forall f, t_own G' !! f = None -> v_mem v' !! f = v_mem v !! f) -> extends v G v' G' ∅.
Proof. intros Hr Ea (E1 & E2 & E3 & E4) Hm. rewrite E4 in Hm. split; rewrite ?Ea, ?E1, ?E2, ?E3, ?E4; auto; set_solver. Qed.

Lemma extends_trans v1 G1 v2 G2 v3 G3 N M : extends v1 G1 v2 G2 N -> extends v2 G2 v3 G3 M -> extends v1 G1 v3 G3 (N ∪ M).
Proof.
  intros A B. pose proof (ex_avail _ _ _ _ _ A) as EA. pose proof (ex_sub _ _ _ _ _ B) as SB. rewrite EA in SB. split.
  - eapply same_regs_trans; [apply A|apply B].
  - pose proof (ex_sub _ _ _ _ _ A). set_solver.
  - rewrite (ex_avail _ _ _ _ _ B), EA. set_solver.
  - intros n Hn. rewrite (ex_live _ _ _ _ _ B), (ex_live _ _ _ _ _ A) by set_solver. reflexivity.
  - intros n [Hn|Hn]%elem_of_union; [|apply (ex_new _ _ _ _ _ B); auto]. destruct (ex_new _ _ _ _ _ A n Hn) as [r Hr].
    exists r. apply (ex_own _ _ _ _ _ B). auto.
  - intros f r Hf. apply (ex_own _ _ _ _ _ B), (ex_own _ _ _ _ _ A), Hf.
  - intros f r Hf. apply (ex_own_inv _ _ _ _ _ B) in Hf as [Hf|(n & ? & ->)]; [|right; exists n; set_solver].
    apply (ex_own_inv _ _ _ _ _ A) in Hf as [Hf|(n & ? & ->)]; [auto|right; exists n; set_solver].
  - pose proof (ex_sp _ _ _ _ _ A). pose proof (ex_sp _ _ _ _ _ B). set_solver.
  - intros k t Hk. apply (ex_tab _ _ _ _ _ B), (ex_tab _ _ _ _ _ A), Hk.
  - intros f Hf. rewrite (ex_mem _ _ _ _ _ B f Hf). apply (ex_mem _ _ _ _ _ A). destruct (t_own G2 !! f) eqn:E; [|reflexivity].
    apply (ex_own _ _ _ _ _ B) in E. congruence.
Qed.

Lemma grown_extends g v G v' G' : vm_ok v G -> grown g v G v' G' ->
  exists N, extends v G v' G' N /\ t_sp G' = t_sp G /\ (is_Some (t_tab G !! (v_cr3 v, g)) -> N = ∅) /\ (size N <= 1)%nat /\
    forall k, k <> (v_cr3 v, g) -> t_tab G' !! k = t_tab G !! k.
Proof.
  intros H (Hr & Hm & [(Ea & Ht & Hk)|(t & Ht & (Hin & Ea & El) & (E1 & E2 & E3 & E4))]).
  - exists ∅. split; [apply extends_refl; auto|]. split; [apply Hk|]. split; [auto|]. split; [rewrite size_empty; lia|]. destruct Hk as (_ & _ & -> & _). auto.
  - exists {[t]}. split; [|split; [exact E1|split; [rewrite Ht; intros [? ?]; discriminate|split; [rewrite size_singleton; lia|]]]].
    + pose proof (fresh_not_own v G t H Hin). simpl in *. split; auto; rewrite ?E1, ?E3, ?E4.
      * set_solver.
      * intros n Hn. rewrite El. apply lookup_insert_ne. set_solver.
      * intros n ->%elem_of_singleton. rewrite lookup_insert_eq. eauto.
      * intros f r Hf. rewrite lookup_insert_ne by congruence. auto.
      * intros f r [[<- _]|[_ Hf]]%lookup_insert_Some; [right; exists t; set_solver|auto].
      * set_solver.
      * intros k x Hk. rewrite lookup_insert_ne by congruence. auto.
    + intros k Hk. rewrite E3. simpl. apply lookup_insert_ne. auto.
Qed.
End ops.
