(* ===== verification/VmmSpace.v ===== *)
(** The kernel's temporary mappings, and the creation of an address space:
    [vmm_as_create_kernel_clone] makes a new, empty one, or none and no change. *)

From S2P Require Import Prelude Frames Vmm VmmInv VmmOps.

Section space.
Context {S : Type} {FA : FrameAlloc S}.
Implicit Types v : vm S.

(** The page at [f] holds [q]. *)
Notation with_page f q v := (set_mem (<[f := q]> (v_mem v)) v).

Lemma extends_write v G v' G' N f q : extends v G v' G' N -> t_own G' !! f = None -> extends (with_page f q v) G (with_page f q v') G' N.
Proof.
  intros [] Hf. split; simpl; auto. intros f' Hf'. destruct (decide (f' = f)) as [->|].
  - rewrite !lookup_insert_eq. reflexivity.
  - rewrite !lookup_insert_ne by auto. auto.
Qed.

(** ** Temporary mappings *)

Definition TMP_FLAGS : Z := Z.lor VMM_FLAG_PRESENT VMM_FLAG_RW.

(** Page [n] is mapped at [t] for the kernel. *)
Definition mapped_at (v : vm S) (G : tables) (t n : Z) : Prop :=
  vm_ok v G /\ user_va t /\ t_own G !! (n * 4096) = None /\ full (v_mem v) (n * 4096) /\
  exists x, t_pte G !! (v_cr3 v, vpn t) = Some x /\ hw_frame x = n * 4096 /\ has x X86_PTE_RW = true.

Lemma mapped_page v G t n w : mapped_at v G t n -> kernel_page v w t = Ok (n * 4096).
Proof.
  intros (H & Ht & _ & _ & x & Hx & Hf & Hrw). unfold kernel_page. rewrite (access_ok v G) by auto. rewrite res_bind_ok, Hx.
  unfold may. rewrite Hrw, Hf, orb_true_r. reflexivity.
Qed.

Lemma mapped_write v G t n q : mapped_at v G t n -> arr_len q = 512 -> mapped_at (with_page (n * 4096) q v) G t n.
Proof.
  intros (H & Ht & Ho & Hf & Hx) Hq. split; [apply vm_ok_data; auto|]. split; [auto|]. split; [auto|]. split; [|exact Hx].
  exists q. simpl. rewrite lookup_insert_eq. auto.
Qed.

Lemma mapped_zero v G t n : mapped_at v G t n -> kernel_zero v t = Ok (with_page (n * 4096) zero_page v).
Proof.
  intros Hm. unfold kernel_zero. rewrite (mapped_page _ _ _ _ _ Hm), res_bind_ok. destruct Hm as (_ & _ & _ & (p & Hp & _) & _).
  unfold wr_page. rewrite Hp. reflexivity.
Qed.

Lemma mapped_wr v G t n z j x :
  mapped_at v G t n -> arr_len z = 512 -> 0 <= j < 512 ->
  kernel_wr (with_page (n * 4096) z v) t j x = Ok (with_page (n * 4096) (arr_put z j x) v).
Proof.
  intros Hm Hz Hj. unfold kernel_wr. rewrite (mapped_page _ G _ n) by (apply mapped_write; auto). rewrite res_bind_ok.
  rewrite (wr_put _ _ z) by (simpl; first [apply lookup_insert_eq|lia]). simpl. rewrite insert_insert_eq. reflexivity.
Qed.

(** What the kernel does between mapping page [n] at [t] and unmapping it changes that
    page only, to one with [Q]; [r] is the result. *)
Definition session (v : vm S) (G : tables) (t n : Z) (Q : page -> Prop) (r : res (vm S)) : Prop :=
  exists v' G' N q, r = Ok v' /\ vm_ok v' G' /\ extends (with_page (n * 4096) q v) G v' G' N /\ arr_len q = 512 /\ Q q /\
    t_pte G' = t_pte G /\ t_sp G' = t_sp G /\ is_Some (t_tab G' !! (v_cr3 v, vpn t / 512)) /\
    (is_Some (t_tab G !! (v_cr3 v, vpn t / 512)) -> N = ∅) /\ (size N <= 1)%nat /\
    (forall k, k <> (v_cr3 v, vpn t / 512) -> t_tab G' !! k = t_tab G !! k).

(** A frame in the hands of the kernel: allocated, and not a table. *)
Definition spare (v : vm S) (G : tables) (n : Z) : Prop :=
  t_own G !! (n * 4096) = None /\ n ∉ fa_avail (v_alloc v) /\ 0 < n < 1048576 /\ fa_live (v_alloc v) !! n = Some 1.

(** [t] can be used: it is not mapped, and its page table is there or can be allocated. *)
Definition tmp_free (v : vm S) (G : tables) (t : Z) : Prop :=
  user_va t /\ t_pte G !! (v_cr3 v, vpn t) = None /\ (is_Some (t_tab G !! (v_cr3 v, vpn t / 512)) \/ fa_avail (v_alloc v) <> ∅).

Lemma tmp_session v G t n (Q : page -> Prop) (body : vm S -> res (vm S)) :
  vm_ok v G -> tmp_free v G t -> spare v G n ->
  (forall v1 G1 N, mapped_at v1 G1 t n -> extends v G v1 G1 N -> (forall k, k <> (v_cr3 v, vpn t) -> t_pte G1 !! k = t_pte G !! k) ->
    exists q, body v1 = Ok (with_page (n * 4096) q v1) /\ arr_len q = 512 /\ Q q) ->
  session v G t n Q (v1 ← vmm_map_page_nolock v (n * 4096) t TMP_FLAGS; v2 ← body v1; vmm_unmap_page_nolock v2 t).
Proof.
  intros H (Ht & Hno & Hor) (Ho & Hna & Hn & Hlive) Hbody.
  destruct (map_page_ok v G n t TMP_FLAGS H Ht ltac:(lia) eq_refl Hor) as (v1 & G1 & E1 & H1 & Hg & Ep & Htab). rewrite E1, res_bind_ok.
  destruct (grown_extends _ _ _ _ _ H Hg) as (N & Hex & Esp & HN & Hsz & Htabs). pose proof (ex_regs _ _ _ _ _ Hex) as (Ecr & _).
  assert (Ho1 : t_own G1 !! (n * 4096) = None).
  { destruct (t_own G1 !! (n * 4096)) as [r|] eqn:E; [|reflexivity]. apply (ex_own_inv _ _ _ _ _ Hex) in E as [E|(n' & Hn' & E)]; [congruence|].
    assert (n' = n) as -> by lia. apply (ex_sub _ _ _ _ _ Hex) in Hn'. contradiction. }
  assert (Hm1 : mapped_at v1 G1 t n).
  { split; [auto|]. split; [auto|]. split; [auto|]. split; [unfold full; rewrite (ex_mem _ _ _ _ _ Hex) by auto; apply H; eauto|].
    exists (Z.lor (n * 4096) (vmm_flags_to_x86 v TMP_FLAGS)). rewrite Ep, Ecr, lookup_insert_eq. split; [reflexivity|].
    split; [apply hw_frame_entry; auto using flags_only_x86; lia|]. rewrite has_lor. destruct (has_x86 v TMP_FLAGS) as (_ & -> & _). apply orb_true_r. }
  destruct (Hbody v1 G1 N Hm1 Hex) as (q & -> & Hlq & HQ); [intros k Hk; rewrite Ep; apply lookup_insert_ne; auto|]. rewrite res_bind_ok.
  destruct (unmap_page_ok (with_page (n * 4096) q v1) G1 t) as (m3 & G3 & E3 & H3 & Hk & Hm3 & Ep3); [apply vm_ok_data; auto|auto|].
  destruct Hk as (K1 & K2 & K3 & K4). exists (set_mem m3 (with_page (n * 4096) q v1)), G3, N, q. split; [exact E3|]. split; [exact H3|]. split.
  - rewrite <- (union_empty_r_L N). eapply extends_trans; [apply extends_write; [exact Hex|exact Ho1]|]. apply extends_refl; [repeat split|reflexivity|repeat split; auto|].
    intros f Hf. rewrite K4 in Hf. apply Hm3, Hf.
  - split; [auto|]. split; [auto|]. split; [|rewrite K1, K3; auto]. rewrite Ep3, Ep. simpl. rewrite Ecr, delete_insert_eq. apply delete_id. exact Hno.
Qed.

(** ** Filling the tables of a new address space *)

Lemma bind_nest {A B C D} (m : res A) (f : A -> res B) (g : B -> res C) (h : C -> res D) :
  (a ← m; c ← (b ← f a; g b); h c) = (a ← m; b ← f a; c ← g b; h c).
Proof. destruct m as [a| |]; [|reflexivity..]. rewrite !res_bind_ok. destruct (f a); reflexivity. Qed.

(** A loop of stores to the mapped page. *)
Lemma mapped_loop v G t n cnt i (body : Z -> vm S -> res (vm S)) (P : Z -> page -> Prop) z :
  arr_len z = 512 -> P i z ->
  (forall k z, i <= k < i + Z.of_nat cnt -> arr_len z = 512 -> P k z ->
    exists j x, body k (with_page (n * 4096) z v) = Ok (with_page (n * 4096) (arr_put z j x) v) /\ P (k + 1) (arr_put z j x)) ->
  mapped_at v G t n ->
  exists z', for_z cnt i body (with_page (n * 4096) z v) = Ok (with_page (n * 4096) z' v) /\ arr_len z' = 512 /\ P (i + Z.of_nat cnt) z'.
Proof.
  intros Hz HP Hb Hm. destruct (for_z_ok (fun k v' => exists z', v' = with_page (n * 4096) z' v /\ arr_len z' = 512 /\ P k z') cnt i body (with_page (n * 4096) z v))
    as (v' & E & z' & -> & Hl & HP'); [eauto| |eauto].
  intros k v' Hk (z' & -> & Hl & Hk'). destruct (Hb k z' Hk Hl Hk') as (j & x & E & Hn). eexists. split; [exact E|].
  exists (arr_put z' j x). rewrite arr_len_put. auto.
Qed.

Lemma fill_pdpt_ok v G n ds :
  vm_ok v G -> tmp_free v G TMP_VA -> spare v G n -> length ds = 4%nat ->
  session v G TMP_VA n (fun q => forall i d, 0 <= i -> ds !! Z.to_nat i = Some d -> arr_at q i = Z.lor d 1) (fill_pdpt v (n * 4096) ds).
Proof.
  intros H Ht Hs Hl. set (loop := for_z 4 0 (fun i v => d ← of_option (ds !! Z.to_nat i); kernel_wr v TMP_VA i (Z.lor d 1))).
  replace (fill_pdpt v (n * 4096) ds) with
    (v1 ← vmm_map_page_nolock v (n * 4096) TMP_VA TMP_FLAGS; v2 ← (v ← kernel_zero v1 TMP_VA; loop v); vmm_unmap_page_nolock v2 TMP_VA)
    by apply bind_nest.
  apply tmp_session; auto.
  intros v1 G1 N Hm _ _. rewrite (mapped_zero _ _ _ _ Hm), res_bind_ok. unfold loop.
  destruct (mapped_loop v1 G1 TMP_VA n 4 0 (fun i v => d ← of_option (ds !! Z.to_nat i); kernel_wr v TMP_VA i (Z.lor d 1))
      (fun k z => forall i d, 0 <= i < k -> ds !! Z.to_nat i = Some d -> arr_at z i = Z.lor d 1) zero_page) as (z & -> & Hlz & Hz); auto; [lia| |].
  - intros k z Hk Hlz Hz. destruct (lookup_lt_is_Some_2 ds (Z.to_nat k)) as [d Hd]; [lia|]. exists k, (Z.lor d 1). rewrite Hd. simpl of_option. rewrite res_bind_ok.
    rewrite (mapped_wr _ G1) by (auto; lia). split; [reflexivity|]. intros i d' Hi Hd'. rewrite arr_at_put. destruct (Z.eqb_spec k i) as [->|]; [congruence|apply Hz; auto; lia].
  - exists z. split; [reflexivity|]. split; [auto|]. intros i d Hi Hd. apply Hz; auto. apply lookup_lt_Some in Hd. lia.
Qed.

Lemma fill_pd_user v G n ds i :
  vm_ok v G -> tmp_free v G TMP_VA -> spare v G n -> ds !! Z.to_nat i = Some (n * 4096) -> i <> 3 ->
  session v G TMP_VA n (fun q => q = zero_page) (fill_pd v ds i).
Proof.
  intros H Ht Hs Hd Hi. unfold fill_pd. rewrite Hd. simpl of_option. rewrite res_bind_ok. zdecide.
  apply (tmp_session v G TMP_VA n _ (fun v1 => kernel_zero v1 TMP_VA)); auto.
  intros v1 G1 N Hm _ _. exists zero_page. rewrite (mapped_zero _ _ _ _ Hm). auto.
Qed.

(** The copy of the kernel's directory. *)
Lemma copy_kernel_pd v G n z :
  mapped_at v G TMP_VA n -> arr_len z = 512 ->
  exists z', for_z 512 0 (fun j v => e ← pd_get v 3 j; kernel_wr v TMP_VA j e) (with_page (n * 4096) z v) = Ok (with_page (n * 4096) z' v) /\ arr_len z' = 512.
Proof.
  intros Hm Hz. destruct (mapped_loop v G TMP_VA n 512 0 (fun j v => e ← pd_get v 3 j; kernel_wr v TMP_VA j e) (fun _ _ => True) z) as (z' & E & Hl & _); eauto.
  intros k w Hk Hw _. destruct (mapped_write _ _ _ _ w Hm Hw) as (H & _). destruct (dk_all _ _ (sh_dirs _ _ (vk_shape _ _ H)) _ 3 (vk_cur _ _ H)) as [d Hd]; [lia|].
  destruct (dk_dir _ _ (sh_dirs _ _ (vk_shape _ _ H)) _ _ _ Hd) as (_ & _ & _ & Ho & _). destruct (sh_own _ _ (vk_shape _ _ H) _ _ Ho) as (_ & _ & _ & Hf).
  destruct (word_full _ _ k Hf) as [e He]; [lia|]. exists k, e. unfold pd_get. rewrite (pd_recursive_ok _ _ (sh_dirs _ _ (vk_shape _ _ H)) (vk_cur _ _ H) _ _ Hd), res_bind_ok.
  rewrite (rd_word _ _ _ _ He), res_bind_ok, (mapped_wr _ G) by (auto; lia). auto.
Qed.

Lemma fill_pd_kernel v G n ds :
  vm_ok v G -> tmp_free v G TMP_VA -> spare v G n -> ds !! 3%nat = Some (n * 4096) -> length ds = 4%nat ->
  session v G TMP_VA n (fun q => forall i d, 0 <= i -> ds !! Z.to_nat i = Some d -> arr_at q (508 + i) = Z.lor (Z.lor d X86_PTE_PRESENT) X86_PTE_RW) (fill_pd v ds 3).
Proof.
  intros H Ht Hs Hd Hl. set (loop := for_z 4 0 (fun j v => d ← of_option (ds !! Z.to_nat j); kernel_wr v TMP_VA (508 + j) (Z.lor (Z.lor d X86_PTE_PRESENT) X86_PTE_RW))).
  set (body := fun v1 : vm S => v ← kernel_zero v1 TMP_VA; v ← for_z 512 0 (fun j v => e ← pd_get v 3 j; kernel_wr v TMP_VA j e) v; loop v).
  replace (fill_pd v ds 3) with (v1 ← vmm_map_page_nolock v (n * 4096) TMP_VA TMP_FLAGS; v2 ← body v1; vmm_unmap_page_nolock v2 TMP_VA).
  2: { unfold fill_pd, body. change (Z.to_nat 3) with 3%nat. rewrite Hd. simpl of_option. rewrite res_bind_ok. apply bind_nest. }
  apply tmp_session; auto. intros v1 G1 N Hm _ _. unfold body. rewrite (mapped_zero _ _ _ _ Hm), res_bind_ok.
  destruct (copy_kernel_pd v1 G1 n zero_page Hm eq_refl) as (z1 & -> & Hl1). rewrite res_bind_ok. unfold loop.
  destruct (mapped_loop v1 G1 TMP_VA n 4 0 (fun j v => d ← of_option (ds !! Z.to_nat j); kernel_wr v TMP_VA (508 + j) (Z.lor (Z.lor d X86_PTE_PRESENT) X86_PTE_RW))
      (fun k z => forall i d, 0 <= i < k -> ds !! Z.to_nat i = Some d -> arr_at z (508 + i) = Z.lor (Z.lor d X86_PTE_PRESENT) X86_PTE_RW) z1) as (z & -> & Hlz & Hz); auto; [lia| |].
  - intros k z Hk Hlz Hz. destruct (lookup_lt_is_Some_2 ds (Z.to_nat k)) as [d Hd']; [lia|]. exists (508 + k), (Z.lor (Z.lor d X86_PTE_PRESENT) X86_PTE_RW).
    rewrite Hd'. simpl of_option. rewrite res_bind_ok, (mapped_wr _ G1) by (auto; lia). split; [reflexivity|]. intros i d' Hi Hd2. rewrite arr_at_put.
    destruct (Z.eqb_spec (508 + k) (508 + i)) as [E|]; [assert (i = k) as -> by lia; congruence|apply Hz; auto; lia].
  - exists z. split; [reflexivity|]. split; [auto|]. intros i d Hi Hd'. apply Hz; auto. apply lookup_lt_Some in Hd'. lia.
Qed.

(** ** Frames in hand *)

Lemma spare_extends v G v' G' N n : extends v G v' G' N -> spare v G n -> spare v' G' n.
Proof.
  intros Hex (Ho & Hna & Hn & Hl). assert (n ∉ N) by (intros Hin; apply (ex_sub _ _ _ _ _ Hex) in Hin; auto).
  split; [|split; [rewrite (ex_avail _ _ _ _ _ Hex); set_solver|split; [auto|rewrite (ex_live _ _ _ _ _ Hex); auto]]].
  destruct (t_own G' !! (n * 4096)) as [r|] eqn:E; [|reflexivity]. apply (ex_own_inv _ _ _ _ _ Hex) in E as [E|(n' & Hn' & E)]; [congruence|].
  assert (n' = n) as -> by lia. contradiction.
Qed.

Lemma alloc_spare v G : vm_ok v G -> fa_avail (v_alloc v) <> ∅ ->
  exists n s', alloc_page v = Ok (n * 4096, set_alloc s' v) /\ takes (v_alloc v) s' n /\ vm_ok (set_alloc s' v) G /\ spare (set_alloc s' v) G n.
Proof.
  intros H Hne. destruct (alloc_ok v G H Hne) as (n & s' & E & Ht & Hn & H'). exists n, s'. repeat (split; [assumption|]).
  destruct Ht as (Hin & Ea & El). split; [exact (fresh_not_own v G n H Hin)|]. simpl. rewrite Ea, El, lookup_insert_eq. split; [set_solver|auto].
Qed.

Lemma takes_spare v G s' n k : takes (v_alloc v) s' n -> spare v G k -> spare (set_alloc s' v) G k.
Proof.
  intros (Hin & Ea & El) (Ho & Hna & Hk & Hl). split; [auto|]. simpl. rewrite Ea, El. split; [set_solver|]. split; [auto|].
  rewrite lookup_insert_ne by (intros ->; auto). auto.
Qed.

(** A frame without table loses a reference. *)
Lemma free_ok v G n : vm_ok v G -> t_own G !! (n * 4096) = None -> is_Some (fa_live (v_alloc v) !! n) ->
  exists s', free_page v (n * 4096) = Ok (set_alloc s' v) /\ vm_ok (set_alloc s' v) G /\
    released (fa_avail (v_alloc v)) (fa_live (v_alloc v)) n (fa_avail s') (fa_live s').
Proof.
  intros H Ho Hl. destruct (fa_free_live _ _ (vk_alloc _ _ H) Hl) as (s' & E & Hok & Hr). exists s'. unfold free_page. rewrite E.
  split; [reflexivity|]. split; [|exact Hr]. destruct Hr as (c & Hc & Hr). split; simpl; try apply H; auto.
  - intros k r Hk. assert (k <> n) by congruence. destruct (vk_own _ _ H k r Hk) as [Hka Hkl]. destruct (1 <? c); destruct Hr as [-> ->].
    + split; [auto|]. intros. rewrite lookup_insert_ne by auto. auto.
    + split; [set_solver|]. intros. rewrite lookup_delete_ne by auto. auto.
  - intros k Hk. apply H. destruct (decide (k = n)) as [->|]; [auto|]. destruct (1 <? c); destruct Hr as [Ea El]; rewrite Ea, El in Hk.
    + rewrite lookup_insert_ne in Hk by auto. auto.
    + rewrite lookup_delete_ne in Hk by auto. set_solver.
Qed.

(** [alloc_dirs] takes frames, or gives back those it took. *)
Lemma alloc_dirs_ok cnt v G done :
  vm_ok v G -> (cnt <= size (fa_avail (v_alloc v)))%nat ->
  exists ns s', alloc_dirs cnt v done = Ok (Some (done ++ map (fun n => n * 4096) ns), set_alloc s' v) /\ vm_ok (set_alloc s' v) G /\ length ns = cnt /\
    NoDup ns /\ (forall n, n ∈ ns -> spare (set_alloc s' v) G n) /\ list_to_set ns ⊆ fa_avail (v_alloc v) /\
    fa_avail s' = fa_avail (v_alloc v) ∖ list_to_set ns /\ (forall n, n ∉ ns -> fa_live s' !! n = fa_live (v_alloc v) !! n) /\
    (forall n, spare v G n -> spare (set_alloc s' v) G n).
Proof.
  revert v done. induction cnt as [|cnt IH]; intros v done H Hsz.
  - exists [], (v_alloc v). rewrite app_nil_r. destruct v. simpl in *. split; [reflexivity|]. split; [auto|]. split; [auto|].
    split; [constructor|]. split; [set_solver|]. split; [set_solver|]. split; [set_solver|auto].
  - destruct (alloc_spare v G H) as (n & s1 & E & Ht & H1 & Hsp); [intros E; rewrite E, size_empty in Hsz; lia|]. simpl. rewrite E, res_bind_ok.
    assert (n * 4096 =? 0 = false) as -> by (apply Z.eqb_neq; destruct Hsp as (_ & _ & ? & _); lia). pose proof Ht as (Hin & Ea & El).
    destruct (IH (set_alloc s1 v) (done ++ [n * 4096]) H1) as (ns & s' & E' & H' & Hlen & Hnd & Hns & Hsub & Ea' & El' & Hk).
    { simpl. rewrite Ea, size_difference, size_singleton by set_solver. lia. }
    exists (n :: ns), s'. rewrite E', <- app_assoc. simpl in *. assert (n ∉ ns) by set_solver.
    split; [reflexivity|]. split; [exact H'|]. split; [lia|]. split; [constructor; auto|].
    split; [intros k [->|Hin']%elem_of_cons; auto|]. split; [set_solver|]. split; [set_solver|].
    split; [|intros k Hk'; apply Hk, (takes_spare v G s1 n k); auto]. intros k Hk'. rewrite El', El, lookup_insert_ne by set_solver. reflexivity.
Qed.

(** ** Creation *)

(** A session after others: [v0] is the state before the first, with the pages they
    wrote. *)
Lemma session_next v0 G0 v G N t n Q r :
  extends v0 G0 v G N -> spare v G n -> is_Some (t_tab G !! (v_cr3 v, vpn t / 512)) -> session v G t n Q r ->
  exists v' G' q, r = Ok v' /\ vm_ok v' G' /\ extends (with_page (n * 4096) q v0) G0 v' G' N /\ arr_len q = 512 /\ Q q /\
    t_pte G' = t_pte G /\ t_sp G' = t_sp G /\ is_Some (t_tab G' !! (v_cr3 v', vpn t / 512)) /\ (forall k, k <> (v_cr3 v, vpn t / 512) -> t_tab G' !! k = t_tab G !! k) /\
    (forall k, spare v G k -> spare v' G' k).
Proof.
  intros Hex Hsp Htab (v' & G' & M & q & E & H' & Hex' & Hl & HQ & Ep & Es & Ht & HM & _ & Hk). rewrite (HM Htab) in Hex'. exists v', G', q.
  split; [auto|]. split; [auto|]. split; [rewrite <- (union_empty_r_L N); eapply extends_trans; [apply extends_write; [exact Hex|apply Hsp]|exact Hex']|].
  pose proof (ex_regs _ _ _ _ _ Hex') as (Ecr & _). simpl in Ecr. rewrite Ecr. repeat (split; [assumption|]).
  intros k Hk'. eapply spare_extends; [exact Hex'|]. exact Hk'.
Qed.

(** The five sessions that fill the new tables. *)
Definition fill_all (v : vm S) (a : Z) (ds : list Z) : res (vm S) :=
  v ← fill_pdpt v a ds; for_z 4 0 (fun i v => fill_pd v ds i) v.

Lemma fill_all_ok v G na n0 n1 n2 n3 :
  vm_ok v G -> tmp_free v G TMP_VA -> (forall n, n ∈ [na; n0; n1; n2; n3] -> spare v G n) ->
  let ds := map (fun n => n * 4096) [n0; n1; n2; n3] in
  exists v' G' N qa q3, fill_all v (na * 4096) ds = Ok v' /\ vm_ok v' G' /\
    extends (with_page (n3 * 4096) q3 (with_page (n2 * 4096) zero_page (with_page (n1 * 4096) zero_page
      (with_page (n0 * 4096) zero_page (with_page (na * 4096) qa v))))) G v' G' N /\ (size N <= 1)%nat /\
    t_pte G' = t_pte G /\ t_sp G' = t_sp G /\ (forall k, k <> (v_cr3 v, vpn TMP_VA / 512) -> t_tab G' !! k = t_tab G !! k) /\
    arr_len qa = 512 /\ arr_len q3 = 512 /\
    (forall i d, 0 <= i -> ds !! Z.to_nat i = Some d -> arr_at qa i = Z.lor d 1 /\ arr_at q3 (508 + i) = Z.lor (Z.lor d X86_PTE_PRESENT) X86_PTE_RW) /\
    (forall n, n ∈ [na; n0; n1; n2; n3] -> spare v' G' n).
Proof.
  intros H Ht Hsp ds. destruct (fill_pdpt_ok v G na ds H Ht) as (v1 & G1 & N & qa & E1 & H1 & X1 & La & Qa & P1 & S1 & T1 & _ & Hsz & K1); [apply Hsp; set_solver|reflexivity|].
  pose proof (ex_regs _ _ _ _ _ X1) as (C1 & _). simpl in C1. rewrite <- C1 in T1. destruct Ht as (Htv & Htp & _).
  assert (Hsp1 : forall n, n ∈ [na; n0; n1; n2; n3] -> spare v1 G1 n) by (intros n Hn; eapply spare_extends; [exact X1|]; apply (Hsp n Hn)).
  assert (F1 : tmp_free v1 G1 TMP_VA) by (split; [auto|]; rewrite C1, P1 in *; auto).
  destruct (session_next _ _ _ _ _ _ _ _ _ X1 (Hsp1 n0 ltac:(set_solver)) T1 (fill_pd_user v1 G1 n0 ds 0 H1 F1 (Hsp1 n0 ltac:(set_solver)) eq_refl ltac:(lia)))
    as (v2 & G2 & ? & E2 & H2 & X2 & _ & -> & P2 & S2 & T2 & K2 & Hs2). pose proof (ex_regs _ _ _ _ _ X2) as (C2 & _). simpl in C2.
  assert (Hsp2 : forall n, n ∈ [na; n0; n1; n2; n3] -> spare v2 G2 n) by auto.
  assert (F2 : tmp_free v2 G2 TMP_VA) by (split; [auto|]; rewrite C2, P2, P1 in *; auto).
  destruct (session_next _ _ _ _ _ _ _ _ _ X2 (Hsp2 n1 ltac:(set_solver)) T2 (fill_pd_user v2 G2 n1 ds 1 H2 F2 (Hsp2 n1 ltac:(set_solver)) eq_refl ltac:(lia)))
    as (v3 & G3 & ? & E3 & H3 & X3 & _ & -> & P3 & S3 & T3 & K3 & Hs3). pose proof (ex_regs _ _ _ _ _ X3) as (C3 & _). simpl in C3.
  assert (Hsp3 : forall n, n ∈ [na; n0; n1; n2; n3] -> spare v3 G3 n) by auto.
  assert (F3 : tmp_free v3 G3 TMP_VA) by (split; [auto|]; rewrite C3, P3, P2, P1 in *; auto).
  destruct (session_next _ _ _ _ _ _ _ _ _ X3 (Hsp3 n2 ltac:(set_solver)) T3 (fill_pd_user v3 G3 n2 ds 2 H3 F3 (Hsp3 n2 ltac:(set_solver)) eq_refl ltac:(lia)))
    as (v4 & G4 & ? & E4 & H4 & X4 & _ & -> & P4 & S4 & T4 & K4 & Hs4). pose proof (ex_regs _ _ _ _ _ X4) as (C4 & _). simpl in C4.
  assert (Hsp4 : forall n, n ∈ [na; n0; n1; n2; n3] -> spare v4 G4 n) by auto.
  assert (F4 : tmp_free v4 G4 TMP_VA) by (split; [auto|]; rewrite C4, P4, P3, P2, P1 in *; auto).
  destruct (session_next _ _ _ _ _ _ _ _ _ X4 (Hsp4 n3 ltac:(set_solver)) T4 (fill_pd_kernel v4 G4 n3 ds H4 F4 (Hsp4 n3 ltac:(set_solver)) eq_refl eq_refl))
    as (v5 & G5 & q3 & E5 & H5 & X5 & L3 & Q3 & P5 & S5 & T5 & K5 & Hs5).
  exists v5, G5, N, qa, q3. split; [unfold fill_all; rewrite E1, res_bind_ok; cbn [for_z]; rewrite E2, res_bind_ok; cbn [Z.add Pos.add]; change (0 + 1) with 1; rewrite E3, res_bind_ok; change (1 + 1) with 2; rewrite E4, res_bind_ok; change (2 + 1) with 3; rewrite E5; reflexivity|].
  split; [auto|]. split; [exact X5|]. split; [auto|]. split; [congruence|]. split; [congruence|].
  split; [intros k Hk; rewrite K5, K4, K3, K2, K1 by congruence; reflexivity|]. split; [auto|]. split; [auto|]. split; [auto|auto].
Qed.
End space.

Section create.
Context {S : Type} {FA : FrameAlloc S}.
Implicit Types v : vm S.

(** Frames in hand become the tables of a new address space. *)
Lemma vm_ok_add_space v G na n0 n1 n2 n3 qa q3 :
  let f n := n * 4096 in
  vm_ok v G -> NoDup [na; n0; n1; n2; n3] -> (forall n, n ∈ [na; n0; n1; n2; n3] -> spare v G n) ->
  v_mem v !! f na = Some qa -> arr_len qa = 512 -> v_mem v !! f n3 = Some q3 -> arr_len q3 = 512 ->
  (forall n, n ∈ [n0; n1; n2] -> v_mem v !! f n = Some zero_page) ->
  (forall i d, 0 <= i -> map f [n0; n1; n2; n3] !! Z.to_nat i = Some d -> arr_at qa i = Z.lor d 1 /\ arr_at q3 (508 + i) = Z.lor (Z.lor d X86_PTE_PRESENT) X86_PTE_RW) ->
  vm_ok v (add_space (f na) (f n0) (f n1) (f n2) (f n3) G).
Proof.
  intros f H Hnd Hsp Hqa La Hq3 L3 Hz Hpt. assert (Hsp' : forall a, a ∈ [f na; f n0; f n1; f n2; f n3] -> exists n, a = f n /\ spare v G n).
  { intros a Ha. change [f na; f n0; f n1; f n2; f n3] with (map f [na; n0; n1; n2; n3]) in Ha. apply list_elem_of_fmap in Ha as (n & -> & Hn). eauto. }
  assert (Hpts : forall i d, map f [n0; n1; n2; n3] !! Z.to_nat i = Some d -> 0 <= i -> points (v_mem v) (f na) i d /\ points (v_mem v) (f n3) (508 + i) d).
  { intros i d Hd Hi. assert (Hi4 : i < 4) by (apply lookup_lt_Some in Hd; simpl in Hd; lia). destruct (Hpt i d Hi Hd) as [Ea E3].
    assert (exists n, d = f n /\ 0 < n < 1048576) as (n & -> & Hn).
    { apply list_elem_of_lookup_2, list_elem_of_fmap in Hd as (n & -> & Hn). exists n. split; [auto|]. destruct (Hsp n) as (_ & _ & ? & _); [set_solver|auto]. }
    split; [exists (Z.lor (f n) 1)|exists (Z.lor (f n) 3)]; (split; [unfold word|]).
    - rewrite Hqa, arr_in_true, Ea by lia. reflexivity.
    - unfold f. rewrite has_lor, hw_frame_entry, entry_frame_entry by (lia || (split; reflexivity)). split; [apply orb_true_r|auto].
    - rewrite Hq3, arr_in_true, E3 by lia. rewrite <- Z.lor_assoc. reflexivity.
    - unfold f. rewrite has_lor, hw_frame_entry, entry_frame_entry by (lia || (split; reflexivity)). split; [apply orb_true_r|auto]. }
  assert (Hs : shape (v_mem v) (add_space (f na) (f n0) (f n1) (f n2) (f n3) G)).
  { apply shape_add_space; auto.
    - apply H.
    - intros Ha. pose proof (sp_own _ _ _ H Ha). destruct (Hsp na) as (? & _); [set_solver|unfold f in *; congruence].
    - change (NoDup (map f [na; n0; n1; n2; n3])). apply NoDup_fmap_2; [intros x y E; unfold f in E; lia|auto].
    - intros a Ha. destruct (Hsp' a Ha) as (n & -> & (Ho & _ & Hn & Hl)). split; [auto|]. exists n. split; [auto|]. split; [auto|]. apply H. eauto.
    - intros d k Hd Hk. change [f n0; f n1; f n2] with (map f [n0; n1; n2]) in Hd. apply list_elem_of_fmap in Hd as (n & -> & Hn).
      unfold word. rewrite (Hz n Hn). rewrite arr_in_true by (simpl; lia). reflexivity. }
  split; [exact Hs|simpl; apply elem_of_union_r, H|apply H| |apply H].
  intros n r Hr. apply add_own_inv in Hr as [Hin|Hr]; [|apply (vk_own _ _ H _ _ Hr)].
  destruct (Hsp' _ Hin) as (k & E & (_ & Hna & _ & Hl)). assert (n = k) as -> by (unfold f in E; lia). auto.
Qed.

(** The growth that makes an address space of the frames [ns]. *)
Lemma extends_add_space v v2 v' G G1 N (ns : list Z) a d0 d1 d2 d3 :
  map (fun n => n * 4096) ns = [a; d0; d1; d2; d3] -> list_to_set ns ⊆ fa_avail (v_alloc v) ->
  fa_avail (v_alloc v2) = fa_avail (v_alloc v) ∖ list_to_set ns -> (forall n, n ∉ ns -> fa_live (v_alloc v2) !! n = fa_live (v_alloc v) !! n) ->
  same_regs v v2 -> (forall f, f ∉ [a; d0; d1; d2; d3] -> v_mem v2 !! f = v_mem v !! f) -> (forall n, n ∈ ns -> spare v' G1 n) ->
  extends v2 G v' G1 N -> extends v G v' (add_space a d0 d1 d2 d3 G1) (list_to_set ns ∪ N).
Proof.
  intros Ens Hsub Ea El Hr Hm Hsp X. pose proof (ex_sub _ _ _ _ _ X) as HN. pose proof (ex_sp _ _ _ _ _ X).
  assert (Hin : forall n, n ∈ ns -> n * 4096 ∈ [a; d0; d1; d2; d3]) by (intros n Hn; rewrite <- Ens; apply list_elem_of_fmap; eauto).
  assert (Hout : forall f, f ∈ [a; d0; d1; d2; d3] -> exists n, n ∈ ns /\ f = n * 4096) by (intros f; rewrite <- Ens; intros (n & -> & Hn)%list_elem_of_fmap; eauto).
  assert (Hself : forall f, f ∈ [a; d0; d1; d2; d3] -> is_Some (t_own (add_space a d0 d1 d2 d3 G1) !! f)).
  { intros f Hf. simpl. rewrite !lookup_insert_is_Some'. clear -Hf. set_unfold in Hf. naive_solver. }
  split.
  - eapply same_regs_trans; [exact Hr|apply X].
  - rewrite Ea in HN. clear -Hsub HN. set_solver.
  - rewrite (ex_avail _ _ _ _ _ X), Ea. clear. set_solver.
  - intros n Hn. apply not_elem_of_union in Hn as [Hn1 Hn2]. rewrite (ex_live _ _ _ _ _ X), El by (auto; clear -Hn1; set_solver). reflexivity.
  - intros n [Hn|Hn]%elem_of_union; [apply Hself, Hin; clear -Hn; set_solver|]. simpl. rewrite !lookup_insert_is_Some'. do 5 right. apply (ex_new _ _ _ _ _ X n Hn).
  - intros f r Hf. apply (ex_own _ _ _ _ _ X) in Hf. simpl. assert (f ∉ [a; d0; d1; d2; d3]) as Hn.
    { intros (n & Hn & ->)%Hout. apply Hsp in Hn as (? & _). congruence. }
    clear -Hf Hn. set_unfold in Hn. rewrite !lookup_insert_ne by (intros ->; tauto). exact Hf.
  - intros f r Hf. apply add_own_inv in Hf as [(n & Hn & ->)%Hout|Hf]; [right; exists n; split; [clear -Hn; set_solver|auto]|].
    apply (ex_own_inv _ _ _ _ _ X) in Hf as [?|(n & Hn & ->)]; [auto|right; exists n; split; [clear -Hn; set_solver|auto]].
  - simpl. clear -H. set_solver.
  - apply (ex_tab _ _ _ _ _ X).
  - intros f Hf. rewrite <- Hm by (intros (? & ?)%Hself; congruence). apply (ex_mem _ _ _ _ _ X).
    simpl in Hf. rewrite !lookup_insert_None in Hf. tauto.
Qed.

Lemma create_eq v : vmm_as_create_kernel_clone v =
  ('(a, v) ← alloc_page v;
   if a =? 0 then mret (0, v) else
   '(o, v) ← alloc_dirs 4 v [];
   match o with None => v ← free_page v a; mret (0, v) | Some ds => v ← fill_all v a ds; mret (a, v) end).
Proof.
  unfold vmm_as_create_kernel_clone, fill_all. destruct (alloc_page v) as [[a v1]| |]; [|reflexivity..]. rewrite !res_bind_ok.
  destruct (a =? 0); [reflexivity|]. destruct (alloc_dirs 4 v1 []) as [[[ds|] v2]| |]; [|reflexivity..]. rewrite !res_bind_ok.
  destruct (fill_pdpt v2 a ds); reflexivity.
Qed.

Lemma create_ok v G :
  vm_ok v G -> t_pte G !! (v_cr3 v, vpn TMP_VA) = None -> (6 <= size (fa_avail (v_alloc v)))%nat ->
  exists a v' G' N, vmm_as_create_kernel_clone v = Ok (a, v') /\ vm_ok v' G' /\ extends v G v' G' N /\ (size N <= 6)%nat /\
    a ∉ t_sp G /\ t_sp G' = {[a]} ∪ t_sp G /\ t_pte G' = t_pte G /\ (forall g, t_tab G' !! (a, g) = None) /\
    (forall k, k <> (v_cr3 v, vpn TMP_VA / 512) -> t_tab G' !! k = t_tab G !! k).
Proof.
  intros H Hno Hsz. rewrite create_eq. destruct (alloc_spare v G H) as (na & s1 & -> & Ht & H1 & Hspa); [intros E; rewrite E, size_empty in Hsz; lia|]. rewrite res_bind_ok.
  assert (na * 4096 =? 0 = false) as -> by (apply Z.eqb_neq; destruct Hspa as (_ & _ & ? & _); lia). pose proof Ht as (Hin & Ea & El).
  assert (Hs1 : size (fa_avail s1) = (size (fa_avail (v_alloc v)) - 1)%nat) by (rewrite Ea, size_difference, size_singleton by set_solver; lia).
  destruct (alloc_dirs_ok 4 (set_alloc s1 v) G [] H1) as (ns & s2 & -> & H2 & Hlen & Hnd & Hns & Hsub & Ea2 & El2 & Hk2); [simpl; lia|]. rewrite res_bind_ok. simpl app.
  destruct ns as [|n0 [|n1 [|n2 [|n3 [|? ?]]]]]; try discriminate. simpl in Ea2, El2, Hsub.
  assert (Hsp : forall n, n ∈ [na; n0; n1; n2; n3] -> spare (set_alloc s2 v) G n) by (intros n [->|Hn]%elem_of_cons; [apply Hk2; exact Hspa|apply Hns; auto]).
  assert (Hna : na ∉ [n0; n1; n2; n3]) by (clear -Hsub Ea; set_solver).
  destruct (fill_all_ok (set_alloc s2 v) G na n0 n1 n2 n3 H2) as (v' & G1 & N & qa & q3 & E3 & H3 & X3 & Hsz3 & P3 & S3 & K3 & La & L3 & Q3 & Hsp3); auto.
  { split; [unfold user_va, TMP_VA; lia|]. split; [exact Hno|]. right. simpl. intros E. rewrite Ea2 in E.
    assert (size (fa_avail s1 ∖ list_to_set [n0; n1; n2; n3]) = 0%nat) as Hz0 by (simpl; rewrite E; apply size_empty).
    rewrite size_difference, size_list_to_set in Hz0 by (auto; simpl; set_solver). simpl in Hz0. lia. }
  change (set_alloc s2 (set_alloc s1 v)) with (set_alloc s2 v) in *.
  change (map (fun n => n * 4096) [n0; n1; n2; n3]) with [n0 * 4096; n1 * 4096; n2 * 4096; n3 * 4096] in *. rewrite E3, res_bind_ok.
  exists (na * 4096), v', (add_space (na * 4096) (n0 * 4096) (n1 * 4096) (n2 * 4096) (n3 * 4096) G1), (list_to_set [na; n0; n1; n2; n3] ∪ N). split; [reflexivity|].
  assert (Hnd5 : NoDup [na; n0; n1; n2; n3]) by (constructor; auto). assert (Hsp0 : na * 4096 ∉ t_sp G1).
  { intros Ha. pose proof (sp_own _ _ _ H3 Ha). destruct (Hsp3 na) as (? & _); [clear; set_solver|congruence]. }
  split; [|split; [|split; [|split; [|split; [|split; [|split]]]]]].
  - assert (Hm : forall n, n ∈ [na; n0; n1; n2; n3] -> v_mem v' !! (n * 4096) = _) by (intros n Hn; apply (ex_mem _ _ _ _ _ X3), (Hsp3 n Hn)).
    simpl in Hm. clear -H3 Hnd5 Hsp3 La L3 Q3 Hm. repeat setoid_rewrite NoDup_cons in Hnd5. pose proof Hnd5 as Hd. set_unfold in Hd.
    apply (vm_ok_add_space v' G1 na n0 n1 n2 n3 qa q3); auto.
    + repeat setoid_rewrite NoDup_cons. auto.
    + rewrite Hm by set_solver. rewrite !lookup_insert_ne, lookup_insert_eq by lia. reflexivity.
    + rewrite Hm by set_solver. rewrite lookup_insert_eq. reflexivity.
    + intros n Hn. rewrite Hm by set_solver. set_unfold in Hn. destruct Hn as [-> | [-> | [-> | []]]];
        repeat first [rewrite lookup_insert_eq; reflexivity|rewrite lookup_insert_ne by lia].
  - eapply (extends_add_space v _ v' G G1 N [na; n0; n1; n2; n3]); [reflexivity| | | | | |exact Hsp3|exact X3]; simpl.
    + clear -Hsub Ea Hin. set_solver.
    + rewrite Ea2, Ea. clear. set_solver.
    + intros n Hn. rewrite El2, El, lookup_insert_ne by (clear -Hn; set_solver). reflexivity.
    + repeat split.
    + intros f Hf. clear -Hf. set_unfold in Hf. rewrite !lookup_insert_ne by (intros <-; tauto). reflexivity.
  - rewrite size_union_alt. pose proof (size_list_to_set (C := gset Z) [na; n0; n1; n2; n3] Hnd5) as E5. rewrite E5.
    assert (size (N ∖ list_to_set [na; n0; n1; n2; n3]) <= size N)%nat by (apply subseteq_size; clear; set_solver). simpl length. lia.
  - rewrite <- S3. exact Hsp0.
  - simpl. rewrite S3. reflexivity.
  - simpl. exact P3.
  - intros g. simpl. eapply add_no_tab; [apply H3|exact Hsp0].
  - intros k Hk. simpl. apply K3. exact Hk.
Qed.

(** ** Out of memory *)

(** The frames [ns] are given back. *)
Definition gives (s s' : S) (ns : list Z) : Prop :=
  fa_avail s' = fa_avail s ∪ list_to_set ns /\ (forall n, n ∈ ns -> fa_live s' !! n = None) /\ (forall n, n ∉ ns -> fa_live s' !! n = fa_live s !! n).

Lemma free_spare v G n : vm_ok v G -> spare v G n ->
  exists s', free_page v (n * 4096) = Ok (set_alloc s' v) /\ vm_ok (set_alloc s' v) G /\ gives (v_alloc v) s' [n].
Proof.
  intros H (Ho & _ & _ & Hl). destruct (free_ok v G n H Ho) as (s' & E & H' & (c & Hc & Hr)); [eauto|]. simplify_eq. simpl in Hr. destruct Hr as [Ea El].
  exists s'. split; [auto|]. split; [auto|]. split; [set_solver|]. rewrite El. split; [intros k ->%list_elem_of_singleton; apply lookup_delete_eq|].
  intros k Hk. apply lookup_delete_ne. set_solver.
Qed.

Lemma free_pages_spare ns v G : vm_ok v G -> NoDup ns -> (forall n, n ∈ ns -> spare v G n) ->
  exists s', free_pages v (map (fun n => n * 4096) ns) = Ok (set_alloc s' v) /\ vm_ok (set_alloc s' v) G /\ gives (v_alloc v) s' ns.
Proof.
  revert v. induction ns as [|n ns IH]; intros v H Hnd Hsp.
  - exists (v_alloc v). destruct v. split; [reflexivity|]. split; [auto|]. split; [set_solver|]. split; [set_solver|auto].
  - apply NoDup_cons in Hnd as [Hn Hnd]. destruct (free_spare v G n H) as (s1 & E1 & H1 & (Ea & Ed & El)); [apply Hsp; set_solver|].
    destruct (IH (set_alloc s1 v) H1 Hnd) as (s2 & E2 & H2 & (Ea2 & Ed2 & El2)).
    { intros k Hk. destruct (Hsp k) as (Ho & Hna & Hr & Hl); [set_solver|]. split; [auto|]. simpl. rewrite Ea, El by set_solver. set_solver. }
    exists s2. simpl. rewrite E1, res_bind_ok, E2. split; [reflexivity|]. split; [exact H2|]. simpl in *. split; [set_solver|]. split.
    + intros k [->|Hk]%elem_of_cons; [rewrite El2 by auto; apply Ed; set_solver|auto].
    + intros k Hk. rewrite El2, El by set_solver. reflexivity.
Qed.

Lemma alloc_dirs_fail cnt v G ns :
  vm_ok v G -> (size (fa_avail (v_alloc v)) < cnt)%nat -> NoDup ns -> (forall n, n ∈ ns -> spare v G n) ->
  exists s', alloc_dirs cnt v (map (fun n => n * 4096) ns) = Ok (None, set_alloc s' v) /\ vm_ok (set_alloc s' v) G /\ gives (v_alloc v) s' ns.
Proof.
  revert v ns. induction cnt as [|cnt IH]; intros v ns H Hsz Hnd Hsp; [lia|]. simpl. destruct (decide (fa_avail (v_alloc v) = ∅)) as [E0|Hne].
  - destruct (alloc_none v G H E0) as (s1 & -> & Ea & El & H1). rewrite res_bind_ok. simpl.
    destruct (free_pages_spare ns (set_alloc s1 v) G H1 Hnd) as (s2 & E2 & H2 & (Ea2 & Ed2 & El2)).
    { intros n Hn. destruct (Hsp n Hn) as (? & ? & ? & ?). split; [auto|]. simpl. rewrite Ea, El. set_solver. }
    rewrite E2, res_bind_ok. exists s2. split; [reflexivity|]. split; [exact H2|]. simpl in *. split; [set_solver|]. split; [auto|]. intros. rewrite El2, El; auto.
  - destruct (alloc_spare v G H Hne) as (n & s1 & -> & Ht & H1 & Hn). rewrite res_bind_ok. pose proof Ht as (Hin & Ea & El).
    assert (n * 4096 =? 0 = false) as -> by (apply Z.eqb_neq; destruct Hn as (_ & _ & ? & _); lia).
    assert (Hn' : n ∉ ns) by (intros Hx; apply Hsp in Hx as (_ & ? & _); auto).
    change [n * 4096] with (map (fun n => n * 4096) [n]). rewrite <- map_app.
    destruct (IH (set_alloc s1 v) (ns ++ [n]) H1) as (s2 & E2 & H2 & (Ea2 & Ed2 & El2)).
    + simpl. rewrite Ea, size_difference, size_singleton by set_solver. assert (size (fa_avail (v_alloc v)) <> 0%nat) by (intros Hz; apply Hne, leibniz_equiv, size_empty_inv, Hz). lia.
    + apply NoDup_app. split; [auto|]. split; [set_solver|]. constructor; [set_solver|constructor].
    + intros k [Hk|Hk]%elem_of_app; [apply (takes_spare v G s1 n k); auto|]. apply list_elem_of_singleton in Hk as ->. exact Hn.
    + exists s2. rewrite E2. split; [reflexivity|]. split; [exact H2|]. simpl in *. split; [|split].
      * rewrite Ea2, Ea, list_to_set_app_L. simpl. apply set_eq. intros k. destruct (decide (k = n)); set_solver.
      * intros k Hk. apply Ed2. set_solver.
      * intros k Hk. destruct (decide (k = n)) as [->|]; [|rewrite El2, El, lookup_insert_ne by set_solver; reflexivity].
        rewrite (Ed2 n) by set_solver. symmetry. eapply fa_disjoint; [apply H|auto].
Qed.

(** With fewer than five frames nothing is created and all that was taken is given back. *)
Lemma create_oom v G :
  vm_ok v G -> (size (fa_avail (v_alloc v)) < 5)%nat ->
  exists s', vmm_as_create_kernel_clone v = Ok (0, set_alloc s' v) /\ vm_ok (set_alloc s' v) G /\
    fa_avail s' = fa_avail (v_alloc v) /\ fa_live s' = fa_live (v_alloc v).
Proof.
  intros H Hsz. rewrite create_eq. destruct (decide (fa_avail (v_alloc v) = ∅)) as [E0|Hne].
  - destruct (alloc_none v G H E0) as (s1 & -> & Ea & El & H1). exists s1. rewrite Ea, E0. auto.
  - destruct (alloc_spare v G H Hne) as (n & s1 & -> & Ht & H1 & Hn). rewrite res_bind_ok. pose proof Ht as (Hin & Ea & El).
    assert (n * 4096 =? 0 = false) as -> by (apply Z.eqb_neq; destruct Hn as (_ & _ & ? & _); lia).
    destruct (alloc_dirs_fail 4 (set_alloc s1 v) G [] H1) as (s2 & E2 & H2 & (Ea2 & _ & El2)); [|constructor|set_solver|].
    { simpl. rewrite Ea, size_difference, size_singleton by set_solver. assert (size (fa_avail (v_alloc v)) <> 0%nat) by (intros Hz; apply Hne, leibniz_equiv, size_empty_inv, Hz). lia. }
    simpl map in E2. rewrite E2, res_bind_ok. simpl in Ea2, El2.
    destruct (free_spare (set_alloc s2 v) G n H2) as (s3 & E3 & H3 & (Ea3 & Ed3 & El3)).
    { destruct Hn as (? & ? & ? & ?). split; [auto|]. simpl in *. rewrite Ea2, El2 by set_solver. set_solver. }
    change (set_alloc s2 (set_alloc s1 v)) with (set_alloc s2 v). rewrite E3, res_bind_ok. exists s3. split; [reflexivity|]. split; [exact H3|]. simpl in *. split.
    + rewrite Ea3, Ea2, Ea. apply set_eq. intros k. destruct (decide (k = n)); set_solver.
    + apply map_eq. intros k. destruct (decide (k = n)) as [->|].
      * rewrite (Ed3 n) by set_solver. symmetry. eapply fa_disjoint; [apply H|auto].
      * rewrite El3, El2, El, lookup_insert_ne by set_solver. reflexivity.
Qed.
End create.
