(* ===== verification/VmmUser.v ===== *)
(** The memory of processes: the private memory each address space shows, the frames
    behind it and their reference counts; stores with copy on write. *)

From S2P Require Import Prelude Frames Vmm VmmInv VmmOps VmmSpace.

(** A page as a process sees it. *)
Record upage : Type := UPage { u_data : page; u_write : bool; u_nx : bool }.

(** The memory of all processes, by address space and page number. *)
Notation umem := (gmap (Z * Z) upage) (only parsing).

Definition upage_of (m : gmap Z page) (e : Z) : option upage :=
  if has e X86_PTE_USER
  then match m !! hw_frame e with
       | Some p => Some (UPage p (has e X86_PTE_RW || has e X86_PTE_COW) (has e X86_PTE_NX))
       | None => None
       end
  else None.

Definition view (m : gmap Z page) (P : gmap (Z * Z) Z) : umem := omap (upage_of m) P.

(** The number of user mappings of frame [f]. *)
Definition is_ref (f e : Z) : bool := has e X86_PTE_USER && (hw_frame e =? f * 4096).
Definition refs (P : gmap (Z * Z) Z) (f : Z) : nat := size (filter (fun x => is_ref f x.2 = true) P).

Lemma refs_insert P k e f : P !! k = None -> refs (<[k := e]> P) f = ((if is_ref f e then 1 else 0) + refs P f)%nat.
Proof.
  intros Hk. unfold refs. destruct (is_ref f e) eqn:E.
  - rewrite map_filter_insert_True by auto. rewrite map_size_insert_None; [reflexivity|]. apply map_lookup_filter_None. auto.
  - rewrite map_filter_insert_False by (simpl; congruence). rewrite delete_id by auto. reflexivity.
Qed.

Lemma refs_delete P k e f : P !! k = Some e -> refs P f = ((if is_ref f e then 1 else 0) + refs (delete k P) f)%nat.
Proof. intros Hk. rewrite <- (insert_delete_id P k e) at 1 by auto. apply refs_insert, lookup_delete_eq. Qed.

Lemma refs_replace P k e x f : P !! k = Some e ->
  ((if is_ref f e then 1 else 0) + refs (<[k := x]> P) f = (if is_ref f x then 1 else 0) + refs P f)%nat.
Proof.
  intros Hk. rewrite <- insert_delete_eq, refs_insert by apply lookup_delete_eq. rewrite (refs_delete P k e f Hk). lia.
Qed.

Lemma refs_pos P k e f : P !! k = Some e -> is_ref f e = true -> (1 <= refs P f)%nat.
Proof. intros Hk He. rewrite (refs_delete P k e f Hk), He. lia. Qed.

(** A frame with one mapping has no other. *)
Lemma refs_unique P k k' e e' f : refs P f = 1%nat -> P !! k = Some e -> P !! k' = Some e' -> is_ref f e = true -> is_ref f e' = true -> k = k'.
Proof.
  intros Hr Hk Hk' He He'. destruct (decide (k = k')) as [|Hne]; [auto|]. exfalso. rewrite (refs_delete P k e f Hk), He in Hr.
  assert (1 <= refs (delete k P) f)%nat; [|lia]. apply (refs_pos _ k' e'); [rewrite lookup_delete_ne|]; auto.
Qed.

(** The view after changes. *)
Lemma view_lookup m P k : view m P !! k = P !! k ≫= upage_of m.
Proof. apply lookup_omap. Qed.

Lemma view_insert m P k e u : upage_of m e = Some u -> view m (<[k := e]> P) = <[k := u]> (view m P).
Proof. intros. apply omap_insert_Some. auto. Qed.

Lemma view_delete m P k : view m (delete k P) = delete k (view m P).
Proof. apply omap_delete. Qed.

Lemma view_mem m m' P : (forall k e, P !! k = Some e -> has e X86_PTE_USER = true -> m' !! hw_frame e = m !! hw_frame e) -> view m' P = view m P.
Proof.
  intros Hm. apply map_eq. intros k. rewrite !view_lookup. destruct (P !! k) as [e|] eqn:E; [|reflexivity]. simpl. unfold upage_of.
  destruct (has e X86_PTE_USER) eqn:Eu; [|reflexivity]. rewrite (Hm k e E Eu). reflexivity.
Qed.

Section user.
Context {S : Type} {FA : FrameAlloc S}.
Implicit Types v : vm S.
(** The references the kernel holds of a frame, besides those of the page tables. *)
Context (pin : Z -> nat).

(** A user entry: its frame is allocated and holds no table; if the page is writable,
    the frame has no other use. *)
Definition entry_ok (v : vm S) (G : tables) (e : Z) : Prop :=
  exists f, hw_frame e = f * 4096 /\ entry_frame e = f * 4096 /\ t_own G !! (f * 4096) = None /\ is_Some (fa_live (v_alloc v) !! f) /\
    (has e X86_PTE_RW = true -> refs (t_pte G) f = 1%nat /\ pin f = 0%nat) /\ (has e X86_PTE_NX = true -> v_nxe v = true).

Record user_ok (v : vm S) (G : tables) : Prop := {
  us_vm : vm_ok v G;
  us_user a n e : t_pte G !! (a, n) = Some e -> has e X86_PTE_USER = negb (a =? v_kernel_as v);
  us_entry k e : t_pte G !! k = Some e -> has e X86_PTE_USER = true -> entry_ok v G e;
  us_count f c : fa_live (v_alloc v) !! f = Some c -> t_own G !! (f * 4096) = None ->
    c = Z.of_nat (refs (t_pte G) f + pin f) /\ c < 65536;
  us_pin f : f ∈ fa_avail (v_alloc v) \/ is_Some (t_own G !! (f * 4096)) -> pin f = 0%nat;
  us_tmp a t : t = TMP_VA \/ t = TMP_COW_VA -> t_pte G !! (a, vpn t) = None
}.

(** The memory that processes see. *)
Definition uview (v : vm S) (G : tables) : umem := view (v_mem v) (t_pte G).

Lemma entry_mapped v G k e : user_ok v G -> t_pte G !! k = Some e -> has e X86_PTE_USER = true ->
  exists p, v_mem v !! hw_frame e = Some p /\ arr_len p = 512 /\
    uview v G !! k = Some (UPage p (has e X86_PTE_RW || has e X86_PTE_COW) (has e X86_PTE_NX)).
Proof.
  intros H He Hu. destruct (us_entry _ _ H k e He Hu) as (f & Ef & _ & _ & Hl & _). destruct (vk_ram _ _ (us_vm _ _ H) f (or_intror Hl)) as (p & Hp & Lp).
  exists p. rewrite Ef. split; [auto|]. split; [auto|]. unfold uview. rewrite view_lookup, He. simpl. unfold upage_of. rewrite Hu, Ef, Hp. reflexivity.
Qed.

Lemma is_ref_of f e : has e X86_PTE_USER = true -> hw_frame e = f * 4096 -> is_ref f e = true.
Proof. intros Hu He. unfold is_ref. rewrite Hu, He, Z.eqb_refl. reflexivity. Qed.
Lemma is_ref_ne f f' e : hw_frame e = f * 4096 -> f <> f' -> is_ref f' e = false.
Proof. intros He Hne. unfold is_ref. rewrite He. replace (f * 4096 =? f' * 4096) with false; [apply andb_false_r|]. symmetry. apply Z.eqb_neq. lia. Qed.
Lemma is_ref_eq f e : is_ref f e = true -> has e X86_PTE_USER = true /\ hw_frame e = f * 4096.
Proof. unfold is_ref. intros [? ->%Z.eqb_eq]%andb_prop. auto. Qed.

(** ** Stores to a page that is writable *)

Lemma store_page v G k e f p :
  user_ok v G -> t_pte G !! k = Some e -> has e X86_PTE_USER = true -> has e X86_PTE_RW = true -> hw_frame e = f -> arr_len p = 512 ->
  let v' := set_mem (<[f := p]> (v_mem v)) v in
  user_ok v' G /\ uview v' G = <[k := UPage p true (has e X86_PTE_NX)]> (uview v G).
Proof.
  intros H He Hu Hrw <- Lp v'. destruct (us_entry _ _ H k e He Hu) as (f & Ef & Eef & Ho & Hl & H1 & _). destruct (H1 Hrw) as [Hr1 _]. split.
  - split; try apply H. apply vm_ok_data; [apply H|rewrite Ef; auto|auto].
  - unfold uview. simpl. apply map_eq. intros k'. rewrite view_lookup. destruct (decide (k' = k)) as [->|Hne].
    + rewrite lookup_insert_eq, He. simpl. unfold upage_of. rewrite Hu, lookup_insert_eq, Hrw. reflexivity.
    + rewrite lookup_insert_ne, view_lookup by auto. destruct (t_pte G !! k') as [e'|] eqn:E'; [|reflexivity]. simpl. unfold upage_of.
      destruct (has e' X86_PTE_USER) eqn:Eu'; [|reflexivity]. rewrite lookup_insert_ne; [reflexivity|]. intros Ex. apply Hne. symmetry.
      eapply (refs_unique (t_pte G)); eauto using is_ref_of. apply is_ref_of; congruence.
Qed.

(** ** Copy on write *)

(** The entry the handler makes for frame [f] from the entry [e]. *)
Definition cow_entry (e f : Z) : Z := Z.lor (Z.lor (Z.lor (Z.lor f X86_PTE_PRESENT) X86_PTE_RW) X86_PTE_USER) (Z.land e X86_PTE_NX).

Lemma cow_entry_facts e f : 0 < f < 1048576 ->
  let x := cow_entry e (f * 4096) in
  hw_frame x = f * 4096 /\ entry_frame x = f * 4096 /\ has x X86_PTE_PRESENT = true /\ has x X86_PTE_RW = true /\ has x X86_PTE_USER = true /\
  has x X86_PTE_NX = has e X86_PTE_NX.
Proof.
  intros Hf x. assert (E : x = Z.lor (f * 4096) (Z.lor 7 (Z.land e X86_PTE_NX))) by (unfold x, cow_entry; change 7 with (Z.lor (Z.lor X86_PTE_PRESENT X86_PTE_RW) X86_PTE_USER); rewrite <- !Z.lor_assoc; reflexivity).
  assert (Hfo : flags_only (Z.lor 7 (Z.land e X86_PTE_NX))).
  { apply flags_only_lor; [split; reflexivity|]. split; [unfold hw_frame|unfold entry_frame]; rewrite <- Z.land_assoc; apply Z.land_0_r. }
  rewrite E. rewrite hw_frame_entry, entry_frame_entry by (auto; lia). rewrite !has_lor, has_frame_nx by lia. rewrite !has_frame by (unfold X86_PTE_PRESENT, X86_PTE_RW, X86_PTE_USER; lia).
  rewrite (has_land e X86_PTE_NX X86_PTE_NX). repeat split.
Qed.

(** An entry of a user page is replaced. *)
Lemma set_user_pte v G va e x :
  vm_ok v G -> user_va va -> t_pte G !! (v_cr3 v, vpn va) = Some e -> has e X86_PTE_USER = true -> has x X86_PTE_PRESENT = true ->
  exists m', pt_set v (pae_pdpt_index va) (pae_pd_index va) (pae_pt_index va) x = Ok (set_mem m' v) /\
    vm_ok (set_mem m' v) (set_pte (v_cr3 v, vpn va) x G) /\ (forall f, t_own G !! f = None -> m' !! f = v_mem v !! f).
Proof.
  intros H Hva He Hu Hx. destruct (va_indices va Hva) as (Hi & Hdi & Hti & Eg & _ & En & _). pose proof (vk_shape _ _ H) as Hs.
  destruct (sh_some _ _ Hs _ _ _ He) as [_ [t Ht]]. rewrite Eg in Ht. destruct (pt_set_ok v G _ _ _ x t H Hi Hdi Hti Ht) as (m' & E & H' & Hm).
  - intros _ _ d pde Hd Hw. destruct (sh_pde _ _ Hs _ _ (pae_pd_index va) _ Hd) as (pde' & Hw' & Hok); [lia|auto|]. simplify_eq.
    unfold pde_ok in Hok. rewrite Ht in Hok. destruct Hok as (_ & _ & _ & _ & Huu). eapply Huu; [exact Hti| |exact Hu]. rewrite <- En. exact He.
  - exists m'. rewrite En. split; [auto|]. split; [auto|]. intros f Hf. apply Hm. intros ->. apply (sh_tab _ _ Hs) in Ht as (_ & _ & ?). congruence.
Qed.

Lemma set_pte_present k x G : has x X86_PTE_PRESENT = true -> t_pte (set_pte k x G) = <[k := x]> (t_pte G).
Proof. intros Hx. simpl. rewrite Hx. reflexivity. Qed.

(** The only mapping of a frame becomes writable. *)
Lemma cow_upgrade v G va e f :
  user_ok v G -> user_va va -> t_pte G !! (v_cr3 v, vpn va) = Some e -> has e X86_PTE_USER = true -> has e X86_PTE_COW = true ->
  hw_frame e = f * 4096 -> fa_live (v_alloc v) !! f = Some 1 ->
  exists m' G', pt_set v (pae_pdpt_index va) (pae_pd_index va) (pae_pt_index va) (cow_entry e (f * 4096)) = Ok (set_mem m' v) /\
    user_ok (set_mem m' v) G' /\ uview (set_mem m' v) G' = uview v G /\ t_sp G' = t_sp G /\ t_pte G' = <[(v_cr3 v, vpn va) := cow_entry e (f * 4096)]> (t_pte G).
Proof.
  intros H Hva He Hu Hc Ef Hl. set (x := cow_entry e (f * 4096)). destruct (us_entry _ _ H _ _ He Hu) as (f' & Ef' & _ & Ho & _ & _ & Hnx).
  assert (f' = f) as -> by lia. assert (Hf : 0 < f < 1048576) by (apply (fa_range _ f (vk_alloc _ _ (us_vm _ _ H))); eauto).
  destruct (cow_entry_facts e f Hf) as (Xh & Xe & Xp & Xrw & Xu & Xnx). fold x in Xh, Xe, Xp, Xrw, Xu, Xnx.
  destruct (set_user_pte v G va e x (us_vm _ _ H) Hva He Hu Xp) as (m' & E & H' & Hm). set (k := (v_cr3 v, vpn va)) in *.
  assert (Er : forall g, refs (<[k := x]> (t_pte G)) g = refs (t_pte G) g).
  { intros g. pose proof (refs_replace (t_pte G) k e x g He) as Er. replace (is_ref g x) with (is_ref g e) in Er by (unfold is_ref; rewrite Hu, Xu, Ef, Xh; reflexivity). lia. }
  destruct (us_count _ _ H f 1 Hl Ho) as [Hcnt _]. pose proof (refs_pos _ _ _ f He (is_ref_of f e Hu Ef)) as Hpos.
  exists m', (set_pte k x G). split; [exact E|]. assert (Ep : t_pte (set_pte k x G) = <[k := x]> (t_pte G)) by (apply set_pte_present, Xp).
  split; [|split; [|split; [reflexivity|exact Ep]]].
  - split; auto; rewrite ?Ep.
    + intros a n e'. destruct (decide (k = (a, n))) as [Ek|]; [rewrite Ek, lookup_insert_eq; intros [= <-]|rewrite lookup_insert_ne by auto; apply (us_user _ _ H)].
      rewrite Xu, <- Hu. unfold k in Ek. injection Ek as <- <-. apply (us_user _ _ H _ _ _ He).
    + intros k' e' Hk' Hu'. unfold entry_ok. rewrite Ep. destruct (decide (k = k')) as [<-|].
      * rewrite lookup_insert_eq in Hk'. injection Hk' as <-. exists f. split; [auto|]. split; [auto|]. split; [auto|]. split; [eauto|].
        split; [intros _; rewrite Er; lia|]. rewrite Xnx. exact Hnx.
      * rewrite lookup_insert_ne in Hk' by auto. destruct (us_entry _ _ H _ _ Hk' Hu') as (g & ? & ? & ? & ? & ? & ?). exists g. rewrite Er. auto 10.
    + intros g c Hg Hog. rewrite Er. apply (us_count _ _ H); auto.
    + apply H.
    + intros a t Ht. rewrite lookup_insert_ne; [apply (us_tmp _ _ H), Ht|]. intros Ek. rewrite Ek, (us_tmp _ _ H _ _ Ht) in He. discriminate.
  - unfold uview. rewrite Ep. simpl. destruct (entry_mapped v G k e H He Hu) as (p & Hp & Lp & Hv). rewrite (view_mem (v_mem v)).
    + erewrite view_insert; [apply insert_id; exact Hv|]. unfold upage_of. rewrite Xu, Xh, <- Ef, Hp, Xrw, Xnx, Hc. rewrite orb_true_r. reflexivity.
    + intros k' e' Hk' Hu'. apply Hm. destruct (decide (k = k')) as [<-|]; [rewrite lookup_insert_eq in Hk'; simplify_eq; rewrite Xh; auto|].
      rewrite lookup_insert_ne in Hk' by auto. destruct (us_entry _ _ H _ _ Hk' Hu') as (g & -> & _ & ? & _). auto.
Qed.

(** The other mappings of a frame keep it; this one gets a copy [nf]. *)
Definition cow_break (v : vm S) (va e f nf : Z) : res (vm S) :=
  v ← vmm_map_page_nolock v nf TMP_COW_VA (Z.lor VMM_FLAG_PRESENT VMM_FLAG_RW);
  v ← kernel_copy_page v TMP_COW_VA (vpn va * 4096);
  v ← vmm_unmap_page_nolock v TMP_COW_VA;
  v ← decref v f;
  pt_set v (pae_pdpt_index va) (pae_pd_index va) (pae_pt_index va) (cow_entry e nf).

Lemma decref_ok v G n : vm_ok v G -> t_own G !! (n * 4096) = None -> is_Some (fa_live (v_alloc v) !! n) ->
  exists s', decref v (n * 4096) = Ok (set_alloc s' v) /\ vm_ok (set_alloc s' v) G /\
    released (fa_avail (v_alloc v)) (fa_live (v_alloc v)) n (fa_avail s') (fa_live s').
Proof.
  intros H Ho Hl. destruct (fa_decref_live _ _ (vk_alloc _ _ H) Hl) as (c' & s' & E & Hok & Hr). exists s'. unfold decref. rewrite E.
  split; [reflexivity|]. split; [|exact Hr]. destruct Hr as (c & Hc & Hr). split; simpl; try apply H; auto.
  - intros k r Hk. assert (k <> n) by congruence. destruct (vk_own _ _ H k r Hk) as [Hka Hkl]. destruct (1 <? c); destruct Hr as [-> ->].
    + split; [auto|]. intros. rewrite lookup_insert_ne by auto. auto.
    + split; [set_solver|]. intros. rewrite lookup_delete_ne by auto. auto.
  - intros k Hk. apply H. destruct (decide (k = n)) as [->|]; [auto|]. destruct (1 <? c); destruct Hr as [Ea El]; rewrite Ea, El in Hk.
    + rewrite lookup_insert_ne in Hk by auto. auto.
    + rewrite lookup_delete_ne in Hk by auto. set_solver.
Qed.

Lemma tmp_cow_user : user_va TMP_COW_VA.
Proof. unfold user_va, TMP_COW_VA. lia. Qed.

(** The copy through the temporary mapping. *)
Lemma cow_session v G va e f nf p :
  vm_ok v G -> user_va va -> t_pte G !! (v_cr3 v, vpn va) = Some e -> hw_frame e = f * 4096 -> t_own G !! (f * 4096) = None ->
  v_mem v !! (f * 4096) = Some p -> arr_len p = 512 -> spare v G nf -> nf <> f -> tmp_free v G TMP_COW_VA -> is_Some (fa_live (v_alloc v) !! f) ->
  session v G TMP_COW_VA nf (fun q => q = p)
    (v1 ← vmm_map_page_nolock v (nf * 4096) TMP_COW_VA TMP_FLAGS; v2 ← kernel_copy_page v1 TMP_COW_VA (vpn va * 4096); vmm_unmap_page_nolock v2 TMP_COW_VA).
Proof.
  intros H Hva He Ef Ho Hp Lp Hs Hne Htf Hlf. apply (tmp_session v G TMP_COW_VA nf _ (fun v1 => kernel_copy_page v1 TMP_COW_VA (vpn va * 4096))); auto.
  intros v1 G1 N Hm X HP. exists p. split; [|auto]. unfold kernel_copy_page. pose proof Hm as (H1 & _ & Ho1 & (q & Hq & Lq) & _).
  assert (Hva' : user_va (vpn va * 4096)) by (unfold user_va, vpn in *; Z.to_euclidean_division_equations; lia).
  assert (Ev : vpn (vpn va * 4096) = vpn va) by (unfold vpn; rewrite Z.div_mul by lia; reflexivity).
  pose proof (ex_regs _ _ _ _ _ X) as (Ecr & _). destruct Htf as (_ & Htp & _).
  assert (kernel_page v1 false (vpn va * 4096) = Ok (f * 4096)) as ->.
  { unfold kernel_page. rewrite (access_ok v1 G1) by auto. rewrite res_bind_ok, Ev, Ecr, HP by congruence. rewrite He. unfold may. simpl. rewrite Ef. reflexivity. }
  rewrite res_bind_ok. assert (Hof : t_own G1 !! (f * 4096) = None).
  { destruct (t_own G1 !! (f * 4096)) as [r|] eqn:E; [|reflexivity]. apply (ex_own_inv _ _ _ _ _ X) in E as [E|(n' & Hn' & E)]; [congruence|].
    assert (n' = f) as -> by lia. destruct Hlf as [c Hlf]. apply (ex_sub _ _ _ _ _ X) in Hn'. rewrite (fa_disjoint _ _ (vk_alloc _ _ H) Hn') in Hlf. discriminate. }
  unfold rd_page. rewrite (ex_mem _ _ _ _ _ X) by auto. rewrite Hp. simpl of_option. rewrite res_bind_ok, (mapped_page _ _ _ _ _ Hm), res_bind_ok.
  unfold wr_page. rewrite Hq. reflexivity.
Qed.

(** A free frame has no mapping. *)
Lemma unmapped_refs v G nf : user_ok v G -> nf ∈ fa_avail (v_alloc v) -> refs (t_pte G) nf = 0%nat.
Proof.
  intros H Hnf. destruct (refs (t_pte G) nf) eqn:E; [reflexivity|]. exfalso. unfold refs in E.
  assert (exists k' e', t_pte G !! k' = Some e' /\ is_ref nf e' = true) as (k' & e' & Hk' & [Hu' Hf']%is_ref_eq).
  { destruct (map_choose (filter (fun x => is_ref nf x.2 = true) (t_pte G))) as (k' & e' & [Hk' Hr]%map_lookup_filter_Some); [intros E0; rewrite E0, map_size_empty in E; discriminate|]. eauto. }
  destruct (us_entry _ _ H _ _ Hk' Hu') as (g & ? & _ & _ & [? Hg] & _). assert (g = nf) as -> by lia.
  rewrite (fa_disjoint _ _ (vk_alloc _ _ (us_vm _ _ H)) Hnf) in Hg. discriminate.
Qed.

(** The state after a copy: [nf] replaces [f] in the entry at [k]. *)
Lemma cow_replaced v G v' G' k e x f nf c :
  user_ok v G -> vm_ok v' G' -> t_pte G !! k = Some e -> has e X86_PTE_USER = true -> hw_frame e = f * 4096 ->
  hw_frame x = nf * 4096 -> entry_frame x = nf * 4096 -> has x X86_PTE_USER = true -> (has x X86_PTE_NX = true -> v_nxe v = true) ->
  nf ∈ fa_avail (v_alloc v) -> t_own G' !! (nf * 4096) = None -> t_pte G' = <[k := x]> (t_pte G) -> fa_live (v_alloc v) !! f = Some c ->
  (forall g, t_own G' !! (g * 4096) = None -> fa_live (v_alloc v') !! g =
     if g =? nf then Some 1 else if g =? f then Some (c - 1) else fa_live (v_alloc v) !! g) -> 1 < c ->
  (forall g r, t_own G !! (g * 4096) = Some r -> t_own G' !! (g * 4096) = Some r) ->
  (forall g r, t_own G' !! (g * 4096) = Some r -> t_own G !! (g * 4096) = Some r \/ g ∈ fa_avail (v_alloc v)) ->
  fa_avail (v_alloc v') ⊆ fa_avail (v_alloc v) -> v_kernel_as v' = v_kernel_as v -> v_nxe v' = v_nxe v -> user_ok v' G'.
Proof.
  intros H H' He Hu Ef Xh Xe Xu Xnx Hnf Hon Ep Hl Hlive Hc Hoo Hoi Hav Eka Enx.
  pose proof (fa_disjoint _ _ (vk_alloc _ _ (us_vm _ _ H)) Hnf) as Hnl. assert (Hne : nf <> f) by congruence.
  assert (Hof : t_own G !! (f * 4096) = None) by (destruct (us_entry _ _ H _ _ He Hu) as (f' & ? & _ & ? & _); assert (f' = f) as -> by lia; auto).
  assert (Hkeep : forall g, t_own G !! (g * 4096) = None -> is_Some (fa_live (v_alloc v) !! g) -> t_own G' !! (g * 4096) = None).
  { intros g Hg [c' Hc']. destruct (t_own G' !! (g * 4096)) as [r|] eqn:E; [|reflexivity]. apply Hoi in E as [E|E]; [congruence|].
    rewrite (fa_disjoint _ _ (vk_alloc _ _ (us_vm _ _ H)) E) in Hc'. discriminate. }
  assert (Hr0 : refs (t_pte G) nf = 0%nat) by (eapply unmapped_refs; eauto).
  assert (Er : forall g, if g =? nf then refs (t_pte G') g = 1%nat else if g =? f then (refs (t_pte G') g + 1)%nat = refs (t_pte G) g else refs (t_pte G') g = refs (t_pte G) g).
  { intros g. rewrite Ep. pose proof (refs_replace (t_pte G) k e x g He) as E. destruct (Z.eqb_spec g nf) as [->|].
    - rewrite (is_ref_ne f nf e), (is_ref_of nf x), Hr0 in E by auto. lia.
    - rewrite (is_ref_ne nf g x) in E by auto. destruct (Z.eqb_spec g f) as [->|]; [rewrite (is_ref_of f e) in E by auto|rewrite (is_ref_ne f g e) in E by auto]; lia. }
  split; auto; rewrite ?Eka.
  - intros a n e' Hk'. rewrite Ep in Hk'. destruct (decide (k = (a, n))) as [->|]; [rewrite lookup_insert_eq in Hk'; injection Hk' as <-|].
    + rewrite Xu, <- Hu. apply (us_user _ _ H _ _ _ He).
    + rewrite lookup_insert_ne in Hk' by auto. apply (us_user _ _ H _ _ _ Hk').
  - intros k' e' Hk' Hu'. unfold entry_ok. rewrite Enx. rewrite Ep in Hk'. destruct (decide (k = k')) as [<-|].
    + rewrite lookup_insert_eq in Hk'. injection Hk' as <-. exists nf. rewrite Hlive by auto. pose proof (Er nf) as E. rewrite Z.eqb_refl in *.
      split; [auto|]. split; [auto|]. split; [auto|]. split; [eauto|]. split; [|auto]. intros _. split; [auto|apply (us_pin _ _ H); auto].
    + rewrite lookup_insert_ne in Hk' by auto. destruct (us_entry _ _ H _ _ Hk' Hu') as (g & Eg & ? & Hog & Hlg & Hrw & ?). exists g. pose proof (Er g) as E.
      assert (g <> nf) by (intros ->; rewrite Hnl in Hlg; destruct Hlg; discriminate). rewrite Hlive by auto. rewrite (proj2 (Z.eqb_neq g nf)) in * by auto.
      split; [auto|]. split; [auto|]. split; [auto|]. split; [destruct (g =? f); eauto|]. split; [|auto]. intros Hw. destruct (Hrw Hw) as [Hr1 Hp0]. split; [|auto].
      destruct (Z.eqb_spec g f) as [->|]; [|congruence]. exfalso. apply n. eapply (refs_unique (t_pte G)); eauto using is_ref_of.
  - intros g c' Hg Hog. rewrite Hlive in Hg by auto. pose proof (Er g) as E. destruct (Z.eqb_spec g nf) as [->|].
    + injection Hg as <-. rewrite E, (us_pin _ _ H nf (or_introl Hnf)). lia.
    + assert (Hog' : t_own G !! (g * 4096) = None) by (destruct (t_own G !! (g * 4096)) eqn:E0; [apply Hoo in E0; congruence|reflexivity]).
      destruct (Z.eqb_spec g f) as [->|]; [|rewrite E; apply (us_count _ _ H); auto]. injection Hg as <-. destruct (us_count _ _ H f c Hl Hog') as [? ?]. lia.
  - intros g [Hg|[r Hg]]; apply (us_pin _ _ H); [auto|]. destruct (Hoi _ _ Hg); eauto.
  - intros a t Ht. rewrite Ep. rewrite lookup_insert_ne; [apply (us_tmp _ _ H), Ht|]. intros ->. rewrite (us_tmp _ _ H _ _ Ht) in He. discriminate.
Qed.

Lemma cow_copy v G va e f c :
  user_ok v G -> user_va va -> t_pte G !! (v_cr3 v, vpn va) = Some e -> has e X86_PTE_USER = true -> has e X86_PTE_COW = true ->
  hw_frame e = f * 4096 -> fa_live (v_alloc v) !! f = Some c -> 1 < c -> fa_avail (v_alloc v) <> ∅ ->
  is_Some (t_tab G !! (v_cr3 v, vpn TMP_COW_VA / 512)) \/ (2 <= size (fa_avail (v_alloc v)))%nat ->
  exists nf v1 v' G', alloc_page v = Ok (nf * 4096, v1) /\ 0 < nf < 1048576 /\ cow_break v1 va e (f * 4096) (nf * 4096) = Ok v' /\
    user_ok v' G' /\ uview v' G' = uview v G /\ same_regs v v' /\ t_sp G' = t_sp G /\ t_pte G' = <[(v_cr3 v, vpn va) := cow_entry e (nf * 4096)]> (t_pte G).
Proof.
  intros H Hva He Hu Hcow Ef Hl Hc Hne Hroom. pose proof (us_vm _ _ H) as Hvm. destruct (us_entry _ _ H _ _ He Hu) as (f' & Ef' & _ & Ho & _ & _ & Hnx). assert (f' = f) as -> by lia.
  destruct (alloc_spare v G Hvm Hne) as (nf & s1 & E1 & Ht & H1 & Hsp). pose proof Ht as (Hin & Ea & El). pose proof Hsp as (_ & _ & Hnf & _).
  pose proof (fa_disjoint _ _ (vk_alloc _ _ Hvm) Hin) as Hnl. assert (Hneq : nf <> f) by congruence.
  destruct (entry_mapped v G _ e H He Hu) as (p & Hp & Lp & Hview). rewrite Ef in Hp. set (v1 := set_alloc s1 v) in *. set (k := (v_cr3 v, vpn va)) in *.
  assert (Hl1 : fa_live (v_alloc v1) !! f = Some c) by (simpl; rewrite El, lookup_insert_ne; auto).
  assert (Htf : tmp_free v1 G TMP_COW_VA).
  { split; [apply tmp_cow_user|]. split; [apply (us_tmp _ _ H); auto|]. destruct Hroom as [?|Hsz]; [auto|right]. simpl. rewrite Ea. intros E0.
    assert (size (fa_avail (v_alloc v) ∖ {[nf]}) = 0%nat) as Hz by (rewrite E0; apply size_empty). rewrite size_difference, size_singleton in Hz by set_solver. lia. }
  destruct (cow_session v1 G va e f nf p H1 Hva He Ef Ho Hp Lp Hsp Hneq Htf (mk_is_Some _ _ Hl1)) as (v2 & G2 & N & q & E2 & H2 & X & _ & -> & P2 & S2 & _ & _ & _ & _).
  pose proof (ex_regs _ _ _ _ _ X) as (Rcr & Rwp & Rka & Rnx). simpl in Rcr, Rwp, Rka, Rnx.
  assert (HN : forall n, n ∈ N -> n ∈ fa_avail (v_alloc v) /\ n <> nf) by (intros n Hn; apply (ex_sub _ _ _ _ _ X) in Hn; simpl in Hn; rewrite Ea in Hn; set_solver).
  assert (HfN : f ∉ N) by (intros Hx; apply HN in Hx as [Hx _]; rewrite (fa_disjoint _ _ (vk_alloc _ _ Hvm) Hx) in Hl; discriminate).
  assert (Ho2 : t_own G2 !! (f * 4096) = None).
  { destruct (t_own G2 !! (f * 4096)) as [r|] eqn:E; [|reflexivity]. apply (ex_own_inv _ _ _ _ _ X) in E as [E|(n & Hn & E)]; [congruence|]. assert (n = f) as -> by lia. contradiction. }
  assert (Hl2 : fa_live (v_alloc v2) !! f = Some c) by (rewrite (ex_live _ _ _ _ _ X); auto).
  destruct (decref_ok v2 G2 f H2 Ho2 (mk_is_Some _ _ Hl2)) as (s3 & E3 & H3 & (c' & Hc' & Hr)). assert (c' = c) as -> by congruence. rewrite (proj2 (Z.ltb_lt 1 c)) in Hr by lia. destruct Hr as [Ea3 El3].
  set (v3 := set_alloc s3 v2) in *. set (x := cow_entry e (nf * 4096)). destruct (cow_entry_facts e nf Hnf) as (Xh & Xe & Xp & Xrw & Xu & Xnx). fold x in Xh, Xe, Xp, Xrw, Xu, Xnx.
  destruct (set_user_pte v3 G2 va e x H3 Hva) as (m4 & E4 & H4 & Hm4); [simpl; rewrite Rcr, P2; exact He|auto|auto|].
  change (v_cr3 v3) with (v_cr3 v2) in *. rewrite Rcr in H4. fold k in H4. set (G4 := set_pte k x G2) in *.
  assert (Ep : t_pte G4 = <[k := x]> (t_pte G)) by (unfold G4; rewrite set_pte_present, P2; auto).
  destruct (spare_extends _ _ _ _ _ nf X Hsp) as (Ho2n & _ & _ & Hl2n). simpl in Hl2n.
  exists nf, v1, (set_mem m4 v3), G4. split; [exact E1|]. split; [auto|]. split; [|split; [|split; [|split; [|split]]]].
  - unfold cow_break. destruct (vmm_map_page_nolock v1 (nf * 4096) TMP_COW_VA TMP_FLAGS) as [w| |] eqn:Ew; try discriminate E2.
    unfold TMP_FLAGS in Ew. rewrite Ew, res_bind_ok. rewrite res_bind_ok in E2. destruct (kernel_copy_page w TMP_COW_VA (vpn va * 4096)) as [w2| |] eqn:Ew2; try discriminate E2.
    rewrite res_bind_ok in *. rewrite E2, res_bind_ok, E3, res_bind_ok. exact E4.
  - apply (cow_replaced v G (set_mem m4 v3) G4 k e x f nf c); auto.
    + rewrite Xnx. exact Hnx.
    + intros g Hg. simpl. rewrite El3. change (t_own G4) with (t_own G2) in Hg. destruct (Z.eqb_spec g f) as [->|].
      * rewrite lookup_insert_eq. rewrite (proj2 (Z.eqb_neq f nf)) by auto. reflexivity.
      * rewrite lookup_insert_ne by auto. destruct (Z.eqb_spec g nf) as [->|]; [exact Hl2n|]. rewrite (ex_live _ _ _ _ _ X); [simpl; rewrite El, lookup_insert_ne; auto|].
        intros Hx. apply (ex_new _ _ _ _ _ X) in Hx as [? ?]. congruence.
    + intros g r Hg. apply (ex_own _ _ _ _ _ X), Hg.
    + intros g r Hg. apply (ex_own_inv _ _ _ _ _ X) in Hg as [?|(n & Hn & E)]; [auto|right]. assert (n = g) as -> by lia. apply HN, Hn.
    + simpl. rewrite Ea3, (ex_avail _ _ _ _ _ X). simpl. rewrite Ea. set_solver.
  - unfold uview. rewrite Ep. simpl. assert (Hmem : forall g, t_own G2 !! (g * 4096) = None -> g <> nf -> m4 !! (g * 4096) = v_mem v !! (g * 4096)).
    { intros g Hg Hgn. rewrite Hm4 by auto. simpl. rewrite (ex_mem _ _ _ _ _ X) by auto. simpl. apply lookup_insert_ne. lia. }
    assert (Hmn : m4 !! (nf * 4096) = Some p) by (rewrite Hm4 by auto; simpl; rewrite (ex_mem _ _ _ _ _ X) by auto; apply lookup_insert_eq).
    rewrite <- (insert_id (view (v_mem v) (t_pte G)) k _ Hview). rewrite <- insert_delete_eq, <- (insert_delete_eq (view _ _)).
    rewrite (view_insert _ _ _ _ (UPage p (has e X86_PTE_RW || has e X86_PTE_COW) (has e X86_PTE_NX))).
    + f_equal. rewrite <- view_delete. apply view_mem. intros k' e' Hk' Hu'. apply lookup_delete_Some in Hk' as [Hkk Hk'].
      destruct (us_entry _ _ H _ _ Hk' Hu') as (g & -> & _ & Hog & [cg Hlg] & _). apply Hmem; [|congruence].
      destruct (t_own G2 !! (g * 4096)) as [r|] eqn:E; [|reflexivity]. apply (ex_own_inv _ _ _ _ _ X) in E as [E|(n & Hn & E)]; [congruence|].
      assert (n = g) as -> by lia. apply HN in Hn as [Hn _]. rewrite (fa_disjoint _ _ (vk_alloc _ _ Hvm) Hn) in Hlg. discriminate.
    + unfold upage_of. rewrite Xu, Xh, Hmn, Xrw, Xnx, Hcow, orb_true_r. reflexivity.
  - repeat split; simpl; congruence.
  - exact S2.
  - exact Ep.
Qed.

Lemma user_ok_alloc v G s' :
  user_ok v G -> vm_ok (set_alloc s' v) G -> fa_avail s' = fa_avail (v_alloc v) -> fa_live s' = fa_live (v_alloc v) -> user_ok (set_alloc s' v) G.
Proof.
  intros H H' Ea El. split; simpl; rewrite ?Ea, ?El; auto; try apply H.
  intros k e He Hu. unfold entry_ok. simpl. rewrite El. apply (us_entry _ _ H _ _ He Hu).
Qed.

Lemma page_of_va va : user_va va -> Z.land va (u32 (Z.lnot 4095)) = vpn va * 4096 /\ pae_pdpt_index (vpn va * 4096) = pae_pdpt_index va /\
  pae_pd_index (vpn va * 4096) = pae_pd_index va /\ pae_pt_index (vpn va * 4096) = pae_pt_index va.
Proof.
  intros Hva. unfold user_va in Hva. assert (0 <= vpn va * 4096 < 4294967296) by (unfold vpn; Z.to_euclidean_division_equations; lia).
  rewrite !pdpt_index_div, !pd_index_div, !pt_index_div by lia. split; [|unfold vpn; Z.to_euclidean_division_equations; lia].
  rewrite land_u32_lnot by (unfold is_u32; lia). apply (align_down_spec va 12). lia.
Qed.

(** The page table of the temporary mapping is there or can be allocated whenever a
    copy is made. *)
Definition cow_room (v : vm S) (G : tables) : Prop :=
  is_Some (t_tab G !! (v_cr3 v, vpn TMP_COW_VA / 512)) \/ size (fa_avail (v_alloc v)) <> 1%nat.

(** [vmm_handle_cow_fault] changes no memory of a process; it makes a page writable that
    is marked for copying, unless memory for the copy is lacking. *)
Lemma cow_fault_ok v G va :
  user_ok v G -> user_va va -> v_cr3 v <> v_kernel_as v -> cow_room v G ->
  exists r v' G', vmm_handle_cow_fault v va = Ok (r, v') /\ user_ok v' G' /\ uview v' G' = uview v G /\ same_regs v v' /\ t_sp G' = t_sp G /\
    (r = 1 /\ (exists e f, 0 < f < 1048576 /\ t_pte G !! (v_cr3 v, vpn va) = Some e /\ has e X86_PTE_COW = true /\
        t_pte G' = <[(v_cr3 v, vpn va) := cow_entry e (f * 4096)]> (t_pte G)) \/
     r = 0 /\ t_pte G' = t_pte G /\ (fa_avail (v_alloc v) <> ∅ -> forall e, t_pte G !! (v_cr3 v, vpn va) = Some e -> has e X86_PTE_COW = false)).
Proof.
  intros H Hva Hk Hroom. pose proof (us_vm _ _ H) as Hvm. destruct (page_of_va va Hva) as (Em & E1 & E2 & E3). unfold vmm_handle_cow_fault. rewrite Em, E1, E2, E3.
  destruct (va_indices va Hva) as (Hi & _). rewrite (proj2 (Z.leb_gt PAE_USER_PDPT_MAX _)) by (unfold PAE_USER_PDPT_MAX; lia).
  assert (Hno : (fa_avail (v_alloc v) <> ∅ -> forall e, t_pte G !! (v_cr3 v, vpn va) = Some e -> has e X86_PTE_COW = false) ->
    exists r v' G', Ok (0, v) = Ok (r, v') /\ user_ok v' G' /\ uview v' G' = uview v G /\ same_regs v v' /\ t_sp G' = t_sp G /\
    (r = 1 /\ (exists e f, 0 < f < 1048576 /\ t_pte G !! (v_cr3 v, vpn va) = Some e /\ has e X86_PTE_COW = true /\
        t_pte G' = <[(v_cr3 v, vpn va) := cow_entry e (f * 4096)]> (t_pte G)) \/
     r = 0 /\ t_pte G' = t_pte G /\ (fa_avail (v_alloc v) <> ∅ -> forall e, t_pte G !! (v_cr3 v, vpn va) = Some e -> has e X86_PTE_COW = false))).
  { intros Hx. exists 0, v, G. split; [reflexivity|]. split; [auto|]. split; [auto|]. split; [apply same_regs_refl|]. auto 6. }
  destruct (find_pte v G va Hvm Hva) as (pde & -> & Hcase). rewrite res_bind_ok. destruct Hcase as [(_ & -> & Hn)|(t & e & _ & -> & _ & _ & -> & Hpe & _)]; simpl negb; cbv iota.
  { apply Hno. rewrite Hn. discriminate. }
  rewrite res_bind_ok. destruct (has e X86_PTE_PRESENT) eqn:Ep; simpl negb; cbv iota.
  2: { apply Hno. rewrite Hpe. discriminate. }
  destruct (has e X86_PTE_COW) eqn:Ec; simpl negb; cbv iota.
  2: { apply Hno. rewrite Hpe. intros _ e' [= <-]. auto. }
  assert (Hu : has e X86_PTE_USER = true) by (rewrite (us_user _ _ H _ _ _ Hpe); apply negb_true_iff, Z.eqb_neq; auto).
  destruct (us_entry _ _ H _ _ Hpe Hu) as (f & Ef & Eef & Ho & [c Hl] & _). destruct (us_count _ _ H f c Hl Ho) as [Hc Hcm]. rewrite Eef.
  rewrite (fa_refcount_live _ _ _ (vk_alloc _ _ Hvm) Hl), res_bind_ok, u16_small by lia. pose proof (refs_pos _ _ _ f Hpe (is_ref_of f e Hu Ef)) as Hpos.
  destruct (Z.leb_spec c 1).
  - assert (c = 1) as -> by lia. destruct (cow_upgrade v G va e f H Hva Hpe Hu Ec Ef Hl) as (m' & G' & E & H' & Hv & Hs & Hp').
    change (Z.lor (Z.lor (Z.lor (Z.lor (f * 4096) X86_PTE_PRESENT) X86_PTE_RW) X86_PTE_USER) (Z.land e X86_PTE_NX)) with (cow_entry e (f * 4096)). rewrite E, res_bind_ok.
    exists 1, (set_mem m' v), G'. split; [reflexivity|]. split; [auto|]. split; [auto|]. split; [repeat split|]. split; [auto|]. left. split; [auto|].
    exists e, f. split; [apply (fa_range _ f (vk_alloc _ _ Hvm)); eauto|auto].
  - destruct (decide (fa_avail (v_alloc v) = ∅)) as [E0|Hne].
    + destruct (alloc_none v G Hvm E0) as (s' & -> & Ea & El & H'). rewrite res_bind_ok. exists 0, (set_alloc s' v), G. split; [reflexivity|].
      split; [apply user_ok_alloc; auto; congruence|]. split; [reflexivity|]. split; [repeat split|]. split; [auto|]. right. split; [auto|]. split; [auto|]. contradiction.
    + destruct (cow_copy v G va e f c H Hva Hpe Hu Ec Ef Hl) as (nf & v1 & v' & G' & -> & Hnf & Eb & H' & Hv & Hr & Hs & Hp'); [lia|auto| |].
      { destruct Hroom as [?|Hsz]; [auto|right]. assert (size (fa_avail (v_alloc v)) <> 0%nat) by (intros Hz; apply Hne, leibniz_equiv, size_empty_inv, Hz). lia. }
      rewrite res_bind_ok. rewrite (proj2 (Z.eqb_neq (nf * 4096) 0)) by lia. exists 1, v', G'. split; [|split; [auto|split; [auto|split; [auto|split; [auto|left; eauto 7]]]]].
      unfold cow_break in Eb. repeat (apply res_bind_ok_inv in Eb as (? & ? & Eb); match goal with E : _ = Ok _ |- context [?m] => rewrite E, res_bind_ok end).
      change (Z.lor (Z.lor (Z.lor (Z.lor (nf * 4096) X86_PTE_PRESENT) X86_PTE_RW) X86_PTE_USER) (Z.land e X86_PTE_NX)) with (cow_entry e (nf * 4096)). rewrite Eb. reflexivity.
Qed.

(** ** Stores *)

Lemma page_set_byte_ok p off b : arr_len p = 512 -> 0 <= off < 4096 -> exists p', page_set_byte p off b = Ok p' /\ arr_len p' = 512.
Proof.
  intros Hl Ho. assert (0 <= off / 8 < 512) by (Z.to_euclidean_division_equations; lia). unfold page_set_byte.
  rewrite arr_get_ok, res_bind_ok, arr_set_ok by lia. eexists. split; [reflexivity|]. rewrite arr_len_put. auto.
Qed.

(** A page that is writable. *)
Lemma store_writable v v1 G1 e fuel user va b :
  user_va va -> user_ok v1 G1 -> same_regs v v1 -> t_pte G1 !! (v_cr3 v, vpn va) = Some e -> has e X86_PTE_USER = true -> has e X86_PTE_RW = true ->
  exists u p v', uview v1 G1 !! (v_cr3 v, vpn va) = Some u /\ u_write u = true /\ page_set_byte (u_data u) (va mod 4096) b = Ok p /\
    store_retry (Datatypes.S fuel) v1 user va b = Ok (Some tt, v') /\ user_ok v' G1 /\ same_regs v v' /\
    uview v' G1 = <[(v_cr3 v, vpn va) := UPage p true (u_nx u)]> (uview v1 G1).
Proof.
  intros Hva H1 Hr He Hu Hrw. assert (Hoff : 0 <= va mod 4096 < 4096) by (apply Z.mod_pos_bound; lia). set (k := (v_cr3 v, vpn va)) in *.
  destruct (entry_mapped v1 G1 k e H1 He Hu) as (q & Hq & Lq & Hv). destruct (page_set_byte_ok q (va mod 4096) b Lq Hoff) as (p & Hp & Lp).
  destruct (store_page v1 G1 k e (hw_frame e) p H1 He Hu Hrw eq_refl Lp) as [H' Hv']. exists (UPage q true (has e X86_PTE_NX)), p, (set_mem (<[hw_frame e := p]> (v_mem v1)) v1).
  rewrite Hrw in Hv. split; [exact Hv|]. split; [reflexivity|]. split; [exact Hp|]. destruct Hr as (Ecr & Ewp & Eka & Enx). split; [|split; [auto|split; [repeat split; auto|exact Hv']]].
  cbn [store_retry]. rewrite (access_ok v1 G1) by (auto; apply H1). rewrite Ecr. fold k. rewrite He, res_bind_ok. unfold may. rewrite Hu, Hrw, !orb_true_r.
  cbn [andb]. cbv iota. unfold rd_page. rewrite Hq. simpl of_option. rewrite res_bind_ok, Hp, res_bind_ok. unfold wr_page. rewrite Hq. reflexivity.
Qed.

(** A store of a process, or of the kernel when it respects read-only pages, to a page
    the process may write: only that page changes, in that process only.  Any other
    store faults. *)
Lemma store_ok v G user va b :
  user_ok v G -> user_va va -> v_cr3 v <> v_kernel_as v -> cow_room v G -> user || v_wp v = true -> fa_avail (v_alloc v) <> ∅ ->
  exists v' G', user_ok v' G' /\ same_regs v v' /\ t_sp G' = t_sp G /\
    match uview v G !! (v_cr3 v, vpn va) with
    | Some u =>
        if u_write u
        then exists p, page_set_byte (u_data u) (va mod 4096) b = Ok p /\ store_retry 2 v user va b = Ok (Some tt, v') /\
               uview v' G' = <[(v_cr3 v, vpn va) := UPage p true (u_nx u)]> (uview v G)
        else store_retry 2 v user va b = Ok (None, v') /\ uview v' G' = uview v G
    | None => store_retry 2 v user va b = Ok (None, v') /\ uview v' G' = uview v G
    end.
Proof.
  intros H Hva Hk Hroom Hwp Hne. pose proof (us_vm _ _ H) as Hvm. set (k := (v_cr3 v, vpn va)).
  assert ((exists e, t_pte G !! k = Some e /\ has e X86_PTE_RW = true) \/ ~ (exists e, t_pte G !! k = Some e /\ has e X86_PTE_RW = true)) as [(e & He & Hrw)|Hnw].
  { destruct (t_pte G !! k) as [e|]; [destruct (has e X86_PTE_RW) eqn:E; [eauto|]|]; right; intros (e' & [= <-] & ?); congruence. }
  { assert (Hu : has e X86_PTE_USER = true) by (rewrite (us_user _ _ H _ _ _ He); apply negb_true_iff, Z.eqb_neq; auto).
    destruct (store_writable v v G e 1 user va b Hva H (same_regs_refl v) He Hu Hrw) as (u & p & v' & Hu1 & Hu2 & Hp & Hs & H' & Hr & Hv').
    exists v', G. split; [auto|]. split; [auto|]. split; [auto|]. fold k in Hu1. rewrite Hu1, Hu2. eauto. }
  destruct (cow_fault_ok v G va H Hva Hk Hroom) as (r & v1 & G1 & Er & H1 & Hv1 & Hr1 & Hsp1 & Hcase). fold k in Hcase.
  assert (Hst : forall fuel, store_retry (Datatypes.S fuel) v user va b = if r =? 0 then Ok (None, v1) else store_retry fuel v1 user va b).
  { intros fuel. cbn [store_retry]. rewrite (access_ok v G) by auto. rewrite res_bind_ok. fold k. destruct (t_pte G !! k) as [e|] eqn:He.
    - unfold may. simpl (true && _). rewrite Hwp. assert (has e X86_PTE_RW = false) as -> by (destruct (has e X86_PTE_RW) eqn:E; [exfalso; eauto|auto]).
      rewrite andb_false_r. rewrite Er, res_bind_ok. reflexivity.
    - rewrite Er, res_bind_ok. reflexivity. }
  destruct Hcase as [(-> & e & f & Hf & He & Hc & Hp1)|(-> & Hp1 & Hcow)].
  - destruct (cow_entry_facts e f Hf) as (_ & _ & _ & Xrw & Xu & _).
    destruct (store_writable v v1 G1 (cow_entry e (f * 4096)) 0 user va b Hva H1 Hr1) as (u & p & v' & Hu1 & Hu2 & Hp & Hs & H' & Hr & Hv'); auto; [rewrite Hp1; apply lookup_insert_eq|].
    exists v', G1. split; [auto|]. split; [auto|]. split; [auto|]. fold k in Hu1, Hv'. rewrite Hv1 in Hu1, Hv'. rewrite Hu1, Hu2. exists p. rewrite Hst. auto.
  - exists v1, G1. split; [auto|]. split; [auto|]. split; [auto|]. rewrite Hst. simpl. unfold uview at 1. rewrite view_lookup.
    destruct (t_pte G !! k) as [e|] eqn:He; simpl; [|auto]. assert (has e X86_PTE_RW = false) as Hrw by (destruct (has e X86_PTE_RW) eqn:E; [exfalso; eauto|auto]).
    unfold upage_of. rewrite Hrw, (Hcow Hne e eq_refl). destruct (has e X86_PTE_USER); [destruct (v_mem v !! hw_frame e)|]; simpl; auto.
Qed.
End user.
