(* ===== verification/VmmFork.v ===== *)
(** [vmm_as_clone_user_cow]: the new address space shows the memory of the old one, and
    from then on each has its own. *)

From S2P Require Import Prelude Frames Vmm VmmInv VmmOps VmmSpace VmmUser.

Section fork.
Context {S : Type} {FA : FrameAlloc S} (pin : Z -> nat).
Implicit Types v : vm S.
Notation user_ok := (user_ok pin).

(** New tables change nothing that a process sees. *)
Lemma extends_live v G v' G' N f : vm_ok v G -> extends v G v' G' N -> t_own G !! (f * 4096) = None -> is_Some (fa_live (v_alloc v) !! f) ->
  t_own G' !! (f * 4096) = None /\ fa_live (v_alloc v') !! f = fa_live (v_alloc v) !! f.
Proof.
  intros H X Ho [c Hl]. assert (Hn : f ∉ N) by (intros Hn; apply (ex_sub _ _ _ _ _ X) in Hn; rewrite (fa_disjoint _ _ (vk_alloc _ _ H) Hn) in Hl; discriminate).
  split; [|apply (ex_live _ _ _ _ _ X), Hn]. destruct (t_own G' !! (f * 4096)) as [r|] eqn:E; [|reflexivity].
  apply (ex_own_inv _ _ _ _ _ X) in E as [E|(n & Hn' & E)]; [congruence|]. assert (n = f) as -> by lia. contradiction.
Qed.

Lemma user_ok_extends v G v' G' N :
  user_ok v G -> vm_ok v' G' -> extends v G v' G' N -> t_pte G' = t_pte G -> user_ok v' G' /\ uview v' G' = uview v G.
Proof.
  intros H H' X Ep. pose proof (us_vm _ _ _ H) as Hvm. destruct (ex_regs _ _ _ _ _ X) as (_ & _ & Eka & Enx). split.
  - split; auto; rewrite ?Ep, ?Eka; try apply H.
    + intros k e He Hu. destruct (us_entry _ _ _ H _ _ He Hu) as (f & ? & ? & Ho & Hl & ? & ?). destruct (extends_live _ _ _ _ _ f Hvm X Ho Hl) as [Ho' El'].
      exists f. rewrite Ep, El', Enx. auto 10.
    + intros f c Hl Ho. assert (Hn : f ∉ N) by (intros Hn; apply (ex_new _ _ _ _ _ X) in Hn as [? ?]; congruence). rewrite (ex_live _ _ _ _ _ X f Hn) in Hl.
      apply (us_count _ _ _ H); [auto|]. destruct (t_own G !! (f * 4096)) eqn:E; [|reflexivity]. apply (ex_own _ _ _ _ _ X) in E. congruence.
    + intros f [Hf|[r Hf]]; apply (us_pin _ _ _ H); [rewrite (ex_avail _ _ _ _ _ X) in Hf; set_solver|].
      apply (ex_own_inv _ _ _ _ _ X) in Hf as [?|(n & Hn & E)]; [eauto|left]. assert (n = f) as -> by lia. apply (ex_sub _ _ _ _ _ X), Hn.
  - unfold uview. rewrite Ep. apply view_mem. intros k e He Hu. apply (ex_mem _ _ _ _ _ X).
    destruct (us_entry _ _ _ H _ _ He Hu) as (f & -> & _ & Ho & Hl & _). apply (extends_live _ _ _ _ _ f Hvm X Ho Hl).
Qed.

(** ** One more mapping of a frame *)

(** The entry at [k] becomes [x], and [y] at [k'] maps the same frame [f]. *)
Lemma shared v G v' G' k k' e x y f c :
  user_ok v G -> vm_ok v' G' -> t_pte G !! k = Some e -> t_pte G !! k' = None -> k <> k' -> has e X86_PTE_USER = true -> hw_frame e = f * 4096 ->
  (forall z, z = x \/ z = y -> hw_frame z = f * 4096 /\ entry_frame z = f * 4096 /\ has z X86_PTE_USER = true /\ has z X86_PTE_RW = false /\
     (has z X86_PTE_NX = true -> v_nxe v = true)) ->
  t_pte G' = <[k' := y]> (<[k := x]> (t_pte G)) -> k'.1 <> v_kernel_as v -> (forall t, t = TMP_VA \/ t = TMP_COW_VA -> k'.2 <> vpn t) ->
  fa_live (v_alloc v) !! f = Some c -> c + 1 < 65536 ->
  (forall g, t_own G' !! (g * 4096) = None -> fa_live (v_alloc v') !! g = if g =? f then Some (c + 1) else fa_live (v_alloc v) !! g) ->
  (forall g r, t_own G !! (g * 4096) = Some r -> t_own G' !! (g * 4096) = Some r) ->
  (forall g r, t_own G' !! (g * 4096) = Some r -> t_own G !! (g * 4096) = Some r \/ g ∈ fa_avail (v_alloc v)) ->
  fa_avail (v_alloc v') ⊆ fa_avail (v_alloc v) -> v_kernel_as v' = v_kernel_as v -> v_nxe v' = v_nxe v -> user_ok v' G'.
Proof.
  intros H H' He Hn Hkk Hu Ef Hz Ep Hka Htm Hl Hc Hlive Hoo Hoi Hav Eka Enx. pose proof (us_vm _ _ _ H) as Hvm.
  destruct (Hz x) as (Xh & Xe & Xu & Xrw & Xnx); [auto|]. destruct (Hz y) as (Yh & Ye & Yu & Yrw & Ynx); [auto|]. clear Hz.
  assert (Hof : t_own G !! (f * 4096) = None) by (destruct (us_entry _ _ _ H _ _ He Hu) as (f' & ? & _ & ? & _); assert (f' = f) as -> by lia; auto).
  assert (Hkeep : forall g, t_own G !! (g * 4096) = None -> is_Some (fa_live (v_alloc v) !! g) -> t_own G' !! (g * 4096) = None).
  { intros g Hg [c' Hc']. destruct (t_own G' !! (g * 4096)) as [r|] eqn:E; [|reflexivity]. apply Hoi in E as [E|E]; [congruence|].
    rewrite (fa_disjoint _ _ (vk_alloc _ _ Hvm) E) in Hc'. discriminate. }
  assert (Er : forall g, refs (t_pte G') g = ((if (g =? f)%Z then 1 else 0) + refs (t_pte G) g)%nat).
  { intros g. rewrite Ep, refs_insert by (rewrite lookup_insert_ne; auto). pose proof (refs_replace (t_pte G) k e x g He) as E.
    destruct (Z.eqb_spec g f) as [->|]; [rewrite (is_ref_of f e), (is_ref_of f x) in E by auto; rewrite (is_ref_of f y) by auto; lia|].
    rewrite (is_ref_ne f g e), (is_ref_ne f g x) in E by auto. rewrite (is_ref_ne f g y) by auto. lia. }
  assert (Hent : forall z, hw_frame z = f * 4096 -> entry_frame z = f * 4096 -> has z X86_PTE_RW = false -> (has z X86_PTE_NX = true -> v_nxe v = true) -> entry_ok pin v' G' z).
  { intros z Z1 Z2 Z3 Z4. exists f. split; [auto|]. split; [auto|]. split; [eauto|]. rewrite Hlive, Z.eqb_refl, Z3, Enx by eauto. split; [eauto|]. split; [discriminate|auto]. }
  split; auto; rewrite ?Eka.
  - intros a n e' Hk'. rewrite Ep in Hk'. apply lookup_insert_Some in Hk' as [[-> <-]|[_ Hk']]; [rewrite Yu; symmetry; apply negb_true_iff, Z.eqb_neq, Hka|].
    apply lookup_insert_Some in Hk' as [[-> <-]|[_ Hk']]; [rewrite Xu, <- Hu; apply (us_user _ _ _ H _ _ _ He)|apply (us_user _ _ _ H _ _ _ Hk')].
  - intros k2 e' Hk' Hu'. rewrite Ep in Hk'. apply lookup_insert_Some in Hk' as [[_ <-]|[_ Hk']]; [auto|]. apply lookup_insert_Some in Hk' as [[_ <-]|[Hk2 Hk']]; [auto|].
    destruct (us_entry _ _ _ H _ _ Hk' Hu') as (g & Eg & ? & Hog & Hlg & Hrw & ?). exists g. rewrite Hlive, Er, Enx by auto.
    split; [auto|]. split; [auto|]. split; [auto|]. split; [destruct (g =? f); eauto|]. split; [|auto]. intros Hw. destruct (Hrw Hw) as [Hr1 Hp0]. split; [|auto].
    destruct (Z.eqb_spec g f) as [->|]; [|simpl; auto]. exfalso. apply Hk2. eapply (refs_unique (t_pte G)); eauto using is_ref_of.
  - intros g c' Hg Hog. rewrite Hlive in Hg by auto. rewrite Er.
    assert (Hog' : t_own G !! (g * 4096) = None) by (destruct (t_own G !! (g * 4096)) eqn:E0; [apply Hoo in E0; congruence|reflexivity]).
    destruct (Z.eqb_spec g f) as [->|]; [injection Hg as <-; destruct (us_count _ _ _ H f c Hl Hog'); lia|apply (us_count _ _ _ H); auto].
  - intros g [Hg|[r Hg]]; apply (us_pin _ _ _ H); [auto|]. destruct (Hoi _ _ Hg); eauto.
  - intros a t Ht. rewrite Ep, !lookup_insert_ne; [apply (us_tmp _ _ _ H), Ht| |].
    + intros ->. rewrite (us_tmp _ _ _ H _ _ Ht) in He. discriminate.
    + intros ->. apply (Htm t Ht). reflexivity.
Qed.

(** ** One entry *)

(** The entry the parent keeps for [e], and the flags of the child's. *)
Definition parent_pte (e : Z) : Z :=
  if has e X86_PTE_RW
  then (let x := Z.lor (Z.lor (Z.lor (entry_frame e) X86_PTE_PRESENT) X86_PTE_USER) X86_PTE_COW in
        if has e X86_PTE_NX then Z.lor x X86_PTE_NX else x)
  else e.
Definition child_flags (x : Z) : Z :=
  Z.lor (Z.lor (Z.lor VMM_FLAG_PRESENT VMM_FLAG_USER) (if has x X86_PTE_COW then VMM_FLAG_COW else 0)) (if has x X86_PTE_NX then VMM_FLAG_NX else 0).

Lemma parent_facts e f : 0 < f < 1048576 -> hw_frame e = f * 4096 -> entry_frame e = f * 4096 -> has e X86_PTE_USER = true -> has e X86_PTE_PRESENT = true ->
  let x := parent_pte e in
  hw_frame x = f * 4096 /\ entry_frame x = f * 4096 /\ has x X86_PTE_USER = true /\ has x X86_PTE_PRESENT = true /\ has x X86_PTE_RW = false /\
  has x X86_PTE_COW = has e X86_PTE_RW || has e X86_PTE_COW /\ has x X86_PTE_NX = has e X86_PTE_NX.
Proof.
  intros Hf Eh Ee Hu Hp x. unfold x, parent_pte. destruct (has e X86_PTE_RW) eqn:Erw; [|auto 10]. rewrite Ee, <- !Z.lor_assoc.
  destruct (has e X86_PTE_NX) eqn:Enx; rewrite <- ?Z.lor_assoc; rewrite !hw_frame_entry, !entry_frame_entry by (lia || (split; reflexivity));
    rewrite !has_lor, has_frame_nx by lia; rewrite !has_frame by (unfold X86_PTE_PRESENT, X86_PTE_RW, X86_PTE_USER, X86_PTE_COW; lia); auto 10.
Qed.

Lemma child_facts v x f : 0 < f < 1048576 ->
  let y := Z.lor (f * 4096) (vmm_flags_to_x86 v (child_flags x)) in
  hw_frame y = f * 4096 /\ entry_frame y = f * 4096 /\ has y X86_PTE_USER = true /\ has y X86_PTE_RW = false /\
  has y X86_PTE_COW = has x X86_PTE_COW /\ has y X86_PTE_NX = has x X86_PTE_NX && v_nxe v.
Proof.
  intros Hf y. unfold y. rewrite hw_frame_entry, entry_frame_entry by (auto using flags_only_x86; lia). split; [auto|]. split; [auto|].
  rewrite !has_lor, has_frame_nx by lia. rewrite !has_frame by (unfold X86_PTE_RW, X86_PTE_USER, X86_PTE_COW; lia).
  destruct (has_x86 v (child_flags x)) as (_ & -> & -> & -> & ->). unfold child_flags. destruct (has x X86_PTE_COW), (has x X86_PTE_NX); auto.
Qed.

Lemma incref_ok v G f c : vm_ok v G -> t_own G !! (f * 4096) = None -> fa_live (v_alloc v) !! f = Some c -> c + 1 < 65536 ->
  exists s', incref v (f * 4096) = Ok (set_alloc s' v) /\ vm_ok (set_alloc s' v) G /\ fa_avail s' = fa_avail (v_alloc v) /\ fa_live s' = <[f := c + 1]> (fa_live (v_alloc v)).
Proof.
  intros H Ho Hl Hc. destruct (fa_incref_live _ _ _ (vk_alloc _ _ H) Hl) as (s' & E & Hok & Ea & El); [lia|]. exists s'. unfold incref. rewrite E. split; [reflexivity|].
  split; [|auto]. split; simpl; try apply H; auto.
  - intros n r Hn. destruct (vk_own _ _ H n r Hn) as [? ?]. rewrite Ea, El. split; [auto|]. intros. rewrite lookup_insert_ne by congruence. auto.
  - intros n Hn. apply H. rewrite Ea, El in Hn. destruct (decide (n = f)) as [->|]; [eauto|]. rewrite lookup_insert_ne in Hn by auto. auto.
Qed.

(** The entry of the parent is written, or stays. *)
Lemma parent_step v G va e :
  vm_ok v G -> user_va va -> t_pte G !! (v_cr3 v, vpn va) = Some e -> has e X86_PTE_USER = true -> has (parent_pte e) X86_PTE_PRESENT = true ->
  exists m1 G1, (if has e X86_PTE_RW then pt_set v (pae_pdpt_index va) (pae_pd_index va) (pae_pt_index va) (parent_pte e) else mret v) = Ok (set_mem m1 v) /\
    vm_ok (set_mem m1 v) G1 /\ keeps G G1 /\ t_pte G1 = <[(v_cr3 v, vpn va) := parent_pte e]> (t_pte G) /\
    (forall f, t_own G !! f = None -> m1 !! f = v_mem v !! f).
Proof.
  intros H Hva He Hu Hp. destruct (has e X86_PTE_RW) eqn:Erw.
  - destruct (set_user_pte v G va e (parent_pte e) H Hva He Hu Hp) as (m1 & E & H1 & Hm). exists m1, (set_pte (v_cr3 v, vpn va) (parent_pte e) G).
    split; [auto|]. split; [auto|]. split; [repeat split|]. split; [apply set_pte_present, Hp|auto].
  - exists (v_mem v), G. destruct v. split; [reflexivity|]. split; [exact H|]. split; [repeat split|]. split; [|auto]. unfold parent_pte. rewrite Erw, insert_id; auto.
Qed.

(** The entry of the child is made in its own address space. *)
Lemma child_step v G new n fl f :
  vm_ok v G -> new ∈ t_sp G -> new <> v_cr3 v -> 0 <= n < 786432 -> 0 < f < 1048576 -> has fl VMM_FLAG_PRESENT = true ->
  is_Some (t_tab G !! (new, n / 512)) \/ fa_avail (v_alloc v) <> ∅ ->
  exists v' G' N, vmm_as_map_page_nolock v new (f * 4096) (n * 4096) fl = Ok v' /\ vm_ok v' G' /\ extends v G v' G' N /\ t_sp G' = t_sp G /\
    t_pte G' = <[(new, n) := Z.lor (f * 4096) (vmm_flags_to_x86 v fl)]> (t_pte G) /\ is_Some (t_tab G' !! (new, n / 512)) /\
    (is_Some (t_tab G !! (new, n / 512)) -> N = ∅) /\ (size N <= 1)%nat /\ (forall k, k <> (new, n / 512) -> t_tab G' !! k = t_tab G !! k).
Proof.
  intros H Hnew Hne Hn Hf Hfl Hroom. assert (Hva : user_va (n * 4096)) by (unfold user_va; lia). assert (Ev : vpn (n * 4096) = n) by (unfold vpn; apply Z.div_mul; lia).
  destruct (map_page_ok (set_cr3 new v) G f (n * 4096) fl (vm_ok_cr3 v G new H Hnew) Hva) as (v1 & G1 & E1 & H1 & Hg & Ep & Ht); [lia|auto|rewrite Ev; auto|].
  destruct (grown_extends _ _ _ _ _ (vm_ok_cr3 v G new H Hnew) Hg) as (N & X & Es & HN & Hsz & Hk). rewrite Ev in *. simpl in Ep, Ht, HN, Hk.
  destruct (sp_frame v G new H Hnew) as (a & Ea & Ha). exists (set_cr3 (v_cr3 v) v1), G1, N. pose proof (ex_regs _ _ _ _ _ X) as (_ & Rwp & Rka & Rnx).
  assert (Hcr : v_cr3 v ∈ t_sp G1) by (rewrite Es; apply H). split; [|split; [apply vm_ok_cr3; auto|]].
  - unfold vmm_as_map_page_nolock. rewrite (proj2 (Z.eqb_neq new 0)), (proj2 (Z.eqb_neq (v_cr3 v) new)) by lia. simpl negb. cbv iota. rewrite (activate_eq v G) by auto.
    rewrite E1, res_bind_ok. rewrite (activate_eq v1 G1) by auto. reflexivity.
  - split; [|auto 10]. destruct X. split; simpl in *; auto. repeat split; auto.
Qed.

(** The memory that is seen after one more mapping. *)
Lemma shared_view v G v' G' k k' e x y f :
  user_ok v G -> user_ok v' G' -> t_pte G !! k = Some e -> t_pte G !! k' = None -> has e X86_PTE_USER = true -> hw_frame e = f * 4096 ->
  (forall z, z = x \/ z = y -> hw_frame z = f * 4096 /\ has z X86_PTE_USER = true /\ has z X86_PTE_RW = false /\
     has z X86_PTE_COW = has e X86_PTE_RW || has e X86_PTE_COW /\ has z X86_PTE_NX = has e X86_PTE_NX) ->
  t_pte G' = <[k' := y]> (<[k := x]> (t_pte G)) -> (forall g, t_own G' !! (g * 4096) = None -> v_mem v' !! (g * 4096) = v_mem v !! (g * 4096)) ->
  exists u, uview v G !! k = Some u /\ uview v' G' = <[k' := u]> (uview v G).
Proof.
  intros H H' He Hn Hu Ef Hz Ep Hm. assert (Hkk : k <> k') by congruence. destruct (entry_mapped _ v G k e H He Hu) as (p & Hp & Lp & Hv). eexists. split; [exact Hv|].
  assert (Hs : forall k0 e0, t_pte G' !! k0 = Some e0 -> has e0 X86_PTE_USER = true -> v_mem v' !! hw_frame e0 = v_mem v !! hw_frame e0).
  { intros k0 e0 H0 Hu0. destruct (us_entry _ _ _ H' _ _ H0 Hu0) as (g & -> & _ & Hg & _). auto. }
  assert (Hup : forall z, z = x \/ z = y -> upage_of (v_mem v') z = Some (UPage p (has e X86_PTE_RW || has e X86_PTE_COW) (has e X86_PTE_NX))).
  { intros z Hzz. destruct (Hz z Hzz) as (Zh & Zu & Zrw & Zc & Zn). unfold upage_of. rewrite Zu, Zrw, Zc, Zn, Zh.
    destruct (Hz x) as (Xh & Xu & _); [auto|]. rewrite <- Xh, (Hs k x), Xh, <- Ef, Hp by (auto; rewrite Ep, lookup_insert_ne, lookup_insert_eq; auto). reflexivity. }
  unfold uview. rewrite Ep, (view_insert _ _ _ y _ (Hup y (or_intror eq_refl))), (view_insert _ _ _ x _ (Hup x (or_introl eq_refl))). f_equal.
  rewrite (view_mem (v_mem v)); [apply insert_id; exact Hv|]. intros k0 e0 H0 Hu0. destruct (decide (k0 = k)) as [->|].
  - simplify_eq. rewrite Ef. destruct (Hz x) as (Xh & Xu & _); [auto|]. rewrite <- Xh. apply (Hs k); [rewrite Ep, lookup_insert_ne, lookup_insert_eq; auto|auto].
  - apply (Hs k0); [|auto]. rewrite Ep, !lookup_insert_ne; auto. congruence.
Qed.

Lemma clone_pte_eq v new i di ti e : pt_get v i di ti = Ok e -> has e X86_PTE_PRESENT = true -> has e X86_PTE_USER = true ->
  clone_pte new i di ti v =
    (v ← (if has e X86_PTE_RW then pt_set v i di ti (parent_pte e) else mret v);
     v ← incref v (entry_frame e);
     vmm_as_map_page_nolock v new (entry_frame e) (Z.lor (Z.lor (Z.shiftl i 30) (Z.shiftl di 21)) (Z.shiftl ti 12)) (child_flags (parent_pte e))).
Proof.
  intros E Hp Hu. unfold clone_pte. rewrite E, res_bind_ok, Hp, Hu. unfold parent_pte, child_flags. destruct (has e X86_PTE_RW); reflexivity.
Qed.

(** Page [n] of the parent is given to the child. *)
Lemma clone_pte_ok v G new n e f c :
  user_ok v G -> new ∈ t_sp G -> new <> v_cr3 v -> new <> v_kernel_as v -> 0 <= n < 786432 ->
  t_pte G !! (v_cr3 v, n) = Some e -> has e X86_PTE_USER = true -> hw_frame e = f * 4096 -> fa_live (v_alloc v) !! f = Some c -> c + 1 < 65536 ->
  t_pte G !! (new, n) = None -> is_Some (t_tab G !! (new, n / 512)) \/ fa_avail (v_alloc v) <> ∅ ->
  exists v' G' N u x y, clone_pte new (n / 262144) (n / 512 mod 512) (n mod 512) v = Ok v' /\ user_ok v' G' /\ same_regs v v' /\ t_sp G' = t_sp G /\
    t_pte G' = <[(new, n) := y]> (<[(v_cr3 v, n) := x]> (t_pte G)) /\
    has x X86_PTE_USER = true /\ hw_frame x = f * 4096 /\ has y X86_PTE_USER = true /\ hw_frame y = f * 4096 /\
    uview v G !! (v_cr3 v, n) = Some u /\ uview v' G' = <[(new, n) := u]> (uview v G) /\
    N ⊆ fa_avail (v_alloc v) /\ fa_avail (v_alloc v') = fa_avail (v_alloc v) ∖ N /\ (size N <= 1)%nat /\ (is_Some (t_tab G !! (new, n / 512)) -> N = ∅) /\
    is_Some (t_tab G' !! (new, n / 512)) /\ (forall k, k <> (new, n / 512) -> t_tab G' !! k = t_tab G !! k) /\
    (forall g, t_own G' !! (g * 4096) = None -> fa_live (v_alloc v') !! g = if g =? f then Some (c + 1) else fa_live (v_alloc v) !! g) /\
    (forall a r, t_own G !! a = Some r -> t_own G' !! a = Some r).
Proof.
  intros H Hnew Hne Hnk Hn He Hu Ef Hl Hc Hno Hroom. pose proof (us_vm _ _ _ H) as Hvm.
  destruct (us_entry _ _ _ H _ _ He Hu) as (f' & Ef' & Eef & Ho & _ & _ & Hnx). assert (f' = f) as -> by lia.
  assert (Hf : 0 < f < 1048576) by (apply (fa_range _ f (vk_alloc _ _ Hvm)); eauto).
  assert (Hva : user_va (n * 4096)) by (unfold user_va; lia). assert (Ev : vpn (n * 4096) = n) by (unfold vpn; apply Z.div_mul; lia).
  destruct (va_indices _ Hva) as (Hi & Hdi & Hti & Eg & Em & En & _). rewrite Ev in *.
  assert (Ei : pae_pdpt_index (n * 4096) = n / 262144) by (Z.to_euclidean_division_equations; lia).
  assert (Ed : pae_pd_index (n * 4096) = n / 512 mod 512) by (Z.to_euclidean_division_equations; lia).
  destruct (find_pte v G (n * 4096) Hvm Hva) as (pde & _ & Hcase). rewrite Ev, He in Hcase. destruct Hcase as [(_ & _ & ?)|(t & e' & _ & _ & _ & _ & Hg & Hpe & _)]; [discriminate|].
  destruct (has e' X86_PTE_PRESENT) eqn:Hp; [|discriminate]. injection Hpe as <-.
  destruct (parent_facts e f Hf Ef Eef Hu Hp) as (Xh & Xe & Xu & Xp & Xrw & Xc & Xn). set (x := parent_pte e) in *.
  pose proof (clone_pte_eq v new _ _ _ e Hg Hp Hu) as Eq. rewrite Eef, clone_va, <- En in Eq by auto. fold x in Eq. rewrite Ei, Ed, <- Em in Eq. rewrite Eq. clear Eq.
  destruct (parent_step v G (n * 4096) e Hvm Hva) as (m1 & G1 & E1 & H1 & (S1 & D1 & T1 & O1) & P1 & Hm1); [rewrite Ev; auto|auto|auto|]. rewrite Ei, Ed, <- Em, Ev in *. fold x in E1, P1. rewrite E1, res_bind_ok.
  destruct (incref_ok (set_mem m1 v) G1 f c H1) as (s2 & E2 & H2 & Ea2 & El2); [rewrite O1; auto|auto|auto|]. rewrite E2, res_bind_ok. simpl in Ea2, El2.
  set (v2 := set_alloc s2 (set_mem m1 v)) in *.
  destruct (child_step v2 G1 new n (child_flags x) f H2) as (v' & G' & N & E3 & H' & X & S3 & P3 & T3 & HN & Hsz & K3); [rewrite S1; auto|auto|auto|auto| |rewrite T1; simpl; rewrite Ea2; auto|].
  { unfold child_flags. destruct (has x X86_PTE_COW), (has x X86_PTE_NX); reflexivity. }
  set (y := Z.lor (f * 4096) (vmm_flags_to_x86 v2 (child_flags x))) in *. destruct (child_facts v2 x f Hf) as (Yh & Ye & Yu & Yrw & Yc & Yn). fold y in Yh, Ye, Yu, Yrw, Yc, Yn.
  pose proof (ex_regs _ _ _ _ _ X) as (Rcr & Rwp & Rka & Rnx). simpl in Rcr, Rwp, Rka, Rnx. rewrite T1 in *. simpl in Yn.
  assert (HN0 : N ⊆ fa_avail (v_alloc v)) by (rewrite <- Ea2; apply (ex_sub _ _ _ _ _ X)).
  assert (Hav : fa_avail (v_alloc v') = fa_avail (v_alloc v) ∖ N) by (rewrite (ex_avail _ _ _ _ _ X); simpl; rewrite Ea2; reflexivity).
  assert (Hlive : forall g, t_own G' !! (g * 4096) = None -> fa_live (v_alloc v') !! g = if g =? f then Some (c + 1) else fa_live (v_alloc v) !! g).
  { intros g Hg'. rewrite (ex_live _ _ _ _ _ X) by (intros Hx; apply (ex_new _ _ _ _ _ X) in Hx as [? ?]; congruence). simpl. rewrite El2.
    destruct (Z.eqb_spec g f) as [->|]; [apply lookup_insert_eq|apply lookup_insert_ne; auto]. }
  assert (Ep : t_pte G' = <[(new, n) := y]> (<[(v_cr3 v, n) := x]> (t_pte G))) by (rewrite P3, P1; reflexivity).
  assert (H'' : user_ok v' G').
  { apply (shared v G v' G' (v_cr3 v, n) (new, n) e x y f c); auto; try congruence.
    - intros z [-> | ->]; repeat (split; [assumption|]); [rewrite Xn; auto|]. rewrite Yn. intros [_ ?]%andb_prop. auto.
    - intros t' Ht' E. simpl in E. subst n. rewrite (us_tmp _ _ _ H _ _ Ht') in He. discriminate.
    - intros g r Hg'. apply (ex_own _ _ _ _ _ X). rewrite O1. auto.
    - intros g r Hg'. apply (ex_own_inv _ _ _ _ _ X) in Hg' as [?|(k & Hk & E)]; [rewrite O1 in *; auto|right]. assert (k = g) as -> by lia. auto.
    - rewrite Hav. set_solver. }
  destruct (shared_view v G v' G' (v_cr3 v, n) (new, n) e x y f H H'' He Hno Hu Ef) as (u & Hu1 & Hu2); auto.
  { intros z [-> | ->]; repeat (split; [assumption|]); [auto|]. rewrite Yc, Yn, Xc, Xn. split; [auto|]. destruct (has e X86_PTE_NX); [rewrite Hnx; auto|auto]. }
  { intros g Hg'. rewrite (ex_mem _ _ _ _ _ X) by auto. simpl. apply Hm1. rewrite <- O1. destruct (t_own G1 !! (g * 4096)) eqn:E; [|reflexivity].
    apply (ex_own _ _ _ _ _ X) in E. congruence. }
  exists v', G', N, u, x, y. split; [exact E3|]. split; [exact H''|]. split; [repeat split; auto|]. split; [congruence|].
  assert (Hown : forall a r, t_own G !! a = Some r -> t_own G' !! a = Some r) by (intros a r Ha; apply (ex_own _ _ _ _ _ X); rewrite O1; auto). auto 20.
Qed.

(** ** The loops *)

Section loops.
Context (v0 : vm S) (G0 : tables) (new : Z).
Context (Hnew : new ∈ t_sp G0) (Hne : new <> v_cr3 v0) (Hnk : new <> v_kernel_as v0) (Hsk : v_cr3 v0 <> v_kernel_as v0).
Notation src := (v_cr3 v0).

(** The page tables of the parent that have entries, and those of them from page [n] on
    that the child still lacks. *)
Definition slots : gset Z := set_map (fun k : Z * Z => k.2 / 512) (filter (fun k => k.1 = src) (dom (t_pte G0))).
Definition need (n : Z) (G : tables) : gset Z :=
  filter (fun g => n / 512 < g \/ g = n / 512 /\ t_tab G !! (new, g) = None) slots.

(** The mappings of frame [f] in the parent from page [n] on. *)
Definition rem (n f : Z) : nat := refs (filter (fun x => x.1.1 = src /\ n <= x.1.2) (t_pte G0)) f.

(** Pages below [n] are done. *)
Definition cloned (n : Z) (v : vm S) : Prop :=
  exists G, user_ok v G /\ same_regs v0 v /\ t_sp G = t_sp G0 /\
    (forall k, uview v G !! k = if k.1 =? new then if k.2 <? n then uview v0 G0 !! (src, k.2) else None else uview v0 G0 !! k) /\
    (forall m, n <= m -> t_pte G !! (new, m) = None) /\ (forall m, n <= m -> t_pte G !! (src, m) = t_pte G0 !! (src, m)) /\
    (forall g, t_tab G !! (src, g) = t_tab G0 !! (src, g)) /\
    (forall f c, fa_live (v_alloc v) !! f = Some c -> t_own G !! (f * 4096) = None -> c + Z.of_nat (rem n f) < 65536) /\
    (size (need n G) <= size (fa_avail (v_alloc v)))%nat.

Lemma in_slots n e : t_pte G0 !! (src, n) = Some e -> n / 512 ∈ slots.
Proof. intros He. unfold slots. apply elem_of_map. exists (src, n). split; [reflexivity|]. apply elem_of_filter. split; [auto|]. apply elem_of_dom. eauto. Qed.

Lemma refs_subseteq P Q f : P ⊆ Q -> (refs P f <= refs Q f)%nat.
Proof. intros Hs. unfold refs. apply map_subseteq_size, map_subseteq_spec. intros k e. rewrite !map_lookup_filter_Some. intros [? ?]. split; [eapply lookup_weaken|]; eauto. Qed.

Lemma rem_le n n' f : n <= n' -> (rem n' f <= rem n f)%nat.
Proof. intros Hn. apply refs_subseteq. apply map_subseteq_spec. intros k e. rewrite !map_lookup_filter_Some. intuition lia. Qed.

Lemma rem_step n e f : t_pte G0 !! (src, n) = Some e -> rem n f = ((if is_ref f e then 1 else 0) + rem (n + 1) f)%nat.
Proof.
  intros He. unfold rem. rewrite (refs_delete _ (src, n) e) by (apply map_lookup_filter_Some; simpl; auto with lia). do 2 f_equal.
  apply map_eq. intros k. destruct (decide (k = (src, n))) as [->|Hk].
  - rewrite lookup_delete_eq. symmetry. apply map_lookup_filter_None. right. intros ? _ [_ ?]. simpl in *. lia.
  - rewrite lookup_delete_ne by auto. apply option_eq. intros x. rewrite !map_lookup_filter_Some. destruct k as [a m]. simpl.
    split; [intros (? & -> & ?)|intros (? & -> & ?)]; (split; [auto|]); (split; [auto|]); [|lia]. assert (m <> n) by congruence. lia.
Qed.

Lemma need_mono n n' G : n <= n' -> need n' G ⊆ need n G.
Proof.
  intros Hn g. unfold need. rewrite !elem_of_filter. intros [Hg Hs]. split; [|auto]. assert (n / 512 <= n' / 512) by (apply Z.div_le_mono; lia).
  destruct Hg as [?|[-> ?]]; [left; lia|]. destruct (Z.eq_dec (n / 512) (n' / 512)) as [->|]; [auto|left; lia].
Qed.

(** Pages the parent does not have are skipped. *)
Lemma cloned_skip n n' v : n <= n' -> (forall m, n <= m < n' -> t_pte G0 !! (src, m) = None) -> cloned n v -> cloned n' v.
Proof.
  intros Hn Hnone (G & H & Hr & Hs & Hv & Hpn & Hps & Ht & Hc & Hb). exists G. split; [auto|]. split; [auto|]. split; [auto|]. split; [|split; [|split; [|split; [|split]]]].
  - intros [a m]. rewrite Hv. simpl. destruct (a =? new); [|reflexivity]. destruct (Z.ltb_spec m n), (Z.ltb_spec m n'); try reflexivity; [lia|].
    unfold uview. rewrite view_lookup, Hnone by lia. reflexivity.
  - intros m Hm. apply Hpn. lia.
  - intros m Hm. apply Hps. lia.
  - exact Ht.
  - intros f c Hl Ho. pose proof (Hc f c Hl Ho). pose proof (rem_le n n' f Hn). lia.
  - pose proof (subseteq_size _ _ (need_mono n n' G Hn)). lia.
Qed.

(** A page the parent has. *)
Lemma cloned_step n e v :
  0 <= n < 786432 -> t_pte G0 !! (src, n) = Some e -> cloned n v ->
  exists v', clone_pte new (n / 262144) (n / 512 mod 512) (n mod 512) v = Ok v' /\ cloned (n + 1) v'.
Proof.
  intros Hn He0 (G & H & Hr & Hs & Hv & Hpn & Hps & Ht & Hc & Hb). pose proof Hr as (Ecr & _ & Eka & _).
  assert (He : t_pte G !! (v_cr3 v, n) = Some e) by (rewrite Ecr, Hps by lia; auto).
  assert (Hu : has e X86_PTE_USER = true) by (rewrite (us_user _ _ _ H _ _ _ He), Ecr, Eka; apply negb_true_iff, Z.eqb_neq; auto).
  destruct (us_entry _ _ _ H _ _ He Hu) as (f & Ef & _ & Ho & [c Hl] & _). pose proof (Hc f c Hl Ho) as Hcf. rewrite (rem_step n e f He0), (is_ref_of f e Hu Ef) in Hcf.
  destruct (clone_pte_ok v G new n e f c H) as (v' & G' & N & u & x & y & E & H' & Hr' & Hs' & Ep & Xu & Xh & Yu & Yh & Hu1 & Hu2 & HN & Ha & Hsz & HN0 & Ht' & Hk' & Hlv & Hown); auto.
  - rewrite Hs. auto.
  - congruence.
  - congruence.
  - lia.
  - apply Hpn. lia.
  - destruct (t_tab G !! (new, n / 512)) eqn:Et; [eauto|right]. intros E0. assert (size (need n G) <> 0%nat); [|rewrite E0, size_empty in Hb; lia].
    intros Hz. apply size_empty_inv in Hz. apply (not_elem_of_empty (C := gset Z) (n / 512)), Hz. unfold need. apply elem_of_filter. split; [auto|]. eapply in_slots; eauto.
  - exists v'. split; [exact E|]. exists G'. rewrite Ecr in *. split; [auto|]. split; [eapply same_regs_trans; eauto|]. split; [congruence|]. split; [|split; [|split; [|split; [|split]]]].
    + intros [a m]. rewrite Hu2. simpl. destruct (decide ((new, n) = (a, m))) as [[= <- <-]|Hd].
      * rewrite lookup_insert_eq, Z.eqb_refl. zdecide. rewrite <- Hu1, Hv. simpl. rewrite (proj2 (Z.eqb_neq src new)) by auto. reflexivity.
      * rewrite lookup_insert_ne, Hv by auto. simpl. destruct (Z.eqb_spec a new) as [->|]; [|reflexivity]. assert (m <> n) by congruence.
        destruct (Z.ltb_spec m n), (Z.ltb_spec m (n + 1)); try reflexivity; lia.
    + intros m Hm. rewrite Ep, !lookup_insert_ne by (intros [=]; lia || congruence). apply Hpn. lia.
    + intros m Hm. rewrite Ep, !lookup_insert_ne by (intros [=]; lia || congruence). apply Hps. lia.
    + intros g. rewrite Hk' by congruence. apply Ht.
    + intros g c' Hl' Ho'. rewrite Hlv in Hl' by auto. assert (Hog : t_own G !! (g * 4096) = None).
      { destruct (t_own G !! (g * 4096)) eqn:E0; [apply Hown in E0; congruence|reflexivity]. }
      destruct (Z.eqb_spec g f) as [->|]; [injection Hl' as <-; lia|]. pose proof (Hc g c' Hl' Hog). pose proof (rem_le n (n + 1) g). lia.
    + assert (Hsub : need (n + 1) G' ⊆ need n G ∖ {[n / 512]}).
      { intros g. unfold need. rewrite elem_of_difference, !elem_of_filter, elem_of_singleton. intros [Hg Hgs]. assert (n / 512 <= (n + 1) / 512) by (apply Z.div_le_mono; lia).
        assert (n / 512 < g) by (destruct Hg as [?|[-> Hg]]; [lia|]; destruct (Z.eq_dec ((n + 1) / 512) (n / 512)) as [E1|]; [rewrite E1 in Hg; rewrite Hg in Ht'; destruct Ht'; discriminate|lia]).
        split; [auto|lia]. }
      apply subseteq_size in Hsub. rewrite Ha, size_difference by auto. destruct (t_tab G !! (new, n / 512)) as [t|] eqn:Et.
      * rewrite (HN0 (mk_is_Some _ _ eq_refl)), size_empty. assert (size (need n G ∖ {[(n / 512)%Z]}) <= size (need n G))%nat by (apply subseteq_size; set_solver). lia.
      * rewrite size_difference, size_singleton in Hsub; [lia|]. apply singleton_subseteq_l. unfold need. apply elem_of_filter. split; [auto|]. eapply in_slots; eauto.
Qed.

Lemma clone_entry pi di ti v :
  0 <= pi < 3 -> 0 <= di < 512 -> 0 <= ti < 512 -> is_Some (t_tab G0 !! (src, pi * 512 + di)) -> cloned ((pi * 512 + di) * 512 + ti) v ->
  exists v', clone_pte new pi di ti v = Ok v' /\ cloned ((pi * 512 + di) * 512 + ti + 1) v'.
Proof.
  intros Hpi Hdi Hti [t Ht] Hcl. set (n := (pi * 512 + di) * 512 + ti) in *. assert (Hn : 0 <= n < 786432) by lia.
  destruct (t_pte G0 !! (src, n)) as [e|] eqn:He.
  - destruct (cloned_step n e v Hn He Hcl) as (v' & E & Hcl'). exists v'. split; [|auto]. rewrite <- E. f_equal; unfold n; Z.to_euclidean_division_equations; lia.
  - exists v. split; [|apply (cloned_skip n); [lia| |auto]; intros m Hm; assert (m = n) as -> by lia; auto].
    destruct Hcl as (G & H & Hr & _ & _ & _ & Hps & Htab & _). pose proof Hr as (Ecr & _).
    destruct (pt_get_ok v G (vk_shape _ _ (us_vm _ _ _ H)) (vk_cur _ _ (us_vm _ _ _ H)) pi di ti t Hpi Hdi Hti) as (e & _ & E & Hp); [rewrite Ecr, Htab; auto|].
    unfold clone_pte. rewrite E, res_bind_ok. rewrite Ecr, Hps in Hp by (unfold n; lia). fold n in Hp. rewrite He in Hp. destruct (has e X86_PTE_PRESENT); [discriminate|reflexivity].
Qed.

Lemma clone_table pi di v :
  0 <= pi < 3 -> 0 <= di < 512 -> cloned ((pi * 512 + di) * 512) v ->
  exists v', clone_pde new pi di v = Ok v' /\ cloned ((pi * 512 + (di + 1)) * 512) v'.
Proof.
  intros Hpi Hdi Hcl. replace ((pi * 512 + (di + 1)) * 512) with ((pi * 512 + di) * 512 + 512) by lia. unfold clone_pde.
  assert (exists e, pd_get v pi di = Ok e /\ has e X86_PTE_PRESENT = bool_decide (is_Some (t_tab G0 !! (src, pi * 512 + di))) /\
    (t_tab G0 !! (src, pi * 512 + di) = None -> forall m, (pi * 512 + di) * 512 <= m < (pi * 512 + di) * 512 + 512 -> t_pte G0 !! (src, m) = None)) as (e & -> & Hp & Hnone).
  { destruct Hcl as (G & H & Hr & _ & _ & _ & Hps & Htab & _). destruct Hr as (Ecr & _). pose proof (vk_shape _ _ (us_vm _ _ _ H)) as Hsh.
    destruct (pd_get_ok v G Hsh (vk_cur _ _ (us_vm _ _ _ H)) pi di Hpi Hdi) as (d & e & _ & _ & E & Hok). exists e. split; [auto|]. unfold pde_ok in Hok. rewrite Ecr, Htab in Hok. split.
    - destruct (t_tab G0 !! _) as [t|]; [destruct Hok as (-> & _)|rewrite Hok]; symmetry; [apply bool_decide_eq_true|apply bool_decide_eq_false]; [eauto|intros [? ?]; discriminate].
    - intros Hn m Hm. rewrite <- Hps by lia. destruct (t_pte G !! (src, m)) eqn:Em; [|reflexivity]. apply (sh_some _ _ Hsh) in Em as [_ [t Et]].
      replace (m / 512) with (pi * 512 + di) in Et by (Z.to_euclidean_division_equations; lia). congruence. }
  rewrite res_bind_ok, Hp. destruct (bool_decide_reflect (is_Some (t_tab G0 !! (src, pi * 512 + di)))) as [Ht|Ht]; simpl.
  - apply (for_z_ok (fun k v => cloned ((pi * 512 + di) * 512 + k) v) 512 0); [rewrite Z.add_0_r; auto|].
    intros k w Hk Hw. destruct (clone_entry pi di k w Hpi Hdi ltac:(lia) Ht Hw) as (w' & E & Hw'). exists w'. rewrite Z.add_assoc. auto.
  - exists v. split; [reflexivity|]. apply (cloned_skip ((pi * 512 + di) * 512)); [lia| |auto]. apply Hnone. destruct (t_tab G0 !! _); [exfalso; eauto|auto].
Qed.

Lemma clone_all v : cloned 0 v ->
  exists v', for_z 3 0 (fun pi => for_z 512 0 (clone_pde new pi)) v = Ok v' /\ cloned 786432 v'.
Proof.
  intros Hcl. apply (for_z_ok (fun pi v => cloned (pi * 512 * 512) v) 3 0); [exact Hcl|]. intros pi w Hpi Hw.
  replace ((pi + 1) * 512 * 512) with ((pi * 512 + (0 + Z.of_nat 512)) * 512) by lia.
  apply (for_z_ok (fun di v => cloned ((pi * 512 + di) * 512) v) 512 0); [rewrite Z.add_0_r; auto|].
  intros di w' Hdi Hw'. apply clone_table; auto; lia.
Qed.
End loops.

(** Before the loops. *)
Lemma cloned_start v G N v0 G0 new :
  user_ok v G -> user_ok v0 G0 -> extends v G v0 G0 N -> t_pte G0 = t_pte G -> (forall g, t_tab G0 !! (new, g) = None) ->
  (size N <= 6)%nat -> (6 + size (slots v G) <= size (fa_avail (v_alloc v)))%nat -> (forall f c, fa_live (v_alloc v) !! f = Some c -> c < 32768) ->
  cloned v0 G0 new 0 v0.
Proof.
  intros H H0 X Ep Ht HN Hsz Hb. destruct (ex_regs _ _ _ _ _ X) as (Ecr & _). pose proof (vk_shape _ _ (us_vm _ _ _ H0)) as Hsh.
  assert (Hnew : forall m, t_pte G0 !! (new, m) = None).
  { intros m. destruct (t_pte G0 !! (new, m)) eqn:E; [|reflexivity]. apply (sh_some _ _ Hsh) in E as [_ [t E]]. rewrite Ht in E. discriminate. }
  exists G0. split; [auto|]. split; [apply same_regs_refl|]. split; [auto|]. split; [|split; [auto|split; [auto|split; [auto|split]]]].
  - intros [a m]. simpl. destruct (Z.eqb_spec a new) as [->|]; [|reflexivity]. assert (E : uview v0 G0 !! (new, m) = None) by (unfold uview; rewrite view_lookup, Hnew; reflexivity).
    rewrite E. destruct (Z.ltb_spec m 0); [|reflexivity]. unfold uview. rewrite view_lookup. destruct (t_pte G0 !! (v_cr3 v0, m)) eqn:Em; [|reflexivity].
    apply (sh_some _ _ Hsh) in Em. lia.
  - intros f c Hl Ho. assert (Hr : (rem v0 G0 0 f <= refs (t_pte G0) f)%nat) by (apply refs_subseteq, map_filter_subseteq). destruct (us_count _ _ _ H0 f c Hl Ho) as [Hc _].
    assert (f ∉ N) by (intros Hf; apply (ex_new _ _ _ _ _ X) in Hf as [? ?]; congruence). rewrite (ex_live _ _ _ _ _ X) in Hl by auto. apply Hb in Hl. lia.
  - rewrite (ex_avail _ _ _ _ _ X), size_difference by apply X. assert (need v0 G0 new 0 G0 ⊆ slots v G); [|apply subseteq_size in H1; lia].
    intros g Hg. apply elem_of_filter in Hg as [_ Hg]. unfold slots in *. rewrite Ep, Ecr in Hg. exact Hg.
Qed.

(** ** The fork of an address space *)

(** The memory of all processes after a fork: the child's is that of the parent. *)
Definition forked (M : umem) (src new : Z) (M' : umem) : Prop :=
  forall k, M' !! k = if k.1 =? new then M !! (src, k.2) else M !! k.

Lemma pte_range v G a n e : vm_ok v G -> t_pte G !! (a, n) = Some e -> 0 <= n < 786432.
Proof.
  intros H He. destruct (sh_some _ _ (vk_shape _ _ H) _ _ _ He) as (? & t & Ht). apply (sh_tab _ _ (vk_shape _ _ H)) in Ht as (? & _).
  Z.to_euclidean_division_equations. lia.
Qed.

Lemma fork_ok v G :
  user_ok v G -> v_cr3 v <> v_kernel_as v -> v_kernel_as v ∈ t_sp G -> (6 + size (slots v G) <= size (fa_avail (v_alloc v)))%nat ->
  (forall f c, fa_live (v_alloc v) !! f = Some c -> c < 32768) ->
  exists new v' G', vmm_as_clone_user_cow v (v_cr3 v) = Ok (new, v') /\ user_ok v' G' /\ same_regs v v' /\ new ∉ t_sp G /\ new <> 0 /\
    t_sp G' = {[new]} ∪ t_sp G /\ forked (uview v G) (v_cr3 v) new (uview v' G').
Proof.
  intros H Hk Hks Hsz Hb. pose proof (us_vm _ _ _ H) as Hvm. destruct (create_ok v G Hvm) as (new & v1 & G1 & N & E1 & H1 & X & HszN & Hnsp & Hs1 & Hp1 & Ht1 & Hk1); [apply (us_tmp _ _ _ H); auto|lia|].
  destruct (user_ok_extends v G v1 G1 N H H1 X Hp1) as [Hu1 Hv1]. pose proof (ex_regs _ _ _ _ _ X) as (Ecr & Ewp & Eka & Enx).
  assert (Hcr : v_cr3 v ∈ t_sp G) by apply Hvm. destruct (sp_frame v G _ Hvm Hcr) as (ns & Es & Hns). destruct (sp_frame v1 G1 new H1) as (nn & En & Hnn); [rewrite Hs1; set_solver|].
  unfold vmm_as_clone_user_cow. rewrite (proj2 (Z.eqb_neq (v_cr3 v) 0)) by lia. rewrite E1, res_bind_ok, (proj2 (Z.eqb_neq new 0)) by lia.
  assert (vmm_as_activate (v_cr3 v) v1 = v1) as Eact by (rewrite (activate_eq v1 G1) by (auto; rewrite Hs1; apply elem_of_union_r, Hcr); unfold set_cr3; rewrite <- Ecr; destruct v1; reflexivity).
  rewrite Eact. destruct (clone_all v1 G1 new) with (v := v1) as (v2 & E2 & Hcl).
  - rewrite Hs1. set_solver.
  - rewrite Ecr. intros ->. auto.
  - rewrite Eka. intros ->. auto.
  - congruence.
  - apply (cloned_start v G N); auto.
  - rewrite E2, res_bind_ok. destruct Hcl as (G2 & H2 & Hr2 & Hs2 & Hv2 & _). pose proof Hr2 as (Ecr2 & _).
    exists new, v2, G2. rewrite Ecr. split; [|split; [auto|split; [eapply same_regs_trans; [apply X|auto]|split; [auto|split; [lia|split; [congruence|]]]]]].
    + rewrite (activate_eq v2 G2 (v_cr3 v) (us_vm _ _ _ H2)) by (rewrite Hs2, Hs1; apply elem_of_union_r, Hcr). unfold set_cr3. rewrite <- Ecr, <- Ecr2. destruct v2. reflexivity.
    + intros [a m]. rewrite Hv2. simpl. rewrite Hv1, Ecr. destruct (a =? new); [|reflexivity]. destruct (Z.ltb_spec m 786432); [reflexivity|].
      unfold uview. rewrite view_lookup. destruct (t_pte G !! (v_cr3 v, m)) eqn:Em; [|reflexivity]. apply (pte_range v G) in Em; [lia|auto].
Qed.
End fork.
