(* ===== verification/VmmDestroy.v ===== *)
(** Giving memory back: a page of a process, and [vmm_as_destroy]. *)

From S2P Require Import Prelude Frames Vmm VmmInv VmmOps VmmSpace VmmUser VmmFork.

Section destroy.
Context {S : Type} {FA : FrameAlloc S} (pin : Z -> nat).
Implicit Types v : vm S.
Notation user_ok := (user_ok pin).

(** ** A page *)

(** The mapping at [k] of frame [f] goes, and its reference with it. *)
Lemma unshared v G v' G' k e f :
  user_ok v G -> vm_ok v' G' -> t_pte G !! k = Some e -> has e X86_PTE_USER = true -> hw_frame e = f * 4096 ->
  t_pte G' = delete k (t_pte G) -> t_own G' = t_own G ->
  released (fa_avail (v_alloc v)) (fa_live (v_alloc v)) f (fa_avail (v_alloc v')) (fa_live (v_alloc v')) ->
  v_kernel_as v' = v_kernel_as v -> v_nxe v' = v_nxe v -> user_ok v' G'.
Proof.
  intros H H' He Hu Ef Ep Eo (c & Hl & Hr) Eka Enx. destruct (us_entry _ _ _ H _ _ He Hu) as (f' & Ef' & _ & Ho & _). assert (f' = f) as -> by lia.
  destruct (us_count _ _ _ H f c Hl Ho) as [Hc Hcm].
  assert (Er : forall g, refs (t_pte G) g = ((if (g =? f)%Z then 1 else 0) + refs (t_pte G') g)%nat).
  { intros g. rewrite Ep, (refs_delete _ k e g He). f_equal. destruct (Z.eqb_spec g f) as [->|]; [rewrite is_ref_of|rewrite (is_ref_ne f)]; auto. }
  assert (Hlive : forall g, fa_live (v_alloc v') !! g = if g =? f then if 1 <? c then Some (c - 1) else None else fa_live (v_alloc v) !! g).
  { intros g. destruct (1 <? c); destruct Hr as [_ ->]; destruct (Z.eqb_spec g f) as [->|]; rewrite ?lookup_insert_eq, ?lookup_delete_eq, ?lookup_insert_ne, ?lookup_delete_ne by auto; reflexivity. }
  pose proof (Er f) as Erf. rewrite Z.eqb_refl in Erf.
  split; auto; rewrite ?Eka, ?Eo.
  - intros a n e' Hk'. rewrite Ep in Hk'. apply lookup_delete_Some in Hk' as [_ Hk']. apply (us_user _ _ _ H _ _ _ Hk').
  - intros k2 e' Hk' Hu'. rewrite Ep in Hk'. apply lookup_delete_Some in Hk' as [Hk2 Hk']. destruct (us_entry _ _ _ H _ _ Hk' Hu') as (g & Eg & ? & Hog & Hlg & Hrw & ?).
    exists g. rewrite Hlive, Eo, Enx. split; [auto|]. split; [auto|]. split; [auto|]. pose proof (Er g) as Erg.
    assert (Hpos : (1 <= refs (t_pte G') g)%nat) by (apply (refs_pos _ k2 e'); [rewrite Ep, lookup_delete_ne; auto|apply is_ref_of; auto]).
    destruct (Z.eqb_spec g f) as [->|].
    + rewrite (proj2 (Z.ltb_lt 1 c)) by lia. split; [eauto|]. split; [|auto]. intros Hw. destruct (Hrw Hw). lia.
    + split; [auto|]. split; [|auto]. intros Hw. destruct (Hrw Hw). split; [lia|auto].
  - intros g c' Hg Hog. rewrite Hlive in Hg. pose proof (Er g) as Erg. destruct (Z.eqb_spec g f) as [->|].
    + destruct (1 <? c); [|discriminate]. injection Hg as <-. lia.
    + destruct (us_count _ _ _ H g c' Hg Hog) as [? ?]. simpl in Erg. split; [lia|auto].
  - intros g [Hg|Hg]; [|apply (us_pin _ _ _ H); auto]. destruct (Z.ltb_spec 1 c); destruct Hr as [Ea _]; rewrite Ea in Hg; [apply (us_pin _ _ _ H); auto|].
    apply elem_of_union in Hg as [->%elem_of_singleton|Hg]; [|apply (us_pin _ _ _ H); auto]. lia.
  - intros a t Ht. rewrite Ep. apply lookup_delete_None. right. apply (us_tmp _ _ _ H), Ht.
Qed.

Lemma unshared_view v G v' G' k :
  user_ok v G -> t_pte G' = delete k (t_pte G) -> (forall f, t_own G !! f = None -> v_mem v' !! f = v_mem v !! f) ->
  uview v' G' = delete k (uview v G).
Proof.
  intros H Ep Hm. unfold uview. rewrite Ep, view_delete. f_equal. apply view_mem. intros k' e' Hk' Hu'.
  destruct (us_entry _ _ _ H _ _ Hk' Hu') as (g & -> & _ & Hg & _). auto.
Qed.

(** ** An entry *)

Lemma destroy_pte_ok v G i di ti t :
  user_ok v G -> v_cr3 v <> v_kernel_as v -> 0 <= i < 3 -> 0 <= di < 512 -> 0 <= ti < 512 -> t_tab G !! (v_cr3 v, i * 512 + di) = Some t ->
  let n := (i * 512 + di) * 512 + ti in
  exists v' G', destroy_pte i di ti v = Ok v' /\ user_ok v' G' /\ same_regs v v' /\ keeps G G' /\ t_pte G' = delete (v_cr3 v, n) (t_pte G) /\
    uview v' G' = delete (v_cr3 v, n) (uview v G).
Proof.
  intros H Hk Hi Hdi Hti Ht n. pose proof (us_vm _ _ _ H) as Hvm. unfold destroy_pte.
  destruct (pt_get_ok v G (vk_shape _ _ Hvm) (vk_cur _ _ Hvm) i di ti t Hi Hdi Hti Ht) as (e & _ & -> & Hp). rewrite res_bind_ok. fold n in Hp.
  destruct (has e X86_PTE_PRESENT) eqn:Epr; simpl negb; cbv iota.
  - assert (Hu : has e X86_PTE_USER = true) by (rewrite (us_user _ _ _ H _ _ _ Hp); apply negb_true_iff, Z.eqb_neq; auto).
    destruct (us_entry _ _ _ H _ _ Hp Hu) as (f & Ef & Eef & Ho & Hl & _). rewrite Eef.
    destruct (free_ok v G f Hvm Ho Hl) as (s' & -> & H1 & Hrel). rewrite res_bind_ok.
    destruct (pt_set_ok (set_alloc s' v) G i di ti 0 t H1 Hi Hdi Hti Ht) as (m' & E & H2 & Hm); [discriminate|].
    assert (Hm' : forall a, t_own G !! a = None -> m' !! a = v_mem v !! a).
    { intros a Ha. apply Hm. intros ->. apply (sh_tab _ _ (vk_shape _ _ Hvm)) in Ht as (_ & _ & ?). congruence. }
    exists (set_mem m' (set_alloc s' v)), (set_pte (v_cr3 v, n) 0 G). split; [exact E|].
    split; [eapply (unshared v G _ _ (v_cr3 v, n) e f); eauto; reflexivity|]. split; [repeat split|]. split; [repeat split|]. split; [reflexivity|].
    eapply unshared_view; eauto; reflexivity.
  - exists v, G. split; [reflexivity|]. split; [auto|]. split; [apply same_regs_refl|]. split; [repeat split|].
    split; [symmetry; apply delete_id, Hp|symmetry; apply delete_id]. unfold uview. rewrite view_lookup, Hp. reflexivity.
Qed.

(** ** A page table *)

(** A table without entries is freed. *)
Lemma drop_table v G i di t :
  user_ok v G -> v_cr3 v <> v_kernel_as v -> 0 <= i < 3 -> 0 <= di < 512 -> t_tab G !! (v_cr3 v, i * 512 + di) = Some t ->
  (forall ti, 0 <= ti < 512 -> t_pte G !! (v_cr3 v, (i * 512 + di) * 512 + ti) = None) ->
  exists v', (v ← free_page v t; pd_set v i di 0) = Ok v' /\ user_ok v' (del_tab (v_cr3 v) (i * 512 + di) t G) /\ same_regs v v' /\
    uview v' (del_tab (v_cr3 v) (i * 512 + di) t G) = uview v G.
Proof.
  intros H Hk Hi Hdi Ht Hnone. pose proof (us_vm _ _ _ H) as Hvm. pose proof (vk_shape _ _ Hvm) as Hs. destruct (sh_tab _ _ Hs _ _ _ Ht) as (_ & _ & Ho).
  destruct (sh_own _ _ Hs _ _ Ho) as (n & -> & Hn & Hfull). destruct (vk_own _ _ Hvm _ _ Ho) as [Hna Hl]. specialize (Hl Hk).
  destruct (fa_free_live _ _ (vk_alloc _ _ Hvm) (mk_is_Some _ _ Hl)) as (s' & E & Hok & (c & Hc & Hr)). assert (c = 1) as -> by congruence. simpl in Hr. destruct Hr as [Ea El].
  unfold free_page. rewrite E, !res_bind_ok.
  destruct (dk_all _ _ (sh_dirs _ _ Hs) _ i (vk_cur _ _ Hvm)) as [d Hd]; [lia|]. destruct (dk_dir _ _ (sh_dirs _ _ Hs) _ _ _ Hd) as (_ & _ & _ & Hod & _).
  destruct (sh_own _ _ Hs _ _ Hod) as (_ & _ & _ & (p & Hp & Lp)). unfold pd_set. rewrite (pd_recursive_ok (set_alloc s' v) G (sh_dirs _ _ Hs) (vk_cur _ _ Hvm) _ _ Hd), res_bind_ok, (wr_put _ d p) by auto.
  set (m' := <[d := arr_put p di 0]> (v_mem v)). exists (set_mem m' (set_alloc s' v)). split; [reflexivity|]. set (G' := del_tab _ _ _ _).
  assert (Hown : forall f, f <> n -> t_own G' !! (f * 4096) = t_own G !! (f * 4096)) by (intros f Hf; apply lookup_delete_ne; lia).
  assert (Hlive : forall f, f <> n -> fa_live s' !! f = fa_live (v_alloc v) !! f) by (intros f Hf; rewrite El; apply lookup_delete_ne; auto).
  assert (Hvm' : vm_ok (set_mem m' (set_alloc s' v)) G').
  { split; simpl.
    - apply shape_del_tab; auto; lia.
    - apply Hvm.
    - auto.
    - intros f r Hf. assert (f <> n) by (intros ->; rewrite lookup_delete_eq in Hf; discriminate). rewrite lookup_delete_ne in Hf by lia.
      destruct (vk_own _ _ Hvm f r Hf). rewrite Ea, Hlive by auto. split; [set_solver|auto].
    - intros f Hf. apply full_insert; [rewrite arr_len_put; auto|]. destruct (decide (f = n)) as [->|]; [auto|]. apply (vk_ram _ _ Hvm). rewrite Ea, Hlive in Hf by auto. set_solver. }
  split; [|split; [repeat split|]].
  - split; auto; try apply H.
    + intros k e He Hu. destruct (us_entry _ _ _ H _ _ He Hu) as (f & ? & ? & Hof & Hlf & ? & ?). assert (f <> n) by congruence.
      exists f. rewrite Hown by auto. simpl. rewrite Hlive by auto. auto 10.
    + intros f c' Hf Hof. simpl in Hf. assert (f <> n) by (intros ->; rewrite El, lookup_delete_eq in Hf; discriminate). rewrite Hlive in Hf by auto. rewrite Hown in Hof by auto.
      apply (us_count _ _ _ H); auto.
    + simpl. intros f Hf. apply (us_pin _ _ _ H). destruct (decide (f = n)) as [->|]; [eauto|]. rewrite lookup_delete_ne in Hf by lia. set_solver.
  - unfold uview. apply view_mem. intros k e He Hu. destruct (us_entry _ _ _ H _ _ He Hu) as (f & -> & _ & Hof & _). simpl. apply lookup_insert_ne. congruence.
Qed.

(** The memory of [a] from page [lo] to [hi] is gone. *)
Definition wiped (a lo hi : Z) (M M' : umem) : Prop :=
  forall k, M' !! k = if (k.1 =? a) && (lo <=? k.2) && (k.2 <? hi) then None else M !! k.

Lemma destroy_entries v G i di t :
  user_ok v G -> v_cr3 v <> v_kernel_as v -> 0 <= i < 3 -> 0 <= di < 512 -> t_tab G !! (v_cr3 v, i * 512 + di) = Some t ->
  exists v' G', for_z 512 0 (destroy_pte i di) v = Ok v' /\ user_ok v' G' /\ same_regs v v' /\ keeps G G' /\
    (forall a m e, t_pte G' !! (a, m) = Some e -> t_pte G !! (a, m) = Some e /\ (a = v_cr3 v -> ~ (i * 512 + di) * 512 <= m < (i * 512 + di) * 512 + 512)) /\
    wiped (v_cr3 v) ((i * 512 + di) * 512) ((i * 512 + di) * 512 + 512) (uview v G) (uview v' G').
Proof.
  intros H Hk Hi Hdi Ht. set (lo := (i * 512 + di) * 512).
  destruct (for_z_ok (fun j v' => exists G', user_ok v' G' /\ same_regs v v' /\ keeps G G' /\
    (forall a m e, t_pte G' !! (a, m) = Some e -> t_pte G !! (a, m) = Some e /\ (a = v_cr3 v -> ~ lo <= m < lo + j)) /\ wiped (v_cr3 v) lo (lo + j) (uview v G) (uview v' G'))
    512 0 (destroy_pte i di) v) as (v' & E & G' & ?); [| |eauto].
  - exists G. split; [auto|]. split; [apply same_regs_refl|]. split; [repeat split|]. split; [intros; split; [auto|lia]|].
    intros [a m]. simpl. destruct (a =? v_cr3 v), (Z.leb_spec lo m), (Z.ltb_spec m (lo + 0)); simpl; try reflexivity; lia.
  - intros j w Hj (G' & H' & Hr & (K1 & K2 & K3 & K4) & Hp & Hw). pose proof Hr as (Ecr & _ & Eka & _).
    destruct (destroy_pte_ok w G' i di j t H') as (w' & G2 & E & H2 & Hr2 & (L1 & L2 & L3 & L4) & Hp2 & Hv2); auto; [congruence|rewrite K3, Ecr; auto|]. fold lo in Hp2, Hv2. rewrite Ecr in *.
    exists w'. split; [auto|]. exists G2. split; [auto|]. split; [eapply same_regs_trans; eauto|]. split; [repeat split; congruence|]. split.
    + intros a m e He. rewrite Hp2 in He. apply lookup_delete_Some in He as [Hne He]. apply Hp in He as [He Hm]. split; [auto|]. intros ->. specialize (Hm eq_refl).
      assert (m <> lo + j) by congruence. lia.
    + intros [a m]. rewrite Hv2. simpl. destruct (decide ((v_cr3 v, lo + j) = (a, m))) as [[= <- <-]|Hne].
      * rewrite lookup_delete_eq, Z.eqb_refl. zdecide. reflexivity.
      * rewrite lookup_delete_ne, Hw by auto. simpl. destruct (Z.eqb_spec a (v_cr3 v)) as [->|]; [|reflexivity]. assert (m <> lo + j) by congruence.
        destruct (Z.ltb_spec m (lo + j)), (Z.ltb_spec m (lo + (j + 1))); try reflexivity; lia.
Qed.

Lemma wiped_trans a lo mid hi M1 M2 M3 : lo <= mid <= hi -> wiped a lo mid M1 M2 -> wiped a mid hi M2 M3 -> wiped a lo hi M1 M3.
Proof.
  intros Hm W1 W2 [b m]. rewrite W2, W1. simpl. destruct (b =? a); simpl; [|reflexivity].
  destruct (Z.leb_spec mid m), (Z.ltb_spec m hi), (Z.leb_spec lo m), (Z.ltb_spec m mid); simpl; try reflexivity; lia.
Qed.

Lemma wiped_none a lo hi M : (forall m, lo <= m < hi -> M !! (a, m) = None) -> wiped a lo hi M M.
Proof.
  intros Hm [b m]. simpl. destruct (Z.eqb_spec b a) as [->|]; [|reflexivity]. simpl. destruct (Z.leb_spec lo m), (Z.ltb_spec m hi); simpl; auto.
Qed.

Section loops.
Context (v0 : vm S) (G0 : tables) (Hk : v_cr3 v0 <> v_kernel_as v0).
Notation a := (v_cr3 v0).

(** The page tables below slot [g] are gone. *)
Definition destroyed (g : Z) (v : vm S) : Prop :=
  exists G, user_ok v G /\ same_regs v0 v /\ t_sp G = t_sp G0 /\ t_dir G = t_dir G0 /\ (forall g', g' < g -> t_tab G !! (a, g') = None) /\
    wiped a 0 (g * 512) (uview v0 G0) (uview v G).

Lemma destroy_slot pi di v : 0 <= pi < 3 -> 0 <= di < 512 -> destroyed (pi * 512 + di) v ->
  exists v', destroy_pde pi di v = Ok v' /\ destroyed (pi * 512 + (di + 1)) v'.
Proof.
  intros Hpi Hdi (G & H & Hr & Hs & Hd & Ht & Hw). pose proof Hr as (Ecr & _ & Eka & _). pose proof (vk_shape _ _ (us_vm _ _ _ H)) as Hsh. set (g := pi * 512 + di) in *. assert (Hg : 0 <= g) by lia.
  assert (Hkv : v_cr3 v <> v_kernel_as v) by congruence. replace (pi * 512 + (di + 1)) with (g + 1) by lia. unfold destroy_pde.
  destruct (pd_get_ok v G Hsh (vk_cur _ _ (us_vm _ _ _ H)) pi di Hpi Hdi) as (d & e & _ & _ & -> & Hok). rewrite res_bind_ok. fold g in Hok. unfold pde_ok in Hok.
  destruct (t_tab G !! (v_cr3 v, g)) as [t|] eqn:Et.
  - destruct Hok as (-> & _ & _ & Ee & _). simpl negb. cbv iota. rewrite Ee.
    destruct (destroy_entries v G pi di t H Hkv Hpi Hdi Et) as (v1 & G1 & -> & H1 & Hr1 & (K1 & K2 & K3 & K4) & Hp1 & Hw1). rewrite res_bind_ok. fold g in Hp1, Hw1.
    pose proof Hr1 as (Ecr1 & _ & Eka1 & _).
    destruct (drop_table v1 G1 pi di t H1) as (v2 & E2 & H2 & Hr2 & Hv2); auto; [congruence|rewrite K3, Ecr1; exact Et| |].
    { intros ti Hti. fold g. destruct (t_pte G1 !! (v_cr3 v1, g * 512 + ti)) eqn:E; [|reflexivity]. apply Hp1 in E as [_ E]. exfalso. apply E; [auto|lia]. }
    exists v2. split; [exact E2|]. fold g in H2, Hv2. rewrite Ecr1, Ecr in *. exists (del_tab a g t G1). split; [auto|]. split; [eapply same_regs_trans; [|eapply same_regs_trans]; eauto|].
    split; [simpl; congruence|]. split; [simpl; congruence|]. split.
    + intros g' Hg'. simpl. rewrite K3. destruct (decide (g' = g)) as [->|]; [apply lookup_delete_eq|]. rewrite lookup_delete_ne by congruence. apply Ht. lia.
    + rewrite Hv2. replace ((g + 1) * 512) with (g * 512 + 512) by lia. eapply wiped_trans; [|exact Hw|exact Hw1]. lia.
  - rewrite Hok. simpl negb. cbv iota. exists v. split; [reflexivity|]. exists G. split; [auto|]. split; [auto|]. split; [auto|]. split; [auto|]. rewrite Ecr in Et. split.
    + intros g' Hg'. destruct (decide (g' = g)) as [->|]; [auto|apply Ht; lia].
    + replace ((g + 1) * 512) with (g * 512 + 512) by lia. eapply wiped_trans; [|exact Hw|apply wiped_none]; [lia|]. intros m Hm. unfold uview. rewrite view_lookup.
      destruct (t_pte G !! (a, m)) eqn:Em; [|reflexivity]. apply (sh_some _ _ Hsh) in Em as [_ [x Ex]].
      replace (m / 512) with g in Ex by (Z.to_euclidean_division_equations; lia). congruence.
Qed.

Lemma destroy_all v : destroyed 0 v -> exists v', for_z 3 0 (fun pi => for_z 512 0 (destroy_pde pi)) v = Ok v' /\ destroyed 1536 v'.
Proof.
  intros Hv. apply (for_z_ok (fun pi v => destroyed (pi * 512) v) 3 0); [exact Hv|]. intros pi w Hpi Hw.
  replace ((pi + 1) * 512) with (pi * 512 + (0 + Z.of_nat 512)) by lia.
  apply (for_z_ok (fun di v => destroyed (pi * 512 + di) v) 512 0); [rewrite Z.add_0_r; auto|].
  intros di w' Hdi Hw'. apply destroy_slot; auto; lia.
Qed.
End loops.

(** ** An address space *)

(** Frames with one reference are freed. *)
Lemma free_frames ns v : fa_ok (v_alloc v) -> NoDup ns -> (forall n, n ∈ ns -> fa_live (v_alloc v) !! n = Some 1) ->
  exists s', free_pages v (map (fun n => n * 4096) ns) = Ok (set_alloc s' v) /\ fa_ok s' /\ gives (v_alloc v) s' ns.
Proof.
  revert v. induction ns as [|n ns IH]; intros v Hok Hnd Hl.
  - exists (v_alloc v). destruct v. split; [reflexivity|]. split; [auto|]. split; [set_solver|]. split; [set_solver|auto].
  - apply NoDup_cons in Hnd as [Hn Hnd]. pose proof (Hl n ltac:(set_solver)) as Hln. destruct (fa_free_live _ _ Hok (mk_is_Some _ _ Hln)) as (s1 & E1 & Hok1 & (c & Hc & Hr)).
    assert (c = 1) as -> by congruence. simpl in Hr. destruct Hr as [Ea El].
    destruct (IH (set_alloc s1 v) Hok1 Hnd) as (s2 & E2 & Hok2 & (Ea2 & Ed2 & El2)).
    { intros k Hk. simpl. rewrite El, lookup_delete_ne by (intros ->; auto). apply Hl. set_solver. }
    exists s2. simpl. unfold free_page at 1. rewrite E1, !res_bind_ok, E2. split; [reflexivity|]. split; [exact Hok2|]. simpl in *. split; [set_solver|]. split.
    + intros k [->|Hk]%elem_of_cons; [rewrite El2, El by auto; apply lookup_delete_eq|auto].
    + intros k Hk. rewrite El2, El by set_solver. apply lookup_delete_ne. set_solver.
Qed.

Lemma user_ok_cr3 v G a : user_ok v G -> a ∈ t_sp G -> user_ok (set_cr3 a v) G.
Proof. intros H Ha. split; try apply H. apply vm_ok_cr3; [apply H|auto]. Qed.

(** The frames of an address space without page tables. *)
Lemma space_frames v G a :
  vm_ok v G -> a ∈ t_sp G -> a <> v_kernel_as v -> (forall g, t_tab G !! (a, g) = None) ->
  exists n0 n1 n2 n3 na, a = na * 4096 /\ NoDup [n0; n1; n2; n3; na] /\
    (forall i n, [n0; n1; n2; n3] !! Z.to_nat i = Some n -> 0 <= i -> t_dir G !! (a, i) = Some (n * 4096)) /\
    (forall n, n ∈ [n0; n1; n2; n3; na] <-> exists r, t_own G !! (n * 4096) = Some r /\ role_as r = a) /\
    (forall n, n ∈ [n0; n1; n2; n3; na] -> fa_live (v_alloc v) !! n = Some 1 /\ 0 < n).
Proof.
  intros H Ha Hk Hnt. pose proof (vk_shape _ _ H) as Hs. assert (Hd : forall i, 0 <= i < 4 -> exists n, t_dir G !! (a, i) = Some (n * 4096) /\ t_own G !! (n * 4096) = Some (Dir a i) /\ 0 < n).
  { intros i Hi. destruct (dk_all _ _ (sh_dirs _ _ Hs) a i Ha Hi) as [d Hd]. destruct (dk_dir _ _ (sh_dirs _ _ Hs) _ _ _ Hd) as (_ & _ & _ & Ho & _).
    destruct (sh_own _ _ Hs _ _ Ho) as (n & -> & ? & _). exists n. repeat split; auto; lia. }
  destruct (Hd 0) as (n0 & D0 & O0 & P0), (Hd 1) as (n1 & D1 & O1 & P1), (Hd 2) as (n2 & D2 & O2 & P2), (Hd 3) as (n3 & D3 & O3 & P3); try lia.
  pose proof (sp_own _ _ _ H Ha) as Oa. destruct (sh_own _ _ Hs _ _ Oa) as (na & Ea & Pa & _). assert (Oa' : t_own G !! (na * 4096) = Some (Top a)) by (rewrite <- Ea; exact Oa). clear Oa. exists n0, n1, n2, n3, na. split; [auto|].
  split; [|split; [|split]].
  - repeat setoid_rewrite NoDup_cons. set_unfold. repeat split; try (intros Hx; repeat (destruct Hx as [Hx|Hx]; [subst; congruence|]); auto); auto. constructor.
  - intros i n Hn Hi. assert (i < 4) by (apply lookup_lt_Some in Hn; simpl in Hn; lia). assert (i = 0 \/ i = 1 \/ i = 2 \/ i = 3) as [-> | [-> | [-> | ->]]] by lia; injection Hn as <-; auto.
  - intros n. set_unfold. split.
    + intros [-> | [-> | [-> | [-> | [-> | []]]]]]; eexists; (split; [eassumption|reflexivity]).
    + intros (r & Hr & Era). apply (sh_reg _ _ Hs) in Hr as Hreg. destruct r as [b|b j|b g]; simpl in Era, Hreg; subst b.
      * assert (n = na) as -> by lia. tauto.
      * destruct (dk_dir _ _ (sh_dirs _ _ Hs) _ _ _ Hreg) as (Hj & _). assert (j = 0 \/ j = 1 \/ j = 2 \/ j = 3) as [-> | [-> | [-> | ->]]] by lia.
        -- assert (n = n0) by (rewrite D0 in Hreg; injection Hreg; lia). tauto.
        -- assert (n = n1) by (rewrite D1 in Hreg; injection Hreg; lia). tauto.
        -- assert (n = n2) by (rewrite D2 in Hreg; injection Hreg; lia). tauto.
        -- assert (n = n3) by (rewrite D3 in Hreg; injection Hreg; lia). tauto.
      * rewrite Hnt in Hreg. discriminate.
  - intros n Hn. set_unfold. destruct Hn as [-> | [-> | [-> | [-> | [-> | []]]]]]; (split; [|lia]);
      match goal with O : t_own G !! (?x * 4096) = Some _ |- _ !! ?x = _ => apply (vk_own _ _ H) in O as [_ O]; apply O; simpl; congruence end.
Qed.

(** They are freed. *)
Lemma drop_space v G a s' ns :
  user_ok v G -> a ∈ t_sp G -> v_cr3 v <> a -> (forall g, t_tab G !! (a, g) = None) -> fa_ok s' -> gives (v_alloc v) s' ns ->
  (forall n, n ∈ ns <-> exists r, t_own G !! (n * 4096) = Some r /\ role_as r = a) ->
  user_ok (set_alloc s' v) (del_space a G) /\ uview (set_alloc s' v) (del_space a G) = uview v G.
Proof.
  intros H Ha Hcr Hnt Hok (Ea & Ed & El) Hns. pose proof (us_vm _ _ _ H) as Hvm. pose proof (vk_shape _ _ Hvm) as Hs.
  assert (Hnot : forall f r, t_own G !! (f * 4096) = Some r -> role_as r <> a -> f ∉ ns) by (intros f r Hf Hr (r' & Hf' & Hr')%Hns; congruence).
  assert (Hfree : forall f, t_own G !! (f * 4096) = None -> f ∉ ns) by (intros f Hf (r' & Hf' & Hr')%Hns; congruence).
  assert (Hown : forall f, t_own (del_space a G) !! (f * 4096) = None -> f ∈ ns \/ t_own G !! (f * 4096) = None).
  { intros f Hf. destruct (t_own G !! (f * 4096)) as [r|] eqn:E; [left|auto]. apply Hns. exists r. split; [auto|]. destruct (decide (role_as r = a)) as [|Hr]; [auto|].
    exfalso. assert (t_own (del_space a G) !! (f * 4096) = Some r) by (apply del_own; auto). congruence. }
  assert (Hnone : forall f, t_own G !! f = None -> t_own (del_space a G) !! f = None).
  { intros f Hf. destruct (t_own (del_space a G) !! f) as [r|] eqn:E; [|reflexivity]. apply del_own in E as [_ E]. congruence. }
  split; [|reflexivity]. split.
  - split; simpl.
    + apply shape_del_space; auto.
    + apply elem_of_difference. split; [apply Hvm|]. rewrite elem_of_singleton. auto.
    + auto.
    + intros n r [Hr Hn]%del_own. destruct (vk_own _ _ Hvm n r Hn) as [Hna Hl]. pose proof (Hnot n r Hn Hr). rewrite Ea, El by auto. split; [|auto].
      rewrite not_elem_of_union, elem_of_list_to_set. auto.
    + intros n Hn. destruct (decide (n ∈ ns)) as [Hin|Hin]; [apply Hns in Hin as (r & Hr & _); destruct (sh_own _ _ Hs _ _ Hr) as (_ & _ & _ & F); exact F|].
      apply (vk_ram _ _ Hvm). rewrite Ea, El in Hn by auto. rewrite elem_of_union, elem_of_list_to_set in Hn. tauto.
  - apply H.
  - intros k e He Hu. destruct (us_entry _ _ _ H _ _ He Hu) as (f & ? & ? & Ho & Hl & ? & ?). exists f. simpl. rewrite El by auto. auto 10.
  - intros f c Hf Ho. simpl in Hf. assert (f ∉ ns) by (intros Hin; rewrite Ed in Hf by auto; discriminate). rewrite El in Hf by auto. destruct (Hown f Ho); [contradiction|]. apply (us_count _ _ _ H); auto.
  - intros f [Hf|[r Hf]]; [|apply del_own in Hf as [_ Hf]; apply (us_pin _ _ _ H); eauto]. simpl in Hf. rewrite Ea, elem_of_union, elem_of_list_to_set in Hf.
    apply (us_pin _ _ _ H). destruct Hf as [Hf|(r & Hf & _)%Hns]; eauto.
  - apply H.
Qed.

Lemma free_pages_snoc v l x : (v ← free_pages v l; free_page v x) = free_pages v (l ++ [x]).
Proof.
  revert v. induction l as [|f l IH]; intros v; simpl; [destruct (free_page v x); reflexivity|].
  destruct (free_page v f) as [v'| |]; [|reflexivity..]. rewrite !res_bind_ok. apply IH.
Qed.

(** The entries through which the code finds the directories. *)
Lemma self_entry v G a i n :
  vm_ok v G -> v_cr3 v = a -> 0 <= i < 4 -> t_dir G !! (a, i) = Some (n * 4096) ->
  exists e, pd_get v 3 (508 + i) = Ok e /\ entry_frame e = n * 4096.
Proof.
  intros H <- Hi Hd. pose proof (sh_dirs _ _ (vk_shape _ _ H)) as Hk. destruct (dk_all _ _ Hk _ 3 (vk_cur _ _ H)) as [d3 Hd3]; [lia|].
  destruct (dk_self _ _ Hk _ _ _ _ Hd Hd3) as (e & He & _ & _ & Ee). exists e. unfold pd_get. rewrite (pd_recursive_ok v G Hk (vk_cur _ _ H) _ _ Hd3), res_bind_ok.
  auto using rd_word.
Qed.

(** [vmm_as_destroy]: the memory of the address space is gone, that of the others stays. *)
Lemma destroy_ok v G a :
  user_ok v G -> a ∈ t_sp G -> a <> v_kernel_as v -> v_cr3 v <> a ->
  exists v' G', vmm_as_destroy v a = Ok v' /\ user_ok v' G' /\ same_regs v v' /\ t_sp G' = t_sp G ∖ {[a]} /\
    (forall k, uview v' G' !! k = if k.1 =? a then None else uview v G !! k).
Proof.
  intros H Ha Hk Hcr. pose proof (us_vm _ _ _ H) as Hvm. destruct (sp_frame v G a Hvm Ha) as (n & En & Hn). unfold vmm_as_destroy.
  rewrite (proj2 (Z.eqb_neq a 0)), (proj2 (Z.eqb_neq a (v_kernel_as v))) by lia. rewrite (activate_eq v G) by auto.
  destruct (destroy_all (set_cr3 a v) G Hk (set_cr3 a v)) as (v2 & -> & (G2 & H2 & Hr2 & Hs2 & Hd2 & Ht2 & Hw2)).
  { exists G. split; [apply user_ok_cr3; auto|]. split; [apply same_regs_refl|]. split; [auto|]. split; [auto|]. split.
    - intros g Hg. simpl. destruct (t_tab G !! (a, g)) eqn:E; [|reflexivity]. apply (sh_tab _ _ (vk_shape _ _ Hvm)) in E. lia.
    - apply wiped_none. lia. }
  rewrite res_bind_ok. simpl in Hr2, Ht2, Hw2. pose proof Hr2 as (Ecr2 & Ewp2 & Eka2 & Enx2). simpl in Ecr2, Ewp2, Eka2, Enx2. pose proof (us_vm _ _ _ H2) as Hvm2.
  assert (Hnt : forall g, t_tab G2 !! (a, g) = None).
  { intros g. destruct (Z.lt_ge_cases g 1536); [auto|]. destruct (t_tab G2 !! (a, g)) eqn:E; [|reflexivity]. apply (sh_tab _ _ (vk_shape _ _ Hvm2)) in E. lia. }
  destruct (space_frames v2 G2 a Hvm2) as (n0 & n1 & n2 & n3 & na & Ea & Hnd & Hdir & Hown & Hlive); [rewrite Hs2; auto|congruence|auto|].
  destruct (self_entry v2 G2 a 0 n0 Hvm2 Ecr2 ltac:(lia) (Hdir 0 n0 eq_refl ltac:(lia))) as (e0 & E0 & F0). destruct (self_entry v2 G2 a 1 n1 Hvm2 Ecr2 ltac:(lia) (Hdir 1 n1 eq_refl ltac:(lia))) as (e1 & E1 & F1).
  destruct (self_entry v2 G2 a 2 n2 Hvm2 Ecr2 ltac:(lia) (Hdir 2 n2 eq_refl ltac:(lia))) as (e2 & E2 & F2). destruct (self_entry v2 G2 a 3 n3 Hvm2 Ecr2 ltac:(lia) (Hdir 3 n3 eq_refl ltac:(lia))) as (e3 & E3 & F3).
  change (508 + 0) with 508 in E0. change (508 + 1) with 509 in E1. change (508 + 2) with 510 in E2. change (508 + 3) with 511 in E3. rewrite E0, res_bind_ok, E1, res_bind_ok, E2, res_bind_ok, E3, res_bind_ok. simpl map. rewrite F0, F1, F2, F3.
  assert (Hpos : forall x, x ∈ [n0; n1; n2; n3; na] -> x * 4096 <> 0) by (intros x Hx; apply Hlive in Hx; lia).
  rewrite !filter_cons_True by (apply Hpos; set_solver). rewrite filter_nil, free_pages_snoc.
  assert (Hold : v_cr3 v ∈ t_sp G2) by (rewrite Hs2; apply Hvm). rewrite (activate_eq v2 G2) by auto. rewrite Ea.
  change ([n0 * 4096; n1 * 4096; n2 * 4096; n3 * 4096] ++ [na * 4096]) with (map (fun x => x * 4096) [n0; n1; n2; n3; na]).
  destruct (free_frames [n0; n1; n2; n3; na] (set_cr3 (v_cr3 v) v2)) as (s' & -> & Hok' & Hg); [apply Hvm2|auto|intros x Hx; apply Hlive; auto|]. rewrite <- Ea.
  destruct (drop_space (set_cr3 (v_cr3 v) v2) G2 a s' [n0; n1; n2; n3; na]) as [H3 Hv3]; auto; [apply user_ok_cr3; auto|rewrite Hs2; auto|].
  exists (set_alloc s' (set_cr3 (v_cr3 v) v2)), (del_space a G2). split; [reflexivity|]. split; [auto|]. split; [repeat split; auto|]. split; [simpl; congruence|].
  intros [b m]. rewrite Hv3. change (uview (set_cr3 (v_cr3 v) v2) G2) with (uview v2 G2). rewrite Hw2. change (1536 * 512) with 786432. cbn [fst snd]. change (uview (set_cr3 a v) G) with (uview v G).
  destruct (Z.eqb_spec b a) as [->|]; [|reflexivity]. simpl. destruct (Z.leb_spec 0 m), (Z.ltb_spec m 786432); simpl; try reflexivity;
    unfold uview; rewrite view_lookup; (destruct (t_pte G !! (a, m)) eqn:Em; [|reflexivity]); apply (pte_range pin v G) in Em; (auto || lia).
Qed.
End destroy.
