(* ===== verification/UserMap.v ===== *)
(** The system calls that change the memory of the calling process: mmap, munmap, brk
    and mprotect (src/kernel/syscall.c).  The calling process is the current one, its
    address space is the active one, and [current_process] is never null here. *)

From S2P Require Import Prelude Frames Vmm.

Definition EPERM : Z := 1.
Definition ENOENT : Z := 2.
Definition EBADF : Z := 9.
Definition ENOMEM : Z := 12.
Definition EACCES : Z := 13.
Definition EEXIST : Z := 17.
Definition EINVAL : Z := 22.
Definition ENOSPC : Z := 28.
Definition ENOSYS : Z := 38.
Definition EIDRM : Z := 43.

Definition PROT_WRITE : Z := 2.
Definition PROT_EXEC : Z := 4.
Definition MAP_FIXED : Z := 16.
Definition MAP_ANONYMOUS : Z := 32.
Definition PROCESS_MAX_MMAPS : Z := 32.
Definition HAL_MM_USER_MIN_ADDR : Z := 134217728.

(** An element of [mmaps]. *)
Record mslot : Type := MSlot { ms_base : Z; ms_length : Z; ms_shmid : Z }.

(** The memory of a process as its process structure describes it. *)
Record pmem : Type := Pmem {
  heap_start : Z;
  heap_break : Z;
  mmaps : list mslot
}.

Definition set_mmaps (l : list mslot) (p : pmem) : pmem := Pmem (heap_start p) (heap_break p) l.
Definition set_break (b : Z) (p : pmem) : pmem := Pmem (heap_start p) b (mmaps p).

(** [(x + 0xFFF) & ~0xFFF] at 32 bits *)
Definition page_up (x : Z) : Z := Z.land (u32 (x + 4095)) (u32 (Z.lnot 4095)).

(** The first element with [ok]. *)
Fixpoint find_slot {A} (ok : A -> bool) (l : list A) (i : Z) : option Z :=
  match l with
  | [] => None
  | x :: l => if ok x then Some i else find_slot ok l (i + 1)
  end.

Definition empty_slot (m : mslot) : bool := ms_length m =? 0.

Section calls.
Context {S : Type} {FA : FrameAlloc S}.
Implicit Types v : vm S.

(** ** mmap and munmap *)

Definition MMAP_BASE : Z := 1073741824.
Definition MMAP_END : Z := 2146435072.
Definition mmap_find_free (v : vm S) (length : Z) : res Z := vmm_find_free_area v MMAP_BASE MMAP_END length.

(** [vmm_virt_to_phys], [vmm_unmap_page] and [pmm_free_page] for one page. *)
Definition release_page (v : vm S) (va : Z) : res (vm S) :=
  phys ← vmm_virt_to_phys v va;
  v ← vmm_unmap_page_nolock v va;
  if negb (phys =? 0) then free_page v phys else mret v.

Fixpoint release_pages (v : vm S) (l : list Z) : res (vm S) :=
  match l with [] => mret v | va :: l => v ← release_page v va; release_pages v l end.

(** The loop that maps fresh pages from [va] up to [end_]; [mapped] are the pages it
    remembers for the rollback, [map] the call that maps one.  False: out of memory. *)
Fixpoint fresh_pages (fuel : nat) (map : vm S -> Z -> Z -> res (vm S)) (v : vm S) (va end_ : Z) (mapped : list Z) : res (bool * vm S) :=
  match fuel with
  | O => NoFuel
  | Datatypes.S fuel =>
      if negb (va <? end_) then mret (true, v)
      else
        '(frame, v) ← alloc_page v;
        if frame =? 0 then v ← release_pages v mapped; mret (false, v)
        else
          v ← map v frame va;
          v ← kernel_zero v va;
          let mapped := if Z.of_nat (length mapped) <? 1024 then mapped ++ [va] else mapped in
          fresh_pages fuel map v (u32 (va + 4096)) end_ mapped
  end.

Definition pages_between (va end_ : Z) : nat := Z.to_nat ((end_ - va + 4095) / 4096).

Definition prot_flags (prot : Z) : Z :=
  let f := Z.lor VMM_FLAG_PRESENT VMM_FLAG_USER in
  let f := if has prot PROT_WRITE then Z.lor f VMM_FLAG_RW else f in
  if negb (has prot PROT_EXEC) then Z.lor f VMM_FLAG_NX else f.

(** What an open file descriptor is for mmap: no file, a file that cannot be mapped, or
    the [mmap] callback of its node. *)
Inductive fd_node : Type :=
| NoFile
| NoMmap
| Mmap (fn : vm S -> Z -> Z -> Z -> Z -> res (Z * vm S)).

(** The address of the mapping: an error or the base. *)
Definition mmap_base (v : vm S) (addr aligned_len flags : Z) : res (Z + Z) :=
  if has flags MAP_FIXED then
    if (addr =? 0) || has addr 4095 then mret (inl (- EINVAL))
    else if KERNEL_VIRT_BASE <=? addr then mret (inl (- EINVAL))
    else
      let end_ := u32 (addr + aligned_len) in
      if end_ <? addr then mret (inl (- EINVAL))
      else if KERNEL_VIRT_BASE <? end_ then mret (inl (- EINVAL))
      else mret (inr addr)
  else
    base ← mmap_find_free v aligned_len;
    if base =? 0 then mret (inl (- ENOMEM)) else mret (inr base).

(** The callback of a mapping of a file; [None] for an anonymous one. *)
Definition mmap_node (flags fd : Z) (fd_get : Z -> fd_node) : Z + option (vm S -> Z -> Z -> Z -> Z -> res (Z * vm S)) :=
  if has flags MAP_ANONYMOUS then inr None
  else if fd <? 0 then inl (- EBADF)
  else match fd_get fd with NoFile => inl (- EBADF) | NoMmap => inl (- ENOSYS) | Mmap fn => inr (Some fn) end.

(** The pages of the mapping: an error or its base. *)
Definition mmap_pages (v : vm S) (node : option (vm S -> Z -> Z -> Z -> Z -> res (Z * vm S))) (base aligned_len prot offset : Z) : res ((Z + Z) * vm S) :=
  match node with
  | Some fn_mmap =>
      '(result, v) ← fn_mmap v base aligned_len prot offset;
      mret ((if result =? 0 then inl (- ENOMEM) else inr result) : Z + Z, v)
  | None =>
      let end_ := u32 (base + aligned_len) in
      '(ok, v) ← fresh_pages (Datatypes.S (pages_between base end_)) (fun v frame va => vmm_map_page_nolock v frame va (prot_flags prot)) v base end_ [];
      mret ((if (ok : bool) then inr base else inl (- ENOMEM)) : Z + Z, v)
  end.

Definition syscall_mmap_impl (v : vm S) (p : pmem) (addr length prot flags fd offset : Z) (fd_get : Z -> fd_node) : res (Z * vm S * pmem) :=
  if length =? 0 then mret (- EINVAL, v, p)
  else match mmap_node flags fd fd_get with
  | inl e => mret (e, v, p)
  | inr node =>
      let aligned_len := page_up length in
      b ← mmap_base v addr aligned_len flags;
      match b with
      | inl e => mret (e, v, p)
      | inr base =>
          match find_slot empty_slot (mmaps p) 0 with
          | None => mret (- ENOMEM, v, p)
          | Some slot =>
              '(r, v) ← mmap_pages v node base aligned_len prot offset;
              match r with
              | inl e => mret (e, v, p)
              | inr base => mret (base, v, set_mmaps (<[Z.to_nat slot := MSlot base aligned_len (-1)]> (mmaps p)) p)
              end
          end
      end
  end.

(** The loop of munmap and of a shrinking brk. *)
Fixpoint unmap_range (fuel : nat) (free : bool) (v : vm S) (va end_ : Z) : res (vm S) :=
  match fuel with
  | O => NoFuel
  | Datatypes.S fuel =>
      if negb (va <? end_) then mret v
      else
        v ← (if free then release_page v va else vmm_unmap_page_nolock v va);
        unmap_range fuel free v (u32 (va + 4096)) end_
  end.

Definition syscall_munmap_impl (v : vm S) (p : pmem) (addr length : Z) : res (Z * vm S * pmem) :=
  if (addr =? 0) || has addr 4095 then mret (- EINVAL, v, p)
  else if length =? 0 then mret (- EINVAL, v, p)
  else
    let aligned_len := page_up length in
    match find_slot (fun m => (ms_base m =? addr) && (ms_length m =? aligned_len)) (mmaps p) 0 with
    | None => mret (- EINVAL, v, p)
    | Some found =>
        m ← of_option (mmaps p !! Z.to_nat found);
        v ← unmap_range (Datatypes.S (pages_between addr (u32 (addr + aligned_len)))) (ms_shmid m =? -1) v addr (u32 (addr + aligned_len));
        mret (0, v, set_mmaps (<[Z.to_nat found := MSlot 0 0 (-1)]> (mmaps p)) p)
    end.

(** ** brk *)

Definition USER_STACK_BASE : Z := 1073741824.

Definition syscall_brk_impl (v : vm S) (p : pmem) (addr : Z) : res (Z * vm S * pmem) :=
  if addr =? 0 then mret (heap_break p, v, p)
  else if addr <? heap_start p then mret (heap_break p, v, p)
  else if USER_STACK_BASE <=? addr then mret (heap_break p, v, p)
  else if KERNEL_VIRT_BASE <=? addr then mret (heap_break p, v, p)
  else
    let new_brk := page_up addr in
    let old_brk_page := page_up (heap_break p) in
    if old_brk_page <? new_brk then
      '(ok, v) ← fresh_pages (Datatypes.S (pages_between old_brk_page new_brk))
        (fun v frame va => vmm_as_map_page_nolock v (v_cr3 v) frame va (Z.lor (Z.lor (Z.lor VMM_FLAG_PRESENT VMM_FLAG_RW) VMM_FLAG_USER) VMM_FLAG_NX))
        v old_brk_page new_brk [];
      if (ok : bool) then mret (addr, v, set_break addr p) else mret (heap_break p, v, p)
    else if new_brk <? old_brk_page then
      v ← unmap_range (Datatypes.S (pages_between new_brk old_brk_page)) true v new_brk old_brk_page;
      mret (addr, v, set_break addr p)
    else mret (addr, v, set_break addr p).

(** ** mprotect *)

(** The range lies in one of the mappings. *)
Definition in_mmap (addr aligned_len : Z) (m : mslot) : bool :=
  negb (ms_length m =? 0) && (ms_base m <=? addr) && (u32 (addr + aligned_len) <=? u32 (ms_base m + ms_length m)).

Definition syscall_mprotect (v : vm S) (p : pmem) (addr len prot : Z) : res (Z * vm S) :=
  if (addr =? 0) || has addr 4095 then mret (- EINVAL, v)
  else if len =? 0 then mret (- EINVAL, v)
  else
    let aligned_len := page_up len in
    let end_ := u32 (addr + aligned_len) in
    let owned := (heap_start p <=? addr) && (end_ <=? heap_break p) in
    let owned := owned || existsb (in_mmap addr aligned_len) (mmaps p) in
    if end_ <? addr then mret (- EINVAL, v)
    else if KERNEL_VIRT_BASE <? end_ then mret (- ENOMEM, v)
    else
      let owned := owned || ((addr <? KERNEL_VIRT_BASE) && (HAL_MM_USER_MIN_ADDR <=? addr)) in
      if negb owned then mret (- ENOMEM, v)
      else v ← vmm_protect_range v addr aligned_len (prot_flags prot); mret (0, v).
End calls.
Arguments NoFile {S}.
Arguments NoMmap {S}.
