(* ===== verification/VmmSim.v ===== *)
(** Processes have separate memories: the abstract machine, and the proof that page
    tables, reference counts and copy on write implement it; before it, the pages of a
    process that come and go, alone and over a range. *)

From S2P Require Import Prelude Frames Vmm VmmInv VmmOps VmmSpace VmmUser VmmFork VmmDestroy UserMap.

(** ** Ranges of pages *)

Definition in_pages (a n m : Z) (k : Z * Z) : bool := (k.1 =? a) && (n <=? k.2) && (k.2 <? m).

Lemma in_pages_true a n m k : in_pages a n m k = true <-> k.1 = a /\ n <= k.2 < m.
Proof. unfold in_pages. rewrite !andb_true_iff, Z.eqb_eq, Z.leb_le, Z.ltb_lt. tauto. Qed.

Lemma in_pages_split a n m k : n < m -> in_pages a n m k = bool_decide (k = (a, n)) || in_pages a (n + 1) m k.
Proof.
  intros Hnm. apply eq_true_iff_eq. rewrite orb_true_iff, !in_pages_true, bool_decide_eq_true. destruct k as [b p]. simpl.
  split; [|intros [[= -> ->]|]; lia]. intros [-> ?]. destruct (decide (p = n)) as [->|]; [auto|lia].
Qed.

Definition same_out (a n m : Z) {A} (M M' : gmap (Z * Z) A) : Prop :=
  forall k, M' !! k = if in_pages a n m k then None else M !! k.

Lemma same_out_cons (a n m : Z) {A} (M M1 M2 : gmap (Z * Z) A) : n < m -> M1 = delete (a, n) M -> same_out a (n + 1) m M1 M2 -> same_out a n m M M2.
Proof.
  intros Hnm -> H k. rewrite H, (in_pages_split a n m) by auto. destruct (in_pages a (n + 1) m k); [rewrite orb_true_r; reflexivity|].
  rewrite orb_false_r. destruct (bool_decide_reflect (k = (a, n))) as [->|]; [apply lookup_delete_eq|apply lookup_delete_ne; auto].
Qed.

Section map.
Context {S : Type} {FA : FrameAlloc S} (pin : Z -> nat).
Implicit Types v : vm S.
Notation user_ok := (user_ok pin).

(** ** A fresh page *)

(** A free frame [f] is mapped at [k]. *)
Lemma added v G v' G' k x f :
  user_ok v G -> vm_ok v' G' -> t_pte G !! k = None -> t_pte G' = <[k := x]> (t_pte G) -> hw_frame x = f * 4096 -> entry_frame x = f * 4096 ->
  has x X86_PTE_USER = true -> (has x X86_PTE_NX = true -> v_nxe v = true) -> k.1 <> v_kernel_as v -> (forall t, t = TMP_VA \/ t = TMP_COW_VA -> k.2 <> vpn t) ->
  f ∈ fa_avail (v_alloc v) -> t_own G' !! (f * 4096) = None ->
  (forall g, t_own G' !! (g * 4096) = None -> fa_live (v_alloc v') !! g = if g =? f then Some 1 else fa_live (v_alloc v) !! g) ->
  (forall g r, t_own G !! (g * 4096) = Some r -> t_own G' !! (g * 4096) = Some r) ->
  (forall g r, t_own G' !! (g * 4096) = Some r -> t_own G !! (g * 4096) = Some r \/ g ∈ fa_avail (v_alloc v)) ->
  fa_avail (v_alloc v') ⊆ fa_avail (v_alloc v) -> v_kernel_as v' = v_kernel_as v -> v_nxe v' = v_nxe v -> user_ok v' G'.
Proof.
  intros H H' Hn Ep Xh Xe Xu Xnx Hka Htm Hf Hof Hlive Hoo Hoi Hav Eka Enx. pose proof (us_vm _ _ _ H) as Hvm.
  pose proof (fa_disjoint _ _ (vk_alloc _ _ Hvm) Hf) as Hnl.
  assert (Hkeep : forall g, t_own G !! (g * 4096) = None -> is_Some (fa_live (v_alloc v) !! g) -> t_own G' !! (g * 4096) = None).
  { intros g Hg [c' Hc']. destruct (t_own G' !! (g * 4096)) as [r|] eqn:E; [|reflexivity]. apply Hoi in E as [E|E]; [congruence|].
    rewrite (fa_disjoint _ _ (vk_alloc _ _ Hvm) E) in Hc'. discriminate. }
  assert (Hr0 : refs (t_pte G) f = 0%nat) by (eapply unmapped_refs; eauto).
  assert (Er : forall g, refs (t_pte G') g = ((if (g =? f)%Z then 1 else 0) + refs (t_pte G) g)%nat).
  { intros g. rewrite Ep, refs_insert by auto. destruct (Z.eqb_spec g f) as [->|]; [rewrite (is_ref_of f x)|rewrite (is_ref_ne f g x)]; auto. }
  split; auto; rewrite ?Eka.
  - intros a n e' Hk'. rewrite Ep in Hk'. apply lookup_insert_Some in Hk' as [[-> <-]|[_ Hk']]; [rewrite Xu; symmetry; apply negb_true_iff, Z.eqb_neq, Hka|].
    apply (us_user _ _ _ H _ _ _ Hk').
  - intros k2 e' Hk' Hu'. rewrite Ep in Hk'. apply lookup_insert_Some in Hk' as [[_ <-]|[_ Hk']].
    + exists f. rewrite Hlive, Er, Z.eqb_refl, Hr0, Enx by auto. split; [auto|]. split; [auto|]. split; [auto|]. split; [eauto|]. split; [|auto].
      intros _. split; [reflexivity|apply (us_pin _ _ _ H); auto].
    + destruct (us_entry _ _ _ H _ _ Hk' Hu') as (g & Eg & ? & Hog & Hlg & Hrw & ?). exists g. assert (g <> f) by (intros ->; rewrite Hnl in Hlg; destruct Hlg; discriminate).
      rewrite Hlive, Er, Enx by auto. rewrite (proj2 (Z.eqb_neq g f)) by auto. auto 10.
  - intros g c' Hg Hog. rewrite Hlive in Hg by auto. rewrite Er.
    assert (Hog' : t_own G !! (g * 4096) = None) by (destruct (t_own G !! (g * 4096)) eqn:E0; [apply Hoo in E0; congruence|reflexivity]).
    destruct (Z.eqb_spec g f) as [->|]; [injection Hg as <-; rewrite Hr0, (us_pin _ _ _ H f (or_introl Hf)); lia|apply (us_count _ _ _ H); auto].
  - intros g [Hg|[r Hg]]; apply (us_pin _ _ _ H); [auto|]. destruct (Hoi _ _ Hg); eauto.
  - intros a t Ht. rewrite Ep, lookup_insert_ne; [apply (us_tmp _ _ _ H), Ht|]. intros ->. apply (Htm t Ht). reflexivity.
Qed.

(** The other pages of processes do not change when free frames are taken. *)
Lemma fresh_view v G v' G' f :
  user_ok v G -> f ∈ fa_avail (v_alloc v) ->
  (forall g r, t_own G' !! (g * 4096) = Some r -> t_own G !! (g * 4096) = Some r \/ g ∈ fa_avail (v_alloc v)) ->
  (forall g, t_own G' !! (g * 4096) = None -> g <> f -> v_mem v' !! (g * 4096) = v_mem v !! (g * 4096)) ->
  view (v_mem v') (t_pte G) = view (v_mem v) (t_pte G).
Proof.
  intros H Hf Hoi Hm. apply view_mem. intros k e Hk Hu. destruct (us_entry _ _ _ H _ _ Hk Hu) as (g & -> & _ & Hog & [c Hl] & _).
  assert (Hna : g ∉ fa_avail (v_alloc v)) by (intros Hx; rewrite (fa_disjoint _ _ (vk_alloc _ _ (us_vm _ _ _ H)) Hx) in Hl; discriminate).
  apply Hm; [|congruence]. destruct (t_own G' !! (g * 4096)) as [r|] eqn:E; [|reflexivity]. apply Hoi in E as [?|?]; [congruence|contradiction].
Qed.

(** The frames of the allocator, free or not. *)
Definition univ (v : vm S) : gset Z := fa_avail (v_alloc v) ∪ dom (fa_live (v_alloc v)).

Lemma takes_univ v s' t : takes (v_alloc v) s' t -> fa_avail s' ∪ dom (fa_live s') = univ v.
Proof.
  intros (Ht & Ea & El). unfold univ. rewrite Ea, El, dom_insert_L. apply set_eq. intros x. destruct (decide (x = t)) as [->|]; set_solver.
Qed.

Lemma released_univ (s s' : S) f : released (fa_avail s) (fa_live s) f (fa_avail s') (fa_live s') ->
  fa_avail s' ∪ dom (fa_live s') = fa_avail s ∪ dom (fa_live s).
Proof.
  intros (c & Hc & Hr). assert (Hf : f ∈ dom (fa_live s)) by (apply elem_of_dom; eauto).
  destruct (1 <? c); destruct Hr as [-> ->]; [rewrite dom_insert_lookup_L by eauto; reflexivity|].
  rewrite dom_delete_L. apply set_eq. intros x. destruct (decide (x = f)) as [->|]; set_solver.
Qed.

Lemma grown_univ g v G v' G' : grown g v G v' G' ->
  univ v' = univ v /\ (is_Some (t_tab G !! (v_cr3 v, g)) -> t_own G' = t_own G).
Proof.
  intros (_ & _ & [(Ea & _ & Hk)|(t & Hn & Ht & _)]).
  - unfold univ. rewrite Ea. split; [reflexivity|]. intros _. apply Hk.
  - split; [exact (takes_univ v _ t Ht)|]. rewrite Hn. intros [? ?]. discriminate.
Qed.

(** What every step on pages keeps. *)
Record stepped (v : vm S) (G : tables) (v' : vm S) (G' : tables) : Prop := {
  sd_ok : user_ok v' G';
  sd_regs : same_regs v v';
  sd_sp : t_sp G' = t_sp G;
  sd_tab k : is_Some (t_tab G !! k) -> is_Some (t_tab G' !! k);
  sd_univ : univ v' = univ v
}.

Lemma stepped_refl v G : user_ok v G -> stepped v G v G.
Proof. intros H. split; auto. apply same_regs_refl. Qed.

Lemma stepped_trans v1 G1 v2 G2 v3 G3 : stepped v1 G1 v2 G2 -> stepped v2 G2 v3 G3 -> stepped v1 G1 v3 G3.
Proof. intros [] []. split; auto; [eapply same_regs_trans; eauto|congruence|congruence]. Qed.

(** A page number that the kernel does not use for its temporary mappings. *)
Definition plain_page (n : Z) : Prop := 0 <= n < 786432 /\ n <> vpn TMP_VA /\ n <> vpn TMP_COW_VA.

(** What the calls do with flags [fl] for one page: allocate, map, clear. *)
Lemma fresh_page v G n fl :
  user_ok v G -> v_cr3 v <> v_kernel_as v -> plain_page n -> t_pte G !! (v_cr3 v, n) = None ->
  has fl VMM_FLAG_PRESENT = true -> has fl VMM_FLAG_USER = true -> negb (v_wp v) || has fl VMM_FLAG_RW = true ->
  fa_avail (v_alloc v) <> ∅ -> is_Some (t_tab G !! (v_cr3 v, n / 512)) \/ (2 <= size (fa_avail (v_alloc v)))%nat ->
  exists f v1 v2 v' G' N, alloc_page v = Ok (f * 4096, v1) /\ 0 < f /\ vmm_map_page_nolock v1 (f * 4096) (n * 4096) fl = Ok v2 /\ kernel_zero v2 (n * 4096) = Ok v' /\
    stepped v G v' G' /\ same_regs v v1 /\ (is_Some (t_tab G !! (v_cr3 v, n / 512)) -> t_own G' = t_own G) /\
    delete (v_cr3 v, n) (t_pte G') = t_pte G /\
    N ⊆ fa_avail (v_alloc v) /\ fa_avail (v_alloc v') = fa_avail (v_alloc v) ∖ N /\ (size N <= 2)%nat /\
    (is_Some (t_tab G !! (v_cr3 v, n / 512)) -> (size N <= 1)%nat) /\
    uview v' G' = <[(v_cr3 v, n) := UPage zero_page (has fl VMM_FLAG_RW || has fl VMM_FLAG_COW) (has fl VMM_FLAG_NX && v_nxe v)]> (uview v G).
Proof.
  intros H Hk (Hn & Ht1 & Ht2) Hno Hfp Hfu Hwp Hne Hroom. pose proof (us_vm _ _ _ H) as Hvm.
  assert (Hva : user_va (n * 4096)) by (unfold user_va; lia). assert (Ev : vpn (n * 4096) = n) by (unfold vpn; apply Z.div_mul; lia).
  destruct (alloc_spare v G Hvm Hne) as (f & s1 & E1 & Ht & H1 & Hsp). pose proof Ht as (Hin & Ea & El). pose proof Hsp as (Ho1 & Hna1 & Hf & Hl1). set (v1 := set_alloc s1 v) in *.
  destruct (map_page_ok v1 G f (n * 4096) fl H1 Hva) as (v2 & G2 & E2 & H2 & Hg & Ep2 & Ht3); [lia|auto| |].
  { rewrite Ev. simpl. destruct Hroom as [?|Hsz]; [auto|right]. rewrite Ea. intros E0. assert (size (fa_avail (v_alloc v) ∖ {[f]}) = 0%nat) as Hz by (rewrite E0; apply size_empty).
    rewrite size_difference, size_singleton in Hz by set_solver. lia. }
  destruct (grown_extends _ _ _ _ _ H1 Hg) as (N & X & Es & HN & Hsz & Htab). destruct (grown_univ _ _ _ _ _ Hg) as [Hun Hown]. clear Hg. rewrite Ev in *. change (v_cr3 v1) with (v_cr3 v) in *. pose proof (ex_regs _ _ _ _ _ X) as (Rcr & Rwp & Rka & Rnx). simpl in Rcr, Rwp, Rka, Rnx.
  set (x := Z.lor (f * 4096) (vmm_flags_to_x86 v1 fl)) in *. destruct (has_x86 v1 fl) as (Fp & Frw & Fu & Fc & Fn). simpl in Fn.
  assert (Xh : hw_frame x = f * 4096 /\ entry_frame x = f * 4096) by (split; [apply hw_frame_entry|apply entry_frame_entry]; auto using flags_only_x86; lia). destruct Xh as [Xh Xe].
  assert (Xf : has x X86_PTE_USER = has fl VMM_FLAG_USER /\ has x X86_PTE_RW = has fl VMM_FLAG_RW /\ has x X86_PTE_COW = has fl VMM_FLAG_COW /\ has x X86_PTE_NX = has fl VMM_FLAG_NX && v_nxe v).
  { unfold x. rewrite !has_lor, has_frame_nx by lia. rewrite !has_frame by (unfold X86_PTE_RW, X86_PTE_USER, X86_PTE_COW; lia). rewrite Fu, Frw, Fc, Fn. auto. }
  destruct Xf as (Xu & Xrw & Xc & Xn). destruct (spare_extends _ _ _ _ _ f X Hsp) as (Ho2 & _ & _ & Hl2).
  assert (Hkz : kernel_zero v2 (n * 4096) = Ok (set_mem (<[f * 4096 := zero_page]> (v_mem v2)) v2)).
  { unfold kernel_zero, kernel_page. rewrite (access_ok v2 G2) by auto. rewrite res_bind_ok, Ev, Rcr, Ep2, lookup_insert_eq. unfold may. rewrite Xrw, Rwp. simpl (negb false || _). simpl (true && _). simpl (false || _). rewrite Hwp.
    simpl of_option. rewrite res_bind_ok, Xh. unfold wr_page. destruct (vk_ram _ _ H2 f) as (q & -> & _); [right; eauto|]. reflexivity. }
  assert (HN' : forall m, m ∈ N -> m ∈ fa_avail (v_alloc v) /\ m <> f) by (intros m Hm; apply (ex_sub _ _ _ _ _ X) in Hm; simpl in Hm; rewrite Ea in Hm; set_solver).
  set (v3 := set_mem (<[f * 4096 := zero_page]> (v_mem v2)) v2) in *. exists f, v1, v2, v3, G2, ({[f]} ∪ N).
  assert (Hsub : {[f]} ∪ N ⊆ fa_avail (v_alloc v)) by (clear -Hin HN'; set_solver).
  assert (Eav : fa_avail (v_alloc v2) = fa_avail (v_alloc v) ∖ ({[f]} ∪ N)) by (rewrite (ex_avail _ _ _ _ _ X); simpl; rewrite Ea; clear; set_solver).
  assert (Hlive : forall g, t_own G2 !! (g * 4096) = None -> fa_live (v_alloc v2) !! g = if g =? f then Some 1 else fa_live (v_alloc v) !! g).
  { intros g Hg. rewrite (ex_live _ _ _ _ _ X) by (intros Hx; apply (ex_new _ _ _ _ _ X) in Hx as [? ?]; congruence). simpl. rewrite El.
    destruct (Z.eqb_spec g f) as [->|]; [apply lookup_insert_eq|apply lookup_insert_ne; auto]. }
  split; [exact E1|]. split; [lia|]. split; [exact E2|]. split; [exact Hkz|].
  split.
  { split; [|repeat split; simpl; congruence|exact Es|intros k [t Hkt]; exists t; apply (ex_tab _ _ _ _ _ X), Hkt|change (univ v2 = univ v); rewrite Hun; exact (takes_univ v s1 f Ht)].
    apply (added v G v3 G2 (v_cr3 v, n) x f); auto.
    - apply vm_ok_data; auto.
    - congruence.
    - rewrite Xn. intros [_ ?]%andb_prop. auto.
    - intros t [->| ->]; simpl; auto.
    - intros g r Hg. apply (ex_own _ _ _ _ _ X), Hg.
    - intros g r Hg. apply (ex_own_inv _ _ _ _ _ X) in Hg as [?|(m & Hm & E)]; [auto|right]. assert (m = g) as -> by lia. apply HN', Hm.
    - simpl. rewrite Eav. clear; set_solver. }
  split; [repeat split|]. split; [exact Hown|]. split; [rewrite Ep2; apply delete_insert_id, Hno|]. split; [auto|]. split; [exact Eav|].
  assert (size ({[f]} ∪ N) = 1 + size N)%nat as -> by (rewrite size_union, size_singleton; [reflexivity|]; clear -HN'; set_solver).
  split; [lia|]. split; [intros Hs; rewrite (HN Hs), size_empty; lia|].
  assert (Hup : upage_of (v_mem v3) x = Some (UPage zero_page (has fl VMM_FLAG_RW || has fl VMM_FLAG_COW) (has fl VMM_FLAG_NX && v_nxe v))).
  { unfold upage_of. rewrite Xu, Hfu, Xh. simpl. rewrite lookup_insert_eq, Xrw, Xc, Xn. reflexivity. }
  unfold uview. rewrite Ep2, (view_insert _ _ _ _ _ Hup). f_equal. apply (fresh_view v G v3 G2 f); auto.
  - intros g r Hg. apply (ex_own_inv _ _ _ _ _ X) in Hg as [?|(m & Hm & E)]; [auto|right]. assert (m = g) as -> by lia. apply HN', Hm.
  - intros g Hg Hgf. simpl. rewrite lookup_insert_ne by lia. rewrite (ex_mem _ _ _ _ _ X) by auto. reflexivity.
Qed.

(** ** A page goes *)

Lemma phys_of_entry e : u32 (Z.land e (u64 (Z.lnot 4095))) = entry_frame e.
Proof. unfold u32, entry_frame. change 4294967296 with (2 ^ 32). rewrite <- Z.land_ones, <- Z.land_assoc by lia. reflexivity. Qed.

Lemma release_page_ok v G n :
  user_ok v G -> v_cr3 v <> v_kernel_as v -> 0 <= n < 786432 ->
  exists v' G', release_page v (n * 4096) = Ok v' /\ stepped v G v' G' /\ t_own G' = t_own G /\
    t_pte G' = delete (v_cr3 v, n) (t_pte G) /\ uview v' G' = delete (v_cr3 v, n) (uview v G).
Proof.
  intros H Hk Hn. pose proof (us_vm _ _ _ H) as Hvm. assert (Hva : user_va (n * 4096)) by (unfold user_va; lia).
  assert (Ev : vpn (n * 4096) = n) by (unfold vpn; apply Z.div_mul; lia). unfold release_page. rewrite (virt_to_phys_ok v G) by auto. rewrite res_bind_ok.
  destruct (unmap_page_ok v G (n * 4096) Hvm Hva) as (m' & G' & -> & H1 & (Ks & Kd & Kt & Ko) & Hm & Ep). rewrite res_bind_ok, Ev in *.
  pose proof (unshared_view pin v G (set_mem m' v) G' _ H Ep Hm) as Hv. destruct (t_pte G !! (v_cr3 v, n)) as [e|] eqn:He.
  - assert (Hu : has e X86_PTE_USER = true) by (rewrite (us_user _ _ _ H _ _ _ He); apply negb_true_iff, Z.eqb_neq; auto).
    destruct (us_entry _ _ _ H _ _ He Hu) as (f & Ef & Eef & Ho & Hl & _). rewrite phys_of_entry, Eef.
    assert (0 < f < 1048576) by (apply (fa_range _ f (vk_alloc _ _ Hvm)); auto). rewrite (proj2 (Z.eqb_neq (f * 4096) 0)) by lia. simpl negb. cbv iota.
    destruct (free_ok (set_mem m' v) G' f H1) as (s' & -> & H2 & Hrel); [rewrite Ko; auto|auto|].
    exists (set_alloc s' (set_mem m' v)), G'. split; [reflexivity|]. split; [split|split; [auto|split; [exact Ep|exact Hv]]].
    + eapply (unshared pin v G _ _ _ e f); eauto.
    + repeat split.
    + auto.
    + intros k. rewrite Kt. auto.
    + exact (released_univ _ _ f Hrel).
  - exists (set_mem m' v), G'. split; [reflexivity|]. rewrite delete_id in Ep by auto. split; [split|split; [auto|split; [rewrite delete_id; auto|exact Hv]]].
    + split; auto; simpl; rewrite ?Ep, ?Ko; try apply H. intros k e Hke Hu. destruct (us_entry _ _ _ H k e Hke Hu) as (f & Hf). exists f. rewrite Ko, Ep. exact Hf.
    + repeat split.
    + auto.
    + intros k. rewrite Kt. auto.
    + reflexivity.
Qed.

(** The same mappings and tables: the same frames are free. *)
Lemma same_free v G v' G' :
  user_ok v G -> user_ok v' G' -> t_pte G' = t_pte G -> t_own G' = t_own G -> univ v' = univ v -> fa_avail (v_alloc v') = fa_avail (v_alloc v).
Proof.
  assert (forall v G v' G', user_ok v G -> user_ok v' G' -> t_pte G' = t_pte G -> t_own G' = t_own G -> univ v' = univ v ->
    fa_avail (v_alloc v) ⊆ fa_avail (v_alloc v')) as Hsub.
  2: { intros H H' Ep Eo Eu. apply set_eq. intros x. split; [exact (Hsub v' G' v G H' H (eq_sym Ep) (eq_sym Eo) (eq_sym Eu) x)|exact (Hsub v G v' G' H H' Ep Eo Eu x)]. }
  clear. intros v G v' G' H H' Ep Eo Eu f Hf. pose proof (vk_alloc _ _ (us_vm _ _ _ H')) as Ha'. assert (Hx : f ∈ univ v') by (rewrite Eu; unfold univ; set_solver).
  unfold univ in Hx. apply elem_of_union in Hx as [?|[c Hc]%elem_of_dom]; [auto|]. exfalso.
  pose proof (fresh_not_own v G f (us_vm _ _ _ H) Hf) as Ho. destruct (us_count _ _ _ H' f c Hc) as [Ec _]; [congruence|].
  rewrite Ep, (unmapped_refs pin v G f H Hf), (us_pin _ _ _ H f (or_introl Hf)) in Ec. pose proof (fa_positive _ _ _ Ha' Hc). lia.
Qed.

(** ** Ranges *)

Lemma unmap_range_ok v G n m fuel :
  user_ok v G -> v_cr3 v <> v_kernel_as v -> 0 <= n <= m -> m <= 786432 -> (Z.to_nat (m - n) < fuel)%nat ->
  exists v' G', unmap_range fuel true v (n * 4096) (m * 4096) = Ok v' /\ stepped v G v' G' /\ t_own G' = t_own G /\
    same_out (v_cr3 v) n m (t_pte G) (t_pte G') /\ same_out (v_cr3 v) n m (uview v G) (uview v' G').
Proof.
  intros H Hk. revert v G n H Hk. induction fuel as [|fuel IH]; intros v G n H Hk Hn Hm Hf; [lia|]. cbn [unmap_range].
  destruct (Z.ltb_spec (n * 4096) (m * 4096)); cbn [negb].
  - destruct (release_page_ok v G n H Hk) as (v1 & G1 & -> & H1 & Ho1 & Ep1 & Ev1); [lia|]. rewrite res_bind_ok.
    rewrite (u32_small (n * 4096 + 4096)) by (unfold is_u32; lia). replace (n * 4096 + 4096) with ((n + 1) * 4096) by lia. destruct (sd_regs _ _ _ _ H1) as (Ecr & _ & Eka & _).
    destruct (IH v1 G1 (n + 1)) as (v2 & G2 & -> & H2 & Ho2 & Ep2 & Ev2); [apply H1|congruence|lia|lia|lia|].
    rewrite Ecr in *. exists v2, G2. split; [reflexivity|]. split; [eapply stepped_trans; eauto|]. split; [congruence|].
    split; eapply same_out_cons; eauto; lia.
  - exists v, G. split; [reflexivity|]. split; [apply stepped_refl; auto|]. split; [auto|]. assert (m = n) as -> by lia.
    split; intros k; destruct (in_pages (v_cr3 v) n n k) eqn:E; auto; apply in_pages_true in E; lia.
Qed.

(** The rollback: the pages of a list that covers [n .. m) go. *)
Lemma release_pages_ok v G n len :
  user_ok v G -> v_cr3 v <> v_kernel_as v -> 0 <= n -> n + Z.of_nat len <= 786432 ->
  exists v' G', release_pages v ((fun p => p * 4096) <$> seqZ n (Z.of_nat len)) = Ok v' /\ stepped v G v' G' /\ t_own G' = t_own G /\
    same_out (v_cr3 v) n (n + Z.of_nat len) (t_pte G) (t_pte G') /\ same_out (v_cr3 v) n (n + Z.of_nat len) (uview v G) (uview v' G').
Proof.
  intros H Hk. revert v G n H Hk. induction len as [|len IH]; intros v G n H Hk Hn Hm.
  - exists v, G. split; [reflexivity|]. split; [apply stepped_refl; auto|]. split; [auto|].
    split; intros k; destruct (in_pages _ _ _ k) eqn:E; auto; apply in_pages_true in E; lia.
  - rewrite seqZ_cons by lia. rewrite fmap_cons. cbn [release_pages].
    destruct (release_page_ok v G n H Hk) as (v1 & G1 & -> & H1 & Ho1 & Ep1 & Ev1); [lia|]. rewrite res_bind_ok. destruct (sd_regs _ _ _ _ H1) as (Ecr & _ & Eka & _).
    destruct (IH v1 G1 (Z.succ n)) as (v2 & G2 & E2 & H2 & Ho2 & Ep2 & Ev2); [apply H1|congruence|lia|lia|].
    replace (Z.pred (Z.of_nat (Datatypes.S len))) with (Z.of_nat len) by lia. replace (n + Z.of_nat (Datatypes.S len)) with (Z.succ n + Z.of_nat len) by lia.
    rewrite Ecr in *. exists v2, G2. split; [exact E2|]. split; [eapply stepped_trans; eauto|]. split; [congruence|].
    split; eapply same_out_cons; eauto; lia.
Qed.

(** ** Fresh pages *)

Section fresh.
Context (v0 : vm S) (G0 : tables) (n0 m fl : Z) (map : vm S -> Z -> Z -> res (vm S)).
Notation a := (v_cr3 v0).
Context (H0 : user_ok v0 G0) (Hk : a <> v_kernel_as v0) (Hn0 : 0 <= n0 <= m) (Hlen : m - n0 <= 1024).
Context (Hmap : forall v f n, v_cr3 v = a -> map v f n = vmm_map_page_nolock v f n fl).
Context (Hplain : forall n, n0 <= n < m -> plain_page n) (Hfree : forall n, n0 <= n < m -> t_pte G0 !! (a, n) = None).
Context (Hfp : has fl VMM_FLAG_PRESENT = true) (Hfu : has fl VMM_FLAG_USER = true) (Hwp : negb (v_wp v0) || has fl VMM_FLAG_RW = true).

(** The page tables are there, or there is a frame for each. *)
Definition tabled (G : tables) : Prop := forall n, n0 <= n < m -> is_Some (t_tab G !! (a, n / 512)).
Definition fresh_room : Prop := tabled G0 \/ (2 * Z.to_nat (m - n0) <= size (fa_avail (v_alloc v0)))%nat.

Definition new_page : upage := UPage zero_page (has fl VMM_FLAG_RW || has fl VMM_FLAG_COW) (has fl VMM_FLAG_NX && v_nxe v0).

(** The pages below [n] are mapped. *)
Record filled (n : Z) (v : vm S) (G : tables) : Prop := {
  fi_step : stepped v0 G0 v G;
  fi_view k : uview v G !! k = if in_pages a n0 n k then Some new_page else uview v0 G0 !! k;
  fi_pte k : in_pages a n0 n k = false -> t_pte G !! k = t_pte G0 !! k;
  fi_room : t_own G = t_own G0 /\ tabled G /\ (size (fa_avail (v_alloc v0)) <= size (fa_avail (v_alloc v)) + Z.to_nat (n - n0))%nat \/
    (2 * Z.to_nat (m - n) <= size (fa_avail (v_alloc v)))%nat
}.

Lemma in_pages_last n k : n0 <= n -> in_pages a n0 (n + 1) k = bool_decide (k = (a, n)) || in_pages a n0 n k.
Proof.
  intros Hn. apply eq_true_iff_eq. rewrite orb_true_iff, !in_pages_true, bool_decide_eq_true. destruct k as [b p]. simpl.
  split; [|intros [[= -> ->]|]; lia]. intros [-> ?]. destruct (decide (p = n)) as [->|]; [auto|lia].
Qed.

(** One more page. *)
Lemma filled_next n v G : filled n v G -> n0 <= n < m -> fa_avail (v_alloc v) <> ∅ ->
  exists f v1 v2 v3 G3, alloc_page v = Ok (f * 4096, v1) /\ 0 < f /\ map v1 (f * 4096) (n * 4096) = Ok v2 /\ kernel_zero v2 (n * 4096) = Ok v3 /\ filled (n + 1) v3 G3.
Proof.
  intros [Hst Hv Hp Hr] Hn Hne. destruct (sd_regs _ _ _ _ Hst) as (Ecr & Ewp & Eka & Enx).
  assert (Hout : in_pages a n0 n (a, n) = false) by (apply not_true_iff_false; rewrite in_pages_true; simpl; lia).
  assert (Hpl : plain_page n) by (apply Hplain; lia). assert (Hno : t_pte G !! (v_cr3 v, n) = None) by (rewrite Ecr, Hp; auto).
  assert (Hrm : is_Some (t_tab G !! (v_cr3 v, n / 512)) \/ (2 <= size (fa_avail (v_alloc v)))%nat) by (rewrite Ecr; destruct Hr as [(_ & Ht & _)|]; [left; auto|right; lia]).
  destruct (fresh_page v G n fl (sd_ok _ _ _ _ Hst)) as (f & v1 & v2 & v3 & G3 & N & E1 & Hf & E2 & E3 & H3 & R1 & Ho & Hd & HN & Ea & Hs2 & Hs1 & Hv3); auto; [congruence|congruence|].
  exists f, v1, v2, v3, G3. split; [auto|]. split; [auto|]. split; [rewrite Hmap; [auto|destruct R1; congruence]|]. split; [auto|]. rewrite Ecr in *.
  assert (Hsz : size (fa_avail (v_alloc v3)) = (size (fa_avail (v_alloc v)) - size N)%nat) by (rewrite Ea, size_difference; auto).
  split.
  - eapply stepped_trans; eauto.
  - intros k. rewrite Hv3, in_pages_last by lia. destruct (bool_decide_reflect (k = (a, n))) as [->|]; simpl; [rewrite lookup_insert_eq, Enx; reflexivity|].
    rewrite lookup_insert_ne by auto. apply Hv.
  - intros k. rewrite in_pages_last by lia. intros [Hk1 Hk2]%orb_false_iff. apply bool_decide_eq_false in Hk1. rewrite <- (Hp k Hk2), <- Hd, lookup_delete_ne; auto.
  - destruct Hr as [(Eo & Ht & Hsz0)|Hsz0].
    + left. split; [rewrite Ho; auto|]. split; [intros p Hpr; apply (sd_tab _ _ _ _ H3), Ht, Hpr|]. specialize (Hs1 (Ht n Hn)). lia.
    + right. lia.
Qed.

(** Memory is exhausted: nothing remains of the call. *)
Lemma filled_rollback n v G : filled n v G -> n0 <= n < m -> fa_avail (v_alloc v) = ∅ ->
  exists v1 v' G', alloc_page v = Ok (0, v1) /\ release_pages v1 ((fun p => p * 4096) <$> seqZ n0 (n - n0)) = Ok v' /\ stepped v0 G0 v' G' /\
    (size (fa_avail (v_alloc v0)) < Z.to_nat (m - n0))%nat /\ uview v' G' = uview v0 G0 /\ fa_avail (v_alloc v') = fa_avail (v_alloc v0).
Proof.
  intros [Hst Hv Hp Hr] Hn He. pose proof (sd_ok _ _ _ _ Hst) as H. destruct (alloc_none v G (us_vm _ _ _ H) He) as (s' & E & Ea & El & H1). destruct (Hplain n Hn) as (Hn1 & _).
  assert (Hst1 : stepped v0 G0 (set_alloc s' v) G).
  { destruct Hst. split; auto; [apply user_ok_alloc; auto; congruence|]. rewrite <- sd_univ0. unfold univ. simpl. rewrite Ea, El, He. reflexivity. }
  destruct (sd_regs _ _ _ _ Hst1) as (Ecr & _ & Eka & _). destruct (release_pages_ok (set_alloc s' v) G n0 (Z.to_nat (n - n0)) (sd_ok _ _ _ _ Hst1)) as (v2 & G2 & E2 & H2 & Ho2 & Ep2 & Ev2); [congruence|lia|lia|].
  rewrite Ecr in *. rewrite Z2Nat.id in * by lia. replace (n0 + (n - n0)) with n in * by lia. pose proof (stepped_trans _ _ _ _ _ _ Hst1 H2) as Hst2.
  exists (set_alloc s' v), v2, G2. split; [exact E|]. split; [exact E2|]. split; [exact Hst2|]. rewrite He, size_empty in Hr. destruct Hr as [(Eo & _ & Hsz)|]; [|lia].
  assert (Hin : forall k, in_pages a n0 n k = true -> t_pte G0 !! k = None) by (intros [b p] [Eb ?]%in_pages_true; simpl in *; subst b; apply Hfree; lia).
  assert (Ept : t_pte G2 = t_pte G0).
  { apply map_eq. intros k. rewrite Ep2. destruct (in_pages a n0 n k) eqn:Ek; [symmetry; auto|auto]. }
  split; [lia|]. split; [|apply (same_free v0 G0 v2 G2); auto; [apply Hst2|congruence|apply Hst2]].
  apply map_eq. intros k. rewrite Ev2. destruct (in_pages a n0 n k) eqn:Ek.
  - unfold uview. rewrite view_lookup, Hin; auto.
  - change (uview (set_alloc s' v) G) with (uview v G). rewrite Hv, Ek. reflexivity.
Qed.

(** All pages, or none. *)
Lemma fresh_loop n v G fuel : filled n v G -> n0 <= n <= m -> (Z.to_nat (m - n) < fuel)%nat ->
  exists ok v' G', fresh_pages fuel map v (n * 4096) (m * 4096) ((fun p => p * 4096) <$> seqZ n0 (n - n0)) = Ok (ok, v') /\
    if ok : bool then filled m v' G'
    else stepped v0 G0 v' G' /\ (size (fa_avail (v_alloc v0)) < Z.to_nat (m - n0))%nat /\ uview v' G' = uview v0 G0 /\ fa_avail (v_alloc v') = fa_avail (v_alloc v0).
Proof.
  revert v G n. induction fuel as [|fuel IH]; intros v G n HF Hn Hfu0; [lia|]. cbn [fresh_pages]. destruct (Z.ltb_spec (n * 4096) (m * 4096)); cbn [negb].
  2: { exists true, v, G. split; [reflexivity|]. assert (m = n) as <- by lia. exact HF. }
  destruct (decide (fa_avail (v_alloc v) = ∅)) as [He|Hne].
  - destruct (filled_rollback n v G HF) as (v1 & v' & G' & -> & E & Hrest); [lia|auto|]. rewrite res_bind_ok. cbv beta iota. rewrite Z.eqb_refl, E, res_bind_ok. exists false, v', G'. auto.
  - destruct (filled_next n v G HF) as (f & v1 & v2 & v3 & G3 & -> & Hf & E2 & E3 & HF3); [lia|auto|]. rewrite res_bind_ok. cbv beta iota. rewrite (proj2 (Z.eqb_neq (f * 4096) 0)) by lia.
    rewrite E2, res_bind_ok, E3, res_bind_ok. rewrite length_fmap, length_seqZ, Z2Nat.id by lia. rewrite (proj2 (Z.ltb_lt (n - n0) 1024)) by lia. cbv zeta iota.
    destruct (Hplain n) as (Hn1 & _); [lia|]. rewrite (u32_small (n * 4096 + 4096)) by (unfold is_u32; lia). replace (n * 4096 + 4096) with ((n + 1) * 4096) by lia.
    destruct (IH v3 G3 (n + 1) HF3) as (ok & v' & G' & E & Hrest); [lia|lia|]. exists ok, v', G'. split; [|exact Hrest]. rewrite <- E. f_equal.
    replace (n + 1 - n0) with ((n - n0) + 1) by lia. rewrite seqZ_app, fmap_app by lia. replace (n0 + (n - n0)) with n by lia. reflexivity.
Qed.

Lemma filled_start : fresh_room -> filled n0 v0 G0.
Proof.
  intros Hr. split.
  - apply stepped_refl, H0.
  - intros k. destruct (in_pages a n0 n0 k) eqn:E; [apply in_pages_true in E; lia|reflexivity].
  - auto.
  - destruct Hr as [Ht|Hs]; [left; split; [auto|split; [auto|lia]]|right; lia].
Qed.
End fresh.
End map.

(** ** The abstract machine *)

(** The pages of all processes, the address spaces there are, and the one that runs. *)
Record world : Type := World { w_mem : gmap (Z * Z) upage; w_spaces : gset Z; w_cur : Z }.

(** What happens to memory: a store or a load of the running process, fork, a switch to
    another process, the end of a process; fresh pages for the range of page numbers
    [n .. m), and the end of such a range. *)
Inductive mop : Type :=
| MStore (va b : Z)
| MLoad (va : Z)
| MFork
| MSwitch (a : Z)
| MExit (a : Z)
| MMap (n m prot : Z)
| MUnmap (n m : Z).

Definition SEGV : Z := -1.

Definition fresh_upage (prot : Z) (nxe : bool) : upage := UPage zero_page (has prot PROT_WRITE) (negb (has prot PROT_EXEC) && nxe).

(** [mstep nxe w op r w']: [op] returns [r]. *)
Inductive mstep (nxe : bool) : world -> mop -> Z -> world -> Prop :=
| ms_store M sp a va b u p :
    M !! (a, vpn va) = Some u -> u_write u = true -> page_set_byte (u_data u) (va mod 4096) b = Ok p ->
    mstep nxe (World M sp a) (MStore va b) 0 (World (<[(a, vpn va) := UPage p true (u_nx u)]> M) sp a)
| ms_store_segv M sp a va b :
    (forall u, M !! (a, vpn va) = Some u -> u_write u = false) ->
    mstep nxe (World M sp a) (MStore va b) SEGV (World M sp a)
| ms_load M sp a va u b :
    M !! (a, vpn va) = Some u -> page_byte (u_data u) (va mod 4096) = Ok b ->
    mstep nxe (World M sp a) (MLoad va) b (World M sp a)
| ms_load_segv M sp a va :
    M !! (a, vpn va) = None -> mstep nxe (World M sp a) (MLoad va) SEGV (World M sp a)
| ms_fork M sp a new M' :
    new ∉ sp -> new <> 0 -> forked M a new M' -> mstep nxe (World M sp a) MFork new (World M' ({[new]} ∪ sp) a)
| ms_switch M sp a a' :
    a' ∈ sp -> mstep nxe (World M sp a) (MSwitch a') 0 (World M sp a')
| ms_exit M sp a a' M' :
    a' ∈ sp -> a' <> a -> (forall k, M' !! k = if k.1 =? a' then None else M !! k) ->
    mstep nxe (World M sp a) (MExit a') 0 (World M' (sp ∖ {[a']}) a)
| ms_map M sp a n m prot M' :
    (forall k, M' !! k = if in_pages a n m k then Some (fresh_upage prot nxe) else M !! k) ->
    mstep nxe (World M sp a) (MMap n m prot) (n * 4096) (World M' sp a)
| ms_map_oom M sp a n m prot :
    mstep nxe (World M sp a) (MMap n m prot) (- ENOMEM) (World M sp a)
| ms_unmap M sp a n m M' :
    (forall k, M' !! k = if in_pages a n m k then None else M !! k) ->
    mstep nxe (World M sp a) (MUnmap n m) 0 (World M' sp a).

(** The operation can change the memory of [a]: it is the running process, or it ends. *)
Definition touches (cur : Z) (op : mop) (a : Z) : bool :=
  match op with
  | MExit a' => a =? a'
  | MLoad _ | MSwitch _ | MFork => false
  | _ => a =? cur
  end.

Lemma mstep_frame nxe w op r w' a : mstep nxe w op r w' -> a ∈ w_spaces w -> touches (w_cur w) op a = false ->
  (forall n, w_mem w' !! (a, n) = w_mem w !! (a, n)) /\ a ∈ w_spaces w'.
Proof.
  intros Hs Ha Ht. destruct Hs; simpl in *; try (apply Z.eqb_neq in Ht); auto.
  - split; [|auto]. intros k. apply lookup_insert_ne. congruence.
  - split; [|set_solver]. intros k. rewrite H1. simpl. rewrite (proj2 (Z.eqb_neq a new)); [reflexivity|]. intros ->. auto.
  - split; [|set_solver]. intros k. rewrite H1. simpl. rewrite (proj2 (Z.eqb_neq a a')); auto.
  - split; [|auto]. intros k. rewrite H. unfold in_pages. simpl. rewrite (proj2 (Z.eqb_neq a a0)); auto.
  - split; [|auto]. intros k. rewrite H. unfold in_pages. simpl. rewrite (proj2 (Z.eqb_neq a a0)); auto.
Qed.

(** Sequences of steps, with their results. *)
Inductive msteps (nxe : bool) : world -> list mop -> list Z -> world -> Prop :=
| mss_nil w : msteps nxe w [] [] w
| mss_cons w op r w1 ops rs w2 : mstep nxe w op r w1 -> msteps nxe w1 ops rs w2 -> msteps nxe w (op :: ops) (r :: rs) w2.

(** No operation of the sequence can change the memory of [a]. *)
Fixpoint untouched (cur : Z) (ops : list mop) (a : Z) : bool :=
  match ops with
  | [] => true
  | op :: ops => negb (touches cur op a) && untouched (match op with MSwitch b => b | _ => cur end) ops a
  end.

Lemma msteps_frame nxe w ops rs w' a : msteps nxe w ops rs w' -> a ∈ w_spaces w -> untouched (w_cur w) ops a = true ->
  (forall n, w_mem w' !! (a, n) = w_mem w !! (a, n)) /\ a ∈ w_spaces w'.
Proof.
  induction 1 as [|w op r w1 ops rs w2 Hs _ IH]; [auto|]. intros Ha [Ht%negb_true_iff Hu]%andb_prop. destruct (mstep_frame _ _ _ _ _ a Hs Ha Ht) as [Hm1 Ha1].
  destruct IH as [Hm2 Ha2]; [auto|inversion Hs; subst; exact Hu|]. split; [|auto]. intros n. rewrite Hm2. auto.
Qed.

(** ** The implementation *)

Section sim.
Context {S : Type} {FA : FrameAlloc S} (pin : Z -> nat).
Implicit Types v : vm S.
Notation user_ok := (user_ok pin).

Definition mrun (op : mop) (v : vm S) : res (Z * vm S) :=
  match op with
  | MStore va b => '(o, v) ← user_store v va b; mret (match o with Some _ => 0 | None => SEGV end, v)
  | MLoad va => o ← user_load v va; mret (match o with Some b => b | None => SEGV end, v)
  | MFork => vmm_as_clone_user_cow v (v_cr3 v)
  | MSwitch a => mret (0, vmm_as_activate a v)
  | MExit a => v ← vmm_as_destroy v a; mret (0, v)
  | MMap n m prot => '(r, v) ← mmap_pages v None (n * 4096) ((m - n) * 4096) prot 0; mret (match r with inl e => e | inr b => b end, v)
  | MUnmap n m => v ← unmap_range (Datatypes.S (Z.to_nat (m - n))) true v (n * 4096) (m * 4096); mret (0, v)
  end.

(** The state of the machine and its abstraction. *)
Definition shows (v : vm S) (w : world) : Prop :=
  exists G, user_ok v G /\ v_kernel_as v ∈ t_sp G /\ v_cr3 v <> v_kernel_as v /\ w = World (uview v G) (t_sp G ∖ {[v_kernel_as v]}) (v_cr3 v).

Definition free_frames_of (v : vm S) : nat := size (fa_avail (v_alloc v)).
(** The page tables of the running process. *)
Definition tables_of (w : world) : gset Z := set_map (fun k : Z * Z => k.2 / 512) (filter (fun k => k.1 = w_cur w) (dom (w_mem w))).

(** When an operation is covered: addresses of the user part, processes that exist,
    memory that suffices.  Fresh pages go where nothing is mapped. *)
Definition mpre (v : vm S) (w : world) (op : mop) : Prop :=
  match op with
  | MStore va _ => user_va va /\ (2 <= free_frames_of v)%nat
  | MLoad va => user_va va
  | MFork => (6 + size (tables_of w) <= free_frames_of v)%nat /\ (forall f c, fa_live (v_alloc v) !! f = Some c -> c < 32768)
  | MSwitch a => a ∈ w_spaces w
  | MExit a => a ∈ w_spaces w /\ a <> w_cur w
  | MMap n m prot => 0 <= n < m /\ m - n <= 1024 /\ m <= 786429 /\ (2 * Z.to_nat (m - n) <= free_frames_of v)%nat /\
      (forall p, n <= p < m -> w_mem w !! (w_cur w, p) = None) /\ negb (v_wp v) || has prot PROT_WRITE = true
  | MUnmap n m => 0 <= n <= m /\ m <= 786432
  end.

Lemma uview_none v G n : user_ok v G -> v_cr3 v <> v_kernel_as v -> uview v G !! (v_cr3 v, n) = None -> t_pte G !! (v_cr3 v, n) = None.
Proof.
  intros H Hk Hv. destruct (t_pte G !! (v_cr3 v, n)) as [e|] eqn:E; [|reflexivity]. exfalso.
  assert (Hu : has e X86_PTE_USER = true) by (rewrite (us_user _ _ _ H _ _ _ E); apply negb_true_iff, Z.eqb_neq; auto).
  destruct (entry_mapped pin v G _ e H E Hu) as (p & _ & _ & Hp). congruence.
Qed.

Lemma slots_tables v G sp : user_ok v G -> v_cr3 v <> v_kernel_as v -> slots v G = tables_of (World (uview v G) sp (v_cr3 v)).
Proof.
  intros H Hk. unfold slots, tables_of. simpl. f_equal. apply set_eq. intros [a n]. rewrite !elem_of_filter, !elem_of_dom. simpl. split; intros [-> [x Hx]]; (split; [reflexivity|]).
  - destruct (uview v G !! (v_cr3 v, n)) eqn:E; [eauto|]. apply uview_none in E; auto. congruence.
  - unfold uview in Hx. rewrite view_lookup in Hx. destruct (t_pte G !! (v_cr3 v, n)); [eauto|discriminate].
Qed.

(** ** The simulation, by operation *)

Definition simulates (v : vm S) (w : world) (op : mop) : Prop :=
  exists r v' w', mrun op v = Ok (r, v') /\ mstep (v_nxe v) w op r w' /\ shows v' w' /\ v_nxe v' = v_nxe v.

(** The state after an operation that keeps the registers. *)
Lemma shows_same v v' G G' : user_ok v' G' -> same_regs v v' -> v_kernel_as v ∈ t_sp G' -> v_cr3 v <> v_kernel_as v -> t_sp G' = t_sp G ->
  shows v' (World (uview v' G') (t_sp G ∖ {[v_kernel_as v]}) (v_cr3 v)).
Proof. intros H (E1 & E2 & E3 & E4) Hk Hc Es. exists G'. rewrite E1, E3, Es in *. auto. Qed.

Lemma sim_store v G va b : user_ok v G -> v_kernel_as v ∈ t_sp G -> v_cr3 v <> v_kernel_as v -> user_va va -> (2 <= free_frames_of v)%nat ->
  simulates v (World (uview v G) (t_sp G ∖ {[v_kernel_as v]}) (v_cr3 v)) (MStore va b).
Proof.
  intros H Hks Hk Hva Hsz. unfold free_frames_of in Hsz. destruct (store_ok pin v G true va b H Hva Hk) as (v' & G' & H' & Hr & Hs & Hst); [right; lia|reflexivity|intros E; rewrite E, size_empty in Hsz; lia|].
  assert (Hsh : shows v' (World (uview v' G') (t_sp G ∖ {[v_kernel_as v]}) (v_cr3 v))) by (apply shows_same; auto; congruence).
  destruct Hr as (_ & _ & _ & Enx). unfold simulates, mrun, user_store. destruct (uview v G !! (v_cr3 v, vpn va)) as [u|] eqn:Eu; [destruct (u_write u) eqn:Ew|].
  - destruct Hst as (p & Hp & -> & Hv'). rewrite Hv' in Hsh. eexists _, _, _. split; [reflexivity|]. split; [|split; [exact Hsh|exact Enx]]. econstructor; eauto.
  - destruct Hst as (-> & Hv'). rewrite Hv' in Hsh. eexists _, _, _. split; [reflexivity|]. split; [|split; [exact Hsh|exact Enx]]. apply ms_store_segv. congruence.
  - destruct Hst as (-> & Hv'). rewrite Hv' in Hsh. eexists _, _, _. split; [reflexivity|]. split; [|split; [exact Hsh|exact Enx]]. apply ms_store_segv. congruence.
Qed.

(** A load, by a process or by the kernel, of the running process's memory. *)
Lemma load_ok v G user va : user_ok v G -> v_cr3 v <> v_kernel_as v -> user_va va ->
  match uview v G !! (v_cr3 v, vpn va) with
  | Some u => exists b, page_byte (u_data u) (va mod 4096) = Ok b /\ load v user va = Ok (Some b)
  | None => load v user va = Ok None
  end.
Proof.
  intros H Hk Hva. unfold load. rewrite (access_ok v G) by (auto; apply H). rewrite res_bind_ok. unfold uview. rewrite view_lookup.
  destruct (t_pte G !! (v_cr3 v, vpn va)) as [e|] eqn:E; simpl; [|reflexivity].
  assert (Hu : has e X86_PTE_USER = true) by (rewrite (us_user _ _ _ H _ _ _ E); apply negb_true_iff, Z.eqb_neq; auto).
  destruct (entry_mapped pin v G _ e H E Hu) as (p & Hp & Lp & _). unfold may, upage_of. rewrite Hu, Hp, orb_true_r. simpl. unfold rd_page. rewrite Hp. simpl.
  assert (0 <= va mod 4096 < 4096) by (apply Z.mod_pos_bound; lia). assert (0 <= va mod 4096 / 8 < 512) by (Z.to_euclidean_division_equations; lia).
  unfold page_byte. rewrite arr_get_ok, !res_bind_ok by lia. eexists. split; reflexivity.
Qed.

Lemma sim_load v G va : user_ok v G -> v_kernel_as v ∈ t_sp G -> v_cr3 v <> v_kernel_as v -> user_va va ->
  simulates v (World (uview v G) (t_sp G ∖ {[v_kernel_as v]}) (v_cr3 v)) (MLoad va).
Proof.
  intros H Hks Hk Hva. pose proof (load_ok v G true va H Hk Hva) as Hl. unfold simulates, mrun, user_load.
  assert (Hsh : shows v (World (uview v G) (t_sp G ∖ {[v_kernel_as v]}) (v_cr3 v))) by (exists G; auto).
  destruct (uview v G !! (v_cr3 v, vpn va)) as [u|] eqn:Eu.
  - destruct Hl as (b & Hb & ->). eexists _, _, _. split; [reflexivity|]. split; [econstructor; eauto|auto].
  - rewrite Hl. eexists _, _, _. split; [reflexivity|]. split; [apply ms_load_segv; auto|auto].
Qed.

Lemma sim_fork v G : user_ok v G -> v_kernel_as v ∈ t_sp G -> v_cr3 v <> v_kernel_as v ->
  mpre v (World (uview v G) (t_sp G ∖ {[v_kernel_as v]}) (v_cr3 v)) MFork ->
  simulates v (World (uview v G) (t_sp G ∖ {[v_kernel_as v]}) (v_cr3 v)) MFork.
Proof.
  intros H Hks Hk [Hsz Hlive]. rewrite <- (slots_tables v G) in Hsz by auto.
  destruct (fork_ok pin v G H Hk Hks Hsz Hlive) as (new & v' & G' & E & H' & Hr & Hnew & Hn0 & Hsp & Hfk). destruct Hr as (Ecr & _ & Eka & Enx).
  exists new, v', (World (uview v' G') ({[new]} ∪ (t_sp G ∖ {[v_kernel_as v]})) (v_cr3 v)). split; [exact E|]. split; [constructor; auto; set_solver|]. split; [|auto].
  exists G'. rewrite Eka, Ecr, Hsp. split; [auto|]. split; [set_solver|]. split; [auto|]. f_equal. assert (new <> v_kernel_as v) by congruence. set_solver.
Qed.

Lemma sim_exit v G a : user_ok v G -> v_kernel_as v ∈ t_sp G -> v_cr3 v <> v_kernel_as v -> a ∈ t_sp G ∖ {[v_kernel_as v]} -> a <> v_cr3 v ->
  simulates v (World (uview v G) (t_sp G ∖ {[v_kernel_as v]}) (v_cr3 v)) (MExit a).
Proof.
  intros H Hks Hk Ha Hne. destruct (destroy_ok pin v G a H) as (v' & G' & E & H' & (Ecr & _ & Eka & Enx) & Hsp & Hv); [set_solver|set_solver|auto|].
  exists 0, v', (World (uview v' G') ((t_sp G ∖ {[v_kernel_as v]}) ∖ {[a]}) (v_cr3 v)). unfold mrun. rewrite E. split; [reflexivity|]. split; [constructor; auto|]. split; [|auto].
  exists G'. rewrite Eka, Ecr, Hsp. split; [auto|]. split; [set_solver|]. split; [auto|]. f_equal. set_solver.
Qed.

Lemma prot_flags_has prot : has (prot_flags prot) VMM_FLAG_PRESENT = true /\ has (prot_flags prot) VMM_FLAG_USER = true /\
  has (prot_flags prot) VMM_FLAG_RW = has prot PROT_WRITE /\ has (prot_flags prot) VMM_FLAG_NX = negb (has prot PROT_EXEC) /\ has (prot_flags prot) VMM_FLAG_COW = false.
Proof. unfold prot_flags. destruct (has prot PROT_WRITE), (has prot PROT_EXEC); repeat split. Qed.

(** Fresh anonymous pages. *)
Lemma mmap_pages_ok v G n m prot :
  user_ok v G -> v_cr3 v <> v_kernel_as v -> 0 <= n < m -> m - n <= 1024 -> m <= 786429 -> fresh_room v G n m ->
  (forall p, n <= p < m -> t_pte G !! (v_cr3 v, p) = None) -> negb (v_wp v) || has prot PROT_WRITE = true ->
  exists r v' G', mmap_pages v None (n * 4096) ((m - n) * 4096) prot 0 = Ok (r, v') /\ stepped pin v G v' G' /\
    ((r = inr (n * 4096) /\ (forall k, uview v' G' !! k = if in_pages (v_cr3 v) n m k then Some (fresh_upage prot (v_nxe v)) else uview v G !! k)) \/
     (r = inl (- ENOMEM) /\ (free_frames_of v < Z.to_nat (m - n))%nat /\ uview v' G' = uview v G /\ fa_avail (v_alloc v') = fa_avail (v_alloc v))).
Proof.
  intros H Hk Hn Hlen Hm Hroom Hfree Hwp. destruct (prot_flags_has prot) as (F1 & F2 & F3 & F4 & F5). unfold mmap_pages.
  rewrite (u32_small (n * 4096 + (m - n) * 4096)) by (unfold is_u32; lia). replace (n * 4096 + (m - n) * 4096) with (m * 4096) by lia. cbv zeta.
  assert (Epb : pages_between (n * 4096) (m * 4096) = Z.to_nat (m - n)) by (unfold pages_between; f_equal; Z.to_euclidean_division_equations; lia). rewrite Epb.
  assert (Hpl : forall p, n <= p < m -> plain_page p) by (intros p Hp; unfold plain_page, vpn, TMP_VA, TMP_COW_VA; split; [lia|split; Z.to_euclidean_division_equations; lia]).
  destruct (fresh_loop pin v G n m (prot_flags prot) (fun v frame va => vmm_map_page_nolock v frame va (prot_flags prot)) H Hk) with (n := n) (v := v) (G := G) (fuel := Datatypes.S (Z.to_nat (m - n)))
    as (ok & v' & G' & E & Hres); try congruence; try lia; auto; [apply filled_start; auto; lia|].
  rewrite Z.sub_diag in E. change (_ <$> seqZ n 0) with (@nil Z) in E. rewrite E, res_bind_ok. destruct ok.
  - destruct Hres as [Hst Hv _ _]. exists (inr (n * 4096)), v', G'. split; [reflexivity|]. split; [auto|]. left. split; [auto|]. intros k. rewrite Hv. unfold new_page. rewrite F3, F4, F5, orb_false_r. reflexivity.
  - destruct Hres as (Hst & Hlt & Hv & Ha). exists (inl (- ENOMEM)), v', G'. auto 8.
Qed.

Lemma sim_map v G n m prot : user_ok v G -> v_kernel_as v ∈ t_sp G -> v_cr3 v <> v_kernel_as v ->
  mpre v (World (uview v G) (t_sp G ∖ {[v_kernel_as v]}) (v_cr3 v)) (MMap n m prot) ->
  simulates v (World (uview v G) (t_sp G ∖ {[v_kernel_as v]}) (v_cr3 v)) (MMap n m prot).
Proof.
  intros H Hks Hk (Hn & Hlen & Hm & Hsz & Hfree & Hwp). simpl in Hfree.
  destruct (mmap_pages_ok v G n m prot H Hk Hn Hlen Hm) as (r & v' & G' & E & [H' Hr Hsp _ _] & Hres); [right; exact Hsz|intros p Hp; apply uview_none; auto|auto|].
  assert (Hsh : shows v' (World (uview v' G') (t_sp G ∖ {[v_kernel_as v]}) (v_cr3 v))) by (apply shows_same; auto; congruence).
  destruct Hr as (_ & _ & _ & Enx). unfold simulates, mrun. rewrite E. destruct Hres as [(-> & Hv)|(-> & _ & Hv & _)].
  - eexists _, _, _. split; [reflexivity|]. split; [|split; [exact Hsh|exact Enx]]. constructor. exact Hv.
  - rewrite Hv in Hsh. eexists _, _, _. split; [reflexivity|]. split; [|split; [exact Hsh|exact Enx]]. constructor.
Qed.

Lemma sim_unmap v G n m : user_ok v G -> v_kernel_as v ∈ t_sp G -> v_cr3 v <> v_kernel_as v -> 0 <= n <= m -> m <= 786432 ->
  simulates v (World (uview v G) (t_sp G ∖ {[v_kernel_as v]}) (v_cr3 v)) (MUnmap n m).
Proof.
  intros H Hks Hk Hn Hm. destruct (unmap_range_ok pin v G n m (Datatypes.S (Z.to_nat (m - n))) H Hk Hn Hm) as (v' & G' & E & [H' Hr Hsp _ _] & _ & _ & Hv); [lia|].
  assert (Hsh : shows v' (World (uview v' G') (t_sp G ∖ {[v_kernel_as v]}) (v_cr3 v))) by (apply shows_same; auto; congruence).
  destruct Hr as (_ & _ & _ & Enx). unfold simulates, mrun. rewrite E. eexists _, _, _. split; [reflexivity|]. split; [|split; [exact Hsh|exact Enx]]. constructor. exact Hv.
Qed.

(** Every covered operation returns, and does what the abstract machine does. *)
Lemma mrun_simulates v w op : shows v w -> mpre v w op -> simulates v w op.
Proof.
  intros (G & H & Hks & Hk & ->) Hp. destruct op; simpl in Hp.
  - apply sim_store; tauto.
  - apply sim_load; auto.
  - apply sim_fork; auto.
  - unfold simulates, mrun. pose proof (us_vm _ _ _ H) as Hvm. rewrite (activate_eq v G) by (auto; set_solver). eexists _, _, _. split; [reflexivity|].
    split; [apply ms_switch; auto|]. split; [|reflexivity]. exists G. split; [apply user_ok_cr3; auto; set_solver|]. simpl. split; [auto|]. split; [set_solver|reflexivity].
  - apply sim_exit; tauto.
  - apply sim_map; auto.
  - apply sim_unmap; tauto.
Qed.

(** ** Sequences *)

Fixpoint mruns (ops : list mop) (v : vm S) : res (list Z * vm S) :=
  match ops with
  | [] => mret ([], v)
  | op :: ops => '(r, v) ← mrun op v; '(rs, v) ← mruns ops v; mret (r :: rs, v)
  end.

(** The condition of each operation holds when its turn comes. *)
Fixpoint mpres (v : vm S) (w : world) (ops : list mop) : Prop :=
  match ops with
  | [] => True
  | op :: ops => mpre v w op /\ forall r v' w', mrun op v = Ok (r, v') -> mstep (v_nxe v) w op r w' -> shows v' w' -> mpres v' w' ops
  end.

Lemma mruns_simulate ops v w : shows v w -> mpres v w ops ->
  exists rs v' w', mruns ops v = Ok (rs, v') /\ msteps (v_nxe v) w ops rs w' /\ shows v' w'.
Proof.
  revert v w. induction ops as [|op ops IH]; intros v w H Hp; [exists [], v, w; split; [reflexivity|split; [constructor|auto]]|]. destruct Hp as [Hp Hn].
  destruct (mrun_simulates v w op H Hp) as (r & v1 & w1 & E1 & S1 & H1 & Enx). destruct (IH v1 w1 H1 (Hn _ _ _ E1 S1 H1)) as (rs & v2 & w2 & E2 & S2 & H2).
  exists (r :: rs), v2, w2. cbn [mruns]. rewrite E1, res_bind_ok, E2. split; [reflexivity|]. split; [|auto]. rewrite Enx in S2. econstructor; eauto.
Qed.
End sim.
