(* ===== verification/UserMapSpec.v ===== *)
(** The area search, mmap, munmap and brk against the memory a process sees, and the
    kernel's own accesses to it: the checks of a range, and [copy_from_user] as a
    function of that memory. *)

From S2P Require Import Prelude Frames Vmm VmmInv VmmOps VmmSpace VmmUser VmmFork VmmDestroy UserMap VmmSim.

Lemma page_up_eq x : 0 <= x <= 4294963200 -> page_up x = (x + 4095) / 4096 * 4096.
Proof.
  intros Hx. unfold page_up. rewrite u32_small by (unfold is_u32; lia). rewrite land_u32_lnot by (unfold is_u32; lia). apply (align_down_spec _ 12). lia.
Qed.

(** The first free slot of the table of mappings. *)
Lemma find_slot_some {A} (ok : A -> bool) l i j : find_slot ok l i = Some j ->
  i <= j /\ exists x, l !! Z.to_nat (j - i) = Some x /\ ok x = true /\ forall k y, (k < Z.to_nat (j - i))%nat -> l !! k = Some y -> ok y = false.
Proof.
  revert i. induction l as [|x l IH]; intros i Hf; [discriminate|]. simpl in Hf. destruct (ok x) eqn:E.
  - injection Hf as <-. split; [lia|]. exists x. rewrite Z.sub_diag. split; [reflexivity|]. split; [auto|]. intros k y Hk. lia.
  - destruct (IH _ Hf) as (Hij & y & Hy & Hok & Hmin). split; [lia|]. exists y. replace (Z.to_nat (j - i)) with (S (Z.to_nat (j - (i + 1)))) by lia.
    split; [exact Hy|]. split; [auto|]. intros [|k] z Hk Hz; [injection Hz as <-; auto|]. apply (Hmin k); [lia|auto].
Qed.

Lemma find_slot_none {A} (ok : A -> bool) l i : find_slot ok l i = None -> forall x, x ∈ l -> ok x = false.
Proof.
  revert i. induction l as [|x l IH]; intros i Hf y Hy; [set_solver|]. simpl in Hf. destruct (ok x) eqn:E; [discriminate|].
  apply elem_of_cons in Hy as [->|Hy]; eauto.
Qed.

(** The slot found is the first with [ok]; it remains so when it is changed to one with [ok]. *)
Lemma find_slot_at {A} (ok : A -> bool) l i j x : l !! j = Some x -> ok x = true -> (forall k y, (k < j)%nat -> l !! k = Some y -> ok y = false) ->
  find_slot ok l i = Some (i + Z.of_nat j).
Proof.
  revert i j. induction l as [|y l IH]; intros i j Hj Hok Hmin; [discriminate|]. simpl. destruct j as [|j].
  - injection Hj as <-. rewrite Hok. f_equal. lia.
  - rewrite (Hmin 0%nat y) by (lia || reflexivity). rewrite (IH (i + 1) j); [f_equal; lia|auto|auto|]. intros k z Hk Hz. apply (Hmin (Datatypes.S k)); [lia|auto].
Qed.

(** ** A free area *)

Section area.
Context (free : Z -> bool) (s e need : Z).

(** The lowest run of [need] free pages in [s .. e). *)
Definition lowest_run (p : Z) : Prop :=
  s <= p /\ p + need <= e /\ (forall j, p <= j < p + need -> free j = true) /\
  forall q, s <= q < p -> exists j, q <= j < q + need /\ free j = false.
Definition no_run : Prop := forall q, s <= q -> q + need <= e -> exists j, q <= j < q + need /\ free j = false.
End area.

Section calls.
Context {S : Type} {FA : FrameAlloc S} (pin : Z -> nat).
Implicit Types v : vm S.
Notation user_ok := (user_ok pin).
Notation shows := (shows pin).

Definition unmapped (w : world) (n : Z) : bool := bool_decide (w_mem w !! (w_cur w, n) = None).

Lemma page_mapped_ok v w n : shows v w -> 0 <= n < 786432 -> page_mapped v (n * 4096) = Ok (negb (unmapped w n)).
Proof.
  intros (G & H & _ & Hk & ->) Hn. assert (Hva : user_va (n * 4096)) by (unfold user_va; lia). assert (Ev : vpn (n * 4096) = n) by (unfold vpn; apply Z.div_mul; lia).
  unfold page_mapped, unmapped. simpl. destruct (find_pte v G _ (us_vm _ _ _ H) Hva) as (pde & -> & Hc). rewrite Ev, res_bind_ok in *.
  assert (Hi : t_pte G !! (v_cr3 v, n) = None <-> uview v G !! (v_cr3 v, n) = None).
  { split; [|apply (uview_none pin); auto]. intros E. unfold uview. rewrite view_lookup, E. reflexivity. }
  destruct Hc as [(_ & -> & E)|(t & e & _ & -> & _ & _ & -> & E & _)].
  - rewrite (bool_decide_eq_true_2 _ (proj1 Hi E)). reflexivity.
  - rewrite res_bind_ok. destruct (has e X86_PTE_PRESENT).
    + rewrite bool_decide_eq_false_2; [reflexivity|]. rewrite <- Hi. congruence.
    + rewrite (bool_decide_eq_true_2 _ (proj1 Hi E)). reflexivity.
Qed.

Lemma area_loop_ok v w s e need n L rs fuel :
  shows v w -> 0 <= s -> s <= n - L -> n <= e <= 786432 -> 0 <= L < need -> (0 < L -> rs = (n - L) * 4096) ->
  (forall j, n - L <= j < n -> unmapped w j = true) -> (forall q, s <= q < n - L -> exists j, q <= j < q + need /\ unmapped w j = false) ->
  (Z.to_nat (e - n) < fuel)%nat ->
  exists r, find_loop fuel v (n * 4096) (e * 4096) need rs L = Ok r /\
    ((exists p, r = p * 4096 /\ lowest_run (unmapped w) s e need p) \/ (r = 0 /\ no_run (unmapped w) s e need)).
Proof.
  intros H Hs0. revert n L rs. induction fuel as [|fuel IH]; intros n L rs Hs Hn HL Hrs Hfree Hlow Hf; [lia|]. cbn [find_loop].
  destruct (Z.ltb_spec (n * 4096) (e * 4096)); cbn [negb].
  2: { exists 0. split; [reflexivity|]. right. split; [auto|]. intros q Hq Hqe. apply Hlow. lia. }
  rewrite (page_mapped_ok v w) by (auto; lia). rewrite res_bind_ok, negb_involutive. rewrite (u32_small (n * 4096 + 4096)) by (unfold is_u32; lia).
  replace (n * 4096 + 4096) with ((n + 1) * 4096) by lia. destruct (unmapped w n) eqn:Eu.
  - rewrite (u32_small (L + 1)) by (unfold is_u32; lia). set (rs' := if L =? 0 then n * 4096 else rs).
    assert (Ers : rs' = (n - L) * 4096) by (unfold rs'; destruct (Z.eqb_spec L 0); [lia|apply Hrs; lia]).
    assert (Hfree' : forall j, n - L <= j < n + 1 -> unmapped w j = true) by (intros j Hj; destruct (decide (j = n)) as [->|]; [auto|apply Hfree; lia]).
    cbv zeta. destruct (Z.leb_spec need (L + 1)).
    + exists rs'. split; [reflexivity|]. left. exists (n - L). split; [auto|]. split; [lia|]. split; [lia|]. split; [|auto]. intros j Hj. apply Hfree'. lia.
    + apply IH; try lia; auto.
      * intros j Hj. apply Hfree'. lia.
      * intros q Hq. apply Hlow. lia.
  - apply IH; try lia. intros q Hq. destruct (Z.lt_ge_cases q (n - L)); [apply Hlow; lia|]. exists n. split; [lia|auto].
Qed.

Lemma find_free_area_ok v w s e length : shows v w -> 0 <= s <= e -> e <= 786432 -> 0 < length <= 4294963200 ->
  let need := (length + 4095) / 4096 in
  exists r, vmm_find_free_area v (s * 4096) (e * 4096) length = Ok r /\
    ((exists p, r = p * 4096 /\ lowest_run (unmapped w) s e need p) \/ (r = 0 /\ no_run (unmapped w) s e need)).
Proof.
  intros H Hs He Hl need. unfold vmm_find_free_area. rewrite (proj2 (Z.eqb_neq length 0)) by lia. rewrite (u32_small (length + 4095)), Z.shiftr_div_pow2 by (unfold is_u32; lia).
  change (2 ^ 12) with 4096. fold need. assert (Ea : Z.land (s * 4096) (u32 (Z.lnot 4095)) = s * 4096).
  { rewrite land_u32_lnot by (unfold is_u32; lia). etransitivity; [apply (align_down_spec _ 12); lia|]. change (2 ^ 12) with 4096. rewrite Z.div_mul; lia. }
  rewrite Ea. assert (1 <= need) by (unfold need; Z.to_euclidean_division_equations; lia).
  apply area_loop_ok; auto; try lia. assert ((e * 4096 - s * 4096 + 4095) / 4096 = e - s) as -> by (Z.to_euclidean_division_equations; lia). lia.
Qed.

(** ** mmap *)

(** The memory of the running process in the pages [n .. m) is [u]; the rest is as
    before. *)
Definition replaced (w : world) (n m : Z) (u : option upage) (w' : world) : Prop :=
  w_spaces w' = w_spaces w /\ w_cur w' = w_cur w /\ forall k, w_mem w' !! k = if in_pages (w_cur w) n m k then u else w_mem w !! k.

(** An anonymous mapping of [pages] pages at an address of the kernel's choice: the lowest
    free area, pages of zeros, and the first free slot of the table; or an error and no
    change. *)
Lemma mmap_ok v w p addr length prot flags fd offset fd_get :
  shows v w -> 0 < length <= 4194304 -> has flags MAP_ANONYMOUS = true -> has flags MAP_FIXED = false ->
  let pages := (length + 4095) / 4096 in
  (2 * Z.to_nat pages <= free_frames_of v)%nat -> negb (v_wp v) || has prot PROT_WRITE = true ->
  (exists n slot v' w' m0, lowest_run (unmapped w) 262144 524032 pages n /\ mmaps p !! slot = Some m0 /\ empty_slot m0 = true /\
     (forall k x, (k < slot)%nat -> mmaps p !! k = Some x -> empty_slot x = false) /\
     syscall_mmap_impl v p addr length prot flags fd offset fd_get = Ok (n * 4096, v', set_mmaps (<[slot := MSlot (n * 4096) (pages * 4096) (-1)]> (mmaps p)) p) /\
     shows v' w' /\ replaced w n (n + pages) (Some (fresh_upage prot (v_nxe v))) w' /\ same_regs v v') \/
  (syscall_mmap_impl v p addr length prot flags fd offset fd_get = Ok (- ENOMEM, v, p) /\
     (no_run (unmapped w) 262144 524032 pages \/ forall x, x ∈ mmaps p -> empty_slot x = false)).
Proof.
  intros H Hl Han Hfx pages Hsz Hwp. assert (Hp : 1 <= pages <= 1024) by (unfold pages; Z.to_euclidean_division_equations; lia).
  unfold syscall_mmap_impl, mmap_node, mmap_base, mmap_find_free. rewrite (proj2 (Z.eqb_neq length 0)) by lia. rewrite Han, Hfx, page_up_eq by lia. fold pages.
  destruct (find_free_area_ok v w 262144 524032 (pages * 4096) H) as (r & E & Hr); [lia|lia|lia|]. change (262144 * 4096) with MMAP_BASE in E. change (524032 * 4096) with MMAP_END in E.
  replace ((pages * 4096 + 4095) / 4096) with pages in Hr by (Z.to_euclidean_division_equations; lia). cbv zeta. rewrite E, res_bind_ok.
  destruct Hr as [(n & -> & Hrun)|(-> & Hno)]; [|right; split; [reflexivity|auto]]. pose proof Hrun as (Hn1 & Hn2 & Hfree & _).
  rewrite (proj2 (Z.eqb_neq (n * 4096) 0)) by lia. rewrite res_bind_ok. destruct (find_slot empty_slot (mmaps p) 0) as [j|] eqn:Ef.
  2: { right. split; [reflexivity|]. right. eapply find_slot_none; eauto. }
  left. destruct (find_slot_some _ _ _ _ Ef) as (Hj & m0 & Hm0 & He0 & Hmin). rewrite Z.sub_0_r in *. destruct H as (G & HG & Hks & Hk & ->).
  destruct (mmap_pages_ok pin v G n (n + pages) prot HG Hk) as (r & v' & G' & Em & [H' Hr Hsp _ _] & Hres); try lia; auto.
  { right. unfold free_frames_of in Hsz. replace (n + pages - n) with pages by lia. exact Hsz. }
  { intros q Hq. apply (uview_none pin); auto. specialize (Hfree q Hq). apply bool_decide_eq_true in Hfree. exact Hfree. }
  replace (n + pages - n) with pages in * by lia. destruct Hres as [(-> & Hv)|(_ & Hlt & _)]; [|unfold free_frames_of in *; lia].
  exists n, (Z.to_nat j), v', (World (uview v' G') (t_sp G ∖ {[v_kernel_as v]}) (v_cr3 v)), m0. split; [auto|]. split; [auto|]. split; [auto|]. split; [auto|].
  split; [unfold mmap_pages in *; rewrite Em, res_bind_ok; reflexivity|]. split; [apply (shows_same pin); auto; congruence|]. split; [split; [reflexivity|]; split; [reflexivity|exact Hv]|auto].
Qed.

(** ** munmap *)

Lemma munmap_ok v w p n pages length slot :
  shows v w -> 0 < n -> 0 < pages -> n + pages <= 786432 -> 0 < length <= 4294963200 -> (length + 4095) / 4096 = pages ->
  mmaps p !! slot = Some (MSlot (n * 4096) (pages * 4096) (-1)) ->
  (forall k x, (k < slot)%nat -> mmaps p !! k = Some x -> ms_base x = n * 4096 -> ms_length x <> pages * 4096) ->
  exists v' w', syscall_munmap_impl v p (n * 4096) length = Ok (0, v', set_mmaps (<[slot := MSlot 0 0 (-1)]> (mmaps p)) p) /\
    shows v' w' /\ replaced w n (n + pages) None w' /\ same_regs v v'.
Proof.
  intros H Hn Hp Hm Hl El Hs Hfirst. unfold syscall_munmap_impl. rewrite (proj2 (Z.eqb_neq (n * 4096) 0)), has_frame, (proj2 (Z.eqb_neq length 0)) by lia.
  simpl (false || false). cbv iota. rewrite page_up_eq, El by lia. rewrite (find_slot_at _ _ 0 slot _ Hs).
  - cbv zeta. rewrite Z.add_0_l, Nat2Z.id, Hs. simpl of_option. rewrite res_bind_ok. simpl ms_shmid. rewrite Z.eqb_refl, (u32_small (n * 4096 + pages * 4096)) by (unfold is_u32; lia).
    replace (n * 4096 + pages * 4096) with ((n + pages) * 4096) by lia. destruct H as (G & HG & Hks & Hk & ->).
    destruct (unmap_range_ok pin v G n (n + pages) (Datatypes.S (pages_between (n * 4096) ((n + pages) * 4096))) HG Hk) as (v' & G' & -> & [H' Hr Hsp _ _] & _ & _ & Hv); [lia|lia| |].
    { unfold pages_between. assert (((n + pages) * 4096 - n * 4096 + 4095) / 4096 = pages) as -> by (Z.to_euclidean_division_equations; lia). lia. }
    rewrite res_bind_ok. exists v', (World (uview v' G') (t_sp G ∖ {[v_kernel_as v]}) (v_cr3 v)). split; [reflexivity|]. split; [apply (shows_same pin); auto; congruence|].
    split; [split; [reflexivity|]; split; [reflexivity|exact Hv]|auto].
  - simpl. rewrite !Z.eqb_refl. reflexivity.
  - intros k x Hk Hx. apply andb_false_iff. destruct (Z.eqb_spec (ms_base x) (n * 4096)) as [Eb|]; [right|left; reflexivity]. apply Z.eqb_neq. eauto.
Qed.

(** ** brk *)

(** The pages between the old break and the new one; the heap lies below 0x40000000. *)
Definition brk_page (x : Z) : Z := (x + 4095) / 4096.

Lemma brk_ok v w p addr :
  shows v w -> 0 < heap_start p <= heap_break p -> heap_break p < USER_STACK_BASE -> heap_start p <= addr < USER_STACK_BASE ->
  let o := brk_page (heap_break p) in let n := brk_page addr in
  n - o <= 1024 -> (2 * Z.to_nat (n - o) <= free_frames_of v)%nat -> (forall q, o <= q < n -> unmapped w q = true) ->
  exists v' w', syscall_brk_impl v p addr = Ok (addr, v', set_break addr p) /\ shows v' w' /\
    (if o <=? n then replaced w o n (Some (fresh_upage PROT_WRITE (v_nxe v))) w' else replaced w n o None w').
Proof.
  intros H Hb Hbm Ha o n Hlen Hsz Hfree. unfold USER_STACK_BASE in *. unfold syscall_brk_impl, KERNEL_VIRT_BASE, USER_STACK_BASE. zdecide. rewrite !page_up_eq by lia. fold (brk_page addr) (brk_page (heap_break p)). fold n o.
  assert (Ho : 0 <= o <= 262144 /\ 0 <= n <= 262144) by (unfold o, n, brk_page; Z.to_euclidean_division_equations; lia). destruct Ho as [Ho Hn].
  destruct H as (G & HG & Hks & Hk & ->). destruct (Z.ltb_spec (o * 4096) (n * 4096)).
  - rewrite (proj2 (Z.leb_le o n)) by lia. set (fl := Z.lor _ VMM_FLAG_NX).
    assert (Epb : pages_between (o * 4096) (n * 4096) = Z.to_nat (n - o)) by (unfold pages_between; f_equal; Z.to_euclidean_division_equations; lia). rewrite Epb.
    assert (Hpl : forall q, o <= q < n -> plain_page q) by (intros q Hq; unfold plain_page, vpn, TMP_VA, TMP_COW_VA; split; [lia|split; Z.to_euclidean_division_equations; lia]).
    destruct (sp_frame v G _ (us_vm _ _ _ HG) (vk_cur _ _ (us_vm _ _ _ HG))) as (c & Ec & Hc).
    destruct (fresh_loop pin v G o n fl (fun v frame va => vmm_as_map_page_nolock v (v_cr3 v) frame va fl) HG Hk) with (n := o) (v := v) (G := G) (fuel := Datatypes.S (Z.to_nat (n - o)))
      as (ok & v' & G' & E & Hres); try lia; auto.
    + intros u f q Eu. unfold vmm_as_map_page_nolock. rewrite Z.eqb_refl, (proj2 (Z.eqb_neq (v_cr3 u) 0)) by lia. reflexivity.
    + intros q Hq. apply (uview_none pin); auto. specialize (Hfree q Hq). apply bool_decide_eq_true in Hfree. exact Hfree.
    + apply orb_true_r.
    + apply filled_start; auto. right. exact Hsz.
    + rewrite Z.sub_diag in E. change (_ <$> seqZ o 0) with (@nil Z) in E. rewrite E, res_bind_ok. destruct ok.
      * destruct Hres as [[H' Hr Hsp _ _] Hv _ _]. exists v', (World (uview v' G') (t_sp G ∖ {[v_kernel_as v]}) (v_cr3 v)). split; [reflexivity|]. split; [apply (shows_same pin); auto; congruence|].
        split; [reflexivity|]. split; [reflexivity|exact Hv].
      * unfold free_frames_of in Hsz. destruct Hres as (_ & Hlt & _). lia.
  - destruct (Z.ltb_spec (n * 4096) (o * 4096)).
    + rewrite (proj2 (Z.leb_gt o n)) by lia.
      destruct (unmap_range_ok pin v G n o (Datatypes.S (pages_between (n * 4096) (o * 4096))) HG Hk) as (v' & G' & -> & [H' Hr Hsp _ _] & _ & _ & Hv); [lia|lia| |].
      { unfold pages_between. assert ((o * 4096 - n * 4096 + 4095) / 4096 = o - n) as -> by (Z.to_euclidean_division_equations; lia). lia. }
      rewrite res_bind_ok. exists v', (World (uview v' G') (t_sp G ∖ {[v_kernel_as v]}) (v_cr3 v)). split; [reflexivity|]. split; [apply (shows_same pin); auto; congruence|].
      split; [reflexivity|]. split; [reflexivity|exact Hv].
    + assert (o = n) as E by lia. rewrite E, Z.leb_refl. exists v, (World (uview v G) (t_sp G ∖ {[v_kernel_as v]}) (v_cr3 v)). split; [reflexivity|]. split; [exists G; auto|].
      split; [reflexivity|]. split; [reflexivity|]. intros k. destruct (in_pages _ n n k) eqn:Ek; [apply in_pages_true in Ek; lia|reflexivity].
Qed.
End calls.

(** The byte of the running process at an address. *)
Definition byte_at (w : world) (va : Z) : option Z :=
  match w_mem w !! (w_cur w, vpn va) with
  | Some u => match page_byte (u_data u) (va mod 4096) with Ok b => Some b | _ => None end
  | None => None
  end.

(** What the kernel may read: addresses below the kernel, not from null, all of them
    mapped. *)
Definition user_bytes (w : world) (src len : Z) : option (list Z) :=
  if len =? 0 then Some []
  else if (src =? 0) || (KERNEL_VIRT_BASE <? src + len) then None
  else mapM (byte_at w) (seqZ src len).

Lemma basic_ok_eq uaddr len : is_u32 uaddr -> is_u32 len -> len <> 0 ->
  x86_user_range_basic_ok uaddr len = negb ((uaddr =? 0) || (KERNEL_VIRT_BASE <? uaddr + len)).
Proof.
  unfold is_u32, x86_user_range_basic_ok, KERNEL_VIRT_BASE. intros Hu Hl Hne. rewrite (proj2 (Z.eqb_neq len 0)) by auto.
  destruct (Z.eqb_spec uaddr 0); [reflexivity|]. simpl orb. destruct (Z.leb_spec 3221225472 uaddr); [symmetry; apply negb_false_iff, Z.ltb_lt; lia|]. cbv zeta.
  destruct (Z.lt_ge_cases (uaddr + len - 1) 4294967296).
  - rewrite u32_small by (unfold is_u32; lia). rewrite (proj2 (Z.ltb_ge (uaddr + len - 1) uaddr)) by lia.
    destruct (Z.leb_spec 3221225472 (uaddr + len - 1)), (Z.ltb_spec 3221225472 (uaddr + len)); (reflexivity || lia).
  - assert (Ew : u32 (uaddr + len - 1) = uaddr + len - 1 - 4294967296) by (unfold u32; symmetry; apply (Zmod_unique _ _ 1); lia).
    rewrite Ew, (proj2 (Z.ltb_lt (uaddr + len - 1 - 4294967296) uaddr)) by lia. symmetry. apply negb_false_iff, Z.ltb_lt. lia.
Qed.

Lemma range_loop_eq ok okb n m fuel :
  0 <= n <= m -> m < 1048575 -> (forall p, n <= p <= m -> ok (p * 4096) = Ok (okb p)) -> (Z.to_nat (m - n) < fuel)%nat ->
  range_loop fuel ok (n * 4096) (m * 4096) = Ok (forallb okb (seqZ n (m - n + 1))).
Proof.
  revert n. induction fuel as [|fuel IH]; intros n Hn Hm Hok Hf; [lia|]. cbn [range_loop]. rewrite Hok, res_bind_ok by lia.
  rewrite seqZ_cons by lia. cbn [forallb]. destruct (okb n); cbn [negb andb]; [|reflexivity]. destruct (Z.eqb_spec (n * 4096) (m * 4096)).
  - assert (m = n) as -> by lia. rewrite Z.sub_diag. reflexivity.
  - rewrite (u32_small (n * 4096 + 4096)) by (unfold is_u32; lia). replace (n * 4096 + 4096) with ((n + 1) * 4096) by lia.
    rewrite IH; [|lia|lia|intros; apply Hok; lia|lia]. unfold Z.succ, Z.pred. do 3 f_equal. lia.
Qed.

Section uaccess.
Context {S : Type} {FA : FrameAlloc S} (pin : Z -> nat).
Implicit Types v : vm S.
Notation user_ok := (user_ok pin).
Notation shows := (shows pin).

Definition page_there (w : world) (n : Z) : bool := bool_decide (is_Some (w_mem w !! (w_cur w, n))).
Definition page_writable (w : world) (n : Z) : bool := match w_mem w !! (w_cur w, n) with Some u => u_write u | None => false end.

(** The two checks of a page. *)
Lemma page_checks v w n : shows v w -> 0 <= n < 786432 ->
  x86_user_page_present_and_user v (n * 4096) = Ok (page_there w n) /\ x86_user_page_writable_user v (n * 4096) = Ok (page_writable w n).
Proof.
  intros (G & H & _ & Hk & ->) Hn. assert (Hva : user_va (n * 4096)) by (unfold user_va; lia). assert (Ev : vpn (n * 4096) = n) by (unfold vpn; apply Z.div_mul; lia).
  unfold page_there, page_writable. simpl. unfold uview. rewrite view_lookup.
  unfold x86_user_page_present_and_user, x86_user_page_writable_user. fold (pae_pdpt_index (n * 4096)) (pae_pd_index (n * 4096)) (pae_pt_index (n * 4096)).
  destruct (find_pte v G _ (us_vm _ _ _ H) Hva) as (pde & -> & Hc). rewrite Ev in Hc. rewrite !res_bind_ok.
  destruct Hc as [(_ & Hp & ->)|(t & e & _ & Hp & _ & _ & -> & E & Hu)]; change (has pde 1) with (has pde X86_PTE_PRESENT); rewrite Hp; [split; reflexivity|].
  cbn [negb]. cbv iota. rewrite !res_bind_ok, E. change (has pde 4) with (has pde X86_PTE_USER). change (has e 1) with (has e X86_PTE_PRESENT). change (has e 4) with (has e X86_PTE_USER).
  change (has e 2) with (has e X86_PTE_RW). change (has e 512) with (has e X86_PTE_COW). destruct (has e X86_PTE_PRESENT) eqn:Epr.
  - assert (Hue : has e X86_PTE_USER = true) by (rewrite (us_user _ _ _ H _ _ _ E); apply negb_true_iff, Z.eqb_neq; auto). rewrite (Hu eq_refl Hue), Hue. cbn [negb]. cbv iota.
    destruct (entry_mapped pin v G _ e H E Hue) as (p & Hpm & _). simpl. unfold upage_of. rewrite Hue, Hpm. simpl.
    destruct (has e X86_PTE_RW), (has e X86_PTE_COW); split; reflexivity.
  - destruct (has pde X86_PTE_USER); split; reflexivity.
Qed.

(** The loop of a range check, on an admissible range. *)
Lemma range_check_eq v w ok okb uaddr len :
  shows v w -> (forall p, 0 <= p < 786432 -> ok (p * 4096) = Ok (okb p)) -> 0 < uaddr -> 0 < len -> uaddr + len <= KERNEL_VIRT_BASE ->
  range_check ok uaddr len = Ok (forallb okb (seqZ (vpn uaddr) (vpn (uaddr + len - 1) - vpn uaddr + 1))).
Proof.
  unfold KERNEL_VIRT_BASE. intros H Hok Hu Hl Hm. unfold range_check. rewrite basic_ok_eq by (unfold is_u32; lia).
  rewrite (proj2 (Z.eqb_neq uaddr 0)), (proj2 (Z.ltb_ge KERNEL_VIRT_BASE (uaddr + len))), (proj2 (Z.eqb_neq len 0)) by (unfold KERNEL_VIRT_BASE; lia). cbn [orb negb]. cbv iota zeta.
  rewrite (u32_small (uaddr + len - 1)) by (unfold is_u32; lia). rewrite (proj1 (page_of_va pin uaddr ltac:(unfold user_va; lia))), (proj1 (page_of_va pin (uaddr + len - 1) ltac:(unfold user_va; lia))).
  assert (Hv : 0 <= vpn uaddr <= vpn (uaddr + len - 1) /\ vpn (uaddr + len - 1) < 786432) by (unfold vpn; Z.to_euclidean_division_equations; lia).
  rewrite (range_loop_eq ok okb); [reflexivity|lia|lia|intros; apply Hok; lia|]. rewrite <- Z.mul_sub_distr_r, Z.div_mul by lia. lia.
Qed.

(** The loop that reads. *)
Lemma get_bytes_eq v w n up : shows v w -> 0 <= up -> up + Z.of_nat n <= KERNEL_VIRT_BASE ->
  get_user_bytes v n up = Ok (mapM (byte_at w) (seqZ up (Z.of_nat n))).
Proof.
  intros H. revert up. induction n as [|n IH]; intros up Hu Hm; [reflexivity|]. cbn [get_user_bytes]. rewrite seqZ_cons by lia. cbn [mapM].
  unfold KERNEL_VIRT_BASE in *. destruct H as (G & HG & Hks & Hk & ->). pose proof (load_ok pin v G false up HG Hk ltac:(unfold user_va; lia)) as Hl.
  replace (Z.pred (Z.of_nat (Datatypes.S n))) with (Z.of_nat n) by lia. set (w := World _ _ _) in *.
  assert (Eb : byte_at w up = match uview v G !! (v_cr3 v, vpn up) with Some u => match page_byte (u_data u) (up mod 4096) with Ok b => Some b | _ => None end | None => None end) by reflexivity.
  rewrite Eb. destruct (uview v G !! (v_cr3 v, vpn up)) as [u|]; [|rewrite Hl; reflexivity]. destruct Hl as (b & -> & ->).
  rewrite res_bind_ok, (IH (up + 1)), res_bind_ok by lia. unfold Z.succ. simpl. destruct (mapM _ _); reflexivity.
Qed.

(** A page of the range that is not there makes one of its bytes unreadable. *)
Lemma missing_page w src len : 0 < len -> forallb (page_there w) (seqZ (vpn src) (vpn (src + len - 1) - vpn src + 1)) = false ->
  mapM (byte_at w) (seqZ src len) = None.
Proof.
  intros Hl Hf. apply not_true_iff_false in Hf. destruct (mapM _ _) as [l|] eqn:E; [|reflexivity]. exfalso. apply Hf, forallb_forall. intros n Hn.
  apply list_elem_of_In, elem_of_seqZ in Hn. set (va := Z.max src (n * 4096)).
  assert (Hva : src <= va < src + len /\ vpn va = n) by (unfold va, vpn in *; Z.to_euclidean_division_equations; lia). destruct Hva as [Hva Ev].
  apply mapM_Some in E. assert (Hin : va ∈ seqZ src len) by (apply elem_of_seqZ; lia). apply list_elem_of_lookup in Hin as [i Hi].
  destruct (Forall2_lookup_l _ _ _ _ _ E Hi) as (b & _ & Hb). unfold byte_at in Hb. rewrite Ev in Hb. unfold page_there.
  destruct (w_mem w !! (w_cur w, n)); [reflexivity|discriminate].
Qed.

Lemma copy_from_user_eq v w src len : shows v w -> is_u32 src -> is_u32 len -> copy_from_user v src len = Ok (user_bytes w src len).
Proof.
  intros H Hs Hl. unfold copy_from_user, user_bytes. destruct (Z.eqb_spec len 0); [reflexivity|]. unfold is_u32 in *. unfold x86_user_range_mapped_and_user.
  destruct ((src =? 0) || (KERNEL_VIRT_BASE <? src + len)) eqn:E.
  - unfold range_check. rewrite basic_ok_eq, E by (unfold is_u32; auto || lia). reflexivity.
  - apply orb_false_iff in E as [E1%Z.eqb_neq E2%Z.ltb_ge]. rewrite (range_check_eq v w _ (page_there w)); [|auto|intros; apply page_checks; auto|lia|lia|auto].
    rewrite res_bind_ok. destruct (forallb _ _) eqn:Ef; cbn [negb]; cbv iota; [|rewrite missing_page by (auto; lia); reflexivity].
    rewrite (get_bytes_eq v w) by (auto; lia). rewrite Z2Nat.id by lia. reflexivity.
Qed.
End uaccess.
