(* ===== verification/Shm.v ===== *)
(** System V shared memory (src/kernel/shm.c): segments of pages that processes map,
    which take their pages from the allocator and give them back.  The lock makes each
    call one step. *)

From S2P Require Import Prelude Frames Vmm VmmInv UserMap.

Definition SHM_MAX_SEGMENTS : Z := 32.
Definition SHM_MAX_PAGES : Z := 16.
Definition IPC_CREAT : Z := 512.
Definition IPC_EXCL : Z := 1024.
Definition SHM_RDONLY : Z := 4096.
Definition IPC_RMID : Z := 0.
Definition IPC_STAT : Z := 1.
Definition IPC_SET : Z := 2.
Definition IPC_PRIVATE : Z := 0.

Record shm_segment : Type := Seg {
  sg_used : bool;
  sg_key : Z;
  sg_size : Z;
  sg_npages : Z;
  sg_pages : array Z;
  sg_nattch : Z;
  sg_marked_rm : bool;
  sg_uid : Z;
  sg_gid : Z;
  sg_mode : Z
}.

Definition no_segment : shm_segment := Seg false 0 0 0 (arr_new SHM_MAX_PAGES 0) 0 false 0 0 0.

(** [segments] *)
Definition segs : Type := array shm_segment.
Definition shm_init : segs := arr_new SHM_MAX_SEGMENTS no_segment.

(** The identity of the calling process. *)
Record ids : Type := Ids { id_uid : Z; id_euid : Z; id_gid : Z; id_egid : Z }.

Definition set_pages (pages : array Z) (g : shm_segment) : shm_segment :=
  Seg (sg_used g) (sg_key g) (sg_size g) (sg_npages g) pages (sg_nattch g) (sg_marked_rm g) (sg_uid g) (sg_gid g) (sg_mode g).
Definition set_used (b : bool) (g : shm_segment) : shm_segment :=
  Seg b (sg_key g) (sg_size g) (sg_npages g) (sg_pages g) (sg_nattch g) (sg_marked_rm g) (sg_uid g) (sg_gid g) (sg_mode g).
Definition set_nattch (n : Z) (g : shm_segment) : shm_segment :=
  Seg (sg_used g) (sg_key g) (sg_size g) (sg_npages g) (sg_pages g) n (sg_marked_rm g) (sg_uid g) (sg_gid g) (sg_mode g).
Definition set_marked (g : shm_segment) : shm_segment :=
  Seg (sg_used g) (sg_key g) (sg_size g) (sg_npages g) (sg_pages g) (sg_nattch g) true (sg_uid g) (sg_gid g) (sg_mode g).
Definition set_mode (m : Z) (g : shm_segment) : shm_segment :=
  Seg (sg_used g) (sg_key g) (sg_size g) (sg_npages g) (sg_pages g) (sg_nattch g) (sg_marked_rm g) (sg_uid g) (sg_gid g) m.

Section shm.
Context {S : Type} {FA : FrameAlloc S}.
Implicit Types v : vm S.

Definition shm_destroy (v : vm S) (g : shm_segment) : res (vm S * shm_segment) :=
  v ← for_z (Z.to_nat (sg_npages g)) 0 (fun i v => f ← arr_get (sg_pages g) i; if negb (f =? 0) then free_page v f else mret v) v;
  mret (v, no_segment).

Definition shm_perm_check (id : ids) (g : shm_segment) (perm : Z) : bool :=
  if id_euid id =? 0 then true
  else if (id_uid id =? sg_uid g) || (id_euid id =? sg_uid g) then has (sg_mode g) (Z.shiftl perm 6)
  else if (id_gid id =? sg_gid g) || (id_egid id =? sg_gid g) then has (sg_mode g) (Z.shiftl perm 3)
  else has (sg_mode g) perm.

(** The first segment with [ok]. *)
Fixpoint find_seg (n : nat) (i : Z) (s : segs) (ok : shm_segment -> bool) : res (option Z) :=
  match n with
  | O => mret None
  | Datatypes.S n => g ← arr_get s i; if ok g then mret (Some i) else find_seg n (i + 1) s ok
  end.

(** The pages of a new segment; those allocated are freed again when one fails. *)
Fixpoint alloc_seg (n : nat) (i : Z) (v : vm S) (pages : array Z) : res (bool * vm S * array Z) :=
  match n with
  | O => mret (true, v, pages)
  | Datatypes.S n =>
      '(page, v) ← alloc_page v;
      if page =? 0 then
        v ← for_z (Z.to_nat i) 0 (fun j v => f ← arr_get pages j; free_page v f) v;
        mret (false, v, pages)
      else pages ← arr_set pages i page; alloc_seg n (i + 1) v pages
  end.

Definition shm_get (v : vm S) (s : segs) (id : ids) (key size flags : Z) : res (Z * vm S * segs) :=
  if size =? 0 then mret (- EINVAL, v, s)
  else
    let npages := u32 (size + 4096 - 1) / 4096 in
    if SHM_MAX_PAGES <? npages then mret (- EINVAL, v, s)
    else
      o ← (if negb (key =? IPC_PRIVATE)
           then find_seg 32 0 s (fun g => sg_used g && (sg_key g =? key) && negb (sg_marked_rm g)) else mret None);
      match o with
      | Some i => if has flags IPC_CREAT && has flags IPC_EXCL then mret (- EEXIST, v, s) else mret (i, v, s)
      | None =>
          if negb (key =? IPC_PRIVATE) && negb (has flags IPC_CREAT) then mret (- ENOENT, v, s)
          else
            o ← find_seg 32 0 s (fun g => negb (sg_used g));
            match o with
            | None => mret (- ENOSPC, v, s)
            | Some slot =>
                g ← arr_get s slot;
                '(ok, v, pages) ← alloc_seg (Z.to_nat npages) 0 v (sg_pages g);
                let g := Seg true key size npages pages 0 false (id_uid id) (id_gid id) 384 in
                s ← arr_set s slot (if (ok : bool) then g else set_used false g);
                mret (if (ok : bool) then slot else - ENOMEM, v, s)
            end
      end.

(** The address of an attachment: an error or the address. *)
Definition shm_addr (v : vm S) (shmaddr map_len : Z) : res (Z + Z) :=
  if negb (shmaddr =? 0) then
    if has shmaddr 4095 then mret (inl (- EINVAL))
    else if (KERNEL_VIRT_BASE <=? shmaddr) || (KERNEL_VIRT_BASE <? u32 (shmaddr + map_len)) || (u32 (shmaddr + map_len) <? shmaddr)
    then mret (inl (- EINVAL))
    else mret (inr shmaddr)
  else
    vaddr ← vmm_find_free_area v 1073741824 2146435072 map_len;
    if vaddr =? 0 then mret (inl (- ENOMEM)) else mret (inr vaddr).

Definition shm_at (v : vm S) (s : segs) (p : pmem) (id : ids) (shmid shmaddr shmflg : Z) : res (Z * vm S * segs * pmem) :=
  if (shmid <? 0) || (SHM_MAX_SEGMENTS <=? shmid) then mret (- EINVAL, v, s, p)
  else
    g ← arr_get s shmid;
    if negb (sg_used g) then mret (- EINVAL, v, s, p)
    else if sg_marked_rm g then mret (- EIDRM, v, s, p)
    else if negb (shm_perm_check id g 4) then mret (- EACCES, v, s, p)
    else if negb (has shmflg SHM_RDONLY) && negb (shm_perm_check id g 2) then mret (- EACCES, v, s, p)
    else
      match find_slot empty_slot (mmaps p) 0 with
      | None => mret (- ENOMEM, v, s, p)
      | Some mslot =>
          let map_len := u32 (sg_npages g * 4096) in
          a ← shm_addr v shmaddr map_len;
          match a with
          | inl e => mret (e, v, s, p)
          | inr vaddr =>
              let map_flags := Z.lor (Z.lor VMM_FLAG_PRESENT VMM_FLAG_USER) VMM_FLAG_NX in
              let map_flags := if negb (has shmflg SHM_RDONLY) then Z.lor map_flags VMM_FLAG_RW else map_flags in
              v ← for_z (Z.to_nat (sg_npages g)) 0
                    (fun i v => f ← arr_get (sg_pages g) i; vmm_map_page_nolock v f (u32 (vaddr + i * 4096)) map_flags) v;
              s ← arr_set s shmid (set_nattch (u32 (sg_nattch g + 1)) g);
              mret (vaddr, v, s, set_mmaps (<[Z.to_nat mslot := MSlot vaddr (u32 (sg_npages g * 4096)) shmid]> (mmaps p)) p)
          end
      end.

Definition shm_dt (v : vm S) (s : segs) (p : pmem) (addr : Z) : res (Z * vm S * segs * pmem) :=
  match find_slot (fun m => (ms_base m =? addr) && (0 <? ms_length m)) (mmaps p) 0 with
  | None => mret (- EINVAL, v, s, p)
  | Some mslot =>
      m ← of_option (mmaps p !! Z.to_nat mslot);
      let npages := ms_length m / 4096 in
      let shmid := ms_shmid m in
      v ← for_z (Z.to_nat npages) 0 (fun i v => vmm_unmap_page_nolock v (u32 (addr + i * 4096))) v;
      let p := set_mmaps (<[Z.to_nat mslot := MSlot 0 0 (-1)]> (mmaps p)) p in
      if (0 <=? shmid) && (shmid <? SHM_MAX_SEGMENTS) then
        g ← arr_get s shmid;
        if sg_used g then
          let g := if 0 <? sg_nattch g then set_nattch (sg_nattch g - 1) g else g in
          '(v, g) ← (if (sg_nattch g =? 0) && sg_marked_rm g then shm_destroy v g else mret (v, g));
          s ← arr_set s shmid g;
          mret (0, v, s, p)
        else mret (0, v, s, p)
      else mret (0, v, s, p)
  end.

(** [struct shmid_ds] for IPC_STAT: [junk] is what the field that is not set holds. *)
Definition shmid_ds (g : shm_segment) (junk : Z) : list Z :=
  bytes32 (sg_size g) ++ bytes32 (sg_nattch g) ++ bytes32 (sg_key g) ++ bytes32 junk.

(** Its field [shm_perm.mode]. *)
Definition ds_mode (b : list Z) : Z :=
  match b with
  | [_; _; _; _; _; _; _; _; _; _; _; _; b0; b1; b2; b3] => b0 + 256 * b1 + 65536 * b2 + 16777216 * b3
  | _ => 0
  end.

Definition shm_ctl (v : vm S) (s : segs) (id : ids) (shmid cmd buf junk : Z) : res (Z * vm S * segs) :=
  if (shmid <? 0) || (SHM_MAX_SEGMENTS <=? shmid) then mret (- EINVAL, v, s)
  else
    g ← arr_get s shmid;
    if negb (sg_used g) then mret (- EINVAL, v, s)
    else if cmd =? IPC_STAT then
      if negb (shm_perm_check id g 4) then mret (- EACCES, v, s)
      else if negb (buf =? 0) then
        '(r, v) ← copy_to_user v buf (shmid_ds g junk);
        if r <? 0 then mret (- EFAULT, v, s) else mret (0, v, s)
      else mret (0, v, s)
    else if cmd =? IPC_RMID then
      if negb (sg_uid g =? id_uid id) && negb (id_euid id =? 0) then mret (- EPERM, v, s)
      else if sg_nattch g =? 0 then '(v, g) ← shm_destroy v g; s ← arr_set s shmid g; mret (0, v, s)
      else s ← arr_set s shmid (set_marked g); mret (0, v, s)
    else if cmd =? IPC_SET then
      if negb (sg_uid g =? id_uid id) && negb (id_euid id =? 0) then mret (- EPERM, v, s)
      else if negb (buf =? 0) then
        o ← copy_from_user v buf 16;
        match o with
        | None => mret (- EFAULT, v, s)
        | Some b => s ← arr_set s shmid (set_mode (Z.land (ds_mode b) 511) g); mret (0, v, s)
        end
      else mret (0, v, s)
    else mret (- EINVAL, v, s).
End shm.

Section shm.
Context {S : Type} {FA : FrameAlloc S}.
Implicit Types (v : vm S) (s : S) (l : list Z).

(** [s] is [s0] with the frames [l] handed out. *)
Record taken s0 l s : Prop := {
  tk_ok : fa_ok s;
  tk_nodup : NoDup l;
  tk_sub f : f ∈ l -> f ∈ fa_avail s0;
  tk_avail : fa_avail s = fa_avail s0 ∖ list_to_set l;
  tk_live f : fa_live s !! f = if bool_decide (f ∈ l) then Some 1 else fa_live s0 !! f
}.

Lemma taken_nil s0 : fa_ok s0 -> taken s0 [] s0.
Proof. intros H. split; auto; [constructor|set_solver|simpl; set_solver]. Qed.

Lemma taken_alloc s0 l s : taken s0 l s -> fa_avail s <> ∅ -> exists f s', fa_alloc s = Ok (f * 4096, s') /\ taken s0 (l ++ [f]) s' /\ 0 < f < 1048576.
Proof.
  intros [Hok Hnd Hsub Ha Hl] Hne. destruct (fa_alloc_some s Hok Hne) as (f & s' & E & Hok' & Hf & Ea & El). exists f, s'. split; [auto|].
  split; [|apply (fa_range s); auto]. rewrite Ha in Hf. apply elem_of_difference in Hf as [Hf0 Hfl]. rewrite elem_of_list_to_set in Hfl. split; auto.
  - apply NoDup_app. split; [auto|]. split; [|apply NoDup_singleton]. intros x Hx ->%list_elem_of_singleton. auto.
  - intros g [Hg| ->%list_elem_of_singleton]%elem_of_app; auto.
  - rewrite Ea, Ha, list_to_set_app_L. simpl. set_solver.
  - intros g. rewrite El. destruct (decide (g = f)) as [->|]; [rewrite lookup_insert_eq, bool_decide_eq_true_2 by set_solver; reflexivity|].
    rewrite lookup_insert_ne, Hl by auto. assert (g ∈ l ++ [f] <-> g ∈ l) as Hiff by set_solver. rewrite (bool_decide_ext _ _ Hiff). reflexivity.
Qed.

(** The first of the frames is freed. *)
Lemma taken_free s0 f l s : fa_ok s0 -> taken s0 (f :: l) s -> exists s', fa_free s (f * 4096) = Ok s' /\ taken s0 l s'.
Proof.
  intros H0 [Hok Hnd Hsub Ha Hl]. apply NoDup_cons in Hnd as [Hf Hnd]. pose proof (Hl f) as Hlf. rewrite bool_decide_eq_true_2 in Hlf by set_solver.
  destruct (fa_free_live s f Hok (mk_is_Some _ _ Hlf)) as (s' & E & Hok' & (n & Hn & Hr)). exists s'. split; [auto|]. assert (n = 1) as -> by congruence. destruct Hr as [Ea El].
  split; auto.
  - intros g Hg. apply Hsub. set_solver.
  - rewrite Ea, Ha. simpl. assert (f ∈ fa_avail s0) by (apply Hsub; set_solver). apply set_eq. intros x. destruct (decide (x = f)) as [->|]; set_solver.
  - intros g. rewrite El. destruct (decide (g = f)) as [->|].
    + rewrite lookup_delete_eq, bool_decide_eq_false_2 by auto. symmetry. apply (fa_disjoint s0); auto. apply Hsub. set_solver.
    + rewrite lookup_delete_ne, Hl by auto. assert (g ∈ f :: l <-> g ∈ l) as Hiff by set_solver. rewrite (bool_decide_ext _ _ Hiff). reflexivity.
Qed.

Lemma taken_all s0 s : fa_ok s0 -> taken s0 [] s -> fa_avail s = fa_avail s0 /\ fa_live s = fa_live s0.
Proof. intros H0 [_ _ _ Ha Hl]. split; [rewrite Ha; simpl; set_solver|]. apply map_eq. intros f. rewrite Hl. reflexivity. Qed.

(** The pages of an array from [i] on are the frames [l]. *)
Definition holds (a : array Z) (i : Z) l : Prop := forall j f, l !! j = Some f -> arr_at a (i + Z.of_nat j) = f * 4096.

(** A loop that frees the pages. *)
Lemma free_loop s0 (body : Z -> vm S -> res (vm S)) a i l v :
  fa_ok s0 -> 0 <= i -> i + Z.of_nat (length l) <= arr_len a -> holds a i l -> (forall f, f ∈ l -> 0 < f) ->
  (forall j f u, f <> 0 -> arr_get a j = Ok f -> body j u = free_page u f) -> taken s0 l (v_alloc v) ->
  exists s', for_z (length l) i body v = Ok (set_alloc s' v) /\ taken s0 [] s'.
Proof.
  intros H0 Hi Hlen Hh Hpos Hb Ht. revert i v Hi Hlen Hh Ht. induction l as [|f l IH]; intros i v Hi Hlen Hh Ht; [exists (v_alloc v); destruct v; auto|].
  cbn [length for_z]. simpl in Hlen. pose proof (Hh 0%nat f eq_refl) as Ef. rewrite Z.add_0_r in Ef. assert (0 < f) by (apply Hpos; set_solver).
  rewrite (Hb i (f * 4096)); [|lia|rewrite arr_get_ok, Ef by lia; reflexivity]. destruct (taken_free s0 f l (v_alloc v) H0 Ht) as (s' & E & Ht'). unfold free_page. rewrite E, !res_bind_ok.
  destruct (IH ltac:(set_solver) (i + 1) (set_alloc s' v)) as (s2 & E2 & Ht2); [lia|lia| |auto|].
  - intros j g Hj. specialize (Hh (Datatypes.S j) g Hj). replace (i + 1 + Z.of_nat j) with (i + Z.of_nat (Datatypes.S j)) by lia. auto.
  - exists s2. destruct v. auto.
Qed.

(** The loop that allocates: all the pages, or none. *)
Lemma alloc_seg_ok s0 n l v pages :
  fa_ok s0 -> taken s0 l (v_alloc v) -> holds pages 0 l -> (forall f, f ∈ l -> 0 < f) -> Z.of_nat (length l + n) <= arr_len pages ->
  exists ok s' pages', alloc_seg n (Z.of_nat (length l)) v pages = Ok (ok, set_alloc s' v, pages') /\ arr_len pages' = arr_len pages /\
    if ok : bool then exists l', taken s0 (l ++ l') s' /\ length l' = n /\ holds pages' 0 (l ++ l') /\ forall f, f ∈ l ++ l' -> 0 < f
    else taken s0 [] s' /\ (size (fa_avail s0) < length l + n)%nat.
Proof.
  intros H0. revert l v pages. induction n as [|n IH]; intros l v pages Ht Hh Hpos Hlen.
  - exists true, (v_alloc v), pages. split; [destruct v; reflexivity|]. split; [auto|]. exists []. rewrite app_nil_r. auto.
  - cbn [alloc_seg]. unfold alloc_page. destruct (decide (fa_avail (v_alloc v) = ∅)) as [He|Hne].
    + destruct (fa_alloc_none _ (tk_ok _ _ _ Ht) He) as (s1 & -> & Hok1 & Ea1 & El1). rewrite !res_bind_ok. cbv beta iota. rewrite Z.eqb_refl, Nat2Z.id.
      assert (Ht1 : taken s0 l s1) by (destruct Ht; split; auto; [congruence|intros f; rewrite El1; auto]).
      destruct (free_loop s0 (fun j v => f ← arr_get pages j; free_page v f) pages 0 l (set_alloc s1 v)) as (s2 & E2 & Ht2); auto; [lia|lia|intros j f u _ ->; reflexivity|].
      rewrite E2, res_bind_ok. exists false, s2, pages. split; [destruct v; reflexivity|]. split; [auto|]. split; [auto|].
      pose proof (tk_avail _ _ _ Ht) as Ha. rewrite He in Ha. assert (Hsub : fa_avail s0 ⊆ list_to_set l) by set_solver.
      apply subseteq_size in Hsub. rewrite size_list_to_set in Hsub by apply Ht. lia.
    + destruct (taken_alloc s0 l _ Ht Hne) as (f & s1 & -> & Ht1 & Hf). rewrite !res_bind_ok. cbv beta iota. rewrite (proj2 (Z.eqb_neq (f * 4096) 0)) by lia.
      rewrite arr_set_ok, res_bind_ok by lia. replace (Z.of_nat (length l) + 1) with (Z.of_nat (length (l ++ [f]))) by (rewrite length_app; simpl; lia).
      destruct (IH (l ++ [f]) (set_alloc s1 v) (arr_put pages (Z.of_nat (length l)) (f * 4096))) as (ok & s' & pages' & E & Hp & Hres).
      * exact Ht1.
      * intros j g Hj. rewrite Z.add_0_l, arr_at_put. destruct (Z.eqb_spec (Z.of_nat (length l)) (Z.of_nat j)) as [Ej|Hne2].
        -- apply Nat2Z.inj in Ej as <-. rewrite lookup_app_r, Nat.sub_diag in Hj by lia. injection Hj as <-. reflexivity.
        -- apply (Hh j). rewrite lookup_app_l in Hj; [auto|]. apply lookup_lt_Some in Hj. rewrite length_app in Hj. simpl in Hj. lia.
      * intros g [Hg| ->%list_elem_of_singleton]%elem_of_app; [auto|lia].
      * rewrite length_app, arr_len_put. simpl. lia.
      * exists ok, s', pages'. split; [rewrite E; destruct v; reflexivity|]. split; [rewrite Hp; apply arr_len_put|]. rewrite length_app in Hres. simpl in Hres.
        destruct ok; [|split; [tauto|lia]]. destruct Hres as (l' & ? & ? & ? & ?). exists (f :: l'). rewrite <- app_assoc in *. simpl. auto.
Qed.

Definition size_of_avail (v : vm S) : nat := size (fa_avail (v_alloc v)).

(** The table of segments. *)
Definition segs_ok (s : segs) : Prop := arr_len s = SHM_MAX_SEGMENTS /\ forall i, arr_len (sg_pages (arr_at s i)) = SHM_MAX_PAGES.

Lemma find_seg_eq (s : segs) ok n i : 0 <= i -> i + Z.of_nat n <= arr_len s ->
  exists o, find_seg n i s ok = Ok o /\ match o with
    | Some j => i <= j < i + Z.of_nat n /\ ok (arr_at s j) = true /\ forall k, i <= k < j -> ok (arr_at s k) = false
    | None => forall k, i <= k < i + Z.of_nat n -> ok (arr_at s k) = false
    end.
Proof.
  revert i. induction n as [|n IH]; intros i Hi Hn; [exists None; split; [reflexivity|lia]|]. cbn [find_seg]. rewrite arr_get_ok, res_bind_ok by lia.
  destruct (ok (arr_at s i)) eqn:E.
  - exists (Some i). split; [reflexivity|]. split; [lia|]. split; [auto|lia].
  - destruct (IH (i + 1)) as (o & -> & Ho); [lia|lia|]. exists o. split; [reflexivity|]. destruct o as [j|].
    + destruct Ho as (Hj & Hok & Hmin). split; [lia|]. split; [auto|]. intros k Hk. destruct (decide (k = i)) as [->|]; [auto|apply Hmin; lia].
    + intros k Hk. destruct (decide (k = i)) as [->|]; [auto|apply Ho; lia].
Qed.

Definition seg_free (g : shm_segment) : bool := negb (sg_used g).

(** The number of pages of a segment. *)
Definition seg_pages (size : Z) : Z := (size + 4095) / 4096.

(** A private segment: the first free slot and as many pages as the size needs, all
    of them or none. *)
Lemma shm_get_private v (s : segs) id size flags :
  fa_ok (v_alloc v) -> segs_ok s -> 0 < size <= 65536 ->
  (exists slot s' l pages, 0 <= slot < 32 /\ seg_free (arr_at s slot) = true /\ (forall k, 0 <= k < slot -> seg_free (arr_at s k) = false) /\
     arr_len pages = 16 /\ holds pages 0 l /\ length l = Z.to_nat (seg_pages size) /\ (forall f, f ∈ l -> 0 < f) /\ taken (v_alloc v) l s' /\
     shm_get v s id IPC_PRIVATE size flags = Ok (slot, set_alloc s' v, arr_put s slot (Seg true IPC_PRIVATE size (seg_pages size) pages 0 false (id_uid id) (id_gid id) 384))) \/
  (exists s' (t : segs) slot, shm_get v s id IPC_PRIVATE size flags = Ok (- ENOMEM, set_alloc s' v, t) /\ (size_of_avail v < Z.to_nat (seg_pages size))%nat /\
     fa_avail s' = fa_avail (v_alloc v) /\ fa_live s' = fa_live (v_alloc v) /\ seg_free (arr_at s slot) = true /\ (exists g, t = arr_put s slot g /\ seg_free g = true)) \/
  (shm_get v s id IPC_PRIVATE size flags = Ok (- ENOSPC, v, s) /\ forall k, 0 <= k < 32 -> seg_free (arr_at s k) = false).
Proof.
  intros H0 [Hlen Hpg] Hsz. unfold SHM_MAX_SEGMENTS, SHM_MAX_PAGES in *. assert (Hn : 1 <= seg_pages size <= 16) by (unfold seg_pages; Z.to_euclidean_division_equations; lia).
  assert (En : u32 (size + 4096 - 1) / 4096 = seg_pages size) by (rewrite u32_small by (unfold is_u32; lia); unfold seg_pages; f_equal; lia).
  unfold shm_get, IPC_PRIVATE. rewrite (proj2 (Z.eqb_neq size 0)), En by lia. cbv zeta. unfold SHM_MAX_PAGES. rewrite (proj2 (Z.ltb_ge 16 (seg_pages size))) by lia. simpl (0 =? 0). cbn [negb andb]. cbv iota.
  rewrite !res_bind_ok. destruct (find_seg_eq s seg_free 32 0) as (o & Eo & Ho); [lia|lia|]. unfold seg_free in Eo. rewrite Eo, res_bind_ok. simpl Z.of_nat in Ho.
  destruct o as [slot|]; [|right; right; split; [reflexivity|intros k Hk; apply Ho; lia]]. destruct Ho as (Hs & Hfree & Hmin). rewrite arr_get_ok, res_bind_ok by lia.
  destruct (alloc_seg_ok (v_alloc v) (Z.to_nat (seg_pages size)) [] v (sg_pages (arr_at s slot))) as (ok & s' & pages & E & Hp & Hres); auto.
  { apply taken_nil, H0. } { intros j f Hj. discriminate. } { set_solver. } { rewrite Hpg. simpl. lia. }
  change (Z.of_nat (length [])) with 0 in E. rewrite E, res_bind_ok. cbv beta iota. rewrite arr_set_ok, res_bind_ok by lia. destruct ok.
  - left. destruct Hres as (l & Ht & Hl & Hh & Hpos). exists slot, s', l, pages. rewrite Hp, Hpg. repeat (split; [solve [auto | lia | intros; apply Hmin; lia]|]). reflexivity.
  - right. left. destruct Hres as (Ht & Hlt). destruct (taken_all _ _ H0 Ht) as [Ea El]. eexists s', _, slot. split; [reflexivity|]. split; [exact Hlt|]. split; [auto|]. split; [auto|]. split; [auto|].
    eexists. split; [reflexivity|reflexivity].
Qed.

(** IPC_RMID of a segment that is not attached gives its pages back. *)
Lemma shm_rmid_ok s0 v (s : segs) id slot g l junk :
  fa_ok s0 -> arr_len s = 32 -> 0 <= slot < 32 -> arr_at s slot = g -> sg_used g = true -> sg_uid g = id_uid id -> sg_nattch g = 0 -> sg_npages g = Z.of_nat (length l) ->
  Z.of_nat (length l) <= arr_len (sg_pages g) -> holds (sg_pages g) 0 l -> (forall f, f ∈ l -> 0 < f) -> taken s0 l (v_alloc v) ->
  exists s', shm_ctl v s id slot IPC_RMID 0 junk = Ok (0, set_alloc s' v, arr_put s slot no_segment) /\ fa_avail s' = fa_avail s0 /\ fa_live s' = fa_live s0.
Proof.
  intros H0 Hlen Hs Hg Hu Huid Hna Hn Hpl Hh Hpos Ht. unfold shm_ctl, SHM_MAX_SEGMENTS, IPC_RMID, IPC_STAT.
  rewrite (proj2 (Z.ltb_ge slot 0)), (proj2 (Z.leb_gt 32 slot)) by lia. cbn [orb]. cbv iota. rewrite arr_get_ok, res_bind_ok, Hg, Hu by lia. cbn [negb]. cbv iota. simpl (0 =? 1). simpl (0 =? 0). cbv iota.
  rewrite Huid, Z.eqb_refl, Hna. cbn [negb andb]. cbv iota. simpl (0 =? 0). cbv iota. unfold shm_destroy. rewrite Hn, Nat2Z.id.
  destruct (free_loop s0 (fun i v => f ← arr_get (sg_pages g) i; if negb (f =? 0) then free_page v f else mret v) (sg_pages g) 0 l v) as (s' & E & Ht'); auto; [lia| |].
  { intros j f u Hf ->. rewrite res_bind_ok, (proj2 (Z.eqb_neq f 0)) by auto. reflexivity. }
  rewrite E, !res_bind_ok. cbv beta iota. rewrite arr_set_ok, res_bind_ok by lia. exists s'. split; [reflexivity|]. apply taken_all; auto.
Qed.
End shm.
