(* ===== verification/VmmTheorems.v ===== *)
(** The theorems about virtual memory: processes have the memories of the abstract
    machine, apart from the ways found around it.  The witnesses run on a small
    machine: 64 frames or only 13, the tables of the kernel in frames 1 to 5, and one
    process. *)

From S2P Require Import Prelude Pmm Frames Vmm VmmInv VmmOps VmmSpace VmmUser VmmFork VmmDestroy UserMap VmmSim UserMapSpec Shm.

(** Frames 0 to 5 are in use. *)
Definition boot_frames (tiny : bool) : Z := if tiny then 13 else 64.
Definition boot_pmm (tiny : bool) : pmm :=
  Pmm (arr_put (arr_new BITMAP_SIZE 0) 0 63) (arr_new MAX_FRAMES 0) (boot_frames tiny * 4096) 24576 (boot_frames tiny) 1.

Lemma boot_pmm_ok tiny : pmm_ok (boot_pmm tiny).
Proof.
  assert (Hrc : forall f, rc_of (boot_pmm tiny) f = 0) by (intros; apply arr_at_new).
  split; [reflexivity | reflexivity | | | | | | destruct tiny; vm_compute; reflexivity].
  - intros i. unfold boot_pmm, memory_bitmap. rewrite arr_at_put, arr_at_new. bdestr; split; lia.
  - intros f. rewrite Hrc. split; lia.
  - pmm_consts. unfold boot_pmm, boot_frames, max_frames. destruct tiny; lia.
  - pmm_consts. simpl. lia.
  - intros f _. rewrite Hrc. lia.
Qed.

(** The pages of the kernel's tables: the top level and the last directory, which holds
    the entries of the recursive mapping. *)
Fixpoint puts (p : array Z) (i : Z) (l : list Z) : array Z :=
  match l with [] => p | x :: l => puts (arr_put p i x) (i + 1) l end.
Definition boot_top : array Z := puts zero_page 0 [8193; 12289; 16385; 20481].
Definition boot_dir3 : array Z := puts zero_page 508 [8195; 12291; 16387; 20483].
Definition boot_mem : gmap Z (array Z) :=
  <[4096 := boot_top]> (<[20480 := boot_dir3]> (list_to_map ((fun n => (n * 4096, zero_page)) <$> seqZ 1 63))).

Definition boot_vm (tiny wp nxe : bool) : vm pmm := Vm (boot_pmm tiny) boot_mem 4096 wp 4096 nxe.
Definition no_tables : tables := Tables ∅ ∅ ∅ ∅ ∅.
Definition boot_tables : tables := add_space 4096 8192 12288 16384 20480 no_tables.

Lemma boot_full n : 0 < n < 64 -> full boot_mem (n * 4096).
Proof.
  intros Hn. unfold boot_mem. destruct (decide (n * 4096 = 4096)) as [->|]; [exists boot_top; split; [apply lookup_insert_eq|reflexivity]|].
  destruct (decide (n * 4096 = 20480)) as [->|]; [exists boot_dir3; split; [rewrite lookup_insert_ne, lookup_insert_eq by lia; reflexivity|reflexivity]|].
  exists zero_page. split; [|reflexivity]. rewrite !lookup_insert_ne by lia. apply elem_of_list_to_map_1.
  - rewrite <- list_fmap_compose. apply NoDup_fmap_2; [|apply NoDup_seqZ]. intros x y E. simpl in E. lia.
  - apply list_elem_of_fmap. exists n. split; [reflexivity|]. apply elem_of_seqZ. lia.
Qed.

Lemma shape_none m : shape m no_tables.
Proof. split; [split|..]; simpl; intros; try set_solver; simplify_map_eq. Qed.

Lemma boot_shape : shape boot_mem boot_tables.
Proof.
  apply shape_add_space.
  - apply shape_none.
  - set_solver.
  - apply (bool_decide_unpack _). vm_compute. exact I.
  - assert (Hh : forall n, 0 < n < 64 -> exists n', n * 4096 = n' * 4096 /\ 0 < n' < 1048576 /\ full boot_mem (n * 4096)).
    { intros n Hn. exists n. split; [reflexivity|]. split; [lia|apply boot_full, Hn]. }
    intros f Hf. split; [reflexivity|]. set_unfold in Hf. destruct Hf as [-> | [-> | [-> | [-> | [-> | []]]]]];
      [apply (Hh 1)|apply (Hh 2)|apply (Hh 3)|apply (Hh 4)|apply (Hh 5)]; lia.
  - intros i d Hd Hi. assert (i < 4) by (apply lookup_lt_Some in Hd; simpl in Hd; lia). unfold points.
    assert (Hi4 : i = 0 \/ i = 1 \/ i = 2 \/ i = 3) by lia. destruct Hi4 as [-> | [-> | [-> | ->]]]; injection Hd as <-; (split; eexists; (split; [vm_compute; reflexivity|vm_compute; auto])).
  - intros d k Hd Hk. assert (boot_mem !! d = Some zero_page) as E by (set_unfold in Hd; destruct Hd as [-> | [-> | [-> | []]]]; vm_compute; reflexivity).
    unfold word. rewrite E, arr_in_true by (simpl; lia). apply f_equal, arr_at_new.
Qed.

Lemma boot_live tiny f : live (frames_of (boot_pmm tiny)) !! f = None.
Proof. destruct (live (frames_of (boot_pmm tiny)) !! f) as [n|] eqn:E; [|reflexivity]. apply live_some in E as (_ & Hr & _). unfold rc_of, boot_pmm in Hr. simpl in Hr. rewrite arr_at_new in Hr. lia. Qed.

Lemma boot_user_ok tiny wp nxe : user_ok (fun _ => 0%nat) (boot_vm tiny wp nxe) boot_tables.
Proof.
  assert (Hown : forall n r, t_own boot_tables !! (n * 4096) = Some r -> 0 < n < 6 /\ role_as r = 4096).
  { intros n r Hr. simpl in Hr. repeat (apply lookup_insert_Some in Hr as [[Hn <-]|[_ Hr]]; [split; [lia|reflexivity]|]). discriminate. }
  split; try discriminate; auto.
  - split.
    + apply boot_shape.
    + set_solver.
    + apply boot_pmm_ok.
    + intros n r Hr. apply Hown in Hr as [Hn Hrole]. split; [|intros Hx; destruct (Hx Hrole)]. intros [_ Hu]%(elem_of_avail (boot_pmm tiny)).
      assert (Hn5 : n = 1 \/ n = 2 \/ n = 3 \/ n = 4 \/ n = 5) by lia. destruct tiny, Hn5 as [-> | [-> | [-> | [-> | ->]]]]; vm_compute in Hu; discriminate.
    + intros n [Hn|[c Hc]]; [|change (live (frames_of (boot_pmm tiny)) !! n = Some c) in Hc; rewrite boot_live in Hc; discriminate]. apply (elem_of_avail (boot_pmm tiny)) in Hn as [Hn _]. apply boot_full. unfold in_frames, boot_pmm, boot_frames, max_frames in Hn. destruct tiny; lia.
  - intros f c Hc. change (live (frames_of (boot_pmm tiny)) !! f = Some c) in Hc. rewrite boot_live in Hc. discriminate.
Qed.

Lemma boot_avail tiny : size (avail (frames_of (boot_pmm tiny))) = (if tiny then 7 else 58)%nat.
Proof. destruct tiny; vm_compute; reflexivity. Qed.

(** ** A process *)

Definition demo_as : Z := 24576.
Definition demo_vm (tiny wp nxe : bool) : vm pmm :=
  match vmm_as_create_kernel_clone (boot_vm tiny wp nxe) with Ok (a, v) => vmm_as_activate a v | _ => boot_vm tiny wp nxe end.
Definition demo_world : world := World ∅ {[demo_as]} demo_as.

Lemma demo_create tiny wp nxe : exists v, vmm_as_create_kernel_clone (boot_vm tiny wp nxe) = Ok (demo_as, v).
Proof.
  assert (H : match vmm_as_create_kernel_clone (boot_vm tiny wp nxe) with Ok (a, _) => a =? demo_as | _ => false end = true) by (destruct tiny, wp, nxe; vm_compute; reflexivity).
  destruct (vmm_as_create_kernel_clone (boot_vm tiny wp nxe)) as [[a v]| |]; try discriminate. apply Z.eqb_eq in H as ->. eauto.
Qed.

Lemma demo_shows tiny wp nxe : shows (fun _ => 0%nat) (demo_vm tiny wp nxe) demo_world /\ ((if tiny then 1 else 52) <= free_frames_of (demo_vm tiny wp nxe))%nat /\
  v_wp (demo_vm tiny wp nxe) = wp /\ v_nxe (demo_vm tiny wp nxe) = nxe.
Proof.
  pose proof (boot_user_ok tiny wp nxe) as H. destruct (demo_create tiny wp nxe) as (v' & E).
  destruct (create_ok (boot_vm tiny wp nxe) boot_tables (us_vm _ _ _ H)) as (a & v1 & G1 & N & E1 & H1 & X & HszN & Hnsp & Hs1 & Hp1 & _ & _); [reflexivity| |].
  { change (6 <= size (avail (frames_of (boot_pmm tiny))))%nat. rewrite boot_avail. destruct tiny; lia. }
  rewrite E in E1. injection E1 as <- <-. destruct (user_ok_extends _ _ boot_tables v' G1 N H H1 X Hp1) as [Hu1 Hv1].
  pose proof (ex_regs _ _ _ _ _ X) as (Ecr & Ewp & Eka & Enx). assert (Hin : demo_as ∈ t_sp G1) by (rewrite Hs1; set_solver).
  unfold demo_vm. rewrite E, (activate_eq v' G1) by auto. split; [|split; [|auto]].
  - exists G1. simpl. rewrite Eka, Hs1. split; [apply user_ok_cr3; auto|]. split; [simpl; set_solver|]. split; [simpl; unfold demo_as; lia|].
    assert (({[demo_as]} ∪ t_sp boot_tables) ∖ {[4096]} = ({[demo_as]} : gset Z)) as Esp by (vm_compute; reflexivity).
    change (uview (set_cr3 demo_as v') G1) with (uview v' G1). rewrite Hv1. unfold demo_world. rewrite <- Esp. reflexivity.
  - unfold free_frames_of. change (v_alloc (set_cr3 demo_as v')) with (v_alloc v'). rewrite (ex_avail _ _ _ _ _ X), size_difference by apply X.
    change (fa_avail (v_alloc (boot_vm tiny wp nxe))) with (avail (frames_of (boot_pmm tiny))). rewrite boot_avail. destruct tiny; lia.
Qed.

(** ** Helpers for the examples *)

Definition no_pin (_ : Z) : nat := 0%nat.
Definition demo_pmem : pmem := Pmem 134217728 134217728 (repeat (MSlot 0 0 (-1)) 32).
Definition demo_file (_ : Z) : @fd_node pmm := NoFile.

Lemma demo_live wp nxe f c : fa_live (v_alloc (demo_vm false wp nxe)) !! f = Some c -> c < 32768.
Proof.
  assert (H : map_Forall (fun _ c => c < 32768) (live (frames_of (v_alloc (demo_vm false wp nxe))))) by (apply (bool_decide_unpack _); destruct wp, nxe; vm_compute; exact I).
  intros Hf. exact (H f c Hf).
Qed.

Lemma demo_mapped : (2 <=? Z.of_nat (free_frames_of (match mrun (MMap 262144 262145 3) (demo_vm false false true) with Ok (_, v) => v | _ => demo_vm false false true end))) = true.
Proof. vm_compute. reflexivity. Qed.

(** ** Separate memories *)

Section memories.
Context {S : Type} {FA : FrameAlloc S} (pin : Z -> nat).

(** C3: a sequence of the seven operations of [mop] - a store or a load by the running
    process, a fork, a switch to another process, the end of a process that does not run,
    mapping fresh pages and unmapping pages - returns and does exactly what it does on a
    machine where every process has a memory of its own: the page tables, the reference
    counts and copy on write are not visible.  This holds for any page allocator that meets
    its interface, while each operation finds what it needs ([mpre]): two free frames for a
    store, the directories and tables of the child for a fork and no frame shared 32768
    times, and for fresh pages at most 1024 of them, where nothing is mapped, with two free
    frames for each, writable where CR0.WP is set.  The calls that change protections or
    write to a process from the kernel are not among the seven. *)
Theorem processes_refine_memories (ops : list mop) (v : vm S) (w : world) :
  shows pin v w -> mpres pin v w ops ->
  exists rs v' w', mruns ops v = Ok (rs, v') /\ msteps (v_nxe v) w ops rs w' /\ shows pin v' w'.
Proof. apply mruns_simulate. Qed.

(** C4: a sequence of these seven operations, under the same conditions ([mpres]), leaves
    the memory of a process unchanged, byte for byte, when the process neither runs one of
    those that write nor ends; also what its parent and its children do to pages still
    shared with it.  Two other paths do reach the memory of another process:
    [copy_to_user_writes_through] and [mprotect_breaks_copy_on_write]. *)
Theorem memory_isolated (ops : list mop) (v : vm S) (w : world) (a : Z) :
  shows pin v w -> mpres pin v w ops -> a ∈ w_spaces w -> untouched (w_cur w) ops a = true ->
  exists rs v' w', mruns ops v = Ok (rs, v') /\ shows pin v' w' /\ a ∈ w_spaces w' /\ forall n, w_mem w' !! (a, n) = w_mem w !! (a, n).
Proof.
  intros H Hp Ha Hu. destruct (mruns_simulate pin ops v w H Hp) as (rs & v' & w' & E & Hs & H'). exists rs, v', w'.
  destruct (msteps_frame _ _ _ _ _ a Hs Ha Hu). auto.
Qed.
End memories.

Lemma processes_refine_memories_witness :
  exists rs v' w', mruns [MMap 262144 262145 3; MStore 1073741824 1] (demo_vm false false true) = Ok (rs, v') /\
    msteps true demo_world [MMap 262144 262145 3; MStore 1073741824 1] rs w' /\ shows no_pin v' w'.
Proof.
  destruct (demo_shows false false true) as (H & Hsz & _ & Enx).
  destruct (processes_refine_memories no_pin [MMap 262144 262145 3; MStore 1073741824 1] (demo_vm false false true) demo_world H) as (rs & v' & w' & E & Hs & H').
  - split.
    + split; [lia|]. split; [lia|]. split; [lia|]. split; [simpl; lia|]. split; [reflexivity|]. reflexivity.
    + intros r v1 w1 E1 _ H1. split; [|intros; exact I]. split; [unfold user_va; lia|]. pose proof demo_mapped as Hm. rewrite E1 in Hm. apply Z.leb_le in Hm. lia.
  - rewrite Enx in Hs. exists rs, v', w'. auto.
Defined.

Lemma memory_isolated_witness :
  exists rs v' w', mruns [MFork; MLoad 1073741824] (demo_vm false false true) = Ok (rs, v') /\ shows no_pin v' w' /\ demo_as ∈ w_spaces w' /\
    forall n, w_mem w' !! (demo_as, n) = w_mem demo_world !! (demo_as, n).
Proof.
  destruct (demo_shows false false true) as (H & Hsz & _ & _).
  apply (memory_isolated no_pin [MFork; MLoad 1073741824] (demo_vm false false true) demo_world demo_as H); [|change (demo_as ∈ ({[demo_as]} : gset Z)); apply elem_of_singleton; reflexivity|reflexivity].
  split; [split; [change (tables_of demo_world) with (∅ : gset Z); rewrite size_empty; lia|apply demo_live]|].
  intros r v1 w1 _ _ _. split; [simpl; unfold user_va; lia|intros; exact I].
Defined.

(** ** Mappings *)

Section calls.
Context {S : Type} {FA : FrameAlloc S} (pin : Z -> nat).

(** C9: an anonymous mmap of at most 4 MB without an address of its own, while there are two
    free frames for each of its pages (and it asks for writing where CR0.WP is set), takes
    the lowest free area of the region for mappings that is large enough and the first free
    slot of the process, shows pages of zeros there and changes no other page of any
    process; it then fails with ENOMEM, and changes nothing, only when there is no such area
    or no slot.  Short of frames it fails, or faults ([mmap_faults_without_table]). *)
Theorem mmap_takes_lowest_area (v : vm S) (w : world) (p : pmem) (addr length prot flags fd offset : Z) (fd_get : Z -> fd_node) :
  shows pin v w -> 0 < length <= 4194304 -> has flags MAP_ANONYMOUS = true -> has flags MAP_FIXED = false ->
  let pages := (length + 4095) / 4096 in
  (2 * Z.to_nat pages <= free_frames_of v)%nat -> negb (v_wp v) || has prot PROT_WRITE = true ->
  (exists n slot v' w' m0, lowest_run (unmapped w) 262144 524032 pages n /\ mmaps p !! slot = Some m0 /\ empty_slot m0 = true /\
     (forall k x, (k < slot)%nat -> mmaps p !! k = Some x -> empty_slot x = false) /\
     syscall_mmap_impl v p addr length prot flags fd offset fd_get = Ok (n * 4096, v', set_mmaps (<[slot := MSlot (n * 4096) (pages * 4096) (-1)]> (mmaps p)) p) /\
     shows pin v' w' /\ replaced w n (n + pages) (Some (fresh_upage prot (v_nxe v))) w' /\ same_regs v v') \/
  (syscall_mmap_impl v p addr length prot flags fd offset fd_get = Ok (- ENOMEM, v, p) /\
     (no_run (unmapped w) 262144 524032 pages \/ forall x, x ∈ mmaps p -> empty_slot x = false)).
Proof. apply mmap_ok. Qed.

(** C10: munmap of what such an anonymous mmap returned - at most 4 MB, without an address of
    its own, with two free frames for each page - restores the memory of every process and
    the process's table of mappings, when the free slots of that table are clear and the
    slots in use begin at mapped pages. *)
Theorem munmap_undoes_mmap (v : vm S) (w : world) (p p1 : pmem) (addr length prot flags fd offset r : Z) (fd_get : Z -> fd_node) (v1 : vm S) :
  shows pin v w -> 0 < length <= 4194304 -> has flags MAP_ANONYMOUS = true -> has flags MAP_FIXED = false ->
  (2 * Z.to_nat ((length + 4095) / 4096) <= free_frames_of v)%nat -> negb (v_wp v) || has prot PROT_WRITE = true ->
  (forall x, x ∈ mmaps p -> empty_slot x = true -> x = MSlot 0 0 (-1)) ->
  (forall x n, x ∈ mmaps p -> empty_slot x = false -> ms_base x = n * 4096 -> unmapped w n = false) ->
  syscall_mmap_impl v p addr length prot flags fd offset fd_get = Ok (r, v1, p1) -> 0 <= r ->
  exists v2, syscall_munmap_impl v1 p1 r length = Ok (0, v2, p) /\ shows pin v2 w.
Proof.
  intros H Hl Han Hfx Hsz Hwp Hempty Hbusy E Hr.
  destruct (mmap_ok pin v w p addr length prot flags fd offset fd_get H Hl Han Hfx Hsz Hwp) as [(n & slot & v' & w' & m0 & Hrun & Hm0 & He0 & Hmin & E' & H' & Hrep & _)|(E' & _)].
  2: { rewrite E' in E. injection E as <- <- <-. unfold ENOMEM in Hr. lia. }
  rewrite E' in E. injection E as <- <- <-. set (pages := (length + 4095) / 4096) in *. destruct Hrun as (Hn1 & Hn2 & Hfree & _).
  assert (Hp : 1 <= pages) by (unfold pages; Z.to_euclidean_division_equations; lia). assert (Hm0' : m0 = MSlot 0 0 (-1)) by (apply Hempty; [eapply list_elem_of_lookup_2; eauto|auto]).
  pose proof (lookup_lt_Some _ _ _ Hm0) as Hlt.
  destruct (munmap_ok pin v' w' (set_mmaps (<[slot := MSlot (n * 4096) (pages * 4096) (-1)]> (mmaps p)) p) n pages length slot H') as (v2 & w2 & E2 & H2 & Hrep2 & _); try lia; auto.
  - apply list_lookup_insert_eq, Hlt.
  - intros k x Hk Hx Hb _. simpl in Hx. rewrite list_lookup_insert_ne in Hx by lia. pose proof (Hbusy x n (list_elem_of_lookup_2 _ _ _ Hx) (Hmin k x Hk Hx) Hb) as Hu. rewrite (Hfree n) in Hu by lia. discriminate.
  - exists v2. split.
    + rewrite E2. f_equal. f_equal. destruct p as [hs hb ms]. unfold set_mmaps. simpl in *. f_equal. rewrite list_insert_insert_eq. apply list_insert_id. congruence.
    + destruct Hrep as (Es1 & Ec1 & Hm1), Hrep2 as (Es2 & Ec2 & Hm2). assert (w2 = w) as <-; [|auto]. destruct w as [M sp cur], w' as [M1 sp1 cur1], w2 as [M2 sp2 cur2]. simpl in *. subst. f_equal.
      apply map_eq. intros [b q]. rewrite Hm2, Hm1. destruct (in_pages cur n (n + pages) (b, q)) eqn:Ei; [|reflexivity]. apply in_pages_true in Ei as [Eb Hq]. simpl in Eb, Hq. subst b.
      specialize (Hfree q Hq). apply bool_decide_eq_true in Hfree. symmetry. exact Hfree.
Qed.

(** brk moves the break to the address asked for; growing shows pages of zeros up to
    the new break, shrinking gives the pages above it back, and no other page of any
    process changes. *)
Theorem brk_moves_break (v : vm S) (w : world) (p : pmem) (addr : Z) :
  shows pin v w -> 0 < heap_start p <= heap_break p -> heap_break p < USER_STACK_BASE -> heap_start p <= addr < USER_STACK_BASE ->
  let o := brk_page (heap_break p) in let n := brk_page addr in
  n - o <= 1024 -> (2 * Z.to_nat (n - o) <= free_frames_of v)%nat -> (forall q, o <= q < n -> unmapped w q = true) ->
  exists v' w', syscall_brk_impl v p addr = Ok (addr, v', set_break addr p) /\ shows pin v' w' /\
    (if o <=? n then replaced w o n (Some (fresh_upage PROT_WRITE (v_nxe v))) w' else replaced w n o None w').
Proof. apply brk_ok. Qed.

(** C11: copy_from_user returns exactly the bytes the process sees when the whole range is
    mapped, below the kernel and does not start at null, and fails otherwise. *)
Theorem copy_from_user_exact (v : vm S) (w : world) (src len : Z) :
  shows pin v w -> is_u32 src -> is_u32 len -> copy_from_user v src len = Ok (user_bytes w src len).
Proof. apply copy_from_user_eq. Qed.
End calls.

Lemma mmap_takes_lowest_area_witness :
  (exists n slot v' w' m0, lowest_run (unmapped demo_world) 262144 524032 2 n /\ mmaps demo_pmem !! slot = Some m0 /\ empty_slot m0 = true /\
     (forall k x, (k < slot)%nat -> mmaps demo_pmem !! k = Some x -> empty_slot x = false) /\
     syscall_mmap_impl (demo_vm false false true) demo_pmem 0 5000 3 MAP_ANONYMOUS (-1) 0 demo_file = Ok (n * 4096, v', set_mmaps (<[slot := MSlot (n * 4096) (2 * 4096) (-1)]> (mmaps demo_pmem)) demo_pmem) /\
     shows no_pin v' w' /\ replaced demo_world n (n + 2) (Some (fresh_upage 3 (v_nxe (demo_vm false false true)))) w' /\ same_regs (demo_vm false false true) v') \/
  (syscall_mmap_impl (demo_vm false false true) demo_pmem 0 5000 3 MAP_ANONYMOUS (-1) 0 demo_file = Ok (- ENOMEM, demo_vm false false true, demo_pmem) /\
     (no_run (unmapped demo_world) 262144 524032 2 \/ forall x, x ∈ mmaps demo_pmem -> empty_slot x = false)).
Proof.
  destruct (demo_shows false false true) as (H & Hsz & _ & _).
  apply (mmap_takes_lowest_area no_pin (demo_vm false false true) demo_world demo_pmem 0 5000 3 MAP_ANONYMOUS (-1) 0 demo_file H); [lia|reflexivity|reflexivity|simpl; lia|reflexivity].
Defined.

(** What the demo process maps. *)
Lemma demo_mmap : exists v1 p1, syscall_mmap_impl (demo_vm false false true) demo_pmem 0 5000 3 MAP_ANONYMOUS (-1) 0 demo_file = Ok (1073741824, v1, p1).
Proof.
  assert (H : match syscall_mmap_impl (demo_vm false false true) demo_pmem 0 5000 3 MAP_ANONYMOUS (-1) 0 demo_file with Ok (r, _, _) => r =? 1073741824 | _ => false end = true) by (vm_compute; reflexivity).
  destruct (syscall_mmap_impl _ _ _ _ _ _ _ _ _) as [[[r v1] p1]| |]; try discriminate. apply Z.eqb_eq in H as ->. eauto.
Qed.

Lemma demo_slots x : x ∈ mmaps demo_pmem -> x = MSlot 0 0 (-1).
Proof. intros Hx. simpl in Hx. repeat (apply elem_of_cons in Hx as [->|Hx]; [reflexivity|]). set_solver. Qed.

Lemma munmap_undoes_mmap_witness :
  exists v1 p1 v2, syscall_mmap_impl (demo_vm false false true) demo_pmem 0 5000 3 MAP_ANONYMOUS (-1) 0 demo_file = Ok (1073741824, v1, p1) /\
    syscall_munmap_impl v1 p1 1073741824 5000 = Ok (0, v2, demo_pmem) /\ shows no_pin v2 demo_world.
Proof.
  destruct (demo_shows false false true) as (H & Hsz & _ & _). destruct demo_mmap as (v1 & p1 & E). exists v1, p1.
  destruct (munmap_undoes_mmap no_pin (demo_vm false false true) demo_world demo_pmem p1 0 5000 3 MAP_ANONYMOUS (-1) 0 1073741824 demo_file v1 H) as (v2 & E2 & H2);
    [lia|reflexivity|reflexivity|simpl; lia|reflexivity|intros x Hx _; apply demo_slots, Hx|intros x n Hx He; rewrite (demo_slots x Hx) in He; discriminate|exact E|lia|].
  exists v2. auto.
Defined.

Lemma brk_moves_break_witness :
  exists v' w', syscall_brk_impl (demo_vm false false true) demo_pmem 134222000 = Ok (134222000, v', set_break 134222000 demo_pmem) /\ shows no_pin v' w' /\
    replaced demo_world 32768 32770 (Some (fresh_upage PROT_WRITE (v_nxe (demo_vm false false true)))) w'.
Proof.
  destruct (demo_shows false false true) as (H & Hsz & _ & _).
  destruct (brk_moves_break no_pin (demo_vm false false true) demo_world demo_pmem 134222000 H) as (v' & w' & E & H' & Hr);
    [simpl; lia|reflexivity|simpl; unfold USER_STACK_BASE; lia|vm_compute; discriminate|change (2 * 2 <= free_frames_of (demo_vm false false true))%nat; lia|reflexivity|].
  exists v', w'. auto.
Defined.

Lemma copy_from_user_exact_witness :
  copy_from_user (demo_vm false false true) 1073741824 4 = Ok None /\ user_bytes demo_world 1073741824 4 = None.
Proof.
  assert (E : user_bytes demo_world 1073741824 4 = None) by (vm_compute; reflexivity). split; [|exact E]. rewrite <- E.
  destruct (demo_shows false false true) as (H & _). apply (copy_from_user_exact no_pin (demo_vm false false true) demo_world 1073741824 4 H); unfold is_u32; lia.
Defined.

(** ** Lack of memory *)

Section oom.
Context {S : Type} {FA : FrameAlloc S} (pin : Z -> nat).

(** C12: a fork without the five pages of a new address space reports failure, gives back
    what it took, and changes the memory of no process. *)
Theorem fork_oom_changes_nothing (v : vm S) (w : world) :
  shows pin v w -> (free_frames_of v < 5)%nat ->
  exists v', mrun MFork v = Ok (0, v') /\ shows pin v' w /\ fa_avail (v_alloc v') = fa_avail (v_alloc v) /\ fa_live (v_alloc v') = fa_live (v_alloc v).
Proof.
  intros (G & H & Hks & Hk & ->) Hsz. pose proof (us_vm _ _ _ H) as Hvm. destruct (create_oom v G Hvm Hsz) as (s' & E & H' & Ea & El).
  exists (set_alloc s' v). destruct (sp_frame v G _ Hvm (vk_cur _ _ Hvm)) as (n & En & Hn). split; [|split; [|auto]].
  - unfold mrun, vmm_as_clone_user_cow. rewrite (proj2 (Z.eqb_neq (v_cr3 v) 0)) by lia. rewrite E, res_bind_ok. reflexivity.
  - exists G. split; [apply user_ok_alloc; auto|auto].
Qed.
End oom.

Lemma tiny_free : (Z.of_nat (free_frames_of (demo_vm true false true)) <? 5) = true.
Proof. vm_compute. reflexivity. Qed.

Lemma fork_oom_changes_nothing_witness :
  exists v', mrun MFork (demo_vm true false true) = Ok (0, v') /\ shows no_pin v' demo_world /\
    fa_avail (v_alloc v') = fa_avail (v_alloc (demo_vm true false true)) /\ fa_live (v_alloc v') = fa_live (v_alloc (demo_vm true false true)).
Proof.
  destruct (demo_shows true false true) as (H & _). apply (fork_oom_changes_nothing no_pin (demo_vm true false true) demo_world H).
  pose proof tiny_free as Ht. apply Z.ltb_lt in Ht. lia.
Defined.

(** ** Shared memory *)

Section shm.
Context {S : Type} {FA : FrameAlloc S}.

(** a private segment takes the first free entry and the pages its size needs, and
    its removal gives exactly those pages back; without memory or entry nothing is taken. *)
Theorem shm_get_remove_roundtrip (v : vm S) (s : segs) (id : ids) (size flags junk : Z) :
  fa_ok (v_alloc v) -> segs_ok s -> 0 < size <= 65536 ->
  (exists slot v1 s1 v2, shm_get v s id IPC_PRIVATE size flags = Ok (slot, v1, s1) /\ 0 <= slot < 32 /\
     seg_free (arr_at s slot) = true /\ (forall k, 0 <= k < slot -> seg_free (arr_at s k) = false) /\
     (size_of_avail v1 + Z.to_nat (seg_pages size) = size_of_avail v)%nat /\
     shm_ctl v1 s1 id slot IPC_RMID 0 junk = Ok (0, v2, arr_put s1 slot no_segment) /\
     fa_avail (v_alloc v2) = fa_avail (v_alloc v) /\ fa_live (v_alloc v2) = fa_live (v_alloc v)) \/
  (exists e v1 s1, shm_get v s id IPC_PRIVATE size flags = Ok (e, v1, s1) /\ (e = - ENOMEM \/ e = - ENOSPC) /\
     fa_avail (v_alloc v1) = fa_avail (v_alloc v) /\ fa_live (v_alloc v1) = fa_live (v_alloc v)).
Proof.
  intros H0 Hs Hsz. destruct (shm_get_private v s id size flags H0 Hs Hsz) as [(slot & s' & l & pages & Hslot & Hfree & Hmin & Hpl & Hh & Hl & Hpos & Ht & E)|[(s' & t & slot & E & _ & Ea & El & _)|(E & _)]].
  2: { right. eexists _, _, _. split; [exact E|]. auto. }
  2: { right. eexists _, _, _. split; [exact E|]. auto. }
  left. destruct Hs as [Hlen _]. unfold SHM_MAX_SEGMENTS in Hlen. assert (Hn : 1 <= seg_pages size <= 16) by (unfold seg_pages; Z.to_euclidean_division_equations; lia).
  destruct (shm_rmid_ok (v_alloc v) (set_alloc s' v) (arr_put s slot (Seg true IPC_PRIVATE size (seg_pages size) pages 0 false (id_uid id) (id_gid id) 384)) id slot
    (Seg true IPC_PRIVATE size (seg_pages size) pages 0 false (id_uid id) (id_gid id) 384) l junk) as (s2 & E2 & Ea2 & El2); auto; try (simpl; lia); [apply arr_at_put_eq|].
  - eexists slot, _, _, _. split; [exact E|]. split; [auto|]. split; [auto|]. split; [auto|]. split; [|split; [exact E2|auto]].
    unfold size_of_avail. simpl. rewrite (tk_avail _ _ _ Ht). assert (Hsub : list_to_set l ⊆ fa_avail (v_alloc v)) by (intros f Hf; apply (tk_sub _ _ _ Ht); apply elem_of_list_to_set in Hf; exact Hf).
    rewrite size_difference by auto. pose proof (subseteq_size _ _ Hsub) as Hle. rewrite size_list_to_set in * by apply Ht. lia.
Qed.
End shm.

Lemma shm_init_ok : segs_ok shm_init.
Proof. split; [reflexivity|]. intros i. unfold shm_init. rewrite arr_at_new. reflexivity. Qed.

Lemma shm_get_remove_roundtrip_witness :
  (exists slot v1 s1 v2, shm_get (boot_vm false false true) shm_init (Ids 1 1 1 1) IPC_PRIVATE 5000 IPC_CREAT = Ok (slot, v1, s1) /\ 0 <= slot < 32 /\
     seg_free (arr_at shm_init slot) = true /\ (forall k, 0 <= k < slot -> seg_free (arr_at shm_init k) = false) /\
     (size_of_avail v1 + Z.to_nat (seg_pages 5000) = size_of_avail (boot_vm false false true))%nat /\
     shm_ctl v1 s1 (Ids 1 1 1 1) slot IPC_RMID 0 0 = Ok (0, v2, arr_put s1 slot no_segment) /\
     fa_avail (v_alloc v2) = fa_avail (v_alloc (boot_vm false false true)) /\ fa_live (v_alloc v2) = fa_live (v_alloc (boot_vm false false true))) \/
  (exists e v1 s1, shm_get (boot_vm false false true) shm_init (Ids 1 1 1 1) IPC_PRIVATE 5000 IPC_CREAT = Ok (e, v1, s1) /\ (e = - ENOMEM \/ e = - ENOSPC) /\
     fa_avail (v_alloc v1) = fa_avail (v_alloc (boot_vm false false true)) /\ fa_live (v_alloc v1) = fa_live (v_alloc (boot_vm false false true))).
Proof.
  apply (shm_get_remove_roundtrip (boot_vm false false true) shm_init (Ids 1 1 1 1) 5000 IPC_CREAT 0); [exact (boot_pmm_ok false)|exact shm_init_ok|lia].
Defined.

(** ** Ways around the separation *)

(** A page of the running process holds 1, and the process forks; then [act] happens in
    the parent.  The result: what [act] returns, and the byte as parent and child see it. *)
Definition after_fork (wp : bool) (act : vm pmm -> Z -> res (Z * vm pmm)) : res (Z * Z * Z) :=
  '(va, v) ← mrun (MMap 262144 262145 3) (demo_vm false wp true);
  '(_, v) ← mrun (MStore va 1) v;
  '(child, v) ← mrun MFork v;
  '(r, v) ← act v va;
  '(x, v) ← mrun (MLoad va) v;
  '(_, v) ← mrun (MSwitch child) v;
  '(y, v) ← mrun (MLoad va) v;
  mret (r, x, y).

(** copy_to_user of the byte 7 in the parent after a fork.  The processor honours
    read-only pages in kernel mode only with CR0.WP set, which boot.S and the trampoline
    of the other processors do not set: the byte of the child changes too.  With CR0.WP
    the page is copied first, and the child keeps its byte. *)
Theorem copy_to_user_writes_through :
  after_fork false (fun v va => copy_to_user v va [7]) = Ok (0, 7, 7) /\ after_fork true (fun v va => copy_to_user v va [7]) = Ok (0, 7, 1).
Proof. split; vm_compute; reflexivity. Qed.

(** mprotect of a page that is shared after a fork makes the shared frame writable: a
    store of the parent reaches the child. *)
Example mprotect_breaks_copy_on_write :
  after_fork false (fun v va => '(_, v) ← syscall_mprotect v demo_pmem va 4096 3; mrun (MStore va 7) v) = Ok (0, 7, 7) /\
  after_fork false (fun v va => mrun (MStore va 7) v) = Ok (0, 7, 1).
Proof. split; vm_compute; reflexivity. Qed.

(** A process attaches a new private segment of one page and writes into it; it ends,
    and another process runs.  The result: the attachments the segment counts, the
    references of its page, and whether the allocator can hand that page out. *)
Definition attach_exit : res (Z * Z * bool) :=
  '(id, v, s) ← shm_get (demo_vm false false true) shm_init (Ids 0 0 0 0) IPC_PRIVATE 4096 IPC_CREAT;
  '(child, v) ← mrun MFork v;
  '(va, v, s, _) ← shm_at v s demo_pmem (Ids 0 0 0 0) id 0 0;
  '(_, v) ← mrun (MStore va 5) v;
  '(_, v) ← mrun (MSwitch child) v;
  '(_, v) ← mrun (MExit demo_as) v;
  g ← arr_get s id;
  f ← arr_get (sg_pages g) 0;
  n ← pmm_get_refcount (v_alloc v) f;
  mret (sg_nattch g, n, bool_decide (f / 4096 ∈ avail (frames_of (v_alloc v)))).

(** shm_at maps the pages of a segment without a reference of their own, and the end
    of the process frees what it maps: the page is free although the segment exists and
    counts an attachment. *)
Theorem exit_frees_shared_segment : attach_exit = Ok (1, 0, true).
Proof. vm_compute. reflexivity. Qed.

(** mmap with one free frame and no page table for the area: the frame is taken, the
    mapping fails without notice, and the clearing of the page faults in the kernel. *)
Example mmap_faults_without_table : mrun (MMap 262144 262145 3) (demo_vm true false true) = Ub.
Proof. vm_compute. reflexivity. Qed.
