(* ===== verification/Runq.v ===== *)
(** The O(1) run queues of src/kernel/scheduler.c: per CPU an active and an
    expired runqueue, each with 32 priority lists threaded through the processes
    and a bitmap of the non-empty ones.  A process is named by its address, 0 is
    the null pointer; the fields [rq_next] and [rq_prev] of the processes are
    maps. *)

From S2P Require Import Prelude Ring.

Definition SCHED_NUM_PRIOS : Z := 32.
Definition SCHED_MAX_CPUS : Z := 16.

Record prio_queue : Type := PrioQueue {
  pq_head : Z;
  pq_tail : Z
}.

Record runqueue : Type := Runqueue {
  bitmap : Z;
  queue : array prio_queue
}.

(** [active] and [expired] point into [stores]: they are its indices. *)
Record cpu_rq : Type := CpuRq {
  stores : array runqueue;
  active : Z;
  expired : Z;
  idle : Z
}.

Record runqs : Type := Runqs {
  pcpu_rq : array cpu_rq;
  rq_next : gmap Z Z;
  rq_prev : gmap Z Z
}.

Definition runqueue_zero : runqueue := Runqueue 0 (arr_new SCHED_NUM_PRIOS (PrioQueue 0 0)).
(** What [process_init] makes of every entry. *)
Definition cpu_rq_init : cpu_rq := CpuRq (arr_new 2 runqueue_zero) 0 1 0.
Definition runqs_init (nx pv : gmap Z Z) : runqs := Runqs (arr_new SCHED_MAX_CPUS cpu_rq_init) nx pv.

(** A runqueue is named by its CPU and its index in [stores]. *)
Definition get_rq (s : runqs) (c k : Z) : res runqueue :=
  crq ← arr_get (pcpu_rq s) c;
  arr_get (stores crq) k.

Definition set_rq (s : runqs) (c k : Z) (r : runqueue) (nx pv : gmap Z Z) : res runqs :=
  crq ← arr_get (pcpu_rq s) c;
  st ← arr_set (stores crq) k r;
  a ← arr_set (pcpu_rq s) c (CpuRq st (active crq) (expired crq) (idle crq));
  mret (Runqs a nx pv).

(** [__builtin_ctz], undefined for 0. *)
Fixpoint ctz (fuel : nat) (v i : Z) : Z :=
  match fuel with
  | O => i
  | S fuel => if Z.testbit v i then i else ctz fuel v (i + 1)
  end.
Definition bsf32 (v : Z) : res Z := if v =? 0 then Ub else Ok (ctz 32 v 0).

(** [prio] is [p->priority]. *)
Definition rq_enqueue (s : runqs) (c k : Z) (p prio : Z) : res runqs :=
  r ← get_rq s c k;
  pq ← arr_get (queue r) prio;
  nx ← fset (rq_next s) p 0;
  pv ← fset (rq_prev s) p (pq_tail pq);
  nx ← fset0 nx (pq_tail pq) p;
  let head := if pq_tail pq =? 0 then p else pq_head pq in
  q ← arr_set (queue r) prio (PrioQueue head p);
  set_rq s c k (Runqueue (Z.lor (bitmap r) (Z.shiftl 1 prio)) q) nx pv.

Definition rq_dequeue (s : runqs) (c k : Z) (p prio : Z) : res runqs :=
  r ← get_rq s c k;
  pq ← arr_get (queue r) prio;
  pr ← fget (rq_prev s) p;
  ne ← fget (rq_next s) p;
  nx ← fset0 (rq_next s) pr ne;
  let head := if pr =? 0 then ne else pq_head pq in
  ne ← fget nx p;
  pv ← fset0 (rq_prev s) ne pr;
  let tail := if ne =? 0 then pr else pq_tail pq in
  nx ← fset nx p 0;
  pv ← fset pv p 0;
  q ← arr_set (queue r) prio (PrioQueue head tail);
  let bm := if head =? 0 then Z.land (bitmap r) (u32 (Z.lnot (Z.shiftl 1 prio))) else bitmap r in
  set_rq s c k (Runqueue bm q) nx pv.

(** [while (it)]: looks for [p] from [it] on. *)
Fixpoint scan_list (fuel : nat) (s : runqs) (it p : Z) : res bool :=
  match fuel with
  | O => NoFuel
  | S fuel =>
      if it =? 0 then mret false
      else if it =? p then mret true
      else n ← fget (rq_next s) it; scan_list fuel s n p
  end.

Section remove.
(** The number of processes bounds the length of a list. *)
Variable fuel : nat.

(** [for (prio = i; prio < SCHED_NUM_PRIOS; prio++)] in one runqueue; [n]
    priorities are left. *)
Fixpoint scan_prios (n : nat) (s : runqs) (c k i p prio : Z) : res (option runqs) :=
  match n with
  | O => mret None
  | S n =>
      r ← get_rq s c k;
      if Z.land (bitmap r) (Z.shiftl 1 i) =? 0 then scan_prios n s c k (i + 1) p prio
      else
        pq ← arr_get (queue r) i;
        found ← scan_list fuel s (pq_head pq) p;
        if (found : bool) then s' ← rq_dequeue s c k p prio; mret (Some s')
        else scan_prios n s c k (i + 1) p prio
  end.

(** [prio] and [cpu_id] are the fields of [p]. *)
Definition rq_remove_if_queued (s : runqs) (p cpu_id prio : Z) : res runqs :=
  let c := if cpu_id <? SCHED_MAX_CPUS then cpu_id else 0 in
  crq ← arr_get (pcpu_rq s) c;
  r ← scan_prios (Z.to_nat SCHED_NUM_PRIOS) s c (active crq) 0 p prio;
  match r with
  | Some s' => mret s'
  | None =>
      r ← scan_prios (Z.to_nat SCHED_NUM_PRIOS) s c (expired crq) 0 p prio;
      mret (default s r)
  end.
End remove.

Definition first_of (s : runqs) (c k : Z) : res Z :=
  r ← get_rq s c k;
  if bitmap r =? 0 then mret 0
  else
    prio ← bsf32 (bitmap r);
    pq ← arr_get (queue r) prio;
    mret (pq_head pq).

(** Returns 0 when both runqueues are empty; swaps them when only the active
    one is. *)
Definition rq_pick_next (s : runqs) (cpu : Z) : res (Z * runqs) :=
  crq ← arr_get (pcpu_rq s) cpu;
  r ← get_rq s cpu (active crq);
  if negb (bitmap r =? 0) then
    p ← first_of s cpu (active crq);
    mret (p, s)
  else
    a ← arr_set (pcpu_rq s) cpu (CpuRq (stores crq) (expired crq) (active crq) (idle crq));
    let s := Runqs a (rq_next s) (rq_prev s) in
    p ← first_of s cpu (expired crq);
    mret (p, s).

(** ** Invariant *)

Definition is_nil (l : list Z) : bool := match l with [] => true | _ => false end.

(** The list [l] of priority [i] of runqueue [r]. *)
Definition queue_ok (r : runqueue) (nx pv : gmap Z Z) (i : Z) (l : list Z) : Prop :=
  arr_at (queue r) i = PrioQueue (hd 0 l) (lastd 0 l) /\
  Z.testbit (bitmap r) i = negb (is_nil l) /\ seg nx pv 0 l 0.

Definition in_range (c k i : Z) : Prop := 0 <= c < SCHED_MAX_CPUS /\ 0 <= k < 2 /\ 0 <= i < 32.

Definition rqueue (s : runqs) (c k : Z) : runqueue := arr_at (stores (arr_at (pcpu_rq s) c)) k.

(** [Q c k i] is the list of priority [i] of runqueue [k] of CPU [c]. *)
Record rq_ok (s : runqs) (Q : Z -> Z -> Z -> list Z) : Prop := RqOk {
  rq_cpus : arr_len (pcpu_rq s) = SCHED_MAX_CPUS;
  rq_stores : forall c, 0 <= c < SCHED_MAX_CPUS ->
    let crq := arr_at (pcpu_rq s) c in
    arr_len (stores crq) = 2 /\
    (active crq = 0 /\ expired crq = 1 \/ active crq = 1 /\ expired crq = 0);
  rq_len : forall c k, 0 <= c < SCHED_MAX_CPUS -> 0 <= k < 2 ->
    arr_len (queue (rqueue s c k)) = 32 /\ is_u32 (bitmap (rqueue s c k));
  rq_queues : forall c k i, in_range c k i ->
    queue_ok (rqueue s c k) (rq_next s) (rq_prev s) i (Q c k i);
  rq_nodup : forall c k i, NoDup (Q c k i) /\ 0 ∉ Q c k i;
  rq_inside : forall c k i x, x ∈ Q c k i -> in_range c k i;
  rq_sep : forall c k i c' k' i' x, x ∈ Q c k i -> x ∈ Q c' k' i' -> c = c' /\ k = k' /\ i = i'
}.

Definition updQ (Q : Z -> Z -> Z -> list Z) (c k i : Z) (l : list Z) : Z -> Z -> Z -> list Z :=
  fun c' k' i' => if decide ((c', k', i') = (c, k, i)) then l else Q c' k' i'.

Definition queued (Q : Z -> Z -> Z -> list Z) (p : Z) : Prop := exists c k i, p ∈ Q c k i.

Definition rq_dom (s : runqs) (p : Z) : Prop := is_Some (rq_next s !! p) /\ is_Some (rq_prev s !! p).

(** Operations on lists keep the roles of the runqueues and the idle process. *)
Definition rq_frame (s s' : runqs) : Prop :=
  forall c, active (arr_at (pcpu_rq s') c) = active (arr_at (pcpu_rq s) c) /\
    expired (arr_at (pcpu_rq s') c) = expired (arr_at (pcpu_rq s) c) /\
    idle (arr_at (pcpu_rq s') c) = idle (arr_at (pcpu_rq s) c).

Lemma updQ_eq Q c k i l : updQ Q c k i l c k i = l.
Proof. unfold updQ. rewrite decide_True; auto. Qed.

Lemma updQ_ne Q c k i l c' k' i' : (c', k', i') <> (c, k, i) -> updQ Q c k i l c' k' i' = Q c' k' i'.
Proof. intros. unfold updQ. rewrite decide_False; auto. Qed.

Lemma get_rq_ok s Q c k :
  rq_ok s Q -> 0 <= c < SCHED_MAX_CPUS -> 0 <= k < 2 -> get_rq s c k = Ok (rqueue s c k).
Proof.
  intros H Hc Hk. unfold get_rq. rewrite arr_get_ok by (rewrite (rq_cpus _ _ H); auto).
  rewrite res_bind_ok. apply arr_get_ok. destruct (rq_stores _ _ H c Hc) as [-> _]. auto.
Qed.

Definition put_rq (s : runqs) (c k : Z) (r : runqueue) (nx pv : gmap Z Z) : runqs :=
  let crq := arr_at (pcpu_rq s) c in
  Runqs (arr_put (pcpu_rq s) c
           (CpuRq (arr_put (stores crq) k r) (active crq) (expired crq) (idle crq))) nx pv.

Lemma set_rq_ok s Q c k r nx pv :
  rq_ok s Q -> 0 <= c < SCHED_MAX_CPUS -> 0 <= k < 2 ->
  set_rq s c k r nx pv = Ok (put_rq s c k r nx pv).
Proof.
  intros H Hc Hk. unfold set_rq. rewrite arr_get_ok by (rewrite (rq_cpus _ _ H); auto).
  rewrite res_bind_ok, arr_set_ok by (destruct (rq_stores _ _ H c Hc) as [-> _]; auto).
  rewrite res_bind_ok, arr_set_ok by (rewrite (rq_cpus _ _ H); auto). reflexivity.
Qed.

Lemma rqueue_put s c k r nx pv c' k' :
  rqueue (put_rq s c k r nx pv) c' k' =
  if decide ((c', k') = (c, k)) then r else rqueue s c' k'.
Proof.
  unfold rqueue, put_rq. simpl. rewrite arr_at_put.
  destruct (Z.eqb_spec c c') as [<-|Hc]; simpl.
  - rewrite arr_at_put. destruct (Z.eqb_spec k k') as [<-|Hk].
    + rewrite decide_True; auto.
    + rewrite decide_False; [auto|congruence].
  - rewrite decide_False; [auto|congruence].
Qed.

Lemma rq_frame_put s c k r nx pv : rq_frame s (put_rq s c k r nx pv).
Proof.
  intros c'. unfold put_rq. simpl. rewrite arr_at_put.
  destruct (Z.eqb_spec c c') as [<-|]; simpl; auto.
Qed.

(** Replacing one list: what a list operation has to establish. *)
Lemma rq_ok_put s Q c k i r l nx pv :
  rq_ok s Q -> in_range c k i ->
  arr_len (queue r) = 32 -> is_u32 (bitmap r) ->
  (forall j, 0 <= j < 32 -> j <> i -> arr_at (queue r) j = arr_at (queue (rqueue s c k)) j /\
     Z.testbit (bitmap r) j = Z.testbit (bitmap (rqueue s c k)) j) ->
  queue_ok r nx pv i l -> NoDup l -> 0 ∉ l ->
  (forall x, x ∈ l -> x ∈ Q c k i \/ ~ queued Q x) ->
  (forall x, queued Q x -> x ∉ Q c k i -> nx !! x = rq_next s !! x /\ pv !! x = rq_prev s !! x) ->
  rq_ok (put_rq s c k r nx pv) (updQ Q c k i l).
Proof.
  intros H Hr Hlen Hbm Hoth Hq Hnd H0 Hnew Hlinks. pose proof Hr as (Hc & Hk & Hi).
  assert (Hin : forall c' k' i' x, x ∈ updQ Q c k i l c' k' i' ->
     (c', k', i') = (c, k, i) /\ x ∈ l \/ (c', k', i') <> (c, k, i) /\ x ∈ Q c' k' i').
  { intros c' k' i' x. unfold updQ. destruct (decide _); auto. }
  assert (Hsep : forall c' k' i' x, x ∈ l -> x ∈ Q c' k' i' -> (c', k', i') = (c, k, i)).
  { intros c' k' i' x Hx Hx'. destruct (Hnew x Hx) as [Hx''|Hn]; [|exfalso; apply Hn; red; eauto].
    destruct (rq_sep _ _ H _ _ _ _ _ _ _ Hx' Hx'') as (-> & -> & ->). auto. }
  split.
  - apply (rq_cpus _ _ H).
  - intros c' Hc'. simpl. rewrite arr_at_put. destruct (rq_stores _ _ H c' Hc') as [H1 H2].
    destruct (Z.eqb_spec c c') as [<-|]; simpl; auto.
  - intros c' k' Hc' Hk'. rewrite rqueue_put. destruct (decide _); [auto|apply (rq_len _ _ H); auto].
  - intros c' k' i' Hr'. rewrite rqueue_put. destruct (decide ((c', k') = (c, k))) as [[= -> ->]|Hne].
    + destruct (Z.eq_dec i' i) as [->|Hni]; [rewrite updQ_eq; exact Hq|].
      rewrite updQ_ne by congruence. destruct (rq_queues _ _ H _ _ _ Hr') as (E1 & E2 & E3).
      destruct (Hoth i') as [F1 F2]; [apply Hr'|auto|].
      split; [rewrite F1; exact E1|]. split; [rewrite F2; exact E2|].
      eapply seg_ext; [|exact E3]. intros x Hx. apply Hlinks; [red; eauto|].
      intros Hx'. apply Hni. eapply (rq_sep _ _ H); eauto.
    + rewrite updQ_ne by congruence. destruct (rq_queues _ _ H _ _ _ Hr') as (E1 & E2 & E3).
      split; [exact E1|]. split; [exact E2|].
      eapply seg_ext; [|exact E3]. intros x Hx. apply Hlinks; [red; eauto|].
      intros Hx'. apply Hne. destruct (rq_sep _ _ H _ _ _ _ _ _ _ Hx Hx') as (-> & -> & _). auto.
  - intros c' k' i'. unfold updQ. destruct (decide _); [auto|apply (rq_nodup _ _ H)].
  - intros c' k' i' x [[[= -> -> ->] _]|[_ Hx]]%Hin; [auto|eapply (rq_inside _ _ H); eauto].
  - intros c1 k1 i1 c2 k2 i2 x [[E1 Hx1]|[N1 Hx1]]%Hin [[E2 Hx2]|[N2 Hx2]]%Hin; simplify_eq; auto.
    + exfalso. apply N2. eauto.
    + exfalso. apply N1. eauto.
    + eapply (rq_sep _ _ H); eauto.
Qed.

(** ** List operations *)

Section list_ops.
Context (s : runqs) (Q : Z -> Z -> Z -> list Z) (c k i p : Z).
Hypothesis (H : rq_ok s Q) (Hr : in_range c k i).

Lemma queue_facts :
  let r := rqueue s c k in
  get_rq s c k = Ok r /\ arr_get (queue r) i = Ok (PrioQueue (hd 0 (Q c k i)) (lastd 0 (Q c k i))) /\
  arr_len (queue r) = 32 /\ is_u32 (bitmap r) /\
  Z.testbit (bitmap r) i = negb (is_nil (Q c k i)) /\ seg (rq_next s) (rq_prev s) 0 (Q c k i) 0.
Proof.
  pose proof Hr as (Hc & Hk & Hi). destruct (rq_len _ _ H c k Hc Hk) as [H1 H2].
  destruct (rq_queues _ _ H c k i Hr) as (E1 & E2 & E3).
  split_and!; auto; [eapply get_rq_ok; eauto|rewrite arr_get_ok by lia; rewrite E1; reflexivity].
Qed.

Lemma rq_enqueue_ok :
  p <> 0 -> ~ queued Q p -> rq_dom s p ->
  exists s', rq_enqueue s c k p i = Ok s' /\ rq_ok s' (updQ Q c k i (Q c k i ++ [p])) /\
    rq_frame s s' /\ (forall q, rq_dom s q -> rq_dom s' q).
Proof.
  intros Hp0 Hnq [Hd1 Hd2]. pose proof Hr as (Hc & Hk & Hi).
  destruct queue_facts as (Hget & Hpq & Hlen & Hbm & Hbit & Hseg).
  destruct (rq_nodup _ _ H c k i) as [Hnd H0].
  assert (Hpl : p ∉ Q c k i) by (intros Hx; apply Hnq; red; eauto).
  set (l := Q c k i) in *. unfold rq_enqueue. rewrite Hget, res_bind_ok, Hpq, res_bind_ok.
  cbn [pq_tail pq_head].
  rewrite (fset_ok (rq_next s)), res_bind_ok by auto.
  rewrite (fset_ok (rq_prev s)), res_bind_ok by auto.
  assert (Ht : lastd 0 l = 0 \/ lastd 0 l ∈ l) by apply lastd_elem.
  rewrite fset0_opt, res_bind_ok
    by (destruct Ht as [|Ht]; [auto|right; apply insert_is_Some, (seg_in _ _ _ _ _ _ Hseg Ht)]).
  rewrite arr_set_ok, res_bind_ok by lia. rewrite (set_rq_ok s Q) by auto.
  eexists. split; [reflexivity|]. split; [|split; [apply rq_frame_put|]].
  - apply rq_ok_put; auto.
    + apply is_u32_setbit; auto.
    + intros j Hj Hne. simpl. rewrite arr_at_put_ne by auto. split; [auto|].
      rewrite testbit_setbit by lia. destruct (Z.eqb_spec i j); [congruence|reflexivity].
    + split; [|split].
      * simpl. rewrite arr_at_put_eq, hd_app, lastd_app. simpl. f_equal.
        destruct (Z.eqb_spec (lastd 0 l) 0) as [E|Hne].
        -- destruct l; [reflexivity|]. exfalso.
           apply (lastd_nonzero 0 (z :: l)); auto; discriminate.
        -- destruct l; [contradiction|reflexivity].
      * simpl. rewrite testbit_setbit by lia. rewrite Z.eqb_refl. destruct l; reflexivity.
      * pose proof (seg_insert (rq_next s) (rq_prev s) l [] p) as Hins.
        rewrite app_nil_r in Hins. apply Hins; auto.
    + apply NoDup_app. split_and!; auto; [set_solver|apply NoDup_singleton].
    + set_solver.
    + intros x [Hx| ->%list_elem_of_singleton]%elem_of_app; auto.
    + intros x Hxq Hx. rewrite upd0_ne, !lookup_insert_ne; auto; try (intros ->; auto).
      destruct Ht as [E|]; [|contradiction]. destruct Hxq as (c' & k' & i' & Hx').
      rewrite E in Hx'. destruct (rq_nodup _ _ H c' k' i'). contradiction.
  - intros q [Hq1 Hq2]. split; simpl; auto with adros.
Qed.

Lemma rq_dequeue_ok l1 l2 :
  Q c k i = l1 ++ p :: l2 ->
  exists s', rq_dequeue s c k p i = Ok s' /\ rq_ok s' (updQ Q c k i (l1 ++ l2)) /\
    rq_frame s s' /\ (forall q, rq_dom s q -> rq_dom s' q).
Proof.
  intros El. pose proof Hr as (Hc & Hk & Hi).
  destruct queue_facts as (Hget & Hpq & Hlen & Hbm & Hbit & Hseg).
  destruct (rq_nodup _ _ H c k i) as [Hnd H0]. rewrite El in *.
  destruct (seg_mid _ _ _ _ _ _ _ Hseg) as [Hpv Hnx].
  assert (Hpin : p ∈ l1 ++ p :: l2) by set_solver.
  assert (Hp0 : p <> 0) by set_solver.
  assert (Hlast : lastd 0 l1 = 0 \/ lastd 0 l1 ∈ l1) by apply lastd_elem.
  assert (Hhd : hd 0 l2 = 0 \/ hd 0 l2 ∈ l2) by apply hd_elem.
  pose proof Hnd as (Hd1 & Hd12 & [Hp2 Hd2]%NoDup_cons)%NoDup_app.
  assert (Hp1 : p ∉ l1) by (intros Hx; apply (Hd12 p Hx); set_solver).
  assert (Hlp : p <> lastd 0 l1) by (destruct Hlast as [->|Hx]; [auto|intros ->; auto]).
  assert (Hin : forall x, x ∈ l1 ++ p :: l2 -> rq_dom s x) by (intros x Hx; eapply seg_in; eauto).
  unfold rq_dequeue. rewrite Hget, res_bind_ok, Hpq, res_bind_ok. cbn [pq_head pq_tail].
  rewrite (fget_ok _ _ _ Hpv), res_bind_ok, (fget_ok _ _ _ Hnx), res_bind_ok.
  rewrite fset0_opt, res_bind_ok
    by (destruct Hlast as [|Hx]; [auto|right; apply Hin; set_solver]).
  rewrite (fget_ok _ _ (hd 0 l2)), res_bind_ok by (rewrite upd0_ne by auto; auto).
  rewrite fset0_opt, res_bind_ok by (destruct Hhd as [|Hx]; [auto|right; apply Hin; set_solver]).
  rewrite (fset_ok (upd0 (lastd 0 l1) _ _)), res_bind_ok by (apply upd0_is_Some; eauto).
  rewrite (fset_ok (upd0 (hd 0 l2) _ _)), res_bind_ok by (apply upd0_is_Some; eauto).
  rewrite arr_set_ok, res_bind_ok by lia.
  assert (Ehd : (if lastd 0 l1 =? 0 then hd 0 l2 else hd 0 (l1 ++ p :: l2)) = hd 0 (l1 ++ l2)).
  { destruct l1 as [|y l1]; [reflexivity|]. simpl app.
    destruct (Z.eqb_spec (lastd 0 (y :: l1)) 0) as [E|]; [|reflexivity].
    exfalso. apply (lastd_nonzero 0 (y :: l1)); [set_solver|discriminate|exact E]. }
  assert (Etl : (if hd 0 l2 =? 0 then lastd 0 l1 else lastd 0 (l1 ++ p :: l2)) = lastd 0 (l1 ++ l2)).
  { rewrite !lastd_app. destruct l2 as [|y l2]; [reflexivity|]. simpl.
    destruct (Z.eqb_spec y 0) as [->|]; [set_solver|reflexivity]. }
  rewrite Ehd, Etl, (set_rq_ok s Q) by auto.
  assert (Hz : (hd 0 (l1 ++ l2) =? 0) = is_nil (l1 ++ l2)).
  { destruct (l1 ++ l2) as [|y l] eqn:E; [reflexivity|]. simpl.
    apply Z.eqb_neq. intros ->. assert (0 ∈ l1 ++ l2) by (rewrite E; set_solver). set_solver. }
  eexists. split; [reflexivity|]. split; [|split; [apply rq_frame_put|]].
  - apply rq_ok_put; auto; simpl.
    + rewrite Hz. destruct (is_nil (l1 ++ l2)); [apply is_u32_land|]; auto.
    + intros j Hj Hne. rewrite arr_at_put_ne by auto. split; [auto|]. rewrite Hz.
      destruct (is_nil (l1 ++ l2)); [|auto]. rewrite land_u32_lnot, testbit_clearbit by (auto; lia).
      destruct (Z.eqb_spec i j); [congruence|reflexivity].
    + split; [simpl; apply arr_at_put_eq|]. split; [|apply seg_remove; auto].
      simpl. rewrite Hz. destruct (is_nil (l1 ++ l2)) eqn:E; simpl.
      * rewrite land_u32_lnot, testbit_clearbit by (auto; lia). rewrite Z.eqb_refl. reflexivity.
      * rewrite Hbit. destruct l1; reflexivity.
    + apply NoDup_app. split_and!; auto. intros x Hx Hx2. apply (Hd12 x Hx). set_solver.
    + set_solver.
    + intros x Hx. left. rewrite El. set_solver.
    + intros x Hxq Hx. rewrite El in Hx. destruct Hxq as (c' & k' & i' & Hx').
      destruct (rq_nodup _ _ H c' k' i') as [_ Hn0].
      assert (x <> p) by (intros ->; apply Hx; set_solver).
      rewrite !lookup_insert_ne by auto. split; apply upd0_ne.
      * destruct Hlast as [->|Hx2]; [intros ->; auto|intros ->; apply Hx; set_solver].
      * destruct Hhd as [->|Hx2]; [intros ->; auto|intros ->; apply Hx; set_solver].
  - intros q [Hq1 Hq2]. split; simpl; auto with adros.
Qed.
End list_ops.

(** ** Choosing a process *)

Lemma ctz_spec n : forall v i,
  0 <= i -> (exists j, i <= j < i + Z.of_nat n /\ Z.testbit v j = true) ->
  let r := ctz n v i in
  i <= r < i + Z.of_nat n /\ Z.testbit v r = true /\
  forall j, i <= j < r -> Z.testbit v j = false.
Proof.
  induction n as [|n IH]; intros v i Hi (j & Hj & Hb); [lia|]. cbn [ctz].
  destruct (Z.testbit v i) eqn:E; [split_and!; auto; lia|].
  destruct (IH v (i + 1)) as (H1 & H2 & H3); [lia| |].
  { exists j. split; auto. destruct (Z.eq_dec j i) as [->|]; [congruence|lia]. }
  split_and!; auto; try lia. intros j' Hj'. destruct (Z.eq_dec j' i) as [->|]; auto. apply H3. lia.
Qed.

Lemma bitmap_zero s Q c k :
  rq_ok s Q -> 0 <= c < SCHED_MAX_CPUS -> 0 <= k < 2 ->
  bitmap (rqueue s c k) = 0 <-> forall i, Q c k i = [].
Proof.
  intros H Hc Hk. destruct (rq_len _ _ H c k Hc Hk) as [_ Hbm]. split.
  - intros E i. destruct (Q c k i) as [|x l] eqn:El; [reflexivity|].
    assert (Hr : in_range c k i) by (apply (rq_inside _ _ H c k i x); rewrite El; set_solver).
    destruct (rq_queues _ _ H c k i Hr) as (_ & Hb & _). rewrite E, El, Z.bits_0 in Hb. discriminate.
  - intros Hall. apply is_u32_zero; auto. intros i Hi.
    destruct (rq_queues _ _ H c k i) as (_ & -> & _); [red; auto|]. rewrite Hall. reflexivity.
Qed.

(** The head of the highest-priority non-empty list. *)
Definition best (Q : Z -> Z -> Z -> list Z) (c k p : Z) : Prop :=
  exists i l, in_range c k i /\ Q c k i = p :: l /\ forall j, 0 <= j < i -> Q c k j = [].

Lemma first_of_ok s Q c k :
  rq_ok s Q -> 0 <= c < SCHED_MAX_CPUS -> 0 <= k < 2 ->
  exists p, first_of s c k = Ok p /\
    (p = 0 /\ (forall i, Q c k i = []) \/ p <> 0 /\ best Q c k p).
Proof.
  intros H Hc Hk. unfold first_of. rewrite (get_rq_ok _ _ _ _ H Hc Hk), res_bind_ok.
  destruct (Z.eqb_spec (bitmap (rqueue s c k)) 0) as [E|Hne].
  { exists 0. split; [reflexivity|]. left. split; auto. apply (bitmap_zero s Q c k H Hc Hk). auto. }
  destruct (rq_len _ _ H c k Hc Hk) as [Hlen Hbm]. unfold bsf32.
  destruct (Z.eqb_spec (bitmap (rqueue s c k)) 0); [contradiction|].
  destruct (ctz_spec 32 (bitmap (rqueue s c k)) 0) as (H1 & H2 & H3); [lia| |].
  { destruct (decide (Exists (fun i => Z.testbit (bitmap (rqueue s c k)) i = true) (seqZ 0 32)))
      as [Hex|Hno].
    - apply Exists_exists in Hex as (i & Hi & Hb). apply elem_of_seqZ in Hi. exists i. split; [lia|auto].
    - exfalso. apply Hne, is_u32_zero; auto. intros i Hi. apply not_true_is_false. intros Hb.
      apply Hno, Exists_exists. exists i. split; [apply elem_of_seqZ; lia|auto]. }
  set (i := ctz 32 _ 0) in *. rewrite res_bind_ok, arr_get_ok by lia. rewrite res_bind_ok.
  assert (Hr : in_range c k i) by (red; lia).
  destruct (rq_queues _ _ H c k i Hr) as (E1 & E2 & _). rewrite E1. rewrite H2 in E2.
  destruct (rq_nodup _ _ H c k i) as [_ H0]. destruct (Q c k i) as [|p l] eqn:El; [discriminate|].
  exists p. split; [reflexivity|]. right. split; [set_solver|]. exists i, l. split_and!; auto.
  intros j Hj. assert (Hj2 : in_range c k j) by (unfold in_range in *; lia).
  destruct (rq_queues _ _ H c k j Hj2) as (_ & E3 & _). rewrite H3 in E3 by lia.
  destruct (Q c k j); [reflexivity|discriminate].
Qed.

Definition act (s : runqs) (c : Z) : Z := active (arr_at (pcpu_rq s) c).
Definition expd (s : runqs) (c : Z) : Z := expired (arr_at (pcpu_rq s) c).

Lemma act_range s Q c : rq_ok s Q -> 0 <= c < SCHED_MAX_CPUS ->
  0 <= act s c < 2 /\ 0 <= expd s c < 2 /\ act s c <> expd s c.
Proof.
  intros H Hc. destruct (rq_stores _ _ H c Hc) as [_ [[H1 H2]|[H1 H2]]]; unfold act, expd; lia.
Qed.

Definition swap_rq (s : runqs) (c : Z) : runqs :=
  let crq := arr_at (pcpu_rq s) c in
  Runqs (arr_put (pcpu_rq s) c (CpuRq (stores crq) (expired crq) (active crq) (idle crq)))
        (rq_next s) (rq_prev s).

Lemma swap_rqueue s c c' k : rqueue (swap_rq s c) c' k = rqueue s c' k.
Proof.
  unfold rqueue, swap_rq. simpl. rewrite arr_at_put. destruct (Z.eqb_spec c c') as [<-|]; auto.
Qed.

Lemma swap_ok s Q c : rq_ok s Q -> rq_ok (swap_rq s c) Q.
Proof.
  intros H. split; try apply H.
  - intros c' Hc'. destruct (rq_stores _ _ H c' Hc') as [H1 H2]. simpl. rewrite arr_at_put.
    destruct (Z.eqb_spec c c') as [<-|]; simpl; auto. split; [auto|tauto].
  - intros c' k Hc' Hk. rewrite swap_rqueue. apply (rq_len _ _ H); auto.
  - intros c' k i Hr. rewrite swap_rqueue. apply (rq_queues _ _ H); auto.
Qed.

Lemma swap_roles s c c' :
  act (swap_rq s c) c' = (if c =? c' then expd s c' else act s c') /\
  expd (swap_rq s c) c' = (if c =? c' then act s c' else expd s c') /\
  idle (arr_at (pcpu_rq (swap_rq s c)) c') = idle (arr_at (pcpu_rq s) c').
Proof.
  unfold act, expd, swap_rq. simpl. rewrite arr_at_put.
  destruct (Z.eqb_spec c c') as [<-|]; auto.
Qed.

(** [rq_pick_next] returns the best process of the active runqueue, or swaps
    the runqueues when that is empty and returns the best of the other; it
    returns 0 only when both are empty. *)
Lemma rq_pick_next_ok s Q c :
  rq_ok s Q -> 0 <= c < SCHED_MAX_CPUS ->
  exists p s', rq_pick_next s c = Ok (p, s') /\
    (s' = s /\ (exists i, Q c (act s c) i <> []) \/
     s' = swap_rq s c /\ forall i, Q c (act s c) i = []) /\
    (p <> 0 /\ best Q c (act s' c) p \/
     p = 0 /\ forall k i, Q c k i = []).
Proof.
  intros H Hc. destruct (act_range s Q c H Hc) as (Ha & He & Hae). unfold rq_pick_next.
  rewrite arr_get_ok by (rewrite (rq_cpus _ _ H); auto). rewrite res_bind_ok.
  fold (act s c). fold (expd s c). rewrite (get_rq_ok _ _ _ _ H Hc Ha), res_bind_ok.
  destruct (Z.eqb_spec (bitmap (rqueue s c (act s c))) 0) as [E|Hne]; cbn [negb].
  - rewrite arr_set_ok, res_bind_ok by (rewrite (rq_cpus _ _ H); auto).
    fold (swap_rq s c). pose proof (swap_ok s Q c H) as H'.
    destruct (first_of_ok (swap_rq s c) Q c (expd s c) H' Hc He) as (p & Hf & Hcase).
    change (Runqs _ _ _) with (swap_rq s c). rewrite Hf, res_bind_ok.
    pose proof (proj1 (bitmap_zero s Q c _ H Hc Ha) E) as Eq.
    exists p, (swap_rq s c). split; [reflexivity|]. split; [right; split; [reflexivity|exact Eq]|].
    destruct (swap_roles s c c) as (-> & _ & _). rewrite Z.eqb_refl.
    destruct Hcase as [[-> Hall]|[Hp Hb]]; [right|left; auto]. split; auto.
    intros k i. destruct (decide (k = act s c)) as [->|Hk1]; [auto|].
    destruct (decide (k = expd s c)) as [->|Hk2]; [auto|].
    destruct (Q c k i) as [|x l] eqn:El; [reflexivity|]. exfalso.
    assert (Hr : in_range c k i) by (apply (rq_inside _ _ H c k i x); rewrite El; set_solver).
    destruct Hr as (_ & Hk & _). lia.
  - destruct (first_of_ok s Q c (act s c) H Hc Ha) as (p & Hf & Hcase).
    rewrite Hf, res_bind_ok. exists p, s. split; [reflexivity|].
    destruct Hcase as [[-> Hall]|[Hp Hb]].
    + exfalso. apply Hne. apply (bitmap_zero s Q c _ H Hc Ha). auto.
    + split; [|left; auto]. left. split; auto.
      destruct Hb as (i & l & _ & El & _). exists i. rewrite El. discriminate.
Qed.

(** ** Removal from wherever a process is queued *)

Lemma scan_list_ok fuel : forall s pr l p,
  seg (rq_next s) (rq_prev s) pr l 0 -> 0 ∉ l -> p <> 0 -> (length l < fuel)%nat ->
  scan_list fuel s (hd 0 l) p = Ok (bool_decide (p ∈ l)).
Proof.
  induction fuel as [|fuel IH]; intros s pr l p Hs H0 Hp Hf; [lia|]. cbn [scan_list].
  destruct l as [|x l]; simpl hd.
  - rewrite bool_decide_eq_false_2 by set_solver. reflexivity.
  - destruct Hs as (_ & Hn & Hs). destruct (Z.eqb_spec x 0) as [->|]; [set_solver|].
    destruct (Z.eqb_spec x p) as [->|Hne].
    + rewrite bool_decide_eq_true_2 by set_solver. reflexivity.
    + rewrite (fget_ok _ _ _ Hn), res_bind_ok, (IH s x l p Hs); auto; [|set_solver|simpl in Hf; lia].
      f_equal. apply bool_decide_ext. set_solver.
Qed.

Section remove_ok.
Context (fuel : nat) (s : runqs) (Q : Z -> Z -> Z -> list Z) (c p prio : Z).
Hypothesis (H : rq_ok s Q) (Hc : 0 <= c < SCHED_MAX_CPUS) (Hp : p <> 0).
Hypothesis (Hfuel : forall k i, (length (Q c k i) < fuel)%nat).
Hypothesis (Hprio : forall k i, p ∈ Q c k i -> i = prio).

Lemma scan_prios_ok n : forall k i,
  0 <= k < 2 -> 0 <= i -> i + Z.of_nat n = 32 ->
  (scan_prios fuel n s c k i p prio = Ok None /\ forall j, i <= j -> p ∉ Q c k j) \/
  (exists s' l1 l2, scan_prios fuel n s c k i p prio = Ok (Some s') /\
     Q c k prio = l1 ++ p :: l2 /\ rq_ok s' (updQ Q c k prio (l1 ++ l2)) /\
     rq_frame s s' /\ (forall q, rq_dom s q -> rq_dom s' q)).
Proof.
  induction n as [|n IH]; intros k i Hk Hi Hn; cbn [scan_prios].
  { left. split; [reflexivity|]. intros j Hj Hx. apply (rq_inside _ _ H) in Hx as (_ & _ & ?). lia. }
  assert (Hr : in_range c k i) by (red; lia).
  destruct (queue_facts s Q c k i H Hr) as (-> & Hpq & _ & _ & Hb & Hs). rewrite res_bind_ok.
  rewrite land_bit_eqb, Hb, negb_involutive by lia.
  assert (Hnext : p ∉ Q c k i ->
    (scan_prios fuel n s c k (i + 1) p prio = Ok None /\ forall j, i + 1 <= j -> p ∉ Q c k j) ->
    scan_prios fuel n s c k (i + 1) p prio = Ok None /\ forall j, i <= j -> p ∉ Q c k j).
  { intros Hx [E Hall]. split; [exact E|]. intros j Hj.
    destruct (Z.eq_dec j i) as [->|]; [auto|apply Hall; lia]. }
  destruct (IH k (i + 1)) as [IHn|IHs]; [lia|lia|lia| |].
  all: destruct (is_nil (Q c k i)) eqn:Enil;
    [assert (E : Q c k i = []) by (destruct (Q c k i); [auto|discriminate])|].
  - left. apply Hnext; auto. rewrite E. set_solver.
  - rewrite Hpq, res_bind_ok. cbn [pq_head]. destruct (rq_nodup _ _ H c k i) as [_ H0].
    rewrite (scan_list_ok fuel s 0 (Q c k i) p), res_bind_ok by auto.
    case_bool_decide as Hx; [|left; apply Hnext; auto].
    right. pose proof (Hprio k i Hx) as ->. apply list_elem_of_split in Hx as (l1 & l2 & El).
    destruct (rq_dequeue_ok s Q c k prio p H Hr l1 l2 El) as (s' & -> & H1 & H2 & H3).
    exists s', l1, l2. split_and!; auto.
  - right. exact IHs.
  - rewrite Hpq, res_bind_ok. cbn [pq_head]. destruct (rq_nodup _ _ H c k i) as [_ H0].
    rewrite (scan_list_ok fuel s 0 (Q c k i) p), res_bind_ok by auto.
    case_bool_decide as Hx; [|right; exact IHs].
    right. pose proof (Hprio k i Hx) as ->. apply list_elem_of_split in Hx as (l1 & l2 & El).
    destruct (rq_dequeue_ok s Q c k prio p H Hr l1 l2 El) as (s' & -> & H1 & H2 & H3).
    exists s', l1, l2. split_and!; auto.
Qed.

(** When the fields of [p] say where it is queued, [rq_remove_if_queued] takes
    it out, and leaves the queues alone when it is in none of its CPU. *)
Lemma rq_remove_ok cpu_id :
  c = (if cpu_id <? SCHED_MAX_CPUS then cpu_id else 0) ->
  exists s' Q', rq_remove_if_queued fuel s p cpu_id prio = Ok s' /\ rq_ok s' Q' /\
    rq_frame s s' /\ (forall q, rq_dom s q -> rq_dom s' q) /\
    ((Q' = Q /\ forall k i, p ∉ Q c k i) \/
     (exists k l1 l2, Q c k prio = l1 ++ p :: l2 /\ Q' = updQ Q c k prio (l1 ++ l2))).
Proof.
  intros Ec. unfold rq_remove_if_queued. rewrite <- Ec.
  rewrite arr_get_ok by (rewrite (rq_cpus _ _ H); auto). rewrite res_bind_ok.
  destruct (act_range s Q c H Hc) as (Ha & He & Hae). fold (act s c). fold (expd s c).
  destruct (scan_prios_ok (Z.to_nat SCHED_NUM_PRIOS) (act s c) 0 Ha ltac:(lia) eq_refl)
    as [[E1 Hn1]|(s' & l1 & l2 & E1 & El & H1 & H2 & H3)]; rewrite E1, res_bind_ok.
  2: { exists s', (updQ Q c (act s c) prio (l1 ++ l2)). split_and!; auto. right. eauto. }
  destruct (scan_prios_ok (Z.to_nat SCHED_NUM_PRIOS) (expd s c) 0 He ltac:(lia) eq_refl)
    as [[E2 Hn2]|(s' & l1 & l2 & E2 & El & H1 & H2 & H3)]; rewrite E2, res_bind_ok.
  2: { exists s', (updQ Q c (expd s c) prio (l1 ++ l2)). split_and!; auto. right. eauto. }
  exists s, Q. split_and!; auto; [intros c'; auto|]. left. split; auto. intros k i Hx.
  destruct (rq_inside _ _ H _ _ _ _ Hx) as (_ & Hk & Hi).
  assert (k = act s c \/ k = expd s c) as [->| ->] by lia.
  - apply (Hn1 i); [lia|auto].
  - apply (Hn2 i); [lia|auto].
Qed.
End remove_ok.
