(* ===== verification/SortedQ.v ===== *)
(** The two timer queues of src/kernel/scheduler.c, [sleep_*] and [alarm_*]:
    doubly linked lists threaded through the processes and sorted by a tick.
    The code of the two queues is the same up to the names of the fields; here
    it is written once, over the tick of a process ([key]), and the scheduler
    instantiates it twice. *)

From Stdlib Require Import Sorting.Sorted.
From S2P Require Import Prelude Ring.

(** [tq_in] is the field [in_sleep_queue] or [in_alarm_queue]. *)
Record tqueue : Type := TQueue {
  tq_head : Z;
  tq_next : gmap Z Z;
  tq_prev : gmap Z Z;
  tq_in : gmap Z Z
}.

Section ops.
Variable key : Z -> res Z.

(** [while (cur->next && cur->next->tick < p->tick) cur = cur->next;] *)
Fixpoint queue_seek (fuel : nat) (s : tqueue) (cur kp : Z) : res Z :=
  match fuel with
  | O => NoFuel
  | S fuel =>
      n ← fget (tq_next s) cur;
      if n =? 0 then mret cur
      else
        kn ← key n;
        if kn <? kp then queue_seek fuel s n kp else mret cur
  end.

Definition insert_front (s : tqueue) (inq : gmap Z Z) (p : Z) : res tqueue :=
  pv ← fset (tq_prev s) p 0;
  nx ← fset (tq_next s) p (tq_head s);
  pv ← fset0 pv (tq_head s) p;
  mret (TQueue p nx pv inq).

Definition insert_after (s : tqueue) (inq : gmap Z Z) (cur p : Z) : res tqueue :=
  cn ← fget (tq_next s) cur;
  nx ← fset (tq_next s) p cn;
  pv ← fset (tq_prev s) p cur;
  cn ← fget nx cur;
  pv ← fset0 pv cn p;
  nx ← fset nx cur p;
  mret (TQueue (tq_head s) nx pv inq).

Definition queue_insert (fuel : nat) (s : tqueue) (p : Z) : res tqueue :=
  inq ← fset (tq_in s) p 1;
  if tq_head s =? 0 then insert_front s inq p
  else
    kp ← key p;
    kh ← key (tq_head s);
    if kp <=? kh then insert_front s inq p
    else
      cur ← queue_seek fuel s (tq_head s) kp;
      insert_after s inq cur p.

Definition queue_remove (s : tqueue) (p : Z) : res tqueue :=
  i ← fget (tq_in s) p;
  if i =? 0 then mret s
  else
    pr ← fget (tq_prev s) p;
    ne ← fget (tq_next s) p;
    nx ← fset0 (tq_next s) pr ne;
    let head := if pr =? 0 then ne else tq_head s in
    ne ← fget nx p;
    pv ← fset0 (tq_prev s) ne pr;
    pv ← fset pv p 0;
    nx ← fset nx p 0;
    inq ← fset (tq_in s) p 0;
    mret (TQueue head nx pv inq).
End ops.

(** ** Invariant *)

Definition tq_dom (s : tqueue) (p : Z) : Prop :=
  is_Some (tq_next s !! p) /\ is_Some (tq_prev s !! p) /\ is_Some (tq_in s !! p).

(** [l] are the queued processes in order, [K] their ticks. *)
Record tq_ok (K : Z -> Z) (s : tqueue) (l : list Z) : Prop := TqOk {
  tq_ok_head : tq_head s = hd 0 l;
  tq_ok_seg : seg (tq_next s) (tq_prev s) 0 l 0;
  tq_ok_nodup : NoDup l;
  tq_ok_null : 0 ∉ l;
  tq_ok_in : forall x, x ∈ l -> tq_in s !! x = Some 1;
  tq_ok_out : forall x v, x ∉ l -> tq_in s !! x = Some v -> v = 0;
  tq_ok_sorted : StronglySorted (fun x y => K x <= K y) l
}.

(** Only the ticks of queued processes matter. *)
Lemma tq_ok_key K K' s l : (forall x, x ∈ l -> K x = K' x) -> tq_ok K s l -> tq_ok K' s l.
Proof.
  intros He [H1 H2 H3 H4 H5 H6 H7]. split; auto.
  clear -He H7. induction H7 as [|x l Hs IH Hall]; constructor.
  - apply IH. set_solver.
  - rewrite Forall_forall in *. intros y Hy. rewrite <- !He by set_solver. auto.
Qed.

Lemma sorted_app (K : Z -> Z) (l1 l2 : list Z) :
  StronglySorted (fun x y => K x <= K y) (l1 ++ l2) ->
  StronglySorted (fun x y => K x <= K y) l1 /\ StronglySorted (fun x y => K x <= K y) l2 /\
  forall x y, x ∈ l1 -> y ∈ l2 -> K x <= K y.
Proof.
  induction l1 as [|x l1 IH]; simpl; intros Hs.
  - split; [constructor|]. split; [auto|]. set_solver.
  - apply StronglySorted_inv in Hs as [Hs Hall]. destruct (IH Hs) as (S1 & S2 & S3).
    rewrite Forall_forall in Hall. split; [|split; [auto|]].
    + constructor; auto. apply Forall_forall. intros y Hy. apply Hall. set_solver.
    + intros a b [->|Ha]%elem_of_cons Hb; [apply Hall; set_solver|auto].
Qed.

Lemma sorted_join (K : Z -> Z) (l1 l2 : list Z) :
  StronglySorted (fun x y => K x <= K y) l1 -> StronglySorted (fun x y => K x <= K y) l2 ->
  (forall x y, x ∈ l1 -> y ∈ l2 -> K x <= K y) ->
  StronglySorted (fun x y : Z => K x <= K y) (l1 ++ l2).
Proof.
  induction 1 as [|x l1 Hs IH Hall]; simpl; intros H2 H12; [auto|]. constructor.
  - apply IH; auto. intros a b Ha. apply H12. set_solver.
  - rewrite Forall_forall in *. intros y [Hy|Hy]%elem_of_app; [auto|apply H12; set_solver].
Qed.

Lemma filter_ne_id (p : Z) (l : list Z) : p ∉ l -> filter (fun x => x <> p) l = l.
Proof. intros Hp. apply filter_all. intros x Hx ->. contradiction. Qed.

Section ok.
Context (key : Z -> res Z) (K : Z -> Z) (s : tqueue) (l : list Z).
Hypothesis (H : tq_ok K s l) (Hkey : forall x, x ∈ l -> key x = Ok (K x)).

Lemma queue_seek_ok fuel kp : forall l1 cur l2,
  l = l1 ++ cur :: l2 -> (forall x, x ∈ l1 ++ [cur] -> K x < kp) -> (length l2 < fuel)%nat ->
  exists k1 c k2, queue_seek key fuel s cur kp = Ok c /\ l = k1 ++ c :: k2 /\
    (forall x, x ∈ k1 ++ [c] -> K x < kp) /\ (forall x, x ∈ k2 -> kp <= K x).
Proof.
  induction fuel as [|fuel IH]; intros l1 cur l2 El Hlt Hf; [lia|]. cbn [queue_seek].
  pose proof (tq_ok_seg _ _ _ H) as Hs. rewrite El in Hs.
  destruct (seg_mid _ _ _ _ _ _ _ Hs) as [_ Hn]. rewrite (fget_ok _ _ _ Hn), res_bind_ok.
  destruct l2 as [|y l2]; simpl hd.
  { exists l1, cur, []. split_and!; auto. set_solver. }
  pose proof (tq_ok_null _ _ _ H) as H0. rewrite El in H0.
  destruct (Z.eqb_spec y 0) as [->|Hy]; [set_solver|].
  rewrite Hkey by (rewrite El; set_solver). rewrite res_bind_ok.
  destruct (Z.ltb_spec (K y) kp) as [Hk|Hk].
  - apply (IH (l1 ++ [cur]) y l2); [rewrite El, <- app_assoc; reflexivity| |simpl in Hf; lia].
    intros x [Hx|Hx]%elem_of_app; [auto|]. apply list_elem_of_singleton in Hx as ->. auto.
  - exists l1, cur, (y :: l2). split_and!; auto. intros x Hx.
    pose proof (tq_ok_sorted _ _ _ H) as Hsrt. rewrite El in Hsrt.
    apply sorted_app in Hsrt as (_ & Hsrt & _). apply StronglySorted_inv in Hsrt as [Hsrt _].
    apply StronglySorted_inv in Hsrt as [_ Hall]. rewrite Forall_forall in Hall.
    apply elem_of_cons in Hx as [->|Hx]; [auto|]. specialize (Hall x Hx). lia.
Qed.

(** The lists an insertion may produce. *)
Definition inserted (p : Z) (l' : list Z) : Prop :=
  exists l1 l2, l = l1 ++ l2 /\ l' = l1 ++ p :: l2 /\
    (forall x, x ∈ l1 -> K x < K p) /\ (forall x, x ∈ l2 -> K p <= K x).

Lemma inserted_ok p nx pv inq head l1 l2 :
  l = l1 ++ l2 -> (forall x, x ∈ l1 -> K x < K p) -> (forall x, x ∈ l2 -> K p <= K x) ->
  p ∉ l -> p <> 0 -> head = hd 0 (l1 ++ p :: l2) ->
  nx = upd0 (lastd 0 l1) p (<[p := hd 0 l2]> (tq_next s)) ->
  pv = upd0 (hd 0 l2) p (<[p := lastd 0 l1]> (tq_prev s)) ->
  inq = <[p := 1]> (tq_in s) ->
  tq_ok K (TQueue head nx pv inq) (l1 ++ p :: l2).
Proof.
  intros El Hlt Hge Hp Hp0 -> -> -> ->. destruct H as [H1 H2 H3 H4 H5 H6 H7]. rewrite El in *.
  split; simpl; auto.
  - apply seg_insert; auto.
  - apply NoDup_app in H3 as (Ha & Hb & Hc). apply NoDup_app. split_and!; [auto| |].
    + intros x Hx. specialize (Hb x Hx). set_solver.
    + apply NoDup_cons. set_solver.
  - set_solver.
  - intros x Hx. destruct (decide (p = x)) as [->|]; [apply lookup_insert_eq|].
    rewrite lookup_insert_ne by auto. apply H5. set_solver.
  - intros x v Hx. rewrite lookup_insert_ne by set_solver. apply H6. set_solver.
  - apply sorted_app in H7 as (S1 & S2 & S3). apply sorted_join; auto.
    + constructor; auto. apply Forall_forall. auto.
    + intros x y Hx [->|Hy]%elem_of_cons; [|auto]. specialize (Hlt x Hx). lia.
Qed.

Lemma tq_dom_same p nx pv inq head :
  (forall q, is_Some (tq_next s !! q) -> is_Some (nx !! q)) ->
  (forall q, is_Some (tq_prev s !! q) -> is_Some (pv !! q)) ->
  (forall q, is_Some (tq_in s !! q) -> is_Some (inq !! q)) ->
  tq_dom s p -> tq_dom (TQueue head nx pv inq) p.
Proof. intros A B C (? & ? & ?). split_and!; simpl; auto. Qed.

Lemma queue_insert_ok fuel p :
  p ∉ l -> p <> 0 -> tq_dom s p -> key p = Ok (K p) -> (length l < fuel)%nat ->
  exists s' l', queue_insert key fuel s p = Ok s' /\ inserted p l' /\ tq_ok K s' l' /\
    (forall q, tq_dom s q -> tq_dom s' q).
Proof.
  intros Hp Hp0 (Hd1 & Hd2 & Hd3) Hkp Hf. unfold queue_insert.
  rewrite fset_ok, res_bind_ok by auto. pose proof (tq_ok_head _ _ _ H) as Hh.
  assert (Hfront : (forall x, x ∈ l -> K p <= K x) ->
    exists s' l', insert_front s (<[p := 1]> (tq_in s)) p = Ok s' /\ inserted p l' /\ tq_ok K s' l' /\
      (forall q, tq_dom s q -> tq_dom s' q)).
  { intros Hge. unfold insert_front.
    rewrite (fset_ok (tq_prev s)), res_bind_ok by auto.
    rewrite (fset_ok (tq_next s)), res_bind_ok by auto.
    rewrite fset0_opt, res_bind_ok.
    2: { rewrite Hh. destruct (hd_elem 0 l) as [|Hin]; [auto|right].
         apply insert_is_Some, (seg_in _ _ _ _ _ _ (tq_ok_seg _ _ _ H) Hin). }
    eexists _, (p :: l). split; [reflexivity|]. split; [exists [], l; split_and!; auto; set_solver|].
    split.
    - apply (inserted_ok p _ _ _ _ [] l); auto; [set_solver|simpl; rewrite Hh; reflexivity..].
    - intros q. apply tq_dom_same; auto with adros. }
  destruct (Z.eqb_spec (tq_head s) 0) as [E|Hne].
  { apply Hfront. pose proof (tq_ok_null _ _ _ H) as H0. rewrite Hh in E.
    destruct (hd_elem 0 l) as [_|Hin]; [|rewrite E in Hin; contradiction].
    intros x Hx. destruct l; [set_solver|]. simpl in E. set_solver. }
  assert (exists y t, l = y :: t) as (y & t & El) by (destruct l; [contradiction|eauto]).
  rewrite El in Hh. simpl in Hh.
  rewrite Hkp, res_bind_ok, Hh, Hkey by (rewrite El; set_solver). rewrite res_bind_ok.
  destruct (Z.leb_spec (K p) (K y)) as [Hle|Hgt].
  { apply Hfront. pose proof (tq_ok_sorted _ _ _ H) as Hsrt. rewrite El in Hsrt.
    apply StronglySorted_inv in Hsrt as [_ Hall]. rewrite Forall_forall in Hall.
    rewrite El. intros x [->|Hx]%elem_of_cons; [auto|]. specialize (Hall x Hx). lia. }
  destruct (queue_seek_ok fuel (K p) [] y t) as (k1 & cur & k2 & -> & Ek & Hlt & Hge);
    [rewrite El; reflexivity|set_solver|rewrite El in Hf; simpl in Hf; lia|].
  rewrite res_bind_ok. unfold insert_after.
  pose proof (tq_ok_seg _ _ _ H) as Hs. rewrite Ek in Hs.
  destruct (seg_mid _ _ _ _ _ _ _ Hs) as [_ Hn]. rewrite (fget_ok _ _ _ Hn), res_bind_ok.
  assert (Hcur : cur ∈ l) by (rewrite Ek; set_solver).
  assert (Hcp : p <> cur) by (intros ->; auto).
  rewrite (fset_ok (tq_next s)), res_bind_ok by auto.
  rewrite (fset_ok (tq_prev s)), res_bind_ok by auto.
  rewrite (fget_ok _ _ (hd 0 k2)), res_bind_ok by (rewrite lookup_insert_ne; auto).
  rewrite fset0_opt, res_bind_ok.
  2: { destruct (hd_elem 0 k2) as [|Hin]; [auto|right].
       apply insert_is_Some, (seg_in _ _ _ _ _ _ Hs). set_solver. }
  rewrite fset_ok, res_bind_ok by (apply insert_is_Some; eauto).
  assert (Hc0 : cur <> 0) by (intros ->; apply (tq_ok_null _ _ _ H); auto).
  eexists _, ((k1 ++ [cur]) ++ p :: k2). split; [reflexivity|].
  assert (Ek' : l = (k1 ++ [cur]) ++ k2) by (rewrite Ek, <- app_assoc; reflexivity).
  split; [exists (k1 ++ [cur]), k2; auto|]. split.
  - apply (inserted_ok p _ _ _ _ (k1 ++ [cur]) k2); auto.
    + rewrite (tq_ok_head _ _ _ H), Ek. destruct k1; reflexivity.
    + rewrite lastd_app. simpl. unfold upd0. destruct (Z.eqb_spec cur 0); [contradiction|reflexivity].
    + rewrite lastd_app. reflexivity.
  - intros q. apply tq_dom_same; auto with adros.
Qed.

End ok.

Lemma queue_remove_ok K s l p :
  tq_ok K s l -> is_Some (tq_in s !! p) ->
  exists s' , queue_remove s p = Ok s' /\ tq_ok K s' (filter (fun x => x <> p) l) /\
    (forall q, tq_dom s q -> tq_dom s' q).
Proof.
  intros H [v Hv]. unfold queue_remove. rewrite (fget_ok _ _ _ Hv), res_bind_ok.
  destruct (decide (p ∈ l)) as [Hin|Hout].
  2: { rewrite (tq_ok_out _ _ _ H _ _ Hout Hv). exists s. split; [reflexivity|]. split; [|auto].
       rewrite filter_ne_id; auto. }
  rewrite (tq_ok_in _ _ _ H _ Hin) in Hv. injection Hv as <-. simpl.
  apply list_elem_of_split in Hin as (l1 & l2 & El). pose proof H as [H1 H2 H3 H4 H5 H6 H7].
  rewrite El in *. destruct (seg_mid _ _ _ _ _ _ _ H2) as [Hpv Hnx].
  pose proof H3 as (Hd1 & Hd12 & [Hp2 Hd2]%NoDup_cons)%NoDup_app.
  assert (Hp1 : p ∉ l1) by (intros Hx; apply (Hd12 p Hx); set_solver).
  assert (Hp0 : p <> 0) by set_solver.
  assert (Hlast : lastd 0 l1 = 0 \/ lastd 0 l1 ∈ l1) by apply lastd_elem.
  assert (Hhd : hd 0 l2 = 0 \/ hd 0 l2 ∈ l2) by apply hd_elem.
  assert (Hlp : p <> lastd 0 l1) by (destruct Hlast as [->|Hx]; [auto|intros ->; auto]).
  rewrite (fget_ok _ _ _ Hpv), res_bind_ok, (fget_ok _ _ _ Hnx), res_bind_ok.
  rewrite fset0_opt, res_bind_ok
    by (destruct Hlast as [|Hx]; [auto|right; apply (seg_in _ _ _ _ _ _ H2); set_solver]).
  rewrite (fget_ok _ _ (hd 0 l2)), res_bind_ok by (rewrite upd0_ne by auto; auto).
  rewrite fset0_opt, res_bind_ok
    by (destruct Hhd as [|Hx]; [auto|right; apply (seg_in _ _ _ _ _ _ H2); set_solver]).
  rewrite (fset_ok (upd0 (hd 0 l2) _ _)), res_bind_ok by (apply upd0_is_Some; eauto).
  rewrite (fset_ok (upd0 (lastd 0 l1) _ _)), res_bind_ok by (apply upd0_is_Some; eauto).
  rewrite fset_ok, res_bind_ok by (rewrite H5 by set_solver; eauto).
  eexists. split; [reflexivity|].
  assert (Ef : filter (fun x => x <> p) (l1 ++ p :: l2) = l1 ++ l2).
  { rewrite filter_app, filter_cons_False, !filter_ne_id by auto. reflexivity. }
  rewrite Ef. split; [|intros q; apply tq_dom_same; auto with adros].
  split; simpl.
  - destruct l1 as [|y l1]; [reflexivity|]. simpl app in H1 |- *.
    destruct (Z.eqb_spec (lastd 0 (y :: l1)) 0) as [E|]; [|exact H1].
    exfalso. apply (lastd_nonzero 0 (y :: l1)); [set_solver|discriminate|exact E].
  - apply seg_remove; auto.
  - apply NoDup_app. split_and!; auto. intros x Hx Hx2. apply (Hd12 x Hx). set_solver.
  - set_solver.
  - intros x Hx. rewrite lookup_insert_ne by (intros ->; set_solver). apply H5. set_solver.
  - intros x w Hx. destruct (decide (p = x)) as [->|].
    + rewrite lookup_insert_eq. congruence.
    + rewrite lookup_insert_ne by auto. apply H6. set_solver.
  - apply sorted_app in H7 as (S1 & S2 & S3). apply StronglySorted_inv in S2 as [S2 _].
    apply sorted_join; auto. intros x y Hx Hy. apply S3; set_solver.
Qed.
