(* ===== verification/Kstack.v ===== *)
(** The kernel stack allocator of src/kernel/scheduler.c ([kstack_alloc],
    [kstack_free]): slots of a guard page and two stack pages in the window
    0xC8000000, with a bounded stack of recycled slots. *)

From S2P Require Import Prelude.

Definition KSTACK_REGION : Z := 3355443200.    (* 0xC8000000 *)
Definition KSTACK_PAGES : Z := 2.
Definition KSTACK_SIZE : Z := KSTACK_PAGES * 4096.
Definition KSTACK_SLOT : Z := 4096 + KSTACK_SIZE.
Definition KSTACK_MAX : Z := 10922.
Definition KSTACK_FREE_MAX : Z := 256.

Record kstack : Type := Kstack {
  kstack_next_slot : Z;
  kstack_free_stack : array Z;
  kstack_free_top : Z
}.

Definition kstack_init : kstack := Kstack 0 (arr_new KSTACK_FREE_MAX 0) 0.

(** The services of the memory managers the allocator calls, on whatever state
    [W] they keep. *)
Class MemOps (W : Type) : Type := {
  pmm_alloc_page : W -> res (Z * W);
  vmm_map_page : W -> Z -> Z -> Z -> res W;
  vmm_unmap_page : W -> Z -> res W;
  memset : W -> Z -> Z -> Z -> res W
}.

Section ops.
Context {W : Type} `{MemOps W}.

(** Taking a slot under the lock. *)
Definition take_slot (k : kstack) : res (option (Z * kstack)) :=
  if 0 <? kstack_free_top k then
    let top := kstack_free_top k - 1 in
    slot ← arr_get (kstack_free_stack k) top;
    mret (Some (slot, Kstack (kstack_next_slot k) (kstack_free_stack k) top))
  else if kstack_next_slot k <? KSTACK_MAX then
    mret (Some (kstack_next_slot k,
                Kstack (kstack_next_slot k + 1) (kstack_free_stack k) (kstack_free_top k)))
  else mret None.

(** Maps the stack pages from page [i] on; [false] when memory runs out. *)
Fixpoint map_pages (n : nat) (w : W) (base i : Z) : res (bool * W) :=
  match n with
  | O => mret (true, w)
  | S n =>
      '(phys, w) ← pmm_alloc_page w;
      if phys =? 0 then mret (false, w)
      else
        w ← vmm_map_page w phys (u32 (base + 4096 + i * 4096)) 3;
        map_pages n w base (i + 1)
  end.

Definition kstack_alloc (k : kstack) (w : W) : res (Z * kstack * W) :=
  o ← take_slot k;
  match o with
  | None => mret (0, k, w)
  | Some (slot, k) =>
      let base := u32 (KSTACK_REGION + u32 (slot * KSTACK_SLOT)) in
      '(mapped, w) ← map_pages (Z.to_nat KSTACK_PAGES) w base 0;
      if (mapped : bool) then
        w ← memset w (u32 (base + 4096)) 0 KSTACK_SIZE;
        mret (u32 (base + 4096), k, w)
      else mret (0, k, w)
  end.

Fixpoint unmap_pages (n : nat) (w : W) (addr i : Z) : res W :=
  match n with
  | O => mret w
  | S n => w ← vmm_unmap_page w (u32 (addr + i * 4096)); unmap_pages n w addr (i + 1)
  end.

Definition push_slot (k : kstack) (slot : Z) : res kstack :=
  if kstack_free_top k <? KSTACK_FREE_MAX then
    st ← arr_set (kstack_free_stack k) (kstack_free_top k) slot;
    mret (Kstack (kstack_next_slot k) st (kstack_free_top k + 1))
  else mret k.

Definition kstack_free (k : kstack) (w : W) (stack : Z) : res (kstack * W) :=
  if stack =? 0 then mret (k, w)
  else if (stack <? KSTACK_REGION) || (KSTACK_REGION + KSTACK_MAX * KSTACK_SLOT <=? stack)
  then mret (k, w)
  else
    w ← unmap_pages (Z.to_nat KSTACK_PAGES) w stack 0;
    let slot := u32 (stack - 4096 - KSTACK_REGION) / KSTACK_SLOT in
    k ← push_slot k slot;
    mret (k, w).
End ops.

(** ** Invariant: recycled slots are distinct, not live, and below the mark *)

Definition stack_of (slot : Z) : Z := KSTACK_REGION + slot * KSTACK_SLOT + 4096.

Record kstack_ok (k : kstack) (live : gset Z) : Prop := KstackOk {
  ko_len : arr_len (kstack_free_stack k) = KSTACK_FREE_MAX;
  ko_next : 0 <= kstack_next_slot k <= KSTACK_MAX;
  ko_top : 0 <= kstack_free_top k <= KSTACK_FREE_MAX;
  ko_live : forall s, s ∈ live -> 0 <= s < kstack_next_slot k;
  ko_free : forall i, 0 <= i < kstack_free_top k ->
    0 <= arr_at (kstack_free_stack k) i < kstack_next_slot k /\
    arr_at (kstack_free_stack k) i ∉ live;
  ko_inj : forall i j, 0 <= i < kstack_free_top k -> 0 <= j < kstack_free_top k ->
    arr_at (kstack_free_stack k) i = arr_at (kstack_free_stack k) j -> i = j
}.

Lemma kstack_init_ok : kstack_ok kstack_init ∅.
Proof.
  split; simpl; unfold KSTACK_MAX, KSTACK_FREE_MAX; try (intros; lia). set_solver.
Qed.

Lemma take_slot_ok k live :
  kstack_ok k live ->
  take_slot k = Ok None \/
  (exists slot k', take_slot k = Ok (Some (slot, k')) /\ 0 <= slot < KSTACK_MAX /\ slot ∉ live /\
     kstack_ok k' ({[slot]} ∪ live) /\ kstack_ok k' live).
Proof.
  intros [H1 H2 H3 H4 H5 H6]. unfold take_slot. destruct (Z.ltb_spec 0 (kstack_free_top k)).
  - right. rewrite arr_get_ok by lia. rewrite res_bind_ok.
    set (t := kstack_free_top k - 1). destruct (H5 t) as [Hs1 Hs2]; [lia|].
    eexists _, _. split; [reflexivity|]. split; [lia|]. split; [auto|].
    split; split; simpl; auto; try lia.
    + intros s Hs. apply elem_of_union in Hs as [->%elem_of_singleton|Hs]; auto.
    + intros i Hi. destruct (H5 i) as [Ha Hb]; [lia|]. split; [auto|].
      intros [E%elem_of_singleton|]%elem_of_union; [|auto]. apply H6 in E; lia.
    + intros i j Hi Hj. apply H6; lia.
    + intros i Hi. apply H5. lia.
    + intros i j Hi Hj. apply H6; lia.
  - destruct (Z.ltb_spec (kstack_next_slot k) KSTACK_MAX); [right|left; reflexivity].
    eexists _, _. split; [reflexivity|]. split; [lia|].
    split; [intros Hs; specialize (H4 _ Hs); lia|].
    split; split; simpl; auto; try lia; try (intros; lia).
    + intros s Hs. apply elem_of_union in Hs as [->%elem_of_singleton|Hs]; [lia|].
      specialize (H4 s Hs). lia.
    + intros s Hs. specialize (H4 s Hs). lia.
Qed.

Lemma push_slot_ok k live slot :
  kstack_ok k live -> slot ∈ live ->
  exists k', push_slot k slot = Ok k' /\ kstack_ok k' (live ∖ {[slot]}).
Proof.
  intros [H1 H2 H3 H4 H5 H6] Hs. unfold push_slot.
  destruct (Z.ltb_spec (kstack_free_top k) KSTACK_FREE_MAX).
  - rewrite arr_set_ok by lia. rewrite res_bind_ok. eexists. split; [reflexivity|].
    split; simpl; auto; try lia.
    + intros s Hs'. apply H4. set_solver.
    + intros i Hi. rewrite arr_at_put. destruct (Z.eqb_spec (kstack_free_top k) i) as [_|].
      * split; [auto|set_solver].
      * destruct (H5 i) as [? ?]; [lia|]. split; [auto|set_solver].
    + intros i j Hi Hj. rewrite !arr_at_put.
      destruct (Z.eqb_spec (kstack_free_top k) i) as [<-|], (Z.eqb_spec (kstack_free_top k) j) as [<-|];
        auto; intros E.
      * exfalso. apply (H5 j); [lia|]. rewrite <- E. auto.
      * exfalso. apply (H5 i); [lia|]. rewrite E. auto.
      * apply H6; lia.
  - eexists. split; [reflexivity|]. split; auto.
    + intros s Hs'. apply H4. set_solver.
    + intros i Hi. destruct (H5 i Hi). split; [auto|set_solver].
Qed.

Section contract.
Context {W : Type} `{MemOps W}.
(** The memory managers return; nothing more is assumed of them. *)
Hypothesis (Halloc : forall w, exists p w', pmm_alloc_page w = Ok (p, w')).
Hypothesis (Hmap : forall w p va f, exists w', vmm_map_page w p va f = Ok w').
Hypothesis (Hunmap : forall w va, exists w', vmm_unmap_page w va = Ok w').
Hypothesis (Hmemset : forall w a v n, exists w', memset w a v n = Ok w').

Lemma map_pages_ok n : forall w base i, exists b w', map_pages n w base i = Ok (b, w').
Proof.
  induction n as [|n IH]; intros w base i; cbn [map_pages]; [eexists _, _; reflexivity|].
  destruct (Halloc w) as (p & w1 & ->). rewrite res_bind_ok.
  destruct (p =? 0); [eexists _, _; reflexivity|].
  destruct (Hmap w1 p (u32 (base + 4096 + i * 4096)) 3) as (w2 & ->). rewrite res_bind_ok. apply IH.
Qed.

Lemma unmap_pages_ok n : forall w a i, exists w', unmap_pages n w a i = Ok w'.
Proof.
  induction n as [|n IH]; intros w a i; cbn [unmap_pages]; [eexists; reflexivity|].
  destruct (Hunmap w (u32 (a + i * 4096))) as (w1 & ->). rewrite res_bind_ok. apply IH.
Qed.

Lemma stack_of_u32 slot : 0 <= slot < KSTACK_MAX ->
  u32 (u32 (KSTACK_REGION + u32 (slot * KSTACK_SLOT)) + 4096) = stack_of slot.
Proof.
  intros. unfold stack_of, KSTACK_REGION, KSTACK_SLOT, KSTACK_SIZE, KSTACK_PAGES, KSTACK_MAX in *.
  rewrite (u32_small (slot * _)) by lia. rewrite (u32_small (3355443200 + _)) by lia. apply u32_small. lia.
Qed.

Lemma kstack_alloc_ok k live w :
  kstack_ok k live ->
  exists r k' w', kstack_alloc k w = Ok (r, k', w') /\
    ((r = 0 /\ kstack_ok k' live) \/
     (exists slot, r = stack_of slot /\ 0 <= slot < KSTACK_MAX /\ slot ∉ live /\
        kstack_ok k' ({[slot]} ∪ live))).
Proof.
  intros Hok. unfold kstack_alloc. destruct (take_slot_ok k live Hok)
    as [->|(slot & k' & -> & Hs & Hn & Hk1 & Hk2)]; rewrite res_bind_ok.
  { eexists _, _, _. split; [reflexivity|]. auto. }
  destruct (map_pages_ok (Z.to_nat KSTACK_PAGES) w (u32 (KSTACK_REGION + u32 (slot * KSTACK_SLOT))) 0)
    as (b & w1 & ->). rewrite res_bind_ok. destruct b.
  - rewrite stack_of_u32 by auto. destruct (Hmemset w1 (stack_of slot) 0 KSTACK_SIZE) as (w2 & ->).
    rewrite res_bind_ok. eexists _, _, _. split; [reflexivity|]. right. eauto 10.
  - eexists _, _, _. split; [reflexivity|]. auto.
Qed.

Lemma kstack_free_ok k live w slot :
  kstack_ok k live -> slot ∈ live ->
  exists k' w', kstack_free k w (stack_of slot) = Ok (k', w') /\ kstack_ok k' (live ∖ {[slot]}).
Proof.
  intros Hok Hs. pose proof (ko_live _ _ Hok _ Hs). pose proof (ko_next _ _ Hok).
  unfold kstack_free, stack_of.
  unfold KSTACK_REGION, KSTACK_SLOT, KSTACK_SIZE, KSTACK_PAGES, KSTACK_MAX in *.
  destruct (Z.eqb_spec (3355443200 + slot * (4096 + 2 * 4096) + 4096) 0); [lia|].
  destruct (Z.ltb_spec (3355443200 + slot * (4096 + 2 * 4096) + 4096) 3355443200); [lia|].
  destruct (Z.leb_spec (3355443200 + 10922 * (4096 + 2 * 4096))
                       (3355443200 + slot * (4096 + 2 * 4096) + 4096)); [lia|]. cbn [orb].
  destruct (unmap_pages_ok (Z.to_nat 2) w (3355443200 + slot * (4096 + 2 * 4096) + 4096) 0)
    as (w1 & ->). rewrite res_bind_ok.
  replace (3355443200 + slot * (4096 + 2 * 4096) + 4096 - 4096 - 3355443200)
    with (slot * (4096 + 2 * 4096)) by lia.
  rewrite u32_small, Z.div_mul by lia. destruct (push_slot_ok k live slot Hok Hs) as (k' & -> & Hk').
  rewrite res_bind_ok. eauto.
Qed.

(** Whatever the memory managers answer, kernel stacks never collide:
    [kstack_alloc] returns NULL or the stack of a slot that is not live, whose
    guard page and stack pages lie inside the window and meet those of no live
    slot, and [kstack_free] of a live stack makes exactly its slot reusable. *)
Theorem kstack_slots_disjoint k live w slot :
  kstack_ok k live -> slot ∈ live ->
  (exists r k' w', kstack_alloc k w = Ok (r, k', w') /\
    ((r = 0 /\ kstack_ok k' live) \/
     (exists n, r = stack_of n /\ kstack_ok k' ({[n]} ∪ live) /\
        KSTACK_REGION <= r - 4096 /\ r + KSTACK_SIZE <= KSTACK_REGION + KSTACK_MAX * KSTACK_SLOT /\
        forall m, m ∈ live -> r + KSTACK_SIZE <= stack_of m - 4096 \/
                              stack_of m + KSTACK_SIZE <= r - 4096))) /\
  (exists k' w', kstack_free k w (stack_of slot) = Ok (k', w') /\ kstack_ok k' (live ∖ {[slot]})).
Proof.
  intros Hok Hs. split; [|apply kstack_free_ok; auto].
  destruct (kstack_alloc_ok k live w Hok) as (r & k' & w' & Hr & Hcase).
  exists r, k', w'. split; [auto|]. destruct Hcase as [|(n & -> & Hn & Hnl & Hk')]; [auto|right].
  exists n. unfold stack_of. unfold KSTACK_SLOT, KSTACK_SIZE, KSTACK_PAGES, KSTACK_MAX in *.
  split_and!; auto; try lia. intros m Hm. assert (n <> m) by (intros ->; auto). lia.
Qed.
End contract.

(** A slot is lost when the page allocator fails in the middle: the failing
    path of [kstack_alloc] returns without recycling it. *)
#[local] Instance no_memory : MemOps unit := {|
  pmm_alloc_page w := Ok (0, w); vmm_map_page w _ _ _ := Ok w;
  vmm_unmap_page w _ := Ok w; memset w _ _ _ := Ok w
|}.

Example kstack_oom_loses_slot :
  kstack_alloc kstack_init tt = Ok (0, Kstack 1 (arr_new KSTACK_FREE_MAX 0) 0, tt).
Proof. reflexivity. Qed.

#[local] Instance plain_memory : MemOps Z := {|
  pmm_alloc_page w := Ok (w, w + 4096); vmm_map_page w _ _ _ := Ok w;
  vmm_unmap_page w _ := Ok w; memset w _ _ _ := Ok w
|}.

Lemma kstack_slots_disjoint_witness :
  (exists r k' w', kstack_alloc (Kstack 1 (arr_new KSTACK_FREE_MAX 0) 0) 4096 = Ok (r, k', w') /\
    ((r = 0 /\ kstack_ok k' {[0]}) \/
     (exists n, r = stack_of n /\ kstack_ok k' ({[n]} ∪ {[0]}) /\
        KSTACK_REGION <= r - 4096 /\ r + KSTACK_SIZE <= KSTACK_REGION + KSTACK_MAX * KSTACK_SLOT /\
        forall m, m ∈ ({[0]} : gset Z) -> r + KSTACK_SIZE <= stack_of m - 4096 \/
                              stack_of m + KSTACK_SIZE <= r - 4096))) /\
  (exists k' w', kstack_free (Kstack 1 (arr_new KSTACK_FREE_MAX 0) 0) 4096 (stack_of 0)
     = Ok (k', w') /\ kstack_ok k' ({[0]} ∖ {[0]})).
Proof.
  apply (kstack_slots_disjoint (W := Z)).
  - intros w. exists w, (w + 4096). reflexivity.
  - intros w p va f. exists w. reflexivity.
  - intros w va. exists w. reflexivity.
  - intros w a v n. exists w. reflexivity.
  - split; simpl; unfold KSTACK_MAX, KSTACK_FREE_MAX; try (intros; lia).
    intros s ->%elem_of_singleton. lia.
  - apply elem_of_singleton. reflexivity.
Defined.
