(* ===== verification/AsRef.v ===== *)
(** The reference counts of shared address spaces of src/kernel/scheduler.c
    ([as_refcount_inc], [as_refcount_get], [as_refcount_dec]): a table of 64
    entries, searched linearly. *)

From S2P Require Import Prelude.

Definition AS_REFCOUNT_MAX : Z := 64.

Record as_entry : Type := AsEntry {
  as_id : Z;
  refcnt : Z
}.

Definition as_table_init : array as_entry := arr_new AS_REFCOUNT_MAX (AsEntry 0 0).

(** [for (i = ...; i < AS_REFCOUNT_MAX; i++) if (g_as_refcnt[i].as == a)] *)
Fixpoint find_as (n : nat) (t : array as_entry) (i a : Z) : res (option Z) :=
  match n with
  | O => mret None
  | S n =>
      e ← arr_get t i;
      if as_id e =? a then mret (Some i) else find_as n t (i + 1) a
  end.

Definition as_refcount_inc (t : array as_entry) (a : Z) : res (array as_entry) :=
  if a =? 0 then mret t
  else
    o ← find_as (Z.to_nat AS_REFCOUNT_MAX) t 0 a;
    match o with
    | Some i => e ← arr_get t i; arr_set t i (AsEntry (as_id e) (u32 (refcnt e + 1)))
    | None =>
        o ← find_as (Z.to_nat AS_REFCOUNT_MAX) t 0 0;
        match o with
        | Some i => arr_set t i (AsEntry a 1)
        | None => mret t
        end
    end.

Definition as_refcount_get (t : array as_entry) (a : Z) : res Z :=
  if a =? 0 then mret 0
  else
    o ← find_as (Z.to_nat AS_REFCOUNT_MAX) t 0 a;
    match o with
    | Some i => e ← arr_get t i; mret (refcnt e)
    | None => mret 0
    end.

Definition as_refcount_dec (t : array as_entry) (a : Z) : res (Z * array as_entry) :=
  if a =? 0 then mret (0, t)
  else
    o ← find_as (Z.to_nat AS_REFCOUNT_MAX) t 0 a;
    match o with
    | Some i =>
        e ← arr_get t i;
        let r := if 0 <? refcnt e then refcnt e - 1 else refcnt e in
        t ← arr_set t i (AsEntry (if r =? 0 then 0 else as_id e) r);
        mret (r, t)
    | None => mret (0, t)
    end.

(** ** The counts a table represents *)

(** Entry [i] holds [n] references to [a]. *)
Definition holds (t : array as_entry) (i a n : Z) : Prop :=
  0 <= i < AS_REFCOUNT_MAX /\ arr_at t i = AsEntry a n.

(** The table represents the counts [m]: one entry for each shared space, and
    every entry in use counts at least one reference. *)
Record as_ok (t : array as_entry) (m : gmap Z Z) : Prop := AsOk {
  as_len : arr_len t = AS_REFCOUNT_MAX;
  as_rep : forall a n, m !! a = Some n <-> a <> 0 /\ exists i, holds t i a n;
  as_pos : forall a n, m !! a = Some n -> 1 <= n < 4294967296;
  as_inj : forall i j a n k, a <> 0 -> holds t i a n -> holds t j a k -> i = j
}.

Lemma find_as_ok n : forall t i a,
  arr_len t = AS_REFCOUNT_MAX -> 0 <= i -> i + Z.of_nat n = AS_REFCOUNT_MAX ->
  (exists j, find_as n t i a = Ok (Some j) /\ i <= j < AS_REFCOUNT_MAX /\ as_id (arr_at t j) = a) \/
  (find_as n t i a = Ok None /\
   forall j, i <= j < AS_REFCOUNT_MAX -> as_id (arr_at t j) <> a).
Proof.
  induction n as [|n IH]; intros t i a Hl Hi Hn; cbn [find_as].
  { right. split; [reflexivity|]. intros; lia. }
  rewrite arr_get_ok by lia. rewrite res_bind_ok.
  destruct (Z.eqb_spec (as_id (arr_at t i)) a) as [E|Hne].
  - left. exists i. split_and!; auto; lia.
  - destruct (IH t (i + 1) a Hl) as [(j & -> & Hj & E)|[-> Hno]]; [lia|lia| |].
    + left. exists j. split_and!; auto; lia.
    + right. split; auto. intros j Hj. destruct (Z.eq_dec j i) as [->|]; [auto|apply Hno; lia].
Qed.

Section ops.
Context (t : array as_entry) (m : gmap Z Z) (Hok : as_ok t m).

(** Looking up a space finds its entry exactly when it is counted. *)
Lemma find_entry a :
  a <> 0 ->
  (exists i n, find_as (Z.to_nat AS_REFCOUNT_MAX) t 0 a = Ok (Some i) /\ holds t i a n /\
     m !! a = Some n) \/
  (find_as (Z.to_nat AS_REFCOUNT_MAX) t 0 a = Ok None /\ m !! a = None).
Proof.
  intros Ha. destruct (find_as_ok (Z.to_nat AS_REFCOUNT_MAX) t 0 a (as_len _ _ Hok))
    as [(i & -> & Hi & E)|[-> Hno]]; [lia|reflexivity| |].
  - left. exists i, (refcnt (arr_at t i)).
    assert (Hh : holds t i a (refcnt (arr_at t i))) by (split; [auto|destruct (arr_at t i); simpl in *; congruence]).
    split_and!; auto. apply (as_rep _ _ Hok). eauto.
  - right. split; auto. destruct (m !! a) as [n|] eqn:E; auto. exfalso.
    apply (as_rep _ _ Hok) in E as (_ & i & Hi & Hh). apply (Hno i Hi). rewrite Hh. reflexivity.
Qed.

(** Rewriting the entry of [a]. *)
Lemma as_ok_put i a n n' :
  a <> 0 -> holds t i a n -> 1 <= n' < 4294967296 ->
  as_ok (arr_put t i (AsEntry a n')) (<[a := n']> m).
Proof.
  intros Ha [Hi Hh] Hn'. destruct Hok as [H1 H2 H3 H4].
  assert (Hhold : forall j b k, holds (arr_put t i (AsEntry a n')) j b k <->
     (j = i /\ b = a /\ k = n') \/ (j <> i /\ holds t j b k)).
  { intros j b k. unfold holds. rewrite arr_at_put. destruct (Z.eqb_spec i j) as [<-|].
    - split; [intros [_ [= -> ->]]; auto|]. intros [(_ & -> & ->)|[? _]]; [auto|contradiction].
    - split; [intros [? ?]; right; auto|]. intros [(? & _)|[_ ?]]; [congruence|auto]. }
  split; simpl; auto.
  - intros b k. destruct (decide (a = b)) as [<-|Hne].
    + rewrite lookup_insert_eq. split.
      * intros [= <-]. split; [auto|]. exists i. apply Hhold. auto.
      * intros [_ (j & Hj)]. apply Hhold in Hj as [(_ & _ & ->)|[Hji Hj]]; [auto|].
        exfalso. apply Hji. eapply H4; [exact Ha|exact Hj|split; eauto].
    + rewrite lookup_insert_ne by auto. rewrite H2. split; intros [Hb (j & Hj)]; (split; [auto|]).
      * exists j. apply Hhold. right. split; [|auto]. intros ->. destruct Hj as [_ E].
        rewrite Hh in E. congruence.
      * apply Hhold in Hj as [(_ & -> & _)|[_ Hj]]; [congruence|eauto].
  - intros b k. destruct (decide (a = b)) as [<-|Hne];
      [rewrite lookup_insert_eq|rewrite lookup_insert_ne by auto]; [congruence|eauto].
  - intros j1 j2 b k1 k2 Hb Hj1 Hj2. apply Hhold in Hj1, Hj2.
    destruct Hj1 as [(-> & -> & _)|[N1 Hj1]], Hj2 as [(-> & E & _)|[N2 Hj2]]; auto.
    + eapply (H4 i j2 a); eauto. split; eauto.
    + subst b. eapply (H4 j1 i a); eauto. split; eauto.
    + eauto.
Qed.

(** Taking a free entry. *)
Lemma as_ok_new i a :
  a <> 0 -> m !! a = None -> 0 <= i < AS_REFCOUNT_MAX -> as_id (arr_at t i) = 0 ->
  as_ok (arr_put t i (AsEntry a 1)) (<[a := 1]> m).
Proof.
  intros Ha Hma Hi Hz. destruct Hok as [H1 H2 H3 H4].
  assert (Hno : forall j n, ~ holds t j a n).
  { intros j n Hj. assert (m !! a = Some n) by (apply H2; eauto). congruence. }
  assert (Hhold : forall j b k, b <> 0 -> holds (arr_put t i (AsEntry a 1)) j b k <->
     (j = i /\ b = a /\ k = 1) \/ (b <> a /\ holds t j b k)).
  { intros j b k Hb. unfold holds. rewrite arr_at_put. destruct (Z.eqb_spec i j) as [<-|].
    - split; [intros [_ [= -> ->]]; auto|]. intros [(_ & -> & ->)|[_ [_ E]]]; [auto|].
      rewrite E in Hz. simpl in Hz. congruence.
    - split.
      + intros Hj. right. split; [|auto]. intros ->. apply (Hno j k). exact Hj.
      + intros [(? & _)|[_ ?]]; [congruence|auto]. }
  split; simpl; auto.
  - intros b k. destruct (decide (a = b)) as [<-|Hne].
    + rewrite lookup_insert_eq. split.
      * intros [= <-]. split; [auto|]. exists i. apply Hhold; auto.
      * intros [_ (j & Hj)]. apply Hhold in Hj as [(_ & _ & ->)|[E _]]; auto. contradiction.
    + rewrite lookup_insert_ne by auto. rewrite H2. split; intros [Hb (j & Hj)]; (split; [auto|]).
      * exists j. apply Hhold; auto.
      * apply Hhold in Hj as [(_ & -> & _)|[_ Hj]]; auto; [congruence|eauto].
  - intros b k. destruct (decide (a = b)) as [<-|Hne];
      [rewrite lookup_insert_eq|rewrite lookup_insert_ne by auto]; [|eauto].
    intros [= <-]. lia.
  - intros j1 j2 b k1 k2 Hb Hj1 Hj2. apply Hhold in Hj1, Hj2; auto.
    destruct Hj1 as [(-> & -> & _)|[N1 Hj1]], Hj2 as [(-> & E & _)|[N2 Hj2]]; auto; try congruence.
    eauto.
Qed.

(** Releasing the entry of [a]. *)
Lemma as_ok_clear i a n :
  a <> 0 -> holds t i a n -> as_ok (arr_put t i (AsEntry 0 0)) (delete a m).
Proof.
  intros Ha [Hi Hh]. destruct Hok as [H1 H2 H3 H4].
  assert (Hhold : forall j b k, b <> 0 -> holds (arr_put t i (AsEntry 0 0)) j b k <->
     b <> a /\ holds t j b k).
  { intros j b k Hb. unfold holds. rewrite arr_at_put. destruct (Z.eqb_spec i j) as [<-|].
    - split; [intros [_ [= <- _]]; contradiction|]. intros [Hba [_ E]]. rewrite Hh in E. congruence.
    - split; [|intros [_ ?]; auto]. intros Hj. split; [|auto]. intros ->.
      assert (j = i); [|congruence]. eapply (H4 j i a); [auto|exact Hj|split; eauto]. }
  split; simpl; auto.
  - intros b k. destruct (decide (a = b)) as [<-|Hne].
    + rewrite lookup_delete_eq. split; [discriminate|]. intros [_ (j & Hj)].
      apply Hhold in Hj as [? _]; auto. contradiction.
    + rewrite lookup_delete_ne by auto. rewrite H2. split; intros [Hb (j & Hj)]; (split; [auto|]).
      * exists j. apply Hhold; auto.
      * apply Hhold in Hj as [_ Hj]; eauto.
  - intros b k. destruct (decide (a = b)) as [<-|Hne];
      [rewrite lookup_delete_eq; discriminate|rewrite lookup_delete_ne by auto; eauto].
  - intros j1 j2 b k1 k2 Hb Hj1 Hj2. apply Hhold in Hj1 as [_ Hj1], Hj2 as [_ Hj2]; eauto.
Qed.
End ops.

(** ** The operations *)

Definition count (m : gmap Z Z) (a : Z) : Z := default 0 (m !! a).

(** The table implements reference counts while an entry is free:
    [as_refcount_inc] adds one reference (unless the 32-bit count is at its
    maximum), [as_refcount_get] reads the count, and [as_refcount_dec] removes
    one reference and returns what is left, releasing the entry at zero. *)
Theorem as_refcounts t m a :
  as_ok t m -> a <> 0 -> count m a < 4294967295 ->
  (is_Some (m !! a) \/ exists i, 0 <= i < AS_REFCOUNT_MAX /\ as_id (arr_at t i) = 0) ->
  as_refcount_get t a = Ok (count m a) /\
  (exists t', as_refcount_inc t a = Ok t' /\ as_ok t' (<[a := count m a + 1]> m)) /\
  (exists t' m', as_refcount_dec t a = Ok (Z.max 0 (count m a - 1), t') /\ as_ok t' m' /\
     forall b, count m' b = if decide (b = a) then Z.max 0 (count m a - 1) else count m b).
Proof.
  intros Hok Ha Hmax Hroom. unfold as_refcount_get, as_refcount_inc, as_refcount_dec.
  destruct (Z.eqb_spec a 0) as [|_]; [contradiction|]. pose proof (as_len _ _ Hok) as Hlen.
  destruct (find_entry t m Hok a Ha) as [(i & n & -> & Hh & Hm)|[-> Hm]]; rewrite !res_bind_ok;
    unfold count in *; rewrite Hm in *; cbn [default from_option id] in *.
  - pose proof Hh as [Hi E]. rewrite arr_get_ok, !res_bind_ok by lia. rewrite E. cbn [as_id refcnt].
    pose proof (as_pos _ _ Hok _ _ Hm) as Hn. split; [reflexivity|]. split.
    + rewrite arr_set_ok by lia. rewrite u32_small by lia. eexists. split; [reflexivity|].
      eapply as_ok_put; eauto. lia.
    + destruct (Z.ltb_spec 0 n); [|lia]. destruct (Z.eqb_spec (n - 1) 0) as [E1|Hne].
      * rewrite arr_set_ok, res_bind_ok by lia. rewrite E1, Z.max_id.
        eexists _, (delete a m). split; [reflexivity|]. split; [eapply as_ok_clear; eauto|].
        intros b. destruct (decide (b = a)) as [->|]; [rewrite lookup_delete_eq; reflexivity|].
        rewrite lookup_delete_ne by auto. reflexivity.
      * rewrite arr_set_ok, res_bind_ok by lia. rewrite Z.max_r by lia.
        eexists _, (<[a := n - 1]> m). split; [reflexivity|].
        split; [eapply as_ok_put; eauto; lia|].
        intros b. destruct (decide (b = a)) as [->|]; [rewrite lookup_insert_eq; reflexivity|].
        rewrite lookup_insert_ne by auto. reflexivity.
  - split; [reflexivity|]. split.
    + destruct Hroom as [[x Hx]|(i & Hi & Hz)]; [congruence|].
      destruct (find_as_ok (Z.to_nat AS_REFCOUNT_MAX) t 0 0 Hlen) as [(j & -> & Hj & E)|[_ Hno]];
        [lia|reflexivity| |exfalso; apply (Hno i); auto].
      rewrite res_bind_ok, arr_set_ok by lia. eexists. split; [reflexivity|].
      apply as_ok_new; auto.
    + eexists t, m. split; [reflexivity|]. split; [auto|]. intros b.
      destruct (decide (b = a)) as [->|]; [rewrite Hm|]; reflexivity.
Qed.

Definition as_demo : array as_entry := arr_put as_table_init 0 (AsEntry 4096 2).

Lemma as_demo_ok : as_ok as_demo {[4096 := 2]}.
Proof.
  assert (Hh : forall i a n, a <> 0 -> holds as_demo i a n <-> i = 0 /\ a = 4096 /\ n = 2).
  { intros i a n Ha. unfold holds, as_demo, as_table_init. rewrite arr_at_put, arr_at_new.
    destruct (Z.eqb_spec 0 i) as [<-|].
    - split; [intros [_ [= <- <-]]; auto|]. intros (_ & -> & ->). split; [|auto].
      unfold AS_REFCOUNT_MAX. lia.
    - split; [intros [_ [= <- _]]; contradiction|]. intros (-> & _). contradiction. }
  split.
  - reflexivity.
  - intros a n. rewrite lookup_singleton_Some. split.
    + intros [<- <-]. split; [discriminate|]. exists 0. apply Hh; [discriminate|auto].
    + intros [Ha (i & Hi)]. apply Hh in Hi as (_ & -> & ->); auto.
  - intros a n [_ <-]%lookup_singleton_Some. lia.
  - intros i j a n k Ha Hi Hj. apply Hh in Hi as (-> & _), Hj as (-> & _); auto.
Qed.

Lemma as_refcounts_witness :
  as_refcount_get as_demo 4096 = Ok (count {[4096 := 2]} 4096) /\
  (exists t', as_refcount_inc as_demo 4096 = Ok t' /\
     as_ok t' (<[4096 := count {[4096 := 2]} 4096 + 1]> {[4096 := 2]})) /\
  (exists t' m', as_refcount_dec as_demo 4096 =
       Ok (Z.max 0 (count {[4096 := 2]} 4096 - 1), t') /\ as_ok t' m' /\
     forall b, count m' b = if decide (b = 4096) then Z.max 0 (count {[4096 := 2]} 4096 - 1)
                            else count {[4096 := 2]} b).
Proof.
  apply (as_refcounts as_demo {[4096 := 2]} 4096 as_demo_ok).
  - discriminate.
  - reflexivity.
  - left. rewrite lookup_singleton_eq. eauto.
Defined.

(** When all 64 entries are taken, the references to one more space are
    silently dropped, and the first release of it already returns 0, which the
    caller takes for the last reference. *)
Lemma full_table_drops_references t m a :
  as_ok t m -> a <> 0 -> m !! a = None ->
  (forall i, 0 <= i < AS_REFCOUNT_MAX -> as_id (arr_at t i) <> 0) ->
  (t1 ← as_refcount_inc t a; t2 ← as_refcount_inc t1 a; as_refcount_dec t2 a) = Ok (0, t).
Proof.
  intros Hok Ha Hm Hfull.
  assert (Hinc : as_refcount_inc t a = Ok t).
  { unfold as_refcount_inc. destruct (Z.eqb_spec a 0) as [|_]; [contradiction|].
    destruct (find_entry t m Hok a Ha) as [(i & n & _ & _ & Hm')|[-> _]]; [congruence|].
    rewrite res_bind_ok. destruct (find_as_ok (Z.to_nat AS_REFCOUNT_MAX) t 0 0 (as_len _ _ Hok))
      as [(j & _ & Hj & E)|[-> _]]; [lia|reflexivity|exfalso; apply (Hfull j); auto|]. reflexivity. }
  rewrite Hinc, res_bind_ok, Hinc, res_bind_ok. unfold as_refcount_dec.
  destruct (Z.eqb_spec a 0) as [|_]; [contradiction|].
  destruct (find_entry t m Hok a Ha) as [(i & n & _ & _ & Hm')|[-> _]]; [congruence|]. reflexivity.
Qed.
