(* ===== verification/SchedState.v ===== *)
(** The processes and the scheduler state of src/kernel/scheduler.c and
    src/kernel/sched_pcpu.c.

    A process is named by its address; 0 is the null pointer.  [procs] holds the
    scalar fields of the processes that exist; the link fields of the process
    list, of the run queues and of the timer queues are maps of their own.
    Calls into other subsystems are recorded in [log], and what those calls
    return is an argument of the operation that makes them.  Every operation of
    the source runs under [sched_lock] with interrupts off: it is one step. *)

From S2P Require Import Prelude Ring Runq SortedQ AsRef.

Inductive pstate : Type :=
| PROCESS_READY
| PROCESS_RUNNING
| PROCESS_BLOCKED
| PROCESS_SLEEPING
| PROCESS_ZOMBIE.
#[export] Instance pstate_eq_dec : EqDecision pstate.
Proof. solve_decision. Defined.

Definition is_state (a b : pstate) : bool := bool_decide (a = b).

(** The fields of [struct process] the scheduler reads or writes, links apart. *)
Record proc : Type := Proc {
  pid : Z;
  parent_pid : Z;
  session_id : Z;
  pgrp_id : Z;
  uid : Z;
  gid : Z;
  euid : Z;
  egid : Z;
  addr_space : Z;
  kernel_stack : Z;
  priority : Z;
  nice : Z;
  time_slice : Z;
  state : pstate;
  wake_at_tick : Z;
  alarm_tick : Z;
  alarm_interval : Z;
  utime : Z;
  itimer_virt_value : Z;
  itimer_virt_interval : Z;
  itimer_prof_value : Z;
  itimer_prof_interval : Z;
  exit_status : Z;
  has_user_regs : Z;
  user_regs : list Z;
  sigactions : list Z;
  sig_blocked_mask : Z;
  sig_pending_mask : Z;
  mmaps : list (Z * Z * Z);
  heap_start : Z;
  heap_break : Z;
  rlimits : list (Z * Z);
  cwd : list Z;
  waiting : Z;
  wait_pid : Z;
  wait_result_pid : Z;
  wait_result_status : Z;
  files : list Z;
  fd_flags : list Z;
  tgid : Z;
  flags : Z;
  tls_base : Z;
  clear_child_tid : Z;
  cpu_id : Z;
  suid : Z;
  sgid : Z;
  fpu_state : list Z
}.

Definition set_pid (v : Z) (x : proc) : proc :=
  Proc v (parent_pid x) (session_id x) (pgrp_id x) (uid x) (gid x) (euid x) (egid x)
    (addr_space x) (kernel_stack x) (priority x) (nice x) (time_slice x) (state x)
    (wake_at_tick x) (alarm_tick x) (alarm_interval x) (utime x) (itimer_virt_value x)
    (itimer_virt_interval x) (itimer_prof_value x) (itimer_prof_interval x) (exit_status x)
    (has_user_regs x) (user_regs x) (sigactions x) (sig_blocked_mask x) (sig_pending_mask x)
    (mmaps x) (heap_start x) (heap_break x) (rlimits x) (cwd x) (waiting x) (wait_pid x)
    (wait_result_pid x) (wait_result_status x) (files x) (fd_flags x) (tgid x) (flags x)
    (tls_base x) (clear_child_tid x) (cpu_id x) (suid x) (sgid x) (fpu_state x).
Definition set_parent_pid (v : Z) (x : proc) : proc :=
  Proc (pid x) v (session_id x) (pgrp_id x) (uid x) (gid x) (euid x) (egid x) (addr_space x)
    (kernel_stack x) (priority x) (nice x) (time_slice x) (state x) (wake_at_tick x)
    (alarm_tick x) (alarm_interval x) (utime x) (itimer_virt_value x) (itimer_virt_interval x)
    (itimer_prof_value x) (itimer_prof_interval x) (exit_status x) (has_user_regs x) (user_regs x)
    (sigactions x) (sig_blocked_mask x) (sig_pending_mask x) (mmaps x) (heap_start x)
    (heap_break x) (rlimits x) (cwd x) (waiting x) (wait_pid x) (wait_result_pid x)
    (wait_result_status x) (files x) (fd_flags x) (tgid x) (flags x) (tls_base x)
    (clear_child_tid x) (cpu_id x) (suid x) (sgid x) (fpu_state x).
Definition set_addr_space (v : Z) (x : proc) : proc :=
  Proc (pid x) (parent_pid x) (session_id x) (pgrp_id x) (uid x) (gid x) (euid x) (egid x) v
    (kernel_stack x) (priority x) (nice x) (time_slice x) (state x) (wake_at_tick x)
    (alarm_tick x) (alarm_interval x) (utime x) (itimer_virt_value x) (itimer_virt_interval x)
    (itimer_prof_value x) (itimer_prof_interval x) (exit_status x) (has_user_regs x) (user_regs x)
    (sigactions x) (sig_blocked_mask x) (sig_pending_mask x) (mmaps x) (heap_start x)
    (heap_break x) (rlimits x) (cwd x) (waiting x) (wait_pid x) (wait_result_pid x)
    (wait_result_status x) (files x) (fd_flags x) (tgid x) (flags x) (tls_base x)
    (clear_child_tid x) (cpu_id x) (suid x) (sgid x) (fpu_state x).
Definition set_kernel_stack (v : Z) (x : proc) : proc :=
  Proc (pid x) (parent_pid x) (session_id x) (pgrp_id x) (uid x) (gid x) (euid x) (egid x)
    (addr_space x) v (priority x) (nice x) (time_slice x) (state x) (wake_at_tick x)
    (alarm_tick x) (alarm_interval x) (utime x) (itimer_virt_value x) (itimer_virt_interval x)
    (itimer_prof_value x) (itimer_prof_interval x) (exit_status x) (has_user_regs x) (user_regs x)
    (sigactions x) (sig_blocked_mask x) (sig_pending_mask x) (mmaps x) (heap_start x)
    (heap_break x) (rlimits x) (cwd x) (waiting x) (wait_pid x) (wait_result_pid x)
    (wait_result_status x) (files x) (fd_flags x) (tgid x) (flags x) (tls_base x)
    (clear_child_tid x) (cpu_id x) (suid x) (sgid x) (fpu_state x).
Definition set_priority (v : Z) (x : proc) : proc :=
  Proc (pid x) (parent_pid x) (session_id x) (pgrp_id x) (uid x) (gid x) (euid x) (egid x)
    (addr_space x) (kernel_stack x) v (nice x) (time_slice x) (state x) (wake_at_tick x)
    (alarm_tick x) (alarm_interval x) (utime x) (itimer_virt_value x) (itimer_virt_interval x)
    (itimer_prof_value x) (itimer_prof_interval x) (exit_status x) (has_user_regs x) (user_regs x)
    (sigactions x) (sig_blocked_mask x) (sig_pending_mask x) (mmaps x) (heap_start x)
    (heap_break x) (rlimits x) (cwd x) (waiting x) (wait_pid x) (wait_result_pid x)
    (wait_result_status x) (files x) (fd_flags x) (tgid x) (flags x) (tls_base x)
    (clear_child_tid x) (cpu_id x) (suid x) (sgid x) (fpu_state x).
Definition set_time_slice (v : Z) (x : proc) : proc :=
  Proc (pid x) (parent_pid x) (session_id x) (pgrp_id x) (uid x) (gid x) (euid x) (egid x)
    (addr_space x) (kernel_stack x) (priority x) (nice x) v (state x) (wake_at_tick x)
    (alarm_tick x) (alarm_interval x) (utime x) (itimer_virt_value x) (itimer_virt_interval x)
    (itimer_prof_value x) (itimer_prof_interval x) (exit_status x) (has_user_regs x) (user_regs x)
    (sigactions x) (sig_blocked_mask x) (sig_pending_mask x) (mmaps x) (heap_start x)
    (heap_break x) (rlimits x) (cwd x) (waiting x) (wait_pid x) (wait_result_pid x)
    (wait_result_status x) (files x) (fd_flags x) (tgid x) (flags x) (tls_base x)
    (clear_child_tid x) (cpu_id x) (suid x) (sgid x) (fpu_state x).
Definition set_state (v : pstate) (x : proc) : proc :=
  Proc (pid x) (parent_pid x) (session_id x) (pgrp_id x) (uid x) (gid x) (euid x) (egid x)
    (addr_space x) (kernel_stack x) (priority x) (nice x) (time_slice x) v (wake_at_tick x)
    (alarm_tick x) (alarm_interval x) (utime x) (itimer_virt_value x) (itimer_virt_interval x)
    (itimer_prof_value x) (itimer_prof_interval x) (exit_status x) (has_user_regs x) (user_regs x)
    (sigactions x) (sig_blocked_mask x) (sig_pending_mask x) (mmaps x) (heap_start x)
    (heap_break x) (rlimits x) (cwd x) (waiting x) (wait_pid x) (wait_result_pid x)
    (wait_result_status x) (files x) (fd_flags x) (tgid x) (flags x) (tls_base x)
    (clear_child_tid x) (cpu_id x) (suid x) (sgid x) (fpu_state x).
Definition set_wake_at_tick (v : Z) (x : proc) : proc :=
  Proc (pid x) (parent_pid x) (session_id x) (pgrp_id x) (uid x) (gid x) (euid x) (egid x)
    (addr_space x) (kernel_stack x) (priority x) (nice x) (time_slice x) (state x) v
    (alarm_tick x) (alarm_interval x) (utime x) (itimer_virt_value x) (itimer_virt_interval x)
    (itimer_prof_value x) (itimer_prof_interval x) (exit_status x) (has_user_regs x) (user_regs x)
    (sigactions x) (sig_blocked_mask x) (sig_pending_mask x) (mmaps x) (heap_start x)
    (heap_break x) (rlimits x) (cwd x) (waiting x) (wait_pid x) (wait_result_pid x)
    (wait_result_status x) (files x) (fd_flags x) (tgid x) (flags x) (tls_base x)
    (clear_child_tid x) (cpu_id x) (suid x) (sgid x) (fpu_state x).
Definition set_alarm_tick (v : Z) (x : proc) : proc :=
  Proc (pid x) (parent_pid x) (session_id x) (pgrp_id x) (uid x) (gid x) (euid x) (egid x)
    (addr_space x) (kernel_stack x) (priority x) (nice x) (time_slice x) (state x)
    (wake_at_tick x) v (alarm_interval x) (utime x) (itimer_virt_value x) (itimer_virt_interval x)
    (itimer_prof_value x) (itimer_prof_interval x) (exit_status x) (has_user_regs x) (user_regs x)
    (sigactions x) (sig_blocked_mask x) (sig_pending_mask x) (mmaps x) (heap_start x)
    (heap_break x) (rlimits x) (cwd x) (waiting x) (wait_pid x) (wait_result_pid x)
    (wait_result_status x) (files x) (fd_flags x) (tgid x) (flags x) (tls_base x)
    (clear_child_tid x) (cpu_id x) (suid x) (sgid x) (fpu_state x).
Definition set_utime (v : Z) (x : proc) : proc :=
  Proc (pid x) (parent_pid x) (session_id x) (pgrp_id x) (uid x) (gid x) (euid x) (egid x)
    (addr_space x) (kernel_stack x) (priority x) (nice x) (time_slice x) (state x)
    (wake_at_tick x) (alarm_tick x) (alarm_interval x) v (itimer_virt_value x)
    (itimer_virt_interval x) (itimer_prof_value x) (itimer_prof_interval x) (exit_status x)
    (has_user_regs x) (user_regs x) (sigactions x) (sig_blocked_mask x) (sig_pending_mask x)
    (mmaps x) (heap_start x) (heap_break x) (rlimits x) (cwd x) (waiting x) (wait_pid x)
    (wait_result_pid x) (wait_result_status x) (files x) (fd_flags x) (tgid x) (flags x)
    (tls_base x) (clear_child_tid x) (cpu_id x) (suid x) (sgid x) (fpu_state x).
Definition set_itimer_virt_value (v : Z) (x : proc) : proc :=
  Proc (pid x) (parent_pid x) (session_id x) (pgrp_id x) (uid x) (gid x) (euid x) (egid x)
    (addr_space x) (kernel_stack x) (priority x) (nice x) (time_slice x) (state x)
    (wake_at_tick x) (alarm_tick x) (alarm_interval x) (utime x) v (itimer_virt_interval x)
    (itimer_prof_value x) (itimer_prof_interval x) (exit_status x) (has_user_regs x) (user_regs x)
    (sigactions x) (sig_blocked_mask x) (sig_pending_mask x) (mmaps x) (heap_start x)
    (heap_break x) (rlimits x) (cwd x) (waiting x) (wait_pid x) (wait_result_pid x)
    (wait_result_status x) (files x) (fd_flags x) (tgid x) (flags x) (tls_base x)
    (clear_child_tid x) (cpu_id x) (suid x) (sgid x) (fpu_state x).
Definition set_itimer_prof_value (v : Z) (x : proc) : proc :=
  Proc (pid x) (parent_pid x) (session_id x) (pgrp_id x) (uid x) (gid x) (euid x) (egid x)
    (addr_space x) (kernel_stack x) (priority x) (nice x) (time_slice x) (state x)
    (wake_at_tick x) (alarm_tick x) (alarm_interval x) (utime x) (itimer_virt_value x)
    (itimer_virt_interval x) v (itimer_prof_interval x) (exit_status x) (has_user_regs x)
    (user_regs x) (sigactions x) (sig_blocked_mask x) (sig_pending_mask x) (mmaps x)
    (heap_start x) (heap_break x) (rlimits x) (cwd x) (waiting x) (wait_pid x) (wait_result_pid x)
    (wait_result_status x) (files x) (fd_flags x) (tgid x) (flags x) (tls_base x)
    (clear_child_tid x) (cpu_id x) (suid x) (sgid x) (fpu_state x).
Definition set_exit_status (v : Z) (x : proc) : proc :=
  Proc (pid x) (parent_pid x) (session_id x) (pgrp_id x) (uid x) (gid x) (euid x) (egid x)
    (addr_space x) (kernel_stack x) (priority x) (nice x) (time_slice x) (state x)
    (wake_at_tick x) (alarm_tick x) (alarm_interval x) (utime x) (itimer_virt_value x)
    (itimer_virt_interval x) (itimer_prof_value x) (itimer_prof_interval x) v (has_user_regs x)
    (user_regs x) (sigactions x) (sig_blocked_mask x) (sig_pending_mask x) (mmaps x)
    (heap_start x) (heap_break x) (rlimits x) (cwd x) (waiting x) (wait_pid x) (wait_result_pid x)
    (wait_result_status x) (files x) (fd_flags x) (tgid x) (flags x) (tls_base x)
    (clear_child_tid x) (cpu_id x) (suid x) (sgid x) (fpu_state x).
Definition set_sig_blocked_mask (v : Z) (x : proc) : proc :=
  Proc (pid x) (parent_pid x) (session_id x) (pgrp_id x) (uid x) (gid x) (euid x) (egid x)
    (addr_space x) (kernel_stack x) (priority x) (nice x) (time_slice x) (state x)
    (wake_at_tick x) (alarm_tick x) (alarm_interval x) (utime x) (itimer_virt_value x)
    (itimer_virt_interval x) (itimer_prof_value x) (itimer_prof_interval x) (exit_status x)
    (has_user_regs x) (user_regs x) (sigactions x) v (sig_pending_mask x) (mmaps x) (heap_start x)
    (heap_break x) (rlimits x) (cwd x) (waiting x) (wait_pid x) (wait_result_pid x)
    (wait_result_status x) (files x) (fd_flags x) (tgid x) (flags x) (tls_base x)
    (clear_child_tid x) (cpu_id x) (suid x) (sgid x) (fpu_state x).
Definition set_sig_pending_mask (v : Z) (x : proc) : proc :=
  Proc (pid x) (parent_pid x) (session_id x) (pgrp_id x) (uid x) (gid x) (euid x) (egid x)
    (addr_space x) (kernel_stack x) (priority x) (nice x) (time_slice x) (state x)
    (wake_at_tick x) (alarm_tick x) (alarm_interval x) (utime x) (itimer_virt_value x)
    (itimer_virt_interval x) (itimer_prof_value x) (itimer_prof_interval x) (exit_status x)
    (has_user_regs x) (user_regs x) (sigactions x) (sig_blocked_mask x) v (mmaps x) (heap_start x)
    (heap_break x) (rlimits x) (cwd x) (waiting x) (wait_pid x) (wait_result_pid x)
    (wait_result_status x) (files x) (fd_flags x) (tgid x) (flags x) (tls_base x)
    (clear_child_tid x) (cpu_id x) (suid x) (sgid x) (fpu_state x).
Definition set_waiting (v : Z) (x : proc) : proc :=
  Proc (pid x) (parent_pid x) (session_id x) (pgrp_id x) (uid x) (gid x) (euid x) (egid x)
    (addr_space x) (kernel_stack x) (priority x) (nice x) (time_slice x) (state x)
    (wake_at_tick x) (alarm_tick x) (alarm_interval x) (utime x) (itimer_virt_value x)
    (itimer_virt_interval x) (itimer_prof_value x) (itimer_prof_interval x) (exit_status x)
    (has_user_regs x) (user_regs x) (sigactions x) (sig_blocked_mask x) (sig_pending_mask x)
    (mmaps x) (heap_start x) (heap_break x) (rlimits x) (cwd x) v (wait_pid x) (wait_result_pid x)
    (wait_result_status x) (files x) (fd_flags x) (tgid x) (flags x) (tls_base x)
    (clear_child_tid x) (cpu_id x) (suid x) (sgid x) (fpu_state x).
Definition set_wait_pid (v : Z) (x : proc) : proc :=
  Proc (pid x) (parent_pid x) (session_id x) (pgrp_id x) (uid x) (gid x) (euid x) (egid x)
    (addr_space x) (kernel_stack x) (priority x) (nice x) (time_slice x) (state x)
    (wake_at_tick x) (alarm_tick x) (alarm_interval x) (utime x) (itimer_virt_value x)
    (itimer_virt_interval x) (itimer_prof_value x) (itimer_prof_interval x) (exit_status x)
    (has_user_regs x) (user_regs x) (sigactions x) (sig_blocked_mask x) (sig_pending_mask x)
    (mmaps x) (heap_start x) (heap_break x) (rlimits x) (cwd x) (waiting x) v (wait_result_pid x)
    (wait_result_status x) (files x) (fd_flags x) (tgid x) (flags x) (tls_base x)
    (clear_child_tid x) (cpu_id x) (suid x) (sgid x) (fpu_state x).
Definition set_wait_result_pid (v : Z) (x : proc) : proc :=
  Proc (pid x) (parent_pid x) (session_id x) (pgrp_id x) (uid x) (gid x) (euid x) (egid x)
    (addr_space x) (kernel_stack x) (priority x) (nice x) (time_slice x) (state x)
    (wake_at_tick x) (alarm_tick x) (alarm_interval x) (utime x) (itimer_virt_value x)
    (itimer_virt_interval x) (itimer_prof_value x) (itimer_prof_interval x) (exit_status x)
    (has_user_regs x) (user_regs x) (sigactions x) (sig_blocked_mask x) (sig_pending_mask x)
    (mmaps x) (heap_start x) (heap_break x) (rlimits x) (cwd x) (waiting x) (wait_pid x) v
    (wait_result_status x) (files x) (fd_flags x) (tgid x) (flags x) (tls_base x)
    (clear_child_tid x) (cpu_id x) (suid x) (sgid x) (fpu_state x).
Definition set_wait_result_status (v : Z) (x : proc) : proc :=
  Proc (pid x) (parent_pid x) (session_id x) (pgrp_id x) (uid x) (gid x) (euid x) (egid x)
    (addr_space x) (kernel_stack x) (priority x) (nice x) (time_slice x) (state x)
    (wake_at_tick x) (alarm_tick x) (alarm_interval x) (utime x) (itimer_virt_value x)
    (itimer_virt_interval x) (itimer_prof_value x) (itimer_prof_interval x) (exit_status x)
    (has_user_regs x) (user_regs x) (sigactions x) (sig_blocked_mask x) (sig_pending_mask x)
    (mmaps x) (heap_start x) (heap_break x) (rlimits x) (cwd x) (waiting x) (wait_pid x)
    (wait_result_pid x) v (files x) (fd_flags x) (tgid x) (flags x) (tls_base x)
    (clear_child_tid x) (cpu_id x) (suid x) (sgid x) (fpu_state x).
Definition set_files (v : list Z) (x : proc) : proc :=
  Proc (pid x) (parent_pid x) (session_id x) (pgrp_id x) (uid x) (gid x) (euid x) (egid x)
    (addr_space x) (kernel_stack x) (priority x) (nice x) (time_slice x) (state x)
    (wake_at_tick x) (alarm_tick x) (alarm_interval x) (utime x) (itimer_virt_value x)
    (itimer_virt_interval x) (itimer_prof_value x) (itimer_prof_interval x) (exit_status x)
    (has_user_regs x) (user_regs x) (sigactions x) (sig_blocked_mask x) (sig_pending_mask x)
    (mmaps x) (heap_start x) (heap_break x) (rlimits x) (cwd x) (waiting x) (wait_pid x)
    (wait_result_pid x) (wait_result_status x) v (fd_flags x) (tgid x) (flags x) (tls_base x)
    (clear_child_tid x) (cpu_id x) (suid x) (sgid x) (fpu_state x).
Definition set_alarm_interval (v : Z) (x : proc) : proc :=
  Proc (pid x) (parent_pid x) (session_id x) (pgrp_id x) (uid x) (gid x) (euid x) (egid x)
    (addr_space x) (kernel_stack x) (priority x) (nice x) (time_slice x) (state x)
    (wake_at_tick x) (alarm_tick x) v (utime x) (itimer_virt_value x)
    (itimer_virt_interval x) (itimer_prof_value x) (itimer_prof_interval x) (exit_status x)
    (has_user_regs x) (user_regs x) (sigactions x) (sig_blocked_mask x) (sig_pending_mask x)
    (mmaps x) (heap_start x) (heap_break x) (rlimits x) (cwd x) (waiting x) (wait_pid x)
    (wait_result_pid x) (wait_result_status x) (files x) (fd_flags x) (tgid x) (flags x) (tls_base x)
    (clear_child_tid x) (cpu_id x) (suid x) (sgid x) (fpu_state x).
Definition set_itimer_virt_interval (v : Z) (x : proc) : proc :=
  Proc (pid x) (parent_pid x) (session_id x) (pgrp_id x) (uid x) (gid x) (euid x) (egid x)
    (addr_space x) (kernel_stack x) (priority x) (nice x) (time_slice x) (state x)
    (wake_at_tick x) (alarm_tick x) (alarm_interval x) (utime x) (itimer_virt_value x)
    v (itimer_prof_value x) (itimer_prof_interval x) (exit_status x)
    (has_user_regs x) (user_regs x) (sigactions x) (sig_blocked_mask x) (sig_pending_mask x)
    (mmaps x) (heap_start x) (heap_break x) (rlimits x) (cwd x) (waiting x) (wait_pid x)
    (wait_result_pid x) (wait_result_status x) (files x) (fd_flags x) (tgid x) (flags x) (tls_base x)
    (clear_child_tid x) (cpu_id x) (suid x) (sgid x) (fpu_state x).
Definition set_itimer_prof_interval (v : Z) (x : proc) : proc :=
  Proc (pid x) (parent_pid x) (session_id x) (pgrp_id x) (uid x) (gid x) (euid x) (egid x)
    (addr_space x) (kernel_stack x) (priority x) (nice x) (time_slice x) (state x)
    (wake_at_tick x) (alarm_tick x) (alarm_interval x) (utime x) (itimer_virt_value x)
    (itimer_virt_interval x) (itimer_prof_value x) v (exit_status x)
    (has_user_regs x) (user_regs x) (sigactions x) (sig_blocked_mask x) (sig_pending_mask x)
    (mmaps x) (heap_start x) (heap_break x) (rlimits x) (cwd x) (waiting x) (wait_pid x)
    (wait_result_pid x) (wait_result_status x) (files x) (fd_flags x) (tgid x) (flags x) (tls_base x)
    (clear_child_tid x) (cpu_id x) (suid x) (sgid x) (fpu_state x).
Definition set_uid (v : Z) (x : proc) : proc :=
  Proc (pid x) (parent_pid x) (session_id x) (pgrp_id x) v (gid x) (euid x) (egid x)
    (addr_space x) (kernel_stack x) (priority x) (nice x) (time_slice x) (state x)
    (wake_at_tick x) (alarm_tick x) (alarm_interval x) (utime x) (itimer_virt_value x)
    (itimer_virt_interval x) (itimer_prof_value x) (itimer_prof_interval x) (exit_status x)
    (has_user_regs x) (user_regs x) (sigactions x) (sig_blocked_mask x) (sig_pending_mask x)
    (mmaps x) (heap_start x) (heap_break x) (rlimits x) (cwd x) (waiting x) (wait_pid x)
    (wait_result_pid x) (wait_result_status x) (files x) (fd_flags x) (tgid x) (flags x) (tls_base x)
    (clear_child_tid x) (cpu_id x) (suid x) (sgid x) (fpu_state x).
Definition set_gid (v : Z) (x : proc) : proc :=
  Proc (pid x) (parent_pid x) (session_id x) (pgrp_id x) (uid x) v (euid x) (egid x)
    (addr_space x) (kernel_stack x) (priority x) (nice x) (time_slice x) (state x)
    (wake_at_tick x) (alarm_tick x) (alarm_interval x) (utime x) (itimer_virt_value x)
    (itimer_virt_interval x) (itimer_prof_value x) (itimer_prof_interval x) (exit_status x)
    (has_user_regs x) (user_regs x) (sigactions x) (sig_blocked_mask x) (sig_pending_mask x)
    (mmaps x) (heap_start x) (heap_break x) (rlimits x) (cwd x) (waiting x) (wait_pid x)
    (wait_result_pid x) (wait_result_status x) (files x) (fd_flags x) (tgid x) (flags x) (tls_base x)
    (clear_child_tid x) (cpu_id x) (suid x) (sgid x) (fpu_state x).
Definition set_euid (v : Z) (x : proc) : proc :=
  Proc (pid x) (parent_pid x) (session_id x) (pgrp_id x) (uid x) (gid x) v (egid x)
    (addr_space x) (kernel_stack x) (priority x) (nice x) (time_slice x) (state x)
    (wake_at_tick x) (alarm_tick x) (alarm_interval x) (utime x) (itimer_virt_value x)
    (itimer_virt_interval x) (itimer_prof_value x) (itimer_prof_interval x) (exit_status x)
    (has_user_regs x) (user_regs x) (sigactions x) (sig_blocked_mask x) (sig_pending_mask x)
    (mmaps x) (heap_start x) (heap_break x) (rlimits x) (cwd x) (waiting x) (wait_pid x)
    (wait_result_pid x) (wait_result_status x) (files x) (fd_flags x) (tgid x) (flags x) (tls_base x)
    (clear_child_tid x) (cpu_id x) (suid x) (sgid x) (fpu_state x).
Definition set_egid (v : Z) (x : proc) : proc :=
  Proc (pid x) (parent_pid x) (session_id x) (pgrp_id x) (uid x) (gid x) (euid x) v
    (addr_space x) (kernel_stack x) (priority x) (nice x) (time_slice x) (state x)
    (wake_at_tick x) (alarm_tick x) (alarm_interval x) (utime x) (itimer_virt_value x)
    (itimer_virt_interval x) (itimer_prof_value x) (itimer_prof_interval x) (exit_status x)
    (has_user_regs x) (user_regs x) (sigactions x) (sig_blocked_mask x) (sig_pending_mask x)
    (mmaps x) (heap_start x) (heap_break x) (rlimits x) (cwd x) (waiting x) (wait_pid x)
    (wait_result_pid x) (wait_result_status x) (files x) (fd_flags x) (tgid x) (flags x) (tls_base x)
    (clear_child_tid x) (cpu_id x) (suid x) (sgid x) (fpu_state x).
Definition set_suid (v : Z) (x : proc) : proc :=
  Proc (pid x) (parent_pid x) (session_id x) (pgrp_id x) (uid x) (gid x) (euid x) (egid x)
    (addr_space x) (kernel_stack x) (priority x) (nice x) (time_slice x) (state x)
    (wake_at_tick x) (alarm_tick x) (alarm_interval x) (utime x) (itimer_virt_value x)
    (itimer_virt_interval x) (itimer_prof_value x) (itimer_prof_interval x) (exit_status x)
    (has_user_regs x) (user_regs x) (sigactions x) (sig_blocked_mask x) (sig_pending_mask x)
    (mmaps x) (heap_start x) (heap_break x) (rlimits x) (cwd x) (waiting x) (wait_pid x)
    (wait_result_pid x) (wait_result_status x) (files x) (fd_flags x) (tgid x) (flags x) (tls_base x)
    (clear_child_tid x) (cpu_id x) v (sgid x) (fpu_state x).
Definition set_sgid (v : Z) (x : proc) : proc :=
  Proc (pid x) (parent_pid x) (session_id x) (pgrp_id x) (uid x) (gid x) (euid x) (egid x)
    (addr_space x) (kernel_stack x) (priority x) (nice x) (time_slice x) (state x)
    (wake_at_tick x) (alarm_tick x) (alarm_interval x) (utime x) (itimer_virt_value x)
    (itimer_virt_interval x) (itimer_prof_value x) (itimer_prof_interval x) (exit_status x)
    (has_user_regs x) (user_regs x) (sigactions x) (sig_blocked_mask x) (sig_pending_mask x)
    (mmaps x) (heap_start x) (heap_break x) (rlimits x) (cwd x) (waiting x) (wait_pid x)
    (wait_result_pid x) (wait_result_status x) (files x) (fd_flags x) (tgid x) (flags x) (tls_base x)
    (clear_child_tid x) (cpu_id x) (suid x) v (fpu_state x).
Definition set_session_id (v : Z) (x : proc) : proc :=
  Proc (pid x) (parent_pid x) v (pgrp_id x) (uid x) (gid x) (euid x) (egid x)
    (addr_space x) (kernel_stack x) (priority x) (nice x) (time_slice x) (state x)
    (wake_at_tick x) (alarm_tick x) (alarm_interval x) (utime x) (itimer_virt_value x)
    (itimer_virt_interval x) (itimer_prof_value x) (itimer_prof_interval x) (exit_status x)
    (has_user_regs x) (user_regs x) (sigactions x) (sig_blocked_mask x) (sig_pending_mask x)
    (mmaps x) (heap_start x) (heap_break x) (rlimits x) (cwd x) (waiting x) (wait_pid x)
    (wait_result_pid x) (wait_result_status x) (files x) (fd_flags x) (tgid x) (flags x) (tls_base x)
    (clear_child_tid x) (cpu_id x) (suid x) (sgid x) (fpu_state x).
Definition set_pgrp_id (v : Z) (x : proc) : proc :=
  Proc (pid x) (parent_pid x) (session_id x) v (uid x) (gid x) (euid x) (egid x)
    (addr_space x) (kernel_stack x) (priority x) (nice x) (time_slice x) (state x)
    (wake_at_tick x) (alarm_tick x) (alarm_interval x) (utime x) (itimer_virt_value x)
    (itimer_virt_interval x) (itimer_prof_value x) (itimer_prof_interval x) (exit_status x)
    (has_user_regs x) (user_regs x) (sigactions x) (sig_blocked_mask x) (sig_pending_mask x)
    (mmaps x) (heap_start x) (heap_break x) (rlimits x) (cwd x) (waiting x) (wait_pid x)
    (wait_result_pid x) (wait_result_status x) (files x) (fd_flags x) (tgid x) (flags x) (tls_base x)
    (clear_child_tid x) (cpu_id x) (suid x) (sgid x) (fpu_state x).
Definition set_fd_flags (v : list Z) (x : proc) : proc :=
  Proc (pid x) (parent_pid x) (session_id x) (pgrp_id x) (uid x) (gid x) (euid x) (egid x)
    (addr_space x) (kernel_stack x) (priority x) (nice x) (time_slice x) (state x)
    (wake_at_tick x) (alarm_tick x) (alarm_interval x) (utime x) (itimer_virt_value x)
    (itimer_virt_interval x) (itimer_prof_value x) (itimer_prof_interval x) (exit_status x)
    (has_user_regs x) (user_regs x) (sigactions x) (sig_blocked_mask x) (sig_pending_mask x)
    (mmaps x) (heap_start x) (heap_break x) (rlimits x) (cwd x) (waiting x) (wait_pid x)
    (wait_result_pid x) (wait_result_status x) (files x) v (tgid x) (flags x) (tls_base x)
    (clear_child_tid x) (cpu_id x) (suid x) (sgid x) (fpu_state x).
Definition set_tgid (v : Z) (x : proc) : proc :=
  Proc (pid x) (parent_pid x) (session_id x) (pgrp_id x) (uid x) (gid x) (euid x) (egid x)
    (addr_space x) (kernel_stack x) (priority x) (nice x) (time_slice x) (state x)
    (wake_at_tick x) (alarm_tick x) (alarm_interval x) (utime x) (itimer_virt_value x)
    (itimer_virt_interval x) (itimer_prof_value x) (itimer_prof_interval x) (exit_status x)
    (has_user_regs x) (user_regs x) (sigactions x) (sig_blocked_mask x) (sig_pending_mask x)
    (mmaps x) (heap_start x) (heap_break x) (rlimits x) (cwd x) (waiting x) (wait_pid x)
    (wait_result_pid x) (wait_result_status x) (files x) (fd_flags x) v (flags x) (tls_base x)
    (clear_child_tid x) (cpu_id x) (suid x) (sgid x) (fpu_state x).
Definition set_cpu_id (v : Z) (x : proc) : proc :=
  Proc (pid x) (parent_pid x) (session_id x) (pgrp_id x) (uid x) (gid x) (euid x) (egid x)
    (addr_space x) (kernel_stack x) (priority x) (nice x) (time_slice x) (state x)
    (wake_at_tick x) (alarm_tick x) (alarm_interval x) (utime x) (itimer_virt_value x)
    (itimer_virt_interval x) (itimer_prof_value x) (itimer_prof_interval x) (exit_status x)
    (has_user_regs x) (user_regs x) (sigactions x) (sig_blocked_mask x) (sig_pending_mask x)
    (mmaps x) (heap_start x) (heap_break x) (rlimits x) (cwd x) (waiting x) (wait_pid x)
    (wait_result_pid x) (wait_result_status x) (files x) (fd_flags x) (tgid x) (flags x)
    (tls_base x) (clear_child_tid x) v (suid x) (sgid x) (fpu_state x).

Definition PROCESS_MAX_FILES : Z := 64.
Definition PROCESS_MAX_SIG : Z := 32.
Definition PROCESS_MAX_MMAPS : Z := 32.
Definition zeros (n : Z) : list Z := replicate (Z.to_nat n) 0.

(** An open file: the part of [struct file] that closing needs. *)
Record kfile : Type := KFile {
  f_node : Z;
  f_mount_root : Z;
  f_refcount : Z
}.

(** Calls into other subsystems. *)
Inductive event : Type :=
| IpiResched (cpu : Z)
| VfsClose (node : Z)
| MountUnref (root : Z)
| MountRef (root : Z)
| EpollCleanup (fd : Z)
| MountRefPath (path : list Z)
| MountUnrefPath (path : list Z)
| FreeFile (f : Z)
| FreeProc (p : Z)
| KstackFree (stack : Z)
| AsDestroy (asp : Z)
| SetAddressSpace (asp : Z)
| SetKernelStack (sp : Z)
| ContextSwitch (prev next : Z).

Record sched : Type := Sched {
  procs : gmap Z proc;
  rqs : runqs;
  sleepq : tqueue;
  alarmq : tqueue;
  pnext : gmap Z Z;
  pprev : gmap Z Z;
  ready_queue_head : Z;
  ready_queue_tail : Z;
  current : array Z;
  pcpu_load : array Z;
  pcpu_count : Z;
  next_pid : Z;
  init_pid : Z;
  kernel_as : Z;
  kfiles : gmap Z kfile;
  asref : array as_entry;
  log : list event
}.

Definition set_procs (v : gmap Z proc) (s : sched) : sched :=
  Sched v (rqs s) (sleepq s) (alarmq s) (pnext s) (pprev s) (ready_queue_head s)
    (ready_queue_tail s) (current s) (pcpu_load s) (pcpu_count s) (next_pid s) (init_pid s)
    (kernel_as s) (kfiles s) (asref s) (log s).
Definition set_rqs (v : runqs) (s : sched) : sched :=
  Sched (procs s) v (sleepq s) (alarmq s) (pnext s) (pprev s) (ready_queue_head s)
    (ready_queue_tail s) (current s) (pcpu_load s) (pcpu_count s) (next_pid s) (init_pid s)
    (kernel_as s) (kfiles s) (asref s) (log s).
Definition set_sleepq (v : tqueue) (s : sched) : sched :=
  Sched (procs s) (rqs s) v (alarmq s) (pnext s) (pprev s) (ready_queue_head s)
    (ready_queue_tail s) (current s) (pcpu_load s) (pcpu_count s) (next_pid s) (init_pid s)
    (kernel_as s) (kfiles s) (asref s) (log s).
Definition set_alarmq (v : tqueue) (s : sched) : sched :=
  Sched (procs s) (rqs s) (sleepq s) v (pnext s) (pprev s) (ready_queue_head s)
    (ready_queue_tail s) (current s) (pcpu_load s) (pcpu_count s) (next_pid s) (init_pid s)
    (kernel_as s) (kfiles s) (asref s) (log s).
Definition set_pnext (v : gmap Z Z) (s : sched) : sched :=
  Sched (procs s) (rqs s) (sleepq s) (alarmq s) v (pprev s) (ready_queue_head s)
    (ready_queue_tail s) (current s) (pcpu_load s) (pcpu_count s) (next_pid s) (init_pid s)
    (kernel_as s) (kfiles s) (asref s) (log s).
Definition set_pprev (v : gmap Z Z) (s : sched) : sched :=
  Sched (procs s) (rqs s) (sleepq s) (alarmq s) (pnext s) v (ready_queue_head s)
    (ready_queue_tail s) (current s) (pcpu_load s) (pcpu_count s) (next_pid s) (init_pid s)
    (kernel_as s) (kfiles s) (asref s) (log s).
Definition set_ready_queue_head (v : Z) (s : sched) : sched :=
  Sched (procs s) (rqs s) (sleepq s) (alarmq s) (pnext s) (pprev s) v (ready_queue_tail s)
    (current s) (pcpu_load s) (pcpu_count s) (next_pid s) (init_pid s) (kernel_as s) (kfiles s)
    (asref s) (log s).
Definition set_ready_queue_tail (v : Z) (s : sched) : sched :=
  Sched (procs s) (rqs s) (sleepq s) (alarmq s) (pnext s) (pprev s) (ready_queue_head s) v
    (current s) (pcpu_load s) (pcpu_count s) (next_pid s) (init_pid s) (kernel_as s) (kfiles s)
    (asref s) (log s).
Definition set_current (v : array Z) (s : sched) : sched :=
  Sched (procs s) (rqs s) (sleepq s) (alarmq s) (pnext s) (pprev s) (ready_queue_head s)
    (ready_queue_tail s) v (pcpu_load s) (pcpu_count s) (next_pid s) (init_pid s) (kernel_as s)
    (kfiles s) (asref s) (log s).
Definition set_pcpu_load (v : array Z) (s : sched) : sched :=
  Sched (procs s) (rqs s) (sleepq s) (alarmq s) (pnext s) (pprev s) (ready_queue_head s)
    (ready_queue_tail s) (current s) v (pcpu_count s) (next_pid s) (init_pid s) (kernel_as s)
    (kfiles s) (asref s) (log s).
Definition set_next_pid (v : Z) (s : sched) : sched :=
  Sched (procs s) (rqs s) (sleepq s) (alarmq s) (pnext s) (pprev s) (ready_queue_head s)
    (ready_queue_tail s) (current s) (pcpu_load s) (pcpu_count s) v (init_pid s) (kernel_as s)
    (kfiles s) (asref s) (log s).
Definition set_init_pid (v : Z) (s : sched) : sched :=
  Sched (procs s) (rqs s) (sleepq s) (alarmq s) (pnext s) (pprev s) (ready_queue_head s)
    (ready_queue_tail s) (current s) (pcpu_load s) (pcpu_count s) (next_pid s) v (kernel_as s)
    (kfiles s) (asref s) (log s).
Definition set_kernel_as (v : Z) (s : sched) : sched :=
  Sched (procs s) (rqs s) (sleepq s) (alarmq s) (pnext s) (pprev s) (ready_queue_head s)
    (ready_queue_tail s) (current s) (pcpu_load s) (pcpu_count s) (next_pid s) (init_pid s) v
    (kfiles s) (asref s) (log s).
Definition set_kfiles (v : gmap Z kfile) (s : sched) : sched :=
  Sched (procs s) (rqs s) (sleepq s) (alarmq s) (pnext s) (pprev s) (ready_queue_head s)
    (ready_queue_tail s) (current s) (pcpu_load s) (pcpu_count s) (next_pid s) (init_pid s)
    (kernel_as s) v (asref s) (log s).
Definition set_asref (v : array as_entry) (s : sched) : sched :=
  Sched (procs s) (rqs s) (sleepq s) (alarmq s) (pnext s) (pprev s) (ready_queue_head s)
    (ready_queue_tail s) (current s) (pcpu_load s) (pcpu_count s) (next_pid s) (init_pid s)
    (kernel_as s) (kfiles s) v (log s).
Definition set_log (v : list event) (s : sched) : sched :=
  Sched (procs s) (rqs s) (sleepq s) (alarmq s) (pnext s) (pprev s) (ready_queue_head s)
    (ready_queue_tail s) (current s) (pcpu_load s) (pcpu_count s) (next_pid s) (init_pid s)
    (kernel_as s) (kfiles s) (asref s) v.

Lemma set_asref_id s : set_asref (asref s) s = s.
Proof. destruct s; reflexivity. Qed.
Lemma set_log_id s : set_log (log s) s = s.
Proof. destruct s; reflexivity. Qed.

(** ** Access to the state *)

Definition emit (e : event) (s : sched) : sched := set_log (log s ++ [e]) s.

Definition getp (s : sched) (p : Z) : res proc := fget (procs s) p.
Definition setp (s : sched) (p : Z) (x : proc) : res sched :=
  m ← fset (procs s) p x;
  mret (set_procs m s).
Definition updp (s : sched) (p : Z) (f : proc -> proc) : res sched :=
  x ← getp s p;
  setp s p (f x).

(** [current_process] on CPU [cpu]. *)
Definition cur (s : sched) (cpu : Z) : res Z := arr_get (current s) cpu.

(** No list is longer than the number of processes. *)
Definition nprocs (s : sched) : nat := S (size (procs s)).

(** [p->cpu_id < SCHED_MAX_CPUS ? p->cpu_id : 0] *)
Definition clamp_cpu (c : Z) : Z := if c <? SCHED_MAX_CPUS then c else 0.

(** ** Loads (src/kernel/sched_pcpu.c) *)

Definition SCHED_PCPU_MAX : Z := 16.

Definition sched_pcpu_get_load (s : sched) (cpu : Z) : res Z :=
  if pcpu_count s <=? cpu then mret 0 else arr_get (pcpu_load s) cpu.

(** [for (i = ...; i < pcpu_count; i++)], [n] CPUs left. *)
Fixpoint least_loop (n : nat) (s : sched) (i best best_load : Z) : res Z :=
  match n with
  | O => mret best
  | S n =>
      l ← arr_get (pcpu_load s) i;
      if l <? best_load then least_loop n s (i + 1) i l else least_loop n s (i + 1) best best_load
  end.
Definition sched_pcpu_least_loaded (s : sched) : res Z :=
  l ← arr_get (pcpu_load s) 0;
  least_loop (Z.to_nat (pcpu_count s - 1)) s 1 0 l.

Definition sched_pcpu_inc_load (s : sched) (cpu : Z) : res sched :=
  if pcpu_count s <=? cpu then mret s
  else
    l ← arr_get (pcpu_load s) cpu;
    a ← arr_set (pcpu_load s) cpu (u32 (l + 1));
    mret (set_pcpu_load a s).

Definition sched_pcpu_dec_load (s : sched) (cpu : Z) : res sched :=
  if pcpu_count s <=? cpu then mret s
  else
    l ← arr_get (pcpu_load s) cpu;
    if 0 <? l then
      a ← arr_set (pcpu_load s) cpu (u32 (l - 1));
      mret (set_pcpu_load a s)
    else mret s.
