(* ===== verification/Sched.v ===== *)
(** The operations of src/kernel/scheduler.c on the state of SchedState.v:
    wake-ups, signals, context switches, the timer tick, alarms and load
    balancing.  [my] is the CPU that executes an operation. *)

From S2P Require Import Prelude Ring Runq SortedQ AsRef SchedState.

Definition SCHED_DEFAULT_PRIO : Z := 16.
Definition SCHED_TIME_SLICE : Z := 2.
Definition KSTACK_SIZE : Z := 8192.

Definition EPERM : Z := 1.
Definition ESRCH : Z := 3.
Definition ECHILD : Z := 10.
Definition EINVAL : Z := 22.

(** ** Queues *)

Definition wake_key (s : sched) (p : Z) : res Z := x ← getp s p; mret (wake_at_tick x).
Definition alarm_key (s : sched) (p : Z) : res Z := x ← getp s p; mret (alarm_tick x).

Definition sleep_queue_insert (s : sched) (p : Z) : res sched :=
  q ← queue_insert (wake_key s) (nprocs s) (sleepq s) p;
  mret (set_sleepq q s).
Definition sleep_queue_remove (s : sched) (p : Z) : res sched :=
  q ← queue_remove (sleepq s) p;
  mret (set_sleepq q s).
Definition alarm_queue_insert (s : sched) (p : Z) : res sched :=
  q ← queue_insert (alarm_key s) (nprocs s) (alarmq s) p;
  mret (set_alarmq q s).
Definition alarm_queue_remove (s : sched) (p : Z) : res sched :=
  q ← queue_remove (alarmq s) p;
  mret (set_alarmq q s).

(** [rq_enqueue(pcpu_rq[cpu].active, p)], and the same for [expired] *)
Definition enqueue_active (s : sched) (cpu p : Z) : res sched :=
  x ← getp s p;
  crq ← arr_get (pcpu_rq (rqs s)) cpu;
  r ← rq_enqueue (rqs s) cpu (active crq) p (priority x);
  mret (set_rqs r s).
Definition enqueue_expired (s : sched) (cpu p : Z) : res sched :=
  x ← getp s p;
  crq ← arr_get (pcpu_rq (rqs s)) cpu;
  r ← rq_enqueue (rqs s) cpu (expired crq) p (priority x);
  mret (set_rqs r s).
Definition dequeue_active (s : sched) (cpu p : Z) : res sched :=
  x ← getp s p;
  crq ← arr_get (pcpu_rq (rqs s)) cpu;
  r ← rq_dequeue (rqs s) cpu (active crq) p (priority x);
  mret (set_rqs r s).

(** A remote CPU is interrupted, the own one is not. *)
Definition sched_ipi_resched (my : Z) (s : sched) (target : Z) : sched :=
  if target =? my then s else emit (IpiResched target) s.

(** [while (ipi_mask) { c = ctz(ipi_mask); sched_ipi_resched(c); ... }] *)
Fixpoint send_ipis (fuel : nat) (my : Z) (s : sched) (mask : Z) : res sched :=
  match fuel with
  | O => NoFuel
  | S fuel =>
      if mask =? 0 then mret s
      else
        c ← bsf32 mask;
        send_ipis fuel my (sched_ipi_resched my s c)
                  (Z.land mask (u32 (Z.lnot (Z.shiftl 1 c))))
  end.

Definition sched_enqueue_ready (my : Z) (s : sched) (p : Z) : res sched :=
  if p =? 0 then mret s
  else
    s ← sleep_queue_remove s p;
    x ← getp s p;
    if is_state (state x) PROCESS_READY then
      let target_cpu := clamp_cpu (cpu_id x) in
      s ← enqueue_active s target_cpu p;
      s ← sched_pcpu_inc_load s target_cpu;
      mret (sched_ipi_resched my s target_cpu)
    else mret s.

(** ** The process list *)

(** [do { if (it->pid == pid) return it; it = it->next; } while (it && it != start);] *)
Fixpoint find_loop (fuel : nat) (s : sched) (it start pd : Z) : res Z :=
  match fuel with
  | O => NoFuel
  | S fuel =>
      x ← getp s it;
      if pid x =? pd then mret it
      else
        n ← fget (pnext s) it;
        if (n =? 0) || (n =? start) then mret 0 else find_loop fuel s n start pd
  end.
Definition process_find_locked (s : sched) (pd : Z) : res Z :=
  if ready_queue_head s =? 0 then mret 0
  else find_loop (nprocs s) s (ready_queue_head s) (ready_queue_head s) pd.

Definition process_find_by_pid (s : sched) (pd : Z) : res Z := process_find_locked s pd.

Definition process_is_current_somewhere (s : sched) (p : Z) : res bool :=
  if p =? 0 then mret false
  else
    x ← getp s p;
    c ← cur s (clamp_cpu (cpu_id x));
    mret (c =? p).

(** ** Signals *)

(** Makes signal [sig] pending; SIGKILL cannot stay blocked. *)
Definition raise_sig (sig : Z) (x : proc) : proc :=
  let x := set_sig_pending_mask (Z.lor (sig_pending_mask x) (Z.shiftl 1 sig)) x in
  if sig =? 9
  then set_sig_blocked_mask (Z.land (sig_blocked_mask x) (u32 (Z.lnot (Z.shiftl 1 sig)))) x
  else x.

(** [if (p->state == PROCESS_BLOCKED || p->state == PROCESS_SLEEPING) ...] *)
Definition wake_interruptible (s : sched) (p cpu : Z) : res sched :=
  x ← getp s p;
  if is_state (state x) PROCESS_BLOCKED || is_state (state x) PROCESS_SLEEPING then
    s ← sleep_queue_remove s p;
    s ← updp s p (set_state PROCESS_READY);
    s ← enqueue_active s cpu p;
    sched_pcpu_inc_load s cpu
  else mret s.

(** The sender [c] may not signal [x]. *)
Definition no_permission (c x : proc) : bool :=
  negb (euid c =? 0) && negb (euid c =? uid x) && negb (uid c =? uid x).

(** [process_kill] when it is not a process killing itself. *)
Definition process_kill_other (my : Z) (s : sched) (pd sig : Z) : res (Z * sched) :=
  if pd =? 0 then mret (- EINVAL, s)
  else if (sig <=? 0) || (PROCESS_MAX_SIG <=? sig) then mret (- EINVAL, s)
  else
    c ← cur s my;
    p ← process_find_locked s pd;
    if p =? 0 then mret (- ESRCH, s)
    else
      x ← getp s p;
      if pid x =? 0 then mret (- ESRCH, s)
      else if is_state (state x) PROCESS_ZOMBIE then mret (0, s)
      else
        denied ← (if c =? 0 then mret false else cx ← getp s c; mret (no_permission cx x));
        if (denied : bool) then mret (- EPERM, s)
        else
          let wake_cpu := clamp_cpu (cpu_id x) in
          s ← updp s p (raise_sig sig);
          s ← wake_interruptible s p wake_cpu;
          mret (0, sched_ipi_resched my s wake_cpu).

(** One pass of the body of the loop of [process_kill_pgrp].  The result says
    whether [continue] was executed, which skips [it = it->next]. *)
Definition kill_pgrp_body (s : sched) (c it pgrp sig : Z) (found : bool) (ipi_mask : Z)
    : res (bool * bool * Z * sched) :=
  x ← getp s it;
  if (pgrp_id x =? pgrp) && negb (pid x =? 0) && negb (is_state (state x) PROCESS_ZOMBIE) then
    denied ← (if c =? 0 then mret false else cx ← getp s c; mret (no_permission cx x));
    if (denied : bool) then mret (true, found, ipi_mask, s)
    else
      let pcpu := clamp_cpu (cpu_id x) in
      s ← updp s it (raise_sig sig);
      s ← wake_interruptible s it pcpu;
      mret (false, true, if pcpu <? 32 then Z.lor ipi_mask (Z.shiftl 1 pcpu) else ipi_mask, s)
  else mret (false, found, ipi_mask, s).

Fixpoint kill_pgrp_loop (fuel : nat) (s : sched) (c it start pgrp sig : Z) (found : bool)
    (ipi_mask : Z) : res (bool * Z * sched) :=
  match fuel with
  | O => NoFuel
  | S fuel =>
      '(cont, found, ipi_mask, s) ← kill_pgrp_body s c it pgrp sig found ipi_mask;
      n ← (if (cont : bool) then mret it else fget (pnext s) it);
      if (n =? 0) || (n =? start) then mret (found, ipi_mask, s)
      else kill_pgrp_loop fuel s c n start pgrp sig found ipi_mask
  end.

Definition process_kill_pgrp (fuel : nat) (my : Z) (s : sched) (pgrp sig : Z) : res (Z * sched) :=
  if pgrp =? 0 then mret (- EINVAL, s)
  else if (sig <=? 0) || (PROCESS_MAX_SIG <=? sig) then mret (- EINVAL, s)
  else
    c ← cur s my;
    '(found, mask, s) ←
      (if ready_queue_head s =? 0 then mret (false, 0, s)
       else kill_pgrp_loop fuel s c (ready_queue_head s) (ready_queue_head s) pgrp sig false 0);
    s ← send_ipis 33 my s (Z.land mask (u32 (Z.lnot (Z.shiftl 1 my))));
    mret (if (found : bool) then 0 else - ESRCH, s).

(** ** Context switch *)

(** The legacy fallback: the first process with PID 0, or the head. *)
Fixpoint idle_loop (fuel : nat) (s : sched) (it start : Z) : res (option Z) :=
  match fuel with
  | O => NoFuel
  | S fuel =>
      x ← getp s it;
      if pid x =? 0 then mret (Some it)
      else
        n ← fget (pnext s) it;
        if (n =? 0) || (n =? start) then mret None else idle_loop fuel s n start
  end.

Definition idle_of (s : sched) (cpu : Z) : res Z :=
  crq ← arr_get (pcpu_rq (rqs s)) cpu;
  if negb (idle crq =? 0) then mret (idle crq)
  else
    let it := ready_queue_head s in
    if it =? 0 then mret 0
    else o ← idle_loop (nprocs s) s it it; mret (default it o).

(** What happens to the process that leaves the CPU; [true]: it has time left
    and keeps running. *)
Definition schedule_prev (s : sched) (cpu prev : Z) : res (bool * sched) :=
  x ← getp s prev;
  if is_state (state x) PROCESS_RUNNING then
    if 0 <? time_slice x then
      s ← updp s prev (set_time_slice (time_slice x - 1));
      mret (true, s)
    else
      s ← updp s prev (set_state PROCESS_READY);
      s ← (if priority x <? SCHED_NUM_PRIOS - 1
           then updp s prev (set_priority (priority x + 1)) else mret s);
      s ← enqueue_expired s cpu prev;
      mret (false, s)
  else if is_state (state x) PROCESS_SLEEPING then
    i ← fget (tq_in (sleepq s)) prev;
    if i =? 0 then
      s ← sleep_queue_remove s prev;
      s ← sleep_queue_insert s prev;
      mret (false, s)
    else mret (false, s)
  else mret (false, s).

(** The choice of the next process. *)
Definition schedule_next (s : sched) (cpu prev : Z) : res (Z * sched) :=
  '(next, r) ← rq_pick_next (rqs s) cpu;
  let s := set_rqs r s in
  if negb (next =? 0) then
    s ← dequeue_active s cpu next;
    s ← sched_pcpu_dec_load s cpu;
    mret (next, s)
  else
    x ← getp s prev;
    if is_state (state x) PROCESS_READY then
      s ← dequeue_active s cpu prev;
      mret (prev, s)
    else
      next ← idle_of s cpu;
      mret (next, s).

(** The switch itself; the contents of the stacks and of the FPU are the
    machine's. *)
Definition switch_to (s : sched) (cpu prev next : Z) : res sched :=
  c ← arr_set (current s) cpu next;
  let s := set_current c s in
  s ← updp s next (set_state PROCESS_RUNNING);
  s ← updp s next (set_time_slice SCHED_TIME_SLICE);
  nx ← getp s next;
  px ← getp s prev;
  let s := if negb (addr_space nx =? 0) && negb (addr_space nx =? addr_space px)
           then emit (SetAddressSpace (addr_space nx)) s else s in
  let s := if negb (kernel_stack nx =? 0)
           then emit (SetKernelStack (u32 (kernel_stack nx + KSTACK_SIZE))) s else s in
  mret (emit (ContextSwitch prev next) s).

Definition schedule (s : sched) (cpu : Z) : res sched :=
  prev ← cur s cpu;
  if prev =? 0 then mret s
  else
    '(keep, s) ← schedule_prev s cpu prev;
    if (keep : bool) then mret s
    else
      '(next, s) ← schedule_next s cpu prev;
      if prev =? next then
        s ← updp s prev (set_state PROCESS_RUNNING);
        updp s prev (set_time_slice SCHED_TIME_SLICE)
      else switch_to s cpu prev next.

(** ** Sleeping and the timer tick *)

(** Up to the call of [schedule]. *)
Definition process_sleep_prepare (my : Z) (s : sched) (now ticks : Z) : res sched :=
  c ← cur s my;
  s ← updp s c (set_wake_at_tick (u32 (now + ticks)));
  s ← updp s c (set_state PROCESS_SLEEPING);
  s ← sleep_queue_remove s c;
  sleep_queue_insert s c.

Definition process_sleep (my : Z) (s : sched) (now ticks : Z) : res sched :=
  s ← process_sleep_prepare my s now ticks;
  schedule s my.

(** [while (sleep_head && current_tick >= sleep_head->wake_at_tick)] *)
Fixpoint wake_sleepers (fuel : nat) (s : sched) (tick ipi_mask : Z) : res (Z * sched) :=
  match fuel with
  | O => NoFuel
  | S fuel =>
      let p := tq_head (sleepq s) in
      if p =? 0 then mret (ipi_mask, s)
      else
        x ← getp s p;
        if wake_at_tick x <=? tick then
          s ← sleep_queue_remove s p;
          if is_state (state x) PROCESS_SLEEPING then
            s ← updp s p (set_state PROCESS_READY);
            s ← (if 0 <? priority x then updp s p (set_priority (priority x - 1)) else mret s);
            let tcpu := clamp_cpu (cpu_id x) in
            s ← enqueue_active s tcpu p;
            s ← sched_pcpu_inc_load s tcpu;
            wake_sleepers fuel s tick
              (if tcpu <? 32 then Z.lor ipi_mask (Z.shiftl 1 tcpu) else ipi_mask)
          else wake_sleepers fuel s tick ipi_mask
        else mret (ipi_mask, s)
  end.

(** [while (alarm_head && current_tick >= alarm_head->alarm_tick)] *)
Fixpoint fire_alarms (fuel : nat) (s : sched) (tick : Z) : res sched :=
  match fuel with
  | O => NoFuel
  | S fuel =>
      let p := tq_head (alarmq s) in
      if p =? 0 then mret s
      else
        x ← getp s p;
        if alarm_tick x <=? tick then
          s ← alarm_queue_remove s p;
          s ← updp s p (fun x => set_sig_pending_mask (Z.lor (sig_pending_mask x) (Z.shiftl 1 14)) x);
          if negb (alarm_interval x =? 0) then
            s ← updp s p (set_alarm_tick (u32 (tick + alarm_interval x)));
            s ← alarm_queue_insert s p;
            fire_alarms fuel s tick
          else
            s ← updp s p (set_alarm_tick 0);
            fire_alarms fuel s tick
        else mret s
  end.

(** ITIMER_VIRTUAL and ITIMER_PROF of the running process. *)
Definition tick_itimers (x : proc) : proc :=
  let x :=
    if 0 <? itimer_virt_value x then
      let v := itimer_virt_value x - 1 in
      if v =? 0
      then set_itimer_virt_value (itimer_virt_interval x)
             (set_sig_pending_mask (Z.lor (sig_pending_mask x) (Z.shiftl 1 26)) x)
      else set_itimer_virt_value v x
    else x in
  if 0 <? itimer_prof_value x then
    let v := itimer_prof_value x - 1 in
    if v =? 0
    then set_itimer_prof_value (itimer_prof_interval x)
           (set_sig_pending_mask (Z.lor (sig_pending_mask x) (Z.shiftl 1 27)) x)
    else set_itimer_prof_value v x
  else x.

(** Applies [f] to the process running on [my], if there is one. *)
Definition on_running (my : Z) (s : sched) (f : proc -> proc) : res sched :=
  c ← cur s my;
  if c =? 0 then mret s
  else
    x ← getp s c;
    if is_state (state x) PROCESS_RUNNING then setp s c (f x) else mret s.

Definition charge_tick (x : proc) : proc := set_utime (u32 (utime x + 1)) x.

(** [afuel] bounds the alarm loop. *)
Definition process_wake_check (afuel : nat) (my : Z) (s : sched) (tick : Z) : res sched :=
  if ready_queue_head s =? 0 then mret s
  else
    s ← on_running my s charge_tick;
    '(mask, s) ← wake_sleepers (nprocs s) s tick 0;
    s ← fire_alarms afuel s tick;
    s ← on_running my s tick_itimers;
    send_ipis 33 my s (Z.land mask (u32 (Z.lnot (Z.shiftl 1 my)))).

Definition sched_ap_tick (my : Z) (s : sched) : res sched :=
  on_running my s (fun x => tick_itimers (charge_tick x)).

Definition process_alarm_set (s : sched) (p tick : Z) : res (Z * sched) :=
  x ← getp s p;
  s ← alarm_queue_remove s p;
  if negb (tick =? 0) then
    s ← updp s p (set_alarm_tick tick);
    s ← alarm_queue_insert s p;
    mret (alarm_tick x, s)
  else
    s ← updp s p (set_alarm_tick 0);
    mret (alarm_tick x, s).

(** ** Load balancing *)

(** The busiest and the idlest CPU; [n] CPUs are left. *)
Fixpoint load_extremes (n : nat) (s : sched) (i max_cpu max_load min_cpu min_load : Z)
    : res (Z * Z * Z * Z) :=
  match n with
  | O => mret (max_cpu, max_load, min_cpu, min_load)
  | S n =>
      load ← sched_pcpu_get_load s i;
      let '(max_cpu, max_load) := if max_load <? load then (i, load) else (max_cpu, max_load) in
      let '(min_cpu, min_load) := if load <? min_load then (i, load) else (min_cpu, min_load) in
      load_extremes n s (i + 1) max_cpu max_load min_cpu min_load
  end.

(** [while (p)]: the first READY process of a list that is not the idle one. *)
Fixpoint victim_in_list (fuel : nat) (s : sched) (idle_p p : Z) : res Z :=
  match fuel with
  | O => NoFuel
  | S fuel =>
      if p =? 0 then mret 0
      else
        x ← getp s p;
        if negb (p =? idle_p) && is_state (state x) PROCESS_READY then mret p
        else n ← fget (rq_next (rqs s)) p; victim_in_list fuel s idle_p n
  end.

(** From the lowest priority up: [n] priorities are left. *)
Fixpoint victim_in_rq (n : nat) (s : sched) (c k idle_p : Z) : res Z :=
  match n with
  | O => mret 0
  | S n =>
      r ← get_rq (rqs s) c k;
      let prio := Z.of_nat n in
      if Z.land (bitmap r) (Z.shiftl 1 prio) =? 0 then victim_in_rq n s c k idle_p
      else
        pq ← arr_get (queue r) prio;
        v ← victim_in_list (nprocs s) s idle_p (pq_head pq);
        if v =? 0 then victim_in_rq n s c k idle_p else mret v
  end.

(** Takes a victim out of runqueue [k] of CPU [c]; 0 when there is none. *)
Definition take_victim (s : sched) (c k idle_p : Z) : res (Z * sched) :=
  v ← victim_in_rq (Z.to_nat SCHED_NUM_PRIOS) s c k idle_p;
  if v =? 0 then mret (0, s)
  else
    x ← getp s v;
    r ← rq_dequeue (rqs s) c k v (priority x);
    mret (v, set_rqs r s).

(** Pass 0 searches the expired runqueue, pass 1 the active one. *)
Definition find_victim (s : sched) (c : Z) : res (Z * sched) :=
  src ← arr_get (pcpu_rq (rqs s)) c;
  '(v, s) ← take_victim s c (expired src) (idle src);
  if negb (v =? 0) then mret (v, s) else take_victim s c (active src) (idle src).

Definition sched_load_balance (my : Z) (s : sched) : res sched :=
  let ncpus := pcpu_count s in
  if ncpus <=? 1 then mret s
  else
    '(max_cpu, max_load, min_cpu, min_load) ←
      load_extremes (Z.to_nat (Z.min ncpus SCHED_MAX_CPUS)) s 0 0 0 0 4294967295;
    if (max_cpu =? min_cpu) || (max_load <? u32 (min_load + 2)) then mret s
    else
      '(v, s) ← find_victim s max_cpu;
      if v =? 0 then mret s
      else
        s ← updp s v (set_cpu_id min_cpu);
        s ← enqueue_active s min_cpu v;
        s ← sched_pcpu_dec_load s max_cpu;
        s ← sched_pcpu_inc_load s min_cpu;
        mret (sched_ipi_resched my s min_cpu).
