(* ===== verification/Cred.v ===== *)
(** Credentials, sessions and process groups (src/kernel/syscall.c: [setuid],
    [setgid], [seteuid], [setegid], [setreuid], [setregid], [setsid], [setpgid]):
    each call reads and changes the record of the current process only.  The value
    returned is the C return value, before its conversion to the result register. *)

From S2P Require Import Prelude Ring Runq SortedQ AsRef SchedState Sched.

(** [(uint32_t)-1]: leave this one alone. *)
Definition NO_ID : Z := 4294967295.

Definition setuid (new_uid : Z) (x : proc) : Z * proc :=
  if euid x =? 0 then (0, x |> set_uid new_uid |> set_euid new_uid |> set_suid new_uid)
  else if (new_uid =? uid x) || (new_uid =? suid x) then (0, set_euid new_uid x)
  else (- EPERM, x).

Definition setgid (new_gid : Z) (x : proc) : Z * proc :=
  if euid x =? 0 then (0, x |> set_gid new_gid |> set_egid new_gid |> set_sgid new_gid)
  else if (new_gid =? gid x) || (new_gid =? sgid x) then (0, set_egid new_gid x)
  else (- EPERM, x).

Definition seteuid (new_euid : Z) (x : proc) : Z * proc :=
  if (euid x =? 0) || (new_euid =? uid x) || (new_euid =? suid x)
  then (0, x |> set_suid (euid x) |> set_euid new_euid)
  else (- EPERM, x).

Definition setegid (new_egid : Z) (x : proc) : Z * proc :=
  if (euid x =? 0) || (new_egid =? gid x) || (new_egid =? sgid x)
  then (0, x |> set_sgid (egid x) |> set_egid new_egid)
  else (- EPERM, x).

(** May the process with effective user [eu], real id [r] and saved id [sv] take [id]? *)
Definition id_refused (eu r sv id : Z) : bool :=
  negb (id =? NO_ID) && (negb (eu =? 0) && negb (id =? r) && negb (id =? sv)).

Definition setreuid (r e : Z) (x : proc) : Z * proc :=
  if id_refused (euid x) (uid x) (suid x) r then (- EPERM, x)
  else if id_refused (euid x) (uid x) (suid x) e then (- EPERM, x)
  else
    let x := if r =? NO_ID then x else set_uid r x in
    let x := if e =? NO_ID then x else set_euid e x in
    (0, if e =? NO_ID then x else set_suid e x).

Definition setregid (r e : Z) (x : proc) : Z * proc :=
  if id_refused (euid x) (gid x) (sgid x) r then (- EPERM, x)
  else if id_refused (euid x) (gid x) (sgid x) e then (- EPERM, x)
  else
    let x := if r =? NO_ID then x else set_gid r x in
    let x := if e =? NO_ID then x else set_egid e x in
    (0, if e =? NO_ID then x else set_sgid e x).

Definition syscall_setsid_impl (x : proc) : Z * proc :=
  if negb (pid x =? 0) && (pgrp_id x =? pid x) then (- EPERM, x)
  else let y := x |> set_session_id (pid x) |> set_pgrp_id (pid x) in (s32 (session_id y), y).

Definition syscall_setpgid_impl (pd pgid : Z) (x : proc) : Z * proc :=
  if negb (pd =? 0) && negb (pd =? s32 (pid x)) then (- EINVAL, x)
  else
    let pgid := if pgid =? 0 then s32 (pid x) else pgid in
    if pgid <? 0 then (- EINVAL, x) else (0, set_pgrp_id (u32 pgid) x).

(** ** The calls *)

Inductive cred_op : Type :=
| Setuid (n : Z)
| Setgid (n : Z)
| Seteuid (n : Z)
| Setegid (n : Z)
| Setreuid (r e : Z)
| Setregid (r e : Z)
| Setsid
| Setpgid (pd pgid : Z).

Definition cred_apply (o : cred_op) : proc -> Z * proc :=
  match o with
  | Setuid n => setuid n
  | Setgid n => setgid n
  | Seteuid n => seteuid n
  | Setegid n => setegid n
  | Setreuid r e => setreuid r e
  | Setregid r e => setregid r e
  | Setsid => syscall_setsid_impl
  | Setpgid pd pgid => syscall_setpgid_impl pd pgid
  end.

(** The call by the current process of CPU [my]. *)
Definition cred_call (my : Z) (s : sched) (o : cred_op) : res (Z * sched) :=
  c ← cur s my;
  if c =? 0 then mret (- EINVAL, s)
  else
    x ← getp s c;
    let '(r, y) := cred_apply o x in
    s ← setp s c y;
    mret (r, s).

(** ** Privileges *)

(** The identities a process can act under without privilege. *)
Definition ids (x : proc) : list Z := [uid x; euid x; suid x].
Definition gids (x : proc) : list Z := [gid x; egid x; sgid x].

(** C30: No privilege escalation: a call by a process that does not act as the
    superuser gives it no user and no group identity it did not have as its real,
    effective or saved one; so a process without identity 0 never gets it, by any
    sequence of these calls. *)
Theorem no_privilege_escalation (l : list cred_op) x :
  0 ∉ ids x ->
  let y := fold_left (fun x o => snd (cred_apply o x)) l x in
  (forall i, i ∈ ids y -> i ∈ ids x) /\ (forall i, i ∈ gids y -> i ∈ gids x) /\ euid y <> 0.
Proof.
  revert x. induction l as [|o l IH]; intros x Hz; [split_and!; auto; intros H0; apply Hz; unfold ids; simpl in H0; rewrite H0; set_solver|].
  cbn [fold_left]. assert (He : euid x <> 0) by (intros H0; apply Hz; unfold ids; rewrite H0; set_solver).
  assert (Hstep : let y := snd (cred_apply o x) in
    (forall i, i ∈ ids y -> i ∈ ids x) /\ (forall i, i ∈ gids y -> i ∈ gids x)).
  { clear IH. unfold ids, gids in *.
    destruct o; cbn [cred_apply]; unfold setuid, setgid, seteuid, setegid, setreuid, setregid, id_refused,
      syscall_setsid_impl, syscall_setpgid_impl; cbv zeta;
    repeat (case_match; cbn [snd]; rewrite ?orb_true_iff, ?orb_false_iff, ?andb_true_iff, ?andb_false_iff,
      ?negb_true_iff, ?negb_false_iff, ?Z.eqb_eq, ?Z.eqb_neq in *); simpl; split; set_solver. }
  destruct Hstep as [H1 H2]. set (y := snd (cred_apply o x)) in *.
  assert (Hz' : 0 ∉ ids y) by (intros H0; apply Hz, H1, H0).
  destruct (IH y Hz') as (A & B & C). split_and!; auto.
Qed.
