(* ===== verification/SchedFrame.v ===== *)
(** What the scheduling operations leave alone: the process list, the open
    files, the shared address spaces, and the identity of every process.  None
    of them creates a zombie. *)

From S2P Require Import Prelude Ring Runq SortedQ AsRef SchedState Sched.

(** The fields of a process no scheduling operation writes. *)
Definition ident (x : proc) : Z * Z * Z * Z * Z * Z * (list Z * list Z) * Z :=
  (pid x, parent_pid x, pgrp_id x, uid x, euid x, addr_space x, (files x, fd_flags x), exit_status x).

Record frame (s s' : sched) : Prop := Frame {
  fr_files : kfiles s' = kfiles s;
  fr_asref : asref s' = asref s;
  fr_next : pnext s' = pnext s;
  fr_head : ready_queue_head s' = ready_queue_head s;
  fr_init : init_pid s' = init_pid s;
  fr_ident : forall p, ident <$> procs s' !! p = ident <$> procs s !! p;
  fr_zombie : forall p x', procs s' !! p = Some x' -> state x' = PROCESS_ZOMBIE ->
    exists x, procs s !! p = Some x /\ state x = PROCESS_ZOMBIE
}.

Lemma frame_refl s : frame s s.
Proof. split; eauto. Qed.

Lemma frame_trans s1 s2 s3 : frame s1 s2 -> frame s2 s3 -> frame s1 s3.
Proof.
  intros F1 F2. split; try (etransitivity; [apply F2|apply F1]).
  intros p x Hx Hz. destruct (fr_zombie _ _ F2 p x Hx Hz) as (y & Hy & Ey). apply (fr_zombie _ _ F1 p y Hy Ey).
Qed.

Create HintDb frame.

(** ** Steps that only touch queues, loads or the log *)

Lemma frame_quiet s s' : procs s' = procs s -> kfiles s' = kfiles s -> asref s' = asref s ->
  pnext s' = pnext s -> ready_queue_head s' = ready_queue_head s -> init_pid s' = init_pid s -> frame s s'.
Proof. intros E1 E2 E3 E4 E5 E6. split; rewrite ?E1; eauto. Qed.

Lemma frame_emit e s : frame s (emit e s).
Proof. apply frame_quiet; reflexivity. Qed.
Lemma frame_emit_r e s s' : frame s s' -> frame s (emit e s').
Proof. intros F. eapply frame_trans; [exact F|apply frame_emit]. Qed.
Lemma frame_rqs r s : frame s (set_rqs r s).
Proof. apply frame_quiet; reflexivity. Qed.
Lemma frame_sleepq q s : frame s (set_sleepq q s).
Proof. apply frame_quiet; reflexivity. Qed.
Lemma frame_alarmq q s : frame s (set_alarmq q s).
Proof. apply frame_quiet; reflexivity. Qed.
Lemma frame_load a s : frame s (set_pcpu_load a s).
Proof. apply frame_quiet; reflexivity. Qed.
Lemma frame_current c s : frame s (set_current c s).
Proof. apply frame_quiet; reflexivity. Qed.

Lemma frame_procs s p x y :
  procs s !! p = Some x -> ident y = ident x -> (state y = PROCESS_ZOMBIE -> state x = PROCESS_ZOMBIE) ->
  frame s (set_procs (<[p := y]> (procs s)) s).
Proof.
  intros Hx Ei Hz. split; simpl; auto; intros q.
  - destruct (decide (p = q)) as [->|]; [rewrite lookup_insert_eq, Hx; simpl; congruence|].
    rewrite lookup_insert_ne by auto. reflexivity.
  - intros x' Hx' Hz'. destruct (decide (p = q)) as [->|].
    + rewrite lookup_insert_eq in Hx'. injection Hx' as <-. eauto.
    + rewrite lookup_insert_ne in Hx' by auto. eauto.
Qed.

(** [f] changes neither the identity nor whether the process is a zombie. *)
Definition tame (f : proc -> proc) : Prop :=
  forall x, ident (f x) = ident x /\ (state (f x) = PROCESS_ZOMBIE -> state x = PROCESS_ZOMBIE).

Lemma frame_setp s p x y s' : getp s p = Ok x -> setp s p y = Ok s' ->
  ident y = ident x /\ (state y = PROCESS_ZOMBIE -> state x = PROCESS_ZOMBIE) -> frame s s'.
Proof.
  unfold getp, setp, fget, fset. destruct (procs s !! p) eqn:E; [|discriminate]. intros [= ->] [= <-] [Hi Hz].
  eapply frame_procs; eauto.
Qed.

Lemma frame_updp s p f s' : updp s p f = Ok s' -> tame f -> frame s s'.
Proof.
  intros Hu Hf. unfold updp in Hu. apply res_bind_ok_inv in Hu as (x & Hx & Hu).
  eapply frame_setp; eauto.
Qed.

#[export] Hint Resolve frame_refl frame_emit frame_rqs frame_sleepq frame_alarmq frame_load frame_current : frame.

(** Takes a hypothesis [... = Ok s'] apart, one call at a time. *)
Ltac step_inv H :=
  lazymatch type of H with
  | (mbind _ _) = Ok _ =>
      let a := fresh "a" in let E := fresh "E" in
      apply res_bind_ok_inv in H as (a & E & H)
  | (let '(_, _) := ?p in _) = Ok _ => destruct p; try (cbv beta iota in H)
  | (if ?b then _ else _) = Ok _ => let E := fresh "E" in destruct b eqn:E
  | mret _ = Ok _ => injection H as H; subst
  | Ok _ = Ok _ => injection H as H; subst
  end.
Ltac steps_inv H := cbv beta zeta in H; repeat (step_inv H; cbv beta zeta in H).

Ltac tame_solver := red; intros; simpl; split; [reflexivity|solve [auto|discriminate]].

Lemma tame_state st : st <> PROCESS_ZOMBIE -> tame (set_state st).
Proof. intros Hst x. split; [reflexivity|]. simpl. intros. contradiction. Qed.

Section basic.
Context (s s' : sched) (p c : Z).

Lemma frame_sleep_remove : sleep_queue_remove s p = Ok s' -> frame s s'.
Proof. unfold sleep_queue_remove. intros H. steps_inv H. auto with frame. Qed.
Lemma frame_sleep_insert : sleep_queue_insert s p = Ok s' -> frame s s'.
Proof. unfold sleep_queue_insert. intros H. steps_inv H. auto with frame. Qed.
Lemma frame_alarm_remove : alarm_queue_remove s p = Ok s' -> frame s s'.
Proof. unfold alarm_queue_remove. intros H. steps_inv H. auto with frame. Qed.
Lemma frame_alarm_insert : alarm_queue_insert s p = Ok s' -> frame s s'.
Proof. unfold alarm_queue_insert. intros H. steps_inv H. auto with frame. Qed.
Lemma frame_enqueue_active : enqueue_active s c p = Ok s' -> frame s s'.
Proof. unfold enqueue_active. intros H. steps_inv H. auto with frame. Qed.
Lemma frame_enqueue_expired : enqueue_expired s c p = Ok s' -> frame s s'.
Proof. unfold enqueue_expired. intros H. steps_inv H. auto with frame. Qed.
Lemma frame_dequeue_active : dequeue_active s c p = Ok s' -> frame s s'.
Proof. unfold dequeue_active. intros H. steps_inv H. auto with frame. Qed.
Lemma frame_inc_load : sched_pcpu_inc_load s c = Ok s' -> frame s s'.
Proof. unfold sched_pcpu_inc_load. intros H. steps_inv H; auto with frame. Qed.
Lemma frame_dec_load : sched_pcpu_dec_load s c = Ok s' -> frame s s'.
Proof. unfold sched_pcpu_dec_load. intros H. steps_inv H; auto with frame. Qed.
End basic.
Lemma frame_ipi my s c : frame s (sched_ipi_resched my s c).
Proof. unfold sched_ipi_resched. destruct (c =? my); auto with frame. Qed.

#[export] Hint Resolve frame_sleep_remove frame_sleep_insert frame_alarm_remove frame_alarm_insert
  frame_enqueue_active frame_enqueue_expired frame_dequeue_active frame_inc_load frame_dec_load
  frame_ipi : frame.

(** Takes every hypothesis [... = Ok _] apart. *)
Ltac norm_hyps :=
  repeat match goal with
  | E : mbind _ _ = Ok _ |- _ => let a := fresh "a" in let F := fresh "F" in
      apply res_bind_ok_inv in E as (a & F & E); cbv beta zeta in E
  | E : (if ?b then _ else _) = Ok _ |- _ => destruct b
  | E : (let '(_, _) := ?p in _) = Ok _ |- _ => destruct p; cbv beta iota zeta in E
  | E : mret _ = Ok _ |- _ => injection E as E; subst
  | E : Ok _ = Ok _ |- _ => injection E as E; subst
  end.

(** Chains the frames of the calls found in the context. *)
Ltac frame_chain :=
  norm_hyps;
  repeat match goal with
  | E : updp ?s ?p ?f = Ok ?s1 |- frame ?s _ =>
      eapply (frame_trans s s1);
      [apply (frame_updp s p f s1 E); first [apply tame_state; discriminate|solve [auto with frame]|tame_solver]|clear E]
  | E : _ = Ok ?s1 |- frame ?s _ =>
      lazymatch type of E with context [s] => idtac end;
      eapply (frame_trans s s1); [solve [eauto with frame]|clear E]
  end; auto with frame.

Lemma frame_send_ipis fuel : forall my s m s', send_ipis fuel my s m = Ok s' -> frame s s'.
Proof.
  induction fuel as [|fuel IH]; intros my s m s' H; [discriminate|]. cbn [send_ipis] in H.
  steps_inv H; auto with frame. eapply frame_trans; [apply (frame_ipi my s a)|]. eauto.
Qed.
#[export] Hint Resolve frame_send_ipis : frame.

(** ** The operations *)

Lemma tame_raise sig : tame (raise_sig sig).
Proof. intros x. unfold raise_sig. destruct (sig =? 9); auto. Qed.
Lemma tame_itimers : tame tick_itimers.
Proof. intros x. unfold tick_itimers. repeat case_match; auto. Qed.
Lemma tame_comp f g : tame f -> tame g -> tame (fun x => g (f x)).
Proof.
  intros Hf Hg x. destruct (Hf x) as [E1 Z1], (Hg (f x)) as [E2 Z2]. split; [congruence|auto].
Qed.
Lemma tame_charge : tame charge_tick.
Proof. intros x. auto. Qed.
#[export] Hint Resolve tame_raise tame_itimers tame_comp tame_charge : frame.

Section ops.
Context {s s' : sched}.

Lemma frame_wake p c : wake_interruptible s p c = Ok s' -> frame s s'.
Proof. unfold wake_interruptible. intros H. steps_inv H; frame_chain. Qed.

Lemma frame_enqueue_ready my p : sched_enqueue_ready my s p = Ok s' -> frame s s'.
Proof. unfold sched_enqueue_ready. intros H. steps_inv H; frame_chain. Qed.

Lemma frame_on_running my f : tame f -> on_running my s f = Ok s' -> frame s s'.
Proof.
  unfold on_running. intros Hf H. steps_inv H; auto with frame. eapply frame_setp; eauto.
Qed.

Lemma frame_schedule_prev cpu prev b : schedule_prev s cpu prev = Ok (b, s') -> frame s s'.
Proof. unfold schedule_prev. intros H. steps_inv H; frame_chain. Qed.

Lemma frame_schedule_next cpu prev n : schedule_next s cpu prev = Ok (n, s') -> frame s s'.
Proof.
  unfold schedule_next. intros H. steps_inv H; norm_hyps;
    (eapply frame_trans; [apply (frame_rqs r s)|]); frame_chain.
Qed.

Lemma frame_switch cpu prev next : switch_to s cpu prev next = Ok s' -> frame s s'.
Proof.
  unfold switch_to. intros H. steps_inv H. eapply frame_trans; [apply (frame_current a s)|].
  frame_chain. repeat case_match; repeat apply frame_emit_r; auto with frame.
Qed.
End ops.

Lemma frame_schedule s cpu s' : schedule s cpu = Ok s' -> frame s s'.
Proof.
  unfold schedule. intros H. steps_inv H; auto with frame.
  - eapply frame_schedule_prev; eauto.
  - eapply frame_trans; [eapply frame_schedule_prev; eauto|].
    eapply frame_trans; [eapply frame_schedule_next; eauto|]. frame_chain.
  - eapply frame_trans; [eapply frame_schedule_prev; eauto|].
    eapply frame_trans; [eapply frame_schedule_next; eauto|]. eapply frame_switch; eauto.
Qed.
#[export] Hint Resolve frame_schedule frame_wake frame_enqueue_ready : frame.

Lemma frame_sleep_prepare my s now ticks s' : process_sleep_prepare my s now ticks = Ok s' -> frame s s'.
Proof. unfold process_sleep_prepare. intros H. steps_inv H; frame_chain. Qed.

Lemma frame_kill_other my s pd sig r s' : process_kill_other my s pd sig = Ok (r, s') -> frame s s'.
Proof. unfold process_kill_other. intros H. steps_inv H; frame_chain. Qed.

Lemma frame_pgrp_body s c it pgrp sig found m b f m' s' :
  kill_pgrp_body s c it pgrp sig found m = Ok (b, f, m', s') -> frame s s'.
Proof. unfold kill_pgrp_body. intros H. steps_inv H; frame_chain. Qed.

Lemma frame_pgrp_loop fuel : forall s c it start pgrp sig found m f m' s',
  kill_pgrp_loop fuel s c it start pgrp sig found m = Ok (f, m', s') -> frame s s'.
Proof.
  induction fuel as [|fuel IH]; intros s c it start pgrp sig found m f m' s' H; [discriminate|].
  cbn [kill_pgrp_loop] in H. steps_inv H; (eapply frame_trans; [eapply frame_pgrp_body; eauto|]); eauto with frame.
Qed.

Lemma frame_kill_pgrp fuel my s pgrp sig r s' : process_kill_pgrp fuel my s pgrp sig = Ok (r, s') -> frame s s'.
Proof.
  unfold process_kill_pgrp. intros H. steps_inv H; auto with frame; norm_hyps; eauto with frame;
    (eapply frame_trans; [eapply frame_pgrp_loop; eauto|]); eauto with frame.
Qed.

Lemma frame_wake_sleepers fuel : forall s tick m m' s',
  wake_sleepers fuel s tick m = Ok (m', s') -> frame s s'.
Proof.
  induction fuel as [|fuel IH]; intros s tick m m' s' H; [discriminate|]. cbn [wake_sleepers] in H.
  steps_inv H; auto with frame; frame_chain; eauto with frame.
Qed.

Lemma frame_fire_alarms fuel : forall s tick s', fire_alarms fuel s tick = Ok s' -> frame s s'.
Proof.
  induction fuel as [|fuel IH]; intros s tick s' H; [discriminate|]. cbn [fire_alarms] in H.
  steps_inv H; auto with frame; frame_chain; eauto with frame.
Qed.

Lemma frame_wake_check afuel my s tick s' : process_wake_check afuel my s tick = Ok s' -> frame s s'.
Proof.
  unfold process_wake_check. intros H. steps_inv H; auto with frame.
  eapply frame_trans; [eapply frame_on_running; [apply tame_charge|eauto]|].
  eapply frame_trans; [eapply frame_wake_sleepers; eauto|].
  eapply frame_trans; [eapply frame_fire_alarms; eauto|].
  eapply frame_trans; [eapply frame_on_running; [apply tame_itimers|eauto]|]. eauto with frame.
Qed.

Lemma frame_ap_tick my s s' : sched_ap_tick my s = Ok s' -> frame s s'.
Proof. apply frame_on_running. apply (tame_comp _ _ tame_charge tame_itimers). Qed.

Lemma frame_alarm_set s p tick r s' : process_alarm_set s p tick = Ok (r, s') -> frame s s'.
Proof. unfold process_alarm_set. intros H. steps_inv H; frame_chain. Qed.

Lemma frame_take_victim s c k i v s' : take_victim s c k i = Ok (v, s') -> frame s s'.
Proof. unfold take_victim. intros H. steps_inv H; auto with frame. Qed.

Lemma frame_find_victim s c v s' : find_victim s c = Ok (v, s') -> frame s s'.
Proof.
  unfold find_victim. intros H. steps_inv H.
  - eapply frame_take_victim; eauto.
  - eapply frame_trans; eapply frame_take_victim; eauto.
Qed.

Lemma frame_load_balance my s s' : sched_load_balance my s = Ok s' -> frame s s'.
Proof.
  unfold sched_load_balance. intros H. steps_inv H; auto with frame;
    (eapply frame_trans; [eapply frame_find_victim; eauto|]); auto with frame; frame_chain.
Qed.
