(* ===== verification/SchedInv.v ===== *)
(** The invariant of the scheduler: the run queues, the timer queues and the
    process list are well formed and consistent with the states of the
    processes.  Every READY process is in exactly one run queue, the one of its
    CPU and priority; a queued process is READY; the sleep queue holds sleeping
    processes; a RUNNING process is the current one of its CPU. *)

From Stdlib Require Import Sorting.Sorted.
From S2P Require Import Prelude Bitmap Ring Runq SortedQ AsRef SchedState Sched.

Definition wake_of (s : sched) (p : Z) : Z := default 0 (wake_at_tick <$> procs s !! p).
Definition alarm_of (s : sched) (p : Z) : Z := default 0 (alarm_tick <$> procs s !! p).

Definition idle_at (s : sched) (c : Z) : Z := idle (arr_at (pcpu_rq (rqs s)) c).

(** [lim] is the process an operation in progress has taken out of the queues
    or is about to queue. *)
Record sched_ok (lim : option Z) (s : sched) (Q : Z -> Z -> Z -> list Z) (SL AL G : list Z)
    : Prop := SchedOk {
  so_rq : rq_ok (rqs s) Q;
  so_sleep : tq_ok (wake_of s) (sleepq s) SL;
  so_alarm : tq_ok (alarm_of s) (alarmq s) AL;
  so_ring : ring (pnext s) (pprev s) (ready_queue_head s) G;
  so_tail : ready_queue_tail s = lastd (ready_queue_head s) G;
  so_procs : forall p, is_Some (procs s !! p) <-> p ∈ ready_queue_head s :: G;
  so_zero : procs s !! 0 = None;
  so_dom : forall p, is_Some (procs s !! p) ->
    rq_dom (rqs s) p /\ tq_dom (sleepq s) p /\ tq_dom (alarmq s) p;
  so_cpus : arr_len (current s) = SCHED_MAX_CPUS /\ arr_len (pcpu_load s) = SCHED_MAX_CPUS /\
    0 <= pcpu_count s <= SCHED_MAX_CPUS;
  so_bounds : forall p x, procs s !! p = Some x ->
    0 <= priority x < SCHED_NUM_PRIOS /\ 0 <= cpu_id x < SCHED_MAX_CPUS;
  so_queued : forall c k i p, p ∈ Q c k i -> lim <> Some p /\
    exists x, procs s !! p = Some x /\ state x = PROCESS_READY /\ priority x = i /\ cpu_id x = c;
  so_ready : forall p x, procs s !! p = Some x -> state x = PROCESS_READY ->
    queued Q p \/ lim = Some p;
  so_asleep : forall p, p ∈ SL -> exists x, procs s !! p = Some x /\ state x = PROCESS_SLEEPING;
  so_alarms : forall p, p ∈ AL -> is_Some (procs s !! p);
  so_current : forall c, 0 <= c < SCHED_MAX_CPUS -> arr_at (current s) c <> 0 ->
    exists x, procs s !! (arr_at (current s) c) = Some x /\ cpu_id x = c;
  so_running : forall p x, procs s !! p = Some x -> state x = PROCESS_RUNNING ->
    arr_at (current s) (cpu_id x) = p;
  so_idle : forall c, 0 <= c < SCHED_MAX_CPUS -> arr_at (current s) c <> 0 ->
    exists x, procs s !! (idle_at s c) = Some x /\ cpu_id x = c /\
      (state x = PROCESS_READY \/ state x = PROCESS_RUNNING)
}.

(** ** Elementary facts *)

Lemma is_state_true a b : is_state a b = true <-> a = b.
Proof. unfold is_state. apply bool_decide_eq_true. Qed.

Lemma is_state_false a b : is_state a b = false <-> a <> b.
Proof. unfold is_state. apply bool_decide_eq_false. Qed.

Section facts.
Context {lim : option Z} {s : sched} {Q : Z -> Z -> Z -> list Z} {SL AL G : list Z}.
Context (H : sched_ok lim s Q SL AL G).

Lemma so_nonzero p x : procs s !! p = Some x -> p <> 0.
Proof. intros Hp ->. rewrite (so_zero _ _ _ _ _ _ H) in Hp. discriminate. Qed.

Lemma so_queued_not_asleep p : queued Q p -> p ∉ SL.
Proof.
  intros (c & k & i & Hq) Hs. destruct (so_queued _ _ _ _ _ _ H _ _ _ _ Hq) as (_ & x & Hx & E & _).
  destruct (so_asleep _ _ _ _ _ _ H p Hs) as (y & Hy & E'). congruence.
Qed.

(** Lists of distinct processes are shorter than the fuel of the loops. *)
Lemma procs_bound l : NoDup l -> (forall p, p ∈ l -> is_Some (procs s !! p)) ->
  (length l <= size (procs s))%nat.
Proof.
  intros Hnd Hin. rewrite <- size_dom.
  rewrite <- (size_list_to_set (C := gset Z)) by auto. apply subseteq_size.
  intros p Hp. apply elem_of_list_to_set in Hp. apply elem_of_dom. auto.
Qed.

Lemma sleep_fuel : (length SL < nprocs s)%nat.
Proof.
  unfold nprocs. apply Nat.lt_succ_r, procs_bound; [apply (so_sleep _ _ _ _ _ _ H)|].
  intros p Hp. destruct (so_asleep _ _ _ _ _ _ H p Hp) as (x & -> & _). eauto.
Qed.

Lemma alarm_fuel : (length AL < nprocs s)%nat.
Proof.
  unfold nprocs. apply Nat.lt_succ_r, procs_bound; [apply (so_alarm _ _ _ _ _ _ H)|].
  apply (so_alarms _ _ _ _ _ _ H).
Qed.

Lemma queue_fuel c k i : (length (Q c k i) < nprocs s)%nat.
Proof.
  unfold nprocs. apply Nat.lt_succ_r, procs_bound; [apply (rq_nodup _ _ (so_rq _ _ _ _ _ _ H))|].
  intros p Hp. destruct (so_queued _ _ _ _ _ _ H _ _ _ _ Hp) as (_ & x & -> & _). eauto.
Qed.

Lemma ring_fuel : (length (ready_queue_head s :: G) < nprocs s + 1)%nat.
Proof.
  unfold nprocs. apply Nat.lt_le_trans with (S (size (procs s))); [|lia].
  apply Nat.lt_succ_r, procs_bound; [apply (so_ring _ _ _ _ _ _ H)|].
  intros p Hp. apply (so_procs _ _ _ _ _ _ H). auto.
Qed.

Lemma wake_key_ok p : is_Some (procs s !! p) -> wake_key s p = Ok (wake_of s p).
Proof. intros [x Hx]. unfold wake_key, getp, fget, wake_of. rewrite Hx. reflexivity. Qed.

Lemma alarm_key_ok p : is_Some (procs s !! p) -> alarm_key s p = Ok (alarm_of s p).
Proof. intros [x Hx]. unfold alarm_key, getp, fget, alarm_of. rewrite Hx. reflexivity. Qed.
End facts.

Lemma getp_ok s p x : procs s !! p = Some x -> getp s p = Ok x.
Proof. apply fget_ok. Qed.

Lemma setp_ok s p x y : procs s !! p = Some x -> setp s p y = Ok (set_procs (<[p := y]> (procs s)) s).
Proof. intros Hx. unfold setp. rewrite fset_ok by eauto. reflexivity. Qed.

Lemma updp_ok s p x f :
  procs s !! p = Some x -> updp s p f = Ok (set_procs (<[p := f x]> (procs s)) s).
Proof.
  intros Hx. unfold updp. rewrite (getp_ok _ _ _ Hx), res_bind_ok. eapply setp_ok; eauto.
Qed.

(** ** Changing a process *)

(** A change of the fields of [p] that leaves its place in the queues right. *)
Definition compatible (lim : option Z) (s : sched) (Q : Z -> Z -> Z -> list Z) (SL AL : list Z)
    (p : Z) (x y : proc) : Prop :=
  cpu_id y = cpu_id x /\ 0 <= priority y < SCHED_NUM_PRIOS /\
  (queued Q p -> state y = PROCESS_READY /\ priority y = priority x) /\
  (state y = PROCESS_READY -> queued Q p \/ lim = Some p) /\
  (p ∈ SL -> state y = PROCESS_SLEEPING /\ wake_at_tick y = wake_at_tick x) /\
  (p ∈ AL -> alarm_tick y = alarm_tick x) /\
  (state y = PROCESS_RUNNING -> arr_at (current s) (cpu_id x) = p) /\
  (forall c, 0 <= c < SCHED_MAX_CPUS -> arr_at (current s) c <> 0 -> idle_at s c = p ->
     state y = PROCESS_READY \/ state y = PROCESS_RUNNING).

Lemma procs_insert_is_Some (m : gmap Z proc) p x y q :
  m !! p = Some x -> is_Some (<[p := y]> m !! q) <-> is_Some (m !! q).
Proof.
  intros Hx. destruct (decide (p = q)) as [->|].
  - rewrite lookup_insert_eq, Hx. split; eauto.
  - rewrite lookup_insert_ne by auto. reflexivity.
Qed.

Lemma sched_ok_setp lim s Q SL AL G p x y :
  sched_ok lim s Q SL AL G -> procs s !! p = Some x -> compatible lim s Q SL AL p x y ->
  sched_ok lim (set_procs (<[p := y]> (procs s)) s) Q SL AL G.
Proof.
  intros H Hx (C1 & C2 & C3 & C4 & C5 & C6 & C7 & C8).
  assert (Hlk : forall q z, <[p := y]> (procs s) !! q = Some z ->
     q = p /\ z = y \/ q <> p /\ procs s !! q = Some z).
  { intros q z. destruct (decide (p = q)) as [->|]; [rewrite lookup_insert_eq; intros [= <-]; auto|].
    rewrite lookup_insert_ne by auto. auto. }
  pose proof (so_bounds _ _ _ _ _ _ H p x Hx) as [_ Hcpu].
  split; try apply H; cbn [set_procs procs current rqs sleepq alarmq pnext pprev ready_queue_head].
  - eapply tq_ok_key; [|exact (so_sleep _ _ _ _ _ _ H)]. intros q Hq. unfold wake_of. simpl.
    destruct (decide (p = q)) as [->|]; [|rewrite lookup_insert_ne by auto; reflexivity].
    rewrite lookup_insert_eq, Hx. simpl. symmetry. apply C5. auto.
  - eapply tq_ok_key; [|exact (so_alarm _ _ _ _ _ _ H)]. intros q Hq. unfold alarm_of. simpl.
    destruct (decide (p = q)) as [->|]; [|rewrite lookup_insert_ne by auto; reflexivity].
    rewrite lookup_insert_eq, Hx. simpl. symmetry. apply C6. auto.
  - intros q. rewrite (procs_insert_is_Some _ p x) by auto. apply (so_procs _ _ _ _ _ _ H).
  - rewrite lookup_insert_ne; [apply (so_zero _ _ _ _ _ _ H)|]. eapply so_nonzero; eauto.
  - intros q Hq. rewrite (procs_insert_is_Some _ p x) in Hq by auto. apply (so_dom _ _ _ _ _ _ H q Hq).
  - intros q z [[-> ->]|[_ Hz]]%Hlk; [rewrite C1; auto|apply (so_bounds _ _ _ _ _ _ H q z Hz)].
  - intros c k i q Hq. destruct (so_queued _ _ _ _ _ _ H c k i q Hq) as (Hl & z & Hz & E1 & E2 & E3).
    split; [auto|]. destruct (decide (p = q)) as [->|];
      [|exists z; rewrite lookup_insert_ne by auto; auto].
    rewrite Hx in Hz. injection Hz as <-. exists y. rewrite lookup_insert_eq.
    destruct C3 as [D1 D2]; [red; eauto|]. split_and!; auto; congruence.
  - intros q z [[-> ->]|[_ Hz]]%Hlk; [auto|apply (so_ready _ _ _ _ _ _ H q z Hz)].
  - intros q Hq. destruct (decide (p = q)) as [->|].
    + exists y. rewrite lookup_insert_eq. split; [auto|apply C5; auto].
    + rewrite lookup_insert_ne by auto. apply (so_asleep _ _ _ _ _ _ H q Hq).
  - intros q Hq. rewrite (procs_insert_is_Some _ p x) by auto. apply (so_alarms _ _ _ _ _ _ H q Hq).
  - intros c Hc Hn. destruct (so_current _ _ _ _ _ _ H c Hc Hn) as (z & Hz & E).
    destruct (decide (p = arr_at (current s) c)) as [Ep|];
      [|exists z; rewrite lookup_insert_ne by auto; auto].
    exists y. rewrite <- Ep, lookup_insert_eq. split; [auto|]. rewrite <- Ep, Hx in Hz. congruence.
  - intros q z [[-> ->]|[_ Hz]]%Hlk; [rewrite C1; auto|apply (so_running _ _ _ _ _ _ H q z Hz)].
  - intros c Hc Hn. unfold idle_at in *. simpl.
    destruct (so_idle _ _ _ _ _ _ H c Hc Hn) as (z & Hz & E & Es). unfold idle_at in Hz.
    destruct (decide (p = idle (arr_at (pcpu_rq (rqs s)) c))) as [Ep|];
      [|exists z; rewrite lookup_insert_ne by auto; auto].
    exists y. rewrite <- Ep, lookup_insert_eq. rewrite <- Ep, Hx in Hz. injection Hz as <-.
    split_and!; auto; [congruence|]. eapply C8; eauto.
Qed.

(** ** Parts of the state no invariant looks at *)

Lemma sched_ok_emit lim s Q SL AL G e :
  sched_ok lim s Q SL AL G -> sched_ok lim (emit e s) Q SL AL G.
Proof. intros H. split; apply H. Qed.

Lemma sched_ok_ipi lim my s Q SL AL G c :
  sched_ok lim s Q SL AL G -> sched_ok lim (sched_ipi_resched my s c) Q SL AL G.
Proof. intros H. unfold sched_ipi_resched. destruct (c =? my); auto using sched_ok_emit. Qed.

Lemma sched_ok_load lim s Q SL AL G a :
  sched_ok lim s Q SL AL G -> arr_len a = SCHED_MAX_CPUS ->
  sched_ok lim (set_pcpu_load a s) Q SL AL G.
Proof.
  intros H Ha. split; try apply H. simpl. destruct (so_cpus _ _ _ _ _ _ H) as (? & _ & ?). auto.
Qed.

Lemma inc_load_ok lim s Q SL AL G c :
  sched_ok lim s Q SL AL G -> 0 <= c ->
  exists a, sched_pcpu_inc_load s c = Ok (set_pcpu_load a s) /\
    sched_ok lim (set_pcpu_load a s) Q SL AL G.
Proof.
  intros H Hc. destruct (so_cpus _ _ _ _ _ _ H) as (_ & Hl & Hn). unfold sched_pcpu_inc_load.
  destruct (Z.leb_spec (pcpu_count s) c).
  - exists (pcpu_load s). destruct s; simpl. auto.
  - rewrite arr_get_ok, res_bind_ok, arr_set_ok, res_bind_ok by lia. eexists. split; [reflexivity|].
    apply sched_ok_load; auto.
Qed.

Lemma dec_load_ok lim s Q SL AL G c :
  sched_ok lim s Q SL AL G -> 0 <= c ->
  exists a, sched_pcpu_dec_load s c = Ok (set_pcpu_load a s) /\
    sched_ok lim (set_pcpu_load a s) Q SL AL G.
Proof.
  intros H Hc. destruct (so_cpus _ _ _ _ _ _ H) as (_ & Hl & Hn). unfold sched_pcpu_dec_load.
  destruct (Z.leb_spec (pcpu_count s) c).
  - exists (pcpu_load s). destruct s; simpl. auto.
  - rewrite arr_get_ok, res_bind_ok by lia. destruct (0 <? _).
    + rewrite arr_set_ok, res_bind_ok by lia. eexists. split; [reflexivity|]. apply sched_ok_load; auto.
    + exists (pcpu_load s). destruct s; simpl. auto.
Qed.

Lemma send_ipis_ok fuel : forall lim my s Q SL AL G mask,
  sched_ok lim s Q SL AL G -> is_u32 mask ->
  (Z.to_nat (countb (Z.testbit mask) 32) < fuel)%nat ->
  exists l, send_ipis fuel my s mask = Ok (set_log l s) /\ sched_ok lim (set_log l s) Q SL AL G.
Proof.
  induction fuel as [|fuel IH]; intros lim my s Q SL AL G mask H Hm Hf; [lia|]. cbn [send_ipis].
  destruct (Z.eqb_spec mask 0) as [->|Hne].
  { exists (log s). destruct s; simpl. auto. }
  unfold bsf32. destruct (Z.eqb_spec mask 0); [contradiction|]. rewrite res_bind_ok.
  assert (Hex : exists j, 0 <= j < 0 + Z.of_nat 32 /\ Z.testbit mask j = true).
  { destruct (decide (Exists (fun i => Z.testbit mask i = true) (seqZ 0 32))) as [Hex|Hno].
    - apply Exists_exists in Hex as (i & Hi & Hb). apply elem_of_seqZ in Hi. exists i. split; [lia|auto].
    - exfalso. apply Hne, is_u32_zero; auto. intros i Hi. apply not_true_is_false. intros Hb.
      apply Hno, Exists_exists. exists i. split; [apply elem_of_seqZ; lia|auto]. }
  destruct (ctz_spec 32 mask 0 ltac:(lia) Hex) as (Hr & Hb & _). set (c := ctz 32 mask 0) in *.
  rewrite land_u32_lnot by auto.
  assert (Hs1 : exists l1, sched_ipi_resched my s c = set_log l1 s /\
            sched_ok lim (set_log l1 s) Q SL AL G).
  { unfold sched_ipi_resched. destruct (c =? my).
    - exists (log s). destruct s; simpl. auto.
    - exists (log s ++ [IpiResched c]). split; [reflexivity|]. apply (sched_ok_emit _ _ _ _ _ _ _ H). }
  destruct Hs1 as (l1 & -> & H1).
  destruct (IH lim my (set_log l1 s) Q SL AL G (Z.land mask (Z.lnot (Z.shiftl 1 c))) H1)
    as (l2 & Hr2 & H2).
  - apply is_u32_land. auto.
  - pose proof (countb_flip (Z.testbit (Z.land mask (Z.lnot (Z.shiftl 1 c))))
      (Z.testbit mask) 32 c) as Hfl.
    rewrite Hfl in Hf; auto; try lia.
    + pose proof (countb_range (Z.testbit (Z.land mask (Z.lnot (Z.shiftl 1 c)))) 32). lia.
    + rewrite testbit_clearbit by lia. rewrite Z.eqb_refl. reflexivity.
    + intros j Hj Hjc. rewrite testbit_clearbit by lia.
      destruct (Z.eqb_spec c j); [congruence|reflexivity].
  - exists l2. split; [exact Hr2|exact H2].
Qed.

(** ** Timer queues *)

Section queues.
Context {lim : option Z} {s : sched} {Q : Z -> Z -> Z -> list Z} {SL AL G : list Z}.
Context (H : sched_ok lim s Q SL AL G) (p : Z) (x : proc) (Hx : procs s !! p = Some x).

Lemma sleep_remove_ok :
  exists q, sleep_queue_remove s p = Ok (set_sleepq q s) /\
    sched_ok lim (set_sleepq q s) Q (filter (fun y => y <> p) SL) AL G.
Proof.
  destruct (so_dom _ _ _ _ _ _ H p) as (_ & (_ & _ & Hin) & _); [eauto|].
  destruct (queue_remove_ok (wake_of s) (sleepq s) SL p (so_sleep _ _ _ _ _ _ H) Hin)
    as (q & Hr & Hq & Hdom).
  exists q. split; [unfold sleep_queue_remove; rewrite Hr; reflexivity|].
  split; try apply H; simpl; auto.
  - intros r Hr'. destruct (so_dom _ _ _ _ _ _ H r Hr') as (? & ? & ?). auto.
  - intros r [_ Hr']%list_elem_of_filter. apply (so_asleep _ _ _ _ _ _ H r Hr').
Qed.

Lemma sleep_insert_ok :
  p ∉ SL -> state x = PROCESS_SLEEPING ->
  exists q SL', sleep_queue_insert s p = Ok (set_sleepq q s) /\
    inserted (wake_of s) SL p SL' /\ sched_ok lim (set_sleepq q s) Q SL' AL G.
Proof.
  intros Hp Hst. destruct (so_dom _ _ _ _ _ _ H p) as (_ & Hd & _); [eauto|].
  destruct (queue_insert_ok (wake_key s) (wake_of s) (sleepq s) SL (so_sleep _ _ _ _ _ _ H))
    with (fuel := nprocs s) (p := p) as (q & SL' & Hr & Hins & Hq & Hdom); auto.
  - intros y Hy. destruct (so_asleep _ _ _ _ _ _ H y Hy) as (z & Hz & _). apply wake_key_ok. eauto.
  - eapply so_nonzero; eauto.
  - apply wake_key_ok. eauto.
  - eapply sleep_fuel; eauto.
  - exists q, SL'. split; [unfold sleep_queue_insert; rewrite Hr; reflexivity|]. split; [auto|].
    split; try apply H; simpl; auto.
    + intros r Hr'. destruct (so_dom _ _ _ _ _ _ H r Hr') as (? & ? & ?). auto.
    + intros r Hr'. destruct Hins as (l1 & l2 & E1 & -> & _).
      apply elem_of_app in Hr' as [Hr'|[->|Hr']%elem_of_cons]; [|eauto|];
        apply (so_asleep _ _ _ _ _ _ H r); rewrite E1; set_solver.
Qed.

Lemma alarm_remove_ok :
  exists q, alarm_queue_remove s p = Ok (set_alarmq q s) /\
    sched_ok lim (set_alarmq q s) Q SL (filter (fun y => y <> p) AL) G.
Proof.
  destruct (so_dom _ _ _ _ _ _ H p) as (_ & _ & (_ & _ & Hin)); [eauto|].
  destruct (queue_remove_ok (alarm_of s) (alarmq s) AL p (so_alarm _ _ _ _ _ _ H) Hin)
    as (q & Hr & Hq & Hdom).
  exists q. split; [unfold alarm_queue_remove; rewrite Hr; reflexivity|].
  split; try apply H; simpl; auto.
  - intros r Hr'. destruct (so_dom _ _ _ _ _ _ H r Hr') as (? & ? & ?). auto.
  - intros r [_ Hr']%list_elem_of_filter. apply (so_alarms _ _ _ _ _ _ H r Hr').
Qed.

Lemma alarm_insert_ok :
  p ∉ AL ->
  exists q AL', alarm_queue_insert s p = Ok (set_alarmq q s) /\
    inserted (alarm_of s) AL p AL' /\ sched_ok lim (set_alarmq q s) Q SL AL' G.
Proof.
  intros Hp. destruct (so_dom _ _ _ _ _ _ H p) as (_ & _ & Hd); [eauto|].
  destruct (queue_insert_ok (alarm_key s) (alarm_of s) (alarmq s) AL (so_alarm _ _ _ _ _ _ H))
    with (fuel := nprocs s) (p := p) as (q & AL' & Hr & Hins & Hq & Hdom); auto.
  - intros y Hy. apply alarm_key_ok. apply (so_alarms _ _ _ _ _ _ H y Hy).
  - eapply so_nonzero; eauto.
  - apply alarm_key_ok. eauto.
  - eapply alarm_fuel; eauto.
  - exists q, AL'. split; [unfold alarm_queue_insert; rewrite Hr; reflexivity|]. split; [auto|].
    split; try apply H; simpl; auto.
    + intros r Hr'. destruct (so_dom _ _ _ _ _ _ H r Hr') as (? & ? & ?). auto.
    + intros r Hr'. destruct Hins as (l1 & l2 & E1 & -> & _).
      apply elem_of_app in Hr' as [Hr'|[->|Hr']%elem_of_cons]; [|eauto|];
        apply (so_alarms _ _ _ _ _ _ H r); rewrite E1; set_solver.
Qed.
End queues.

(** ** Run queues *)

Lemma sched_ok_rqs lim lim' s Q Q' SL AL G r :
  sched_ok lim s Q SL AL G -> rq_ok r Q' ->
  (forall q, rq_dom (rqs s) q -> rq_dom r q) ->
  (forall c, idle (arr_at (pcpu_rq r) c) = idle_at s c) ->
  (forall c k i p, p ∈ Q' c k i -> lim' <> Some p /\
     exists x, procs s !! p = Some x /\ state x = PROCESS_READY /\ priority x = i /\ cpu_id x = c) ->
  (forall p x, procs s !! p = Some x -> state x = PROCESS_READY -> queued Q' p \/ lim' = Some p) ->
  sched_ok lim' (set_rqs r s) Q' SL AL G.
Proof.
  intros H Hr Hd Hi Hq Hrdy. split; try apply H; simpl; auto.
  - intros p Hp. destruct (so_dom _ _ _ _ _ _ H p Hp) as (? & ? & ?). auto.
  - intros c Hc Hn. unfold idle_at. simpl. rewrite Hi. apply (so_idle _ _ _ _ _ _ H c Hc Hn).
Qed.

(** The runqueue of CPU [c] a pointer selects. *)
Definition role (b : bool) (s : sched) (c : Z) : Z :=
  if b then act (rqs s) c else expd (rqs s) c.

Definition enqueue_role (b : bool) (s : sched) (c p : Z) : res sched :=
  if b then enqueue_active s c p else enqueue_expired s c p.

Lemma role_range b lim s Q SL AL G c :
  sched_ok lim s Q SL AL G -> 0 <= c < SCHED_MAX_CPUS -> 0 <= role b s c < 2.
Proof.
  intros H Hc. destruct (act_range (rqs s) Q c (so_rq _ _ _ _ _ _ H) Hc) as (? & ? & _).
  destruct b; simpl; auto.
Qed.

Lemma queued_updQ Q c k i l p :
  queued (updQ Q c k i l) p <-> p ∈ l \/ exists c' k' i', (c', k', i') <> (c, k, i) /\ p ∈ Q c' k' i'.
Proof.
  split.
  - intros (c' & k' & i' & Hp). unfold updQ in Hp. destruct (decide _); [auto|right; eauto 10].
  - intros [Hp|(c' & k' & i' & Hne & Hp)].
    + exists c, k, i. rewrite updQ_eq. auto.
    + exists c', k', i'. rewrite updQ_ne; auto.
Qed.

(** Queueing the process in progress. *)
Lemma enqueue_ok b s Q SL AL G p x :
  sched_ok (Some p) s Q SL AL G -> procs s !! p = Some x -> state x = PROCESS_READY ->
  let c := cpu_id x in let k := role b s c in let i := priority x in
  exists r, enqueue_role b s c p = Ok (set_rqs r s) /\ rq_frame (rqs s) r /\
    sched_ok None (set_rqs r s) (updQ Q c k i (Q c k i ++ [p])) SL AL G.
Proof.
  intros H Hx Hst c k i. destruct (so_bounds _ _ _ _ _ _ H p x Hx) as [Hi Hc].
  pose proof (role_range b _ _ _ _ _ _ _ H Hc) as Hk.
  assert (Hnq : ~ queued Q p).
  { intros (c' & k' & i' & Hq). destruct (so_queued _ _ _ _ _ _ H _ _ _ _ Hq) as [Hl _]. auto. }
  destruct (so_dom _ _ _ _ _ _ H p) as (Hd & _); [eauto|].
  destruct (rq_enqueue_ok (rqs s) Q c k i p (so_rq _ _ _ _ _ _ H)) as (r & Hr & Hrq & Hfr & Hdom);
    auto; [red; auto|eapply so_nonzero; eauto|].
  exists r. split; [|split; [auto|]].
  - unfold enqueue_role, enqueue_active, enqueue_expired.
    rewrite (getp_ok _ _ _ Hx), !res_bind_ok.
    rewrite arr_get_ok, !res_bind_ok by (rewrite (rq_cpus _ _ (so_rq _ _ _ _ _ _ H)); auto).
    subst c k i. unfold role, act, expd in Hr. destruct b; rewrite Hr; reflexivity.
  - eapply sched_ok_rqs; eauto.
    + intros c'. apply Hfr.
    + intros c' k' i' q Hq. split; [discriminate|]. unfold updQ in Hq.
      destruct (decide ((c', k', i') = (c, k, i))) as [[= -> -> ->]|].
      * apply elem_of_app in Hq as [Hq| ->%list_elem_of_singleton]; [|eauto 10].
        apply (so_queued _ _ _ _ _ _ H _ _ _ _ Hq).
      * apply (so_queued _ _ _ _ _ _ H _ _ _ _ Hq).
    + intros q z Hz Hrz. left. destruct (so_ready _ _ _ _ _ _ H q z Hz Hrz) as [(c' & k' & i' & Hq)|Hl].
      * apply queued_updQ. destruct (decide ((c', k', i') = (c, k, i))) as [[= -> -> ->]|];
          [left; set_solver|right; eauto 10].
      * injection Hl as <-. apply queued_updQ. left. set_solver.
Qed.

(** Taking a queued process out of its queue. *)
Lemma dequeue_ok s Q SL AL G c k i p l1 l2 :
  sched_ok None s Q SL AL G -> Q c k i = l1 ++ p :: l2 ->
  exists r, rq_dequeue (rqs s) c k p i = Ok r /\ rq_frame (rqs s) r /\
    sched_ok (Some p) (set_rqs r s) (updQ Q c k i (l1 ++ l2)) SL AL G.
Proof.
  intros H El. assert (Hp : p ∈ Q c k i) by (rewrite El; set_solver).
  pose proof (rq_inside _ _ (so_rq _ _ _ _ _ _ H) _ _ _ _ Hp) as Hr.
  destruct (rq_dequeue_ok (rqs s) Q c k i p (so_rq _ _ _ _ _ _ H) Hr l1 l2 El)
    as (r & Hd & Hrq & Hfr & Hdom).
  destruct (rq_nodup _ _ (so_rq _ _ _ _ _ _ H) c k i) as [Hnd _]. rewrite El in Hnd.
  apply NoDup_app in Hnd as (_ & Hn1 & [Hn2 _]%NoDup_cons).
  assert (Hpl : p ∉ l1 ++ l2).
  { intros [Hx|Hx]%elem_of_app; [apply (Hn1 p Hx); set_solver|auto]. }
  exists r. split; [auto|]. split; [auto|]. eapply sched_ok_rqs; eauto.
  - intros c'. apply Hfr.
  - intros c' k' i' q Hq. unfold updQ in Hq. destruct (decide ((c', k', i') = (c, k, i))) as [[= -> -> ->]|Hne].
    + split; [intros [= ->]; auto|]. apply (so_queued _ _ _ _ _ _ H c k i q). rewrite El. set_solver.
    + split; [|apply (so_queued _ _ _ _ _ _ H _ _ _ _ Hq)]. intros [= ->].
      apply Hne. destruct (rq_sep _ _ (so_rq _ _ _ _ _ _ H) _ _ _ _ _ _ _ Hq Hp) as (-> & -> & ->). auto.
  - intros q z Hz Hrz. destruct (so_ready _ _ _ _ _ _ H q z Hz Hrz) as [(c' & k' & i' & Hq)|]; [|discriminate].
    destruct (decide (q = p)) as [->|Hqp]; [auto|]. left. apply queued_updQ.
    destruct (decide ((c', k', i') = (c, k, i))) as [[= -> -> ->]|]; [left|right; eauto 10].
    rewrite El in Hq. set_solver.
Qed.
