(* ===== verification/SchedSpec.v ===== *)
(** The operations of the scheduler preserve its invariant and do what they are
    for: waking, signalling, choosing the next process, sleeping, the timer
    tick, alarms and load balancing. *)

From Stdlib Require Import Sorting.Sorted.
From S2P Require Import Prelude Bitmap Ring Runq SortedQ AsRef SchedState Sched SchedInv.

Definition sched_inv (s : sched) : Prop := exists Q SL AL G, sched_ok None s Q SL AL G.

(** What most operations leave alone: the process list and who runs where. *)
Definition same_list (s s' : sched) : Prop :=
  pnext s' = pnext s /\ pprev s' = pprev s /\ ready_queue_head s' = ready_queue_head s /\
  ready_queue_tail s' = ready_queue_tail s /\ current s' = current s /\
  pcpu_count s' = pcpu_count s.

Lemma same_list_refl s : same_list s s.
Proof. red. auto 10. Qed.
Lemma same_list_trans s1 s2 s3 : same_list s1 s2 -> same_list s2 s3 -> same_list s1 s3.
Proof. unfold same_list. intuition congruence. Qed.

(** Starting to work on a process that is in no run queue. *)
Lemma sched_ok_take s Q SL AL G p :
  sched_ok None s Q SL AL G -> ~ queued Q p -> sched_ok (Some p) s Q SL AL G.
Proof.
  intros H Hn. split; try apply H.
  - intros c k i q Hq. split; [intros [= ->]; apply Hn; red; eauto|].
    apply (so_queued _ _ _ _ _ _ H _ _ _ _ Hq).
  - intros q x Hx Hr. destruct (so_ready _ _ _ _ _ _ H q x Hx Hr); [auto|discriminate].
Qed.

(** Stopping, when it is not READY. *)
Lemma sched_ok_drop s Q SL AL G p x :
  sched_ok (Some p) s Q SL AL G -> procs s !! p = Some x -> state x <> PROCESS_READY ->
  sched_ok None s Q SL AL G.
Proof.
  intros H Hx Hn. split; try apply H.
  - intros c k i q Hq. split; [discriminate|]. apply (so_queued _ _ _ _ _ _ H _ _ _ _ Hq).
  - intros q y Hy Hr. destruct (so_ready _ _ _ _ _ _ H q y Hy Hr) as [|[= <-]]; [auto|].
    rewrite Hx in Hy. congruence.
Qed.

Lemma not_ready_not_queued s Q SL AL G p x :
  sched_ok None s Q SL AL G -> procs s !! p = Some x -> state x <> PROCESS_READY -> ~ queued Q p.
Proof.
  intros H Hx Hn (c & k & i & Hq). destruct (so_queued _ _ _ _ _ _ H _ _ _ _ Hq) as (_ & y & Hy & E & _).
  congruence.
Qed.

Lemma clamp_id c : 0 <= c < SCHED_MAX_CPUS -> clamp_cpu c = c.
Proof. unfold clamp_cpu. intros. destruct (Z.ltb_spec c SCHED_MAX_CPUS); lia. Qed.

(** ** Waking *)

(** [x] becomes READY and is queued at the end of the active list of its CPU and
    priority; it is in no timer queue for sleepers any more. *)
Definition woken (s : sched) (p : Z) (x : proc) (Q : Z -> Z -> Z -> list Z) : Z -> Z -> Z -> list Z :=
  let c := cpu_id x in let k := act (rqs s) c in let i := priority x in
  updQ Q c k i (Q c k i ++ [p]).

(** Making a process that is off the queues READY, then queueing it. *)
Lemma ready_enqueue_frame s Q SL AL G p x y :
  sched_ok None s Q SL AL G -> procs s !! p = Some x -> state x <> PROCESS_READY -> p ∉ SL ->
  cpu_id y = cpu_id x -> 0 <= priority y < SCHED_NUM_PRIOS -> state y = PROCESS_READY ->
  (p ∈ AL -> alarm_tick y = alarm_tick x) ->
  let s1 := set_procs (<[p := y]> (procs s)) s in
  exists r, enqueue_active s1 (cpu_id x) p = Ok (set_rqs r s1) /\ rq_frame (rqs s) r /\
    sched_ok None (set_rqs r s1) (woken s p y Q) SL AL G.
Proof.
  intros H Hx Hn Hsl Hc Hp Hst Hal s1.
  pose proof (sched_ok_take _ _ _ _ _ p H (not_ready_not_queued _ _ _ _ _ _ _ H Hx Hn)) as H0.
  assert (H1 : sched_ok (Some p) s1 Q SL AL G).
  { eapply sched_ok_setp; eauto. split_and!; auto; try congruence; try tauto.
    intros Hq. exfalso. eapply not_ready_not_queued; eauto. }
  assert (Hy : procs s1 !! p = Some y) by (apply lookup_insert_eq).
  destruct (enqueue_ok true s1 Q SL AL G p y H1 Hy Hst) as (r & Hr & Hf & H2).
  rewrite Hc in Hr. exists r. split; [exact Hr|]. split; [exact Hf|exact H2].
Qed.

Lemma ready_enqueue_ok s Q SL AL G p x y :
  sched_ok None s Q SL AL G -> procs s !! p = Some x -> state x <> PROCESS_READY -> p ∉ SL ->
  cpu_id y = cpu_id x -> 0 <= priority y < SCHED_NUM_PRIOS -> state y = PROCESS_READY ->
  (p ∈ AL -> alarm_tick y = alarm_tick x) ->
  let s1 := set_procs (<[p := y]> (procs s)) s in
  exists r, enqueue_active s1 (cpu_id x) p = Ok (set_rqs r s1) /\
    sched_ok None (set_rqs r s1) (woken s p y Q) SL AL G.
Proof.
  intros H Hx Hn Hsl Hc Hp Hst Hal. destruct (ready_enqueue_frame s Q SL AL G p x y H Hx Hn Hsl Hc Hp Hst Hal)
    as (r & Hr & _ & H'). exists r. auto.
Qed.

Section wake.
Context {s : sched} {Q : Z -> Z -> Z -> list Z} {SL AL G : list Z}.
Context (H : sched_ok None s Q SL AL G) {p : Z} {x : proc} (Hx : procs s !! p = Some x).

Lemma wake_interruptible_ok :
  exists s' Q' SL', wake_interruptible s p (cpu_id x) = Ok s' /\
    sched_ok None s' Q' SL' AL G /\ same_list s s' /\
    procs s' = <[p := if is_state (state x) PROCESS_BLOCKED || is_state (state x) PROCESS_SLEEPING
                      then set_state PROCESS_READY x else x]> (procs s).
Proof.
  destruct (so_bounds _ _ _ _ _ _ H p x Hx) as [Hpr Hcpu].
  unfold wake_interruptible. rewrite (getp_ok _ _ _ Hx), res_bind_ok.
  destruct (is_state (state x) PROCESS_BLOCKED || is_state (state x) PROCESS_SLEEPING) eqn:E.
  - assert (Hn : state x <> PROCESS_READY).
    { intros E'. rewrite E' in E. discriminate. }
    destruct (sleep_remove_ok H p x Hx) as (q & -> & H1). rewrite res_bind_ok.
    rewrite (updp_ok (set_sleepq q s) p x) by exact Hx. rewrite res_bind_ok.
    destruct (ready_enqueue_ok _ _ _ _ _ p x (set_state PROCESS_READY x) H1 Hx Hn)
      as (r & Hr & H2); auto.
    { intros Hf. apply list_elem_of_filter in Hf as [Hf _]. auto. }
    rewrite Hr, res_bind_ok. destruct (inc_load_ok _ _ _ _ _ _ (cpu_id x) H2) as (a & -> & H3); [lia|].
    eexists _, _, _. split; [reflexivity|]. split; [exact H3|]. split; [red; auto 10|reflexivity].
  - exists s, Q, SL. split; [reflexivity|]. split; [auto|]. split; [apply same_list_refl|].
    symmetry. apply insert_id. auto.
Qed.

(** The protocol of the users of [sched_enqueue_ready]: a blocked or sleeping
    process is made READY, then handed to the scheduler. *)
Lemma hand_over_ok (f : proc -> proc) my :
  state x = PROCESS_BLOCKED \/ state x = PROCESS_SLEEPING -> state (f x) = PROCESS_READY ->
  cpu_id (f x) = cpu_id x -> priority (f x) = priority x -> alarm_tick (f x) = alarm_tick x ->
  exists s' SL', (s ← updp s p f; sched_enqueue_ready my s p) = Ok s' /\
    sched_ok None s' (woken s p (f x) Q) SL' AL G /\ p ∉ SL' /\
    procs s' = <[p := f x]> (procs s) /\ same_list s s'.
Proof.
  intros Hst Hf Ec Ep Ea. destruct (so_bounds _ _ _ _ _ _ H p x Hx) as [Hpr Hcpu].
  assert (Hn : state x <> PROCESS_READY) by (destruct Hst; congruence).
  rewrite (updp_ok s p x) by exact Hx. rewrite res_bind_ok. unfold sched_enqueue_ready.
  destruct (Z.eqb_spec p 0) as [E|_]; [exfalso; eapply so_nonzero; eauto|].
  destruct (sleep_remove_ok H p x Hx) as (q & Hrem & H1).
  set (s1 := set_procs (<[p := f x]> (procs s)) s).
  assert (Hrem' : sleep_queue_remove s1 p = Ok (set_sleepq q s1)).
  { unfold sleep_queue_remove, s1 in *. simpl. destruct (queue_remove (sleepq s) p); simpl in *; try discriminate.
    injection Hrem as ->. reflexivity. }
  rewrite Hrem', res_bind_ok. erewrite getp_ok by (simpl; apply lookup_insert_eq).
  rewrite res_bind_ok, (proj2 (is_state_true _ _) Hf), Ec. cbv zeta. rewrite clamp_id by auto.
  destruct (ready_enqueue_ok _ _ _ _ _ p x (f x) H1 Hx Hn) as (r & Hr & H2); try congruence; auto.
  { intros Hl. apply list_elem_of_filter in Hl as [Hl _]. auto. }
  change (set_sleepq q s1) with (set_procs (<[p := f x]> (procs (set_sleepq q s))) (set_sleepq q s)).
  rewrite Hr, res_bind_ok. destruct (inc_load_ok _ _ _ _ _ _ (cpu_id x) H2) as (a & -> & H3); [lia|].
  rewrite res_bind_ok. eexists _, _. split; [reflexivity|]. split; [apply sched_ok_ipi; exact H3|].
  unfold sched_ipi_resched, emit. split; [|split; [destruct (cpu_id x =? my); reflexivity|]].
  - intros Hl. apply list_elem_of_filter in Hl as [Hl _]. auto.
  - destruct (cpu_id x =? my); red; auto 10.
Qed.

Lemma wake_protocol_ok my :
  state x = PROCESS_BLOCKED \/ state x = PROCESS_SLEEPING ->
  exists s' SL', (s ← updp s p (set_state PROCESS_READY); sched_enqueue_ready my s p) = Ok s' /\
    sched_ok None s' (woken s p x Q) SL' AL G /\ p ∉ SL' /\
    procs s' = <[p := set_state PROCESS_READY x]> (procs s) /\ same_list s s'.
Proof. intros Hst. apply (hand_over_ok (set_state PROCESS_READY) my); auto. Qed.
End wake.

(** ** Walking the process list *)

Lemma ring_succ nx pv (hd0 : Z) G l1 p l2 :
  ring nx pv hd0 G -> hd0 :: G = l1 ++ p :: l2 -> nx !! p = Some (hd hd0 l2).
Proof.
  intros [Hl _] E. rewrite app_comm_cons, E, <- app_assoc in Hl. simpl in Hl.
  apply linked_app in Hl as [_ Hl]. destruct l2; simpl in *; tauto.
Qed.

Lemma ring_next_facts lim s Q SL AL G l1 p q l2 :
  sched_ok lim s Q SL AL G -> ready_queue_head s :: G = l1 ++ p :: q :: l2 ->
  q <> 0 /\ q <> ready_queue_head s.
Proof.
  intros H El. split.
  - intros ->. assert (Hz : is_Some (procs s !! 0)) by (apply (so_procs _ _ _ _ _ _ H); rewrite El; set_solver).
    rewrite (so_zero _ _ _ _ _ _ H) in Hz. destruct Hz; discriminate.
  - intros ->. destruct (so_ring _ _ _ _ _ _ H) as [_ Hnd]. rewrite El in Hnd.
    destruct l1 as [|y l1]; injection El as <- ->.
    + apply NoDup_cons in Hnd as [Hnd _]. apply Hnd. set_solver.
    + simpl in Hnd. apply NoDup_cons in Hnd as [Hnd _]. apply Hnd. set_solver.
Qed.

Lemma find_loop_ok fuel : forall s lim Q SL AL G l1 p l2 pd,
  sched_ok lim s Q SL AL G -> ready_queue_head s :: G = l1 ++ p :: l2 -> (length l2 < fuel)%nat ->
  exists r, find_loop fuel s p (ready_queue_head s) pd = Ok r /\
    ((r = 0 /\ forall q x, q ∈ p :: l2 -> procs s !! q = Some x -> pid x <> pd) \/
     (r ∈ p :: l2 /\ exists x, procs s !! r = Some x /\ pid x = pd)).
Proof.
  induction fuel as [|fuel IH]; intros s lim Q SL AL G l1 p l2 pd H El Hf; [lia|]. cbn [find_loop].
  assert (Hp : is_Some (procs s !! p)) by (apply (so_procs _ _ _ _ _ _ H); rewrite El; set_solver).
  destruct Hp as [x Hx]. rewrite (getp_ok _ _ _ Hx), res_bind_ok.
  destruct (Z.eqb_spec (pid x) pd) as [E|Hne].
  { exists p. split; [reflexivity|]. right. split; [set_solver|eauto]. }
  rewrite (fget_ok _ _ _ (ring_succ _ _ _ _ _ _ _ (so_ring _ _ _ _ _ _ H) El)), res_bind_ok.
  destruct l2 as [|q l2]; simpl hd.
  - rewrite Z.eqb_refl, orb_true_r. exists 0. split; [reflexivity|]. left. split; [auto|].
    intros q y ->%list_elem_of_singleton Hy. congruence.
  - destruct (ring_next_facts _ _ _ _ _ _ _ _ _ _ H El) as [Hq0 Hqh].
    destruct (Z.eqb_spec q 0), (Z.eqb_spec q (ready_queue_head s)); try tauto. cbn [orb].
    destruct (IH s lim Q SL AL G (l1 ++ [p]) q l2 pd H) as (r & Hr & Hcase);
      [rewrite El, <- app_assoc; reflexivity|simpl in Hf; lia|].
    exists r. split; [exact Hr|]. destruct Hcase as [[-> Hno]|[Hin Hpid]].
    + left. split; [auto|]. intros q' y [->|Hq']%elem_of_cons Hy; [congruence|eauto].
    + right. split; [set_solver|auto].
Qed.

Lemma process_find_ok lim s Q SL AL G pd :
  sched_ok lim s Q SL AL G ->
  exists r, process_find_locked s pd = Ok r /\
    ((r = 0 /\ forall q x, procs s !! q = Some x -> pid x <> pd) \/
     (exists x, procs s !! r = Some x /\ pid x = pd)).
Proof.
  intros H. unfold process_find_locked. destruct (Z.eqb_spec (ready_queue_head s) 0) as [E|_].
  { exists 0. split; [reflexivity|]. left. split; [auto|]. intros q x Hx _.
    assert (Hz : is_Some (procs s !! 0)) by (apply (so_procs _ _ _ _ _ _ H); rewrite E; set_solver).
    rewrite (so_zero _ _ _ _ _ _ H) in Hz. destruct Hz; discriminate. }
  destruct (find_loop_ok (nprocs s) s lim Q SL AL G [] (ready_queue_head s) G pd H eq_refl)
    as (r & Hr & Hcase).
  { pose proof (ring_fuel H) as Hf. simpl in Hf. unfold nprocs in *. lia. }
  exists r. split; [exact Hr|]. destruct Hcase as [[-> Hno]|[_ Hx]]; [left|right; auto].
  split; [auto|]. intros q x Hx. apply (Hno q x); auto. apply (so_procs _ _ _ _ _ _ H). eauto.
Qed.

(** ** Context switch *)

(** The queues after the outgoing process [prev] has been dealt with: one whose
    slice ended goes to the end of its expired list, one priority lower. *)
Definition decayed (x : proc) : proc :=
  let x := set_state PROCESS_READY x in
  if priority x <? SCHED_NUM_PRIOS - 1 then set_priority (priority x + 1) x else x.

Definition requeued (s : sched) (cpu prev : Z) (x : proc) (Q : Z -> Z -> Z -> list Z)
    : Z -> Z -> Z -> list Z :=
  if is_state (state x) PROCESS_RUNNING then
    let k := expd (rqs s) cpu in let i := priority (decayed x) in
    updQ Q cpu k i (Q cpu k i ++ [prev])
  else Q.

Definition prev_after (x : proc) : proc :=
  if is_state (state x) PROCESS_RUNNING then decayed x else x.

Lemma decayed_facts x :
  0 <= priority x < SCHED_NUM_PRIOS ->
  state (decayed x) = PROCESS_READY /\ cpu_id (decayed x) = cpu_id x /\
  0 <= priority (decayed x) < SCHED_NUM_PRIOS /\ alarm_tick (decayed x) = alarm_tick x.
Proof.
  intros Hp. unfold decayed, SCHED_NUM_PRIOS in *. simpl.
  destruct (Z.ltb_spec (priority x) (32 - 1)); simpl; split_and!; auto; lia.
Qed.

Section schedule.
Context {s : sched} {Q : Z -> Z -> Z -> list Z} {SL AL G : list Z}.
Context (H : sched_ok None s Q SL AL G) (cpu : Z) (Hcpu : 0 <= cpu < SCHED_MAX_CPUS).
Let prev := arr_at (current s) cpu.
Context (Hprev : prev <> 0) (x : proc) (Hx : procs s !! prev = Some x).

Lemma prev_cpu : cpu_id x = cpu.
Proof.
  destruct (so_current _ _ _ _ _ _ H cpu Hcpu Hprev) as (y & Hy & E). fold prev in Hy. congruence.
Qed.

(** The outgoing process is [prev_after x] and no longer RUNNING. *)
Lemma schedule_prev_ok :
  ~ (state x = PROCESS_RUNNING /\ 0 < time_slice x) ->
  exists s1 SL1, schedule_prev s cpu prev = Ok (false, s1) /\
    sched_ok None s1 (requeued s cpu prev x Q) SL1 AL G /\
    procs s1 = <[prev := prev_after x]> (procs s) /\ current s1 = current s /\
    act (rqs s1) cpu = act (rqs s) cpu /\ expd (rqs s1) cpu = expd (rqs s) cpu /\
    state (prev_after x) <> PROCESS_RUNNING.
Proof.
  intros Hns. pose proof prev_cpu as Hxc. destruct (so_bounds _ _ _ _ _ _ H prev x Hx) as [Hpr _].
  unfold schedule_prev. rewrite (getp_ok _ _ _ Hx), res_bind_ok. unfold requeued, prev_after.
  destruct (is_state (state x) PROCESS_RUNNING) eqn:Er.
  - apply is_state_true in Er. destruct (Z.ltb_spec 0 (time_slice x)); [exfalso; apply Hns; auto|].
    rewrite (updp_ok s prev x) by exact Hx. rewrite res_bind_ok.
    destruct (decayed_facts x Hpr) as (D1 & D2 & D3 & D4).
    set (s1 := set_procs (<[prev := decayed x]> (procs s)) s).
    assert (E : (if priority x <? SCHED_NUM_PRIOS - 1
      then updp (set_procs (<[prev := set_state PROCESS_READY x]> (procs s)) s) prev
             (set_priority (priority x + 1))
      else mret (set_procs (<[prev := set_state PROCESS_READY x]> (procs s)) s)) = Ok s1).
    { subst s1. unfold decayed. simpl priority. destruct (priority x <? SCHED_NUM_PRIOS - 1); [|reflexivity].
      erewrite updp_ok by (simpl; apply lookup_insert_eq). simpl. rewrite insert_insert_eq. reflexivity. }
    rewrite E, res_bind_ok.
    assert (Hnq : ~ queued Q prev)
      by (eapply not_ready_not_queued; eauto; rewrite Er; discriminate).
    pose proof (sched_ok_take _ _ _ _ _ prev H Hnq) as Htake.
    assert (H1 : sched_ok (Some prev) s1 Q SL AL G).
    { eapply sched_ok_setp; eauto. split_and!; auto; try apply D3.
      - tauto.
      - intros Hs. destruct (so_asleep _ _ _ _ _ _ H prev Hs) as (y & Hy & Ey). congruence.
      - rewrite D1. discriminate. }
    destruct (enqueue_ok false s1 Q SL AL G prev (decayed x) H1 (lookup_insert_eq _ _ _) D1)
      as (r & Hr & Hfr & H2).
    rewrite D2, Hxc in Hr. simpl in Hr. rewrite Hr, res_bind_ok.
    eexists _, SL. split; [reflexivity|]. rewrite D2, Hxc in H2. split; [exact H2|].
    split; [reflexivity|]. split; [reflexivity|]. unfold act, expd. simpl.
    destruct (Hfr cpu) as (F1 & F2 & _). split_and!; auto. rewrite D1. discriminate.
  - apply is_state_false in Er.
    assert (Hid : procs s = <[prev := x]> (procs s)) by (symmetry; apply insert_id; auto).
    destruct (is_state (state x) PROCESS_SLEEPING) eqn:Es;
      [|exists s, SL; split_and!; auto].
    apply is_state_true in Es. destruct (so_dom _ _ _ _ _ _ H prev) as (_ & (_ & _ & [v Hv]) & _); [eauto|].
    rewrite (fget_ok _ _ _ Hv), res_bind_ok.
    destruct (Z.eqb_spec v 0) as [->|Hv0]; [|exists s, SL; split_and!; auto].
    assert (Hns' : prev ∉ SL).
    { intros Hin. rewrite (tq_ok_in _ _ _ (so_sleep _ _ _ _ _ _ H) _ Hin) in Hv. discriminate. }
    destruct (sleep_remove_ok H prev x Hx) as (q & -> & H1). rewrite res_bind_ok.
    rewrite filter_ne_id in H1 by auto.
    destruct (sleep_insert_ok H1 prev x Hx Hns' Es) as (q2 & SL' & -> & _ & H2). rewrite res_bind_ok.
    eexists _, SL'. split; [reflexivity|]. split; [exact H2|]. split_and!; auto.
Qed.
End schedule.

(** The process that gets the CPU: the best of the active runqueue, or of the
    expired one when the active one is empty. *)
Definition chosen (s : sched) (cpu : Z) (Q : Z -> Z -> Z -> list Z) (next : Z) : Prop :=
  best Q cpu (act (rqs s) cpu) next \/
  (forall i, Q cpu (act (rqs s) cpu) i = []) /\ best Q cpu (expd (rqs s) cpu) next.

Lemma sched_ok_set_current s Q SL AL G cpu p x c :
  sched_ok (Some p) s Q SL AL G -> procs s !! p = Some x -> cpu_id x = cpu ->
  0 <= cpu < SCHED_MAX_CPUS -> arr_at (current s) cpu <> 0 ->
  (forall q y, procs s !! q = Some y -> cpu_id y = cpu -> state y <> PROCESS_RUNNING) ->
  c = arr_put (current s) cpu p ->
  sched_ok (Some p) (set_current c s) Q SL AL G.
Proof.
  intros H Hx Hxc Hcpu Hn Hnr ->. split; try apply H; simpl.
  - intros c Hc. rewrite arr_at_put. destruct (Z.eqb_spec cpu c) as [<-|]; [eauto|].
    apply (so_current _ _ _ _ _ _ H c Hc).
  - intros q y Hy Hr. rewrite arr_at_put. destruct (Z.eqb_spec cpu (cpu_id y)) as [E|].
    + exfalso. apply (Hnr q y Hy); auto.
    + apply (so_running _ _ _ _ _ _ H q y Hy Hr).
  - intros c Hc. rewrite arr_at_put. unfold idle_at. simpl. intros Hcn.
    apply (so_idle _ _ _ _ _ _ H c Hc). destruct (Z.eqb_spec cpu c) as [<-|]; auto.
Qed.

Lemma best_queued Q c k p : best Q c k p -> exists i l, in_range c k i /\ Q c k i = p :: l.
Proof. intros (i & l & Hr & E & _). eauto. Qed.

(** The process just chosen becomes RUNNING with a full slice. *)
Definition running (x : proc) : proc := set_time_slice SCHED_TIME_SLICE (set_state PROCESS_RUNNING x).

Lemma start_running s Q SL AL G p x :
  sched_ok (Some p) s Q SL AL G -> procs s !! p = Some x -> p ∉ SL ->
  arr_at (current s) (cpu_id x) = p ->
  (s ← updp s p (set_state PROCESS_RUNNING); updp s p (set_time_slice SCHED_TIME_SLICE)) =
    Ok (set_procs (<[p := running x]> (procs s)) s) /\
  sched_ok None (set_procs (<[p := running x]> (procs s)) s) Q SL AL G.
Proof.
  intros H Hx Hs Hc. split.
  - rewrite (updp_ok s p x) by auto. rewrite res_bind_ok.
    erewrite updp_ok by (simpl; apply lookup_insert_eq). simpl. rewrite insert_insert_eq. reflexivity.
  - assert (H1 : sched_ok (Some p) (set_procs (<[p := running x]> (procs s)) s) Q SL AL G).
    { eapply sched_ok_setp; eauto. destruct (so_bounds _ _ _ _ _ _ H p x Hx) as [? _].
      split_and!; simpl; auto; try tauto; try discriminate.
      intros (c & k & i & Hq). destruct (so_queued _ _ _ _ _ _ H _ _ _ _ Hq) as [? _]. contradiction. }
    eapply sched_ok_drop; [exact H1|apply lookup_insert_eq|]. simpl. discriminate.
Qed.

Section schedule_main.
Context {s : sched} {Q : Z -> Z -> Z -> list Z} {SL AL G : list Z}.
Context (H : sched_ok None s Q SL AL G) (cpu : Z) (Hcpu : 0 <= cpu < SCHED_MAX_CPUS).

(** When the current process of [cpu] is not RUNNING, some process of [cpu] is
    queued: its idle process, if no other. *)
Lemma some_queued :
  arr_at (current s) cpu <> 0 ->
  (forall y, procs s !! (arr_at (current s) cpu) = Some y -> state y <> PROCESS_RUNNING) ->
  exists k i p, p ∈ Q cpu k i.
Proof.
  intros Hn Hnr. destruct (so_idle _ _ _ _ _ _ H cpu Hcpu Hn) as (d & Hd & Hdc & Hds).
  destruct Hds as [Hr|Hr].
  - destruct (so_ready _ _ _ _ _ _ H _ d Hd Hr) as [(c & k & i & Hq)|]; [|discriminate].
    destruct (so_queued _ _ _ _ _ _ H _ _ _ _ Hq) as (_ & d' & Hd' & _ & _ & E).
    assert (c = cpu) as -> by congruence. eauto.
  - exfalso. pose proof (so_running _ _ _ _ _ _ H _ d Hd Hr) as E. rewrite Hdc in E.
    apply (Hnr d); [rewrite E; auto|auto].
Qed.

Lemma schedule_next_ok prev :
  (exists k i p, p ∈ Q cpu k i) ->
  exists next x s1 k i l, schedule_next s cpu prev = Ok (next, s1) /\
    chosen s cpu Q next /\ next <> 0 /\ procs s !! next = Some x /\ cpu_id x = cpu /\
    Q cpu k i = next :: l /\ sched_ok (Some next) s1 (updQ Q cpu k i l) SL AL G /\
    procs s1 = procs s /\ current s1 = current s /\ k = act (rqs s1) cpu /\
    (k = act (rqs s) cpu \/ (forall i, Q cpu (act (rqs s) cpu) i = []) /\ k = expd (rqs s) cpu).
Proof.
  intros Hex. pose proof (so_rq _ _ _ _ _ _ H) as Hrq. unfold schedule_next.
  destruct (rq_pick_next_ok (rqs s) Q cpu Hrq Hcpu) as (next & r & -> & Hsw & Hcase).
  rewrite res_bind_ok. destruct Hcase as [[Hn0 Hbest]|[-> Hall]];
    [|destruct Hex as (k & i & p & Hp); rewrite Hall in Hp; set_solver].
  destruct (Z.eqb_spec next 0); [contradiction|]. cbn [negb].
  assert (Hr : sched_ok None (set_rqs r s) Q SL AL G).
  { destruct Hsw as [[-> _]|[-> _]].
    - replace (set_rqs (rqs s) s) with s by (destruct s; reflexivity). auto.
    - eapply sched_ok_rqs; eauto; try apply H; auto using swap_ok.
      intros c. apply (swap_roles (rqs s) cpu c). }
  assert (Hch : chosen s cpu Q next).
  { destruct Hsw as [[-> _]|[-> Hemp]]; [left; auto|right]. split; [auto|].
    destruct (swap_roles (rqs s) cpu cpu) as (E & _ & _). rewrite Z.eqb_refl in E.
    rewrite E in Hbest. auto. }
  destruct (best_queued _ _ _ _ Hbest) as (i & l & Hrange & El).
  assert (Hq : next ∈ Q cpu (act r cpu) i) by (rewrite El; set_solver).
  destruct (so_queued _ _ _ _ _ _ H _ _ _ _ Hq) as (_ & x & Hx & Hst & Hpi & Hxc).
  unfold dequeue_active. rewrite (getp_ok (set_rqs r s) next x Hx), res_bind_ok.
  rewrite arr_get_ok, res_bind_ok by (pose proof (rq_cpus _ _ (so_rq _ _ _ _ _ _ Hr)) as El'; simpl in *; lia).
  destruct (dequeue_ok (set_rqs r s) Q SL AL G cpu (act r cpu) i next [] l Hr El)
    as (r2 & Hdq & Hfr & H2).
  rewrite Hpi. cbn [rqs set_rqs] in *. unfold act in Hdq. rewrite Hdq, !res_bind_ok.
  destruct (dec_load_ok _ _ _ _ _ _ cpu H2) as (a & -> & H3); [lia|]. rewrite res_bind_ok.
  eexists next, x, _, (act r cpu), i, l. split; [reflexivity|]. split_and!; auto.
  - symmetry. apply (Hfr cpu).
  - destruct Hsw as [[-> _]|[-> Hemp]]; [left; auto|right].
    destruct (swap_roles (rqs s) cpu cpu) as (-> & _ & _). rewrite Z.eqb_refl. auto.
Qed.

End schedule_main.

Lemma schedule_ok s Q SL AL G cpu x :
  sched_ok None s Q SL AL G -> 0 <= cpu < SCHED_MAX_CPUS ->
  let prev := arr_at (current s) cpu in
  prev <> 0 -> procs s !! prev = Some x -> ~ (state x = PROCESS_RUNNING /\ 0 < time_slice x) ->
  exists s' next y Q2 SL', schedule s cpu = Ok s' /\
    chosen s cpu (requeued s cpu prev x Q) next /\
    (forall c, arr_at (current s') c = if cpu =? c then next else arr_at (current s) c) /\
    <[prev := prev_after x]> (procs s) !! next = Some y /\ cpu_id y = cpu /\
    procs s' = <[next := running y]> (<[prev := prev_after x]> (procs s)) /\
    (exists k i l, requeued s cpu prev x Q cpu k i = next :: l /\
       Q2 = updQ (requeued s cpu prev x Q) cpu k i l /\ k = act (rqs s') cpu /\
       (k = act (rqs s) cpu \/
        (forall i, requeued s cpu prev x Q cpu (act (rqs s) cpu) i = []) /\ k = expd (rqs s) cpu)) /\
    sched_ok None s' Q2 SL' AL G.
Proof.
  intros H Hcpu prev Hn Hx Hns. unfold schedule, cur.
  destruct (so_cpus _ _ _ _ _ _ H) as (Hcl & _ & _).
  rewrite arr_get_ok, res_bind_ok by lia. fold prev.
  destruct (Z.eqb_spec prev 0); [contradiction|].
  destruct (schedule_prev_ok H cpu Hcpu Hn x Hx Hns) as (s1 & SL1 & E1 & H1 & Ep & Ec & Ea & Ee & Hnr).
  fold prev in E1, H1, Ep. rewrite E1, res_bind_ok. cbv iota.
  set (Q1 := requeued s cpu prev x Q) in *.
  assert (Hpx : procs s1 !! prev = Some (prev_after x)) by (rewrite Ep; apply lookup_insert_eq).
  assert (Hcur1 : arr_at (current s1) cpu = prev) by (rewrite Ec; reflexivity).
  destruct (schedule_next_ok H1 cpu Hcpu prev) as
    (next & y & s2 & k & i & l & E2 & Hch & Hn0 & Hy & Hyc & El & H2 & Ep2 & Ec2 & Ek & Er).
  2: rewrite Ea, Ee in Er.
  { apply (some_queued H1 cpu Hcpu); rewrite Hcur1; auto. intros y Hy. congruence. }
  rewrite E2, res_bind_ok.
  assert (Hch' : chosen s cpu Q1 next) by (unfold chosen in *; rewrite Ea, Ee in Hch; auto).
  assert (Hsl : next ∉ SL1).
  { intros Hs. destruct (so_asleep _ _ _ _ _ _ H1 next Hs) as (z & Hz & Ez).
    destruct (so_queued _ _ _ _ _ _ H1 cpu k i next) as (_ & z' & Hz' & Ez' & _);
      [rewrite El; set_solver|congruence]. }
  assert (Hy2 : procs s2 !! next = Some y) by (rewrite Ep2; auto).
  destruct (Z.eqb_spec prev next) as [E|Hne].
  - subst next. destruct (start_running s2 _ SL1 AL G prev y H2 Hy2 Hsl) as [E3 H3];
      [rewrite Ec2, Hyc, Hcur1; auto|].
    rewrite E3. eexists _, prev, y, _, SL1. split; [reflexivity|].
    split; [auto|]. split.
    { intros c. simpl. rewrite Ec2, Ec. destruct (Z.eqb_spec cpu c) as [<-|]; auto. }
    rewrite <- Ep. split; [auto|]. split; [auto|]. split; [simpl; rewrite Ep2; reflexivity|].
    split; [eauto 10|exact H3].
  - unfold switch_to. rewrite arr_set_ok, res_bind_ok by (rewrite Ec2, Ec; lia).
    assert (H2' : sched_ok (Some next) (set_current (arr_put (current s2) cpu next) s2)
              (updQ Q1 cpu k i l) SL1 AL G).
    { eapply sched_ok_set_current; eauto.
      - rewrite Ec2, Hcur1. auto.
      - intros q z Hz Hzc Hrun. rewrite Ep2 in Hz.
        pose proof (so_running _ _ _ _ _ _ H1 q z Hz Hrun) as Eq. rewrite Hzc, Hcur1 in Eq.
        subst q. congruence. }
    destruct (start_running (set_current (arr_put (current s2) cpu next) s2) _ SL1 AL G next y H2' Hy2 Hsl)
      as [E3 H3]; [simpl; rewrite Hyc; apply arr_at_put_eq|].
    rewrite (res_bind_then _ _ _ _ E3).
    set (s3 := set_procs _ _) in *.
    rewrite (getp_ok s3 next (running y)), res_bind_ok by apply lookup_insert_eq.
    rewrite (getp_ok s3 prev (prev_after x)), res_bind_ok
      by (unfold s3; simpl; rewrite lookup_insert_ne, Ep2; auto).
    eexists _, next, y, _, SL1. split; [reflexivity|]. split; [auto|].
    split; [intros c; rewrite <- Ec, <- Ec2, <- arr_at_put; repeat case_match; reflexivity|].
    rewrite <- Ep. split; [auto|]. split; [auto|].
    split; [repeat case_match; simpl; rewrite Ep2; reflexivity|].
    split; [exists k, i, l; repeat case_match; auto|].
    repeat case_match; repeat apply sched_ok_emit; exact H3.
Qed.
