(* ===== verification/SchedTick.v ===== *)
(** The timer side of the scheduler: the tick wakes exactly the sleepers that
    are due, delivers SIGALRM to exactly the processes whose alarm is due and
    charges the running process; the alarm loop ends when no re-armed alarm is
    due again, and does not end when one is. *)

From Stdlib Require Import Sorting.Sorted.
From S2P Require Import Prelude Bitmap Ring Runq SortedQ AsRef SchedState Sched SchedInv SchedSpec.

(** ** Changes that no queue depends on *)

Definition same_place (x y : proc) : Prop :=
  cpu_id y = cpu_id x /\ priority y = priority x /\ state y = state x /\
  wake_at_tick y = wake_at_tick x /\ alarm_tick y = alarm_tick x.

Lemma same_place_refl x : same_place x x.
Proof. red. auto 10. Qed.

Lemma sched_ok_same lim s Q SL AL G p x y :
  sched_ok lim s Q SL AL G -> procs s !! p = Some x -> same_place x y ->
  sched_ok lim (set_procs (<[p := y]> (procs s)) s) Q SL AL G.
Proof.
  intros H Hx (E1 & E2 & E3 & E4 & E5). eapply sched_ok_setp; eauto. red.
  destruct (so_bounds _ _ _ _ _ _ H p x Hx) as [Hb _]. split_and!; try congruence; try lia.
  - intros (c & k & i & Hq). destruct (so_queued _ _ _ _ _ _ H _ _ _ _ Hq) as (_ & z & Hz & Ez & _).
    split; congruence.
  - rewrite E3. apply (so_ready _ _ _ _ _ _ H p x Hx).
  - intros Hs. destruct (so_asleep _ _ _ _ _ _ H p Hs) as (z & Hz & Ez). split; congruence.
  - rewrite E3. apply (so_running _ _ _ _ _ _ H p x Hx).
  - intros c Hc Hn Hi. destruct (so_idle _ _ _ _ _ _ H c Hc Hn) as (z & Hz & _ & Hs).
    rewrite Hi in Hz. rewrite E3. congruence.
Qed.

Lemma charge_same x : same_place x (charge_tick x).
Proof. red. auto 10. Qed.

Lemma itimers_same x : same_place x (tick_itimers x).
Proof. unfold tick_itimers. red. repeat (case_match; simpl); auto 10. Qed.

Lemma raise_same sig x : same_place x (raise_sig sig x).
Proof. unfold raise_sig. red. case_match; simpl; auto 10. Qed.

Lemma same_place_trans x y z : same_place x y -> same_place y z -> same_place x z.
Proof. unfold same_place. intuition congruence. Qed.

(** ** The running process *)

Definition if_running (f : proc -> proc) (x : proc) : proc :=
  if is_state (state x) PROCESS_RUNNING then f x else x.

Lemma on_running_ok s Q SL AL G my f :
  sched_ok None s Q SL AL G -> 0 <= my < SCHED_MAX_CPUS -> (forall x, same_place x (f x)) ->
  exists s', on_running my s f = Ok s' /\ sched_ok None s' Q SL AL G /\ same_list s s' /\
    rqs s' = rqs s /\ alarmq s' = alarmq s /\
    (forall p, procs s' !! p =
       (if p =? arr_at (current s) my then if_running f else id) <$> procs s !! p).
Proof.
  intros H Hmy Hf. destruct (so_cpus _ _ _ _ _ _ H) as (Hcl & _ & _). unfold on_running, cur.
  rewrite arr_get_ok, res_bind_ok by lia. set (c := arr_at (current s) my) in *.
  assert (Hsame : forall g : Z -> proc -> proc, (forall p x, procs s !! p = Some x -> g p x = x) ->
            forall p, procs s !! p = g p <$> procs s !! p).
  { intros g Hg p. destruct (procs s !! p) eqn:E; simpl; [rewrite (Hg p) by auto|]; reflexivity. }
  destruct (Z.eqb_spec c 0) as [E0|Hc0].
  { exists s. split; [reflexivity|]. split_and!; auto using same_list_refl.
    apply (Hsame (fun p => if p =? c then if_running f else id)). intros p x Hx.
    destruct (Z.eqb_spec p c); [|reflexivity]. exfalso. eapply so_nonzero; eauto. congruence. }
  destruct (so_current _ _ _ _ _ _ H my Hmy Hc0) as (x & Hx & _). fold c in Hx.
  rewrite (getp_ok _ _ _ Hx), res_bind_ok.
  destruct (is_state (state x) PROCESS_RUNNING) eqn:Er.
  - rewrite (setp_ok s c x) by auto. eexists. split; [reflexivity|].
    split; [eapply sched_ok_same; eauto|]. split; [red; auto 10|]. split_and!; auto. intros p. simpl.
    destruct (Z.eqb_spec p c) as [->|].
    + rewrite lookup_insert_eq, Hx. simpl. unfold if_running. rewrite Er. reflexivity.
    + rewrite lookup_insert_ne by auto. destruct (procs s !! p); reflexivity.
  - exists s. split; [reflexivity|]. split_and!; auto using same_list_refl.
    apply (Hsame (fun p => if p =? c then if_running f else id)). intros p y Hy.
    destruct (Z.eqb_spec p c) as [->|]; [|reflexivity]. rewrite Hx in Hy. injection Hy as <-.
    unfold if_running. rewrite Er. reflexivity.
Qed.

(** ** Sleepers *)

(** What a process whose sleep is over becomes. *)
Definition boosted (x : proc) : proc :=
  let x := set_state PROCESS_READY x in
  if 0 <? priority x then set_priority (priority x - 1) x else x.

Lemma boosted_facts x : 0 <= priority x < SCHED_NUM_PRIOS ->
  state (boosted x) = PROCESS_READY /\ cpu_id (boosted x) = cpu_id x /\
  0 <= priority (boosted x) < SCHED_NUM_PRIOS /\ alarm_tick (boosted x) = alarm_tick x /\
  wake_at_tick (boosted x) = wake_at_tick x.
Proof.
  intros Hp. unfold boosted. simpl. destruct (Z.ltb_spec 0 (priority x)); simpl; split_and!; auto; lia.
Qed.

Lemma or_bit_u32 m c : is_u32 m -> 0 <= c < SCHED_MAX_CPUS ->
  is_u32 (if c <? 32 then Z.lor m (Z.shiftl 1 c) else m).
Proof.
  intros Hm Hc. destruct (Z.ltb_spec c 32); [|auto]. apply is_u32_setbit; auto. lia.
Qed.

(** One sleeper is woken. *)
Lemma wake_one s Q SL AL G p x :
  sched_ok None s Q (p :: SL) AL G -> procs s !! p = Some x ->
  exists q s1, sleep_queue_remove s p = Ok (set_sleepq q s) /\
   (s ← updp (set_sleepq q s) p (set_state PROCESS_READY);
    s ← (if 0 <? priority x then updp s p (set_priority (priority x - 1)) else mret s);
    s ← enqueue_active s (cpu_id x) p;
    sched_pcpu_inc_load s (cpu_id x)) = Ok s1 /\
   sched_ok None s1 (woken s p (boosted x) Q) SL AL G /\ same_list s s1 /\ alarmq s1 = alarmq s /\
   procs s1 = <[p := boosted x]> (procs s) /\ (forall c, act (rqs s1) c = act (rqs s) c).
Proof.
  intros H Hx. destruct (so_asleep _ _ _ _ _ _ H p) as (z & Hz & Est); [set_solver|].
  rewrite Hx in Hz. injection Hz as <-. destruct (so_bounds _ _ _ _ _ _ H p x Hx) as [Hpr Hcpu].
  destruct (boosted_facts x Hpr) as (B1 & B2 & B3 & B4 & B5).
  pose proof (tq_ok_nodup _ _ _ (so_sleep _ _ _ _ _ _ H)) as Hnd. apply NoDup_cons in Hnd as [Hni _].
  destruct (sleep_remove_ok H p x Hx) as (q & Hq & H1). exists q.
  rewrite filter_cons_False in H1 by tauto. rewrite filter_ne_id in H1 by auto.
  destruct (ready_enqueue_frame _ _ _ _ _ p x (boosted x) H1 Hx ltac:(congruence) Hni B2 B3 B1 ltac:(auto))
    as (r & Hr & Hfr & H2).
  destruct (inc_load_ok _ _ _ _ _ _ (cpu_id x) H2) as (a & Ha & H3); [lia|].
  eexists _. split; [exact Hq|]. split; [|split; [exact H3|]].
  - rewrite (updp_ok (set_sleepq q s) p x) by exact Hx. rewrite res_bind_ok.
    assert (E : (if 0 <? priority x
      then updp (set_procs (<[p := set_state PROCESS_READY x]> (procs (set_sleepq q s))) (set_sleepq q s)) p
             (set_priority (priority x - 1))
      else mret (set_procs (<[p := set_state PROCESS_READY x]> (procs (set_sleepq q s))) (set_sleepq q s))) =
      Ok (set_procs (<[p := boosted x]> (procs (set_sleepq q s))) (set_sleepq q s))).
    { unfold boosted. simpl priority. destruct (0 <? priority x); [|reflexivity].
      erewrite updp_ok by (simpl; apply lookup_insert_eq). simpl. rewrite insert_insert_eq. reflexivity. }
    rewrite E, res_bind_ok, Hr, res_bind_ok. exact Ha.
  - split; [red; auto 10|]. split; [reflexivity|]. split; [reflexivity|]. intros c. apply Hfr.
Qed.

(** The run queues when the processes of [l] have been woken, one after the other:
    each is at the end of the active list of its processor and better priority. *)
Definition wake_all (s : sched) (Q : Z -> Z -> Z -> list Z) (l : list Z) : Z -> Z -> Z -> list Z :=
  foldl (fun Q p => match procs s !! p with Some x => woken s p (boosted x) Q | None => Q end) Q l.

Lemma wake_all_ext s s' l : (forall c, act (rqs s') c = act (rqs s) c) ->
  (forall p x', p ∈ l -> procs s' !! p = Some x' -> exists x, procs s !! p = Some x /\ cpu_id x' = cpu_id x /\ priority x' = priority x) ->
  (forall p, p ∈ l -> is_Some (procs s !! p) -> is_Some (procs s' !! p)) ->
  forall Q, wake_all s' Q l = wake_all s Q l.
Proof.
  intros Ha. induction l as [|p l IH]; intros Hb Hd Q; [reflexivity|]. unfold wake_all. cbn [foldl].
  change (wake_all s' (match procs s' !! p with Some x => woken s' p (boosted x) Q | None => Q end) l =
    wake_all s (match procs s !! p with Some x => woken s p (boosted x) Q | None => Q end) l).
  rewrite IH by (intros; eauto using list_elem_of_further). f_equal.
  destruct (procs s' !! p) as [x'|] eqn:Hx'.
  - destruct (Hb p x') as (x & -> & E1 & E2); [set_solver|auto|]. unfold woken.
    assert (Ec : cpu_id (boosted x') = cpu_id (boosted x)) by (unfold boosted; simpl; rewrite E2; case_match; exact E1).
    assert (Ep : priority (boosted x') = priority (boosted x)) by (unfold boosted; simpl; rewrite E2; case_match; simpl; congruence).
    rewrite Ec, Ep, Ha. reflexivity.
  - destruct (procs s !! p) as [x|] eqn:Hx; [|reflexivity]. destruct (Hd p) as [x' Hx2]; [set_solver|eauto|congruence].
Qed.

Lemma filter_none {A} (P : A -> Prop) `{!forall x, Decision (P x)} (l : list A) :
  (forall x, x ∈ l -> ~ P x) -> filter P l = [].
Proof.
  induction l as [|x l IH]; intros Hl; [reflexivity|].
  rewrite filter_cons_False by (apply Hl; set_solver). apply IH. intros y Hy. apply Hl. set_solver.
Qed.

Definition sleep_due (s : sched) (SL : list Z) (tick p : Z) : bool :=
  bool_decide (p ∈ SL) && (wake_of s p <=? tick).

Lemma wake_sleepers_ok fuel : forall s Q SL AL G tick mask,
  sched_ok None s Q SL AL G -> (length SL < fuel)%nat -> is_u32 mask ->
  exists mask' s', wake_sleepers fuel s tick mask = Ok (mask', s') /\ is_u32 mask' /\
    sched_ok None s' (wake_all s Q (filter (fun p => wake_of s p <= tick) SL)) (filter (fun p => tick < wake_of s p) SL) AL G /\
    same_list s s' /\ alarmq s' = alarmq s /\
    (forall p, procs s' !! p = (if sleep_due s SL tick p then boosted else id) <$> procs s !! p).
Proof.
  induction fuel as [|fuel IH]; intros s Q SL AL G tick mask H Hf Hm; [lia|]. cbn [wake_sleepers].
  rewrite (tq_ok_head _ _ _ (so_sleep _ _ _ _ _ _ H)). destruct SL as [|p SL]; simpl hd.
  { exists mask, s. split; [reflexivity|]. split_and!; auto using same_list_refl.
    intros p. unfold sleep_due. rewrite bool_decide_eq_false_2 by set_solver. simpl.
    destruct (procs s !! p); reflexivity. }
  destruct (so_asleep _ _ _ _ _ _ H p) as (x & Hx & Est); [set_solver|].
  destruct (Z.eqb_spec p 0); [exfalso; eapply so_nonzero; eauto|].
  rewrite (getp_ok _ _ _ Hx), res_bind_ok.
  assert (Hw : wake_of s p = wake_at_tick x) by (unfold wake_of; rewrite Hx; reflexivity).
  pose proof (tq_ok_sorted _ _ _ (so_sleep _ _ _ _ _ _ H)) as Hso. inversion Hso as [|? ? _ Hall]; subst.
  pose proof (tq_ok_nodup _ _ _ (so_sleep _ _ _ _ _ _ H)) as Hnd. apply NoDup_cons in Hnd as [Hni _].
  rewrite Forall_forall in Hall. destruct (Z.leb_spec (wake_at_tick x) tick).
  - destruct (wake_one _ _ _ _ _ p x H Hx) as (q & s1 & -> & Hw1 & H1 & Hsl & Hal & Hp1 & Ha1).
    destruct (so_bounds _ _ _ _ _ _ H p x Hx) as [Hpr Hcpu].
    destruct (boosted_facts x Hpr) as (_ & _ & _ & _ & B5).
    rewrite res_bind_ok, (proj2 (is_state_true _ _) Est). rewrite clamp_id by auto.
    assert (Hww : forall q, wake_of s1 q = wake_of s q).
    { intros q'. unfold wake_of. rewrite Hp1. destruct (decide (p = q')) as [<-|];
        [rewrite lookup_insert_eq, Hx; simpl; auto|rewrite lookup_insert_ne by auto; auto]. }
    destruct (IH s1 (woken s p (boosted x) Q) SL AL G tick (if cpu_id x <? 32 then Z.lor mask (Z.shiftl 1 (cpu_id x)) else mask))
      as (mask' & s' & Hr & Hm' & H' & Hsl' & Hal' & Hp'); [exact H1|simpl in Hf; lia|auto using or_bit_u32|].
    exists mask', s'. rewrite <- Hr. split; [|split; [auto|]].
    + rewrite <- (res_bind_ok s1 (fun s => wake_sleepers fuel s tick _)), <- Hw1. symmetry. apply res_bind_3.
    + rewrite (filter_cons_False (fun y => tick < wake_of s y)) by lia. split; [|split; [eapply same_list_trans; eauto|split; [congruence|]]].
      { assert (Ew : forall y, wake_of s1 y <= tick <-> wake_of s y <= tick) by (intros y; rewrite Hww; reflexivity).
        assert (Ew' : forall y, tick < wake_of s1 y <-> tick < wake_of s y) by (intros y; rewrite Hww; reflexivity).
        rewrite (list_filter_iff _ _ SL Ew), (list_filter_iff _ _ SL Ew') in H'.
        rewrite filter_cons_True by lia. unfold wake_all at 1. cbn [foldl]. rewrite Hx.
        change (sched_ok None s' (wake_all s (woken s p (boosted x) Q) (filter (fun y => wake_of s y <= tick) SL))
          (filter (fun y => tick < wake_of s y) SL) AL G).
        rewrite (wake_all_ext s s1) in H'; [exact H'|auto|..].
        - intros q' x' [_ Hq']%list_elem_of_filter. rewrite Hp1, lookup_insert_ne by (intros ->; contradiction). eauto.
        - intros q' _ Hs'. rewrite Hp1. apply insert_is_Some. exact Hs'. }
      intros q'. rewrite Hp', Hp1. unfold sleep_due. rewrite Hww.
      destruct (decide (p = q')) as [<-|Hne].
      * rewrite lookup_insert_eq, Hx. rewrite bool_decide_eq_false_2 by auto.
        rewrite (bool_decide_eq_true_2 (p ∈ p :: SL)) by set_solver. rewrite Hw.
        destruct (Z.leb_spec (wake_at_tick x) tick); [reflexivity|lia].
      * rewrite lookup_insert_ne by auto.
        assert (E : bool_decide (q' ∈ p :: SL) = bool_decide (q' ∈ SL))
          by (apply bool_decide_ext; set_solver). rewrite E. reflexivity.
  - exists mask, s. split; [reflexivity|].
    assert (Hnd : forall q', q' ∈ p :: SL -> tick < wake_of s q').
    { intros q' [->|Hq]%elem_of_cons; [lia|]. specialize (Hall q' Hq). simpl in Hall. lia. }
    split; [auto|]. split.
    { rewrite (filter_all (fun q => tick < wake_of s q) (p :: SL)) by auto. replace (filter (fun q => wake_of s q <= tick) (p :: SL)) with ([] : list Z); [exact H|].
      symmetry. apply filter_none. intros q' Hq'. specialize (Hnd q' Hq'). lia. }
    split_and!; auto using same_list_refl.
    intros q'. unfold sleep_due. destruct (bool_decide_reflect (q' ∈ p :: SL)) as [Hin|]; simpl.
    + specialize (Hnd q' Hin). destruct (Z.leb_spec (wake_of s q') tick); [lia|].
      destruct (procs s !! q'); reflexivity.
    + destruct (procs s !! q'); reflexivity.
Qed.

(** ** Alarms *)

(** What a process whose alarm is due becomes. *)
Definition fired (tick : Z) (x : proc) : proc :=
  let x := set_sig_pending_mask (Z.lor (sig_pending_mask x) (Z.shiftl 1 14)) x in
  if negb (alarm_interval x =? 0) then set_alarm_tick (u32 (tick + alarm_interval x)) x
  else set_alarm_tick 0 x.

Lemma sched_ok_alarm lim s Q SL AL G p x y :
  sched_ok lim s Q SL AL G -> procs s !! p = Some x -> p ∉ AL ->
  cpu_id y = cpu_id x -> priority y = priority x -> state y = state x ->
  wake_at_tick y = wake_at_tick x ->
  sched_ok lim (set_procs (<[p := y]> (procs s)) s) Q SL AL G.
Proof.
  intros H Hx Hp E1 E2 E3 E4.
  pose proof (sched_ok_same _ _ _ _ _ _ p x (set_alarm_tick (alarm_tick x) y) H Hx) as H1.
  specialize (H1 ltac:(red; auto 10)). set (s1 := set_procs _ s) in H1.
  pose proof (sched_ok_setp _ s1 _ _ _ _ p (set_alarm_tick (alarm_tick x) y) y H1
    (lookup_insert_eq _ _ _)) as H2.
  assert (E : set_procs (<[p := y]> (procs s1)) s1 = set_procs (<[p := y]> (procs s)) s).
  { unfold s1. simpl. rewrite insert_insert_eq. reflexivity. }
  rewrite E in H2. apply H2. destruct (so_bounds _ _ _ _ _ _ H p x Hx) as [Hb _].
  red. simpl. split_and!; auto; try lia; try tauto.
  - intros (c & k & i & Hq). destruct (so_queued _ _ _ _ _ _ H _ _ _ _ Hq) as (_ & z & Hz & Ez & _).
    split; congruence.
  - rewrite E3. apply (so_ready _ _ _ _ _ _ H p x Hx).
  - intros Hs. destruct (so_asleep _ _ _ _ _ _ H p Hs) as (z & Hz & Ez). split; congruence.
  - rewrite E3, E1. apply (so_running _ _ _ _ _ _ H p x Hx).
  - intros c Hc Hn Hi. destruct (so_idle _ _ _ _ _ _ H c Hc Hn) as (z & Hz & _ & Hs).
    unfold s1, idle_at in *. simpl in Hi. rewrite Hi in Hz. rewrite E3. congruence.
Qed.

(** One turn of the alarm loop. *)
Lemma fire_step s Q SL AL G p x tick :
  sched_ok None s Q SL (p :: AL) G -> procs s !! p = Some x -> alarm_tick x <= tick ->
  exists s2 AL2, (forall fuel, fire_alarms (S fuel) s tick = fire_alarms fuel s2 tick) /\
    sched_ok None s2 Q SL AL2 G /\ procs s2 = <[p := fired tick x]> (procs s) /\ same_list s s2 /\
    AL2 ≡ₚ (if negb (alarm_interval x =? 0) then p :: AL else AL).
Proof.
  intros H Hx Hd. pose proof (tq_ok_nodup _ _ _ (so_alarm _ _ _ _ _ _ H)) as Hnd.
  apply NoDup_cons in Hnd as [Hni _]. destruct (alarm_remove_ok H p x Hx) as (q & Hq & H1).
  rewrite filter_cons_False in H1 by tauto. rewrite filter_ne_id in H1 by auto.
  assert (H2 : sched_ok None (set_procs (<[p := fired tick x]> (procs s)) (set_alarmq q s)) Q SL AL G).
  { eapply (sched_ok_alarm _ (set_alarmq q s)); eauto; unfold fired; case_match; reflexivity. }
  set (s2 := set_procs _ _) in H2.
  assert (Hstep : forall fuel, fire_alarms (S fuel) s tick =
     if negb (alarm_interval x =? 0) then s ← alarm_queue_insert s2 p; fire_alarms fuel s tick
     else fire_alarms fuel s2 tick).
  { intros fuel. cbn [fire_alarms]. rewrite (tq_ok_head _ _ _ (so_alarm _ _ _ _ _ _ H)). simpl hd.
    destruct (Z.eqb_spec p 0); [exfalso; exact (so_nonzero H p x Hx e)|].
    rewrite (getp_ok _ _ _ Hx), res_bind_ok. destruct (Z.leb_spec (alarm_tick x) tick); [|lia].
    rewrite Hq, res_bind_ok. rewrite (updp_ok (set_alarmq q s) p x), res_bind_ok by exact Hx.
    unfold s2, fired. simpl alarm_interval. destruct (negb (alarm_interval x =? 0));
      (erewrite updp_ok by (simpl; apply lookup_insert_eq)); rewrite res_bind_ok; simpl;
      rewrite insert_insert_eq; reflexivity. }
  destruct (negb (alarm_interval x =? 0)).
  - destruct (alarm_insert_ok H2 p (fired tick x)) as (q2 & AL2 & Hi & Hins & H3);
      [apply lookup_insert_eq|auto|].
    eexists _, AL2. split; [intros fuel; rewrite Hstep, Hi, res_bind_ok; reflexivity|].
    split; [exact H3|]. split; [reflexivity|]. split; [red; auto 10|].
    destruct Hins as (l1 & l2 & -> & -> & _). symmetry. apply Permutation_middle.
  - exists s2, AL. split; [exact Hstep|]. split; [exact H2|]. split; [reflexivity|]. split; [red; auto 10|].
    reflexivity.
Qed.

(** The head is due when some alarm is. *)
Lemma alarm_head_due s Q SL AL G p tick :
  sched_ok None s Q SL AL G -> p ∈ AL -> alarm_of s p <= tick ->
  exists q y AL0, AL = q :: AL0 /\ procs s !! q = Some y /\ alarm_tick y <= tick.
Proof.
  intros H Hp Hd. destruct AL as [|q AL0]; [set_solver|].
  destruct (so_alarms _ _ _ _ _ _ H q) as [y Hy]; [set_solver|]. exists q, y, AL0.
  split; [auto|]. split; [auto|].
  assert (E : alarm_of s q = alarm_tick y) by (unfold alarm_of; rewrite Hy; reflexivity).
  apply elem_of_cons in Hp as [->|Hp]; [lia|].
  pose proof (tq_ok_sorted _ _ _ (so_alarm _ _ _ _ _ _ H)) as Hso. inversion Hso as [|? ? _ Hall]; subst.
  rewrite Forall_forall in Hall. specialize (Hall p Hp). simpl in Hall. lia.
Qed.

Definition alarm_due (s : sched) (AL : list Z) (tick p : Z) : bool :=
  bool_decide (p ∈ AL) && (alarm_of s p <=? tick).

(** A due alarm that repeats is due again at once. *)
Definition rearms_due (s : sched) (AL : list Z) (tick p : Z) : Prop :=
  p ∈ AL /\ exists x, procs s !! p = Some x /\ alarm_tick x <= tick /\ alarm_interval x <> 0 /\
    u32 (tick + alarm_interval x) <= tick.

Lemma fired_interval tick x : alarm_interval (fired tick x) = alarm_interval x.
Proof. unfold fired. case_match; reflexivity. Qed.

Lemma fired_tick tick x : alarm_interval x <> 0 -> alarm_tick (fired tick x) = u32 (tick + alarm_interval x).
Proof. intros. unfold fired. simpl. destruct (Z.eqb_spec (alarm_interval x) 0); [contradiction|reflexivity]. Qed.

(** The loop never ends when one of the due alarms is due again at once. *)
Lemma fire_alarms_diverges fuel : forall s Q SL AL G tick p,
  sched_ok None s Q SL AL G -> rearms_due s AL tick p -> fire_alarms fuel s tick = NoFuel.
Proof.
  induction fuel as [|fuel IH]; intros s Q SL AL G tick p H (Hp & x & Hx & Hd & Hi & Hw); [reflexivity|].
  destruct (alarm_head_due _ _ _ _ _ p tick H Hp) as (q & y & AL0 & -> & Hy & Hyd).
  { unfold alarm_of. rewrite Hx. exact Hd. }
  destruct (fire_step _ _ _ _ _ q y tick H Hy Hyd) as (s2 & AL2 & -> & H2 & Hp2 & _ & HAL).
  apply (IH s2 Q SL AL2 G tick p H2). red. rewrite Hp2, HAL. destruct (decide (q = p)) as [->|Hne].
  - rewrite Hx in Hy. injection Hy as <-. rewrite lookup_insert_eq.
    destruct (Z.eqb_spec (alarm_interval x) 0); [contradiction|]. simpl. split; [set_solver|].
    exists (fired tick x). rewrite fired_interval, fired_tick by auto. auto.
  - rewrite lookup_insert_ne by auto. split; [|eauto 10].
    apply elem_of_cons in Hp as [->|Hp]; [contradiction|]. case_match; set_solver.
Qed.

Definition ndue (s : sched) (AL : list Z) (tick : Z) : nat :=
  length (filter (fun p => alarm_of s p <= tick) AL).

Lemma alarm_of_fired s p x y q : procs s !! p = Some x ->
  default 0 (alarm_tick <$> <[p := y]> (procs s) !! q) = if p =? q then alarm_tick y else alarm_of s q.
Proof.
  intros Hx. unfold alarm_of. destruct (Z.eqb_spec p q) as [->|];
    [rewrite lookup_insert_eq|rewrite lookup_insert_ne by auto]; reflexivity.
Qed.

(** The alarms that are armed after a tick: those that are not due and those that repeat. *)
Definition stays_armed (s : sched) (tick p : Z) : Prop :=
  tick < alarm_of s p \/ default 0 (alarm_interval <$> procs s !! p) <> 0.

Global Instance stays_armed_dec s tick p : Decision (stays_armed s tick p).
Proof. unfold stays_armed. apply _. Defined.

(** Firing one alarm decides whether it stays armed and changes nothing for the others. *)
Lemma stays_armed_fired s s2 q y tick AL0 :
  procs s !! q = Some y -> alarm_tick y <= tick -> procs s2 = <[q := fired tick y]> (procs s) -> q ∉ AL0 ->
  filter (stays_armed s2 tick) (if negb (alarm_interval y =? 0) then q :: AL0 else AL0) ≡ₚ filter (stays_armed s tick) (q :: AL0).
Proof.
  intros Hy Hd P Hni. assert (Hq : stays_armed s tick q <-> alarm_interval y <> 0).
  { unfold stays_armed, alarm_of. rewrite Hy. simpl. split; [intros [?|?]; [lia|auto]|auto]. }
  assert (Hrest : filter (stays_armed s2 tick) AL0 = filter (stays_armed s tick) AL0).
  { apply filter_iff_in. intros p Hp. unfold stays_armed, alarm_of. rewrite P, lookup_insert_ne by congruence. reflexivity. }
  destruct (Z.eqb_spec (alarm_interval y) 0) as [E|E]; cbn [negb].
  - rewrite (filter_cons_False _ q) by tauto. rewrite Hrest. reflexivity.
  - rewrite (filter_cons_True (stays_armed s tick)) by tauto. rewrite filter_cons_True, Hrest; [reflexivity|].
    right. rewrite P, lookup_insert_eq. simpl. rewrite fired_interval. exact E.
Qed.

Lemma fire_alarms_ok fuel : forall s Q SL AL G tick,
  sched_ok None s Q SL AL G -> (ndue s AL tick < fuel)%nat ->
  (forall p, ~ rearms_due s AL tick p) ->
  exists s' AL', fire_alarms fuel s tick = Ok s' /\ sched_ok None s' Q SL AL' G /\ same_list s s' /\
    AL' ≡ₚ filter (stays_armed s tick) AL /\
    (forall p, procs s' !! p = (if alarm_due s AL tick p then fired tick else id) <$> procs s !! p).
Proof.
  induction fuel as [|fuel IH]; intros s Q SL AL G tick H Hf Hr; [lia|].
  destruct (decide (Exists (fun p => alarm_of s p <= tick) AL)) as [Hex|Hno].
  - apply Exists_exists in Hex as (p0 & Hp0 & Hd0).
    destruct (alarm_head_due _ _ _ _ _ p0 tick H Hp0 Hd0) as (q & y & AL0 & -> & Hy & Hyd).
    pose proof (tq_ok_nodup _ _ _ (so_alarm _ _ _ _ _ _ H)) as Hnd. apply NoDup_cons in Hnd as [Hni _].
    assert (Ey : alarm_of s q = alarm_tick y) by (unfold alarm_of; rewrite Hy; reflexivity).
    destruct (fire_step _ _ _ _ _ q y tick H Hy Hyd) as (s2 & AL2 & -> & H2 & Hp2 & Hsl & HAL).
    assert (Hlate : alarm_interval y <> 0 -> tick < alarm_tick (fired tick y)).
    { intros Hi. rewrite fired_tick by auto. apply Z.nle_gt. intros Hle. apply (Hr q).
      split; [set_solver|]. eauto 10. }
    assert (Hal2 : forall p, alarm_of s2 p = if q =? p then alarm_tick (fired tick y) else alarm_of s p).
    { intros p. unfold alarm_of at 1. rewrite Hp2. eapply alarm_of_fired; eauto. }
    assert (Hsame : forall p, p ∈ AL0 -> alarm_of s2 p = alarm_of s p).
    { intros p Hp. rewrite Hal2. destruct (Z.eqb_spec q p); [congruence|reflexivity]. }
    assert (Hn2 : ndue s2 AL2 tick = ndue s AL0 tick).
    { unfold ndue. rewrite HAL. transitivity (length (filter (fun p => alarm_of s2 p <= tick) AL0)).
      - destruct (Z.eqb_spec (alarm_interval y) 0); cbn [negb]; [reflexivity|].
        rewrite filter_cons_False; [reflexivity|]. rewrite Hal2, Z.eqb_refl. specialize (Hlate n). lia.
      - f_equal. apply filter_iff_in. intros p Hp. rewrite Hsame by auto. reflexivity. }
    destruct (IH s2 Q SL AL2 G tick H2) as (s' & AL' & Hrun & H' & Hsl' & HAL' & Hp').
    + unfold ndue in Hf. rewrite filter_cons_True in Hf by lia. simpl in Hf. fold (ndue s AL0 tick) in Hf. lia.
    + intros p (Hp & z & Hz & Hzd & Hzi & Hzw). rewrite Hp2 in Hz.
      destruct (decide (q = p)) as [<-|Hne].
      * rewrite lookup_insert_eq in Hz. injection Hz as <-. rewrite fired_interval in Hzi.
        specialize (Hlate Hzi). lia.
      * rewrite lookup_insert_ne in Hz by auto. apply (Hr p). split; [|eauto 10].
        rewrite HAL in Hp. destruct (negb _); set_solver.
    + exists s', AL'. split; [exact Hrun|]. split; [exact H'|]. split; [eapply same_list_trans; eauto|].
      split; [rewrite HAL', HAL; apply (stays_armed_fired s s2 q y); auto|].
      intros p. rewrite Hp', Hp2. unfold alarm_due. rewrite Hal2. destruct (decide (q = p)) as [<-|Hne].
      * rewrite lookup_insert_eq, Hy, Z.eqb_refl. simpl. rewrite (bool_decide_eq_true_2 (q ∈ q :: AL0)) by set_solver.
        rewrite Ey. destruct (Z.leb_spec (alarm_tick y) tick); [|lia]. simpl.
        destruct (bool_decide_reflect (q ∈ AL2)) as [Hq|]; [|reflexivity]. simpl.
        rewrite HAL in Hq. destruct (Z.eqb_spec (alarm_interval y) 0); simpl in Hq; [contradiction|].
        specialize (Hlate n). destruct (Z.leb_spec (alarm_tick (fired tick y)) tick); [lia|reflexivity].
      * rewrite lookup_insert_ne by auto. destruct (Z.eqb_spec q p); [contradiction|].
        assert (E : bool_decide (p ∈ AL2) = bool_decide (p ∈ q :: AL0)).
        { apply bool_decide_ext. rewrite HAL. destruct (negb _); set_solver. }
        rewrite E. reflexivity.
  - assert (Hnd : forall p, p ∈ AL -> tick < alarm_of s p).
    { intros p Hp. apply Z.nle_gt. intros Hle. apply Hno, Exists_exists. eauto. }
    exists s, AL. split.
    { cbn [fire_alarms]. rewrite (tq_ok_head _ _ _ (so_alarm _ _ _ _ _ _ H)).
      destruct AL as [|p AL0]; [reflexivity|]. simpl hd.
      destruct (so_alarms _ _ _ _ _ _ H p) as [y Hy]; [set_solver|].
      destruct (Z.eqb_spec p 0); [exfalso; eapply so_nonzero; eauto|].
      rewrite (getp_ok _ _ _ Hy), res_bind_ok. specialize (Hnd p ltac:(set_solver)).
      unfold alarm_of in Hnd. rewrite Hy in Hnd. simpl in Hnd.
      destruct (Z.leb_spec (alarm_tick y) tick); [lia|reflexivity]. }
    split; [auto|]. split; [apply same_list_refl|].
    split; [rewrite filter_all by (intros p Hp; left; auto); reflexivity|]. intros p. unfold alarm_due.
    destruct (bool_decide_reflect (p ∈ AL)) as [Hp|]; simpl; [|destruct (procs s !! p); reflexivity].
    specialize (Hnd p Hp). destruct (Z.leb_spec (alarm_of s p) tick); [lia|].
    destruct (procs s !! p); reflexivity.
Qed.

(** ** The whole tick *)

Definition after_tick (s : sched) (SL AL : list Z) (my tick p : Z) (x : proc) : proc :=
  let mine := p =? arr_at (current s) my in
  let x := if mine then if_running charge_tick x else x in
  let x := if sleep_due s SL tick p then boosted x else x in
  let x := if alarm_due s AL tick p then fired tick x else x in
  if mine then if_running tick_itimers x else x.

(** The alarm fields and the wake-up tick of every process are the same. *)
Definition same_timers (s s' : sched) : Prop :=
  forall p, (fun x => (alarm_tick x, alarm_interval x)) <$> procs s' !! p =
            (fun x => (alarm_tick x, alarm_interval x)) <$> procs s !! p.

Lemma same_timers_map s s' (f : Z -> proc -> proc) :
  (forall p, procs s' !! p = f p <$> procs s !! p) ->
  (forall p x, alarm_tick (f p x) = alarm_tick x /\ alarm_interval (f p x) = alarm_interval x) ->
  same_timers s s'.
Proof.
  intros Hf He p. rewrite Hf. destruct (procs s !! p) as [x|]; simpl; [|reflexivity].
  destruct (He p x) as [-> ->]. reflexivity.
Qed.

Lemma same_timers_alarm_of s s' p : same_timers s s' -> alarm_of s' p = alarm_of s p.
Proof.
  intros H. specialize (H p). unfold alarm_of. destruct (procs s' !! p), (procs s !! p); simpl in *; congruence.
Qed.

Lemma same_timers_rearms s s' AL tick p :
  same_timers s s' -> rearms_due s' AL tick p -> rearms_due s AL tick p.
Proof.
  intros H (Hp & x & Hx & Hd & Hi & Hw). split; [auto|]. specialize (H p). rewrite Hx in H. simpl in H.
  destruct (procs s !! p) as [y|]; simpl in H; [|discriminate]. injection H as E1 E2.
  exists y. rewrite <- E1, <- E2. auto.
Qed.

Lemma itimers_mask m my : is_u32 m -> 0 <= my < SCHED_MAX_CPUS ->
  is_u32 (Z.land m (u32 (Z.lnot (Z.shiftl 1 my)))) /\
  (Z.to_nat (countb (Z.testbit (Z.land m (u32 (Z.lnot (Z.shiftl 1 my))))) 32) < 33)%nat.
Proof.
  intros Hm Hmy. split; [apply is_u32_land; auto|].
  pose proof (countb_range (Z.testbit (Z.land m (u32 (Z.lnot (Z.shiftl 1 my))))) 32). lia.
Qed.

Lemma if_running_timers f x : same_place x (f x) -> alarm_interval (f x) = alarm_interval x ->
  alarm_tick (if_running f x) = alarm_tick x /\ alarm_interval (if_running f x) = alarm_interval x.
Proof. intros (_ & _ & _ & _ & E) E'. unfold if_running. case_match; auto. Qed.

Lemma process_wake_check_ok s Q SL AL G my tick afuel :
  sched_ok None s Q SL AL G -> 0 <= my < SCHED_MAX_CPUS -> (length AL < afuel)%nat ->
  (forall p, ~ rearms_due s AL tick p) ->
  exists s' AL', process_wake_check afuel my s tick = Ok s' /\
    sched_ok None s' (wake_all s Q (filter (fun p => wake_of s p <= tick) SL)) (filter (fun p => tick < wake_of s p) SL) AL' G /\
    same_list s s' /\ AL' ≡ₚ filter (stays_armed s tick) AL /\
    (forall p, procs s' !! p = after_tick s SL AL my tick p <$> procs s !! p).
Proof.
  intros H Hmy Hf Hr. unfold process_wake_check.
  destruct (Z.eqb_spec (ready_queue_head s) 0) as [E|_].
  { exfalso. assert (Hz : is_Some (procs s !! 0)) by (apply (so_procs _ _ _ _ _ _ H); rewrite E; set_solver).
    rewrite (so_zero _ _ _ _ _ _ H) in Hz. destruct Hz; discriminate. }
  destruct (on_running_ok s Q SL AL G my charge_tick H Hmy charge_same)
    as (s1 & -> & H1 & L1 & R1 & _ & P1). rewrite res_bind_ok.
  destruct (wake_sleepers_ok (nprocs s1) s1 Q SL AL G tick 0 H1 (sleep_fuel H1) ltac:(split; lia))
    as (m & s2 & -> & Hm & H2 & L2 & _ & P2). rewrite res_bind_ok.
  assert (T1 : same_timers s s1).
  { apply (same_timers_map _ _ _ P1). intros p x. destruct (p =? _); [|auto].
    apply if_running_timers; auto using charge_same. }
  assert (T2 : same_timers s1 s2).
  { apply (same_timers_map _ _ _ P2). intros p x. destruct (sleep_due s1 SL tick p); [|auto].
    unfold boosted. case_match; auto. }
  assert (T : same_timers s s2) by (intros p; rewrite (T2 p); apply T1).
  destruct (fire_alarms_ok afuel s2 _ _ AL G tick H2) as (s3 & AL3 & -> & H3 & L3 & A3 & P3).
  { eapply Nat.le_lt_trans; [apply length_filter|exact Hf]. }
  { intros p Hp. eapply Hr, same_timers_rearms; eauto. }
  rewrite res_bind_ok. destruct (on_running_ok s3 _ _ _ G my tick_itimers H3 Hmy itimers_same)
    as (s4 & -> & H4 & L4 & _ & _ & P4). rewrite res_bind_ok.
  destruct (itimers_mask m my Hm Hmy) as [Hm' Hc'].
  destruct (send_ipis_ok 33 None my s4 _ _ _ G _ H4 Hm' Hc') as (l & -> & H5).
  assert (Hw : forall p, wake_of s1 p = wake_of s p).
  { intros p. unfold wake_of. rewrite P1. destruct (procs s !! p); [|reflexivity]. simpl.
    destruct (p =? _); [|reflexivity]. unfold if_running. case_match; reflexivity. }
  assert (L : same_list s s4) by eauto using same_list_trans.
  assert (Ew : forall p, wake_of s1 p <= tick <-> wake_of s p <= tick) by (intros p; rewrite Hw; reflexivity).
  assert (Ew' : forall p, tick < wake_of s1 p <-> tick < wake_of s p) by (intros p; rewrite Hw; reflexivity).
  rewrite (list_filter_iff _ _ SL Ew), (list_filter_iff _ _ SL Ew'), (wake_all_ext s s1) in H5.
  2: { intros c. rewrite R1. reflexivity. }
  2: { intros p x' _ Hx'. rewrite P1 in Hx'. destruct (procs s !! p) as [x|]; [|discriminate]. exists x. split; [reflexivity|].
    simpl in Hx'. injection Hx' as <-. destruct (p =? _); [|auto]. unfold if_running. destruct (is_state _ _); auto. }
  2: { intros p _ [x Hx]. rewrite P1, Hx. eauto. }
  eexists _, AL3. split; [reflexivity|]. split; [exact H5|]. split; [exact L|].
  split.
  { rewrite A3. apply Permutation_refl', filter_iff_in. intros p _. unfold stays_armed.
    rewrite (same_timers_alarm_of s s2) by auto. specialize (T p).
    destruct (procs s2 !! p), (procs s !! p); simpl in *; try discriminate; [|reflexivity]. injection T as _ ->. reflexivity. }
  intros p. simpl. rewrite P4, P3, P2, P1. unfold after_tick.
  replace (current s3) with (current s) by (symmetry; apply (same_list_trans s s1 s3); eauto using same_list_trans).
  replace (sleep_due s1 SL tick p) with (sleep_due s SL tick p) by (unfold sleep_due; rewrite Hw; reflexivity).
  replace (alarm_due s2 AL tick p) with (alarm_due s AL tick p)
    by (unfold alarm_due; rewrite (same_timers_alarm_of s s2) by auto; reflexivity).
  destruct (procs s !! p); [|reflexivity]. simpl. f_equal. repeat (case_match; try reflexivity).
Qed.

Lemma sched_ap_tick_ok s Q SL AL G my :
  sched_ok None s Q SL AL G -> 0 <= my < SCHED_MAX_CPUS ->
  exists s', sched_ap_tick my s = Ok s' /\ sched_ok None s' Q SL AL G /\ same_list s s' /\
    (forall p, procs s' !! p = (if p =? arr_at (current s) my
       then if_running (fun x => tick_itimers (charge_tick x)) else id) <$> procs s !! p).
Proof.
  intros H Hmy. unfold sched_ap_tick.
  destruct (on_running_ok s Q SL AL G my (fun x => tick_itimers (charge_tick x)) H Hmy)
    as (s' & E & H' & L & _ & _ & P); [|eauto 10].
  intros x. eapply same_place_trans; [apply charge_same|apply itimers_same].
Qed.

Lemma process_alarm_set_ok s Q SL AL G p x tick :
  sched_ok None s Q SL AL G -> procs s !! p = Some x ->
  exists s' AL', process_alarm_set s p tick = Ok (alarm_tick x, s') /\
    sched_ok None s' Q SL AL' G /\ same_list s s' /\
    procs s' = <[p := set_alarm_tick tick x]> (procs s) /\
    (forall q, q ∈ AL' <-> if q =? p then tick <> 0 else q ∈ AL).
Proof.
  intros H Hx. unfold process_alarm_set. rewrite (getp_ok _ _ _ Hx), res_bind_ok.
  destruct (alarm_remove_ok H p x Hx) as (q & Hq & H1). rewrite Hq, res_bind_ok.
  set (AL1 := filter (fun y => y <> p) AL) in *.
  assert (Hni : p ∉ AL1) by (intros Hf; apply list_elem_of_filter in Hf as [Hf _]; auto).
  assert (H2 : forall t, sched_ok None (set_procs (<[p := set_alarm_tick t x]> (procs s)) (set_alarmq q s)) Q SL AL1 G).
  { intros t. eapply (sched_ok_alarm _ (set_alarmq q s)); eauto. }
  assert (Hin : forall r, r <> p -> r ∈ AL1 <-> r ∈ AL).
  { intros r Hr. unfold AL1. rewrite list_elem_of_filter. tauto. }
  destruct (Z.eqb_spec tick 0) as [->|Hn]; cbn [negb]; rewrite (updp_ok (set_alarmq q s) p x), res_bind_ok by exact Hx.
  - eexists _, AL1. split; [reflexivity|]. split; [apply H2|]. split; [red; auto 10|]. split; [reflexivity|].
    intros r. destruct (Z.eqb_spec r p) as [->|]; [tauto|auto].
  - destruct (alarm_insert_ok (H2 tick) p (set_alarm_tick tick x)) as (q2 & AL2 & Hi & Hins & H3);
      [apply lookup_insert_eq|auto|].
    change (procs (set_alarmq q s)) with (procs s). rewrite Hi, res_bind_ok. eexists _, AL2. split; [reflexivity|]. split; [exact H3|]. split; [red; auto 10|].
    split; [reflexivity|]. destruct Hins as (l1 & l2 & E & -> & _). intros r.
    destruct (Z.eqb_spec r p) as [->|Hrp]; [set_solver|]. rewrite <- Hin by auto. rewrite E. set_solver.
Qed.
