(* ===== verification/Itimer.v ===== *)
(** Interval timers (src/kernel/syscall.c: [alarm], [setitimer], [getitimer]): the
    timers of the current process, counted in ticks.  They keep the scheduler's
    invariant, and what is set is what is read.

    What the calls copy from and to user memory are arguments: [new] is the value
    read from [user_new] ([UNull] for a null pointer, [UFault] when the copy fails),
    [old] says how the copy to [user_old] ends. *)

From S2P Require Import Prelude Bitmap Ring Runq SortedQ AsRef SchedState Sched SchedFrame SchedInv SchedSpec SchedTick.

Definition TICKS_PER_SEC : Z := 100.
Definition USEC_PER_TICK : Z := 1000000 / TICKS_PER_SEC.
Definition EFAULT : Z := 14.
Definition ITIMER_REAL : Z := 0.
Definition ITIMER_VIRTUAL : Z := 1.
Definition ITIMER_PROF : Z := 2.

Record k_timeval : Type := Timeval { tv_sec : Z; tv_usec : Z }.
Record k_itimerval : Type := Itimerval { it_interval : k_timeval; it_value : k_timeval }.

Definition timeval_zero : k_timeval := Timeval 0 0.
Definition itimerval_zero : k_itimerval := Itimerval timeval_zero timeval_zero.

Definition timeval_to_ticks (tv : k_timeval) : Z :=
  u32 (u32 (tv_sec tv * TICKS_PER_SEC) + tv_usec tv / USEC_PER_TICK).
Definition ticks_to_timeval (ticks : Z) : k_timeval :=
  Timeval (ticks / TICKS_PER_SEC) (u32 (ticks mod TICKS_PER_SEC * USEC_PER_TICK)).

Inductive user (A : Type) : Type :=
| UNull
| UFault
| UVal (v : A).
Arguments UNull {A}.
Arguments UFault {A}.
Arguments UVal {A} v.

Definition sys_alarm (my : Z) (s : sched) (now seconds : Z) : res (Z * sched) :=
  c ← cur s my;
  if c =? 0 then mret (0, s)
  else
    let new_tick := if seconds =? 0 then 0 else u32 (now + u32 (seconds * TICKS_PER_SEC)) in
    s ← updp s c (set_alarm_interval 0);
    '(old_tick, s) ← process_alarm_set s c new_tick;
    mret (if now <? old_tick then u32 (u32 (old_tick - now) / TICKS_PER_SEC + 1) else 0, s).

(** The values of a timer of [x] at tick [now]; [None]: no such timer. *)
Definition itimer_get (x : proc) (which now : Z) : option k_itimerval :=
  if which =? ITIMER_REAL then
    Some (Itimerval (ticks_to_timeval (alarm_interval x))
            (if now <? alarm_tick x then ticks_to_timeval (u32 (alarm_tick x - now)) else timeval_zero))
  else if which =? ITIMER_VIRTUAL then
    Some (Itimerval (ticks_to_timeval (itimer_virt_interval x)) (ticks_to_timeval (itimer_virt_value x)))
  else if which =? ITIMER_PROF then
    Some (Itimerval (ticks_to_timeval (itimer_prof_interval x)) (ticks_to_timeval (itimer_prof_value x)))
  else None.

Definition itimer_set (s : sched) (c : Z) (which now : Z) (v : k_itimerval) : res sched :=
  let val_ticks := timeval_to_ticks (it_value v) in
  let int_ticks := timeval_to_ticks (it_interval v) in
  if which =? ITIMER_REAL then
    s ← updp s c (set_alarm_interval int_ticks);
    '(_, s) ← process_alarm_set s c (if val_ticks =? 0 then 0 else u32 (now + val_ticks));
    mret s
  else if which =? ITIMER_VIRTUAL then
    updp s c (fun x => x |> set_itimer_virt_value val_ticks |> set_itimer_virt_interval int_ticks)
  else updp s c (fun x => x |> set_itimer_prof_value val_ticks |> set_itimer_prof_interval int_ticks).

(** [old]: [UNull] no old value wanted, [UFault] it cannot be stored. The value
    stored is the second result. *)
Definition sys_setitimer (my : Z) (s : sched) (now which : Z) (new : user k_itimerval) (old : user unit)
    : res (Z * option k_itimerval * sched) :=
  c ← cur s my;
  if c =? 0 then mret (- EINVAL, None, s)
  else
    match new with
    | UFault => mret (- EFAULT, None, s)
    | _ =>
        let knew := match new with UVal v => v | _ => itimerval_zero end in
        x ← getp s c;
        match itimer_get x which now, old with
        | None, _ => mret (- EINVAL, None, s)
        | Some _, UFault => mret (- EFAULT, None, s)
        | Some _, UNull => s ← itimer_set s c which now knew; mret (0, None, s)
        | Some kold, UVal _ => s ← itimer_set s c which now knew; mret (0, Some kold, s)
        end
    end.

Definition sys_getitimer (my : Z) (s : sched) (now which : Z) (out : user unit) : res (Z * option k_itimerval) :=
  c ← cur s my;
  if c =? 0 then mret (- EINVAL, None)
  else
    match out with
    | UNull => mret (- EFAULT, None)
    | _ =>
        x ← getp s c;
        match itimer_get x which now, out with
        | None, _ => mret (- EINVAL, None)
        | Some _, UVal _ => mret (0, itimer_get x which now)
        | Some _, _ => mret (- EFAULT, None)
        end
    end.

(** ** Conversions *)

Lemma timeval_ticks t : is_u32 t -> timeval_to_ticks (ticks_to_timeval t) = t.
Proof.
  unfold is_u32. intros Ht. unfold timeval_to_ticks, ticks_to_timeval. simpl.
  change USEC_PER_TICK with 10000. change TICKS_PER_SEC with 100.
  pose proof (Z.mod_pos_bound t 100 ltac:(lia)). pose proof (Z.div_mod t 100 ltac:(lia)).
  rewrite (u32_small (t mod 100 * 10000)) by lia. rewrite Z.div_mul by lia.
  rewrite (u32_small (t / 100 * 100)) by lia. rewrite u32_small by lia. lia.
Qed.

Lemma timeval_to_ticks_u32 v : is_u32 (timeval_to_ticks v).
Proof. unfold timeval_to_ticks. apply u32_range. Qed.

(** ** Setting *)

Definition timer_set (which now : Z) (v : k_itimerval) (x : proc) : proc :=
  let val := timeval_to_ticks (it_value v) in
  let int := timeval_to_ticks (it_interval v) in
  if which =? ITIMER_REAL then
    x |> set_alarm_interval int |> set_alarm_tick (if val =? 0 then 0 else u32 (now + val))
  else if which =? ITIMER_VIRTUAL then x |> set_itimer_virt_value val |> set_itimer_virt_interval int
  else x |> set_itimer_prof_value val |> set_itimer_prof_interval int.

Lemma itimer_set_ok s Q SL AL G c x which now v :
  sched_ok None s Q SL AL G -> procs s !! c = Some x ->
  exists s' AL', itimer_set s c which now v = Ok s' /\ sched_ok None s' Q SL AL' G /\ same_list s s' /\
    procs s' = <[c := timer_set which now v x]> (procs s) /\ frame s s'.
Proof.
  intros H Hx. unfold itimer_set, timer_set. cbv zeta. set (val := timeval_to_ticks _). set (int := timeval_to_ticks _).
  destruct (which =? ITIMER_REAL).
  - rewrite (updp_ok s c x), res_bind_ok by auto. set (s1 := set_procs _ s).
    assert (H1 : sched_ok None s1 Q SL AL G) by (eapply sched_ok_same; eauto; red; auto 10).
    destruct (process_alarm_set_ok s1 Q SL AL G c (set_alarm_interval int x) (if val =? 0 then 0 else u32 (now + val)) H1
      (lookup_insert_eq _ _ _)) as (s' & AL' & Hr & H' & L & P & _).
    rewrite Hr, res_bind_ok. exists s', AL'. split; [reflexivity|]. split; [auto|]. split; [exact L|].
    split; [rewrite P; unfold s1; simpl; rewrite insert_insert_eq; reflexivity|].
    eapply frame_trans; [|eapply frame_alarm_set; exact Hr]. unfold s1. eapply frame_procs; [exact Hx|reflexivity|auto].
  - destruct (which =? ITIMER_VIRTUAL); rewrite (updp_ok s c x) by auto; eexists _, AL; (split; [reflexivity|]);
      (split; [eapply sched_ok_same; eauto; red; auto 10|]); (split; [red; auto 10|]); (split; [reflexivity|]);
      (eapply frame_procs; [exact Hx|reflexivity|auto]).
Qed.

(** ** The system calls *)

Section calls.
Context {s : sched} {Q : Z -> Z -> Z -> list Z} {SL AL G : list Z} (H : sched_ok None s Q SL AL G).
Context (my : Z) (x : proc) (Hc : cur s my = Ok (arr_at (current s) my)) (Hx : procs s !! arr_at (current s) my = Some x).

Lemma sys_alarm_ok now seconds :
  exists r s' AL', sys_alarm my s now seconds = Ok (r, s') /\ sched_ok None s' Q SL AL' G /\ frame s s'.
Proof.
  unfold sys_alarm. rewrite Hc, res_bind_ok. destruct (Z.eqb_spec (arr_at (current s) my) 0) as [|_];
    [eexists _, s, AL; split; [reflexivity|]; auto using frame_refl|].
  rewrite (updp_ok s _ x), res_bind_ok by auto. set (s1 := set_procs _ s).
  assert (H1 : sched_ok None s1 Q SL AL G) by (eapply sched_ok_same; eauto; red; auto 10).
  destruct (process_alarm_set_ok s1 Q SL AL G _ (set_alarm_interval 0 x)
    (if seconds =? 0 then 0 else u32 (now + u32 (seconds * TICKS_PER_SEC))) H1 (lookup_insert_eq _ _ _))
    as (s' & AL' & Hr & H' & _).
  rewrite Hr, res_bind_ok. eexists _, s', AL'. split; [reflexivity|]. split; [auto|].
  eapply frame_trans; [|eapply frame_alarm_set; exact Hr]. unfold s1. eapply frame_procs; [exact Hx|reflexivity|auto].
Qed.

(** On success the timer of the caller is set; on an error nothing changes. *)
Definition setitimer_result (now which : Z) (v : k_itimerval) (r : res (Z * option k_itimerval * sched)) : Prop :=
  exists n k s' AL', r = Ok (n, k, s') /\ sched_ok None s' Q SL AL' G /\ frame s s' /\
    (n = 0 -> procs s' = <[arr_at (current s) my := timer_set which now v x]> (procs s)) /\ (n <> 0 -> s' = s).

Lemma sys_setitimer_ok now which new old :
  setitimer_result now which (match new with UVal v => v | _ => itimerval_zero end) (sys_setitimer my s now which new old).
Proof.
  set (v := match new with UVal v => v | _ => itimerval_zero end).
  assert (Hid : forall r k, r <> 0 -> setitimer_result now which v (Ok (r, k, s))).
  { intros r k Hr0. exists r, k, s, AL. split_and!; auto using frame_refl. contradiction. }
  assert (Hok : forall k, setitimer_result now which v
    (s ← itimer_set s (arr_at (current s) my) which now v; mret (0, k, s))).
  { intros k. destruct (itimer_set_ok s Q SL AL G _ x which now v H Hx) as (s' & AL' & Hr & H' & _ & P & F).
    rewrite Hr, res_bind_ok. exists 0, k, s', AL'. split_and!; auto. contradiction. }
  unfold sys_setitimer. rewrite Hc, res_bind_ok.
  destruct (Z.eqb_spec (arr_at (current s) my) 0) as [|_]; [apply Hid; discriminate|].
  destruct new as [| |w]; [|apply Hid; discriminate|];
    cbv zeta; rewrite (getp_ok _ _ _ Hx), res_bind_ok; destruct (itimer_get x which now);
    try (apply Hid; discriminate); destruct old; solve [apply Hok|apply Hid; discriminate].
Qed.
End calls.

(** The timer reads as it was set, in whole ticks. *)
Definition in_ticks (v : k_itimerval) : k_itimerval :=
  Itimerval (ticks_to_timeval (timeval_to_ticks (it_interval v))) (ticks_to_timeval (timeval_to_ticks (it_value v))).

Lemma timer_set_get which now v x :
  0 <= which <= 2 -> 0 <= now -> now + timeval_to_ticks (it_value v) < 4294967296 ->
  itimer_get (timer_set which now v x) which now = Some (in_ticks v).
Proof.
  intros Hw Hnow Hlt. pose proof (timeval_to_ticks_u32 (it_value v)) as Hv. unfold is_u32 in Hv.
  unfold itimer_get, timer_set, in_ticks. cbv zeta. set (val := timeval_to_ticks (it_value v)) in *.
  destruct (Z.eqb_spec which ITIMER_REAL) as [->|].
  - simpl. f_equal. f_equal. destruct (Z.eqb_spec val 0) as [->|].
    + destruct (Z.ltb_spec now 0); [lia|]. reflexivity.
    + rewrite u32_small by lia. destruct (Z.ltb_spec now (now + val)); [|lia]. f_equal.
      replace (now + val - now) with val by lia. apply u32_small. lia.
  - destruct (Z.eqb_spec which ITIMER_VIRTUAL) as [->|]; [reflexivity|].
    assert (which = ITIMER_PROF) as -> by (unfold ITIMER_REAL, ITIMER_VIRTUAL, ITIMER_PROF in *; lia). reflexivity.
Qed.
