(* ===== verification/SchedOps.v ===== *)
(** Signals, sleeping, blocking and load balancing keep the scheduler's
    invariant; [process_kill_pgrp] reaches every member of the group when the
    sender may signal all of them, and never returns otherwise. *)

From Stdlib Require Import Sorting.Sorted.
From S2P Require Import Prelude Bitmap Ring Runq SortedQ AsRef SchedState Sched SchedInv SchedSpec SchedTick.

(** ** Signals *)

(** What a process that gets signal [sig] becomes. *)
Definition signalled (sig : Z) (x : proc) : proc :=
  let y := raise_sig sig x in
  if is_state (state x) PROCESS_BLOCKED || is_state (state x) PROCESS_SLEEPING
  then set_state PROCESS_READY y else y.

Lemma signal_ok s Q SL AL G p x sig :
  sched_ok None s Q SL AL G -> procs s !! p = Some x ->
  exists s' Q' SL', (s ← updp s p (raise_sig sig); wake_interruptible s p (cpu_id x)) = Ok s' /\
    sched_ok None s' Q' SL' AL G /\ same_list s s' /\ procs s' = <[p := signalled sig x]> (procs s).
Proof.
  intros H Hx. rewrite (updp_ok s p x), res_bind_ok by auto.
  pose proof (sched_ok_same _ _ _ _ _ _ p x _ H Hx (raise_same sig x)) as H1.
  destruct (raise_same sig x) as (E1 & _ & E3 & _ & _).
  destruct (wake_interruptible_ok H1 (p := p) (x := raise_sig sig x))
    as (s' & Q' & SL' & Hr & H2 & L & P); [apply lookup_insert_eq|].
  rewrite E1 in Hr. exists s', Q', SL'. split; [exact Hr|]. split; [exact H2|].
  split; [exact L|]. rewrite P. simpl. rewrite insert_insert_eq. unfold signalled. rewrite E3. reflexivity.
Qed.

(** Whether the sender [c] (0 for none) may not signal [x]. *)
Definition denied (s : sched) (c : Z) (x : proc) : bool :=
  if c =? 0 then false
  else match procs s !! c with Some cx => no_permission cx x | None => false end.

Lemma denied_ok s c x :
  (c <> 0 -> is_Some (procs s !! c)) ->
  (if c =? 0 then mret false else cx ← getp s c; mret (no_permission cx x)) = Ok (denied s c x).
Proof.
  intros Hc. unfold denied. destruct (Z.eqb_spec c 0); [reflexivity|].
  destruct (Hc ltac:(auto)) as [cx Hcx]. rewrite (getp_ok _ _ _ Hcx), Hcx. reflexivity.
Qed.

Lemma current_some s Q SL AL G my :
  sched_ok None s Q SL AL G -> 0 <= my < SCHED_MAX_CPUS ->
  cur s my = Ok (arr_at (current s) my) /\
  (arr_at (current s) my <> 0 -> is_Some (procs s !! arr_at (current s) my)).
Proof.
  intros H Hmy. destruct (so_cpus _ _ _ _ _ _ H) as (Hcl & _ & _). split.
  - unfold cur. apply arr_get_ok. lia.
  - intros Hn. destruct (so_current _ _ _ _ _ _ H my Hmy Hn) as (x & -> & _). eauto.
Qed.

(** The return value of [process_kill_other] and what becomes of the target. *)
Definition kill_result (s : sched) (c pd sig : Z) (p : Z) (x : proc) : Z * option proc :=
  if is_state (state x) PROCESS_ZOMBIE then (0, None)
  else if denied s c x then (- EPERM, None)
  else (0, Some (signalled sig x)).

Lemma ipi_same_list my s c : same_list s (sched_ipi_resched my s c).
Proof. unfold sched_ipi_resched, emit. destruct (c =? my); red; auto 10. Qed.
Lemma ipi_procs my s c : procs (sched_ipi_resched my s c) = procs s.
Proof. unfold sched_ipi_resched, emit. destruct (c =? my); reflexivity. Qed.

Lemma process_kill_other_ok s Q SL AL G my pd sig :
  sched_ok None s Q SL AL G -> 0 <= my < SCHED_MAX_CPUS -> pd <> 0 -> 0 < sig < PROCESS_MAX_SIG ->
  exists r s' Q' SL', process_kill_other my s pd sig = Ok (r, s') /\
    sched_ok None s' Q' SL' AL G /\ same_list s s' /\
    ((r = - ESRCH /\ s' = s /\ forall p x, procs s !! p = Some x -> pid x <> pd) \/
     exists p x, procs s !! p = Some x /\ pid x = pd /\
       let '(v, y) := kill_result s (arr_at (current s) my) pd sig p x in
       r = v /\ procs s' = match y with Some y => <[p := y]> (procs s) | None => procs s end).
Proof.
  intros H Hmy Hpd Hsig. unfold process_kill_other.
  destruct (Z.eqb_spec pd 0); [contradiction|].
  destruct (Z.leb_spec sig 0), (Z.leb_spec PROCESS_MAX_SIG sig); try lia. cbn [orb].
  destruct (current_some _ _ _ _ _ my H Hmy) as [-> Hc]. rewrite res_bind_ok.
  destruct (process_find_ok None s Q SL AL G pd H) as (p & -> & Hcase). rewrite res_bind_ok.
  destruct Hcase as [[-> Hno]|(x & Hx & Epd)].
  { eexists _, s, Q, SL. split; [reflexivity|]. split_and!; auto using same_list_refl. }
  destruct (Z.eqb_spec p 0); [exfalso; eapply so_nonzero; eauto|].
  rewrite (getp_ok _ _ _ Hx), res_bind_ok. destruct (Z.eqb_spec (pid x) 0); [congruence|].
  assert (Hno : forall r, exists s' Q' SL', (Ok (r, s) : res (Z * sched)) = Ok (r, s') /\
    sched_ok None s' Q' SL' AL G /\ same_list s s' /\ procs s' = procs s).
  { intros r. exists s, Q, SL. split_and!; auto using same_list_refl. }
  unfold kill_result.
  destruct (is_state (state x) PROCESS_ZOMBIE) eqn:Ez.
  { destruct (Hno 0) as (s' & Q' & SL' & Hr & H' & L & P). exists 0, s', Q', SL'. split_and!; auto.
    right. exists p, x. rewrite Ez. auto. }
  rewrite (denied_ok _ _ _ Hc), res_bind_ok.
  destruct (denied s (arr_at (current s) my) x) eqn:Ed.
  { destruct (Hno (- EPERM)) as (s' & Q' & SL' & Hr & H' & L & P). exists (- EPERM), s', Q', SL'.
    split_and!; auto. right. exists p, x. rewrite Ez, Ed. auto. }
  destruct (so_bounds _ _ _ _ _ _ H p x Hx) as [_ Hcpu]. rewrite clamp_id by auto.
  destruct (signal_ok _ _ _ _ _ p x sig H Hx) as (s' & Q' & SL' & Hr & H' & L & P).
  rewrite (res_bind_then _ _ _ _ Hr).
  exists 0, (sched_ipi_resched my s' (cpu_id x)), Q', SL'. split; [reflexivity|].
  split; [apply sched_ok_ipi; auto|]. split; [eapply same_list_trans; [exact L|apply ipi_same_list]|].
  right. exists p, x. rewrite Ez, Ed, ipi_procs. auto.
Qed.

(** ** Process groups *)

Definition in_pgrp (pgrp : Z) (x : proc) : bool :=
  (pgrp_id x =? pgrp) && negb (pid x =? 0) && negb (is_state (state x) PROCESS_ZOMBIE).

Lemma signalled_creds sig x :
  uid (signalled sig x) = uid x /\ euid (signalled sig x) = euid x /\
  pgrp_id (signalled sig x) = pgrp_id x /\ pid (signalled sig x) = pid x.
Proof. unfold signalled, raise_sig. repeat case_match; simpl; auto. Qed.

Lemma signalled_zombie sig x :
  is_state (state (signalled sig x)) PROCESS_ZOMBIE = is_state (state x) PROCESS_ZOMBIE.
Proof.
  assert (E : state (signalled sig x) = if is_state (state x) PROCESS_BLOCKED || is_state (state x) PROCESS_SLEEPING
    then PROCESS_READY else state x).
  { unfold signalled. destruct (raise_same sig x) as (_ & _ & E & _). case_match; auto. }
  rewrite E. destruct (state x); reflexivity.
Qed.

Lemma signalled_in_pgrp sig pgrp x : in_pgrp pgrp (signalled sig x) = in_pgrp pgrp x.
Proof.
  unfold in_pgrp. destruct (signalled_creds sig x) as (_ & _ & -> & ->). rewrite signalled_zombie. reflexivity.
Qed.

(** Signals sent before do not change who may be signalled. *)
Lemma denied_signalled s s' c sig p x y :
  procs s !! p = Some x -> procs s' = <[p := signalled sig x]> (procs s) ->
  denied s' c y = denied s c y.
Proof.
  intros Hx E. unfold denied. rewrite E. destruct (c =? 0); [reflexivity|].
  destruct (decide (p = c)) as [->|]; [|rewrite lookup_insert_ne by auto; reflexivity].
  rewrite lookup_insert_eq, Hx. unfold no_permission.
  destruct (signalled_creds sig x) as (-> & -> & _). reflexivity.
Qed.

Lemma no_permission_target cx x y : uid x = uid y -> no_permission cx x = no_permission cx y.
Proof. unfold no_permission. intros ->. reflexivity. Qed.

Lemma denied_target s c sig x : denied s c (signalled sig x) = denied s c x.
Proof.
  unfold denied. destruct (c =? 0); [reflexivity|]. destruct (procs s !! c); [|reflexivity].
  apply no_permission_target, signalled_creds.
Qed.

Lemma kill_pgrp_body_ok s Q SL AL G c it x pgrp sig found mask :
  sched_ok None s Q SL AL G -> procs s !! it = Some x -> (c <> 0 -> is_Some (procs s !! c)) -> is_u32 mask ->
  if in_pgrp pgrp x && denied s c x
  then kill_pgrp_body s c it pgrp sig found mask = Ok (true, found, mask, s)
  else exists s' Q' SL' mask',
    kill_pgrp_body s c it pgrp sig found mask = Ok (false, found || in_pgrp pgrp x, mask', s') /\
    is_u32 mask' /\ sched_ok None s' Q' SL' AL G /\ same_list s s' /\
    procs s' = if in_pgrp pgrp x then <[it := signalled sig x]> (procs s) else procs s.
Proof.
  intros H Hx Hc Hm. unfold kill_pgrp_body. rewrite (getp_ok _ _ _ Hx), res_bind_ok.
  fold (in_pgrp pgrp x). destruct (in_pgrp pgrp x); cbn [andb].
  - rewrite (denied_ok _ _ _ Hc), res_bind_ok. destruct (denied s c x); [reflexivity|].
    destruct (so_bounds _ _ _ _ _ _ H it x Hx) as [_ Hcpu]. rewrite clamp_id by auto.
    destruct (signal_ok _ _ _ _ _ it x sig H Hx) as (s' & Q' & SL' & Hr & H' & L & P).
    rewrite (res_bind_then _ _ _ _ Hr). rewrite orb_true_r.
    eexists s', Q', SL', _. split; [reflexivity|]. split_and!; auto. apply or_bit_u32; auto.
  - rewrite orb_false_r. exists s, Q, SL, mask. split_and!; auto using same_list_refl.
Qed.

(** The rest of the process list, from [it] on. *)
Definition group_denied (s : sched) (c pgrp : Z) (l : list Z) : Prop :=
  exists p x, p ∈ l /\ procs s !! p = Some x /\ in_pgrp pgrp x = true /\ denied s c x = true.

Definition hit (pgrp sig : Z) (l : list Z) (p : Z) (x : proc) : proc :=
  if bool_decide (p ∈ l) && in_pgrp pgrp x then signalled sig x else x.

Lemma hit_cons pgrp sig it l s p x s1 :
  procs s !! it = Some x -> it ∉ l ->
  procs s1 = (if in_pgrp pgrp x then <[it := signalled sig x]> (procs s) else procs s) ->
  hit pgrp sig l p <$> procs s1 !! p = hit pgrp sig (it :: l) p <$> procs s !! p.
Proof.
  intros Hx Hni ->. unfold hit. destruct (decide (it = p)) as [<-|Hne].
  - rewrite (bool_decide_eq_false_2 (it ∈ l)), (bool_decide_eq_true_2 (it ∈ it :: l)) by set_solver.
    rewrite Hx. destruct (in_pgrp pgrp x) eqn:E; [rewrite lookup_insert_eq|rewrite Hx]; simpl; rewrite ?E; reflexivity.
  - rewrite (bool_decide_ext (p ∈ it :: l) (p ∈ l)) by set_solver.
    destruct (in_pgrp pgrp x); [rewrite lookup_insert_ne by auto|]; reflexivity.
Qed.

(** Signalling [it] changes nothing about the others' chances. *)
Lemma group_step s s1 c pgrp sig it x y p :
  procs s !! it = Some x ->
  procs s1 = (if in_pgrp pgrp x then <[it := signalled sig x]> (procs s) else procs s) ->
  denied s1 c y = denied s c y /\
  (forall z, procs s !! p = Some z -> exists z', procs s1 !! p = Some z' /\
     in_pgrp pgrp z' = in_pgrp pgrp z /\ denied s1 c z' = denied s c z).
Proof.
  intros Hx E. assert (Hd : forall y, denied s1 c y = denied s c y).
  { intros y'. destruct (in_pgrp pgrp x); [eapply denied_signalled; eauto|unfold denied; rewrite E; reflexivity]. }
  split; [auto|]. intros z Hz. rewrite E. destruct (in_pgrp pgrp x); [|exists z; rewrite Hd; auto].
  destruct (decide (it = p)) as [->|]; [|exists z; rewrite lookup_insert_ne, Hd by auto; auto].
  rewrite Hx in Hz. injection Hz as <-. exists (signalled sig x).
  rewrite lookup_insert_eq, signalled_in_pgrp, Hd, denied_target. auto.
Qed.

Lemma group_denied_step s s1 c pgrp sig it x l :
  procs s !! it = Some x ->
  procs s1 = (if in_pgrp pgrp x then <[it := signalled sig x]> (procs s) else procs s) ->
  (forall p, p ∈ l -> is_Some (procs s !! p)) ->
  group_denied s1 c pgrp l <-> group_denied s c pgrp l.
Proof.
  intros Hx E Hl. unfold group_denied. split.
  - intros (p & z & Hp & Hz & Hg & Hd). destruct (Hl p Hp) as [z0 Hz0].
    destruct (group_step s s1 c pgrp sig it x z p Hx E) as [_ Hs].
    destruct (Hs z0 Hz0) as (z' & Hz' & E1 & E2). rewrite Hz in Hz'. injection Hz' as <-.
    exists p, z0. rewrite <- E1, <- E2. auto.
  - intros (p & z & Hp & Hz & Hg & Hd).
    destruct (group_step s s1 c pgrp sig it x z p Hx E) as [_ Hs].
    destruct (Hs z Hz) as (z' & Hz' & E1 & E2). exists p, z'. rewrite E1, E2. auto.
Qed.

Section pgrp.
Context (c pgrp sig : Z).

Lemma kill_pgrp_loop_ok fuel : forall s Q SL AL G l1 it l2 found mask,
  sched_ok None s Q SL AL G -> ready_queue_head s :: G = l1 ++ it :: l2 -> (length l2 < fuel)%nat ->
  (c <> 0 -> is_Some (procs s !! c)) -> is_u32 mask -> ~ group_denied s c pgrp (it :: l2) ->
  exists found' mask' s' Q' SL',
    kill_pgrp_loop fuel s c it (ready_queue_head s) pgrp sig found mask = Ok (found', mask', s') /\
    is_u32 mask' /\ sched_ok None s' Q' SL' AL G /\ same_list s s' /\
    (found' = true <-> found = true \/
       exists p x, p ∈ it :: l2 /\ procs s !! p = Some x /\ in_pgrp pgrp x = true) /\
    (forall p, procs s' !! p = hit pgrp sig (it :: l2) p <$> procs s !! p).
Proof.
  induction fuel as [|fuel IH]; intros s Q SL AL G l1 it l2 found mask H El Hf Hc Hm Hnd; [lia|].
  cbn [kill_pgrp_loop].
  assert (Hall : forall p, p ∈ it :: l2 -> is_Some (procs s !! p))
    by (intros p Hp; apply (so_procs _ _ _ _ _ _ H); rewrite El; set_solver).
  assert (Hni : it ∉ l2).
  { destruct (so_ring _ _ _ _ _ _ H) as [_ Hn]. rewrite El in Hn.
    apply NoDup_app in Hn as (_ & _ & Hn). apply NoDup_cons in Hn. tauto. }
  destruct (Hall it) as [x Hx]; [set_solver|].
  pose proof (kill_pgrp_body_ok _ _ _ _ _ c it x pgrp sig found mask H Hx Hc Hm) as Hb.
  destruct (in_pgrp pgrp x && denied s c x) eqn:Ed.
  { exfalso. apply Hnd. apply andb_true_iff in Ed as [? ?]. exists it, x. split; [set_solver|auto]. }
  destruct Hb as (s1 & Q1 & SL1 & m1 & -> & Hm1 & H1 & L1 & P1). rewrite res_bind_ok.
  assert (Ln : pnext s1 = pnext s /\ ready_queue_head s1 = ready_queue_head s) by (split; apply L1).
  destruct Ln as [Ln Lh].
  rewrite Ln, (fget_ok _ _ _ (ring_succ _ _ _ _ _ _ _ (so_ring _ _ _ _ _ _ H) El)), res_bind_ok.
  assert (Hone : forall p y, procs s !! p = Some y -> p = it -> y = x) by (intros; congruence).
  destruct l2 as [|q l2]; simpl hd.
  - rewrite Z.eqb_refl, orb_true_r. eexists _, m1, s1, Q1, SL1. split; [reflexivity|].
    split_and!; auto; try apply L1.
    + rewrite orb_true_iff. split; [intros [?|?]; [auto|right; exists it, x; split; [set_solver|auto]]|].
      intros [?|(p & y & ->%list_elem_of_singleton & Hy & Hg)]; [auto|]. rewrite Hx in Hy. injection Hy as <-. auto.
    + intros p. rewrite <- (hit_cons pgrp sig it [] s p x s1) by auto. unfold hit.
      rewrite bool_decide_eq_false_2 by set_solver. destruct (procs s1 !! p); reflexivity.
  - destruct (ring_next_facts _ _ _ _ _ _ _ _ _ _ H El) as [Hq0 Hqh].
    destruct (Z.eqb_spec q 0), (Z.eqb_spec q (ready_queue_head s)); try tauto. cbn [orb]. rewrite <- Lh.
    destruct (IH s1 Q1 SL1 AL G (l1 ++ [it]) q l2 (found || in_pgrp pgrp x) m1 H1)
      as (found' & m' & s' & Q' & SL' & Hr & Hm' & H' & L' & Hfd & P'); auto.
    + rewrite Lh, El, <- app_assoc. reflexivity.
    + simpl in Hf. lia.
    + intros Hc0. destruct (Hc Hc0) as [cx Hcx].
      destruct (group_step s s1 c pgrp sig it x x c Hx P1) as [_ Hs].
      destruct (Hs cx Hcx) as (z & -> & _). eauto.
    + rewrite (group_denied_step s s1 c pgrp sig it x (q :: l2) Hx P1) by (intros; apply Hall; set_solver).
      intros (p & y & Hp & Hrest). apply Hnd. exists p, y. split; [set_solver|exact Hrest].
    + exists found', m', s', Q', SL'. split; [exact Hr|]. split; [auto|]. split; [auto|].
      split; [eapply same_list_trans; eauto|]. split.
      * rewrite Hfd, orb_true_iff. setoid_rewrite (elem_of_cons (q :: l2)). split.
        -- intros [[?|Hg]|(p & z & Hp & Hz & Hg)]; [auto|right; exists it, x; auto|right].
           destruct (Hall p ltac:(set_solver)) as [z0 Hz0].
           destruct (group_step s s1 c pgrp sig it x x p Hx P1) as [_ Hs].
           destruct (Hs z0 Hz0) as (z' & Hz' & E1 & _). exists p, z0. rewrite <- E1. split; [auto|].
           split; [auto|congruence].
        -- intros [?|(p & z & [->|Hp] & Hz & Hg)]; [auto|left; right; congruence|right].
           destruct (group_step s s1 c pgrp sig it x x p Hx P1) as [_ Hs].
           destruct (Hs z Hz) as (z' & Hz' & E1 & _). exists p, z'. rewrite E1. auto.
      * intros p. rewrite P'. apply (hit_cons pgrp sig it (q :: l2) s p x s1); auto.
Qed.

(** [continue] skips [it = it->next]: the loop stays at the first member the
    sender may not signal. *)
Lemma kill_pgrp_loop_diverges fuel : forall s Q SL AL G l1 it l2 found mask,
  sched_ok None s Q SL AL G -> ready_queue_head s :: G = l1 ++ it :: l2 ->
  (c <> 0 -> is_Some (procs s !! c)) -> is_u32 mask -> group_denied s c pgrp (it :: l2) ->
  (it = ready_queue_head s -> forall x, procs s !! it = Some x -> in_pgrp pgrp x = false) ->
  kill_pgrp_loop fuel s c it (ready_queue_head s) pgrp sig found mask = NoFuel.
Proof.
  induction fuel as [|fuel IH]; intros s Q SL AL G l1 it l2 found mask H El Hc Hm Hd Hh; [reflexivity|].
  cbn [kill_pgrp_loop].
  assert (Hall : forall p, p ∈ it :: l2 -> is_Some (procs s !! p))
    by (intros p Hp; apply (so_procs _ _ _ _ _ _ H); rewrite El; set_solver).
  destruct (Hall it) as [x Hx]; [set_solver|].
  pose proof (kill_pgrp_body_ok _ _ _ _ _ c it x pgrp sig found mask H Hx Hc Hm) as Hb.
  destruct (in_pgrp pgrp x && denied s c x) eqn:Ed.
  - rewrite Hb, res_bind_ok. cbn. change (mret it ≫= ?f) with (f it). cbv beta.
    destruct (Z.eqb_spec it 0); [exfalso; eapply so_nonzero; eauto|].
    destruct (Z.eqb_spec it (ready_queue_head s)) as [E|]; cbn [orb]; [|eapply IH; eauto].
    rewrite (Hh E x Hx) in Ed. discriminate.
  - destruct Hb as (s1 & Q1 & SL1 & m1 & -> & Hm1 & H1 & L1 & P1). rewrite res_bind_ok.
    assert (Ln : pnext s1 = pnext s /\ ready_queue_head s1 = ready_queue_head s) by (split; apply L1).
    destruct Ln as [Ln Lh].
    rewrite Ln, (fget_ok _ _ _ (ring_succ _ _ _ _ _ _ _ (so_ring _ _ _ _ _ _ H) El)), res_bind_ok.
    destruct Hd as (p & y & Hp & Hy & Hg & Hdn).
    apply elem_of_cons in Hp as [->|Hp]; [rewrite Hx in Hy; injection Hy as <-; rewrite Hg, Hdn in Ed; discriminate|].
    destruct l2 as [|q l2]; [set_solver|]. simpl hd.
    destruct (ring_next_facts _ _ _ _ _ _ _ _ _ _ H El) as [Hq0 Hqh].
    destruct (Z.eqb_spec q 0), (Z.eqb_spec q (ready_queue_head s)); try tauto. cbn [orb]. rewrite <- Lh.
    apply (IH s1 Q1 SL1 AL G (l1 ++ [it]) q l2); auto.
    + rewrite Lh, El, <- app_assoc. reflexivity.
    + intros Hc0. destruct (Hc Hc0) as [cx Hcx].
      destruct (group_step s s1 c pgrp sig it x x c Hx P1) as [_ Hs].
      destruct (Hs cx Hcx) as (z & -> & _). eauto.
    + rewrite (group_denied_step s s1 c pgrp sig it x (q :: l2) Hx P1) by (intros; apply Hall; set_solver).
      exists p, y. auto.
    + rewrite Lh. intros E. congruence.
Qed.
End pgrp.

(** Every member of the group gets the signal when none is out of reach. *)
Lemma process_kill_pgrp_ok s Q SL AL G my pgrp sig fuel :
  sched_ok None s Q SL AL G -> 0 <= my < SCHED_MAX_CPUS -> pgrp <> 0 -> 0 < sig < PROCESS_MAX_SIG ->
  (length G < fuel)%nat -> ~ group_denied s (arr_at (current s) my) pgrp (ready_queue_head s :: G) ->
  exists r s' Q' SL', process_kill_pgrp fuel my s pgrp sig = Ok (r, s') /\
    sched_ok None s' Q' SL' AL G /\ same_list s s' /\
    (r = if bool_decide (map_Exists (fun _ x => in_pgrp pgrp x = true) (procs s)) then 0 else - ESRCH) /\
    (forall p, procs s' !! p = (fun x => if in_pgrp pgrp x then signalled sig x else x) <$> procs s !! p).
Proof.
  intros H Hmy Hpg Hsig Hf Hnd. unfold process_kill_pgrp.
  destruct (Z.eqb_spec pgrp 0); [contradiction|].
  destruct (Z.leb_spec sig 0), (Z.leb_spec PROCESS_MAX_SIG sig); try lia. cbn [orb].
  destruct (current_some _ _ _ _ _ my H Hmy) as [-> Hc]. rewrite res_bind_ok.
  assert (Hhd : is_Some (procs s !! ready_queue_head s)) by (apply (so_procs _ _ _ _ _ _ H); set_solver).
  destruct Hhd as [h Hh]. destruct (Z.eqb_spec (ready_queue_head s) 0) as [E|]; [exfalso; eapply so_nonzero; eauto|].
  destruct (kill_pgrp_loop_ok _ pgrp sig fuel s Q SL AL G [] (ready_queue_head s) G false 0 H eq_refl Hf Hc
    ltac:(split; lia) Hnd) as (found & m & s' & Q' & SL' & -> & Hm & H' & L & Hfd & P).
  rewrite res_bind_ok. destruct (itimers_mask m my Hm Hmy) as [Hm' Hc'].
  destruct (send_ipis_ok 33 None my s' _ _ _ G _ H' Hm' Hc') as (l & -> & H5). rewrite res_bind_ok.
  assert (Hin : forall p x, procs s !! p = Some x -> p ∈ ready_queue_head s :: G)
    by (intros p x Hx; apply (so_procs _ _ _ _ _ _ H); eauto).
  eexists _, _, Q', SL'. split; [reflexivity|]. split; [exact H5|]. split; [exact L|]. split.
  - destruct (bool_decide_reflect (map_Exists (fun _ x => in_pgrp pgrp x = true) (procs s))) as [(p & x & Hx & Hg)|Hno].
    + assert (found = true) as -> by (apply Hfd; right; exists p, x; eauto). reflexivity.
    + destruct found; [|reflexivity]. exfalso. destruct Hfd as [Hfd _]. destruct Hfd as [|(p & x & _ & Hx & Hg)]; auto;
        [discriminate|]. apply Hno. exists p, x. auto.
  - intros p. simpl. rewrite P. unfold hit. destruct (procs s !! p) as [x|] eqn:Hx; [|reflexivity]. simpl.
    rewrite bool_decide_eq_true_2 by eauto. reflexivity.
Qed.

Lemma process_kill_pgrp_diverges s Q SL AL G my pgrp sig fuel :
  sched_ok None s Q SL AL G -> 0 <= my < SCHED_MAX_CPUS -> pgrp <> 0 -> 0 < sig < PROCESS_MAX_SIG ->
  group_denied s (arr_at (current s) my) pgrp G ->
  (forall x, procs s !! ready_queue_head s = Some x -> pid x = 0) ->
  process_kill_pgrp fuel my s pgrp sig = NoFuel.
Proof.
  intros H Hmy Hpg Hsig Hd Hh0. unfold process_kill_pgrp.
  destruct (Z.eqb_spec pgrp 0); [contradiction|].
  destruct (Z.leb_spec sig 0), (Z.leb_spec PROCESS_MAX_SIG sig); try lia. cbn [orb].
  destruct (current_some _ _ _ _ _ my H Hmy) as [-> Hc]. rewrite res_bind_ok.
  assert (Hhd : is_Some (procs s !! ready_queue_head s)) by (apply (so_procs _ _ _ _ _ _ H); set_solver).
  destruct Hhd as [h Hh]. destruct (Z.eqb_spec (ready_queue_head s) 0) as [E|]; [exfalso; eapply so_nonzero; eauto|].
  rewrite (kill_pgrp_loop_diverges _ pgrp sig fuel s Q SL AL G [] (ready_queue_head s) G false 0 H eq_refl Hc);
    [reflexivity|split; lia| |].
  - destruct Hd as (p & x & Hp & Hrest). exists p, x. split; [set_solver|exact Hrest].
  - intros _ x Hx. unfold in_pgrp. rewrite (Hh0 x Hx). simpl. apply andb_false_iff. left. apply andb_false_r.
Qed.

(** ** Giving up the CPU *)

(** The running process [p] of CPU [my]; it is not the idle process. *)
Definition runs (s : sched) (my p : Z) (x : proc) : Prop :=
  arr_at (current s) my = p /\ procs s !! p = Some x /\ state x = PROCESS_RUNNING /\
  forall c, 0 <= c < SCHED_MAX_CPUS -> arr_at (current s) c <> 0 -> idle_at s c <> p.

Lemma leave_ok s Q SL AL G my p x y :
  sched_ok None s Q SL AL G -> runs s my p x ->
  cpu_id y = cpu_id x -> priority y = priority x -> alarm_tick y = alarm_tick x ->
  state y <> PROCESS_READY -> state y <> PROCESS_RUNNING ->
  sched_ok None (set_procs (<[p := y]> (procs s)) s) Q SL AL G.
Proof.
  intros H (Hc & Hx & Hr & Hi) E1 E2 E3 N1 N2. eapply sched_ok_setp; eauto.
  destruct (so_bounds _ _ _ _ _ _ H p x Hx) as [Hb _]. red. split_and!; try lia; auto.
  - intros Hq. exfalso. eapply not_ready_not_queued; eauto. rewrite Hr. discriminate.
  - tauto.
  - intros Hs. destruct (so_asleep _ _ _ _ _ _ H p Hs) as (z & Hz & Ez). congruence.
  - tauto.
  - intros c Hc' Hn E. exfalso. eapply Hi; eauto.
Qed.

(** A process that waits for something marks itself BLOCKED, then calls
    [schedule]. *)
Definition block_current (my : Z) (s : sched) : res sched :=
  c ← cur s my;
  updp s c (set_state PROCESS_BLOCKED).

Lemma block_current_ok s Q SL AL G my p x :
  sched_ok None s Q SL AL G -> 0 <= my < SCHED_MAX_CPUS -> runs s my p x ->
  exists s', block_current my s = Ok s' /\ sched_ok None s' Q SL AL G /\ same_list s s' /\
    procs s' = <[p := set_state PROCESS_BLOCKED x]> (procs s).
Proof.
  intros H Hmy Hr. unfold block_current. destruct (current_some _ _ _ _ _ my H Hmy) as [-> _].
  rewrite res_bind_ok. pose proof Hr as (-> & Hx & _). rewrite (updp_ok s p x) by auto.
  eexists. split; [reflexivity|]. split; [eapply leave_ok; eauto; discriminate|]. split; [red; auto 10|reflexivity].
Qed.

Lemma process_sleep_prepare_ok s Q SL AL G my p x now ticks :
  sched_ok None s Q SL AL G -> 0 <= my < SCHED_MAX_CPUS -> runs s my p x ->
  let y := set_state PROCESS_SLEEPING (set_wake_at_tick (u32 (now + ticks)) x) in
  exists s' SL', process_sleep_prepare my s now ticks = Ok s' /\ sched_ok None s' Q SL' AL G /\
    same_list s s' /\ procs s' = <[p := y]> (procs s) /\ (forall q, q ∈ SL' <-> q = p \/ q ∈ SL).
Proof.
  intros H Hmy Hr y. unfold process_sleep_prepare. destruct (current_some _ _ _ _ _ my H Hmy) as [-> _].
  rewrite res_bind_ok. pose proof Hr as (-> & Hx & Hst & _). rewrite (updp_ok s p x), res_bind_ok by auto.
  erewrite updp_ok by (simpl; apply lookup_insert_eq). rewrite res_bind_ok. simpl. rewrite insert_insert_eq.
  assert (H1 : sched_ok None (set_procs (<[p := y]> (procs s)) s) Q SL AL G)
    by (eapply leave_ok; eauto; discriminate).
  fold y. assert (Hns : p ∉ SL).
  { intros Hs. destruct (so_asleep _ _ _ _ _ _ H p Hs) as (z & Hz & Ez). congruence. }
  destruct (sleep_remove_ok H1 p y (lookup_insert_eq _ _ _)) as (q & Hq & H2).
  rewrite filter_ne_id in H2 by auto.
  change (set_procs (<[p := y]> (procs s)) (set_procs _ s)) with (set_procs (<[p := y]> (procs s)) s).
  rewrite Hq, res_bind_ok.
  destruct (sleep_insert_ok H2 p y (lookup_insert_eq _ _ _) Hns eq_refl) as (q2 & SL' & Hi & Hins & H3).
  rewrite Hi. eexists _, SL'. split; [reflexivity|]. split; [exact H3|]. split; [red; auto 10|].
  split; [reflexivity|]. destruct Hins as (l1 & l2 & -> & -> & _). set_solver.
Qed.
