(* ===== verification/SchedLive.v ===== *)
(** Load balancing and liveness.  [sched_load_balance] moves one READY process from the
    busiest CPU to the idlest one and keeps the scheduler's invariant, provided no
    process that waits to be switched out is READY; while a CPU keeps calling
    [schedule], each of its READY processes gets the CPU, after a number of calls
    bounded by the number of processes. *)

From S2P Require Import Prelude Bitmap Ring Runq SortedQ AsRef SchedState Sched SchedInv SchedSpec SchedTick SchedOps.

(** ** The busiest and the idlest CPU *)

Definition load_at (s : sched) (i : Z) : Z := if pcpu_count s <=? i then 0 else arr_at (pcpu_load s) i.

Lemma get_load_ok lim s Q SL AL G i :
  sched_ok lim s Q SL AL G -> 0 <= i -> sched_pcpu_get_load s i = Ok (load_at s i).
Proof.
  intros H Hi. destruct (so_cpus _ _ _ _ _ _ H) as (_ & Hl & Hc). unfold sched_pcpu_get_load, load_at.
  destruct (Z.leb_spec (pcpu_count s) i); [reflexivity|]. apply arr_get_ok. lia.
Qed.

Lemma load_extremes_ok lim s Q SL AL G n : sched_ok lim s Q SL AL G ->
  forall i mc ml nc nl,
  0 <= i -> (mc = 0 \/ 0 <= mc < i) -> (nc = 0 \/ 0 <= nc < i) ->
  (forall j, 0 <= j < i -> load_at s j <= ml /\ nl <= load_at s j) ->
  exists mc' ml' nc' nl', load_extremes n s i mc ml nc nl = Ok (mc', ml', nc', nl') /\
    (mc' = 0 \/ 0 <= mc' < i + Z.of_nat n) /\ (nc' = 0 \/ 0 <= nc' < i + Z.of_nat n) /\
    (forall j, 0 <= j < i + Z.of_nat n -> load_at s j <= ml' /\ nl' <= load_at s j) /\
    (mc' = mc /\ ml' = ml \/ ml' = load_at s mc') /\ (nc' = nc /\ nl' = nl \/ nl' = load_at s nc').
Proof.
  intros H. induction n as [|n IH]; intros i mc ml nc nl Hi Hmc Hnc Hall.
  { exists mc, ml, nc, nl. split; [reflexivity|]. rewrite Nat2Z.inj_0, Z.add_0_r. auto 10. }
  cbn [load_extremes]. rewrite (get_load_ok _ _ _ _ _ _ _ H Hi), res_bind_ok.
  set (l := load_at s i).
  destruct (if ml <? l then (i, l) else (mc, ml)) as [mc1 ml1] eqn:E1.
  destruct (if l <? nl then (i, l) else (nc, nl)) as [nc1 nl1] eqn:E2.
  assert (F1 : (mc1 = 0 \/ 0 <= mc1 < i + 1) /\ ml <= ml1 /\ l <= ml1 /\ (mc1 = mc /\ ml1 = ml \/ ml1 = load_at s mc1)).
  { destruct (Z.ltb_spec ml l); injection E1 as <- <-; split_and!; auto; try lia. }
  assert (F2 : (nc1 = 0 \/ 0 <= nc1 < i + 1) /\ nl1 <= nl /\ nl1 <= l /\ (nc1 = nc /\ nl1 = nl \/ nl1 = load_at s nc1)).
  { destruct (Z.ltb_spec l nl); injection E2 as <- <-; split_and!; auto; try lia. }
  destruct F1 as (F1 & F3 & F4 & F5), F2 as (G1 & G3 & G4 & G5).
  destruct (IH (i + 1) mc1 ml1 nc1 nl1) as (mc' & ml' & nc' & nl' & Hr & A1 & A2 & A3 & A4 & A5); auto; [lia| |].
  - intros j Hj. destruct (decide (j = i)) as [->|]; [fold l; lia|]. specialize (Hall j ltac:(lia)). lia.
  - exists mc', ml', nc', nl'. replace (i + Z.of_nat (S n)) with (i + 1 + Z.of_nat n) by lia.
    split; [exact Hr|]. split_and!; auto.
    + destruct A4 as [[-> ->]|A4]; [destruct F5 as [?|F5]; auto|auto].
    + destruct A5 as [[-> ->]|A5]; [destruct G5 as [?|G5]; auto|auto].
Qed.

(** ** The victim *)

Section victim.
Context {s : sched} {Q : Z -> Z -> Z -> list Z} {SL AL G : list Z}.
Context (H : sched_ok None s Q SL AL G) (idle_p : Z).

Lemma victim_in_list_ok fuel : forall pr l,
  seg (rq_next (rqs s)) (rq_prev (rqs s)) pr l 0 -> 0 ∉ l -> (length l < fuel)%nat ->
  (forall p, p ∈ l -> exists x, procs s !! p = Some x /\ state x = PROCESS_READY) ->
  exists v, victim_in_list fuel s idle_p (hd 0 l) = Ok v /\
    (v = 0 /\ (forall p, p ∈ l -> p = idle_p) \/ v <> 0 /\ v ∈ l /\ v <> idle_p).
Proof.
  induction fuel as [|fuel IH]; intros pr l Hs H0 Hf Hall; [lia|]. cbn [victim_in_list].
  destruct l as [|p l]; simpl hd.
  { exists 0. split; [reflexivity|]. left. split; [auto|set_solver]. }
  destruct (Z.eqb_spec p 0) as [->|Hp0]; [set_solver|].
  destruct (Hall p ltac:(set_solver)) as (x & Hx & Hst). rewrite (getp_ok _ _ _ Hx), res_bind_ok.
  rewrite (proj2 (is_state_true _ _) Hst), andb_true_r. destruct (Z.eqb_spec p idle_p) as [E|]; cbn [negb].
  - simpl in Hs. destruct Hs as (_ & Hn & Hs). rewrite (fget_ok _ _ _ Hn), res_bind_ok.
    destruct (IH p l Hs) as (v & Hv & Hcase); [set_solver|simpl in Hf; lia|intros; apply Hall; set_solver|].
    exists v. split; [exact Hv|]. destruct Hcase as [[-> Ha]|(? & ? & ?)]; [left|right; set_solver].
    split; [auto|]. intros q [->|Hq]%elem_of_cons; auto.
  - exists p. split; [reflexivity|]. right. set_solver.
Qed.

Lemma victim_in_rq_ok n : forall c k,
  0 <= c < SCHED_MAX_CPUS -> 0 <= k < 2 -> (n <= 32)%nat ->
  exists v, victim_in_rq n s c k idle_p = Ok v /\
    (v = 0 /\ (forall i p, i < Z.of_nat n -> p ∈ Q c k i -> p = idle_p) \/
     v <> 0 /\ v <> idle_p /\ exists i, v ∈ Q c k i).
Proof.
  induction n as [|n IH]; intros c k Hc Hk Hn.
  { exists 0. split; [reflexivity|]. left. split; [auto|]. intros i p Hi Hp.
    destruct (rq_inside _ _ (so_rq _ _ _ _ _ _ H) _ _ _ _ Hp) as (_ & _ & ?). lia. }
  cbn [victim_in_rq]. assert (Hr : in_range c k (Z.of_nat n)) by (red; unfold SCHED_NUM_PRIOS; lia).
  destruct (queue_facts _ _ _ _ _ (so_rq _ _ _ _ _ _ H) Hr) as (-> & Hq & _ & _ & Hb & Hs).
  rewrite res_bind_ok, land_bit_eqb, Hb, negb_involutive by lia.
  assert (Hstep : forall v, victim_in_rq n s c k idle_p = Ok v ->
     (forall p, p ∈ Q c k (Z.of_nat n) -> p = idle_p) ->
     (v = 0 /\ (forall i p, i < Z.of_nat n -> p ∈ Q c k i -> p = idle_p) \/
      v <> 0 /\ v <> idle_p /\ exists i, v ∈ Q c k i) ->
     (v = 0 /\ (forall i p, i < Z.of_nat (S n) -> p ∈ Q c k i -> p = idle_p) \/
      v <> 0 /\ v <> idle_p /\ exists i, v ∈ Q c k i)).
  { intros v _ Hi [[-> Ha]|?]; [left; split; [auto|]|auto]. intros i p Hlt Hp.
    destruct (decide (i = Z.of_nat n)) as [->|]; [auto|]. apply (Ha i p); auto. lia. }
  destruct (IH c k Hc Hk ltac:(lia)) as (v & Hv & Hcase). unfold is_nil.
  destruct (Q c k (Z.of_nat n)) as [|p l] eqn:El.
  - exists v. split; [exact Hv|]. apply Hstep; auto. set_solver.
  - rewrite Hq, res_bind_ok. rewrite <- El. simpl pq_head.
    destruct (rq_nodup _ _ (so_rq _ _ _ _ _ _ H) c k (Z.of_nat n)) as [Hnd H0].
    destruct (victim_in_list_ok (nprocs s) 0 (Q c k (Z.of_nat n))) as (w & Hw & Hwc); auto.
    + rewrite El. exact Hs.
    + eapply queue_fuel; eauto.
    + intros q Hq'. destruct (so_queued _ _ _ _ _ _ H _ _ _ _ Hq') as (_ & x & Hx & E & _). eauto.
    + rewrite El in Hw |- *. rewrite Hw, res_bind_ok. destruct Hwc as [[-> Ha]|(Hw0 & Hwin & Hwi)].
      * exists v. split; [exact Hv|]. apply Hstep; auto. rewrite <- El. auto.
      * destruct (Z.eqb_spec w 0); [contradiction|]. exists w. split; [reflexivity|]. right. eauto.
Qed.

Lemma take_victim_ok c k :
  0 <= c < SCHED_MAX_CPUS -> 0 <= k < 2 ->
  exists v s', take_victim s c k idle_p = Ok (v, s') /\
    ((v = 0 /\ s' = s /\ forall i p, p ∈ Q c k i -> p = idle_p) \/
     (v <> 0 /\ v <> idle_p /\ exists i l1 l2 r, Q c k i = l1 ++ v :: l2 /\ s' = set_rqs r s /\
        rq_frame (rqs s) r /\
        sched_ok (Some v) (set_rqs r s) (updQ Q c k i (l1 ++ l2)) SL AL G)).
Proof.
  intros Hc Hk. unfold take_victim.
  destruct (victim_in_rq_ok (Z.to_nat SCHED_NUM_PRIOS) c k Hc Hk ltac:(unfold SCHED_NUM_PRIOS; lia))
    as (v & -> & Hcase). rewrite res_bind_ok.
  destruct Hcase as [[-> Ha]|(Hv0 & Hvi & i & Hi)].
  - exists 0, s. split; [reflexivity|]. left. split_and!; auto. intros i p Hp.
    destruct (rq_inside _ _ (so_rq _ _ _ _ _ _ H) _ _ _ _ Hp) as (_ & _ & Hr).
    apply (Ha i p); auto. unfold SCHED_NUM_PRIOS in *. lia.
  - destruct (Z.eqb_spec v 0); [contradiction|].
    destruct (so_queued _ _ _ _ _ _ H _ _ _ _ Hi) as (_ & x & Hx & _ & Ep & _).
    rewrite (getp_ok _ _ _ Hx), res_bind_ok. apply list_elem_of_split in Hi as (l1 & l2 & El).
    destruct (dequeue_ok s Q SL AL G c k i v l1 l2 H El) as (r & Hr & Hfr & H1).
    rewrite Ep, Hr, res_bind_ok. exists v, (set_rqs r s). split; [reflexivity|]. right.
    split_and!; auto. exists i, l1, l2, r. auto.
Qed.
End victim.

(** ** Migration *)

(** No process that is still on a CPU is READY, that is, none was woken between
    marking itself asleep and being switched out. *)
Definition settled (s : sched) : Prop :=
  forall c x, 0 <= c < SCHED_MAX_CPUS -> procs s !! arr_at (current s) c = Some x ->
    state x <> PROCESS_READY.

Lemma sched_ok_migrate s Q SL AL G v x c :
  sched_ok (Some v) s Q SL AL G -> procs s !! v = Some x -> state x = PROCESS_READY ->
  0 <= c < SCHED_MAX_CPUS ->
  (forall c, 0 <= c < SCHED_MAX_CPUS -> arr_at (current s) c <> v) ->
  (forall c, 0 <= c < SCHED_MAX_CPUS -> arr_at (current s) c <> 0 -> idle_at s c <> v) ->
  sched_ok (Some v) (set_procs (<[v := set_cpu_id c x]> (procs s)) s) Q SL AL G.
Proof.
  intros H Hx Hst Hc Hcur Hidle.
  assert (Hlk : forall q z, <[v := set_cpu_id c x]> (procs s) !! q = Some z ->
     q = v /\ z = set_cpu_id c x \/ q <> v /\ procs s !! q = Some z).
  { intros q z. destruct (decide (v = q)) as [->|]; [rewrite lookup_insert_eq; intros [= <-]; auto|].
    rewrite lookup_insert_ne by auto. auto. }
  assert (Hne : forall q, q <> v -> <[v := set_cpu_id c x]> (procs s) !! q = procs s !! q)
    by (intros; apply lookup_insert_ne; auto).
  assert (Hsl : v ∉ SL).
  { intros Hs. destruct (so_asleep _ _ _ _ _ _ H v Hs) as (z & Hz & Ez). congruence. }
  split; try apply H; cbn [set_procs procs current rqs sleepq alarmq pnext pprev ready_queue_head].
  - eapply tq_ok_key; [|exact (so_sleep _ _ _ _ _ _ H)]. intros q Hq. unfold wake_of. simpl.
    rewrite Hne by congruence. reflexivity.
  - eapply tq_ok_key; [|exact (so_alarm _ _ _ _ _ _ H)]. intros q Hq. unfold alarm_of. simpl.
    destruct (decide (v = q)) as [->|]; [rewrite lookup_insert_eq, Hx|rewrite Hne by auto]; reflexivity.
  - intros q. rewrite (procs_insert_is_Some _ v x) by auto. apply (so_procs _ _ _ _ _ _ H).
  - rewrite Hne; [apply (so_zero _ _ _ _ _ _ H)|]. intros <-. eapply so_nonzero; eauto.
  - intros q Hq. rewrite (procs_insert_is_Some _ v x) in Hq by auto. apply (so_dom _ _ _ _ _ _ H q Hq).
  - intros q z [[-> ->]|[_ Hz]]%Hlk; [|apply (so_bounds _ _ _ _ _ _ H q z Hz)].
    simpl. split; [apply (so_bounds _ _ _ _ _ _ H v x Hx)|auto].
  - intros c' k i q Hq. destruct (so_queued _ _ _ _ _ _ H c' k i q Hq) as (Hl & z & Hz & E).
    split; [auto|]. rewrite Hne by congruence. eauto.
  - intros q z [[-> ->]|[_ Hz]]%Hlk; [auto|apply (so_ready _ _ _ _ _ _ H q z Hz)].
  - intros q Hq. rewrite Hne by congruence. apply (so_asleep _ _ _ _ _ _ H q Hq).
  - intros q Hq. rewrite (procs_insert_is_Some _ v x) by auto. apply (so_alarms _ _ _ _ _ _ H q Hq).
  - intros c' Hc' Hn. rewrite Hne by auto. apply (so_current _ _ _ _ _ _ H c' Hc' Hn).
  - intros q z [[-> ->]|[_ Hz]]%Hlk; [simpl; congruence|apply (so_running _ _ _ _ _ _ H q z Hz)].
  - intros c' Hc' Hn. rewrite Hne by (apply Hidle; auto). apply (so_idle _ _ _ _ _ _ H c' Hc' Hn).
Qed.

(** [v] moved from the busiest to the idlest CPU. *)
Definition migrated (s : sched) (v : Z) (x : proc) (from to : Z) : Prop :=
  procs s !! v = Some x /\ state x = PROCESS_READY /\ cpu_id x = from /\ v <> idle_at s from /\
  0 <= to < pcpu_count s /\ from <> to /\ u32 (load_at s to + 2) <= load_at s from /\
  (forall j, 0 <= j < pcpu_count s -> load_at s j <= load_at s from /\ load_at s to <= load_at s j).

Lemma extremes_range lim s Q SL AL G :
  sched_ok lim s Q SL AL G -> (forall i, is_u32 (load_at s i)) -> 1 < pcpu_count s ->
  exists from to, load_extremes (Z.to_nat (Z.min (pcpu_count s) SCHED_MAX_CPUS)) s 0 0 0 0 4294967295 =
      Ok (from, load_at s from, to, load_at s to) /\
    0 <= from < pcpu_count s /\ 0 <= to < pcpu_count s /\
    (forall j, 0 <= j < pcpu_count s -> load_at s j <= load_at s from /\ load_at s to <= load_at s j).
Proof.
  intros H Hu Hn. destruct (so_cpus _ _ _ _ _ _ H) as (_ & _ & Hc).
  destruct (load_extremes_ok lim s Q SL AL G (Z.to_nat (Z.min (pcpu_count s) SCHED_MAX_CPUS)) H 0 0 0 0 4294967295)
    as (mc & ml & nc & nl & -> & A1 & A2 & A3 & A4 & A5); auto; try lia.
  rewrite Z.min_l, Z2Nat.id in * by lia. rewrite Z.add_0_l in *.
  assert (Em : ml = load_at s mc).
  { destruct A4 as [[-> ->]|]; [|auto]. specialize (Hu 0). destruct (A3 0 ltac:(lia)). unfold is_u32 in Hu. lia. }
  assert (En : nl = load_at s nc).
  { destruct A5 as [[-> ->]|]; [|auto]. specialize (Hu 0). destruct (A3 0 ltac:(lia)). unfold is_u32 in Hu. lia. }
  subst ml nl. exists mc, nc. split_and!; auto; lia.
Qed.

(** A taken victim settles on CPU [to]. *)
Lemma migrate_ok s Q SL AL G my v x from to :
  sched_ok (Some v) s Q SL AL G -> procs s !! v = Some x -> state x = PROCESS_READY ->
  0 <= from -> 0 <= to < SCHED_MAX_CPUS ->
  (forall c, 0 <= c < SCHED_MAX_CPUS -> arr_at (current s) c <> v) ->
  (forall c, 0 <= c < SCHED_MAX_CPUS -> arr_at (current s) c <> 0 -> idle_at s c <> v) ->
  exists s' Q', (s ← updp s v (set_cpu_id to); s ← enqueue_active s to v;
     s ← sched_pcpu_dec_load s from; s ← sched_pcpu_inc_load s to;
     mret (sched_ipi_resched my s to)) = Ok s' /\
    sched_ok None s' Q' SL AL G /\ same_list s s' /\ procs s' = <[v := set_cpu_id to x]> (procs s).
Proof.
  intros H Hx Hst Hfrom Hto Hcur Hidle. rewrite (updp_ok s v x), res_bind_ok by auto.
  pose proof (sched_ok_migrate _ _ _ _ _ v x to H Hx Hst Hto Hcur Hidle) as H1.
  destruct (enqueue_ok true _ _ _ _ _ v (set_cpu_id to x) H1 (lookup_insert_eq _ _ _) Hst) as (r & Hr & _ & H2).
  simpl enqueue_role in Hr. simpl cpu_id in Hr. rewrite Hr, res_bind_ok.
  destruct (dec_load_ok _ _ _ _ _ _ from H2 Hfrom) as (a & -> & H3). rewrite res_bind_ok.
  destruct (inc_load_ok _ _ _ _ _ _ to H3) as (b & -> & H4); [lia|]. rewrite res_bind_ok.
  eexists _, _. split; [reflexivity|]. split; [apply sched_ok_ipi; exact H4|].
  split; [eapply same_list_trans; [|apply ipi_same_list]; red; auto 10|]. rewrite ipi_procs. reflexivity.
Qed.

Section balance.
Context {s : sched} {Q : Z -> Z -> Z -> list Z} {SL AL G : list Z}.
Context (H : sched_ok None s Q SL AL G) (Hset : settled s).

(** A queued process other than the idle one may leave its CPU. *)
Lemma movable v c k i :
  v ∈ Q c k i -> v <> idle_at s c ->
  (forall c', 0 <= c' < SCHED_MAX_CPUS -> arr_at (current s) c' <> v) /\
  (forall c', 0 <= c' < SCHED_MAX_CPUS -> arr_at (current s) c' <> 0 -> idle_at s c' <> v).
Proof.
  intros Hv Hi. destruct (so_queued _ _ _ _ _ _ H _ _ _ _ Hv) as (_ & x & Hx & Hst & _ & Hc). split.
  - intros c' Hc' E. rewrite <- E in Hx. exact (Hset c' x Hc' Hx Hst).
  - intros c' Hc' Hn E. destruct (so_idle _ _ _ _ _ _ H c' Hc' Hn) as (y & Hy & Ey & _).
    rewrite E, Hx in Hy. injection Hy as <-. rewrite Ey in Hc. subst c'. congruence.
Qed.

Lemma find_victim_ok c :
  0 <= c < SCHED_MAX_CPUS ->
  exists v s', find_victim s c = Ok (v, s') /\
    ((v = 0 /\ s' = s) \/
     (v <> 0 /\ v <> idle_at s c /\ exists k i Q' r, v ∈ Q c k i /\ s' = set_rqs r s /\
        rq_frame (rqs s) r /\ sched_ok (Some v) (set_rqs r s) Q' SL AL G)).
Proof.
  intros Hc. destruct (act_range (rqs s) Q c (so_rq _ _ _ _ _ _ H) Hc) as (Ha & He & _).
  unfold find_victim. rewrite arr_get_ok, res_bind_ok by (rewrite (rq_cpus _ _ (so_rq _ _ _ _ _ _ H)); lia).
  fold (idle_at s c) (act (rqs s) c) (expd (rqs s) c).
  destruct (take_victim_ok H (idle_at s c) c _ Hc He) as (v & s' & -> & Hcase). rewrite res_bind_ok.
  destruct Hcase as [(-> & -> & _)|(Hv0 & Hvi & i & l1 & l2 & r & El & -> & Hfr & H1)].
  - cbn. destruct (take_victim_ok H (idle_at s c) c _ Hc Ha) as (v & s' & -> & Hcase).
    exists v, s'. split; [reflexivity|].
    destruct Hcase as [(-> & -> & _)|(Hv0 & Hvi & i & l1 & l2 & r & El & -> & Hfr & H1)]; [auto|right].
    split_and!; auto. eexists _, i, _, r. split; [rewrite El; set_solver|]. eauto.
  - destruct (Z.eqb_spec v 0); [contradiction|]. cbn. exists v, (set_rqs r s). split; [reflexivity|]. right.
    split_and!; auto. eexists _, i, _, r. split; [rewrite El; set_solver|]. eauto.
Qed.

Lemma sched_load_balance_ok my :
  (forall i, is_u32 (load_at s i)) ->
  exists s' Q', sched_load_balance my s = Ok s' /\ sched_ok None s' Q' SL AL G /\ same_list s s' /\
    (procs s' = procs s \/
     exists v x from to, migrated s v x from to /\ procs s' = <[v := set_cpu_id to x]> (procs s)).
Proof.
  intros Hu. unfold sched_load_balance.
  assert (Hid : exists s' Q', (Ok s : res sched) = Ok s' /\ sched_ok None s' Q' SL AL G /\ same_list s s' /\
    (procs s' = procs s \/
     exists v x from to, migrated s v x from to /\ procs s' = <[v := set_cpu_id to x]> (procs s)))
    by (exists s, Q; split_and!; auto using same_list_refl).
  destruct (Z.leb_spec (pcpu_count s) 1) as [|Hcnt]; [exact Hid|].
  destruct (extremes_range _ _ _ _ _ _ H Hu) as (from & to & -> & Hf & Ht & Hall); [lia|]. rewrite res_bind_ok.
  destruct (Z.eqb_spec from to) as [|Hne]; [exact Hid|].
  destruct (Z.ltb_spec (load_at s from) (u32 (load_at s to + 2))) as [|Hbal]; [exact Hid|]. cbn [orb].
  destruct (so_cpus _ _ _ _ _ _ H) as (_ & _ & Hc).
  destruct (find_victim_ok from ltac:(lia)) as (v & s1 & -> & Hcase). rewrite res_bind_ok.
  destruct Hcase as [[-> ->]|(Hv0 & Hvi & k & i & Q' & r & Hv & -> & Hfr & H1)]; [exact Hid|].
  destruct (Z.eqb_spec v 0); [contradiction|].
  destruct (movable v from k i Hv Hvi) as [M1 M2].
  destruct (so_queued _ _ _ _ _ _ H _ _ _ _ Hv) as (_ & x & Hx & Hst & _ & Hcx).
  destruct (migrate_ok (set_rqs r s) Q' SL AL G my v x from to H1 Hx Hst) as (s' & Q2 & -> & H2 & L2 & P2); auto; try lia.
  { intros c' Hc' Hn. unfold idle_at. simpl. destruct (Hfr c') as (_ & _ & ->). apply M2; auto. }
  exists s', Q2. split; [reflexivity|]. split; [exact H2|]. split; [exact L2|]. right.
  exists v, x, from, to. split; [red; split_and!; auto; try lia; apply Hall|exact P2].
Qed.
End balance.

(** [n] calls of [schedule] on the same CPU. *)
Fixpoint schedules (n : nat) (s : sched) (cpu : Z) : res sched :=
  match n with
  | O => Ok s
  | S n => s ← schedule s cpu; schedules n s cpu
  end.

(** ** The length of a runqueue *)

Definition qlen (Q : Z -> Z -> Z -> list Z) (c k : Z) : nat :=
  sum_list_with (fun i => length (Q c k i)) (seqZ 0 SCHED_NUM_PRIOS).

Lemma sum_list_with_update (f g : Z -> nat) l i :
  NoDup l -> i ∈ l -> (forall j, j <> i -> g j = f j) ->
  (sum_list_with g l + f i = sum_list_with f l + g i)%nat.
Proof.
  intros Hd Hi Hg. induction Hd as [|j l Hj Hd IH]; [set_solver|]. simpl.
  destruct (decide (i = j)) as [->|Hne].
  - enough (sum_list_with g l = sum_list_with f l) by lia.
    clear -Hj Hg. induction l as [|a l IH]; [reflexivity|]. simpl. rewrite Hg, IH by set_solver. reflexivity.
  - rewrite (Hg j) by auto. assert (i ∈ l) by set_solver. specialize (IH ltac:(auto)). lia.
Qed.

Lemma qlen_upd Q c k i l : 0 <= i < SCHED_NUM_PRIOS ->
  (qlen (updQ Q c k i l) c k + length (Q c k i) = qlen Q c k + length l)%nat.
Proof.
  intros Hi. unfold qlen.
  assert (El : length l = length (updQ Q c k i l c k i)) by (unfold updQ; rewrite decide_True by auto; reflexivity).
  rewrite El. apply (sum_list_with_update (fun j => length (Q c k j))).
  - apply NoDup_seqZ.
  - apply elem_of_seqZ. lia.
  - intros j Hj. unfold updQ. rewrite decide_False by congruence. reflexivity.
Qed.

Lemma qlen_upd_ne Q c k i l k' : k' <> k -> qlen (updQ Q c k i l) c k' = qlen Q c k'.
Proof.
  intros Hk. unfold qlen. induction (seqZ 0 SCHED_NUM_PRIOS) as [|j js IH]; [reflexivity|]. simpl. rewrite IH.
  unfold updQ. rewrite decide_False by congruence. reflexivity.
Qed.

Lemma qlen_pos Q c k i p : 0 <= i < SCHED_NUM_PRIOS -> p ∈ Q c k i -> (0 < qlen Q c k)%nat.
Proof.
  intros Hi Hp. pose proof (qlen_upd Q c k i [] Hi) as E. destruct (Q c k i) as [|q l]; [set_solver|]. simpl in E. lia.
Qed.

Lemma qlen_nil Q c k : (forall i, Q c k i = []) -> qlen Q c k = 0%nat.
Proof.
  intros Hn. unfold qlen. induction (seqZ 0 SCHED_NUM_PRIOS) as [|i l IH]; [reflexivity|]. simpl. rewrite Hn, IH. reflexivity.
Qed.

(** ** The measure *)

Definition waits_in (Q : Z -> Z -> Z -> list Z) (cpu k p : Z) : Prop := exists i, p ∈ Q cpu k i.

(** The number of context switches of [cpu] before [p] is chosen is at most [w]. *)
Definition rank (s : sched) (Q : Z -> Z -> Z -> list Z) (cpu p : Z) (w : nat) : Prop :=
  let a := act (rqs s) cpu in let e := expd (rqs s) cpu in
  waits_in Q cpu a p /\ w = qlen Q cpu a \/
  waits_in Q cpu e p /\ w = (2 * qlen Q cpu a + qlen Q cpu e + 1)%nat.

Section switch.
Context {s : sched} {Q : Z -> Z -> Z -> list Z} {SL AL G : list Z}.
Context (H : sched_ok None s Q SL AL G) (cpu : Z) (Hcpu : 0 <= cpu < SCHED_MAX_CPUS).

Lemma roles : act (rqs s) cpu <> expd (rqs s) cpu /\
  (act (rqs s) cpu = 0 \/ act (rqs s) cpu = 1) /\ expd (rqs s) cpu = 1 - act (rqs s) cpu.
Proof.
  destruct (act_range (rqs s) Q cpu (so_rq _ _ _ _ _ _ H) Hcpu) as (Ha & He & Hae). lia.
Qed.

(** A process of [cpu] that is READY waits in one of its runqueues. *)
Lemma ready_rank p x : procs s !! p = Some x -> state x = PROCESS_READY -> cpu_id x = cpu ->
  exists w, rank s Q cpu p w.
Proof.
  intros Hx Hs Hc. destruct (so_ready _ _ _ _ _ _ H p x Hx Hs) as [(c & k & i & Hq)|]; [|discriminate].
  destruct (so_queued _ _ _ _ _ _ H c k i p Hq) as (_ & y & Hy & _ & _ & Ec). assert (c = cpu) as -> by congruence.
  destruct (rq_inside _ _ (so_rq _ _ _ _ _ _ H) _ _ _ _ Hq) as (_ & Hk & _). destruct roles as (_ & Ha & He).
  assert (k = act (rqs s) cpu \/ k = expd (rqs s) cpu) as [->| ->] by lia.
  - eexists. left. split; [exists i; auto|reflexivity].
  - eexists. right. split; [exists i; auto|reflexivity].
Qed.

Context (x : proc).
Let prev := arr_at (current s) cpu.
Let a := act (rqs s) cpu.
Let e := expd (rqs s) cpu.
Context (Hn : prev <> 0) (Hx : procs s !! prev = Some x).

Lemma requeued_facts : let Q1 := requeued s cpu prev x Q in
  qlen Q1 cpu a = qlen Q cpu a /\ (qlen Q1 cpu e <= qlen Q cpu e + 1)%nat /\
  (forall k i p, p ∈ Q cpu k i -> p ∈ Q1 cpu k i) /\ (forall i, Q1 cpu a i = Q cpu a i).
Proof.
  destruct roles as (Hne & _). unfold requeued. destruct (is_state (state x) PROCESS_RUNNING); [|split_and!; auto; lia].
  destruct (so_bounds _ _ _ _ _ _ H prev x Hx) as [Hpr _]. destruct (decayed_facts x Hpr) as (_ & _ & Hi & _).
  set (i := priority (decayed x)) in *. cbv zeta. split_and!.
  - apply qlen_upd_ne. auto.
  - pose proof (qlen_upd Q cpu e i (Q cpu e i ++ [prev]) Hi) as El. rewrite length_app in El. simpl in El.
    unfold e in *. lia.
  - intros k j p Hp. unfold updQ. case_decide as Ek; [injection Ek as -> ->; set_solver|auto].
  - intros j. unfold updQ. rewrite decide_False; [reflexivity|]. intros [= Ea _]. apply Hne. auto.
Qed.

Lemma requeued_range k i p : p ∈ requeued s cpu prev x Q cpu k i -> 0 <= i < SCHED_NUM_PRIOS.
Proof.
  assert (Hold : p ∈ Q cpu k i -> 0 <= i < SCHED_NUM_PRIOS).
  { intros Hp. destruct (rq_inside _ _ (so_rq _ _ _ _ _ _ H) _ _ _ _ Hp) as (_ & _ & Hi).
    change SCHED_NUM_PRIOS with 32. exact Hi. }
  unfold requeued. destruct (is_state _ _); [|auto]. unfold updQ. case_decide as Ed; [|auto]. intros _.
  destruct (so_bounds _ _ _ _ _ _ H prev x Hx) as [Hpr _]. destruct (decayed_facts x Hpr) as (_ & _ & Hi & _).
  injection Ed as _ ->. exact Hi.
Qed.

(** A context switch chooses [p] or brings its turn nearer. *)
Lemma switch_progress p w :
  ~ (state x = PROCESS_RUNNING /\ 0 < time_slice x) -> rank s Q cpu p w ->
  exists s' Q' SL' z, schedule s cpu = Ok s' /\ sched_ok None s' Q' SL' AL G /\
    arr_at (current s') cpu <> 0 /\ procs s' !! arr_at (current s') cpu = Some z /\
    time_slice z = SCHED_TIME_SLICE /\
    (arr_at (current s') cpu = p \/ exists w', rank s' Q' cpu p w' /\ (w' < w)%nat).
Proof.
  intros Hns Hrank. destruct roles as (Hne & Hact & Hexp). destruct requeued_facts as (L1 & L2 & Hin & Ha1).
  destruct (schedule_ok s Q SL AL G cpu x H Hcpu Hn Hx Hns)
    as (s' & next & y & Q2 & SL' & Hs & _ & Hcur & Hy & Hyc & Hp & (k & i & l & El & EQ & Ek & Hk) & H').
  fold prev in Hy, Hp, El, EQ, Hk. set (Q1 := requeued s cpu prev x Q) in *.
  assert (Ec : arr_at (current s') cpu = next) by (rewrite Hcur, Z.eqb_refl; reflexivity).
  exists s', Q2, SL', (running y). rewrite Ec. split; [auto|]. split; [auto|].
  assert (Hz : procs s' !! next = Some (running y)) by (rewrite Hp; apply lookup_insert_eq).
  split; [exact (so_nonzero H' next _ Hz)|]. split; [auto|]. split; [reflexivity|].
  destruct (Z.eq_dec next p) as [->|Hnp]; [left; auto|right].
  assert (Hi : 0 <= i < SCHED_NUM_PRIOS) by (apply (requeued_range k i next); fold Q1; rewrite El; set_solver).
  pose proof (qlen_upd Q1 cpu k i l Hi) as Elen. rewrite <- EQ, El in Elen. simpl in Elen.
  assert (Hkeep : forall k' j, p ∈ Q cpu k' j -> p ∈ Q2 cpu k' j).
  { intros k' j Hpj. apply Hin in Hpj. rewrite EQ. unfold updQ. case_decide as Ed; [|auto].
    injection Ed as -> ->. rewrite El in Hpj. set_solver. }
  assert (Hoth : forall k', k' <> k -> qlen Q2 cpu k' = qlen Q1 cpu k') by (intros; rewrite EQ; apply qlen_upd_ne; auto).
  assert (He' : expd (rqs s') cpu = 1 - act (rqs s') cpu).
  { destruct (act_range (rqs s') Q2 cpu (so_rq _ _ _ _ _ _ H') Hcpu) as (? & ? & ?). lia. }
  unfold rank. cbv zeta. rewrite He', <- Ek.
  destruct Hk as [Hk|[Hemp Hk]].
  - assert (E1 : 1 - k = e) by (unfold e; rewrite Hk; lia). rewrite E1. fold a in Hk. rewrite Hk in *.
    pose proof (Hoth e ltac:(unfold e, a; auto)) as Ee.
    destruct Hrank as [[[j Hj] ->]|[[j Hj] ->]]; eexists; (split; [|]).
    + left. split; [exists j; eauto|reflexivity].
    + fold a. lia.
    + right. split; [exists j; eauto|reflexivity].
    + fold a e. lia.
  - fold a in Hemp. fold e in Hk. rewrite Hk in *.
    assert (La : qlen Q cpu a = 0%nat) by (apply qlen_nil; intros j; rewrite <- Ha1; auto).
    destruct Hrank as [[[j Hj] _]|[[j Hj] ->]].
    { exfalso. fold a in Hj. rewrite <- Ha1, Hemp in Hj. set_solver. }
    eexists. split; [left; split; [exists j; eauto|reflexivity]|]. fold a e. lia.
Qed.
End switch.

(** ** Bound by the number of processes *)

Definition all_of (Q : Z -> Z -> Z -> list Z) (c k : Z) : list Z := seqZ 0 SCHED_NUM_PRIOS ≫= Q c k.

Lemma all_of_length Q c k : length (all_of Q c k) = qlen Q c k.
Proof.
  unfold all_of, qlen. induction (seqZ 0 SCHED_NUM_PRIOS) as [|i l IH]; [reflexivity|].
  rewrite bind_cons, length_app, IH. reflexivity.
Qed.

Lemma all_of_nodup s Q c k : rq_ok s Q -> NoDup (all_of Q c k).
Proof.
  intros H. unfold all_of. apply NoDup_bind; [|intros; apply H|apply NoDup_seqZ].
  intros i j p _ _ Hi Hj. apply (rq_sep _ _ H c k i c k j p Hi Hj).
Qed.

Lemma rank_bound {s Q SL AL G} (H : sched_ok None s Q SL AL G) cpu p w :
  0 <= cpu < SCHED_MAX_CPUS -> rank s Q cpu p w -> (w <= 2 * size (procs s) + 1)%nat.
Proof.
  intros Hc Hr. destruct (roles H cpu Hc) as (Hne & _).
  set (a := act (rqs s) cpu) in *. set (e := expd (rqs s) cpu) in *.
  assert (Hb : (qlen Q cpu a + qlen Q cpu e <= size (procs s))%nat).
  { rewrite <- !all_of_length, <- length_app. apply procs_bound.
    - apply NoDup_app. split; [eapply all_of_nodup, H|]. split; [|eapply all_of_nodup, H].
      intros q (i & Hi & _)%list_elem_of_bind (j & Hj & _)%list_elem_of_bind.
      destruct (rq_sep _ _ (so_rq _ _ _ _ _ _ H) _ _ _ _ _ _ q Hi Hj) as (_ & ? & _). auto.
    - intros q [(i & Hi & _)%list_elem_of_bind|(i & Hi & _)%list_elem_of_bind]%elem_of_app;
        destruct (so_queued _ _ _ _ _ _ H _ _ _ _ Hi) as (_ & y & Hy & _); eauto. }
  destruct Hr as [[_ ->]|[_ ->]]; fold a e; lia.
Qed.

Lemma rank_pos {s Q SL AL G} (H : sched_ok None s Q SL AL G) cpu p w : rank s Q cpu p w -> (0 < w)%nat.
Proof.
  intros [[[i Hi] ->]|[_ ->]]; [|lia]. eapply qlen_pos; [|exact Hi].
  apply (rq_inside _ _ (so_rq _ _ _ _ _ _ H) _ _ _ _ Hi).
Qed.

(** ** Every READY process gets the CPU *)

Definition slice_left (x : proc) : nat := if is_state (state x) PROCESS_RUNNING then Z.to_nat (time_slice x) else 0%nat.

Lemma runs_within m : forall s Q SL AL G cpu p w x,
  sched_ok None s Q SL AL G -> 0 <= cpu < SCHED_MAX_CPUS -> arr_at (current s) cpu <> 0 ->
  procs s !! arr_at (current s) cpu = Some x -> rank s Q cpu p w -> (3 * w + slice_left x <= m)%nat ->
  exists n s', (n <= m)%nat /\ schedules n s cpu = Ok s' /\ arr_at (current s') cpu = p.
Proof.
  induction m as [|m IH]; intros s Q SL AL G cpu p w x H Hc Hn Hx Hr Hm.
  { exfalso. pose proof (rank_pos H cpu p w Hr). lia. }
  destruct (is_state (state x) PROCESS_RUNNING && (0 <? time_slice x)) eqn:Ek.
  - apply andb_true_iff in Ek as [Er Et]. set (y := set_time_slice (time_slice x - 1) x).
    assert (Hs : schedule s cpu = Ok (set_procs (<[arr_at (current s) cpu := y]> (procs s)) s)).
    { unfold schedule. destruct (current_some _ _ _ _ _ cpu H Hc) as [-> _]. rewrite res_bind_ok.
      destruct (Z.eqb_spec (arr_at (current s) cpu) 0); [contradiction|].
      unfold schedule_prev. rewrite (getp_ok _ _ _ Hx), res_bind_ok, Er, Et.
      rewrite (updp_ok s _ x), res_bind_ok by auto. reflexivity. }
    set (s1 := set_procs _ s) in *.
    assert (H1 : sched_ok None s1 Q SL AL G) by (eapply sched_ok_same; eauto; red; auto 10).
    destruct (IH s1 Q SL AL G cpu p w y H1 Hc Hn) as (n & s' & Hn' & Hs' & Hcur).
    + apply lookup_insert_eq.
    + exact Hr.
    + unfold slice_left in *. simpl state. rewrite Er in *. apply Z.ltb_lt in Et. simpl time_slice. lia.
    + exists (S n), s'. split; [lia|]. simpl. rewrite Hs, res_bind_ok. auto.
  - destruct (switch_progress H cpu Hc x Hn Hx p w) as (s1 & Q1 & SL1 & z & Hs & H1 & Hn1 & Hz & Ht & Hcase); [|auto|].
    { intros [Er Et]. apply is_state_true in Er. apply Z.ltb_lt in Et. rewrite Er, Et in Ek. discriminate. }
    destruct Hcase as [Hp|(w' & Hr' & Hw)].
    + exists 1%nat, s1. split; [lia|]. simpl. rewrite Hs. auto.
    + destruct (IH s1 Q1 SL1 AL G cpu p w' z H1 Hc Hn1 Hz Hr') as (n & s' & Hn' & Hs' & Hcur).
      * unfold slice_left. rewrite Ht. change (Z.to_nat SCHED_TIME_SLICE) with 2%nat. clear -Hm Hw. destruct (is_state _ _); lia.
      * exists (S n), s'. split; [lia|]. simpl. rewrite Hs, res_bind_ok. auto.
Qed.
