(* ===== verification/Process.v ===== *)
(** The life of a process in src/kernel/scheduler.c: creation by the kernel, by
    fork and by clone, the idle processes, exit, waiting and reaping.

    The results of [kmalloc], [kstack_alloc], [vmm_as_clone_user_cow] and
    [arch_fpu_init_state] are arguments ([p], [stack], [cow], [fpu0]); calls that
    release something are recorded in the log.  The initial contents of a kernel
    stack ([proc->sp]) belong to the context switch and are not modelled. *)

From S2P Require Import Prelude Ring Runq SortedQ AsRef SchedState Sched.

Definition PROCESS_FLAG_THREAD : Z := 1.
Definition CLONE_VM : Z := 256.
Definition CLONE_THREAD : Z := 65536.
Definition CLONE_SETTLS : Z := 524288.
Definition WNOHANG : Z := 1.

Definition no_files : list Z := zeros PROCESS_MAX_FILES.

(** The 17 words of [struct registers] (include/arch/x86/idt.h). *)
Definition REG_EAX : nat := 9.
Definition REG_USERESP : nat := 15.
Definition arch_regs_set_retval (regs : list Z) (v : Z) : list Z := <[REG_EAX := v]> regs.
Definition arch_regs_set_ustack (regs : list Z) (sp : Z) : list Z := <[REG_USERESP := sp]> regs.

Definition no_mmaps : list (Z * Z * Z) := replicate (Z.to_nat PROCESS_MAX_MMAPS) (0, 0, -1).
Definition slash : list Z := [47].

(** A new [struct process] with all link fields zero. *)
Definition alloc_proc (s : sched) (p : Z) (x : proc) : sched :=
  let z (m : gmap Z Z) : gmap Z Z := <[p := 0]> m in
  let r := rqs s in let q := sleepq s in let a := alarmq s in
  set_procs (<[p := x]> (procs s))
    (set_rqs (Runqs (pcpu_rq r) (z (rq_next r)) (z (rq_prev r)))
      (set_sleepq (TQueue (tq_head q) (z (tq_next q)) (z (tq_prev q)) (z (tq_in q)))
        (set_alarmq (TQueue (tq_head a) (z (tq_next a)) (z (tq_prev a)) (z (tq_in a)))
          (set_pnext (z (pnext s)) (set_pprev (z (pprev s)) s))))).

(** [kfree(p)]: the fields of [p] are gone. *)
Definition free_proc (s : sched) (p : Z) : sched :=
  let z (m : gmap Z Z) : gmap Z Z := delete p m in
  let r := rqs s in let q := sleepq s in let a := alarmq s in
  emit (FreeProc p)
   (set_procs (delete p (procs s))
    (set_rqs (Runqs (pcpu_rq r) (z (rq_next r)) (z (rq_prev r)))
      (set_sleepq (TQueue (tq_head q) (z (tq_next q)) (z (tq_prev q)) (z (tq_in q)))
        (set_alarmq (TQueue (tq_head a) (z (tq_next a)) (z (tq_prev a)) (z (tq_in a)))
          (set_pnext (z (pnext s)) (set_pprev (z (pprev s)) s)))))).

(** The new process goes to the end of the process list. *)
Definition link_tail (s : sched) (p : Z) : res sched :=
  let h := ready_queue_head s in
  let t := ready_queue_tail s in
  nx ← fset (pnext s) p h;
  pv ← fset (pprev s) p t;
  nx ← fset nx t p;
  pv ← fset pv h p;
  mret (set_ready_queue_tail p (set_pnext nx (set_pprev pv s))).

(** The end of the three ways to create a process. *)
Definition launch (my : Z) (s : sched) (p : Z) (x : proc) (target : Z) : res sched :=
  s ← link_tail (alloc_proc s p x) p;
  s ← enqueue_active s target p;
  s ← sched_pcpu_inc_load s target;
  mret (sched_ipi_resched my s target).

(** ** Open files *)

Definition file_ref (s : sched) (f d : Z) : res sched :=
  k ← fget (kfiles s) f;
  mret (set_kfiles (<[f := KFile (f_node k) (f_mount_root k) (u32 (f_refcount k + d))]> (kfiles s)) s).

(** [for (i) if (files[i]) __sync_fetch_and_add(&files[i]->refcount, d);] *)
Fixpoint file_refs (s : sched) (l : list Z) (d : Z) : res sched :=
  match l with
  | [] => mret s
  | f :: l => s ← (if f =? 0 then mret s else file_ref s f d); file_refs s l d
  end.
Definition process_release_file_refs (s : sched) (x : proc) : res sched := file_refs s (files x) (-1).

(** The last reference closes the file. *)
Definition close_file (s : sched) (f : Z) : res sched :=
  s ← file_ref s f (-1);
  k ← fget (kfiles s) f;
  if f_refcount k =? 0 then
    let s := if f_node k =? 0 then s else emit (VfsClose (f_node k)) s in
    let s := if f_mount_root k =? 0 then s else emit (MountUnref (f_mount_root k)) s in
    mret (emit (FreeFile f) (set_kfiles (delete f (kfiles s)) s))
  else mret s.

Fixpoint close_files (s : sched) (l : list Z) : res sched :=
  match l with
  | [] => mret s
  | f :: l => s ← (if f =? 0 then mret s else close_file s f); close_files s l
  end.
Definition process_close_all_files_locked (s : sched) (p : Z) : res sched :=
  if p =? 0 then mret s
  else
    x ← getp s p;
    s ← close_files s (files x);
    updp s p (set_files no_files).

(** ** Creation *)

(** [current_process ? current_process->field : d] *)
Definition from_cur (c : option proc) {A} (f : proc -> A) (d : A) : A :=
  match c with Some x => f x | None => d end.
Definition cur_proc (s : sched) (my : Z) : res (option proc) :=
  c ← cur s my;
  if c =? 0 then mret None else x ← getp s c; mret (Some x).

Definition take_pid (s : sched) : Z * sched := (next_pid s, set_next_pid (u32 (next_pid s + 1)) s).

Definition process_create_kernel (my : Z) (s : sched) (p stack : Z) (fpu0 : list Z) : res (Z * sched) :=
  if p =? 0 then mret (0, s)
  else
    c ← cur_proc s my;
    let '(pd, s) := take_pid s in
    target ← sched_pcpu_least_loaded s;
    if stack =? 0 then mret (0, emit (FreeProc p) s)
    else
      let x :=
        {| pid := pd; parent_pid := from_cur c pid 0; session_id := from_cur c session_id pd;
           pgrp_id := from_cur c pgrp_id pd; uid := 0; gid := 0; euid := 0; egid := 0;
           addr_space := if kernel_as s =? 0 then from_cur c addr_space 0 else kernel_as s;
           kernel_stack := stack; priority := SCHED_DEFAULT_PRIO; nice := 0; time_slice := 0;
           state := PROCESS_READY; wake_at_tick := 0; alarm_tick := 0; alarm_interval := 0;
           utime := 0; itimer_virt_value := 0; itimer_virt_interval := 0; itimer_prof_value := 0;
           itimer_prof_interval := 0; exit_status := 0; has_user_regs := 0;
           user_regs := replicate 17 0; sigactions := zeros PROCESS_MAX_SIG;
           sig_blocked_mask := 0; sig_pending_mask := 0; mmaps := no_mmaps; heap_start := 0;
           heap_break := 0; rlimits := replicate 8 (0, 0); cwd := []; waiting := 0;
           wait_pid := -1; wait_result_pid := -1; wait_result_status := 0;
           files := zeros PROCESS_MAX_FILES; fd_flags := zeros PROCESS_MAX_FILES; tgid := pd;
           flags := 0; tls_base := 0; clear_child_tid := 0; cpu_id := target; suid := 0;
           sgid := 0; fpu_state := fpu0 |} in
      s ← launch my s p x target;
      mret (p, s).

(** [child_regs] is [None] for a null pointer. *)
Definition process_fork_create (my : Z) (s : sched) (child_as : Z) (child_regs : option (list Z))
    (p stack : Z) (fpu0 : list Z) : res (Z * sched) :=
  match child_regs with
  | None => mret (0, s)
  | Some regs =>
    if (child_as =? 0) || (p =? 0) then mret (0, s)
    else
      c ← cur_proc s my;
      let '(pd, s) := take_pid s in
      let dir := from_cur c cwd slash in
      let s := emit (MountRefPath dir) s in
      target ← sched_pcpu_least_loaded s;
      let fs := from_cur c files no_files in
      s ← file_refs s fs 1;
      let x :=
        {| pid := pd; parent_pid := from_cur c pid 0; session_id := from_cur c session_id pd;
           pgrp_id := from_cur c pgrp_id pd; uid := from_cur c uid 0; gid := from_cur c gid 0;
           euid := from_cur c euid 0; egid := from_cur c egid 0; addr_space := child_as;
           kernel_stack := 0; priority := from_cur c priority SCHED_DEFAULT_PRIO;
           nice := from_cur c nice 0; time_slice := 0; state := PROCESS_READY; wake_at_tick := 0;
           alarm_tick := 0; alarm_interval := 0; utime := 0; itimer_virt_value := 0;
           itimer_virt_interval := 0; itimer_prof_value := 0; itimer_prof_interval := 0;
           exit_status := 0; has_user_regs := 1; user_regs := regs;
           sigactions := from_cur c sigactions (zeros PROCESS_MAX_SIG);
           sig_blocked_mask := from_cur c sig_blocked_mask 0; sig_pending_mask := 0;
           mmaps := from_cur c mmaps no_mmaps; heap_start := 0; heap_break := 0;
           rlimits := replicate 8 (0, 0); cwd := dir; waiting := 0; wait_pid := -1;
           wait_result_pid := -1; wait_result_status := 0; files := fs;
           fd_flags := zip_with (fun f fl => if f =? 0 then 0 else fl) fs (from_cur c fd_flags no_files);
           tgid := pd; flags := 0; tls_base := 0; clear_child_tid := 0; cpu_id := target;
           suid := from_cur c suid 0; sgid := from_cur c sgid 0;
           fpu_state := from_cur c fpu_state fpu0 |} in
      if stack =? 0 then
        s ← (match c with Some _ => process_release_file_refs s x | None => mret s end);
        mret (0, emit (FreeProc p) (emit (MountUnrefPath dir) s))
      else
        s ← launch my s p (set_kernel_stack stack x) target;
        mret (p, s)
  end.

(** The address space of a clone: shared and counted, or the copy [cow].  The
    result says whether the parent's reference was added to the table. *)
Definition clone_as (s : sched) (clone_flags : Z) (par cow : Z) : res (Z * Z * bool * sched) :=
  if Z.land clone_flags CLONE_VM =? 0 then mret (cow, 0, false, s)
  else
    n ← as_refcount_get (asref s) par;
    t ← (if n =? 0 then as_refcount_inc (asref s) par else mret (asref s));
    t ← as_refcount_inc t par;
    mret (par, PROCESS_FLAG_THREAD, n =? 0, set_asref t s).

(** Undoes [clone_as] when there is no stack. *)
Definition clone_as_undo (s : sched) (clone_flags asp : Z) (added : bool) : res sched :=
  if Z.land clone_flags CLONE_VM =? 0 then
    mret (if asp =? 0 then s else emit (AsDestroy asp) s)
  else
    '(_, t) ← as_refcount_dec (asref s) asp;
    '(_, t) ← (if added then as_refcount_dec t asp else mret (0, t));
    mret (set_asref t s).

Definition process_clone_create (my : Z) (s : sched) (clone_flags child_stack : Z)
    (child_regs : option (list Z)) (tls p cow stack : Z) : res (Z * sched) :=
  c ← cur_proc s my;
  match child_regs, c with
  | Some regs, Some c =>
    if p =? 0 then mret (0, s)
    else
      let '(pd, s) := take_pid s in
      '(asp, fl, added, s) ← clone_as s clone_flags (addr_space c) cow;
      if (Z.land clone_flags CLONE_VM =? 0) && (asp =? 0) then mret (0, emit (FreeProc p) s)
      else
        let s := emit (MountRefPath (cwd c)) s in
        s ← file_refs s (files c) 1;
        let regs := arch_regs_set_retval regs 0 in
        let x :=
          {| pid := pd; parent_pid := pid c; session_id := session_id c; pgrp_id := pgrp_id c;
             uid := uid c; gid := gid c; euid := euid c; egid := egid c; addr_space := asp;
             kernel_stack := 0; priority := priority c; nice := nice c; time_slice := 0;
             state := PROCESS_READY; wake_at_tick := 0; alarm_tick := 0; alarm_interval := 0;
             utime := 0; itimer_virt_value := 0; itimer_virt_interval := 0;
             itimer_prof_value := 0; itimer_prof_interval := 0; exit_status := 0;
             has_user_regs := 1;
             user_regs := if child_stack =? 0 then regs else arch_regs_set_ustack regs child_stack;
             sigactions := sigactions c; sig_blocked_mask := sig_blocked_mask c;
             sig_pending_mask := 0; mmaps := mmaps c; heap_start := heap_start c;
             heap_break := heap_break c; rlimits := rlimits c; cwd := cwd c; waiting := 0;
             wait_pid := -1; wait_result_pid := -1; wait_result_status := 0; files := files c;
             fd_flags := fd_flags c;
             tgid := if Z.land clone_flags CLONE_THREAD =? 0 then pd else tgid c; flags := fl;
             tls_base := if Z.land clone_flags CLONE_SETTLS =? 0 then 0 else tls;
             clear_child_tid := 0; cpu_id := 0; suid := suid c; sgid := sgid c;
             fpu_state := fpu_state c |} in
        if stack =? 0 then
          s ← process_release_file_refs s x;
          s ← clone_as_undo (emit (MountUnrefPath (cwd c)) s) clone_flags asp added;
          mret (0, emit (FreeProc p) s)
        else
          target ← sched_pcpu_least_loaded s;
          s ← launch my s p (x |> set_kernel_stack stack |> set_cpu_id target) target;
          mret (p, s)
  | _, _ => mret (0, s)
  end.

(** ** Start-up *)

(** What the idle processes have in common. *)
Definition idle_proc (pd asp stack cpu wpid : Z) (fpu0 : list Z) : proc :=
  {| pid := pd; parent_pid := 0; session_id := 0; pgrp_id := 0; uid := 0; gid := 0; euid := 0;
     egid := 0; addr_space := asp; kernel_stack := stack; priority := SCHED_NUM_PRIOS - 1;
     nice := 19; time_slice := 0; state := PROCESS_RUNNING; wake_at_tick := 0; alarm_tick := 0;
     alarm_interval := 0; utime := 0; itimer_virt_value := 0; itimer_virt_interval := 0;
     itimer_prof_value := 0; itimer_prof_interval := 0; exit_status := 0; has_user_regs := 0;
     user_regs := replicate 17 0; sigactions := zeros PROCESS_MAX_SIG; sig_blocked_mask := 0;
     sig_pending_mask := 0; mmaps := no_mmaps; heap_start := 0; heap_break := 0;
     rlimits := replicate 8 (0, 0); cwd := slash; waiting := 0; wait_pid := wpid;
     wait_result_pid := wpid; wait_result_status := 0; files := zeros PROCESS_MAX_FILES;
     fd_flags := zeros PROCESS_MAX_FILES; tgid := pd; flags := 0; tls_base := 0;
     clear_child_tid := 0; cpu_id := cpu; suid := 0; sgid := 0; fpu_state := fpu0 |}.

Definition set_idle (r : runqs) (c p : Z) : res runqs :=
  crq ← arr_get (pcpu_rq r) c;
  a ← arr_set (pcpu_rq r) c (CpuRq (stores crq) (active crq) (expired crq) p);
  mret (Runqs a (rq_next r) (rq_prev r)).

(** [None] when memory runs out: the processor halts. *)
Definition process_init (my : Z) (s : sched) (asp p stack : Z) (fpu0 : list Z) : res (option sched) :=
  if p =? 0 then mret None
  else
    let s := set_rqs (runqs_init (rq_next (rqs s)) (rq_prev (rqs s))) s in
    let s := emit (MountRefPath slash) (set_kernel_as asp s) in
    if stack =? 0 then mret None
    else
      let s := alloc_proc s p (idle_proc 0 asp stack 0 (-1) fpu0) in
      r ← set_idle (rqs s) 0 p;
      c ← arr_set (current s) my p;
      let s := set_ready_queue_head p (set_ready_queue_tail p (set_current c (set_rqs r s))) in
      nx ← fset (pnext s) p p;
      pv ← fset (pprev s) p p;
      mret (Some (emit (SetKernelStack (u32 (stack + KSTACK_SIZE))) (set_pnext nx (set_pprev pv s)))).

Definition sched_ap_init (my : Z) (s : sched) (cpu p stack : Z) (fpu0 : list Z) : res sched :=
  if (cpu =? 0) || (SCHED_MAX_CPUS <=? cpu) || (p =? 0) then mret s
  else if stack =? 0 then mret (emit (FreeProc p) s)
  else
    let s := emit (MountRefPath slash) s in
    let '(pd, s) := take_pid s in
    s ← link_tail (alloc_proc s p (idle_proc pd (kernel_as s) stack cpu 0 fpu0)) p;
    r ← set_idle (rqs s) cpu p;
    c ← arr_set (current s) my p;
    mret (set_current c (set_rqs r s)).

Definition sched_set_init_pid (s : sched) (pd : Z) : sched := set_init_pid pd s.

Definition sched_assign_pid1 (s : sched) (p : Z) : res sched :=
  if p =? 0 then mret s
  else
    s ← updp s p (fun x => set_tgid 1 (set_pid 1 x));
    mret (set_init_pid 1 s).

(** ** Exit *)

(** [init] collects any child: it is woken for the zombie [it], [y]. *)
Definition wake_init (s : sched) (init_proc : Z) (y : proc) : res sched :=
  i ← getp s init_proc;
  if is_state (state y) PROCESS_ZOMBIE && is_state (state i) PROCESS_BLOCKED &&
     negb (waiting i =? 0) && (wait_pid i =? -1) then
    s ← updp s init_proc (fun i => i |> set_wait_result_pid (s32 (pid y))
          |> set_wait_result_status (exit_status y) |> set_state PROCESS_READY);
    i ← getp s init_proc;
    enqueue_active s (cpu_id i) init_proc
  else mret s.

(** The children of [c], whose PID is [cpid], become children of init. *)
Fixpoint reparent (fuel : nat) (s : sched) (c cpid init_proc it start : Z) : res sched :=
  match fuel with
  | O => NoFuel
  | S fuel =>
      x ← getp s it;
      s ← (if (parent_pid x =? cpid) && negb (it =? c) then
             s ← updp s it (set_parent_pid (init_pid s));
             y ← getp s it;
             wake_init s init_proc y
           else mret s);
      n ← fget (pnext s) it;
      if (n =? 0) || (n =? start) then mret s else reparent fuel s c cpid init_proc n start
  end.

(** The parent is woken when it waits for the process that exits.  The result
    is the CPU to interrupt, if any. *)
Definition wake_parent (s : sched) (x : proc) (status : Z) : res (option Z * sched) :=
  if pid x =? 0 then mret (None, s)
  else
    parent ← process_find_locked s (parent_pid x);
    if parent =? 0 then mret (None, s)
    else
      y ← getp s parent;
      if is_state (state y) PROCESS_BLOCKED && negb (waiting y =? 0) &&
         ((wait_pid y =? -1) || (wait_pid y =? s32 (pid x))) then
        s ← updp s parent (fun y => y |> set_wait_result_pid (s32 (pid x))
              |> set_wait_result_status status |> set_state PROCESS_READY);
        let pcpu := clamp_cpu (cpu_id y) in
        s ← enqueue_active s pcpu parent;
        s ← sched_pcpu_inc_load s pcpu;
        mret (Some pcpu, s)
      else mret (None, s).

Definition process_exit_notify (my : Z) (s : sched) (status : Z) : res sched :=
  c ← cur s my;
  if c =? 0 then mret s
  else
    x ← getp s c;
    let s := emit (MountUnrefPath (cwd x)) s in
    s ← updp s c (fun x => x |> set_exit_status status |> set_state PROCESS_ZOMBIE);
    s ← alarm_queue_remove s c;
    init_proc ← (if init_pid s =? 0 then mret 0 else process_find_locked s (init_pid s));
    let it := ready_queue_head s in
    s ← (if (it =? 0) || (init_proc =? 0) then mret s
         else reparent (nprocs s) s c (pid x) init_proc it it);
    x ← getp s c;
    '(wake_cpu, s) ← wake_parent s x status;
    mret (match wake_cpu with Some w => sched_ipi_resched my s w | None => s end).

(** [None]: the call does not return, the process killed itself. *)
Definition process_kill (my : Z) (s : sched) (pd sig : Z) : res (option Z * sched) :=
  if (pd =? 0) || (sig <=? 0) || (PROCESS_MAX_SIG <=? sig) then mret (Some (- EINVAL), s)
  else
    c ← cur_proc s my;
    match c with
    | Some x =>
        if (pid x =? pd) && (sig =? 9) then
          me ← cur s my;
          s ← process_close_all_files_locked s me;
          s ← process_exit_notify my s (128 + sig);
          s ← schedule s my;
          mret (None, s)
        else '(r, s) ← process_kill_other my s pd sig; mret (Some r, s)
    | None => '(r, s) ← process_kill_other my s pd sig; mret (Some r, s)
    end.

(** ** Reaping and waiting *)

(** Releases the address space of a process that is reaped. *)
Definition release_as (s : sched) (x : proc) : res sched :=
  let a := addr_space x in
  if (a =? 0) || (a =? kernel_as s) then mret s
  else
    n ← as_refcount_get (asref s) a;
    if negb (Z.land (flags x) PROCESS_FLAG_THREAD =? 0) || (0 <? n) then
      '(r, t) ← as_refcount_dec (asref s) a;
      let s := set_asref t s in
      mret (if r =? 0 then emit (AsDestroy a) s else s)
    else mret (emit (AsDestroy a) s).

(** Takes [p] off the process list. *)
Definition unlink_proc (s : sched) (p : Z) : res sched :=
  n ← fget (pnext s) p;
  v ← fget (pprev s) p;
  pv ← fset0 (pprev s) n v;
  v ← fget pv p;
  n ← fget (pnext s) p;
  nx ← fset0 (pnext s) v n;
  n ← fget nx p;
  v ← fget pv p;
  let s := set_pnext nx (set_pprev pv s) in
  let s := if p =? ready_queue_head s then set_ready_queue_head n s else s in
  mret (if p =? ready_queue_tail s then set_ready_queue_tail v s else s).

Definition process_reap_locked (s : sched) (p : Z) : res sched :=
  if p =? 0 then mret s
  else
    x ← getp s p;
    if pid x =? 0 then mret s
    else
      r ← rq_remove_if_queued (nprocs s) (rqs s) p (cpu_id x) (priority x);
      s ← sleep_queue_remove (set_rqs r s) p;
      s ← alarm_queue_remove s p;
      if (p =? ready_queue_head s) && (p =? ready_queue_tail s) then mret s
      else
        s ← unlink_proc s p;
        let s := if kernel_stack x =? 0 then s else emit (KstackFree (kernel_stack x)) s in
        s ← release_as s x;
        mret (free_proc s p).

(** What one pass over the children says. *)
Inductive wait_scan : Type :=
| WsReap (p : Z)
| WsRetry
| WsNone (found_child : bool).

Fixpoint wait_loop (fuel : nat) (s : sched) (cpid want it start : Z) (found : bool) : res wait_scan :=
  match fuel with
  | O => NoFuel
  | S fuel =>
      x ← getp s it;
      let child := parent_pid x =? cpid in
      let found := found || child in
      if child && ((want =? -1) || (s32 (pid x) =? want)) && is_state (state x) PROCESS_ZOMBIE then
        b ← process_is_current_somewhere s it;
        mret (if (b : bool) then WsRetry else WsReap it)
      else
        n ← fget (pnext s) it;
        if (n =? 0) || (n =? start) then mret (WsNone found)
        else wait_loop fuel s cpid want n start found
  end.

(** One turn of the loop of [process_waitpid], up to the point where it returns,
    sleeps for a tick ([process_sleep(1)], then another turn) or blocks
    ([schedule], [wait_resume], then another turn). *)
Inductive wait_step : Type :=
| WReturn (v : Z) (status : option Z)
| WSleep
| WBlock.

Definition process_waitpid_turn (my : Z) (s : sched) (want options : Z) : res (wait_step * sched) :=
  me ← cur s my;
  if me =? 0 then mret (WReturn (- ECHILD) None, s)
  else
    c ← getp s me;
    let nohang := negb (Z.land options WNOHANG =? 0) in
    let it := ready_queue_head s in
    o ← (if it =? 0 then mret (WsNone false) else wait_loop (nprocs s) s (pid c) want it it false);
    match o with
    | WsReap z =>
        x ← getp s z;
        s ← process_reap_locked s z;
        mret (WReturn (s32 (pid x)) (Some (exit_status x)), s)
    | WsRetry => mret (if nohang then WReturn 0 None else WSleep, s)
    | WsNone false => mret (WReturn (- ECHILD) None, s)
    | WsNone true =>
        if nohang then mret (WReturn 0 None, s)
        else
          s ← updp s me (fun x => x |> set_waiting 1 |> set_wait_pid want |> set_wait_result_pid (-1)
                |> set_state PROCESS_BLOCKED);
          mret (WBlock, s)
    end.

Definition wait_resume (my : Z) (s : sched) : res sched :=
  me ← cur s my;
  updp s me (fun x => x |> set_waiting 0 |> set_wait_pid (-1) |> set_wait_result_pid (-1)).
