(* ===== verification/Fd.v ===== *)
(** File descriptors (src/kernel/syscall.c: [fd_alloc], [fd_get], [fd_close], the
    [dup] family, descriptor flags, and what [open], [pipe] and [execve] do with
    them): the table of the current process and the reference counts of the open
    files it points to.

    [epoll_cleanup_fd] is a call recorded in the log: it changes epoll instances
    and nothing of the table. *)

From S2P Require Import Prelude Ring Runq SortedQ AsRef SchedState Sched Process.

Definition EBADF : Z := 9.
Definition EMFILE : Z := 24.
Definition FD_CLOEXEC : Z := 1.

(** ** Entries of a table *)

Definition fd_read (l : list Z) (i : Z) : res Z :=
  if i <? 0 then Ub else match l !! Z.to_nat i with Some v => Ok v | None => Ub end.
Definition fd_write (l : list Z) (i v : Z) : res (list Z) :=
  _ ← fd_read l i; mret (<[Z.to_nat i := v]> l).

(** [current_process->files[fd] = f], [current_process->fd_flags[fd] = v] *)
Definition put_file (s : sched) (c fd f : Z) : res sched :=
  x ← getp s c; l ← fd_write (files x) fd f; updp s c (set_files l).
Definition put_flag (s : sched) (c fd v : Z) : res sched :=
  x ← getp s c; l ← fd_write (fd_flags x) fd v; updp s c (set_fd_flags l).

Definition is_fd (fd : Z) : bool := (0 <=? fd) && (fd <? PROCESS_MAX_FILES).

(** ** Operations *)

(** The first free entry among [n] from [fd] on. *)
Fixpoint fd_scan (n : nat) (l : list Z) (fd : Z) : res (option Z) :=
  match n with
  | O => mret None
  | S n => v ← fd_read l fd; if v =? 0 then mret (Some fd) else fd_scan n l (fd + 1)
  end.

Definition fd_find_from (l : list Z) (start : Z) : res (option Z) :=
  fd_scan (Z.to_nat (PROCESS_MAX_FILES - start)) l start.

Definition fd_alloc_from (my : Z) (s : sched) (start_fd f : Z) : res (Z * sched) :=
  c ← cur s my;
  if (c =? 0) || (f =? 0) then mret (- EINVAL, s)
  else
    let start_fd := if start_fd <? 0 then 0 else start_fd in
    if PROCESS_MAX_FILES <=? start_fd then mret (- EINVAL, s)
    else
      x ← getp s c;
      o ← fd_find_from (files x) start_fd;
      match o with
      | Some fd => s ← put_file s c fd f; mret (fd, s)
      | None => mret (- EMFILE, s)
      end.

Definition fd_alloc (my : Z) (s : sched) (f : Z) : res (Z * sched) :=
  c ← cur s my;
  if (c =? 0) || (f =? 0) then mret (- EINVAL, s)
  else
    x ← getp s c;
    o ← fd_find_from (files x) 3;
    match o with
    | Some fd => s ← put_file s c fd f; mret (fd, s)
    | None => mret (- EMFILE, s)
    end.

Definition fd_get (my : Z) (s : sched) (fd : Z) : res Z :=
  c ← cur s my;
  if c =? 0 then mret 0
  else if negb (is_fd fd) then mret 0
  else x ← getp s c; fd_read (files x) fd.

Definition fd_close (my : Z) (s : sched) (fd : Z) : res (Z * sched) :=
  c ← cur s my;
  if c =? 0 then mret (- EBADF, s)
  else if negb (is_fd fd) then mret (- EBADF, s)
  else
    x ← getp s c;
    f ← fd_read (files x) fd;
    if f =? 0 then mret (- EBADF, s)
    else
      let s := emit (EpollCleanup fd) s in
      s ← put_file s c fd 0;
      s ← close_file s f;
      mret (0, s).

Definition syscall_dup_impl (my : Z) (s : sched) (oldfd : Z) : res (Z * sched) :=
  f ← fd_get my s oldfd;
  if f =? 0 then mret (- EBADF, s)
  else
    s ← file_ref s f 1;
    '(newfd, s) ← fd_alloc_from my s 0 f;
    if newfd <? 0 then s ← file_ref s f (-1); mret (- EMFILE, s)
    else mret (newfd, s).

(** The end of [dup2] and [dup3]. *)
Definition dup_onto (my : Z) (s : sched) (f newfd : Z) : res (Z * sched) :=
  c ← cur s my;
  x ← getp s c;
  v ← fd_read (files x) newfd;
  s ← (if v =? 0 then mret s else '(_, s) ← fd_close my s newfd; mret s);
  s ← file_ref s f 1;
  s ← put_file s c newfd f;
  mret (newfd, s).

Definition syscall_dup2_impl (my : Z) (s : sched) (oldfd newfd : Z) : res (Z * sched) :=
  if negb (is_fd newfd) then mret (- EBADF, s)
  else
    f ← fd_get my s oldfd;
    if f =? 0 then mret (- EBADF, s)
    else if oldfd =? newfd then mret (newfd, s)
    else dup_onto my s f newfd.

Definition syscall_dup3_impl (my : Z) (s : sched) (oldfd newfd flags : Z) : res (Z * sched) :=
  if negb (flags =? 0) then mret (- EINVAL, s)
  else if negb (is_fd newfd) then mret (- EBADF, s)
  else if oldfd =? newfd then mret (- EINVAL, s)
  else
    f ← fd_get my s oldfd;
    if f =? 0 then mret (- EBADF, s) else dup_onto my s f newfd.

(** [fcntl] with [F_GETFD], [F_SETFD] and [F_DUPFD_CLOEXEC]. *)
Definition fcntl_getfd (my : Z) (s : sched) (fd : Z) : res Z :=
  f ← fd_get my s fd;
  if f =? 0 then mret (- EBADF)
  else c ← cur s my; x ← getp s c; fd_read (fd_flags x) fd.

Definition fcntl_setfd (my : Z) (s : sched) (fd arg : Z) : res (Z * sched) :=
  f ← fd_get my s fd;
  if f =? 0 then mret (- EBADF, s)
  else c ← cur s my; s ← put_flag s c fd (u8 (Z.land arg FD_CLOEXEC)); mret (0, s).

Definition fcntl_dupfd_cloexec (my : Z) (s : sched) (fd arg : Z) : res (Z * sched) :=
  f ← fd_get my s fd;
  if f =? 0 then mret (- EBADF, s)
  else
    c ← cur s my;
    x ← getp s c;
    o ← fd_find_from (files x) (s32 arg);
    match o with
    | None => mret (- EMFILE, s)
    | Some new_fd =>
        if new_fd <? 0 then mret (- EMFILE, s)
        else
          s ← put_file s c new_fd f;
          s ← file_ref s f 1;
          s ← put_flag s c new_fd FD_CLOEXEC;
          mret (new_fd, s)
    end.

(** The end of [open]: the new file [f] of [node] gets a descriptor. *)
Definition open_fd (my : Z) (s : sched) (f node root : Z) (cloexec : bool) : res (Z * sched) :=
  let s := set_kfiles (<[f := KFile node root 1]> (kfiles s)) s in
  '(fd, s) ← fd_alloc my s f;
  if fd <? 0 then mret (- EMFILE, emit (FreeFile f) (set_kfiles (delete f (kfiles s)) s))
  else
    let s := if root =? 0 then s else emit (MountRef root) s in
    c ← cur s my;
    s ← (if cloexec then put_flag s c fd FD_CLOEXEC else mret s);
    mret (fd, s).

(** The end of [pipe_create_kfds]: descriptors for both ends, or none. *)
Definition pipe_fds (my : Z) (s : sched) (rf rnode wf wnode : Z) : res (option (Z * Z) * sched) :=
  let s := set_kfiles (<[wf := KFile wnode 0 1]> (<[rf := KFile rnode 0 1]> (kfiles s))) s in
  '(rfd, s) ← fd_alloc my s rf;
  if rfd <? 0 then
    mret (None, emit (VfsClose wnode) (emit (VfsClose rnode) (emit (FreeFile wf) (emit (FreeFile rf)
      (set_kfiles (delete wf (delete rf (kfiles s))) s)))))
  else
    '(wfd, s) ← fd_alloc my s wf;
    if wfd <? 0 then
      '(_, s) ← fd_close my s rfd;
      mret (None, emit (VfsClose wnode) (emit (FreeFile wf) (set_kfiles (delete wf (kfiles s)) s)))
    else mret (Some (rfd, wfd), s).

(** What [execve] does with the descriptors. *)
Fixpoint exec_close (n : nat) (my : Z) (s : sched) (i : Z) : res sched :=
  match n with
  | O => mret s
  | S n =>
      c ← cur s my;
      x ← getp s c;
      v ← fd_read (fd_flags x) i;
      s ← (if Z.land v FD_CLOEXEC =? 0 then mret s
           else '(_, s) ← fd_close my s i; put_flag s c i 0);
      exec_close n my s (i + 1)
  end.
