(* ===== verification/ProcessFiles.v ===== *)
(** The reference counts of open files: every file in a descriptor table exists,
    and its count is the number of descriptors that refer to it plus the
    references held outside the tables ([E]). *)

From S2P Require Import Prelude Ring Runq SortedQ AsRef SchedState Sched Process.

Definition occ (f : Z) (l : list Z) : Z := Z.of_nat (length (filter (fun g => g = f) l)).

Lemma occ_cons f g l : occ f (g :: l) = (if g =? f then 1 else 0) + occ f l.
Proof.
  unfold occ. destruct (Z.eqb_spec g f) as [->|Hne].
  - rewrite filter_cons_True by auto. simpl. lia.
  - rewrite filter_cons_False by auto. reflexivity.
Qed.

Lemma occ_nonneg f l : 0 <= occ f l.
Proof. unfold occ. lia. Qed.

Lemma occ_in f l : f ∈ l -> 0 < occ f l.
Proof.
  intros Hin. unfold occ. destruct (filter (fun g => g = f) l) eqn:E; simpl; [|lia].
  assert (Hf : f ∈ filter (fun g => g = f) l) by (apply list_elem_of_filter; auto). rewrite E in Hf. set_solver.
Qed.

Lemma occ_out f l : f ∉ l -> occ f l = 0.
Proof.
  induction l as [|g l IH]; intros Hni; [reflexivity|]. rewrite occ_cons, IH by set_solver.
  destruct (Z.eqb_spec g f); [set_solver|reflexivity].
Qed.

Lemma occ_no_files f : f <> 0 -> occ f no_files = 0.
Proof.
  intros Hf. apply occ_out. intros Hin. unfold no_files, zeros in Hin. apply elem_of_replicate in Hin. tauto.
Qed.

(** Descriptors that refer to [f]. *)
Definition nrefs (m : gmap Z (list Z)) (f : Z) : Z := map_fold (fun _ l n => occ f l + n) 0 m.

Lemma nrefs_insert m p l f : m !! p = None -> nrefs (<[p := l]> m) f = occ f l + nrefs m f.
Proof.
  intros Hp. unfold nrefs. rewrite (map_fold_insert_L _ 0 p l m); [reflexivity| |auto].
  intros. lia.
Qed.

Lemma nrefs_delete m p l f : m !! p = Some l -> nrefs m f = occ f l + nrefs (delete p m) f.
Proof.
  intros Hp. rewrite <- (insert_delete_id m p l Hp) at 1. apply nrefs_insert, lookup_delete_eq.
Qed.

Lemma nrefs_replace m p l l' f : m !! p = Some l -> nrefs (<[p := l']> m) f = nrefs m f - occ f l + occ f l'.
Proof.
  intros Hp. rewrite (nrefs_delete m p l f Hp), <- insert_delete_eq, nrefs_insert by apply lookup_delete_eq. lia.
Qed.

Lemma nrefs_nonneg m f : 0 <= nrefs m f.
Proof.
  unfold nrefs. apply (map_fold_weak_ind (fun r _ => 0 <= r)); [lia|].
  intros p l m' r _ Hr. pose proof (occ_nonneg f l). lia.
Qed.

Definition tables (s : sched) : gmap Z (list Z) := files <$> procs s.

(** [E f] references to [f] are held elsewhere. *)
Definition files_ok (kf : gmap Z kfile) (t : gmap Z (list Z)) (E : Z -> Z) : Prop :=
  forall f, f <> 0 -> 0 <= E f /\
    match kf !! f with
    | Some k => f_refcount k = nrefs t f + E f /\ 0 < f_refcount k < 4294967296
    | None => nrefs t f = 0 /\ E f = 0
    end.

(** ** Taking and dropping references *)

Definition bump (d : Z) (k : kfile) : kfile := KFile (f_node k) (f_mount_root k) (f_refcount k + d).

(** Changing the count of every file of [l] by [d] each time it occurs. *)
Definition bumped (kf kf' : gmap Z kfile) (l : list Z) (d : Z) : Prop :=
  forall f, kf' !! f = bump (if f =? 0 then 0 else d * occ f l) <$> kf !! f.

Definition in_bounds (kf : gmap Z kfile) (l : list Z) (d : Z) : Prop :=
  forall f, f ∈ l -> f <> 0 -> exists k, kf !! f = Some k /\ 0 <= f_refcount k < 4294967296 /\
    0 <= f_refcount k + d * occ f l < 4294967296.

Lemma file_ref_ok s f d k :
  kfiles s !! f = Some k -> 0 <= f_refcount k + d < 4294967296 ->
  file_ref s f d = Ok (set_kfiles (<[f := bump d k]> (kfiles s)) s).
Proof.
  intros Hk Hb. unfold file_ref. rewrite (fget_ok _ _ _ Hk), res_bind_ok. unfold bump.
  rewrite u32_small by lia. reflexivity.
Qed.

Lemma file_refs_ok l : forall s d,
  d = 1 \/ d = -1 -> in_bounds (kfiles s) l d ->
  exists kf, file_refs s l d = Ok (set_kfiles kf s) /\ bumped (kfiles s) kf l d.
Proof.
  induction l as [|g l IH]; intros s d Hd Hb.
  { exists (kfiles s). split; [destruct s; reflexivity|]. intros f. unfold occ. simpl. rewrite Z.mul_0_r.
    destruct (f =? 0); destruct (kfiles s !! f) as [[]|]; simpl; unfold bump; simpl; rewrite ?Z.add_0_r; reflexivity. }
  cbn [file_refs]. destruct (Z.eqb_spec g 0) as [->|Hg].
  - rewrite res_bind_ok. destruct (IH s d Hd) as (kf & -> & Hkf).
    { intros f Hf Hf0. destruct (Hb f) as (k & Hk & B1 & B2); [set_solver|auto|]. exists k.
      rewrite occ_cons in B2. destruct (Z.eqb_spec 0 f); [congruence|]. auto. }
    exists kf. split; [reflexivity|]. intros f. rewrite Hkf, occ_cons.
    destruct (Z.eqb_spec f 0), (Z.eqb_spec 0 f); try congruence. reflexivity.
  - destruct (Hb g) as (k & Hk & B1 & B2); [set_solver|auto|]. rewrite occ_cons, Z.eqb_refl in B2.
    pose proof (occ_nonneg g l) as Hon.
    assert (Hb1 : 0 <= f_refcount k + d < 4294967296) by (destruct Hd as [-> | ->]; lia).
    rewrite (file_ref_ok s g d k Hk Hb1), res_bind_ok.
    destruct (IH (set_kfiles (<[g := bump d k]> (kfiles s)) s) d Hd) as (kf & -> & Hkf).
    { intros f Hf Hf0. simpl. destruct (decide (g = f)) as [<-|Hne].
      - rewrite lookup_insert_eq. exists (bump d k). simpl. split_and!; auto; lia.
      - rewrite lookup_insert_ne by auto. destruct (Hb f) as (k' & Hk' & B1' & B2'); [set_solver|auto|].
        exists k'. rewrite occ_cons in B2'. destruct (Z.eqb_spec g f); [congruence|]. auto. }
    exists kf. split; [reflexivity|]. intros f. rewrite Hkf. simpl. rewrite occ_cons.
    destruct (decide (g = f)) as [<-|Hne].
    + rewrite lookup_insert_eq, Hk, Z.eqb_refl. simpl. unfold bump. simpl.
      destruct (Z.eqb_spec g 0); [congruence|]. do 2 f_equal. lia.
    + rewrite lookup_insert_ne by auto. destruct (Z.eqb_spec g f); [congruence|]. reflexivity.
Qed.

(** Every file of [l] loses its references; the last one closes it. *)
Definition dropped (kf kf' : gmap Z kfile) (l : list Z) : Prop :=
  forall f, kf' !! f = match kf !! f with
    | Some k => if f =? 0 then Some k
                else if (0 <? occ f l) && (f_refcount k =? occ f l) then None
                else Some (bump (- occ f l) k)
    | None => None
    end.

Definition may_drop (kf : gmap Z kfile) (l : list Z) : Prop :=
  forall f, f ∈ l -> f <> 0 -> exists k, kf !! f = Some k /\ occ f l <= f_refcount k < 4294967296.

Lemma close_file_ok s f k :
  kfiles s !! f = Some k -> 0 < f_refcount k < 4294967296 ->
  exists lg, close_file s f = Ok (set_log lg (set_kfiles
    (if f_refcount k =? 1 then delete f (kfiles s) else <[f := bump (-1) k]> (kfiles s)) s)).
Proof.
  intros Hk Hb. unfold close_file. rewrite (file_ref_ok s f (-1) k Hk), res_bind_ok by lia.
  cbn [kfiles set_kfiles]. rewrite (fget_ok _ f (bump (-1) k)), res_bind_ok by apply lookup_insert_eq.
  simpl f_refcount. destruct (Z.eqb_spec (f_refcount k) 1), (Z.eqb_spec (f_refcount k + -1) 0); try lia.
  - unfold emit. repeat case_match; eexists; simpl; rewrite delete_insert_eq; reflexivity.
  - exists (log s). destruct s; reflexivity.
Qed.

Lemma close_files_ok l : forall s,
  may_drop (kfiles s) l ->
  exists kf lg, close_files s l = Ok (set_log lg (set_kfiles kf s)) /\ dropped (kfiles s) kf l.
Proof.
  induction l as [|g l IH]; intros s Hb.
  { exists (kfiles s), (log s). split; [destruct s; reflexivity|]. intros f. unfold occ. simpl.
    destruct (kfiles s !! f) as [[]|]; [|reflexivity]. destruct (f =? 0); [reflexivity|].
    unfold bump. simpl. rewrite Z.add_0_r. reflexivity. }
  cbn [close_files]. destruct (Z.eqb_spec g 0) as [->|Hg].
  - rewrite res_bind_ok. destruct (IH s) as (kf & lg & -> & Hkf).
    { intros f Hf Hf0. destruct (Hb f) as (k & Hk & B); [set_solver|auto|]. exists k.
      rewrite occ_cons in B. destruct (Z.eqb_spec 0 f); [congruence|]. auto. }
    exists kf, lg. split; [reflexivity|]. intros f. rewrite Hkf, occ_cons.
    destruct (Z.eqb_spec f 0), (Z.eqb_spec 0 f); try congruence. reflexivity.
  - destruct (Hb g) as (k & Hk & B); [set_solver|auto|]. rewrite occ_cons, Z.eqb_refl in B.
    pose proof (occ_nonneg g l) as Hon.
    destruct (close_file_ok s g k Hk ltac:(lia)) as (lg1 & ->). rewrite res_bind_ok.
    set (kf1 := if f_refcount k =? 1 then delete g (kfiles s) else <[g := bump (-1) k]> (kfiles s)).
    assert (Hne1 : forall f, f <> g -> kf1 !! f = kfiles s !! f).
    { intros f Hf. unfold kf1. destruct (f_refcount k =? 1); [apply lookup_delete_ne|apply lookup_insert_ne]; auto. }
    destruct (IH (set_log lg1 (set_kfiles kf1 s))) as (kf & lg & -> & Hkf).
    { intros f Hf Hf0. simpl. destruct (decide (f = g)) as [->|Hne].
      - pose proof (occ_in g l Hf). exists (bump (-1) k). unfold kf1.
        destruct (Z.eqb_spec (f_refcount k) 1); [lia|]. rewrite lookup_insert_eq. simpl. split; [reflexivity|lia].
      - rewrite Hne1 by auto. destruct (Hb f) as (k' & Hk' & B'); [set_solver|auto|].
        exists k'. rewrite occ_cons in B'. destruct (Z.eqb_spec g f); [congruence|]. auto. }
    exists kf, lg. split; [reflexivity|]. intros f. rewrite Hkf. simpl. rewrite occ_cons.
    destruct (Z.eqb_spec g f) as [<-|Hne]; [|rewrite Hne1 by auto; reflexivity].
    rewrite Hk. destruct (Z.eqb_spec g 0); [congruence|]. unfold kf1. destruct (Z.eqb_spec (f_refcount k) 1) as [E1|E1].
    + rewrite lookup_delete_eq. assert (occ g l = 0) as -> by lia. rewrite E1. reflexivity.
    + rewrite lookup_insert_eq. simpl. destruct (Z.ltb_spec 0 (1 + occ g l)); [|lia]. cbn [andb].
      destruct (Z.ltb_spec 0 (occ g l)), (Z.eqb_spec (f_refcount k + -1) (occ g l)),
        (Z.eqb_spec (f_refcount k) (1 + occ g l)); cbn [andb]; try lia; try reflexivity;
        unfold bump; simpl; do 2 f_equal; lia.
Qed.

(** ** The invariant *)

(** A file in a descriptor table exists and is counted. *)
Lemma files_live kf t E q l f :
  files_ok kf t E -> t !! q = Some l -> f ∈ l -> f <> 0 ->
  exists k, kf !! f = Some k /\ occ f l <= f_refcount k < 4294967296.
Proof.
  intros H Hq Hf H0. destruct (H f H0) as [HE Hk]. pose proof (occ_in f l Hf) as Ho.
  pose proof (nrefs_delete t q l f Hq) as Hd. pose proof (nrefs_nonneg (delete q t) f) as Hn.
  destruct (kf !! f) as [k|]; [exists k; split; [auto|lia]|lia].
Qed.

Definition live (kf : gmap Z kfile) (l : list Z) : Prop := forall f, f ∈ l -> f <> 0 -> is_Some (kf !! f).

Lemma files_ok_add kf kf' t E p l :
  files_ok kf t E -> t !! p = None -> bumped kf kf' l 1 -> live kf l ->
  (forall f k, kf !! f = Some k -> f_refcount k + occ f l < 4294967296) ->
  files_ok kf' (<[p := l]> t) E.
Proof.
  intros H Hp Hb Hl Hr f H0. destruct (H f H0) as [HE Hk]. split; [auto|].
  rewrite Hb, nrefs_insert by auto. destruct (Z.eqb_spec f 0); [congruence|].
  pose proof (occ_nonneg f l). destruct (kf !! f) as [k|] eqn:E'; simpl.
  - specialize (Hr f k E'). lia.
  - rewrite occ_out; [lia|]. intros Hin. destruct (Hl f Hin H0). congruence.
Qed.

Lemma bumped_back kf kf1 kf2 l : bumped kf kf1 l 1 -> bumped kf1 kf2 l (-1) -> kf2 = kf.
Proof.
  intros H1 H2. apply map_eq. intros f. rewrite H2, H1. destruct (kf !! f) as [[n r c]|]; simpl; [|reflexivity].
  unfold bump. simpl. do 2 f_equal. destruct (f =? 0); lia.
Qed.

Lemma in_bounds_up kf t E l :
  files_ok kf t E -> live kf l ->
  (forall f k, kf !! f = Some k -> f_refcount k + occ f l < 4294967296) -> in_bounds kf l 1.
Proof.
  intros H Hl Hr f Hf H0. destruct (Hl f Hf H0) as [k Hk]. exists k. specialize (Hr f k Hk).
  destruct (H f H0) as [_ HE]. rewrite Hk in HE. pose proof (occ_nonneg f l). split_and!; auto; lia.
Qed.

Lemma in_bounds_down kf kf1 t E l :
  files_ok kf t E -> live kf l -> bumped kf kf1 l 1 ->
  (forall f k, kf !! f = Some k -> f_refcount k + occ f l < 4294967296) -> in_bounds kf1 l (-1).
Proof.
  intros H Hl Hb Hr f Hf H0. destruct (Hl f Hf H0) as [k Hk]. specialize (Hr f k Hk).
  destruct (H f H0) as [_ HE]. rewrite Hk in HE. pose proof (occ_nonneg f l).
  exists (bump (occ f l) k). rewrite Hb, Hk. destruct (Z.eqb_spec f 0); [congruence|].
  simpl. rewrite Z.mul_1_l. split; [reflexivity|]. lia.
Qed.

(** Closing every descriptor of a process. *)
Lemma files_ok_close kf kf' t E p l l' :
  files_ok kf t E -> t !! p = Some l -> dropped kf kf' l -> (forall f, f <> 0 -> occ f l' = 0) ->
  files_ok kf' (<[p := l']> t) E.
Proof.
  intros H Hp Hd Hl' f H0. destruct (H f H0) as [HE Hk]. split; [auto|]. rewrite Hd.
  rewrite (nrefs_replace t p l l' f Hp), Hl' by auto. destruct (Z.eqb_spec f 0); [congruence|].
  pose proof (nrefs_delete t p l f Hp) as Hdel. pose proof (nrefs_nonneg (delete p t) f).
  pose proof (occ_nonneg f l). destruct (kf !! f) as [k|]; [|lia].
  destruct (Z.ltb_spec 0 (occ f l)), (Z.eqb_spec (f_refcount k) (occ f l)); cbn [andb]; simpl; lia.
Qed.
