(* ===== verification/ProcessInv.v ===== *)
(** Adding a process to the scheduler's data structures and taking one out keep
    the invariant. *)

From Stdlib Require Import Sorting.Sorted.
From S2P Require Import Prelude Bitmap Ring Runq SortedQ AsRef SchedState Sched SchedInv SchedSpec SchedTick SchedOps Process.

(** ** Links of processes outside the queues do not matter *)

Lemma rq_ok_links s Q nx pv :
  rq_ok s Q ->
  (forall p, queued Q p -> nx !! p = rq_next s !! p /\ pv !! p = rq_prev s !! p) ->
  rq_ok (Runqs (pcpu_rq s) nx pv) Q.
Proof.
  intros H Hl. split; try apply H. intros c k i Hr. destruct (rq_queues _ _ H c k i Hr) as (E1 & E2 & E3).
  split_and!; auto. eapply seg_ext; [|exact E3]. intros x Hx. apply Hl. red. eauto.
Qed.

Lemma tq_ok_links K s l nx pv inq :
  tq_ok K s l ->
  (forall p, p ∈ l -> nx !! p = tq_next s !! p /\ pv !! p = tq_prev s !! p /\ inq !! p = tq_in s !! p) ->
  (forall p v, p ∉ l -> inq !! p = Some v -> v = 0) ->
  tq_ok K (TQueue (tq_head s) nx pv inq) l.
Proof.
  intros [H1 H2 H3 H4 H5 H6 H7] Hl Hout. split; auto; simpl.
  - eapply seg_ext; [|exact H2]. intros x Hx. destruct (Hl x Hx) as (? & ? & _). auto.
  - intros x Hx. destruct (Hl x Hx) as (_ & _ & ->). auto.
Qed.

Lemma lastd_split (l : list Z) : forall h, exists k, h :: l = k ++ [lastd h l].
Proof.
  induction l as [|x l IH]; intros h; simpl; [exists []; reflexivity|].
  destruct (IH x) as [k ->]. exists (h :: k). reflexivity.
Qed.

(** Insertion at the end of a circular list. *)
Lemma ring_snoc (nx pv : gmap Z Z) h l n :
  ring nx pv h l -> n ∉ h :: l ->
  ring (<[lastd h l := n]> (<[n := h]> nx)) (<[h := n]> (<[n := lastd h l]> pv)) h (l ++ [n]).
Proof.
  intros [Hl Hd] Hn. split.
  - destruct (lastd_split l h) as [k Ek]. set (t := lastd h l) in *.
    assert (Hnt : t ∈ h :: l) by (rewrite Ek; set_solver).
    assert (n <> h /\ n <> t) as [Hnh Hnt'] by set_solver.
    rewrite app_comm_cons, Ek in Hl. rewrite <- app_assoc in Hl. simpl in Hl.
    apply linked_app in Hl as [Lk _].
    rewrite <- app_assoc, app_comm_cons, Ek, <- app_assoc. simpl. apply linked_app. split.
    + assert (Hdk : NoDup (k ++ [t])) by (rewrite <- Ek; auto).
      apply NoDup_app in Hdk as (_ & Hkt & _).
      eapply linked_ext; [| |exact Lk].
      * intros i x Hi Hlt. rewrite length_app in Hlt; simpl in Hlt. rewrite lookup_app_l in Hi by lia.
        assert (Hx : x ∈ k) by (apply list_elem_of_lookup; eauto).
        rewrite !lookup_insert_ne; auto.
        -- intros ->. apply Hn. rewrite Ek. set_solver.
        -- intros E. apply (Hkt x Hx). set_solver.
      * intros i x Hi. rewrite <- Ek in Hi. simpl in Hi.
        assert (Hx : x ∈ l) by (apply list_elem_of_lookup; eauto).
        apply NoDup_cons in Hd as [Hh _]. rewrite !lookup_insert_ne; auto; intros ->; set_solver.
    + simpl. split_and!; auto; simplify_map_eq; auto.
  - rewrite app_comm_cons. apply NoDup_app. split; [auto|]. split; [set_solver|apply NoDup_singleton].
Qed.

(** ** A new process *)

Section add.
Context {s : sched} {Q : Z -> Z -> Z -> list Z} {SL AL G : list Z}.
Context (H : sched_ok None s Q SL AL G) (p : Z) (x : proc).
Context (Hp : procs s !! p = None) (Hp0 : p <> 0).

Lemma fresh_facts : p ∉ ready_queue_head s :: G /\ ~ queued Q p /\ p ∉ SL /\ p ∉ AL /\
  (forall c, 0 <= c < SCHED_MAX_CPUS -> arr_at (current s) c <> p).
Proof.
  assert (Hns : ~ is_Some (procs s !! p)) by (rewrite Hp; intros [? ?]; discriminate).
  split_and!.
  - rewrite <- (so_procs _ _ _ _ _ _ H). auto.
  - intros (c & k & i & Hq). destruct (so_queued _ _ _ _ _ _ H _ _ _ _ Hq) as (_ & y & Hy & _). congruence.
  - intros Hs. destruct (so_asleep _ _ _ _ _ _ H p Hs) as (y & Hy & _). congruence.
  - intros Hs. destruct (so_alarms _ _ _ _ _ _ H p Hs). congruence.
  - intros c Hc E. destruct (so_current _ _ _ _ _ _ H c Hc) as (y & Hy & _); congruence.
Qed.

Definition linked_new : sched :=
  let h := ready_queue_head s in let t := ready_queue_tail s in
  let s1 := alloc_proc s p x in
  set_ready_queue_tail p (set_pnext (<[t := p]> (<[p := h]> (pnext s1)))
    (set_pprev (<[h := p]> (<[p := t]> (pprev s1))) s1)).

Lemma link_tail_ok : link_tail (alloc_proc s p x) p = Ok linked_new.
Proof.
  destruct fresh_facts as (Hr & _). unfold link_tail. simpl.
  pose proof (so_ring _ _ _ _ _ _ H) as Hring.
  assert (Ht : is_Some (pnext s !! ready_queue_tail s)).
  { rewrite (so_tail _ _ _ _ _ _ H). destruct (lastd_split G (ready_queue_head s)) as [k Ek].
    rewrite (ring_succ _ _ _ _ _ _ _ Hring Ek). eauto. }
  rewrite (fset_ok (<[p := 0]> (pnext s))), res_bind_ok by (rewrite lookup_insert_eq; eauto).
  rewrite (fset_ok (<[p := 0]> (pprev s))), res_bind_ok by (rewrite lookup_insert_eq; eauto).
  rewrite (fset_ok (<[p := ready_queue_head s]> _)), res_bind_ok by (do 2 apply insert_is_Some; auto).
  rewrite fset_ok by (do 2 apply insert_is_Some; eapply ring_prev_sentinel; eauto). rewrite res_bind_ok.
  unfold linked_new. cbv zeta.
  change (pnext (alloc_proc s p x)) with (<[p := 0]> (pnext s)).
  change (pprev (alloc_proc s p x)) with (<[p := 0]> (pprev s)). reflexivity.
Qed.

Lemma insert0_is_Some (m : gmap Z Z) q (v : Z) : is_Some (m !! q) \/ q = p -> is_Some (<[p := v]> m !! q).
Proof. intros [Hq| ->]; [apply insert_is_Some; auto|rewrite lookup_insert_eq; eauto]. Qed.

Lemma sched_ok_new :
  0 <= priority x < SCHED_NUM_PRIOS -> 0 <= cpu_id x < SCHED_MAX_CPUS -> state x <> PROCESS_RUNNING ->
  sched_ok (Some p) linked_new Q SL AL (G ++ [p]).
Proof.
  intros Hpr Hcpu Hnr. destruct fresh_facts as (Hr & Hq & Hs & Ha & Hc).
  assert (Hne : forall q y, procs s !! q = Some y -> q <> p) by congruence.
  assert (Hold : forall q y, procs s !! q = Some y -> <[p := x]> (procs s) !! q = Some y)
    by (intros q y Hy; rewrite lookup_insert_ne; eauto; intros ->; eapply Hne; eauto).
  assert (Hlk : forall q z, <[p := x]> (procs s) !! q = Some z -> q = p /\ z = x \/ procs s !! q = Some z).
  { intros q z. destruct (decide (p = q)) as [->|]; [rewrite lookup_insert_eq; intros [= <-]; auto|].
    rewrite lookup_insert_ne by auto. auto. }
  assert (Hz : forall (m : gmap Z Z) (l : list Z), p ∉ l -> forall q, q ∈ l -> <[p := 0]> m !! q = m !! q)
    by (intros m l Hl q Hin; apply lookup_insert_ne; intros ->; contradiction).
  assert (Hout : forall K q l (Hok : tq_ok K q l) r v, r ∉ l -> <[p := 0]> (tq_in q) !! r = Some v -> v = 0).
  { intros K q l Hok r v Hrl. destruct (decide (p = r)) as [->|]; [rewrite lookup_insert_eq; congruence|].
    rewrite lookup_insert_ne by auto. apply (tq_ok_out _ _ _ Hok). auto. }
  split; simpl; try apply H.
  - apply (rq_ok_links (rqs s)); [apply H|]. intros q Hqq. rewrite !lookup_insert_ne; auto; intros ->; auto.
  - eapply tq_ok_key; [|apply (tq_ok_links (wake_of s) (sleepq s)); [apply H| |eapply Hout, H]].
    + intros q Hin. unfold wake_of. simpl. rewrite lookup_insert_ne; [reflexivity|congruence].
    + intros q Hin. rewrite !(Hz _ _ Hs) by auto. auto.
  - eapply tq_ok_key; [|apply (tq_ok_links (alarm_of s) (alarmq s)); [apply H| |eapply Hout, H]].
    + intros q Hin. unfold alarm_of. simpl. rewrite lookup_insert_ne; [reflexivity|congruence].
    + intros q Hin. rewrite !(Hz _ _ Ha) by auto. auto.
  - rewrite !insert_insert_eq, (so_tail _ _ _ _ _ _ H). apply ring_snoc; [apply H|auto].
  - rewrite lastd_app. reflexivity.
  - intros q. rewrite app_comm_cons, elem_of_app, <- (so_procs _ _ _ _ _ _ H), list_elem_of_singleton.
    destruct (decide (p = q)) as [->|Hpq]; [rewrite lookup_insert_eq; split; eauto|].
    rewrite lookup_insert_ne by auto. split; [auto|intros [?|?]; [auto|congruence]].
  - rewrite lookup_insert_ne by auto. apply H.
  - intros q Hqs. unfold rq_dom, tq_dom. simpl.
    assert (Hcase : is_Some (procs s !! q) \/ q = p).
    { destruct Hqs as [z Hz']. destruct (Hlk q z Hz') as [[-> _]|]; eauto. }
    destruct Hcase as [Hin| ->]; [|rewrite !lookup_insert_eq; split_and!; eauto].
    destruct (so_dom _ _ _ _ _ _ H q Hin) as ((? & ?) & (? & ? & ?) & (? & ? & ?)).
    split_and!; apply insert0_is_Some; auto.
  - intros q z [[-> ->]|Hzz]%Hlk; [auto|apply (so_bounds _ _ _ _ _ _ H q z Hzz)].
  - intros c k i q Hin. destruct (so_queued _ _ _ _ _ _ H c k i q Hin) as (_ & z & Hzz & E).
    split; [intros [= ->]; apply Hq; red; eauto|]. exists z. auto.
  - intros q z [[-> ->]|Hzz]%Hlk Hst; [auto|]. destruct (so_ready _ _ _ _ _ _ H q z Hzz Hst); [auto|discriminate].
  - intros q Hin. destruct (so_asleep _ _ _ _ _ _ H q Hin) as (z & Hzz & E). eauto.
  - intros q Hin. destruct (so_alarms _ _ _ _ _ _ H q Hin) as [z Hzz]. eauto.
  - intros c Hcc Hn. destruct (so_current _ _ _ _ _ _ H c Hcc Hn) as (z & Hzz & E). eauto.
  - intros q z [[-> ->]|Hzz]%Hlk Hst; [contradiction|apply (so_running _ _ _ _ _ _ H q z Hzz Hst)].
  - intros c Hcc Hn. destruct (so_idle _ _ _ _ _ _ H c Hcc Hn) as (z & Hzz & E).
    unfold idle_at in *. simpl. eauto.
Qed.

(** [launch]: the process joins the list and the active queue of its CPU. *)
Lemma launch_ok my :
  0 <= priority x < SCHED_NUM_PRIOS -> 0 <= cpu_id x < SCHED_MAX_CPUS -> state x = PROCESS_READY ->
  exists s' Q', launch my s p x (cpu_id x) = Ok s' /\ sched_ok None s' Q' SL AL (G ++ [p]) /\
    procs s' = <[p := x]> (procs s) /\ current s' = current s /\
    ready_queue_head s' = ready_queue_head s /\ asref s' = asref s /\ kfiles s' = kfiles s.
Proof.
  intros Hpr Hcpu Hst. unfold launch. rewrite link_tail_ok, res_bind_ok.
  assert (H1 : sched_ok (Some p) linked_new Q SL AL (G ++ [p])) by (apply sched_ok_new; auto; congruence).
  destruct (enqueue_ok true _ _ _ _ _ p x H1 (lookup_insert_eq _ _ _) Hst) as (r & Hr & _ & H2).
  simpl enqueue_role in Hr. rewrite Hr, res_bind_ok.
  destruct (inc_load_ok _ _ _ _ _ _ (cpu_id x) H2) as (a & -> & H3); [lia|]. rewrite res_bind_ok.
  eexists _, _. split; [reflexivity|]. split; [apply sched_ok_ipi; exact H3|]. rewrite ipi_procs.
  unfold sched_ipi_resched. destruct (cpu_id x =? my); auto 10.
Qed.
End add.

(** ** A process leaves *)

Lemma ring_pred (nx pv : gmap Z Z) h l1 n l2 :
  ring nx pv h (l1 ++ n :: l2) -> pv !! n = Some (lastd h l1) /\ nx !! n = Some (hd h l2).
Proof.
  intros Hr. destruct (ring_split _ _ _ _ _ _ Hr) as (k & p & q & t & Ek & Et & Hp & Hq & _).
  destruct (lastd_split l1 h) as [k' Ek']. rewrite Ek' in Ek. apply app_inj_tail in Ek as [_ <-].
  split; [auto|]. destruct l2; simpl in *; congruence.
Qed.

Section remove.
Context {s : sched} {Q : Z -> Z -> Z -> list Z} {SL AL : list Z} {l1 l2 : list Z} {p : Z}.
Context (H : sched_ok None s Q SL AL (l1 ++ p :: l2)).

Definition unlinked : sched :=
  let a := lastd (ready_queue_head s) l1 in let b := hd (ready_queue_head s) l2 in
  set_ready_queue_tail (if is_nil l2 then a else ready_queue_tail s)
    (set_pnext (<[a := b]> (pnext s)) (set_pprev (<[b := a]> (pprev s)) s)).

Lemma unlink_facts : p <> ready_queue_head s /\ p <> 0 /\
  lastd (ready_queue_head s) l1 <> p /\ hd (ready_queue_head s) l2 <> p /\
  lastd (ready_queue_head s) l1 ∈ ready_queue_head s :: l1 ++ l2 /\
  hd (ready_queue_head s) l2 ∈ ready_queue_head s :: l1 ++ l2 /\
  (p = ready_queue_tail s <-> l2 = []).
Proof.
  destruct (so_ring _ _ _ _ _ _ H) as [_ Hd]. apply NoDup_cons in Hd as [Hh Hd].
  apply NoDup_app in Hd as (Hd1 & Hd12 & Hd2). apply NoDup_cons in Hd2 as [Hp2 Hd2].
  assert (Hp1 : p ∉ l1) by (intros Hin; apply (Hd12 p Hin); set_solver).
  assert (Hph : p <> ready_queue_head s) by set_solver.
  assert (Ha : lastd (ready_queue_head s) l1 ∈ ready_queue_head s :: l1)
    by (destruct (lastd_elem l1 (ready_queue_head s)) as [->|]; set_solver).
  assert (Hb : hd (ready_queue_head s) l2 ∈ ready_queue_head s :: l2)
    by (destruct (hd_elem (ready_queue_head s) l2) as [->|]; set_solver).
  split; [auto|]. split; [|split; [|split; [|split; [|split]]]].
  - intros ->. assert (Hz : is_Some (procs s !! 0)) by (apply (so_procs _ _ _ _ _ _ H); set_solver).
    rewrite (so_zero _ _ _ _ _ _ H) in Hz. destruct Hz; discriminate.
  - intros E. rewrite E in Ha. clear -Ha Hph Hp1. set_solver.
  - intros E. rewrite E in Hb. clear -Hb Hph Hp2. set_solver.
  - clear -Ha. set_solver.
  - clear -Hb. set_solver.
  - rewrite (so_tail _ _ _ _ _ _ H), lastd_app. simpl. split; [|intros ->; reflexivity].
    intros E. destruct l2 as [|y l2']; [reflexivity|]. exfalso. simpl in E.
    destruct (lastd_elem l2' y) as [E'|Hin]; [rewrite E' in E; set_solver|rewrite <- E in Hin; set_solver].
Qed.

Lemma unlink_proc_ok : unlink_proc s p = Ok unlinked.
Proof.
  destruct unlink_facts as (Hph & Hp0 & Ha & Hb & Hain & Hbin & Ht).
  destruct (ring_pred _ _ _ _ _ _ (so_ring _ _ _ _ _ _ H)) as [Hpv Hnx].
  pose proof (so_ring _ _ _ _ _ _ H) as Hring.
  assert (Hall : forall q, q ∈ ready_queue_head s :: l1 ++ l2 -> is_Some (pnext s !! q) /\ is_Some (pprev s !! q) /\ q <> 0).
  { intros q Hq. assert (Hin : q ∈ ready_queue_head s :: l1 ++ p :: l2) by set_solver.
    split_and!.
    - destruct (list_elem_of_split _ _ Hin) as (k1 & k2 & E). rewrite (ring_succ _ _ _ _ _ _ _ Hring E). eauto.
    - apply elem_of_cons in Hin as [->|Hin]; [eapply ring_prev_sentinel; eauto|].
      destruct (list_elem_of_split _ _ Hin) as (k1 & k2 & E). rewrite E in Hring.
      destruct (ring_pred _ _ _ _ _ _ Hring) as [-> _]. eauto.
    - intros ->. apply (so_procs _ _ _ _ _ _ H) in Hin. rewrite (so_zero _ _ _ _ _ _ H) in Hin. destruct Hin; discriminate. }
  destruct (Hall _ Hain) as (Ha1 & _ & Ha0), (Hall _ Hbin) as (_ & Hb1 & Hb0).
  unfold unlink_proc. set (a := lastd (ready_queue_head s) l1) in *. set (b := hd (ready_queue_head s) l2) in *.
  rewrite !(fget_ok _ _ _ Hnx), !res_bind_ok, (fget_ok _ _ _ Hpv), res_bind_ok.
  rewrite (fset0_ok (pprev s)), res_bind_ok by auto. unfold upd0.
  destruct (Z.eqb_spec b 0); [contradiction|].
  rewrite (fget_ok (<[b := a]> (pprev s)) p a), !res_bind_ok by (rewrite lookup_insert_ne; auto).
  rewrite (fset0_ok (pnext s)), res_bind_ok by auto. unfold upd0.
  destruct (Z.eqb_spec a 0); [contradiction|].
  rewrite (fget_ok (<[a := b]> (pnext s)) p b), res_bind_ok by (rewrite lookup_insert_ne; auto).
  rewrite res_bind_ok. cbn [ready_queue_head set_pnext set_pprev].
  destruct (Z.eqb_spec p (ready_queue_head s)); [contradiction|]. cbn [ready_queue_tail set_pnext set_pprev].
  unfold unlinked, is_nil. fold a b. destruct (Z.eqb_spec p (ready_queue_tail s)) as [E|E].
  - apply Ht in E. rewrite E. reflexivity.
  - destruct l2; [exfalso; apply E, Ht; reflexivity|]. destruct s; reflexivity.
Qed.

Lemma sched_ok_remove :
  ~ queued Q p -> p ∉ SL -> p ∉ AL ->
  (forall c, 0 <= c < SCHED_MAX_CPUS -> arr_at (current s) c <> p) ->
  (forall c, 0 <= c < SCHED_MAX_CPUS -> arr_at (current s) c <> 0 -> idle_at s c <> p) ->
  sched_ok None (free_proc unlinked p) Q SL AL (l1 ++ l2).
Proof.
  intros Hq Hs Ha Hc Hi. destruct unlink_facts as (Hph & Hp0 & Hap & Hbp & Hain & Hbin & Ht).
  assert (Hlk : forall q z, delete p (procs s) !! q = Some z -> q <> p /\ procs s !! q = Some z)
    by (intros q z Hz; apply lookup_delete_Some in Hz as [? ?]; auto).
  assert (Hold : forall q z, procs s !! q = Some z -> q <> p -> delete p (procs s) !! q = Some z)
    by (intros; rewrite lookup_delete_ne; auto).
  assert (Hz : forall (m : gmap Z Z) (l : list Z), p ∉ l -> forall q, q ∈ l -> delete p m !! q = m !! q)
    by (intros m l Hl q Hin; apply lookup_delete_ne; intros ->; contradiction).
  assert (Hout : forall K q l (Hok : tq_ok K q l) r v, r ∉ l -> delete p (tq_in q) !! r = Some v -> v = 0).
  { intros K q l Hok r v Hrl Hd. apply lookup_delete_Some in Hd as [_ Hd]. eapply (tq_ok_out _ _ _ Hok); eauto. }
  destruct (so_ring _ _ _ _ _ _ H) as [_ Hnd].
  assert (Hnin : p ∉ ready_queue_head s :: l1 ++ l2).
  { apply NoDup_cons in Hnd as [Hh Hd]. apply NoDup_app in Hd as (_ & Hd12 & Hd2).
    apply NoDup_cons in Hd2 as [Hp2 _]. specialize (Hd12 p). set_solver. }
  split; simpl; try apply H.
  - apply (rq_ok_links (rqs s)); [apply H|]. intros q Hqq. rewrite !lookup_delete_ne; auto; intros ->; auto.
  - eapply tq_ok_key; [|apply (tq_ok_links (wake_of s) (sleepq s)); [apply H| |eapply Hout, H]].
    + intros q Hin. unfold wake_of. simpl. rewrite lookup_delete_ne; [reflexivity|congruence].
    + intros q Hin. rewrite !(Hz _ _ Hs) by auto. auto.
  - eapply tq_ok_key; [|apply (tq_ok_links (alarm_of s) (alarmq s)); [apply H| |eapply Hout, H]].
    + intros q Hin. unfold alarm_of. simpl. rewrite lookup_delete_ne; [reflexivity|congruence].
    + intros q Hin. rewrite !(Hz _ _ Ha) by auto. auto.
  - destruct (ring_del _ _ _ _ _ _ (so_ring _ _ _ _ _ _ H)) as (a & b & Ea & Eb & _ & _ & _ & _ & Hring).
    destruct (ring_pred _ _ _ _ _ _ (so_ring _ _ _ _ _ _ H)) as [Hpv Hnx].
    rewrite Hpv in Ea. injection Ea as <-. rewrite Hnx in Eb. injection Eb as <-.
    eapply ring_ext; [|exact Hring]. intros q Hin. rewrite !(Hz _ _ Hnin) by auto. auto.
  - rewrite lastd_app. destruct l2 as [|y l2']; simpl; [reflexivity|].
    rewrite (so_tail _ _ _ _ _ _ H), lastd_app. reflexivity.
  - intros q. destruct (decide (q = p)) as [->|Hqp].
    + rewrite lookup_delete_eq. split; [intros [? ?]; discriminate|intros; contradiction].
    + rewrite lookup_delete_ne by auto. rewrite (so_procs _ _ _ _ _ _ H). clear -Hqp. set_solver.
  - rewrite lookup_delete_ne by auto. apply H.
  - intros q [z [Hqp Hzz]%Hlk]. destruct (so_dom _ _ _ _ _ _ H q) as ((? & ?) & (? & ? & ?) & (? & ? & ?)); [eauto|].
    unfold rq_dom, tq_dom. simpl. rewrite !lookup_delete_ne by auto. auto 10.
  - intros q z [_ Hzz]%Hlk. apply (so_bounds _ _ _ _ _ _ H q z Hzz).
  - intros c k i q Hin. destruct (so_queued _ _ _ _ _ _ H c k i q Hin) as (_ & z & Hzz & E).
    split; [discriminate|]. exists z. split; [apply Hold; auto; intros ->; apply Hq; red; eauto|auto].
  - intros q z [_ Hzz]%Hlk Hst. apply (so_ready _ _ _ _ _ _ H q z Hzz Hst).
  - intros q Hin. destruct (so_asleep _ _ _ _ _ _ H q Hin) as (z & Hzz & E).
    exists z. split; [apply Hold; congruence|auto].
  - intros q Hin. destruct (so_alarms _ _ _ _ _ _ H q Hin) as [z Hzz]. exists z. apply Hold; congruence.
  - intros c Hcc Hn. destruct (so_current _ _ _ _ _ _ H c Hcc Hn) as (z & Hzz & E).
    exists z. split; [apply Hold; auto|auto].
  - intros q z [_ Hzz]%Hlk Hst. apply (so_running _ _ _ _ _ _ H q z Hzz Hst).
  - intros c Hcc Hn. destruct (so_idle _ _ _ _ _ _ H c Hcc Hn) as (z & Hzz & E).
    exists z. split; [apply Hold; [auto|apply Hi; auto]|auto].
Qed.
End remove.
