(* ===== verification/ProcessSpec.v ===== *)
(** Creating, ending and reaping processes keep the scheduler's invariant, the
    reference counts of open files and the table of shared address spaces. *)

From Stdlib Require Import Sorting.Sorted.
From S2P Require Import Prelude Bitmap Ring Runq SortedQ AsRef SchedState Sched SchedFrame SchedInv SchedSpec SchedTick SchedOps SchedLive Process ProcessFiles ProcessInv.

(** Both arrays have their full length. *)
Definition table_ok (x : proc) : Prop :=
  length (files x) = Z.to_nat PROCESS_MAX_FILES /\ length (fd_flags x) = Z.to_nat PROCESS_MAX_FILES.

Record sys_ok (s : sched) (E : Z -> Z) : Prop := SysOk {
  sys_sched : sched_inv s;
  sys_as : arr_len (asref s) = AS_REFCOUNT_MAX;
  sys_files : files_ok (kfiles s) (tables s) E;
  sys_head : forall x, procs s !! ready_queue_head s = Some x -> pid x = 0;
  sys_len : forall p x, procs s !! p = Some x -> table_ok x
}.

Lemma frame_tables s s' : frame s s' -> tables s' = tables s.
Proof.
  intros F. apply map_eq. intros p. unfold tables. rewrite !lookup_fmap. pose proof (fr_ident _ _ F p) as Hi.
  destruct (procs s' !! p), (procs s !! p); simpl in *; try discriminate; [|reflexivity].
  unfold ident in Hi. congruence.
Qed.

Lemma frame_proc s s' p x' : frame s s' -> procs s' !! p = Some x' ->
  exists x, procs s !! p = Some x /\ ident x' = ident x.
Proof.
  intros F Hx. pose proof (fr_ident _ _ F p) as Hi. rewrite Hx in Hi. simpl in Hi.
  destruct (procs s !! p) as [x|]; simpl in Hi; [|discriminate]. exists x. split; [auto|congruence].
Qed.

(** Scheduling operations. *)
Lemma sys_frame s s' E : sys_ok s E -> frame s s' -> sched_inv s' -> sys_ok s' E.
Proof.
  intros S F Hi. split; auto.
  - rewrite (fr_asref _ _ F). apply S.
  - rewrite (fr_files _ _ F), (frame_tables _ _ F). apply S.
  - intros x' Hx'. rewrite (fr_head _ _ F) in Hx'. destruct (frame_proc _ _ _ _ F Hx') as (x & Hx & Ei).
    unfold ident in Ei. assert (pid x' = pid x) as -> by congruence. apply (sys_head _ _ S x Hx).
  - intros p x' Hx'. destruct (frame_proc _ _ _ _ F Hx') as (x & Hx & Ei). unfold ident in Ei.
    pose proof (sys_len _ _ S p x Hx) as Hl. unfold table_ok in *.
    assert (files x' = files x) as -> by congruence. assert (fd_flags x' = fd_flags x) as -> by congruence. exact Hl.
Qed.

Lemma tables_put s p y : files <$> <[p := y]> (procs s) = <[p := files y]> (tables s).
Proof. apply fmap_insert. Qed.

Lemma tables_lookup s p x : procs s !! p = Some x -> tables s !! p = Some (files x).
Proof. intros Hx. unfold tables. rewrite lookup_fmap, Hx. reflexivity. Qed.

(** One process and its files change. *)
Lemma sys_put s s' E p x y :
  sys_ok s E -> procs s !! p = Some x -> sched_inv s' -> procs s' = <[p := y]> (procs s) ->
  ready_queue_head s' = ready_queue_head s -> arr_len (asref s') = arr_len (asref s) -> pid y = pid x ->
  files_ok (kfiles s') (<[p := files y]> (tables s)) E ->
  length (files y) = length (files x) -> length (fd_flags y) = length (fd_flags x) -> sys_ok s' E.
Proof.
  intros S Hx Hi P Hh Ha Ep Hf Hl Hl'. split.
  - exact Hi.
  - rewrite Ha. apply S.
  - unfold tables. rewrite P, tables_put. exact Hf.
  - intros z. rewrite P, Hh, lookup_insert_Some. intros [[Eh <-]|[_ Hy]]; [|apply (sys_head _ _ S z Hy)].
    rewrite Ep. apply (sys_head _ _ S x). congruence.
  - intros q z. rewrite P, lookup_insert_Some. intros [[_ <-]|[_ Hy]]; [|apply (sys_len _ _ S q z Hy)].
    unfold table_ok. rewrite Hl, Hl'. apply (sys_len _ _ S p x Hx).
Qed.

(** ** Fields the invariant does not read *)

Lemma sched_ok_other lim s s' Q SL AL G :
  sched_ok lim s Q SL AL G -> procs s' = procs s -> rqs s' = rqs s -> sleepq s' = sleepq s ->
  alarmq s' = alarmq s -> pnext s' = pnext s -> pprev s' = pprev s ->
  ready_queue_head s' = ready_queue_head s -> ready_queue_tail s' = ready_queue_tail s ->
  current s' = current s -> pcpu_load s' = pcpu_load s -> pcpu_count s' = pcpu_count s ->
  sched_ok lim s' Q SL AL G.
Proof.
  intros H E1 E2 E3 E4 E5 E6 E7 E8 E9 E10 E11. destruct s, s'. simpl in *. subst. split; apply H.
Qed.

Ltac other H := eapply sched_ok_other; [exact H|reflexivity..].

(** ** The CPU of a new process *)

Lemma least_loop_ok lim s Q SL AL G n : sched_ok lim s Q SL AL G ->
  forall i b bl, 0 <= i -> i + Z.of_nat n <= SCHED_MAX_CPUS -> 0 <= b < SCHED_MAX_CPUS ->
  exists c, least_loop n s i b bl = Ok c /\ 0 <= c < SCHED_MAX_CPUS.
Proof.
  intros H. destruct (so_cpus _ _ _ _ _ _ H) as (_ & Hl & _).
  induction n as [|n IH]; intros i b bl Hi Hn Hb; [exists b; auto|]. cbn [least_loop].
  rewrite arr_get_ok, res_bind_ok by lia. destruct (arr_at (pcpu_load s) i <? bl); apply IH; lia.
Qed.

Lemma least_loaded_ok lim s Q SL AL G :
  sched_ok lim s Q SL AL G -> exists c, sched_pcpu_least_loaded s = Ok c /\ 0 <= c < SCHED_MAX_CPUS.
Proof.
  intros H. destruct (so_cpus _ _ _ _ _ _ H) as (_ & Hl & Hc). unfold sched_pcpu_least_loaded.
  assert (HM : SCHED_MAX_CPUS = 16) by reflexivity.
  rewrite arr_get_ok, res_bind_ok by lia. eapply least_loop_ok; eauto; lia.
Qed.

Lemma cur_proc_ok s Q SL AL G my :
  sched_ok None s Q SL AL G -> 0 <= my < SCHED_MAX_CPUS ->
  exists c, cur_proc s my = Ok c /\
    match c with
    | Some x => procs s !! arr_at (current s) my = Some x
    | None => arr_at (current s) my = 0
    end.
Proof.
  intros H Hmy. unfold cur_proc. destruct (current_some _ _ _ _ _ my H Hmy) as [-> Hc]. rewrite res_bind_ok.
  destruct (Z.eqb_spec (arr_at (current s) my) 0) as [E|Hn]; [exists None; auto|].
  destruct (Hc Hn) as [x Hx]. exists (Some x). rewrite (getp_ok _ _ _ Hx). auto.
Qed.

(** ** Shared address spaces *)

Section as_len.
Context (t : array as_entry) (a : Z) (Hl : arr_len t = AS_REFCOUNT_MAX).

Lemma find_as_total b : exists o, find_as (Z.to_nat AS_REFCOUNT_MAX) t 0 b = Ok o /\
  match o with Some i => 0 <= i < AS_REFCOUNT_MAX | None => True end.
Proof.
  destruct (find_as_ok (Z.to_nat AS_REFCOUNT_MAX) t 0 b Hl) as [(j & Hj & Hr & _)|[Hj _]];
    try (unfold AS_REFCOUNT_MAX; lia); [exists (Some j)|exists None]; auto.
Qed.

Lemma as_get_total : exists n, as_refcount_get t a = Ok n.
Proof.
  unfold as_refcount_get. destruct (a =? 0); [eexists; reflexivity|].
  destruct (find_as_total a) as (o & -> & Ho). rewrite res_bind_ok. destruct o as [i|]; [|eexists; reflexivity].
  rewrite arr_get_ok by lia. eexists. reflexivity.
Qed.

Lemma as_inc_total : exists t', as_refcount_inc t a = Ok t' /\ arr_len t' = AS_REFCOUNT_MAX.
Proof.
  unfold as_refcount_inc. destruct (a =? 0); [eexists; split; [reflexivity|auto]|].
  destruct (find_as_total a) as (o & -> & Ho). rewrite res_bind_ok. destruct o as [i|].
  - rewrite arr_get_ok, res_bind_ok, arr_set_ok by lia. eexists. split; [reflexivity|auto].
  - destruct (find_as_total 0) as (o & -> & Ho0). rewrite res_bind_ok. destruct o as [i|].
    + rewrite arr_set_ok by lia. eexists. split; [reflexivity|auto].
    + eexists. split; [reflexivity|auto].
Qed.

Lemma as_dec_total : exists n t', as_refcount_dec t a = Ok (n, t') /\ arr_len t' = AS_REFCOUNT_MAX.
Proof.
  unfold as_refcount_dec. destruct (a =? 0); [eexists _, _; split; [reflexivity|auto]|].
  destruct (find_as_total a) as (o & -> & Ho). rewrite res_bind_ok. destruct o as [i|].
  - rewrite arr_get_ok, res_bind_ok, arr_set_ok by lia. eexists _, _. split; [reflexivity|auto].
  - eexists _, _. split; [reflexivity|auto].
Qed.
End as_len.

(** ** Creation *)

(** A process created on CPU [cpu_id x] joins the others. *)
Lemma launch_sys s0 s E my p x :
  sys_ok s0 E -> procs s = procs s0 -> rqs s = rqs s0 -> sleepq s = sleepq s0 ->
  alarmq s = alarmq s0 -> pnext s = pnext s0 -> pprev s = pprev s0 ->
  ready_queue_head s = ready_queue_head s0 -> ready_queue_tail s = ready_queue_tail s0 ->
  current s = current s0 -> pcpu_load s = pcpu_load s0 -> pcpu_count s = pcpu_count s0 ->
  arr_len (asref s) = AS_REFCOUNT_MAX ->
  files_ok (kfiles s) (<[p := files x]> (tables s0)) E ->
  procs s0 !! p = None -> p <> 0 ->
  0 <= priority x < SCHED_NUM_PRIOS -> 0 <= cpu_id x < SCHED_MAX_CPUS -> state x = PROCESS_READY ->
  table_ok x ->
  exists s', launch my s p x (cpu_id x) = Ok s' /\ sys_ok s' E /\ procs s' = <[p := x]> (procs s0).
Proof.
  intros S E1 E2 E3 E4 E5 E6 E7 E8 E9 E10 E11 Has Hf Hp Hp0 Hpr Hcpu Hst Hlen.
  destruct (sys_sched _ _ S) as (Q & SL & AL & G & H0).
  assert (H : sched_ok None s Q SL AL G) by (eapply sched_ok_other; [exact H0|auto..]).
  destruct (launch_ok H p x ltac:(congruence) Hp0 my Hpr Hcpu Hst)
    as (s' & Q' & Hr & H' & P & C & Hh & Ha & Hk).
  exists s'. split; [exact Hr|]. split; [|congruence]. split.
  - exists Q', SL, AL, (G ++ [p]). exact H'.
  - congruence.
  - rewrite Hk. unfold tables. rewrite P, E1, fmap_insert. exact Hf.
  - intros y Hy. rewrite Hh, P, E1, E7 in Hy. rewrite lookup_insert_ne in Hy; [apply (sys_head _ _ S y Hy)|].
    intros ->. assert (Hz : is_Some (procs s0 !! ready_queue_head s0)) by (apply (so_procs _ _ _ _ _ _ H0); set_solver).
    rewrite Hp in Hz. destruct Hz; discriminate.
  - intros q z. rewrite P, E1, lookup_insert_Some. intros [[_ <-]|[_ Hz]]; [exact Hlen|apply (sys_len _ _ S q z Hz)].
Qed.

(** Operations that change nothing the invariant reads. *)
Lemma sys_other s s' E :
  sys_ok s E -> procs s' = procs s -> rqs s' = rqs s -> sleepq s' = sleepq s ->
  alarmq s' = alarmq s -> pnext s' = pnext s -> pprev s' = pprev s ->
  ready_queue_head s' = ready_queue_head s -> ready_queue_tail s' = ready_queue_tail s ->
  current s' = current s -> pcpu_load s' = pcpu_load s -> pcpu_count s' = pcpu_count s ->
  arr_len (asref s') = AS_REFCOUNT_MAX -> files_ok (kfiles s') (tables s) E -> sys_ok s' E.
Proof.
  intros S E1 E2 E3 E4 E5 E6 E7 E8 E9 E10 E11 Has Hf. destruct (sys_sched _ _ S) as (Q & SL & AL & G & H). split.
  - exists Q, SL, AL, G. eapply sched_ok_other; [exact H|auto..].
  - exact Has.
  - unfold tables. rewrite E1. exact Hf.
  - rewrite E1, E7. apply S.
  - rewrite E1. apply S.
Qed.

(** The address space of the clone and the table of shared spaces. *)
Lemma clone_as_ok s cf par cow :
  arr_len (asref s) = AS_REFCOUNT_MAX ->
  exists asp fl added t, clone_as s cf par cow = Ok (asp, fl, added, set_asref t s) /\
    arr_len t = AS_REFCOUNT_MAX /\ asp = (if Z.land cf CLONE_VM =? 0 then cow else par) /\
    fl = (if Z.land cf CLONE_VM =? 0 then 0 else PROCESS_FLAG_THREAD).
Proof.
  intros Hl. unfold clone_as. destruct (Z.land cf CLONE_VM =? 0).
  - exists cow, 0, false, (asref s). split; [rewrite set_asref_id; reflexivity|auto].
  - destruct (as_get_total (asref s) par Hl) as (n & ->). rewrite res_bind_ok.
    assert (Ht : exists t, (if n =? 0 then as_refcount_inc (asref s) par else mret (asref s)) = Ok t /\
       arr_len t = AS_REFCOUNT_MAX).
    { destruct (n =? 0); [apply as_inc_total; auto|eexists; split; [reflexivity|auto]]. }
    destruct Ht as (t & -> & Ht). rewrite res_bind_ok.
    destruct (as_inc_total t par Ht) as (t' & -> & Ht'). rewrite res_bind_ok. eexists _, _, _, t'.
    split; [reflexivity|auto].
Qed.

Lemma clone_undo_ok s1 cf asp added :
  arr_len (asref s1) = AS_REFCOUNT_MAX ->
  exists t lg, clone_as_undo s1 cf asp added = Ok (set_log lg (set_asref t s1)) /\ arr_len t = AS_REFCOUNT_MAX.
Proof.
  intros Hl. unfold clone_as_undo. destruct (Z.land cf CLONE_VM =? 0).
  - exists (asref s1). destruct (asp =? 0); eexists; (split; [|auto]); rewrite set_asref_id; [rewrite set_log_id|]; reflexivity.
  - destruct (as_dec_total (asref s1) asp Hl) as (n & t & -> & Ht). rewrite res_bind_ok.
    assert (Ht2 : exists n t', (if added then as_refcount_dec t asp else mret (0, t)) = Ok (n, t') /\
       arr_len t' = AS_REFCOUNT_MAX).
    { destruct added; [apply as_dec_total; auto|eexists _, _; split; [reflexivity|auto]]. }
    destruct Ht2 as (n2 & t2 & -> & Ht2). rewrite res_bind_ok. exists t2, (log s1). split; [|auto].
    change (log s1) with (log (set_asref t2 s1)). rewrite set_log_id. reflexivity.
Qed.

Section create.
Context {s : sched} {E : Z -> Z} (S : sys_ok s E) (my p : Z).
Context (Hmy : 0 <= my < SCHED_MAX_CPUS) (Hp : procs s !! p = None) (Hp0 : p <> 0).

Lemma tables_none : tables s !! p = None.
Proof. unfold tables. rewrite lookup_fmap, Hp. reflexivity. Qed.

Lemma no_files_live kf : live kf no_files.
Proof. intros f Hf H0. unfold no_files, zeros in Hf. apply elem_of_replicate in Hf. tauto. Qed.

Lemma files_ok_new_empty : files_ok (kfiles s) (<[p := no_files]> (tables s)) E.
Proof.
  intros f H0. destruct (sys_files _ _ S f H0) as [HE Hk]. split; [auto|].
  rewrite nrefs_insert, occ_no_files by (auto using tables_none). exact Hk.
Qed.

Lemma process_create_kernel_ok stack fpu0 :
  exists s', process_create_kernel my s p stack fpu0 = Ok (if stack =? 0 then 0 else p, s') /\ sys_ok s' E /\
    (if stack =? 0 then procs s' = procs s
     else exists x, procs s' = <[p := x]> (procs s) /\ pid x = next_pid s /\ state x = PROCESS_READY /\
       kernel_stack x = stack).
Proof.
  destruct (sys_sched _ _ S) as (Q & SL & AL & G & H). unfold process_create_kernel.
  destruct (Z.eqb_spec p 0); [contradiction|].
  destruct (cur_proc_ok _ _ _ _ _ my H Hmy) as (c & -> & Hc). rewrite res_bind_ok. cbn [take_pid].
  set (s1 := set_next_pid _ s). assert (H1 : sched_ok None s1 Q SL AL G) by other H.
  destruct (least_loaded_ok _ _ _ _ _ _ H1) as (t & -> & Ht). rewrite res_bind_ok.
  destruct (Z.eqb_spec stack 0).
  - eexists. split; [reflexivity|]. split; [|reflexivity].
    apply (sys_other s); auto; [apply (sys_as _ _ S)|apply (sys_files _ _ S)].
  - cbv zeta. set (x := {| pid := _ |}).
    destruct (launch_sys s s1 E my p x S) as (s' & Hr & S' & P); auto; try reflexivity.
    + apply (sys_as _ _ S).
    + apply files_ok_new_empty.
    + simpl. unfold SCHED_DEFAULT_PRIO, SCHED_NUM_PRIOS. lia.
    + split; reflexivity.
    + change t with (cpu_id x). rewrite Hr, res_bind_ok. exists s'. split; [reflexivity|]. split; [exact S'|].
      exists x. auto.
Qed.

(** The parent's files have room for one more reference each. *)
Definition room (l : list Z) : Prop :=
  forall f k, kfiles s !! f = Some k -> f_refcount k + occ f l < 4294967296.

(** The files the child inherits from [c]. *)
Lemma inherit_files (c : option proc) :
  match c with Some x => procs s !! arr_at (current s) my = Some x | None => True end ->
  live (kfiles s) (from_cur c files no_files).
Proof.
  destruct c as [x|]; [|intros _; apply no_files_live]. intros Hx f Hf H0. simpl in Hf.
  destruct (files_live _ _ _ (arr_at (current s) my) (files x) f (sys_files _ _ S)) as (k & Hk & _); eauto.
  unfold tables. rewrite lookup_fmap, Hx. reflexivity.
Qed.

Lemma process_fork_create_ok child_as regs stack fpu0 :
  child_as <> 0 ->
  (forall c, cur_proc s my = Ok c -> room (from_cur c files no_files)) ->
  exists s', process_fork_create my s child_as (Some regs) p stack fpu0 =
      Ok (if stack =? 0 then 0 else p, s') /\ sys_ok s' E /\
    (if stack =? 0 then procs s' = procs s /\ kfiles s' = kfiles s
     else exists x, procs s' = <[p := x]> (procs s) /\ pid x = next_pid s /\ state x = PROCESS_READY /\
       addr_space x = child_as /\ user_regs x = regs /\
       (forall c, procs s !! arr_at (current s) my = Some c ->
          files x = files c /\ parent_pid x = pid c /\ uid x = uid c /\ euid x = euid c /\
          sig_pending_mask x = 0)).
Proof.
  intros Has Hroom. destruct (sys_sched _ _ S) as (Q & SL & AL & G & H). unfold process_fork_create.
  destruct (Z.eqb_spec child_as 0); [contradiction|]. destruct (Z.eqb_spec p 0); [contradiction|]. cbn [orb].
  destruct (cur_proc_ok _ _ _ _ _ my H Hmy) as (c & Hcp & Hc). rewrite Hcp, res_bind_ok. cbn [take_pid].
  specialize (Hroom c Hcp). set (l := from_cur c files no_files) in *.
  assert (Hlive : live (kfiles s) l) by (apply inherit_files; destruct c; auto).
  set (s1 := emit _ _). assert (H1 : sched_ok None s1 Q SL AL G) by other H.
  destruct (least_loaded_ok _ _ _ _ _ _ H1) as (t & -> & Ht). rewrite res_bind_ok.
  destruct (file_refs_ok l s1 1 ltac:(auto)) as (kf & -> & Hb);
    [eapply in_bounds_up; [apply (sys_files _ _ S)|auto|auto]|]. rewrite res_bind_ok.
  cbv zeta. set (x := {| pid := _ |}).
  destruct (Z.eqb_spec stack 0).
  - assert (Hrel : exists s2, (match c with Some _ => process_release_file_refs (set_kfiles kf s1) x
        | None => mret (set_kfiles kf s1) end) = Ok s2 /\ s2 = set_kfiles (kfiles s2) s1 /\ kfiles s2 = kfiles s).
    { destruct c as [cx|].
      - destruct (file_refs_ok l (set_kfiles kf s1) (-1) ltac:(auto)) as (kf2 & Hr2 & Hb2);
          [eapply in_bounds_down; [apply (sys_files _ _ S)|eauto..]|].
        exists (set_kfiles kf2 s1). split; [exact Hr2|]. split; [reflexivity|]. simpl.
        eapply bumped_back; eauto.
      - exists (set_kfiles kf s1). split; [reflexivity|]. split; [reflexivity|]. simpl.
        apply map_eq. intros f. rewrite Hb. simpl. destruct (kfiles s !! f) as [[a b d]|]; simpl; [|reflexivity].
        unfold bump. simpl. destruct (Z.eqb_spec f 0); [rewrite Z.add_0_r; reflexivity|].
        unfold l. simpl from_cur. rewrite occ_no_files by auto. rewrite Z.add_0_r. reflexivity. }
    destruct Hrel as (s2 & -> & E2 & E3). rewrite res_bind_ok. eexists. split; [reflexivity|].
    split; [|split; [rewrite E2; reflexivity|exact E3]].
    apply (sys_other s); auto; try (rewrite E2; reflexivity).
    + rewrite E2. apply (sys_as _ _ S).
    + simpl. rewrite E3. apply (sys_files _ _ S).
  - destruct (launch_sys s (set_kfiles kf s1) E my p (set_kernel_stack stack x) S) as (s' & Hr & S' & P);
      auto; try reflexivity.
    + apply (sys_as _ _ S).
    + simpl. eapply files_ok_add; eauto; [apply (sys_files _ _ S)|apply tables_none].
    + simpl. destruct c as [cx|]; simpl; [apply (so_bounds _ _ _ _ _ _ H _ _ Hc)|unfold SCHED_DEFAULT_PRIO, SCHED_NUM_PRIOS; lia].
    + destruct c as [cx|]; [|split; reflexivity]. destruct (sys_len _ _ S _ _ Hc) as [L1 L2].
      split; [exact L1|]. cbn [set_kernel_stack fd_flags x]. subst l. cbn [from_cur]. rewrite length_zip_with, L1, L2. reflexivity.
    + change t with (cpu_id (set_kernel_stack stack x)). rewrite Hr, res_bind_ok. exists s'.
      split; [reflexivity|]. split; [exact S'|]. exists (set_kernel_stack stack x). split_and!; auto.
      intros cx Hcx. destruct c as [cx'|]; [|exfalso; rewrite Hc in Hcx; rewrite (so_zero _ _ _ _ _ _ H) in Hcx; discriminate].
      rewrite Hcx in Hc. injection Hc as <-. auto 10.
Qed.

Lemma process_clone_create_ok cf child_stack regs tls cow stack c :
  procs s !! arr_at (current s) my = Some c -> room (files c) ->
  let fails := (Z.land cf CLONE_VM =? 0) && (cow =? 0) || (stack =? 0) in
  exists s', process_clone_create my s cf child_stack (Some regs) tls p cow stack =
      Ok (if fails then 0 else p, s') /\ sys_ok s' E /\
    (if fails then procs s' = procs s /\ kfiles s' = kfiles s
     else exists x, procs s' = <[p := x]> (procs s) /\ pid x = next_pid s /\ state x = PROCESS_READY /\
       addr_space x = (if Z.land cf CLONE_VM =? 0 then cow else addr_space c) /\
       tgid x = (if Z.land cf CLONE_THREAD =? 0 then next_pid s else tgid c) /\
       files x = files c /\ parent_pid x = pid c /\ uid x = uid c /\ euid x = euid c /\
       user_regs x = (if child_stack =? 0 then arch_regs_set_retval regs 0
                      else arch_regs_set_ustack (arch_regs_set_retval regs 0) child_stack)).
Proof.
  intros Hc Hroom fails. destruct (sys_sched _ _ S) as (Q & SL & AL & G & H). unfold process_clone_create.
  destruct (cur_proc_ok _ _ _ _ _ my H Hmy) as (o & -> & Ho). rewrite res_bind_ok.
  destruct o as [c'|]; [|exfalso; rewrite Ho, (so_zero _ _ _ _ _ _ H) in Hc; discriminate].
  rewrite Hc in Ho. injection Ho as <-. destruct (Z.eqb_spec p 0); [contradiction|]. cbn [take_pid].
  set (s0 := set_next_pid _ s).
  destruct (clone_as_ok s0 cf (addr_space c) cow (sys_as _ _ S)) as (asp & fl & added & t & -> & Ht & Easp & _).
  rewrite res_bind_ok. cbv beta iota.
  assert (Hlive : live (kfiles s) (files c)) by (apply (inherit_files (Some c)); auto).
  assert (Easp0 : (Z.land cf CLONE_VM =? 0) && (asp =? 0) = (Z.land cf CLONE_VM =? 0) && (cow =? 0))
    by (rewrite Easp; destruct (Z.land cf CLONE_VM =? 0); reflexivity).
  rewrite Easp0. subst fails. destruct ((Z.land cf CLONE_VM =? 0) && (cow =? 0)).
  { eexists. split; [reflexivity|]. split; [|split; reflexivity].
    apply (sys_other s); auto. apply (sys_files _ _ S). }
  cbn [orb]. set (s1 := emit _ _).
  destruct (file_refs_ok (files c) s1 1 ltac:(auto)) as (kf & -> & Hb);
    [eapply in_bounds_up; [apply (sys_files _ _ S)|auto|auto]|]. rewrite res_bind_ok.
  cbv zeta. set (x := {| pid := _ |}). destruct (Z.eqb_spec stack 0).
  - destruct (file_refs_ok (files c) (set_kfiles kf s1) (-1) ltac:(auto)) as (kf2 & Hr2 & Hb2);
      [eapply in_bounds_down; [apply (sys_files _ _ S)|eauto..]|].
    unfold process_release_file_refs. change (files x) with (files c). rewrite Hr2, res_bind_ok.
    pose proof (bumped_back _ _ _ _ Hb Hb2) as Ekf.
    destruct (clone_undo_ok (emit (MountUnrefPath (cwd c)) (set_kfiles kf2 (set_kfiles kf s1))) cf asp added Ht)
      as (t2 & lg & -> & Ht2). rewrite res_bind_ok.
    eexists. split; [reflexivity|]. split; [|split; [reflexivity|exact Ekf]].
    apply (sys_other s); auto. simpl. rewrite Ekf. apply (sys_files _ _ S).
  - destruct (least_loaded_ok None (set_kfiles kf s1) Q SL AL G) as (tc & -> & Htc); [other H|].
    rewrite res_bind_ok.
    destruct (launch_sys s (set_kfiles kf s1) E my p (set_cpu_id tc (set_kernel_stack stack x)) S) as (s' & Hr & S' & P);
      auto; try reflexivity.
    + simpl. eapply files_ok_add; eauto; [apply (sys_files _ _ S)|apply tables_none].
    + apply (so_bounds _ _ _ _ _ _ H _ _ Hc).
    + exact (sys_len _ _ S _ _ Hc).
    + change tc with (cpu_id (set_cpu_id tc (set_kernel_stack stack x))) at 2. rewrite Hr, res_bind_ok. exists s'.
      split; [reflexivity|]. split; [exact S'|]. exists (set_cpu_id tc (set_kernel_stack stack x)). split_and!; auto.
Qed.
End create.
