(* ===== verification/FdSpec.v ===== *)
(** What the descriptor operations do: the lowest free descriptor is given out,
    the reference count of an open file is the number of descriptors that refer to
    it, and errors leave everything as it was. *)

From S2P Require Import Prelude Ring Runq SortedQ AsRef SchedState Sched SchedInv SchedSpec SchedTick SchedOps Process Fd ProcessFiles ProcessInv ProcessSpec.

(** ** Tables *)

Lemma occ_insert (l : list Z) : forall i g f h, l !! i = Some g ->
  occ h (<[i := f]> l) = occ h l - (if g =? h then 1 else 0) + (if f =? h then 1 else 0).
Proof.
  induction l as [|a l IH]; intros [|i] g f h Hi; simpl in Hi; try discriminate.
  - injection Hi as ->. simpl. rewrite !occ_cons. lia.
  - simpl. rewrite !occ_cons, (IH i g) by auto. lia.
Qed.

Definition valid (fd : Z) : Prop := 0 <= fd < PROCESS_MAX_FILES.

Lemma is_fd_spec fd : reflect (valid fd) (is_fd fd).
Proof. apply iff_reflect. unfold valid, is_fd. rewrite andb_true_iff, Z.leb_le, Z.ltb_lt. reflexivity. Qed.

Section table.
Context (l : list Z) (Hl : length l = Z.to_nat PROCESS_MAX_FILES).

(** The file at descriptor [fd]; 0 is none. *)
Definition at_fd (fd : Z) : Z := default 0 (l !! Z.to_nat fd).

Lemma at_fd_lookup fd : valid fd -> l !! Z.to_nat fd = Some (at_fd fd).
Proof.
  intros [H0 H1]. unfold at_fd. destruct (lookup_lt_is_Some_2 l (Z.to_nat fd)) as [v Hv]; [rewrite Hl; lia|].
  rewrite Hv. reflexivity.
Qed.

Lemma fd_read_ok fd : valid fd -> fd_read l fd = Ok (at_fd fd).
Proof.
  intros Hv. unfold fd_read. rewrite (at_fd_lookup fd Hv). destruct Hv. destruct (Z.ltb_spec fd 0); [lia|reflexivity].
Qed.

Lemma fd_write_ok fd v : valid fd -> fd_write l fd v = Ok (<[Z.to_nat fd := v]> l).
Proof. intros Hv. unfold fd_write. rewrite fd_read_ok by auto. reflexivity. Qed.

(** The lowest free descriptor from [start] on. *)
Definition lowest_free (start fd : Z) : Prop :=
  start <= fd < PROCESS_MAX_FILES /\ at_fd fd = 0 /\ forall j, start <= j < fd -> at_fd j <> 0.

Lemma fd_scan_ok n : forall fd, 0 <= fd -> fd + Z.of_nat n = PROCESS_MAX_FILES ->
  exists o, fd_scan n l fd = Ok o /\
    match o with Some k => lowest_free fd k | None => forall j, fd <= j < PROCESS_MAX_FILES -> at_fd j <> 0 end.
Proof.
  induction n as [|n IH]; intros fd H0 Hn; [exists None; split; [reflexivity|lia]|].
  cbn [fd_scan]. rewrite fd_read_ok, res_bind_ok by (split; lia). destruct (Z.eqb_spec (at_fd fd) 0) as [E|Hne].
  - exists (Some fd). split; [reflexivity|]. split; [lia|]. split; [auto|lia].
  - destruct (IH (fd + 1)) as (o & -> & Ho); [lia|lia|]. exists o. split; [reflexivity|]. destruct o as [k|].
    + destruct Ho as (Hk & Hz & Hall). split; [lia|]. split; [auto|]. intros j Hj.
      destruct (Z.eq_dec j fd) as [->|]; [auto|apply Hall; lia].
    + intros j Hj. destruct (Z.eq_dec j fd) as [->|]; [auto|apply Ho; lia].
Qed.

Lemma fd_find_ok start : 0 <= start <= PROCESS_MAX_FILES ->
  exists o, fd_find_from l start = Ok o /\
    match o with Some k => lowest_free start k | None => forall j, start <= j < PROCESS_MAX_FILES -> at_fd j <> 0 end.
Proof. intros Hs. apply fd_scan_ok; lia. Qed.
End table.

Lemma at_fd_insert l fd j v : length l = Z.to_nat PROCESS_MAX_FILES -> valid fd -> 0 <= j ->
  at_fd (<[Z.to_nat fd := v]> l) j = if j =? fd then v else at_fd l j.
Proof.
  intros Hl [H0 H1] Hj. unfold at_fd. destruct (Z.eqb_spec j fd) as [->|Hne].
  - rewrite list_lookup_insert_eq by lia. reflexivity.
  - rewrite list_lookup_insert_ne by lia. reflexivity.
Qed.

(** ** The current process's table *)

Definition fds (l fl : list Z) (x : proc) : proc := x |> set_files l |> set_fd_flags fl.

Definition with_fds (s : sched) (p : Z) (x : proc) (l fl : list Z) (kf : gmap Z kfile) (lg : list event) : sched :=
  set_procs (<[p := fds l fl x]> (procs s)) (set_log lg (set_kfiles kf s)).

Lemma with_fds_twice s p x l fl kf lg l' fl' kf' lg' :
  with_fds (with_fds s p x l fl kf lg) p (fds l fl x) l' fl' kf' lg' = with_fds s p x l' fl' kf' lg'.
Proof. unfold with_fds. simpl. rewrite insert_insert_eq. reflexivity. Qed.

(** [p], [x] is the process that executes the call on CPU [my]. *)
Definition caller (s : sched) (my p : Z) (x : proc) : Prop :=
  cur s my = Ok p /\ p <> 0 /\ procs s !! p = Some x /\ table_ok x.

Section call.
Context {s : sched} {my p : Z} {x : proc} (C : caller s my p x).

Lemma put_file_ok fd f : valid fd ->
  put_file s p fd f = Ok (with_fds s p x (<[Z.to_nat fd := f]> (files x)) (fd_flags x) (kfiles s) (log s)).
Proof.
  destruct C as (_ & _ & Hx & Hl & _). intros Hv. unfold put_file. rewrite (getp_ok _ _ _ Hx), res_bind_ok.
  rewrite (fd_write_ok _ Hl), res_bind_ok by auto. rewrite (updp_ok s p x) by auto. destruct s, x; reflexivity.
Qed.

Lemma put_flag_ok fd v : valid fd ->
  put_flag s p fd v = Ok (with_fds s p x (files x) (<[Z.to_nat fd := v]> (fd_flags x)) (kfiles s) (log s)).
Proof.
  destruct C as (_ & _ & Hx & _ & Hl). intros Hv. unfold put_flag. rewrite (getp_ok _ _ _ Hx), res_bind_ok.
  rewrite (fd_write_ok _ Hl), res_bind_ok by auto. rewrite (updp_ok s p x) by auto. destruct s, x; reflexivity.
Qed.

Lemma caller_fds l fl kf lg :
  length l = length (files x) -> length fl = length (fd_flags x) ->
  caller (with_fds s p x l fl kf lg) my p (fds l fl x).
Proof.
  destruct C as (Hc & Hp & Hx & Hl & Hl'). intros E1 E2. split; [exact Hc|]. split; [exact Hp|].
  split; [apply lookup_insert_eq|]. split; simpl; congruence.
Qed.

Lemma fd_alloc_from_ok start f :
  f <> 0 -> 0 <= start < PROCESS_MAX_FILES ->
  (exists fd, lowest_free (files x) start fd /\
     fd_alloc_from my s start f =
       Ok (fd, with_fds s p x (<[Z.to_nat fd := f]> (files x)) (fd_flags x) (kfiles s) (log s))) \/
  (forall j, start <= j < PROCESS_MAX_FILES -> at_fd (files x) j <> 0) /\
    fd_alloc_from my s start f = Ok (- EMFILE, s).
Proof.
  intros Hf Hs. pose proof C as (Hc & Hp & Hx & Hl & _). unfold fd_alloc_from. rewrite Hc, res_bind_ok.
  destruct (Z.eqb_spec p 0), (Z.eqb_spec f 0); try contradiction. cbn [orb].
  destruct (Z.ltb_spec start 0); [lia|]. cbv zeta. destruct (Z.leb_spec PROCESS_MAX_FILES start); [lia|].
  rewrite (getp_ok _ _ _ Hx), res_bind_ok.
  destruct (fd_find_ok (files x) Hl start) as (o & -> & Ho); [lia|]. rewrite res_bind_ok. destruct o as [fd|].
  - left. exists fd. split; [auto|]. destruct Ho as (Hr & _). rewrite put_file_ok by (split; lia). reflexivity.
  - right. auto.
Qed.

Lemma fd_get_ok fd : fd_get my s fd = Ok (if is_fd fd then at_fd (files x) fd else 0).
Proof.
  pose proof C as (Hc & Hp & Hx & Hl & _). unfold fd_get. rewrite Hc, res_bind_ok.
  destruct (Z.eqb_spec p 0); [contradiction|]. destruct (is_fd_spec fd) as [Hv|_]; [|reflexivity]. cbn [negb].
  rewrite (getp_ok _ _ _ Hx), res_bind_ok. apply fd_read_ok; auto.
Qed.

(** What closing the last, or not the last, reference to [f] does to the files. *)
Definition released (kf : gmap Z kfile) (f : Z) : gmap Z kfile :=
  match kf !! f with
  | Some k => if f_refcount k =? 1 then delete f kf else <[f := bump (-1) k]> kf
  | None => kf
  end.

Lemma fd_close_open fd k :
  valid fd -> at_fd (files x) fd <> 0 -> kfiles s !! at_fd (files x) fd = Some k -> 0 < f_refcount k < 4294967296 ->
  exists lg, fd_close my s fd =
    Ok (0, with_fds s p x (<[Z.to_nat fd := 0]> (files x)) (fd_flags x) (released (kfiles s) (at_fd (files x) fd)) lg).
Proof.
  intros Hv Hf Hk Hr. pose proof C as (Hc & Hp & Hx & Hl & Hl'). unfold fd_close. rewrite Hc, res_bind_ok.
  destruct (Z.eqb_spec p 0); [contradiction|]. destruct (is_fd_spec fd); [|contradiction]. cbn [negb].
  rewrite (getp_ok _ _ _ Hx), res_bind_ok, (fd_read_ok _ Hl), res_bind_ok by auto.
  destruct (Z.eqb_spec (at_fd (files x) fd) 0); [contradiction|]. cbv zeta.
  assert (Hput : put_file (emit (EpollCleanup fd) s) p fd 0 =
    Ok (with_fds s p x (<[Z.to_nat fd := 0]> (files x)) (fd_flags x) (kfiles s) (log s ++ [EpollCleanup fd]))).
  { unfold put_file. rewrite (getp_ok (emit _ s) p x Hx), res_bind_ok, (fd_write_ok _ Hl), res_bind_ok by auto.
    rewrite (updp_ok (emit _ s) p x) by auto. destruct s, x; reflexivity. }
  rewrite Hput, res_bind_ok. set (s1 := with_fds _ _ _ _ _ _ _).
  destruct (close_file_ok s1 _ k Hk Hr) as (lg & ->). rewrite res_bind_ok. exists lg.
  unfold released. rewrite Hk. reflexivity.
Qed.

Lemma fd_close_bad fd : ~ valid fd \/ at_fd (files x) fd = 0 -> fd_close my s fd = Ok (- EBADF, s).
Proof.
  intros Hb. pose proof C as (Hc & Hp & Hx & Hl & Hl'). unfold fd_close. rewrite Hc, res_bind_ok.
  destruct (Z.eqb_spec p 0); [contradiction|]. destruct (is_fd_spec fd) as [Hv|]; [|reflexivity]. cbn [negb].
  destruct Hb as [Hb|Hb]; [contradiction|].
  rewrite (getp_ok _ _ _ Hx), res_bind_ok, (fd_read_ok _ Hl), res_bind_ok, Hb by auto. reflexivity.
Qed.
End call.

Lemma fd_alloc_from_3 my s f : fd_alloc my s f = fd_alloc_from my s 3 f.
Proof. reflexivity. Qed.

(** ** Reference counts *)

(** The entry [i] of the table of [p] goes from [g] to [f]. *)
Lemma files_ok_slot kf kf' t E p l i g f :
  files_ok kf t E -> t !! p = Some l -> l !! i = Some g ->
  (forall h, h <> 0 ->
     let n := nrefs t h - (if g =? h then 1 else 0) + (if f =? h then 1 else 0) in
     match kf' !! h with
     | Some k => f_refcount k = n + E h /\ 0 < f_refcount k < 4294967296
     | None => n = 0 /\ E h = 0
     end) ->
  files_ok kf' (<[p := <[i := f]> l]> t) E.
Proof.
  intros H Hp Hi Hn h H0. destruct (H h H0) as [HE _]. split; [auto|]. specialize (Hn h H0). cbv zeta in Hn.
  rewrite (nrefs_replace t p l _ h Hp), (occ_insert l i g f h Hi).
  replace (nrefs t h - occ h l + _) with (nrefs t h - (if g =? h then 1 else 0) + (if f =? h then 1 else 0)) by lia.
  exact Hn.
Qed.

(** Opening, closing and duplicating. *)
Lemma files_ok_open kf t E p l i f n r :
  files_ok kf t E -> t !! p = Some l -> l !! i = Some 0 -> f <> 0 -> kf !! f = None ->
  files_ok (<[f := KFile n r 1]> kf) (<[p := <[i := f]> l]> t) E.
Proof.
  intros H Hp Hi Hf Hn. apply (files_ok_slot kf _ t E p l i 0 f); auto. intros h H0. cbv zeta.
  destruct (H h H0) as [HE Hk]. destruct (Z.eqb_spec 0 h); [congruence|].
  destruct (Z.eqb_spec f h) as [<-|]; [rewrite lookup_insert_eq; rewrite Hn in Hk; simpl; lia|].
  rewrite lookup_insert_ne by auto. destruct (kf !! h); lia.
Qed.

Lemma files_ok_release kf t E p l i f :
  files_ok kf t E -> t !! p = Some l -> l !! i = Some f -> f <> 0 ->
  files_ok (released kf f) (<[p := <[i := 0]> l]> t) E.
Proof.
  intros H Hp Hi Hf. apply (files_ok_slot kf _ t E p l i f 0); auto. intros h H0. cbv zeta.
  destruct (H h H0) as [HE Hk]. destruct (Z.eqb_spec 0 h); [congruence|].
  destruct (files_live kf t E p l f H Hp) as (k & Hkf & _); [eapply list_elem_of_lookup_2; eauto|auto|].
  unfold released. rewrite Hkf. destruct (Z.eqb_spec f h) as [<-|].
  - rewrite Hkf in Hk. pose proof (nrefs_nonneg (<[p := <[i := 0]> l]> t) f) as Hnn.
    rewrite (nrefs_replace t p l _ f Hp), (occ_insert l i f 0 f Hi), Z.eqb_refl in Hnn.
    destruct (Z.eqb_spec 0 f); [congruence|].
    destruct (Z.eqb_spec (f_refcount k) 1); [rewrite lookup_delete_eq; lia|].
    rewrite lookup_insert_eq. simpl. lia.
  - replace ((if f_refcount k =? 1 then delete f kf else <[f := bump (-1) k]> kf) !! h) with (kf !! h)
      by (destruct (_ =? _); [rewrite lookup_delete_ne|rewrite lookup_insert_ne]; auto).
    destruct (kf !! h); lia.
Qed.

Lemma files_ok_dup kf t E p l i f k :
  files_ok kf t E -> t !! p = Some l -> l !! i = Some 0 -> f <> 0 -> kf !! f = Some k ->
  f_refcount k + 1 < 4294967296 -> files_ok (<[f := bump 1 k]> kf) (<[p := <[i := f]> l]> t) E.
Proof.
  intros H Hp Hi Hf Hk Hr. apply (files_ok_slot kf _ t E p l i 0 f); auto. intros h H0. cbv zeta.
  destruct (H h H0) as [HE Hh]. destruct (Z.eqb_spec 0 h); [congruence|].
  destruct (Z.eqb_spec f h) as [<-|]; [rewrite lookup_insert_eq; rewrite Hk in Hh; simpl; lia|].
  rewrite lookup_insert_ne by auto. destruct (kf !! h); lia.
Qed.

(** ** The operations on a system that satisfies the invariant *)

Lemma with_fds_id s p x : procs s !! p = Some x -> with_fds s p x (files x) (fd_flags x) (kfiles s) (log s) = s.
Proof.
  intros Hx. unfold with_fds. replace (fds _ _ x) with x by (destruct x; reflexivity).
  rewrite insert_id by exact Hx. destruct s; reflexivity.
Qed.

Lemma with_fds_log s p x kf lg : procs s !! p = Some x ->
  with_fds s p x (files x) (fd_flags x) kf lg = set_log lg (set_kfiles kf s).
Proof.
  intros Hx. unfold with_fds. replace (fds _ _ x) with x by (destruct x; reflexivity).
  rewrite insert_id by exact Hx. destruct s; reflexivity.
Qed.

Lemma bump_back (kf : gmap Z kfile) f k : kf !! f = Some k -> <[f := bump (-1) (bump 1 k)]> (<[f := bump 1 k]> kf) = kf.
Proof.
  intros Hk. rewrite insert_insert_eq. apply insert_id. rewrite Hk. destruct k. unfold bump. simpl. do 2 f_equal. lia.
Qed.

Section sys.
Context {s : sched} {E : Z -> Z} (S : sys_ok s E) (my p : Z) (x : proc).
Context (Hmy : 0 <= my < SCHED_MAX_CPUS) (Hcur : arr_at (current s) my = p) (Hx : procs s !! p = Some x).

Lemma the_caller : caller s my p x.
Proof.
  destruct (sys_sched _ _ S) as (Q & SL & AL & G & H). destruct (current_some _ _ _ _ _ my H Hmy) as [Hc _].
  rewrite Hcur in Hc. split; [exact Hc|]. split; [exact (so_nonzero H p x Hx)|]. split; [exact Hx|].
  exact (sys_len _ _ S p x Hx).
Qed.

Lemma sys_fds l fl kf lg :
  length l = length (files x) -> length fl = length (fd_flags x) -> files_ok kf (<[p := l]> (tables s)) E ->
  sys_ok (with_fds s p x l fl kf lg) E.
Proof.
  intros E1 E2 Hf. destruct (sys_sched _ _ S) as (Q & SL & AL & G & H).
  apply (sys_put s _ E p x (fds l fl x) S Hx); auto.
  - exists Q, SL, AL, G. assert (H1 : sched_ok None (set_log lg (set_kfiles kf s)) Q SL AL G) by other H.
    apply (sched_ok_same None _ Q SL AL G p x (fds l fl x) H1 Hx). red. auto 10.
Qed.

Lemma file_of fd : valid fd -> at_fd (files x) fd <> 0 ->
  exists k, kfiles s !! at_fd (files x) fd = Some k /\ 0 < f_refcount k < 4294967296.
Proof.
  intros Hv Hf. destruct (sys_files _ _ S _ Hf) as [HE Hk].
  destruct (files_live _ _ _ p (files x) (at_fd (files x) fd) (sys_files _ _ S) (tables_lookup _ _ _ Hx))
    as (k & Hkf & _); [|auto|].
  - eapply list_elem_of_lookup_2, at_fd_lookup; [apply (sys_len _ _ S p x Hx)|exact Hv].
  - rewrite Hkf in Hk. exists k. split; [auto|apply Hk].
Qed.

Definition open_at (fd : Z) : bool := is_fd fd && negb (at_fd (files x) fd =? 0).

Lemma open_at_spec fd : reflect (valid fd /\ at_fd (files x) fd <> 0) (open_at fd).
Proof.
  unfold open_at. apply iff_reflect. rewrite andb_true_iff, negb_true_iff, Z.eqb_neq.
  destruct (is_fd_spec fd); split; intros [? ?]; auto; try contradiction; discriminate.
Qed.

(** [close] frees the descriptor and drops one reference. *)
Lemma fd_close_sys fd :
  exists lg, let l := if open_at fd then <[Z.to_nat fd := 0]> (files x) else files x in
    let kf := if open_at fd then released (kfiles s) (at_fd (files x) fd) else kfiles s in
    fd_close my s fd = Ok (if open_at fd then 0 else - EBADF, with_fds s p x l (fd_flags x) kf lg) /\
    files_ok kf (<[p := l]> (tables s)) E /\ length l = length (files x).
Proof.
  destruct (open_at_spec fd) as [[Hv Hf]|Hno].
  - destruct (file_of fd Hv Hf) as (k & Hk & Hr).
    destruct (fd_close_open the_caller fd k Hv Hf Hk Hr) as (lg & Hc). exists lg. split; [exact Hc|].
    split; [|apply length_insert].
    apply (files_ok_release _ _ _ _ _ _ _ (sys_files _ _ S) (tables_lookup _ _ _ Hx)); [|auto].
    apply at_fd_lookup; [apply (sys_len _ _ S p x Hx)|auto].
  - exists (log s). cbv zeta. rewrite (with_fds_id s p x Hx). split; [|split; [|reflexivity]].
    + apply (fd_close_bad the_caller). destruct (is_fd_spec fd) as [Hv|]; [right|left; auto].
      destruct (Z.eq_dec (at_fd (files x) fd) 0); [auto|exfalso; auto].
    + rewrite insert_id by (apply tables_lookup; auto). apply S.
Qed.

Lemma fd_get_open fd : fd_get my s fd = Ok (if open_at fd then at_fd (files x) fd else 0).
Proof.
  rewrite (fd_get_ok the_caller). unfold open_at. destruct (is_fd fd); [|reflexivity]. cbn [andb].
  destruct (Z.eqb_spec (at_fd (files x) fd) 0) as [->|]; reflexivity.
Qed.

(** One more reference to [f]. *)
Definition shared (f : Z) : gmap Z kfile := alter (bump 1) f (kfiles s).

Lemma shared_eq f k : kfiles s !! f = Some k -> shared f = <[f := bump 1 k]> (kfiles s).
Proof. intros Hk. unfold shared. apply map_eq. intros g. destruct (decide (f = g)) as [->|].
  - rewrite lookup_alter_eq, lookup_insert_eq, Hk. reflexivity.
  - rewrite lookup_alter_ne, lookup_insert_ne by auto. reflexivity.
Qed.

Definition can_share (fd : Z) : Prop :=
  forall k, kfiles s !! at_fd (files x) fd = Some k -> f_refcount k + 1 < 4294967296.

Definition full_from (start : Z) : Prop := forall j, start <= j < PROCESS_MAX_FILES -> at_fd (files x) j <> 0.

Lemma dup_sys oldfd :
  can_share oldfd ->
  let f := at_fd (files x) oldfd in
  if open_at oldfd then
    (exists fd, lowest_free (files x) 0 fd /\
       let l := <[Z.to_nat fd := f]> (files x) in
       syscall_dup_impl my s oldfd = Ok (fd, with_fds s p x l (fd_flags x) (shared f) (log s)) /\
       files_ok (shared f) (<[p := l]> (tables s)) E) \/
    full_from 0 /\ syscall_dup_impl my s oldfd = Ok (- EMFILE, s)
  else syscall_dup_impl my s oldfd = Ok (- EBADF, s).
Proof.
  intros Hroom f. unfold syscall_dup_impl. rewrite fd_get_open, res_bind_ok.
  destruct (open_at_spec oldfd) as [[Hv Hf]|_]; [|reflexivity]. fold f in Hf |- *.
  destruct (Z.eqb_spec f 0); [contradiction|]. destruct (file_of oldfd Hv Hf) as (k & Hk & Hr).
  specialize (Hroom k Hk). rewrite (shared_eq f k Hk).
  rewrite (file_ref_ok s f 1 k Hk), res_bind_ok by lia. set (s1 := set_kfiles _ s).
  assert (C1 : caller s1 my p x) by apply the_caller.
  destruct (fd_alloc_from_ok C1 0 f) as [(fd & Hfree & ->)|[Hfull ->]]; [auto|unfold PROCESS_MAX_FILES; lia| |].
  - left. exists fd. split; [auto|]. destruct Hfree as (Hrg & Hz & _). rewrite res_bind_ok.
    destruct (Z.ltb_spec fd 0); [lia|]. split; [reflexivity|].
    apply (files_ok_dup _ _ _ _ _ _ _ k (sys_files _ _ S) (tables_lookup _ _ _ Hx)); auto.
    rewrite <- Hz. apply at_fd_lookup; [apply (sys_len _ _ S p x Hx)|split; lia].
  - right. split; [auto|]. rewrite res_bind_ok. cbv iota beta.
    assert (Hk1 : kfiles s1 !! f = Some (bump 1 k)) by apply lookup_insert_eq.
    change (- EMFILE <? 0) with true. cbv iota. rewrite (file_ref_ok s1 f (-1) _ Hk1), res_bind_ok by (simpl; lia).
    change (kfiles s1) with (<[f := bump 1 k]> (kfiles s)). rewrite (bump_back (kfiles s) f k Hk).
    unfold s1. destruct s; reflexivity.
Qed.
End sys.

Lemma released_le kf f g k1 :
  released kf g !! f = Some k1 -> exists k, kf !! f = Some k /\ f_refcount k1 <= f_refcount k.
Proof.
  unfold released. destruct (kf !! g) as [k|] eqn:Hg; [|intros Hk; eauto with lia].
  destruct (f_refcount k =? 1).
  - intros [_ Hk]%lookup_delete_Some. eauto with lia.
  - intros [[<- <-]|[_ Hk]]%lookup_insert_Some; [exists k; simpl; split; [auto|lia]|eauto with lia].
Qed.

Section onto.
Context {s : sched} {E : Z -> Z} (S : sys_ok s E) (my p : Z) (x : proc).
Context (Hmy : 0 <= my < SCHED_MAX_CPUS) (Hcur : arr_at (current s) my = p) (Hx : procs s !! p = Some x).
Let f fd := at_fd (files x) fd.

(** [dup2] and [dup3]: [newfd] refers to the file of [oldfd], whatever it was. *)
Lemma dup_onto_sys oldfd newfd :
  open_at x oldfd = true -> valid newfd -> oldfd <> newfd -> can_share (s := s) x oldfd ->
  let l := <[Z.to_nat newfd := f oldfd]> (files x) in
  exists kf lg, dup_onto my s (f oldfd) newfd = Ok (newfd, with_fds s p x l (fd_flags x) kf lg) /\
    files_ok kf (<[p := l]> (tables s)) E.
Proof.
  intros Ho Hv Hne Hroom l. destruct (open_at_spec x oldfd) as [[Hvo Hfo]|]; [|discriminate].
  pose proof (sys_len _ _ S p x Hx) as [Hl Hl'].
  pose proof (the_caller S my p x Hmy Hcur Hx) as (Hc & Hp0 & _).
  unfold dup_onto. rewrite Hc, res_bind_ok, (getp_ok _ _ _ Hx), res_bind_ok, (fd_read_ok _ Hl), res_bind_ok by auto.
  set (l1 := <[Z.to_nat newfd := 0]> (files x)).
  assert (H1 : exists kf1 lg1, (if at_fd (files x) newfd =? 0 then mret s
       else '(_, s) ← fd_close my s newfd; mret s) = Ok (with_fds s p x l1 (fd_flags x) kf1 lg1) /\
     files_ok kf1 (<[p := l1]> (tables s)) E /\
     (forall g k1, kf1 !! g = Some k1 -> exists k, kfiles s !! g = Some k /\ f_refcount k1 <= f_refcount k)).
  { destruct (Z.eqb_spec (at_fd (files x) newfd) 0) as [E0|Hn].
    - exists (kfiles s), (log s). assert (El : l1 = files x).
      { unfold l1. apply list_insert_id. rewrite <- E0. apply at_fd_lookup; auto. }
      rewrite El, with_fds_id by auto. split; [reflexivity|]. split; [|eauto with lia].
      rewrite insert_id by (apply tables_lookup; auto). apply S.
    - destruct (fd_close_sys S my p x Hmy Hcur Hx newfd) as (lg & Hcl & Hf & _).
      destruct (open_at_spec x newfd) as [_|Hno]; [|exfalso; auto].
      exists (released (kfiles s) (at_fd (files x) newfd)), lg. rewrite Hcl, res_bind_ok.
      split; [reflexivity|]. split; [exact Hf|]. intros g k1. apply released_le. }
  destruct H1 as (kf1 & lg1 & -> & Hf1 & Hle). rewrite res_bind_ok. set (s1 := with_fds _ _ _ _ _ _ _).
  assert (Ll : length l1 = length (files x)) by apply length_insert.
  assert (S1 : sys_ok s1 E) by (apply (sys_fds S p x Hx); auto).
  assert (Hx1 : procs s1 !! p = Some (fds l1 (fd_flags x) x)) by apply lookup_insert_eq.
  assert (Hat : at_fd l1 oldfd = f oldfd).
  { unfold l1. rewrite at_fd_insert by (auto; destruct Hvo; lia). destruct (Z.eqb_spec oldfd newfd); [contradiction|reflexivity]. }
  destruct (file_of S1 p _ Hx1 oldfd Hvo) as (k1 & Hk1 & Hr1); [simpl; rewrite Hat; exact Hfo|].
  change (files (fds l1 (fd_flags x) x)) with l1 in Hk1. rewrite Hat in Hk1.
  destruct (Hle _ _ Hk1) as (k & Hk & Hkle). specialize (Hroom k Hk).
  rewrite (file_ref_ok s1 _ 1 k1 Hk1), res_bind_ok by lia. set (s2 := set_kfiles _ s1).
  assert (C2 : caller s2 my p (fds l1 (fd_flags x) x)).
  { split; [exact Hc|]. split; [exact Hp0|]. split; [exact Hx1|]. split; [simpl; congruence|exact Hl']. }
  rewrite (put_file_ok C2), res_bind_ok by auto.
  eexists _, _. split; [f_equal; f_equal; etransitivity; [apply (with_fds_twice s p x l1 (fd_flags x) (<[f oldfd := bump 1 k1]> kf1) lg1)|]|].
  - simpl files. unfold l1. rewrite list_insert_insert_eq. reflexivity.
  - assert (Hl1 : l1 !! Z.to_nat newfd = Some 0) by (apply list_lookup_insert_eq; destruct Hv; lia).
    pose proof (files_ok_dup kf1 _ E p l1 _ (f oldfd) k1 Hf1 (lookup_insert_eq _ _ _) Hl1 Hfo Hk1 ltac:(lia)) as Hd.
    unfold l1 in Hd. rewrite insert_insert_eq, list_insert_insert_eq in Hd. exact Hd.
Qed.
End onto.

Section more.
Context {s : sched} {E : Z -> Z} (S : sys_ok s E) (my p : Z) (x : proc).
Context (Hmy : 0 <= my < SCHED_MAX_CPUS) (Hcur : arr_at (current s) my = p) (Hx : procs s !! p = Some x).

(** [open] gives the new file the lowest descriptor from 3 on. *)
Lemma open_fd_sys f node root (cl : bool) :
  f <> 0 -> kfiles s !! f = None ->
  (exists fd lg, lowest_free (files x) 3 fd /\
     let l := <[Z.to_nat fd := f]> (files x) in
     let fl := if cl then <[Z.to_nat fd := FD_CLOEXEC]> (fd_flags x) else fd_flags x in
     let kf := <[f := KFile node root 1]> (kfiles s) in
     open_fd my s f node root cl = Ok (fd, with_fds s p x l fl kf lg) /\ files_ok kf (<[p := l]> (tables s)) E) \/
  full_from x 3 /\ open_fd my s f node root cl = Ok (- EMFILE, emit (FreeFile f) s).
Proof.
  intros Hf Hn. unfold open_fd. cbv zeta. set (s1 := set_kfiles _ s). rewrite fd_alloc_from_3.
  pose proof (the_caller S my p x Hmy Hcur Hx) as (Hc & Hp & _ & Hl & Hl').
  assert (C1 : caller s1 my p x) by (split_and!; auto; split; auto).
  destruct (fd_alloc_from_ok C1 3 f Hf) as [(fd & Hfree & ->)|[Hfull ->]]; [unfold PROCESS_MAX_FILES; lia| |].
  - left. rewrite res_bind_ok. cbv iota beta. destruct Hfree as (Hrg & Hz & Hlow).
    destruct (Z.ltb_spec fd 0); [lia|]. assert (Hv : valid fd) by (split; lia).
    set (l := <[Z.to_nat fd := f]> (files x)). set (s2 := with_fds _ _ _ _ _ _ _).
    set (s3 := if root =? 0 then s2 else emit (MountRef root) s2).
    assert (E3 : exists lg, s3 = with_fds s p x l (fd_flags x) (kfiles s1) lg)
      by (unfold s3; destruct (root =? 0); eexists; reflexivity).
    destruct E3 as [lg E3]. clearbody s3. rewrite E3.
    change (cur _ my) with (cur s my). rewrite Hc, res_bind_ok.
    exists fd, lg. split; [split; [lia|auto]|].
    assert (C3 : caller (with_fds s p x l (fd_flags x) (kfiles s1) lg) my p (fds l (fd_flags x) x)).
    { apply caller_fds; [split_and!; auto; split; auto|apply length_insert|reflexivity]. }
    cbv zeta. split.
    + destruct cl; [|reflexivity]. rewrite (put_flag_ok C3), res_bind_ok by auto.
      rewrite with_fds_twice. reflexivity.
    + apply (files_ok_open _ _ _ _ _ _ _ _ _ (sys_files _ _ S) (tables_lookup _ _ _ Hx)); auto.
      rewrite <- Hz. apply at_fd_lookup; auto.
  - right. split; [exact Hfull|]. rewrite res_bind_ok. change (- EMFILE <? 0) with true. cbv iota beta.
    unfold s1. simpl kfiles. rewrite delete_insert_id by auto. destruct s; reflexivity.
Qed.

Lemma fcntl_setfd_sys fd arg :
  exists fl, fcntl_setfd my s fd arg =
    Ok (if open_at x fd then 0 else - EBADF, with_fds s p x (files x) fl (kfiles s) (log s)) /\
    length fl = length (fd_flags x) /\
    fl = if open_at x fd then <[Z.to_nat fd := u8 (Z.land arg FD_CLOEXEC)]> (fd_flags x) else fd_flags x.
Proof.
  unfold fcntl_setfd. rewrite (fd_get_open S my p x Hmy Hcur Hx), res_bind_ok.
  pose proof (the_caller S my p x Hmy Hcur Hx) as C. pose proof C as (Hc & _).
  destruct (open_at_spec x fd) as [[Hv Hf]|_].
  - destruct (Z.eqb_spec (at_fd (files x) fd) 0); [contradiction|]. rewrite Hc, res_bind_ok.
    rewrite (put_flag_ok C), res_bind_ok by auto. eexists. split; [reflexivity|]. split; [apply length_insert|reflexivity].
  - exists (fd_flags x). rewrite with_fds_id by auto. auto.
Qed.
End more.

(** ** [execve] closes the descriptors marked close-on-exec, and no others *)

Definition flagged (x : proc) (j : Z) : bool := negb (Z.land (at_fd (fd_flags x) j) FD_CLOEXEC =? 0).

Definition closed_from (i : Z) (x : proc) (l fl : list Z) : Prop :=
  length l = length (files x) /\ length fl = length (fd_flags x) /\
  forall j, valid j -> at_fd l j = (if (i <=? j) && flagged x j then 0 else at_fd (files x) j) /\
    at_fd fl j = (if (i <=? j) && flagged x j then 0 else at_fd (fd_flags x) j).

(** One descriptor. *)
Lemma exec_close_one s E my p x i :
  sys_ok s E -> 0 <= my < SCHED_MAX_CPUS -> arr_at (current s) my = p -> procs s !! p = Some x ->
  valid i ->
  exists l fl kf lg,
    (v ← fd_read (fd_flags x) i;
     if Z.land v FD_CLOEXEC =? 0 then mret s else '(_, s) ← fd_close my s i; put_flag s p i 0) =
      Ok (with_fds s p x l fl kf lg) /\
    files_ok kf (<[p := l]> (tables s)) E /\ length l = length (files x) /\ length fl = length (fd_flags x) /\
    (forall j, valid j -> at_fd l j = (if (i =? j) && flagged x j then 0 else at_fd (files x) j) /\
       at_fd fl j = (if (i =? j) && flagged x j then 0 else at_fd (fd_flags x) j)).
Proof.
  intros S Hmy Hcur Hx Hv. pose proof (sys_len _ _ S p x Hx) as [Hl Hl'].
  rewrite (fd_read_ok _ Hl') by auto. rewrite res_bind_ok.
  assert (Ef : (Z.land (at_fd (fd_flags x) i) FD_CLOEXEC =? 0) = negb (flagged x i))
    by (unfold flagged; rewrite negb_involutive; reflexivity).
  rewrite Ef. destruct (flagged x i) eqn:Fi; cbn [negb].
  - destruct (fd_close_sys S my p x Hmy Hcur Hx i) as (lg & -> & Hf & Hll). rewrite res_bind_ok. cbv iota beta.
    set (l := if open_at x i then _ else files x) in *. set (kf := if open_at x i then _ else kfiles s) in *.
    pose proof (the_caller S my p x Hmy Hcur Hx) as C.
    pose proof (caller_fds C l (fd_flags x) kf lg Hll eq_refl) as C1.
    rewrite (put_flag_ok C1) by auto. rewrite with_fds_twice.
    eexists l, _, kf, lg. split; [reflexivity|]. split; [auto|]. split; [auto|]. split; [apply length_insert|].
    intros j Hj. simpl fd_flags. rewrite at_fd_insert by (auto; apply Hj). rewrite (Z.eqb_sym j i).
    split; [|destruct (Z.eqb_spec i j) as [<-|]; [rewrite Fi|]; reflexivity].
    unfold l. destruct (open_at_spec x i) as [_|Hno].
    + rewrite at_fd_insert by (auto; apply Hj). rewrite (Z.eqb_sym j i).
      destruct (Z.eqb_spec i j) as [<-|]; [rewrite Fi|]; reflexivity.
    + destruct (Z.eqb_spec i j) as [<-|]; [rewrite Fi; cbn [andb]|reflexivity].
      destruct (Z.eq_dec (at_fd (files x) i) 0); [auto|exfalso; auto].
  - exists (files x), (fd_flags x), (kfiles s), (log s). rewrite with_fds_id by auto.
    split; [reflexivity|]. rewrite insert_id by (apply tables_lookup; auto).
    split; [apply S|]. split; [auto|]. split; [auto|]. intros j Hj.
    destruct (Z.eqb_spec i j) as [<-|]; [rewrite Fi|]; auto.
Qed.

Lemma exec_close_sys n : forall s E my p x i,
  sys_ok s E -> 0 <= my < SCHED_MAX_CPUS -> arr_at (current s) my = p -> procs s !! p = Some x ->
  0 <= i -> i + Z.of_nat n = PROCESS_MAX_FILES ->
  exists l fl kf lg, exec_close n my s i = Ok (with_fds s p x l fl kf lg) /\
    files_ok kf (<[p := l]> (tables s)) E /\ closed_from i x l fl.
Proof.
  induction n as [|n IH]; intros s E my p x i S Hmy Hcur Hx Hi Hn.
  { exists (files x), (fd_flags x), (kfiles s), (log s). rewrite with_fds_id by auto. split; [reflexivity|].
    rewrite insert_id by (apply tables_lookup; auto). split; [apply S|]. split; [auto|]. split; [auto|].
    intros j [Hj Hj']. destruct (Z.leb_spec i j); [lia|auto]. }
  cbn [exec_close]. pose proof (the_caller S my p x Hmy Hcur Hx) as (Hc & _).
  rewrite Hc, res_bind_ok, (getp_ok _ _ _ Hx), res_bind_ok.
  destruct (exec_close_one s E my p x i S Hmy Hcur Hx) as (l & fl & kf & lg & Ho & Hf & L1 & L2 & Hat); [split; lia|].
  pose proof (sys_len _ _ S p x Hx) as [_ Hl']. rewrite (fd_read_ok _ Hl'), res_bind_ok in Ho |- * by (split; lia).
  rewrite Ho, res_bind_ok. set (s1 := with_fds _ _ _ _ _ _ _).
  assert (S1 : sys_ok s1 E) by (apply (sys_fds S p x Hx); auto).
  destruct (IH s1 E my p (fds l fl x) (i + 1) S1 Hmy Hcur (lookup_insert_eq _ _ _)) as
    (l2 & fl2 & kf2 & lg2 & -> & Hf2 & L3 & L4 & Hat2); [lia|lia|].
  unfold s1. rewrite with_fds_twice. exists l2, fl2, kf2, lg2. split; [reflexivity|]. split.
  - change (tables s1) with (files <$> <[p := fds l fl x]> (procs s)) in Hf2.
    rewrite tables_put, insert_insert_eq in Hf2. exact Hf2.
  - split; [simpl in L3; congruence|]. split; [simpl in L4; congruence|]. intros j Hj.
    destruct (Hat j Hj) as [A1 A2], (Hat2 j Hj) as [B1 B2]. unfold flagged in B1, B2 |- *. simpl in B1, B2.
    rewrite A1, A2 in B1. rewrite A2 in B2. fold (flagged x j) in *. unfold flagged in A1, A2 |- *.
    rewrite B1, B2. destruct (Z.eqb_spec i j) as [<-|Hne].
    + destruct (Z.leb_spec (i + 1) i), (Z.leb_spec i i); try lia. split; reflexivity.
    + destruct (Z.leb_spec (i + 1) j), (Z.leb_spec i j); try lia; split; reflexivity.
Qed.

(** ** [pipe] *)

Section pipe.
Context {s : sched} {E : Z -> Z} (S : sys_ok s E) (my p : Z) (x : proc).
Context (Hmy : 0 <= my < SCHED_MAX_CPUS) (Hcur : arr_at (current s) my = p) (Hx : procs s !! p = Some x).

(** Both ends get a descriptor, or the call leaves no trace in the table and the
    open files. *)
Lemma pipe_fds_sys rf rnode wf wnode :
  rf <> 0 -> wf <> 0 -> rf <> wf -> kfiles s !! rf = None -> kfiles s !! wf = None ->
  exists o l kf lg, pipe_fds my s rf rnode wf wnode = Ok (o, with_fds s p x l (fd_flags x) kf lg) /\
    length l = length (files x) /\ files_ok kf (<[p := l]> (tables s)) E /\
    match o with
    | Some (rfd, wfd) => lowest_free (files x) 3 rfd /\ rfd < wfd < PROCESS_MAX_FILES /\
        l = <[Z.to_nat wfd := wf]> (<[Z.to_nat rfd := rf]> (files x))
    | None => l = files x /\ kf = kfiles s
    end.
Proof.
  intros Hr Hw Hne Hnr Hnw. unfold pipe_fds. cbv zeta.
  set (kfr := <[rf := KFile rnode 0 1]> (kfiles s)). set (kfw := <[wf := KFile wnode 0 1]> kfr).
  pose proof (the_caller S my p x Hmy Hcur Hx) as C. pose proof C as (Hc & Hp & _ & Hl & Hl').
  assert (Hback : delete wf (delete rf kfw) = kfiles s).
  { unfold kfw, kfr. rewrite (delete_insert_ne _ rf wf) by auto.
    rewrite (delete_insert_id (kfiles s) rf), (delete_insert_id (kfiles s) wf) by auto. reflexivity. }
  assert (Hsame : files_ok (kfiles s) (<[p := files x]> (tables s)) E)
    by (rewrite insert_id by (apply tables_lookup; auto); apply S).
  assert (C1 : caller (set_kfiles kfw s) my p x) by exact C. rewrite fd_alloc_from_3.
  destruct (fd_alloc_from_ok C1 3 rf Hr) as [(rfd & Hfree & ->)|[Hfull ->]]; [unfold PROCESS_MAX_FILES; lia| |].
  2: { rewrite res_bind_ok. change (- EMFILE <? 0) with true. cbv iota beta.
       eexists None, (files x), (kfiles s), _. split; [|auto]. rewrite (with_fds_log s p x _ _ Hx). simpl kfiles.
       rewrite Hback. destruct s; reflexivity. }
  rewrite res_bind_ok. pose proof Hfree as (Hrg & Hz & Hlow). destruct (Z.ltb_spec rfd 0); [lia|].
  assert (Hv : valid rfd) by (split; lia).
  set (l1 := <[Z.to_nat rfd := rf]> (files x)). assert (L1 : length l1 = length (files x)) by apply length_insert.
  set (s1 := with_fds _ _ _ _ _ _ _). pose proof (caller_fds C1 l1 (fd_flags x) kfw (log s) L1 eq_refl) as C2.
  change (with_fds _ _ _ l1 _ _ _) with s1 in C2.
  assert (E1 : s1 = with_fds s p x l1 (fd_flags x) kfw (log s)) by reflexivity.
  assert (Hat : at_fd l1 rfd = rf) by (unfold l1; rewrite at_fd_insert, Z.eqb_refl by (auto; lia); reflexivity).
  rewrite fd_alloc_from_3.
  destruct (fd_alloc_from_ok C2 3 wf Hw) as [(wfd & Hfree2 & ->)|[_ ->]]; [unfold PROCESS_MAX_FILES; lia| |].
  - rewrite res_bind_ok. destruct Hfree2 as (Hrg2 & Hz2 & _). destruct (Z.ltb_spec wfd 0); [lia|].
    simpl files in *. rewrite E1, with_fds_twice.
    assert (Hlt : rfd < wfd).
    { destruct (Z.lt_trichotomy rfd wfd) as [|[<-|Hgt]]; [auto|congruence|exfalso].
      apply (Hlow wfd); [lia|]. rewrite <- Hz2. unfold l1. rewrite at_fd_insert by (auto; lia).
      destruct (Z.eqb_spec wfd rfd); [lia|reflexivity]. }
    eexists _, _, kfw, (log s). split; [reflexivity|]. split; [rewrite length_insert; exact L1|].
    split; [|split; [auto|split; [lia|reflexivity]]].
    pose proof (files_ok_open _ _ _ p (files x) (Z.to_nat rfd) rf rnode 0 (sys_files _ _ S) (tables_lookup _ _ _ Hx)) as O1.
    assert (O2 : files_ok kfr (<[p := l1]> (tables s)) E).
    { apply O1; auto. rewrite <- Hz. apply at_fd_lookup; auto. }
    pose proof (files_ok_open _ _ _ p l1 (Z.to_nat wfd) wf wnode 0 O2 (lookup_insert_eq _ _ _)) as O3.
    rewrite insert_insert_eq in O3. apply O3; auto; [|unfold kfr; rewrite lookup_insert_ne by auto; auto].
    rewrite <- Hz2. apply at_fd_lookup; [congruence|split; lia].
  - rewrite res_bind_ok. change (- EMFILE <? 0) with true. cbv iota beta.
    destruct (fd_close_open C2 rfd (KFile rnode 0 1) Hv) as (lg & ->).
    + simpl files. rewrite Hat. exact Hr.
    + simpl files. rewrite Hat. change (kfiles s1) with kfw. unfold kfw, kfr.
      rewrite lookup_insert_ne by auto. apply lookup_insert_eq.
    + simpl. lia.
    + rewrite res_bind_ok. cbv iota beta. simpl files. rewrite Hat, E1, with_fds_twice.
      assert (El : <[Z.to_nat rfd := 0]> l1 = files x).
      { unfold l1. rewrite list_insert_insert_eq. apply list_insert_id. rewrite <- Hz. apply at_fd_lookup; auto. }
      assert (Erel : released (kfiles (with_fds s p x l1 (fd_flags x) kfw (log s))) rf = delete rf kfw).
      { change (kfiles _) with kfw. unfold released, kfw at 1, kfr at 1. rewrite lookup_insert_ne, lookup_insert_eq by auto.
        reflexivity. }
      simpl fd_flags. rewrite El, Erel. eexists None, (files x), (kfiles s), _. split; [|auto].
      rewrite !(with_fds_log s p x _ _ Hx). simpl kfiles. rewrite Hback. destruct s; reflexivity.
Qed.
End pipe.

(** ** [F_DUPFD_CLOEXEC] *)

Section dupfd.
Context {s : sched} {E : Z -> Z} (S : sys_ok s E) (my p : Z) (x : proc).
Context (Hmy : 0 <= my < SCHED_MAX_CPUS) (Hcur : arr_at (current s) my = p) (Hx : procs s !! p = Some x).

Lemma fcntl_dupfd_sys fd arg :
  can_share (s := s) x fd -> 0 <= s32 arg ->
  exists v l fl kf, fcntl_dupfd_cloexec my s fd arg = Ok (v, with_fds s p x l fl kf (log s)) /\
    length l = length (files x) /\ length fl = length (fd_flags x) /\ files_ok kf (<[p := l]> (tables s)) E /\
    (v < 0 -> l = files x /\ fl = fd_flags x /\ kf = kfiles s).
Proof.
  intros Hroom Ha. pose proof (the_caller S my p x Hmy Hcur Hx) as C. pose proof C as (Hc & Hp & _ & Hl & Hl').
  assert (Hid : forall v, exists v' l fl kf, (Ok (v, s) : res (Z * sched)) = Ok (v', with_fds s p x l fl kf (log s)) /\
    length l = length (files x) /\ length fl = length (fd_flags x) /\ files_ok kf (<[p := l]> (tables s)) E /\
    (v' < 0 -> l = files x /\ fl = fd_flags x /\ kf = kfiles s)).
  { intros v. exists v, (files x), (fd_flags x), (kfiles s). rewrite with_fds_id by auto.
    rewrite insert_id by (apply tables_lookup; auto). split_and!; auto. apply S. }
  unfold fcntl_dupfd_cloexec. rewrite (fd_get_open S my p x Hmy Hcur Hx), res_bind_ok.
  destruct (open_at_spec x fd) as [[Hv Hf]|_]; [|apply Hid].
  destruct (Z.eqb_spec (at_fd (files x) fd) 0); [contradiction|].
  rewrite Hc, res_bind_ok, (getp_ok _ _ _ Hx), res_bind_ok.
  destruct (Z.le_gt_cases (s32 arg) PROCESS_MAX_FILES) as [Hle|Hgt].
  2: { unfold fd_find_from. replace (Z.to_nat (PROCESS_MAX_FILES - s32 arg)) with 0%nat by lia. apply Hid. }
  destruct (fd_find_ok (files x) Hl (s32 arg)) as (o & -> & Ho); [lia|]. rewrite res_bind_ok.
  destruct o as [new|]; [|apply Hid]. destruct Ho as (Hrg & Hz & _). destruct (Z.ltb_spec new 0); [lia|].
  assert (Hvn : valid new) by (split; lia). rewrite (put_file_ok C), res_bind_ok by auto.
  set (l := <[Z.to_nat new := _]> (files x)). destruct (file_of S p x Hx fd Hv Hf) as (k & Hk & Hr).
  specialize (Hroom k Hk). set (s1 := with_fds _ _ _ _ _ _ _).
  rewrite (file_ref_ok s1 _ 1 k Hk), res_bind_ok by lia.
  set (kf := <[at_fd (files x) fd := bump 1 k]> (kfiles s1)).
  assert (L : length l = length (files x)) by apply length_insert.
  pose proof (caller_fds C l (fd_flags x) kf (log s) L eq_refl) as C2.
  change (set_kfiles kf s1) with (with_fds s p x l (fd_flags x) kf (log s)).
  rewrite (put_flag_ok C2), res_bind_ok by auto. rewrite with_fds_twice.
  eexists _, l, _, kf. split; [reflexivity|]. split; [auto|]. split; [apply length_insert|]. split; [|lia].
  apply (files_ok_dup _ _ _ _ _ _ _ k (sys_files _ _ S) (tables_lookup _ _ _ Hx)); auto.
  rewrite <- Hz. apply at_fd_lookup; auto.
Qed.

(** A negative lower bound indexes the table out of its bounds. *)
Lemma fcntl_dupfd_negative fd arg :
  open_at x fd = true -> s32 arg < 0 -> fcntl_dupfd_cloexec my s fd arg = Ub.
Proof.
  intros Ho Ha. pose proof (the_caller S my p x Hmy Hcur Hx) as (Hc & _).
  unfold fcntl_dupfd_cloexec. rewrite (fd_get_open S my p x Hmy Hcur Hx), Ho, res_bind_ok.
  destruct (open_at_spec x fd) as [[_ Hf]|]; [|discriminate].
  destruct (Z.eqb_spec (at_fd (files x) fd) 0); [contradiction|].
  rewrite Hc, res_bind_ok, (getp_ok _ _ _ Hx), res_bind_ok. unfold fd_find_from.
  destruct (Z.to_nat (PROCESS_MAX_FILES - s32 arg)) eqn:En; [unfold PROCESS_MAX_FILES in En; lia|].
  cbn [fd_scan]. unfold fd_read. destruct (Z.ltb_spec (s32 arg) 0); [reflexivity|lia].
Qed.
End dupfd.
