(* ===== verification/ProcessExit.v ===== *)
(** Exit, waiting and reaping: a process that exits becomes a zombie, its children are
    handed to init and a parent that waits for it is woken; a zombie that no CPU still
    runs leaves every data structure when it is reaped, and a wait returns the status
    of a child that is one. *)

From Stdlib Require Import Sorting.Sorted.
From S2P Require Import Prelude Bitmap Ring Runq SortedQ AsRef SchedState Sched SchedFrame SchedInv SchedSpec SchedTick SchedOps SchedLive Process ProcessFiles ProcessInv.
From S2P Require Import ProcessSpec.

(** ** What the exit of a process may change in the others *)

Definition fdt (x : proc) : list Z * list Z := (files x, fd_flags x).

Record exit_rel (s s' : sched) : Prop := ExitRel {
  er_list : same_list s s';
  er_files : kfiles s' = kfiles s;
  er_asref : asref s' = asref s;
  er_init : init_pid s' = init_pid s;
  er_procs : forall q y, procs s !! q = Some y -> exists y', procs s' !! q = Some y' /\
    pid y' = pid y /\ fdt y' = fdt y /\ exit_status y' = exit_status y /\
    waiting y' = waiting y /\ wait_pid y' = wait_pid y /\
    (state y' = state y \/ state y = PROCESS_BLOCKED /\ state y' = PROCESS_READY);
  er_dom : forall q, is_Some (procs s' !! q) -> is_Some (procs s !! q)
}.

Lemma exit_rel_refl s : exit_rel s s.
Proof. split; auto using same_list_refl. intros q y Hy. exists y. auto 10. Qed.

Lemma exit_rel_trans s1 s2 s3 : exit_rel s1 s2 -> exit_rel s2 s3 -> exit_rel s1 s3.
Proof.
  intros [L1 F1 A1 I1 P1 D1] [L2 F2 A2 I2 P2 D2]. split; try congruence; auto.
  - eapply same_list_trans; eauto.
  - intros q y Hy. destruct (P1 q y Hy) as (y1 & Hy1 & R1). destruct (P2 q y1 Hy1) as (y2 & Hy2 & R2).
    exists y2. split; [auto|]. destruct R1 as (? & ? & ? & ? & ? & [?|[? ?]]), R2 as (? & ? & ? & ? & ? & [?|[? ?]]);
      split_and!; try congruence; try (left; congruence); right; split; congruence.
Qed.

Lemma exit_rel_put s p x y :
  procs s !! p = Some x -> pid y = pid x -> fdt y = fdt x -> exit_status y = exit_status x ->
  waiting y = waiting x -> wait_pid y = wait_pid x ->
  (state y = state x \/ state x = PROCESS_BLOCKED /\ state y = PROCESS_READY) ->
  exit_rel s (set_procs (<[p := y]> (procs s)) s).
Proof.
  intros Hx E1 E2 E3 E4 E5 E6. split; simpl; auto; [red; auto 10| |].
  - intros q z Hz. destruct (decide (p = q)) as [->|]; [rewrite lookup_insert_eq|rewrite lookup_insert_ne by auto].
    + rewrite Hx in Hz. injection Hz as <-. exists y. auto 10.
    + exists z. auto 10.
  - intros q Hq. apply (procs_insert_is_Some _ p x) in Hq; auto.
Qed.

Lemma exit_rel_rqs s s' r : exit_rel s s' -> exit_rel s (set_rqs r s').
Proof. intros [L F A I P D]. split; auto. Qed.
Lemma exit_rel_load s s' a : exit_rel s s' -> exit_rel s (set_pcpu_load a s').
Proof. intros [L F A I P D]. split; auto. Qed.

(** The waiter [p], blocked, gets the result of its wait and the CPU. *)
Lemma wake_waiter_ok s Q SL AL G p x rp rs :
  sched_ok None s Q SL AL G -> procs s !! p = Some x -> state x = PROCESS_BLOCKED ->
  let y := x |> set_wait_result_pid rp |> set_wait_result_status rs |> set_state PROCESS_READY in
  let s1 := set_procs (<[p := y]> (procs s)) s in
  exists r Q', enqueue_active s1 (cpu_id x) p = Ok (set_rqs r s1) /\
    sched_ok None (set_rqs r s1) Q' SL AL G /\ exit_rel s (set_rqs r s1).
Proof.
  intros H Hx Hst y s1. destruct (so_bounds _ _ _ _ _ _ H p x Hx) as [Hb _].
  assert (Hns : p ∉ SL).
  { intros Hs. destruct (so_asleep _ _ _ _ _ _ H p Hs) as (z & Hz & Ez). congruence. }
  destruct (ready_enqueue_ok s Q SL AL G p x y H Hx ltac:(congruence) Hns) as (r & Hr & H1); auto.
  exists r, (woken s p y Q). split; [exact Hr|]. split; [exact H1|].
  apply exit_rel_rqs, (exit_rel_put s p x); auto.
Qed.

(** The children of the process [c], of PID [cpid], get init as their parent. *)
Definition adopted (s : sched) (c cpid : Z) (l : list Z) (q : Z) (y : proc) : proc :=
  if bool_decide (q ∈ l) && (parent_pid y =? cpid) && negb (q =? c) then set_parent_pid (init_pid s) y else y.

(** The first zombie among them, in the order of the process list. *)
Definition orphan (s : sched) (c cpid q : Z) : option proc :=
  y ← procs s !! q;
  if (parent_pid y =? cpid) && negb (q =? c) && is_state (state y) PROCESS_ZOMBIE then Some y else None.

Definition first_orphan (s : sched) (c cpid : Z) (l : list Z) : option proc := head (omap (orphan s c cpid) l).

Definition waits_any (y : proc) : bool :=
  is_state (state y) PROCESS_BLOCKED && negb (waiting y =? 0) && (wait_pid y =? -1).

(** A waiter that has got the result of its wait. *)
Definition collected (rp rs : Z) (y : proc) : proc :=
  y |> set_wait_result_pid rp |> set_wait_result_status rs |> set_state PROCESS_READY.

Definition told (o : option proc) (y : proc) : proc :=
  match o with
  | Some k => if waits_any y then collected (s32 (pid k)) (exit_status k) y else y
  | None => y
  end.

(** What handing the children in [l] to the init process [ip] makes of [q]. *)
Definition handed (s : sched) (c cpid ip : Z) (l : list Z) (q : Z) (y : proc) : proc :=
  let y := adopted s c cpid l q y in
  if q =? ip then told (first_orphan s c cpid l) y else y.

Lemma wake_init_ok s Q SL AL G ip i z :
  sched_ok None s Q SL AL G -> procs s !! ip = Some i ->
  exists s' Q', wake_init s ip z = Ok s' /\ sched_ok None s' Q' SL AL G /\ exit_rel s s' /\
    procs s' = <[ip := if is_state (state z) PROCESS_ZOMBIE then told (Some z) i else i]> (procs s).
Proof.
  intros H Hi. unfold wake_init. rewrite (getp_ok _ _ _ Hi), res_bind_ok.
  destruct (is_state (state z) PROCESS_ZOMBIE); cbn [andb told];
    [|exists s, Q; rewrite insert_id by auto; auto using exit_rel_refl].
  fold (waits_any i). destruct (waits_any i) eqn:Ec.
  - unfold waits_any in Ec. rewrite !andb_true_iff in Ec. destruct Ec as [[Hb%is_state_true _] _].
    destruct (wake_waiter_ok s Q SL AL G ip i (s32 (pid z)) (exit_status z) H Hi Hb) as (r & Q' & Hr & H1 & R).
    rewrite (updp_ok s ip i), res_bind_ok by auto.
    erewrite getp_ok by (simpl; apply lookup_insert_eq). rewrite res_bind_ok.
    simpl cpu_id in Hr |- *. rewrite Hr. eexists _, Q'. split; [reflexivity|]. auto.
  - exists s, Q. rewrite insert_id by auto. auto using exit_rel_refl.
Qed.

(** One child. *)
Lemma reparent_body_ok s Q SL AL G c cpid ip it x :
  sched_ok None s Q SL AL G -> procs s !! it = Some x -> is_Some (procs s !! ip) ->
  exists s' Q', (if (parent_pid x =? cpid) && negb (it =? c) then
       s ← updp s it (set_parent_pid (init_pid s)); y ← getp s it; wake_init s ip y
     else mret s) = Ok s' /\
    sched_ok None s' Q' SL AL G /\ exit_rel s s' /\
    forall q, procs s' !! q = handed s c cpid ip [it] q <$> procs s !! q.
Proof.
  intros H Hx [i Hi]. unfold handed, adopted, first_orphan, orphan. cbn [omap list_omap].
  rewrite Hx. cbn [mbind option_bind].
  destruct ((parent_pid x =? cpid) && negb (it =? c)) eqn:Ec; cbn [andb].
  - rewrite (updp_ok s it x), res_bind_ok by auto. set (y := set_parent_pid (init_pid s) x).
    assert (H1 : sched_ok None (set_procs (<[it := y]> (procs s)) s) Q SL AL G)
      by (eapply sched_ok_same; eauto; red; auto 10).
    set (s1 := set_procs _ s) in *. assert (Hy : procs s1 !! it = Some y) by apply lookup_insert_eq.
    rewrite (getp_ok _ _ _ Hy), res_bind_ok.
    set (i1 := if it =? ip then y else i).
    assert (Hi1 : procs s1 !! ip = Some i1).
    { unfold i1, s1. simpl. destruct (Z.eqb_spec it ip) as [->|]; [apply lookup_insert_eq|rewrite lookup_insert_ne; auto]. }
    destruct (wake_init_ok s1 Q SL AL G ip i1 y H1 Hi1) as (s' & Q' & Hr & H2 & R & P).
    exists s', Q'. split; [exact Hr|]. split; [exact H2|].
    split; [eapply exit_rel_trans; [apply (exit_rel_put s it x y); auto|exact R]|].
    intros q. rewrite P. change (state y) with (state x).
    assert (Ead : forall q, procs s1 !! q = adopted s c cpid [it] q <$> procs s !! q).
    { intros q'. unfold s1, adopted. simpl. destruct (decide (it = q')) as [<-|].
      - rewrite lookup_insert_eq, Hx. simpl. rewrite bool_decide_eq_true_2 by set_solver. cbn [andb]. rewrite Ec. reflexivity.
      - rewrite lookup_insert_ne, bool_decide_eq_false_2 by set_solver. cbn [andb]. destruct (procs s !! q'); reflexivity. }
    destruct (Z.eqb_spec q ip) as [->|Hne].
    + rewrite lookup_insert_eq. specialize (Ead ip). rewrite Hi1, Hi in Ead. rewrite Hi. simpl in Ead |- *.
      injection Ead as Ead. unfold adopted in Ead. rewrite <- Ead. destruct (is_state (state x) PROCESS_ZOMBIE); reflexivity.
    + rewrite lookup_insert_ne by auto. apply Ead.
  - exists s, Q. split; [reflexivity|]. split; [auto|]. split; [apply exit_rel_refl|].
    intros q. cbn [head told]. destruct (procs s !! q) as [y|] eqn:Hy; [|reflexivity]. cbn [fmap option_fmap option_map].
    destruct (bool_decide_reflect (q ∈ [it])) as [->%list_elem_of_singleton|]; cbn [andb].
    + rewrite Hx in Hy. injection Hy as <-. rewrite Ec. destruct (it =? ip); reflexivity.
    + destruct (q =? ip); reflexivity.
Qed.

(** A process that handing over touches is an orphan afterwards if it was one before. *)
Lemma orphan_same s s1 c cpid ip it q :
  (forall q, procs s1 !! q = handed s c cpid ip [it] q <$> procs s !! q) -> q <> it ->
  orphan s1 c cpid q = orphan s c cpid q.
Proof.
  intros P Hne. unfold orphan. rewrite P. destruct (procs s !! q) as [y|]; [|reflexivity]. cbn [fmap option_fmap option_map mbind option_bind].
  unfold handed, adopted. rewrite bool_decide_eq_false_2 by set_solver. cbn [andb].
  destruct (q =? ip); [|reflexivity]. unfold told. destruct (first_orphan _ _ _ _) as [k|]; [|reflexivity].
  destruct (waits_any y) eqn:Ew; [|reflexivity]. unfold waits_any in Ew. rewrite !andb_true_iff in Ew.
  destruct Ew as [[Eb%is_state_true _] _]. unfold collected. cbn. rewrite Eb. cbn. rewrite !andb_false_r. reflexivity.
Qed.

Lemma first_orphan_cons s c cpid it l :
  first_orphan s c cpid (it :: l) =
    match first_orphan s c cpid [it] with Some k => Some k | None => first_orphan s c cpid l end.
Proof. unfold first_orphan. cbn [omap list_omap]. destruct (orphan s c cpid it); reflexivity. Qed.

Lemma told_twice o o' y : told o' (told o y) = told (match o with Some k => Some k | None => o' end) y.
Proof.
  destruct o as [k|]; [|reflexivity]. cbn [told]. destruct (waits_any y) eqn:Ew; destruct o' as [k'|]; cbn [told]; auto.
  rewrite Ew. reflexivity.
Qed.

Lemma handed_step s s1 c cpid ip it l q y :
  (forall q, procs s1 !! q = handed s c cpid ip [it] q <$> procs s !! q) -> init_pid s1 = init_pid s -> it ∉ l ->
  handed s1 c cpid ip l q (handed s c cpid ip [it] q y) = handed s c cpid ip (it :: l) q y.
Proof.
  intros P Hi Hni. unfold handed at 1. assert (Ef : first_orphan s1 c cpid l = first_orphan s c cpid l).
  { unfold first_orphan. f_equal. clear -P Hni. induction l as [|q l IH]; [reflexivity|]. cbn [omap list_omap].
    rewrite (orphan_same s s1 c cpid ip it) by (auto; set_solver). rewrite IH by set_solver. reflexivity. }
  rewrite Ef. unfold handed. rewrite (first_orphan_cons s c cpid it l), <- told_twice.
  assert (Ea : forall o, adopted s1 c cpid l q (told o (adopted s c cpid [it] q y)) = told o (adopted s c cpid (it :: l) q y)).
  { intros o. unfold adopted. rewrite Hi. destruct (decide (q = it)) as [->|Hne].
    - rewrite (bool_decide_eq_false_2 (it ∈ l)) by auto. rewrite !(bool_decide_eq_true_2 (it ∈ _)) by set_solver. reflexivity.
    - rewrite (bool_decide_eq_false_2 (q ∈ [it])) by set_solver. cbn [andb].
      rewrite (bool_decide_ext (q ∈ it :: l) (q ∈ l)) by set_solver.
      assert (Ep : parent_pid (told o y) = parent_pid y) by (unfold told; repeat case_match; reflexivity). rewrite Ep.
      destruct (_ && _ && _); [|reflexivity]. unfold told. destruct o; [|reflexivity].
      destruct y; unfold waits_any; simpl; case_match; reflexivity. }
  destruct (q =? ip); [rewrite Ea; reflexivity|]. exact (Ea None).
Qed.

Lemma reparent_ok fuel : forall s Q SL AL G c cpid ip l1 it l2,
  sched_ok None s Q SL AL G -> ready_queue_head s :: G = l1 ++ it :: l2 -> (length l2 < fuel)%nat ->
  is_Some (procs s !! ip) ->
  exists s' Q', reparent fuel s c cpid ip it (ready_queue_head s) = Ok s' /\
    sched_ok None s' Q' SL AL G /\ exit_rel s s' /\
    forall q, procs s' !! q = handed s c cpid ip (it :: l2) q <$> procs s !! q.
Proof.
  induction fuel as [|fuel IH]; intros s Q SL AL G c cpid ip l1 it l2 H El Hf Hip; [lia|]. cbn [reparent].
  assert (Hit : is_Some (procs s !! it)) by (apply (so_procs _ _ _ _ _ _ H); rewrite El; set_solver).
  destruct Hit as [x Hx]. rewrite (getp_ok _ _ _ Hx), res_bind_ok.
  destruct (reparent_body_ok s Q SL AL G c cpid ip it x H Hx Hip) as (s1 & Q1 & -> & H1 & R1 & A1).
  rewrite res_bind_ok. destruct (er_list _ _ R1) as (Ln & _ & Lh & _).
  rewrite Ln, (fget_ok _ _ _ (ring_succ _ _ _ _ _ _ _ (so_ring _ _ _ _ _ _ H) El)), res_bind_ok.
  destruct l2 as [|q l2]; simpl hd.
  - rewrite Z.eqb_refl, orb_true_r. exists s1, Q1. auto.
  - destruct (ring_next_facts _ _ _ _ _ _ _ _ _ _ H El) as [Hq0 Hqh].
    destruct (Z.eqb_spec q 0), (Z.eqb_spec q (ready_queue_head s)); try tauto. cbn [orb]. rewrite <- Lh.
    destruct (IH s1 Q1 SL AL G c cpid ip (l1 ++ [it]) q l2 H1) as (s' & Q' & Hr & H' & R' & A').
    + rewrite Lh, El, <- app_assoc. reflexivity.
    + simpl in Hf. lia.
    + destruct Hip as [i Hi]. destruct (er_procs _ _ R1 ip i Hi) as (i' & -> & _). eauto.
    + exists s', Q'. split; [exact Hr|]. split; [exact H'|]. split; [eapply exit_rel_trans; eauto|].
      intros q'. rewrite A', A1. destruct (procs s !! q') as [y|]; [|reflexivity]. cbn [fmap option_fmap option_map]. f_equal.
      apply handed_step; [exact A1|apply (er_init _ _ R1)|]. destruct (so_ring _ _ _ _ _ _ H) as [_ Hn]. rewrite El in Hn.
      apply NoDup_app in Hn as (_ & _ & Hn). apply NoDup_cons in Hn. tauto.
Qed.
(** ** Looking up a process does not depend on what exit changes *)

Lemma er_pid s s' q : exit_rel s s' -> pid <$> procs s' !! q = pid <$> procs s !! q.
Proof.
  intros R. destruct (procs s !! q) as [y|] eqn:Hy.
  - destruct (er_procs _ _ R q y Hy) as (y' & -> & E & _). simpl. congruence.
  - destruct (procs s' !! q) as [y'|] eqn:Hy'; [|reflexivity].
    destruct (er_dom _ _ R q) as [y E]; [eauto|congruence].
Qed.

Lemma er_nprocs s s' : exit_rel s s' -> nprocs s' = nprocs s.
Proof.
  intros R. unfold nprocs. f_equal. rewrite <- !size_dom. f_equal. apply set_eq. intros q.
  rewrite !elem_of_dom. split; [apply (er_dom _ _ R)|]. intros [y Hy].
  destruct (er_procs _ _ R q y Hy) as (y' & -> & _). eauto.
Qed.

(** The process list and the PIDs are the same. *)
Definition same_pids (s s' : sched) : Prop :=
  pnext s' = pnext s /\ ready_queue_head s' = ready_queue_head s /\ nprocs s' = nprocs s /\
  forall q, pid <$> procs s' !! q = pid <$> procs s !! q.

Lemma find_loop_same s s' fuel : same_pids s s' -> forall it start pd,
  find_loop fuel s' it start pd = find_loop fuel s it start pd.
Proof.
  intros (Ln & _ & _ & Hp). induction fuel as [|fuel IH]; intros it start pd; [reflexivity|]. cbn [find_loop].
  pose proof (Hp it) as Ep.
  destruct (procs s' !! it) as [y'|] eqn:E1, (procs s !! it) as [y|] eqn:E2; simpl in Ep; try discriminate.
  - rewrite (getp_ok _ _ _ E1), (getp_ok _ _ _ E2), !res_bind_ok, Ln. injection Ep as ->.
    destruct (pid y =? pd); [reflexivity|]. destruct (fget (pnext s) it); [|reflexivity..].
    rewrite !res_bind_ok, IH. reflexivity.
  - unfold getp, fget. rewrite E1, E2. reflexivity.
Qed.

Lemma process_find_same s s' pd : same_pids s s' -> process_find_locked s' pd = process_find_locked s pd.
Proof.
  intros S. pose proof S as (_ & Lh & Hn & _). unfold process_find_locked.
  rewrite Lh, Hn, (find_loop_same s s') by auto. reflexivity.
Qed.

Lemma er_same_pids s s' : exit_rel s s' -> same_pids s s'.
Proof.
  intros R. destruct (er_list _ _ R) as (Ln & _ & Lh & _). split_and!; auto using er_nprocs.
  intros q. apply (er_pid _ _ q R).
Qed.

Lemma same_pids_put s p x y : procs s !! p = Some x -> pid y = pid x ->
  same_pids s (set_procs (<[p := y]> (procs s)) s).
Proof.
  intros Hx Ep. split_and!; auto.
  - unfold nprocs. simpl. f_equal. rewrite map_size_insert_Some by eauto. reflexivity.
  - intros q. simpl. destruct (decide (p = q)) as [->|];
      [rewrite lookup_insert_eq, Hx; simpl; congruence|rewrite lookup_insert_ne by auto; reflexivity].
Qed.

Lemma same_pids_trans s1 s2 s3 : same_pids s1 s2 -> same_pids s2 s3 -> same_pids s1 s3.
Proof.
  intros (A1 & A2 & A3 & A4) (B1 & B2 & B3 & B4). split_and!; try congruence.
Qed.

(** ** Exit *)

(** [z] waits for the process [x] to exit. *)
Definition waits_for (z x : proc) : Prop :=
  state z = PROCESS_BLOCKED /\ waiting z <> 0 /\ (wait_pid z = -1 \/ wait_pid z = s32 (pid x)).

Definition waits_for_b (z x : proc) : bool :=
  is_state (state z) PROCESS_BLOCKED && negb (waiting z =? 0) && ((wait_pid z =? -1) || (wait_pid z =? s32 (pid x))).

Lemma waits_for_reflect z x : reflect (waits_for z x) (waits_for_b z x).
Proof.
  apply iff_reflect. unfold waits_for, waits_for_b.
  rewrite !andb_true_iff, orb_true_iff, negb_true_iff, Z.eqb_neq, !Z.eqb_eq, is_state_true. tauto.
Qed.

(** The process of the PID [pd], 0 if there is none. *)
Definition found (s : sched) (pd : Z) : Z := match process_find_locked s pd with Ok q => q | _ => 0 end.

Definition parent_of (s : sched) (x : proc) : Z := if pid x =? 0 then 0 else found s (parent_pid x).
Definition init_of (s : sched) : Z := if init_pid s =? 0 then 0 else found s (init_pid s).

(** What the exit of [x], whose parent is [par], makes of the process [q]. *)
Definition heard (par : Z) (x : proc) (status q : Z) (y : proc) : proc :=
  if (q =? par) && waits_for_b y x then collected (s32 (pid x)) status y else y.

Lemma wake_parent_ok s Q SL AL G x status :
  sched_ok None s Q SL AL G ->
  exists o s' Q', wake_parent s x status = Ok (o, s') /\ sched_ok None s' Q' SL AL G /\ exit_rel s s' /\
    forall q, procs s' !! q = heard (parent_of s x) x status q <$> procs s !! q.
Proof.
  intros H. unfold wake_parent, parent_of.
  assert (Hid : forall par, (forall y, procs s !! par = Some y -> waits_for_b y x = false) ->
    exists o s' Q', (Ok (None, s) : res (option Z * sched)) = Ok (o, s') /\
    sched_ok None s' Q' SL AL G /\ exit_rel s s' /\ forall q, procs s' !! q = heard par x status q <$> procs s !! q).
  { intros par HP. exists None, s, Q. split_and!; auto using exit_rel_refl. intros q.
    destruct (procs s !! q) as [y|] eqn:Hy; [|reflexivity]. simpl. unfold heard.
    destruct (Z.eqb_spec q par) as [->|]; [rewrite (HP y Hy)|]; reflexivity. }
  assert (H0 : forall y, procs s !! 0 = Some y -> waits_for_b y x = false)
    by (intros y Hy; rewrite (so_zero _ _ _ _ _ _ H) in Hy; discriminate).
  destruct (Z.eqb_spec (pid x) 0); [apply Hid; exact H0|].
  destruct (process_find_ok None s Q SL AL G (parent_pid x) H) as (q & Hq & Hcase). unfold found. rewrite Hq, res_bind_ok.
  destruct (Z.eqb_spec q 0) as [->|Hq0]; [apply Hid; exact H0|].
  destruct Hcase as [[-> _]|(z & Hz & _)]; [contradiction|].
  rewrite (getp_ok _ _ _ Hz), res_bind_ok. fold (waits_for_b z x). destruct (waits_for_b z x) eqn:Ec.
  - pose proof Ec as Hb. unfold waits_for_b in Hb. rewrite !andb_true_iff in Hb. destruct Hb as [[Hb%is_state_true _] _].
    destruct (so_bounds _ _ _ _ _ _ H q z Hz) as [_ Hcpu]. rewrite clamp_id by auto.
    destruct (wake_waiter_ok s Q SL AL G q z (s32 (pid x)) status H Hz Hb) as (r & Q' & Hr & H1 & R).
    rewrite (updp_ok s q z), res_bind_ok by auto. simpl in Hr |- *. rewrite Hr, res_bind_ok.
    destruct (inc_load_ok _ _ _ _ _ _ (cpu_id z) H1) as (a & -> & H2); [lia|]. rewrite res_bind_ok.
    eexists _, _, Q'. split; [reflexivity|]. split; [exact H2|]. split; [apply exit_rel_load; exact R|].
    intros q'. simpl. unfold heard. destruct (Z.eqb_spec q' q) as [->|].
    + rewrite lookup_insert_eq, Hz. cbn [fmap option_fmap option_map andb]. rewrite Ec. reflexivity.
    + rewrite lookup_insert_ne by auto. destruct (procs s !! q'); reflexivity.
  - apply Hid. intros y Hy. congruence.
Qed.

(** A record a zombie keeps: everything but its state and exit status. *)
Lemma sys_exit_rel s s' E : sys_ok s E -> sched_inv s' -> exit_rel s s' -> sys_ok s' E.
Proof.
  intros S Hi R. assert (Hback : forall q y', procs s' !! q = Some y' -> exists y, procs s !! q = Some y /\
    pid y' = pid y /\ files y' = files y /\ fd_flags y' = fd_flags y /\ (state y' = PROCESS_ZOMBIE -> state y = PROCESS_ZOMBIE)).
  { intros q y' Hy'. destruct (er_dom _ _ R q) as [y Hy]; [eauto|]. exists y.
    destruct (er_procs _ _ R q y Hy) as (y2 & Hy2 & E1 & E2 & _ & _ & _ & E3). rewrite Hy' in Hy2. injection Hy2 as <-.
    injection E2 as E2 E2'. split_and!; auto. destruct E3 as [->|[_ ->]]; [auto|discriminate]. }
  assert (Htab : tables s' = tables s).
  { apply map_eq. intros q. unfold tables. rewrite !lookup_fmap.
    destruct (procs s' !! q) as [y'|] eqn:Hy'; simpl.
    - destruct (Hback q y' Hy') as (y & -> & _ & E2 & _). simpl. congruence.
    - destruct (procs s !! q) as [y|] eqn:Hy; [|reflexivity].
      destruct (er_procs _ _ R q y Hy) as (y2 & Hy2 & _). congruence. }
  split; auto.
  - rewrite (er_asref _ _ R). apply S.
  - rewrite (er_files _ _ R), Htab. apply S.
  - destruct (er_list _ _ R) as (_ & _ & Lh & _). rewrite Lh. intros y' Hy'.
    destruct (Hback _ y' Hy') as (y & Hy & -> & _). apply (sys_head _ _ S y Hy).
  - intros q y' Hy'. destruct (Hback q y' Hy') as (y & Hy & _ & E2 & E3 & _). unfold table_ok. rewrite E2, E3.
    apply (sys_len _ _ S q y Hy).
Qed.

Section exit.
Context {s : sched} {E : Z -> Z} (S : sys_ok s E) (my p : Z) (x : proc) (status : Z).
Context (Hmy : 0 <= my < SCHED_MAX_CPUS) (Hrun : runs s my p x).

(** The process itself, first: it is a zombie and has no alarm. *)
Lemma become_zombie :
  let z := x |> set_exit_status status |> set_state PROCESS_ZOMBIE in
  exists s2 Q SL AL G, (s ← updp (emit (MountUnrefPath (cwd x)) s) p (fun x => x |> set_exit_status status |> set_state PROCESS_ZOMBIE);
      alarm_queue_remove s p) = Ok s2 /\ sched_ok None s2 Q SL AL G /\ sys_ok s2 E /\
    procs s2 = <[p := z]> (procs s) /\ same_list s s2 /\ init_pid s2 = init_pid s /\ same_pids s s2.
Proof.
  intros z. destruct (sys_sched _ _ S) as (Q & SL & AL & G & H). pose proof Hrun as (Hc & Hx & Hst & _).
  set (s0 := emit (MountUnrefPath (cwd x)) s).
  assert (H0 : sched_ok None s0 Q SL AL G) by (apply sched_ok_emit; auto).
  assert (H1 : sched_ok None (set_procs (<[p := z]> (procs s)) s0) Q SL AL G)
    by (apply (leave_ok s0 Q SL AL G my p x); auto; discriminate).
  rewrite (updp_ok s0 p x), res_bind_ok by auto.
  destruct (alarm_remove_ok H1 p z (lookup_insert_eq _ _ _)) as (q & Hq & H2).
  eexists _, Q, SL, _, G. split; [exact Hq|]. split; [exact H2|].
  split; [|split; [reflexivity|split; [red; auto 10|split; [reflexivity|apply (same_pids_put s p x z); auto]]]].
  apply (sys_put s _ E p x z S Hx); try reflexivity.
  - exists Q, SL, (filter (fun y => y <> p) AL), G. exact H2.
  - simpl. rewrite insert_id by (apply tables_lookup; auto). apply S.
Qed.

(** What the exit makes of the process [q], with the process list [l]. *)
Definition after_exit (l : list Z) (q : Z) (y : proc) : proc :=
  if q =? p then y |> set_exit_status status |> set_state PROCESS_ZOMBIE
  else
    let y := if init_of s =? 0 then y else handed s p (pid x) (init_of s) l q y in
    heard (parent_of s x) x status q y.

Lemma reparent_all s2 Q SL AL G :
  sched_ok None s2 Q SL AL G -> same_pids s s2 -> init_pid s2 = init_pid s ->
  exists s3 Q3, (if init_pid s2 =? 0 then mret 0 else process_find_locked s2 (init_pid s2)) = Ok (init_of s) /\
    (if (ready_queue_head s2 =? 0) || (init_of s =? 0) then mret s2
     else reparent (nprocs s2) s2 p (pid x) (init_of s) (ready_queue_head s2) (ready_queue_head s2)) = Ok s3 /\
    sched_ok None s3 Q3 SL AL G /\ exit_rel s2 s3 /\
    forall q, procs s3 !! q =
      (if init_of s =? 0 then id else handed s2 p (pid x) (init_of s) (ready_queue_head s2 :: G) q) <$> procs s2 !! q.
Proof.
  intros H Hsp Hi.
  assert (Hip : (if init_pid s2 =? 0 then mret 0 else process_find_locked s2 (init_pid s2)) = Ok (init_of s) /\
    (init_of s <> 0 -> is_Some (procs s2 !! init_of s))).
  { unfold init_of, found. rewrite <- Hi, <- (process_find_same s s2) by auto.
    destruct (Z.eqb_spec (init_pid s2) 0); [split; [reflexivity|congruence]|].
    destruct (process_find_ok None s2 Q SL AL G (init_pid s2) H) as (ip & Hf & Hc). rewrite Hf.
    split; [reflexivity|]. intros Hn. destruct Hc as [[? _]|(y & -> & _)]; [contradiction|eauto]. }
  destruct Hip as [-> Hsome].
  destruct (Z.eqb_spec (ready_queue_head s2) 0) as [E0|_].
  { exfalso. assert (Hz : is_Some (procs s2 !! 0)) by (apply (so_procs _ _ _ _ _ _ H); rewrite E0; set_solver).
    rewrite (so_zero _ _ _ _ _ _ H) in Hz. destruct Hz; discriminate. }
  cbn [orb]. destruct (Z.eqb_spec (init_of s) 0) as [E0|Hn].
  - exists s2, Q. split_and!; auto using exit_rel_refl. intros q. destruct (procs s2 !! q); reflexivity.
  - destruct (reparent_ok (nprocs s2) s2 Q SL AL G p (pid x) (init_of s) [] (ready_queue_head s2) G H eq_refl)
      as (s3 & Q3 & Hr & H3 & R & A); auto.
    { pose proof (ring_fuel H) as Hf. simpl in Hf. unfold nprocs in *. lia. }
    exists s3, Q3. auto 10.
Qed.

(** The exiting process itself is none of its orphans. *)
Lemma handed_zombie s2 z l q y :
  procs s2 = <[p := z]> (procs s) -> init_pid s2 = init_pid s ->
  handed s2 p (pid x) (init_of s) l q y = handed s p (pid x) (init_of s) l q y.
Proof.
  intros P Hi. unfold handed, adopted, first_orphan. rewrite Hi.
  replace (omap (orphan s2 p (pid x)) l) with (omap (orphan s p (pid x)) l); [reflexivity|].
  induction l as [|r l IH]; [reflexivity|]. cbn [omap list_omap].
  replace (orphan s2 p (pid x) r) with (orphan s p (pid x) r).
  { rewrite IH. reflexivity. }
  unfold orphan. rewrite P. destruct (decide (p = r)) as [<-|]; [|rewrite lookup_insert_ne by auto; reflexivity].
  rewrite lookup_insert_eq. cbn [mbind option_bind]. rewrite Z.eqb_refl. cbn [negb]. rewrite andb_false_r. cbn [andb].
  destruct (procs s !! p); [|reflexivity]. cbn. rewrite andb_false_r. reflexivity.
Qed.

Lemma process_exit_notify_ok :
  exists s' G, process_exit_notify my s status = Ok s' /\ sys_ok s' E /\ current s' = current s /\
    ring (pnext s) (pprev s) (ready_queue_head s) G /\
    forall q, procs s' !! q = after_exit (ready_queue_head s :: G) q <$> procs s !! q.
Proof.
  pose proof Hrun as (Hc & Hx & Hst & _). destruct (sys_sched _ _ S) as (Q0 & SL0 & AL0 & G0 & H0).
  unfold process_exit_notify. destruct (current_some _ _ _ _ _ my H0 Hmy) as [-> _]. rewrite res_bind_ok, Hc.
  destruct (Z.eqb_spec p 0); [exfalso; exact (so_nonzero H0 p x Hx e)|].
  rewrite (getp_ok _ _ _ Hx), res_bind_ok.
  destruct become_zombie as (s2 & Q & SL & AL & G & Hz & H2 & S2 & P2 & L2 & I2 & SP2).
  rewrite (res_bind_then _ _ _ _ Hz).
  destruct (reparent_all s2 Q SL AL G H2 SP2 I2) as (s3 & Q3 & -> & Hrep & H3 & R3 & A3).
  rewrite res_bind_ok. cbv zeta. rewrite Hrep, res_bind_ok.
  set (z := x |> set_exit_status status |> set_state PROCESS_ZOMBIE) in *.
  assert (Hz2 : procs s2 !! p = Some z) by (rewrite P2; apply lookup_insert_eq).
  assert (Hz3 : procs s3 !! p = Some z).
  { rewrite A3, Hz2. simpl. destruct (init_of s =? 0); [reflexivity|]. unfold handed, adopted. rewrite Z.eqb_refl, andb_false_r.
    destruct (p =? init_of s); [|reflexivity]. destruct (first_orphan _ _ _ _); reflexivity. }
  rewrite (getp_ok _ _ _ Hz3), res_bind_ok.
  destruct (wake_parent_ok s3 Q3 SL AL G z status H3) as (o & s4 & Q4 & -> & H4 & R4 & A4). rewrite res_bind_ok.
  assert (S4 : sys_ok s4 E).
  { apply (sys_exit_rel s2); [auto|exists Q4, SL, AL, G; auto|eapply exit_rel_trans; eauto]. }
  assert (Hfin : let s' := match o with Some w => sched_ipi_resched my s4 w | None => s4 end in
    sys_ok s' E /\ procs s' = procs s4 /\ current s' = current s4).
  { destruct o as [w|]; [|auto]. split; [|split; [apply ipi_procs|apply ipi_same_list]].
    eapply sys_frame; [exact S4|apply frame_ipi|]. exists Q4, SL, AL, G. apply sched_ok_ipi. exact H4. }
  destruct Hfin as (S5 & P5 & C5). eexists _, G. split; [reflexivity|]. split; [exact S5|].
  destruct L2 as (L2n & L2p & L2h & _ & L2c & _). rewrite P5, C5. split.
  { destruct (er_list _ _ R4) as (_ & _ & _ & _ & -> & _), (er_list _ _ R3) as (_ & _ & _ & _ & -> & _). exact L2c. }
  split; [rewrite <- L2n, <- L2p, <- L2h; apply H2|].
  assert (Epar : parent_of s3 z = parent_of s x).
  { unfold parent_of, found. rewrite (process_find_same s s3) by (eapply same_pids_trans; eauto using er_same_pids). reflexivity. }
  intros q. rewrite A4, Epar. unfold after_exit. destruct (Z.eqb_spec q p) as [->|Hne].
  { rewrite Hz3, Hx. simpl. f_equal. unfold heard. destruct (p =? parent_of s x); reflexivity. }
  rewrite A3, P2, lookup_insert_ne by auto. destruct (procs s !! q) as [y|]; [|reflexivity]. simpl. f_equal.
  destruct (init_of s =? 0); [reflexivity|]. rewrite (handed_zombie s2 z), L2h by auto. reflexivity.
Qed.

(** A parent that waits is woken, whatever else the exit does. *)
Lemma after_exit_wakes l q y :
  parent_of s x = q -> procs s !! q = Some y -> waits_for y x -> state (after_exit l q y) = PROCESS_READY.
Proof.
  intros Hq Hy W. pose proof Hrun as (_ & Hx & Hst & _). unfold after_exit.
  destruct (Z.eqb_spec q p) as [->|Hne]; [destruct W as [W _]; congruence|]. unfold heard. rewrite Hq, Z.eqb_refl. cbn [andb].
  set (y1 := if init_of s =? 0 then y else _).
  assert (Hy1 : state y1 = PROCESS_READY \/ waits_for y1 x).
  { unfold y1. destruct (init_of s =? 0); [auto|]. unfold handed. set (y2 := adopted _ _ _ _ _ _).
    assert (W2 : waits_for y2 x) by (unfold y2, adopted; case_match; exact W).
    destruct (q =? init_of s); [|auto]. destruct (first_orphan _ _ _ _); cbn [told]; [|auto].
    destruct (waits_any y2); [left; reflexivity|auto]. }
  destruct Hy1 as [Hr|Hw].
  - destruct (waits_for_b y1 x); [reflexivity|exact Hr].
  - destruct (waits_for_reflect y1 x); [reflexivity|contradiction].
Qed.
End exit.

(** ** Reaping *)

(** [s'] is [s] but for the reference counts of address spaces and the log. *)
Definition same_but_as (s s' : sched) : Prop := exists t lg, s' = set_log lg (set_asref t s) /\
  (arr_len (asref s) = AS_REFCOUNT_MAX -> arr_len t = AS_REFCOUNT_MAX).

Lemma release_as_ok s x :
  arr_len (asref s) = AS_REFCOUNT_MAX -> exists s', release_as s x = Ok s' /\ same_but_as s s'.
Proof.
  intros Hl. assert (Hid : forall e, same_but_as s (emit e s))
    by (intros e; exists (asref s), (log (emit e s)); split; [destruct s; reflexivity|auto]).
  unfold release_as.
  destruct ((addr_space x =? 0) || (addr_space x =? kernel_as s)).
  { exists s. split; [reflexivity|]. exists (asref s), (log s). split; [destruct s; reflexivity|auto]. }
  destruct (as_get_total (asref s) (addr_space x) Hl) as (n & ->). rewrite res_bind_ok.
  destruct (_ || _); [|eexists; split; [reflexivity|apply Hid]].
  destruct (as_dec_total (asref s) (addr_space x) Hl) as (r & t & -> & Ht). rewrite res_bind_ok.
  eexists. split; [reflexivity|]. destruct (r =? 0).
  - exists t, (log (emit (AsDestroy (addr_space x)) s)). split; [destruct s; reflexivity|auto].
  - exists t, (log s). split; [destruct s; reflexivity|auto].
Qed.

(** A process that leaves takes its descriptors with it, but the files they refer
    to keep their counts: from then on the references are held by nobody. *)
Lemma files_ok_delete kf t E p l :
  files_ok kf t E -> t !! p = Some l -> files_ok kf (delete p t) (fun f => E f + occ f l).
Proof.
  intros H Hp f H0. destruct (H f H0) as [HE Hk]. pose proof (nrefs_delete t p l f Hp) as Hn.
  pose proof (occ_nonneg f l). pose proof (nrefs_nonneg (delete p t) f). destruct (kf !! f); lia.
Qed.

Lemma sys_refs_ext s E E' : (forall f, E' f = E f) -> sys_ok s E -> sys_ok s E'.
Proof. intros He S. split; try apply S. intros f Hf. rewrite He. apply (sys_files _ _ S f Hf). Qed.

(** The references of the processes that are gone. *)
Definition lost (s s' : sched) (f : Z) : Z := nrefs (tables s ∖ tables s') f.

Lemma lost_none s s' f : procs s' = procs s -> lost s s' f = 0.
Proof. intros E. unfold lost, tables. rewrite E, map_difference_diag. reflexivity. Qed.

Lemma lost_one s s' p x f : procs s !! p = Some x -> procs s' = delete p (procs s) -> lost s s' f = occ f (files x).
Proof.
  intros Hx E. unfold lost, tables. rewrite E, fmap_delete.
  replace ((files <$> procs s) ∖ delete p (files <$> procs s)) with ({[p := files x]} : gmap Z (list Z)).
  - unfold nrefs. rewrite map_fold_singleton. lia.
  - apply map_eq. intros q. rewrite lookup_difference. destruct (decide (p = q)) as [<-|].
    + rewrite lookup_singleton_eq, lookup_delete_eq, lookup_fmap, Hx. reflexivity.
    + rewrite lookup_singleton_ne, lookup_delete_ne by auto. destruct ((files <$> procs s) !! q); reflexivity.
Qed.

Section reap.
Context {s : sched} {E : Z -> Z} (S : sys_ok s E) (p : Z) (x : proc).
Context (Hx : procs s !! p = Some x) (Hz : state x = PROCESS_ZOMBIE).
Context (Hoff : forall c, 0 <= c < SCHED_MAX_CPUS -> arr_at (current s) c <> p).

(** A zombie is in no run queue and does not sleep. *)
Lemma zombie_dequeue Q SL AL G :
  sched_ok None s Q SL AL G -> ~ queued Q p /\ p ∉ SL /\
  exists r, rq_remove_if_queued (nprocs s) (rqs s) p (cpu_id x) (priority x) = Ok r /\
    sched_ok None (set_rqs r s) Q SL AL G.
Proof.
  intros H. assert (Hnq : ~ queued Q p).
  { intros (c & k & i & Hq). destruct (so_queued _ _ _ _ _ _ H c k i p Hq) as [_ (y & Hy & Hs & _)]. congruence. }
  split; [auto|]. split.
  { intros Hs. destruct (so_asleep _ _ _ _ _ _ H p Hs) as (y & Hy & Ey). congruence. }
  destruct (so_bounds _ _ _ _ _ _ H p x Hx) as [Hb Hc].
  destruct (rq_remove_ok (nprocs s) (rqs s) Q (cpu_id x) p (priority x) (so_rq _ _ _ _ _ _ H) Hc) with (cpu_id := cpu_id x)
    as (r & Q' & Hr & Hok & Hf & Hd & Hcase).
  - exact (so_nonzero H p x Hx).
  - intros. apply (queue_fuel H).
  - intros k i Hq. exfalso. apply Hnq. exists (cpu_id x), k, i. auto.
  - destruct (Z.ltb_spec (cpu_id x) SCHED_MAX_CPUS); [reflexivity|lia].
  - exists r. split; [exact Hr|]. destruct Hcase as [[-> _]|(k & l1 & l2 & El & _)].
    + apply (sched_ok_rqs None None s Q Q SL AL G r H Hok Hd).
      * intros c. apply Hf.
      * apply (so_queued _ _ _ _ _ _ H).
      * apply (so_ready _ _ _ _ _ _ H).
    + exfalso. apply Hnq. exists (cpu_id x), k, (priority x). rewrite El. set_solver.
Qed.

Lemma process_reap_locked_ok :
  pid x <> 0 ->
  exists s', process_reap_locked s p = Ok s' /\ sys_ok s' (fun f => E f + occ f (files x)) /\
    procs s' = delete p (procs s) /\ current s' = current s /\ kfiles s' = kfiles s.
Proof.
  intros Hpid. destruct (sys_sched _ _ S) as (Q & SL & AL & G & H).
  destruct (zombie_dequeue Q SL AL G H) as (Hnq & Hns & r & Hr & H1).
  unfold process_reap_locked. destruct (Z.eqb_spec p 0); [exfalso; exact (so_nonzero H p x Hx e)|].
  rewrite (getp_ok _ _ _ Hx), res_bind_ok. destruct (Z.eqb_spec (pid x) 0); [contradiction|].
  rewrite Hr, res_bind_ok.
  destruct (sleep_remove_ok H1 p x Hx) as (sq & -> & H2). rewrite res_bind_ok.
  destruct (alarm_remove_ok H2 p x Hx) as (aq & -> & H3). rewrite res_bind_ok.
  assert (Hh : p <> ready_queue_head s) by (intros ->; apply Hpid, (sys_head _ _ S), Hx).
  simpl ready_queue_head. destruct (Z.eqb_spec p (ready_queue_head s)); [contradiction|]. cbn [andb].
  assert (Hin : p ∈ ready_queue_head s :: G) by (apply (so_procs _ _ _ _ _ _ H); eauto).
  apply elem_of_cons in Hin as [|Hin]; [contradiction|].
  apply list_elem_of_split in Hin as (l1 & l2 & ->).
  set (s3 := set_alarmq aq _) in *.
  rewrite (unlink_proc_ok H3), res_bind_ok.
  set (u := unlinked) in *. set (s4 := if kernel_stack x =? 0 then _ else _).
  assert (E4 : exists lg, s4 = set_log lg u).
  { unfold s4. destruct (_ =? _); [exists (log u); destruct u; reflexivity|eexists; reflexivity]. }
  destruct E4 as (lg4 & E4). rewrite E4.
  destruct (release_as_ok (set_log lg4 u) x) as (s5 & -> & t & lg & -> & Ht); [apply (sys_as _ _ S)|].
  rewrite res_bind_ok.
  assert (H5 : sched_ok None (free_proc u p) Q (filter (fun y => y <> p) SL) (filter (fun y => y <> p) AL) (l1 ++ l2)).
  { apply (sched_ok_remove H3); auto.
    - rewrite list_elem_of_filter. tauto.
    - rewrite list_elem_of_filter. tauto.
    - intros c Hc Hn Hi. change (idle_at s3 c) with (idle (arr_at (pcpu_rq r) c)) in Hi.
      destruct (so_idle _ _ _ _ _ _ H1 c Hc Hn) as (y & Hy & _ & Ey). change (procs (set_rqs r s)) with (procs s) in Hy.
      change (idle_at (set_rqs r s) c) with (idle (arr_at (pcpu_rq r) c)) in Hy. rewrite Hi in Hy.
      destruct Ey; congruence. }
  eexists. split; [reflexivity|]. split; [|split; [reflexivity|split; reflexivity]].
  split.
  - eexists _, _, _, _. other H5.
  - apply Ht. apply (sys_as _ _ S).
  - change (files_ok (kfiles s) (files <$> delete p (procs s)) (fun f => E f + occ f (files x))). rewrite fmap_delete.
    apply (files_ok_delete _ _ _ p (files x)); [apply (sys_files _ _ S)|apply tables_lookup, Hx].
  - intros y Hy. change (delete p (procs s) !! ready_queue_head s = Some y) in Hy.
    apply lookup_delete_Some in Hy as [_ Hy]. apply (sys_head _ _ S y Hy).
  - intros q y Hy. change (delete p (procs s) !! q = Some y) in Hy.
    apply lookup_delete_Some in Hy as [_ Hy]. apply (sys_len _ _ S q y Hy).
Qed.
End reap.

(** ** Waiting *)

(** The process [p] is current on its own processor. *)
Definition process_is_current_b (s : sched) (p : Z) : bool :=
  match procs s !! p with Some y => arr_at (current s) (cpu_id y) =? p | None => false end.

Lemma is_current_ok s Q SL AL G p y :
  sched_ok None s Q SL AL G -> procs s !! p = Some y ->
  process_is_current_somewhere s p = Ok (arr_at (current s) (cpu_id y) =? p).
Proof.
  intros H Hy. unfold process_is_current_somewhere. destruct (Z.eqb_spec p 0); [exfalso; exact (so_nonzero H p y Hy e)|].
  rewrite (getp_ok _ _ _ Hy), res_bind_ok. destruct (so_bounds _ _ _ _ _ _ H p y Hy) as [_ Hc].
  rewrite clamp_id by auto. destruct (current_some _ _ _ _ _ (cpu_id y) H Hc) as [-> _]. reflexivity.
Qed.

(** The children, and the zombies among them that are waited for, in list order. *)
Definition is_child (s : sched) (cpid q : Z) : bool :=
  match procs s !! q with Some y => parent_pid y =? cpid | None => false end.

Definition is_collectable (s : sched) (cpid want q : Z) : bool :=
  match procs s !! q with
  | Some y => (parent_pid y =? cpid) && ((want =? -1) || (s32 (pid y) =? want)) && is_state (state y) PROCESS_ZOMBIE
  | None => false
  end.

(** What [wait_loop] answers about the processes of [l]: the first that can be
    collected decides. *)
Definition scan (s : sched) (cpid want : Z) (l : list Z) (found : bool) : wait_scan :=
  match List.find (is_collectable s cpid want) l with
  | Some z => if process_is_current_b s z then WsRetry else WsReap z
  | None => WsNone (found || existsb (is_child s cpid) l)
  end.

Lemma wait_loop_ok fuel : forall s Q SL AL G l1 p l2 cpid want found,
  sched_ok None s Q SL AL G -> ready_queue_head s :: G = l1 ++ p :: l2 -> (length l2 < fuel)%nat ->
  wait_loop fuel s cpid want p (ready_queue_head s) found = Ok (scan s cpid want (p :: l2) found).
Proof.
  induction fuel as [|fuel IH]; intros s Q SL AL G l1 p l2 cpid want found H El Hf; [lia|]. cbn [wait_loop].
  assert (Hp : is_Some (procs s !! p)) by (apply (so_procs _ _ _ _ _ _ H); rewrite El; set_solver).
  destruct Hp as [y Hy]. rewrite (getp_ok _ _ _ Hy), res_bind_ok. cbv zeta.
  unfold scan. cbn [List.find existsb]. unfold is_collectable at 1, is_child at 1. rewrite Hy.
  destruct ((parent_pid y =? cpid) && ((want =? -1) || (s32 (pid y) =? want)) && is_state (state y) PROCESS_ZOMBIE).
  { rewrite (is_current_ok _ _ _ _ _ _ _ H Hy), res_bind_ok. unfold process_is_current_b. rewrite Hy. reflexivity. }
  rewrite (fget_ok _ _ _ (ring_succ _ _ _ _ _ _ _ (so_ring _ _ _ _ _ _ H) El)), res_bind_ok.
  destruct l2 as [|q l2]; simpl hd.
  - rewrite Z.eqb_refl, orb_true_r. simpl. rewrite orb_false_r. reflexivity.
  - destruct (ring_next_facts _ _ _ _ _ _ _ _ _ _ H El) as [Hq0 Hqh].
    destruct (Z.eqb_spec q 0), (Z.eqb_spec q (ready_queue_head s)); try tauto. cbn [orb].
    rewrite (IH s Q SL AL G (l1 ++ [p]) q l2 cpid want (found || (parent_pid y =? cpid)) H);
      [|rewrite El, <- app_assoc; reflexivity|simpl in Hf; lia].
    unfold scan. destruct (List.find _ (q :: l2)); [reflexivity|]. rewrite orb_assoc. reflexivity.
Qed.

(** One turn of [process_waitpid] by the process [p], with the process list [l]. *)
Definition turn_result (s s' : sched) (l : list Z) (p : Z) (x : proc) (want options : Z) (r : wait_step) : Prop :=
  let nohang := negb (Z.land options WNOHANG =? 0) in
  match List.find (is_collectable s (pid x) want) l with
  | Some z =>
      if process_is_current_b s z then r = (if nohang then WReturn 0 None else WSleep) /\ s' = s
      else exists y, procs s !! z = Some y /\ r = WReturn (s32 (pid y)) (Some (exit_status y)) /\
        procs s' = (if pid y =? 0 then procs s else delete z (procs s)) /\ kfiles s' = kfiles s
  | None =>
      if negb (existsb (is_child s (pid x)) l) then r = WReturn (- ECHILD) None /\ s' = s
      else if nohang then r = WReturn 0 None /\ s' = s
      else r = WBlock /\ s' = set_procs (<[p := x |> set_waiting 1 |> set_wait_pid want |> set_wait_result_pid (-1)
             |> set_state PROCESS_BLOCKED]> (procs s)) s
  end.

(** A zombie that no processor runs is collected. *)
Lemma collect_ok s E z y :
  sys_ok s E -> procs s !! z = Some y -> state y = PROCESS_ZOMBIE -> process_is_current_b s z = false ->
  exists s', process_reap_locked s z = Ok s' /\ sys_ok s' (fun f => E f + lost s s' f) /\ current s' = current s /\
    procs s' = (if pid y =? 0 then procs s else delete z (procs s)) /\ kfiles s' = kfiles s.
Proof.
  intros S Hy Hz Hoff. destruct (sys_sched _ _ S) as (Q & SL & AL & G & H).
  destruct (Z.eqb_spec (pid y) 0) as [E0|Hn].
  - exists s. split.
    { unfold process_reap_locked. destruct (z =? 0); [reflexivity|]. rewrite (getp_ok _ _ _ Hy), res_bind_ok, E0. reflexivity. }
    split; [|auto]. eapply sys_refs_ext; [|exact S]. intros f. rewrite lost_none by auto. lia.
  - destruct (process_reap_locked_ok S z y Hy Hz) as (s' & -> & S' & P' & C' & K'); [|auto|].
    + intros c Hc' Hcur. destruct (so_current _ _ _ _ _ _ H c Hc') as (y' & Hy' & Ec).
      * rewrite Hcur. exact (so_nonzero H z y Hy).
      * rewrite Hcur, Hy in Hy'. injection Hy' as <-. unfold process_is_current_b in Hoff. rewrite Hy, Ec, Hcur, Z.eqb_refl in Hoff. discriminate.
    + exists s'. split; [auto|]. split; [|auto]. eapply sys_refs_ext; [|exact S']. intros f. simpl. rewrite (lost_one s s' z y f) by auto. reflexivity.
Qed.

Lemma process_waitpid_turn_ok s E my p x want options :
  sys_ok s E -> 0 <= my < SCHED_MAX_CPUS -> runs s my p x ->
  exists r s' G, process_waitpid_turn my s want options = Ok (r, s') /\ sys_ok s' (fun f => E f + lost s s' f) /\
    current s' = current s /\ ring (pnext s) (pprev s) (ready_queue_head s) G /\
    turn_result s s' (ready_queue_head s :: G) p x want options r.
Proof.
  intros S Hmy Hrun. pose proof Hrun as (Hc & Hx & Hst & _). destruct (sys_sched _ _ S) as (Q & SL & AL & G & H).
  unfold process_waitpid_turn. destruct (current_some _ _ _ _ _ my H Hmy) as [-> _]. rewrite res_bind_ok, Hc.
  destruct (Z.eqb_spec p 0); [exfalso; exact (so_nonzero H p x Hx e)|].
  rewrite (getp_ok _ _ _ Hx), res_bind_ok. cbv zeta.
  destruct (Z.eqb_spec (ready_queue_head s) 0) as [E0|_].
  { exfalso. assert (Hz : is_Some (procs s !! 0)) by (apply (so_procs _ _ _ _ _ _ H); rewrite E0; set_solver).
    rewrite (so_zero _ _ _ _ _ _ H) in Hz. destruct Hz; discriminate. }
  rewrite (wait_loop_ok (nprocs s) s Q SL AL G [] (ready_queue_head s) G (pid x) want false H eq_refl), res_bind_ok
    by (pose proof (ring_fuel H) as Hf; simpl in Hf; unfold nprocs in *; lia).
  unfold scan. cbn [orb]. set (l := ready_queue_head s :: G).
  assert (Hring : ring (pnext s) (pprev s) (ready_queue_head s) G) by apply H.
  assert (Hstay : sys_ok s (fun f => E f + lost s s f)).
  { eapply sys_refs_ext; [|exact S]. intros f. simpl. rewrite lost_none by auto. lia. }
  destruct (List.find (is_collectable s (pid x) want) l) as [z|] eqn:Ef.
  - pose proof Ef as [_ Hcol]%List.find_some. unfold is_collectable in Hcol.
    destruct (procs s !! z) as [y|] eqn:Hy; [|discriminate].
    rewrite !andb_true_iff in Hcol. destruct Hcol as [_ Hzs%is_state_true]. destruct (process_is_current_b s z) eqn:Eon.
    { eexists _, s, G. split; [reflexivity|]. split_and!; auto. unfold turn_result. fold l. rewrite Ef, Eon. auto. }
    rewrite (getp_ok _ _ _ Hy), res_bind_ok.
    destruct (collect_ok s E z y S Hy Hzs Eon) as (s' & -> & S' & C' & P' & K'). rewrite res_bind_ok.
    eexists _, s', G. split; [reflexivity|]. split_and!; auto. unfold turn_result. fold l. rewrite Ef, Eon. exists y. auto.
  - destruct (existsb (is_child s (pid x)) l) eqn:Ec.
    2: { eexists _, s, G. split; [reflexivity|]. split_and!; auto. unfold turn_result. fold l. rewrite Ef, Ec. cbn [negb]. auto. }
    destruct (negb (Z.land options WNOHANG =? 0)) eqn:En.
    { eexists _, s, G. split; [reflexivity|]. split_and!; auto. unfold turn_result. fold l. rewrite Ef, Ec, En. cbn [negb]. auto. }
    rewrite (updp_ok s p x), res_bind_ok by auto. eexists _, _, G. split; [reflexivity|].
    split; [|split_and!; auto; unfold turn_result; fold l; rewrite Ef, Ec, En; cbn [negb]; auto].
    set (s1 := set_procs _ s). assert (S1 : sys_ok s1 E).
    { eapply sys_frame; [exact S|eapply frame_procs; [exact Hx|reflexivity|discriminate]|].
      exists Q, SL, AL, G. eapply leave_ok; eauto; discriminate. }
    eapply sys_refs_ext; [|exact S1]. intros f. unfold lost.
    replace (tables s ∖ tables s1) with (∅ : gmap Z (list Z)); [unfold nrefs; rewrite map_fold_empty; lia|].
    symmetry. apply map_eq. intros q. rewrite lookup_difference, lookup_empty. unfold tables. rewrite !lookup_fmap. simpl.
    destruct (decide (p = q)) as [<-|]; [rewrite lookup_insert_eq; reflexivity|rewrite lookup_insert_ne by auto].
    destruct (procs s !! q); reflexivity.
Qed.
