(* ===== verification/ProcessBoot.v ===== *)
(** Start-up ([process_init], [sched_ap_init]): the boot processor's idle process
    makes the invariant of the scheduler true, and each further processor adds its
    idle process to it. *)

From Stdlib Require Import Sorting.Sorted.
From S2P Require Import Prelude Bitmap Ring Runq SortedQ AsRef SchedState Sched SchedFrame SchedInv SchedSpec SchedTick SchedOps Process ProcessFiles ProcessInv.
From S2P Require Import ProcessSpec.

(** The scheduler's data as the loader leaves it: all zero, but for the number of
    processors found and the first PID. *)
Record boot_state (s : sched) : Prop := BootState {
  bs_procs : procs s = ∅;
  bs_sleep : tq_head (sleepq s) = 0 /\ tq_in (sleepq s) = ∅;
  bs_alarm : tq_head (alarmq s) = 0 /\ tq_in (alarmq s) = ∅;
  bs_current : arr_len (current s) = SCHED_MAX_CPUS /\ forall c, arr_at (current s) c = 0;
  bs_load : arr_len (pcpu_load s) = SCHED_MAX_CPUS /\ 0 <= pcpu_count s <= SCHED_MAX_CPUS;
  bs_asref : arr_len (asref s) = AS_REFCOUNT_MAX;
  bs_files : kfiles s = ∅
}.

Definition no_queue : Z -> Z -> Z -> list Z := fun _ _ _ => [].

Lemma runqs_init_ok nx pv : rq_ok (runqs_init nx pv) no_queue.
Proof.
  assert (Hat : forall c, arr_at (pcpu_rq (runqs_init nx pv)) c = cpu_rq_init)
    by (intros c; unfold runqs_init; simpl; apply arr_at_new).
  split; unfold rqueue; simpl.
  - reflexivity.
  - intros c _. rewrite Hat. split; [reflexivity|left; auto].
  - intros c k _ Hk. rewrite Hat. simpl. rewrite arr_at_new. split; [reflexivity|split; reflexivity || lia].
  - intros c k i Hr. rewrite Hat. simpl. rewrite arr_at_new. split; [apply arr_at_new|].
    split; [apply Z.bits_0|reflexivity].
  - intros. split; [constructor|set_solver].
  - intros c k i x Hx. inversion Hx.
  - intros c k i c' k' i' x Hx. inversion Hx.
Qed.

(** The idle process of CPU [c]. *)
Lemma set_idle_ok r Q c p : rq_ok r Q -> 0 <= c < SCHED_MAX_CPUS ->
  exists r', set_idle r c p = Ok r' /\ rq_ok r' Q /\ rq_next r' = rq_next r /\ rq_prev r' = rq_prev r /\
    forall c', idle (arr_at (pcpu_rq r') c') = if c =? c' then p else idle (arr_at (pcpu_rq r) c').
Proof.
  intros H Hc. unfold set_idle. rewrite arr_get_ok, res_bind_ok by (rewrite (rq_cpus _ _ H); auto).
  rewrite arr_set_ok, res_bind_ok by (rewrite (rq_cpus _ _ H); auto).
  set (crq := arr_at (pcpu_rq r) c). set (r' := Runqs _ _ _).
  assert (Hq : forall c' k, rqueue r' c' k = rqueue r c' k).
  { intros c' k. unfold rqueue, r'. simpl. rewrite arr_at_put. destruct (Z.eqb_spec c c') as [<-|]; reflexivity. }
  exists r'. split; [reflexivity|]. split; [|split; [reflexivity|split; [reflexivity|]]].
  - split; try apply H.
    + intros c' Hc'. unfold r'. simpl. rewrite arr_at_put. destruct (Z.eqb_spec c c') as [<-|]; apply (rq_stores _ _ H); auto.
    + intros c' k. rewrite Hq. apply (rq_len _ _ H).
    + intros c' k i. rewrite Hq. apply (rq_queues _ _ H).
  - intros c'. unfold r'. simpl. rewrite arr_at_put. destruct (Z.eqb_spec c c') as [<-|]; reflexivity.
Qed.

(** An empty queue. *)
Lemma tq_ok_nil K q : tq_head q = 0 -> (forall x v, tq_in q !! x = Some v -> v = 0) -> tq_ok K q [].
Proof. intros Hh Hin. split; simpl; eauto using NoDup_nil_2, SSorted_nil; set_solver. Qed.

(** No reference to an open file from outside the processes. *)
Definition no_refs : Z -> Z := fun _ => 0.

Lemma process_init_ok s asp p stack fpu0 :
  boot_state s -> p <> 0 -> stack <> 0 ->
  exists s', process_init 0 s asp p stack fpu0 = Ok (Some s') /\ sys_ok s' no_refs /\
    arr_at (current s') 0 = p /\ procs s' = {[p := idle_proc 0 asp stack 0 (-1) fpu0]}.
Proof.
  intros [B1 [B2 B2'] [B3 B3'] [B4 B4'] B5 B6 B7] Hp Hs. unfold process_init.
  destruct (Z.eqb_spec p 0); [contradiction|]. destruct (Z.eqb_spec stack 0); [contradiction|].
  set (s0 := emit (MountRefPath slash) _). set (x := idle_proc _ _ _ _ _ _). cbv zeta.
  destruct (set_idle_ok (rqs (alloc_proc s0 p x)) no_queue 0 p) as (r & -> & Hr & Hnx & Hpv & Hid).
  { apply (rq_ok_links (runqs_init (rq_next (rqs s)) (rq_prev (rqs s)))); [apply runqs_init_ok|].
    intros q (c & k & i & Hq). inversion Hq. }
  { unfold SCHED_MAX_CPUS. lia. }
  rewrite res_bind_ok. change (current (alloc_proc s0 p x)) with (current s).
  rewrite arr_set_ok, res_bind_ok by (rewrite B4; unfold SCHED_MAX_CPUS; lia).
  set (s1 := set_ready_queue_head _ _). change (pnext s1) with (<[p := 0]> (pnext s)).
  change (pprev s1) with (<[p := 0]> (pprev s)).
  rewrite (fset_ok (<[p := 0]> (pnext s))), res_bind_ok by (rewrite lookup_insert_eq; eauto).
  rewrite (fset_ok (<[p := 0]> (pprev s))), res_bind_ok by (rewrite lookup_insert_eq; eauto). rewrite !insert_insert_eq.
  set (s2 := emit _ _). exists s2. split; [reflexivity|].
  assert (P2 : procs s2 = {[p := x]}) by (change (<[p := x]> (procs s) = {[p := x]}); rewrite B1; reflexivity).
  assert (C2 : forall c, arr_at (current s2) c = if 0 =? c then p else 0).
  { intros c. change (current s2) with (arr_put (current s) 0 p). rewrite arr_at_put, B4'. reflexivity. }
  split; [|split; [apply C2|exact P2]].
  assert (Hlk : forall q z, procs s2 !! q = Some z -> q = p /\ z = x)
    by (intros q z; rewrite P2, lookup_singleton_Some; intros [-> ->]; auto).
  split.
  - exists no_queue, [], [], []. split.
    + exact Hr.
    + apply tq_ok_nil; [exact B2|]. intros q v. change (tq_in (sleepq s2)) with (<[p := 0]> (tq_in (sleepq s))).
      rewrite B2'. rewrite lookup_insert_Some. intros [[_ <-]|[_ Hn]]; [reflexivity|rewrite lookup_empty in Hn; discriminate].
    + apply tq_ok_nil; [exact B3|]. intros q v. change (tq_in (alarmq s2)) with (<[p := 0]> (tq_in (alarmq s))).
      rewrite B3'. rewrite lookup_insert_Some. intros [[_ <-]|[_ Hn]]; [reflexivity|rewrite lookup_empty in Hn; discriminate].
    + change (ring (<[p := p]> (pnext s)) (<[p := p]> (pprev s)) p []). split; [|apply NoDup_singleton].
      simpl. rewrite !lookup_insert_eq. auto.
    + reflexivity.
    + intros q. rewrite P2, list_elem_of_singleton. change (ready_queue_head s2) with p.
      destruct (decide (q = p)) as [->|]; [rewrite lookup_singleton_eq; split; eauto|].
      rewrite lookup_singleton_ne by auto. split; [intros [? ?]; discriminate|contradiction].
    + rewrite P2. apply lookup_singleton_ne. auto.
    + intros q [z [-> _]%Hlk]. split; [|split].
      * split; change (rqs s2) with r; [rewrite Hnx|rewrite Hpv]; apply lookup_insert_is_Some; auto.
      * split_and!; apply lookup_insert_is_Some; auto.
      * split_and!; apply lookup_insert_is_Some; auto.
    + split; [exact B4|]. exact B5.
    + intros q z [-> ->]%Hlk. split; split; reflexivity || discriminate.
    + intros c k i q Hq. inversion Hq.
    + intros q z [-> ->]%Hlk. discriminate.
    + intros q Hq. inversion Hq.
    + intros q Hq. inversion Hq.
    + intros c Hc. rewrite C2. destruct (Z.eqb_spec 0 c) as [<-|]; [|contradiction]. intros _.
      exists x. rewrite P2, lookup_singleton_eq. auto.
    + intros q z [-> ->]%Hlk _. rewrite C2. reflexivity.
    + intros c Hc. rewrite C2. destruct (Z.eqb_spec 0 c) as [<-|]; [|contradiction]. intros _.
      exists x. unfold idle_at. change (rqs s2) with r. rewrite Hid, P2, lookup_singleton_eq. auto.
  - apply B6.
  - intros f Hf. split; [unfold no_refs; lia|]. change (kfiles s2) with (kfiles s). rewrite B7, lookup_empty.
    split; [|reflexivity]. unfold tables. rewrite P2, map_fmap_singleton. unfold nrefs. rewrite map_fold_singleton.
    change (files x) with no_files. rewrite occ_no_files by auto. reflexivity.
  - intros z Hz. apply Hlk in Hz as [_ ->]. reflexivity.
  - intros q z [-> ->]%Hlk. split; reflexivity.
Qed.

(** A processor that has run nothing yet starts with its idle process [p]. *)
Lemma sched_ok_start s Q SL AL G c p x r :
  sched_ok (Some p) s Q SL AL G -> procs s !! p = Some x -> state x = PROCESS_BLOCKED -> cpu_id x = c ->
  0 <= c < SCHED_MAX_CPUS -> arr_at (current s) c = 0 ->
  rq_ok r Q -> rq_next r = rq_next (rqs s) -> rq_prev r = rq_prev (rqs s) ->
  (forall c', idle (arr_at (pcpu_rq r) c') = if c =? c' then p else idle_at s c') ->
  sched_ok None (set_current (arr_put (current s) c p)
    (set_rqs r (set_procs (<[p := set_state PROCESS_RUNNING x]> (procs s)) s))) Q SL AL G.
Proof.
  intros H Hx Hst Hcpu Hc Hcur Hr Hnx Hpv Hid. set (y := set_state PROCESS_RUNNING x).
  assert (Hlk : forall q z, <[p := y]> (procs s) !! q = Some z -> q = p /\ z = y \/ q <> p /\ procs s !! q = Some z).
  { intros q z. destruct (decide (p = q)) as [->|]; [rewrite lookup_insert_eq; intros [= <-]; auto|].
    rewrite lookup_insert_ne by auto. auto. }
  assert (Hold : forall q z, q <> p -> procs s !! q = Some z -> <[p := y]> (procs s) !! q = Some z)
    by (intros; rewrite lookup_insert_ne; auto).
  assert (Hsome : forall q, is_Some (<[p := y]> (procs s) !! q) <-> is_Some (procs s !! q)).
  { intros q. destruct (decide (p = q)) as [->|]; [rewrite lookup_insert_eq, Hx; split; eauto|].
    rewrite lookup_insert_ne by auto. reflexivity. }
  assert (Hnp : forall c', 0 <= c' < SCHED_MAX_CPUS -> arr_at (current s) c' <> 0 -> arr_at (current s) c' <> p).
  { intros c' Hc' Hn E. destruct (so_current _ _ _ _ _ _ H c' Hc' Hn) as (z & Hz & Ez). rewrite E in Hz. congruence. }
  split; simpl; try apply H; auto.
  - eapply tq_ok_key; [|apply H]. intros q Hq. unfold wake_of. simpl.
    destruct (decide (p = q)) as [->|]; [rewrite lookup_insert_eq, Hx; reflexivity|rewrite lookup_insert_ne by auto; reflexivity].
  - eapply tq_ok_key; [|apply H]. intros q Hq. unfold alarm_of. simpl.
    destruct (decide (p = q)) as [->|]; [rewrite lookup_insert_eq, Hx; reflexivity|rewrite lookup_insert_ne by auto; reflexivity].
  - intros q. rewrite Hsome. apply H.
  - rewrite lookup_insert_ne; [apply H|]. exact (so_nonzero H p x Hx).
  - intros q Hq. apply Hsome in Hq. destruct (so_dom _ _ _ _ _ _ H q Hq) as (D1 & D2 & D3).
    split; [|auto]. unfold rq_dom in *. rewrite Hnx, Hpv. exact D1.
  - intros q z [[-> ->]|[_ Hz]]%Hlk; [apply (so_bounds _ _ _ _ _ _ H p x Hx)|eapply so_bounds; eauto].
  - intros c' k i q Hq. destruct (so_queued _ _ _ _ _ _ H c' k i q Hq) as (Hl & z & Hz & E). split; [discriminate|].
    exists z. split; [apply Hold; congruence|auto].
  - intros q z [[-> ->]|[Hn Hz]]%Hlk Hs; [discriminate|]. destruct (so_ready _ _ _ _ _ _ H q z Hz Hs); [auto|congruence].
  - intros q Hq. destruct (so_asleep _ _ _ _ _ _ H q Hq) as (z & Hz & E). exists z. split; [apply Hold; congruence|auto].
  - intros q Hq. apply Hsome, (so_alarms _ _ _ _ _ _ H q Hq).
  - intros c' Hc'. rewrite arr_at_put. destruct (Z.eqb_spec c c') as [<-|Hne].
    + intros _. exists y. rewrite lookup_insert_eq. auto.
    + intros Hn. destruct (so_current _ _ _ _ _ _ H c' Hc' Hn) as (z & Hz & E). eauto.
  - intros q z [[-> ->]|[Hn Hz]]%Hlk Hs; rewrite arr_at_put.
    + simpl. rewrite Hcpu, Z.eqb_refl. reflexivity.
    + pose proof (so_running _ _ _ _ _ _ H q z Hz Hs) as E. destruct (Z.eqb_spec c (cpu_id z)) as [->|]; [|exact E].
      exfalso. rewrite Hcur in E. subst q. rewrite (so_zero _ _ _ _ _ _ H) in Hz. discriminate.
  - intros c' Hc'. unfold idle_at. simpl. rewrite arr_at_put, Hid. destruct (Z.eqb_spec c c') as [<-|Hne].
    + intros _. exists y. rewrite lookup_insert_eq. auto.
    + intros Hn. destruct (so_idle _ _ _ _ _ _ H c' Hc' Hn) as (z & Hz & E & Es).
      exists z. split; [apply Hold; [|auto]|auto]. intros E'. rewrite E' in Hz. destruct Es; congruence.
Qed.

Lemma sched_ap_init_ok s E c p stack fpu0 :
  sys_ok s E -> 0 < c < SCHED_MAX_CPUS -> arr_at (current s) c = 0 ->
  procs s !! p = None -> p <> 0 -> stack <> 0 ->
  exists s', sched_ap_init c s c p stack fpu0 = Ok s' /\ sys_ok s' E /\ arr_at (current s') c = p /\
    procs s' = <[p := idle_proc (next_pid s) (kernel_as s) stack c 0 fpu0]> (procs s).
Proof.
  intros S Hc Hcur Hp Hp0 Hs. destruct (sys_sched _ _ S) as (Q & SL & AL & G & H). unfold sched_ap_init.
  destruct (Z.eqb_spec c 0), (Z.leb_spec SCHED_MAX_CPUS c), (Z.eqb_spec p 0), (Z.eqb_spec stack 0); try lia; try contradiction.
  cbn [orb]. unfold take_pid. set (s0 := set_next_pid _ _).
  assert (Hs0 : sched_ok None s0 Q SL AL G) by other H.
  set (x := idle_proc _ _ _ _ _ _). rewrite (link_tail_ok Hs0 p x Hp Hp0), res_bind_ok.
  assert (H1 : sched_ok (Some p) (linked_new (s := s0) p (set_state PROCESS_BLOCKED x)) Q SL AL (G ++ [p])).
  { apply (sched_ok_new Hs0); auto; try discriminate; simpl; [|lia]. unfold SCHED_NUM_PRIOS. lia. }
  destruct (set_idle_ok (rqs (linked_new (s := s0) p x)) Q c p) as (r & -> & Hr & Hnx & Hpv & Hid); [apply H1|lia|].
  rewrite res_bind_ok. destruct (so_cpus _ _ _ _ _ _ H) as (Hl & _).
  change (current (linked_new p x)) with (current s). rewrite arr_set_ok, res_bind_ok by lia.
  eexists. split; [reflexivity|].
  pose proof (sched_ok_start _ _ _ _ _ c p _ r H1 (lookup_insert_eq _ _ _) eq_refl eq_refl ltac:(lia) Hcur Hr Hnx Hpv Hid) as H2.
  split; [|split; [apply arr_at_put_eq|reflexivity]].
  split.
  - exists Q, SL, AL, (G ++ [p]). eapply sched_ok_other; [exact H2| |reflexivity..].
    symmetry. apply (insert_insert_eq (procs s)).
  - apply S.
  - change (files_ok (kfiles s) (files <$> <[p := x]> (procs s)) E). rewrite fmap_insert.
    apply (files_ok_new_empty S). exact Hp.
  - intros z Hz. change (<[p := x]> (procs s) !! ready_queue_head s = Some z) in Hz.
    apply lookup_insert_Some in Hz as [[Eh _]|[_ Hz]]; [|apply (sys_head _ _ S z Hz)].
    exfalso. assert (Hn : is_Some (procs s !! p)) by (rewrite Eh; apply (so_procs _ _ _ _ _ _ H); set_solver).
    rewrite Hp in Hn. destruct Hn; discriminate.
  - intros q z Hz. change (<[p := x]> (procs s) !! q = Some z) in Hz.
    apply lookup_insert_Some in Hz as [[_ <-]|[_ Hz]]; [split; reflexivity|apply (sys_len _ _ S q z Hz)].
Qed.
