(* ===== verification/ProcessContract.v ===== *)
(** The scheduler and the process table as a whole: every operation, run with
    [sched_lock] held, is one step; from start-up on, no sequence of the steps
    that [allowed] covers leads to undefined behaviour or breaks the invariant. *)

From S2P Require Import Prelude Bitmap Ring Runq SortedQ AsRef SchedState Sched Cred SchedFrame SchedInv SchedSpec SchedTick Itimer SchedOps SchedLive Process Fd.
From S2P Require Import ProcessFiles ProcessInv ProcessSpec FdSpec ProcessExit ProcessBoot.

(** ** Operations *)

(** What the users of [sched_enqueue_ready] do. *)
Definition wake_up (my : Z) (s : sched) (p : Z) : res sched :=
  s ← updp s p (set_state PROCESS_READY); sched_enqueue_ready my s p.

(** The system calls on descriptors. *)
Inductive fd_op : Type :=
| FOpen (f node root : Z) (cloexec : bool)
| FPipe (rf rn wf wn : Z)
| FClose (fd : Z)
| FDup (oldfd : Z)
| FDup2 (oldfd newfd : Z)
| FDup3 (oldfd newfd flags : Z)
| FSetFd (fd arg : Z)
| FDupFd (fd arg : Z)
| FExec.

Inductive op : Type :=
| OFd (my : Z) (o : fd_op)
| OCred (my : Z) (o : cred_op)
| OSchedule (cpu : Z)
| OSleep (my now ticks : Z)
| OBlock (my : Z)
| OWake (my p : Z)
| OTick (my tick : Z)
| OApTick (my : Z)
| OAlarm (my now seconds : Z)
| OSetitimer (my now which : Z) (new : user k_itimerval) (old : user unit)
| OKill (my pd sig : Z)
| OKillPgrp (my pgrp sig : Z)
| OBalance (my : Z)
| OCreate (my p stack : Z) (fpu0 : list Z)
| OFork (my child_as : Z) (regs : list Z) (p stack : Z) (fpu0 : list Z)
| OClone (my flags child_stack : Z) (regs : list Z) (tls p cow stack : Z)
| OCloseFiles (my : Z)
| OExit (my status : Z)
| OWait (my want options : Z)
| OWaitResume (my : Z)
| OApInit (c p stack : Z) (fpu0 : list Z).

Definition drop {A} (r : res (A * sched)) : res sched := '(_, s) ← r; mret s.

Definition run_fd (my : Z) (s : sched) (o : fd_op) : res sched :=
  match o with
  | FOpen f node root cl => drop (open_fd my s f node root cl)
  | FPipe rf rn wf wn => drop (pipe_fds my s rf rn wf wn)
  | FClose fd => drop (fd_close my s fd)
  | FDup fd => drop (syscall_dup_impl my s fd)
  | FDup2 oldfd newfd => drop (syscall_dup2_impl my s oldfd newfd)
  | FDup3 oldfd newfd fl => drop (syscall_dup3_impl my s oldfd newfd fl)
  | FSetFd fd arg => drop (fcntl_setfd my s fd arg)
  | FDupFd fd arg => drop (fcntl_dupfd_cloexec my s fd arg)
  | FExec => exec_close (Z.to_nat PROCESS_MAX_FILES) my s 0
  end.

Definition run (s : sched) (o : op) : res sched :=
  match o with
  | OFd my o => run_fd my s o
  | OCred my o => drop (cred_call my s o)
  | OSchedule cpu => schedule s cpu
  | OSleep my now ticks => process_sleep_prepare my s now ticks
  | OBlock my => block_current my s
  | OWake my p => wake_up my s p
  | OTick my tick => process_wake_check (nprocs s) my s tick
  | OApTick my => sched_ap_tick my s
  | OAlarm my now seconds => drop (sys_alarm my s now seconds)
  | OSetitimer my now which new old => drop (sys_setitimer my s now which new old)
  | OKill my pd sig => drop (process_kill my s pd sig)
  | OKillPgrp my pgrp sig => drop (process_kill_pgrp (nprocs s) my s pgrp sig)
  | OBalance my => sched_load_balance my s
  | OCreate my p stack fpu0 => drop (process_create_kernel my s p stack fpu0)
  | OFork my child_as regs p stack fpu0 => drop (process_fork_create my s child_as (Some regs) p stack fpu0)
  | OClone my fl cs regs tls p cow stack => drop (process_clone_create my s fl cs (Some regs) tls p cow stack)
  | OCloseFiles my => c ← cur s my; process_close_all_files_locked s c
  | OExit my status => process_exit_notify my s status
  | OWait my want options => drop (process_waitpid_turn my s want options)
  | OWaitResume my => wait_resume my s
  | OApInit c p stack fpu0 => sched_ap_init c s c p stack fpu0
  end.

(** ** When an operation may run *)

(** The process current on [my] executes the operation: it is RUNNING, and it is
    not an idle process. *)
Definition running_on (s : sched) (my : Z) : Prop :=
  0 <= my < SCHED_MAX_CPUS /\ exists x, runs s my (arr_at (current s) my) x.

(** A repeating alarm that fires at [tick] is due again later. *)
Definition alarms_advance (s : sched) (tick : Z) : Prop :=
  forall p x, procs s !! p = Some x -> alarm_interval x = 0 \/ tick < u32 (tick + alarm_interval x).

(** [kmalloc] returns memory no process uses. *)
Definition fresh (s : sched) (p : Z) : Prop := procs s !! p = None /\ p <> 0.

(** Each file has room for one more reference by every entry of a table. *)
Definition refs_left (s : sched) : Prop :=
  forall f k, kfiles s !! f = Some k -> f_refcount k + PROCESS_MAX_FILES < 4294967296.

Definition new_file (s : sched) (f : Z) : Prop := f <> 0 /\ kfiles s !! f = None.

Definition allowed_fd (s : sched) (o : fd_op) : Prop :=
  match o with
  | FOpen f _ _ _ => new_file s f
  | FPipe rf _ wf _ => new_file s rf /\ new_file s wf /\ rf <> wf
  | FDup _ | FDup2 _ _ | FDup3 _ _ _ => refs_left s
  | FDupFd _ arg => refs_left s /\ 0 <= s32 arg
  | FClose _ | FSetFd _ _ | FExec => True
  end.

Definition allowed (s : sched) (o : op) : Prop :=
  match o with
  | OFd my o => running_on s my /\ allowed_fd s o
  | OSchedule my | OApTick my => 0 <= my < SCHED_MAX_CPUS
  | OSleep my _ _ | OBlock my | OWait my _ _ | OCloseFiles my | OAlarm my _ _ | OSetitimer my _ _ _ _
  | OCred my _ | OExit my _ => running_on s my
  | OWake _ p => exists x, procs s !! p = Some x /\ (state x = PROCESS_BLOCKED \/ state x = PROCESS_SLEEPING)
  | OTick my tick => 0 <= my < SCHED_MAX_CPUS /\ alarms_advance s tick
  | OKill my _ _ => running_on s my
  | OKillPgrp my pgrp _ => 0 <= my < SCHED_MAX_CPUS /\
      forall p x, procs s !! p = Some x -> in_pgrp pgrp x = true -> denied s (arr_at (current s) my) x = false
  | OBalance _ => settled s /\ forall i, is_u32 (load_at s i)
  | OCreate my p _ _ => 0 <= my < SCHED_MAX_CPUS /\ fresh s p
  | OFork my a _ p _ _ => 0 <= my < SCHED_MAX_CPUS /\ fresh s p /\ a <> 0 /\ refs_left s
  | OClone my _ _ _ _ p _ _ => running_on s my /\ fresh s p /\ refs_left s
  | OWaitResume my => 0 <= my < SCHED_MAX_CPUS /\ arr_at (current s) my <> 0
  | OApInit c p stack _ => 0 < c < SCHED_MAX_CPUS /\ arr_at (current s) c = 0 /\ fresh s p /\ stack <> 0
  end.

(** ** Each operation keeps the invariant *)

Definition keeps (s : sched) (E : Z -> Z) (r : res sched) : Prop := exists s', r = Ok s' /\ sys_ok s' E.

Section keep.
Context {s : sched} {E : Z -> Z} (S : sys_ok s E).

(** An operation of the scheduler proper. *)
Lemma keep_frame (r : res sched) s' :
  r = Ok s' -> sched_inv s' -> (forall t, r = Ok t -> frame s t) -> keeps s E r.
Proof. intros Hr Hi Hf. exists s'. split; [auto|]. apply (sys_frame s); auto. Qed.

Lemma schedule_keeps my : 0 <= my < SCHED_MAX_CPUS -> keeps s E (schedule s my).
Proof.
  intros Hmy. destruct (sys_sched _ _ S) as (Q & SL & AL & G & H).
  destruct (current_some _ _ _ _ _ my H Hmy) as [Hc Hs].
  destruct (Z.eq_dec (arr_at (current s) my) 0) as [E0|Hn].
  { exists s. split; [|auto]. unfold schedule. rewrite Hc, res_bind_ok, E0. reflexivity. }
  destruct (Hs Hn) as [x Hx].
  destruct (is_state (state x) PROCESS_RUNNING && (0 <? time_slice x)) eqn:Ek.
  - apply andb_true_iff in Ek as [Er Et]. eapply (keep_frame _ _); [| |apply frame_schedule].
    + unfold schedule. rewrite Hc, res_bind_ok. destruct (Z.eqb_spec (arr_at (current s) my) 0); [contradiction|].
      unfold schedule_prev. rewrite (getp_ok _ _ _ Hx), res_bind_ok, Er, Et.
      rewrite (updp_ok s _ x), res_bind_ok by auto. reflexivity.
    + exists Q, SL, AL, G. eapply sched_ok_same; eauto. red. auto 10.
  - destruct (schedule_ok s Q SL AL G my x H Hmy Hn Hx) as (s' & _ & _ & Q2 & SL' & Hr & _ & _ & _ & _ & _ & _ & H').
    + intros [Er Et]. apply is_state_true in Er. apply Z.ltb_lt in Et. rewrite Er, Et in Ek. discriminate.
    + eapply keep_frame; [exact Hr|exists Q2, SL', AL, G; exact H'|apply frame_schedule].
Qed.

Lemma close_all_files_ok p x :
  procs s !! p = Some x ->
  exists kf lg, let s' := set_procs (<[p := set_files no_files x]> (procs s)) (set_log lg (set_kfiles kf s)) in
    process_close_all_files_locked s p = Ok s' /\ sys_ok s' E.
Proof.
  intros Hx. destruct (sys_sched _ _ S) as (Q & SL & AL & G & H).
  assert (Ht : tables s !! p = Some (files x)) by (unfold tables; rewrite lookup_fmap, Hx; reflexivity).
  destruct (close_files_ok (files x) s) as (kf & lg & Hc & Hd).
  { intros f Hf H0. apply (files_live _ _ _ _ _ _ (sys_files _ _ S) Ht Hf H0). }
  exists kf, lg. cbv zeta. unfold process_close_all_files_locked.
  destruct (Z.eqb_spec p 0); [exfalso; exact (so_nonzero H p x Hx e)|].
  rewrite (getp_ok _ _ _ Hx), res_bind_ok, Hc, res_bind_ok.
  set (s1 := set_log lg (set_kfiles kf s)). change (procs s) with (procs s1). rewrite (updp_ok s1 p x) by exact Hx.
  split; [reflexivity|]. assert (H1 : sched_ok None s1 Q SL AL G) by other H.
  apply (sys_put s _ E p x (set_files no_files x) S Hx); try reflexivity.
  - exists Q, SL, AL, G. eapply sched_ok_same; [exact H1|exact Hx|red; auto 10].
  - apply (files_ok_close (kfiles s) kf (tables s) E p (files x)); auto; [apply S|]. apply occ_no_files.
  - symmetry. apply (sys_len _ _ S p x Hx).
Qed.

(** The identities of a process are of no concern to the scheduler. *)
Lemma cred_same o x : let y := snd (cred_apply o x) in
  same_place x y /\ pid y = pid x /\ files y = files x /\ fd_flags y = fd_flags x /\ state y = state x.
Proof.
  destruct o; cbn [cred_apply]; unfold setuid, setgid, seteuid, setegid, setreuid, setregid,
    syscall_setsid_impl, syscall_setpgid_impl; cbv zeta; repeat case_match; split_and!; try reflexivity; red; auto 10.
Qed.

Lemma cred_keeps my x o : 0 <= my < SCHED_MAX_CPUS -> runs s my (arr_at (current s) my) x -> keeps s E (drop (cred_call my s o)).
Proof.
  intros Hmy (_ & Hx & Hst & _). destruct (sys_sched _ _ S) as (Q & SL & AL & G & H).
  destruct (current_some _ _ _ _ _ my H Hmy) as [Hc _]. unfold cred_call. rewrite Hc, res_bind_ok.
  destruct (_ =? 0); [exists s; split; [reflexivity|auto]|]. rewrite (getp_ok _ _ _ Hx), res_bind_ok.
  destruct (cred_apply o x) as [r y] eqn:Ey. destruct (cred_same o x) as (C1 & C2 & C3 & C4 & C5). rewrite Ey in *. simpl in *.
  unfold setp. rewrite (fset_ok (procs s)) by eauto. rewrite !res_bind_ok. eexists. split; [reflexivity|].
  apply (sys_put s _ E _ x y S Hx); auto.
  - exists Q, SL, AL, G. eapply sched_ok_same; eauto.
  - simpl. rewrite C3, insert_id by (apply tables_lookup; auto). apply S.
  - congruence.
  - congruence.
Qed.

Lemma kill_other_keeps my pd sig :
  0 <= my < SCHED_MAX_CPUS -> pd <> 0 -> 0 < sig < PROCESS_MAX_SIG ->
  exists r s', process_kill_other my s pd sig = Ok (r, s') /\ sys_ok s' E.
Proof.
  intros Hmy Hpd Hsig. destruct (sys_sched _ _ S) as (Q & SL & AL & G & H).
  destruct (process_kill_other_ok s Q SL AL G my pd sig H Hmy Hpd Hsig) as (r & s' & Q' & SL' & Hr & H' & _).
  exists r, s'. split; [auto|]. apply (sys_frame s); [auto|eapply frame_kill_other; eauto|]. exists Q', SL', AL, G. auto.
Qed.
End keep.

Lemma process_kill_keeps s E my pd sig :
  sys_ok s E -> running_on s my -> keeps s E (drop (process_kill my s pd sig)).
Proof.
  intros S [Hmy [x Hr]]. pose proof Hr as (_ & Hx & _). destruct (sys_sched _ _ S) as (Q & SL & AL & G & H).
  unfold process_kill. destruct ((pd =? 0) || (sig <=? 0) || (PROCESS_MAX_SIG <=? sig)) eqn:Eb.
  { exists s. split; [reflexivity|auto]. }
  rewrite !orb_false_iff, Z.eqb_neq, Z.leb_gt, Z.leb_gt in Eb. destruct Eb as [[Hpd Hs1] Hs2].
  assert (Hother : keeps s E (drop ('(r, s) ← process_kill_other my s pd sig; mret (Some r, s)))).
  { destruct (kill_other_keeps S my pd sig Hmy Hpd ltac:(lia)) as (r & s' & -> & S'). exists s'. auto. }
  destruct (cur_proc_ok _ _ _ _ _ my H Hmy) as (c & -> & Hc). rewrite res_bind_ok.
  destruct c as [c|]; [|exact Hother]. rewrite Hx in Hc. injection Hc as <-.
  destruct ((pid x =? pd) && (sig =? 9)) eqn:Ek; [|exact Hother].
  destruct (current_some _ _ _ _ _ my H Hmy) as [-> _]. rewrite res_bind_ok.
  destruct (close_all_files_ok S _ x Hx) as (kf & lg & -> & S1). rewrite res_bind_ok.
  set (s1 := set_procs _ _) in *.
  destruct (process_exit_notify_ok S1 my (arr_at (current s) my) (set_files no_files x) (128 + sig) Hmy)
    as (s2 & _ & -> & S2 & _).
  { destruct Hr as (_ & _ & Hst & Hi). split_and!; [reflexivity|apply lookup_insert_eq|exact Hst|exact Hi]. }
  rewrite res_bind_ok. destruct (schedule_keeps S2 my Hmy) as (s3 & -> & S3). exists s3. auto.
Qed.

Lemma fd_keeps s E my o : sys_ok s E -> running_on s my -> allowed_fd s o -> keeps s E (run_fd my s o).
Proof.
  intros S [Hmy (x & Hcur & Hx & Hst & _)] Ha. set (p := arr_at (current s) my) in *.
  assert (Hput : forall l fl kf lg, length l = length (files x) -> length fl = length (fd_flags x) ->
    files_ok kf (<[p := l]> (tables s)) E -> sys_ok (with_fds s p x l fl kf lg) E)
    by (intros; apply (sys_fds S p x Hx); auto).
  assert (Hshare : refs_left s -> forall fd, can_share (s := s) x fd).
  { intros Hr fd k Hk. specialize (Hr _ k Hk). unfold PROCESS_MAX_FILES in Hr. lia. }
  assert (Honto : refs_left s -> forall oldfd newfd, open_at x oldfd = true -> valid newfd -> oldfd <> newfd ->
    keeps s E (drop (dup_onto my s (at_fd (files x) oldfd) newfd))).
  { intros Hr oldfd newfd Ho Hv Hne.
    destruct (dup_onto_sys S my p x Hmy eq_refl Hx oldfd newfd Ho Hv Hne (Hshare Hr oldfd)) as (kf & lg & -> & Hf).
    eexists. split; [reflexivity|]. apply Hput; auto. apply length_insert. }
  destruct o; cbn [run_fd allowed_fd] in *.
  - destruct Ha as [Hf0 Hn].
    destruct (open_fd_sys S my p x Hmy eq_refl Hx f node root cloexec Hf0 Hn) as [(fd & lg & _ & -> & Hf)|[_ ->]];
      (eexists; split; [reflexivity|]).
    + apply Hput; auto; [apply length_insert|]. destruct cloexec; [apply length_insert|reflexivity].
    + apply (sys_other s); auto; apply S.
  - destruct Ha as ([Hr Hnr] & [Hw Hnw] & Hne).
    destruct (pipe_fds_sys S my p x Hmy eq_refl Hx rf rn wf wn Hr Hw Hne Hnr Hnw) as (o & l & kf & lg & -> & L & Hf & _).
    eexists. split; [reflexivity|]. apply Hput; auto.
  - destruct (fd_close_sys S my p x Hmy eq_refl Hx fd) as (lg & -> & Hf & L). eexists. split; [reflexivity|]. apply Hput; auto.
  - pose proof (dup_sys S my p x Hmy eq_refl Hx oldfd (Hshare Ha oldfd)) as Hd. cbv zeta in Hd.
    destruct (open_at x oldfd); [destruct Hd as [(fd & _ & -> & Hf)|[_ ->]]|rewrite Hd]; eexists; (split; [reflexivity|auto]).
    apply Hput; auto. apply length_insert.
  - unfold syscall_dup2_impl. destruct (is_fd_spec newfd) as [Hv|]; [|exists s; split; [reflexivity|auto]]. cbn [negb].
    rewrite (fd_get_open S my p x Hmy eq_refl Hx), res_bind_ok.
    destruct (open_at x oldfd) eqn:Ho; [|exists s; split; [reflexivity|auto]].
    destruct (at_fd (files x) oldfd =? 0); [exists s; split; [reflexivity|auto]|].
    destruct (Z.eqb_spec oldfd newfd); [exists s; split; [reflexivity|auto]|]. apply Honto; auto.
  - unfold syscall_dup3_impl. destruct (negb (flags =? 0)); [exists s; split; [reflexivity|auto]|].
    destruct (is_fd_spec newfd) as [Hv|]; [|exists s; split; [reflexivity|auto]]. cbn [negb].
    destruct (Z.eqb_spec oldfd newfd); [exists s; split; [reflexivity|auto]|].
    rewrite (fd_get_open S my p x Hmy eq_refl Hx), res_bind_ok.
    destruct (open_at x oldfd) eqn:Ho; [|exists s; split; [reflexivity|auto]].
    destruct (at_fd (files x) oldfd =? 0); [exists s; split; [reflexivity|auto]|]. apply Honto; auto.
  - destruct (fcntl_setfd_sys S my p x Hmy eq_refl Hx fd arg) as (fl & -> & L & _). eexists. split; [reflexivity|].
    apply Hput; auto. rewrite insert_id by (apply tables_lookup; auto). apply S.
  - destruct Ha as [Hr Ha]. destruct (fcntl_dupfd_sys S my p x Hmy eq_refl Hx fd arg (Hshare Hr fd) Ha)
      as (v & l & fl & kf & -> & L1 & L2 & Hf & _). eexists. split; [reflexivity|]. apply Hput; auto.
  - destruct (exec_close_sys (Z.to_nat PROCESS_MAX_FILES) s E my p x 0 S Hmy eq_refl Hx ltac:(lia) eq_refl)
      as (l & fl & kf & lg & -> & Hf & L1 & L2 & _). eexists. split; [reflexivity|]. apply Hput; auto.
Qed.

Lemma refs_left_room s l : refs_left s -> Z.of_nat (length l) <= PROCESS_MAX_FILES -> room (s := s) l.
Proof.
  intros Hr Hl f k Hk. specialize (Hr f k Hk). unfold occ.
  pose proof (length_filter (fun g => g = f) l). lia.
Qed.

Lemma creation_keeps s E o : sys_ok s E -> allowed s o ->
  match o with OCreate _ _ _ _ | OFork _ _ _ _ _ _ | OClone _ _ _ _ _ _ _ _ | OApInit _ _ _ _ => keeps s E (run s o) | _ => True end.
Proof.
  intros S Ha. destruct o; try exact I; cbn [run allowed] in *.
  - destruct Ha as (Hmy & Hp & Hp0).
    destruct (process_create_kernel_ok S my p Hmy Hp Hp0 stack fpu0) as (s' & -> & S' & _). exists s'. auto.
  - destruct Ha as (Hmy & (Hp & Hp0) & Ha & Hrefs).
    destruct (process_fork_create_ok S my p Hmy Hp Hp0 child_as regs stack fpu0 Ha) as (s' & -> & S' & _); [|exists s'; auto].
    intros c Hc. destruct (sys_sched _ _ S) as (Q & SL & AL & G & H).
    destruct (cur_proc_ok _ _ _ _ _ my H Hmy) as (c' & Hc' & Hx). rewrite Hc in Hc'. injection Hc' as <-.
    apply refs_left_room; [auto|]. destruct c as [x|]; [|vm_compute; discriminate].
    cbn [from_cur]. rewrite (proj1 (sys_len _ _ S _ x Hx)). vm_compute. discriminate.
  - destruct Ha as ((Hmy & x & _ & Hx & _) & (Hp & Hp0) & Hrefs).
    destruct (process_clone_create_ok S my p Hmy Hp Hp0 flags child_stack regs tls cow stack x Hx) as (s' & -> & S' & _);
      [|exists s'; auto].
    apply refs_left_room; [auto|]. cbn [from_cur]. rewrite (proj1 (sys_len _ _ S _ x Hx)). vm_compute. discriminate.
  - destruct Ha as (Hc & Hcur & (Hp & Hp0) & Hs).
    destruct (sched_ap_init_ok s E c p stack fpu0 S Hc Hcur Hp Hp0 Hs) as (s' & -> & S' & _). exists s'. auto.
Qed.

Lemma run_keeps_refs s E o : sys_ok s E -> allowed s o ->
  match o with OWait _ _ _ => True | _ => keeps s E (run s o) end.
Proof.
  intros S Ha. pose proof (creation_keeps s E o S Ha) as Hcr.
  destruct (sys_sched _ _ S) as (Q & SL & AL & G & H).
  destruct o; try exact Hcr; clear Hcr; cbn [run allowed] in *.
  - apply fd_keeps; tauto.
  - destruct Ha as (Hmy & x & Hr). apply (cred_keeps S my x o Hmy Hr).
  - apply schedule_keeps; auto.
  - destruct Ha as (Hmy & x & Hr).
    destruct (process_sleep_prepare_ok s Q SL AL G my _ x now ticks H Hmy Hr) as (s' & SL' & E' & H' & _).
    eapply keep_frame; [exact S|exact E'|exists Q, SL', AL, G; auto|intros t; apply frame_sleep_prepare].
  - destruct Ha as (Hmy & x & Hr). destruct (block_current_ok s Q SL AL G my _ x H Hmy Hr) as (s' & E' & H' & _).
    eapply keep_frame; [exact S|exact E'|exists Q, SL, AL, G; auto|].
    intros t Ht. unfold block_current in Ht. destruct (cur s my); try discriminate.
    eapply frame_updp; [exact Ht|]. intros y. split; [reflexivity|]. intros Hz. discriminate Hz.
  - destruct Ha as (x & Hx & Hst).
    destruct (wake_protocol_ok H Hx my Hst) as (s' & SL' & E' & H' & _).
    eapply keep_frame; [exact S|exact E'|exists (woken s p x Q), SL', AL, G; auto|]. intros t Ht.
    unfold wake_up in Ht. rewrite (updp_ok s p x), res_bind_ok in Ht by auto.
    eapply frame_trans; [apply (frame_procs s p x (set_state PROCESS_READY x)); [exact Hx|reflexivity|discriminate]|eapply frame_enqueue_ready; exact Ht].
  - destruct Ha as (Hmy & Hadv).
    destruct (process_wake_check_ok s Q SL AL G my tick (nprocs s) H Hmy (alarm_fuel H)) as (s' & AL' & E' & H' & _).
    + intros p (_ & x & Hx & _ & Hi & Hw). destruct (Hadv p x Hx); lia.
    + eapply keep_frame; [exact S|exact E'|eexists _, _, AL', G; exact H'|intros t; apply frame_wake_check].
  - destruct (sched_ap_tick_ok s Q SL AL G my H Ha) as (s' & E' & H' & _).
    eapply keep_frame; [exact S|exact E'|exists Q, SL, AL, G; auto|intros t; apply frame_ap_tick].
  - destruct Ha as (Hmy & x & Hr). destruct (current_some _ _ _ _ _ my H Hmy) as [Hc _]. destruct Hr as (_ & Hx & _).
    destruct (sys_alarm_ok H my x Hc Hx now seconds) as (r & s' & AL' & -> & H' & F). exists s'. split; [reflexivity|].
    apply (sys_frame s); auto. exists Q, SL, AL', G. auto.
  - destruct Ha as (Hmy & x & Hr). destruct (current_some _ _ _ _ _ my H Hmy) as [Hc _]. destruct Hr as (_ & Hx & _).
    destruct (sys_setitimer_ok H my x Hc Hx now which new old) as (r & k & s' & AL' & -> & H' & F & _).
    exists s'. split; [reflexivity|]. apply (sys_frame s); auto. exists Q, SL, AL', G. auto.
  - apply process_kill_keeps; auto.
  - destruct Ha as (Hmy & Hd). destruct ((pgrp =? 0) || (sig <=? 0) || (PROCESS_MAX_SIG <=? sig)) eqn:Eb.
    { exists s. split; [|auto]. unfold process_kill_pgrp. destruct (pgrp =? 0); [reflexivity|]. cbn [orb] in Eb. rewrite Eb. reflexivity. }
    rewrite !orb_false_iff, Z.eqb_neq, Z.leb_gt, Z.leb_gt in Eb. destruct Eb as [[Hpg Hs1] Hs2].
    destruct (process_kill_pgrp_ok s Q SL AL G my pgrp sig (nprocs s) H Hmy Hpg) as (r & s' & Q' & SL' & E' & H' & _); [lia| | |].
    + pose proof (ring_fuel H) as Hf. simpl in Hf. unfold nprocs in *. lia.
    + intros (p & x & _ & Hx & Hin & Hden). rewrite (Hd p x Hx Hin) in Hden. discriminate.
    + rewrite E'. exists s'. split; [reflexivity|].
      apply (sys_frame s); [auto|eapply frame_kill_pgrp; exact E'|exists Q', SL', AL, G; auto].
  - destruct Ha as (Hset & Hu). destruct (sched_load_balance_ok H Hset my Hu) as (s' & Q' & E' & H' & _).
    eapply keep_frame; [exact S|exact E'|exists Q', SL, AL, G; auto|intros t; apply frame_load_balance].
  - destruct Ha as (Hmy & x & Hr). destruct (current_some _ _ _ _ _ my H Hmy) as [-> _]. rewrite res_bind_ok.
    destruct Hr as (_ & Hx & _). destruct (close_all_files_ok S _ x Hx) as (kf & lg & -> & S1). eexists. auto.
  - destruct Ha as (Hmy & x & Hr).
    destruct (process_exit_notify_ok S my _ x status Hmy Hr) as (s' & _ & -> & S' & _). exists s'. auto.
  - destruct Ha as (Hmy & Hn). unfold wait_resume. destruct (current_some _ _ _ _ _ my H Hmy) as [-> Hs].
    rewrite res_bind_ok. destruct (Hs Hn) as [x Hx]. rewrite (updp_ok s _ x) by auto. eexists. split; [reflexivity|].
    apply (sys_frame s); [auto|eapply frame_procs; [exact Hx|reflexivity|auto]|].
    exists Q, SL, AL, G. eapply sched_ok_same; eauto. red. auto 10.
Qed.

(** Only a wait takes a process out of the system; what its descriptors still
    refer to is not released. *)
Definition gone (s : sched) (o : op) (s' : sched) (f : Z) : Z :=
  match o with OWait _ _ _ => lost s s' f | _ => 0 end.

Lemma run_keeps s E o : sys_ok s E -> allowed s o ->
  exists s', run s o = Ok s' /\ sys_ok s' (fun f => E f + gone s o s' f).
Proof.
  intros S Ha. pose proof (run_keeps_refs s E o S Ha) as Hk.
  assert (Hz : forall s', sys_ok s' E -> sys_ok s' (fun f => E f + 0))
    by (intros s' S'; eapply sys_refs_ext; [|exact S']; intros f; simpl; lia).
  destruct o; try (destruct Hk as (s' & Hr & S'); exists s'; split; [exact Hr|apply Hz; exact S']).
  destruct Ha as (Hmy & x & Hr). cbn [run gone].
  destruct (process_waitpid_turn_ok s E my _ x want options S Hmy Hr) as (r & s' & G & -> & S' & _). exists s'. auto.
Qed.

(** ** Executions *)

(** The states the kernel goes through, from start-up on, each with the number of
    references to every file that were left behind by processes that are gone. *)
Inductive reached : sched -> (Z -> Z) -> Prop :=
| reach_boot s asp p stack fpu0 s' :
    boot_state s -> p <> 0 -> stack <> 0 -> process_init 0 s asp p stack fpu0 = Ok (Some s') -> reached s' no_refs
| reach_step s E o s' :
    reached s E -> allowed s o -> run s o = Ok s' -> reached s' (fun f => E f + gone s o s' f).

Definition reachable (s : sched) : Prop := exists E, reached s E.

Lemma reached_sys s E : reached s E -> sys_ok s E.
Proof.
  induction 1 as [s asp p stack fpu0 s' B Hp Hs Hi|s E o s' _ IH Ha Hr].
  - destruct (process_init_ok s asp p stack fpu0 B Hp Hs) as (s1 & H1 & S1 & _). congruence.
  - destruct (run_keeps s E o IH Ha) as (s1 & H1 & S1). rewrite Hr in H1. injection H1 as <-. exact S1.
Qed.

Lemma reachable_sys s : reachable s -> exists E, sys_ok s E.
Proof. intros [E R]. exists E. apply reached_sys, R. Qed.

Lemma reachable_sched s : reachable s -> sched_inv s.
Proof. intros [E R]. apply (sys_sched _ _ (reached_sys s E R)). Qed.

Lemma reachable_step s o s' : reachable s -> allowed s o -> run s o = Ok s' -> reachable s'.
Proof. intros [E R] Ha Hr. eexists. eapply reach_step; eauto. Qed.

(** A sequence of operations. *)
Fixpoint runs_ops (s : sched) (l : list op) : res sched :=
  match l with
  | [] => mret s
  | o :: l => s ← run s o; runs_ops s l
  end.

(** ** A concrete start-up *)

Definition empty_queue : tqueue := TQueue 0 ∅ ∅ ∅.

(** The memory of a machine with [n] processors before [process_init]. *)
Definition cold (n : Z) : sched :=
  Sched ∅ (runqs_init ∅ ∅) empty_queue empty_queue ∅ ∅ 0 0 (arr_new SCHED_MAX_CPUS 0) (arr_new SCHED_MAX_CPUS 0)
    n 1 0 0 ∅ (arr_new AS_REFCOUNT_MAX (AsEntry 0 0)) [].

Lemma cold_boot n : 0 <= n <= SCHED_MAX_CPUS -> boot_state (cold n).
Proof. intros Hn. split; simpl; auto. Qed.

Definition started (n : Z) : sched :=
  match process_init 0 (cold n) 7 100 4096 [] with Ok (Some s) => s | _ => cold n end.

Lemma started_reachable n : 0 <= n <= SCHED_MAX_CPUS -> reachable (started n).
Proof.
  intros Hn. unfold started. destruct (process_init_ok (cold n) 7 100 4096 [] (cold_boot n Hn)) as (s & Hs & _); try lia.
  rewrite Hs. exists no_refs. eapply reach_boot; [apply (cold_boot n Hn)| | |exact Hs]; lia.
Qed.

(** ** Executions that can be checked by evaluation *)

Definition cpu_b (my : Z) : bool := (0 <=? my) && (my <? SCHED_MAX_CPUS).

Definition running_on_b (s : sched) (my : Z) : bool :=
  let p := arr_at (current s) my in
  cpu_b my &&
  match procs s !! p with
  | Some x => is_state (state x) PROCESS_RUNNING &&
      forallb (fun c => (arr_at (current s) c =? 0) || negb (idle_at s c =? p)) (seqZ 0 SCHED_MAX_CPUS)
  | None => false
  end.

Definition all_procs (s : sched) (f : proc -> bool) : bool := forallb (fun '(_, x) => f x) (map_to_list (procs s)).

Definition fresh_b (s : sched) (p : Z) : bool :=
  match procs s !! p with None => negb (p =? 0) | Some _ => false end.

Definition new_file_b (s : sched) (f : Z) : bool :=
  match kfiles s !! f with None => negb (f =? 0) | Some _ => false end.

(** Sound for [allowed], not complete. *)
Definition allowed_b (s : sched) (o : op) : bool :=
  match o with
  | OSchedule my | OApTick my => cpu_b my
  | OSleep my _ _ | OBlock my | OWait my _ _ | OCloseFiles my | OKill my _ _ | OAlarm my _ _ | OSetitimer my _ _ _ _
  | OCred my _ | OExit my _ => running_on_b s my
  | OWake _ p => match procs s !! p with
      | Some x => is_state (state x) PROCESS_BLOCKED || is_state (state x) PROCESS_SLEEPING | None => false end
  | OTick my tick => cpu_b my &&
      all_procs s (fun x => (alarm_interval x =? 0) || (tick <? u32 (tick + alarm_interval x)))
  | OCreate my p _ _ => cpu_b my && fresh_b s p
  | OApInit c p stack _ => (0 <? c) && cpu_b c && (arr_at (current s) c =? 0) && fresh_b s p && negb (stack =? 0)
  | OFd my (FOpen f _ _ _) => running_on_b s my && new_file_b s f
  | OFd my (FClose _) | OFd my (FSetFd _ _) | OFd my FExec => running_on_b s my
  | OWaitResume my => cpu_b my && negb (arr_at (current s) my =? 0)
  | _ => false
  end.

Lemma cpu_b_ok my : cpu_b my = true -> 0 <= my < SCHED_MAX_CPUS.
Proof. unfold cpu_b. rewrite andb_true_iff, Z.leb_le, Z.ltb_lt. auto. Qed.

Lemma running_on_b_ok s my : running_on_b s my = true -> running_on s my.
Proof.
  unfold running_on_b. rewrite andb_true_iff. intros [Hmy%cpu_b_ok Hr]. split; [auto|].
  destruct (procs s !! _) as [x|] eqn:Hx; [|discriminate]. apply andb_true_iff in Hr as [Hs%is_state_true Hf].
  exists x. split_and!; auto. intros c Hc Hn. rewrite forallb_forall in Hf. specialize (Hf c).
  rewrite orb_true_iff, negb_true_iff, Z.eqb_eq, Z.eqb_neq in Hf. destruct Hf as [|]; [|contradiction|auto].
  apply list_elem_of_In, elem_of_seqZ. lia.
Qed.

Lemma all_procs_ok s f : all_procs s f = true -> forall p x, procs s !! p = Some x -> f x = true.
Proof.
  unfold all_procs. rewrite forallb_forall. intros Hf p x Hx. apply (Hf (p, x)).
  apply list_elem_of_In, elem_of_map_to_list. auto.
Qed.

Lemma fresh_b_ok s p : fresh_b s p = true -> fresh s p.
Proof. unfold fresh_b, fresh. destruct (procs s !! p); [discriminate|]. rewrite negb_true_iff, Z.eqb_neq. auto. Qed.

Lemma allowed_b_ok s o : allowed_b s o = true -> allowed s o.
Proof.
  destruct o as [my f|my cr|my|my now ticks|my|my p|my tick|my|my now secs|my now wh new old|my pd sig| | |my p stack fpu0| | |my|my status|my want opt|my|c p stack fpu0];
    cbn [allowed_b allowed]; try discriminate; rewrite ?andb_true_iff; try apply cpu_b_ok; try apply running_on_b_ok.
  - destruct f; cbn [allowed_fd]; try discriminate; rewrite ?andb_true_iff.
    + intros [Hr%running_on_b_ok Hn]. split; [auto|]. unfold new_file_b, new_file in *.
      destruct (kfiles s !! f); [discriminate|]. rewrite negb_true_iff, Z.eqb_neq in Hn. auto.
    + intros Hr%running_on_b_ok. auto.
    + intros Hr%running_on_b_ok. auto.
    + intros Hr%running_on_b_ok. auto.
  - destruct (procs s !! p) as [x|]; [|discriminate]. rewrite orb_true_iff, !is_state_true. eauto.
  - intros [Hmy%cpu_b_ok Ha]. split; [auto|]. intros p x Hx. pose proof (all_procs_ok _ _ Ha p x Hx) as Hp. simpl in Hp.
    rewrite orb_true_iff, Z.eqb_eq, Z.ltb_lt in Hp. auto.
  - intros [Hmy%cpu_b_ok Hf%fresh_b_ok]. auto.
  - intros [Hmy%cpu_b_ok Hn]. rewrite negb_true_iff, Z.eqb_neq in Hn. auto.
  - intros [[[[Hc%Z.ltb_lt Hc'%cpu_b_ok] Hcur%Z.eqb_eq] Hf%fresh_b_ok] Hs]. rewrite negb_true_iff, Z.eqb_neq in Hs.
    split_and!; auto; lia.
Qed.

(** Runs the operations as long as they are allowed. *)
Fixpoint replay (s : sched) (l : list op) : option sched :=
  match l with
  | [] => Some s
  | o :: l => if allowed_b s o then match run s o with Ok s' => replay s' l | _ => None end else None
  end.

Lemma replay_reachable l : forall s s', reachable s -> replay s l = Some s' -> reachable s'.
Proof.
  induction l as [|o l IH]; intros s s' Hs Hr; simpl in Hr; [congruence|].
  destruct (allowed_b s o) eqn:Ha; [|discriminate]. destruct (run s o) as [s1| |] eqn:E1; try discriminate.
  apply (IH s1); [eapply reachable_step; eauto using allowed_b_ok|auto].
Qed.
