(* ===== verification/ProcessTheorems.v ===== *)
(** What the models of the scheduler, of the processes and of the file descriptors show,
    with concrete executions on which each statement applies. *)

From S2P Require Import Prelude Bitmap Ring Runq SortedQ AsRef SchedState Sched Cred SchedFrame SchedInv SchedSpec SchedTick Itimer SchedOps SchedLive Process Fd.
From S2P Require Import ProcessFiles ProcessInv ProcessSpec FdSpec ProcessExit ProcessBoot ProcessContract.

(** ** Concrete executions *)

(** Replays operations from a cold start with [n] processors. *)
Definition demo (n : Z) (l : list op) : sched := default (cold n) (replay (started n) l).

Lemma demo_run_reachable n l : 0 <= n <= SCHED_MAX_CPUS -> bool_decide (is_Some (replay (started n) l)) = true -> reachable (demo n l).
Proof.
  intros Hn Hr%bool_decide_eq_true. destruct Hr as [s Hs]. unfold demo. rewrite Hs. simpl.
  apply (replay_reachable l (started n)); [apply started_reachable; auto|exact Hs].
Qed.

Ltac run_demo := apply demo_run_reachable; [split; vm_compute; discriminate|vm_compute; reflexivity].

(** Two processes; the first runs. *)
Definition two_procs : list op := [OCreate 0 301 8192 []; OCreate 0 302 8192 []; OSchedule 0].

(** The state of a process by evaluation. *)
Definition proc_at (s : sched) (p : Z) : proc := default (idle_proc 0 0 0 0 0 []) (procs s !! p).

Lemma proc_at_ok s p : bool_decide (is_Some (procs s !! p)) = true -> procs s !! p = Some (proc_at s p).
Proof. intros Hs%bool_decide_eq_true. destruct Hs as [x Hx]. unfold proc_at. rewrite Hx. reflexivity. Qed.

(** ** Safety *)





(** C15: The reference count of an open file is the number of descriptors that refer
    to it, over the tables of all processes, plus the references that processes left
    behind which were collected with the descriptor still open; it is never 0, and no
    descriptor refers to a file that was freed. *)
Theorem file_refcounts_exact s E f :
  reached s E -> f <> 0 ->
  match kfiles s !! f with
  | Some k => f_refcount k = nrefs (tables s) f + E f /\ 0 < f_refcount k
  | None => E f = 0 /\ forall p x, procs s !! p = Some x -> f ∉ files x
  end.
Proof.
  intros R Hf. pose proof (reached_sys s E R) as S. destruct (sys_files _ _ S f Hf) as [_ Hk].
  destruct (kfiles s !! f) as [k|] eqn:Ek; [lia|]. split; [lia|]. intros p x Hx Hin.
  destruct (files_live _ _ _ _ _ _ (sys_files _ _ S) (tables_lookup _ _ _ Hx) Hin Hf) as (k & Hk' & _).
  congruence.
Qed.

(** 301 has opened a file. *)
Definition one_open : sched := demo 1 (two_procs ++ [OFd 0 (FOpen 77 5 6 true)]).

Lemma file_refcounts_exact_witness :
  exists E k, reached one_open E /\ kfiles one_open !! 77 = Some k /\
    f_refcount k = nrefs (tables one_open) 77 + E 77 /\ 0 < f_refcount k.
Proof.
  set (s := one_open). assert (R : reachable s) by run_demo. destruct R as [E R].
  assert (H77 : 77 <> 0) by lia. pose proof (file_refcounts_exact s E 77 R H77) as Hf.
  assert (Hk : kfiles s !! 77 = Some (KFile 5 6 1)) by (vm_compute; reflexivity).
  rewrite Hk in Hf. exists E, (KFile 5 6 1). split; [exact R|]. split; [exact Hk|exact Hf].
Defined.

(** ** Scheduling *)

(** C16: When the slice of the current process has ended, or it is not running any
    more, [schedule] returns and switches: the outgoing process, if it was RUNNING, is
    made READY with the next lower priority and queued at the end of that expired list;
    the new current process is the head of the first non-empty list of the active
    runqueue, or, when that is empty, of the expired one, which becomes the active one.
    It leaves its list and runs with a fresh time slice; nothing else changes in the
    queues or the processes.  A process in the active queue, the idle process included,
    goes before every process in the expired one. *)
Theorem schedule_picks_best s Q SL AL G cpu x :
  sched_ok None s Q SL AL G -> 0 <= cpu < SCHED_MAX_CPUS -> arr_at (current s) cpu <> 0 ->
  procs s !! arr_at (current s) cpu = Some x -> ~ (state x = PROCESS_RUNNING /\ 0 < time_slice x) ->
  let prev := arr_at (current s) cpu in let Q1 := requeued s cpu prev x Q in
  exists s' next y k i l SL', schedule s cpu = Ok s' /\ chosen s cpu Q1 next /\
    (forall c, arr_at (current s') c = if cpu =? c then next else arr_at (current s) c) /\
    <[prev := prev_after x]> (procs s) !! next = Some y /\
    procs s' = <[next := running y]> (<[prev := prev_after x]> (procs s)) /\
    Q1 cpu k i = next :: l /\ k = act (rqs s') cpu /\ sched_ok None s' (updQ Q1 cpu k i l) SL' AL G.
Proof.
  intros H Hc Hn Hx Hs. destruct (schedule_ok s Q SL AL G cpu x H Hc Hn Hx Hs)
    as (s' & next & y & Q2 & SL' & Hr & Hch & Hcur & Hy & _ & Hp & (k & i & l & Hl & -> & Hk & _) & H').
  exists s', next, y, k, i, l, SL'. auto 10.
Qed.

(** The boot processor's idle process has no slice: its first [schedule] switches. *)
Lemma schedule_picks_best_witness :
  exists s' next y, schedule (demo 1 [OCreate 0 301 8192 []]) 0 = Ok s' /\
    (forall c, arr_at (current s') c = if 0 =? c then next else arr_at (current (demo 1 [OCreate 0 301 8192 []])) c) /\
    exists m, procs s' = <[next := running y]> m.
Proof.
  set (s := demo _ _). assert (R : reachable s) by run_demo.
  destruct (reachable_sched s R) as (Q & SL & AL & G & H).
  destruct (schedule_picks_best s Q SL AL G 0 (proc_at s 100) H) as (s' & next & y & k & i & l & SL' & Hr & _ & Hcur & _ & Hp & _).
  - unfold SCHED_MAX_CPUS. lia.
  - vm_compute. discriminate.
  - replace (arr_at (current s) 0) with 100 by (vm_compute; reflexivity). apply proc_at_ok. vm_compute. reflexivity.
  - intros [_ Ht]. vm_compute in Ht. discriminate.
  - exists s', next, y. split; [exact Hr|]. split; [exact Hcur|]. eexists. exact Hp.
Defined.

(** C26: No starvation: a process that is READY on a processor becomes its current
    process after a bounded number of calls of [schedule] by that processor, at most
    six for every process there is, plus what is left of the current slice. *)
Theorem ready_process_runs s cpu p x y :
  reachable s -> 0 <= cpu < SCHED_MAX_CPUS -> arr_at (current s) cpu <> 0 ->
  procs s !! arr_at (current s) cpu = Some y ->
  procs s !! p = Some x -> state x = PROCESS_READY -> cpu_id x = cpu ->
  exists n s', (n <= 6 * size (procs s) + 3 + Z.to_nat (time_slice y))%nat /\
    schedules n s cpu = Ok s' /\ arr_at (current s') cpu = p.
Proof.
  intros R Hc Hn Hy Hx Hs Hcpu. destruct (reachable_sched s R) as (Q & SL & AL & G & H).
  destruct (ready_rank H cpu Hc p x Hx Hs Hcpu) as [w Hw]. pose proof (rank_bound H cpu p w Hc Hw) as Hb.
  destruct (runs_within (3 * w + slice_left y) s Q SL AL G cpu p w y H Hc Hn Hy Hw (Nat.le_refl _)) as (n & s' & Hle & Hr & He).
  exists n, s'. split; [|auto]. unfold slice_left in Hle. destruct (is_state _ _); lia.
Qed.

Lemma ready_process_runs_witness :
  exists n s', (n <= 21 + 2)%nat /\ schedules n (demo 1 two_procs) 0 = Ok s' /\ arr_at (current s') 0 = 302.
Proof.
  set (s := demo 1 two_procs). assert (R : reachable s) by run_demo.
  apply (ready_process_runs s 0 302 (proc_at s 302) (proc_at s 301) R).
  - unfold SCHED_MAX_CPUS. lia.
  - vm_compute. discriminate.
  - replace (arr_at (current s) 0) with 301 by (vm_compute; reflexivity). apply proc_at_ok. vm_compute. reflexivity.
  - apply proc_at_ok. vm_compute. reflexivity.
  - vm_compute. reflexivity.
  - vm_compute. reflexivity.
Defined.

(** ** Time *)

(** C27: When no repeating alarm wraps around, one timer tick returns and does exactly
    this: the sleepers whose time has come leave the sleep queue, get a better priority
    and are queued, in the order of their wake-up times, at the end of the active lists
    of their processors; SIGALRM is sent for the alarms that are due, of which those
    that repeat are armed again and the others are not; the process that runs on the
    processor that takes the tick is charged for it.  Every other process, the other
    queues and the process list are left as they were. *)
Theorem tick_exact s Q SL AL G my tick :
  sched_ok None s Q SL AL G -> 0 <= my < SCHED_MAX_CPUS -> alarms_advance s tick ->
  exists s' AL', process_wake_check (nprocs s) my s tick = Ok s' /\
    sched_ok None s' (wake_all s Q (filter (fun p => wake_of s p <= tick) SL)) (filter (fun p => tick < wake_of s p) SL) AL' G /\
    AL' ≡ₚ filter (stays_armed s tick) AL /\ same_list s s' /\
    forall p, procs s' !! p = after_tick s SL AL my tick p <$> procs s !! p.
Proof.
  intros H Hmy Ha.
  destruct (process_wake_check_ok s Q SL AL G my tick (nprocs s) H Hmy (alarm_fuel H)) as (s' & AL' & Hr & H1 & H2 & H3 & H4);
    [|exists s', AL'; auto 10].
  intros p (_ & x & Hx & _ & Hi & Hw). destruct (Ha p x Hx); lia.
Qed.

Lemma tick_exact_witness :
  exists s', process_wake_check (nprocs (demo 1 two_procs)) 0 (demo 1 two_procs) 5 = Ok s'.
Proof.
  set (s := demo 1 two_procs). assert (R : reachable s) by run_demo.
  destruct (reachable_sched s R) as (Q & SL & AL & G & H).
  destruct (tick_exact s Q SL AL G 0 5 H) as (s' & AL' & Hr & _); [unfold SCHED_MAX_CPUS; lia| |exists s'; exact Hr].
  intros p x Hx. left.
  assert (Hall : all_procs s (fun x => alarm_interval x =? 0) = true) by (vm_compute; reflexivity).
  apply Z.eqb_eq. exact (all_procs_ok s _ Hall p x Hx).
Defined.

(** The queue of alarms by evaluation. *)
Lemma alarm_listed {s Q SL AL G} (H : sched_ok None s Q SL AL G) p x :
  procs s !! p = Some x -> tq_in (alarmq s) !! p = Some 1 -> p ∈ AL.
Proof.
  intros Hx Hi. destruct (decide (p ∈ AL)) as [|Hn]; [auto|].
  pose proof (tq_ok_out _ _ _ (so_alarm _ _ _ _ _ _ H) p 1 Hn Hi). discriminate.
Qed.

(** A repeating timer can hang the kernel: when the next expiry of a due timer,
    computed modulo 2^32, does not lie after the current tick, the loop of the timer
    interrupt over the due alarms never ends, whatever the bound on its iterations.
    [setitimer] accepts such intervals from any process. *)
Theorem repeating_alarm_never_ends s p x tick fuel :
  reachable s -> procs s !! p = Some x -> tq_in (alarmq s) !! p = Some 1 ->
  alarm_tick x <= tick -> alarm_interval x <> 0 -> u32 (tick + alarm_interval x) <= tick ->
  fire_alarms fuel s tick = NoFuel.
Proof.
  intros R Hx Hi Hd Hn Hw. destruct (reachable_sched s R) as (Q & SL & AL & G & H).
  apply (fire_alarms_diverges fuel s Q SL AL G tick p H). split; [exact (alarm_listed H p x Hx Hi)|]. eauto 10.
Qed.

(** The process sets a timer of 10 ms that repeats after 2^32 - 1 ticks. *)
Definition hostile_timer : k_itimerval := Itimerval (Timeval 42949672 950000) (Timeval 0 10000).

Definition hostile : sched := demo 1 (two_procs ++ [OSetitimer 0 50 ITIMER_REAL (UVal hostile_timer) UNull]).

Lemma repeating_alarm_never_ends_witness : reachable hostile /\ forall fuel, fire_alarms fuel hostile 51 = NoFuel.
Proof.
  set (s := hostile). assert (R : reachable s) by run_demo. split; [exact R|]. intros fuel.
  apply (repeating_alarm_never_ends s 301 (proc_at s 301) 51 fuel R).
  - apply proc_at_ok. vm_compute. reflexivity.
  - vm_compute. reflexivity.
  - vm_compute. discriminate.
  - vm_compute. discriminate.
  - vm_compute. discriminate.
Defined.

(** What [setitimer] sets, [getitimer] reads at the same tick, rounded down to
    whole ticks, for each of the three timers, unless the expiry wraps around. *)
Theorem setitimer_getitimer s my x now which v :
  reachable s -> 0 <= my < SCHED_MAX_CPUS -> arr_at (current s) my <> 0 ->
  procs s !! arr_at (current s) my = Some x ->
  0 <= which <= 2 -> 0 <= now -> now + timeval_to_ticks (it_value v) < 4294967296 ->
  exists s', sys_setitimer my s now which (UVal v) UNull = Ok (0, None, s') /\
    sys_getitimer my s' now which (UVal tt) = Ok (0, Some (in_ticks v)).
Proof.
  intros R Hmy Hn Hx Hw Hnow Hlt. destruct (reachable_sched s R) as (Q & SL & AL & G & H).
  destruct (current_some _ _ _ _ _ my H Hmy) as [Hc _].
  destruct (itimer_set_ok s Q SL AL G _ x which now v H Hx) as (s' & AL' & Hr & _ & L & P & _).
  assert (Hg : exists k, itimer_get x which now = Some k).
  { unfold itimer_get, ITIMER_REAL, ITIMER_VIRTUAL, ITIMER_PROF.
    destruct (Z.eqb_spec which 0), (Z.eqb_spec which 1), (Z.eqb_spec which 2); try lia; eauto. }
  destruct Hg as [k Hk]. exists s'. split.
  - unfold sys_setitimer. rewrite Hc, res_bind_ok. destruct (Z.eqb_spec (arr_at (current s) my) 0); [contradiction|].
    cbv zeta. rewrite (getp_ok _ _ _ Hx), res_bind_ok, Hk, Hr. reflexivity.
  - destruct L as (_ & _ & _ & _ & Ec & _). unfold sys_getitimer, cur. rewrite Ec. unfold cur in Hc. rewrite Hc, res_bind_ok.
    destruct (Z.eqb_spec (arr_at (current s) my) 0); [contradiction|].
    erewrite getp_ok by (rewrite P; apply lookup_insert_eq). rewrite res_bind_ok.
    rewrite (timer_set_get which now v x Hw Hnow Hlt). reflexivity.
Qed.

Lemma setitimer_getitimer_witness :
  exists s', sys_setitimer 0 (demo 1 two_procs) 50 ITIMER_REAL (UVal (Itimerval (Timeval 0 0) (Timeval 2 15000))) UNull = Ok (0, None, s') /\
    sys_getitimer 0 s' 50 ITIMER_REAL (UVal tt) = Ok (0, Some (Itimerval (Timeval 0 0) (Timeval 2 10000))).
Proof.
  set (s := demo _ _). assert (R : reachable s) by run_demo.
  apply (setitimer_getitimer s 0 (proc_at s 301) 50 ITIMER_REAL (Itimerval (Timeval 0 0) (Timeval 2 15000)) R).
  - unfold SCHED_MAX_CPUS. lia.
  - vm_compute. discriminate.
  - replace (arr_at (current s) 0) with 301 by (vm_compute; reflexivity). apply proc_at_ok. vm_compute. reflexivity.
  - unfold ITIMER_REAL. lia.
  - lia.
  - vm_compute. reflexivity.
Defined.

(** ** Signals *)

(** A signal to a process group reaches every live member and no other process,
    and wakes those that wait, provided the sender may signal each of them; the
    result is 0 when there is a member and -ESRCH otherwise. *)
Theorem kill_pgrp_exact s Q SL AL G my pgrp sig :
  sched_ok None s Q SL AL G -> 0 <= my < SCHED_MAX_CPUS -> pgrp <> 0 -> 0 < sig < PROCESS_MAX_SIG ->
  (forall p x, procs s !! p = Some x -> in_pgrp pgrp x = true -> denied s (arr_at (current s) my) x = false) ->
  exists s', process_kill_pgrp (nprocs s) my s pgrp sig =
      Ok (if bool_decide (map_Exists (fun _ x => in_pgrp pgrp x = true) (procs s)) then 0 else - ESRCH, s') /\
    forall p, procs s' !! p = (fun x => if in_pgrp pgrp x then signalled sig x else x) <$> procs s !! p.
Proof.
  intros H Hmy Hpg Hsig Hd.
  destruct (process_kill_pgrp_ok s Q SL AL G my pgrp sig (nprocs s) H Hmy Hpg Hsig)
    as (r & s' & Q' & SL' & Hr & _ & _ & -> & Hp).
  - pose proof (ring_fuel H) as Hf. simpl in Hf. unfold nprocs in *. lia.
  - intros (p & x & _ & Hx & Hin & Hden). rewrite (Hd p x Hx Hin) in Hden. discriminate.
  - eauto.
Qed.

Lemma kill_pgrp_exact_witness :
  exists s', process_kill_pgrp (nprocs (demo 1 (two_procs ++ [OCred 0 (Setpgid 0 7)]))) 0 (demo 1 (two_procs ++ [OCred 0 (Setpgid 0 7)])) 7 15 = Ok (0, s').
Proof.
  set (s := demo _ _). assert (R : reachable s) by run_demo.
  destruct (reachable_sched s R) as (Q & SL & AL & G & H).
  destruct (kill_pgrp_exact s Q SL AL G 0 7 15 H) as (s' & Hr & _).
  - unfold SCHED_MAX_CPUS. lia.
  - lia.
  - unfold PROCESS_MAX_SIG. lia.
  - intros p x Hx _.
    assert (Hall : all_procs s (fun x => negb (denied s (arr_at (current s) 0) x)) = true) by (vm_compute; reflexivity).
    pose proof (all_procs_ok s _ Hall p x Hx) as Hn. apply negb_true_iff in Hn. exact Hn.
  - exists s'. rewrite Hr. vm_compute. reflexivity.
Defined.

(** A signal to a process group hangs the kernel, with the scheduler's lock held,
    when some live member may not be signalled by the sender: the loop over the
    processes does not move past it. *)
Theorem kill_pgrp_hangs s my pgrp sig p x fuel :
  reachable s -> 0 <= my < SCHED_MAX_CPUS -> pgrp <> 0 -> 0 < sig < PROCESS_MAX_SIG ->
  procs s !! p = Some x -> in_pgrp pgrp x = true -> denied s (arr_at (current s) my) x = true ->
  process_kill_pgrp fuel my s pgrp sig = NoFuel.
Proof.
  intros R Hmy Hpg Hsig Hx Hin Hd. destruct (reachable_sys s R) as [E S].
  destruct (sys_sched _ _ S) as (Q & SL & AL & G & H).
  apply (process_kill_pgrp_diverges s Q SL AL G my pgrp sig fuel H Hmy Hpg Hsig); [|apply (sys_head _ _ S)].
  exists p, x. split_and!; auto. assert (Hl : p ∈ ready_queue_head s :: G) by (apply (so_procs _ _ _ _ _ _ H); eauto).
  apply elem_of_cons in Hl as [->|]; [|auto]. exfalso. unfold in_pgrp in Hin.
  rewrite (sys_head _ _ S x Hx), andb_false_r in Hin. discriminate.
Qed.

(** Process 302, of user 2000, signals group 7, which process 301, of user 1000, is in. *)
Definition foreign_group : list op :=
  two_procs ++ [OCred 0 (Setpgid 0 7); OCred 0 (Setuid 1000); OSchedule 0; OSchedule 0; OSchedule 0; OCred 0 (Setuid 2000)].

Lemma kill_pgrp_hangs_witness :
  reachable (demo 1 foreign_group) /\ forall fuel, process_kill_pgrp fuel 0 (demo 1 foreign_group) 7 15 = NoFuel.
Proof.
  set (s := demo 1 foreign_group). assert (R : reachable s) by run_demo. split; [exact R|]. intros fuel.
  apply (kill_pgrp_hangs s 0 7 15 301 (proc_at s 301) fuel R).
  - unfold SCHED_MAX_CPUS. lia.
  - lia.
  - unfold PROCESS_MAX_SIG. lia.
  - apply proc_at_ok. vm_compute. reflexivity.
  - vm_compute. reflexivity.
  - vm_compute. reflexivity.
Defined.

(** ** Exit and wait *)

(** C28: The exit of a process changes exactly this: the process becomes a zombie with
    its status; when there is an init process, every child gets it as its parent, and
    init, if it waits for any child, is made READY with the result of the first child
    that already is a zombie; the parent, if it waits for this process or for any
    child, is made READY with its PID and status, so no wake-up is lost.  No other
    process changes.  The files of the process stay open. *)
Theorem exit_wakes_parent s my p x status :
  reachable s -> 0 <= my < SCHED_MAX_CPUS -> runs s my p x ->
  exists s' G, process_exit_notify my s status = Ok s' /\ reachable s' /\
    ring (pnext s) (pprev s) (ready_queue_head s) G /\
    (forall q, procs s' !! q = after_exit (s := s) p x status (ready_queue_head s :: G) q <$> procs s !! q) /\
    (forall y, procs s !! parent_of s x = Some y -> waits_for y x ->
       exists y', procs s' !! parent_of s x = Some y' /\ state y' = PROCESS_READY).
Proof.
  intros R Hmy Hr. destruct (reachable_sys s R) as [E S].
  destruct (process_exit_notify_ok S my p x status Hmy Hr) as (s' & G & H1 & _ & _ & H2 & H3). exists s', G.
  split; [exact H1|]. split; [apply (reachable_step s (OExit my status)); auto|].
  { split; [exact Hmy|]. exists x. pose proof Hr as (-> & _). exact Hr. }
  split; [exact H2|]. split; [exact H3|]. intros y Hy W. eexists. split; [rewrite H3, Hy; reflexivity|].
  exact (after_exit_wakes my p x status Hr _ _ y eq_refl Hy W).
Qed.

(** 301 waits for its child 303, which runs. *)
Definition waiting_parent : list op := two_procs ++ [OCreate 0 303 8192 []; OWait 0 (-1) 0; OSchedule 0; OBlock 0; OSchedule 0].

Lemma exit_wakes_parent_witness :
  exists s' y, process_exit_notify 0 (demo 1 waiting_parent) 3 = Ok s' /\ procs s' !! 301 = Some y /\ state y = PROCESS_READY.
Proof.
  set (s := demo 1 waiting_parent). assert (R : reachable s) by run_demo.
  assert (Hon : running_on s 0) by (apply running_on_b_ok; vm_compute; reflexivity).
  destruct Hon as (Hmy & x & Hr).
  assert (Ex : x = proc_at s 303).
  { destruct Hr as (_ & Hx & _). replace (arr_at (current s) 0) with 303 in Hx by (vm_compute; reflexivity).
    unfold proc_at. rewrite Hx. reflexivity. }
  destruct (exit_wakes_parent s 0 _ x 3 R Hmy Hr) as (s' & G & H1 & _ & _ & _ & Hw).
  replace (parent_of s x) with 301 in Hw by (rewrite Ex; vm_compute; reflexivity).
  destruct (Hw (proc_at s 301)) as (y & Hy & Es).
  - apply proc_at_ok. vm_compute. reflexivity.
  - rewrite Ex. vm_compute. split; [reflexivity|]. split; [discriminate|left; reflexivity].
  - exists s', y. auto.
Defined.

(** 303 opens a file and is killed by a signal; its parent collects it. *)
Definition killed_open : list op :=
  waiting_parent ++ [OFd 0 (FOpen 77 5 6 false); OExit 0 137; OSchedule 0; OWaitResume 0; OWait 0 (-1) 0].

(** A process that a signal kills leaves its files open for ever: the exit does not
    close them, and collecting the process frees its descriptors without dropping
    their references. *)
Theorem killed_process_leaks_files :
  exists s E k, reached s E /\ kfiles s !! 77 = Some k /\ f_refcount k = 1 /\
    (forall p x, procs s !! p = Some x -> 77 ∉ files x) /\ E 77 = 1.
Proof.
  assert (R : reachable (demo 1 killed_open)) by run_demo. destruct R as [E R].
  assert (Hk : kfiles (demo 1 killed_open) !! 77 = Some (KFile 5 6 1)) by (vm_compute; reflexivity).
  exists (demo 1 killed_open), E, (KFile 5 6 1). split; [exact R|]. split; [exact Hk|]. split; [reflexivity|].
  assert (Ha : all_procs (demo 1 killed_open) (fun x => negb (bool_decide (77 ∈ files x))) = true) by (vm_compute; reflexivity).
  split.
  - intros p x Hx Hin. pose proof (all_procs_ok _ _ Ha p x Hx) as Hn. simpl in Hn.
    rewrite bool_decide_eq_true_2 in Hn by auto. discriminate.
  - destruct (sys_files _ _ (reached_sys _ _ R) 77) as [_ Hf]; [lia|]. rewrite Hk in Hf. destruct Hf as [Hf _].
    replace (nrefs (tables (demo 1 killed_open)) 77) with 0 in Hf by (vm_compute; reflexivity). simpl in Hf. lia.
Qed.

(** C29: One turn of [waitpid] looks at the processes in the order of the process list;
    the first child that is a zombie and is waited for decides.  If no processor runs
    it any more, its PID and status are returned and it is taken out of the system (but
    for the process of PID 0); if one still does, the result is 0 with WNOHANG and
    another try after a tick without.  When there is none, the result is -ECHILD if the
    caller has no child at all, 0 with WNOHANG, and else the caller is BLOCKED, marked
    as waiting for that PID. *)
Theorem waitpid_turn_exact s my p x want options :
  reachable s -> 0 <= my < SCHED_MAX_CPUS -> runs s my p x ->
  exists r s' G, process_waitpid_turn my s want options = Ok (r, s') /\ reachable s' /\
    ring (pnext s) (pprev s) (ready_queue_head s) G /\
    turn_result s s' (ready_queue_head s :: G) p x want options r.
Proof.
  intros R Hmy Hr. destruct (reachable_sys s R) as [E S].
  destruct (process_waitpid_turn_ok s E my p x want options S Hmy Hr) as (r & s' & G & H1 & _ & _ & H2 & H3).
  exists r, s', G. split; [exact H1|]. split; [|auto]. apply (reachable_step s (OWait my want options)); auto.
  - split; [exact Hmy|]. exists x. pose proof Hr as (-> & _). exact Hr.
  - cbn [run]. rewrite H1. reflexivity.
Qed.

(** 303 has exited and 301 runs again. *)
Definition child_exited : list op := waiting_parent ++ [OExit 0 7; OSchedule 0; OWaitResume 0].

Lemma waitpid_turn_exact_witness :
  exists r s' G, process_waitpid_turn 0 (demo 1 child_exited) (-1) 0 = Ok (r, s') /\
    turn_result (demo 1 child_exited) s' (100 :: G) 301 (proc_at (demo 1 child_exited) 301) (-1) 0 r /\
    r = WReturn 3 (Some 7) /\ procs s' !! 303 = None.
Proof.
  set (s := demo 1 child_exited). assert (R : reachable s) by run_demo.
  assert (Hon : running_on s 0) by (apply running_on_b_ok; vm_compute; reflexivity).
  destruct Hon as (Hmy & x & Hr). replace (arr_at (current s) 0) with 301 in Hr by (vm_compute; reflexivity).
  assert (Ex : proc_at s 301 = x) by (destruct Hr as (_ & Hx & _); unfold proc_at; rewrite Hx; reflexivity).
  destruct (waitpid_turn_exact s 0 301 x (-1) 0 R Hmy Hr) as (r & s' & G & H1 & _ & _ & H2). exists r, s', G.
  split; [exact H1|]. split; [rewrite Ex; exact H2|].
  assert (H3 : match process_waitpid_turn 0 s (-1) 0 with
    | Ok (r, s') => r = WReturn 3 (Some 7) /\ procs s' !! 303 = None | _ => False end) by (vm_compute; auto).
  rewrite H1 in H3. exact H3.
Defined.

(** ** Load balancing *)

(** Process 303 marks itself BLOCKED; before it has left processor 0 the timer
    interrupt wakes 301 and processor 1 wakes 303. *)
Definition racing : list op :=
  [OApInit 1 200 8192 []; OCreate 0 301 8192 []; OCreate 0 302 8192 []; OCreate 0 303 8192 []; OSchedule 0; OSchedule 1;
   OSleep 0 5 1; OSchedule 0; OBlock 1; OSchedule 1; OBlock 0; OTick 0 6; OWake 1 303].

(** Load balancing can make one process run on two processors: it does not skip a
    process that is still current on its processor, so a process that was woken
    before it was switched out is moved to another processor, which runs it while the
    first one still does. *)
Theorem balance_runs_process_twice :
  exists s0 s1 s2 x, reachable s0 /\ sched_load_balance 0 s0 = Ok s1 /\ schedules 3 s1 1 = Ok s2 /\
    arr_at (current s2) 0 = 303 /\ arr_at (current s2) 1 = 303 /\
    procs s2 !! 303 = Some x /\ state x = PROCESS_RUNNING.
Proof.
  exists (demo 2 racing). assert (R : reachable (demo 2 racing)) by run_demo.
  assert (H : match sched_load_balance 0 (demo 2 racing) with
    | Ok s1 => match schedules 3 s1 1 with
      | Ok s2 => (arr_at (current s2) 0, arr_at (current s2) 1, state <$> procs s2 !! 303) = (303, 303, Some PROCESS_RUNNING)
      | _ => False end
    | _ => False end) by (vm_compute; reflexivity).
  destruct (sched_load_balance 0 (demo 2 racing)) as [s1| |] eqn:E1; try contradiction.
  destruct (schedules 3 s1 1) as [s2| |] eqn:E2; try contradiction. injection H as H1 H2 H3.
  destruct (procs s2 !! 303) as [x|] eqn:E3; [|discriminate]. injection H3 as H3.
  exists s1, s2, x. auto 10.
Qed.

(** ** Credentials *)

Lemma no_privilege_escalation_witness :
  euid (fold_left (fun x o => snd (cred_apply o x)) [Setuid 0; Seteuid 1002; Setreuid 1001 1000]
    (idle_proc 0 0 0 0 0 [] |> set_uid 1000 |> set_euid 1001 |> set_suid 1002)) <> 0.
Proof. apply (no_privilege_escalation [Setuid 0; Seteuid 1002; Setreuid 1001 1000]). vm_compute. set_solver. Defined.

(** 301 runs with file 77, of node 5, at descriptor 3, marked close-on-exec. *)
Definition opened : list op := two_procs ++ [OFd 0 (FOpen 77 5 6 true)].

Lemma opened_runs : reachable (demo 1 opened) /\ runs (demo 1 opened) 0 301 (proc_at (demo 1 opened) 301).
Proof.
  split; [run_demo|]. assert (Hon : running_on (demo 1 opened) 0) by (apply running_on_b_ok; vm_compute; reflexivity).
  destruct Hon as (_ & x & Hr). replace (arr_at (current (demo 1 opened)) 0) with 301 in Hr by (vm_compute; reflexivity).
  pose proof Hr as (_ & Hx & _). replace (proc_at (demo 1 opened) 301) with x by (unfold proc_at; rewrite Hx; reflexivity).
  exact Hr.
Qed.

(** [open] gives a new file the lowest free descriptor from 3 on, with one
    reference, and the rest of the table stays as it was; when none is free it
    returns -EMFILE and neither the table nor the open files change. *)
Theorem open_lowest s my p x f node root cl :
  reachable s -> 0 <= my < SCHED_MAX_CPUS -> runs s my p x -> f <> 0 -> kfiles s !! f = None ->
  (exists fd s' y, lowest_free (files x) 3 fd /\ open_fd my s f node root cl = Ok (fd, s') /\
     procs s' = <[p := y]> (procs s) /\ files y = <[Z.to_nat fd := f]> (files x) /\
     kfiles s' = <[f := KFile node root 1]> (kfiles s)) \/
  (forall j, 3 <= j < PROCESS_MAX_FILES -> at_fd (files x) j <> 0) /\
    exists s', open_fd my s f node root cl = Ok (- EMFILE, s') /\ procs s' = procs s /\ kfiles s' = kfiles s.
Proof.
  intros R Hmy Hr Hf Hn. pose proof Hr as (Hc & Hx & _).
  destruct (reachable_sys s R) as [E S]. destruct (open_fd_sys S my p x Hmy Hc Hx f node root cl Hf Hn) as [(fd & lg & Hl & Ho & _)|[Hfull Ho]].
  - left. eexists fd, _, _. split; [exact Hl|]. split; [exact Ho|]. split; [reflexivity|]. split; reflexivity.
  - right. split; [exact Hfull|]. eexists. split; [exact Ho|]. split; reflexivity.
Qed.

Lemma open_lowest_witness :
  exists fd s' y, lowest_free (files (proc_at (demo 1 opened) 301)) 3 fd /\
    open_fd 0 (demo 1 opened) 78 5 6 false = Ok (fd, s') /\ procs s' = <[301 := y]> (procs (demo 1 opened)).
Proof.
  destruct opened_runs as [R Hr].
  destruct (open_lowest _ 0 301 (proc_at (demo 1 opened) 301) 78 5 6 false R) as [(fd & s' & y & H1 & H2 & H3 & _)|[Hfull _]].
  - unfold SCHED_MAX_CPUS. lia.
  - exact Hr.
  - lia.
  - vm_compute. reflexivity.
  - exists fd, s', y. auto.
  - exfalso. apply (Hfull 4); [unfold PROCESS_MAX_FILES; lia|]. vm_compute. reflexivity.
Defined.

(** [dup] gives the lowest free descriptor, which refers to the same open file
    with one more reference, and closing it restores the table and the open files
    exactly. *)
Theorem dup_close_roundtrip s my p x oldfd :
  reachable s -> 0 <= my < SCHED_MAX_CPUS -> runs s my p x -> open_at x oldfd = true -> refs_left s ->
  (exists j, 0 <= j < PROCESS_MAX_FILES /\ at_fd (files x) j = 0) ->
  exists fd s1 s2, syscall_dup_impl my s oldfd = Ok (fd, s1) /\ lowest_free (files x) 0 fd /\
    fd_get my s1 fd = Ok (at_fd (files x) oldfd) /\ fd_get my s1 oldfd = Ok (at_fd (files x) oldfd) /\
    fd_close my s1 fd = Ok (0, s2) /\ procs s2 = procs s /\ kfiles s2 = kfiles s.
Proof.
  intros R Hmy Hr Ho Hrefs (j & Hj & Hz). pose proof Hr as (Hc & Hx & Hst & _). destruct (reachable_sys s R) as [E S].
  assert (Hroom : can_share (s := s) x oldfd).
  { intros k Hk. specialize (Hrefs _ k Hk). unfold PROCESS_MAX_FILES in Hrefs. lia. }
  pose proof (dup_sys S my p x Hmy Hc Hx oldfd Hroom) as Hd. cbv zeta in Hd. rewrite Ho in Hd.
  destruct Hd as [(fd & Hlow & Hd & Hf)|[Hfull _]]; [|exfalso; exact (Hfull j Hj Hz)].
  destruct (open_at_spec x oldfd) as [[Hvo Hfo]|]; [|discriminate]. set (f := at_fd (files x) oldfd) in *.
  pose proof (sys_len _ _ S p x Hx) as [Hl _]. pose proof Hlow as (Hrg & Hz0 & _). assert (Hv : valid fd) by (split; lia).
  set (l := <[Z.to_nat fd := f]> (files x)) in *. assert (L : length l = length (files x)) by apply length_insert.
  set (s1 := with_fds s p x l (fd_flags x) (shared (s := s) f) (log s)) in *.
  assert (S1 : sys_ok s1 E) by (apply (sys_fds S p x Hx); auto; congruence).
  set (y := fds l (fd_flags x) x). assert (Hy : procs s1 !! p = Some y) by apply lookup_insert_eq.
  assert (Hat : forall i, 0 <= i -> at_fd l i = if i =? fd then f else at_fd (files x) i)
    by (intros i Hi; apply at_fd_insert; auto).
  assert (Hg : forall i, valid i -> at_fd l i <> 0 -> fd_get my s1 i = Ok (at_fd l i)).
  { intros i Hi Hni. rewrite (fd_get_open S1 my p y Hmy Hc Hy). destruct (open_at_spec y i) as [_|Hno]; [reflexivity|exfalso; auto]. }
  assert (Hfd : at_fd l fd = f) by (rewrite Hat, Z.eqb_refl by lia; reflexivity).
  assert (Hold : at_fd l oldfd = f) by (rewrite Hat by (apply Hvo); destruct (_ =? _); reflexivity).
  destruct (fd_close_sys S1 my p y Hmy Hc Hy fd) as (lg & Hcl & _).
  destruct (open_at_spec y fd) as [_|Hno]; [|exfalso; apply Hno; split; [exact Hv|change (at_fd l fd <> 0); congruence]].
  change (files y) with l in Hcl. change (fd_flags y) with (fd_flags x) in Hcl. rewrite Hfd in Hcl.
  eexists fd, s1, _. split; [exact Hd|]. split; [exact Hlow|]. split; [rewrite Hg; congruence|]. split; [rewrite Hg; congruence|].
  split; [exact Hcl|]. destruct (file_of S p x Hx oldfd Hvo Hfo) as (k & Hk & Hkr). fold f in Hk. split.
  - change (<[p := fds (<[Z.to_nat fd := 0]> l) (fd_flags x) y]> (<[p := y]> (procs s)) = procs s).
    rewrite insert_insert_eq. apply insert_id. rewrite Hx. f_equal. unfold l. rewrite list_insert_insert_eq.
    rewrite list_insert_id by (rewrite <- Hz0; apply at_fd_lookup; auto). destruct x; reflexivity.
  - change (released (shared (s := s) f) f = kfiles s). rewrite (shared_eq f k Hk). unfold released.
    rewrite lookup_insert_eq. simpl f_refcount. destruct (Z.eqb_spec (f_refcount k + 1) 1); [lia|]. apply bump_back. exact Hk.
Qed.

Lemma dup_close_roundtrip_witness :
  exists fd s1 s2, syscall_dup_impl 0 (demo 1 opened) 3 = Ok (fd, s1) /\ fd_close 0 s1 fd = Ok (0, s2) /\
    procs s2 = procs (demo 1 opened) /\ kfiles s2 = kfiles (demo 1 opened).
Proof.
  destruct opened_runs as [R Hr].
  destruct (dup_close_roundtrip _ 0 301 (proc_at (demo 1 opened) 301) 3 R) as (fd & s1 & s2 & H1 & _ & _ & _ & H2 & H3).
  - unfold SCHED_MAX_CPUS. lia.
  - exact Hr.
  - vm_compute. reflexivity.
  - intros f k Hk. replace (kfiles (demo 1 opened)) with ({[77 := KFile 5 6 1]} : gmap Z kfile) in Hk by (vm_compute; reflexivity).
    apply lookup_singleton_Some in Hk as [_ <-]. vm_compute. reflexivity.
  - exists 0. split; [unfold PROCESS_MAX_FILES; lia|vm_compute; reflexivity].
  - exists fd, s1, s2. auto.
Defined.

(** [execve] closes exactly the descriptors marked close-on-exec, and clears
    their marks; all others stay open, on the same files. *)
Theorem exec_closes_marked s my p x :
  reachable s -> 0 <= my < SCHED_MAX_CPUS -> runs s my p x ->
  exists s' y, exec_close (Z.to_nat PROCESS_MAX_FILES) my s 0 = Ok s' /\ procs s' = <[p := y]> (procs s) /\
    forall fd, valid fd ->
      at_fd (files y) fd = (if flagged x fd then 0 else at_fd (files x) fd) /\
      at_fd (fd_flags y) fd = (if flagged x fd then 0 else at_fd (fd_flags x) fd).
Proof.
  intros R Hmy Hr. pose proof Hr as (Hc & Hx & Hst & _). destruct (reachable_sys s R) as [E S].
  destruct (exec_close_sys (Z.to_nat PROCESS_MAX_FILES) s E my p x 0 S Hmy Hc Hx ltac:(lia) eq_refl)
    as (l & fl & kf & lg & -> & Hf & L1 & L2 & Hat).
  eexists _, _. split; [reflexivity|]. split; [reflexivity|].
  intros fd Hv. destruct (Hat fd Hv) as [A1 A2]. destruct (Z.leb_spec 0 fd); [|destruct Hv; lia]. auto.
Qed.

Lemma exec_closes_marked_witness :
  exists s' y, exec_close (Z.to_nat PROCESS_MAX_FILES) 0 (demo 1 opened) 0 = Ok s' /\
    procs s' = <[301 := y]> (procs (demo 1 opened)) /\ at_fd (files y) 3 = 0.
Proof.
  destruct opened_runs as [R Hr].
  destruct (exec_closes_marked _ 0 301 (proc_at (demo 1 opened) 301) R) as (s' & y & H1 & H2 & H3).
  - unfold SCHED_MAX_CPUS. lia.
  - exact Hr.
  - exists s', y. split; [exact H1|]. split; [exact H2|].
    destruct (H3 3) as [H4 _]; [unfold valid, PROCESS_MAX_FILES; lia|]. rewrite H4. vm_compute. reflexivity.
Defined.

(** [fcntl(fd, F_DUPFD_CLOEXEC, arg)] with a negative [arg] reads the descriptor
    table of the process before its start; the other calls check their descriptors. *)
Theorem dupfd_negative_out_of_bounds s my p x fd arg :
  reachable s -> 0 <= my < SCHED_MAX_CPUS -> runs s my p x -> open_at x fd = true -> s32 arg < 0 ->
  fcntl_dupfd_cloexec my s fd arg = Ub.
Proof.
  intros R Hmy (Hc & Hx & _) Ho Ha. destruct (reachable_sys s R) as [E S]. exact (fcntl_dupfd_negative S my p x Hmy Hc Hx fd arg Ho Ha).
Qed.

Lemma dupfd_negative_out_of_bounds_witness : fcntl_dupfd_cloexec 0 (demo 1 opened) 3 4294967295 = Ub.
Proof.
  destruct opened_runs as [R Hr].
  apply (dupfd_negative_out_of_bounds _ 0 301 (proc_at (demo 1 opened) 301) 3 4294967295 R).
  - unfold SCHED_MAX_CPUS. lia.
  - exact Hr.
  - vm_compute. reflexivity.
  - vm_compute. reflexivity.
Defined.

(** The close-on-exec mark outlives its descriptor: after [close], a file opened
    without O_CLOEXEC that gets the same descriptor is marked close-on-exec. *)
Theorem mark_survives_close s my p x fd f node root :
  reachable s -> 0 <= my < SCHED_MAX_CPUS -> runs s my p x -> open_at x fd = true -> flagged x fd = true ->
  3 <= fd -> (forall j, 3 <= j < fd -> at_fd (files x) j <> 0) ->
  (forall kf, kf = released (kfiles s) (at_fd (files x) fd) -> f <> 0 /\ kf !! f = None) ->
  exists s1 s2 y, fd_close my s fd = Ok (0, s1) /\ open_fd my s1 f node root false = Ok (fd, s2) /\
    procs s2 !! p = Some y /\ at_fd (files y) fd = f /\ flagged y fd = true.
Proof.
  intros R Hmy Hr Ho Hfl H3 Hlow Hnew. pose proof Hr as (Hc & Hx & Hst & _). destruct (reachable_sys s R) as [E S].
  destruct (fd_close_sys S my p x Hmy Hc Hx fd) as (lg & Hcl & Hf & L). rewrite Ho in *.
  destruct (open_at_spec x fd) as [[Hv Hof]|]; [|discriminate]. destruct (Hnew _ eq_refl) as [Hf0 Hn].
  set (l := <[Z.to_nat fd := 0]> (files x)) in *. set (s1 := with_fds _ _ _ _ _ _ _) in *.
  assert (S1 : sys_ok s1 E) by (apply (sys_fds S p x Hx); auto).
  set (y := fds l (fd_flags x) x). assert (Hy : procs s1 !! p = Some y) by apply lookup_insert_eq.
  pose proof (sys_len _ _ S p x Hx) as [Hl _].
  assert (Hat : forall j, 0 <= j -> at_fd l j = if j =? fd then 0 else at_fd (files x) j) by (intros; apply at_fd_insert; auto).
  assert (Hfree : lowest_free l 3 fd).
  { split; [destruct Hv; lia|]. split; [rewrite Hat, Z.eqb_refl by lia; reflexivity|]. intros j Hj. rewrite Hat by lia.
    destruct (Z.eqb_spec j fd); [lia|apply Hlow; lia]. }
  destruct (open_fd_sys S1 my p y Hmy Hc Hy f node root false Hf0 Hn) as [(fd' & lg' & (Hr1 & Hz1 & Hl1) & Hop & _)|[Hfull _]].
  2: { exfalso. destruct Hfree as (Hr2 & Hz2 & _). exact (Hfull fd Hr2 Hz2). }
  assert (fd' = fd) as ->.
  { destruct Hfree as (Hr2 & Hz2 & Hl2). change (files y) with l in *.
    destruct (Z.lt_trichotomy fd' fd) as [Hlt|[?|Hgt]]; [exfalso; apply (Hl2 fd'); auto; lia|auto|exfalso; apply (Hl1 fd); auto; lia]. }
  eexists s1, _, _. split; [exact Hcl|]. split; [exact Hop|]. split; [apply lookup_insert_eq|]. split; [|exact Hfl].
  change (at_fd (<[Z.to_nat fd := f]> l) fd = f). rewrite at_fd_insert, Z.eqb_refl by (auto; try lia; congruence). reflexivity.
Qed.

Lemma mark_survives_close_witness :
  exists s1 s2 y, fd_close 0 (demo 1 opened) 3 = Ok (0, s1) /\ open_fd 0 s1 78 9 0 false = Ok (3, s2) /\
    procs s2 !! 301 = Some y /\ at_fd (files y) 3 = 78 /\ flagged y 3 = true.
Proof.
  destruct opened_runs as [R Hr].
  apply (mark_survives_close _ 0 301 (proc_at (demo 1 opened) 301) 3 78 9 0 R).
  - unfold SCHED_MAX_CPUS. lia.
  - exact Hr.
  - vm_compute. reflexivity.
  - vm_compute. reflexivity.
  - lia.
  - lia.
  - intros kf ->. split; [lia|vm_compute; reflexivity].
Defined.
