(* ===== verification/Sync.v ===== *)
(** Semaphores, mutexes, mailboxes and condition variables of the kernel:
    [src/src/kernel/sync.c].  A call that blocks is modelled as the part before
    [schedule] and the part after it; the section under a lock is one step, together
    with the hand-over of the process it wakes to [sched_enqueue_ready]. *)

From S2P Require Import Prelude Ring Runq SortedQ SchedState Sched.

Definition KSEM_MAX_WAITERS : Z := 64.
Definition KCOND_MAX_WAITERS : Z := 64.
Definition KMBOX_MAX_MSGS : Z := 32.
Definition TIMER_MS_PER_TICK : Z := 10.

(** ** Waiting lists *)

(** The array of waiters of a semaphore or a condition variable. *)
Record wlist : Type := WList { w_slots : array Z; w_n : Z }.

Definition wlist_init (n : Z) : wlist := WList (arr_new n 0) 0.

(** [for (j = i; j + 1 < n; j++) w[j] = w[j + 1]] *)
Fixpoint shift_down (fuel : nat) (a : array Z) (j n : Z) : res (array Z) :=
  match fuel with
  | O => NoFuel
  | S f =>
      if u32 (j + 1) <? n then
        v ← arr_get a (u32 (j + 1));
        a ← arr_set a j v;
        shift_down f a (u32 (j + 1)) n
      else mret a
  end.

Definition remove_waiter (w : wlist) (i : Z) : res wlist :=
  a ← shift_down (S (Z.to_nat (w_n w))) (w_slots w) i (w_n w);
  let n := u32 (w_n w - 1) in
  a ← arr_set a n 0;
  mret (WList a n).

Definition add_waiter (w : wlist) (p : Z) : res wlist :=
  a ← arr_set (w_slots w) (w_n w) p;
  mret (WList a (u32 (w_n w + 1))).

(** The first slot from [i] on that holds [p]. *)
Fixpoint find_waiter (fuel : nat) (w : wlist) (i p : Z) : res (option Z) :=
  match fuel with
  | O => NoFuel
  | S f =>
      if i <? w_n w then
        q ← arr_get (w_slots w) i;
        if q =? p then mret (Some i) else find_waiter f w (u32 (i + 1)) p
      else mret None
  end.

(** Whether a waiter still waits. *)
Definition still_waits (s : sched) (p : Z) : res bool :=
  if p =? 0 then mret false
  else x ← getp s p; mret (is_state (state x) PROCESS_BLOCKED || is_state (state x) PROCESS_SLEEPING).

(** The first waiter from slot [i] on that still waits. *)
Fixpoint find_sleeper (fuel : nat) (s : sched) (w : wlist) (i : Z) : res (option (Z * Z)) :=
  match fuel with
  | O => NoFuel
  | S f =>
      if i <? w_n w then
        p ← arr_get (w_slots w) i;
        b ← still_waits s p;
        if (b : bool) then mret (Some (i, p)) else find_sleeper f s w (u32 (i + 1))
      else mret None
  end.

(** The waiter is made ready; the caller then hands it to the scheduler. *)
Definition make_ready (x : proc) : proc := set_wake_at_tick 0 (set_state PROCESS_READY x).

Definition wake_waiter (my : Z) (s : sched) (p : Z) : res sched :=
  s ← updp s p make_ready; sched_enqueue_ready my s p.

(** Marks the current process as waiting, with a deadline when there is a timeout. *)
Definition begin_wait (s : sched) (p now timeout_ms : Z) : res sched :=
  if 0 <? timeout_ms then
    let ticks := u32 (timeout_ms + TIMER_MS_PER_TICK - 1) / TIMER_MS_PER_TICK in
    updp s p (fun x => set_state PROCESS_SLEEPING (set_wake_at_tick (u32 (now + ticks)) x))
  else updp s p (set_state PROCESS_BLOCKED).

(** Takes the process off the list if it is still on it. *)
Definition leave_list (w : wlist) (p : Z) : res (bool * wlist) :=
  o ← find_waiter (S (Z.to_nat (w_n w))) w 0 p;
  match o with
  | Some i => w ← remove_waiter w i; mret (true, w)
  | None => mret (false, w)
  end.

(** ** Semaphores *)

Record ksem : Type := KSem { k_count : Z; k_wait : wlist }.

Definition ksem_init (initial_count : Z) : ksem := KSem initial_count (wlist_init KSEM_MAX_WAITERS).

(** How far [ksem_wait_timeout] gets before it would call [schedule]. *)
Inductive wait_start : Type :=
| WGot
| WRefused
| WBlocked.

Definition ksem_wait_begin (my : Z) (s : sched) (k : ksem) (now timeout_ms : Z) : res (wait_start * sched * ksem) :=
  if 0 <? k_count k then mret (WGot, s, KSem (s32 (k_count k - 1)) (k_wait k)) else
  c ← cur s my;
  if (c =? 0) || (KSEM_MAX_WAITERS <=? w_n (k_wait k)) then mret (WRefused, s, k) else
  w ← add_waiter (k_wait k) c;
  s ← begin_wait s c now timeout_ms;
  mret (WBlocked, s, KSem (k_count k) w).

(** After [schedule] has returned: the value of the call. *)
Definition ksem_wait_end (my : Z) (s : sched) (k : ksem) (timeout_ms : Z) : res (Z * ksem) :=
  c ← cur s my;
  r ← leave_list (k_wait k) c;
  let '(found, w) := r in
  if negb found then mret (0, KSem (k_count k) w) else
  x ← getp s c;
  mret (if (0 <? timeout_ms) && is_state (state x) PROCESS_READY then -1 else 1, KSem (k_count k) w).

Definition ksem_signal (my : Z) (s : sched) (k : ksem) : res (sched * ksem) :=
  o ← find_sleeper (S (Z.to_nat (w_n (k_wait k)))) s (k_wait k) 0;
  match o with
  | Some (i, p) =>
      w ← remove_waiter (k_wait k) i;
      s ← wake_waiter my s p;
      mret (s, KSem (k_count k) w)
  | None => mret (s, KSem (s32 (k_count k + 1)) (k_wait k))
  end.

(** ** Mutexes *)

Definition kmutex_init : ksem := ksem_init 1.
Definition kmutex_lock_begin (my : Z) (s : sched) (m : ksem) : res (wait_start * sched * ksem) := ksem_wait_begin my s m 0 0.
Definition kmutex_unlock (my : Z) (s : sched) (m : ksem) : res (sched * ksem) := ksem_signal my s m.

(** ** Mailboxes *)

Record kmbox : Type := KMbox {
  mb_msgs : array Z;
  mb_head : Z;
  mb_tail : Z;
  mb_count : Z;
  mb_capacity : Z;
  not_empty : ksem;
  not_full : ksem
}.

Definition set_queue (a : array Z) (h t c : Z) (m : kmbox) : kmbox :=
  KMbox a h t c (mb_capacity m) (not_empty m) (not_full m).
Definition set_not_empty (k : ksem) (m : kmbox) : kmbox :=
  KMbox (mb_msgs m) (mb_head m) (mb_tail m) (mb_count m) (mb_capacity m) k (not_full m).
Definition set_not_full (k : ksem) (m : kmbox) : kmbox :=
  KMbox (mb_msgs m) (mb_head m) (mb_tail m) (mb_count m) (mb_capacity m) (not_empty m) k.

Definition kmbox_init (size : Z) : kmbox :=
  let size := if (size =? 0) || (KMBOX_MAX_MSGS <? size) then KMBOX_MAX_MSGS else size in
  KMbox (arr_new KMBOX_MAX_MSGS 0) 0 0 0 size (ksem_init 0) (ksem_init (s32 size)).

Definition kmbox_free (m : kmbox) : kmbox := set_queue (mb_msgs m) 0 0 0 m.

(** The section of [kmbox_post] and [kmbox_trypost] under the lock, and the signal. *)
Definition kmbox_put (my : Z) (s : sched) (m : kmbox) (msg : Z) : res (sched * kmbox) :=
  a ← arr_set (mb_msgs m) (mb_tail m) msg;
  let m := set_queue a (mb_head m) (u32 (mb_tail m + 1) mod mb_capacity m) (u32 (mb_count m + 1)) m in
  r ← ksem_signal my s (not_empty m);
  let '(s, k) := r in mret (s, set_not_empty k m).

(** The section of [kmbox_fetch] and [kmbox_tryfetch] under the lock, and the signal. *)
Definition kmbox_take (my : Z) (s : sched) (m : kmbox) : res (Z * sched * kmbox) :=
  msg ← arr_get (mb_msgs m) (mb_head m);
  let m := set_queue (mb_msgs m) (u32 (mb_head m + 1) mod mb_capacity m) (mb_tail m) (u32 (mb_count m - 1)) m in
  r ← ksem_signal my s (not_full m);
  let '(s, k) := r in mret (msg, s, set_not_full k m).

Definition kmbox_post_begin (my : Z) (s : sched) (m : kmbox) : res (wait_start * sched * kmbox) :=
  r ← ksem_wait_begin my s (not_full m) 0 0;
  let '(t, s, k) := r in mret (t, s, set_not_full k m).

Definition kmbox_fetch_begin (my : Z) (s : sched) (m : kmbox) (now timeout_ms : Z) : res (wait_start * sched * kmbox) :=
  r ← ksem_wait_begin my s (not_empty m) now timeout_ms;
  let '(t, s, k) := r in mret (t, s, set_not_empty k m).

Definition kmbox_trypost (my : Z) (s : sched) (m : kmbox) (msg : Z) : res (Z * sched * kmbox) :=
  if mb_capacity m <=? mb_count m then mret (-1, s, m)
  else r ← kmbox_put my s m msg; let '(s, m) := r in mret (0, s, m).

Definition kmbox_tryfetch (my : Z) (s : sched) (m : kmbox) : res (Z * Z * sched * kmbox) :=
  if mb_count m =? 0 then mret (-1, 0, s, m)
  else r ← kmbox_take my s m; let '(msg, s, m) := r in mret (0, msg, s, m).

(** ** Condition variables *)

Definition kcond_init : wlist := wlist_init KCOND_MAX_WAITERS.

(** Up to the release of the mutex; [false] when the call returns 1 at once. *)
Definition kcond_wait_begin (my : Z) (s : sched) (cv : wlist) (now timeout_ms : Z) : res (bool * sched * wlist) :=
  c ← cur s my;
  if (c =? 0) || (KCOND_MAX_WAITERS <=? w_n cv) then mret (false, s, cv) else
  w ← add_waiter cv c;
  s ← begin_wait s c now timeout_ms;
  mret (true, s, w).

(** After the mutex has been taken again: the value of the call. *)
Definition kcond_wait_end (my : Z) (s : sched) (cv : wlist) : res (Z * wlist) :=
  c ← cur s my;
  r ← leave_list cv c;
  let '(found, w) := r in mret (if (found : bool) then 1 else 0, w).

Definition kcond_signal (my : Z) (s : sched) (cv : wlist) : res (sched * wlist) :=
  o ← find_sleeper (S (Z.to_nat (w_n cv))) s cv 0;
  match o with
  | Some (i, p) => w ← remove_waiter cv i; s ← wake_waiter my s p; mret (s, w)
  | None => mret (s, cv)
  end.

(** The loop of [kcond_broadcast] under the lock: the waiters made ready. *)
Fixpoint ready_all (fuel : nat) (s : sched) (a : array Z) (i n : Z) : res (list Z * sched * array Z) :=
  match fuel with
  | O => NoFuel
  | S f =>
      if i <? n then
        p ← arr_get a i;
        b ← still_waits s p;
        if (b : bool) then
          s ← updp s p make_ready;
          a ← arr_set a i 0;
          r ← ready_all f s a (u32 (i + 1)) n;
          let '(l, s, a) := r in mret (p :: l, s, a)
        else ready_all f s a (u32 (i + 1)) n
      else mret ([], s, a)
  end.

Fixpoint enqueue_all (my : Z) (s : sched) (l : list Z) : res sched :=
  match l with
  | [] => mret s
  | p :: l => s ← sched_enqueue_ready my s p; enqueue_all my s l
  end.

Definition kcond_broadcast (my : Z) (s : sched) (cv : wlist) : res (sched * wlist) :=
  r ← ready_all (S (Z.to_nat (w_n cv))) s (w_slots cv) 0 (w_n cv);
  let '(l, s, a) := r in
  s ← enqueue_all my s l;
  mret (s, WList a 0).
