(* ===== verification/SyncSpec.v ===== *)
(** What the operations of [Sync] do to a waiting list, and the accounting of the
    permits of a semaphore: the permits in the counter, those handed to a waiter that
    has not returned yet and those taken add up to the initial count. *)

From S2P Require Import Prelude Ring Runq SortedQ SchedState Sched SchedInv SchedSpec SchedOps Sync.

(** ** Waiting lists *)

Definition waiters (w : wlist) : list Z := arr_at (w_slots w) <$> seqZ 0 (w_n w).

Record wl_ok (w : wlist) (l : list Z) : Prop := WlOk {
  wl_len : arr_len (w_slots w) = 64;
  wl_n : w_n w = Z.of_nat (length l);
  wl_at : forall i p, l !! i = Some p -> arr_at (w_slots w) (Z.of_nat i) = p;
  wl_max : Z.of_nat (length l) <= 64
}.

Lemma wl_ok_waiters w l : wl_ok w l -> waiters w = l.
Proof.
  intros H. unfold waiters. rewrite (wl_n _ _ H). apply list_eq. intros i. rewrite list_lookup_fmap.
  destruct (decide (i < length l)%nat) as [Hi|Hi].
  - rewrite lookup_seqZ_lt by lia. destruct (lookup_lt_is_Some_2 l i Hi) as [p Hp]. simpl.
    rewrite (wl_at _ _ H i p Hp : arr_at _ (0 + Z.of_nat i) = p). auto.
  - rewrite lookup_seqZ_ge by lia. symmetry. apply lookup_ge_None. lia.
Qed.

Lemma wlist_init_ok : wl_ok (wlist_init 64) [].
Proof. split; simpl; auto; try lia. intros i p Hp. rewrite lookup_nil in Hp. discriminate. Qed.

Lemma add_waiter_ok w l p :
  wl_ok w l -> Z.of_nat (length l) < 64 -> exists w', add_waiter w p = Ok w' /\ wl_ok w' (l ++ [p]).
Proof.
  intros [H1 H2 H3 H4] Hl. unfold add_waiter. rewrite arr_set_ok, res_bind_ok by lia. eexists. split; [reflexivity|].
  split; simpl; rewrite ?length_app, ?arr_len_put; simpl; try lia; [rewrite u32_small; lia|].
  intros i q Hq. rewrite arr_at_put. apply lookup_snoc_Some in Hq as [[Hi Hq]|[-> <-]]; zdecide; auto.
Qed.

Lemma shift_down_ok n fuel : forall a j,
  0 <= j < n -> n <= arr_len a -> arr_len a = 64 -> n - j <= Z.of_nat fuel ->
  exists a', shift_down fuel a j n = Ok a' /\ arr_len a' = 64 /\
    forall k, arr_at a' k = if (j <=? k) && (k <? n - 1) then arr_at a (k + 1) else arr_at a k.
Proof.
  induction fuel as [|fuel IH]; intros a j Hj Hn Ha Hf; [lia|]. simpl. rewrite (u32_small (j + 1)) by lia.
  destruct (Z.ltb_spec (j + 1) n) as [Hlt|Hge].
  - rewrite arr_get_ok, res_bind_ok, arr_set_ok, res_bind_ok by lia.
    destruct (IH (arr_put a j (arr_at a (j + 1))) (j + 1)) as (a' & -> & Hl & Hk); rewrite ?arr_len_put; try lia.
    exists a'. split; [auto|]. split; [auto|]. intros k. rewrite Hk, !arr_at_put.
    destruct (Z.eq_dec j k) as [->|]; repeat bdestr; simpl; auto; lia.
  - exists a. split; [auto|]. split; [auto|]. intros k. repeat bdestr; simpl; auto; lia.
Qed.

Lemma remove_waiter_ok w l i p :
  wl_ok w l -> l !! i = Some p -> exists w', remove_waiter w (Z.of_nat i) = Ok w' /\ wl_ok w' (delete i l).
Proof.
  intros [H1 H2 H3 H4] Hi. pose proof (lookup_lt_Some _ _ _ Hi) as Hlt. unfold remove_waiter.
  destruct (shift_down_ok (w_n w) (S (Z.to_nat (w_n w))) (w_slots w) (Z.of_nat i)) as (a & -> & Hl & Hk); try lia.
  rewrite res_bind_ok. cbv zeta. rewrite (u32_small (w_n w - 1)), arr_set_ok, res_bind_ok by lia.
  eexists. split; [reflexivity|]. pose proof (length_delete l i ltac:(eauto)) as Hd.
  split; simpl; rewrite ?arr_len_put; try lia. intros j q Hq.
  pose proof (lookup_lt_Some _ _ _ Hq) as Hj. rewrite arr_at_put, Hk. zdecide.
  destruct (decide (j < i)%nat) as [Hji|Hji].
  - rewrite list_lookup_delete_lt in Hq by lia. zdecide. simpl. auto.
  - rewrite list_lookup_delete_ge in Hq by lia. zdecide. simpl.
    replace (Z.of_nat j + 1) with (Z.of_nat (S j)) by lia. auto.
Qed.

Lemma delete_nodup (l : list Z) i p :
  l !! i = Some p -> NoDup l -> NoDup (delete i l) /\ forall q, q ∈ delete i l <-> q ∈ l /\ q <> p.
Proof.
  intros Hi Hnd. rewrite delete_take_drop. rewrite <- (take_drop_middle l i p Hi) in Hnd.
  apply NoDup_app in Hnd as (N1 & N2 & [N3 N4]%NoDup_cons). split.
  - apply NoDup_app. set_solver.
  - intros q. rewrite <- (take_drop_middle l i p Hi) at 3. set_solver.
Qed.

Lemma find_waiter_ok w l p fuel : forall i,
  wl_ok w l -> (length l < fuel + i)%nat -> (i <= length l)%nat ->
  exists o, find_waiter fuel w (Z.of_nat i) p = Ok o /\
    match o with
    | Some j => exists k, j = Z.of_nat k /\ l !! k = Some p
    | None => p ∉ drop i l
    end.
Proof.
  induction fuel as [|fuel IH]; intros i H Hf Hi; [lia|]. pose proof H as [H1 H2 H3 H4]. cbn [find_waiter].
  destruct (Z.ltb_spec (Z.of_nat i) (w_n w)) as [Hlt|Hge].
  - destruct (lookup_lt_is_Some_2 l i) as [q Hq]; [lia|].
    rewrite arr_get_ok, res_bind_ok, (H3 i q Hq) by lia.
    destruct (Z.eqb_spec q p) as [->|Hne]; [eexists; split; [reflexivity|]; exists i; auto|].
    rewrite u32_small by lia. replace (Z.of_nat i + 1) with (Z.of_nat (S i)) by lia.
    destruct (IH (S i) H) as (o & -> & Ho); [lia|lia|]. eexists. split; [reflexivity|]. destruct o; auto.
    rewrite (drop_S l q i Hq). set_solver.
  - eexists. split; [reflexivity|]. rewrite drop_ge by lia. set_solver.
Qed.

Lemma leave_list_ok w l p :
  wl_ok w l -> NoDup l ->
  exists w' l', leave_list w p = Ok (bool_decide (p ∈ l), w') /\ wl_ok w' l' /\ NoDup l' /\
    (forall q, q ∈ l' <-> q ∈ l /\ q <> p).
Proof.
  intros H Hnd. unfold leave_list.
  destruct (find_waiter_ok w l p (S (Z.to_nat (w_n w))) 0 H) as (o & Hf & Ho); [rewrite (wl_n _ _ H); lia|lia|].
  change (Z.of_nat 0) with 0 in Hf. rewrite Hf, res_bind_ok. destruct o as [j|].
  - destruct Ho as (k & -> & Hk). destruct (remove_waiter_ok w l k p H Hk) as (w' & -> & H').
    exists w', (delete k l). rewrite res_bind_ok, bool_decide_true by (eapply list_elem_of_lookup_2; eauto).
    split; [reflexivity|]. split; [auto|]. apply delete_nodup; auto.
  - rewrite drop_0 in Ho. exists w, l. rewrite bool_decide_false by auto. split; [reflexivity|]. set_solver.
Qed.

(** ** Processes that wait *)

Definition waits (s : sched) (p : Z) : Prop :=
  exists x, procs s !! p = Some x /\ (state x = PROCESS_BLOCKED \/ state x = PROCESS_SLEEPING).

Lemma still_waits_iff s p b : still_waits s p = Ok b -> p <> 0 -> b = true <-> waits s p.
Proof.
  unfold still_waits, getp, fget, waits. intros Hb Hp. destruct (Z.eqb_spec p 0); [contradiction|].
  destruct (procs s !! p) as [x|]; [|discriminate]. simpl in Hb. injection Hb as <-.
  rewrite orb_true_iff, !is_state_true. split; [eauto|]. intros (? & [= <-] & Hs). auto.
Qed.

(** The first waiter that still waits, when the search ends. *)
Lemma find_sleeper_inv s w l fuel : forall i o,
  wl_ok w l -> 0 ∉ l -> (i <= length l)%nat -> find_sleeper fuel s w (Z.of_nat i) = Ok o ->
  match o with
  | Some (j, p) => exists k, j = Z.of_nat k /\ l !! k = Some p /\ waits s p /\
      forall n q, (i <= n < k)%nat -> l !! n = Some q -> ~ waits s q
  | None => forall q, q ∈ drop i l -> ~ waits s q
  end.
Proof.
  induction fuel as [|fuel IH]; intros i o H H0 Hi Hf; [discriminate|]. pose proof H as [H1 H2 H3 H4].
  cbn [find_sleeper] in Hf. destruct (Z.ltb_spec (Z.of_nat i) (w_n w)) as [Hlt|Hge].
  - destruct (lookup_lt_is_Some_2 l i) as [p Hp]; [lia|].
    rewrite arr_get_ok, res_bind_ok, (H3 i p Hp) in Hf by lia.
    apply res_bind_ok_inv in Hf as (b & Hb & Hf).
    assert (Hw : b = true <-> waits s p).
    { apply still_waits_iff; auto. intros ->. apply H0. eapply list_elem_of_lookup_2; eauto. }
    destruct b; [injection Hf as <-; exists i; split_and!; auto; [tauto|lia]|].
    rewrite u32_small in Hf by lia. replace (Z.of_nat i + 1) with (Z.of_nat (S i)) in Hf by lia.
    assert (Hn : ~ waits s p) by (intros Hc%Hw; discriminate).
    specialize (IH (S i) o H H0 ltac:(lia) Hf). destruct o as [[j q]|].
    + destruct IH as (k & -> & Hk & Hs & Hm). exists k. split_and!; auto. intros n r Hn' Hr.
      destruct (decide (n = i)) as [->|]; [congruence|]. apply (Hm n r); auto. lia.
    + rewrite (drop_S l p i Hp). intros r [->|Hr]%elem_of_cons; auto.
  - injection Hf as <-. rewrite drop_ge by lia. set_solver.
Qed.

Lemma find_sleeper_total s w l fuel : forall i,
  wl_ok w l -> (forall p, p ∈ l -> is_Some (procs s !! p)) -> (length l < fuel + i)%nat -> (i <= length l)%nat ->
  exists o, find_sleeper fuel s w (Z.of_nat i) = Ok o.
Proof.
  induction fuel as [|fuel IH]; intros i H Hl Hf Hi; [lia|]. pose proof H as [H1 H2 H3 H4].
  cbn [find_sleeper]. destruct (Z.ltb_spec (Z.of_nat i) (w_n w)) as [Hlt|Hge]; [|eexists; reflexivity].
  destruct (lookup_lt_is_Some_2 l i) as [p Hp]; [lia|]. rewrite arr_get_ok, res_bind_ok, (H3 i p Hp) by lia.
  assert (Hs : exists b, still_waits s p = Ok b).
  { unfold still_waits. destruct (p =? 0); [eexists; reflexivity|].
    destruct (Hl p) as [x Hx]; [eapply list_elem_of_lookup_2; eauto|]. rewrite (getp_ok s p x Hx). eexists. reflexivity. }
  destruct Hs as [b ->]. rewrite res_bind_ok. destruct b; [eexists; reflexivity|].
  rewrite u32_small by lia. replace (Z.of_nat i + 1) with (Z.of_nat (S i)) by lia. apply IH; auto; lia.
Qed.

Lemma enqueue_ready_same my s p s' : sched_enqueue_ready my s p = Ok s' -> procs s' = procs s /\ current s' = current s.
Proof.
  unfold sched_enqueue_ready. destruct (p =? 0); [intros [= <-]; auto|].
  intros (s1 & H1 & H)%res_bind_ok_inv. apply res_bind_ok_inv in H1 as (q & _ & [= <-]).
  apply res_bind_ok_inv in H as (x & _ & H). destruct (is_state (state x) PROCESS_READY); [|injection H as <-; auto].
  apply res_bind_ok_inv in H as (s2 & H2 & H). apply res_bind_ok_inv in H as (s3 & H3 & [= <-]).
  apply res_bind_ok_inv in H2 as (y & _ & H2). apply res_bind_ok_inv in H2 as (c & _ & H2).
  apply res_bind_ok_inv in H2 as (r & _ & [= <-]). unfold sched_pcpu_inc_load in H3.
  assert (E : procs s3 = procs s /\ current s3 = current s).
  { destruct (pcpu_count _ <=? _); [injection H3 as <-; auto|].
    apply res_bind_ok_inv in H3 as (ld & _ & H3). apply res_bind_ok_inv in H3 as (a & _ & [= <-]). auto. }
  unfold sched_ipi_resched, emit. destruct (_ =? my); auto.
Qed.

Lemma updp_inv s p f s' :
  updp s p f = Ok s' -> exists x, procs s !! p = Some x /\ s' = set_procs (<[p := f x]> (procs s)) s.
Proof.
  unfold updp, setp, getp, fget, fset. destruct (procs s !! p) as [x|]; [|discriminate]. simpl.
  intros [= <-]. eauto.
Qed.

Lemma wake_waiter_waits my s p s' q : wake_waiter my s p = Ok s' -> waits s' q <-> waits s q /\ q <> p.
Proof.
  unfold wake_waiter. intros (s1 & H1 & H2)%res_bind_ok_inv. apply updp_inv in H1 as (x & Hx & ->).
  apply enqueue_ready_same in H2 as [E _]. unfold waits. rewrite E. simpl.
  destruct (decide (p = q)) as [->|Hn].
  - rewrite lookup_insert_eq. split; [intros (y & [= <-] & [[=]|[=]])|tauto].
  - rewrite lookup_insert_ne by auto. split; [auto|tauto].
Qed.

Lemma begin_wait_waits s p now t s' q : begin_wait s p now t = Ok s' -> waits s' q <-> q = p \/ waits s q.
Proof.
  intros Hb. assert (exists x y, procs s !! p = Some x /\ procs s' = <[p := y]> (procs s) /\
    (state y = PROCESS_BLOCKED \/ state y = PROCESS_SLEEPING)) as (x & y & Hx & E & Hy).
  { unfold begin_wait in Hb. destruct (0 <? t); apply updp_inv in Hb as (x & Hx & ->); eexists x, _; simpl; eauto. }
  unfold waits. rewrite E. destruct (decide (p = q)) as [->|Hn].
  - rewrite lookup_insert_eq. split; eauto.
  - rewrite lookup_insert_ne by auto. split; [auto|]. intros [->|Hw]; [contradiction|auto].
Qed.

(** ** The permits of a semaphore *)

(** [I] are the processes inside a wait that has blocked, [l] those of them on the
    list, and [o] the waits that succeeded less the signals. *)
Record sem_ok (n : Z) (s : sched) (k : ksem) (I : gset Z) (o : Z) (l : list Z) : Prop := SemOk {
  sm_wl : wl_ok (k_wait k) l;
  sm_nodup : NoDup l;
  sm_in : forall p, p ∈ l -> p ∈ I;
  sm_zero : 0 ∉ I;
  sm_sum : k_count k + Z.of_nat (size (I ∖ list_to_set l)) + o = n;
  sm_count : 0 <= k_count k < 2147483648;
  sm_quiet : 0 < k_count k -> forall p, p ∈ l -> ~ waits s p
}.

Definition now_inside (r : wait_start) (c : Z) (I : gset Z) : gset Z :=
  match r with WBlocked => {[c]} ∪ I | _ => I end.
Definition now_taken (r : wait_start) (o : Z) : Z := match r with WGot => o + 1 | _ => o end.

Lemma ksem_init_ok n s : 0 <= n < 2147483648 -> sem_ok n s (ksem_init n) ∅ 0 [].
Proof.
  intros Hn. split; simpl; try lia; try set_solver; [apply wlist_init_ok|apply NoDup_nil_2|].
  change (n + Z.of_nat 0 + 0 = n). lia.
Qed.

Section permits.
Context {n : Z} {s : sched} {k : ksem} {I : gset Z} {o : Z} {l : list Z}.
Context (H : sem_ok n s k I o l).

Lemma ksem_wait_begin_keeps my c now t r s' k' :
  cur s my = Ok c -> c ∉ I -> ksem_wait_begin my s k now t = Ok (r, s', k') ->
  exists l', sem_ok n s' k' (now_inside r c I) (now_taken r o) l'.
Proof.
  intros Hc Hi Hr. unfold ksem_wait_begin in Hr. pose proof H as [H1 H2 H3 H4 H5 H6 H7].
  destruct (Z.ltb_spec 0 (k_count k)) as [Hp|Hp].
  { injection Hr as <- <- <-. exists l. split; simpl; auto; rewrite s32_small by lia; lia. }
  rewrite Hc, res_bind_ok in Hr. destruct (Z.eqb_spec c 0) as [->|Hc0]; [injection Hr as <- <- <-; exists l; auto|].
  destruct (Z.leb_spec KSEM_MAX_WAITERS (w_n (k_wait k))) as [Hf|Hf]; [injection Hr as <- <- <-; exists l; auto|].
  destruct (add_waiter_ok (k_wait k) l c H1) as (w & Hw & Hok); [rewrite <- (wl_n _ _ H1); exact Hf|].
  cbn [orb] in Hr. rewrite Hw, res_bind_ok in Hr. apply res_bind_ok_inv in Hr as (s1 & Hb & [= <- <- <-]).
  exists (l ++ [c]). assert (Hn : c ∉ l) by auto. split; simpl; auto; try lia.
  - apply NoDup_app. split_and!; [auto| |apply NoDup_singleton].
    intros q Hq E%list_elem_of_singleton. congruence.
  - intros q [Hq|E%list_elem_of_singleton]%elem_of_app; apply elem_of_union; [right; auto|left; apply elem_of_singleton_2; auto].
  - rewrite not_elem_of_union, not_elem_of_singleton. auto.
  - assert (E : ({[c]} ∪ I) ∖ list_to_set (l ++ [c]) = I ∖ list_to_set l).
    { apply leibniz_equiv. rewrite list_to_set_app. set_solver. }
    rewrite E. auto.
Qed.

Lemma ksem_wait_end_keeps my c t r k' :
  cur s my = Ok c -> c ∈ I -> ksem_wait_end my s k t = Ok (r, k') ->
  exists l', sem_ok n s k' (I ∖ {[c]}) (if r =? 0 then o + 1 else o) l'.
Proof.
  intros Hc Hi Hr. unfold ksem_wait_end in Hr. pose proof H as [H1 H2 H3 H4 H5 H6 H7].
  destruct (leave_list_ok (k_wait k) l c H1 H2) as (w & l' & Hl & Hok & Hnd & He).
  rewrite Hc, res_bind_ok, Hl, res_bind_ok in Hr. exists l'.
  assert (Hinc : forall q, q ∈ l' -> q ∈ I ∖ {[c]}).
  { intros q [Hq Hn]%He. apply elem_of_difference. split; [auto|]. rewrite elem_of_singleton. auto. }
  assert (Hz : 0 ∉ I ∖ {[c]}) by (rewrite elem_of_difference; tauto).
  assert (Hq : 0 < k_count k -> forall p, p ∈ l' -> ~ waits s p) by (intros Hp p [Hl' _]%He; auto).
  destruct (decide (c ∈ l)) as [Hin|Hin].
  - rewrite bool_decide_true in Hr by auto. apply res_bind_ok_inv in Hr as (x & _ & [= <- <-]).
    assert (E : I ∖ {[c]} ∖ list_to_set l' = I ∖ list_to_set l) by (apply leibniz_equiv; set_solver).
    destruct (_ && _); split; simpl; rewrite ?E; auto.
  - rewrite bool_decide_false in Hr by auto. injection Hr as <- <-.
    assert (E : I ∖ list_to_set l = {[c]} ∪ (I ∖ {[c]} ∖ list_to_set l')).
    { apply leibniz_equiv. intros q. destruct (decide (q = c)); set_solver. }
    split; simpl; auto.
    rewrite E, size_union, size_singleton in H5 by (clear; set_solver). lia.
Qed.

Lemma ksem_signal_keeps my s' k' :
  k_count k < 2147483647 -> ksem_signal my s k = Ok (s', k') -> exists l', sem_ok n s' k' I (o - 1) l'.
Proof.
  intros Hm Hr. unfold ksem_signal in Hr. pose proof H as [H1 H2 H3 H4 H5 H6 H7].
  apply res_bind_ok_inv in Hr as (x & Hf & Hr).
  pose proof (find_sleeper_inv s (k_wait k) l _ 0 x H1 ltac:(auto) ltac:(lia) Hf) as Hx. destruct x as [[j p]|].
  - destruct Hx as (i & -> & Hi & Hw & _). destruct (remove_waiter_ok (k_wait k) l i p H1 Hi) as (w & Hrm & Hok).
    rewrite Hrm, res_bind_ok in Hr. apply res_bind_ok_inv in Hr as (s1 & Hs & [= <- <-]).
    destruct (delete_nodup l i p Hi H2) as [Hnd He]. exists (delete i l).
    pose proof (list_elem_of_lookup_2 _ _ _ Hi) as Hp.
    assert (E : I ∖ list_to_set (delete i l) = {[p]} ∪ (I ∖ list_to_set l)).
    { apply leibniz_equiv. intros q. specialize (He q). destruct (decide (q = p)); set_solver. }
    split; simpl; auto; [set_solver| |].
    + rewrite E, size_union, size_singleton by set_solver. lia.
    + intros Hc. exfalso. exact (H7 Hc p Hp Hw).
  - injection Hr as <- <-. exists l. split; simpl; auto; rewrite s32_small by lia; lia.
Qed.

(** Any other activity that does not put a process inside a wait to sleep again. *)
Lemma sem_ok_other s' : (forall p, p ∈ I -> waits s' p -> waits s p) -> sem_ok n s' k I o l.
Proof. intros Hw. destruct H as [H1 H2 H3 H4 H5 H6 H7]. split; auto. intros Hc p Hp Hs. apply (H7 Hc p Hp). auto. Qed.
End permits.

Lemma ksem_signal_waits my s k s' k' q : ksem_signal my s k = Ok (s', k') -> waits s' q -> waits s q.
Proof.
  unfold ksem_signal. intros (x & _ & Hr)%res_bind_ok_inv. destruct x as [[j p]|]; [|injection Hr as <- <-; auto].
  apply res_bind_ok_inv in Hr as (w & _ & Hr). apply res_bind_ok_inv in Hr as (s1 & Hs & [= <- <-]).
  intros Hw. apply (wake_waiter_waits _ _ _ _ q Hs) in Hw. tauto.
Qed.

Lemma ksem_wait_begin_waits my s k now t r s' k' c q :
  cur s my = Ok c -> ksem_wait_begin my s k now t = Ok (r, s', k') -> waits s' q -> q = c \/ waits s q.
Proof.
  unfold ksem_wait_begin. intros Hc. destruct (0 <? k_count k); [intros [= _ <- _]; auto|].
  rewrite Hc, res_bind_ok. destruct ((c =? 0) || _); [intros [= _ <- _]; auto|].
  intros (w & _ & Hr)%res_bind_ok_inv. apply res_bind_ok_inv in Hr as (s1 & Hb & [= _ <- _]).
  apply (begin_wait_waits _ _ _ _ _ q Hb).
Qed.

(** ** The calls return *)

Lemma wake_sleeper_ok my s p : sched_inv s -> waits s p -> exists s', wake_waiter my s p = Ok s' /\ sched_inv s'.
Proof.
  intros (Q & SL & AL & G & H) (x & Hx & Hst).
  destruct (hand_over_ok H Hx make_ready my Hst) as (s' & SL' & E & H' & _); auto.
  exists s'. split; [exact E|]. exists (woken s p (make_ready x) Q), SL', AL, G. exact H'.
Qed.

Lemma ksem_signal_ok n s k I o l my :
  sem_ok n s k I o l -> sched_inv s -> (forall p, p ∈ I -> is_Some (procs s !! p)) ->
  exists s' k', ksem_signal my s k = Ok (s', k') /\ sched_inv s'.
Proof.
  intros [H1 H2 H3 H4 H5 H6 H7] Hs Hl. unfold ksem_signal.
  destruct (find_sleeper_total s (k_wait k) l (S (Z.to_nat (w_n (k_wait k)))) 0 H1) as (x & Hf); auto;
    [rewrite (wl_n _ _ H1); lia|lia|].
  pose proof (find_sleeper_inv s (k_wait k) l _ 0 x H1 ltac:(auto) ltac:(lia) Hf) as Hx.
  change (Z.of_nat 0) with 0 in Hf. rewrite Hf, res_bind_ok. destruct x as [[j p]|]; [|eauto].
  destruct Hx as (i & -> & Hi & Hw & _). destruct (remove_waiter_ok (k_wait k) l i p H1 Hi) as (w & -> & _).
  destruct (wake_sleeper_ok my s p Hs Hw) as (s' & E & Hs'). rewrite res_bind_ok, E, res_bind_ok. eauto.
Qed.

Lemma begin_wait_ok s my c x now t :
  sched_inv s -> runs s my c x -> exists s', begin_wait s c now t = Ok s' /\ sched_inv s'.
Proof.
  intros (Q & SL & AL & G & H) Hr. pose proof Hr as (_ & Hx & _). unfold begin_wait. cbv zeta.
  destruct (0 <? t); rewrite (updp_ok s c x) by auto; eexists; (split; [reflexivity|]); exists Q, SL, AL, G;
    eapply leave_ok; eauto; discriminate.
Qed.

Lemma ksem_wait_begin_ok n s k I o l my c x now t :
  sem_ok n s k I o l -> sched_inv s -> 0 <= my < SCHED_MAX_CPUS -> runs s my c x ->
  exists r s' k', ksem_wait_begin my s k now t = Ok (r, s', k') /\ sched_inv s'.
Proof.
  intros [H1 H2 H3 H4 H5 H6 H7] Hs Hmy Hr. pose proof Hs as (Q & SL & AL & G & H).
  unfold ksem_wait_begin. destruct (0 <? k_count k); [eauto|].
  destruct (current_some _ _ _ _ _ my H Hmy) as [-> _]. pose proof Hr as (Hc & _). rewrite res_bind_ok, Hc.
  destruct (c =? 0); [eauto|]. destruct (Z.leb_spec KSEM_MAX_WAITERS (w_n (k_wait k))) as [Hf|Hf]; [eauto|].
  destruct (add_waiter_ok (k_wait k) l c H1) as (w & Hw & _); [rewrite <- (wl_n _ _ H1); exact Hf|].
  cbn [orb]. rewrite Hw, res_bind_ok. destruct (begin_wait_ok s my c x now t Hs Hr) as (s' & -> & Hs').
  rewrite res_bind_ok. eauto.
Qed.

Lemma ksem_wait_end_ok n s k I o l my c t :
  sem_ok n s k I o l -> cur s my = Ok c -> is_Some (procs s !! c) ->
  exists r k', ksem_wait_end my s k t = Ok (r, k') /\ (r = 0 <-> c ∉ l).
Proof.
  intros [H1 H2 H3 H4 H5 H6 H7] Hc [x Hx]. unfold ksem_wait_end.
  destruct (leave_list_ok (k_wait k) l c H1 H2) as (w & l' & Hl & _). rewrite Hc, res_bind_ok, Hl, res_bind_ok.
  destruct (decide (c ∈ l)) as [Hin|Hin].
  - rewrite bool_decide_true, (getp_ok s c x Hx) by auto. eexists _, _. split; [reflexivity|].
    destruct (_ && _); split; [discriminate|contradiction|discriminate|contradiction].
  - rewrite bool_decide_false by auto. eexists _, _. split; [reflexivity|]. tauto.
Qed.
