(* ===== verification/Mailbox.v ===== *)
(** The mailboxes of [Sync] as bounded queues: what the two sections under the lock do
    to the messages, and the accounting that keeps a post from overwriting a message
    and a fetch from reading an empty mailbox. *)

From S2P Require Import Prelude Ring Runq SortedQ SchedState Sched SchedInv SchedSpec SchedOps Sync SyncSpec.

Record mb_ok (m : kmbox) (q : list Z) : Prop := MbOk {
  mb_cap : 0 < mb_capacity m <= KMBOX_MAX_MSGS;
  mb_len : arr_len (mb_msgs m) = KMBOX_MAX_MSGS;
  mb_hd : 0 <= mb_head m < mb_capacity m;
  mb_cnt : mb_count m = Z.of_nat (length q);
  mb_max : Z.of_nat (length q) <= mb_capacity m;
  mb_tl : mb_tail m = (mb_head m + mb_count m) mod mb_capacity m;
  mb_at : forall i v, q !! i = Some v -> arr_at (mb_msgs m) ((mb_head m + Z.of_nat i) mod mb_capacity m) = v
}.

Lemma kmbox_init_ok size : 0 <= size -> mb_ok (kmbox_init size) [].
Proof.
  intros Hs. unfold kmbox_init. set (z := if _ || _ then _ else _).
  assert (Hz : 0 < z <= KMBOX_MAX_MSGS).
  { subst z. unfold KMBOX_MAX_MSGS. destruct (Z.eqb_spec size 0); destruct (Z.ltb_spec 32 size); simpl; lia. }
  split; simpl; auto; try lia; try (rewrite Z.mod_0_l; lia). intros i v Hv. rewrite lookup_nil in Hv. discriminate.
Qed.

Lemma set_not_empty_ok m q k : mb_ok m q -> mb_ok (set_not_empty k m) q.
Proof. intros [H1 H2 H3 H4 H5 H6 H7]. split; auto. Qed.

Lemma set_not_full_ok m q k : mb_ok m q -> mb_ok (set_not_full k m) q.
Proof. intros [H1 H2 H3 H4 H5 H6 H7]. split; auto. Qed.

Section queue.
Context {m : kmbox} {q : list Z} (H : mb_ok m q).

(** The message goes to the end of the queue when there is room. *)
Lemma enqueue_msg_ok msg :
  Z.of_nat (length q) < mb_capacity m ->
  arr_set (mb_msgs m) (mb_tail m) msg = Ok (arr_put (mb_msgs m) (mb_tail m) msg) /\
  mb_ok (set_queue (arr_put (mb_msgs m) (mb_tail m) msg) (mb_head m) (u32 (mb_tail m + 1) mod mb_capacity m) (u32 (mb_count m + 1)) m)
    (q ++ [msg]).
Proof.
  intros Hl. destruct H as [[H1 H1'] H2 H3 H4 H5 H6 H7]. unfold KMBOX_MAX_MSGS in *.
  pose proof (Z.mod_pos_bound (mb_head m + mb_count m) (mb_capacity m) H1) as Hb.
  split; [apply arr_set_ok; lia|]. split; simpl; rewrite ?arr_len_put, ?length_app; simpl; auto; try (rewrite u32_small; lia); try lia.
  - rewrite !u32_small, H6, Zplus_mod_idemp_l by lia. f_equal. lia.
  - intros i v Hv. rewrite arr_at_put. apply lookup_snoc_Some in Hv as [[Hi Hv]|[-> <-]].
    + destruct (Z.eqb_spec (mb_tail m) ((mb_head m + Z.of_nat i) mod mb_capacity m)) as [E|]; [|auto].
      rewrite H6 in E. apply ring_index_inj in E; lia.
    + rewrite <- H4, <- H6, Z.eqb_refl. reflexivity.
Qed.

(** The first message leaves the queue. *)
Lemma dequeue_msg_ok v q' :
  q = v :: q' ->
  arr_get (mb_msgs m) (mb_head m) = Ok v /\
  mb_ok (set_queue (mb_msgs m) (u32 (mb_head m + 1) mod mb_capacity m) (mb_tail m) (u32 (mb_count m - 1)) m) q'.
Proof.
  intros ->. destruct H as [[H1 H1'] H2 H3 H4 H5 H6 H7]. unfold KMBOX_MAX_MSGS in *. cbn [length] in *.
  specialize (H7 0%nat v eq_refl) as H0. rewrite Z.add_0_r, Z.mod_small in H0 by lia.
  split; [rewrite arr_get_ok by lia; congruence|].
  pose proof (Z.mod_pos_bound (mb_head m + 1) (mb_capacity m) H1) as Hb. 
  split; simpl; auto; try (rewrite u32_small; lia); try lia.
  - rewrite !u32_small, Zplus_mod_idemp_l, H6 by lia. f_equal. lia.
  - intros i w Hw. rewrite u32_small, Zplus_mod_idemp_l by lia. rewrite <- (H7 (S i) w Hw). do 2 f_equal. lia.
Qed.
End queue.

(** ** Posting and fetching *)

(** The scheduler and the mailbox, the processes blocked inside [kmbox_post] and
    [kmbox_fetch], how many have passed the wait of each and are about to take the
    lock, and the messages put and taken so far. *)
Record mbsys : Type := MbSys {
  b_s : sched;
  b_m : kmbox;
  b_posters : gset Z;
  b_fetchers : gset Z;
  b_puts : Z;
  b_takes : Z;
  b_sent : list Z;
  b_got : list Z
}.

(** One step of a process that posts or fetches, or of the rest of the system. *)
Inductive mb_step : mbsys -> mbsys -> Prop :=
| mb_post_begin s m P F a b l g my c r s' m' :
    cur s my = Ok c -> c ∉ P ∪ F -> kmbox_post_begin my s m = Ok (r, s', m') ->
    mb_step (MbSys s m P F a b l g) (MbSys s' m' (now_inside r c P) F (now_taken r a) b l g)
| mb_post_end s m P F a b l g my c r k :
    cur s my = Ok c -> c ∈ P -> ksem_wait_end my s (not_full m) 0 = Ok (r, k) ->
    mb_step (MbSys s m P F a b l g) (MbSys s (set_not_full k m) (P ∖ {[c]}) F (if r =? 0 then a + 1 else a) b l g)
| mb_put s m P F a b l g my msg s' m' :
    0 < a -> kmbox_put my s m msg = Ok (s', m') ->
    mb_step (MbSys s m P F a b l g) (MbSys s' m' P F (a - 1) b (l ++ [msg]) g)
| mb_fetch_begin s m P F a b l g my c now t r s' m' :
    cur s my = Ok c -> c ∉ P ∪ F -> kmbox_fetch_begin my s m now t = Ok (r, s', m') ->
    mb_step (MbSys s m P F a b l g) (MbSys s' m' P (now_inside r c F) a (now_taken r b) l g)
| mb_fetch_end s m P F a b l g my c t r k :
    cur s my = Ok c -> c ∈ F -> ksem_wait_end my s (not_empty m) t = Ok (r, k) ->
    mb_step (MbSys s m P F a b l g) (MbSys s (set_not_empty k m) P (F ∖ {[c]}) a (if r =? 0 then b + 1 else b) l g)
| mb_take s m P F a b l g my v s' m' :
    0 < b -> kmbox_take my s m = Ok (v, s', m') ->
    mb_step (MbSys s m P F a b l g) (MbSys s' m' P F a (b - 1) l (g ++ [v]))
| mb_other s m P F a b l g s' :
    (forall p, p ∈ P ∪ F -> waits s' p -> waits s p) ->
    mb_step (MbSys s m P F a b l g) (MbSys s' m P F a b l g).

Inductive mb_reach (size : Z) : mbsys -> Prop :=
| mb_start s : mb_reach size (MbSys s (kmbox_init size) ∅ ∅ 0 0 [] [])
| mb_next x y : mb_reach size x -> mb_step x y -> mb_reach size y.

Record mb_inv (x : mbsys) (q lf le : list Z) : Prop := MbInv {
  bi_mb : mb_ok (b_m x) q;
  bi_full : sem_ok (mb_capacity (b_m x)) (b_s x) (not_full (b_m x)) (b_posters x) (b_puts x + Z.of_nat (length q)) lf;
  bi_empty : sem_ok 0 (b_s x) (not_empty (b_m x)) (b_fetchers x) (b_takes x - Z.of_nat (length q)) le;
  bi_pos : 0 <= b_puts x /\ 0 <= b_takes x;
  bi_fifo : b_sent x = b_got x ++ q
}.

(** A post past its wait finds room, and a fetch past its wait a message. *)
Lemma mb_inv_room x q lf le :
  mb_inv x q lf le ->
  b_puts x + Z.of_nat (length q) <= mb_capacity (b_m x) <= 32 /\ b_takes x <= Z.of_nat (length q) /\
  k_count (not_full (b_m x)) <= 32 /\ k_count (not_empty (b_m x)) <= 32.
Proof.
  intros [[[H1 H1'] _ _ _ H2 _ _] Hf He [Hp Ht] _]. unfold KMBOX_MAX_MSGS in *.
  pose proof (sm_sum _ _ _ _ _ _ Hf). pose proof (sm_count _ _ _ _ _ _ Hf).
  pose proof (sm_sum _ _ _ _ _ _ He). pose proof (sm_count _ _ _ _ _ _ He). lia.
Qed.

Lemma now_taken_room r o n : now_taken r (o + n) = now_taken r o + n.
Proof. destruct r; simpl; lia. Qed.

Lemma returned_room (r o n : Z) : (if r =? 0 then o + n + 1 else o + n) = (if r =? 0 then o + 1 else o) + n.
Proof. destruct (r =? 0); lia. Qed.

Lemma now_taken_pos r o : 0 <= o -> 0 <= now_taken r o.
Proof. destruct r; simpl; lia. Qed.

Lemma returned_pos (r o : Z) : 0 <= o -> 0 <= (if r =? 0 then o + 1 else o).
Proof. destruct (r =? 0); lia. Qed.

Lemma mb_init_inv size s : 0 <= size -> mb_inv (MbSys s (kmbox_init size) ∅ ∅ 0 0 [] []) [] [] [].
Proof.
  intros Hs. pose proof (kmbox_init_ok size Hs) as Hm. split; simpl; auto; try lia.
  - pose proof (mb_cap _ _ Hm) as Hc. unfold KMBOX_MAX_MSGS in Hc. revert Hc. unfold kmbox_init. simpl.
    set (z := if _ || _ then _ else _). intros Hc. rewrite s32_small by lia. apply ksem_init_ok. lia.
  - apply ksem_init_ok. lia.
Qed.

Lemma kmbox_put_eq m q my s msg :
  mb_ok m q -> Z.of_nat (length q) < mb_capacity m ->
  exists m1, mb_ok m1 (q ++ [msg]) /\ mb_capacity m1 = mb_capacity m /\ not_full m1 = not_full m /\
    not_empty m1 = not_empty m /\
    kmbox_put my s m msg = (r ← ksem_signal my s (not_empty m); let '(s, k) := r in mret (s, set_not_empty k m1)).
Proof.
  intros H Hl. destruct (enqueue_msg_ok H msg Hl) as [E Hm].
  eexists. split; [exact Hm|]. split_and!; auto. unfold kmbox_put. rewrite E. reflexivity.
Qed.

Lemma kmbox_take_eq m v q my s :
  mb_ok m (v :: q) ->
  exists m1, mb_ok m1 q /\ mb_capacity m1 = mb_capacity m /\ not_full m1 = not_full m /\
    not_empty m1 = not_empty m /\
    kmbox_take my s m = (r ← ksem_signal my s (not_full m); let '(s, k) := r in mret (v, s, set_not_full k m1)).
Proof.
  intros H. destruct (dequeue_msg_ok H v q eq_refl) as [E Hm].
  eexists. split; [exact Hm|]. split_and!; auto. unfold kmbox_take. rewrite E. reflexivity.
Qed.

Section steps.
Context {s : sched} {m : kmbox} {P F : gset Z} {a b : Z} {sent got q lf le : list Z}.
Context (H : mb_inv (MbSys s m P F a b sent got) q lf le).

Lemma mb_post_begin_keeps my c r s' m' :
  cur s my = Ok c -> c ∉ P ∪ F -> kmbox_post_begin my s m = Ok (r, s', m') ->
  exists lf, mb_inv (MbSys s' m' (now_inside r c P) F (now_taken r a) b sent got) q lf le.
Proof.
  intros Hc Hn (x & Hx & Hr)%res_bind_ok_inv. destruct x as [[r0 s0] k]. injection Hr as <- <- <-.
  destruct H as [H1 H2 H3 [H4 H4'] H5]. simpl in *. apply not_elem_of_union in Hn as [Hp Hf].
  destruct (ksem_wait_begin_keeps H2 my c 0 0 _ _ _ Hc Hp Hx) as [l Hl]. exists l.
  split; simpl; auto; [apply set_not_full_ok; auto| | |auto using now_taken_pos].
  - rewrite <- now_taken_room. exact Hl.
  - apply (sem_ok_other H3). intros p Hi Hw.
    destruct (ksem_wait_begin_waits _ _ _ _ _ _ _ _ _ p Hc Hx Hw) as [->|]; [contradiction|auto].
Qed.

Lemma mb_post_end_keeps my c r k :
  cur s my = Ok c -> c ∈ P -> ksem_wait_end my s (not_full m) 0 = Ok (r, k) ->
  exists lf, mb_inv (MbSys s (set_not_full k m) (P ∖ {[c]}) F (if r =? 0 then a + 1 else a) b sent got) q lf le.
Proof.
  intros Hc Hp Hr. destruct H as [H1 H2 H3 [H4 H4'] H5]. simpl in *.
  destruct (ksem_wait_end_keeps H2 my c 0 r k Hc Hp Hr) as [l Hl]. exists l.
  split; simpl; auto; [apply set_not_full_ok; auto| |auto using returned_pos].
  rewrite returned_room in Hl. exact Hl.
Qed.

Lemma mb_put_keeps my msg s' m' :
  0 < a -> kmbox_put my s m msg = Ok (s', m') ->
  exists q le, mb_inv (MbSys s' m' P F (a - 1) b (sent ++ [msg]) got) q lf le.
Proof.
  intros Ha Hr. pose proof (mb_inv_room _ _ _ _ H) as (R1 & R2 & R3 & R4). destruct H as [H1 H2 H3 [H4 H4'] H5]. simpl in *.
  destruct (kmbox_put_eq m q my s msg H1) as (m1 & M1 & M2 & M3 & M4 & E); [lia|]. rewrite E in Hr.
  apply res_bind_ok_inv in Hr as ([s1 k] & Hx & [= <- <-]).
  destruct (ksem_signal_keeps H3 my s1 k) as [l Hl]; [lia|auto|]. exists (q ++ [msg]), l.
  split; simpl; rewrite ?length_app; simpl; [apply set_not_empty_ok; auto| | |lia|rewrite H5, app_assoc; auto].
  - rewrite M2, M3. replace (a - 1 + Z.of_nat (length q + 1)) with (a + Z.of_nat (length q)) by lia.
    apply (sem_ok_other H2). intros p _. apply (ksem_signal_waits _ _ _ _ _ p Hx).
  - replace (b - Z.of_nat (length q + 1)) with (b - Z.of_nat (length q) - 1) by lia. exact Hl.
Qed.

Lemma mb_fetch_begin_keeps my c now t r s' m' :
  cur s my = Ok c -> c ∉ P ∪ F -> kmbox_fetch_begin my s m now t = Ok (r, s', m') ->
  exists le, mb_inv (MbSys s' m' P (now_inside r c F) a (now_taken r b) sent got) q lf le.
Proof.
  intros Hc Hn (x & Hx & Hr)%res_bind_ok_inv. destruct x as [[r0 s0] k]. injection Hr as <- <- <-.
  destruct H as [H1 H2 H3 [H4 H4'] H5]. simpl in *. apply not_elem_of_union in Hn as [Hp Hf].
  destruct (ksem_wait_begin_keeps H3 my c now t _ _ _ Hc Hf Hx) as [l Hl]. exists l.
  split; simpl; auto; [apply set_not_empty_ok; auto| | |auto using now_taken_pos].
  - apply (sem_ok_other H2). intros p Hi Hw.
    destruct (ksem_wait_begin_waits _ _ _ _ _ _ _ _ _ p Hc Hx Hw) as [->|]; [contradiction|auto].
  - pose proof (now_taken_room r0 b (- Z.of_nat (length q))) as E. unfold Z.sub in Hl |- *. rewrite <- E. exact Hl.
Qed.

Lemma mb_fetch_end_keeps my c t r k :
  cur s my = Ok c -> c ∈ F -> ksem_wait_end my s (not_empty m) t = Ok (r, k) ->
  exists le, mb_inv (MbSys s (set_not_empty k m) P (F ∖ {[c]}) a (if r =? 0 then b + 1 else b) sent got) q lf le.
Proof.
  intros Hc Hp Hr. destruct H as [H1 H2 H3 [H4 H4'] H5]. simpl in *.
  destruct (ksem_wait_end_keeps H3 my c t r k Hc Hp Hr) as [l Hl]. exists l.
  split; simpl; auto; [apply set_not_empty_ok; auto| |auto using returned_pos].
  pose proof (returned_room r b (- Z.of_nat (length q))) as E. unfold Z.sub in Hl |- *. rewrite <- E. exact Hl.
Qed.

Lemma mb_take_keeps my v s' m' :
  0 < b -> kmbox_take my s m = Ok (v, s', m') ->
  exists q lf, mb_inv (MbSys s' m' P F a (b - 1) sent (got ++ [v])) q lf le.
Proof.
  intros Hb Hr. pose proof (mb_inv_room _ _ _ _ H) as (R1 & R2 & R3 & R4). destruct H as [H1 H2 H3 [H4 H4'] H5]. simpl in *.
  destruct q as [|w q']; [simpl in R2; lia|].
  destruct (kmbox_take_eq m w q' my s H1) as (m1 & M1 & M2 & M3 & M4 & E). rewrite E in Hr.
  apply res_bind_ok_inv in Hr as ([s1 k] & Hx & [= <- <- <-]).
  destruct (ksem_signal_keeps H2 my s1 k) as [l Hl]; [lia|auto|]. exists q', l. cbn [length] in *.
  split; simpl; [apply set_not_full_ok; auto| | |lia|rewrite H5, <- app_assoc; auto].
  - rewrite M2. replace (a + Z.of_nat (length q')) with (a + Z.of_nat (S (length q')) - 1) by lia. exact Hl.
  - rewrite M4. replace (b - 1 - Z.of_nat (length q')) with (b - Z.of_nat (S (length q'))) by lia.
    apply (sem_ok_other H3). intros p _. apply (ksem_signal_waits _ _ _ _ _ p Hx).
Qed.
End steps.

Lemma mb_step_keeps x y q lf le : mb_inv x q lf le -> mb_step x y -> exists q lf le, mb_inv y q lf le.
Proof.
  intros H Hs. destruct Hs.
  - destruct (mb_post_begin_keeps H my c r s' m') as (? & ?); eauto.
  - destruct (mb_post_end_keeps H my c r k) as (? & ?); eauto.
  - destruct (mb_put_keeps H my msg s' m') as (? & ? & ?); eauto.
  - destruct (mb_fetch_begin_keeps H my c now t r s' m') as (? & ?); eauto.
  - destruct (mb_fetch_end_keeps H my c t r k) as (? & ?); eauto.
  - destruct (mb_take_keeps H my v s' m') as (? & ? & ?); eauto.
  - destruct H as [H1 H2 H3 H4 H5]. exists q, lf, le. split; auto; simpl in *.
    + apply (sem_ok_other H2). set_solver.
    + apply (sem_ok_other H3). set_solver.
Qed.

Lemma mb_reach_inv size x : 0 <= size -> mb_reach size x -> exists q lf le, mb_inv x q lf le.
Proof.
  intros Hs. induction 1 as [s|x y _ (q & lf & le & IH) Hst].
  - exists [], [], []. apply mb_init_inv. auto.
  - eapply mb_step_keeps; eauto.
Qed.
