(* ===== verification/SyncTheorems.v ===== *)
(** What the model of [Sync] shows of mutexes and mailboxes. *)

From S2P Require Import Prelude Bitmap Ring Runq SortedQ AsRef SchedState Sched SchedInv SchedSpec SchedOps Process Fd ProcessFiles ProcessInv ProcessSpec ProcessExit.
From S2P Require Import ProcessContract ProcessTheorems Sync SyncSpec Mailbox.

(** ** Mutexes *)

(** The scheduler and the mutex, the processes blocked inside [kmutex_lock], and those
    whose call has returned and that have not unlocked yet. *)
Record mstate : Type := MState { ms_s : sched; ms_m : ksem; ms_in : gset Z; ms_hold : gset Z }.

Definition now_holding (r : wait_start) (c : Z) (H : gset Z) : gset Z :=
  match r with WGot => {[c]} ∪ H | _ => H end.

(** [kmutex_lock] up to [schedule], its end, [kmutex_unlock] by a holder, and the rest
    of the system, which may do anything but put a process inside the lock to sleep. *)
Inductive mutex_step : mstate -> mstate -> Prop :=
| mx_lock s m I H my c r s' m' :
    cur s my = Ok c -> c ∉ I -> kmutex_lock_begin my s m = Ok (r, s', m') ->
    mutex_step (MState s m I H) (MState s' m' (now_inside r c I) (now_holding r c H))
| mx_locked s m I H my c r m' :
    cur s my = Ok c -> c ∈ I -> ksem_wait_end my s m 0 = Ok (r, m') ->
    mutex_step (MState s m I H) (MState s m' (I ∖ {[c]}) (if r =? 0 then {[c]} ∪ H else H))
| mx_unlock s m I H my c s' m' :
    cur s my = Ok c -> c ∈ H -> kmutex_unlock my s m = Ok (s', m') ->
    mutex_step (MState s m I H) (MState s' m' I (H ∖ {[c]}))
| mx_other s m I H s' :
    (forall p, p ∈ I -> waits s' p -> waits s p) -> mutex_step (MState s m I H) (MState s' m I H).

Inductive mutex_reach : mstate -> Prop :=
| mx_start s : mutex_reach (MState s kmutex_init ∅ ∅)
| mx_next x y : mutex_reach x -> mutex_step x y -> mutex_reach y.

(** A process the mutex has been handed to, and whose [kmutex_lock] will return. *)
Definition granted (x : mstate) (p : Z) : Prop := p ∈ ms_in x /\ p ∉ waiters (k_wait (ms_m x)).

Definition mutex_inv (x : mstate) (l : list Z) : Prop :=
  sem_ok 1 (ms_s x) (ms_m x) (ms_in x) (Z.of_nat (size (ms_hold x))) l.

(** A permit can only be taken when nobody holds one. *)
Lemma taken_alone s m I (H : gset Z) c l :
  sem_ok 1 s m I (Z.of_nat (size H) + 1) l -> Z.of_nat (size ({[c]} ∪ H)) = Z.of_nat (size H) + 1.
Proof.
  intros Hs. pose proof (sm_sum _ _ _ _ _ _ Hs). pose proof (sm_count _ _ _ _ _ _ Hs).
  assert (E : H = ∅) by (apply leibniz_equiv, size_empty_iff; lia). subst H.
  rewrite union_empty_r_L, size_singleton, size_empty. lia.
Qed.

Lemma mutex_step_keeps x y l : mutex_inv x l -> mutex_step x y -> exists l', mutex_inv y l'.
Proof.
  unfold mutex_inv. intros Hi Hs. destruct Hs as [s m I H my c r s' m' Hc Hn Hr|s m I H my c r m' Hc Hn Hr|s m I H my c s' m' Hc Hn Hr|s m I H s' Hw];
    simpl in *.
  - destruct (ksem_wait_begin_keeps Hi my c 0 0 r s' m' Hc Hn Hr) as [l' Hl]. exists l'.
    destruct r; simpl in *; auto. rewrite (taken_alone _ _ _ _ c _ Hl). exact Hl.
  - destruct (ksem_wait_end_keeps Hi my c 0 r m' Hc Hn Hr) as [l' Hl]. exists l'.
    destruct (r =? 0); auto. rewrite (taken_alone _ _ _ _ c _ Hl). exact Hl.
  - pose proof (sm_sum _ _ _ _ _ _ Hi) as E. destruct (ksem_signal_keeps Hi my s' m') as [l' Hl]; [lia|exact Hr|].
    exists l'. rewrite size_difference, size_singleton by set_solver.
    assert (0 < size H)%nat by (apply Nat.neq_0_lt_0; intros E0%size_empty_iff; set_solver).
    replace (Z.of_nat (size H - 1)) with (Z.of_nat (size H) - 1) by lia. exact Hl.
  - exists l. apply (sem_ok_other Hi). exact Hw.
Qed.

Lemma mutex_reach_inv x : mutex_reach x -> exists l, mutex_inv x l.
Proof.
  induction 1 as [s|x y _ [l IH] Hst]; [|eapply mutex_step_keeps; eauto].
  exists []. apply (ksem_init_ok 1). lia.
Qed.

(** C36: Mutual exclusion: at most one process is between the return of [kmutex_lock]
    and [kmutex_unlock], whatever the scheduler does; no process sleeps on a mutex that
    nobody holds and that has not been handed over; and the calls do not fail. *)
Theorem mutex_exclusion x :
  mutex_reach x ->
  (size (ms_hold x) <= 1)%nat /\
  (forall p, p ∈ ms_in x -> waits (ms_s x) p -> ms_hold x <> ∅ \/ exists q, granted x q) /\
  (sched_inv (ms_s x) -> (forall p, p ∈ ms_in x -> is_Some (procs (ms_s x) !! p)) ->
   forall my, 0 <= my < SCHED_MAX_CPUS ->
   (exists s' m', kmutex_unlock my (ms_s x) (ms_m x) = Ok (s', m') /\ sched_inv s') /\
   (forall c y, runs (ms_s x) my c y ->
     exists r s' m', kmutex_lock_begin my (ms_s x) (ms_m x) = Ok (r, s', m') /\ sched_inv s')).
Proof.
  intros [l Hi]%mutex_reach_inv. unfold mutex_inv in Hi. pose proof (sm_sum _ _ _ _ _ _ Hi) as E.
  pose proof (sm_count _ _ _ _ _ _ Hi) as Hc. split; [lia|]. split.
  - intros p Hp Hw. destruct (decide (ms_hold x = ∅)) as [Eh|]; [right|auto].
    rewrite Eh, size_empty in E. unfold granted. rewrite (wl_ok_waiters _ _ (sm_wl _ _ _ _ _ _ Hi)).
    destruct (decide (p ∈ l)) as [Hl|]; [|eauto].
    destruct (decide (0 < k_count (ms_m x))) as [Hk|]; [exfalso; exact (sm_quiet _ _ _ _ _ _ Hi Hk p Hl Hw)|].
    assert (Hs : ms_in x ∖ list_to_set l ≢ ∅) by (intros Hz%size_empty_iff; lia).
    apply set_choose in Hs as [q Hq]. exists q. set_solver.
  - intros Hs Hl my Hmy. split; [apply (ksem_signal_ok _ _ _ _ _ _ my Hi); auto|].
    intros c y Hr. apply (ksem_wait_begin_ok _ _ _ _ _ _ my c y 0 0 Hi); auto.
Qed.

(** The state and the semaphore after a call that blocked. *)
Definition blocked (x : res (wait_start * sched * ksem)) : option (sched * ksem) :=
  match x with Ok (WBlocked, s, k) => Some (s, k) | _ => None end.

Lemma blocked_ok x y : blocked x = Some y -> x = Ok (WBlocked, fst y, snd y).
Proof. destruct x as [[[[] s] k]| |]; try discriminate. intros [= <-]. reflexivity. Qed.

(** Process 301 takes the mutex; then process 302 runs and asks for it. *)
Definition first_runs : sched := demo 1 two_procs.
Definition second_runs : sched := demo 1 (two_procs ++ [OBlock 0; OSchedule 0]).
Definition mutex_taken : ksem := KSem 0 (wlist_init KSEM_MAX_WAITERS).
Definition contended : sched * ksem :=
  default (second_runs, mutex_taken) (blocked (kmutex_lock_begin 0 second_runs mutex_taken)).
Definition contention : mstate := MState (fst contended) (snd contended) (now_inside WBlocked 302 ∅) (now_holding WBlocked 302 (now_holding WGot 301 ∅)).

Lemma contention_reached : mutex_reach contention.
Proof.
  assert (R1 : mutex_reach (MState first_runs mutex_taken ∅ (now_holding WGot 301 ∅))).
  { eapply mx_next; [apply (mx_start first_runs)|].
    apply (mx_lock first_runs kmutex_init ∅ ∅ 0 301 WGot first_runs mutex_taken);
      [vm_compute; reflexivity|set_solver|reflexivity]. }
  assert (R2 : mutex_reach (MState second_runs mutex_taken ∅ (now_holding WGot 301 ∅))).
  { eapply mx_next; [exact R1|]. apply mx_other. set_solver. }
  apply (mx_next _ contention R2). unfold contention.
  apply (mx_lock second_runs mutex_taken ∅ (now_holding WGot 301 ∅) 0 302 WBlocked (fst contended) (snd contended));
    [vm_compute; reflexivity|set_solver|].
  apply blocked_ok. unfold contended.
  assert (E : bool_decide (is_Some (blocked (kmutex_lock_begin 0 second_runs mutex_taken))) = true) by (vm_compute; reflexivity).
  apply bool_decide_eq_true in E as [y ->]. reflexivity.
Qed.

Lemma mutex_exclusion_witness :
  waits (ms_s contention) 302 /\ (size (ms_hold contention) <= 1)%nat /\ (ms_hold contention <> ∅ \/ exists q, granted contention q).
Proof.
  assert (Hw : waits (ms_s contention) 302).
  { exists (proc_at (ms_s contention) 302). split; [apply proc_at_ok; vm_compute; reflexivity|left; vm_compute; reflexivity]. }
  destruct (mutex_exclusion contention contention_reached) as (H1 & H2 & _). split; [exact Hw|]. split; [exact H1|].
  apply (H2 302); [unfold contention; set_solver|exact Hw].
Defined.

(** ** Mailboxes *)

(** C37: A mailbox used with [kmbox_post] and [kmbox_fetch] is a bounded queue: the
    messages fetched are the messages posted, in order and each once, never more than
    the capacity wait in it, and a post or a fetch past its wait takes effect. *)
Theorem mailbox_fifo size x :
  0 <= size -> mb_reach size x ->
  exists q, b_sent x = b_got x ++ q /\ Z.of_nat (length q) <= mb_capacity (b_m x) <= KMBOX_MAX_MSGS /\
    (sched_inv (b_s x) -> (forall p, p ∈ b_posters x ∪ b_fetchers x -> is_Some (procs (b_s x) !! p)) -> forall my,
     (0 < b_puts x -> forall msg, exists s' m', kmbox_put my (b_s x) (b_m x) msg = Ok (s', m')) /\
     (0 < b_takes x -> exists v q' s' m', q = v :: q' /\ kmbox_take my (b_s x) (b_m x) = Ok (v, s', m'))).
Proof.
  intros Hz (q & lf & le & H)%mb_reach_inv; [|auto]. pose proof (mb_inv_room _ _ _ _ H) as (R1 & R2 & _).
  destruct H as [H1 H2 H3 [H4 H4'] H5]. exists q. split; [auto|]. split; [unfold KMBOX_MAX_MSGS; lia|].
  intros Hs Hl my. split.
  - intros Hp msg. destruct (kmbox_put_eq _ q my (b_s x) msg H1) as (m1 & _ & _ & _ & _ & E); [lia|].
    destruct (ksem_signal_ok _ _ _ _ _ _ my H3 Hs) as (s' & k & Ek & _); [set_solver|]. rewrite E, Ek. eexists _, _. reflexivity.
  - intros Ht. destruct q as [|v q']; [simpl in R2; lia|].
    destruct (kmbox_take_eq _ v q' my (b_s x) H1) as (m1 & _ & _ & _ & _ & E).
    destruct (ksem_signal_ok _ _ _ _ _ _ my H2 Hs) as (s' & k & Ek & _); [set_solver|].
    rewrite E, Ek. eexists v, q', _, _. split; reflexivity.
Qed.

(** A post of the message 7 that has passed its wait. *)
Definition post_waiting : mbsys :=
  MbSys first_runs (set_not_full (KSem 1 (wlist_init KSEM_MAX_WAITERS)) (kmbox_init 2)) ∅ ∅ 1 0 [] [].

Lemma post_waiting_reached : mb_reach 2 post_waiting.
Proof.
  apply (mb_next 2 _ post_waiting (mb_start 2 first_runs)). unfold post_waiting.
  apply (mb_post_begin first_runs (kmbox_init 2) ∅ ∅ 0 0 [] [] 0 301 WGot first_runs);
    [vm_compute; reflexivity|set_solver|reflexivity].
Qed.

Lemma first_runs_ok : sched_inv (b_s post_waiting).
Proof.
  change (sched_inv first_runs). apply reachable_sched. unfold first_runs. run_demo.
Qed.

Lemma nobody_blocked p : p ∈ b_posters post_waiting ∪ b_fetchers post_waiting -> is_Some (procs (b_s post_waiting) !! p).
Proof. intros [Hp|Hp]%elem_of_union; apply elem_of_empty in Hp; contradiction. Qed.

Lemma mailbox_fifo_witness : exists s' m', kmbox_put 0 (b_s post_waiting) (b_m post_waiting) 7 = Ok (s', m').
Proof.
  destruct (mailbox_fifo 2 post_waiting ltac:(lia) post_waiting_reached) as (q & _ & _ & H).
  destruct (H first_runs_ok nobody_blocked 0) as [Hp _]. exact (Hp eq_refl 7).
Defined.

(** [kmbox_trypost] does not take a permit of [not_full], nor [kmbox_tryfetch] one
    of [not_empty].  In a mailbox of capacity 1, a post after a [kmbox_trypost] goes
    through at once: it overwrites the message, and the count exceeds the capacity.  A
    fetch after a [kmbox_tryfetch] delivers the same message again, and the count
    wraps around. *)
Theorem trypost_overruns my s v w :
  (exists m1 m2 m3, kmbox_trypost my s (kmbox_init 1) v = Ok (0, s, m1) /\
     kmbox_post_begin my s m1 = Ok (WGot, s, m2) /\ kmbox_put my s m2 w = Ok (s, m3) /\
     mb_capacity m3 = 1 /\ mb_count m3 = 2 /\ arr_at (mb_msgs m3) (mb_head m3) = w) /\
  (exists m1 m2 m3 m4, kmbox_put my s (kmbox_init 1) v = Ok (s, m1) /\
     kmbox_tryfetch my s m1 = Ok (0, v, s, m2) /\ kmbox_fetch_begin my s m2 0 0 = Ok (WGot, s, m3) /\
     kmbox_take my s m3 = Ok (v, s, m4) /\ mb_count m4 = 4294967295).
Proof.
  split.
  - eexists _, _, _. split_and!; reflexivity.
  - eexists _, _, _, _. split_and!; reflexivity.
Qed.
