(* ===== verification/Cring.v ===== *)
(** The circular buffers of the terminals and of the wait queues: a head, a tail, and
    one cell that stays free.  [canon_push], [canon_count] and [tty_drain_locked] of
    src/kernel/tty.c, [rb_push], [rb_pop], [rb_count] and [rb_free] of src/kernel/pty.c. *)

From S2P Require Import Prelude.

Record cring : Type := CRing { c_buf : array Z; c_head : Z; c_tail : Z }.

Definition cring_init (cap : Z) : cring := CRing (arr_new cap 0) 0 0.

Definition ring_next (cap i : Z) : Z := u32 (i + 1) mod cap.

Definition ring_empty (r : cring) : bool := c_head r =? c_tail r.

Definition ring_count (cap : Z) (r : cring) : Z :=
  if c_tail r <=? c_head r then u32 (c_head r - c_tail r) else u32 (u32 (cap - c_tail r) + c_head r).

Definition ring_free (cap : Z) (r : cring) : Z := u32 (u32 (cap - 1) - ring_count cap r).

(** Stores at the head; a full buffer loses its oldest element. *)
Definition ring_push (cap : Z) (r : cring) (c : Z) : res cring :=
  let nx := ring_next cap (c_head r) in
  let tl := if nx =? c_tail r then ring_next cap (c_tail r) else c_tail r in
  b ← arr_set (c_buf r) (c_head r) c;
  mret (CRing b nx tl).

Definition ring_pop (cap : Z) (r : cring) : res (option (Z * cring)) :=
  if c_head r =? c_tail r then mret None
  else
    c ← arr_get (c_buf r) (c_tail r);
    mret (Some (c, CRing (c_buf r) (c_head r) (ring_next cap (c_tail r)))).

(** Stores at the head, or refuses when the buffer is full. *)
Definition ring_offer (cap : Z) (r : cring) (c : Z) : res (bool * cring) :=
  let nx := ring_next cap (c_head r) in
  if nx =? c_tail r then mret (false, r)
  else b ← arr_set (c_buf r) (c_head r) c; mret (true, CRing b nx (c_tail r)).

Fixpoint ring_push_all (cap : Z) (r : cring) (l : list Z) : res cring :=
  match l with
  | [] => mret r
  | c :: l => r ← ring_push cap r c; ring_push_all cap r l
  end.

(** [n] elements from the tail, without a test for the end. *)
Fixpoint ring_take (cap : Z) (n : nat) (r : cring) : res (list Z * cring) :=
  match n with
  | O => mret ([], r)
  | S n =>
      c ← arr_get (c_buf r) (c_tail r);
      '(l, r) ← ring_take cap n (CRing (c_buf r) (c_head r) (ring_next cap (c_tail r)));
      mret (c :: l, r)
  end.

(** [n] times [rb_pop]; the element is 0 when there is none. *)
Fixpoint ring_pops (cap : Z) (n : nat) (r : cring) : res (list Z * cring) :=
  match n with
  | O => mret ([], r)
  | S n =>
      o ← ring_pop cap r;
      let '(c, r) := match o with Some (c, r) => (c, r) | None => (0, r) end in
      '(l, r) ← ring_pops cap n r;
      mret (c :: l, r)
  end.

(** ** What a buffer holds *)

Record cr_ok (cap : Z) (r : cring) (l : list Z) : Prop := CrOk {
  cr_cap : 1 < cap <= 1024;
  cr_len : arr_len (c_buf r) = cap;
  cr_tail : 0 <= c_tail r < cap;
  cr_head : c_head r = (c_tail r + Z.of_nat (length l)) mod cap;
  cr_room : Z.of_nat (length l) < cap;
  cr_at : forall i v, l !! i = Some v -> arr_at (c_buf r) ((c_tail r + Z.of_nat i) mod cap) = v
}.

(** What is left of [l] when the oldest elements give way. *)
Definition newest (cap : Z) (l : list Z) : list Z := drop (length l - Z.to_nat (cap - 1)) l.

Lemma newest_id cap l : Z.of_nat (length l) < cap -> newest cap l = l.
Proof. intros H. unfold newest. replace (length l - Z.to_nat (cap - 1))%nat with 0%nat by lia. apply drop_0. Qed.

Lemma newest_length cap l : 1 < cap -> Z.of_nat (length (newest cap l)) < cap.
Proof. intros H. unfold newest. rewrite length_drop. lia. Qed.

Lemma newest_app cap l k : 1 < cap -> newest cap (newest cap l ++ k) = newest cap (l ++ k).
Proof.
  intros Hc. unfold newest. set (n := (length l - Z.to_nat (cap - 1))%nat).
  rewrite <- (drop_app_le l k n) by lia. rewrite drop_drop. f_equal. rewrite length_drop, !length_app. lia.
Qed.

Lemma ring_next_mod cap i : 0 <= i < cap -> cap <= 1024 -> ring_next cap i = (i + 1) mod cap.
Proof. intros. unfold ring_next. rewrite u32_small by lia. reflexivity. Qed.

Lemma cring_init_ok cap : 1 < cap <= 1024 -> cr_ok cap (cring_init cap) [].
Proof.
  intros H. split; simpl; auto; try lia. intros i v Hv. rewrite lookup_nil in Hv. discriminate.
Qed.

Section content.
Context {cap : Z} {r : cring} {l : list Z} (H : cr_ok cap r l).

Lemma cr_full_iff : ring_next cap (c_head r) = c_tail r <-> Z.of_nat (length l) = cap - 1.
Proof.
  destruct H as [H1 H2 H3 H4 H5 H6]. pose proof (Z.mod_pos_bound (c_tail r + Z.of_nat (length l)) cap) as Hb.
  rewrite ring_next_mod, H4, Zplus_mod_idemp_l by lia. split.
  - intros E. destruct (Z.eq_dec (Z.of_nat (length l)) (cap - 1)) as [|Hn]; [auto|].
    assert (E' : (c_tail r + (Z.of_nat (length l) + 1)) mod cap = (c_tail r + 0) mod cap).
    { rewrite Z.add_0_r, (Z.mod_small (c_tail r)) by lia. rewrite <- E at 2. f_equal. lia. }
    apply ring_index_inj in E'; lia.
  - intros ->. replace (c_tail r + (cap - 1) + 1) with (c_tail r + 1 * cap) by lia. rewrite Z.mod_add, Z.mod_small; lia.
Qed.

Lemma cr_empty_iff : c_head r = c_tail r <-> l = [].
Proof.
  destruct H as [H1 H2 H3 H4 H5 H6]. rewrite H4. split.
  - intros E. assert (E' : (c_tail r + Z.of_nat (length l)) mod cap = (c_tail r + 0) mod cap)
      by (rewrite Z.add_0_r, (Z.mod_small (c_tail r)) by lia; exact E).
    apply ring_index_inj in E'; try lia. apply nil_length_inv. lia.
  - intros ->. simpl. rewrite Z.add_0_r, Z.mod_small; lia.
Qed.

Lemma ring_empty_ok : ring_empty r = bool_decide (l = []).
Proof.
  unfold ring_empty. destruct (Z.eqb_spec (c_head r) (c_tail r)) as [E|E]; symmetry.
  - apply bool_decide_true, cr_empty_iff, E.
  - apply bool_decide_false. intros El. apply E, cr_empty_iff, El.
Qed.

Lemma ring_count_ok : ring_count cap r = Z.of_nat (length l).
Proof.
  destruct H as [H1 H2 H3 H4 H5 H6]. unfold ring_count.
  destruct (Z.lt_ge_cases (c_tail r + Z.of_nat (length l)) cap) as [Hl|Hg].
  - rewrite Z.mod_small in H4 by lia. zdecide. rewrite u32_small; lia.
  - replace (c_tail r + Z.of_nat (length l)) with (c_tail r + Z.of_nat (length l) - cap + 1 * cap) in H4 by lia.
    rewrite Z.mod_add, Z.mod_small in H4 by lia. zdecide. rewrite (u32_small (cap - c_tail r)), u32_small; lia.
Qed.

Lemma ring_free_ok : ring_free cap r = cap - 1 - Z.of_nat (length l).
Proof. destruct H as [H1 H2 H3 H4 H5 H6]. unfold ring_free. rewrite ring_count_ok, (u32_small (cap - 1)), u32_small; lia. Qed.

(** A store at the head. *)
Lemma cr_store c :
  arr_set (c_buf r) (c_head r) c = Ok (arr_put (c_buf r) (c_head r) c) /\
  forall i v, (l ++ [c]) !! i = Some v -> arr_at (arr_put (c_buf r) (c_head r) c) ((c_tail r + Z.of_nat i) mod cap) = v.
Proof.
  destruct H as [H1 H2 H3 H4 H5 H6]. pose proof (Z.mod_pos_bound (c_tail r + Z.of_nat (length l)) cap) as Hb.
  split; [apply arr_set_ok; lia|]. intros i v Hv. rewrite arr_at_put.
  apply lookup_snoc_Some in Hv as [[Hi Hv]|[-> <-]]; [|rewrite H4, Z.eqb_refl; auto].
  destruct (Z.eqb_spec (c_head r) ((c_tail r + Z.of_nat i) mod cap)) as [E|]; [|auto].
  rewrite H4 in E. apply ring_index_inj in E; lia.
Qed.

Lemma ring_push_ok c : exists r', ring_push cap r c = Ok r' /\ cr_ok cap r' (newest cap (l ++ [c])).
Proof.
  pose proof cr_full_iff as Hf. destruct (cr_store c) as [E Ha]. pose proof H as [H1 H2 H3 H4 H5 H6].
  pose proof (Z.mod_pos_bound (c_tail r + Z.of_nat (length l)) cap) as Hb.
  pose proof (Z.mod_pos_bound (c_tail r + 1) cap) as Hb'.
  unfold ring_push. rewrite E, res_bind_ok. eexists. split; [reflexivity|].
  destruct (Z.eqb_spec (ring_next cap (c_head r)) (c_tail r)) as [En|En].
  - assert (El : Z.of_nat (length l) = cap - 1) by (apply Hf; exact En).
    assert (Ed : newest cap (l ++ [c]) = drop 1 (l ++ [c])).
    { unfold newest. rewrite length_app. simpl. f_equal. lia. }
    rewrite Ed. split; simpl; rewrite ?arr_len_put, ?(ring_next_mod cap (c_tail r)), ?length_drop, ?length_app by lia; simpl; auto; try lia.
    + rewrite ring_next_mod, H4, !Zplus_mod_idemp_l by lia. f_equal. lia.
    + intros i v Hv. rewrite lookup_drop in Hv. rewrite Zplus_mod_idemp_l. rewrite <- (Ha _ _ Hv). do 2 f_equal. lia.
  - assert (El : Z.of_nat (length l) <> cap - 1) by (rewrite <- Hf; exact En).
    rewrite newest_id by (rewrite length_app; simpl; lia).
    split; simpl; rewrite ?arr_len_put, ?length_app; simpl; auto; try lia.
    rewrite ring_next_mod, H4, !Zplus_mod_idemp_l by lia. f_equal. lia.
Qed.

Lemma ring_offer_ok c :
  (Z.of_nat (length l) = cap - 1 /\ ring_offer cap r c = Ok (false, r)) \/
  (Z.of_nat (length l) < cap - 1 /\ exists r', ring_offer cap r c = Ok (true, r') /\ cr_ok cap r' (l ++ [c])).
Proof.
  pose proof cr_full_iff as Hf. destruct (cr_store c) as [E Ha]. pose proof H as [H1 H2 H3 H4 H5 H6].
  pose proof (Z.mod_pos_bound (c_tail r + Z.of_nat (length l)) cap) as Hb. unfold ring_offer.
  destruct (Z.eqb_spec (ring_next cap (c_head r)) (c_tail r)) as [En|En]; [left; split; [apply Hf; exact En|reflexivity]|right].
  assert (El : Z.of_nat (length l) <> cap - 1) by (rewrite <- Hf; exact En). split; [lia|].
  rewrite E, res_bind_ok. eexists. split; [reflexivity|].
  split; simpl; rewrite ?arr_len_put, ?length_app; simpl; auto; try lia.
  rewrite ring_next_mod, H4, !Zplus_mod_idemp_l by lia. f_equal. lia.
Qed.

(** The element at the tail. *)
Lemma cr_first v k :
  l = v :: k -> arr_get (c_buf r) (c_tail r) = Ok v /\ cr_ok cap (CRing (c_buf r) (c_head r) (ring_next cap (c_tail r))) k.
Proof.
  intros ->. pose proof H as [H1 H2 H3 H4 H5 H6]. specialize (H6 0%nat v eq_refl) as E0.
  rewrite Z.add_0_r, Z.mod_small in E0 by lia. split; [rewrite arr_get_ok by lia; congruence|].
  pose proof (Z.mod_pos_bound (c_tail r + 1) cap) as Hb. cbn [length] in *.
  split; simpl; rewrite ?(ring_next_mod cap (c_tail r)) by lia; auto; try lia.
  - rewrite H4, Zplus_mod_idemp_l. f_equal. lia.
  - intros i w Hw. rewrite Zplus_mod_idemp_l, <- (H6 (S i) w Hw). do 2 f_equal. lia.
Qed.

Lemma ring_pop_ok :
  match l with
  | [] => ring_pop cap r = Ok None
  | v :: k => exists r', ring_pop cap r = Ok (Some (v, r')) /\ cr_ok cap r' k
  end.
Proof.
  pose proof cr_empty_iff as He. pose proof cr_first as Hf. unfold ring_pop. destruct l as [|v k].
  - rewrite (proj2 He eq_refl), Z.eqb_refl. reflexivity.
  - destruct (Z.eqb_spec (c_head r) (c_tail r)) as [Eh|_]; [apply He in Eh; discriminate|].
    destruct (Hf v k eq_refl) as [-> Hr]. eexists. split; [reflexivity|exact Hr].
Qed.
End content.

Lemma ring_push_all_ok cap k : forall r l,
  cr_ok cap r l -> exists r', ring_push_all cap r k = Ok r' /\ cr_ok cap r' (newest cap (l ++ k)).
Proof.
  induction k as [|c k IH]; intros r l H; simpl.
  - rewrite app_nil_r, newest_id by apply (cr_room _ _ _ H). eauto.
  - destruct (ring_push_ok H c) as (r1 & -> & H1). rewrite res_bind_ok. destruct (IH r1 _ H1) as (r' & E & H').
    exists r'. split; [exact E|]. rewrite newest_app, <- app_assoc in H' by (pose proof (cr_cap _ _ _ H); lia). exact H'.
Qed.

Lemma ring_take_ok cap n : forall r l,
  cr_ok cap r l -> (n <= length l)%nat -> exists r', ring_take cap n r = Ok (take n l, r') /\ cr_ok cap r' (drop n l).
Proof.
  induction n as [|n IH]; intros r l H Hn; simpl; [eauto|]. destruct l as [|v k]; [simpl in Hn; lia|].
  destruct (cr_first H v k eq_refl) as [-> Hr]. rewrite res_bind_ok. simpl in Hn.
  destruct (IH _ k Hr) as (r' & -> & H'); [lia|]. eauto.
Qed.

Lemma ring_pops_ok cap n : forall r l,
  cr_ok cap r l -> (n <= length l)%nat -> exists r', ring_pops cap n r = Ok (take n l, r') /\ cr_ok cap r' (drop n l).
Proof.
  induction n as [|n IH]; intros r l H Hn; simpl; [eauto|]. destruct l as [|v k]; [simpl in Hn; lia|].
  destruct (ring_pop_ok H) as (r1 & -> & Hr). rewrite res_bind_ok. simpl in Hn.
  destruct (IH r1 k Hr) as (r' & -> & H'); [lia|]. eauto.
Qed.
