(* ===== verification/WaitQ.v ===== *)
(** Wait queues (include/waitqueue.h): a small circular buffer of processes that wait
    for a terminal. *)

From S2P Require Import Prelude Ring Runq SortedQ SchedState Sched SchedInv SchedSpec Cring.

Definition WQ_CAPACITY : Z := 16.

Definition wq_init : cring := cring_init WQ_CAPACITY.
Definition wq_push (q : cring) (p : Z) : res (bool * cring) := ring_offer WQ_CAPACITY q p.
Definition wq_pop (q : cring) : res (Z * cring) :=
  o ← ring_pop WQ_CAPACITY q;
  mret (match o with Some (p, q) => (p, q) | None => (0, q) end).

Definition wq_wake_one (my : Z) (s : sched) (q : cring) : res (sched * cring) :=
  '(p, q) ← wq_pop q;
  if p =? 0 then mret (s, q)
  else
    x ← getp s p;
    if is_state (state x) PROCESS_BLOCKED then
      s ← updp s p (set_state PROCESS_READY);
      s ← sched_enqueue_ready my s p;
      mret (s, q)
    else mret (s, q).

Fixpoint wq_wake_all (fuel : nat) (my : Z) (s : sched) (q : cring) : res (sched * cring) :=
  match fuel with
  | O => NoFuel
  | S fuel =>
      if ring_empty q then mret (s, q)
      else '(s, q) ← wq_wake_one my s q; wq_wake_all fuel my s q
  end.

(** The processes in the queue are processes. *)
Definition wq_ok (s : sched) (q : cring) (l : list Z) : Prop :=
  cr_ok WQ_CAPACITY q l /\ forall p, p ∈ l -> is_Some (procs s !! p).

(** The first process is made ready if it is blocked; the others stay. *)
Lemma wq_wake_one_ok my s q l :
  sched_inv s -> wq_ok s q l ->
  exists s' q', wq_wake_one my s q = Ok (s', q') /\ sched_inv s' /\ wq_ok s' q' (tail l) /\
    match l with
    | p :: _ => exists x, procs s !! p = Some x /\
        procs s' = <[p := if is_state (state x) PROCESS_BLOCKED then set_state PROCESS_READY x else x]> (procs s)
    | [] => s' = s
    end.
Proof.
  intros Hs [Hq Hl]. unfold wq_wake_one, wq_pop. pose proof (ring_pop_ok Hq) as Hp. destruct l as [|p k].
  - rewrite Hp, !res_bind_ok. exists s, q. split; [reflexivity|]. split; [auto|]. split; [split; auto|auto].
  - destruct Hp as (q' & -> & Hq'). rewrite !res_bind_ok. destruct (Hl p) as [x Hx]; [set_solver|].
    pose proof Hs as (Q & SL & AL & G & H). destruct (Z.eqb_spec p 0) as [->|_]; [exfalso; eapply so_nonzero; eauto|].
    rewrite (getp_ok s p x Hx), res_bind_ok. destruct (is_state (state x) PROCESS_BLOCKED) eqn:E.
    + apply is_state_true in E. destruct (wake_protocol_ok H Hx my (or_introl E)) as (s' & SL' & Ew & H' & _ & Ep & _).
      apply res_bind_ok_inv in Ew as (s1 & E1 & E2). rewrite E1, res_bind_ok, E2. exists s', q'. split; [reflexivity|].
      split; [exists (woken s p x Q), SL', AL, G; exact H'|]. split; [|exists x; rewrite (proj2 (is_state_true _ _) E); auto]. split; [exact Hq'|].
      intros r Hr. rewrite Ep. apply lookup_insert_is_Some'. right. apply Hl. set_solver.
    + exists s, q'. split; [reflexivity|]. split; [auto|]. split; [split; [auto|set_solver]|].
      exists x. rewrite E. split; [auto|]. symmetry. apply insert_id. auto.
Qed.

Lemma wq_wake_all_ok my l : forall fuel s q,
  sched_inv s -> wq_ok s q l -> (length l < fuel)%nat ->
  exists s' q', wq_wake_all fuel my s q = Ok (s', q') /\ sched_inv s' /\ wq_ok s' q' [].
Proof.
  induction l as [|p k IH]; intros [|fuel] s q Hs Hq Hf; simpl in Hf; try lia; cbn [wq_wake_all].
  - rewrite (ring_empty_ok (proj1 Hq)). eauto.
  - rewrite (ring_empty_ok (proj1 Hq)), bool_decide_false by discriminate.
    destruct (wq_wake_one_ok my s q (p :: k) Hs Hq) as (s1 & q1 & -> & H1 & H2 & _). rewrite res_bind_ok.
    apply IH; auto. lia.
Qed.
