(* ===== verification/Tty.v ===== *)
(** The terminal (src/kernel/tty.c): the line discipline, the buffer of the input that
    can be read, job control and the settings.

    Calls to the console are recorded in [t_out].  [line_input] is [tty_input_char]
    up to its effect on processes; a call of [tty_read_kbuf] is its checks followed
    by turns of its loop, each up to [schedule].  What the calls copy from and to
    user memory are arguments. *)

From S2P Require Import Prelude Ring Runq SortedQ AsRef SchedState Sched Process Cring WaitQ.

Definition TTY_LINE_MAX : Z := 256.
Definition TTY_CANON_BUF : Z := 1024.
Definition TIMER_HZ : Z := 100.

Definition NCCS : Z := 11.
Definition VINTR : Z := 0.
Definition VQUIT : Z := 1.
Definition VERASE : Z := 2.
Definition VKILL : Z := 3.
Definition VEOF : Z := 4.
Definition VSUSP : Z := 7.
Definition VMIN : Z := 8.
Definition VTIME : Z := 9.

Definition TTY_ICANON : Z := 2.
Definition TTY_ECHO : Z := 8.
Definition TTY_ISIG : Z := 1.
Definition TTY_ICRNL : Z := 256.
Definition TTY_IGNCR : Z := 128.
Definition TTY_INLCR : Z := 64.
Definition TTY_OPOST : Z := 1.
Definition TTY_ONLCR : Z := 4.

Definition SIGTTIN : Z := 21.
Definition SIGTTOU : Z := 22.
Definition EINTR : Z := 4.
Definition EFAULT : Z := 14.

Definition BS : Z := 8.
Definition NL : Z := 10.
Definition CR : Z := 13.

(** A call that writes to the console. *)
Inductive output : Type :=
| PutChar (c : Z)
| Kprintf (text : list Z)
| WriteBuf (l : list Z).

Record winsize : Type := Winsize { ws_row : Z; ws_col : Z; ws_xpixel : Z; ws_ypixel : Z }.
Record termios : Type := Termios { c_iflag : Z; c_oflag : Z; c_cflag : Z; c_lflag : Z; c_cc : list Z }.

Record tty : Type := Tty {
  line_buf : array Z;
  line_len : Z;
  canon : cring;
  tty_wq : cring;
  tty_iflag : Z;
  tty_lflag : Z;
  tty_oflag : Z;
  tty_cc : array Z;
  tty_winsize : winsize;
  tty_session_id : Z;
  tty_fg_pgrp : Z;
  t_out : list output
}.

Definition set_line (b : array Z) (n : Z) (t : tty) : tty :=
  Tty b n (canon t) (tty_wq t) (tty_iflag t) (tty_lflag t) (tty_oflag t) (tty_cc t) (tty_winsize t) (tty_session_id t) (tty_fg_pgrp t) (t_out t).
Definition set_line_len (n : Z) (t : tty) : tty := set_line (line_buf t) n t.
Definition set_canon (r : cring) (t : tty) : tty :=
  Tty (line_buf t) (line_len t) r (tty_wq t) (tty_iflag t) (tty_lflag t) (tty_oflag t) (tty_cc t) (tty_winsize t) (tty_session_id t) (tty_fg_pgrp t) (t_out t).
Definition set_wq (q : cring) (t : tty) : tty :=
  Tty (line_buf t) (line_len t) (canon t) q (tty_iflag t) (tty_lflag t) (tty_oflag t) (tty_cc t) (tty_winsize t) (tty_session_id t) (tty_fg_pgrp t) (t_out t).
Definition set_modes (i l o : Z) (cc : array Z) (t : tty) : tty :=
  Tty (line_buf t) (line_len t) (canon t) (tty_wq t) i l o cc (tty_winsize t) (tty_session_id t) (tty_fg_pgrp t) (t_out t).
Definition set_winsize (w : winsize) (t : tty) : tty :=
  Tty (line_buf t) (line_len t) (canon t) (tty_wq t) (tty_iflag t) (tty_lflag t) (tty_oflag t) (tty_cc t) w (tty_session_id t) (tty_fg_pgrp t) (t_out t).
Definition set_job (sid pg : Z) (t : tty) : tty :=
  Tty (line_buf t) (line_len t) (canon t) (tty_wq t) (tty_iflag t) (tty_lflag t) (tty_oflag t) (tty_cc t) (tty_winsize t) sid pg (t_out t).
Definition out (o : output) (t : tty) : tty :=
  Tty (line_buf t) (line_len t) (canon t) (tty_wq t) (tty_iflag t) (tty_lflag t) (tty_oflag t) (tty_cc t) (tty_winsize t) (tty_session_id t) (tty_fg_pgrp t) (t_out t ++ [o]).

Definition flag (v bit : Z) : bool := negb (Z.land v bit =? 0).

(** The initial values of the static variables. *)
Definition tty_cc_init : array Z :=
  arr_new NCCS 0
  |> (fun a => arr_put a VINTR 3) |> (fun a => arr_put a VQUIT 28) |> (fun a => arr_put a VERASE 127)
  |> (fun a => arr_put a VKILL 21) |> (fun a => arr_put a VEOF 4) |> (fun a => arr_put a VSUSP 26)
  |> (fun a => arr_put a VMIN 1) |> (fun a => arr_put a VTIME 0).
Definition tty_static : tty :=
  Tty (arr_new TTY_LINE_MAX 0) 0 (cring_init TTY_CANON_BUF) wq_init TTY_ICRNL (Z.lor (Z.lor TTY_ICANON TTY_ECHO) TTY_ISIG)
    (Z.lor TTY_OPOST TTY_ONLCR) tty_cc_init (Winsize 24 80 0 0) 0 0 [].

Definition tty_init (t : tty) : tty :=
  t |> set_line_len 0 |> set_canon (CRing (c_buf (canon t)) 0 0)
    |> set_wq (CRing (c_buf (tty_wq t)) 0 0) |> set_job 0 0.

(** ** Output *)

Definition onlcr (t : tty) : bool := flag (tty_oflag t) TTY_OPOST && flag (tty_oflag t) TTY_ONLCR.

Definition tty_output_char (c : Z) (t : tty) : tty :=
  (if onlcr t && (c =? NL) then out (PutChar CR) t else t) |> out (PutChar c).

(** The bytes stored in [obuf], of size [osize], when [olen] are there already. *)
Fixpoint tty_opost_expand (do_onlcr : bool) (src : list Z) (olen osize : Z) : list Z :=
  match src with
  | [] => []
  | c :: src =>
      if olen <? osize then
        if do_onlcr && (c =? NL) && (u32 (olen + 1) <? osize)
        then CR :: c :: tty_opost_expand do_onlcr src (u32 (u32 (olen + 1) + 1)) osize
        else c :: tty_opost_expand do_onlcr src (u32 (olen + 1)) osize
      else []
  end.

(** [remaining] bytes in pieces of at most 256. *)
Fixpoint write_chunks (fuel : nat) (t : tty) (data : list Z) : res tty :=
  match fuel with
  | O => NoFuel
  | S f =>
      if Z.of_nat (length data) =? 0 then mret t
      else
        let chunk := take 256 data in
        write_chunks f (out (WriteBuf (tty_opost_expand (onlcr t) chunk 0 512)) t) (drop 256 data)
  end.

(** A background process of the session of the terminal. *)
Definition background (t : tty) (x : proc) : bool :=
  negb (tty_session_id t =? 0) && (session_id x =? tty_session_id t) &&
  negb (tty_fg_pgrp t =? 0) && negb (pgrp_id x =? tty_fg_pgrp t).

Definition tty_write_kbuf (my : Z) (s : sched) (t : tty) (data : list Z) : res (Z * sched * tty) :=
  let len := Z.of_nat (length data) in
  if 1024 * 1024 <? len then mret (- EINVAL, s, t) else
  c ← cur_proc s my;
  match c with
  | Some x =>
      if background t x then '(_, s) ← process_kill my s (pid x) SIGTTOU; mret (- EINTR, s, t)
      else t ← write_chunks (S (length data)) t data; mret (len, s, t)
  | None => t ← write_chunks (S (length data)) t data; mret (len, s, t)
  end.

(** ** Input *)

(** The translation of the input flags; [None]: the character is dropped. *)
Definition translate (iflag c : Z) : option Z :=
  if c =? CR then if flag iflag TTY_IGNCR then None else Some (if flag iflag TTY_ICRNL then NL else c)
  else if c =? NL then Some (if flag iflag TTY_INLCR then CR else c)
  else Some c.

(** The character is the control character [i], which is set. *)
Definition cc_is (t : tty) (i c : Z) : res bool :=
  v ← arr_get (tty_cc t) i; mret (negb (v =? 0) && (c =? v)).

(** The signal of a character and its echo. *)
Definition signal_of (t : tty) (c : Z) : res (option (Z * list Z)) :=
  if flag (tty_lflag t) TTY_ISIG then
    intr ← cc_is t VINTR c; if (intr : bool) then mret (Some (2, [94; 67; NL])) else
    quit ← cc_is t VQUIT c; if (quit : bool) then mret (Some (3, [94; 92; NL])) else
    susp ← cc_is t VSUSP c; if (susp : bool) then mret (Some (20, [94; 90; NL])) else
    mret None
  else mret None.

Definition echo_text (text : list Z) (t : tty) : tty := if flag (tty_lflag t) TTY_ECHO then out (Kprintf text) t else t.
Definition echo_char (c : Z) (t : tty) : tty := if flag (tty_lflag t) TTY_ECHO then tty_output_char c t else t.

(** [for (i = 0; i < line_len; i++) canon_push(line_buf[i]);] with [n] characters left *)
Fixpoint push_line (n : nat) (t : tty) (i : Z) : res tty :=
  match n with
  | O => mret t
  | S n =>
      c ← arr_get (line_buf t) i;
      r ← ring_push TTY_CANON_BUF (canon t) c;
      push_line n (set_canon r t) (u32 (i + 1))
  end.

(** [while (line_len > 0) { line_len--; kprintf("\b \b"); }] *)
Fixpoint erase_line (fuel : nat) (t : tty) : res tty :=
  match fuel with
  | O => NoFuel
  | S f =>
      if 0 <? line_len t then erase_line f (t |> set_line_len (u32 (line_len t - 1)) |> out (Kprintf [BS; 32; BS]))
      else mret t
  end.

(** What [tty_input_char] does besides the terminal. *)
Inductive action : Type :=
| ANone
| AKill (sig : Z)
| AWake.

(** A character in canonical mode that is neither a signal nor the end of file. *)
Definition edit_char (t : tty) (c : Z) : res (tty * action) :=
  erase ← (if c =? BS then mret true else cc_is t VERASE c);
  if (erase : bool) then
    mret (if 0 <? line_len t then t |> set_line_len (u32 (line_len t - 1)) |> echo_text [BS; 32; BS] else t, ANone)
  else
  kill ← cc_is t VKILL c;
  if (kill : bool) then
    t ← (if flag (tty_lflag t) TTY_ECHO then erase_line (S (Z.to_nat (line_len t))) t else mret t);
    mret (set_line_len 0 t, ANone)
  else if c =? NL then
    let t := echo_char NL t in
    t ← push_line (Z.to_nat (line_len t)) t 0;
    r ← ring_push TTY_CANON_BUF (canon t) NL;
    mret (t |> set_canon r |> set_line_len 0, AWake)
  else if (32 <=? c) && (c <=? 126) then
    if u32 (line_len t + 1) <? TTY_LINE_MAX then
      b ← arr_set (line_buf t) (line_len t) c;
      mret (t |> set_line b (u32 (line_len t + 1)) |> echo_char c, ANone)
    else mret (t, ANone)
  else mret (t, ANone).

Definition line_input (t : tty) (c : Z) : res (tty * action) :=
  match translate (tty_iflag t) c with
  | None => mret (t, ANone)
  | Some c =>
      sig ← signal_of t c;
      match sig with
      | Some (sig, text) => mret (echo_text text t, AKill sig)
      | None =>
          eof ← cc_is t VEOF c;
          if (eof : bool) && flag (tty_lflag t) TTY_ICANON then
            let t := echo_text [94; 68] t in
            t ← push_line (Z.to_nat (line_len t)) t 0;
            mret (set_line_len 0 t, AWake)
          else if negb (flag (tty_lflag t) TTY_ICANON) then
            r ← ring_push TTY_CANON_BUF (canon t) c;
            mret (t |> set_canon r |> echo_char c, AWake)
          else edit_char t c
      end
  end.

Definition tty_input_char (my : Z) (s : sched) (t : tty) (c : Z) : res (sched * tty) :=
  '(t, a) ← line_input t c;
  match a with
  | ANone => mret (s, t)
  | AKill sig =>
      if tty_fg_pgrp t =? 0 then mret (s, t)
      else '(_, s) ← process_kill_pgrp (nprocs s) my s (tty_fg_pgrp t) sig; mret (s, t)
  | AWake => '(s, q) ← wq_wake_one my s (tty_wq t); mret (s, set_wq q t)
  end.

(** ** Reading *)

Definition tty_drain_locked (t : tty) (len : Z) : res (list Z * tty) :=
  let avail := ring_count TTY_CANON_BUF (canon t) in
  if avail =? 0 then mret ([], t)
  else
    '(l, r) ← ring_take TTY_CANON_BUF (Z.to_nat (if len <? avail then len else avail)) (canon t);
    mret (l, set_canon r t).

(** How a read waits, from the settings at the start of the call. *)
Inductive read_mode : Type :=
| RCanon
| RPoll
| RTimed (target vtime timeout_ticks start : Z).

Definition read_mode_of (t : tty) (len now : Z) : res read_mode :=
  vmin ← arr_get (tty_cc t) VMIN;
  vtime ← arr_get (tty_cc t) VTIME;
  if flag (tty_lflag t) TTY_ICANON then mret RCanon
  else if (vmin =? 0) && (vtime =? 0) then mret RPoll
  else
    let target := if len <? vmin then len else vmin in
    let target := if target =? 0 then 1 else target in
    let timeout := if 0 <? vtime then (let k := u32 (vtime * (TIMER_HZ / 10)) in if k =? 0 then 1 else k) else 0 in
    mret (RTimed target vtime timeout now).

(** Up to the loop: an error, or the mode. *)
Definition tty_read_begin (my : Z) (s : sched) (t : tty) (len now : Z) : res ((Z + read_mode) * sched) :=
  if 1024 * 1024 <? len then mret (inl (- EINVAL), s) else
  c ← cur_proc s my;
  match c with
  | None => mret (inl (- ECHILD), s)
  | Some x =>
      if background t x then '(_, s) ← process_kill my s (pid x) SIGTTIN; mret (inl (- EINTR), s)
      else m ← read_mode_of t len now; mret (inr m, s)
  end.

(** The caller goes to the wait queue; it is not blocked when the queue is full. *)
Definition tty_block (my : Z) (s : sched) (t : tty) : res (sched * tty) :=
  c ← cur s my;
  '(pushed, q) ← wq_push (tty_wq t) c;
  s ← (if (pushed : bool) then updp s c (set_state PROCESS_BLOCKED) else mret s);
  mret (s, set_wq q t).

Definition read_ready (t : tty) (m : read_mode) (now : Z) : bool :=
  match m with
  | RCanon => negb (ring_empty (canon t))
  | RPoll => true
  | RTimed target vtime timeout start =>
      (target <=? ring_count TTY_CANON_BUF (canon t)) || ((0 <? vtime) && (timeout <=? u32 (now - start)))
  end.

(** One turn of the loop: the bytes read, or [None] when the caller waits. *)
Definition tty_read_turn (my : Z) (s : sched) (t : tty) (len : Z) (m : read_mode) (now : Z) : res (option (list Z) * sched * tty) :=
  if read_ready t m now then '(l, t) ← tty_drain_locked t len; mret (Some l, s, t)
  else '(s, t) ← tty_block my s t; mret (None, s, t).

Definition tty_can_read (t : tty) : bool := negb (ring_empty (canon t)).

(** ** Settings *)

Definition TTY_TCGETS : Z := 21505.
Definition TTY_TCSETS : Z := 21506.
Definition TTY_TCSETSW : Z := 21507.
Definition TTY_TCSETSF : Z := 21508.
Definition TTY_TIOCGPGRP : Z := 21519.
Definition TTY_TIOCSPGRP : Z := 21520.
Definition TTY_TIOCGWINSZ : Z := 21523.
Definition TTY_TIOCSWINSZ : Z := 21524.
Definition TTY_FIONREAD : Z := 21531.

(** The argument of the call: whether the pointer is null, [user_range_ok] by size,
    whether [copy_to_user] succeeds, and what [copy_from_user] reads ([None] when it
    fails; for the window size, also what it leaves in the kernel's copy). *)
Record uarg : Type := UArg {
  ua_null : bool;
  ua_range : Z -> bool;
  ua_out : bool;
  ua_int : option Z;
  ua_termios : option termios;
  ua_winsize : winsize -> bool * winsize
}.

(** What the call stores in user memory. *)
Inductive reply : Type :=
| ReInt (v : Z)
| ReTermios (v : termios)
| ReWinsize (v : winsize).

Definition give (a : uarg) (size : Z) (v : reply) (t : tty) : Z * option reply * tty :=
  if negb (ua_range a size) then (- EFAULT, None, t)
  else if ua_out a then (0, Some v, t) else (- EFAULT, None, t).

(** [(int)v] *)
Definition to_int (v : Z) : Z := s32 v.

(** The first process of a session that uses the terminal makes it its own. *)
Definition adopt (c : option proc) (t : tty) : tty :=
  match c with
  | Some x => if (tty_session_id t =? 0) && negb (session_id x =? 0) then set_job (session_id x) (pgrp_id x) t else t
  | None => t
  end.

(** [TIOCSPGRP] with the value [fg], by the process [c]. *)
Definition set_foreground (c : option proc) (fg : Z) (t : tty) : Z * tty :=
  match c with
  | None => (- EINVAL, t)
  | Some x =>
      if tty_session_id t =? 0 then if negb (fg =? 0) then (- EPERM, t) else (0, set_job (tty_session_id t) 0 t)
      else if negb (session_id x =? tty_session_id t) then
        if (session_id x =? pid x) && (u32 fg =? pgrp_id x) then (0, set_job (session_id x) (u32 fg) t) else (- EPERM, t)
      else if fg <? 0 then (- EINVAL, t)
      else (0, set_job (tty_session_id t) (u32 fg) t)
  end.

Fixpoint copy_cc (l : list Z) (i : Z) (a : array Z) : res (array Z) :=
  match l with
  | [] => mret a
  | v :: l => a ← arr_set a i v; copy_cc l (i + 1) a
  end.

Fixpoint read_cc (n : nat) (i : Z) (a : array Z) : res (list Z) :=
  match n with
  | O => mret []
  | S n => v ← arr_get a i; l ← read_cc n (i + 1) a; mret (v :: l)
  end.

Definition set_termios (v : termios) (t : tty) : res tty :=
  cc ← copy_cc (take (Z.to_nat NCCS) (c_cc v)) 0 (tty_cc t);
  mret (set_modes (Z.land (c_iflag v) (Z.lor (Z.lor TTY_ICRNL TTY_IGNCR) TTY_INLCR))
          (Z.land (c_lflag v) (Z.lor (Z.lor TTY_ICANON TTY_ECHO) TTY_ISIG))
          (Z.land (c_oflag v) (Z.lor TTY_OPOST TTY_ONLCR)) cc t).

Definition get_termios (t : tty) : res termios :=
  cc ← read_cc (Z.to_nat NCCS) 0 (tty_cc t);
  mret (Termios (tty_iflag t) (tty_oflag t) 0 (tty_lflag t) cc).

Definition sizeof_int : Z := 4.
Definition sizeof_termios : Z := 28.
Definition sizeof_winsize : Z := 8.

Definition tty_ioctl (my : Z) (s : sched) (t : tty) (cmd : Z) (a : uarg) : res (Z * option reply * tty) :=
  if ua_null a then mret (- EFAULT, None, t) else
  c ← cur_proc s my;
  let t := adopt c t in
  if cmd =? TTY_TIOCGPGRP then mret (give a sizeof_int (ReInt (to_int (tty_fg_pgrp t))) t)
  else if cmd =? TTY_TIOCSPGRP then
    if negb (ua_range a sizeof_int) then mret (- EFAULT, None, t) else
    match ua_int a with
    | None => mret (- EFAULT, None, t)
    | Some fg => let '(r, t) := set_foreground c fg t in mret (r, None, t)
    end
  else if negb (ua_range a sizeof_termios) then mret (- EFAULT, None, t)
  else if cmd =? TTY_TCGETS then v ← get_termios t; mret (if ua_out a then (0, Some (ReTermios v), t) else (- EFAULT, None, t))
  else if (cmd =? TTY_TCSETS) || (cmd =? TTY_TCSETSW) || (cmd =? TTY_TCSETSF) then
    match ua_termios a with
    | None => mret (- EFAULT, None, t)
    | Some v => t ← set_termios v t; mret (0, None, t)
    end
  else if cmd =? TTY_TIOCGWINSZ then mret (give a sizeof_winsize (ReWinsize (tty_winsize t)) t)
  else if cmd =? TTY_TIOCSWINSZ then
    if negb (ua_range a sizeof_winsize) then mret (- EFAULT, None, t) else
    let '(ok, w) := ua_winsize a (tty_winsize t) in
    mret (if (ok : bool) then 0 else - EFAULT, None, set_winsize w t)
  else if cmd =? TTY_FIONREAD then
    mret (give a sizeof_int (ReInt (to_int (Z.land (u32 (c_head (canon t) - c_tail (canon t))) (TTY_CANON_BUF - 1)))) t)
  else mret (- EINVAL, None, t).

(** ** The system calls *)

(** The loop of [tty_write]: [copy off n] is what [copy_from_user] reads at [off]. *)
Fixpoint tty_write_loop (fuel : nat) (copy : Z -> Z -> option (list Z)) (t : tty) (off remaining len : Z) : res (Z * tty) :=
  match fuel with
  | O => NoFuel
  | S f =>
      if remaining =? 0 then mret (len, t)
      else
        let chunk := if 256 <? remaining then 256 else remaining in
        match copy off chunk with
        | None => mret (- EFAULT, t)
        | Some data =>
            tty_write_loop f copy (out (WriteBuf (tty_opost_expand (onlcr t) data 0 512)) t)
              (u32 (off + chunk)) (u32 (remaining - chunk)) len
        end
  end.

Definition tty_write (my : Z) (s : sched) (t : tty) (null range_ok : bool) (copy : Z -> Z -> option (list Z)) (len : Z)
    : res (Z * sched * tty) :=
  if null then mret (- EFAULT, s, t) else
  if 1024 * 1024 <? len then mret (- EINVAL, s, t) else
  if negb range_ok then mret (- EFAULT, s, t) else
  c ← cur_proc s my;
  let go := '(r, t) ← tty_write_loop (S (Z.to_nat len)) copy t 0 len len; mret (r, s, t) in
  match c with
  | Some x => if background t x then '(_, s) ← process_kill my s (pid x) SIGTTOU; mret (- EINTR, s, t) else go
  | None => go
  end.

(** The loop of [tty_read] over a call of [tty_read_kbuf]: [copy off n] says whether
    [copy_to_user] succeeds. *)
Fixpoint tty_read_loop {W : Type} (fuel : nat) (kread : W -> Z -> res (Z * list Z * W)) (copy : Z -> Z -> bool)
    (w : W) (len total : Z) (acc : list Z) : res (Z * list Z * W) :=
  match fuel with
  | O => NoFuel
  | S f =>
      if total <? len then
        let chunk := if 256 <? u32 (len - total) then 256 else u32 (len - total) in
        r ← kread w chunk;
        let '(rc, l, w) := r in
        if rc <? 0 then mret (if 0 <? total then total else rc, acc, w)
        else if rc =? 0 then mret (total, acc, w)
        else if negb (copy total rc) then mret (- EFAULT, acc, w)
        else if rc <? chunk then mret (u32 (total + rc), acc ++ l, w)
        else tty_read_loop f kread copy w len (u32 (total + rc)) (acc ++ l)
      else mret (total, acc, w)
  end.

Definition tty_read {W : Type} (kread : W -> Z -> res (Z * list Z * W)) (null range_ok : bool) (copy : Z -> Z -> bool)
    (w : W) (len : Z) : res (Z * list Z * W) :=
  if null then mret (- EFAULT, [], w) else
  if 1024 * 1024 <? len then mret (- EINVAL, [], w) else
  if negb range_ok then mret (- EFAULT, [], w) else
  tty_read_loop (S (Z.to_nat len)) kread copy w len 0 [].

(** The operations of /dev/console and /dev/tty. *)
Definition tty_devfs_write (my : Z) (s : sched) (t : tty) (data : list Z) : res (Z * sched * tty) :=
  r ← tty_write_kbuf my s t data;
  let '(rc, s, t) := r in mret (if rc <? 0 then 0 else rc, s, t).

Definition tty_devfs_poll (t : tty) (events : Z) : Z :=
  let r := if flag events 1 && tty_can_read t then 1 else 0 in
  if flag events 4 then Z.lor r 4 else r.
