(* ===== verification/TtySpec.v ===== *)
(** The line discipline of [Tty] against an editor of lists: what a key means under
    the settings of the terminal, and what it does to the line being typed and to the
    text that can be read. *)

From S2P Require Import Prelude Ring Runq SortedQ AsRef SchedState Sched SchedInv SchedSpec Process Cring WaitQ Tty.

(** ** The reference *)

Inductive key : Type :=
| KDropped
| KSignal (sig : Z)
| KEof
| KRaw (c : Z)
| KErase
| KKill
| KNewline
| KPrint (c : Z)
| KOther.

(** The control character [i], when it is set. *)
Definition is_cc (t : tty) (i c : Z) : bool := negb (arr_at (tty_cc t) i =? 0) && (c =? arr_at (tty_cc t) i).

(** The bits of the local modes: 0 for the signals, 1 for the canonical mode. *)
Definition signals (t : tty) : bool := Z.testbit (tty_lflag t) 0.
Definition canonical (t : tty) : bool := Z.testbit (tty_lflag t) 1.

(** The character that is taken for [c].  The input modes map a carriage return (13) to
    nothing (bit 7) or else to a newline (bit 8), and a newline (10) to a carriage return
    (bit 6). *)
Definition taken (t : tty) (c : Z) : list Z :=
  let cr := bool_decide (c = 13) in
  let nl := bool_decide (c = 10) in
  if cr && Z.testbit (tty_iflag t) 7 then []
  else if cr && Z.testbit (tty_iflag t) 8 then [10]
  else if nl && Z.testbit (tty_iflag t) 6 then [13]
  else [c].

(** The key of a character in the canonical mode. *)
Definition line_key (t : tty) (c : Z) : key :=
  if (c =? BS) || is_cc t VERASE c then KErase
  else if is_cc t VKILL c then KKill
  else if c =? NL then KNewline
  else if (32 <=? c) && (c <=? 126) then KPrint c
  else KOther.

Definition key_of (t : tty) (c : Z) : key :=
  match taken t c with
  | c :: _ =>
      if signals t && is_cc t VINTR c then KSignal 2
      else if signals t && is_cc t VQUIT c then KSignal 3
      else if signals t && is_cc t VSUSP c then KSignal 20
      else if canonical t then if is_cc t VEOF c then KEof else line_key t c
      else KRaw c
  | [] => KDropped
  end.

(** A flag of the code is a bit. *)
Lemma flag_bit v k : 0 <= k -> flag v (2 ^ k) = Z.testbit v k.
Proof.
  intros Hk. unfold flag. destruct (Z.testbit v k) eqn:E.
  - apply negb_true_iff, Z.eqb_neq. intros H. apply (f_equal (fun x => Z.testbit x k)) in H.
    rewrite Z.land_spec, E, Z.pow2_bits_true, Z.bits_0 in H by lia. discriminate.
  - apply negb_false_iff, Z.eqb_eq, Z.bits_inj'. intros j Hj. rewrite Z.land_spec, Z.bits_0.
    destruct (Z.eq_dec j k) as [->|Hjk]; [rewrite E; reflexivity|]. rewrite Z.pow2_bits_false by lia. apply andb_false_r.
Qed.

Lemma translate_taken t c : translate (tty_iflag t) c = head (taken t c).
Proof.
  unfold translate, taken. rewrite <- !flag_bit by lia. change (2 ^ 7) with TTY_IGNCR. change (2 ^ 8) with TTY_ICRNL. change (2 ^ 6) with TTY_INLCR.
  unfold CR, NL. destruct (Z.eqb_spec c 13) as [->|H1]; [|rewrite (bool_decide_false (c = 13)) by lia].
  - rewrite bool_decide_true by reflexivity. cbn [andb]. destruct (flag (tty_iflag t) TTY_IGNCR), (flag (tty_iflag t) TTY_ICRNL); reflexivity.
  - cbn [andb]. destruct (Z.eqb_spec c 10) as [->|H2]; [|rewrite bool_decide_false by lia; reflexivity].
    rewrite bool_decide_true by reflexivity. cbn [andb]. destruct (flag (tty_iflag t) TTY_INLCR); reflexivity.
Qed.

Lemma signals_flag t : signals t = flag (tty_lflag t) TTY_ISIG.
Proof. unfold signals. rewrite <- flag_bit by lia. reflexivity. Qed.

Lemma canonical_flag t : canonical t = flag (tty_lflag t) TTY_ICANON.
Proof. unfold canonical. rewrite <- flag_bit by lia. reflexivity. Qed.

(** The line being typed and the text that can be read. *)
Definition text : Type := list Z * list Z.

Definition readable (l : list Z) : list Z := newest TTY_CANON_BUF l.

Definition press (k : key) (e : text) : text * action :=
  let '(line, q) := e in
  match k with
  | KDropped | KOther => ((line, q), ANone)
  | KSignal sig => ((line, q), AKill sig)
  | KEof => (([], readable (q ++ line)), AWake)
  | KRaw c => ((line, readable (q ++ [c])), AWake)
  | KErase => ((removelast line, q), ANone)
  | KKill => (([], q), ANone)
  | KNewline => (([], readable (q ++ line ++ [NL])), AWake)
  | KPrint c => ((if Z.of_nat (length line) <? 255 then line ++ [c] else line, q), ANone)
  end.

(** ** The terminal holds a text *)

Record tty_ok (t : tty) (e : text) : Prop := TtyOk {
  tk_buf : arr_len (line_buf t) = TTY_LINE_MAX;
  tk_len : line_len t = Z.of_nat (length (fst e));
  tk_max : Z.of_nat (length (fst e)) < TTY_LINE_MAX;
  tk_at : forall i v, fst e !! i = Some v -> arr_at (line_buf t) (Z.of_nat i) = v;
  tk_canon : cr_ok TTY_CANON_BUF (canon t) (snd e);
  tk_cc : arr_len (tty_cc t) = NCCS
}.

(** Nothing but the line, the text and the output has changed. *)
Definition same_settings (t t' : tty) : Prop :=
  tty_wq t' = tty_wq t /\ tty_iflag t' = tty_iflag t /\ tty_lflag t' = tty_lflag t /\ tty_oflag t' = tty_oflag t /\
  tty_cc t' = tty_cc t /\ tty_session_id t' = tty_session_id t /\ tty_fg_pgrp t' = tty_fg_pgrp t.

Lemma same_settings_refl t : same_settings t t.
Proof. red. auto 10. Qed.

Lemma same_settings_trans t1 t2 t3 : same_settings t1 t2 -> same_settings t2 t3 -> same_settings t1 t3.
Proof. unfold same_settings. intuition congruence. Qed.

Lemma tty_ok_same t t' e :
  tty_ok t e -> line_buf t' = line_buf t -> line_len t' = line_len t -> canon t' = canon t -> tty_cc t' = tty_cc t -> tty_ok t' e.
Proof. intros [H1 H2 H3 H4 H5 H6] E1 E2 E3 E4. split; rewrite ?E1, ?E2, ?E3, ?E4; auto. Qed.

Lemma out_same o t : same_settings t (out o t) /\ forall e, tty_ok t e -> tty_ok (out o t) e.
Proof. split; [red; auto 10|]. intros e H. eapply tty_ok_same; eauto. Qed.

Lemma echo_text_same l t : same_settings t (echo_text l t) /\ forall e, tty_ok t e -> tty_ok (echo_text l t) e.
Proof. unfold echo_text. destruct (flag _ _); [apply out_same|split; [apply same_settings_refl|auto]]. Qed.

Lemma output_char_same c t : same_settings t (tty_output_char c t) /\ forall e, tty_ok t e -> tty_ok (tty_output_char c t) e.
Proof.
  unfold tty_output_char. destruct (_ && _); split; try (red; auto 10); intros e H; eapply tty_ok_same; eauto.
Qed.

Lemma echo_char_same c t : same_settings t (echo_char c t) /\ forall e, tty_ok t e -> tty_ok (echo_char c t) e.
Proof. unfold echo_char. destruct (flag _ _); [apply output_char_same|split; [apply same_settings_refl|auto]]. Qed.

Lemma cc_is_ok t e i c : tty_ok t e -> 0 <= i < NCCS -> cc_is t i c = Ok (is_cc t i c).
Proof. intros H Hi. unfold cc_is. rewrite arr_get_ok by (rewrite (tk_cc _ _ H); auto). reflexivity. Qed.

(** ** The operations *)

Lemma set_canon_ok t line q r q' : tty_ok t (line, q) -> cr_ok TTY_CANON_BUF r q' -> tty_ok (set_canon r t) (line, q').
Proof. intros [H1 H2 H3 H4 H5 H6] Hr. split; auto. Qed.

Lemma shorter_line t line q n line' :
  tty_ok t (line, q) -> n = Z.of_nat (length line') -> line' `prefix_of` line -> tty_ok (set_line_len n t) (line', q).
Proof.
  intros [H1 H2 H3 H4 H5 H6] -> Hp. pose proof (prefix_length _ _ Hp). split; simpl in *; auto; try lia.
  intros i v Hv. apply H4. eapply prefix_lookup_Some; eauto.
Qed.

Lemma push_line_ok n : forall t i line q,
  tty_ok t (line, q) -> (i + n = length line)%nat ->
  exists t', push_line n t (Z.of_nat i) = Ok t' /\ tty_ok t' (line, readable (q ++ drop i line)) /\ same_settings t t' /\
    line_len t' = line_len t.
Proof.
  induction n as [|n IH]; intros t i line q H Hn.
  - exists t. rewrite drop_ge, app_nil_r by lia. unfold readable. rewrite newest_id by apply (cr_room _ _ _ (tk_canon _ _ H)).
    split; [reflexivity|]. split; [auto|]. split; [apply same_settings_refl|reflexivity].
  - destruct (lookup_lt_is_Some_2 line i) as [c Hc]; [lia|]. pose proof H as [H1 H2 H3 H4 H5 H6].
    cbn [push_line]. rewrite arr_get_ok, res_bind_ok by (cbn [fst] in H3; lia). rewrite (H4 i c Hc).
    destruct (ring_push_ok H5 c) as (r & -> & Hr). rewrite res_bind_ok. cbn [fst] in H3. unfold TTY_LINE_MAX in H3.
    rewrite u32_small by lia. replace (Z.of_nat i + 1) with (Z.of_nat (S i)) by lia.
    destruct (IH (set_canon r t) (S i) line _ (set_canon_ok _ _ _ _ _ H Hr)) as (t' & -> & Ht & Hs & El); [lia|].
    exists t'. split; [reflexivity|]. unfold readable in *. rewrite newest_app, <- app_assoc in Ht by (unfold TTY_CANON_BUF; lia).
    rewrite (drop_S line c i Hc). auto.
Qed.

Lemma flush_ok t line q :
  tty_ok t (line, q) ->
  exists t', push_line (Z.to_nat (line_len t)) t 0 = Ok t' /\ tty_ok t' (line, readable (q ++ line)) /\ same_settings t t'.
Proof.
  intros H. destruct (push_line_ok (length line) t 0 line q H eq_refl) as (t' & E & Ht & Hs & _).
  rewrite (tk_len _ _ H), Nat2Z.id. eauto.
Qed.

Lemma erase_line_ok fuel : forall t line q,
  tty_ok t (line, q) -> (length line < fuel)%nat ->
  exists t', erase_line fuel t = Ok t' /\ tty_ok t' ([], q) /\ same_settings t t'.
Proof.
  induction fuel as [|fuel IH]; intros t line q H Hf; [lia|]. cbn [erase_line]. pose proof (tk_len _ _ H) as El.
  pose proof (tk_max _ _ H) as Em. unfold TTY_LINE_MAX in Em. cbn [fst] in *.
  destruct (Z.ltb_spec 0 (line_len t)) as [Hp|Hp].
  - destruct line as [|c line'] using rev_ind; [simpl in *; lia|]. clear IHline'. rewrite length_app in *. simpl in *.
    assert (H1 : tty_ok (set_line_len (u32 (line_len t - 1)) t) (line', q)).
    { apply (shorter_line t (line' ++ [c])); auto; [rewrite u32_small; lia|apply prefix_app_r; reflexivity]. }
    destruct (out_same (Kprintf [BS; 32; BS]) (set_line_len (u32 (line_len t - 1)) t)) as [S1 H2].
    destruct (IH _ line' q (H2 _ H1)) as (t' & E & H3 & S2); [lia|]. exists t'. split; [exact E|]. split; [auto|].
    eapply same_settings_trans; [|exact S2]. eapply same_settings_trans; [|exact S1]. red. auto 10.
  - destruct line; [|simpl in *; lia]. eexists. split; [reflexivity|]. split; [auto|apply same_settings_refl].
Qed.

Lemma removelast_prefix (l : list Z) : removelast l `prefix_of` l /\ length (removelast l) = (length l - 1)%nat.
Proof.
  destruct l as [|c l _] using rev_ind; [split; [apply prefix_nil|reflexivity]|].
  rewrite removelast_last, length_app. simpl. split; [apply prefix_app_r; reflexivity|lia].
Qed.

(** What a step of the terminal has to do for the key [k]. *)
Definition follows (t : tty) (e : text) (k : key) (r : res (tty * action)) : Prop :=
  exists t', r = Ok (t', snd (press k e)) /\ tty_ok t' (fst (press k e)) /\ same_settings t t'.

Lemma erase_char_ok t e :
  tty_ok t e ->
  follows t e KErase (mret (if 0 <? line_len t then t |> set_line_len (u32 (line_len t - 1)) |> echo_text [BS; 32; BS] else t, ANone)).
Proof.
  destruct e as [line q]. intros H. pose proof (tk_len _ _ H) as El. pose proof (tk_max _ _ H) as Em.
  unfold TTY_LINE_MAX in Em. destruct (removelast_prefix line) as [Hp Hn]. cbn [fst] in *.
  destruct (Z.ltb_spec 0 (line_len t)) as [Hl|Hl]; eexists; (split; [reflexivity|]); simpl.
  - assert (H1 : tty_ok (set_line_len (u32 (line_len t - 1)) t) (removelast line, q)).
    { apply (shorter_line t line); auto. rewrite u32_small by lia. lia. }
    destruct (echo_text_same [BS; 32; BS] (set_line_len (u32 (line_len t - 1)) t)) as [S1 H2]. split; [auto|].
    eapply same_settings_trans; [|exact S1]. red. auto 10.
  - destruct line; [|simpl in *; lia]. split; [auto|apply same_settings_refl].
Qed.

Lemma kill_line_ok t e :
  tty_ok t e ->
  follows t e KKill (t ← (if flag (tty_lflag t) TTY_ECHO then erase_line (S (Z.to_nat (line_len t))) t else mret t);
                     mret (set_line_len 0 t, ANone)).
Proof.
  destruct e as [line q]. intros H. unfold follows. cbn [press fst snd]. destruct (flag (tty_lflag t) TTY_ECHO).
  - destruct (erase_line_ok (S (Z.to_nat (line_len t))) t line q H) as (t' & -> & H' & S');
      [rewrite (tk_len _ _ H); cbn [fst]; lia|].
    rewrite res_bind_ok. eexists. split; [reflexivity|]. split; [apply (shorter_line t' []); auto|].
    eapply same_settings_trans; [exact S'|]. red. auto 10.
  - rewrite res_bind_ok. eexists. split; [reflexivity|]. split; [|red; auto 10].
    apply (shorter_line t line); auto. apply prefix_nil.
Qed.

Lemma newline_ok t e :
  tty_ok t e ->
  follows t e KNewline (let t := echo_char NL t in
    t ← push_line (Z.to_nat (line_len t)) t 0;
    r ← ring_push TTY_CANON_BUF (canon t) NL;
    mret (t |> set_canon r |> set_line_len 0, AWake)).
Proof.
  destruct e as [line q]. intros H. cbv zeta. destruct (echo_char_same NL t) as [S1 H1].
  destruct (flush_ok _ _ _ (H1 _ H)) as (t' & -> & H' & S2). rewrite res_bind_ok.
  destruct (ring_push_ok (tk_canon _ _ H') NL) as (r & -> & Hr). rewrite res_bind_ok. eexists. split; [reflexivity|]. simpl.
  split; [|eapply same_settings_trans; [exact S1|]; eapply same_settings_trans; [exact S2|]; red; auto 10].
  apply (shorter_line (set_canon r t') line); [|reflexivity|apply prefix_nil]. eapply set_canon_ok; [exact H'|].
  unfold readable in *. cbn [snd] in Hr. rewrite newest_app, <- app_assoc in Hr by (unfold TTY_CANON_BUF; lia). exact Hr.
Qed.

Lemma print_char_ok t e c :
  tty_ok t e ->
  follows t e (KPrint c) (if u32 (line_len t + 1) <? TTY_LINE_MAX then
      b ← arr_set (line_buf t) (line_len t) c;
      mret (t |> set_line b (u32 (line_len t + 1)) |> echo_char c, ANone)
    else mret (t, ANone)).
Proof.
  destruct e as [line q]. intros [H1 H2 H3 H4 H5 H6]. unfold follows, TTY_LINE_MAX in *. cbn [fst snd press] in *.
  rewrite u32_small by lia. destruct (Z.ltb_spec (line_len t + 1) 256) as [Hl|Hl]; zdecide.
  - rewrite arr_set_ok, res_bind_ok by lia. eexists. split; [reflexivity|].
    set (t1 := set_line (arr_put (line_buf t) (line_len t) c) (line_len t + 1) t).
    assert (Ht : tty_ok t1 (line ++ [c], q)).
    { split; simpl; rewrite ?arr_len_put, ?length_app; simpl; unfold TTY_LINE_MAX; auto; try lia.
      intros i v Hv. rewrite arr_at_put. apply lookup_snoc_Some in Hv as [[Hi Hv]|[-> <-]]; zdecide; auto. }
    destruct (echo_char_same c t1) as [S1 H']. split; [auto|]. eapply same_settings_trans; [|exact S1]. red. auto 10.
  - eexists. split; [reflexivity|]. split; [split; auto|apply same_settings_refl].
Qed.

Lemma edit_char_ok t e c : tty_ok t e -> follows t e (line_key t c) (edit_char t c).
Proof.
  intros H. unfold edit_char, line_key. rewrite (cc_is_ok t e VERASE c H), (cc_is_ok t e VKILL c H) by (unfold NCCS, VERASE, VKILL; lia).
  assert (E : (if c =? BS then mret true else Ok (is_cc t VERASE c)) = Ok ((c =? BS) || is_cc t VERASE c)) by (destruct (c =? BS); reflexivity).
  rewrite E, res_bind_ok. destruct ((c =? BS) || is_cc t VERASE c); [apply erase_char_ok; auto|]. rewrite res_bind_ok.
  destruct (is_cc t VKILL c); [apply kill_line_ok; auto|]. destruct (c =? NL); [apply newline_ok; auto|].
  destruct ((32 <=? c) && (c <=? 126)); [apply print_char_ok; auto|].
  destruct e. eexists. split; [reflexivity|]. split; [auto|apply same_settings_refl].
Qed.

Lemma signal_of_ok t e c :
  tty_ok t e ->
  exists o, signal_of t c = Ok o /\
    option_map fst o =
      (if flag (tty_lflag t) TTY_ISIG && is_cc t VINTR c then Some 2
       else if flag (tty_lflag t) TTY_ISIG && is_cc t VQUIT c then Some 3
       else if flag (tty_lflag t) TTY_ISIG && is_cc t VSUSP c then Some 20 else None).
Proof.
  intros H. unfold signal_of. destruct (flag (tty_lflag t) TTY_ISIG); [|eexists; split; reflexivity].
  rewrite !(cc_is_ok t e _ c H) by (unfold NCCS, VINTR, VQUIT, VSUSP; lia). rewrite !res_bind_ok. cbn [andb].
  destruct (is_cc t VINTR c), (is_cc t VQUIT c), (is_cc t VSUSP c); eexists; split; reflexivity.
Qed.

(** Every character has the effect of its key. *)
Lemma line_input_ok t e c : tty_ok t e -> follows t e (key_of t c) (line_input t c).
Proof.
  intros H. unfold line_input, key_of. rewrite translate_taken, signals_flag. destruct (taken t c) as [|d ds]; cbn [head].
  { destruct e. eexists. split; [reflexivity|]. split; [auto|apply same_settings_refl]. }
  destruct (signal_of_ok t e d H) as (o & -> & Eo). rewrite res_bind_ok.
  assert (Hsig : forall sig l, o = Some (sig, l) -> follows t e (KSignal sig) (mret (echo_text l t, AKill sig))).
  { intros sig l _. destruct (echo_text_same l t) as [S1 H1]. destruct e. eexists. split; [reflexivity|]. auto. }
  destruct o as [[sig l]|]; simpl in Eo.
  - specialize (Hsig sig l eq_refl). destruct (_ && _); [injection Eo as ->; exact Hsig|].
    destruct (_ && _); [injection Eo as ->; exact Hsig|]. destruct (_ && _); [injection Eo as ->; exact Hsig|discriminate].
  - destruct (_ && is_cc t VINTR d); [discriminate|]. destruct (_ && is_cc t VQUIT d); [discriminate|].
    destruct (_ && is_cc t VSUSP d); [discriminate|].
    rewrite (cc_is_ok t e VEOF d H), res_bind_ok by (unfold NCCS, VEOF; lia). rewrite canonical_flag.
    destruct (flag (tty_lflag t) TTY_ICANON); rewrite ?andb_true_r, ?andb_false_r; cbn [negb].
    + destruct (is_cc t VEOF d); [|apply edit_char_ok; auto]. cbv zeta. destruct e as [line q].
      destruct (echo_text_same [94; 68] t) as [S1 H1]. destruct (flush_ok _ _ _ (H1 _ H)) as (t' & -> & H' & S2).
      rewrite res_bind_ok. eexists. split; [reflexivity|]. simpl.
      split; [apply (shorter_line t' line); auto; apply prefix_nil|].
      eapply same_settings_trans; [exact S1|]. eapply same_settings_trans; [exact S2|]. red. auto 10.
    + destruct e as [line q]. destruct (ring_push_ok (tk_canon _ _ H) d) as (r & -> & Hr). rewrite res_bind_ok.
      destruct (echo_char_same d (set_canon r t)) as [S1 H1]. eexists. split; [reflexivity|]. simpl.
      split; [apply H1; eapply set_canon_ok; eauto|]. eapply same_settings_trans; [|exact S1]. red. auto 10.
Qed.

(** ** Typing *)

(** The characters [cs] one after the other, and what each does besides the terminal. *)
Fixpoint feed (t : tty) (cs : list Z) : res (tty * list action) :=
  match cs with
  | [] => mret (t, [])
  | c :: cs => '(t, a) ← line_input t c; '(t, l) ← feed t cs; mret (t, a :: l)
  end.

(** The keys one after the other. *)
Fixpoint presses (ks : list key) (e : text) : text * list action :=
  match ks with
  | [] => (e, [])
  | k :: ks => let '(e, a) := press k e in let '(e, l) := presses ks e in (e, a :: l)
  end.

Lemma key_of_same t t' c : same_settings t t' -> key_of t' c = key_of t c.
Proof.
  intros (_ & E1 & E2 & _ & E3 & _). unfold key_of, line_key, taken, is_cc, signals, canonical. rewrite E1, E2, E3. reflexivity.
Qed.

Lemma feed_ok cs : forall t e,
  tty_ok t e ->
  exists t', feed t cs = Ok (t', snd (presses (key_of t <$> cs) e)) /\
    tty_ok t' (fst (presses (key_of t <$> cs) e)) /\ same_settings t t'.
Proof.
  induction cs as [|c cs IH]; intros t e H.
  - exists t. split; [reflexivity|]. split; [auto|apply same_settings_refl].
  - cbn [feed fmap list_fmap presses]. destruct (line_input_ok t e c H) as (t1 & -> & H1 & S1). rewrite res_bind_ok.
    destruct (press (key_of t c) e) as [e1 a]. cbn [fst snd] in *. destruct (IH t1 e1 H1) as (t' & E & H' & S').
    rewrite (list_fmap_ext (key_of t1) (key_of t) cs) in E, H' by (intros ? x _; apply key_of_same; auto).
    rewrite E, res_bind_ok. destruct (presses (key_of t <$> cs) e1) as [e2 l]. exists t'. split; [reflexivity|].
    split; [auto|eapply same_settings_trans; eauto].
Qed.

Lemma presses_app ks1 ks2 e :
  presses (ks1 ++ ks2) e =
  (fst (presses ks2 (fst (presses ks1 e))), snd (presses ks1 e) ++ snd (presses ks2 (fst (presses ks1 e)))).
Proof.
  revert e. induction ks1 as [|k ks1 IH]; intros e; simpl; [destruct (presses ks2 e); reflexivity|].
  destruct (press k e) as [e1 a]. rewrite IH. destruct (presses ks1 e1) as [e2 l]. reflexivity.
Qed.

(** ** Reading *)

Lemma drain_ok t line q len :
  tty_ok t (line, q) -> 0 <= len ->
  exists t', tty_drain_locked t len = Ok (take (Z.to_nat len) q, t') /\ tty_ok t' (line, drop (Z.to_nat len) q) /\ same_settings t t'.
Proof.
  intros H Hl. unfold tty_drain_locked. cbv zeta. rewrite (ring_count_ok (tk_canon _ _ H)). cbn [snd].
  destruct (Z.eqb_spec (Z.of_nat (length q)) 0) as [E|E].
  - destruct q; [|simpl in E; lia]. exists t. rewrite take_nil, drop_nil. split; [reflexivity|]. split; [auto|apply same_settings_refl].
  - assert (En : forall n, n = Z.to_nat (if len <? Z.of_nat (length q) then len else Z.of_nat (length q)) ->
      take n q = take (Z.to_nat len) q /\ drop n q = drop (Z.to_nat len) q /\ (n <= length q)%nat).
    { intros n ->. destruct (Z.ltb_spec len (Z.of_nat (length q))); [split; [auto|split; [auto|lia]]|].
      rewrite !take_ge, !drop_ge by lia. split; [auto|split; [auto|lia]]. }
    destruct (En _ eq_refl) as (E1 & E2 & E3). destruct (ring_take_ok _ _ _ _ (tk_canon _ _ H) E3) as (r & -> & Hr).
    rewrite res_bind_ok. cbn [snd] in *. rewrite E1. rewrite E2 in Hr. eexists. split; [reflexivity|].
    split; [eapply set_canon_ok; eauto|red; auto 10].
Qed.

(** ** Writing *)

(** The text as it goes to the console. *)
Definition expand (b : bool) (l : list Z) : list Z := concat (map (fun c => if b && (c =? NL) then [CR; c] else [c]) l).

Lemma opost_expand_ok b l : forall olen osize,
  0 <= olen -> olen + 2 * Z.of_nat (length l) <= osize <= 512 -> tty_opost_expand b l olen osize = expand b l.
Proof.
  induction l as [|c l IH]; intros olen osize Ho Hs; [reflexivity|]. cbn [tty_opost_expand length] in *.
  rewrite (u32_small (olen + 1)) by lia. rewrite (u32_small (olen + 1 + 1)) by lia. zdecide. unfold expand. simpl.
  destruct (b && (c =? NL)); simpl; rewrite IH by lia; reflexivity.
Qed.

Lemma expand_app b l1 l2 : expand b (l1 ++ l2) = expand b l1 ++ expand b l2.
Proof. unfold expand. rewrite map_app, concat_app. reflexivity. Qed.

Lemma write_chunks_ok fuel : forall t data,
  (length data < fuel)%nat ->
  exists t' bufs, write_chunks fuel t data = Ok t' /\ t_out t' = t_out t ++ map WriteBuf bufs /\
    concat bufs = expand (onlcr t) data /\ (forall e, tty_ok t e -> tty_ok t' e) /\ same_settings t t'.
Proof.
  induction fuel as [|fuel IH]; intros t data Hf; [lia|]. cbn [write_chunks].
  destruct (Z.eqb_spec (Z.of_nat (length data)) 0) as [E|E].
  - destruct data; [|simpl in E; lia]. exists t, []. rewrite app_nil_r. split; [reflexivity|]. split; [reflexivity|].
    split; [reflexivity|]. split; [auto|apply same_settings_refl].
  - set (o := WriteBuf (tty_opost_expand (onlcr t) (take 256 data) 0 512)).
    destruct (IH (out o t) (drop 256 data)) as (t' & bufs & -> & Eo & Ec & Hk & Hs); [rewrite length_drop; lia|].
    destruct (out_same o t) as [S1 H1].
    exists t', (tty_opost_expand (onlcr t) (take 256 data) 0 512 :: bufs). split; [reflexivity|].
    split; [rewrite Eo; simpl; rewrite <- app_assoc; reflexivity|].
    split; [|split; [auto|eapply same_settings_trans; eauto]]. simpl. rewrite Ec, opost_expand_ok; [|lia|rewrite length_take; lia].
    rewrite <- (take_drop 256 data) at 3. rewrite expand_app. reflexivity.
Qed.
