(* ===== verification/Pty.v ===== *)
(** Pseudo-terminals (src/kernel/pty.c, include/pty.h): pairs of buffers between a
    master and a slave end, with the job control of the slave.  They are two bounded
    queues: what a write to one end accepts is what reads of the other end return, in
    order.

    A read is its checks followed by turns of its loop, each up to [schedule]. *)

From S2P Require Import Prelude Ring Runq SortedQ AsRef SchedState Sched SchedInv SchedSpec SchedOps Process Cring WaitQ Tty TtySpec.

Definition PTY_BUF_CAP : Z := 1024.
Definition PTY_MAX_PAIRS : Z := 8.
Definition PTY_MASTER_INO_BASE : Z := 100.
Definition PTY_SLAVE_INO_BASE : Z := 200.
Definition ENODEV : Z := 19.
Definition ENOMEM : Z := 12.

Record pty_pair : Type := PtyPair {
  m2s : cring;
  s2m : cring;
  m2s_wq : cring;
  s2m_wq : cring;
  p_session_id : Z;
  p_fg_pgrp : Z;
  p_oflag : Z;
  p_active : Z
}.

Definition set_m2s (r : cring) (p : pty_pair) : pty_pair :=
  PtyPair r (s2m p) (m2s_wq p) (s2m_wq p) (p_session_id p) (p_fg_pgrp p) (p_oflag p) (p_active p).
Definition set_s2m (r : cring) (p : pty_pair) : pty_pair :=
  PtyPair (m2s p) r (m2s_wq p) (s2m_wq p) (p_session_id p) (p_fg_pgrp p) (p_oflag p) (p_active p).
Definition set_m2s_wq (q : cring) (p : pty_pair) : pty_pair :=
  PtyPair (m2s p) (s2m p) q (s2m_wq p) (p_session_id p) (p_fg_pgrp p) (p_oflag p) (p_active p).
Definition set_s2m_wq (q : cring) (p : pty_pair) : pty_pair :=
  PtyPair (m2s p) (s2m p) (m2s_wq p) q (p_session_id p) (p_fg_pgrp p) (p_oflag p) (p_active p).
Definition set_pty_job (sid pg : Z) (p : pty_pair) : pty_pair :=
  PtyPair (m2s p) (s2m p) (m2s_wq p) (s2m_wq p) sid pg (p_oflag p) (p_active p).
Definition set_pty_oflag (v : Z) (p : pty_pair) : pty_pair :=
  PtyPair (m2s p) (s2m p) (m2s_wq p) (s2m_wq p) (p_session_id p) (p_fg_pgrp p) v (p_active p).

(** A pair of zero bytes. *)
Definition pair_zero : pty_pair :=
  PtyPair (cring_init PTY_BUF_CAP) (cring_init PTY_BUF_CAP) wq_init wq_init 0 0 0 0.

Record ptys : Type := Ptys { g_ptys : array pty_pair; g_pty_count : Z }.

Definition put_pair (w : ptys) (idx : Z) (p : pty_pair) : res ptys :=
  a ← arr_set (g_ptys w) idx p; mret (Ptys a (g_pty_count w)).

Definition pty_init_pair (w : ptys) (idx : Z) : res ptys :=
  put_pair w idx (PtyPair (cring_init PTY_BUF_CAP) (cring_init PTY_BUF_CAP) wq_init wq_init 0 0 (Z.lor TTY_OPOST TTY_ONLCR) 1).

Definition pty_init : res ptys :=
  w ← pty_init_pair (Ptys (arr_new PTY_MAX_PAIRS pair_zero) 0) 0;
  mret (Ptys (g_ptys w) 1).

Definition pty_alloc_pair (w : ptys) : res (Z * ptys) :=
  if PTY_MAX_PAIRS <=? g_pty_count w then mret (- ENOMEM, w)
  else
    let idx := g_pty_count w in
    w ← pty_init_pair (Ptys (g_ptys w) (g_pty_count w + 1)) idx;
    mret (idx, w).

Definition pty_ino_to_idx (ino : Z) : Z :=
  if (PTY_MASTER_INO_BASE <=? ino) && (ino <? PTY_MASTER_INO_BASE + PTY_MAX_PAIRS) then ino - PTY_MASTER_INO_BASE
  else if (PTY_SLAVE_INO_BASE <=? ino) && (ino <? PTY_SLAVE_INO_BASE + PTY_MAX_PAIRS) then ino - PTY_SLAVE_INO_BASE
  else -1.

(** The pair [idx], when there is one. *)
Definition pair_of (w : ptys) (idx : Z) : res (option pty_pair) :=
  if (idx <? 0) || (g_pty_count w <=? idx) then mret None
  else p ← arr_get (g_ptys w) idx; mret (Some p).

(** ** Job control *)

Definition pty_background (p : pty_pair) (x : proc) : bool :=
  negb (p_session_id p =? 0) && (session_id x =? p_session_id p) &&
  negb (p_fg_pgrp p =? 0) && negb (pgrp_id x =? p_fg_pgrp p).

Definition pty_jobctl_write_check (my : Z) (s : sched) (p : pty_pair) : res (Z * sched) :=
  c ← cur_proc s my;
  match c with
  | Some x => if pty_background p x then '(_, s) ← process_kill my s (pid x) SIGTTOU; mret (- EINTR, s) else mret (0, s)
  | None => mret (0, s)
  end.

Definition pty_jobctl_read_check (my : Z) (s : sched) (p : pty_pair) : res (Z * sched) :=
  c ← cur_proc s my;
  match c with
  | Some x => if pty_background p x then '(_, s) ← process_kill my s (pid x) SIGTTIN; mret (- EINTR, s) else mret (0, s)
  | None => mret (- ECHILD, s)
  end.

(** ** Readiness *)

Definition pty_master_can_read_idx (w : ptys) (idx : Z) : res bool :=
  o ← pair_of w idx; mret (match o with Some p => negb (ring_count PTY_BUF_CAP (s2m p) =? 0) | None => false end).
Definition pty_master_can_write_idx (w : ptys) (idx : Z) : res bool :=
  o ← pair_of w idx; mret (match o with Some p => negb (ring_free PTY_BUF_CAP (m2s p) =? 0) | None => false end).
Definition pty_slave_can_read_idx (w : ptys) (idx : Z) : res bool :=
  o ← pair_of w idx; mret (match o with Some p => negb (ring_count PTY_BUF_CAP (m2s p) =? 0) | None => false end).
Definition pty_slave_can_write_idx (w : ptys) (idx : Z) : res bool :=
  o ← pair_of w idx; mret (match o with Some p => negb (ring_free PTY_BUF_CAP (s2m p) =? 0) | None => false end).

(** ** Reading *)

(** The checks of a read of either end: 0, or the error. *)
Definition pty_read_begin (my : Z) (s : sched) (w : ptys) (idx len : Z) : res (Z * sched) :=
  o ← pair_of w idx;
  match o with
  | None => mret (- ENODEV, s)
  | Some p => if 1024 * 1024 <? len then mret (- EINVAL, s) else pty_jobctl_read_check my s p
  end.

(** The bytes taken from the buffer [r], or [None] when it is empty. *)
Definition rb_read (r : cring) (len : Z) : res (option (list Z * cring)) :=
  let avail := ring_count PTY_BUF_CAP r in
  if negb (avail =? 0) then
    x ← ring_pops PTY_BUF_CAP (Z.to_nat (if avail <? len then avail else len)) r; mret (Some x)
  else mret None.

(** The caller goes to the queue [q] and is blocked when there is room in it. *)
Definition rb_block (my : Z) (s : sched) (q : cring) : res (sched * cring) :=
  c ← cur s my;
  if c =? 0 then mret (s, q)
  else
    '(pushed, q) ← wq_push q c;
    s ← (if (pushed : bool) then updp s c (set_state PROCESS_BLOCKED) else mret s);
    mret (s, q).

(** One turn of the loop of [pty_master_read_idx]. *)
Definition pty_master_read_turn (my : Z) (s : sched) (w : ptys) (idx len : Z) : res (option (list Z) * sched * ptys) :=
  p ← arr_get (g_ptys w) idx;
  o ← rb_read (s2m p) len;
  match o with
  | Some (l, r) => w ← put_pair w idx (set_s2m r p); mret (Some l, s, w)
  | None => '(s, q) ← rb_block my s (s2m_wq p); w ← put_pair w idx (set_s2m_wq q p); mret (None, s, w)
  end.

(** One turn of the loop of [pty_slave_read_idx]. *)
Definition pty_slave_read_turn (my : Z) (s : sched) (w : ptys) (idx len : Z) : res (option (list Z) * sched * ptys) :=
  p ← arr_get (g_ptys w) idx;
  o ← rb_read (m2s p) len;
  match o with
  | Some (l, r) => w ← put_pair w idx (set_m2s r p); mret (Some l, s, w)
  | None => '(s, q) ← rb_block my s (m2s_wq p); w ← put_pair w idx (set_m2s_wq q p); mret (None, s, w)
  end.

(** ** Writing *)

Definition signal_char (ch : Z) : Z :=
  if ch =? 3 then 2 else if ch =? 28 then 3 else if ch =? 26 then 20 else 0.

(** The signals of the characters of a write to the master. *)
Fixpoint send_signals (my : Z) (s : sched) (pg : Z) (l : list Z) : res sched :=
  match l with
  | [] => mret s
  | ch :: l =>
      let sig := signal_char ch in
      s ← (if negb (sig =? 0) && negb (pg =? 0)
           then '(_, s) ← process_kill_pgrp (nprocs s) my s pg sig; mret s else mret s);
      send_signals my s pg l
  end.

Definition pty_master_write_idx (my : Z) (s : sched) (w : ptys) (idx : Z) (data : list Z) : res (Z * sched * ptys) :=
  o ← pair_of w idx;
  match o with
  | None => mret (- ENODEV, s, w)
  | Some p =>
      let len := Z.of_nat (length data) in
      if 1024 * 1024 <? len then mret (- EINVAL, s, w) else
      '(jc, s) ← pty_jobctl_write_check my s p;
      if jc <? 0 then mret (jc, s, w) else
      s ← send_signals my s (p_fg_pgrp p) data;
      let free_space := ring_free PTY_BUF_CAP (m2s p) in
      let to_write := if free_space <? len then free_space else len in
      r ← ring_push_all PTY_BUF_CAP (m2s p) (take (Z.to_nat to_write) data);
      let p := set_m2s r p in
      '(s, q) ← (if negb (to_write =? 0) then wq_wake_one my s (m2s_wq p) else mret (s, m2s_wq p));
      w ← put_pair w idx (set_m2s_wq q p);
      mret (to_write, s, w)
  end.

(** The loop of [pty_slave_write_idx]: the buffer and the characters written. *)
Fixpoint slave_write_loop (do_onlcr : bool) (r : cring) (l : list Z) (written : Z) : res (cring * Z) :=
  match l with
  | [] => mret (r, written)
  | ch :: l =>
      if do_onlcr && (ch =? NL) then
        if ring_free PTY_BUF_CAP r <? 2 then mret (r, written)
        else
          r ← ring_push PTY_BUF_CAP r CR;
          r ← ring_push PTY_BUF_CAP r NL;
          slave_write_loop do_onlcr r l (u32 (written + 1))
      else
        if ring_free PTY_BUF_CAP r =? 0 then mret (r, written)
        else r ← ring_push PTY_BUF_CAP r ch; slave_write_loop do_onlcr r l (u32 (written + 1))
  end.

Definition pty_onlcr (p : pty_pair) : bool := flag (p_oflag p) TTY_OPOST && flag (p_oflag p) TTY_ONLCR.

Definition pty_slave_write_idx (my : Z) (s : sched) (w : ptys) (idx : Z) (data : list Z) : res (Z * sched * ptys) :=
  o ← pair_of w idx;
  match o with
  | None => mret (- ENODEV, s, w)
  | Some p =>
      if 1024 * 1024 <? Z.of_nat (length data) then mret (- EINVAL, s, w) else
      '(jc, s) ← pty_jobctl_write_check my s p;
      if jc <? 0 then mret (jc, s, w) else
      '(r, written) ← slave_write_loop (pty_onlcr p) (s2m p) data 0;
      let p := set_s2m r p in
      '(s, q) ← (if negb (written =? 0) then wq_wake_one my s (s2m_wq p) else mret (s, s2m_wq p));
      w ← put_pair w idx (set_s2m_wq q p);
      mret (written, s, w)
  end.

(** ** Settings *)

Definition pty_adopt (c : option proc) (p : pty_pair) : pty_pair :=
  match c with
  | Some x => if (p_session_id p =? 0) && negb (session_id x =? 0) then set_pty_job (session_id x) (pgrp_id x) p else p
  | None => p
  end.

Definition pty_set_foreground (c : option proc) (fg : Z) (p : pty_pair) : Z * pty_pair :=
  match c with
  | None => (- EINVAL, p)
  | Some x =>
      if p_session_id p =? 0 then if negb (fg =? 0) then (- EPERM, p) else (0, set_pty_job (p_session_id p) 0 p)
      else if negb (session_id x =? p_session_id p) then
        if (session_id x =? pid x) && (u32 fg =? pgrp_id x) then (0, set_pty_job (session_id x) (u32 fg) p) else (- EPERM, p)
      else if fg <? 0 then (- EINVAL, p)
      else (0, set_pty_job (p_session_id p) (u32 fg) p)
  end.

(** The call on a pair: the result, what is stored in user memory, the pair. *)
Definition pty_ioctl (c : option proc) (p : pty_pair) (cmd : Z) (a : uarg) : Z * option reply * pty_pair :=
  let p := pty_adopt c p in
  if cmd =? TTY_TIOCGPGRP then
    if ua_range a sizeof_int && ua_out a then (0, Some (ReInt (to_int (p_fg_pgrp p))), p) else (- EFAULT, None, p)
  else if cmd =? TTY_TIOCSPGRP then
    if negb (ua_range a sizeof_int) then (- EFAULT, None, p) else
    match ua_int a with
    | None => (- EFAULT, None, p)
    | Some fg => let '(r, p) := pty_set_foreground c fg p in (r, None, p)
    end
  else if cmd =? TTY_TCGETS then
    if ua_range a sizeof_termios && ua_out a then (0, Some (ReTermios (Termios 0 (p_oflag p) 0 0 (replicate 11 0))), p)
    else (- EFAULT, None, p)
  else if cmd =? TTY_TCSETS then
    if negb (ua_range a sizeof_termios) then (- EFAULT, None, p) else
    match ua_termios a with
    | None => (- EFAULT, None, p)
    | Some v => (0, None, set_pty_oflag (Z.land (c_oflag v) (Z.lor TTY_OPOST TTY_ONLCR)) p)
    end
  else (- EINVAL, None, p).

Definition pty_slave_ioctl_idx (my : Z) (s : sched) (w : ptys) (idx cmd : Z) (a : uarg) : res (Z * option reply * ptys) :=
  o ← pair_of w idx;
  match o with
  | None => mret (- ENODEV, None, w)
  | Some p =>
      if ua_null a then mret (- EFAULT, None, w) else
      c ← cur_proc s my;
      let '(r, rep, p) := pty_ioctl c p cmd a in
      w ← put_pair w idx p;
      mret (r, rep, w)
  end.

(** The pair [idx] holds [a] for the slave and [b] for the master; the processes [rs] wait to
    read at the slave, and [ms] at the master. *)
Record pty_holds (s : sched) (w : ptys) (idx : Z) (a b rs ms : list Z) : Prop := PtyHolds {
  ph_len : arr_len (g_ptys w) = PTY_MAX_PAIRS;
  ph_idx : 0 <= idx < g_pty_count w;
  ph_max : g_pty_count w <= PTY_MAX_PAIRS;
  ph_m2s : cr_ok PTY_BUF_CAP (m2s (arr_at (g_ptys w) idx)) a;
  ph_s2m : cr_ok PTY_BUF_CAP (s2m (arr_at (g_ptys w) idx)) b;
  ph_m2s_wq : wq_ok s (m2s_wq (arr_at (g_ptys w) idx)) rs;
  ph_s2m_wq : wq_ok s (s2m_wq (arr_at (g_ptys w) idx)) ms
}.

(** The current process may use the pair: it is not in the background. *)
Definition pty_foreground (my : Z) (s : sched) (p : pty_pair) : Prop :=
  exists x, cur_proc s my = Ok (Some x) /\ pty_background p x = false.

Lemma pair_of_ok s w idx a b rs ms : pty_holds s w idx a b rs ms -> pair_of w idx = Ok (Some (arr_at (g_ptys w) idx)).
Proof.
  intros [H1 H2 H3 _ _ _ _]. unfold pair_of. zdecide. rewrite arr_get_ok by lia. reflexivity.
Qed.

Lemma put_pair_ok {s w idx a b rs ms} s' p a' b' rs' ms' :
  pty_holds s w idx a b rs ms -> cr_ok PTY_BUF_CAP (m2s p) a' -> cr_ok PTY_BUF_CAP (s2m p) b' ->
  wq_ok s' (m2s_wq p) rs' -> wq_ok s' (s2m_wq p) ms' ->
  exists w', put_pair w idx p = Ok w' /\ pty_holds s' w' idx a' b' rs' ms' /\ arr_at (g_ptys w') idx = p.
Proof.
  intros [H1 H2 H3 _ _ _ _] Ha Hb Hq1 Hq2. unfold put_pair. rewrite arr_set_ok, res_bind_ok by lia.
  eexists. split; [reflexivity|]. split; [|apply arr_at_put_eq]. split; simpl; rewrite ?arr_at_put_eq, ?arr_len_put; auto.
Qed.

Lemma wq_ok_keep s s' q l : wq_ok s q l -> (forall p, is_Some (procs s !! p) -> is_Some (procs s' !! p)) -> wq_ok s' q l.
Proof. intros [H1 H2] Hp. split; auto. Qed.

(** The first process of the queue [l] is made ready if it is blocked. *)
Definition roused (l : list Z) (s s' : sched) : Prop :=
  match l with
  | p :: _ => exists x, procs s !! p = Some x /\
      procs s' = <[p := if is_state (state x) PROCESS_BLOCKED then set_state PROCESS_READY x else x]> (procs s)
  | [] => s' = s
  end.

(** A wake, if there is one, keeps both queues of processes. *)
Lemma wake_keeps my s q l q2 l2 (b : bool) :
  sched_inv s -> wq_ok s q l -> wq_ok s q2 l2 ->
  exists s' q', (if b then wq_wake_one my s q else mret (s, q)) = Ok (s', q') /\ sched_inv s' /\
    wq_ok s' q' (if b then tail l else l) /\ wq_ok s' q2 l2 /\ if b then roused l s s' else s' = s.
Proof.
  intros Hs Hq Hq2. destruct b; [|exists s, q; auto]. destruct (wq_wake_one_ok my s q l Hs Hq) as (s' & q' & E & Hs' & Hq' & Hp).
  exists s', q'. split_and!; auto. eapply wq_ok_keep; [exact Hq2|]. intros p Hi.
  destruct l as [|r k]; [subst; auto|]. destruct Hp as (x & _ & ->). apply lookup_insert_is_Some'. auto.
Qed.

(** The process [c] goes to sleep at the end of the queue [l], when it has room for it. *)
Definition parked (c : Z) (x : proc) (l : list Z) (s : sched) (l' : list Z) (s' : sched) : Prop :=
  if Z.of_nat (length l) <? WQ_CAPACITY - 1 then procs s' = <[c := set_state PROCESS_BLOCKED x]> (procs s) /\ l' = l ++ [c]
  else s' = s /\ l' = l.

Lemma rb_block_ok my s q l q2 l2 c x : sched_inv s -> 0 <= my < SCHED_MAX_CPUS -> runs s my c x -> wq_ok s q l -> wq_ok s q2 l2 ->
  exists s' q' l', rb_block my s q = Ok (s', q') /\ sched_inv s' /\ wq_ok s' q' l' /\ wq_ok s' q2 l2 /\ parked c x l s l' s'.
Proof.
  intros Hs Hmy Hr Hq Hq2. pose proof Hs as (Q & SL & AL & G & Hok). unfold rb_block, parked.
  destruct (current_some _ _ _ _ _ my Hok Hmy) as [-> _]. rewrite res_bind_ok.
  pose proof Hr as (Ec & Hx & _). rewrite Ec. destruct (Z.eqb_spec c 0) as [->|_]; [exfalso; eapply so_nonzero; eauto|].
  unfold wq_push. destruct (ring_offer_ok (proj1 Hq) c) as [[Hn ->]|[Hn (q' & -> & Hq')]]; rewrite !res_bind_ok; zdecide; [eauto 10|].
  rewrite (updp_ok s c x), res_bind_ok by auto. set (s1 := set_procs _ s).
  assert (Hdom : forall p, is_Some (procs s !! p) -> is_Some (procs s1 !! p)) by (intros p Hp; apply lookup_insert_is_Some'; auto).
  exists s1, q', (l ++ [c]). split; [reflexivity|]. split; [exists Q, SL, AL, G; eapply leave_ok; eauto; discriminate|].
  split; [|split; [eapply wq_ok_keep; eauto|auto]]. split; [exact Hq'|].
  intros p [Hp|Hp]%elem_of_app; [apply Hdom, (proj2 Hq); auto|]. apply list_elem_of_singleton in Hp as ->. apply Hdom. eauto.
Qed.

(** ** Reading *)

Lemma rb_read_ok r l len :
  cr_ok PTY_BUF_CAP r l -> 0 <= len ->
  match l with
  | [] => rb_read r len = Ok None
  | _ => exists r', rb_read r len = Ok (Some (take (Z.to_nat len) l, r')) /\ cr_ok PTY_BUF_CAP r' (drop (Z.to_nat len) l)
  end.
Proof.
  intros H Hl. unfold rb_read. cbv zeta. rewrite (ring_count_ok H). destruct l as [|v k] eqn:El; [reflexivity|]. rewrite <- El in *.
  destruct (Z.eqb_spec (Z.of_nat (length l)) 0) as [E|_]; [rewrite El in E; simpl in E; lia|]. cbn [negb].
  set (n := Z.to_nat (if Z.of_nat (length l) <? len then Z.of_nat (length l) else len)).
  assert (Hn : (n <= length l)%nat) by (subst n; bdestr; lia).
  destruct (ring_pops_ok _ n r l H Hn) as (r' & -> & Hr). rewrite res_bind_ok.
  assert (E : take n l = take (Z.to_nat len) l /\ drop n l = drop (Z.to_nat len) l).
  { subst n. destruct (Z.ltb_spec (Z.of_nat (length l)) len); [rewrite !take_ge, !drop_ge by lia|]; auto. }
  destruct E as [<- E]. rewrite E in Hr. eexists. split; [reflexivity|exact Hr].
Qed.

Section reading.
Context {s : sched} {w : ptys} {idx : Z} {a b rs ms : list Z} (H : pty_holds s w idx a b rs ms).

Lemma slave_read_ok my len :
  0 <= len -> a <> [] ->
  exists w', pty_slave_read_turn my s w idx len = Ok (Some (take (Z.to_nat len) a), s, w') /\
    pty_holds s w' idx (drop (Z.to_nat len) a) b rs ms.
Proof.
  intros Hl Ha. pose proof H as [H1 H2 H3 H4 H5 H6 H7]. unfold pty_slave_read_turn. rewrite arr_get_ok, res_bind_ok by lia.
  pose proof (rb_read_ok _ _ len H4 Hl) as Hr. destruct a as [|v k]; [contradiction|]. destruct Hr as (r & -> & Hr).
  rewrite res_bind_ok. destruct (put_pair_ok s (set_m2s r (arr_at (g_ptys w) idx)) _ b rs ms H Hr H5 H6 H7) as (w' & -> & Hw & _).
  eauto.
Qed.

Lemma master_read_ok my len :
  0 <= len -> b <> [] ->
  exists w', pty_master_read_turn my s w idx len = Ok (Some (take (Z.to_nat len) b), s, w') /\
    pty_holds s w' idx a (drop (Z.to_nat len) b) rs ms.
Proof.
  intros Hl Hb. pose proof H as [H1 H2 H3 H4 H5 H6 H7]. unfold pty_master_read_turn. rewrite arr_get_ok, res_bind_ok by lia.
  pose proof (rb_read_ok _ _ len H5 Hl) as Hr. destruct b as [|v k]; [contradiction|]. destruct Hr as (r & -> & Hr).
  rewrite res_bind_ok. destruct (put_pair_ok s (set_s2m r (arr_at (g_ptys w) idx)) a _ rs ms H H4 Hr H6 H7) as (w' & -> & Hw & _).
  eauto.
Qed.

(** A read that finds nothing puts the caller to sleep. *)
Lemma slave_read_waits my len c x : sched_inv s -> 0 <= my < SCHED_MAX_CPUS -> runs s my c x -> 0 <= len -> a = [] ->
  exists s' w' rs', pty_slave_read_turn my s w idx len = Ok (None, s', w') /\ sched_inv s' /\
    pty_holds s' w' idx [] b rs' ms /\ parked c x rs s rs' s'.
Proof.
  intros Hs Hmy Hr Hl Ha. pose proof H as [H1 H2 H3 H4 H5 H6 H7]. unfold pty_slave_read_turn. rewrite arr_get_ok, res_bind_ok by lia.
  pose proof (rb_read_ok _ _ len H4 Hl) as Hrd. rewrite Ha in *. rewrite Hrd, res_bind_ok.
  destruct (rb_block_ok my s _ rs _ ms c x Hs Hmy Hr H6 H7) as (s' & q' & rs' & -> & Hs' & Hq & Hq2 & Hp). rewrite res_bind_ok.
  destruct (put_pair_ok s' (set_m2s_wq q' (arr_at (g_ptys w) idx)) [] b rs' ms H H4 H5 Hq Hq2) as (w' & -> & Hw & _). eauto 10.
Qed.

Lemma master_read_waits my len c x : sched_inv s -> 0 <= my < SCHED_MAX_CPUS -> runs s my c x -> 0 <= len -> b = [] ->
  exists s' w' ms', pty_master_read_turn my s w idx len = Ok (None, s', w') /\ sched_inv s' /\
    pty_holds s' w' idx a [] rs ms' /\ parked c x ms s ms' s'.
Proof.
  intros Hs Hmy Hr Hl Hb. pose proof H as [H1 H2 H3 H4 H5 H6 H7]. unfold pty_master_read_turn. rewrite arr_get_ok, res_bind_ok by lia.
  pose proof (rb_read_ok _ _ len H5 Hl) as Hrd. rewrite Hb in *. rewrite Hrd, res_bind_ok.
  destruct (rb_block_ok my s _ ms _ rs c x Hs Hmy Hr H7 H6) as (s' & q' & ms' & -> & Hs' & Hq & Hq2 & Hp). rewrite res_bind_ok.
  destruct (put_pair_ok s' (set_s2m_wq q' (arr_at (g_ptys w) idx)) a [] rs ms' H H4 H5 Hq2 Hq) as (w' & -> & Hw & _). eauto 10.
Qed.

(** ** Writing *)

Lemma write_check_ok my : pty_foreground my s (arr_at (g_ptys w) idx) -> pty_jobctl_write_check my s (arr_at (g_ptys w) idx) = Ok (0, s).
Proof. intros (x & E & Hb). unfold pty_jobctl_write_check. rewrite E, res_bind_ok, Hb. reflexivity. Qed.

Lemma send_none my pg data : Forall (fun c => signal_char c = 0) data \/ pg = 0 -> send_signals my s pg data = Ok s.
Proof.
  intros Hd. induction data as [|c data IH]; [reflexivity|]. cbn [send_signals]. cbv zeta.
  assert (E : negb (signal_char c =? 0) && negb (pg =? 0) = false).
  { destruct Hd as [Hd| ->]; [|apply andb_false_r]. apply Forall_cons in Hd as [-> _]. reflexivity. }
  rewrite E, res_bind_ok. apply IH. destruct Hd as [Hd|]; [left; apply Forall_cons in Hd; tauto|auto].
Qed.

Lemma master_write_ok my data :
  sched_inv s -> pty_foreground my s (arr_at (g_ptys w) idx) -> Z.of_nat (length data) <= 1024 * 1024 ->
  Forall (fun c => signal_char c = 0) data \/ p_fg_pgrp (arr_at (g_ptys w) idx) = 0 ->
  let n := Z.min (Z.of_nat (length data)) (1023 - Z.of_nat (length a)) in
  exists s' w', pty_master_write_idx my s w idx data = Ok (n, s', w') /\ sched_inv s' /\
    pty_holds s' w' idx (a ++ take (Z.to_nat n) data) b (if negb (n =? 0) then tail rs else rs) ms /\
    if negb (n =? 0) then roused rs s s' else s' = s.
Proof.
  intros Hs Hf Hd Hsig n. pose proof H as [H1 H2 H3 H4 H5 H6 H7]. unfold pty_master_write_idx.
  rewrite (pair_of_ok _ _ _ _ _ _ _ H), res_bind_ok. zdecide. rewrite (write_check_ok my Hf), res_bind_ok. zdecide.
  rewrite (send_none my _ data Hsig), res_bind_ok. cbv zeta. rewrite (ring_free_ok H4). pose proof (cr_room _ _ _ H4) as Hr.
  unfold PTY_BUF_CAP in Hr |- *. replace (if 1024 - 1 - Z.of_nat (length a) <? Z.of_nat (length data)
    then 1024 - 1 - Z.of_nat (length a) else Z.of_nat (length data)) with n by (subst n; bdestr; lia).
  destruct (ring_push_all_ok _ (take (Z.to_nat n) data) _ _ H4) as (r & Er & Hc). unfold PTY_BUF_CAP in Er. rewrite Er, res_bind_ok.
  rewrite newest_id in Hc by (rewrite length_app, length_take; unfold PTY_BUF_CAP; lia).
  destruct (wake_keeps my s (m2s_wq (set_m2s r (arr_at (g_ptys w) idx))) rs _ ms (negb (n =? 0)) Hs H6 H7) as (s' & q' & -> & Hs' & Hq & Hq2 & Hw').
  rewrite res_bind_ok.
  destruct (put_pair_ok s' (set_m2s_wq q' (set_m2s r (arr_at (g_ptys w) idx))) _ b _ ms H Hc H5 Hq Hq2) as (w' & -> & Hw & _).
  rewrite res_bind_ok. eexists _, _. split; [reflexivity|auto].
Qed.
End reading.

(** ** Writing to the slave *)

Lemma slave_loop_ok d l : forall r c k,
  cr_ok PTY_BUF_CAP r c -> 0 <= k -> k + Z.of_nat (length l) <= 1024 * 1024 ->
  exists n r', slave_write_loop d r l k = Ok (r', k + Z.of_nat n) /\ (n <= length l)%nat /\
    cr_ok PTY_BUF_CAP r' (c ++ expand d (take n l)) /\
    (n = length l \/ exists ch, l !! n = Some ch /\
       1023 < Z.of_nat (length (c ++ expand d (take n l)) + length (expand d [ch]))).
Proof.
  induction l as [|ch l IH]; intros r c k H Hk Hl.
  - exists 0%nat, r. simpl. rewrite app_nil_r, Z.add_0_r. auto.
  - cbn [slave_write_loop length] in *. pose proof (ring_free_ok H) as Ef. pose proof (cr_room _ _ _ H) as Hr. unfold PTY_BUF_CAP in Ef, Hr.
    assert (Hstop : 1023 < Z.of_nat (length c + length (expand d [ch])) ->
      exists n r', Ok (r, k) = Ok (r', k + Z.of_nat n) /\ (n <= S (length l))%nat /\
        cr_ok PTY_BUF_CAP r' (c ++ expand d (take n (ch :: l))) /\
        (n = S (length l) \/ exists c', (ch :: l) !! n = Some c' /\
          1023 < Z.of_nat (length (c ++ expand d (take n (ch :: l))) + length (expand d [c'])))).
    { intros Hx. exists 0%nat, r. simpl. rewrite app_nil_r, Z.add_0_r. split_and!; auto; [lia|]. right. exists ch. auto. }
    assert (Hgo : forall r1, cr_ok PTY_BUF_CAP r1 (c ++ expand d [ch]) ->
      exists n r', slave_write_loop d r1 l (u32 (k + 1)) = Ok (r', k + Z.of_nat n) /\ (n <= S (length l))%nat /\
        cr_ok PTY_BUF_CAP r' (c ++ expand d (take n (ch :: l))) /\
        (n = S (length l) \/ exists c', (ch :: l) !! n = Some c' /\
          1023 < Z.of_nat (length (c ++ expand d (take n (ch :: l))) + length (expand d [c'])))).
    { intros r1 H1. rewrite u32_small by lia. destruct (IH r1 _ (k + 1) H1) as (n & r' & -> & Hn & Hc & Ho); [lia|lia|].
      exists (S n), r'. rewrite <- app_assoc, <- expand_app in Hc, Ho. cbn [take lookup list_lookup] in *.
      split; [do 2 f_equal; lia|]. split; [lia|]. split; [exact Hc|]. destruct Ho as [->|Ho]; [left; lia|right; exact Ho]. }
    assert (Ex : expand d [ch] = if d && (ch =? NL) then [CR; ch] else [ch]) by (unfold expand; simpl; apply app_nil_r).
    unfold PTY_BUF_CAP in *. destruct (d && (ch =? NL)) eqn:Ed.
    + destruct (Z.ltb_spec (ring_free 1024 r) 2) as [Hf|Hf]; [apply Hstop; rewrite Ex; simpl; lia|].
      destruct (ring_push_ok H CR) as (r1 & -> & H1). rewrite res_bind_ok. rewrite newest_id in H1 by (rewrite length_app; simpl; lia).
      destruct (ring_push_ok H1 NL) as (r2 & -> & H2). rewrite res_bind_ok. rewrite newest_id in H2 by (rewrite !length_app; simpl; lia).
      apply Hgo. rewrite Ex. rewrite <- app_assoc in H2. apply andb_true_iff in Ed as [_ Ed]. apply Z.eqb_eq in Ed. rewrite Ed. exact H2.
    + destruct (Z.eqb_spec (ring_free 1024 r) 0) as [Hf|Hf]; [apply Hstop; rewrite Ex; simpl; lia|].
      destruct (ring_push_ok H ch) as (r1 & -> & H1). rewrite res_bind_ok. rewrite newest_id in H1 by (rewrite length_app; simpl; lia).
      apply Hgo. rewrite Ex. exact H1.
Qed.

Lemma slave_write_ok s w idx a b rs ms my data :
  pty_holds s w idx a b rs ms -> sched_inv s -> pty_foreground my s (arr_at (g_ptys w) idx) -> Z.of_nat (length data) <= 1024 * 1024 ->
  let d := pty_onlcr (arr_at (g_ptys w) idx) in
  exists n s' w', pty_slave_write_idx my s w idx data = Ok (Z.of_nat n, s', w') /\ sched_inv s' /\ (n <= length data)%nat /\
    pty_holds s' w' idx a (b ++ expand d (take n data)) rs (if negb (Z.of_nat n =? 0) then tail ms else ms) /\
    (if negb (Z.of_nat n =? 0) then roused ms s s' else s' = s) /\
    (n = length data \/ exists c, data !! n = Some c /\
       1023 < Z.of_nat (length (b ++ expand d (take n data)) + length (expand d [c]))).
Proof.
  intros H Hs Hf Hd d. pose proof H as [H1 H2 H3 H4 H5 H6 H7]. unfold pty_slave_write_idx.
  rewrite (pair_of_ok _ _ _ _ _ _ _ H), res_bind_ok. zdecide. rewrite (write_check_ok my Hf), res_bind_ok. zdecide.
  destruct (slave_loop_ok d data (s2m (arr_at (g_ptys w) idx)) b 0 H5) as (n & r & Er & Hn & Hc & Ho); [lia|lia|].
  subst d. rewrite Er, res_bind_ok. cbv zeta. rewrite Z.add_0_l.
  destruct (wake_keeps my s (s2m_wq (set_s2m r (arr_at (g_ptys w) idx))) ms _ rs (negb (Z.of_nat n =? 0)) Hs H7 H6) as (s' & q' & -> & Hs' & Hq & Hq2 & Hw').
  rewrite res_bind_ok.
  destruct (put_pair_ok s' (set_s2m_wq q' (set_s2m r (arr_at (g_ptys w) idx))) a _ rs _ H H4 Hc Hq2 Hq) as (w' & -> & Hw & _).
  rewrite res_bind_ok. eexists n, _, _. split; [reflexivity|]. auto 10.
Qed.
