(* ===== verification/TermTheorems.v ===== *)
(** What the models of the terminals show. *)

From S2P Require Import Prelude Bitmap Ring Runq SortedQ AsRef SchedState Sched SchedInv SchedSpec SchedOps Process Fd ProcessFiles ProcessInv ProcessSpec ProcessExit.
From S2P Require Import ProcessContract ProcessTheorems Cring WaitQ Tty TtySpec Pty.

(** ** The terminal *)

(** The processes after the action [a] of the terminal [t], whose queue of waiting
    processes is [wl]. *)
Definition acted (t : tty) (wl : list Z) (a : action) (s s' : sched) : Prop :=
  match a with
  | ANone => s' = s
  | AKill sig =>
      if tty_fg_pgrp t =? 0 then s' = s
      else forall p, procs s' !! p = (fun x => if in_pgrp (tty_fg_pgrp t) x then signalled sig x else x) <$> procs s !! p
  | AWake =>
      match wl with
      | p :: _ => exists x, procs s !! p = Some x /\
          procs s' = <[p := if is_state (state x) PROCESS_BLOCKED then set_state PROCESS_READY x else x]> (procs s)
      | [] => s' = s
      end
  end.

(** The current process may signal every process of the group [pg]. *)
Definition may_signal (my : Z) (s : sched) (pg : Z) : Prop :=
  pg <> 0 -> forall p x, procs s !! p = Some x -> in_pgrp pg x = true -> denied s (arr_at (current s) my) x = false.

Lemma key_signal_range t e c sig : snd (press (key_of t c) e) = AKill sig -> 0 < sig < PROCESS_MAX_SIG.
Proof.
  destruct e as [line q]. unfold PROCESS_MAX_SIG. destruct (key_of t c) eqn:E; simpl; try discriminate. intros [= ->].
  unfold key_of in E. destruct (taken t c) as [|d ds]; [discriminate|].
  destruct (_ && is_cc t VINTR d); [injection E as <-; lia|]. destruct (_ && is_cc t VQUIT d); [injection E as <-; lia|].
  destruct (_ && is_cc t VSUSP d); [injection E as <-; lia|]. destruct (canonical t); [|discriminate].
  destruct (is_cc t VEOF d); [discriminate|]. unfold line_key in E.
  repeat (destruct (_ : bool) in E; try discriminate).
Qed.

(** C38: A character that arrives does to the line being typed and to the text that can be
    read what its key means under the settings of the terminal, for every setting and every
    state, and acts on the processes as that key asks: it signals the foreground group, or
    makes the first waiting reader ready.  The process that the interrupt found running may
    signal every process of the foreground group ([may_signal]); otherwise the first member
    it may not signal makes [process_kill_pgrp] loop for ever. *)
Theorem tty_input_exact my s t e c wl :
  tty_ok t e -> sched_inv s -> 0 <= my < SCHED_MAX_CPUS -> wq_ok s (tty_wq t) wl -> may_signal my s (tty_fg_pgrp t) ->
  exists s' t' wl', tty_input_char my s t c = Ok (s', t') /\ sched_inv s' /\
    tty_ok t' (fst (press (key_of t c) e)) /\ wq_ok s' (tty_wq t') wl' /\
    acted t wl (snd (press (key_of t c) e)) s s' /\
    wl' = match snd (press (key_of t c) e) with AWake => tail wl | _ => wl end.
Proof.
  intros Ht Hs Hmy Hq Hk. unfold tty_input_char. destruct (line_input_ok t e c Ht) as (t1 & -> & H1 & S1). rewrite res_bind_ok.
  pose proof (key_signal_range t e c) as Hsig. destruct (press (key_of t c) e) as [e' a]. cbn [fst snd] in *.
  destruct S1 as (Eq & _ & _ & _ & _ & _ & Ef). rewrite <- Eq in Hq. destruct a as [|sig|].
  - exists s, t1, wl. split_and!; auto. reflexivity.
  - rewrite Ef. simpl acted. destruct (Z.eqb_spec (tty_fg_pgrp t) 0) as [E|E].
    { exists s, t1, wl. split_and!; auto. }
    pose proof Hs as (Q & SL & AL & G & H). specialize (Hsig sig eq_refl).
    destruct (process_kill_pgrp_ok s Q SL AL G my (tty_fg_pgrp t) sig (nprocs s) H Hmy E Hsig) as (r & s' & Q' & SL' & -> & H' & _ & _ & Hp).
    { pose proof (ring_fuel H) as Hf. simpl in Hf. unfold nprocs in *. lia. }
    { intros (p & x & _ & Hx & Hin & Hden). rewrite (Hk E p x Hx Hin) in Hden. discriminate. }
    rewrite res_bind_ok. exists s', t1, wl. split_and!; auto; [exists Q', SL', AL, G; auto|].
    destruct Hq as [Hq Hl]. split; [auto|]. intros p Hp'. rewrite Hp. destruct (Hl p Hp') as [x ->]. eexists. reflexivity.
  - destruct (wq_wake_one_ok my s (tty_wq t1) wl Hs Hq) as (s' & q' & -> & Hs' & Hq' & Hp). rewrite res_bind_ok.
    exists s', (set_wq q' t1), (tail wl). split_and!; auto. eapply tty_ok_same; eauto.
Qed.

(** A fresh terminal, read by process 301. *)
Definition fresh_tty : tty := tty_init tty_static.
Definition reader_waits : sched := demo 1 (two_procs ++ [OBlock 0]).
Definition waited_tty : tty := set_wq (CRing (arr_put (arr_new WQ_CAPACITY 0) 0 301) 1 0) fresh_tty.

Lemma fresh_tty_ok : tty_ok fresh_tty ([], []).
Proof.
  split; simpl; auto; try (unfold TTY_LINE_MAX; lia); [intros i v Hv; rewrite lookup_nil in Hv; discriminate|].
  apply (cring_init_ok TTY_CANON_BUF). unfold TTY_CANON_BUF. lia.
Qed.

Lemma waited_tty_ok : tty_ok waited_tty ([], []).
Proof. eapply tty_ok_same; [apply fresh_tty_ok| | | |]; reflexivity. Qed.

Lemma waited_wq_ok : wq_ok reader_waits (tty_wq waited_tty) [301].
Proof.
  split; [|intros p ->%list_elem_of_singleton; apply (bool_decide_eq_true (is_Some (procs reader_waits !! 301))); vm_compute; reflexivity].
  destruct (ring_offer_ok (cring_init_ok WQ_CAPACITY ltac:(unfold WQ_CAPACITY; lia)) 301) as [[E _]|[_ (r & E & H)]]; [discriminate E|].
  injection E as <-. exact H.
Qed.

Lemma reader_waits_ok : sched_inv reader_waits.
Proof. apply reachable_sched. unfold reader_waits. run_demo. Qed.

(** The newline makes the reader ready. *)
Lemma tty_input_exact_witness :
  exists s' t', tty_input_char 0 reader_waits waited_tty CR = Ok (s', t') /\ tty_ok t' ([], [NL]) /\
    acted waited_tty [301] AWake reader_waits s'.
Proof.
  destruct (tty_input_exact 0 reader_waits waited_tty ([], []) CR [301]) as (s' & t' & wl & E & _ & H & _ & Ha & _);
    [exact waited_tty_ok|exact reader_waits_ok|unfold SCHED_MAX_CPUS; lia|exact waited_wq_ok| |].
  - intros Hn. exfalso. apply Hn. reflexivity.
  - exists s', t'. split; [exact E|]. split; [exact H|exact Ha].
Defined.

(** ** Typing lines *)

(** A key of a line: a printable character, or the erase key. *)
Inductive stroke : Type :=
| Glyph (c : Z)
| Rubout.

Definition stroke_ok (k : stroke) : Prop := match k with Glyph c => 32 <= c <= 126 | Rubout => True end.
Definition char_of (k : stroke) : Z := match k with Glyph c => c | Rubout => 127 end.
Definition strike (line : list Z) (k : stroke) : list Z := match k with Glyph c => line ++ [c] | Rubout => removelast line end.
Definition edited (l : list stroke) : list Z := fold_left strike l [].

(** The characters that arrive when the lines [ls] are typed, and the lines meant. *)
Definition typed (ls : list (list stroke)) : list Z := concat (map (fun l => map char_of l ++ [CR]) ls).
Definition meant (ls : list (list stroke)) : list Z := concat (map (fun l => edited l ++ [NL]) ls).

(** The settings of [tty_static]. *)
Definition default_modes (t : tty) : Prop :=
  tty_iflag t = tty_iflag tty_static /\ tty_lflag t = tty_lflag tty_static /\ tty_cc t = tty_cc tty_static.

Lemma default_key t c : default_modes t -> key_of t c = key_of tty_static c.
Proof. intros (E1 & E2 & E3). unfold key_of, line_key, taken, is_cc, signals, canonical. rewrite E1, E2, E3. reflexivity. Qed.

Lemma stroke_key k : stroke_ok k -> key_of tty_static (char_of k) = match k with Glyph c => KPrint c | Rubout => KErase end.
Proof.
  destruct k as [c|]; [|reflexivity]. cbn [stroke_ok char_of]. intros Hc. unfold key_of, taken. rewrite !bool_decide_false by lia. cbn [andb].
  assert (E : forall i, 0 <= i < 10 -> i <> VMIN -> is_cc tty_static i c = false).
  { intros i Hi Hm. unfold is_cc. apply andb_false_iff. right. apply Z.eqb_neq. intros ->. revert Hc.
    assert (Hcase : i = 0 \/ i = 1 \/ i = 2 \/ i = 3 \/ i = 4 \/ i = 5 \/ i = 6 \/ i = 7 \/ i = 9) by (unfold VMIN in Hm; lia).
    destruct Hcase as [->|[->|[->|[->|[->|[->|[->|[->| ->]]]]]]]]; vm_compute; intros [H1 H2]; auto. }
  rewrite !E by (unfold VINTR, VQUIT, VSUSP, VEOF, VMIN; lia). rewrite !andb_false_r.
  change (canonical tty_static) with true. cbv iota. unfold line_key. rewrite !E by (unfold VERASE, VKILL, VMIN; lia).
  unfold BS, NL. zdecide. reflexivity.
Qed.

(** The keys of a line edit it. *)
Lemma presses_line l : forall line q,
  Forall stroke_ok l -> (length line + length l <= 255)%nat ->
  presses (key_of tty_static <$> map char_of l) (line, q) = ((fold_left strike l line, q), map (fun _ => ANone) l).
Proof.
  induction l as [|k l IH]; intros line q Hl Hn; [reflexivity|]. apply Forall_cons in Hl as [Hk Hl].
  cbn [map fmap list_fmap presses length] in *. rewrite (stroke_key k Hk).
  destruct k as [c|]; cbn [press strike fold_left].
  - zdecide. rewrite IH by (auto; rewrite length_app; simpl; lia). reflexivity.
  - rewrite IH; [reflexivity|auto|]. rewrite (proj2 (removelast_prefix line)). lia.
Qed.

Lemma edited_length l : forall line, (length (fold_left strike l line) <= length line + length l)%nat.
Proof.
  induction l as [|k l IH]; intros line; simpl; [lia|]. specialize (IH (strike line k)). destruct k; simpl in *.
  - rewrite length_app in IH. simpl in IH. lia.
  - rewrite (proj2 (removelast_prefix line)) in IH. lia.
Qed.

Lemma presses_lines ls : forall q,
  Forall (Forall stroke_ok) ls -> Forall (fun l => (length l <= 255)%nat) ls -> Z.of_nat (length (q ++ meant ls)) < TTY_CANON_BUF ->
  fst (presses (key_of tty_static <$> typed ls) ([], q)) = ([], q ++ meant ls).
Proof.
  induction ls as [|l ls IH]; intros q Hk Hl Hn; [simpl; rewrite app_nil_r; reflexivity|].
  apply Forall_cons in Hk as [Hk Hks]. apply Forall_cons in Hl as [Hl Hls]. unfold typed, meant in *. simpl in *.
  rewrite !fmap_app, !presses_app. simpl. rewrite (presses_line l [] q Hk) by (simpl; lia). cbn [fst snd].
  change (fold_left strike l []) with (edited l). change (key_of tty_static CR) with KNewline. cbn [press fst snd].
  unfold readable. rewrite newest_id by (rewrite !length_app in *; simpl in *; lia).
  rewrite IH; auto; rewrite <- !app_assoc in *; auto.
Qed.

(** C39: What is typed is what is read: after lines of printable characters and erasures
    have been typed on a terminal with its initial settings, a read returns the edited
    lines, each with its newline, from the first byte on. *)
Theorem typed_lines_read_back my s t ls len now :
  default_modes t -> tty_ok t ([], []) -> Forall (Forall stroke_ok) ls -> Forall (fun l => (length l <= 255)%nat) ls ->
  Z.of_nat (length (meant ls)) < TTY_CANON_BUF -> ls <> [] -> 0 <= len ->
  exists t' acts t'', feed t (typed ls) = Ok (t', acts) /\
    tty_read_turn my s t' len RCanon now = Ok (Some (take (Z.to_nat len) (meant ls)), s, t'') /\
    tty_ok t'' ([], skipn (Z.to_nat len) (meant ls)).
Proof.
  intros Hm Ht Hk Hl Hn Hne Hlen. destruct (feed_ok (typed ls) t _ Ht) as (t' & E & H & _).
  rewrite (list_fmap_ext (key_of t) (key_of tty_static) (typed ls)) in E, H by (intros ? c _; apply default_key; auto).
  rewrite presses_lines in H by auto. cbn [app] in H. destruct (drain_ok t' [] (meant ls) len H Hlen) as (t'' & Ed & H'' & _).
  exists t', (snd (presses (key_of tty_static <$> typed ls) ([], []))), t''. split; [exact E|]. split; [|exact H''].
  unfold tty_read_turn, read_ready. rewrite (ring_empty_ok (tk_canon _ _ H)). cbn [snd].
  rewrite bool_decide_false by (destruct ls as [|[|k l] ls]; [contradiction| |]; unfold meant; simpl; intros E0; [|apply app_eq_nil in E0 as [E0 _]; apply app_eq_nil in E0 as [_ E0]]; discriminate).
  cbn [negb]. rewrite Ed, res_bind_ok. reflexivity.
Qed.

(** "hi", an erasure, "o", then a read of two bytes. *)
Lemma typed_lines_read_back_witness :
  exists t' acts t'', feed fresh_tty [104; 105; 127; 111; 13] = Ok (t', acts) /\
    tty_read_turn 0 reader_waits t' 2 RCanon 0 = Ok (Some [104; 111], reader_waits, t'') /\ tty_ok t'' ([], [NL]).
Proof.
  apply (typed_lines_read_back 0 reader_waits fresh_tty [[Glyph 104; Glyph 105; Rubout; Glyph 111]] 2 0);
    [split_and!; reflexivity|exact fresh_tty_ok| | | |discriminate|lia].
  - repeat constructor; simpl; lia.
  - repeat constructor.
  - vm_compute. reflexivity.
Defined.

(** The end-of-file key on an empty line does not end a read: it wakes the reader,
    but there is nothing to read, and the reader goes back to sleep. *)
Theorem eof_not_reported my s t c now :
  tty_ok t ([], []) -> key_of t c = KEof ->
  exists t', line_input t c = Ok (t', AWake) /\ tty_ok t' ([], []) /\
    forall len, tty_read_turn my s t' len RCanon now = ('(s, t) ← tty_block my s t'; mret (None, s, t)).
Proof.
  intros H Hk. destruct (line_input_ok t _ c H) as (t' & E & H' & _). rewrite Hk in E, H'. exists t'. split; [exact E|].
  split; [exact H'|]. intros len. unfold tty_read_turn, read_ready. rewrite (ring_empty_ok (tk_canon _ _ H')). reflexivity.
Qed.

Lemma eof_not_reported_witness :
  exists t', line_input fresh_tty 4 = Ok (t', AWake) /\ read_ready t' RCanon 0 = false.
Proof.
  destruct (eof_not_reported 0 reader_waits fresh_tty 4 0 fresh_tty_ok eq_refl) as (t' & E & H & _). exists t'.
  split; [exact E|]. unfold read_ready. rewrite (ring_empty_ok (tk_canon _ _ H)). reflexivity.
Defined.

(** A write by a process of the foreground group sends the whole text to the
    console, each newline preceded by a carriage return when the settings ask for it;
    a write from the background sends nothing and raises SIGTTOU. *)
Theorem tty_write_exact my s t data x :
  cur_proc s my = Ok (Some x) -> Z.of_nat (length data) <= 1024 * 1024 ->
  if background t x then
    tty_write_kbuf my s t data = ('(_, s) ← process_kill my s (pid x) SIGTTOU; mret (- EINTR, s, t))
  else exists t' bufs, tty_write_kbuf my s t data = Ok (Z.of_nat (length data), s, t') /\
    t_out t' = t_out t ++ map WriteBuf bufs /\ concat bufs = expand (onlcr t) data /\ same_settings t t'.
Proof.
  intros Hx Hl. unfold tty_write_kbuf. cbv zeta. zdecide. rewrite Hx, res_bind_ok. destruct (background t x); [reflexivity|].
  destruct (write_chunks_ok (S (length data)) t data) as (t' & bufs & -> & E1 & E2 & _ & Hs); [lia|].
  rewrite res_bind_ok. exists t', bufs. auto.
Qed.

Lemma tty_write_exact_witness :
  exists t' bufs, tty_write_kbuf 0 (demo 1 two_procs) fresh_tty [104; 10] = Ok (2, demo 1 two_procs, t') /\
    t_out t' = map WriteBuf bufs /\ concat bufs = [104; 13; 10].
Proof.
  assert (Hx : cur_proc (demo 1 two_procs) 0 = Ok (Some (proc_at (demo 1 two_procs) 301))) by (vm_compute; reflexivity).
  pose proof (tty_write_exact 0 (demo 1 two_procs) fresh_tty [104; 10] _ Hx ltac:(simpl; lia)) as H.
  assert (Hb : background fresh_tty (proc_at (demo 1 two_procs) 301) = false) by reflexivity. rewrite Hb in H.
  destruct H as (t' & bufs & E & E1 & E2 & _). exists t', bufs. split; [exact E|]. split; [exact E1|exact E2].
Defined.

(** ** Pseudo-terminals *)

(** C40: A pseudo-terminal is a pair of queues of at most 1023 bytes.  A write to the slave by
    a process that is not in the background appends characters, with a carriage return
    before each newline when the settings ask for it, up to the first that does not fit; a
    write to the master appends what fits, when it holds none of the three characters that
    signal or there is no foreground group to signal.  A write that appends something makes
    the first process that waits at the other end ready.  A read takes bytes from the front;
    one that finds nothing marks the caller BLOCKED and puts it at the end of the processes
    that wait, unless the table for them is full, and the other end waits as before.  Nothing
    is lost or overwritten. *)
Theorem pty_queues my s w idx a b rs ms :
  pty_holds s w idx a b rs ms -> sched_inv s -> 0 <= my < SCHED_MAX_CPUS ->
  let p := arr_at (g_ptys w) idx in
  (forall data, pty_foreground my s p -> Z.of_nat (length data) <= 1024 * 1024 ->
     Forall (fun c => signal_char c = 0) data \/ p_fg_pgrp p = 0 ->
     let n := Z.min (Z.of_nat (length data)) (1023 - Z.of_nat (length a)) in
     exists s' w', pty_master_write_idx my s w idx data = Ok (n, s', w') /\ sched_inv s' /\
       pty_holds s' w' idx (a ++ take (Z.to_nat n) data) b (if negb (n =? 0) then tail rs else rs) ms /\
       if negb (n =? 0) then roused rs s s' else s' = s) /\
  (forall data, pty_foreground my s p -> Z.of_nat (length data) <= 1024 * 1024 ->
     exists n s' w', pty_slave_write_idx my s w idx data = Ok (Z.of_nat n, s', w') /\ sched_inv s' /\ (n <= length data)%nat /\
       pty_holds s' w' idx a (b ++ expand (pty_onlcr p) (take n data)) rs (if negb (Z.of_nat n =? 0) then tail ms else ms) /\
       (if negb (Z.of_nat n =? 0) then roused ms s s' else s' = s) /\
       (n = length data \/ exists c, data !! n = Some c /\
          1023 < Z.of_nat (length (b ++ expand (pty_onlcr p) (take n data)) + length (expand (pty_onlcr p) [c])))) /\
  (forall len, 0 <= len -> a <> [] ->
     exists w', pty_slave_read_turn my s w idx len = Ok (Some (take (Z.to_nat len) a), s, w') /\
       pty_holds s w' idx (skipn (Z.to_nat len) a) b rs ms) /\
  (forall len, 0 <= len -> b <> [] ->
     exists w', pty_master_read_turn my s w idx len = Ok (Some (take (Z.to_nat len) b), s, w') /\
       pty_holds s w' idx a (skipn (Z.to_nat len) b) rs ms) /\
  (forall len c x, 0 <= len -> a = [] -> runs s my c x ->
     exists s' w' rs', pty_slave_read_turn my s w idx len = Ok (None, s', w') /\ sched_inv s' /\
       pty_holds s' w' idx [] b rs' ms /\ parked c x rs s rs' s') /\
  (forall len c x, 0 <= len -> b = [] -> runs s my c x ->
     exists s' w' ms', pty_master_read_turn my s w idx len = Ok (None, s', w') /\ sched_inv s' /\
       pty_holds s' w' idx a [] rs ms' /\ parked c x ms s ms' s').
Proof.
  intros H Hs Hmy p. split; [|split; [|split; [|split; [|split]]]].
  - intros data Hf Hd Hsig. apply (master_write_ok H my data Hs Hf Hd Hsig).
  - intros data Hf Hd. apply (slave_write_ok s w idx a b rs ms my data H Hs Hf Hd).
  - intros len Hl Ha. apply (slave_read_ok H my len Hl Ha).
  - intros len Hl Hb. apply (master_read_ok H my len Hl Hb).
  - intros len c x Hl Ha Hr. apply (slave_read_waits H my len c x Hs Hmy Hr Hl Ha).
  - intros len c x Hl Hb Hr. apply (master_read_waits H my len c x Hs Hmy Hr Hl Hb).
Qed.

(** The first pair after [pty_init]. *)
Definition first_pair : ptys := match pty_init with Ok w => w | _ => Ptys (arr_new 0 pair_zero) 0 end.

Lemma first_pair_holds s : pty_holds s first_pair 0 [] [] [] [].
Proof.
  assert (Hc : cr_ok PTY_BUF_CAP (cring_init PTY_BUF_CAP) []) by (apply cring_init_ok; unfold PTY_BUF_CAP; lia).
  assert (Hq : wq_ok s wq_init []).
  { split; [apply cring_init_ok; unfold WQ_CAPACITY; lia|]. intros p Hp. apply not_elem_of_nil in Hp. contradiction. }
  split; auto; simpl; unfold PTY_MAX_PAIRS; lia.
Qed.

Lemma two_procs_runs : runs (demo 1 two_procs) 0 301 (proc_at (demo 1 two_procs) 301).
Proof.
  assert (Hon : running_on (demo 1 two_procs) 0) by (apply running_on_b_ok; vm_compute; reflexivity).
  destruct Hon as (_ & x & Hr). replace (arr_at (current (demo 1 two_procs)) 0) with 301 in Hr by (vm_compute; reflexivity).
  pose proof Hr as (_ & Hx & _). replace (proc_at (demo 1 two_procs) 301) with x by (unfold proc_at; rewrite Hx; reflexivity).
  exact Hr.
Qed.

(** A slave that writes two characters, and one that reads and goes to sleep. *)
Lemma pty_queues_witness :
  (exists s' w', pty_slave_write_idx 0 (demo 1 two_procs) first_pair 0 [104; 10] = Ok (2, s', w') /\
    pty_holds s' w' 0 [] [104; 13; 10] [] []) /\
  (exists s' w', pty_slave_read_turn 0 (demo 1 two_procs) first_pair 0 10 = Ok (None, s', w') /\ pty_holds s' w' 0 [] [] [301] [] /\
    state <$> procs s' !! 301 = Some PROCESS_BLOCKED).
Proof.
  assert (Hs : sched_inv (demo 1 two_procs)) by (apply reachable_sched; run_demo).
  destruct (pty_queues 0 (demo 1 two_procs) first_pair 0 [] [] [] [] (first_pair_holds _) Hs ltac:(unfold SCHED_MAX_CPUS; lia)) as (_ & H & _ & _ & Hr & _).
  split.
  - destruct (H [104; 10]) as (n & s' & w' & E & _ & Hn & Hh & _ & Ho); [|simpl; lia|].
    + exists (proc_at (demo 1 two_procs) 301). split; [vm_compute; reflexivity|reflexivity].
    + assert (Hn2 : n = 2%nat).
      { destruct Ho as [->|(c & Hc & Hf)]; [reflexivity|]. destruct n as [|[|[|n]]]; [exfalso|exfalso|reflexivity|simpl in Hn; lia];
          injection Hc as <-; vm_compute in Hf; discriminate. }
      subst n. exists s', w'. split; [exact E|exact Hh].
  - destruct (Hr 10 301 (proc_at (demo 1 two_procs) 301)) as (s' & w' & rs' & E & _ & Hh & Hp); [lia|reflexivity| |].
    + exact two_procs_runs.
    + destruct Hp as [Ep ->]. exists s', w'. split; [exact E|]. split; [exact Hh|]. rewrite Ep, lookup_insert_eq. reflexivity.
Defined.
