(* ===== verification/FileIo.v ===== *)
(** The read and write system calls ([syscall_read_impl] and [syscall_write_impl] of
    [src/src/kernel/syscall.c], [vfs_read] and [vfs_write] of [src/src/kernel/fs.c])
    over the operations of any kind of node. *)

From S2P Require Import Prelude.

Definition FS_FILE : Z := 1.
Definition FS_CHARDEVICE : Z := 3.
Definition FS_SOCKET : Z := 6.
Definition VFS_POLL_IN : Z := 1.
Definition VFS_POLL_OUT : Z := 4.
Definition VFS_POLL_ERR : Z := 8.
Definition VFS_POLL_HUP : Z := 16.
Definition O_APPEND : Z := 1024.
Definition O_NONBLOCK : Z := 2048.
Definition EBADF : Z := 9.
Definition EAGAIN : Z := 11.
Definition EFAULT : Z := 14.
Definition EINVAL : Z := 22.
Definition ESPIPE : Z := 29.
Definition EROFS : Z := 30.

(** What the system calls use of a node: its kind and length, and the operations it
    has, over the state [W] of what lies behind the nodes.  A read delivers at most as
    many bytes as it is asked for. *)
Record node_ops (W : Type) : Type := NodeOps {
  n_flags : W -> Z;
  n_length : W -> Z;
  n_read : option (W -> Z -> Z -> res (list Z * W));
  n_write : option (W -> Z -> list Z -> res (Z * W));
  n_poll : option (W -> Z -> res Z)
}.
Arguments NodeOps {W} _ _ _ _ _.
Arguments n_flags {W} _.
Arguments n_length {W} _.
Arguments n_read {W} _.
Arguments n_write {W} _.
Arguments n_poll {W} _.

(** An open file; [o_readonly] says that it lies on a mount with [MS_RDONLY]. *)
Record ofile : Type := OFile { o_flags : Z; o_offset : Z; o_readonly : bool }.

Definition set_offset (v : Z) (f : ofile) : ofile := OFile (o_flags f) v (o_readonly f).

Section io.
Context {W : Type}.
Implicit Types (ops : node_ops W) (w : W) (f : ofile).

Definition vfs_read ops w (off size : Z) : res (list Z * W) :=
  match n_read ops with Some rd => rd w off size | None => mret ([], w) end.

Definition vfs_write ops w (off : Z) (data : list Z) : res (Z * W) :=
  match n_write ops with Some wr => wr w off data | None => mret (0, w) end.

(** [O_NONBLOCK]: whether the call must return at once, with -EAGAIN. *)
Definition would_block ops w f (events wanted : Z) : res bool :=
  match n_poll ops with
  | Some poll =>
      if Z.land (o_flags f) O_NONBLOCK =? 0 then mret false
      else rev ← poll w events; mret (Z.land rev wanted =? 0)
  | None => mret false
  end.

(** The loop of a read: 256 bytes at a time through the kernel's buffer.  [copy] says
    whether a copy to the user's buffer succeeds.  The result is the value returned,
    the bytes delivered, the file and the state; [seek] says whether the file has a
    position. *)
Fixpoint read_loop (fuel : nat) ops (copy : Z -> Z -> bool) w f (seek : bool) (len total : Z) (acc : list Z)
    : res (Z * list Z * ofile * W) :=
  match fuel with
  | O => NoFuel
  | S n =>
      if total <? len then
        let chunk := Z.min (len - total) 256 in
        rd ← vfs_read ops w (if seek then o_offset f else 0) chunk;
        let '(data, w) := rd in
        let k := Z.of_nat (length data) in
        if k =? 0 then mret (total, acc, f, w) else
        if negb (copy total k) then mret (- EFAULT, acc, f, w) else
        let f := if seek then set_offset (u32 (o_offset f + k)) f else f in
        if k <? chunk then mret (u32 (total + k), acc ++ data, f, w)
        else read_loop n ops copy w f seek len (u32 (total + k)) (acc ++ data)
      else mret (total, acc, f, w)
  end.

(** [range_ok] is the check of the user's buffer, [tty_read] the console, and [fl] the
    file of the descriptor with the node it is open on. *)
Definition syscall_read_impl (range_ok : bool) (copy : Z -> Z -> bool) (tty_read : W -> Z -> res (Z * list Z * W))
    (fd len : Z) (fl : option (ofile * option (node_ops W))) w : res (Z * list Z * option ofile * W) :=
  if 1048576 <? len then mret (- EINVAL, [], fst <$> fl, w) else
  if negb range_ok then mret (- EFAULT, [], fst <$> fl, w) else
  match fl with
  | None => if fd =? 0 then t ← tty_read w len; let '(r, l, w) := t in mret (r, l, None, w) else mret (- EBADF, [], None, w)
  | Some (f, None) => mret (- EBADF, [], Some f, w)
  | Some (f, Some ops) =>
      if (Z.land (o_flags f) 3 =? 1) && negb (n_flags ops w =? FS_CHARDEVICE) then mret (- EBADF, [], Some f, w) else
      b ← would_block ops w f VFS_POLL_IN (Z.lor VFS_POLL_IN (Z.lor VFS_POLL_ERR VFS_POLL_HUP));
      if (b : bool) then mret (- EAGAIN, [], Some f, w) else
      let chardev := n_flags ops w =? FS_CHARDEVICE in
      match n_read ops, chardev with
      | None, false => mret (- ESPIPE, [], Some f, w)
      | _, _ =>
          t ← read_loop (S (Z.to_nat len)) ops copy w f (negb chardev) len 0 [];
          let '(r, l, f, w) := t in mret (r, l, Some f, w)
      end
  end.

(** The loop of a write: [copy] fetches bytes of the user's buffer, 1024 at a time. *)
Fixpoint write_loop (fuel : nat) ops (copy : Z -> Z -> option (list Z)) w f (len total : Z) : res (Z * ofile * W) :=
  match fuel with
  | O => NoFuel
  | S n =>
      if total <? len then
        let chunk := Z.min (len - total) 1024 in
        match copy total chunk with
        | None => mret (- EFAULT, f, w)
        | Some data =>
            let seek := negb (Z.land (n_flags ops w) FS_FILE =? 0) in
            wr ← vfs_write ops w (if seek then o_offset f else 0) data;
            let '(k, w) := wr in
            if k =? 0 then mret (total, f, w) else
            let f := if seek then set_offset (u32 (o_offset f + k)) f else f in
            if k <? chunk then mret (u32 (total + k), f, w)
            else write_loop n ops copy w f len (u32 (total + k))
        end
      else mret (total, f, w)
  end.

Definition syscall_write_impl (range_ok : bool) (copy : Z -> Z -> option (list Z)) (tty_write : W -> Z -> res (Z * W))
    (fd len : Z) (fl : option (ofile * option (node_ops W))) w : res (Z * option ofile * W) :=
  if 1048576 <? len then mret (- EINVAL, fst <$> fl, w) else
  if negb range_ok then mret (- EFAULT, fst <$> fl, w) else
  match fl with
  | None => if (fd =? 1) || (fd =? 2) then t ← tty_write w len; let '(r, w) := t in mret (r, None, w) else mret (- EBADF, None, w)
  | Some (f, no) =>
      if fd =? 0 then mret (- EBADF, Some f, w) else
      match no with
      | None => mret (- EBADF, Some f, w)
      | Some ops =>
          let kind := n_flags ops w in
          if (Z.land (o_flags f) 3 =? 0) && negb (kind =? FS_CHARDEVICE) then mret (- EBADF, Some f, w) else
          if o_readonly f then mret (- EROFS, Some f, w) else
          b ← would_block ops w f VFS_POLL_OUT (Z.lor VFS_POLL_OUT VFS_POLL_ERR);
          if (b : bool) then mret (- EAGAIN, Some f, w) else
          match n_write ops with
          | None => mret (- ESPIPE, Some f, w)
          | Some _ =>
              if negb ((kind =? FS_FILE) || (kind =? FS_CHARDEVICE) || (kind =? FS_SOCKET)) then mret (- ESPIPE, Some f, w) else
              let f := if negb (Z.land (o_flags f) O_APPEND =? 0) && negb (Z.land kind FS_FILE =? 0)
                       then set_offset (n_length ops w) f else f in
              t ← write_loop (S (Z.to_nat len)) ops copy w f len 0;
              let '(r, f, w) := t in mret (r, Some f, w)
          end
      end
  end.
End io.
