(* ===== verification/Pipe.v ===== *)
(** Pipes: the ring buffer two kinds of nodes share ([pipe_state], [pipe_node] and the
    functions [pipe_*] of [src/src/kernel/syscall.c]), and the commands of [fcntl] that
    read and change its size. *)

From S2P Require Import Prelude FileIo.

Definition ENOMEM : Z := 12.
Definition EBUSY : Z := 16.
Definition ENOTTY : Z := 25.
Definition FIONREAD : Z := 21531.   (* 0x541B *)

Record pipe_state : Type := PipeState {
  p_buf : array Z;
  p_cap : Z;
  p_rpos : Z;
  p_wpos : Z;
  p_count : Z;
  p_readers : Z;
  p_writers : Z
}.

Record pipe_node : Type := PipeNode { pn_ps : Z; pn_is_read_end : bool }.

(** The pipes and the nodes that exist, by address; freed ones are not there. *)
Record pipes : Type := Pipes { states : gmap Z pipe_state; nodes : gmap Z pipe_node }.

Definition set_ring (b : array Z) (r w c : Z) (p : pipe_state) : pipe_state :=
  PipeState b (p_cap p) r w c (p_readers p) (p_writers p).
Definition set_ends (rd wr : Z) (p : pipe_state) : pipe_state :=
  PipeState (p_buf p) (p_cap p) (p_rpos p) (p_wpos p) (p_count p) rd wr.

Definition get_node (w : pipes) (n : Z) : res pipe_node := of_option (nodes w !! n).
Definition get_state (w : pipes) (ps : Z) : res pipe_state := of_option (states w !! ps).
Definition put_state (w : pipes) (ps : Z) (p : pipe_state) : pipes := Pipes (<[ps := p]> (states w)) (nodes w).

(** The position after [i], around the end of the ring. *)
Definition advance (cap i : Z) : Z := let i := u32 (i + 1) in if i =? cap then 0 else i.

Fixpoint take_bytes (n : nat) (p : pipe_state) : res (list Z * pipe_state) :=
  match n with
  | O => mret ([], p)
  | S n =>
      x ← arr_get (p_buf p) (p_rpos p);
      r ← take_bytes n (set_ring (p_buf p) (advance (p_cap p) (p_rpos p)) (p_wpos p) (p_count p) p);
      let '(l, p) := r in mret (x :: l, p)
  end.

Definition pipe_read (w : pipes) (n size : Z) : res (list Z * pipes) :=
  if n =? 0 then mret ([], w) else
  pn ← get_node w n;
  if pn_ps pn =? 0 then mret ([], w) else
  if negb (pn_is_read_end pn) then mret ([], w) else
  if size =? 0 then mret ([], w) else
  p ← get_state w (pn_ps pn);
  let to_read := if p_count p <? size then p_count p else size in
  r ← take_bytes (Z.to_nat to_read) p;
  let '(l, p) := r in
  mret (l, put_state w (pn_ps pn) (set_ring (p_buf p) (p_rpos p) (p_wpos p) (u32 (p_count p - to_read)) p)).

Fixpoint put_bytes (l : list Z) (p : pipe_state) : res pipe_state :=
  match l with
  | [] => mret p
  | x :: l =>
      b ← arr_set (p_buf p) (p_wpos p) x;
      put_bytes l (set_ring b (p_rpos p) (advance (p_cap p) (p_wpos p)) (p_count p) p)
  end.

Definition pipe_write (w : pipes) (n : Z) (data : list Z) : res (Z * pipes) :=
  let size := Z.of_nat (length data) in
  if n =? 0 then mret (0, w) else
  pn ← get_node w n;
  if pn_ps pn =? 0 then mret (0, w) else
  if pn_is_read_end pn then mret (0, w) else
  if size =? 0 then mret (0, w) else
  p ← get_state w (pn_ps pn);
  if p_readers p =? 0 then mret (0, w) else
  let free := u32 (p_cap p - p_count p) in
  let to_write := if free <? size then free else size in
  p ← put_bytes (take (Z.to_nat to_write) data) p;
  mret (to_write, put_state w (pn_ps pn) (set_ring (p_buf p) (p_rpos p) (p_wpos p) (u32 (p_count p + to_write)) p)).

(** The pipe is freed with the last of its ends. *)
Definition pipe_close (w : pipes) (n : Z) : res pipes :=
  if n =? 0 then mret w else
  pn ← get_node w n;
  let w := Pipes (states w) (delete n (nodes w)) in
  if pn_ps pn =? 0 then mret w else
  p ← get_state w (pn_ps pn);
  if (p_readers p =? 0) && (p_writers p =? 0) then mret w else
  let p := if pn_is_read_end pn
           then set_ends (if p_readers p =? 0 then 0 else p_readers p - 1) (p_writers p) p
           else set_ends (p_readers p) (if p_writers p =? 0 then 0 else p_writers p - 1) p in
  if (p_readers p =? 0) && (p_writers p =? 0) then mret (Pipes (delete (pn_ps pn) (states w)) (nodes w))
  else mret (put_state w (pn_ps pn) p).

Definition pipe_poll (w : pipes) (n events : Z) : res Z :=
  if n =? 0 then mret VFS_POLL_ERR else
  pn ← get_node w n;
  if pn_ps pn =? 0 then mret VFS_POLL_ERR else
  p ← get_state w (pn_ps pn);
  mret (if pn_is_read_end pn then
          if negb (Z.land events VFS_POLL_IN =? 0) && ((0 <? p_count p) || (p_writers p =? 0))
          then if p_writers p =? 0 then Z.lor VFS_POLL_IN VFS_POLL_HUP else VFS_POLL_IN
          else 0
        else if p_readers p =? 0 then if Z.land events VFS_POLL_OUT =? 0 then 0 else VFS_POLL_ERR
        else if negb (Z.land events VFS_POLL_OUT =? 0) && (0 <? u32 (p_cap p - p_count p)) then VFS_POLL_OUT else 0).

(** [copied] says whether the answer could be stored in the user's memory. *)
Definition pipe_ioctl (w : pipes) (n cmd : Z) (copied : bool) : res (Z * option Z) :=
  if n =? 0 then mret (- EBADF, None) else
  pn ← get_node w n;
  if pn_ps pn =? 0 then mret (- EBADF, None) else
  if cmd =? FIONREAD then
    p ← get_state w (pn_ps pn);
    mret (if copied then (0, Some (p_count p)) else (- EFAULT, None))
  else mret (- ENOTTY, None).

(** A new end of the pipe [ps], at the address [n] the allocator returned. *)
Definition pipe_node_create (w : pipes) (ps : Z) (is_read_end : bool) (n : Z) : res (Z * pipes) :=
  if ps =? 0 then mret (- EINVAL, w) else
  if n =? 0 then mret (- ENOMEM, w) else
  p ← get_state w ps;
  let p := if is_read_end then set_ends (u32 (p_readers p + 1)) (p_writers p) p
           else set_ends (p_readers p) (u32 (p_writers p + 1)) p in
  mret (0, Pipes (<[ps := p]> (states w)) (<[n := PipeNode ps is_read_end]> (nodes w))).

(** The first half of [pipe_create_kfds]: the state [ps] and its two nodes, at the
    addresses the allocator returned, 0 when it failed; [buf] is the buffer's. *)
Definition pipe_create (w : pipes) (ps buf rn wn : Z) : res (Z * pipes) :=
  if ps =? 0 then mret (- ENOMEM, w) else
  if buf =? 0 then mret (- ENOMEM, w) else
  let w1 := put_state w ps (PipeState (arr_new 512 0) 512 0 0 0 0 0) in
  r ← pipe_node_create w1 ps true rn;
  let '(rc, w2) := r in
  if rc <? 0 then mret (- ENOMEM, Pipes (delete ps (states w2)) (nodes w2)) else
  r ← pipe_node_create w2 ps false wn;
  let '(rc, w3) := r in
  if rc <? 0 then w4 ← pipe_close w3 rn; mret (- ENOMEM, w4) else
  mret (0, w3).

Definition fcntl_getpipe_sz (w : pipes) (n : Z) : res Z :=
  pn ← get_node w n; p ← get_state w (pn_ps pn); mret (s32 (p_cap p)).

Fixpoint copy_ring (n : nat) (p : pipe_state) (i : Z) (b : array Z) : res (array Z) :=
  match n with
  | O => mret b
  | S n =>
      x ← arr_get (p_buf p) (u32 (p_rpos p + i) mod p_cap p);
      b ← arr_set b i x;
      copy_ring n p (i + 1) b
  end.

(** [got] says whether the new buffer could be allocated. *)
Definition fcntl_setpipe_sz (w : pipes) (n arg : Z) (got : bool) : res (Z * pipes) :=
  pn ← get_node w n;
  p ← get_state w (pn_ps pn);
  let new_cap := if arg <? 512 then 512 else arg in
  let new_cap := if 65536 <? new_cap then 65536 else new_cap in
  if new_cap =? p_cap p then mret (s32 (p_cap p), w) else
  if new_cap <? p_count p then mret (- EBUSY, w) else
  if negb got then mret (- ENOMEM, w) else
  b ← copy_ring (Z.to_nat (p_count p)) p 0 (arr_new new_cap 0);
  mret (s32 new_cap, put_state w (pn_ps pn)
    (PipeState b new_cap 0 (p_count p) (p_count p) (p_readers p) (p_writers p))).

(** The operations of the two kinds of nodes. *)
Definition pipe_read_fops (n : Z) : node_ops pipes :=
  NodeOps (fun _ => FS_FILE) (fun _ => 0) (Some (fun w _ size => pipe_read w n size)) None (Some (fun w ev => pipe_poll w n ev)).
Definition pipe_write_fops (n : Z) : node_ops pipes :=
  NodeOps (fun _ => FS_FILE) (fun _ => 0) None (Some (fun w _ data => pipe_write w n data)) (Some (fun w ev => pipe_poll w n ev)).

(** The flags of the two files of [pipe] and [pipe2]. *)
Definition O_CLOEXEC : Z := 524288.
Definition pipe_files : ofile * ofile := (OFile 0 0 false, OFile 1 0 false).
Definition pipe2_files (flags : Z) : ofile * ofile :=
  let fl := Z.land flags (u32 (Z.lnot O_CLOEXEC)) in (OFile fl 0 false, OFile fl 0 false).
