(* ===== verification/PipeSpec.v ===== *)
(** A pipe is a queue of bytes: what each operation does to its content, and the
    invariant of all pipes and their ends. *)

From S2P Require Import Prelude FileIo Pipe.

(** ** One ring *)

Record ring_ok (p : pipe_state) : Prop := RingOk {
  ro_len : arr_len (p_buf p) = p_cap p;
  ro_cap : 0 < p_cap p <= 65536;
  ro_rpos : 0 <= p_rpos p < p_cap p;
  ro_count : 0 <= p_count p <= p_cap p;
  ro_wpos : p_wpos p = (p_rpos p + p_count p) mod p_cap p
}.

(** The byte [i] places after the read position. *)
Definition ring_at (b : array Z) (cap r i : Z) : Z := arr_at b ((r + i) mod cap).

(** The bytes in the pipe, in the order they will be read. *)
Definition content (p : pipe_state) : list Z :=
  map (ring_at (p_buf p) (p_cap p) (p_rpos p)) (seqZ 0 (p_count p)).

Lemma lookup_map_seqZ (f : Z -> Z) n (i : nat) : map f (seqZ 0 n) !! i = if Z.of_nat i <? n then Some (f (Z.of_nat i)) else None.
Proof.
  destruct (Z.ltb_spec (Z.of_nat i) n).
  - rewrite list_lookup_fmap. rewrite lookup_seqZ_lt by lia. simpl. do 2 f_equal; lia.
  - apply lookup_ge_None_2. rewrite length_map, length_seqZ. lia.
Qed.

Lemma lookup_take_map_seqZ (f : Z -> Z) k n (i : nat) : 0 <= k <= n ->
  take (Z.to_nat k) (map f (seqZ 0 n)) !! i = map f (seqZ 0 k) !! i.
Proof.
  intros Hk. rewrite lookup_map_seqZ. destruct (Z.ltb_spec (Z.of_nat i) k).
  - rewrite lookup_take_lt, lookup_map_seqZ by lia. zdecide. reflexivity.
  - rewrite lookup_take_ge by lia. reflexivity.
Qed.

Lemma map_seqZ_cons (f : Z -> Z) (n : nat) : map f (seqZ 0 (Z.of_nat (S n))) = f 0 :: map (fun i => f (1 + i)) (seqZ 0 (Z.of_nat n)).
Proof.
  apply list_eq. intros [|i]; rewrite ?lookup_map_seqZ; cbn [lookup list_lookup]; rewrite ?lookup_map_seqZ; [zdecide; reflexivity|].
  destruct (Z.ltb_spec (Z.of_nat i) (Z.of_nat n)); zdecide; [do 2 f_equal; lia|reflexivity].
Qed.

Lemma content_length p : ring_ok p -> Z.of_nat (length (content p)) = p_count p.
Proof. intros H. unfold content. rewrite length_map, length_seqZ. pose proof (ro_count _ H). lia. Qed.

Lemma advance_ok cap i : 0 <= i < cap -> cap <= 65536 -> advance cap i = (i + 1) mod cap.
Proof.
  intros Hi Hc. unfold advance. rewrite u32_small by lia. destruct (Z.eqb_spec (i + 1) cap) as [->|].
  - rewrite Z.mod_same; lia.
  - rewrite Z.mod_small; lia.
Qed.

Lemma take_bytes_ok n p : arr_len (p_buf p) = p_cap p -> 0 < p_cap p <= 65536 -> 0 <= p_rpos p < p_cap p ->
  take_bytes n p = Ok (map (ring_at (p_buf p) (p_cap p) (p_rpos p)) (seqZ 0 (Z.of_nat n)),
    set_ring (p_buf p) ((p_rpos p + Z.of_nat n) mod p_cap p) (p_wpos p) (p_count p) p).
Proof.
  revert p. induction n as [|n IH]; intros p Hl Hc Hr.
  - cbn [take_bytes]. rewrite Z.add_0_r, Z.mod_small by lia. destruct p; reflexivity.
  - cbn [take_bytes]. rewrite arr_get_ok, res_bind_ok, (advance_ok (p_cap p)) by lia.
    rewrite IH by (simpl; auto; apply Z.mod_pos_bound; lia). rewrite res_bind_ok. unfold mret, res_ret, set_ring. simpl p_cap. simpl p_buf. simpl p_rpos.
    rewrite (map_seqZ_cons _ n). do 2 f_equal; [f_equal|f_equal; rewrite Zplus_mod_idemp_l; f_equal; lia].
    + unfold ring_at. rewrite Z.add_0_r, Z.mod_small by lia. reflexivity.
    + apply map_ext. intros i. unfold ring_at. rewrite Zplus_mod_idemp_l. do 2 f_equal. lia.
Qed.

Lemma put_bytes_ok l p : arr_len (p_buf p) = p_cap p -> 0 < p_cap p <= 65536 -> 0 <= p_wpos p < p_cap p ->
  Z.of_nat (length l) <= p_cap p ->
  exists b, put_bytes l p = Ok (set_ring b (p_rpos p) ((p_wpos p + Z.of_nat (length l)) mod p_cap p) (p_count p) p) /\
    arr_len b = p_cap p /\
    forall i, 0 <= i < p_cap p -> ring_at b (p_cap p) (p_wpos p) i = default (ring_at (p_buf p) (p_cap p) (p_wpos p) i) (l !! Z.to_nat i).
Proof.
  revert p. induction l as [|x l IH]; intros p Hl Hc Hw Hn; cbn [put_bytes length] in *.
  - exists (p_buf p). rewrite Z.add_0_r, Z.mod_small by lia. split; [destruct p; reflexivity|]. split; [auto|].
    intros i _. rewrite lookup_nil. reflexivity.
  - rewrite arr_set_ok, res_bind_ok, (advance_ok (p_cap p)) by lia.
    destruct (IH (set_ring (arr_put (p_buf p) (p_wpos p) x) (p_rpos p) ((p_wpos p + 1) mod p_cap p) (p_count p) p))
      as (b & E & Eb & Hb); simpl; auto; try lia; [apply Z.mod_pos_bound; lia|]. simpl in E, Eb, Hb.
    exists b. rewrite E. split; [unfold set_ring; simpl; do 2 f_equal; rewrite Zplus_mod_idemp_l; f_equal; lia|]. split; [auto|].
    intros i Hi. unfold ring_at in *. destruct (Z.eq_dec i 0) as [->|Hi0].
    + specialize (Hb (p_cap p - 1) ltac:(lia)). rewrite Zplus_mod_idemp_l in Hb.
      replace (p_wpos p + 1 + (p_cap p - 1)) with (p_wpos p + 1 * p_cap p) in Hb by lia.
      rewrite Z.mod_add, Z.mod_small in Hb by lia. rewrite lookup_ge_None_2 in Hb by lia.
      rewrite Z.add_0_r, Z.mod_small, Hb by lia. simpl. rewrite arr_at_put_eq. reflexivity.
    + specialize (Hb (i - 1) ltac:(lia)). rewrite Zplus_mod_idemp_l in Hb. replace (p_wpos p + 1 + (i - 1)) with (p_wpos p + i) in Hb by lia.
      rewrite Hb. replace (Z.to_nat i) with (S (Z.to_nat (i - 1))) by lia. cbn [lookup list_lookup].
      destruct (l !! Z.to_nat (i - 1)); [reflexivity|]. simpl. apply arr_at_put_ne. intros He.
      assert (H0 : (p_wpos p + i) mod p_cap p = (p_wpos p + 0) mod p_cap p) by (rewrite <- He, Z.add_0_r, Z.mod_small; lia).
      apply ring_index_inj in H0; lia.
Qed.

(** What the three changes of a ring do to its content. *)
Lemma ring_read p k : ring_ok p -> 0 <= k <= p_count p ->
  exists p1, take_bytes (Z.to_nat k) p = Ok (take (Z.to_nat k) (content p), p1) /\
    let p' := set_ring (p_buf p1) (p_rpos p1) (p_wpos p1) (u32 (p_count p1 - k)) p1 in
    ring_ok p' /\ content p' = drop (Z.to_nat k) (content p) /\ p_readers p' = p_readers p /\ p_writers p' = p_writers p.
Proof.
  intros [H1 H2 H3 H4 H5] Hk. eexists. split.
  { rewrite take_bytes_ok by auto. f_equal. f_equal. rewrite Z2Nat.id by lia. apply list_eq. intros i.
    unfold content. rewrite lookup_take_map_seqZ by lia. reflexivity. }
  cbv zeta. unfold set_ring. simpl. rewrite u32_small, Z2Nat.id by lia. split_and!; auto.
  - constructor; simpl; auto; try lia; [apply Z.mod_pos_bound; lia|]. rewrite Zplus_mod_idemp_l, H5. f_equal. lia.
  - unfold content. simpl. apply list_eq. intros i. rewrite lookup_drop, !lookup_map_seqZ.
    destruct (Z.ltb_spec (Z.of_nat i) (p_count p - k)); zdecide; [|reflexivity]. f_equal. unfold ring_at.
    rewrite Zplus_mod_idemp_l. do 2 f_equal. lia.
Qed.

Lemma ring_write p l : ring_ok p -> Z.of_nat (length l) <= p_cap p - p_count p ->
  exists p1, put_bytes l p = Ok p1 /\
    let p' := set_ring (p_buf p1) (p_rpos p1) (p_wpos p1) (u32 (p_count p1 + Z.of_nat (length l))) p1 in
    ring_ok p' /\ content p' = content p ++ l /\ p_readers p' = p_readers p /\ p_writers p' = p_writers p /\
    p_cap p' = p_cap p /\ p_count p' = p_count p + Z.of_nat (length l).
Proof.
  intros [H1 H2 H3 H4 H5] Hl. pose proof (Z.mod_pos_bound (p_rpos p + p_count p) (p_cap p) ltac:(lia)) as Hw.
  destruct (put_bytes_ok l p) as (b & E & Eb & Hb); try lia. eexists. split; [exact E|].
  cbv zeta. unfold set_ring. simpl. rewrite u32_small by lia. split_and!; auto.
  - constructor; simpl; auto; try lia. rewrite H5, Zplus_mod_idemp_l. f_equal. lia.
  - unfold content. simpl. apply list_eq. intros i. rewrite lookup_map_seqZ.
    destruct (Z.ltb_spec (Z.of_nat i) (p_count p)).
    + rewrite lookup_app_l, lookup_map_seqZ by (rewrite length_map, length_seqZ; lia). zdecide. f_equal.
      specialize (Hb (Z.of_nat i - p_count p + p_cap p) ltac:(lia)). rewrite lookup_ge_None_2 in Hb by lia. simpl in Hb.
      unfold ring_at in *. rewrite H5, !Zplus_mod_idemp_l in Hb.
      replace (p_rpos p + p_count p + (Z.of_nat i - p_count p + p_cap p)) with (p_rpos p + Z.of_nat i + 1 * p_cap p) in Hb by lia.
      rewrite Z.mod_add in Hb by lia. exact Hb.
    + rewrite lookup_app_r, length_map, length_seqZ by (rewrite length_map, length_seqZ; lia).
      destruct (Z.ltb_spec (Z.of_nat i) (p_count p + Z.of_nat (length l))); [|symmetry; apply lookup_ge_None_2; lia].
      specialize (Hb (Z.of_nat i - p_count p) ltac:(lia)). unfold ring_at in *. rewrite H5, !Zplus_mod_idemp_l in Hb.
      replace (p_rpos p + p_count p + (Z.of_nat i - p_count p)) with (p_rpos p + Z.of_nat i) in Hb by lia. rewrite Hb.
      replace (Z.to_nat (Z.of_nat i - p_count p)) with (i - Z.to_nat (p_count p))%nat by lia.
      destruct (lookup_lt_is_Some_2 l (i - Z.to_nat (p_count p))%nat ltac:(lia)) as [x Hx]. rewrite Hx. reflexivity.
Qed.

Lemma copy_ring_ok n p i b : arr_len (p_buf p) = p_cap p -> 0 < p_cap p <= 65536 -> 0 <= p_rpos p < p_cap p ->
  0 <= i -> i + Z.of_nat n <= 65536 -> i + Z.of_nat n <= arr_len b ->
  exists b', copy_ring n p i b = Ok b' /\ arr_len b' = arr_len b /\
    forall j, arr_at b' j = if (i <=? j) && (j <? i + Z.of_nat n) then ring_at (p_buf p) (p_cap p) (p_rpos p) j else arr_at b j.
Proof.
  intros Hl Hc Hr. revert i b. induction n as [|n IH]; intros i b Hi Hn Hb; cbn [copy_ring].
  - exists b. split_and!; auto. intros j. destruct (Z.leb_spec i j), (Z.ltb_spec j (i + Z.of_nat 0)); try reflexivity; lia.
  - rewrite u32_small by lia. pose proof (Z.mod_pos_bound (p_rpos p + i) (p_cap p) ltac:(lia)).
    rewrite arr_get_ok, res_bind_ok, arr_set_ok, res_bind_ok by lia.
    destruct (IH (i + 1) (arr_put b i (arr_at (p_buf p) ((p_rpos p + i) mod p_cap p)))) as (b' & E & El & Hb'); try (simpl; lia).
    exists b'. split_and!; auto. intros j. rewrite Hb', arr_at_put.
    destruct (Z.eqb_spec i j) as [->|]; zdecide; [reflexivity|].
    destruct (Z.leb_spec (i + 1) j), (Z.leb_spec i j), (Z.ltb_spec j (i + 1 + Z.of_nat n)), (Z.ltb_spec j (i + Z.of_nat (S n))); try reflexivity; lia.
Qed.

Lemma ring_resize p n : ring_ok p -> p_count p < n <= 65536 ->
  exists b, copy_ring (Z.to_nat (p_count p)) p 0 (arr_new n 0) = Ok b /\
    let p' := PipeState b n 0 (p_count p) (p_count p) (p_readers p) (p_writers p) in
    ring_ok p' /\ content p' = content p.
Proof.
  intros [H1 H2 H3 H4 H5] Hn. destruct (copy_ring_ok (Z.to_nat (p_count p)) p 0 (arr_new n 0)) as (b & E & Eb & Hb); simpl; try lia.
  exists b. split; [exact E|]. cbv zeta. split.
  - constructor; simpl; auto; try lia. rewrite Z.mod_small; lia.
  - unfold content. simpl. apply list_eq. intros i. rewrite !lookup_map_seqZ. destruct (Z.ltb_spec (Z.of_nat i) (p_count p)); [|reflexivity].
    f_equal. unfold ring_at at 1. rewrite Z.add_0_l, Z.mod_small, Hb by lia. zdecide. reflexivity.
Qed.

(** ** All pipes *)

Definition is_end (ps : Z) (b : bool) (pn : pipe_node) : Prop := pn_ps pn = ps /\ pn_is_read_end pn = b.
#[global] Instance is_end_dec ps b pn : Decision (is_end ps b pn) := _.

(** How many ends of one kind a pipe has. *)
Definition ends (m : gmap Z pipe_node) (ps : Z) (b : bool) : Z := Z.of_nat (size (filter (fun np => is_end ps b np.2) m)).

Lemma ends_delete m n pn ps b : m !! n = Some pn ->
  ends (delete n m) ps b = ends m ps b - (if bool_decide (is_end ps b pn) then 1 else 0).
Proof.
  intros Hn. unfold ends. rewrite map_filter_delete. case_bool_decide as Hd.
  - assert (Hf : filter (fun np => is_end ps b np.2) m !! n = Some pn) by (apply map_lookup_filter_Some; auto).
    rewrite (map_size_delete_Some _ _ (mk_is_Some _ _ Hf)).
    assert (size (filter (fun np => is_end ps b np.2) m) <> 0)%nat; [|lia].
    intros H0%map_size_empty_inv. rewrite H0 in Hf. discriminate.
  - rewrite delete_id; [lia|]. apply map_lookup_filter_None. right. intros x Hx. simplify_eq. auto.
Qed.

Lemma ends_insert m n pn ps b : m !! n = None ->
  ends (<[n := pn]> m) ps b = ends m ps b + (if bool_decide (is_end ps b pn) then 1 else 0).
Proof.
  intros Hn. unfold ends. case_bool_decide as Hd.
  - rewrite map_filter_insert_True by auto. rewrite map_size_insert_None; [lia|]. apply map_lookup_filter_None. auto.
  - rewrite map_filter_insert_False by auto. rewrite delete_id by auto. lia.
Qed.

Lemma ends_pos m n pn : m !! n = Some pn -> 0 < ends m (pn_ps pn) (pn_is_read_end pn).
Proof.
  intros Hn. unfold ends.
  assert (Hf : filter (fun np => is_end (pn_ps pn) (pn_is_read_end pn) np.2) m !! n = Some pn) by (apply map_lookup_filter_Some; split; [auto|split; auto]).
  assert (size (filter (fun np => is_end (pn_ps pn) (pn_is_read_end pn) np.2) m) <> 0)%nat; [|lia].
  intros H0%map_size_empty_inv. rewrite H0 in Hf. discriminate.
Qed.

(** Every node belongs to a pipe that exists, and every pipe knows how many ends of
    each kind it has, and has at least one. *)
Record pipes_ok (w : pipes) : Prop := PipesOk {
  po_state : forall ps p, states w !! ps = Some p ->
    ps <> 0 /\ ring_ok p /\ p_readers p = ends (nodes w) ps true /\ p_writers p = ends (nodes w) ps false /\
    0 < p_readers p + p_writers p;
  po_node : forall n pn, nodes w !! n = Some pn -> n <> 0 /\ pn_ps pn <> 0 /\ is_Some (states w !! pn_ps pn)
}.

Lemma get_node_ok w n pn : nodes w !! n = Some pn -> get_node w n = Ok pn.
Proof. intros H. unfold get_node. rewrite H. reflexivity. Qed.

Lemma get_state_ok w ps p : states w !! ps = Some p -> get_state w ps = Ok p.
Proof. intros H. unfold get_state. rewrite H. reflexivity. Qed.

(** A pipe whose ring changed but not its ends. *)
Lemma pipes_ok_put w ps p p' : pipes_ok w -> states w !! ps = Some p -> ring_ok p' ->
  p_readers p' = p_readers p -> p_writers p' = p_writers p -> pipes_ok (put_state w ps p').
Proof.
  intros [H1 H2] Hp Hr Er Ew. constructor; simpl.
  - intros ps' q Hq. destruct (decide (ps' = ps)) as [->|].
    + rewrite lookup_insert_eq in Hq. simplify_eq. destruct (H1 ps p Hp) as (? & ? & ? & ? & ?). split_and!; auto; congruence || lia.
    + rewrite lookup_insert_ne in Hq by auto. auto.
  - intros n pn Hn. destruct (H2 n pn Hn) as (? & ? & Hs). split_and!; auto. apply lookup_insert_is_Some'. auto.
Qed.

(** What happens to the queues: [sent] bytes enter and [got] bytes leave the pipe [ps]. *)
Record flow : Type := Flow { fl_ps : Z; fl_sent : list Z; fl_got : list Z }.

(** The pipes after an operation that moved bytes through one of them. *)
Definition moved (w w' : pipes) (e : flow) : Prop :=
  (forall ps, is_Some (states w' !! ps) -> is_Some (states w !! ps)) /\
  (forall ps p p', states w !! ps = Some p -> states w' !! ps = Some p' ->
     if ps =? fl_ps e then content p ++ fl_sent e = fl_got e ++ content p' else content p' = content p).

Lemma moved_put w ps p p' e : states w !! ps = Some p -> content p ++ fl_sent e = fl_got e ++ content p' -> fl_ps e = ps ->
  moved w (put_state w ps p') e.
Proof.
  intros Hp Hc He. split; simpl.
  - intros ps' [q Hq]. destruct (decide (ps' = ps)) as [->|]; [eauto|]. rewrite lookup_insert_ne in Hq by auto. eauto.
  - intros ps' q q' Hq Hq'. destruct (Z.eqb_spec ps' (fl_ps e)) as [E|E].
    + rewrite E, He in *. rewrite lookup_insert_eq in Hq'. simplify_eq. auto.
    + rewrite lookup_insert_ne in Hq' by congruence. simplify_eq. reflexivity.
Qed.

Lemma moved_none w e : fl_sent e = [] -> fl_got e = [] -> moved w w e.
Proof.
  intros H1 H2. split; [auto|]. intros ps p p' Hp Hp'. simplify_eq. rewrite H1, H2, app_nil_r. destruct (_ =? _); reflexivity.
Qed.

(** ** Operations *)

Inductive pipe_op : Type :=
| PRead (n size : Z)
| PWrite (n : Z) (data : list Z)
| PClose (n : Z)
| PResize (n arg : Z) (got : bool).

Definition op_node (o : pipe_op) : Z := match o with PRead n _ | PWrite n _ | PClose n | PResize n _ _ => n end.

(** The pipe of a node. *)
Definition pipe_of (w : pipes) (n : Z) : Z := match nodes w !! n with Some pn => pn_ps pn | None => 0 end.

Definition run_op (w : pipes) (o : pipe_op) : res (flow * pipes) :=
  let ps := pipe_of w (op_node o) in
  match o with
  | PRead n size => r ← pipe_read w n size; mret (Flow ps [] r.1, r.2)
  | PWrite n data => r ← pipe_write w n data; mret (Flow ps (take (Z.to_nat r.1) data) [], r.2)
  | PClose n => w ← pipe_close w n; mret (Flow ps [] [], w)
  | PResize n arg got => r ← fcntl_setpipe_sz w n arg got; mret (Flow ps [] [], r.2)
  end.

(** The node exists; sizes and lengths are those of the machine; the ring is not
    shrunk to exactly what it holds. *)
Definition op_allowed (w : pipes) (o : pipe_op) : Prop :=
  is_Some (nodes w !! op_node o) /\
  match o with
  | PRead _ size => 0 <= size < 4294967296
  | PWrite _ data => Z.of_nat (length data) < 4294967296
  | PClose _ => True
  | PResize n arg _ => forall p, states w !! pipe_of w n = Some p -> p_count p <> Z.min (Z.max arg 512) 65536
  end.

Lemma end_state w n pn : pipes_ok w -> nodes w !! n = Some pn ->
  n <> 0 /\ pn_ps pn <> 0 /\ pipe_of w n = pn_ps pn /\ exists p, states w !! pn_ps pn = Some p /\ ring_ok p.
Proof.
  intros H Hn. destruct (po_node _ H n pn Hn) as (H1 & H2 & [p Hp]). destruct (po_state _ H _ _ Hp) as (_ & Hr & _).
  unfold pipe_of. rewrite Hn. eauto 10.
Qed.

(** A read delivers the oldest bytes, as many as there are and were asked for. *)
Lemma pipe_read_ok w n pn p size : pipes_ok w -> nodes w !! n = Some pn -> states w !! pn_ps pn = Some p -> pn_is_read_end pn = true ->
  0 <= size -> exists w', pipe_read w n size = Ok (take (Z.to_nat size) (content p), w') /\ pipes_ok w' /\ nodes w' = nodes w /\
    moved w w' (Flow (pn_ps pn) [] (take (Z.to_nat size) (content p))) /\
    exists p', states w' !! pn_ps pn = Some p' /\ content p' = drop (Z.to_nat size) (content p) /\ p_writers p' = p_writers p.
Proof.
  intros H Hn Hp Hre Hs. destruct (end_state w n pn H Hn) as (H1 & H2 & _ & p0 & Hp0 & Hr). simplify_eq.
  pose proof (content_length p Hr) as Hl. unfold pipe_read. rewrite (proj2 (Z.eqb_neq n 0) H1), (get_node_ok _ _ _ Hn), res_bind_ok.
  rewrite (proj2 (Z.eqb_neq _ 0) H2), Hre. cbn [negb]. destruct (Z.eqb_spec size 0) as [->|Hz].
  { exists w. split; [reflexivity|]. split_and!; auto; [apply moved_none; reflexivity|]. exists p. auto. }
  rewrite (get_state_ok _ _ _ Hp), res_bind_ok. cbv zeta.
  set (k := if p_count p <? size then p_count p else size). pose proof (ro_count _ Hr) as Hc.
  assert (Hk : 0 <= k <= p_count p) by (unfold k; destruct (Z.ltb_spec (p_count p) size); lia).
  destruct (ring_read p k Hr Hk) as (p1 & -> & Hr1 & Hc1 & Er & Ew). rewrite res_bind_ok.
  assert (Et : take (Z.to_nat k) (content p) = take (Z.to_nat size) (content p) /\ drop (Z.to_nat k) (content p) = drop (Z.to_nat size) (content p)).
  { unfold k. destruct (Z.ltb_spec (p_count p) size); [rewrite !take_ge, !drop_ge by lia|]; auto. }
  destruct Et as [-> Et]. eexists. split; [reflexivity|]. rewrite Et in Hc1. split_and!; auto.
  - eapply pipes_ok_put; eauto.
  - eapply moved_put; eauto. simpl. rewrite Hc1, app_nil_r, take_drop. reflexivity.
  - eexists. split; [apply lookup_insert_eq|]. auto.
Qed.

(** A write appends as many bytes as there is room for, while somebody can read. *)
Definition room (p : pipe_state) (data : list Z) : Z :=
  if p_readers p =? 0 then 0 else Z.min (Z.of_nat (length data)) (p_cap p - p_count p).

Lemma pipe_write_ok w n pn p data : pipes_ok w -> nodes w !! n = Some pn -> states w !! pn_ps pn = Some p -> pn_is_read_end pn = false ->
  let k := room p data in
  exists w', pipe_write w n data = Ok (k, w') /\ pipes_ok w' /\ nodes w' = nodes w /\
    moved w w' (Flow (pn_ps pn) (take (Z.to_nat k) data) []) /\
    exists p', states w' !! pn_ps pn = Some p' /\ content p' = content p ++ take (Z.to_nat k) data /\
      p_readers p' = p_readers p /\ p_cap p' = p_cap p /\ p_count p' = p_count p + k.
Proof.
  intros H Hn Hp Hre k. destruct (end_state w n pn H Hn) as (H1 & H2 & _ & p0 & Hp0 & Hr). simplify_eq.
  pose proof (ro_count _ Hr) as Hc. pose proof (ro_cap _ Hr) as Hcap.
  unfold pipe_write. rewrite (proj2 (Z.eqb_neq n 0) H1), (get_node_ok _ _ _ Hn), res_bind_ok.
  rewrite (proj2 (Z.eqb_neq _ 0) H2), Hre. unfold room in k.
  assert (Hnone : k = 0 -> exists w', Ok (0, w) = Ok (k, w') /\ pipes_ok w' /\ nodes w' = nodes w /\ moved w w' (Flow (pn_ps pn) (take (Z.to_nat k) data) []) /\
    exists p', states w' !! pn_ps pn = Some p' /\ content p' = content p ++ take (Z.to_nat k) data /\
      p_readers p' = p_readers p /\ p_cap p' = p_cap p /\ p_count p' = p_count p + k).
  { intros ->. exists w. split_and!; auto; [apply moved_none; reflexivity|]. exists p. rewrite app_nil_r. split_and!; auto. lia. }
  destruct (Z.eqb_spec (Z.of_nat (length data)) 0) as [Hz|Hz].
  { apply Hnone. unfold k. destruct (_ =? _); lia. }
  rewrite (get_state_ok _ _ _ Hp), res_bind_ok. destruct (Z.eqb_spec (p_readers p) 0) as [Hz0|Hz0]; [apply Hnone; reflexivity|]. clear Hnone.
  rewrite u32_small by lia. cbv zeta.
  replace (if p_cap p - p_count p <? Z.of_nat (length data) then p_cap p - p_count p else Z.of_nat (length data)) with k
    by (unfold k; destruct (Z.ltb_spec (p_cap p - p_count p) (Z.of_nat (length data))); lia).
  assert (Ek : Z.of_nat (length (take (Z.to_nat k) data)) = k) by (rewrite length_take; lia).
  destruct (ring_write p (take (Z.to_nat k) data) Hr) as (p1 & E & Hw); [lia|]. rewrite Ek in Hw. destruct Hw as (Hr1 & Hc1 & Er & Ew & Ecap & Ecnt).
  rewrite E, res_bind_ok. eexists. split; [reflexivity|]. split_and!; auto.
  - eapply pipes_ok_put; eauto.
  - eapply moved_put; eauto.
  - eexists. split; [apply lookup_insert_eq|]. split_and!; auto.
Qed.

Lemma pipe_close_ok w n pn : pipes_ok w -> nodes w !! n = Some pn ->
  exists w', pipe_close w n = Ok w' /\ pipes_ok w' /\ nodes w' = delete n (nodes w) /\ moved w w' (Flow (pn_ps pn) [] []).
Proof.
  intros H Hn. destruct (end_state w n pn H Hn) as (H1 & H2 & _ & p & Hp & Hr).
  destruct (po_state _ H _ _ Hp) as (_ & _ & Er & Ew & Hpos). pose proof (ends_pos _ _ _ Hn) as Hend.
  unfold pipe_close. rewrite (proj2 (Z.eqb_neq n 0) H1), (get_node_ok _ _ _ Hn), res_bind_ok, (proj2 (Z.eqb_neq _ 0) H2).
  unfold get_state. cbn [states]. rewrite Hp. cbn [of_option]. rewrite res_bind_ok.
  replace ((p_readers p =? 0) && (p_writers p =? 0)) with false by (destruct (Z.eqb_spec (p_readers p) 0), (Z.eqb_spec (p_writers p) 0); simpl; auto; lia).
  set (p' := if pn_is_read_end pn then _ else _).
  assert (Hp' : p_readers p' = ends (delete n (nodes w)) (pn_ps pn) true /\ p_writers p' = ends (delete n (nodes w)) (pn_ps pn) false /\
    ring_ok p' /\ content p' = content p).
  { rewrite !(ends_delete _ _ _ _ _ Hn). unfold p'. destruct (pn_is_read_end pn) eqn:Ee; rewrite ?Ee in Hend; cbn [set_ends p_readers p_writers].
    - rewrite bool_decide_true, bool_decide_false by (unfold is_end; intuition congruence). zdecide.
      destruct Hr. split_and!; try lia; try reflexivity. constructor; auto.
    - rewrite bool_decide_false, bool_decide_true by (unfold is_end; intuition congruence). zdecide.
      destruct Hr. split_and!; try lia; try reflexivity. constructor; auto. }
  destruct Hp' as (Er' & Ew' & Hr' & Hc'). clearbody p'.
  assert (Hother : forall ps q, ps <> pn_ps pn -> states w !! ps = Some q -> ps <> 0 /\ ring_ok q /\
    p_readers q = ends (delete n (nodes w)) ps true /\ p_writers q = ends (delete n (nodes w)) ps false /\ 0 < p_readers q + p_writers q).
  { intros ps q Hne Hq. rewrite !(ends_delete _ _ _ _ _ Hn), !bool_decide_false by (unfold is_end; intuition congruence).
    rewrite !Z.sub_0_r. apply (po_state _ H ps q Hq). }
  destruct ((p_readers p' =? 0) && (p_writers p' =? 0)) eqn:E0.
  - apply andb_true_iff in E0 as [E1%Z.eqb_eq E2%Z.eqb_eq]. eexists. split; [reflexivity|]. cbn [nodes states]. split_and!; auto.
    + constructor; cbn [nodes states].
      * intros ps q Hq. apply lookup_delete_Some in Hq as [Hne Hq]. apply Hother; auto.
      * intros m qn Hm. pose proof (ends_pos _ _ _ Hm) as Hm'. apply lookup_delete_Some in Hm as [Hne Hm].
        destruct (po_node _ H m qn Hm) as (? & ? & ?). split_and!; auto. rewrite lookup_delete_ne; [auto|].
        intros Eps. rewrite <- Eps in Hm'. destruct (pn_is_read_end qn); lia.
    + split; cbn [states].
      * intros ps [q Hq]. apply lookup_delete_Some in Hq as [_ Hq]. eauto.
      * intros ps q q' Hq Hq'. apply lookup_delete_Some in Hq' as [_ Hq']. simplify_eq. cbn [fl_sent fl_got app]. rewrite app_nil_r.
        destruct (_ =? _); reflexivity.
  - eexists. split; [reflexivity|]. split_and!; auto.
    + constructor; cbn [put_state nodes states].
      * intros ps q Hq. destruct (decide (ps = pn_ps pn)) as [->|Hne]; [|rewrite lookup_insert_ne in Hq by auto; apply Hother; auto].
        rewrite lookup_insert_eq in Hq. injection Hq as <-. split_and!; auto. rewrite Er', Ew' in *. unfold ends in *.
        destruct (Z.eqb_spec (Z.of_nat (size (filter (fun np => is_end (pn_ps pn) true np.2) (delete n (nodes w))))) 0); [|lia]. simpl in E0.
        apply Z.eqb_neq in E0. lia.
      * intros m qn Hm. apply lookup_delete_Some in Hm as [_ Hm]. destruct (po_node _ H m qn Hm) as (? & ? & ?). split_and!; auto.
        apply lookup_insert_is_Some'. auto.
    + apply (moved_put (Pipes (states w) (delete n (nodes w))) _ p); auto. cbn [fl_sent fl_got app]. rewrite app_nil_r. auto.
Qed.

Lemma pipe_resize_ok w n pn p arg got : pipes_ok w -> nodes w !! n = Some pn -> states w !! pn_ps pn = Some p ->
  p_count p <> Z.min (Z.max arg 512) 65536 ->
  exists r w', fcntl_setpipe_sz w n arg got = Ok (r, w') /\ pipes_ok w' /\ nodes w' = nodes w /\ moved w w' (Flow (pn_ps pn) [] []).
Proof.
  intros H Hn Hp Hne. destruct (end_state w n pn H Hn) as (_ & _ & _ & p0 & Hp0 & Hr). simplify_eq.
  unfold fcntl_setpipe_sz. rewrite (get_node_ok _ _ _ Hn), res_bind_ok, (get_state_ok _ _ _ Hp), res_bind_ok. cbv zeta.
  replace (if 65536 <? _ then _ else _) with (Z.min (Z.max arg 512) 65536)
    by (destruct (Z.ltb_spec arg 512); [|destruct (Z.ltb_spec 65536 arg)]; repeat bdestr; lia).
  set (c := Z.min (Z.max arg 512) 65536) in *.
  destruct (c =? p_cap p); [eexists _, _; split; [reflexivity|]; auto using moved_none|].
  destruct (Z.ltb_spec c (p_count p)); [eexists _, _; split; [reflexivity|]; auto using moved_none|].
  destruct got; cbn [negb]; [|eexists _, _; split; [reflexivity|]; auto using moved_none].
  destruct (ring_resize p c Hr) as (b & -> & Hr' & Hc'); [lia|]. rewrite res_bind_ok.
  eexists _, _. split; [reflexivity|]. split_and!; auto; [eapply pipes_ok_put; eauto|].
  eapply moved_put; eauto. cbn [fl_sent fl_got app]. rewrite app_nil_r. auto.
Qed.

(** An end only does what it is for. *)
Lemma wrong_end w n pn size data : pipes_ok w -> nodes w !! n = Some pn ->
  (pn_is_read_end pn = false -> pipe_read w n size = Ok ([], w)) /\ (pn_is_read_end pn = true -> pipe_write w n data = Ok (0, w)).
Proof.
  intros H Hn. destruct (end_state w n pn H Hn) as (H1 & H2 & _). unfold pipe_read, pipe_write.
  rewrite (proj2 (Z.eqb_neq n 0) H1), (get_node_ok _ _ _ Hn), !res_bind_ok, (proj2 (Z.eqb_neq _ 0) H2). split; intros ->; reflexivity.
Qed.

Lemma run_op_ok w o : pipes_ok w -> op_allowed w o ->
  exists e w', run_op w o = Ok (e, w') /\ pipes_ok w' /\ moved w w' e.
Proof.
  intros H [[pn Hn] Ha]. destruct (end_state w _ pn H Hn) as (_ & _ & Eps & p & Hp & Hr).
  unfold run_op. rewrite Eps. destruct o as [n size|n data|n|n arg got]; cbn [op_node] in *.
  - destruct (wrong_end w n pn size [] H Hn) as [Hw _]. destruct (pn_is_read_end pn) eqn:Ee.
    + destruct (pipe_read_ok w n pn p size H Hn Hp Ee) as (w' & -> & H1 & _ & H2 & _); [lia|]. eauto.
    + rewrite (Hw eq_refl). eexists _, _. split; [reflexivity|]. auto using moved_none.
  - destruct (wrong_end w n pn 0 data H Hn) as [_ Hw]. destruct (pn_is_read_end pn) eqn:Ee.
    + rewrite (Hw eq_refl). eexists _, _. split; [reflexivity|]. auto using moved_none.
    + destruct (pipe_write_ok w n pn p data H Hn Hp Ee) as (w' & -> & H1 & _ & H2 & _). eauto.
  - destruct (pipe_close_ok w n pn H Hn) as (w' & -> & H1 & _ & H2). eauto.
  - rewrite Eps in Ha. destruct (pipe_resize_ok w n pn p arg got H Hn Hp (Ha p Hp)) as (r & w' & -> & H1 & _ & H2). eauto.
Qed.

(** ** Executions *)

Fixpoint run_ops (w : pipes) (l : list pipe_op) : res (list flow * pipes) :=
  match l with
  | [] => mret ([], w)
  | o :: l => r ← run_op w o; rs ← run_ops r.2 l; mret (r.1 :: rs.1, rs.2)
  end.

Fixpoint ops_allowed (w : pipes) (l : list pipe_op) : Prop :=
  match l with
  | [] => True
  | o :: l => op_allowed w o /\ forall r, run_op w o = Ok r -> ops_allowed r.2 l
  end.

(** All bytes that entered and all bytes that left a pipe, in order. *)
Definition sent (ps : Z) (l : list flow) : list Z := concat (map (fun e => if fl_ps e =? ps then fl_sent e else []) l).
Definition got (ps : Z) (l : list flow) : list Z := concat (map (fun e => if fl_ps e =? ps then fl_got e else []) l).

Lemma run_ops_ok w l : pipes_ok w -> ops_allowed w l ->
  exists es w', run_ops w l = Ok (es, w') /\ pipes_ok w' /\
    (forall ps, is_Some (states w' !! ps) -> is_Some (states w !! ps)) /\
    forall ps p p', states w !! ps = Some p -> states w' !! ps = Some p' -> content p ++ sent ps es = got ps es ++ content p'.
Proof.
  revert w. induction l as [|o l IH]; intros w H Ha.
  - exists [], w. split_and!; auto. intros ps p p' Hp Hp'. simplify_eq. unfold sent, got. simpl. apply app_nil_r.
  - destruct Ha as [Ho Ha]. destruct (run_op_ok w o H Ho) as (e & w1 & E & H1 & Hm1 & Hm2). cbn [run_ops]. rewrite E, res_bind_ok. cbn [fst snd].
    destruct (IH w1 H1 (Ha _ E)) as (es & w' & -> & H' & Hs & Hq). rewrite res_bind_ok. eexists _, _. split; [reflexivity|].
    split_and!; auto. intros ps p p' Hp Hp'. destruct (Hs ps (mk_is_Some _ _ Hp')) as [p1 Hp1].
    specialize (Hq ps p1 p' Hp1 Hp'). specialize (Hm2 ps p p1 Hp Hp1). unfold sent, got in *. cbn [map concat fst].
    rewrite Z.eqb_sym in Hm2. destruct (fl_ps e =? ps).
    + rewrite app_assoc, Hm2, <- !app_assoc, Hq. reflexivity.
    + cbn [app]. rewrite <- Hm2. exact Hq.
Qed.

(** ** Creation *)

Lemma ends_none w ps b : pipes_ok w -> states w !! ps = None -> ends (nodes w) ps b = 0.
Proof.
  intros H Hs. unfold ends. replace (filter _ _) with (∅ : gmap Z pipe_node); [reflexivity|].
  symmetry. apply map_eq. intros n. rewrite lookup_empty. apply map_lookup_filter_None. right. intros pn Hn [E _].
  destruct (po_node _ H n pn Hn) as (_ & _ & [q Hq]). simpl in E. congruence.
Qed.

Lemma pipe_create_ok w ps buf rn wn : pipes_ok w -> ps <> 0 -> buf <> 0 -> rn <> 0 -> wn <> 0 -> rn <> wn ->
  states w !! ps = None -> nodes w !! rn = None -> nodes w !! wn = None ->
  exists w' p, pipe_create w ps buf rn wn = Ok (0, w') /\ pipes_ok w' /\ states w' = <[ps := p]> (states w) /\
    nodes w' = <[wn := PipeNode ps false]> (<[rn := PipeNode ps true]> (nodes w)) /\
    content p = [] /\ p_cap p = 512 /\ p_readers p = 1 /\ p_writers p = 1.
Proof.
  intros H Hps Hb Hrn Hwn Hne Hs Hr Hw. unfold pipe_create, pipe_node_create, get_state. cbn [put_state states nodes].
  rewrite (proj2 (Z.eqb_neq ps 0) Hps), (proj2 (Z.eqb_neq buf 0) Hb), (proj2 (Z.eqb_neq rn 0) Hrn), (proj2 (Z.eqb_neq wn 0) Hwn).
  rewrite lookup_insert_eq. cbn [of_option]. rewrite !res_bind_ok. cbn [Z.ltb Z.compare states nodes]. rewrite lookup_insert_eq.
  cbn [of_option]. rewrite !res_bind_ok. cbn [Z.ltb Z.compare]. eexists _, _. split; [reflexivity|]. cbn [states nodes].
  rewrite !insert_insert_eq. split_and!; try reflexivity.
  assert (Hn0 : forall b, ends (nodes w) ps b = 0) by (intros b; apply (ends_none w); auto).
  assert (Hn2 : <[rn := PipeNode ps true]> (nodes w) !! wn = None) by (rewrite lookup_insert_ne; auto).
  constructor; cbn [states nodes].
  - intros q p Hq. rewrite !ends_insert by auto. destruct (decide (q = ps)) as [->|Hq0].
    + rewrite lookup_insert_eq in Hq. injection Hq as <-. rewrite !Hn0.
      rewrite (bool_decide_true (is_end ps true (PipeNode ps true))), (bool_decide_true (is_end ps false (PipeNode ps false))) by (split; reflexivity).
      rewrite !bool_decide_false by (intros [_ E]; discriminate E). split_and!; auto; [|reflexivity].
      constructor; simpl; auto; lia.
    + rewrite lookup_insert_ne in Hq by auto. rewrite !bool_decide_false by (unfold is_end; simpl; intuition congruence).
      rewrite !Z.add_0_r. apply (po_state _ H q p Hq).
  - intros n pn Hn. rewrite lookup_insert_is_Some'. destruct (decide (n = wn)) as [->|]; [rewrite lookup_insert_eq in Hn; injection Hn as <-; auto|].
    rewrite lookup_insert_ne in Hn by auto. destruct (decide (n = rn)) as [->|]; [rewrite lookup_insert_eq in Hn; injection Hn as <-; auto|].
    rewrite lookup_insert_ne in Hn by auto. destruct (po_node _ H n pn Hn) as (? & ? & ?). auto.
Qed.
