(* ===== verification/PipeTheorems.v ===== *)
(** What holds of pipes: bytes leave in the order they entered, none is lost or made
    up; what is written is what is read; and the two ways the code breaks this. *)

From S2P Require Import Prelude FileIo Pipe PipeSpec.

(** C34: A sequence of reads, writes, closes and changes of size, one after the other and
    each on an end that is open, runs without an access outside a buffer or to a pipe that
    was freed, when no change of size asks for exactly the number of bytes in the pipe
    ([ops_allowed]; [pipe_shrink_overflows] is what happens then).  It keeps the bytes of
    each pipe in order: what was in it and what was written to it is what was read from it
    followed by what is in it. *)
Theorem pipe_fifo w l : pipes_ok w -> ops_allowed w l ->
  exists es w', run_ops w l = Ok (es, w') /\ pipes_ok w' /\
    forall ps p p', states w !! ps = Some p -> states w' !! ps = Some p' -> content p ++ sent ps es = got ps es ++ content p'.
Proof. intros H Ha. destruct (run_ops_ok w l H Ha) as (es & w' & H1 & H2 & _ & H3). eauto. Qed.

(** ** System calls *)

Lemma read_loop_pipe fuel w n pn p f len total acc : pipes_ok w -> nodes w !! n = Some pn -> states w !! pn_ps pn = Some p ->
  pn_is_read_end pn = true -> 0 <= total <= len -> len <= 1048576 -> (Z.to_nat (len - total) < fuel)%nat ->
  let got := take (Z.to_nat (len - total)) (content p) in
  exists f' w' p', read_loop fuel (pipe_read_fops n) (fun _ _ => true) w f true len total acc =
      Ok (total + Z.of_nat (length got), acc ++ got, f', w') /\
    pipes_ok w' /\ nodes w' = nodes w /\ states w' !! pn_ps pn = Some p' /\ content p' = drop (Z.to_nat (len - total)) (content p).
Proof.
  revert w p f total acc. induction fuel as [|fuel IH]; intros w p f total acc H Hn Hp Hre Ht Hlen Hf g; [lia|].
  cbn [read_loop]. destruct (Z.ltb_spec total len) as [Hlt|Hge].
  2:{ unfold g. replace (Z.to_nat (len - total)) with 0%nat by lia. exists f, w, p. rewrite app_nil_r. simpl. rewrite Z.add_0_r. auto. }
  cbv zeta. set (chunk := Z.min (len - total) 256). unfold vfs_read. cbn [pipe_read_fops n_read].
  destruct (pipe_read_ok w n pn p chunk H Hn Hp Hre) as (w1 & -> & H1 & Hn1 & _ & p1 & Hp1 & Hc1 & _); [lia|]. rewrite res_bind_ok.
  pose proof (length_take (content p) (Z.to_nat chunk)) as Lt. unfold g in *. clear g.
  destruct (Z.eqb_spec (Z.of_nat (length (take (Z.to_nat chunk) (content p)))) 0) as [Hz|Hz].
  { assert (Hc0 : content p = []) by (apply nil_length_inv; lia). rewrite Hc0, take_nil, drop_nil in *. simpl. rewrite Z.add_0_r, app_nil_r. eauto 10. }
  cbn [negb]. rewrite (u32_small (total + _)) by lia.
  destruct (Z.ltb_spec (Z.of_nat (length (take (Z.to_nat chunk) (content p)))) chunk) as [Hs|Hs].
  - rewrite !(take_ge (content p)), (drop_ge (content p)) in * by lia. eexists _, _, p1. split; [reflexivity|]. auto.
  - destruct (IH w1 p1 (set_offset (u32 (o_offset f + Z.of_nat (length (take (Z.to_nat chunk) (content p))))) f)
      (total + Z.of_nat (length (take (Z.to_nat chunk) (content p)))) (acc ++ take (Z.to_nat chunk) (content p)))
      as (f' & w' & p' & E & H' & Hn' & Hp' & Hc'); rewrite ?Hn1; auto; try lia.
    assert (Ea : Z.to_nat (len - (total + Z.of_nat (length (take (Z.to_nat chunk) (content p))))) = (Z.to_nat (len - total) - Z.to_nat chunk)%nat) by lia.
    rewrite Ea in *. rewrite Hc1, drop_drop in Hc'. rewrite Hc1 in E.
    replace (Z.to_nat (len - total)) with (Z.to_nat chunk + (Z.to_nat (len - total) - Z.to_nat chunk))%nat by lia.
    exists f', w', p'. rewrite E, <- take_take_drop. split_and!; auto; try congruence.
    rewrite length_app, Nat2Z.inj_add, Z.add_assoc, app_assoc. reflexivity.
Qed.

Lemma write_loop_pipe fuel w n pn p f data total : pipes_ok w -> nodes w !! n = Some pn -> states w !! pn_ps pn = Some p ->
  pn_is_read_end pn = false -> p_readers p <> 0 -> 0 <= total <= Z.of_nat (length data) -> Z.of_nat (length data) <= 1048576 ->
  (Z.to_nat (Z.of_nat (length data) - total) < fuel)%nat ->
  let k := Z.min (Z.of_nat (length data) - total) (p_cap p - p_count p) in
  exists f' w' p', write_loop fuel (pipe_write_fops n) (fun i c => Some (take (Z.to_nat c) (drop (Z.to_nat i) data))) w f (Z.of_nat (length data)) total =
      Ok (total + k, f', w') /\
    pipes_ok w' /\ nodes w' = nodes w /\ states w' !! pn_ps pn = Some p' /\
    content p' = content p ++ take (Z.to_nat k) (drop (Z.to_nat total) data).
Proof.
  revert w p f total. induction fuel as [|fuel IH]; intros w p f total H Hn Hp Hre Hrd Ht Hlen Hf k; [lia|].
  destruct (end_state w n pn H Hn) as (_ & _ & _ & p0 & Hp0 & Hr). simplify_eq. pose proof (ro_count _ Hr) as Hc.
  cbn [write_loop]. destruct (Z.ltb_spec total (Z.of_nat (length data))) as [Hlt|Hge].
  2:{ replace k with 0 by lia. exists f, w, p. rewrite app_nil_r, Z.add_0_r. auto. }
  cbv zeta. set (len := Z.of_nat (length data)) in *. set (chunk := Z.min (len - total) 1024). unfold vfs_write. cbn [pipe_write_fops n_write n_flags].
  set (part := take (Z.to_nat chunk) (drop (Z.to_nat total) data)).
  assert (Lp : Z.of_nat (length part) = chunk) by (unfold part; rewrite length_take, length_drop; lia).
  destruct (pipe_write_ok w n pn p part H Hn Hp Hre) as (w1 & E1 & H1 & Hn1 & _ & p1 & Hp1 & Hc1 & Hr1 & Hcap1 & Hcnt1).
  unfold room in *. rewrite (proj2 (Z.eqb_neq _ 0) Hrd), Lp in *. set (r := Z.min chunk (p_cap p - p_count p)) in *. rewrite E1, res_bind_ok.
  assert (Er : take (Z.to_nat r) part = take (Z.to_nat r) (drop (Z.to_nat total) data)) by (unfold part; rewrite take_take; f_equal; lia).
  rewrite Er in Hc1. destruct (Z.eqb_spec r 0) as [Hz|Hz].
  { replace k with 0 by lia. rewrite Hz in *. exists f, w1, p1. rewrite Z.add_0_r. auto. }
  rewrite (u32_small (total + r)) by lia. destruct (Z.ltb_spec r chunk) as [Hs|Hs].
  - replace k with r by lia. eexists _, _, p1. split; [reflexivity|]. auto.
  - cbn [Z.land Pos.land FS_FILE Z.eqb negb]. destruct (IH w1 p1 (set_offset (u32 (o_offset f + r)) f) (total + r)) as (f' & w' & p' & E & H' & Hn' & Hp' & Hc');
      rewrite ?Hn1; auto; try congruence; try lia.
    rewrite Hcap1, Hcnt1 in *.
    assert (Ek : Z.min (len - (total + r)) (p_cap p - (p_count p + r)) = k - r) by lia. rewrite Ek in *.
    exists f', w', p'. split_and!; auto; try congruence.
    + replace (total + r + (k - r)) with (total + k) in E by lia. exact E.
    + rewrite Hc', Hc1, <- app_assoc. f_equal. replace (Z.to_nat (total + r)) with (Z.to_nat total + Z.to_nat r)%nat by lia.
      rewrite <- drop_drop, take_take_drop. f_equal. lia.
Qed.

(** C35: What is written with the write system call is what the read system call
    delivers: a write to a pipe takes as many bytes as there is room for, and a read
    large enough then returns the bytes that were in the pipe followed by those
    written, across the pieces in which both calls copy. *)
Theorem pipe_syscall_roundtrip w rn wn ps p data len fd1 fd2 tty_read tty_write :
  pipes_ok w -> nodes w !! rn = Some (PipeNode ps true) -> nodes w !! wn = Some (PipeNode ps false) -> states w !! ps = Some p ->
  Z.of_nat (length data) <= 1048576 -> p_count p + Z.of_nat (length data) <= len <= 1048576 -> fd1 <> 0 ->
  let k := Z.min (Z.of_nat (length data)) (p_cap p - p_count p) in
  exists f1 w1 f2 w2,
    syscall_write_impl true (fun i c => Some (take (Z.to_nat c) (drop (Z.to_nat i) data))) tty_write fd1 (Z.of_nat (length data))
      (Some (snd pipe_files, Some (pipe_write_fops wn))) w = Ok (k, f1, w1) /\
    syscall_read_impl true (fun _ _ => true) tty_read fd2 len (Some (fst pipe_files, Some (pipe_read_fops rn))) w1 =
      Ok (p_count p + k, content p ++ take (Z.to_nat k) data, f2, w2).
Proof.
  intros H Hrn Hwn Hp Hd Hlen Hfd k. destruct (po_state _ H ps p Hp) as (_ & Hr & Er & _ & _).
  pose proof (ends_pos _ _ _ Hrn) as Hpos. cbn [pn_ps pn_is_read_end] in Hpos. pose proof (ro_count _ Hr) as Hc.
  destruct (write_loop_pipe (S (length data)) w wn _ p (snd pipe_files) data 0 H Hwn Hp eq_refl) as (f1 & w1 & p1 & Ew & H1 & Hn1 & Hp1 & Hc1);
    [lia..|]. rewrite Z.sub_0_r in *. change (0 + ?x) with x in Ew. fold k in Ew, Hc1. cbn [pn_ps] in *. change (drop (Z.to_nat 0) data) with data in Hc1.
  assert (L1 : Z.of_nat (length (content p1)) = p_count p + k)
    by (rewrite Hc1, length_app, length_take; pose proof (content_length p Hr); lia).
  rewrite <- Hn1 in Hrn.
  destruct (read_loop_pipe (S (Z.to_nat len)) w1 rn _ p1 (fst pipe_files) len 0 [] H1 Hrn Hp1 eq_refl) as (f2 & w2 & p2 & E2 & _);
    [lia..|]. rewrite Z.sub_0_r, take_ge in E2 by lia. change (0 + ?x) with x in E2.
  exists (Some f1), w1, (Some f2), w2. unfold pipe_write_fops, pipe_read_fops in *. cbn [fst snd pipe_files] in *. split.
  - unfold syscall_write_impl, would_block. zdecide. rewrite Nat2Z.id. cbn [negb andb orb n_flags n_write n_poll o_flags o_readonly].
    change (Z.land 1 3 =? 0) with false. change (Z.land 1 O_NONBLOCK =? 0) with true. change (Z.land 1 O_APPEND =? 0) with true.
    cbn [andb negb]. rewrite res_bind_ok, Ew. reflexivity.
  - unfold syscall_read_impl, would_block. zdecide. cbn [negb andb orb n_flags n_read n_poll o_flags].
    change (Z.land 0 3 =? 1) with false. change (Z.land 0 O_NONBLOCK =? 0) with true. change (FS_FILE =? FS_CHARDEVICE) with false.
    cbn [andb negb]. rewrite res_bind_ok, E2, L1, Hc1. reflexivity.
Qed.

(** ** Where the code breaks the contract *)

(** Shrinking a pipe to exactly the number of bytes in it leaves its write position
    one past the end of the new buffer, and nothing brings it back: after one byte is
    read, the next write stores outside the buffer. *)
Theorem pipe_shrink_overflows w rn wn ps p x :
  pipes_ok w -> nodes w !! rn = Some (PipeNode ps true) -> nodes w !! wn = Some (PipeNode ps false) -> states w !! ps = Some p ->
  512 <= p_count p < p_cap p ->
  exists w1 b w2, fcntl_setpipe_sz w rn (p_count p) true = Ok (p_count p, w1) /\ pipe_read w1 rn 1 = Ok ([b], w2) /\
    pipe_write w2 wn [x] = Ub.
Proof.
  intros H Hrn Hwn Hp Hc. destruct (po_state _ H ps p Hp) as (Hps & Hr & Er & _ & _). destruct Hr as [R1 R2 R3 R4 R5].
  destruct (po_node _ H rn _ Hrn) as (Hrn0 & _). destruct (po_node _ H wn _ Hwn) as (Hwn0 & _).
  pose proof (ends_pos _ _ _ Hrn) as Hpos. cbn [pn_ps pn_is_read_end] in Hpos.
  destruct (copy_ring_ok (Z.to_nat (p_count p)) p 0 (arr_new (p_count p) 0)) as (b & E & Eb & _); simpl; try lia.
  unfold fcntl_setpipe_sz. rewrite (get_node_ok _ _ _ Hrn), res_bind_ok. cbn [pn_ps]. rewrite (get_state_ok _ _ _ Hp), res_bind_ok. cbv zeta.
  zdecide. cbn [negb]. rewrite E, res_bind_ok, s32_small by lia.
  set (p1 := PipeState b (p_count p) 0 (p_count p) (p_count p) (p_readers p) (p_writers p)).
  set (p2 := PipeState b (p_count p) 1 (p_count p) (p_count p - 1) (p_readers p) (p_writers p)).
  exists (put_state w ps p1), (arr_at b 0), (put_state (put_state w ps p1) ps p2). split; [reflexivity|]. split.
  - unfold pipe_read, get_node, get_state. cbn [put_state nodes states]. rewrite Hrn. zdecide. cbn [of_option]. rewrite res_bind_ok. cbn [pn_ps pn_is_read_end negb].
    zdecide. rewrite lookup_insert_eq. cbn [of_option]. rewrite res_bind_ok. cbn [p1 p_count p_buf p_rpos p_cap]. zdecide.
    change (Z.to_nat 1) with 1%nat. cbn [take_bytes p1 p_count p_buf p_rpos p_cap p_wpos]. rewrite arr_get_ok, !res_bind_ok by (cbn in Eb; lia).
    unfold advance, put_state, set_ring. cbn [p_count p_buf p_rpos p_cap p_wpos p_readers p_writers nodes states]. rewrite !u32_small by lia. zdecide. reflexivity.
  - unfold pipe_write, get_node, get_state. cbn [put_state nodes states]. rewrite Hwn. zdecide. cbn [of_option length]. rewrite res_bind_ok. cbn [pn_ps pn_is_read_end].
    zdecide. change (Z.of_nat 1) with 1. cbn [Z.eqb]. rewrite lookup_insert_eq. cbn [of_option]. rewrite res_bind_ok. cbn [p2 p_readers p_cap p_count]. zdecide.
    rewrite u32_small by lia. cbv zeta. zdecide. change (Z.to_nat 1) with 1%nat. cbn [take put_bytes p2 p_buf p_wpos].
    unfold arr_set. rewrite arr_in_false by (cbn in Eb; lia). reflexivity.
Qed.

(** The write end of a pipe made by [pipe2] cannot be written to: its access mode
    is replaced by the flags, which say "read only", so every write fails. *)
Theorem pipe2_unwritable flags wn copy tty_write fd len w :
  Z.land flags 3 = 0 -> len <= 1048576 ->
  syscall_write_impl true copy tty_write fd len (Some (snd (pipe2_files flags), Some (pipe_write_fops wn))) w =
  Ok (- EBADF, Some (snd (pipe2_files flags)), w).
Proof.
  intros Hf Hlen. unfold syscall_write_impl. zdecide. destruct (fd =? 0); [reflexivity|]. cbn [snd pipe2_files o_flags pipe_write_fops n_flags].
  rewrite <- Z.land_assoc. change (Z.land (u32 (Z.lnot O_CLOEXEC)) 3) with 3. rewrite Hf. reflexivity.
Qed.

(** ** Concrete pipes *)

Definition fresh_pipes : pipes :=
  match pipe_create (Pipes ∅ ∅) 100 101 102 103 with Ok (_, w) => w | _ => Pipes ∅ ∅ end.

Lemma no_pipes_ok : pipes_ok (Pipes ∅ ∅).
Proof. constructor; simpl; intros ? ? []%lookup_empty_Some. Qed.

Lemma fresh_pipes_ok : pipes_ok fresh_pipes.
Proof.
  destruct (pipe_create_ok (Pipes ∅ ∅) 100 101 102 103 no_pipes_ok) as (w & p & E & H & _); try lia; try apply lookup_empty.
  unfold fresh_pipes. rewrite E. exact H.
Qed.

Lemma pipe_fifo_witness :
  exists es w', run_ops fresh_pipes [PWrite 103 [1; 2; 3]; PRead 102 2; PResize 102 4096 true; PWrite 103 [4]; PClose 103] = Ok (es, w') /\
    got 100 es = [1; 2].
Proof.
  destruct (pipe_fifo fresh_pipes [PWrite 103 [1; 2; 3]; PRead 102 2; PResize 102 4096 true; PWrite 103 [4]; PClose 103] fresh_pipes_ok)
    as (es & w' & E & _).
  - repeat (split; [split; [vm_compute; eauto|first [exact I|vm_compute; split; congruence|vm_compute; reflexivity|
      intros q Hq; vm_compute in Hq; injection Hq as <-; vm_compute; discriminate]]|intros r Hr; vm_compute in Hr; injection Hr as <-]); exact I.
  - exists es, w'. split; [exact E|]. vm_compute in E. injection E as <- _. reflexivity.
Defined.

Lemma pipe_syscall_roundtrip_witness :
  exists f1 w1 f2 w2,
    syscall_write_impl true (fun i c => Some (take (Z.to_nat c) (drop (Z.to_nat i) [7; 8; 9]))) (fun w _ => Ok (0, w)) 4 3
      (Some (snd pipe_files, Some (pipe_write_fops 103))) fresh_pipes = Ok (3, f1, w1) /\
    syscall_read_impl true (fun _ _ => true) (fun w _ => Ok (0, [], w)) 3 100 (Some (fst pipe_files, Some (pipe_read_fops 102))) w1 =
      Ok (3, [7; 8; 9], f2, w2).
Proof.
  apply (pipe_syscall_roundtrip fresh_pipes 102 103 100 (PipeState (arr_new 512 0) 512 0 0 0 1 1) [7; 8; 9] 100 4 3 _ _ fresh_pipes_ok);
    try (vm_compute; reflexivity); simpl; lia.
Defined.

(** A pipe of 1024 bytes that holds 512. *)
Definition half_full : pipes :=
  match run_ops fresh_pipes [PResize 102 1024 true; PWrite 103 (replicate 512 65)] with Ok (_, w) => w | _ => fresh_pipes end.

Lemma half_full_ok : pipes_ok half_full.
Proof.
  destruct (run_ops_ok fresh_pipes [PResize 102 1024 true; PWrite 103 (replicate 512 65)] fresh_pipes_ok) as (es & w & E & H & _).
  - split; [split; [vm_compute; eauto|intros q Hq; vm_compute in Hq; injection Hq as <-; vm_compute; discriminate]|].
    intros r Hr. vm_compute in Hr. injection Hr as <-. split; [split; [vm_compute; eauto|vm_compute; reflexivity]|]. intros r Hr. exact I.
  - unfold half_full. rewrite E. exact H.
Qed.

Definition half_state : pipe_state := default (PipeState (arr_new 0 0) 0 0 0 0 0 0) (states half_full !! 100).

Lemma pipe_shrink_overflows_witness :
  exists w1 b w2, fcntl_setpipe_sz half_full 102 512 true = Ok (512, w1) /\ pipe_read w1 102 1 = Ok ([b], w2) /\ pipe_write w2 103 [66] = Ub.
Proof.
  apply (pipe_shrink_overflows half_full 102 103 100 half_state 66 half_full_ok); vm_compute; split || reflexivity; congruence.
Defined.

Lemma pipe2_unwritable_witness :
  syscall_write_impl true (fun _ _ => Some [7]) (fun w _ => Ok (0, w)) 4 1
    (Some (snd (pipe2_files 524288), Some (pipe_write_fops 103))) fresh_pipes = Ok (- EBADF, Some (snd (pipe2_files 524288)), fresh_pipes).
Proof. apply (pipe2_unwritable 524288 103); [vm_compute; reflexivity|lia]. Defined.
