(* ===== verification/Lz4.v ===== *)
(** The LZ4 decompressor of the initial RAM disk: [src/src/kernel/lz4.c] and the
    xxHash-32 checksum of [src/include/xxhash32.h], on bounded buffers and 32-bit
    pointers. *)

From S2P Require Import Prelude.

(** A buffer in memory: its first address and its bytes. *)
Record buf : Type := Buf { base : Z; bytes : array Z }.

Definition ld (b : buf) (p : Z) : res Z := arr_get (bytes b) (p - base b).
Definition st (b : buf) (p v : Z) : res buf :=
  a ← arr_set (bytes b) (p - base b) v; mret (Buf (base b) a).

Definition read_le32 (b : buf) (p : Z) : res Z :=
  b0 ← ld b p; b1 ← ld b (u32 (p + 1)); b2 ← ld b (u32 (p + 2)); b3 ← ld b (u32 (p + 3));
  mret (Z.lor (Z.lor (Z.lor b0 (Z.shiftl b1 8)) (Z.shiftl b2 16)) (Z.shiftl b3 24)).

Definition read_le64 (b : buf) (p : Z) : res Z :=
  lo ← read_le32 b p; hi ← read_le32 b (u32 (p + 4)); mret (Z.lor lo (Z.shiftl hi 32)).

(** ** Blocks *)

(** The extra bytes of a length: [None] when the input ends among them. *)
Fixpoint ext_len (fuel : nat) (s : buf) (ip ip_end len : Z) : res (option (Z * Z)) :=
  match fuel with
  | O => NoFuel
  | S f =>
      if ip_end <=? ip then mret None
      else
        extra ← ld s ip;
        let ip := u32 (ip + 1) in
        let len := u32 (len + extra) in
        if extra =? 255 then ext_len f s ip ip_end len else mret (Some (ip, len))
  end.

Definition read_len (fuel : nat) (s : buf) (ip ip_end len : Z) : res (option (Z * Z)) :=
  if len =? 15 then ext_len fuel s ip ip_end len else mret (Some (ip, len)).

(** [for (i = 0; i < n; i++) op[i] = ip[i]], from the input. *)
Fixpoint copy_literals (n : nat) (s d : buf) (ip op : Z) : res buf :=
  match n with
  | O => mret d
  | S n =>
      b ← ld s ip; d ← st d op b;
      copy_literals n s d (u32 (ip + 1)) (u32 (op + 1))
  end.

(** The same, from the output itself; the ranges may overlap. *)
Fixpoint copy_match (n : nat) (d : buf) (from op : Z) : res buf :=
  match n with
  | O => mret d
  | S n =>
      b ← ld d from; d ← st d op b;
      copy_match n d (u32 (from + 1)) (u32 (op + 1))
  end.

(** One turn of the loop over the sequences: the call returns, or goes on with the
    pointers moved. *)
Inductive turn : Type :=
| Return (r : Z) (d : buf)
| Continue (ip op : Z) (d : buf).

(** The part of a sequence after its literals. *)
Definition match_part (fuel : nat) (s d : buf) (dst ip ip_end op op_end match_len : Z) : res turn :=
  if ip_end <? u32 (ip + 2) then mret (Return (-1) d) else
  lo ← ld s ip; hi ← ld s (u32 (ip + 1));
  let offset := Z.lor lo (Z.shiftl hi 8) in
  let ip := u32 (ip + 2) in
  if offset =? 0 then mret (Return (-1) d) else
  r ← read_len fuel s ip ip_end match_len;
  match r with
  | None => mret (Return (-1) d)
  | Some (ip, match_len) =>
      let match_len := u32 (match_len + 4) in
      let match_src := u32 (op - offset) in
      if match_src <? dst then mret (Return (-1) d) else
      if op_end <? u32 (op + match_len) then mret (Return (-1) d) else
      d ← copy_match (Z.to_nat match_len) d match_src op;
      mret (Continue ip (u32 (op + match_len)) d)
  end.

Definition sequence (fuel : nat) (s d : buf) (dst ip ip_end op op_end : Z) : res turn :=
  if ip_end <=? ip then mret (Return (-1) d) else
  token ← ld s ip;
  let ip := u32 (ip + 1) in
  r ← read_len fuel s ip ip_end (Z.shiftr token 4);
  match r with
  | None => mret (Return (-1) d)
  | Some (ip, lit_len) =>
      if ip_end <? u32 (ip + lit_len) then mret (Return (-1) d) else
      if op_end <? u32 (op + lit_len) then mret (Return (-1) d) else
      d ← copy_literals (Z.to_nat lit_len) s d ip op;
      let ip := u32 (ip + lit_len) in
      let op := u32 (op + lit_len) in
      if ip_end <=? ip then mret (Return (s32 (op - dst)) d)
      else match_part fuel s d dst ip ip_end op op_end (Z.land token 15)
  end.

Fixpoint block_loop (fuel : nat) (s d : buf) (dst ip ip_end op op_end : Z) : res (Z * buf) :=
  match fuel with
  | O => NoFuel
  | S f =>
      t ← sequence fuel s d dst ip ip_end op op_end;
      match t with
      | Return r d => mret (r, d)
      | Continue ip op d => block_loop f s d dst ip ip_end op op_end
      end
  end.

(** Every turn reads at least the token, so [src_size + 1] turns are enough. *)
Definition lz4_decompress_block (s d : buf) (src src_size dst dst_cap : Z) : res (Z * buf) :=
  block_loop (S (Z.to_nat src_size)) s d dst src (u32 (src + src_size)) dst (u32 (dst + dst_cap)).

(** ** xxHash-32 *)

Definition XXH_PRIME32_1 : Z := 2654435761.
Definition XXH_PRIME32_2 : Z := 2246822519.
Definition XXH_PRIME32_3 : Z := 3266489917.
Definition XXH_PRIME32_4 : Z := 668265263.
Definition XXH_PRIME32_5 : Z := 374761393.

Definition xxh32_rotl (x r : Z) : Z := Z.lor (u32 (Z.shiftl x r)) (Z.shiftr x (32 - r)).

Definition xxh32_read32 (b : buf) (p : Z) : res Z := read_le32 b p.

(** One accumulator of a stripe, one tail word, one tail byte. *)
Definition xxh32_round (v w : Z) : Z :=
  u32 (xxh32_rotl (u32 (v + u32 (w * XXH_PRIME32_2))) 13 * XXH_PRIME32_1).
Definition xxh32_word (h w : Z) : Z :=
  u32 (xxh32_rotl (u32 (h + u32 (w * XXH_PRIME32_3))) 17 * XXH_PRIME32_4).
Definition xxh32_byte (h b : Z) : Z :=
  u32 (xxh32_rotl (u32 (h + u32 (b * XXH_PRIME32_5))) 11 * XXH_PRIME32_1).

Definition xxh32_avalanche (h : Z) : Z :=
  let h := Z.lxor h (Z.shiftr h 15) in
  let h := u32 (h * XXH_PRIME32_2) in
  let h := Z.lxor h (Z.shiftr h 13) in
  let h := u32 (h * XXH_PRIME32_3) in
  Z.lxor h (Z.shiftr h 16).

Definition xxh32_merge (v1 v2 v3 v4 : Z) : Z :=
  u32 (xxh32_rotl v1 1 + xxh32_rotl v2 7 + xxh32_rotl v3 12 + xxh32_rotl v4 18).

Fixpoint xxh32_stripes (fuel : nat) (b : buf) (p limit v1 v2 v3 v4 : Z) : res (Z * Z) :=
  match fuel with
  | O => NoFuel
  | S f =>
      w1 ← xxh32_read32 b p; let v1 := xxh32_round v1 w1 in let p := u32 (p + 4) in
      w2 ← xxh32_read32 b p; let v2 := xxh32_round v2 w2 in let p := u32 (p + 4) in
      w3 ← xxh32_read32 b p; let v3 := xxh32_round v3 w3 in let p := u32 (p + 4) in
      w4 ← xxh32_read32 b p; let v4 := xxh32_round v4 w4 in let p := u32 (p + 4) in
      if p <=? limit then xxh32_stripes f b p limit v1 v2 v3 v4
      else mret (p, xxh32_merge v1 v2 v3 v4)
  end.

Fixpoint xxh32_words (fuel : nat) (b : buf) (p end_ h : Z) : res (Z * Z) :=
  match fuel with
  | O => NoFuel
  | S f =>
      if u32 (p + 4) <=? end_ then w ← xxh32_read32 b p; xxh32_words f b (u32 (p + 4)) end_ (xxh32_word h w)
      else mret (p, h)
  end.

Fixpoint xxh32_bytes (fuel : nat) (b : buf) (p end_ h : Z) : res Z :=
  match fuel with
  | O => NoFuel
  | S f =>
      if p <? end_ then x ← ld b p; xxh32_bytes f b (u32 (p + 1)) end_ (xxh32_byte h x)
      else mret h
  end.

Definition xxh32 (b : buf) (input len seed : Z) : res Z :=
  let fuel := S (Z.to_nat len) in
  let end_ := u32 (input + len) in
  ph ← (if 16 <=? len
        then xxh32_stripes fuel b input (u32 (end_ - 16))
               (u32 (seed + XXH_PRIME32_1 + XXH_PRIME32_2)) (u32 (seed + XXH_PRIME32_2))
               seed (u32 (seed - XXH_PRIME32_1))
        else mret (input, u32 (seed + XXH_PRIME32_5)));
  let '(p, h) := ph in
  ph ← xxh32_words fuel b p end_ (u32 (h + len));
  let '(p, h) := ph in
  h ← xxh32_bytes fuel b p end_ h;
  mret (xxh32_avalanche h).

(** ** Frames *)

Definition LZ4_FRAME_MAGIC : Z := 407708164.   (* 0x184D2204 *)

(** One block: how many bytes it added, or [None] for a return of -1. *)
Definition frame_block (s d : buf) (is_uncompressed : bool) (ip block_size op total_out dst_cap : Z) : res (option Z * buf) :=
  if is_uncompressed
  then if dst_cap <? u32 (total_out + block_size) then mret (None, d)
       else d ← copy_literals (Z.to_nat block_size) s d ip op; mret (Some block_size, d)
  else rd ← lz4_decompress_block s d ip block_size op (u32 (dst_cap - total_out));
       let '(ret, d) := rd in
       if ret <? 0 then mret (None, d) else mret (Some ret, d).

(** The loop over the data blocks: where it stopped and how much it wrote, or
    [None] for a return of -1. *)
Fixpoint frame_blocks (fuel : nat) (s d : buf) (block_checksum : bool) (ip ip_end op total_out dst_cap : Z)
    : res (option (Z * Z) * buf) :=
  match fuel with
  | O => NoFuel
  | S f =>
      if ip_end <? u32 (ip + 4) then mret (None, d) else
      block_size ← read_le32 s ip;
      let ip := u32 (ip + 4) in
      if block_size =? 0 then mret (Some (ip, total_out), d) else
      let is_uncompressed := Z.testbit block_size 31 in
      let block_size := Z.land block_size 2147483647 in
      if ip_end <? u32 (ip + block_size) then mret (None, d) else
      r ← frame_block s d is_uncompressed ip block_size op total_out dst_cap;
      match r with
      | (None, d) => mret (None, d)
      | (Some n, d) =>
          let op := u32 (op + n) in
          let total_out := u32 (total_out + n) in
          let ip := u32 (ip + block_size) in
          if block_checksum
          then if ip_end <? u32 (ip + 4) then mret (None, d)
               else frame_blocks f s d block_checksum (u32 (ip + 4)) ip_end op total_out dst_cap
          else frame_blocks f s d block_checksum ip ip_end op total_out dst_cap
      end
  end.

Definition header_checksum (s : buf) (desc_start ip ip_end content_size : Z) : res (option (Z * Z)) :=
  if ip_end <? u32 (ip + 1) then mret None else
  h ← xxh32 s desc_start (u32 (ip - desc_start)) 0;
  hc ← ld s ip;
  if hc =? Z.land (Z.shiftr h 8) 255 then mret (Some (u32 (ip + 1), content_size)) else mret None.

(** The optional fields of the descriptor and the header checksum: the position of
    the first block and the content size, or [None] for a return of -1. *)
Definition frame_header (s : buf) (desc_start flg ip_end : Z) : res (option (Z * Z)) :=
  let ip := u32 (desc_start + 2) in
  if negb (Z.land (Z.shiftr flg 6) 3 =? 1) then mret None else
  if negb (Z.testbit flg 5) then mret None else
  cs ← (if Z.testbit flg 3
        then if ip_end <? u32 (ip + 8) then mret None
             else c ← read_le64 s ip; mret (Some (u32 (ip + 8), c))
        else mret (Some (ip, 0)));
  match cs with
  | None => mret None
  | Some (ip, content_size) =>
      if Z.testbit flg 0 && (ip_end <? u32 (ip + 4)) then mret None else
      let ip := if Z.testbit flg 0 then u32 (ip + 4) else ip in
      header_checksum s desc_start ip ip_end content_size
  end.

Definition lz4_decompress_frame (s d : buf) (src src_size dst dst_cap : Z) : res (Z * buf) :=
  let ip := src in
  let ip_end := u32 (ip + src_size) in
  if src_size <? 7 then mret (-1, d) else
  magic ← read_le32 s ip;
  if negb (magic =? LZ4_FRAME_MAGIC) then mret (-1, d) else
  let desc_start := u32 (ip + 4) in
  flg ← ld s desc_start;
  _ ← ld s (u32 (desc_start + 1));
  hd ← frame_header s desc_start flg ip_end;
  match hd with
  | None => mret (-1, d)
  | Some (ip, content_size) =>
      rd ← frame_blocks (S (Z.to_nat src_size)) s d (Z.testbit flg 4) ip ip_end dst 0 dst_cap;
      match rd with
      | (None, d) => mret (-1, d)
      | (Some (ip, total_out), d) =>
          ck ← (if Z.testbit flg 2
                then if ip_end <? u32 (ip + 4) then mret false
                     else expected ← read_le32 s ip; actual ← xxh32 d dst total_out 0; mret (expected =? actual)
                else mret true);
          if negb ck then mret (-1, d) else
          if Z.testbit flg 3 && negb (total_out =? content_size) then mret (-1, d)
          else mret (s32 total_out, d)
      end
  end.
