(* ===== verification/Lz4Spec.v ===== *)
(** The LZ4 block format as a grammar, a decoder on lists for it, and the proof that
    [lz4_decompress_block] computes what that decoder computes, without reading or
    writing outside its buffers, on inputs that encode no length which takes a pointer past
    the end of the address space. *)

From S2P Require Import Prelude Lz4.

(** ** The format *)

Notation zlen l := (Z.of_nat (length l)).

(** A sequence: bytes to append as they are, then bytes to repeat from [offset]
    before the end of the output. *)
Record lz4_seq : Type := LSeq { literals : list Z; offset : Z; match_len : Z }.

(** A block: its sequences and the literals it ends with; the lower half of the last
    token has no meaning. *)
Record block : Type := Block { seqs : list lz4_seq; tail : list Z; pad : Z }.

Definition nibble (n : Z) : Z := Z.min n 15.
Definition len_bytes (n : Z) : list Z :=
  if n <? 15 then [] else replicate (Z.to_nat ((n - 15) / 255)) 255 ++ [(n - 15) mod 255].

Definition enc_seq (q : lz4_seq) : list Z :=
  (16 * nibble (zlen (literals q)) + nibble (match_len q - 4)) ::
  len_bytes (zlen (literals q)) ++ literals q ++
  [offset q mod 256; offset q / 256] ++ len_bytes (match_len q - 4).

Definition enc_block (b : block) : list Z :=
  concat (map enc_seq (seqs b)) ++
  (16 * nibble (zlen (tail b)) + pad b) :: len_bytes (zlen (tail b)) ++ tail b.

(** Appends [n] bytes, each the one [off] before the end. *)
Fixpoint copy_back (n : nat) (off : nat) (out : list Z) : list Z :=
  match n with
  | O => out
  | S n => copy_back n off (out ++ [nth (length out - off) out 0])
  end.

Definition apply_seq (out : list Z) (q : lz4_seq) : list Z :=
  copy_back (Z.to_nat (match_len q)) (Z.to_nat (offset q)) (out ++ literals q).

(** The content of a block that follows the output [out]. *)
Definition expand_from (out : list Z) (b : block) : list Z :=
  fold_left apply_seq (seqs b) out ++ tail b.

Definition seq_ok (out : list Z) (q : lz4_seq) : Prop :=
  Forall is_u8 (literals q) /\ 1 <= offset q < 65536 /\
  offset q <= zlen (out ++ literals q) /\ 4 <= match_len q.

Fixpoint seqs_ok (out : list Z) (qs : list lz4_seq) : Prop :=
  match qs with
  | [] => True
  | q :: qs => seq_ok out q /\ seqs_ok (apply_seq out q) qs
  end.

Definition block_ok (out : list Z) (b : block) : Prop :=
  seqs_ok out (seqs b) /\ Forall is_u8 (tail b) /\ 0 <= pad b < 16.

(** ** A decoder on lists *)

Fixpoint get_ext (l : list Z) (n : Z) : option (Z * list Z) :=
  match l with
  | [] => None
  | x :: l => if x =? 255 then get_ext l (n + x) else Some (n + x, l)
  end.

Definition get_len (nib : Z) (l : list Z) : option (Z * list Z) :=
  if nib =? 15 then get_ext l nib else Some (nib, l).

Definition get_match (nib : Z) (l out : list Z) : option (list Z * list Z) :=
  match l with
  | lo :: hi :: l =>
      let off := Z.lor lo (Z.shiftl hi 8) in
      if off =? 0 then None else
      '(m, l) ← get_len nib l;
      if zlen out <? off then None
      else Some (l, copy_back (Z.to_nat (m + 4)) (Z.to_nat off) out)
  | _ => None
  end.

Definition get_literals (tok : Z) (l out : list Z) : option (list Z * list Z) :=
  '(n, l) ← get_len (Z.shiftr tok 4) l;
  if zlen l <? n then None else Some (drop (Z.to_nat n) l, out ++ take (Z.to_nat n) l).

Fixpoint decode (fuel : nat) (l out : list Z) : option (list Z) :=
  match fuel, l with
  | S f, tok :: l =>
      '(l, out) ← get_literals tok l out;
      match l with
      | [] => Some out
      | _ => '(l, out) ← get_match (Z.land tok 15) l out; decode f l out
      end
  | _, _ => None
  end.

(** ** Lengths *)

Lemma get_ext_run k r l n : 0 <= r < 255 -> get_ext (replicate k 255 ++ r :: l) n = Some (n + 255 * Z.of_nat k + r, l).
Proof.
  intros Hr. revert n. induction k as [|k IH]; intros n; cbn [replicate app get_ext].
  - zdecide. do 2 f_equal. lia.
  - rewrite IH. do 2 f_equal. lia.
Qed.

Lemma get_len_enc n l : 0 <= n -> get_len (nibble n) (len_bytes n ++ l) = Some (n, l).
Proof.
  intros Hn. unfold get_len, nibble, len_bytes. destruct (Z.ltb_spec n 15).
  - rewrite Z.min_l by lia. zdecide. reflexivity.
  - rewrite Z.min_r by lia. simpl. rewrite <- app_assoc. simpl.
    pose proof (Z.mod_pos_bound (n - 15) 255). pose proof (Z.div_mod (n - 15) 255). pose proof (Z.div_pos (n - 15) 255).
    rewrite get_ext_run by lia. do 2 f_equal. lia.
Qed.

Lemma get_ext_inv l n v l' : Forall is_u8 l -> get_ext l n = Some (v, l') ->
  exists k r, l = replicate k 255 ++ r :: l' /\ 0 <= r < 255 /\ v = n + 255 * Z.of_nat k + r.
Proof.
  revert n. induction l as [|x l IH]; intros n Hu; simpl; [discriminate|].
  apply Forall_cons in Hu as [Hx Hl]. unfold is_u8 in Hx. bdestr; intros H1.
  - destruct (IH _ Hl H1) as (k & r & -> & Hr & ->). exists (S k), r. subst. split_and!; [reflexivity|lia..].
  - injection H1 as <- <-. exists 0%nat, x. split_and!; [reflexivity|lia..].
Qed.

Lemma get_len_inv nib l n l' : 0 <= nib <= 15 -> Forall is_u8 l -> get_len nib l = Some (n, l') ->
  nib = nibble n /\ l = len_bytes n ++ l' /\ 0 <= n.
Proof.
  intros Hnib Hu. unfold get_len, nibble, len_bytes. destruct (Z.eqb_spec nib 15).
  - intros (k & r & -> & Hr & ->)%get_ext_inv; [|auto]. subst nib. rewrite Z.min_r by lia. zdecide.
    replace (15 + 255 * Z.of_nat k + r - 15) with (r + Z.of_nat k * 255) by lia.
    rewrite Z.div_add, Z.mod_add, Z.div_small, Z.mod_small by lia.
    rewrite <- app_assoc. split_and!; [reflexivity| |lia]. do 2 f_equal; lia.
  - intros [= <- <-]. rewrite Z.min_l by lia. zdecide. split_and!; auto. lia.
Qed.

(** How much a length can be, by the bytes it took. *)
(** The 255s a list begins with, and the longest run of them in it: what bounds the
    lengths that the list can encode. *)
Fixpoint lead (l : list Z) : nat := match l with x :: l => if x =? 255 then S (lead l) else 0 | [] => 0 end.
Fixpoint longest (l : list Z) : nat := match l with [] => 0 | _ :: t => lead l `max` longest t end.

Lemma longest_lead l : (lead l <= longest l)%nat.
Proof. destruct l as [|x l]; cbn [longest]; [auto|lia]. Qed.

Lemma lead_app l l' : (lead l <= lead (l ++ l'))%nat.
Proof. induction l as [|x l IH]; simpl; [lia|]. destruct (x =? 255); lia. Qed.

Lemma longest_app l l' : (longest l <= longest (l ++ l') /\ longest l' <= longest (l ++ l'))%nat.
Proof.
  induction l as [|x l [IH1 IH2]]; [simpl; lia|]. pose proof (lead_app (x :: l) l'). cbn [app longest] in *. lia.
Qed.

Lemma longest_suffix l l' : l' `suffix_of` l -> (longest l' <= longest l)%nat.
Proof. intros [k ->]. apply longest_app. Qed.

Lemma longest_length l : (longest l <= length l)%nat.
Proof.
  assert (H : forall l, (lead l <= length l)%nat) by (intros l'; induction l' as [|x l' IH]; simpl; [lia|]; destruct (x =? 255); lia).
  induction l as [|x l IH]; [auto|]. pose proof (H (x :: l)). cbn [longest length] in *. lia.
Qed.

Lemma lead_run k r l : r <> 255 -> lead (replicate k 255 ++ r :: l) = k.
Proof. intros Hr. induction k as [|k IH]; simpl; [zdecide; reflexivity|]. rewrite IH. reflexivity. Qed.

Lemma get_ext_bound l n v l' : Forall is_u8 l -> get_ext l n = Some (v, l') ->
  n <= v <= n + 255 * Z.of_nat (lead l) + 254 /\ zlen l' < zlen l /\ l' `suffix_of` l.
Proof.
  intros Hu (k & r & -> & Hr & ->)%get_ext_inv; [|auto]. rewrite lead_run by lia.
  rewrite length_app, length_replicate. simpl length. split_and!; try lia.
  exists (replicate k 255 ++ [r]). rewrite <- app_assoc. reflexivity.
Qed.

Lemma get_len_bound nib l n l' : 0 <= nib <= 15 -> Forall is_u8 l -> get_len nib l = Some (n, l') ->
  0 <= n <= 269 + 255 * Z.of_nat (longest l) /\ zlen l' <= zlen l /\ l' `suffix_of` l.
Proof.
  intros Hnib Hu. pose proof (longest_lead l). unfold get_len. bdestr.
  - intros (H1 & H2 & H3)%get_ext_bound; auto. split_and!; auto; lia.
  - intros [= <- <-]. split_and!; try lia. exists []. reflexivity.
Qed.

(** ** Bytes and bits *)

Lemma lor_join lo hi k : 0 <= k -> 0 <= lo < 2 ^ k -> Z.lor lo (Z.shiftl hi k) = lo + hi * 2 ^ k.
Proof.
  intros Hk Hlo. rewrite <- Z.shiftl_mul_pow2 by lia.
  assert (H0 : Z.land lo (Z.shiftl hi k) = 0).
  { apply Z.bits_inj'. intros n Hn. rewrite Z.land_spec, Z.bits_0.
    destruct (Z.lt_ge_cases n k); [rewrite (Z.shiftl_spec_low hi k n) by lia; apply andb_false_r|].
    replace (Z.testbit lo n) with false; [reflexivity|]. symmetry. rewrite <- (Z.mod_small lo (2 ^ k)) by lia.
    apply Z.mod_pow2_bits_high. lia. }
  rewrite Z.add_nocarry_lxor, Z.lxor_lor by auto. reflexivity.
Qed.

Lemma token_parts a b : 0 <= b < 16 -> Z.shiftr (16 * a + b) 4 = a /\ Z.land (16 * a + b) 15 = b.
Proof.
  intros Hb. rewrite Z.shiftr_div_pow2 by lia. change 15 with (Z.ones 4). rewrite Z.land_ones by lia.
  change (2 ^ 4) with 16. rewrite (Z.add_comm (16 * a)), Z.mul_comm, Z.div_add, Z.mod_add, Z.div_small, Z.mod_small by lia. lia.
Qed.

Lemma token_join tok : tok = 16 * Z.shiftr tok 4 + Z.land tok 15 /\ 0 <= Z.land tok 15 < 16.
Proof.
  rewrite Z.shiftr_div_pow2 by lia. change 15 with (Z.ones 4). rewrite Z.land_ones by lia. change (2 ^ 4) with 16.
  pose proof (Z.div_mod tok 16). pose proof (Z.mod_pos_bound tok 16). lia.
Qed.

Lemma token_range tok : is_u8 tok -> 0 <= Z.shiftr tok 4 <= 15.
Proof.
  intros [H0 H1]. rewrite Z.shiftr_div_pow2 by lia. change (2 ^ 4) with 16.
  pose proof (Z.div_lt_upper_bound tok 16 16). pose proof (Z.div_pos tok 16). lia.
Qed.

Lemma offset_join lo hi : is_u8 lo -> Z.lor lo (Z.shiftl hi 8) = lo + 256 * hi.
Proof. intros [H0 H1]. rewrite lor_join by (simpl; lia). simpl. lia. Qed.

Lemma nibble_range n : 0 <= n -> 0 <= nibble n <= 15.
Proof. unfold nibble. lia. Qed.

(** ** The decoder and the format *)

Lemma decode_enc_seq q f l out : seq_ok out q ->
  decode (S f) (enc_seq q ++ l) out = decode f l (apply_seq out q).
Proof.
  intros (Hu & Ho & Hl & Hm). unfold enc_seq. rewrite <- !app_comm_cons. cbn [decode]. rewrite <- !app_assoc.
  destruct (token_parts (nibble (zlen (literals q))) (nibble (match_len q - 4))) as [E1 ->]; [unfold nibble; lia|].
  unfold get_literals. rewrite E1, get_len_enc by lia. simpl. rewrite length_app. zdecide.
  rewrite Nat2Z.id, take_app_length, drop_app_length. simpl.
  assert (Hb : is_u8 (offset q mod 256)) by apply (Z.mod_pos_bound (offset q) 256 ltac:(lia)).
  rewrite (offset_join _ _ Hb). replace (offset q mod 256 + 256 * (offset q / 256)) with (offset q).
  2:{ pose proof (Z.div_mod (offset q) 256). lia. }
  zdecide. rewrite get_len_enc by lia. simpl. zdecide. unfold apply_seq. do 2 f_equal. lia.
Qed.

Lemma decode_enc b out f : block_ok out b -> (length (enc_block b) <= f)%nat ->
  decode f (enc_block b) out = Some (expand_from out b).
Proof.
  destruct b as [qs t p]. unfold block_ok, enc_block, expand_from. cbn [seqs tail pad]. intros (Hq & Ht & Hp).
  revert out f Hq. induction qs as [|q qs IH]; intros out f Hq Hf; cbn [map concat fold_left].
  - destruct f as [|f]; [simpl in Hf; lia|]. cbn [app decode].
    destruct (token_parts (nibble (zlen t)) p Hp) as [E1 _]. rewrite <- (app_nil_r t) at 3.
    unfold get_literals. rewrite E1, get_len_enc by lia. simpl. rewrite app_nil_r. zdecide.
    rewrite Nat2Z.id, firstn_all, drop_all. reflexivity.
  - destruct Hq as [Hq Hqs]. cbn [map concat] in Hf. rewrite <- app_assoc in Hf |- *. rewrite length_app in Hf.
    assert (Hlen : (1 <= length (enc_seq q))%nat) by (unfold enc_seq; simpl; lia).
    destruct f as [|f]; [lia|]. rewrite decode_enc_seq by auto. apply IH; [auto|lia].
Qed.

Lemma enc_block_cons q qs t p : enc_block (Block (q :: qs) t p) = enc_seq q ++ enc_block (Block qs t p).
Proof. unfold enc_block. cbn [seqs map concat]. rewrite <- app_assoc. reflexivity. Qed.

Lemma decode_inv f l out out' : Forall is_u8 l -> decode f l out = Some out' ->
  exists b, block_ok out b /\ enc_block b = l /\ out' = expand_from out b.
Proof.
  revert l out. induction f as [|f IH]; intros l out Hu; [destruct l; discriminate|].
  destruct l as [|tok l]; [discriminate|]. cbn [decode]. apply Forall_cons in Hu as [Ht Hu].
  destruct (token_join tok) as [Etok Hlo]. pose proof (token_range tok Ht) as Hhi.
  unfold get_literals. destruct (get_len (Z.shiftr tok 4) l) as [[n l1]|] eqn:E1; [|discriminate]. simpl.
  destruct (get_len_inv _ _ _ _ Hhi Hu E1) as (En & El & Hn). subst l. apply Forall_app in Hu as [_ Hu1].
  destruct (Z.ltb_spec (zlen l1) n) as [|Hlen]; [discriminate|]. cbn [mbind option_bind].
  assert (Elit : zlen (take (Z.to_nat n) l1) = n) by (rewrite length_take; lia).
  destruct (drop (Z.to_nat n) l1) as [|lo [|hi l2]] eqn:Ed; [|discriminate|]; cbn [get_match].
  - intros [= <-]. assert (length l1 <= Z.to_nat n)%nat.
    { assert (Hd : length (drop (Z.to_nat n) l1) = 0%nat) by (rewrite Ed; reflexivity). rewrite length_drop in Hd. lia. }
    rewrite take_ge by lia. replace n with (zlen l1) in * by lia.
    exists (Block [] l1 (Z.land tok 15)). unfold block_ok, enc_block, expand_from. simpl.
    split_and!; auto; try lia. rewrite <- En, <- Etok. reflexivity.
  - rewrite <- (take_drop (Z.to_nat n) l1), Ed in Hu1. apply Forall_app in Hu1 as [Hlit Hu2].
    apply Forall_cons in Hu2 as [Hl0 Hu2]. apply Forall_cons in Hu2 as [Hh0 Hu2].
    rewrite offset_join by auto. destruct (Z.eqb_spec (lo + 256 * hi) 0) as [|Hoff]; [discriminate|].
    destruct (get_len (Z.land tok 15) l2) as [[m l3]|] eqn:E2; [|discriminate]. simpl.
    assert (Hlo' : 0 <= Z.land tok 15 <= 15) by lia.
    destruct (get_len_inv _ _ _ _ Hlo' Hu2 E2) as (Em & El2 & Hm). subst l2. apply Forall_app in Hu2 as [_ Hu3].
    destruct (Z.ltb_spec (zlen (out ++ take (Z.to_nat n) l1)) (lo + 256 * hi)) as [|Hback]; [discriminate|].
    intros Hd. set (q := LSeq (take (Z.to_nat n) l1) (lo + 256 * hi) (m + 4)).
    destruct (IH l3 (apply_seq out q) Hu3) as ([qs t p] & (Hqs & Htl & Hpad) & Eenc & Eout); [exact Hd|].
    exists (Block (q :: qs) t p). unfold is_u8 in *. split; [|split].
    + split; [|auto]. split; [|exact Hqs]. unfold seq_ok. simpl. unfold is_u8. split_and!; auto; lia.
    + rewrite enc_block_cons, Eenc. unfold enc_seq, q. cbn [literals offset match_len].
      rewrite Elit, Z.add_simpl_r, <- En, <- Em, <- Etok. cbn [app]. f_equal. rewrite <- !app_assoc. f_equal.
      rewrite <- (take_drop (Z.to_nat n) l1) at 2. rewrite Ed. f_equal. rewrite (Z.mul_comm 256).
      rewrite Z.mod_add, Z.div_add, Z.mod_small, Z.div_small by lia. reflexivity.
    + exact Eout.
Qed.

(** What the decoder has put out stays. *)
Lemma copy_back_length n off out : length (copy_back n off out) = (n + length out)%nat.
Proof. revert out. induction n as [|n IH]; intros out; simpl; [reflexivity|]. rewrite IH, length_app. simpl. lia. Qed.

Lemma get_match_grows nib l out l' out' : get_match nib l out = Some (l', out') -> zlen out <= zlen out'.
Proof.
  unfold get_match. destruct l as [|lo [|hi l]]; try discriminate. destruct (_ =? _); [discriminate|].
  destruct (get_len _ _) as [[m l3]|]; [|discriminate]. simpl. destruct (_ <? _); [discriminate|].
  intros [= _ <-]. rewrite copy_back_length. lia.
Qed.

Lemma decode_grows f l out out' : decode f l out = Some out' -> zlen out <= zlen out'.
Proof.
  revert l out. induction f as [|f IH]; intros l out; [destruct l; discriminate|].
  destruct l as [|tok l]; [discriminate|]. cbn [decode]. unfold get_literals.
  destruct (get_len _ _) as [[n l1]|]; [|discriminate]. simpl. destruct (_ <? _); [discriminate|]. simpl.
  destruct (drop _ _) as [|x l2]; [intros [= <-]; rewrite length_app; lia|].
  destruct (get_match _ (x :: l2) _) as [[l3 out3]|] eqn:E; [|discriminate]. cbn [mbind option_bind]. intros Hd%IH.
  apply get_match_grows in E. rewrite length_app in E. lia.
Qed.

Lemma after_literals_grows f nib l out out' :
  match l with [] => Some out | _ => '(l, out) ← get_match nib l out; decode f l out end = Some out' -> zlen out <= zlen out'.
Proof.
  destruct l as [|x l]; [intros [= <-]; lia|]. destruct (get_match _ _ _) as [[l3 out3]|] eqn:E; [|discriminate].
  cbn [mbind option_bind]. intros Hd%decode_grows. apply get_match_grows in E. lia.
Qed.

(** ** Buffers *)

(** The bytes [l] lie in the buffer from address [p]. *)
Definition reads (s : buf) (p : Z) (l : list Z) : Prop :=
  base s <= p /\ p + zlen l <= base s + arr_len (bytes s) /\
  forall i x, l !! i = Some x -> arr_at (bytes s) (p - base s + Z.of_nat i) = x.

(** The buffer [d] is [d0] with the bytes [out] written from address [dst]. *)
Definition filled (d0 : buf) (dst : Z) (out : list Z) (d : buf) : Prop :=
  base d = base d0 /\ arr_len (bytes d) = arr_len (bytes d0) /\
  forall j, arr_at (bytes d) j =
    if j <? dst - base d0 then arr_at (bytes d0) j
    else default (arr_at (bytes d0) j) (out !! Z.to_nat (j - (dst - base d0))).

(** The bytes from [dst] to [dst + cap] are in the buffer. *)
Definition holds_bytes (d : buf) (dst cap : Z) : Prop := base d <= dst /\ dst + cap <= base d + arr_len (bytes d).

Lemma ld_reads s p x l : reads s p (x :: l) -> ld s p = Ok x.
Proof.
  intros (H1 & H2 & H3). simpl in H2. unfold ld. rewrite arr_get_ok by lia.
  rewrite <- (H3 0%nat x eq_refl). repeat f_equal. lia.
Qed.

Lemma reads_app s p l1 l2 : reads s p (l1 ++ l2) -> reads s (p + zlen l1) l2.
Proof.
  intros (H1 & H2 & H3). rewrite length_app in H2. split_and!; [lia|lia|]. intros i x Hx.
  rewrite <- (H3 (length l1 + i)%nat x); [f_equal; lia|]. rewrite lookup_app_r by lia.
  replace (length l1 + i - length l1)%nat with i by lia. exact Hx.
Qed.

Lemma reads_prefix s p l1 l2 : reads s p (l1 ++ l2) -> reads s p l1.
Proof.
  intros (H1 & H2 & H3). rewrite length_app in H2. split_and!; [lia|lia|]. intros i x Hx.
  apply H3, lookup_app_l_Some, Hx.
Qed.

Lemma reads_cons s p x l : reads s p (x :: l) -> reads s (p + 1) l.
Proof. intros H. apply (reads_app s p [x] l H). Qed.

Lemma filled_nil d dst : filled d dst [] d.
Proof. split_and!; auto. intros j. rewrite lookup_nil. destruct (_ <? _); reflexivity. Qed.

Lemma filled_at d0 dst out d i x :
  filled d0 dst out d -> base d0 <= dst -> out !! i = Some x -> arr_at (bytes d) (dst - base d0 + Z.of_nat i) = x.
Proof.
  intros (_ & _ & H) Hb Hx. rewrite H. zdecide. replace (Z.to_nat _) with i by lia. rewrite Hx. reflexivity.
Qed.

Lemma filled_snoc d0 dst out d x : filled d0 dst out d -> holds_bytes d0 dst (zlen out + 1) ->
  exists d', st d (dst + zlen out) x = Ok d' /\ filled d0 dst (out ++ [x]) d'.
Proof.
  intros (Hb & Hl & H) [H1 H2]. unfold st. rewrite arr_set_ok by (rewrite Hb, Hl; lia). eexists. split; [reflexivity|].
  split_and!; auto. intros j. cbn [bytes]. rewrite arr_at_put, H, Hb.
  destruct (Z.ltb_spec j (dst - base d0)); [zdecide; reflexivity|].
  destruct (Z.eqb_spec (dst + zlen out - base d0) j) as [<-|Hne].
  - replace (Z.to_nat _) with (length out + 0)%nat by lia. rewrite lookup_app_r by lia.
    replace (length out + 0 - length out)%nat with 0%nat by lia. reflexivity.
  - destruct (decide (Z.to_nat (j - (dst - base d0)) < length out)%nat).
    + rewrite lookup_app_l by lia. reflexivity.
    + rewrite !lookup_ge_None_2; [reflexivity|rewrite length_app; simpl; lia|lia].
Qed.

Lemma filled_reads d0 dst out d : filled d0 dst out d -> holds_bytes d0 dst (zlen out) -> reads d dst out.
Proof.
  intros F [H1 H2]. pose proof F as (Hb & Hl & _). split_and!; [lia|lia|].
  intros i x Hx. rewrite Hb. eapply filled_at; eauto.
Qed.

(** ** Copies *)

Lemma copy_literals_ok lits s d0 d dst out ip op :
  reads s ip lits -> filled d0 dst out d -> op = dst + zlen out -> holds_bytes d0 dst (zlen (out ++ lits)) ->
  0 <= ip -> 0 <= dst -> ip + zlen lits < 4294967296 -> dst + zlen (out ++ lits) < 4294967296 ->
  exists d', copy_literals (length lits) s d ip op = Ok d' /\ filled d0 dst (out ++ lits) d'.
Proof.
  revert d out ip op. induction lits as [|x l IH]; intros d out ip op Hr F -> Hh Hip Hd Hi Ho.
  - rewrite app_nil_r. exists d. auto.
  - cbn [length copy_literals]. rewrite (ld_reads _ _ _ _ Hr), res_bind_ok.
    rewrite length_app in Hh, Ho. cbn [length] in *. destruct Hh as [Hh1 Hh2].
    destruct (filled_snoc d0 dst out d x F) as (d' & -> & F'); [split; lia|]. rewrite res_bind_ok. nowrap.
    destruct (IH d' (out ++ [x]) (ip + 1) (dst + zlen out + 1)) as (d2 & E2 & F2);
      rewrite ?length_app; cbn [length]; try (split; lia); try lia; eauto using reads_cons.
    rewrite <- app_assoc in F2. eauto.
Qed.

Lemma copy_match_ok n off d0 d dst out :
  filled d0 dst out d -> (1 <= off <= length out)%nat -> holds_bytes d0 dst (zlen out + Z.of_nat n) ->
  0 <= dst -> dst + zlen out + Z.of_nat n < 4294967296 ->
  exists d', copy_match n d (dst + zlen out - Z.of_nat off) (dst + zlen out) = Ok d' /\ filled d0 dst (copy_back n off out) d'.
Proof.
  revert d out. induction n as [|n IH]; intros d out F Hoff Hh Hd Ho; [exists d; auto|].
  cbn [copy_match copy_back]. set (x := nth (length out - off) out 0).
  assert (Hx : out !! (length out - off)%nat = Some x) by (destruct (nth_lookup_or_length out (length out - off) 0) as [|]; [auto|lia]).
  destruct Hh as [Hh1 Hh2]. pose proof F as (Hb & Hl & _). unfold ld. rewrite arr_get_ok by lia. rewrite res_bind_ok.
  replace (arr_at _ _) with x.
  2:{ symmetry. rewrite Hb. rewrite <- (filled_at _ _ _ _ _ _ F Hh1 Hx). f_equal. lia. }
  destruct (filled_snoc d0 dst out d x F) as (d' & -> & F'); [split; lia|]. rewrite res_bind_ok. nowrap.
  destruct (IH d' (out ++ [x])) as (d2 & E2 & F2); rewrite ?length_app; cbn [length]; try (split; lia); try lia; auto.
  exists d2. split; [|exact F2]. rewrite <- E2. rewrite length_app. cbn [length]. f_equal; lia.
Qed.

(** ** Lengths *)

Lemma ext_len_ok fuel s ip l n : reads s ip l -> Forall is_u8 l -> 0 <= ip -> 0 <= n ->
  ip + zlen l < 4294967296 -> n + 255 * Z.of_nat (lead l) + 254 < 4294967296 -> (length l < fuel)%nat ->
  ext_len fuel s ip (ip + zlen l) n = Ok ((fun '(v, l') => (ip + zlen l - zlen l', v)) <$> get_ext l n).
Proof.
  revert ip l n. induction fuel as [|f IH]; intros ip l n Hr Hu Hip Hn Hi Hv Hf; [lia|]. cbn [ext_len].
  destruct l as [|x l]; cbn [length get_ext lead] in *; [zdecide; reflexivity|]. zdecide.
  apply Forall_cons in Hu as [[Hx0 Hx1] Hu]. rewrite (ld_reads _ _ _ _ Hr), res_bind_ok. cbv zeta.
  destruct (Z.eqb_spec x 255); nowrap.
  - replace (ip + Z.of_nat (S (length l))) with (ip + 1 + zlen l) by lia.
    apply IH; try lia; auto. apply (reads_cons _ _ _ _ Hr).
  - simpl. unfold mret, res_ret. do 3 f_equal. lia.
Qed.

Lemma read_len_ok fuel s ip ip_end l n : reads s ip l -> Forall is_u8 l -> ip + zlen l = ip_end -> 0 <= ip -> 0 <= n <= 15 ->
  ip_end < 4294967296 -> 269 + 255 * Z.of_nat (longest l) < 4294967296 -> (length l < fuel)%nat ->
  read_len fuel s ip ip_end n = Ok ((fun '(v, l') => (ip_end - zlen l', v)) <$> get_len n l).
Proof.
  intros ? ? <-. intros. pose proof (longest_lead l). unfold read_len, get_len. destruct (Z.eqb_spec n 15); [apply ext_len_ok; auto; lia|].
  simpl. unfold mret, res_ret. do 3 f_equal. lia.
Qed.

(** ** The loop *)

Section block.
Context (s d0 : buf) (dst cap ip_end : Z).
Hypothesis dst_high : 65536 <= dst.
Hypothesis dst_holds : holds_bytes d0 dst cap.
Hypothesis cap_small : cap < 2147483648.

(** The input that is left: no length it can encode makes a pointer wrap around. *)
Record input (ip : Z) (l : list Z) : Prop := Input {
  in_reads : reads s ip l;
  in_bytes : Forall is_u8 l;
  in_end : ip + zlen l = ip_end;
  in_pos : 0 <= ip;
  in_room : ip_end + 255 * Z.of_nat (longest l) + 280 < 4294967296;
  in_fit : dst + cap + 255 * Z.of_nat (longest l) + 280 < 4294967296
}.

Lemma input_suffix ip l l' : input ip l -> l' `suffix_of` l -> input (ip_end - zlen l') l'.
Proof.
  intros [H1 H2 H3 H4 H5 H6] Hs. pose proof (longest_suffix _ _ Hs). destruct Hs as [k ->]. rewrite length_app in *. apply Forall_app in H2 as [_ H2].
  constructor; auto; try lia. replace (ip_end - zlen l') with (ip + zlen k) by lia. apply reads_app. exact H1.
Qed.

Lemma holds_sub n : n <= cap -> holds_bytes d0 dst n.
Proof. destruct dst_holds. split; lia. Qed.

(** Appending to the output. *)
Definition appended (out : list Z) (ip : Z) (d : buf) (t : turn) : Prop :=
  if zlen out <=? cap then exists d', t = Continue ip (dst + zlen out) d' /\ filled d0 dst out d' else t = Return (-1) d.

Lemma match_part_ok fuel d ip l out nib :
  input ip l -> filled d0 dst out d -> zlen out <= cap -> 0 <= nib <= 15 -> (length l < fuel)%nat -> l <> [] ->
  exists t, match_part fuel s d dst ip ip_end (dst + zlen out) (dst + cap) nib = Ok t /\
    match get_match nib l out with
    | Some (l', out') => l' `suffix_of` l /\ appended out' (ip_end - zlen l') d t
    | None => t = Return (-1) d
    end.
Proof.
  intros [H1 H2 H3 H4 H5 H6] F Hout Hnib Hf Hne. unfold match_part. rewrite u32_small by lia.
  destruct l as [|lo [|hi l]]; cbn [length get_match] in *; [contradiction|zdecide; eauto|]. zdecide.
  rewrite (ld_reads _ _ _ _ H1), res_bind_ok, u32_small by lia. apply reads_cons in H1.
  rewrite (ld_reads _ _ _ _ H1), res_bind_ok. cbv zeta. apply reads_cons in H1.
  destruct (Z.eqb_spec (Z.lor lo (Z.shiftl hi 8)) 0) as [|Hoff]; [eauto|].
  apply Forall_cons in H2 as [Hlo H2]. apply Forall_cons in H2 as [Hhi H2].
  rewrite (offset_join _ _ Hlo) in *. unfold is_u8 in Hlo, Hhi. set (off := lo + 256 * hi) in *.
  rewrite (u32_small (dst + zlen out - off)) by lia. replace (ip + 2) with (ip + 1 + 1) by lia.
  pose proof (longest_suffix (lo :: hi :: l) l ltac:(exists [lo; hi]; reflexivity)) as Hlong.
  rewrite (read_len_ok fuel s _ _ l) by (auto; lia). rewrite res_bind_ok.
  destruct (get_len nib l) as [[m l']|] eqn:E; simpl; [|eauto].
  destruct (get_len_bound _ _ _ _ Hnib H2 E) as (Hm & Hle & Hsuf). rewrite (u32_small (m + 4)) by lia.
  rewrite (u32_small (dst + zlen out + (m + 4))) by lia.
  destruct (Z.ltb_spec (zlen out) off), (Z.ltb_spec (dst + zlen out - off) dst); try lia; [eauto|].
  assert (Hs' : l' `suffix_of` lo :: hi :: l) by (destruct Hsuf as [k ->]; exists (lo :: hi :: k); reflexivity).
  unfold appended. rewrite copy_back_length, Nat2Z.inj_add, Z2Nat.id by lia.
  destruct (Z.ltb_spec (dst + cap) (dst + zlen out + (m + 4))); [zdecide; eauto|]. zdecide.
  destruct (copy_match_ok (Z.to_nat (m + 4)) (Z.to_nat off) d0 d dst out F) as (d' & E' & F'); try lia; [apply holds_sub; lia|].
  rewrite Z2Nat.id in E' by lia. rewrite E', res_bind_ok. eexists. split; [reflexivity|]. split; [auto|].
  exists d'. split; [f_equal; lia|exact F'].
Qed.

(** How a call ends: with the content, when the input is a block whose content fits,
    and with -1 otherwise; nothing but the output is written in either case. *)
Definition outcome (o : option (list Z)) (r : Z) (d : buf) : Prop :=
  (exists out, o = Some out /\ zlen out <= cap /\ r = zlen out /\ filled d0 dst out d) \/
  ((forall out, o = Some out -> cap < zlen out) /\ r = -1 /\ exists out, zlen out <= cap /\ filled d0 dst out d).

Lemma outcome_fail o out d : filled d0 dst out d -> zlen out <= cap -> (forall out', o = Some out' -> cap < zlen out') ->
  outcome o (-1) d.
Proof. intros F Hl Ho. right. eauto. Qed.

Lemma literals_ok d ip l out n : input ip l -> filled d0 dst out d -> 0 <= n <= zlen l -> zlen out + n <= cap ->
  exists d', copy_literals (Z.to_nat n) s d ip (dst + zlen out) = Ok d' /\
    filled d0 dst (out ++ take (Z.to_nat n) l) d' /\ input (ip + n) (drop (Z.to_nat n) l) /\
    zlen (out ++ take (Z.to_nat n) l) = zlen out + n.
Proof.
  intros I F Hn Hfit. pose proof I as [H1 H2 H3 H4 H5 H6].
  assert (Elit : zlen (take (Z.to_nat n) l) = n) by (rewrite length_take; lia).
  assert (Eout : zlen (out ++ take (Z.to_nat n) l) = zlen out + n) by (rewrite length_app; lia).
  rewrite <- (take_drop (Z.to_nat n) l) in H1.
  destruct (copy_literals_ok (take (Z.to_nat n) l) s d0 d dst out ip (dst + zlen out)) as (d' & Ec & F');
    try lia; auto; [exact (reads_prefix _ _ _ _ H1)|apply holds_sub; lia|].
  replace (length (take (Z.to_nat n) l)) with (Z.to_nat n) in Ec by lia. exists d'. split_and!; auto.
  replace (ip + n) with (ip_end - zlen (drop (Z.to_nat n) l)) by (rewrite length_drop; lia).
  apply (input_suffix ip l); [auto|]. exists (take (Z.to_nat n) l). symmetry. apply take_drop.
Qed.

Lemma sequence_ok fuel f d ip l out : input ip l -> filled d0 dst out d -> zlen out <= cap -> (length l < fuel)%nat ->
  exists t, sequence fuel s d dst ip ip_end (dst + zlen out) (dst + cap) = Ok t /\
    match t with
    | Return r d' => outcome (decode (S f) l out) r d'
    | Continue ip' op' d' => exists l' out', input ip' l' /\ op' = dst + zlen out' /\ filled d0 dst out' d' /\
        zlen out' <= cap /\ (length l' < length l)%nat /\ decode (S f) l out = decode f l' out'
    end.
Proof.
  intros I F Hout Hf. pose proof I as [H1 H2 H3 H4 H5 H6]. unfold sequence.
  destruct l as [|tok l]; cbn [length decode] in *; [zdecide; eexists; split; [reflexivity|]; eapply outcome_fail; eauto; discriminate|].
  zdecide. rewrite (ld_reads _ _ _ _ H1), res_bind_ok. cbv zeta. apply reads_cons in H1.
  apply Forall_cons in H2 as [Ht H2]. pose proof (token_range tok Ht) as Hhi. destruct (token_join tok) as [_ Hlo].
  pose proof (longest_suffix (tok :: l) l ltac:(exists [tok]; reflexivity)) as Hlong.
  rewrite (u32_small (ip + 1)), (read_len_ok fuel s _ _ l), res_bind_ok by (auto; lia). unfold get_literals.
  destruct (get_len (Z.shiftr tok 4) l) as [[n l1]|] eqn:E1; simpl;
    [|eexists; split; [reflexivity|]; eapply outcome_fail; eauto; discriminate].
  destruct (get_len_bound _ _ _ _ Hhi H2 E1) as (Hn & Hle & Hsuf).
  assert (I1 : input (ip_end - zlen l1) l1)
    by (eapply input_suffix; eauto; destruct Hsuf as [k ->]; exists (tok :: k); reflexivity).
  rewrite !(u32_small (ip_end - zlen l1 + n)), !(u32_small (dst + zlen out + n)) by lia.
  destruct (Z.ltb_spec (zlen l1) n), (Z.ltb_spec ip_end (ip_end - zlen l1 + n)); try lia;
    [eexists; split; [reflexivity|]; eapply outcome_fail; eauto; discriminate|]. simpl.
  destruct (Z.ltb_spec (dst + cap) (dst + zlen out + n)) as [Hover|Hfit].
  { eexists. split; [reflexivity|]. eapply outcome_fail; eauto. intros out' Hd.
    apply after_literals_grows in Hd. rewrite length_app, length_take in Hd. lia. }
  destruct (literals_ok d (ip_end - zlen l1) l1 out n I1 F) as (d' & -> & F' & I2 & Eout); [lia..|]. rewrite res_bind_ok.
  destruct (drop (Z.to_nat n) l1) as [|x l2] eqn:Ed.
  - pose proof (in_end _ _ I2). cbn [length] in *. zdecide. eexists. split; [reflexivity|]. left. eexists. split; [reflexivity|].
    split_and!; auto; [lia|]. rewrite s32_small by lia. lia.
  - pose proof (in_end _ _ I2). cbn [length] in *. zdecide. replace (dst + zlen out + n) with (dst + zlen (out ++ take (Z.to_nat n) l1)) by lia.
    destruct (match_part_ok fuel d' (ip_end - zlen l1 + n) (x :: l2) (out ++ take (Z.to_nat n) l1) (Z.land tok 15) I2 F')
      as (t & -> & Ht'); try (cbn [length]; lia); [discriminate|]. exists t. split; [reflexivity|].
    destruct (get_match (Z.land tok 15) (x :: l2) _) as [[l3 out3]|] eqn:Em; [|subst t; eapply outcome_fail; eauto; [lia|discriminate]].
    destruct Ht' as [Hs3 Ha]. unfold appended in Ha. cbn [mbind option_bind].
    destruct (Z.leb_spec (zlen out3) cap); [|subst t; eapply outcome_fail; eauto; [lia|intros out' ?%decode_grows; lia]].
    destruct Ha as (d3 & -> & F3). exists l3, out3. split_and!; auto; [eapply input_suffix; eauto|].
    apply suffix_length in Hs3. cbn [length] in Hs3. lia.
Qed.

Lemma block_loop_ok fuel d ip l out : input ip l -> filled d0 dst out d -> zlen out <= cap -> (length l < fuel)%nat ->
  exists r d', block_loop fuel s d dst ip ip_end (dst + zlen out) (dst + cap) = Ok (r, d') /\ outcome (decode fuel l out) r d'.
Proof.
  revert d ip l out. induction fuel as [|f IH]; intros d ip l out I F Hout Hf; [lia|].
  destruct (sequence_ok (S f) f d ip l out I F Hout Hf) as (t & Et & Ht). cbn [block_loop]. rewrite Et, res_bind_ok.
  destruct t as [r d'|ip' op' d']; [eauto|].
  destruct Ht as (l' & out' & I' & -> & F' & Hout' & Hlt & ->). apply IH; auto; lia.
Qed.
End block.
