(* ===== verification/Lz4Frame.v ===== *)
(** The checksum and the frame decompressor against their definitions on lists of
    bytes, and an encoder for LZ4 frames with the proof that decoding undoes it. *)

From S2P Require Import Prelude Lz4 Lz4Spec.

(** ** xxHash-32 on lists *)

Definition le32 (b0 b1 b2 b3 : Z) : Z :=
  Z.lor (Z.lor (Z.lor b0 (Z.shiftl b1 8)) (Z.shiftl b2 16)) (Z.shiftl b3 24).

(** The word a list begins with. *)
Definition word (l : list Z) : Z := le32 (nth 0 l 0) (nth 1 l 0) (nth 2 l 0) (nth 3 l 0).

Fixpoint hash_stripes (k : nat) (l : list Z) (v1 v2 v3 v4 : Z) : Z :=
  match k with
  | O => xxh32_merge v1 v2 v3 v4
  | S k => hash_stripes k (drop 16 l) (xxh32_round v1 (word l)) (xxh32_round v2 (word (drop 4 l)))
             (xxh32_round v3 (word (drop 8 l))) (xxh32_round v4 (word (drop 12 l)))
  end.

Fixpoint hash_words (k : nat) (l : list Z) (h : Z) : Z :=
  match k with O => h | S k => hash_words k (drop 4 l) (xxh32_word h (word l)) end.

(** Stripes of sixteen bytes, then words, then bytes. *)
Definition hash (l : list Z) (seed : Z) : Z :=
  let n := length l in
  let rest := drop (16 * (n / 16)) l in
  let h := if (16 <=? n)%nat
           then hash_stripes (n / 16) l (u32 (seed + XXH_PRIME32_1 + XXH_PRIME32_2)) (u32 (seed + XXH_PRIME32_2))
                  seed (u32 (seed - XXH_PRIME32_1))
           else u32 (seed + XXH_PRIME32_5) in
  let h := hash_words (length rest / 4) rest (u32 (h + Z.of_nat n)) in
  xxh32_avalanche (fold_left xxh32_byte (drop (4 * (length rest / 4)) rest) h).

Lemma read_le32_ok s p l : reads s p l -> (4 <= length l)%nat -> 0 <= p -> p + 4 < 4294967296 -> read_le32 s p = Ok (word l).
Proof.
  intros Hr Hl Hp Hw. destruct l as [|b0 [|b1 [|b2 [|b3 l]]]]; cbn [length] in Hl; try lia. unfold read_le32. nowrap.
  rewrite (ld_reads _ _ _ _ Hr), res_bind_ok. apply reads_cons in Hr. rewrite (ld_reads _ _ _ _ Hr), res_bind_ok.
  apply reads_cons in Hr. replace (p + 2) with (p + 1 + 1) by lia. rewrite (ld_reads _ _ _ _ Hr), res_bind_ok.
  apply reads_cons in Hr. replace (p + 3) with (p + 1 + 1 + 1) by lia. rewrite (ld_reads _ _ _ _ Hr), res_bind_ok. reflexivity.
Qed.

Lemma reads_drop s p l k : reads s p l -> (k <= length l)%nat -> reads s (p + Z.of_nat k) (drop k l).
Proof.
  intros H Hk. replace (Z.of_nat k) with (zlen (take k l)) by (rewrite length_take; lia).
  apply reads_app. rewrite take_drop. exact H.
Qed.

Lemma read_le32_drop s p l k q : reads s p l -> (k + 4 <= length l)%nat -> 0 <= p -> p + zlen l + 16 < 4294967296 ->
  q = p + Z.of_nat k -> read_le32 s q = Ok (word (drop k l)).
Proof. intros Hr Hk Hp Hw ->. apply read_le32_ok; rewrite ?length_drop; try lia. apply reads_drop; [auto|lia]. Qed.

Lemma stripes_ok k fuel b p l v1 v2 v3 v4 : reads b p l -> (16 * S k <= length l < 16 * S (S k))%nat -> (S k <= fuel)%nat ->
  0 <= p -> p + zlen l + 16 < 4294967296 ->
  xxh32_stripes fuel b p (p + zlen l - 16) v1 v2 v3 v4 = Ok (p + 16 * Z.of_nat (S k), hash_stripes (S k) l v1 v2 v3 v4).
Proof.
  revert fuel p l v1 v2 v3 v4. induction k as [|k IH]; intros fuel p l v1 v2 v3 v4 Hr Hl Hf Hp Hw;
    (destruct fuel as [|f]; [lia|]); cbn [xxh32_stripes];
    unfold xxh32_read32; cbv zeta; rewrite !(u32_small (p + 4)), !(u32_small (p + 4 + 4)), !(u32_small (p + 4 + 4 + 4)),
      !(u32_small (p + 4 + 4 + 4 + 4)), (read_le32_ok b p l), res_bind_ok by (auto; lia);
    rewrite (read_le32_drop b p l 4 (p + 4)), res_bind_ok, (read_le32_drop b p l 8 (p + 4 + 4)), res_bind_ok,
      (read_le32_drop b p l 12 (p + 4 + 4 + 4)), res_bind_ok by (auto; lia).
  - zdecide. unfold mret, res_ret. do 2 f_equal. lia.
  - zdecide. replace (p + zlen l - 16) with (p + 4 + 4 + 4 + 4 + zlen (drop 16 l) - 16) by (rewrite length_drop; lia).
    rewrite IH; rewrite ?length_drop; try lia.
    + cbn [hash_stripes]. do 2 f_equal. lia.
    + replace (p + 4 + 4 + 4 + 4) with (p + Z.of_nat 16) by lia. apply reads_drop; [auto|lia].
Qed.

Lemma words_ok k fuel b p l h : reads b p l -> (4 * k <= length l < 4 * S k)%nat -> (k < fuel)%nat ->
  0 <= p -> p + zlen l + 16 < 4294967296 ->
  xxh32_words fuel b p (p + zlen l) h = Ok (p + 4 * Z.of_nat k, hash_words k l h).
Proof.
  revert fuel p l h. induction k as [|k IH]; intros fuel p l h Hr Hl Hf Hp Hw; (destruct fuel as [|f]; [lia|]);
    cbn [xxh32_words]; nowrap; zdecide.
  - unfold mret, res_ret. do 2 f_equal. lia.
  - unfold xxh32_read32. rewrite (read_le32_ok b p l), res_bind_ok by (auto; lia).
    replace (p + zlen l) with (p + 4 + zlen (drop 4 l)) by (rewrite length_drop; lia).
    rewrite IH; rewrite ?length_drop; try lia; [cbn [hash_words]; do 2 f_equal; lia|].
    apply (reads_drop b p l 4); [auto|lia].
Qed.

Lemma bytes_ok fuel b p l h : reads b p l -> (length l < fuel)%nat -> 0 <= p -> p + zlen l < 4294967296 ->
  xxh32_bytes fuel b p (p + zlen l) h = Ok (fold_left xxh32_byte l h).
Proof.
  revert p l h. induction fuel as [|f IH]; intros p l h Hr Hf Hp Hw; [lia|]. cbn [xxh32_bytes].
  destruct l as [|x l]; cbn [length fold_left] in *; zdecide; [reflexivity|].
  rewrite (ld_reads _ _ _ _ Hr), res_bind_ok. nowrap. replace (p + Z.of_nat (S (length l))) with (p + 1 + zlen l) by lia.
  apply IH; try lia. apply (reads_cons _ _ _ _ Hr).
Qed.

Lemma xxh32_ok b p l seed : reads b p l -> 0 <= p -> p + zlen l + 16 < 4294967296 ->
  xxh32 b p (zlen l) seed = Ok (hash l seed).
Proof.
  intros Hr Hp Hw. unfold xxh32, hash. set (n := length l) in *. set (k := (n / 16)%nat).
  pose proof (Nat.div_mod n 16 ltac:(lia)) as Hk. pose proof (Nat.mod_upper_bound n 16 ltac:(lia)) as Hk'. fold k in Hk.
  rewrite Nat2Z.id, (u32_small (p + Z.of_nat n)) by lia.
  set (rest := drop (16 * k) l). assert (Erest : length rest = (n - 16 * k)%nat) by (unfold rest; rewrite length_drop; reflexivity).
  set (k2 := (length rest / 4)%nat).
  pose proof (Nat.div_mod (length rest) 4 ltac:(lia)) as Hk2. pose proof (Nat.mod_upper_bound (length rest) 4 ltac:(lia)) as Hk2'. fold k2 in Hk2.
  assert (Rrest : reads b (p + Z.of_nat (16 * k)) rest) by (apply reads_drop; [auto|lia]).
  assert (R2 : reads b (p + Z.of_nat (16 * k) + Z.of_nat (4 * k2)) (drop (4 * k2) rest)) by (apply reads_drop; [auto|lia]).
  assert (H16 : (if 16 <=? Z.of_nat n
    then xxh32_stripes (S n) b p (u32 (p + Z.of_nat n - 16)) (u32 (seed + XXH_PRIME32_1 + XXH_PRIME32_2)) (u32 (seed + XXH_PRIME32_2)) seed (u32 (seed - XXH_PRIME32_1))
    else mret (p, u32 (seed + XXH_PRIME32_5))) = Ok (p + Z.of_nat (16 * k),
      if (16 <=? n)%nat then hash_stripes k l (u32 (seed + XXH_PRIME32_1 + XXH_PRIME32_2)) (u32 (seed + XXH_PRIME32_2)) seed (u32 (seed - XXH_PRIME32_1))
      else u32 (seed + XXH_PRIME32_5))).
  { destruct (Nat.leb_spec 16 n); zdecide.
    - rewrite u32_small by lia. destruct k as [|k']; [lia|]. unfold n. rewrite (stripes_ok k') by (auto; lia). do 2 f_equal. lia.
    - unfold mret, res_ret. do 2 f_equal. lia. }
  rewrite H16, res_bind_ok. replace (p + Z.of_nat n) with (p + Z.of_nat (16 * k) + zlen rest) by lia.
  rewrite (words_ok k2), res_bind_ok by (auto; lia).
  replace (p + Z.of_nat (16 * k) + zlen rest) with (p + Z.of_nat (16 * k) + Z.of_nat (4 * k2) + zlen (drop (4 * k2) rest))
    by (rewrite length_drop; lia).
  replace (p + Z.of_nat (16 * k) + 4 * Z.of_nat k2) with (p + Z.of_nat (16 * k) + Z.of_nat (4 * k2)) by lia.
  rewrite bytes_ok; rewrite ?length_drop; try lia; auto.
Qed.

(** ** Frames on lists *)

Definition get32 (l : list Z) : option (Z * list Z) :=
  if (4 <=? length l)%nat then Some (word l, drop 4 l) else None.

(** The output after one data block. *)
Definition block_content (raw : bool) (data out : list Z) (cap : Z) : option (list Z) :=
  o ← (if raw then Some data else decode (S (length data)) data []);
  if cap <? zlen out + zlen o then None else Some (out ++ o).

(** The data blocks up to the end mark: what is left of the input, and the output. *)
Fixpoint blocks (fuel : nat) (ck : bool) (cap : Z) (l out : list Z) : option (list Z * list Z) :=
  match fuel with
  | O => None
  | S f =>
      '(bs, l) ← get32 l;
      if bs =? 0 then Some (l, out) else
      let n := Z.to_nat (Z.land bs 2147483647) in
      if (length l <? n)%nat then None else
      out ← block_content (Z.testbit bs 31) (take n l) out cap;
      l ← (if ck then snd <$> get32 (drop n l) else Some (drop n l));
      blocks f ck cap l out
  end.

Definition le64 (l : list Z) : Z := Z.lor (word l) (Z.shiftl (word (drop 4 l)) 32).

(** The checksum byte after the [n] bytes of the descriptor. *)
Definition check_header (n : nat) (desc : list Z) (content_size : Z) : option (Z * list Z) :=
  match drop n desc with
  | hc :: l => if hc =? Z.land (Z.shiftr (hash (take n desc) 0) 8) 255 then Some (content_size, l) else None
  | [] => None
  end.

(** The descriptor, from its flags on: the content size and what follows it. *)
Definition header (flg : Z) (desc : list Z) : option (Z * list Z) :=
  if negb (Z.land (Z.shiftr flg 6) 3 =? 1) || negb (Z.testbit flg 5) then None else
  let n := (2 + (if Z.testbit flg 3 then 8 else 0) + (if Z.testbit flg 0 then 4 else 0))%nat in
  check_header n desc (if Z.testbit flg 3 then le64 (drop 2 desc) else 0).

Definition frame_decode (l : list Z) (cap : Z) : option (list Z) :=
  if (length l <? 7)%nat || negb (word l =? LZ4_FRAME_MAGIC) then None else
  let flg := nth 4 l 0 in
  '(content_size, r) ← header flg (drop 4 l);
  '(r, out) ← blocks (S (length l)) (Z.testbit flg 4) cap r [];
  if Z.testbit flg 2 && negb ((4 <=? length r)%nat && (word r =? hash out 0)) then None else
  if Z.testbit flg 3 && negb (zlen out =? content_size) then None else Some out.

(** ** One block *)

Lemma filled_trans d0 dst out d o d' : base d0 <= dst ->
  filled d0 dst out d -> filled d (dst + zlen out) o d' -> filled d0 dst (out ++ o) d'.
Proof.
  intros Hb (B1 & L1 & H1) (B2 & L2 & H2). split_and!; [congruence|congruence|]. intros j. rewrite H2, H1, B1.
  destruct (Z.ltb_spec j (dst - base d0)); zdecide; [reflexivity|].
  destruct (Z.ltb_spec j (dst + zlen out - base d0)).
  - rewrite lookup_app_l by lia. reflexivity.
  - rewrite lookup_app_r by lia.
    replace (Z.to_nat (j - (dst - base d0)) - length out)%nat with (Z.to_nat (j - (dst + zlen out - base d0))) by lia.
    rewrite (lookup_ge_None_2 out) by lia. reflexivity.
Qed.

Lemma block_call_ok s d dst cap ip l : input s dst cap (ip + zlen l) ip l -> 65536 <= dst -> holds_bytes d dst cap ->
  0 <= cap < 2147483648 ->
  exists r d', lz4_decompress_block s d ip (zlen l) dst cap = Ok (r, d') /\ outcome d dst cap (decode (S (length l)) l []) r d'.
Proof.
  intros I Hd Hh Hc. pose proof I as [_ _ _ H4 H5 H6]. unfold lz4_decompress_block. rewrite Nat2Z.id.
  rewrite (u32_small (ip + zlen l)), (u32_small (dst + cap)) by lia.
  destruct (block_loop_ok s d dst cap (ip + zlen l) Hd Hh ltac:(lia) (S (length l)) d ip l [] I) as (r & d' & E & Ho);
    [apply filled_nil|simpl; lia|lia|]. cbn [length] in E. rewrite Z.add_0_r in E. eauto.
Qed.

(** The call has returned -1 with the output [out]. *)
Ltac refused out := eexists _, _; split; [reflexivity|]; simpl; split; [reflexivity|]; exists out; split; [lia|assumption].

Section frame.
Context (s d0 : buf) (dst cap ip_end : Z).
Hypothesis dst_high : 65536 <= dst.
Hypothesis dst_holds : holds_bytes d0 dst cap.
Hypothesis cap_small : 0 <= cap < 2147483648.
Hypothesis both_fit : ip_end + cap < 4294967296.

Notation input := (input s dst cap ip_end).

(** The input ends before the block does; when the pointer wraps around as well, the
    capacity or the block decompressor refuses the block. *)
Lemma frame_block_wraps d ip l raw n (out : list Z) :
  input ip l -> zlen out <= cap -> 0 <= n < 2147483648 -> 4294967296 <= ip + n ->
  frame_block s d raw ip n (dst + zlen out) (zlen out) cap = Ok (None, d).
Proof.
  intros [_ _ H3 H4 H5 _] Hout Hn Hw. unfold frame_block. destruct raw.
  - rewrite u32_small by lia. zdecide. reflexivity.
  - unfold lz4_decompress_block. cbn [block_loop]. unfold sequence.
    rewrite (u32_wrap (ip + n)) by lia.
    zdecide. reflexivity.
Qed.

Lemma frame_block_ok d ip l raw n out :
  input ip l -> filled d0 dst out d -> zlen out <= cap -> (n <= length l)%nat -> Z.of_nat n < 2147483648 ->
  exists o d', frame_block s d raw ip (Z.of_nat n) (dst + zlen out) (zlen out) cap = Ok (o, d') /\
    match block_content raw (take n l) out cap with
    | Some out' => o = Some (zlen out' - zlen out) /\ zlen out <= zlen out' <= cap /\ filled d0 dst out' d'
    | None => o = None /\ exists out', zlen out' <= cap /\ filled d0 dst out' d'
    end.
Proof.
  intros I F Hout Hn Hn'. pose proof I as [H1 H2 H3 H4 H5 H6]. unfold frame_block, block_content.
  assert (Elen : length (take n l) = n) by (rewrite length_take; lia). destruct raw; cbn [mbind option_bind].
  - rewrite Elen, u32_small by lia. destruct (Z.ltb_spec cap (zlen out + Z.of_nat n)); [eauto 10|].
    destruct (literals_ok s d0 dst cap ip_end dst_high dst_holds d ip l out (Z.of_nat n) I F)
      as (d' & E & F' & _ & Eo); [lia..|]. rewrite Nat2Z.id in *. rewrite E, res_bind_ok.
    eexists _, _. split; [reflexivity|]. rewrite Eo. split_and!; auto; try lia. f_equal. lia.
  - pose proof F as (B & L & _). destruct dst_holds as [Hh1 Hh2]. rewrite (u32_small (cap - zlen out)) by lia.
    destruct (block_call_ok s d (dst + zlen out) (cap - zlen out) ip (take n l)) as (r & d' & E & Ho); try lia.
    { destruct (longest_app (take n l) (drop n l)) as [Hlong _]. rewrite take_drop in Hlong.
      rewrite <- (take_drop n l) in H1, H2. apply Forall_app in H2 as [H2 _].
      constructor; auto; try lia; [exact (reads_prefix _ _ _ _ H1)|rewrite Elen in *; lia..]. }
    { split; lia. }
    rewrite Elen in *. rewrite E, res_bind_ok. destruct Ho as [(o & -> & Ho & -> & Fo)|(Hno & -> & o & Ho & Fo)].
    + zdecide. cbn [mbind option_bind]. zdecide. eexists _, _. split; [reflexivity|]. rewrite length_app.
      split_and!; try lia; [f_equal; lia|]. eapply filled_trans; eauto.
    + zdecide. eexists _, _. split; [reflexivity|].
      destruct (decode (S n) (take n l) []) as [o'|] eqn:Ed; cbn [mbind option_bind].
      * specialize (Hno o' eq_refl). zdecide. split; [auto|]. exists (out ++ o). rewrite length_app. split; [lia|]. eapply filled_trans; eauto.
      * split; [auto|]. exists (out ++ o). rewrite length_app. split; [lia|]. eapply filled_trans; eauto.
Qed.

Lemma le32_range a b c d : is_u8 a -> is_u8 b -> is_u8 c -> is_u8 d -> le32 a b c d = a + 256 * b + 65536 * c + 16777216 * d.
Proof.
  unfold is_u8, le32. intros Ha Hb Hc Hd. rewrite (lor_join a b 8) by (simpl; lia).
  rewrite (lor_join _ c 16), (lor_join _ d 24) by (simpl; lia). change (2 ^ 8) with 256. change (2 ^ 16) with 65536.
  change (2 ^ 24) with 16777216. lia.
Qed.

Lemma word_range l : Forall is_u8 l -> 0 <= word l < 4294967296.
Proof.
  intros H. assert (Hn : forall i, is_u8 (nth i l 0)).
  { intros i. destruct (nth_lookup_or_length l i 0) as [E|E]; [apply (Forall_lookup_1 _ _ _ _ H E)|].
    rewrite nth_overflow by lia. unfold is_u8. lia. }
  unfold word. rewrite le32_range by auto. pose proof (Hn 0%nat). pose proof (Hn 1%nat). pose proof (Hn 2%nat).
  pose proof (Hn 3%nat). unfold is_u8 in *. lia.
Qed.

Lemma suffix_drop {A} n (l : list A) : drop n l `suffix_of` l.
Proof. exists (take n l). symmetry. apply take_drop. Qed.

Lemma frame_blocks_ok fuel d ck ip l out :
  input ip l -> filled d0 dst out d -> zlen out <= cap -> (length l < fuel)%nat ->
  exists o d', frame_blocks fuel s d ck ip ip_end (dst + zlen out) (zlen out) cap = Ok (o, d') /\
    match blocks fuel ck cap l out with
    | Some (l', out') => o = Some (ip_end - zlen l', zlen out') /\ zlen out' <= cap /\ filled d0 dst out' d' /\ l' `suffix_of` l
    | None => o = None /\ exists out', zlen out' <= cap /\ filled d0 dst out' d'
    end.
Proof.
  revert d ip l out. induction fuel as [|f IH]; intros d ip l out I F Hout Hf; [lia|].
  pose proof I as [H1 H2 H3 H4 H5 H6]. cbn [frame_blocks blocks]. unfold get32. rewrite u32_small by lia.
  destruct (Nat.leb_spec 4 (length l)) as [Hl|Hl]; zdecide; [|refused out]. cbn [mbind option_bind].
  rewrite (read_le32_ok s ip l), res_bind_ok by (auto; lia). pose proof (word_range l H2) as Hw. set (bs := word l) in *.
  assert (I1 : input (ip_end - zlen (drop 4 l)) (drop 4 l)) by (eapply input_suffix; eauto using suffix_drop).
  replace (ip_end - zlen (drop 4 l)) with (ip + 4) in I1 by (rewrite length_drop; lia).
  destruct (Z.eqb_spec bs 0) as [|Hbs].
  { eexists _, _. split; [reflexivity|]. split_and!; auto using suffix_drop. do 2 f_equal. rewrite length_drop. lia. }
  set (n := Z.land bs 2147483647).
  assert (Hn : 0 <= n < 2147483648) by (unfold n; change 2147483647 with (Z.ones 31); rewrite Z.land_ones by lia; apply Z.mod_pos_bound; lia).
  cbv zeta. destruct (Z.lt_ge_cases (ip + 4 + n) 4294967296) as [Hwrap|Hwrap].
  2:{ rewrite (frame_block_wraps d (ip + 4) (drop 4 l)) by (auto; lia). rewrite res_bind_ok.
      destruct (Nat.ltb_spec (length (drop 4 l)) (Z.to_nat n)) as [|Hle]; [|rewrite length_drop in Hle; lia].
      destruct (_ <? _); eauto 10. }
  rewrite (u32_small (ip + 4 + n)) by lia.
  destruct (Nat.ltb_spec (length (drop 4 l)) (Z.to_nat n)) as [Hlt|Hle]; pose proof (length_drop l 4); zdecide; [eauto 10|].
  destruct (frame_block_ok d (ip + 4) (drop 4 l) (Z.testbit bs 31) (Z.to_nat n) out I1 F) as (o & d' & E & Ho);
    [auto|lia|lia|]. rewrite Z2Nat.id in E by lia. rewrite E, res_bind_ok.
  destruct (block_content _ _ _ _) as [out'|]; [|destruct Ho as (-> & o2 & Ho2 & Fo2); refused o2].
  destruct Ho as (-> & Ho & F'). cbn [mbind option_bind].
  assert (I2 : input (ip_end - zlen (drop (Z.to_nat n) (drop 4 l))) (drop (Z.to_nat n) (drop 4 l)))
    by (eapply input_suffix; eauto using suffix_drop).
  rewrite (u32_small (zlen out + (zlen out' - zlen out))), (u32_small (dst + zlen out + (zlen out' - zlen out))) by lia.
  replace (zlen out + (zlen out' - zlen out)) with (zlen out') by lia.
  replace (dst + zlen out + (zlen out' - zlen out)) with (dst + zlen out') by lia.
  replace (ip_end - zlen (drop (Z.to_nat n) (drop 4 l))) with (ip + 4 + n) in I2 by (rewrite !length_drop; lia).
  destruct ck.
  - rewrite (u32_small (ip + 4 + n + 4)) by lia. unfold get32. pose proof (in_end _ _ _ _ _ _ I2).
    destruct (Nat.leb_spec 4 (length (drop (Z.to_nat n) (drop 4 l)))); zdecide; [|refused out'].
    cbn [mbind option_bind fmap option_fmap option_map snd].
    set (l3 := drop 4 (drop (Z.to_nat n) (drop 4 l))).
    assert (I3 : input (ip_end - zlen l3) l3) by (eapply input_suffix; eauto; apply suffix_drop).
    replace (ip_end - zlen l3) with (ip + 4 + n + 4) in I3 by (unfold l3; rewrite length_drop; lia).
    destruct (IH d' _ l3 out' I3 F') as (o & d2 & -> & Ho2); [lia|unfold l3; rewrite !length_drop; lia|].
    exists o, d2. split; [reflexivity|]. destruct (blocks f true cap l3 out') as [[l' o']|]; [|auto].
    destruct Ho2 as (E1 & E2 & E3 & E4). split_and!; auto. unfold l3 in E4. rewrite !drop_drop in E4. etrans; [exact E4|apply suffix_drop].
  - destruct (IH d' _ _ out' I2 F') as (o & d2 & -> & Ho2); [lia|rewrite !length_drop; lia|].
    exists o, d2. split; [reflexivity|]. cbn [mbind option_bind]. destruct (blocks f false cap _ out') as [[l' o']|]; [|auto].
    destruct Ho2 as (E1 & E2 & E3 & E4). split_and!; auto. rewrite !drop_drop in E4. etrans; [exact E4|apply suffix_drop].
Qed.

Lemma read_le64_ok ip l k q : input ip l -> (k + 8 <= length l)%nat -> q = ip + Z.of_nat k -> read_le64 s q = Ok (le64 (drop k l)).
Proof.
  intros [H1 _ H3 H4 H5 _] Hk ->. unfold read_le64, le64. rewrite (u32_small (ip + Z.of_nat k + 4)) by lia.
  rewrite (read_le32_drop s ip l k (ip + Z.of_nat k)), res_bind_ok by (auto; lia).
  rewrite (read_le32_drop s ip l (k + 4) (ip + Z.of_nat k + 4)), res_bind_ok by (auto; lia). rewrite drop_drop. reflexivity.
Qed.

(** The end of the descriptor, [n] bytes after its start. *)
Lemma header_end p desc n c : input p desc -> (2 <= n <= 14)%nat ->
  header_checksum s p (p + Z.of_nat n) ip_end c = Ok ((fun '(c, l) => (ip_end - zlen l, c)) <$> check_header n desc c).
Proof.
  intros [H1 H2 H3 H4 H5 _] Hn. unfold header_checksum, check_header. rewrite !(u32_small (p + Z.of_nat n + 1)) by lia.
  destruct (decide (length desc <= n)%nat) as [Hle|Hgt]; [rewrite drop_ge by lia; zdecide; reflexivity|]. zdecide.
  assert (Et : zlen (take n desc) = Z.of_nat n) by (rewrite length_take; lia).
  replace (u32 (p + Z.of_nat n - p)) with (zlen (take n desc)) by (rewrite u32_small; lia).
  rewrite (xxh32_ok s p (take n desc)), res_bind_ok by
    (try lia; rewrite <- (take_drop n desc) in H1; exact (reads_prefix _ _ _ _ H1)).
  pose proof (reads_drop s p desc n H1 ltac:(lia)) as Hd. pose proof (length_drop desc n) as El.
  destruct (drop n desc) as [|hc l]; cbn [length] in El; [lia|]. rewrite (ld_reads _ _ _ _ Hd), res_bind_ok.
  destruct (_ =? _); [|reflexivity]. simpl. unfold mret, res_ret. do 3 f_equal. lia.
Qed.

Lemma frame_header_ok p flg desc : input p desc ->
  frame_header s p flg ip_end = Ok ((fun '(c, l) => (ip_end - zlen l, c)) <$> header flg desc).
Proof.
  intros I. pose proof I as [H1 H2 H3 H4 H5 _]. unfold frame_header, header. rewrite (u32_small (p + 2)) by lia.
  destruct (_ =? 1); [|reflexivity]. destruct (Z.testbit flg 5); [|reflexivity]. cbn [negb orb].
  destruct (Z.testbit flg 3).
  - rewrite (u32_small (p + 2 + 8)) by lia. destruct (Z.ltb_spec ip_end (p + 2 + 8)) as [Hlt|Hge].
    + unfold check_header. rewrite drop_ge by (destruct (Z.testbit flg 0); lia). reflexivity.
    + rewrite (read_le64_ok p desc 2) by (auto; lia). cbv zeta. rewrite !res_bind_ok. cbv beta iota.
      rewrite (u32_small (p + 2 + 8 + 4)) by lia.
      destruct (Z.testbit flg 0); cbn [andb].
      * destruct (Z.ltb_spec ip_end (p + 2 + 8 + 4)) as [Hlt|Hge']; [unfold check_header; rewrite drop_ge by lia; reflexivity|].
        replace (p + 2 + 8 + 4) with (p + Z.of_nat 14) by lia. apply (header_end p desc 14); auto; lia.
      * replace (p + 2 + 8) with (p + Z.of_nat 10) by lia. apply (header_end p desc 10); auto; lia.
  - rewrite res_bind_ok. cbv beta iota. rewrite (u32_small (p + 2 + 4)) by lia. destruct (Z.testbit flg 0); cbn [andb].
    * destruct (Z.ltb_spec ip_end (p + 2 + 4)) as [Hlt|Hge']; [unfold check_header; rewrite drop_ge by lia; reflexivity|].
      replace (p + 2 + 4) with (p + Z.of_nat 6) by lia. apply (header_end p desc 6); auto; lia.
    * replace (p + 2) with (p + Z.of_nat 2) by lia. apply (header_end p desc 2); auto; lia.
Qed.

Lemma header_suffix flg desc c l : header flg desc = Some (c, l) -> l `suffix_of` desc.
Proof.
  unfold header, check_header. destruct (_ || _); [discriminate|]. set (n := (2 + _ + _)%nat).
  destruct (drop n desc) as [|hc r] eqn:E; [discriminate|]. destruct (_ =? _); [|discriminate]. intros [= _ <-].
  exists (take n desc ++ [hc]). rewrite <- app_assoc. simpl. rewrite <- E. symmetry. apply take_drop.
Qed.
End frame.

Lemma blocks_suffix fuel ck cap l out l' out' : blocks fuel ck cap l out = Some (l', out') -> l' `suffix_of` l.
Proof.
  revert l out. induction fuel as [|f IH]; intros l out; [discriminate|]. cbn [blocks]. unfold get32.
  destruct (_ <=? _)%nat; [|discriminate]. cbn [mbind option_bind].
  destruct (_ =? 0); [intros [= <- <-]; apply suffix_drop|]. destruct (_ <? _)%nat; [discriminate|].
  destruct (block_content _ _ _ _) as [o|]; [|discriminate]. cbn [mbind option_bind].
  destruct ck.
  - destruct (_ <=? _)%nat; [|discriminate]. cbn [fmap option_fmap option_map mbind option_bind snd]. intros H%IH.
    rewrite !drop_drop in H. etrans; [exact H|apply suffix_drop].
  - cbn [mbind option_bind]. intros H%IH. rewrite !drop_drop in H. etrans; [exact H|apply suffix_drop].
Qed.

(** A data block of a frame: stored or compressed. *)
Inductive chunk : Type :=
| Stored (data : list Z)
| Packed (b : block).

Definition chunk_data (c : chunk) : list Z := match c with Stored l => l | Packed b => enc_block b end.
Definition chunk_content (c : chunk) : list Z := match c with Stored l => l | Packed b => expand_from [] b end.

Definition chunk_ok (c : chunk) : Prop :=
  1 <= zlen (chunk_data c) < 2147483648 /\ match c with Stored l => True | Packed b => block_ok [] b end.

(** The options of a frame: block checksums, content size, content checksum, and a
    dictionary identifier. *)
Record options : Type := Options {
  block_sums : bool;
  with_size : bool;
  with_sum : bool;
  dict : option Z;
  bd : Z
}.

Definition bytes32 (n : Z) : list Z := [n mod 256; n / 256 mod 256; n / 65536 mod 256; n / 16777216].

Definition flag (b : bool) (v : Z) : Z := if b then v else 0.

Definition flags (o : options) : Z :=
  96 + flag (block_sums o) 16 + flag (with_size o) 8 + flag (with_sum o) 4 + flag (bool_decide (is_Some (dict o))) 1.

Definition descriptor (o : options) (total : Z) : list Z :=
  flags o :: bd o :: (if with_size o then bytes32 total ++ bytes32 0 else []) ++
  match dict o with Some d => bytes32 d | None => [] end.

Definition enc_chunk (o : options) (c : chunk) : list Z :=
  bytes32 (zlen (chunk_data c) + match c with Stored _ => 2147483648 | Packed _ => 0 end) ++ chunk_data c ++
  (if block_sums o then bytes32 (hash (chunk_data c) 0) else []).

Definition content (cs : list chunk) : list Z := concat (map chunk_content cs).

Definition enc_frame (o : options) (cs : list chunk) : list Z :=
  let desc := descriptor o (zlen (content cs)) in
  bytes32 LZ4_FRAME_MAGIC ++ desc ++ [Z.land (Z.shiftr (hash desc 0) 8) 255] ++
  concat (map (enc_chunk o) cs) ++ bytes32 0 ++ (if with_sum o then bytes32 (hash (content cs) 0) else []).

(** ** Words *)

Lemma word_bytes32 n l : 0 <= n < 4294967296 -> word (bytes32 n ++ l) = n.
Proof.
  intros Hn. unfold word, bytes32. cbn [app nth]. unfold is_u8. rewrite le32_range; unfold is_u8;
    try (apply Z.mod_pos_bound; lia); [|split; [apply Z.div_pos; lia|apply Z.div_lt_upper_bound; lia]].
  pose proof (Z.div_mod n 256). pose proof (Z.div_mod (n / 256) 256). pose proof (Z.div_mod (n / 65536) 256).
  rewrite Z.div_div in * by lia. change (256 * 256) with 65536 in *. change (65536 * 256) with 16777216 in *. lia.
Qed.

Lemma get32_bytes32 n l : 0 <= n < 4294967296 -> get32 (bytes32 n ++ l) = Some (n, l).
Proof. intros Hn. unfold get32. rewrite word_bytes32 by auto. reflexivity. Qed.

Lemma lxor_shiftr_u32 h k : is_u32 h -> 0 <= k -> is_u32 (Z.lxor h (Z.shiftr h k)).
Proof.
  intros [H0 Hb]%is_u32_bits Hk. apply is_u32_bits. split.
  - apply Z.lxor_nonneg. rewrite Z.shiftr_nonneg. lia.
  - intros n Hn. rewrite Z.lxor_spec, Z.shiftr_spec, !Hb by lia. reflexivity.
Qed.

Lemma hash_u32 l seed : is_u32 (hash l seed).
Proof. unfold hash, xxh32_avalanche. apply lxor_shiftr_u32; [apply u32_range|lia]. Qed.

(** ** Data blocks *)

Lemma size_word n : 0 <= n < 2147483648 ->
  Z.land n 2147483647 = n /\ Z.testbit n 31 = false /\
  Z.land (n + 2147483648) 2147483647 = n /\ Z.testbit (n + 2147483648) 31 = true.
Proof.
  intros Hn. change 2147483647 with (Z.ones 31). rewrite !Z.land_ones by lia. change 2147483648 with (1 * 2 ^ 31) in *.
  rewrite Z.mod_add, Z.mod_small by lia. split_and!; auto.
  - rewrite <- (Z.mod_small n (2 ^ 31)) by lia. apply Z.mod_pow2_bits_high. lia.
  - rewrite <- (Z.mul_1_l (2 ^ 31)) at 1. rewrite Z.testbit_odd, Z.shiftr_div_pow2, Z.div_add, Z.div_small by lia. reflexivity.
Qed.

Lemma block_content_chunk c out cap : chunk_ok c -> zlen out + zlen (chunk_content c) <= cap ->
  block_content (match c with Stored _ => true | Packed _ => false end) (chunk_data c) out cap = Some (out ++ chunk_content c).
Proof.
  intros [_ Hc] Hfit. unfold block_content. destruct c as [l|b]; cbn [mbind option_bind chunk_data chunk_content] in *.
  - zdecide. reflexivity.
  - rewrite decode_enc by (auto; lia). cbn [mbind option_bind]. zdecide. reflexivity.
Qed.

Lemma blocks_enc o cs fuel cap out rest : Forall chunk_ok cs -> zlen (out ++ content cs) <= cap -> (length cs < fuel)%nat ->
  blocks fuel (block_sums o) cap (concat (map (enc_chunk o) cs) ++ bytes32 0 ++ rest) out = Some (rest, out ++ content cs).
Proof.
  revert fuel out. induction cs as [|c cs IH]; intros fuel out Hok Hfit Hf; (destruct fuel as [|f]; [lia|]);
    cbn [blocks map concat length] in *.
  - cbn [app]. rewrite (get32_bytes32 0) by lia. cbn [mbind option_bind]. simpl. rewrite app_nil_r. reflexivity.
  - apply Forall_cons in Hok as [Hc Hok]. pose proof Hc as [Hsz _]. unfold enc_chunk at 1. rewrite <- !app_assoc.
    destruct (size_word (zlen (chunk_data c)) ltac:(lia)) as (W1 & W2 & W3 & W4).
    set (bs := zlen (chunk_data c) + _). assert (Hbs : 0 < bs < 4294967296) by (unfold bs; destruct c; lia).
    rewrite get32_bytes32 by lia. cbn [mbind option_bind]. zdecide.
    replace (Z.land bs 2147483647) with (zlen (chunk_data c)) by (unfold bs; destruct c; rewrite ?Z.add_0_r; congruence).
    replace (Z.testbit bs 31) with (match c with Stored _ => true | Packed _ => false end) by (unfold bs; destruct c; rewrite ?Z.add_0_r; congruence).
    rewrite Nat2Z.id. destruct (Nat.ltb_spec (length (chunk_data c ++ (if block_sums o then bytes32 (hash (chunk_data c) 0) else []) ++
      concat (map (enc_chunk o) cs) ++ bytes32 0 ++ rest)) (length (chunk_data c))) as [Hlt|_]; [rewrite length_app in Hlt; lia|].
    unfold content in *. cbn [map concat] in *. rewrite take_app_length, drop_app_length.
    rewrite !length_app in Hfit. rewrite block_content_chunk by (auto; lia). cbn [mbind option_bind].
    assert (Hl : (if block_sums o then snd <$> get32 ((if block_sums o then bytes32 (hash (chunk_data c) 0) else []) ++
        concat (map (enc_chunk o) cs) ++ bytes32 0 ++ rest)
      else Some ((if block_sums o then bytes32 (hash (chunk_data c) 0) else []) ++ concat (map (enc_chunk o) cs) ++ bytes32 0 ++ rest)) =
      Some (concat (map (enc_chunk o) cs) ++ bytes32 0 ++ rest)).
    { destruct (block_sums o); [|reflexivity]. rewrite get32_bytes32 by apply hash_u32. reflexivity. }
    rewrite Hl. cbn [mbind option_bind]. rewrite IH; [rewrite <- app_assoc; reflexivity|auto|rewrite !length_app; lia|lia].
Qed.

(** ** The descriptor and the frame *)

Lemma flags_bits o :
  Z.land (Z.shiftr (flags o) 6) 3 = 1 /\ Z.testbit (flags o) 5 = true /\ Z.testbit (flags o) 4 = block_sums o /\
  Z.testbit (flags o) 3 = with_size o /\ Z.testbit (flags o) 2 = with_sum o /\
  Z.testbit (flags o) 0 = bool_decide (is_Some (dict o)).
Proof. destruct o as [[] [] [] [d|] b]; split_and!; reflexivity. Qed.

Definition desc_len (o : options) : nat := (2 + (if with_size o then 8 else 0) + (if bool_decide (is_Some (dict o)) then 4 else 0))%nat.

Lemma descriptor_len o total : length (descriptor o total) = desc_len o.
Proof. destruct o as [[] [] [] [d|] b]; reflexivity. Qed.

Lemma header_enc o total l : 0 <= total < 4294967296 ->
  header (flags o) (descriptor o total ++ Z.land (Z.shiftr (hash (descriptor o total) 0) 8) 255 :: l) =
  Some (if with_size o then total else 0, l).
Proof.
  intros Ht. destruct (flags_bits o) as (B1 & B2 & _ & B3 & _ & B0). unfold header, check_header. rewrite B1, B2, B3, B0. cbn [negb orb Z.eqb Pos.eqb].
  fold (desc_len o). rewrite <- (descriptor_len o total), drop_app_length, take_app_length, Z.eqb_refl. do 2 f_equal.
  destruct (with_size o) eqn:Es; [|reflexivity]. unfold descriptor. rewrite Es. cbn [app]. change (drop 2 (?a :: ?b :: ?r)) with r.
  rewrite <- !app_assoc. unfold le64. rewrite word_bytes32 by auto.
  change (drop 4 (bytes32 total ++ ?r)) with r. rewrite word_bytes32 by lia. simpl. apply Z.lor_0_r.
Qed.

Lemma frame_enc o cs cap : Forall chunk_ok cs -> zlen (content cs) <= cap -> cap < 2147483648 ->
  frame_decode (enc_frame o cs) cap = Some (content cs).
Proof.
  intros Hok Hfit Hcap. destruct (flags_bits o) as (_ & _ & B4 & B3 & B2 & _). unfold frame_decode.
  set (total := zlen (content cs)) in *.
  assert (Hdec : forall rest, header (flags o) (drop 4 (bytes32 LZ4_FRAME_MAGIC ++ descriptor o total ++
      [Z.land (Z.shiftr (hash (descriptor o total) 0) 8) 255] ++ rest)) = Some (if with_size o then total else 0, rest)).
  { intros rest. change (drop 4 (bytes32 ?m ++ ?r)) with r. apply header_enc. lia. }
  assert (Hlen : (7 + length cs <= length (enc_frame o cs))%nat).
  { unfold enc_frame. rewrite !length_app, descriptor_len. fold total. unfold desc_len.
    assert (length cs <= length (concat (map (enc_chunk o) cs)))%nat; [|simpl; lia].
    clear. induction cs as [|c cs IH]; simpl; [lia|]. rewrite length_app. lia. }
  destruct (Nat.ltb_spec (length (enc_frame o cs)) 7); [lia|]. remember (S (length (enc_frame o cs))) as fuel eqn:Efuel.
  unfold enc_frame. fold total. cbv zeta.
  rewrite word_bytes32, Z.eqb_refl by (unfold LZ4_FRAME_MAGIC; lia). cbn [orb negb].
  change (nth 4 (bytes32 LZ4_FRAME_MAGIC ++ descriptor o total ++ _) 0) with (flags o).
  rewrite Hdec. cbn [mbind option_bind]. rewrite B4, B3, B2.
  rewrite (blocks_enc o cs fuel cap []) by (auto; simpl; lia). cbn [mbind option_bind app].
  destruct (with_sum o); cbn [andb].
  - rewrite <- (app_nil_r (bytes32 _)), word_bytes32 by apply hash_u32. rewrite Z.eqb_refl. simpl.
    destruct (with_size o); [rewrite Z.eqb_refl|]; reflexivity.
  - destruct (with_size o); [rewrite Z.eqb_refl|]; reflexivity.
Qed.
