(* ===== verification/Lz4Theorems.v ===== *)
(** What the decompressor guarantees on an input that encodes no length which wraps a
    pointer around: it stays inside its buffers, accepts exactly the blocks and the frames
    of the format, and reads back every frame.  An input that encodes such a length makes
    it read past its end, which is the last theorem. *)

From S2P Require Import Prelude Lz4 Lz4Spec Lz4Frame.

(** The bytes of a buffer from an address on. *)
Definition bytes_at (s : buf) (p n : Z) : list Z :=
  map (fun i => arr_at (bytes s) (p - base s + i)) (seqZ 0 n).

(** The source and the destination of a call: separate buffers in the 32-bit address
    space, placed so that a pointer plus the longest length that the input can encode,
    given its longest run of 255s, does not wrap around. *)
Record placed (s d : buf) (src n dst cap : Z) : Prop := Placed {
  pl_size : 0 <= n;
  pl_src : 0 <= src /\ base s <= src /\ src + n <= base s + arr_len (bytes s);
  pl_bytes : forall i, is_u8 (arr_at (bytes s) i);
  pl_dst : 65536 <= dst /\ holds_bytes d dst cap;
  pl_cap : 0 <= cap < 2147483648;
  pl_room : src + n + 255 * Z.of_nat (longest (bytes_at s src n)) + 280 < 4294967296;
  pl_fit : dst + cap + 255 * Z.of_nat (longest (bytes_at s src n)) + 280 < 4294967296;
  pl_both : src + n + cap < 4294967296
}.

Lemma bytes_at_len s p n : 0 <= n -> zlen (bytes_at s p n) = n.
Proof. intros. unfold bytes_at. rewrite length_map, length_seqZ. lia. Qed.

Lemma bytes_at_reads s p n : 0 <= n -> base s <= p -> p + n <= base s + arr_len (bytes s) -> reads s p (bytes_at s p n).
Proof.
  intros Hn Hb He. split_and!; [auto|rewrite bytes_at_len; auto|]. intros i x Hx. unfold bytes_at in Hx.
  apply list_lookup_fmap_Some in Hx as (j & -> & Hj). apply lookup_seqZ in Hj as [-> _]. reflexivity.
Qed.

Lemma placed_input {s d src n dst cap} : placed s d src n dst cap -> input s dst cap (src + n) src (bytes_at s src n).
Proof.
  intros [H1 (H2 & H3 & H4) H5 H6 H7 H8 H9 H10]. constructor; rewrite ?bytes_at_len by auto; try lia.
  - apply bytes_at_reads; auto.
  - apply Forall_forall. intros x (i & -> & _)%list_elem_of_fmap. auto.
Qed.

(** C31: On an input whose longest run of 255s is too short to encode a length that wraps
    a pointer around ([placed]), [lz4_decompress_block] returns without an access outside
    its two buffers.  It returns the number of bytes written when the input is a block of
    the LZ4 format whose content fits, and the destination then holds exactly that
    content; it returns -1 when the input is not such a block.  Nothing beyond the
    capacity is written in either case. *)
Theorem lz4_block_exact s d src n dst cap : placed s d src n dst cap ->
  exists r d', lz4_decompress_block s d src n dst cap = Ok (r, d') /\
    ((exists b, block_ok [] b /\ enc_block b = bytes_at s src n /\ zlen (expand_from [] b) <= cap /\
        r = zlen (expand_from [] b) /\ filled d dst (expand_from [] b) d') \/
     ((forall b, block_ok [] b -> enc_block b = bytes_at s src n -> cap < zlen (expand_from [] b)) /\
        r = -1 /\ exists out, zlen out <= cap /\ filled d dst out d')).
Proof.
  intros P. pose proof (placed_input P) as I. destruct P as [H1 _ _ [H2 H3] H4 _ _ _].
  set (l := bytes_at s src n) in *. assert (El : zlen l = n) by (apply bytes_at_len; auto). rewrite <- El in I |- *.
  destruct (block_call_ok s d dst cap src l I H2 H3 H4) as (r & d' & E & Ho). exists r, d'. split; [exact E|].
  destruct Ho as [(out & Ed & Ho & -> & F)|(Hno & -> & Hf)].
  - left. destruct (decode_inv _ _ _ _ (in_bytes _ _ _ _ _ _ I) Ed) as (b & Hb & Eb & ->). eauto 10.
  - right. split; [|auto]. intros b Hb Eb. apply Hno. rewrite <- Eb. apply decode_enc; [auto|lia].
Qed.

Lemma desc_shape (l : list Z) : (7 <= length l)%nat -> exists bd rest, drop 4 l = nth 4 l 0 :: bd :: rest.
Proof. intros Hl. destruct l as [|? [|? [|? [|? [|? [|? l]]]]]]; simpl in *; try lia. eauto. Qed.

Lemma lz4_frame_ok s d src n dst cap : placed s d src n dst cap ->
  exists r d', lz4_decompress_frame s d src n dst cap = Ok (r, d') /\
    match frame_decode (bytes_at s src n) cap with
    | Some out => r = zlen out /\ zlen out <= cap /\ filled d dst out d'
    | None => r = -1 /\ exists out, zlen out <= cap /\ filled d dst out d'
    end.
Proof.
  intros P. pose proof (placed_input P) as I. destruct P as [H1 [Hs _] _ [H2 H3] H4 H5 H6 H7].
  set (l := bytes_at s src n) in *. assert (El : zlen l = n) by (apply bytes_at_len; auto).
  pose proof I as [I1 I2 _ _ _ _]. unfold lz4_decompress_frame, frame_decode. cbv zeta.
  rewrite (u32_small (src + n)), (u32_small (src + 4)) by lia.
  assert (F0 : filled d dst [] d) by apply filled_nil. assert (Z0 : zlen (@nil Z) <= cap) by (simpl; lia).
  destruct (Nat.ltb_spec (length l) 7) as [Hl|Hl]; zdecide; cbn [orb]; [refused (@nil Z)|].
  rewrite (read_le32_ok s src l), res_bind_ok by (auto; lia).
  destruct (word l =? LZ4_FRAME_MAGIC); cbn [negb]; [|refused (@nil Z)].
  destruct (desc_shape l Hl) as (bd & rest & Edesc). pose proof (length_drop l 4) as Ld.
  assert (Id : input s dst cap (src + n) (src + 4) (drop 4 l)).
  { replace (src + 4) with (src + n - zlen (drop 4 l)) by lia. apply (input_suffix s dst cap (src + n) src l); [auto|apply suffix_drop]. }
  set (flg := nth 4 l 0) in *. pose proof (in_reads _ _ _ _ _ _ Id) as D1. rewrite Edesc in D1.
  rewrite (ld_reads _ _ _ _ D1), res_bind_ok, (u32_small (src + 4 + 1)) by lia.
  rewrite (ld_reads _ _ _ _ (reads_cons _ _ _ _ D1)), res_bind_ok.
  rewrite (frame_header_ok s dst cap (src + n) H4 H7 (src + 4) flg (drop 4 l) Id), res_bind_ok.
  destruct (header flg (drop 4 l)) as [[csize r]|] eqn:Eh; cbn [fmap option_fmap option_map mbind option_bind]; [|refused (@nil Z)].
  apply header_suffix in Eh. assert (Ir : input s dst cap (src + n) (src + n - zlen r) r) by (eapply input_suffix; eauto).
  pose proof (suffix_length _ _ Eh) as Lr.
  destruct (frame_blocks_ok s d dst cap (src + n) H2 H3 H4 H7 (S (Z.to_nat n)) d (Z.testbit flg 4) _ r [] Ir F0 Z0 ltac:(lia))
    as (o & d' & E & Ho). cbn [length] in E. rewrite ?Z.add_0_r in E. change (Z.of_nat 0) with 0 in E.
  replace (S (length l)) with (S (Z.to_nat n)) by lia. rewrite E, res_bind_ok.
  destruct (blocks _ _ _ _ _) as [[r' out]|]; [|destruct Ho as (-> & o' & Ho' & Fo'); refused o'].
  destruct Ho as (-> & Hout & Fo & Hsuf). cbn [mbind option_bind].
  assert (Hck : (if Z.testbit flg 2
     then if src + n <? u32 (src + n - zlen r' + 4) then mret false
          else expected ← read_le32 s (src + n - zlen r'); actual ← xxh32 d' dst (zlen out) 0; mret (expected =? actual)
     else mret true) = Ok (negb (Z.testbit flg 2 && negb ((4 <=? length r')%nat && (word r' =? hash out 0))))).
  { destruct (Z.testbit flg 2); [|reflexivity]. pose proof (suffix_length _ _ Hsuf). rewrite u32_small by lia.
    destruct (Nat.leb_spec 4 (length r')); zdecide; [|reflexivity].
    assert (Ir' : input s dst cap (src + n) (src + n - zlen r') r') by (eapply input_suffix; eauto).
    rewrite (read_le32_ok s _ r'), res_bind_ok by (try apply (in_reads _ _ _ _ _ _ Ir'); lia).
    rewrite (xxh32_ok d' dst out), res_bind_ok by (try lia; eapply filled_reads; eauto; split; destruct H3; lia).
    cbn [andb negb]. rewrite negb_involutive. reflexivity. }
  rewrite Hck, res_bind_ok. rewrite negb_involutive. destruct (Z.testbit flg 2 && _); [refused out|].
  destruct (Z.testbit flg 3 && _); [refused out|]. eexists _, _. split; [reflexivity|]. rewrite s32_small by lia. auto.
Qed.

(** What a frame that was accepted says of its content. *)
Lemma frame_decode_checks l cap out : frame_decode l cap = Some out ->
  word l = LZ4_FRAME_MAGIC /\
  (Z.testbit (nth 4 l 0) 3 = true -> zlen out = le64 (drop 6 l)) /\
  exists c body t, header (nth 4 l 0) (drop 4 l) = Some (c, body) /\
    blocks (S (length l)) (Z.testbit (nth 4 l 0) 4) cap body [] = Some (t, out) /\
    (Z.testbit (nth 4 l 0) 2 = true -> (4 <= length t)%nat /\ word t = hash out 0).
Proof.
  unfold frame_decode. destruct (_ <? _)%nat; [discriminate|]. destruct (Z.eqb_spec (word l) LZ4_FRAME_MAGIC) as [Hw|]; [|discriminate].
  cbn [orb negb]. destruct (header _ _) as [[c r]|] eqn:Eh; [|discriminate]. cbn [mbind option_bind].
  destruct (blocks _ _ _ _ _) as [[r' o]|] eqn:Eb; [|discriminate]. cbn [mbind option_bind].
  destruct (Z.testbit (nth 4 l 0) 2 && _) eqn:E2; [discriminate|]. destruct (Z.testbit (nth 4 l 0) 3 && _) eqn:E3; [discriminate|].
  intros [= <-]. split; [exact Hw|]. split.
  - intros H3. rewrite H3 in E3. apply negb_false_iff, Z.eqb_eq in E3. rewrite E3. unfold header, check_header in Eh. rewrite H3 in Eh.
    destruct (_ || _); [discriminate|]. destruct (drop _ (drop 4 l)); [discriminate|]. destruct (_ =? _); [|discriminate].
    injection Eh as <- _. rewrite drop_drop. reflexivity.
  - exists c, r, r'. split_and!; auto. intros H2. rewrite H2 in E2.
    apply negb_false_iff, andb_true_iff in E2 as [E1 E2]. split; [apply Nat.leb_le; auto|apply Z.eqb_eq; auto].
Qed.

(** C33: On an input that encodes no length which wraps a pointer around ([placed]),
    [lz4_decompress_frame] returns without an access outside its two buffers and writes
    nothing beyond the capacity.  It accepts exactly the frames that [frame_decode] accepts,
    and then returns the number of bytes written, which are the contents of the blocks;
    otherwise it returns -1.  A frame it accepts begins with the magic number, its content
    has the size that the descriptor declares, and when the frame carries a content
    checksum, the four bytes after the end mark of the blocks are the checksum of the bytes
    written. *)
Theorem lz4_frame_safe s d src n dst cap : placed s d src n dst cap ->
  let l := bytes_at s src n in
  exists r d', lz4_decompress_frame s d src n dst cap = Ok (r, d') /\
    match frame_decode l cap with
    | None => r = -1 /\ exists out, zlen out <= cap /\ filled d dst out d'
    | Some out =>
        r = zlen out /\ zlen out <= cap /\ filled d dst out d' /\ word l = LZ4_FRAME_MAGIC /\
        (Z.testbit (nth 4 l 0) 3 = true -> r = le64 (drop 6 l)) /\
        exists c body t, header (nth 4 l 0) (drop 4 l) = Some (c, body) /\
          blocks (S (length l)) (Z.testbit (nth 4 l 0) 4) cap body [] = Some (t, out) /\
          (Z.testbit (nth 4 l 0) 2 = true -> (4 <= length t)%nat /\ xxh32 d' dst r 0 = Ok (word t))
    end.
Proof.
  intros P l. destruct (lz4_frame_ok s d src n dst cap P) as (r & d' & E & Hf). fold l in Hf. exists r, d'. split; [exact E|].
  destruct (frame_decode l cap) as [out|] eqn:Ed; [|exact Hf]. destruct Hf as (-> & Hout & F).
  destruct (frame_decode_checks _ _ _ Ed) as (H1 & H2 & c & body & t & Eh & Eb & H3). split_and!; auto. exists c, body, t. split_and!; auto.
  intros Hc. destruct (H3 Hc) as [Ht ->]. split; [exact Ht|].
  destruct P as [H4 _ _ [H5 H6] _ _ H7 _]. apply xxh32_ok; [|lia..]. apply (filled_reads d dst out d' F). destruct H6. split; lia.
Qed.

(** C32: Every frame reads back: for any choice of options, and any stored or compressed
    blocks, decompressing the frame made of them returns the size of their contents,
    and the destination holds the contents one after the other. *)
Theorem lz4_frame_roundtrip s d src n dst cap o cs :
  placed s d src n dst cap -> Forall chunk_ok cs -> bytes_at s src n = enc_frame o cs -> zlen (content cs) <= cap ->
  exists d', lz4_decompress_frame s d src n dst cap = Ok (zlen (content cs), d') /\ filled d dst (content cs) d'.
Proof.
  intros P Hok Hb Hfit. destruct (lz4_frame_ok s d src n dst cap P) as (r & d' & E & Hf).
  rewrite Hb, frame_enc in Hf by (auto; apply (pl_cap _ _ _ _ _ _ P)). destruct Hf as (-> & _ & F). eauto.
Qed.

(** The bounds checks are not enough by themselves: a block that encodes a literal
    length which takes the pointers past the end of the address space passes them,
    and the copy that follows reads past the end of the input.  About four megabytes
    of 255 bytes are enough in the kernel's part of the address space. *)
Theorem lz4_length_wraps s d src dst cap k r :
  base s = src -> arr_len (bytes s) = k + 2 -> 0 <= src -> src + k + 2 < 4294967296 -> 0 <= dst -> 0 <= cap -> dst + cap < 4294967296 ->
  0 <= k -> 0 <= r < 255 -> 255 * k + 270 < 4294967296 ->
  4294967296 <= src + (15 + 255 * k + r) -> 4294967296 <= dst + (15 + 255 * k + r) ->
  arr_at (bytes s) 0 = 240 -> (forall i, 0 < i <= k -> arr_at (bytes s) i = 255) -> arr_at (bytes s) (k + 1) = r ->
  lz4_decompress_block s d src (k + 2) dst cap = Ub.
Proof.
  intros Hb Hlen Hs Hse Hd Hc Hde Hk Hr Hn Hws Hwd H0 H255 Hlast.
  set (l := replicate (Z.to_nat k) 255 ++ [r]). assert (El : zlen l = k + 1) by (unfold l; rewrite length_app, length_replicate; simpl; lia).
  assert (R : reads s src (240 :: l)).
  { split_and!; [lia|simpl length; lia|]. intros [|i] x Hx; [injection Hx as <-; rewrite Hb, Z.sub_diag; exact H0|].
    cbn [lookup list_lookup] in Hx. unfold l in Hx. apply lookup_app_Some in Hx as [Hx|[Hi Hx]].
    - apply lookup_replicate in Hx as [-> Hi]. apply H255. lia.
    - rewrite length_replicate in *. destruct (i - Z.to_nat k)%nat eqn:Ei; [|discriminate]. injection Hx as <-.
      etrans; [|exact Hlast]. f_equal. lia. }
  unfold lz4_decompress_block. cbn [block_loop]. unfold sequence. rewrite (u32_small (src + (k + 2))), (u32_small (dst + cap)) by lia. zdecide.
  rewrite (ld_reads _ _ _ _ R), res_bind_ok. cbv zeta. rewrite (u32_small (src + 1)) by lia.
  change (Z.shiftr 240 4) with 15. unfold read_len. cbn [Z.eqb Pos.eqb].
  replace (src + (k + 2)) with (src + 1 + zlen l) by lia.
  assert (Hlead : lead l = Z.to_nat k) by (apply lead_run; lia).
  rewrite ext_len_ok; [|exact (reads_cons _ _ _ _ R)| |lia..].
  2:{ unfold l. apply Forall_app. split; [apply Forall_replicate|constructor; [|constructor]]; unfold is_u8; lia. }
  assert (Eg : get_ext l 15 = Some (15 + 255 * Z.of_nat (Z.to_nat k) + r, [])) by (apply get_ext_run; auto). rewrite Eg. cbn [fmap option_fmap option_map]. rewrite !res_bind_ok. cbn [length].
  replace (src + 1 + zlen l - Z.of_nat 0) with (src + 1 + zlen l) by lia. rewrite Z2Nat.id by lia.
  set (n := 15 + 255 * k + r) in *.
  rewrite (u32_wrap (src + 1 + zlen l + n)), (u32_wrap (dst + n)) by lia. zdecide.
  destruct (Z.to_nat n) as [|m] eqn:Em; [lia|]. cbn [copy_literals]. unfold ld, arr_get.
  rewrite arr_in_false by lia. reflexivity.
Qed.

(** ** Concrete buffers *)

Definition buf_of (p : Z) (l : list Z) : buf :=
  Buf p (Array (zlen l) 0 (list_to_map (zip (seqZ 0 (zlen l)) l))).

Definition demo_block : block := Block [LSeq [104; 105] 2 6] [33] 0.
Definition demo_options : options := Options true true true (Some 7) 64.
Definition demo_chunks : list chunk := [Stored [65; 66]; Packed demo_block].
Definition demo_out : buf := Buf 3238002688 (arr_new 64 0).

Lemma demo_placed l : (forall i, is_u8 (arr_at (bytes (buf_of 3225419776 l)) i)) -> zlen l <= 1000 ->
  placed (buf_of 3225419776 l) demo_out 3225419776 (zlen l) 3238002688 64.
Proof.
  intros Hb Hl. pose proof (longest_length (bytes_at (buf_of 3225419776 l) 3225419776 (zlen l))) as Hlong.
  pose proof (bytes_at_len (buf_of 3225419776 l) 3225419776 (zlen l) ltac:(lia)) as El.
  constructor; auto; try lia; [simpl; lia|]. split; [lia|]. split; simpl; lia.
Qed.

Lemma buf_of_u8 p l : bool_decide (map_Forall (fun _ x => 0 <= x < 256) (arr_cells (bytes (buf_of p l)))) = true ->
  forall i, is_u8 (arr_at (bytes (buf_of p l)) i).
Proof.
  intros H%bool_decide_eq_true i. unfold arr_at, is_u8. destruct (arr_cells _ !! i) as [x|] eqn:E; [exact (H i x E)|simpl; lia].
Qed.

Lemma lz4_block_exact_witness :
  exists d', lz4_decompress_block (buf_of 3225419776 (enc_block demo_block)) demo_out 3225419776 (zlen (enc_block demo_block))
      3238002688 64 = Ok (9, d') /\ filled demo_out 3238002688 [104; 105; 104; 105; 104; 105; 104; 105; 33] d'.
Proof.
  set (s := buf_of _ _). assert (Eb : bytes_at s 3225419776 (zlen (enc_block demo_block)) = enc_block demo_block) by (vm_compute; reflexivity).
  assert (Hb : block_ok [] demo_block) by (unfold block_ok, seq_ok; simpl; unfold seq_ok, is_u8; simpl; repeat constructor; lia).
  destruct (lz4_block_exact s demo_out 3225419776 (zlen (enc_block demo_block)) 3238002688 64) as (r & d' & E & [H|H]).
  - apply demo_placed; [apply buf_of_u8; vm_compute; reflexivity|vm_compute; discriminate].
  - destruct H as (b & _ & _ & _ & -> & F).
    assert (Ec : match lz4_decompress_block s demo_out 3225419776 (zlen (enc_block demo_block)) 3238002688 64 with
      | Ok (r, d) => r = 9 /\ bytes_at d 3238002688 9 = [104; 105; 104; 105; 104; 105; 104; 105; 33] | _ => False end)
      by (vm_compute; split; reflexivity).
    rewrite E in Ec. destruct Ec as [E9 Ec]. exists d'. rewrite E9 in E. split; [exact E|].
    replace [104; 105; 104; 105; 104; 105; 104; 105; 33] with (expand_from [] b); [exact F|]. rewrite <- Ec.
    destruct (filled_reads _ _ _ _ F) as (_ & _ & Hr); [split; simpl; lia|].
    apply list_eq_same_length with (n := 9%nat); [reflexivity|lia|]. intros i x y Hi Hx Hy.
    specialize (Hr i x Hx). unfold bytes_at in Hy. apply list_lookup_fmap_Some in Hy as (j & -> & Hj).
    apply lookup_seqZ in Hj as [-> _]. symmetry. exact Hr.
  - destruct H as (Hno & _). specialize (Hno demo_block Hb (eq_sym Eb)). vm_compute in Hno. discriminate.
Defined.

Definition demo_frame : list Z := enc_frame demo_options demo_chunks.

Lemma demo_frame_placed : placed (buf_of 3225419776 demo_frame) demo_out 3225419776 (zlen demo_frame) 3238002688 64.
Proof. apply demo_placed; [apply buf_of_u8; vm_compute; reflexivity|vm_compute; discriminate]. Qed.

(** The demonstration frame carries a checksum: it is the last four of its bytes. *)
Lemma lz4_frame_safe_witness :
  exists d', lz4_decompress_frame (buf_of 3225419776 demo_frame) demo_out 3225419776 (zlen demo_frame) 3238002688 64 = Ok (11, d') /\
    filled demo_out 3238002688 [65; 66; 104; 105; 104; 105; 104; 105; 104; 105; 33] d' /\
    xxh32 d' 3238002688 11 0 = Ok (word (drop (length demo_frame - 4) demo_frame)).
Proof.
  destruct (lz4_frame_safe _ _ _ _ _ _ demo_frame_placed) as (r & d' & E & H).
  replace (bytes_at _ _ _) with demo_frame in H by (vm_compute; reflexivity).
  replace (frame_decode demo_frame 64) with (Some [65; 66; 104; 105; 104; 105; 104; 105; 104; 105; 33]) in H by (vm_compute; reflexivity).
  destruct H as (-> & _ & F & _ & _ & c & body & t & Eh & Eb & Hc). exists d'. split; [exact E|]. split; [exact F|].
  vm_compute in Eh. injection Eh as <- <-. vm_compute in Eb. injection Eb as <-. destruct Hc as [_ Hc]; [vm_compute; reflexivity|].
  exact Hc.
Defined.

Lemma lz4_frame_roundtrip_witness :
  exists d', lz4_decompress_frame (buf_of 3225419776 demo_frame) demo_out 3225419776 (zlen demo_frame) 3238002688 64 = Ok (11, d') /\
    filled demo_out 3238002688 [65; 66; 104; 105; 104; 105; 104; 105; 104; 105; 33] d'.
Proof.
  apply (lz4_frame_roundtrip _ _ _ _ _ _ demo_options demo_chunks demo_frame_placed).
  - unfold demo_chunks, chunk_ok. repeat constructor; try (vm_compute; congruence); simpl; unfold is_u8; lia.
  - vm_compute. reflexivity.
  - vm_compute. discriminate.
Defined.

(** A block of four megabytes at 0xC0400000. *)
Definition long_block : buf := Buf 3225419776 (Array 4194307 255 {[0 := 240; 4194306 := 0]}).

Lemma lz4_length_wraps_witness : lz4_decompress_block long_block demo_out 3225419776 (4194305 + 2) 3238002688 64 = Ub.
Proof.
  apply (lz4_length_wraps long_block demo_out 3225419776 3238002688 64 4194305 0); try (simpl; lia).
  - vm_compute. reflexivity.
  - intros i Hi. unfold arr_at, long_block. simpl. rewrite lookup_insert_ne, lookup_singleton_ne by lia. reflexivity.
  - vm_compute. reflexivity.
Defined.
