(* ===== verification/Tmpfs.v ===== *)
(** The file system in memory (src/kernel/tmpfs.c): nodes linked by parent, first child
    and next sibling, and the bytes of files.

    A node is named by its address, 0 is the null pointer.  A C string is the list of its
    bytes before the terminating zero.  The answers of [kmalloc] are an argument, in the
    order of the calls; a null answer is a failure.  The buffer of a file belongs to its
    node alone.  The tables of operations of a node follow from its [flags]: files have
    [tmpfs_file_ops], directories [tmpfs_dir_iops]; links have neither. *)

From S2P Require Import Prelude.

Definition FS_FILE : Z := 1.
Definition FS_DIRECTORY : Z := 2.
Definition FS_SYMLINK : Z := 5.

Definition ENOENT : Z := 2.
Definition ENOMEM : Z := 12.
Definition EEXIST : Z := 17.
Definition ENOTDIR : Z := 20.
Definition EISDIR : Z := 21.
Definition EINVAL : Z := 22.
Definition ENOTEMPTY : Z := 39.

Definition cstr : Type := list Z.

(** [struct tmpfs_node] with the fields of its [vfs] that this file system uses. *)
Record tnode : Type := TNode {
  n_name : cstr;
  n_flags : Z;
  n_inode : Z;
  n_length : Z;
  n_target : cstr;
  n_parent : Z;
  n_first : Z;
  n_next : Z;
  n_data : option (array Z);
  n_cap : Z
}.

(** The nodes in memory, [g_tmpfs_next_inode] and [g_tmpfs_total_used]. *)
Record tmpfs : Type := Tmpfs { t_nodes : gmap Z tnode; t_inode : Z; t_used : Z }.

Definition set_nodes (m : gmap Z tnode) (s : tmpfs) : tmpfs := Tmpfs m (t_inode s) (t_used s).
Definition set_used (u : Z) (s : tmpfs) : tmpfs := Tmpfs (t_nodes s) (t_inode s) u.
Definition set_parent (p : Z) (n : tnode) : tnode :=
  TNode (n_name n) (n_flags n) (n_inode n) (n_length n) (n_target n) p (n_first n) (n_next n) (n_data n) (n_cap n).
Definition set_first (p : Z) (n : tnode) : tnode :=
  TNode (n_name n) (n_flags n) (n_inode n) (n_length n) (n_target n) (n_parent n) p (n_next n) (n_data n) (n_cap n).
Definition set_next (p : Z) (n : tnode) : tnode :=
  TNode (n_name n) (n_flags n) (n_inode n) (n_length n) (n_target n) (n_parent n) (n_first n) p (n_data n) (n_cap n).
Definition set_data (d : option (array Z)) (cap len : Z) (n : tnode) : tnode :=
  TNode (n_name n) (n_flags n) (n_inode n) len (n_target n) (n_parent n) (n_first n) (n_next n) d cap.
Definition set_target (t : cstr) (len : Z) (n : tnode) : tnode :=
  TNode (n_name n) (n_flags n) (n_inode n) len t (n_parent n) (n_first n) (n_next n) (n_data n) (n_cap n).

Definition node (s : tmpfs) (p : Z) : res tnode := of_option (t_nodes s !! p).
Definition put (s : tmpfs) (p : Z) (n : tnode) : tmpfs := set_nodes (<[p := n]> (t_nodes s)) s.
Definition upd (s : tmpfs) (p : Z) (f : tnode -> tnode) : res tmpfs := n ← node s p; mret (put s p (f n)).
Definition kfree_node (s : tmpfs) (p : Z) : res tmpfs := _ ← node s p; mret (set_nodes (delete p (t_nodes s)) s).

(** One more step than there are nodes: enough for every walk along siblings. *)
Definition walk_fuel (s : tmpfs) : nat := S (size (t_nodes s)).

(** The next answer of [kmalloc]. *)
Definition kmalloc (mem : list Z) : Z * list Z :=
  match mem with [] => (0, []) | p :: mem => (p, mem) end.

(** [strncpy] into [char[n]], and the terminating zero. *)
Definition strtrunc (n : Z) (s : cstr) : cstr := take (Z.to_nat (n - 1)) s.

Definition tmpfs_node_alloc (s : tmpfs) (mem : list Z) (name : cstr) (flags : Z) : Z * tmpfs * list Z :=
  let '(p, mem) := kmalloc mem in
  if p =? 0 then (0, s, mem)
  else (p, Tmpfs (<[p := TNode (strtrunc 128 name) flags (t_inode s) 0 [] 0 0 0 None 0]> (t_nodes s)) (u32 (t_inode s + 1)) (t_used s), mem).

(** The loop of [tmpfs_child_find] from the child [c]. *)
Fixpoint find_from (fuel : nat) (s : tmpfs) (c : Z) (name : cstr) : res Z :=
  match fuel with
  | O => NoFuel
  | S fuel =>
      if c =? 0 then mret 0
      else
        n ← node s c;
        if bool_decide (n_name n = name) then mret c else find_from fuel s (n_next n) name
  end.

Definition tmpfs_child_find (s : tmpfs) (dir : Z) (name : cstr) : res Z :=
  if dir =? 0 then mret 0 else d ← node s dir; find_from (walk_fuel s) s (n_first d) name.

Definition tmpfs_child_add (s : tmpfs) (dir child : Z) : res tmpfs :=
  d ← node s dir;
  s ← upd s child (fun c => set_next (n_first d) (set_parent dir c));
  upd s dir (set_first child).

Definition tmpfs_child_ensure_dir (s : tmpfs) (mem : list Z) (dir : Z) (name : cstr) : res (Z * tmpfs * list Z) :=
  if (dir =? 0) || bool_decide (name = []) then mret (0, s, mem)
  else
    existing ← tmpfs_child_find s dir name;
    if negb (existing =? 0) then
      n ← node s existing;
      mret (if negb (n_flags n =? FS_DIRECTORY) then 0 else existing, s, mem)
    else
      let '(nd, s, mem) := tmpfs_node_alloc s mem name FS_DIRECTORY in
      if nd =? 0 then mret (0, s, mem)
      else s ← tmpfs_child_add s dir nd; mret (nd, s, mem).

(** ** Paths *)

Definition SLASH : Z := 47.

Fixpoint skip_slashes (p : cstr) : cstr :=
  match p with c :: q => if c =? SLASH then skip_slashes q else p | [] => [] end.

(** The characters up to the next separator, and the rest from it on. *)
Fixpoint span_part (p : cstr) : cstr * cstr :=
  match p with
  | [] => ([], [])
  | c :: q => if c =? SLASH then ([], p) else let '(a, r) := span_part q in (c :: a, r)
  end.

(** The next part of a path, cut to [out_sz - 1] characters, and the rest; [None] at the
    end of the path. *)
Definition tmpfs_split_next (p : cstr) (out_sz : Z) : option (cstr * cstr) :=
  let p := skip_slashes p in
  match p with
  | [] => None
  | _ =>
      let '(a, r) := span_part p in
      match strtrunc out_sz a with
      | [] => None
      | out => Some (out, skip_slashes r)
      end
  end.

(** ** Files *)

(** [memcpy] from a buffer *)
Fixpoint get_bytes (a : array Z) (off : Z) (n : nat) : res (list Z) :=
  match n with
  | O => mret []
  | S n => b ← arr_get a off; l ← get_bytes a (off + 1) n; mret (b :: l)
  end.

(** [memcpy] into a buffer *)
Fixpoint put_bytes (a : array Z) (off : Z) (l : list Z) : res (array Z) :=
  match l with
  | [] => mret a
  | b :: l => a ← arr_set a off b; put_bytes a (off + 1) l
  end.

Definition tmpfs_read_impl (s : tmpfs) (nd offset size : Z) : res (list Z) :=
  if nd =? 0 then mret []
  else
    n ← node s nd;
    if negb (n_flags n =? FS_FILE) then mret []
    else if n_length n <? offset then mret []
    else
      let size := if n_length n <? u32 (offset + size) then u32 (n_length n - offset) else size in
      if size =? 0 then mret []
      else a ← of_option (n_data n); get_bytes a offset (Z.to_nat size).

Definition TMPFS_MAX_CAP : Z := 268435456.
Definition TMPFS_GLOBAL_QUOTA : Z := 536870912.

(** [while (new_cap < end)] *)
Fixpoint grow_cap (fuel : nat) (new_cap end_ : Z) : res Z :=
  match fuel with
  | O => NoFuel
  | S fuel =>
      if new_cap <? end_ then
        if TMPFS_MAX_CAP / 2 <? new_cap then mret TMPFS_MAX_CAP else grow_cap fuel (u32 (new_cap * 2)) end_
      else mret new_cap
  end.

(** The buffer of a file that must hold [end_] bytes; [None] when it cannot. *)
Definition grow (s : tmpfs) (mem : list Z) (nd : Z) (n : tnode) (end_ : Z) : res (option tmpfs * list Z) :=
  new_cap ← grow_cap 32 (if n_cap n =? 0 then 64 else n_cap n) end_;
  if new_cap <? end_ then mret (None, mem)
  else
    let additional := u32 (new_cap - n_cap n) in
    if TMPFS_GLOBAL_QUOTA <? u64 (t_used s + additional) then mret (None, mem)
    else
      let '(p, mem) := kmalloc mem in
      if p =? 0 then mret (None, mem)
      else
        l ← match n_data n with
            | Some a => if n_length n =? 0 then mret [] else get_bytes a 0 (Z.to_nat (n_length n))
            | None => mret []
            end;
        new_data ← put_bytes (arr_new new_cap 0) 0 l;
        let used := match n_data n with Some _ => u64 (t_used s - n_cap n) | None => t_used s end in
        mret (Some (set_used (u64 (used + new_cap)) (put s nd (set_data (Some new_data) new_cap (n_length n) n))), mem).

Definition tmpfs_write_impl (s : tmpfs) (mem : list Z) (nd offset : Z) (buffer : list Z) : res (Z * tmpfs * list Z) :=
  let size := Z.of_nat (length buffer) in
  if nd =? 0 then mret (0, s, mem)
  else
    n ← node s nd;
    if negb (n_flags n =? FS_FILE) then mret (0, s, mem)
    else
      let end_ := offset + size in
      if 4294967295 <? end_ then mret (0, s, mem)
      else
        '(o, mem) ← (if n_cap n <? end_ then grow s mem nd n end_ else mret (Some s, mem));
        match o with
        | None => mret (0, s, mem)
        | Some s =>
            n ← node s nd;
            data ← match n_data n, buffer with
                   | Some a, _ => a ← put_bytes a offset buffer; mret (Some a)
                   | None, [] => mret None
                   | None, _ => Ub
                   end;
            mret (size, put s nd (set_data data (n_cap n) (if n_length n <? end_ then end_ else n_length n) n), mem)
        end.

(** ** Directories *)

Definition tmpfs_finddir_impl (s : tmpfs) (nd : Z) (name : cstr) : res Z :=
  if nd =? 0 then mret 0
  else n ← node s nd; if negb (n_flags n =? FS_DIRECTORY) then mret 0 else tmpfs_child_find s nd name.

(** [struct vfs_dirent]; its size is 32. *)
Record vfs_dirent : Type := Dirent { d_ino : Z; d_reclen : Z; d_type : Z; d_name : cstr }.

Definition DIRENT_SIZE : Z := 32.

(** [while (c && skip > 0)] *)
Fixpoint skip_children (fuel : nat) (s : tmpfs) (c skip : Z) : res Z :=
  match fuel with
  | O => NoFuel
  | S fuel =>
      if (c =? 0) || negb (0 <? skip) then mret c
      else n ← node s c; skip_children fuel s (n_next n) (skip - 1)
  end.

(** The entry with index [idx]; [None] past the last one. *)
Definition dir_entry (s : tmpfs) (nd : Z) (idx : Z) : res (option vfs_dirent) :=
  n ← node s nd;
  if idx =? 0 then mret (Some (Dirent (n_inode n) DIRENT_SIZE FS_DIRECTORY [46]))
  else if idx =? 1 then
    ino ← (if negb (n_parent n =? 0) then p ← node s (n_parent n); mret (n_inode p) else mret (n_inode n));
    mret (Some (Dirent ino DIRENT_SIZE FS_DIRECTORY [46; 46]))
  else
    c ← skip_children (walk_fuel s) s (n_first n) (idx - 2);
    if c =? 0 then mret None
    else x ← node s c; mret (Some (Dirent (n_inode x) DIRENT_SIZE (u8 (n_flags x)) (strtrunc 24 (n_name x)))).

(** [while (written < cap)]; [idx] is the index of the next entry. *)
Fixpoint fill_entries (cap : nat) (s : tmpfs) (nd idx : Z) : res (list vfs_dirent * Z) :=
  match cap with
  | O => mret ([], idx)
  | S cap =>
      o ← dir_entry s nd idx;
      match o with
      | None => mret ([], idx)
      | Some e => '(l, idx) ← fill_entries cap s nd (u32 (idx + 1)); mret (e :: l, idx)
      end
  end.

(** The result, the entries and the new index. *)
Definition tmpfs_readdir_impl (s : tmpfs) (nd idx buf_len : Z) : res (Z * list vfs_dirent * Z) :=
  if nd =? 0 then mret (-1, [], idx)
  else
    n ← node s nd;
    if negb (n_flags n =? FS_DIRECTORY) then mret (-1, [], idx)
    else if buf_len <? DIRENT_SIZE then mret (-1, [], idx)
    else
      '(l, idx) ← fill_entries (Z.to_nat (buf_len / DIRENT_SIZE)) s nd idx;
      mret (s32 (Z.of_nat (length l) * DIRENT_SIZE), l, idx).

Definition tmpfs_mkdir_impl (s : tmpfs) (mem : list Z) (dir : Z) (name : cstr) : res (Z * tmpfs * list Z) :=
  if dir =? 0 then mret (- EINVAL, s, mem)
  else
    n ← node s dir;
    if negb (n_flags n =? FS_DIRECTORY) then mret (- EINVAL, s, mem)
    else
      c ← tmpfs_child_find s dir name;
      if negb (c =? 0) then mret (- EEXIST, s, mem)
      else
        let '(nd, s, mem) := tmpfs_node_alloc s mem name FS_DIRECTORY in
        if nd =? 0 then mret (- ENOMEM, s, mem)
        else s ← tmpfs_child_add s dir nd; mret (0, s, mem).

(** The loop that looks for a child and its predecessor. *)
Fixpoint find_prev (fuel : nat) (s : tmpfs) (prev c : Z) (name : cstr) : res (Z * Z) :=
  match fuel with
  | O => NoFuel
  | S fuel =>
      if c =? 0 then mret (prev, 0)
      else
        n ← node s c;
        if bool_decide (n_name n = name) then mret (prev, c) else find_prev fuel s c (n_next n) name
  end.

(** Takes the child [c] out of the list of [d]. *)
Definition unlink_child (s : tmpfs) (d prev c : Z) : res tmpfs :=
  x ← node s c;
  if negb (prev =? 0) then upd s prev (set_next (n_next x)) else upd s d (set_first (n_next x)).

Definition tmpfs_unlink_impl (s : tmpfs) (dir : Z) (name : cstr) : res (Z * tmpfs) :=
  if dir =? 0 then mret (- EINVAL, s)
  else
    n ← node s dir;
    if negb (n_flags n =? FS_DIRECTORY) then mret (- EINVAL, s)
    else
      '(prev, c) ← find_prev (walk_fuel s) s 0 (n_first n) name;
      if c =? 0 then mret (- ENOENT, s)
      else
        x ← node s c;
        if n_flags x =? FS_DIRECTORY then mret (- EISDIR, s)
        else
          s ← unlink_child s dir prev c;
          let s := match n_data x with Some _ => set_used (u64 (t_used s - n_cap x)) s | None => s end in
          s ← kfree_node s c;
          mret (0, s).

Definition tmpfs_rmdir_impl (s : tmpfs) (dir : Z) (name : cstr) : res (Z * tmpfs) :=
  if dir =? 0 then mret (- EINVAL, s)
  else
    n ← node s dir;
    if negb (n_flags n =? FS_DIRECTORY) then mret (- EINVAL, s)
    else
      '(prev, c) ← find_prev (walk_fuel s) s 0 (n_first n) name;
      if c =? 0 then mret (- ENOENT, s)
      else
        x ← node s c;
        if negb (n_flags x =? FS_DIRECTORY) then mret (- ENOTDIR, s)
        else if negb (n_first x =? 0) then mret (- ENOTEMPTY, s)
        else s ← unlink_child s dir prev c; s ← kfree_node s c; mret (0, s).

(** The result and [*out]. *)
Definition tmpfs_create_impl (s : tmpfs) (mem : list Z) (dir : Z) (name : cstr) (flags : Z) : res (Z * Z * tmpfs * list Z) :=
  if dir =? 0 then mret (- EINVAL, 0, s, mem)
  else
    n ← node s dir;
    if negb (n_flags n =? FS_DIRECTORY) then mret (- EINVAL, 0, s, mem)
    else
      existing ← tmpfs_child_find s dir name;
      if negb (existing =? 0) then mret (0, existing, s, mem)
      else if Z.land flags 64 =? 0 then mret (- ENOENT, 0, s, mem)
      else
        let '(f, s, mem) := tmpfs_node_alloc s mem name FS_FILE in
        if f =? 0 then mret (- ENOMEM, 0, s, mem)
        else s ← tmpfs_child_add s dir f; mret (0, f, s, mem).

Definition tmpfs_create_root (s : tmpfs) (mem : list Z) : Z * tmpfs * list Z := tmpfs_node_alloc s mem [] FS_DIRECTORY.

(** The root and the superblock, which stays null. *)
Definition tmpfs_mount (s : tmpfs) (mem : list Z) : Z * Z * tmpfs * list Z :=
  let '(root, s, mem) := tmpfs_create_root s mem in (root, 0, s, mem).

(** [while (child)] of [tmpfs_kill_sb] *)
Fixpoint kill_children (fuel : nat) (s : tmpfs) (child : Z) : res tmpfs :=
  match fuel with
  | O => NoFuel
  | S fuel =>
      if child =? 0 then mret s
      else
        n ← node s child;
        let s := match n_data n with Some _ => set_used (u64 (t_used s - n_cap n)) s | None => s end in
        s ← kfree_node s child;
        kill_children fuel s (n_next n)
  end.

Definition tmpfs_kill_sb (s : tmpfs) (root : Z) : res tmpfs :=
  if root =? 0 then mret s
  else r ← node s root; s ← kill_children (walk_fuel s) s (n_first r); kfree_node s root.

(** ** Files and directories made by the kernel *)

(** A new file [f] with [data]: its buffer, or the node is freed again. *)
Definition fill_file (s : tmpfs) (mem : list Z) (f : Z) (data : list Z) : res (bool * tmpfs * list Z) :=
  let len := Z.of_nat (length data) in
  if len =? 0 then mret (true, s, mem)
  else if TMPFS_GLOBAL_QUOTA <? u64 (t_used s + len) then s ← kfree_node s f; mret (false, s, mem)
  else
    let '(p, mem) := kmalloc mem in
    if p =? 0 then s ← kfree_node s f; mret (false, s, mem)
    else
      a ← put_bytes (arr_new len 0) 0 data;
      s ← upd s f (set_data (Some a) len len);
      mret (true, set_used (u64 (t_used s + len)) s, mem).

Definition tmpfs_add_file (s : tmpfs) (mem : list Z) (root_dir : Z) (name : cstr) (data : list Z) : res (Z * tmpfs * list Z) :=
  if root_dir =? 0 then mret (- ENOTDIR, s, mem)
  else
    r ← node s root_dir;
    if negb (n_flags r =? FS_DIRECTORY) then mret (- ENOTDIR, s, mem)
    else if bool_decide (name = []) then mret (- EINVAL, s, mem)
    else
      c ← tmpfs_child_find s root_dir name;
      if negb (c =? 0) then mret (- EEXIST, s, mem)
      else
        let '(f, s, mem) := tmpfs_node_alloc s mem name FS_FILE in
        if f =? 0 then mret (- ENOMEM, s, mem)
        else
          '(ok, s, mem) ← fill_file s mem f data;
          if negb ok then mret (- ENOMEM, s, mem)
          else s ← tmpfs_child_add s root_dir f; mret (0, s, mem).

(** [while (tmpfs_split_next(&p, part, sizeof(part)))] *)
Fixpoint mkdir_parts (fuel : nat) (s : tmpfs) (mem : list Z) (cur : Z) (p : cstr) : res (Z * tmpfs * list Z) :=
  match fuel with
  | O => NoFuel
  | S fuel =>
      match tmpfs_split_next p 128 with
      | None => mret (0, s, mem)
      | Some (part, p) =>
          '(next, s, mem) ← tmpfs_child_ensure_dir s mem cur part;
          if next =? 0 then mret (- ENOMEM, s, mem) else mkdir_parts fuel s mem next p
      end
  end.

Definition tmpfs_mkdir_p (s : tmpfs) (mem : list Z) (root_dir : Z) (path : cstr) : res (Z * tmpfs * list Z) :=
  if root_dir =? 0 then mret (- ENOTDIR, s, mem)
  else
    r ← node s root_dir;
    if negb (n_flags r =? FS_DIRECTORY) then mret (- ENOTDIR, s, mem)
    else mkdir_parts (S (length path)) s mem root_dir path.

(** The loop that makes the directories before the last part: the directory and the last
    part; directory 0 when one cannot be made, part [] when there is none. *)
Fixpoint leaf_parts (fuel : nat) (s : tmpfs) (mem : list Z) (cur : Z) (p : cstr) : res (Z * cstr * tmpfs * list Z) :=
  match fuel with
  | O => NoFuel
  | S fuel =>
      match tmpfs_split_next p 128 with
      | None => mret (cur, [], s, mem)
      | Some (part, p) =>
          if bool_decide (p = []) then mret (cur, part, s, mem)
          else
            '(next, s, mem) ← tmpfs_child_ensure_dir s mem cur part;
            if next =? 0 then mret (0, [], s, mem) else leaf_parts fuel s mem next p
      end
  end.

Definition tmpfs_create_file (s : tmpfs) (mem : list Z) (root_dir : Z) (path : cstr) (data : list Z) : res (Z * tmpfs * list Z) :=
  if root_dir =? 0 then mret (0, s, mem)
  else
    r ← node s root_dir;
    if negb (n_flags r =? FS_DIRECTORY) then mret (0, s, mem)
    else
      '(cur, leaf, s, mem) ← leaf_parts (S (length path)) s mem root_dir path;
      if cur =? 0 then mret (0, s, mem)
      else if bool_decide (leaf = []) then mret (0, s, mem)
      else
        existing ← tmpfs_child_find s cur leaf;
        if negb (existing =? 0) then
          n ← node s existing;
          if negb (n_flags n =? FS_FILE) then mret (0, s, mem)
          else if bool_decide (data = []) then mret (existing, s, mem)
          else
            let '(buf, mem) := kmalloc mem in
            if buf =? 0 then mret (0, s, mem)
            else '(_, s, mem) ← tmpfs_write_impl s mem existing 0 data; mret (existing, s, mem)
        else
          let '(f, s, mem) := tmpfs_node_alloc s mem leaf FS_FILE in
          if f =? 0 then mret (0, s, mem)
          else
            '(ok, s, mem) ← fill_file s mem f data;
            if negb ok then mret (0, s, mem)
            else s ← tmpfs_child_add s cur f; mret (f, s, mem).

Definition tmpfs_create_symlink (s : tmpfs) (mem : list Z) (root_dir : Z) (link_path target : cstr) : res (Z * tmpfs * list Z) :=
  if root_dir =? 0 then mret (- ENOTDIR, s, mem)
  else
    r ← node s root_dir;
    if negb (n_flags r =? FS_DIRECTORY) then mret (- ENOTDIR, s, mem)
    else
      '(cur, leaf, s, mem) ← leaf_parts (S (length link_path)) s mem root_dir link_path;
      if cur =? 0 then mret (- ENOMEM, s, mem)
      else if bool_decide (leaf = []) then mret (- EINVAL, s, mem)
      else
        c ← tmpfs_child_find s cur leaf;
        if negb (c =? 0) then mret (- EEXIST, s, mem)
        else
          let '(ln, s, mem) := tmpfs_node_alloc s mem leaf FS_SYMLINK in
          if ln =? 0 then mret (- ENOMEM, s, mem)
          else
            s ← upd s ln (set_target (strtrunc 128 target) (Z.of_nat (length target)));
            s ← tmpfs_child_add s cur ln;
            mret (0, s, mem).
