(* ===== verification/TmpfsSpec.v ===== *)
(** What the file system in memory promises: a tree of files, links and directories.

    [atree] is the abstract state: the bytes of each file, the target of each link and
    the entries of each directory, the newest first.  [aexec] gives the answer and the
    new tree for each operation of src/kernel/tmpfs.c; the only thing it does not decide
    itself is whether there was room for the bytes of a file. *)

From S2P Require Import Prelude Tmpfs.

Inductive akind : Type :=
| AFile (bytes : list Z)
| ADir (entries : list (cstr * Z))
| ALink (target : cstr).

(** A node has an inode number and the directory that holds it, 0 for a root. *)
Record anode : Type := ANode { a_ino : Z; a_up : Z; a_kind : akind }.
Record atree : Type := ATree { a_nodes : gmap Z anode; a_next : Z }.

Definition a_get (A : atree) (p : Z) : option akind := a_kind <$> a_nodes A !! p.
Definition a_put (A : atree) (p : Z) (k : akind) : atree :=
  ATree (alter (fun x => ANode (a_ino x) (a_up x) k) p (a_nodes A)) (a_next A).
Definition a_del (A : atree) (p : Z) : atree := ATree (delete p (a_nodes A)) (a_next A).

(** The node with a name among the entries of a directory, 0 when there is none. *)
Fixpoint a_find (l : list (cstr * Z)) (name : cstr) : Z :=
  match l with
  | [] => 0
  | (nm, c) :: l => if bool_decide (nm = name) then c else a_find l name
  end.

Definition a_without (name : cstr) (l : list (cstr * Z)) : list (cstr * Z) := filter (fun e => e.1 <> name) l.

(** A new node that no directory holds yet. *)
Definition a_new (A : atree) (p : Z) (k : akind) : atree :=
  ATree (<[p := ANode (a_next A) 0 k]> (a_nodes A)) (u32 (a_next A + 1)).

(** The node [p] becomes the newest entry of the directory [dir]. *)
Definition a_attach (A : atree) (dir : Z) (name : cstr) (p : Z) : atree :=
  match a_get A dir with
  | Some (ADir l) =>
      a_put (ATree (alter (fun x => ANode (a_ino x) dir (a_kind x)) p (a_nodes A)) (a_next A)) dir (ADir ((name, p) :: l))
  | _ => A
  end.

(** An entry leaves its directory, and its node is freed. *)
Definition a_remove (A : atree) (dir : Z) (l : list (cstr * Z)) (name : cstr) : atree :=
  a_del (a_put A dir (ADir (a_without name l))) (a_find l name).

(** ** The operations *)

(** The bytes of a file after [buf] is written at [off]; a gap reads as zeros. *)
Definition splice (b : list Z) (off : Z) (buf : list Z) : list Z :=
  let o := Z.to_nat off in
  take o b ++ replicate (o - length b) 0 ++ buf ++ drop (o + length buf) b.

Definition a_read (A : atree) (nd off size : Z) : list Z :=
  match a_get A nd with
  | Some (AFile b) => take (Z.to_nat size) (drop (Z.to_nat off) b)
  | _ => []
  end.

Definition a_write (room : bool) (A : atree) (nd off : Z) (buf : list Z) : Z * atree :=
  match a_get A nd with
  | Some (AFile b) =>
      if room && (off + Z.of_nat (length buf) <=? 4294967295) then (Z.of_nat (length buf), a_put A nd (AFile (splice b off buf)))
      else (0, A)
  | _ => (0, A)
  end.

Definition kind_flags (k : akind) : Z :=
  match k with AFile _ => FS_FILE | ADir _ => FS_DIRECTORY | ALink _ => FS_SYMLINK end.

Definition a_inode (A : atree) (p : Z) : Z := match a_nodes A !! p with Some x => a_ino x | None => 0 end.

(** The listing of a directory: itself, the directory that holds it, its entries. *)
Definition a_listing (A : atree) (nd : Z) (x : anode) (l : list (cstr * Z)) : list vfs_dirent :=
  Dirent (a_ino x) 32 FS_DIRECTORY [46]
  :: Dirent (if a_up x =? 0 then a_ino x else a_inode A (a_up x)) 32 FS_DIRECTORY [46; 46]
  :: ((fun e : cstr * Z => Dirent (a_inode A e.2) 32 (match a_get A e.2 with Some k => kind_flags k | None => 0 end) (take 23 e.1)) <$> l).

Definition a_readdir (A : atree) (nd idx buf_len : Z) : Z * list vfs_dirent * Z :=
  match a_nodes A !! nd with
  | Some x =>
      match a_kind x with
      | ADir l =>
          if buf_len <? 32 then (-1, [], idx)
          else
            let got := take (Z.to_nat (buf_len / 32)) (drop (Z.to_nat idx) (a_listing A nd x l)) in
            (32 * Z.of_nat (length got), got, idx + Z.of_nat (length got))
      | _ => (-1, [], idx)
      end
  | None => (-1, [], idx)
  end.

(** A new child of [dir]: 0 when there is no memory. *)
Definition a_child (A : atree) (mem : list Z) (dir : Z) (name : cstr) (k : akind) : Z * atree * list Z :=
  let '(p, mem) := kmalloc mem in
  if p =? 0 then (0, A, mem) else (p, a_attach (a_new A p k) dir name p, mem).

Definition a_mkdir (A : atree) (mem : list Z) (dir : Z) (name : cstr) : Z * atree :=
  match a_get A dir with
  | Some (ADir l) =>
      if negb (a_find l name =? 0) then (- EEXIST, A)
      else
        let '(p, A, _) := a_child A mem dir name (ADir []) in
        (if p =? 0 then - ENOMEM else 0, A)
  | _ => (- EINVAL, A)
  end.

Definition a_unlink (A : atree) (dir : Z) (name : cstr) : Z * atree :=
  match a_get A dir with
  | Some (ADir l) =>
      match a_get A (a_find l name) with
      | None => (- ENOENT, A)
      | Some (ADir _) => (- EISDIR, A)
      | Some _ => (0, a_remove A dir l name)
      end
  | _ => (- EINVAL, A)
  end.

Definition a_rmdir (A : atree) (dir : Z) (name : cstr) : Z * atree :=
  match a_get A dir with
  | Some (ADir l) =>
      match a_get A (a_find l name) with
      | None => (- ENOENT, A)
      | Some (ADir []) => (0, a_remove A dir l name)
      | Some (ADir _) => (- ENOTEMPTY, A)
      | Some _ => (- ENOTDIR, A)
      end
  | _ => (- EINVAL, A)
  end.

Definition a_create (A : atree) (mem : list Z) (dir : Z) (name : cstr) (flags : Z) : Z * Z * atree :=
  match a_get A dir with
  | Some (ADir l) =>
      if negb (a_find l name =? 0) then (0, a_find l name, A)
      else if Z.land flags 64 =? 0 then (- ENOENT, 0, A)
      else
        let '(p, A, _) := a_child A mem dir name (AFile []) in
        (if p =? 0 then - ENOMEM else 0, p, A)
  | _ => (- EINVAL, 0, A)
  end.

(** A new file with [data], in a directory where its name is free.  Without room for
    [data] its node is freed again, but its inode number is used up. *)
Definition a_file (room : bool) (A : atree) (mem : list Z) (dir : Z) (name : cstr) (data : list Z) : Z * atree :=
  let '(p, _) := kmalloc mem in
  if p =? 0 then (0, A)
  else if room || bool_decide (data = []) then (p, a_attach (a_new A p (AFile data)) dir name p)
  else (0, a_del (a_new A p (AFile [])) p).

Definition a_add_file (room : bool) (A : atree) (mem : list Z) (dir : Z) (name : cstr) (data : list Z) : Z * atree :=
  match a_get A dir with
  | Some (ADir l) =>
      if bool_decide (name = []) then (- EINVAL, A)
      else if negb (a_find l name =? 0) then (- EEXIST, A)
      else let '(p, A) := a_file room A mem dir name data in (if p =? 0 then - ENOMEM else 0, A)
  | _ => (- ENOTDIR, A)
  end.

(** ** Paths *)

(** The parts of a path: what is between slashes, without the empty ones. *)
Fixpoint split_slash (p : cstr) : list cstr :=
  match p with
  | [] => [[]]
  | c :: p =>
      if c =? SLASH then [] :: split_slash p
      else match split_slash p with [] => [[c]] | a :: l => (c :: a) :: l end
  end.

Definition parts (p : cstr) : list cstr := take 127 <$> filter (fun a => a <> []) (split_slash p).

(** The directory [name] in [dir], made when it is missing; 0 when that is impossible. *)
Definition a_ensure (A : atree) (mem : list Z) (dir : Z) (name : cstr) : Z * atree * list Z :=
  match a_get A dir with
  | Some (ADir l) =>
      match a_get A (a_find l name) with
      | Some (ADir _) => (a_find l name, A, mem)
      | Some _ => (0, A, mem)
      | None => a_child A mem dir name (ADir [])
      end
  | _ => (0, A, mem)
  end.

Fixpoint a_ensure_all (A : atree) (mem : list Z) (dir : Z) (ps : list cstr) : Z * atree * list Z :=
  match ps with
  | [] => (dir, A, mem)
  | name :: ps =>
      let '(d, A, mem) := a_ensure A mem dir name in
      if d =? 0 then (0, A, mem) else a_ensure_all A mem d ps
  end.

Definition a_mkdir_p (A : atree) (mem : list Z) (root : Z) (path : cstr) : Z * atree :=
  match a_get A root with
  | Some (ADir _) =>
      let '(d, A, _) := a_ensure_all A mem root (parts path) in
      (if d =? 0 then - ENOMEM else 0, A)
  | _ => (- ENOTDIR, A)
  end.

Definition a_create_file (room : bool) (A : atree) (mem : list Z) (root : Z) (path : cstr) (data : list Z) : Z * atree :=
  match a_get A root, last (parts path) with
  | Some (ADir _), None => (0, A)
  | Some (ADir _), Some leaf =>
      let '(d, A, mem) := a_ensure_all A mem root (removelast (parts path)) in
      match a_get A d with
      | Some (ADir l) =>
          match a_get A (a_find l leaf) with
          | Some (AFile b) =>
              if bool_decide (data = []) then (a_find l leaf, A)
              else
                let '(buf, mem) := kmalloc mem in
                if buf =? 0 then (0, A) else (a_find l leaf, (a_write room A (a_find l leaf) 0 data).2)
          | Some _ => (0, A)
          | None => a_file room A mem d leaf data
          end
      | _ => (0, A)
      end
  | _, _ => (0, A)
  end.

Definition a_create_symlink (A : atree) (mem : list Z) (root : Z) (path target : cstr) : Z * atree :=
  match a_get A root, last (parts path) with
  | Some (ADir _), None => (- EINVAL, A)
  | Some (ADir _), Some leaf =>
      let '(d, A, mem) := a_ensure_all A mem root (removelast (parts path)) in
      match a_get A d with
      | Some (ADir l) =>
          if negb (a_find l leaf =? 0) then (- EEXIST, A)
          else
            let '(p, A, _) := a_child A mem d leaf (ALink (take 127 target)) in
            (if p =? 0 then - ENOMEM else 0, A)
      | _ => (- ENOMEM, A)
      end
  | _, _ => (- ENOTDIR, A)
  end.

(** ** All operations together *)

Inductive top : Type :=
| TRead (nd off size : Z)
| TWrite (nd off : Z) (buf : list Z)
| TFind (nd : Z) (name : cstr)
| TReaddir (nd idx buf_len : Z)
| TMkdir (dir : Z) (name : cstr)
| TUnlink (dir : Z) (name : cstr)
| TRmdir (dir : Z) (name : cstr)
| TCreate (dir : Z) (name : cstr) (flags : Z)
| TAddFile (dir : Z) (name : cstr) (data : list Z)
| TMkdirP (root : Z) (path : cstr)
| TCreateFile (root : Z) (path : cstr) (data : list Z)
| TSymlink (root : Z) (path target : cstr).

Inductive tout : Type :=
| RInt (r : Z)
| RBytes (l : list Z)
| RList (r : Z) (l : list vfs_dirent) (idx : Z)
| RNode (r p : Z).

Definition aexec (room : bool) (A : atree) (mem : list Z) (o : top) : tout * atree :=
  match o with
  | TRead nd off size => (RBytes (a_read A nd off size), A)
  | TWrite nd off buf => let '(r, A) := a_write room A nd off buf in (RInt r, A)
  | TFind nd name => (RInt (match a_get A nd with Some (ADir l) => a_find l name | _ => 0 end), A)
  | TReaddir nd idx len => let '(r, l, i) := a_readdir A nd idx len in (RList r l i, A)
  | TMkdir dir name => let '(r, A) := a_mkdir A mem dir name in (RInt r, A)
  | TUnlink dir name => let '(r, A) := a_unlink A dir name in (RInt r, A)
  | TRmdir dir name => let '(r, A) := a_rmdir A dir name in (RInt r, A)
  | TCreate dir name flags => let '(r, p, A) := a_create A mem dir name flags in (RNode r p, A)
  | TAddFile dir name data => let '(r, A) := a_add_file room A mem dir name data in (RInt r, A)
  | TMkdirP root path => let '(r, A) := a_mkdir_p A mem root path in (RInt r, A)
  | TCreateFile root path data => let '(p, A) := a_create_file room A mem root path data in (RInt p, A)
  | TSymlink root path target => let '(r, A) := a_create_symlink A mem root path target in (RInt r, A)
  end.

(** The same operations on the nodes in memory. *)
Definition texec (s : tmpfs) (mem : list Z) (o : top) : res (tout * tmpfs) :=
  match o with
  | TRead nd off size => l ← tmpfs_read_impl s nd off size; mret (RBytes l, s)
  | TWrite nd off buf => '(r, s, _) ← tmpfs_write_impl s mem nd off buf; mret (RInt r, s)
  | TFind nd name => c ← tmpfs_finddir_impl s nd name; mret (RInt c, s)
  | TReaddir nd idx len => '(r, l, i) ← tmpfs_readdir_impl s nd idx len; mret (RList r l i, s)
  | TMkdir dir name => '(r, s, _) ← tmpfs_mkdir_impl s mem dir name; mret (RInt r, s)
  | TUnlink dir name => '(r, s) ← tmpfs_unlink_impl s dir name; mret (RInt r, s)
  | TRmdir dir name => '(r, s) ← tmpfs_rmdir_impl s dir name; mret (RInt r, s)
  | TCreate dir name flags => '(r, p, s, _) ← tmpfs_create_impl s mem dir name flags; mret (RNode r p, s)
  | TAddFile dir name data => '(r, s, _) ← tmpfs_add_file s mem dir name data; mret (RInt r, s)
  | TMkdirP root path => '(r, s, _) ← tmpfs_mkdir_p s mem root path; mret (RInt r, s)
  | TCreateFile root path data => '(p, s, _) ← tmpfs_create_file s mem root path data; mret (RInt p, s)
  | TSymlink root path target => '(r, s, _) ← tmpfs_create_symlink s mem root path target; mret (RInt r, s)
  end.
