(* ===== verification/TmpfsInv.v ===== *)
(** How the nodes in memory show a tree: the representation of [atree] by the pointers
    and buffers of src/kernel/tmpfs.c, the walks along the children of a directory, and
    the updates (putting, making, attaching and removing nodes) that keep [tree_ok]. *)

From S2P Require Import Prelude Tmpfs TmpfsSpec.

(** ** The tree *)

(** Every node but the roots is the entry of exactly one directory, under one name, and
    nodes lie strictly below the directory that holds them. *)
Definition a_parent (A : atree) (p : Z) : option Z := a_up <$> a_nodes A !! p.

Record tree_ok (A : atree) : Prop := TreeOk {
  ok_null : a_get A 0 = None;
  ok_entry : forall d l nm c, a_get A d = Some (ADir l) -> (nm, c) ∈ l -> a_parent A c = Some d;
  ok_up : forall c d, a_parent A c = Some d -> d <> 0 -> exists l nm, a_get A d = Some (ADir l) /\ (nm, c) ∈ l;
  ok_names : forall d l, a_get A d = Some (ADir l) -> NoDup l.*1;
  ok_nodes : forall d l, a_get A d = Some (ADir l) -> NoDup l.*2;
  ok_rank : exists rank : Z -> nat, forall c d, a_parent A c = Some d -> d <> 0 -> (rank d < rank c)%nat
}.

(** ** The representation *)

(** The children from [c] on. *)
Fixpoint chain (m : gmap Z tnode) (c : Z) (l : list (cstr * Z)) : Prop :=
  match l with
  | [] => c = 0
  | (nm, k) :: l => c = k /\ k <> 0 /\ exists n, m !! k = Some n /\ n_name n = nm /\ chain m (n_next n) l
  end.

(** A file has a buffer of [cap] bytes: its contents and zeros. *)
Definition file_ok (b : list Z) (n : tnode) : Prop :=
  n_length n = Z.of_nat (length b) /\
  match n_data n with
  | None => b = [] /\ n_cap n = 0
  | Some a =>
      arr_len a = n_cap n /\ 0 < n_cap n /\ Z.of_nat (length b) <= n_cap n /\
      forall i, 0 <= i < n_cap n -> arr_at a i = default 0 (b !! Z.to_nat i)
  end.

Definition shows_kind (m : gmap Z tnode) (n : tnode) (k : akind) : Prop :=
  n_flags n = kind_flags k /\
  match k with
  | AFile b => file_ok b n
  | ADir l => chain m (n_first n) l /\ n_data n = None /\ n_cap n = 0
  | ALink t => n_target n = t /\ n_data n = None /\ n_cap n = 0
  end.

Definition shows_node (m : gmap Z tnode) (n : tnode) (x : anode) : Prop :=
  n_inode n = a_ino x /\ n_parent n = a_up x /\ shows_kind m n (a_kind x).

(** The bytes in the buffers of all files. *)
Definition caps (m : gmap Z tnode) : Z := map_fold (fun _ n z => n_cap n + z) 0 m.

Record shows (A : atree) (s : tmpfs) : Prop := Shows {
  sh_tree : tree_ok A;
  sh_dom : forall p, is_Some (t_nodes s !! p) <-> is_Some (a_nodes A !! p);
  sh_node : forall p n x, t_nodes s !! p = Some n -> a_nodes A !! p = Some x -> shows_node (t_nodes s) n x;
  sh_inode : t_inode s = a_next A;
  sh_used : t_used s = caps (t_nodes s);
  sh_quota : t_used s <= TMPFS_GLOBAL_QUOTA
}.

(** The answers of [kmalloc] are addresses no node has. *)
Definition fresh (A : atree) (mem : list Z) : Prop :=
  NoDup (filter (fun p => p <> 0) mem) /\ forall p, p ∈ mem -> p <> 0 -> a_nodes A !! p = None.

(** ** The sum of the buffers *)

Lemma caps_insert m p n : m !! p = None -> caps (<[p := n]> m) = n_cap n + caps m.
Proof. intros H. unfold caps. apply (map_fold_insert_L (fun _ n z => n_cap n + z)); [intros; lia | done]. Qed.

Lemma caps_delete m p n : m !! p = Some n -> caps m = n_cap n + caps (delete p m).
Proof. intros H. rewrite <- (insert_delete_id m p n H) at 1. apply caps_insert, lookup_delete_eq. Qed.

Lemma caps_update m p n n' : m !! p = Some n -> caps (<[p := n']> m) = caps m - n_cap n + n_cap n'.
Proof.
  intros H. rewrite <- insert_delete_eq, caps_insert by apply lookup_delete_eq.
  rewrite (caps_delete m p n) by done. lia.
Qed.

Lemma caps_nonneg m : (forall p n, m !! p = Some n -> 0 <= n_cap n) -> 0 <= caps m.
Proof.
  induction m as [|p n m Hp IH] using map_ind; intros H; [unfold caps; rewrite map_fold_empty; lia|].
  rewrite caps_insert by done.
  assert (0 <= n_cap n) by (apply (H p), lookup_insert_eq).
  assert (0 <= caps m); [|lia]. apply IH. intros q x Hq. apply (H q). rewrite lookup_insert_ne; congruence.
Qed.

(** ** Reading the representation *)

Section views.
Context {A : atree} {s : tmpfs} (Hs : shows A s).

Lemma shows_some p x : a_nodes A !! p = Some x -> exists n, t_nodes s !! p = Some n /\ shows_node (t_nodes s) n x.
Proof using Hs.
  intros H. destruct (proj2 (sh_dom _ _ Hs p)) as [n Hn]; [eauto|].
  exists n. split; [done|]. by apply (sh_node _ _ Hs p).
Qed.

Lemma shows_none p : a_nodes A !! p = None -> t_nodes s !! p = None.
Proof using Hs. rewrite !eq_None_not_Some. rewrite (sh_dom _ _ Hs). auto. Qed.

Lemma shows_get p k : a_get A p = Some k -> exists n, t_nodes s !! p = Some n /\ shows_kind (t_nodes s) n k.
Proof using Hs.
  unfold a_get. destruct (a_nodes A !! p) as [x|] eqn:Hx; [|done]. intros [= <-].
  destruct (shows_some p x Hx) as (n & Hn & _ & _ & Hk). eauto.
Qed.

Lemma shows_cap p n : t_nodes s !! p = Some n -> 0 <= n_cap n.
Proof using Hs.
  intros Hn. destruct (proj1 (sh_dom _ _ Hs p)) as [x Hx]; [eauto|].
  destruct (sh_node _ _ Hs _ _ _ Hn Hx) as (_ & _ & _ & Hk).
  destruct (a_kind x); [|lia..]. destruct Hk as [_ Hk]. destruct (n_data n) as [a|].
  - destruct Hk as (_ & H & _). lia.
  - destruct Hk as [_ H]. lia.
Qed.

Lemma shows_cap_used p n : t_nodes s !! p = Some n -> n_cap n <= t_used s.
Proof using Hs.
  intros Hn. rewrite (sh_used _ _ Hs), (caps_delete _ _ _ Hn).
  assert (0 <= caps (delete p (t_nodes s))); [|lia].
  apply caps_nonneg. intros q x Hq. apply lookup_delete_Some in Hq as [_ Hq]. by apply (shows_cap q).
Qed.

Lemma shows_used : 0 <= t_used s <= TMPFS_GLOBAL_QUOTA.
Proof using Hs.
  split; [|apply (sh_quota _ _ Hs)]. rewrite (sh_used _ _ Hs). apply caps_nonneg. apply shows_cap.
Qed.
End views.

Lemma node_ok s p n : t_nodes s !! p = Some n -> node s p = Ok n.
Proof. intros H. unfold node. by rewrite H. Qed.

Lemma live_nonnull A p k : tree_ok A -> a_get A p = Some k -> p <> 0.
Proof. intros H Hp ->. by rewrite (ok_null _ H) in Hp. Qed.

Lemma a_get_none A p : a_get A p = None <-> a_nodes A !! p = None.
Proof. unfold a_get. by destruct (a_nodes A !! p). Qed.

Lemma a_get_some A p x : a_nodes A !! p = Some x -> a_get A p = Some (a_kind x).
Proof. intros H. unfold a_get. by rewrite H. Qed.

(** ** Entries *)

Lemma a_find_none l nm : (forall c, (nm, c) ∉ l) -> a_find l nm = 0.
Proof.
  induction l as [|[q c] l IH]; intros H; simpl; [done|].
  case_bool_decide as E; [subst; destruct (H c); left|]. apply IH. intros k Hk. apply (H k). by right.
Qed.

Lemma a_find_in l nm : a_find l nm <> 0 -> (nm, a_find l nm) ∈ l.
Proof.
  induction l as [|[q c] l IH]; simpl; [done|].
  case_bool_decide as E; [subst; left|right; auto].
Qed.

Lemma a_find_split l nm : a_find l nm <> 0 ->
  exists l1 l2, l = l1 ++ (nm, a_find l nm) :: l2 /\ nm ∉ l1.*1.
Proof.
  induction l as [|[q c] l IH]; simpl; [done|].
  case_bool_decide as E; intros H.
  - subst. exists [], l. split; [done|]. apply not_elem_of_nil.
  - destruct (IH H) as (l1 & l2 & He & Hn). exists ((q, c) :: l1), l2. rewrite He at 1. split; [done|].
    simpl. rewrite elem_of_cons. intros [->|]; done.
Qed.

Lemma a_find_app l1 l2 nm : nm ∉ l1.*1 -> a_find (l1 ++ l2) nm = a_find l2 nm.
Proof.
  induction l1 as [|[q c] l1 IH]; simpl; intros H; [done|].
  rewrite elem_of_cons in H. rewrite bool_decide_eq_false_2 by (intros ->; tauto). apply IH. tauto.
Qed.

Lemma a_without_split l1 nm k l2 :
  NoDup (l1 ++ (nm, k) :: l2).*1 -> a_without nm (l1 ++ (nm, k) :: l2) = l1 ++ l2.
Proof.
  intros H. unfold a_without. rewrite filter_app, filter_cons_False by (simpl; tauto).
  rewrite fmap_app in H. apply NoDup_app in H as (_ & H1 & H2). simpl in H2. apply NoDup_cons in H2 as [H2 _].
  f_equal; apply filter_all; intros [q c] Hin Hq; simpl in Hq; subst.
  - apply (H1 nm); [|left]. by apply (list_elem_of_fmap_2 fst l1 (nm, c)).
  - apply H2. by apply (list_elem_of_fmap_2 fst l2 (nm, c)).
Qed.

Lemma entry_live A d l nm c : tree_ok A -> a_get A d = Some (ADir l) -> (nm, c) ∈ l ->
  exists x, a_nodes A !! c = Some x /\ a_up x = d.
Proof.
  intros HA Hd Hin. pose proof (ok_entry _ HA _ _ _ _ Hd Hin) as H.
  unfold a_parent in H. destruct (a_nodes A !! c) as [x|]; [|done]. simpl in H. exists x. split; congruence.
Qed.

(** ** Walks *)

Lemma chain_frame m m' c l :
  (forall k n, k ∈ l.*2 -> m !! k = Some n -> exists n', m' !! k = Some n' /\ n_name n' = n_name n /\ n_next n' = n_next n) ->
  chain m c l -> chain m' c l.
Proof.
  revert c. induction l as [|[nm k] l IH]; simpl; intros c H; [done|].
  intros (-> & Hk & n & Hn & Hnm & Hc). split; [done|]. split; [done|].
  destruct (H k n) as (n' & Hn' & E1 & E2); [left | done |]. exists n'. rewrite E1, E2. split; [done|]. split; [done|].
  apply IH; [|done]. intros q x Hq. apply H. by right.
Qed.

Lemma chain_length m c l : NoDup l.*2 -> chain m c l -> (length l <= size m)%nat.
Proof.
  intros Hnd Hc. rewrite <- (length_fmap snd l).
  assert (list_to_set (C:=gset Z) l.*2 ⊆ dom m) as Hsub.
  { clear Hnd. revert c Hc. induction l as [|[nm k] l IH]; simpl; intros c Hc; [set_solver|].
    destruct Hc as (_ & _ & n & Hn & _ & Hc). apply IH in Hc. apply elem_of_dom_2 in Hn. set_solver. }
  apply subseteq_size in Hsub. rewrite size_list_to_set, size_dom in Hsub by done. lia.
Qed.

Lemma chain_name m c l nm k n : chain m c l -> (nm, k) ∈ l -> m !! k = Some n -> n_name n = nm.
Proof.
  revert c. induction l as [|[e x] l IH]; intros c Hc Hin Hn; [by apply not_elem_of_nil in Hin|].
  destruct Hc as (_ & _ & y & Hy & He & Hc). apply elem_of_cons in Hin as [[= -> ->]|Hin]; [congruence|]. by apply (IH (n_next y)).
Qed.

Lemma find_from_ok s fuel c l name : (length l < fuel)%nat -> chain (t_nodes s) c l ->
  find_from fuel s c name = Ok (a_find l name).
Proof.
  revert fuel c. induction l as [|[nm k] l IH]; intros fuel c Hf Hc; destruct fuel; simpl in *; try lia.
  - by subst.
  - destruct Hc as (-> & Hk & n & Hn & <- & Hc). rewrite (proj2 (Z.eqb_neq k 0)) by done.
    rewrite (node_ok _ _ _ Hn). rewrite res_bind_ok. case_bool_decide; [done|]. apply IH; [lia | done].
Qed.

Lemma skip_children_ok s fuel c l skip : (length l < fuel)%nat -> 0 <= skip -> chain (t_nodes s) c l ->
  skip_children fuel s c skip = Ok (match l !! Z.to_nat skip with Some e => e.2 | None => 0 end).
Proof.
  revert fuel c skip. induction l as [|[nm k] l IH]; intros fuel c skip Hf Hs Hc; destruct fuel; simpl in *; try lia.
  - by subst.
  - destruct Hc as (-> & Hk & n & Hn & <- & Hc). rewrite (proj2 (Z.eqb_neq k 0)) by done. simpl.
    destruct (Z.ltb_spec 0 skip); simpl.
    + rewrite (node_ok _ _ _ Hn), res_bind_ok, IH by (done || lia).
      replace (Z.to_nat skip) with (S (Z.to_nat (skip - 1))) by lia. done.
    + by replace skip with 0 by lia.
Qed.

(** The last child before the others, or [prev]. *)
Definition before (prev : Z) (l : list (cstr * Z)) : Z := match last l with Some e => e.2 | None => prev end.

Lemma before_cons prev e l : before prev (e :: l) = before e.2 l.
Proof. unfold before. rewrite last_cons. by destruct (last l). Qed.

Lemma find_prev_ok s fuel prev c l1 l2 name : (length l1 < fuel)%nat -> name ∉ l1.*1 ->
  chain (t_nodes s) c (l1 ++ l2) -> (l2 = [] \/ exists k r, l2 = (name, k) :: r) ->
  find_prev fuel s prev c name = Ok (before prev l1, a_find l2 name).
Proof.
  revert fuel prev c. induction l1 as [|[nm k] l1 IH]; intros fuel prev c Hf Hn Hc Hl; destruct fuel; simpl in *; try lia.
  - destruct Hl as [->|(k & r & ->)]; simpl in *; [by subst|].
    destruct Hc as (-> & Hk & n & Hn' & Hnm & _). rewrite (proj2 (Z.eqb_neq k 0)) by done.
    rewrite (node_ok _ _ _ Hn'), res_bind_ok, !bool_decide_eq_true_2 by done. done.
  - destruct Hc as (-> & Hk & n & Hn' & <- & Hc). rewrite elem_of_cons in Hn.
    rewrite (proj2 (Z.eqb_neq k 0)) by done. rewrite (node_ok _ _ _ Hn'), res_bind_ok.
    rewrite bool_decide_eq_false_2 by (intros E; apply Hn; left; congruence). rewrite before_cons. apply IH; (lia || tauto || done).
Qed.

(** A node without entries. *)
Definition childless (k : akind) : Prop := match k with ADir l => l = [] | _ => True end.

(** ** What each update changes *)

Section lookups.
Implicit Types (A : atree) (p q : Z) (k : akind).

Lemma get_put A p k q : a_get (a_put A p k) q = if decide (p = q) then (fun _ => k) <$> a_get A p else a_get A q.
Proof.
  unfold a_get, a_put. simpl. destruct (decide (p = q)) as [->|].
  - rewrite lookup_alter_eq. by destruct (a_nodes A !! q).
  - by rewrite lookup_alter_ne.
Qed.

Lemma parent_put A p k q : a_parent (a_put A p k) q = a_parent A q.
Proof.
  unfold a_parent, a_put. simpl. destruct (decide (p = q)) as [->|].
  - rewrite lookup_alter_eq. by destruct (a_nodes A !! q).
  - by rewrite lookup_alter_ne.
Qed.

Lemma get_new A p k q : a_get (a_new A p k) q = if decide (p = q) then Some k else a_get A q.
Proof. unfold a_get, a_new. simpl. case_decide; subst; [by rewrite lookup_insert_eq | by rewrite lookup_insert_ne]. Qed.

Lemma parent_new A p k q : a_parent (a_new A p k) q = if decide (p = q) then Some 0 else a_parent A q.
Proof. unfold a_parent, a_new. simpl. case_decide; subst; [by rewrite lookup_insert_eq | by rewrite lookup_insert_ne]. Qed.

Lemma get_del A p q : a_get (a_del A p) q = if decide (p = q) then None else a_get A q.
Proof. unfold a_get, a_del. simpl. case_decide; subst; [by rewrite lookup_delete_eq | by rewrite lookup_delete_ne]. Qed.

Lemma parent_del A p q : a_parent (a_del A p) q = if decide (p = q) then None else a_parent A q.
Proof. unfold a_parent, a_del. simpl. case_decide; subst; [by rewrite lookup_delete_eq | by rewrite lookup_delete_ne]. Qed.

Lemma parent_live A p d : a_parent A p = Some d -> exists k, a_get A p = Some k.
Proof. unfold a_parent, a_get. destruct (a_nodes A !! p); [eauto | done]. Qed.

Lemma get_attach A dir name p l q : a_get A dir = Some (ADir l) ->
  a_get (a_attach A dir name p) q = if decide (dir = q) then Some (ADir ((name, p) :: l)) else a_get A q.
Proof.
  intros Hd. unfold a_attach. rewrite Hd, get_put.
  assert (forall q, a_get (ATree (alter (fun x => ANode (a_ino x) dir (a_kind x)) p (a_nodes A)) (a_next A)) q = a_get A q) as E.
  { intros r. unfold a_get. simpl. destruct (decide (p = r)) as [->|].
    - rewrite lookup_alter_eq. by destruct (a_nodes A !! r).
    - by rewrite lookup_alter_ne. }
  rewrite !E, Hd. done.
Qed.

Lemma parent_attach A dir name p l q : a_get A dir = Some (ADir l) ->
  a_parent (a_attach A dir name p) q = if decide (p = q) then (fun _ => dir) <$> a_parent A p else a_parent A q.
Proof.
  intros Hd. unfold a_attach. rewrite Hd, parent_put. unfold a_parent. simpl.
  destruct (decide (p = q)) as [->|].
  - rewrite lookup_alter_eq. by destruct (a_nodes A !! q).
  - by rewrite lookup_alter_ne.
Qed.

Lemma get_remove A dir l name q : a_get A dir = Some (ADir l) ->
  a_get (a_remove A dir l name) q =
    if decide (a_find l name = q) then None else if decide (dir = q) then Some (ADir (a_without name l)) else a_get A q.
Proof. intros Hd. unfold a_remove. rewrite get_del, get_put, Hd. done. Qed.

Lemma parent_remove A dir l name q :
  a_parent (a_remove A dir l name) q = if decide (a_find l name = q) then None else a_parent A q.
Proof. unfold a_remove. by rewrite parent_del, parent_put. Qed.
End lookups.

(** ** The tree stays a tree *)

Section trees.
Context {A : atree} (HA : tree_ok A).

Lemma entry_nonnull d l nm c : a_get A d = Some (ADir l) -> (nm, c) ∈ l -> c <> 0.
Proof using HA.
  intros Hd Hin. pose proof (ok_entry _ HA _ _ _ _ Hd Hin) as H. apply parent_live in H as [k H].
  by apply (live_nonnull A c k).
Qed.

Lemma find_zero d l nm : a_get A d = Some (ADir l) -> a_find l nm = 0 -> nm ∉ l.*1.
Proof using HA.
  intros Hd Hf Hin. apply list_elem_of_fmap in Hin as ([q c] & -> & Hin). simpl in Hf.
  assert (a_find l q <> 0); [|done]. clear Hf.
  pose proof (fun e => entry_nonnull d l e) as Hnz. specialize (fun e c => Hnz e c Hd).
  clear Hd. induction l as [|[r k] l IH]; simpl; [by apply not_elem_of_nil in Hin|].
  case_bool_decide as E; [subst; apply (Hnz q k); left|].
  apply IH; [|intros; apply (Hnz e); by right]. apply elem_of_cons in Hin as [[=]|]; [congruence | done].
Qed.

Lemma find_live d l nm : a_get A d = Some (ADir l) -> a_find l nm <> 0 -> a_parent A (a_find l nm) = Some d.
Proof using HA. intros Hd Hf. apply (ok_entry _ HA d l nm); [done|]. by apply a_find_in. Qed.

Lemma find_get d l nm : a_get A d = Some (ADir l) -> (a_find l nm = 0 <-> a_get A (a_find l nm) = None).
Proof using HA.
  intros Hd. split; [intros ->; apply (ok_null _ HA)|]. intros Hn.
  destruct (decide (a_find l nm = 0)) as [|Hf]; [done|].
  apply (find_live d) in Hf; [|done]. apply parent_live in Hf as [k Hk]. congruence.
Qed.

Lemma no_child p k c : a_get A p = Some k -> childless k -> a_parent A c <> Some p.
Proof using HA.
  intros Hp Hk Hc. destruct (ok_up _ HA c p Hc) as (l & nm & Hl & Hin); [by apply (live_nonnull A p k)|].
  assert (k = ADir l) as -> by congruence. simpl in Hk. subst. by apply not_elem_of_nil in Hin.
Qed.

Lemma tree_put p k0 k : a_get A p = Some k0 -> (forall l, k0 <> ADir l) -> (forall l, k <> ADir l) -> tree_ok (a_put A p k).
Proof using HA.
  intros Hp Hk0 Hk.
  assert (forall d l, a_get (a_put A p k) d = Some (ADir l) <-> a_get A d = Some (ADir l)) as E.
  { intros d l. rewrite get_put. case_decide as Ed; [|done]. subst d. rewrite Hp. simpl. split; intros [= ->]; [destruct (Hk l) | destruct (Hk0 l)]; done. }
  constructor.
  - rewrite get_put. case_decide; [subst; by rewrite (ok_null _ HA) in Hp | apply (ok_null _ HA)].
  - intros d l nm c Hd. apply E in Hd. rewrite parent_put. by apply (ok_entry _ HA).
  - intros c d. rewrite parent_put. intros Hc Hd. destruct (ok_up _ HA c d Hc Hd) as (l & nm & Hl & Hin). exists l, nm. by rewrite E.
  - intros d l Hd. apply E in Hd. by apply (ok_names _ HA d).
  - intros d l Hd. apply E in Hd. by apply (ok_nodes _ HA d).
  - destruct (ok_rank _ HA) as [rank Hr]. exists rank. intros c d. rewrite parent_put. apply Hr.
Qed.

Lemma tree_new p k : p <> 0 -> a_get A p = None -> childless k -> tree_ok (a_new A p k).
Proof using HA.
  intros H0 Hp Hk.
  assert (forall c d, a_parent A c = Some d -> p <> c) as Hne.
  { intros c d Hc <-. apply parent_live in Hc as [? ?]. congruence. }
  assert (forall d l, a_get (a_new A p k) d = Some (ADir l) -> (d = p /\ l = []) \/ a_get A d = Some (ADir l)) as E.
  { intros d l. rewrite get_new. case_decide; [|by right]. intros [= ->]. by left. }
  constructor.
  - rewrite get_new, decide_False by done. apply (ok_null _ HA).
  - intros d l nm c Hd Hin. destruct (E _ _ Hd) as [[_ ->]|Hd']; [by apply not_elem_of_nil in Hin|].
    pose proof (ok_entry _ HA _ _ _ _ Hd' Hin) as Hc. rewrite parent_new, decide_False by eauto. done.
  - intros c d. rewrite parent_new. case_decide; [congruence|]. intros Hc Hd.
    destruct (ok_up _ HA c d Hc Hd) as (l & nm & Hl & Hin). exists l, nm. rewrite get_new, decide_False by congruence. done.
  - intros d l Hd. destruct (E _ _ Hd) as [[_ ->]|Hd']; [constructor | by apply (ok_names _ HA d)].
  - intros d l Hd. destruct (E _ _ Hd) as [[_ ->]|Hd']; [constructor | by apply (ok_nodes _ HA d)].
  - destruct (ok_rank _ HA) as [rank Hr]. exists rank. intros c d. rewrite parent_new. case_decide; [congruence | apply Hr].
Qed.

Lemma tree_attach dir name p l k : a_get A dir = Some (ADir l) -> name ∉ l.*1 -> a_get A p = Some k -> childless k ->
  a_parent A p = Some 0 -> p <> dir -> tree_ok (a_attach A dir name p).
Proof using HA.
  intros Hd Hn Hp Hk Hpp Hne. pose proof (live_nonnull A dir _ HA Hd) as Hd0. constructor.
  - rewrite (get_attach _ _ _ _ l), decide_False by done. apply (ok_null _ HA).
  - intros d l' nm c. rewrite (get_attach _ _ _ _ l), (parent_attach _ _ _ _ l) by done. case_decide as E; [subst d; intros [= <-] Hin|intros Hd' Hin].
    + apply elem_of_cons in Hin as [[= -> ->]|Hin]; [by rewrite decide_True, Hpp|].
      pose proof (ok_entry _ HA _ _ _ _ Hd Hin). rewrite decide_False by congruence. done.
    + pose proof (ok_entry _ HA _ _ _ _ Hd' Hin). rewrite decide_False; [done|]. intros <-.
      assert (d = 0) as -> by congruence. by rewrite (ok_null _ HA) in Hd'.
  - intros c d. rewrite (parent_attach _ _ _ _ l) by done. case_decide as E.
    + subst c. rewrite Hpp. intros [= <-] _. exists ((name, p) :: l), name. rewrite (get_attach _ _ _ _ l), decide_True by done. split; [done | left].
    + intros Hc Hd'. destruct (ok_up _ HA c d Hc Hd') as (l' & nm & Hl & Hin). rewrite (get_attach _ _ _ _ l) by done. case_decide; [|by exists l', nm].
      subst d. assert (l' = l) as -> by congruence. exists ((name, p) :: l), nm. split; [done | by right].
  - intros d l'. rewrite (get_attach _ _ _ _ l) by done. case_decide; [|apply (ok_names _ HA)]. intros [= <-]. simpl. constructor; [done | by apply (ok_names _ HA dir)].
  - intros d l'. rewrite (get_attach _ _ _ _ l) by done. case_decide; [|apply (ok_nodes _ HA)]. intros [= <-]. simpl. constructor; [|by apply (ok_nodes _ HA dir)].
    intros Hin. apply list_elem_of_fmap in Hin as ([q c] & E & Hin). simpl in E. subst c. pose proof (ok_entry _ HA _ _ _ _ Hd Hin). congruence.
  - destruct (ok_rank _ HA) as [rank Hr]. exists (fun q => if decide (q = p) then S (rank dir) else rank q). intros c d.
    rewrite (parent_attach _ _ _ _ l) by done. case_decide as E.
    + subst c. rewrite Hpp. intros [= <-] _. rewrite decide_False, decide_True by done. lia.
    + intros Hc Hd'. rewrite (decide_False (P := c = p)) by congruence. case_decide; [|by apply Hr].
      subst d. destruct (no_child p k c Hp Hk Hc).
Qed.

Lemma without_in name l e : e ∈ a_without name l <-> e.1 <> name /\ e ∈ l.
Proof. unfold a_without. by rewrite list_elem_of_filter. Qed.

Lemma without_sub name l : a_without name l `sublist_of` l.
Proof. unfold a_without. induction l as [|e l IH]; [constructor|]. rewrite filter_cons. case_decide; by constructor. Qed.

Lemma tree_remove dir l name k : a_get A dir = Some (ADir l) -> a_find l name <> 0 -> a_get A (a_find l name) = Some k ->
  childless k -> tree_ok (a_remove A dir l name).
Proof using HA.
  intros Hd Hf Hc Hk. pose proof (a_find_in _ _ Hf) as Hin. set (c := a_find l name) in *.
  pose proof (ok_entry _ HA _ _ _ _ Hd Hin) as Hpar.
  assert (forall d l', a_get (a_remove A dir l name) d = Some (ADir l') -> exists l0, a_get A d = Some (ADir l0) /\ l' `sublist_of` l0 /\ (d = dir -> l' = a_without name l)) as E.
  { intros d l'. rewrite get_remove by done. case_decide; [done|]. case_decide; [subst; intros [= <-]|]; [|intros; exists l'; split_and!; [done | done | congruence]].
    exists l. split_and!; [done | apply without_sub | done]. }
  constructor.
  - rewrite get_remove by done. case_decide; [done|]. case_decide; [subst; by rewrite (ok_null _ HA) in Hd | apply (ok_null _ HA)].
  - intros d l' nm q Hd' Hq. destruct (E _ _ Hd') as (l0 & Hl0 & Hs & Hw). rewrite parent_remove.
    assert ((nm, q) ∈ l0) as Hq0 by (eapply elem_of_submseteq; [done | by apply sublist_submseteq]).
    pose proof (ok_entry _ HA _ _ _ _ Hl0 Hq0) as Hqp. rewrite decide_False; [done|]. fold c. intros Ec.
    assert (d = dir) as Edir by congruence. subst d. rewrite (Hw eq_refl) in Hq. apply without_in in Hq as [Hq Hql]. simpl in Hq.
    apply Hq. pose proof (ok_nodes _ HA _ _ Hd) as Hnd.
    apply list_elem_of_lookup in Hql as [i Hi]. apply list_elem_of_lookup in Hin as [j Hj].
    assert (i = j) as ->. { apply (NoDup_lookup l.*2 i j q); [done | by rewrite list_lookup_fmap, Hi | by rewrite list_lookup_fmap, Hj, <- Ec]. }
    congruence.
  - intros q d. rewrite parent_remove. case_decide as Ec; [done|]. fold c in Ec. intros Hq Hd'. destruct (ok_up _ HA q d Hq Hd') as (l' & nm & Hl & Hin').
    rewrite get_remove by done. fold c. rewrite decide_False; [|intros <-; by destruct (no_child c k q Hc Hk)].
    case_decide; [|by exists l', nm]. subst d. assert (l' = l) as -> by congruence. exists (a_without name l), nm. split; [done|].
    apply without_in. split; [|done]. simpl. intros ->. apply Ec. pose proof (ok_names _ HA _ _ Hd) as Hnd.
    apply list_elem_of_lookup in Hin' as [i Hi]. apply list_elem_of_lookup in Hin as [j Hj].
    assert (i = j) as ->. { apply (NoDup_lookup l.*1 i j name); [done | by rewrite list_lookup_fmap, Hi | by rewrite list_lookup_fmap, Hj]. }
    congruence.
  - intros d l' Hd'. destruct (E _ _ Hd') as (l0 & Hl0 & Hs & _). apply (sublist_NoDup (l'.*1) (l0.*1)); [by apply (ok_names _ HA d) | by apply fmap_sublist].
  - intros d l' Hd'. destruct (E _ _ Hd') as (l0 & Hl0 & Hs & _). apply (sublist_NoDup (l'.*2) (l0.*2)); [by apply (ok_nodes _ HA d) | by apply fmap_sublist].
  - destruct (ok_rank _ HA) as [rank Hr]. exists rank. intros q d. rewrite parent_remove. case_decide; [done | apply Hr].
Qed.

Lemma tree_del p k : a_get A p = Some k -> childless k -> a_parent A p = Some 0 -> tree_ok (a_del A p).
Proof using HA.
  intros Hp Hk Hpp.
  assert (forall d l, a_get (a_del A p) d = Some (ADir l) -> a_get A d = Some (ADir l)) as E.
  { intros d l. rewrite get_del. by case_decide. }
  constructor.
  - rewrite get_del. case_decide; [done | apply (ok_null _ HA)].
  - intros d l nm c Hd Hin. apply E in Hd. pose proof (ok_entry _ HA _ _ _ _ Hd Hin) as Hc. rewrite parent_del, decide_False; [done|].
    intros <-. assert (d = 0) as -> by congruence. by rewrite (ok_null _ HA) in Hd.
  - intros c d. rewrite parent_del. case_decide; [done|]. intros Hc Hd. destruct (ok_up _ HA c d Hc Hd) as (l & nm & Hl & Hin).
    exists l, nm. rewrite get_del, decide_False; [done|]. intros <-. by destruct (no_child p k c Hp Hk).
  - intros d l Hd. apply (ok_names _ HA d). by apply E.
  - intros d l Hd. apply (ok_nodes _ HA d). by apply E.
  - destruct (ok_rank _ HA) as [rank Hr]. exists rank. intros c d. rewrite parent_del. case_decide; [done | apply Hr].
Qed.
End trees.
