(* ===== verification/TmpfsRep.v ===== *)
(** The updates of the nodes in memory show the updates of the tree: new nodes, links
    between siblings, freed nodes, and the buffers of files. *)

From S2P Require Import Prelude Tmpfs TmpfsSpec TmpfsInv.

(** The children with the numbers [ks] keep their names and links. *)
Definition keeps (m m' : gmap Z tnode) (k : akind) : Prop :=
  forall l c n, k = ADir l -> c ∈ l.*2 -> m !! c = Some n ->
    exists n', m' !! c = Some n' /\ n_name n' = n_name n /\ n_next n' = n_next n.

Lemma kind_frame m m' n k : keeps m m' k -> shows_kind m n k -> shows_kind m' n k.
Proof.
  intros H [Hf Hk]. split; [done|]. destruct k; [done| |done]. destruct Hk as (Hc & Hd). split; [|done].
  apply (chain_frame m); [|done]. intros c x Hin. by apply (H _ _ _ eq_refl).
Qed.

Lemma node_frame m m' n x : keeps m m' (a_kind x) -> shows_node m n x -> shows_node m' n x.
Proof. intros H (H1 & H2 & H3). split; [done|]. split; [done|]. by apply (kind_frame m). Qed.

Lemma keeps_put m p n n' k : m !! p = Some n -> n_name n' = n_name n -> n_next n' = n_next n -> keeps m (<[p := n']> m) k.
Proof.
  intros Hp H1 H2 l c x _ _ Hc. destruct (decide (p = c)) as [->|].
  - exists n'. rewrite lookup_insert_eq. split; [done|]. assert (x = n) as -> by congruence. done.
  - exists x. by rewrite lookup_insert_ne.
Qed.

Lemma keeps_new m p n k : m !! p = None -> keeps m (<[p := n]> m) k.
Proof. intros Hp l c x _ _ Hc. exists x. rewrite lookup_insert_ne by congruence. done. Qed.

(** ** Files *)

(** A node that is not a directory gets new contents. *)
Lemma put_shows A s p n n' k0 k :
  shows A s -> t_nodes s !! p = Some n -> a_get A p = Some k0 -> (forall l, k0 <> ADir l) -> (forall l, k <> ADir l) ->
  n_name n' = n_name n -> n_next n' = n_next n -> n_inode n' = n_inode n -> n_parent n' = n_parent n ->
  shows_kind (t_nodes s) n' k -> t_used s - n_cap n + n_cap n' <= TMPFS_GLOBAL_QUOTA ->
  shows (a_put A p k) (set_used (t_used s - n_cap n + n_cap n') (put s p n')).
Proof.
  intros Hs Hn Hp Hk0 Hk H1 H2 H3 H4 Hk' Hq. constructor; simpl; [| | | |by rewrite (caps_update _ _ n), (sh_used _ _ Hs)|done].
  - by apply (tree_put (sh_tree _ _ Hs) p k0).
  - intros q. destruct (decide (p = q)) as [->|].
    + rewrite lookup_insert_eq, lookup_alter_eq, fmap_is_Some, <- (sh_dom _ _ Hs). rewrite Hn. split; eauto.
    + rewrite lookup_insert_ne, lookup_alter_ne by done. apply (sh_dom _ _ Hs).
  - intros q x y Hx Hy. assert (keeps (t_nodes s) (<[p := n']> (t_nodes s)) (a_kind y)) as Hkeep by by apply (keeps_put _ _ n).
    destruct (decide (p = q)) as [->|].
    + rewrite lookup_insert_eq in Hx. injection Hx as <-. rewrite lookup_alter_eq in Hy.
      destruct (a_nodes A !! q) as [y0|] eqn:Hy0; [|done]. injection Hy as <-.
      destruct (sh_node _ _ Hs _ _ _ Hn Hy0) as (E1 & E2 & _).
      split; [simpl; congruence|]. split; [simpl; congruence|]. by apply (kind_frame (t_nodes s)).
    + rewrite lookup_insert_ne in Hx by done. rewrite lookup_alter_ne in Hy by done.
      apply (node_frame (t_nodes s)); [done|]. by apply (sh_node _ _ Hs q).
  - apply (sh_inode _ _ Hs).
Qed.

(** ** New nodes *)

Definition new_kind (flags : Z) : akind :=
  if flags =? FS_DIRECTORY then ADir [] else if flags =? FS_FILE then AFile [] else ALink [].

Lemma alloc_shows A s p name k flags : shows A s -> p <> 0 -> a_nodes A !! p = None -> flags = kind_flags k -> k = new_kind flags ->
  shows (a_new A p k) (Tmpfs (<[p := TNode (strtrunc 128 name) flags (t_inode s) 0 [] 0 0 0 None 0]> (t_nodes s)) (u32 (t_inode s + 1)) (t_used s)).
Proof.
  intros Hs H0 Hp Hfl Hk. pose proof (shows_none Hs p Hp) as Hn.
  assert (childless k) as Hch by (destruct k; simpl in Hfl; subst flags; [done | by injection Hk | done]).
  constructor; simpl; [| | | | |apply (sh_quota _ _ Hs)].
  - apply tree_new; [apply Hs | done | by apply a_get_none | done].
  - intros q. destruct (decide (p = q)) as [->|].
    + rewrite !lookup_insert_eq. split; eauto.
    + rewrite !lookup_insert_ne by done. apply (sh_dom _ _ Hs).
  - intros q x y Hx Hy. unfold a_new in Hy. simpl in Hy. destruct (decide (p = q)) as [->|].
    + rewrite lookup_insert_eq in Hx. rewrite lookup_insert_eq in Hy. injection Hx as <-. injection Hy as <-.
      split; [apply (sh_inode _ _ Hs)|]. split; [done|]. simpl. split; [done|].
      destruct k as [b|l|t]; simpl in Hfl; subst flags; injection Hk as ->; done.
    + rewrite lookup_insert_ne in Hx by done. rewrite lookup_insert_ne in Hy by done. apply (node_frame (t_nodes s)); [by apply keeps_new|]. by apply (sh_node _ _ Hs q).
  - by rewrite (sh_inode _ _ Hs).
  - rewrite caps_insert by done. simpl. apply (sh_used _ _ Hs).
Qed.

(** ** A node becomes the first child of a directory *)

Lemma attach_lookup A dir name p l q : a_get A dir = Some (ADir l) -> p <> dir ->
  a_nodes (a_attach A dir name p) !! q =
    if decide (q = dir) then (fun x => ANode (a_ino x) (a_up x) (ADir ((name, p) :: l))) <$> a_nodes A !! dir
    else if decide (q = p) then (fun x => ANode (a_ino x) dir (a_kind x)) <$> a_nodes A !! p
    else a_nodes A !! q.
Proof.
  intros Hd Hne. unfold a_attach. rewrite Hd. simpl. case_decide as E; [subst q; rewrite lookup_alter_eq, lookup_alter_ne by done; done|].
  rewrite lookup_alter_ne by done. case_decide; [subst; by rewrite lookup_alter_eq | by rewrite lookup_alter_ne].
Qed.

Lemma keeps_attach A s dir l p dn pn k d : shows A s -> a_get A dir = Some (ADir l) -> t_nodes s !! dir = Some dn ->
  a_parent A p = Some 0 -> p <> dir -> a_get A d = Some k ->
  keeps (t_nodes s) (<[dir := set_first p dn]> (<[p := pn]> (t_nodes s))) k.
Proof.
  intros Hs Hd Hdn Hpp Hne Hk l' c n -> Hin Hc. destruct (decide (dir = c)) as [->|].
  - rewrite lookup_insert_eq. exists (set_first p dn). assert (n = dn) as -> by congruence. done.
  - rewrite lookup_insert_ne by done. exists n. rewrite lookup_insert_ne; [done|]. intros <-.
    apply list_elem_of_fmap in Hin as ([nm q] & -> & Hin). simpl in *.
    pose proof (ok_entry _ (sh_tree _ _ Hs) _ _ _ _ Hk Hin) as E. assert (d = 0) as -> by congruence.
    by rewrite (ok_null _ (sh_tree _ _ Hs)) in Hk.
Qed.

Lemma attach_shows A s dir p name l k pn : shows A s -> a_get A dir = Some (ADir l) -> name ∉ l.*1 ->
  a_get A p = Some k -> childless k -> a_parent A p = Some 0 -> p <> dir -> t_nodes s !! p = Some pn -> n_name pn = name ->
  exists s', tmpfs_child_add s dir p = Ok s' /\ shows (a_attach A dir name p) s'.
Proof.
  intros Hs Hd Hnm Hk Hch Hpp Hne Hpn Hname. pose proof (sh_tree _ _ Hs) as HA.
  destruct (shows_get Hs dir _ Hd) as (dn & Hdn & Hfl & Hchain & Hdat).
  pose proof (live_nonnull _ _ _ HA Hk) as Hp0.
  set (pn' := set_next (n_first dn) (set_parent dir pn)).
  set (m := <[dir := set_first p dn]> (<[p := pn']> (t_nodes s))).
  exists (set_nodes m s). split.
  { unfold tmpfs_child_add, upd. rewrite (node_ok _ _ _ Hdn), !res_bind_ok, (node_ok _ _ _ Hpn), !res_bind_ok.
    rewrite (node_ok (put s p (set_next (n_first dn) (set_parent dir pn))) dir dn); [done|]. simpl. by rewrite lookup_insert_ne. }
  assert (forall d k, a_get A d = Some k -> keeps (t_nodes s) m k) as Hkeep by (intros; by eapply keeps_attach).
  constructor; simpl; [| | | | |apply (sh_quota _ _ Hs)].
  - by apply (tree_attach HA dir name p l k).
  - intros q. rewrite (attach_lookup _ _ _ _ l) by done. unfold m. case_decide as E1; [|case_decide as E2].
    + subst q. rewrite lookup_insert_eq, fmap_is_Some, <- (sh_dom _ _ Hs), Hdn. split; eauto.
    + subst q. rewrite lookup_insert_ne, lookup_insert_eq, fmap_is_Some, <- (sh_dom _ _ Hs), Hpn by done. split; eauto.
    + rewrite !lookup_insert_ne by done. apply (sh_dom _ _ Hs).
  - intros q x y. rewrite (attach_lookup _ _ _ _ l) by done. unfold m at 1. case_decide as E1; [|case_decide as E2]; intros Hx Hy.
    + subst q. rewrite lookup_insert_eq in Hx. injection Hx as <-. destruct (a_nodes A !! dir) as [y0|] eqn:Hy0; [|done]. injection Hy as <-.
      destruct (sh_node _ _ Hs _ _ _ Hdn Hy0) as (E1 & E2 & _). split; [done|]. split; [done|]. split; [done|]. split; [|done].
      simpl. split; [done|]. split; [done|]. exists pn'. split; [unfold m; by rewrite lookup_insert_ne, lookup_insert_eq|]. split; [done|].
      apply (chain_frame (t_nodes s)); [|done]. intros c n Hin. by apply (Hkeep dir _ Hd l c n).
    + subst q. rewrite lookup_insert_ne, lookup_insert_eq in Hx by done. injection Hx as <-. destruct (a_nodes A !! p) as [y0|] eqn:Hy0; [|done]. injection Hy as <-.
      destruct (sh_node _ _ Hs _ _ _ Hpn Hy0) as (Ei & _ & Hk'). split; [done|]. split; [done|]. apply a_get_some in Hy0.
      apply (kind_frame (t_nodes s)); [by apply (Hkeep p)|]. destruct Hk' as [Hf Hk']. split; [done|]. by destruct (a_kind y0).
    + rewrite !lookup_insert_ne in Hx by done. apply (node_frame (t_nodes s)); [|by apply (sh_node _ _ Hs q)]. apply (Hkeep q). by apply a_get_some.
  - rewrite (sh_inode _ _ Hs). unfold a_attach. by rewrite Hd.
  - rewrite (sh_used _ _ Hs). unfold m. rewrite (caps_update _ _ dn), (caps_update _ _ pn); [simpl; lia | done | by rewrite lookup_insert_ne].
Qed.

(** ** A child leaves the list of its directory *)

(** The nodes after [unlink_child]; [nx] is the next sibling of the child. *)
Definition relink (m : gmap Z tnode) (dir prev nx : Z) : gmap Z tnode :=
  if prev =? 0 then alter (set_first nx) dir m else alter (set_next nx) prev m.

Lemma unlink_child_eq s dir prev c n : t_nodes s !! c = Some n ->
  is_Some (t_nodes s !! (if prev =? 0 then dir else prev)) ->
  unlink_child s dir prev c = Ok (set_nodes (relink (t_nodes s) dir prev (n_next n)) s).
Proof.
  intros Hc [x Hx]. unfold unlink_child, relink, upd. rewrite (node_ok _ _ _ Hc), res_bind_ok.
  destruct (prev =? 0); simpl; rewrite (node_ok _ _ _ Hx), res_bind_ok; unfold mret, res_ret, put; do 2 f_equal;
    apply map_eq; intros q; (destruct (decide (q = dir)), (decide (q = prev)); subst;
    rewrite ?lookup_insert_eq, ?lookup_alter_eq, ?lookup_insert_ne, ?lookup_alter_ne, ?Hx by done; done).
Qed.

(** Everything of a node but its links to other nodes of the list. *)
Definition alike (n n' : tnode) : Prop :=
  n_name n' = n_name n /\ n_flags n' = n_flags n /\ n_inode n' = n_inode n /\ n_length n' = n_length n /\
  n_target n' = n_target n /\ n_parent n' = n_parent n /\ n_data n' = n_data n /\ n_cap n' = n_cap n.

Lemma relink_lookup m dir prev nx q n : m !! q = Some n ->
  exists n', relink m dir prev nx !! q = Some n' /\ alike n n' /\
    (q <> prev -> n_next n' = n_next n) /\ (q <> dir -> n_first n' = n_first n).
Proof.
  intros Hq. unfold relink. destruct (Z.eqb_spec prev 0).
  - destruct (decide (dir = q)) as [->|]; [rewrite lookup_alter_eq, Hq; eexists; split; [done|]; by split_and!|].
    rewrite lookup_alter_ne by done. exists n. by split_and!.
  - destruct (decide (prev = q)) as [->|]; [rewrite lookup_alter_eq, Hq; eexists; split; [done|]; by split_and!|].
    rewrite lookup_alter_ne by done. exists n. by split_and!.
Qed.

Lemma relink_dom m dir prev nx q : is_Some (relink m dir prev nx !! q) <-> is_Some (m !! q).
Proof.
  unfold relink. destruct (prev =? 0); (destruct (decide (q = dir)), (decide (q = prev)); subst;
    rewrite ?lookup_alter_eq, ?lookup_alter_ne, ?fmap_is_Some by done; done).
Qed.

Lemma caps_alter m f p : (forall n, n_cap (f n) = n_cap n) -> caps (alter f p m) = caps m.
Proof.
  intros Hf. destruct (m !! p) as [n|] eqn:E.
  - assert (alter f p m = <[p := f n]> m) as ->.
    { apply map_eq. intros q. destruct (decide (p = q)) as [->|]; [by rewrite lookup_alter_eq, lookup_insert_eq, E | by rewrite lookup_alter_ne, lookup_insert_ne]. }
    rewrite (caps_update _ _ n), Hf by done. lia.
  - f_equal. apply map_eq. intros q. destruct (decide (p = q)) as [->|]; [by rewrite lookup_alter_eq, E | by rewrite lookup_alter_ne].
Qed.

Lemma caps_relink m dir prev nx : caps (relink m dir prev nx) = caps m.
Proof. unfold relink. destruct (prev =? 0); by apply caps_alter. Qed.

Lemma chain_bypass m c l1 q pv pn nm k kn l2 : NoDup (l1 ++ (q, pv) :: (nm, k) :: l2).*2 -> m !! pv = Some pn -> m !! k = Some kn ->
  chain m c (l1 ++ (q, pv) :: (nm, k) :: l2) -> chain (alter (set_next (n_next kn)) pv m) c (l1 ++ (q, pv) :: l2).
Proof.
  intros Hnd Hpv Hk. revert c. induction l1 as [|[r x] l1 IH]; simpl; intros c Hc.
  - destruct Hc as (-> & H0 & n & Hn & Hq & _ & _ & n' & Hn' & _ & Hc). split; [done|]. split; [done|].
    exists (set_next (n_next kn) n). rewrite lookup_alter_eq, Hn. split; [done|]. split; [done|].
    assert (n' = kn) as -> by congruence. apply (chain_frame m); [|done]. intros y z Hy Hz. exists z. rewrite lookup_alter_ne; [done|].
    intros <-. simpl in Hnd. apply NoDup_cons in Hnd as [Hnd _]. apply Hnd. by right.
  - simpl in Hnd. apply NoDup_cons in Hnd as [Hx Hnd]. destruct Hc as (-> & H0 & n & Hn & Hr & Hc). split; [done|]. split; [done|].
    exists n. rewrite lookup_alter_ne; [split; [done|]; split; [done|]; by apply IH|]. intros <-. apply Hx. rewrite fmap_app. apply elem_of_app. right. left.
Qed.

(** The list of [dir] without the child [k], which follows [l1]. *)
Lemma chain_relink m dir dn c l1 nm k kn l2 : NoDup (l1 ++ (nm, k) :: l2).*2 -> dir ∉ (l1 ++ (nm, k) :: l2).*2 ->
  m !! dir = Some dn -> m !! k = Some kn -> n_first dn = c -> chain m c (l1 ++ (nm, k) :: l2) ->
  exists dn', relink m dir (before 0 l1) (n_next kn) !! dir = Some dn' /\ alike dn dn' /\
    chain (delete k (relink m dir (before 0 l1) (n_next kn))) (n_first dn') (l1 ++ l2).
Proof.
  intros Hnd Hdir Hdn Hk <- Hc.
  assert (k ∉ (l1 ++ l2).*2) as Hkn.
  { rewrite !fmap_app in *. simpl in Hnd. apply NoDup_app in Hnd as (_ & H1 & H2). apply NoDup_cons in H2 as [H2 _].
    rewrite elem_of_app. intros [H|H]; [|done]. apply (H1 k); [done | left]. }
  destruct (relink_lookup m dir (before 0 l1) (n_next kn) dir dn Hdn) as (dn' & Hdn' & Ha & _).
  exists dn'. split; [done|]. split; [done|].
  destruct l1 as [|e l1' _] using rev_ind.
  - simpl in *. destruct Hc as (Ec & _ & n & Hn & _ & Hc). assert (n = kn) as -> by congruence.
    unfold relink, before in *. simpl in *. rewrite lookup_alter_eq, Hdn in Hdn'. injection Hdn' as <-. simpl.
    apply (chain_frame m); [|done]. intros y z Hy Hz. exists z. rewrite lookup_delete_ne by (by intros <-).
    rewrite lookup_alter_ne; [done|]. intros <-. apply Hdir. by right.
  - destruct e as [q pv]. rewrite <- app_assoc in *. simpl in *.
    assert (pv ∈ (l1' ++ (q, pv) :: (nm, k) :: l2).*2) as Hpv by (rewrite fmap_app; apply elem_of_app; right; left).
    assert (exists pn, m !! pv = Some pn /\ pv <> 0) as (pn & Hpn & Hp0).
    { clear -Hc. revert Hc. generalize (n_first dn). induction l1' as [|[r x] l1' IH]; simpl; intros c Hc.
      - destruct Hc as (-> & H0 & n & Hn & _). eauto.
      - destruct Hc as (-> & H0 & n & Hn & _ & Hc). eauto. }
    assert (before 0 (l1' ++ [(q, pv)]) = pv) as Hb by (unfold before; by rewrite last_snoc). rewrite Hb in *.
    unfold relink in *. rewrite (proj2 (Z.eqb_neq pv 0)) in * by done.
    rewrite lookup_alter_ne in Hdn' by (by intros ->). assert (dn' = dn) as -> by congruence.
    apply (chain_frame (alter (set_next (n_next kn)) pv m)); [|by apply (chain_bypass m _ _ _ _ pn nm k)].
    intros y z Hy Hz. exists z. rewrite lookup_delete_ne; [done|]. by intros <-.
Qed.

Lemma alike_node m m' n n' x : alike n n' -> (forall l, a_kind x = ADir l -> chain m' (n_first n') l) -> shows_node m n x -> shows_node m' n' x.
Proof.
  intros (E1 & E2 & E3 & E4 & E5 & E6 & E7 & E8) Hd (H1 & H2 & Hf & Hk).
  split; [congruence|]. split; [congruence|]. split; [congruence|]. destruct (a_kind x) as [b|l|t].
  - unfold file_ok in *. by rewrite E4, E7, E8.
  - rewrite E7, E8. split; [by apply Hd | apply Hk].
  - by rewrite E5, E7, E8.
Qed.

Lemma remove_lookup A dir l name q : a_get A dir = Some (ADir l) -> q <> a_find l name ->
  a_nodes (a_remove A dir l name) !! q =
    if decide (q = dir) then (fun x => ANode (a_ino x) (a_up x) (ADir (a_without name l))) <$> a_nodes A !! dir else a_nodes A !! q.
Proof.
  intros Hd Hne. unfold a_remove. simpl. rewrite lookup_delete_ne by done.
  case_decide; [subst; by rewrite lookup_alter_eq | by rewrite lookup_alter_ne].
Qed.

Section removal.
Context {A : atree} {s : tmpfs} (Hs : shows A s).
Context {dir : Z} {l : list (cstr * Z)} (Hd : a_get A dir = Some (ADir l)).
Context {name : cstr} {c : Z} {l1 l2 : list (cstr * Z)} (El : l = l1 ++ (name, c) :: l2).
Context {cn : tnode} (Hcn : t_nodes s !! c = Some cn).

Let m := relink (t_nodes s) dir (before 0 l1) (n_next cn).

Lemma sibling_parent q : q ∈ l.*2 -> a_parent A q = Some dir.
Proof using Hs Hd. intros H. apply list_elem_of_fmap in H as ([e q'] & -> & H). by apply (ok_entry _ (sh_tree _ _ Hs) dir l e). Qed.

Lemma sibling_not_dir q : q ∈ l.*2 -> q <> dir.
Proof using Hs Hd.
  intros Hq ->. apply sibling_parent in Hq. destruct (ok_rank _ (sh_tree _ _ Hs)) as [rank Hr].
  apply Hr in Hq; [lia | by apply (live_nonnull _ _ _ (sh_tree _ _ Hs) Hd)].
Qed.

Lemma before_sibling : before 0 l1 = 0 \/ before 0 l1 ∈ l.*2.
Proof using El.
  unfold before. destruct (last l1) as [e|] eqn:E; [|by left]. right. apply last_Some in E as [l' E]. rewrite El, E, !fmap_app. simpl.
  apply elem_of_app. left. apply elem_of_app. right. left.
Qed.

Lemma removed_sibling : c ∈ l.*2.
Proof using El. rewrite El, fmap_app. apply elem_of_app. right. left. Qed.

Lemma unlink_child_ok : unlink_child s dir (before 0 l1) c = Ok (set_nodes m s).
Proof using Hs Hd El Hcn.
  apply unlink_child_eq; [done|]. apply (sh_dom _ _ Hs). destruct before_sibling as [->|Hb].
  - simpl. unfold a_get in Hd. destruct (a_nodes A !! dir); done.
  - destruct (_ =? 0); [unfold a_get in Hd; by destruct (a_nodes A !! dir)|].
    apply sibling_parent in Hb. unfold a_parent in Hb. by destruct (a_nodes A !! before 0 l1).
Qed.

(** The lists of other directories do not change. *)
Lemma relink_keeps q k : q <> dir -> a_get A q = Some k -> keeps (t_nodes s) (delete c m) k.
Proof using Hs Hd El.
  intros Hq Hk l' x n -> Hx Hn. apply list_elem_of_fmap in Hx as ([e x'] & -> & Hx). simpl in *.
  pose proof (ok_entry _ (sh_tree _ _ Hs) _ _ _ _ Hk Hx) as Hp.
  destruct (relink_lookup (t_nodes s) dir (before 0 l1) (n_next cn) x' n Hn) as (n' & Hn' & Ha & Hnx & _).
  exists n'. rewrite lookup_delete_ne. 2:{ intros <-. pose proof (sibling_parent c removed_sibling). congruence. }
  split; [done|]. split; [apply Ha|]. apply Hnx. intros ->. destruct before_sibling as [Hb|Hb].
  - rewrite Hb in Hp. apply parent_live in Hp as [? Hp]. by rewrite (ok_null _ (sh_tree _ _ Hs)) in Hp.
  - apply sibling_parent in Hb. congruence.
Qed.

Lemma relink_dir dn : t_nodes s !! dir = Some dn ->
  exists dn', m !! dir = Some dn' /\ alike dn dn' /\ chain (delete c m) (n_first dn') (a_without name l).
Proof using Hs Hd El Hcn.
  intros Hdn. pose proof (ok_nodes _ (sh_tree _ _ Hs) _ _ Hd) as Hnd. pose proof (ok_names _ (sh_tree _ _ Hs) _ _ Hd) as Hnm.
  destruct (shows_get Hs dir _ Hd) as (n & Hn & _ & Hchain & _). assert (n = dn) as -> by congruence.
  rewrite El in Hnd, Hnm, Hchain |- *. rewrite a_without_split by done. apply (chain_relink _ _ _ (n_first dn) _ name); try done.
  intros H. apply (sibling_not_dir dir); [by rewrite El | done].
Qed.

Lemma remove_node q x y : c = a_find l name -> delete c m !! q = Some x -> a_nodes (a_remove A dir l name) !! q = Some y -> shows_node (delete c m) x y.
Proof using Hs Hd El Hcn.
  intros Ec Hx Hy. apply lookup_delete_Some in Hx as [Hqc Hx]. rewrite remove_lookup in Hy by congruence.
  destruct (proj1 (relink_dom _ _ _ _ q) (mk_is_Some _ _ Hx)) as [n Hn].
  destruct (relink_lookup (t_nodes s) dir (before 0 l1) (n_next cn) q n Hn) as (n' & Hn' & Ha & Hnx & Hfi).
  assert (n' = x) as -> by (unfold m in Hx; congruence). case_decide as E.
  - subst q. destruct (a_nodes A !! dir) as [y0|] eqn:Hy0; [|done]. injection Hy as <-.
    destruct (relink_dir n Hn) as (dn' & Hdn' & _ & Hc). assert (dn' = x) as -> by congruence.
    destruct (sh_node _ _ Hs _ _ _ Hn Hy0) as (I1 & I2 & Hf & Hk). pose proof Hd as Hd'. rewrite (a_get_some _ _ _ Hy0) in Hd'. injection Hd' as Hd'. rewrite Hd' in *.
    destruct Ha as (_ & E2 & E3 & _ & _ & E6 & E7 & E8). split; [simpl; congruence|]. split; [simpl; congruence|]. split; [simpl in *; congruence|].
    simpl. rewrite E7, E8. split; [done | apply Hk].
  - apply (alike_node (t_nodes s) _ n); [done | | by apply (sh_node _ _ Hs q)]. intros l' Hl'.
    destruct (sh_node _ _ Hs _ _ _ Hn Hy) as (_ & _ & _ & Hk). rewrite Hl' in Hk. rewrite Hfi by done.
    assert (a_get A q = Some (ADir l')) as Hg by (rewrite (a_get_some _ _ _ Hy); by rewrite Hl').
    apply (chain_frame (t_nodes s)); [|apply Hk]. intros z nz Hz. by apply (relink_keeps q _ E Hg l' z nz).
Qed.

Lemma remove_shows k : c = a_find l name -> a_get A c = Some k -> childless k ->
  shows (a_remove A dir l name) (Tmpfs (delete c m) (t_inode s) (t_used s - n_cap cn)).
Proof using Hs Hd El Hcn.
  intros Ec Hc Hch. pose proof (sh_tree _ _ Hs) as HA. constructor; simpl; [| | |apply (sh_inode _ _ Hs)| |].
  - apply (tree_remove HA dir l name k); try done; rewrite <- Ec; [|done]. by apply (live_nonnull _ _ _ HA Hc).
  - intros q. rewrite <- Ec. destruct (decide (c = q)) as [<-|Hq]; [rewrite !lookup_delete_eq; split; intros []; done|].
    rewrite !lookup_delete_ne by done. unfold m. rewrite (relink_dom _ _ _ _ q), (sh_dom _ _ Hs).
    destruct (decide (dir = q)) as [->|]; [by rewrite lookup_alter_eq, fmap_is_Some | by rewrite lookup_alter_ne].
  - intros q x y. by apply remove_node.
  - rewrite (sh_used _ _ Hs), <- (caps_relink _ dir (before 0 l1) (n_next cn)). fold m.
    destruct (relink_lookup (t_nodes s) dir (before 0 l1) (n_next cn) c cn Hcn) as (cn' & Hcn' & Ha & _).
    rewrite (caps_delete m c cn') by done. destruct Ha as (_ & _ & _ & _ & _ & _ & _ & ->). lia.
  - pose proof (shows_cap Hs _ _ Hcn). pose proof (sh_quota _ _ Hs). lia.
Qed.
End removal.

(** A node that no directory holds is freed. *)
Lemma del_shows A s p n k : shows A s -> t_nodes s !! p = Some n -> a_get A p = Some k -> childless k -> a_parent A p = Some 0 -> n_cap n = 0 ->
  shows (a_del A p) (set_nodes (delete p (t_nodes s)) s).
Proof.
  intros Hs Hn Hp Hch Hpp Hcap. constructor; simpl; [| | |apply (sh_inode _ _ Hs)| |apply (sh_quota _ _ Hs)].
  - by apply (tree_del (sh_tree _ _ Hs) p k).
  - intros q. destruct (decide (p = q)) as [->|]; [rewrite !lookup_delete_eq; split; intros []; done|].
    rewrite !lookup_delete_ne by done. apply (sh_dom _ _ Hs).
  - intros q x y Hx Hy. apply lookup_delete_Some in Hx as [Hq Hx]. rewrite lookup_delete_ne in Hy by congruence.
    apply (node_frame (t_nodes s)); [|by apply (sh_node _ _ Hs q)]. intros l c z Hl Hin Hz. exists z. rewrite lookup_delete_ne; [done|].
    intros <-. apply list_elem_of_fmap in Hin as ([e r] & E & Hin). simpl in E. subst r.
    pose proof (ok_entry _ (sh_tree _ _ Hs) q l e p) as He. rewrite (a_get_some _ _ _ Hy), Hl in He. specialize (He eq_refl Hin).
    assert (q = 0) as -> by congruence. pose proof (ok_null _ (sh_tree _ _ Hs)) as H0. by rewrite (a_get_some _ _ _ Hy) in H0.
  - rewrite (sh_used _ _ Hs), (caps_delete _ _ _ Hn). lia.
Qed.
