(* ===== verification/TmpfsOps.v ===== *)
(** The operations of src/kernel/tmpfs.c on one node against the tree: reading and
    writing files, and lookup, listing, making and removing entries of directories. *)

From S2P Require Import Prelude Tmpfs TmpfsSpec TmpfsInv TmpfsRep.

(** ** Buffers *)

Lemma get_bytes_ok a (b : list Z) off n : 0 <= off -> off + Z.of_nat n <= Z.of_nat (length b) -> Z.of_nat (length b) <= arr_len a ->
  (forall i, 0 <= i < arr_len a -> arr_at a i = default 0 (b !! Z.to_nat i)) ->
  get_bytes a off n = Ok (take n (drop (Z.to_nat off) b)).
Proof.
  intros H0 H1 H2 Ha. revert off H0 H1. induction n as [|n IH]; intros off H0 H1; simpl; [by rewrite take_0|].
  rewrite arr_get_ok, res_bind_ok by lia. rewrite IH, res_bind_ok by lia. rewrite Ha by lia.
  destruct (lookup_lt_is_Some_2 b (Z.to_nat off)) as [x Hx]; [lia|].
  rewrite (drop_S b x (Z.to_nat off)) by done. rewrite Hx. replace (Z.to_nat (off + 1)) with (S (Z.to_nat off)) by lia. done.
Qed.

Lemma get_bytes_ub a off n : 0 <= off <= arr_len a -> arr_len a < off + Z.of_nat n -> get_bytes a off n = Ub.
Proof.
  revert off. induction n as [|n IH]; intros off H0 H1; [lia|]. simpl. destruct (decide (off < arr_len a)).
  - rewrite arr_get_ok, res_bind_ok, IH by lia. done.
  - unfold arr_get. rewrite arr_in_false by lia. done.
Qed.

Lemma buffer_put_ok (l : list Z) : forall a off, 0 <= off -> off + Z.of_nat (length l) <= arr_len a ->
  exists a', put_bytes a off l = Ok a' /\ arr_len a' = arr_len a /\
    forall i, arr_at a' i = if (off <=? i) && (i <? off + Z.of_nat (length l)) then default 0 (l !! Z.to_nat (i - off)) else arr_at a i.
Proof.
  induction l as [|x l IH]; intros a off H0 H1; simpl in *.
  - exists a. split; [done|]. split; [done|]. intros i. repeat bdestr; simpl; try done; lia.
  - rewrite arr_set_ok, res_bind_ok by lia. destruct (IH (arr_put a off x) (off + 1)) as (a' & E & Hl & Ha); [lia | rewrite arr_len_put; lia|].
    exists a'. split; [done|]. rewrite arr_len_put in Hl. split; [done|]. intros i. rewrite Ha.
    destruct (decide (i = off)) as [->|].
    + rewrite arr_at_put_eq, Z.sub_diag. repeat bdestr; simpl; try done; lia.
    + rewrite arr_at_put_ne by done. repeat bdestr; simpl; try lia; try done.
      replace (Z.to_nat (i - off)) with (S (Z.to_nat (i - (off + 1)))) by lia. done.
Qed.

(** ** The bytes after a write *)

Lemma splice_length b off buf : 0 <= off ->
  Z.of_nat (length (splice b off buf)) = Z.max (Z.of_nat (length b)) (off + Z.of_nat (length buf)).
Proof. intros H. unfold splice. rewrite !length_app, length_take, length_replicate, length_drop. lia. Qed.

Lemma splice_at b off buf i : 0 <= off -> 0 <= i ->
  default 0 (splice b off buf !! Z.to_nat i) =
    if (off <=? i) && (i <? off + Z.of_nat (length buf)) then default 0 (buf !! Z.to_nat (i - off)) else default 0 (b !! Z.to_nat i).
Proof.
  intros H0 Hi. unfold splice. set (o := Z.to_nat off). set (j := Z.to_nat i).
  destruct (decide (i < off)) as [Hlt|Hge]; [|destruct (decide (i < off + Z.of_nat (length buf))) as [Hin|Hout]].
  - zdecide. simpl. destruct (decide (j < length b)%nat) as [Hj|Hj].
    + rewrite lookup_app_l by (rewrite length_take; lia). by rewrite lookup_take_lt by lia.
    + rewrite lookup_app_r, length_take by (rewrite length_take; lia). rewrite lookup_app_l by (rewrite length_replicate; lia).
      rewrite lookup_replicate_2 by lia. by rewrite (lookup_ge_None_2 b) by lia.
  - zdecide. simpl. rewrite lookup_app_r, length_take by (rewrite length_take; lia).
    rewrite lookup_app_r, length_replicate by (rewrite length_replicate; lia).
    rewrite lookup_app_l by lia. do 2 f_equal. lia.
  - zdecide. simpl. rewrite lookup_app_r, length_take by (rewrite length_take; lia).
    rewrite lookup_app_r, length_replicate by (rewrite length_replicate; lia).
    rewrite lookup_app_r by lia. rewrite lookup_drop. f_equal.
    destruct (decide (j < length b)%nat); [f_equal; lia|]. rewrite !lookup_ge_None_2 by lia. done.
Qed.

Lemma splice_read b off buf : 0 <= off -> take (length buf) (drop (Z.to_nat off) (splice b off buf)) = buf.
Proof.
  intros H. unfold splice. rewrite drop_app, length_take, drop_ge by (rewrite length_take; lia). simpl.
  rewrite drop_app, length_replicate, drop_ge by (rewrite length_replicate; lia). simpl.
  replace (Z.to_nat off - Z.to_nat off `min` length b - (Z.to_nat off - length b))%nat with 0%nat by lia.
  rewrite drop_0. apply take_app_length.
Qed.

(** ** Reading *)

Lemma read_ok A s nd off size : shows A s -> (nd = 0 \/ is_Some (a_nodes A !! nd)) -> 0 <= off -> 0 <= size -> off + size < 4294967296 ->
  tmpfs_read_impl s nd off size = Ok (a_read A nd off size).
Proof.
  intros Hs Hnd H0 H1 H2. unfold tmpfs_read_impl, a_read. destruct Hnd as [->|[x Hx]].
  { rewrite (ok_null _ (sh_tree _ _ Hs)). done. }
  destruct (shows_some Hs nd x Hx) as (n & Hn & _ & _ & Hf & Hk). rewrite (a_get_some _ _ _ Hx).
  rewrite (proj2 (Z.eqb_neq nd 0)) by (apply (live_nonnull A nd (a_kind x)); [apply Hs | by apply a_get_some]).
  rewrite (node_ok _ _ _ Hn), res_bind_ok, Hf. destruct (a_kind x) as [b|l|t]; [|done|done]. simpl.
  destruct Hk as [Hlen Hk]. rewrite Hlen. nowrap. destruct (Z.ltb_spec (Z.of_nat (length b)) off).
  { by rewrite drop_ge, take_nil by lia. }
  destruct (n_data n) as [a|].
  - destruct Hk as (Ha & Hc & Hbc & Hb). destruct (Z.ltb_spec (Z.of_nat (length b)) (off + size)).
    + rewrite u32_small by lia. destruct (Z.eqb_spec (Z.of_nat (length b) - off) 0); [by rewrite drop_ge, take_nil by lia|].
      simpl. rewrite (get_bytes_ok a b) by (lia || (intros; apply Hb; lia)).
      f_equal. rewrite !take_ge; [done | rewrite length_drop; lia..].
    + destruct (Z.eqb_spec size 0); [subst; done|]. simpl. apply get_bytes_ok; (lia || (intros; apply Hb; lia)).
  - destruct Hk as [-> _]. simpl in *. assert (off = 0) as -> by lia. simpl. rewrite take_nil. change (Z.of_nat 0) with 0.
    destruct (Z.ltb_spec 0 (0 + size)); [done|]. by replace size with 0 by lia.
Qed.

(** ** Writing *)

Lemma grow_cap_ok e fuel : forall c, 0 < c -> TMPFS_MAX_CAP < c * 2 ^ Z.of_nat fuel ->
  exists r, grow_cap (S fuel) c e = Ok r /\ (e <= r -> c <= r /\ (r = c \/ r <= TMPFS_MAX_CAP /\ r < 2 * e)) /\ (r < e -> r = TMPFS_MAX_CAP).
Proof.
  unfold TMPFS_MAX_CAP. induction fuel as [|fuel IH]; intros c Hc Hf.
  - change (2 ^ Z.of_nat 0) with 1 in Hf. cbn [grow_cap]. destruct (Z.ltb_spec c e); [|exists c; split; [done|]; lia]. unfold TMPFS_MAX_CAP. change (268435456 / 2) with 134217728.
    rewrite (proj2 (Z.ltb_lt 134217728 c)) by lia. eexists; split; [done|]. lia.
  - rewrite Nat2Z.inj_succ, Z.pow_succ_r in Hf by lia. change (grow_cap (S (S fuel)) c e) with
      (if c <? e then if TMPFS_MAX_CAP / 2 <? c then mret TMPFS_MAX_CAP else grow_cap (S fuel) (u32 (c * 2)) e else mret c).
    destruct (Z.ltb_spec c e); [|exists c; split; [done|]; lia]. unfold TMPFS_MAX_CAP. change (268435456 / 2) with 134217728.
    destruct (Z.ltb_spec 134217728 c); [eexists; split; [done|]; lia|]. rewrite u32_small by lia.
    destruct (IH (c * 2)) as (r & E & H1 & H2); [lia | lia|]. exists r. split; [done|]. split; [|done].
    intros Hr. specialize (H1 Hr). lia.
Qed.

(** Room for a file of [e] bytes: memory, and what is left of the quota. *)
Definition spare (s : tmpfs) (mem : list Z) (e : Z) : Prop :=
  0 < fst (kmalloc mem) /\ e <= TMPFS_MAX_CAP /\ t_used s + Z.max 64 (2 * e) <= TMPFS_GLOBAL_QUOTA.

Lemma a_put_same A p k : a_get A p = Some k -> a_put A p k = A.
Proof.
  intros H. unfold a_put, a_get in *. destruct A as [m nx]. simpl in *. f_equal. apply map_eq. intros q.
  destruct (decide (p = q)) as [->|]; [|by rewrite lookup_alter_ne]. rewrite lookup_alter_eq.
  destruct (m !! q) as [[i u k']|]; [|done]. simpl in *. congruence.
Qed.

Lemma file_buffer b n a : file_ok b n -> n_data n = Some a -> n_length n <> 0 -> get_bytes a 0 (Z.to_nat (n_length n)) = Ok b.
Proof.
  intros [Hl Hk] Hd Hn. rewrite Hd in Hk. destruct Hk as (Ha & Hc & Hb & Hat).
  rewrite (get_bytes_ok a b) by (lia || (intros; apply Hat; lia)). f_equal. simpl. rewrite drop_0. apply take_ge. lia.
Qed.

Lemma old_bytes b n : file_ok b n ->
  (match n_data n with Some a => if n_length n =? 0 then mret [] else get_bytes a 0 (Z.to_nat (n_length n)) | None => mret [] end) = Ok b.
Proof.
  intros H. destruct (n_data n) as [a|] eqn:Hd.
  - destruct (Z.eqb_spec (n_length n) 0) as [E|E]; [|by apply file_buffer].
    destruct H as [Hl _]. destruct b; [done | simpl in Hl; lia].
  - destruct H as [_ Hk]. rewrite Hd in Hk. by destruct Hk as [-> _].
Qed.

Lemma grow_ok A s mem nd n b e : shows A s -> t_nodes s !! nd = Some n -> a_get A nd = Some (AFile b) -> n_cap n < e < 4294967296 ->
  exists r mem', grow s mem nd n e = Ok (r, mem') /\ (spare s mem e -> r <> None) /\
    match r with
    | None => True
    | Some s' => shows A s' /\ exists n', t_nodes s' !! nd = Some n' /\ e <= n_cap n'
    end.
Proof.
  intros Hs Hn Hg He. destruct (shows_get Hs nd _ Hg) as (n0 & Hn0 & Hf & Hk). assert (n0 = n) as -> by congruence. clear Hn0. cbn in Hk.
  pose proof (shows_cap Hs _ _ Hn) as Hc0. pose proof (shows_cap_used Hs _ _ Hn) as Hcu. pose proof (shows_used Hs) as Hu.
  unfold grow, spare. set (c0 := if n_cap n =? 0 then 64 else n_cap n).
  assert (0 < c0 /\ n_cap n <= c0 /\ (c0 = 64 \/ c0 = n_cap n)) as (Hc1 & Hc2 & Hc3) by (unfold c0; destruct (Z.eqb_spec (n_cap n) 0); lia).
  destruct (grow_cap_ok e 31 c0) as (r & -> & Hr1 & Hr2); [lia | unfold TMPFS_MAX_CAP; change (2 ^ Z.of_nat 31) with 2147483648; lia|].
  rewrite res_bind_ok. unfold TMPFS_MAX_CAP, TMPFS_GLOBAL_QUOTA in *.
  destruct (Z.ltb_spec r e) as [Hre|Hre]; [eexists _, _; split; [done|]; split; [lia | done]|].
  specialize (Hr1 Hre). rewrite (u32_small (r - n_cap n)) by lia. rewrite u64_small by lia.
  destruct (Z.ltb_spec 536870912 (t_used s + (r - n_cap n))) as [Hq|Hq]; [eexists _, _; split; [done|]; split; [lia | done]|].
  destruct (kmalloc mem) as [p mem']. destruct (Z.eqb_spec p 0) as [->|Hp]; [eexists _, _; split; [done|]; simpl; split; [lia | done]|].
  rewrite (old_bytes b n Hk), res_bind_ok.
  assert (Z.of_nat (length b) <= n_cap n) as Hb by (destruct Hk as [_ Hk]; destruct (n_data n); [lia | destruct Hk as [-> ?]; simpl; lia]).
  destruct (buffer_put_ok b (arr_new r 0) 0) as (a & -> & Ha1 & Ha2); [lia | simpl; lia|]. rewrite res_bind_ok.
  eexists _, _. split; [done|]. split; [done|]. simpl.
  split; [|eexists; rewrite lookup_insert_eq; split; [done | simpl; lia]].
  assert (u64 (match n_data n with Some _ => u64 (t_used s - n_cap n) | None => t_used s end + r) = t_used s - n_cap n + r) as ->.
  { destruct Hk as [_ Hk]. destruct (n_data n); [rewrite (u64_small (t_used s - n_cap n)), u64_small by lia; lia | destruct Hk as [_ Hk]; rewrite u64_small by lia; lia]. }
  rewrite <- (a_put_same A nd (AFile b)) by done.
  apply (put_shows A s nd n (set_data (Some a) r (n_length n) n) (AFile b)); try done; [|simpl; unfold TMPFS_GLOBAL_QUOTA; lia].
  split; [done|]. split; [apply Hk|]. simpl. simpl in Ha1. split; [done|]. split; [lia|]. split; [lia|].
  intros i Hi. rewrite Ha2, Z.sub_0_r. destruct ((0 <=? i) && (i <? 0 + Z.of_nat (length b))) eqn:E; [done|].
  rewrite arr_at_new, lookup_ge_None_2; [done|]. apply andb_false_iff in E as [E|E]; [apply Z.leb_gt in E | apply Z.ltb_ge in E]; lia.
Qed.

Lemma write_data_ok A s nd n b off buf : shows A s -> t_nodes s !! nd = Some n -> a_get A nd = Some (AFile b) -> 0 <= off ->
  off + Z.of_nat (length buf) <= n_cap n ->
  exists d, (match n_data n, buf with
             | Some a, _ => a ← put_bytes a off buf; mret (Some a)
             | None, [] => mret None
             | None, _ => Ub
             end) = Ok d /\
    shows (a_put A nd (AFile (splice b off buf)))
      (put s nd (set_data d (n_cap n) (if n_length n <? off + Z.of_nat (length buf) then off + Z.of_nat (length buf) else n_length n) n)).
Proof.
  intros Hs Hn Hg H0 He. destruct (shows_get Hs nd _ Hg) as (n0 & Hn0 & Hf & Hk). assert (n0 = n) as -> by congruence. clear Hn0. cbn in Hk.
  set (len := if n_length n <? _ then _ else _).
  assert (len = Z.of_nat (length (splice b off buf))) as Hlen.
  { unfold len. rewrite splice_length by done. destruct Hk as [-> _]. bdestr; lia. }
  assert (forall d, file_ok (splice b off buf) (set_data d (n_cap n) len n) ->
    shows (a_put A nd (AFile (splice b off buf))) (put s nd (set_data d (n_cap n) len n))) as Hput.
  { intros d Hd. replace (put s nd _) with (set_used (t_used s - n_cap n + n_cap n) (put s nd (set_data d (n_cap n) len n))).
    2:{ unfold set_used, put, set_nodes. simpl. f_equal. lia. }
    apply (put_shows A s nd n (set_data d (n_cap n) len n) (AFile b)); try done. pose proof (sh_quota _ _ Hs). simpl. lia. }
  destruct Hk as [Hl Hk]. destruct (n_data n) as [a|].
  - destruct Hk as (Ha & Hc & Hb & Hat). destruct (buffer_put_ok buf a off) as (a' & -> & Ha1 & Ha2); [lia | lia|].
    exists (Some a'). split; [done|]. apply Hput. split; [done|]. simpl. rewrite splice_length by done. split; [congruence|]. split; [done|]. split; [lia|].
    intros i Hi. rewrite Ha2, splice_at, Hat by lia. done.
  - destruct Hk as [-> Hc]. destruct buf; [|simpl in He; lia]. exists None. split; [done|]. apply Hput. split; [done|]. simpl.
    simpl in He. assert (off = 0) as -> by lia. done.
Qed.

Lemma write_ok A s mem nd off buf : shows A s -> (nd = 0 \/ is_Some (a_nodes A !! nd)) -> 0 <= off ->
  exists room s' mem', tmpfs_write_impl s mem nd off buf = Ok ((a_write room A nd off buf).1, s', mem') /\
    shows (a_write room A nd off buf).2 s' /\ (spare s mem (off + Z.of_nat (length buf)) -> room = true).
Proof.
  intros Hs Hnd H0. unfold tmpfs_write_impl, a_write. destruct Hnd as [->|[x Hx]].
  { rewrite (ok_null _ (sh_tree _ _ Hs)). exists true, s, mem. done. }
  destruct (shows_some Hs nd x Hx) as (n & Hn & _ & _ & Hf & _). pose proof (a_get_some _ _ _ Hx) as Hg. rewrite Hg.
  rewrite (proj2 (Z.eqb_neq nd 0)) by (apply (live_nonnull A nd (a_kind x)); [apply Hs | done]).
  rewrite (node_ok _ _ _ Hn), res_bind_ok, Hf. destruct (a_kind x) as [b|l|t]; [|exists true, s, mem; done..]. simpl.
  set (e := off + Z.of_nat (length buf)). destruct (Z.ltb_spec 4294967295 e) as [He|He].
  { exists true, s, mem. rewrite (proj2 (Z.leb_gt e 4294967295)) by lia. done. }
  rewrite (proj2 (Z.leb_le e 4294967295)) by lia.
  assert (forall mem s', shows A s' -> (exists n', t_nodes s' !! nd = Some n' /\ e <= n_cap n') ->
    exists s'', (n ← node s' nd;
            data ← match n_data n, buf with
                   | Some a, _ => a ← put_bytes a off buf; mret (Some a)
                   | None, [] => mret None
                   | None, _ => Ub
                   end;
            mret (Z.of_nat (length buf), put s' nd (set_data data (n_cap n) (if n_length n <? e then e else n_length n) n), mem)) = Ok (Z.of_nat (length buf), s'', mem : list Z) /\
      shows (a_put A nd (AFile (splice b off buf))) s'') as Hgo.
  { intros mem0 s' Hs' (n' & Hn' & Hcap). destruct (write_data_ok A s' nd n' b off buf Hs' Hn' Hg H0 Hcap) as (d & Ed & Hd).
    rewrite (node_ok _ _ _ Hn'), res_bind_ok, Ed, res_bind_ok. eexists. split; [done | apply Hd]. }
  destruct (Z.ltb_spec (n_cap n) e) as [Hc|Hc].
  - destruct (grow_ok A s mem nd n b e Hs Hn Hg) as (r & mem' & -> & Hsp & Hr); [lia|]. rewrite res_bind_ok. destruct r as [s'|].
    + destruct Hr as [Hs' Hn']. destruct (Hgo mem' s' Hs' Hn') as (s'' & -> & Hs''). exists true, s'', mem'. done.
    + exists false, s, mem'. split; [done|]. split; [done|]. intros H. by destruct (Hsp H).
  - rewrite res_bind_ok. destruct (Hgo mem s Hs) as (s'' & -> & Hs''); [eauto|]. exists true, s'', mem. done.
Qed.

(** A node argument: null or a node of the file system. *)
Definition arg (A : atree) (p : Z) : Prop := p = 0 \/ is_Some (a_nodes A !! p).

Definition short (name : cstr) : Prop := (length name <= 127)%nat.

Lemma strtrunc_short name : short name -> strtrunc 128 name = name.
Proof. intros H. unfold strtrunc, short in *. apply take_ge. change (Z.to_nat (128 - 1)) with 127%nat. lia. Qed.

(** ** Lookup *)

Lemma child_find_ok A s dir l name : shows A s -> a_get A dir = Some (ADir l) -> tmpfs_child_find s dir name = Ok (a_find l name).
Proof.
  intros Hs Hd. unfold tmpfs_child_find, walk_fuel. rewrite (proj2 (Z.eqb_neq dir 0)) by (apply (live_nonnull A dir _ (sh_tree _ _ Hs) Hd)).
  destruct (shows_get Hs dir _ Hd) as (n & Hn & _ & Hc & _). rewrite (node_ok _ _ _ Hn), res_bind_ok.
  apply find_from_ok; [|done]. apply chain_length in Hc; [lia | by apply (ok_nodes _ (sh_tree _ _ Hs) dir)].
Qed.

(** The guard of every operation on a directory. *)
Lemma dir_guard {T} A s dir (bad : T) (k : tnode -> res T) : shows A s -> arg A dir ->
  (if dir =? 0 then mret bad else n ← node s dir; if negb (n_flags n =? FS_DIRECTORY) then mret bad else k n) =
    match a_get A dir with Some (ADir _) => n ← node s dir; k n | _ => Ok bad end.
Proof.
  intros Hs [->|[x Hx]]; [by rewrite (ok_null _ (sh_tree _ _ Hs))|]. pose proof (a_get_some _ _ _ Hx) as Hg. rewrite Hg.
  rewrite (proj2 (Z.eqb_neq dir 0)) by (by apply (live_nonnull A dir (a_kind x) (sh_tree _ _ Hs))).
  destruct (shows_get Hs dir _ Hg) as (n & Hn & Hf & _). rewrite (node_ok _ _ _ Hn), !res_bind_ok, Hf. by destruct (a_kind x).
Qed.

Lemma finddir_ok A s dir name : shows A s -> arg A dir ->
  tmpfs_finddir_impl s dir name = Ok (match a_get A dir with Some (ADir l) => a_find l name | _ => 0 end).
Proof.
  intros Hs Ha. unfold tmpfs_finddir_impl. rewrite (dir_guard A) by done. destruct (a_get A dir) as [[| l |]|] eqn:Hd; try done.
  destruct (shows_get Hs dir _ Hd) as (n & Hnn & _). rewrite (node_ok _ _ _ Hnn), res_bind_ok. by apply (child_find_ok A).
Qed.

(** ** Listing *)

Lemma entry_ok A s nd x l idx : shows A s -> a_nodes A !! nd = Some x -> a_kind x = ADir l -> 0 <= idx ->
  dir_entry s nd idx = Ok (a_listing A nd x l !! Z.to_nat idx).
Proof.
  intros Hs Hx Hk H0. destruct (shows_some Hs nd x Hx) as (n & Hn & Hi & Hp & Hf & Hkind). rewrite Hk in Hkind. destruct Hkind as (Hc & _).
  unfold dir_entry. rewrite (node_ok _ _ _ Hn), res_bind_ok, Hi, Hp. destruct (Z.eqb_spec idx 0) as [->|]; [done|].
  destruct (Z.eqb_spec idx 1) as [->|].
  { change (Z.to_nat 1) with 1%nat. cbn [a_listing lookup list_lookup]. destruct (Z.eqb_spec (a_up x) 0) as [E|E]; [done|]. cbn [negb].
    assert (a_parent A nd = Some (a_up x)) as Hpar by (unfold a_parent; by rewrite Hx).
    destruct (ok_up _ (sh_tree _ _ Hs) _ _ Hpar E) as (l' & nm & Hl' & _). unfold a_get in Hl'. unfold a_inode.
    destruct (a_nodes A !! a_up x) as [y|] eqn:Hy; [|done]. destruct (shows_some Hs _ _ Hy) as (pn & Hpn & Hpi & _).
    rewrite (node_ok _ _ _ Hpn), !res_bind_ok, Hpi. done. }
  pose proof (a_get_some _ _ _ Hx) as Hg. rewrite Hk in Hg.
  unfold walk_fuel. rewrite (skip_children_ok _ _ _ l), res_bind_ok.
  2:{ apply chain_length in Hc; [lia | by apply (ok_nodes _ (sh_tree _ _ Hs) nd)]. } 2:{ lia. } 2:{ done. }
  unfold a_listing. replace (Z.to_nat idx) with (S (S (Z.to_nat (idx - 2)))) by lia. rewrite !lookup_cons_ne_0 by done. cbn [Nat.pred]. rewrite list_lookup_fmap.
  destruct (l !! Z.to_nat (idx - 2)) as [[nm c]|] eqn:El; [|done]. cbn [fmap option_fmap option_map snd fst].
  apply list_elem_of_lookup_2 in El. destruct (entry_live A nd l nm c (sh_tree _ _ Hs) Hg El) as (y & Hy & _).
  rewrite (proj2 (Z.eqb_neq c 0)) by (by apply (entry_nonnull (sh_tree _ _ Hs) nd l nm c)).
  destruct (shows_some Hs _ _ Hy) as (cn & Hcn & Hci & _ & Hcf & Hck). rewrite (node_ok _ _ _ Hcn), res_bind_ok.
  unfold a_inode. rewrite (a_get_some _ _ _ Hy), Hy, Hci, Hcf, (chain_name _ _ _ _ _ _ Hc El Hcn).
  by destruct (a_kind y).
Qed.

Lemma fill_ok A s nd x l : shows A s -> a_nodes A !! nd = Some x -> a_kind x = ADir l ->
  forall cap idx, 0 <= idx -> idx + Z.of_nat cap < 4294967296 ->
  let got := take cap (drop (Z.to_nat idx) (a_listing A nd x l)) in
  fill_entries cap s nd idx = Ok (got, idx + Z.of_nat (length got)).
Proof.
  intros Hs Hx Hk cap. induction cap as [|cap IH]; intros idx H0 H1; cbn [fill_entries]; [by rewrite take_0, Z.add_0_r|].
  rewrite (entry_ok A s nd x l) by done. rewrite res_bind_ok.
  destruct (a_listing A nd x l !! Z.to_nat idx) as [e|] eqn:E.
  - rewrite u32_small, IH, res_bind_ok by lia. rewrite (drop_S _ e (Z.to_nat idx)) by done. cbn [take length].
    replace (Z.to_nat (idx + 1)) with (S (Z.to_nat idx)) by lia. unfold mret, res_ret. do 2 f_equal. lia.
  - apply lookup_ge_None in E. rewrite drop_ge, take_nil by lia. simpl. by rewrite Z.add_0_r.
Qed.

Lemma readdir_ok A s nd idx buf_len : shows A s -> arg A nd -> 0 <= idx -> 0 <= buf_len < 2147483648 -> idx + buf_len < 4294967296 ->
  tmpfs_readdir_impl s nd idx buf_len = Ok (a_readdir A nd idx buf_len).
Proof.
  intros Hs Ha H0 H1 H2. unfold tmpfs_readdir_impl, a_readdir. rewrite (dir_guard A) by done.
  unfold a_get. destruct (a_nodes A !! nd) as [x|] eqn:Hx; [|done]. simpl. destruct (a_kind x) as [b|l|t] eqn:Hk; try done.
  destruct (shows_some Hs nd x Hx) as (n & Hn & _). rewrite (node_ok _ _ _ Hn). cbn [mbind res_bind]. unfold DIRENT_SIZE.
  destruct (buf_len <? 32); [done|].
  assert (0 <= buf_len / 32 <= buf_len) as Hdiv by (split; [apply Z.div_pos | apply Z.div_le_upper_bound]; lia).
  pose proof (Z.mul_div_le buf_len 32). rewrite (fill_ok A s nd x l Hs Hx Hk) by lia.
  set (got := take _ _). assert (length got <= Z.to_nat (buf_len / 32))%nat by (unfold got; rewrite length_take; lia).
  rewrite res_bind_ok, s32_small by lia. unfold mret, res_ret. do 3 f_equal. lia.
Qed.

(** ** Making entries *)

Lemma fresh_head A mem p mem' : fresh A mem -> kmalloc mem = (p, mem') -> p <> 0 ->
  a_nodes A !! p = None /\ fresh A mem' /\ p ∉ mem'.
Proof.
  intros [Hnd Hf] Hk Hp. destruct mem as [|q mem]; simpl in Hk; injection Hk as <- <-; [done|].
  rewrite filter_cons_True in Hnd by done. apply NoDup_cons in Hnd as [Hq Hnd]. split; [apply Hf; [left | done]|].
  split; [split; [done|]; intros x Hx; apply Hf; by right|]. intros Hin. apply Hq. by apply list_elem_of_filter.
Qed.

Lemma fresh_tail A mem p mem' : fresh A mem -> kmalloc mem = (p, mem') -> fresh A mem'.
Proof.
  intros [Hnd Hf] Hk. destruct mem as [|q mem]; simpl in Hk; injection Hk as <- <-; [done|]. split; [|intros x Hx; apply Hf; by right].
  rewrite filter_cons in Hnd. case_decide; [by apply NoDup_cons in Hnd as [_ Hnd] | done].
Qed.

(** A new node of the kind [k] is held by no directory yet. *)
Lemma node_alloc_ok A s mem name k : shows A s -> fresh A mem -> short name -> k = new_kind (kind_flags k) ->
  let '(p, mem') := kmalloc mem in
  exists s', tmpfs_node_alloc s mem name (kind_flags k) = (p, s', mem') /\
    if p =? 0 then s' = s
    else shows (a_new A p k) s' /\ a_nodes A !! p = None /\ fresh A mem' /\ p ∉ mem' /\
         exists n, t_nodes s' !! p = Some n /\ n_name n = name /\ t_used s' = t_used s.
Proof.
  intros Hs Hf Hn Hk. destruct (kmalloc mem) as [p mem'] eqn:E. unfold tmpfs_node_alloc. rewrite E. destruct (Z.eqb_spec p 0) as [->|Hp]; [by exists s|].
  destruct (fresh_head A mem p mem' Hf E Hp) as (Hfr & Hf' & Hnp). eexists. split; [done|].
  split; [by apply alloc_shows|]. split; [done|]. split; [done|]. split; [done|].
  eexists. simpl. rewrite lookup_insert_eq. split; [done|]. simpl. split; [by apply strtrunc_short | done].
Qed.

(** A new node becomes an entry of a directory where its name is free. *)
Lemma attach_new_ok A s dir l name p k n : shows (a_new A p k) s -> tree_ok A -> a_nodes A !! p = None -> childless k -> a_get A dir = Some (ADir l) ->
  a_find l name = 0 -> t_nodes s !! p = Some n -> n_name n = name ->
  exists s', tmpfs_child_add s dir p = Ok s' /\ shows (a_attach (a_new A p k) dir name p) s'.
Proof.
  intros Hs HA Hp Hch Hd Hf Hn Hname.
  assert (p <> dir) as Hne by (intros ->; unfold a_get in Hd; by rewrite Hp in Hd).
  apply (attach_shows _ _ _ _ _ l k n); try done.
  - by rewrite get_new, decide_False.
  - by apply (find_zero HA dir).
  - by rewrite get_new, decide_True.
  - by rewrite parent_new, decide_True.
Qed.

Lemma fresh_attach A dir name p k l mem : fresh A mem -> p ∉ mem -> p <> dir -> a_get A dir = Some (ADir l) -> fresh (a_attach (a_new A p k) dir name p) mem.
Proof.
  intros [Hnd Hf] Hp Hne Hd. split; [done|]. intros q Hq H0. apply a_get_none.
  assert (a_get (a_new A p k) dir = Some (ADir l)) as Hd' by (by rewrite get_new, decide_False).
  assert (q <> p) by (by intros ->). assert (a_get A q = None) as Hg by (apply a_get_none; by apply Hf).
  rewrite (get_attach _ _ _ _ l) by done. rewrite decide_False by (intros <-; congruence). rewrite get_new, decide_False by done. done.
Qed.

Lemma child_ok A s mem dir l name k : shows A s -> fresh A mem -> short name -> k = new_kind (kind_flags k) ->
  a_get A dir = Some (ADir l) -> a_find l name = 0 ->
  exists p A' mem' s1, a_child A mem dir name k = (p, A', mem') /\ tmpfs_node_alloc s mem name (kind_flags k) = (p, s1, mem') /\ fresh A' mem' /\
    if p =? 0 then A' = A /\ s1 = s else a_get A' p = Some k /\ exists s', tmpfs_child_add s1 dir p = Ok s' /\ shows A' s'.
Proof.
  intros Hs Hf Hn Hk Hd Hz. pose proof (node_alloc_ok A s mem name k Hs Hf Hn Hk) as H. unfold a_child.
  destruct (kmalloc mem) as [p mem'] eqn:E. destruct H as (s1 & Ha & H).
  destruct (p =? 0) eqn:E0; [exists p, A, mem', s1; split; [apply Z.eqb_eq in E0; by subst|]; split; [done|]; split; [by apply (fresh_tail A mem p) | by rewrite E0]|].
  destruct H as (Hs1 & Hp & Hf' & Hpm & n & Hnn & Hname & _). eexists p, _, mem', s1. split; [done|]. split; [done|]. rewrite E0.
  assert (p <> dir) as Hne by (intros ->; unfold a_get in Hd; by rewrite Hp in Hd).
  split; [by apply (fresh_attach A dir name p k l)|]. split.
  - rewrite (get_attach _ _ _ _ l) by (by rewrite get_new, decide_False). rewrite decide_False by congruence. by rewrite get_new, decide_True.
  - apply (attach_new_ok A s1 dir l name p k n); try done; [apply Hs|]. rewrite Hk. by destruct k.
Qed.

Lemma mkdir_ok A s mem dir name : shows A s -> fresh A mem -> short name -> arg A dir ->
  exists s' mem', tmpfs_mkdir_impl s mem dir name = Ok ((a_mkdir A mem dir name).1, s', mem') /\ shows (a_mkdir A mem dir name).2 s' /\ fresh (a_mkdir A mem dir name).2 mem'.
Proof.
  intros Hs Hf Hn Ha. unfold tmpfs_mkdir_impl, a_mkdir. rewrite (dir_guard A) by done.
  destruct (a_get A dir) as [[| l |]|] eqn:Hd; [by eexists _, _| |by eexists _, _..].
  destruct (shows_get Hs dir _ Hd) as (n & Hnn & _). rewrite (node_ok _ _ _ Hnn), res_bind_ok.
  rewrite (child_find_ok A s dir l) by done. rewrite res_bind_ok. destruct (Z.eqb_spec (a_find l name) 0) as [Hz|Hz]; cbn [negb]; [|by eexists _, _].
  destruct (child_ok A s mem dir l name (ADir [])) as (p & A' & mem' & s1 & -> & Ea & Hf' & H); [done..|]. simpl in Ea. rewrite Ea.
  destruct (p =? 0); [destruct H as [-> ->]; by eexists _, _|]. destruct H as (_ & s' & -> & Hs'). rewrite res_bind_ok. by eexists _, _.
Qed.

Lemma create_entry_ok A s mem dir name flags : shows A s -> fresh A mem -> short name -> arg A dir ->
  exists s' mem', tmpfs_create_impl s mem dir name flags = Ok ((a_create A mem dir name flags).1, s', mem') /\ shows (a_create A mem dir name flags).2 s' /\ fresh (a_create A mem dir name flags).2 mem'.
Proof.
  intros Hs Hf Hn Ha. unfold tmpfs_create_impl, a_create. rewrite (dir_guard A) by done.
  destruct (a_get A dir) as [[| l |]|] eqn:Hd; [by eexists _, _| |by eexists _, _..].
  destruct (shows_get Hs dir _ Hd) as (n & Hnn & _). rewrite (node_ok _ _ _ Hnn), res_bind_ok.
  rewrite (child_find_ok A s dir l) by done. rewrite res_bind_ok. destruct (Z.eqb_spec (a_find l name) 0) as [Hz|Hz]; cbn [negb]; [|by eexists _, _].
  destruct (Z.land flags 64 =? 0); [by eexists _, _|].
  destruct (child_ok A s mem dir l name (AFile [])) as (p & A' & mem' & s1 & -> & Ea & Hf' & H); [done..|]. simpl in Ea. rewrite Ea.
  destruct (Z.eqb_spec p 0) as [->|]; [destruct H as [-> ->]; by eexists _, _|]. destruct H as (_ & s' & -> & Hs'). rewrite res_bind_ok. by eexists _, _.
Qed.

(** ** Removing entries *)

Lemma find_prev_dir A s dir l n name : shows A s -> a_get A dir = Some (ADir l) -> t_nodes s !! dir = Some n ->
  exists l1, find_prev (walk_fuel s) s 0 (n_first n) name = Ok (before 0 l1, a_find l name) /\
    (a_find l name <> 0 -> exists l2, l = l1 ++ (name, a_find l name) :: l2).
Proof.
  intros Hs Hd Hn. destruct (shows_get Hs dir _ Hd) as (n' & Hn' & _ & Hc & _). assert (n' = n) as -> by congruence.
  pose proof (chain_length _ _ _ (ok_nodes _ (sh_tree _ _ Hs) _ _ Hd) Hc) as Hlen. unfold walk_fuel.
  destruct (decide (a_find l name = 0)) as [Hz|Hz].
  - exists l. split; [|done]. rewrite (find_prev_ok s _ 0 _ l []); [by rewrite Hz | lia | | by rewrite app_nil_r | by left].
    by apply (find_zero (sh_tree _ _ Hs) dir).
  - destruct (a_find_split l name Hz) as (l1 & l2 & El & Hn1). exists l1. split; [|intros _; by exists l2].
    rewrite (find_prev_ok s _ 0 _ l1 ((name, a_find l name) :: l2)); [| |done|by rewrite <- El|right; by eexists _, _].
    + simpl. by rewrite bool_decide_eq_true_2.
    + rewrite El, length_app in Hlen. simpl in Hlen. lia.
Qed.

(** A child without entries is taken out of its directory and freed. *)
Lemma drop_child_ok A s dir l l1 name x k : shows A s -> a_get A dir = Some (ADir l) ->
  a_find l name <> 0 -> (exists l2, l = l1 ++ (name, a_find l name) :: l2) -> t_nodes s !! a_find l name = Some x ->
  a_get A (a_find l name) = Some k -> childless k ->
  exists m, unlink_child s dir (before 0 l1) (a_find l name) = Ok (set_nodes m s) /\ is_Some (m !! a_find l name) /\
    shows (a_remove A dir l name) (Tmpfs (delete (a_find l name) m) (t_inode s) (t_used s - n_cap x)).
Proof.
  intros Hs Hd Hz [l2 El] Hx Hk Hch. eexists. split; [by apply (unlink_child_ok Hs Hd El Hx)|].
  split; [apply relink_dom; eauto|]. by apply (remove_shows Hs Hd El Hx k).
Qed.

Lemma kfree_node_ok s p : is_Some (t_nodes s !! p) -> kfree_node s p = Ok (set_nodes (delete p (t_nodes s)) s).
Proof. intros [n Hn]. unfold kfree_node. by rewrite (node_ok _ _ _ Hn). Qed.

(** What is given back to the quota when a node is freed. *)
Lemma used_after A s p x : shows A s -> t_nodes s !! p = Some x ->
  (match n_data x with Some _ => u64 (t_used s - n_cap x) | None => t_used s end) = t_used s - n_cap x.
Proof.
  intros Hs Hx. destruct (proj1 (sh_dom _ _ Hs p)) as [y Hy]; [eauto|]. pose proof (shows_cap Hs _ _ Hx). pose proof (shows_cap_used Hs _ _ Hx). pose proof (shows_used Hs) as Hu.
  destruct (sh_node _ _ Hs _ _ _ Hx Hy) as (_ & _ & _ & Hk). destruct (n_data x) as [a|] eqn:E.
  - rewrite u64_small; [done|]. unfold TMPFS_GLOBAL_QUOTA in Hu. lia.
  - destruct (a_kind y); [destruct Hk as [_ Hk]; rewrite E in Hk; destruct Hk as [_ ->] | destruct Hk as (_ & _ & ->) | destruct Hk as (_ & _ & ->)]; lia.
Qed.

Lemma unlink_ok A s dir name : shows A s -> arg A dir ->
  exists s', tmpfs_unlink_impl s dir name = Ok ((a_unlink A dir name).1, s') /\ shows (a_unlink A dir name).2 s'.
Proof.
  intros Hs Ha. unfold tmpfs_unlink_impl, a_unlink. rewrite (dir_guard A) by done.
  destruct (a_get A dir) as [[| l |]|] eqn:Hd; [by eexists| |by eexists..].
  destruct (shows_get Hs dir _ Hd) as (n & Hnn & _). rewrite (node_ok _ _ _ Hnn), res_bind_ok.
  destruct (find_prev_dir A s dir l n name Hs Hd Hnn) as (l1 & -> & Hl1). rewrite res_bind_ok.
  pose proof (find_get (sh_tree _ _ Hs) dir l name Hd) as Hfg.
  destruct (Z.eqb_spec (a_find l name) 0) as [Hz|Hz]; [rewrite (proj1 Hfg Hz); by eexists|].
  destruct (a_get A (a_find l name)) as [k|] eqn:Hk; [|tauto].
  destruct (shows_get Hs _ _ Hk) as (x & Hx & Hf & _). rewrite (node_ok _ _ _ Hx), res_bind_ok, Hf.
  destruct k as [b|l'|t]; simpl; [|by eexists|].
  all: destruct (drop_child_ok A s dir l l1 name x _ Hs Hd Hz (Hl1 Hz) Hx Hk) as (m & -> & Hm & Hs'); [done|]; rewrite res_bind_ok.
  all: pose proof (used_after A s _ x Hs Hx) as Hu.
  all: destruct (n_data x); simpl; rewrite kfree_node_ok, res_bind_ok by done; eexists; (split; [done|]).
  all: unfold set_used, set_nodes; simpl; rewrite Hu; done.
Qed.

Lemma rmdir_ok A s dir name : shows A s -> arg A dir ->
  exists s', tmpfs_rmdir_impl s dir name = Ok ((a_rmdir A dir name).1, s') /\ shows (a_rmdir A dir name).2 s'.
Proof.
  intros Hs Ha. unfold tmpfs_rmdir_impl, a_rmdir. rewrite (dir_guard A) by done.
  destruct (a_get A dir) as [[| l |]|] eqn:Hd; [by eexists| |by eexists..].
  destruct (shows_get Hs dir _ Hd) as (n & Hnn & _). rewrite (node_ok _ _ _ Hnn), res_bind_ok.
  destruct (find_prev_dir A s dir l n name Hs Hd Hnn) as (l1 & -> & Hl1). rewrite res_bind_ok.
  pose proof (find_get (sh_tree _ _ Hs) dir l name Hd) as Hfg.
  destruct (Z.eqb_spec (a_find l name) 0) as [Hz|Hz]; [rewrite (proj1 Hfg Hz); by eexists|].
  destruct (a_get A (a_find l name)) as [k|] eqn:Hk; [|tauto].
  destruct (shows_get Hs _ _ Hk) as (x & Hx & Hf & Hkd). rewrite (node_ok _ _ _ Hx), res_bind_ok, Hf.
  destruct k as [b|l'|t]; simpl; [by eexists| |by eexists]. destruct Hkd as (Hc & _ & Hcap). destruct l' as [|[nm c] l'].
  - rewrite Hc. simpl. destruct (drop_child_ok A s dir l l1 name x _ Hs Hd Hz (Hl1 Hz) Hx Hk) as (m & -> & Hm & Hs'); [done|]. rewrite res_bind_ok, kfree_node_ok, res_bind_ok by done.
    eexists. split; [done|]. unfold set_nodes. simpl. rewrite Hcap, Z.sub_0_r in Hs'. done.
  - destruct Hc as (-> & Hc & _). rewrite (proj2 (Z.eqb_neq c 0)) by done. by eexists.
Qed.
