(* ===== verification/TmpfsSim.v ===== *)
(** Files and directories made by path ([tmpfs_add_file], [tmpfs_mkdir_p],
    [tmpfs_create_file] and [tmpfs_create_symlink] of src/kernel/tmpfs.c), and sequences
    of operations, which follow the abstract tree. *)

From S2P Require Import Prelude Tmpfs TmpfsSpec TmpfsInv TmpfsRep TmpfsOps.

(** ** The parts of a path *)

Lemma skip_slashes_parts p : parts (skip_slashes p) = parts p.
Proof.
  induction p as [|c p IH]; [done|]. simpl. destruct (Z.eqb_spec c SLASH) as [->|]; [|done]. rewrite IH. done.
Qed.

Lemma skip_slashes_length p : (length (skip_slashes p) <= length p)%nat.
Proof. induction p as [|c p IH]; simpl; [lia|]. destruct (c =? SLASH); simpl; lia. Qed.

Lemma skip_slashes_head p : skip_slashes p = [] \/ exists c q, skip_slashes p = c :: q /\ c <> SLASH.
Proof. induction p as [|c p IH]; simpl; [by left|]. destruct (Z.eqb_spec c SLASH); [done|]. right. eauto. Qed.

Lemma span_part_split p a r : span_part p = (a, r) ->
  p = a ++ r /\ exists q, split_slash p = a :: q /\ (r = [] /\ q = [] \/ exists r', r = SLASH :: r' /\ q = split_slash r').
Proof.
  revert a r. induction p as [|c p IH]; intros a r; simpl; [intros [= <- <-]; split; [done|]; eexists; eauto|].
  destruct (Z.eqb_spec c SLASH) as [->|Hc].
  - intros [= <- <-]. split; [done|]. eexists. split; [done|]. right. eauto.
  - destruct (span_part p) as [a' r'] eqn:E. intros [= <- <-]. destruct (IH _ _ eq_refl) as (-> & q & -> & H). split; [done|]. eauto.
Qed.

(** One step along a path takes the first of its parts. *)
Lemma split_next_ok p :
  match tmpfs_split_next p 128 with
  | None => parts p = []
  | Some (a, r) => parts p = a :: parts r /\ (length r < length p)%nat /\ (r = [] <-> parts r = []) /\ short a /\ a <> []
  end.
Proof.
  unfold tmpfs_split_next. rewrite <- (skip_slashes_parts p). pose proof (skip_slashes_length p) as Hlen.
  destruct (skip_slashes_head p) as [->|(c & q & E & Hc)]; [done|]. rewrite E in *. clear E.
  destruct (span_part (c :: q)) as [a r] eqn:Es. destruct (span_part_split _ _ _ Es) as (Ep & ps & Esp & Hr).
  assert (exists a', a = c :: a') as [a' ->].
  { simpl in Es. rewrite (proj2 (Z.eqb_neq c SLASH)) in Es by done. destruct (span_part q). injection Es as <- _. eauto. }
  change (strtrunc 128 (c :: a')) with (c :: take 126 a'). split_and!.
  - unfold parts at 1. rewrite Esp, filter_cons_True by done. rewrite fmap_cons. change (take 127 (c :: a')) with (c :: take 126 a'). f_equal.
    destruct Hr as [[-> ->]|(r' & -> & ->)]; [done|]. simpl. by rewrite skip_slashes_parts.
  - pose proof (skip_slashes_length r). rewrite Ep in Hlen. simpl in Hlen. rewrite length_app in Hlen. lia.
  - split; [by intros ->|]. destruct (skip_slashes_head r) as [->|(d & t & -> & Hd)]; [done|].
    unfold parts. destruct (span_part (d :: t)) as [b u] eqn:Eb. destruct (span_part_split _ _ _ Eb) as (_ & qs & -> & _).
    assert (b <> []) as Hb. { simpl in Eb. rewrite (proj2 (Z.eqb_neq d SLASH)) in Eb by done. destruct (span_part t). by injection Eb as <- _. }
    rewrite filter_cons_True by done. done.
  - unfold short. simpl. rewrite length_take. lia.
  - done.
Qed.

(** ** Directories along a path *)

Lemma ensure_ok A s mem dir l name : shows A s -> fresh A mem -> short name -> name <> [] -> a_get A dir = Some (ADir l) ->
  exists d A' s' mem', a_ensure A mem dir name = (d, A', mem') /\ tmpfs_child_ensure_dir s mem dir name = Ok (d, s', mem') /\
    shows A' s' /\ fresh A' mem' /\ (d <> 0 -> exists l', a_get A' d = Some (ADir l')).
Proof.
  intros Hs Hf Hn Hne Hd. unfold tmpfs_child_ensure_dir, a_ensure. rewrite Hd.
  rewrite (proj2 (Z.eqb_neq dir 0)), bool_decide_eq_false_2 by (done || by apply (live_nonnull A dir _ (sh_tree _ _ Hs) Hd)). cbn [orb].
  rewrite (child_find_ok A s dir l) by done. rewrite res_bind_ok. pose proof (find_get (sh_tree _ _ Hs) dir l name Hd) as Hfg.
  destruct (Z.eqb_spec (a_find l name) 0) as [Hz|Hz]; cbn [negb].
  - rewrite (proj1 Hfg Hz). destruct (child_ok A s mem dir l name (ADir [])) as (p & A' & mem' & s1 & -> & Ea & Hf' & H); [done..|]. simpl in Ea. rewrite Ea.
    destruct (Z.eqb_spec p 0) as [->|]; [destruct H as [-> ->]; eexists _, _, _, _; by split_and!|].
    destruct H as (Hg & s' & -> & Hs'). rewrite res_bind_ok. eexists _, _, _, _. split_and!; [done..|]. eauto.
  - destruct (a_get A (a_find l name)) as [k|] eqn:Hk; [|tauto]. destruct (shows_get Hs _ _ Hk) as (x & Hx & Hfl & _). rewrite (node_ok _ _ _ Hx), res_bind_ok, Hfl.
    destruct k as [b|l'|t]; simpl; eexists _, _, _, _; split_and!; (done || eauto).
Qed.

Lemma mkdir_parts_ok : forall fuel A s mem cur l p, shows A s -> fresh A mem -> a_get A cur = Some (ADir l) -> (length p < fuel)%nat ->
  exists d A' s' mem', a_ensure_all A mem cur (parts p) = (d, A', mem') /\
    mkdir_parts fuel s mem cur p = Ok (if d =? 0 then - ENOMEM else 0, s', mem') /\ shows A' s'.
Proof.
  induction fuel as [|fuel IH]; intros A s mem cur l p Hs Hf Hc Hl; [lia|]. cbn [mkdir_parts]. pose proof (split_next_ok p) as Hp.
  destruct (tmpfs_split_next p 128) as [[a r]|].
  - destruct Hp as (-> & Hlen & _ & Ha & Hne). cbn [a_ensure_all].
    destruct (ensure_ok A s mem cur l a Hs Hf Ha Hne Hc) as (d & A' & s' & mem' & -> & -> & Hs' & Hf' & Hd). rewrite res_bind_ok.
    destruct (Z.eqb_spec d 0) as [->|H0]; [eexists 0, A', s', mem'; done|]. destruct (Hd H0) as [l' Hl']. apply (IH A' s' mem' d l'); (done || lia).
  - rewrite Hp. simpl. exists cur, A, s, mem. rewrite (proj2 (Z.eqb_neq cur 0)) by (by apply (live_nonnull A cur _ (sh_tree _ _ Hs) Hc)). done.
Qed.

Lemma mkdir_p_ok A s mem root path : shows A s -> fresh A mem -> arg A root ->
  exists s' mem', tmpfs_mkdir_p s mem root path = Ok ((a_mkdir_p A mem root path).1, s', mem') /\ shows (a_mkdir_p A mem root path).2 s'.
Proof.
  intros Hs Hf Ha. unfold tmpfs_mkdir_p, a_mkdir_p. rewrite (dir_guard A) by done.
  destruct (a_get A root) as [[| l |]|] eqn:Hd; [by eexists _, _| |by eexists _, _..].
  destruct (shows_get Hs root _ Hd) as (n & Hnn & _). rewrite (node_ok _ _ _ Hnn), res_bind_ok.
  destruct (mkdir_parts_ok (S (length path)) A s mem root l path Hs Hf Hd) as (d & A' & s' & mem' & -> & -> & Hs'); [lia|]. by eexists _, _.
Qed.

Lemma leaf_parts_ok : forall fuel A s mem cur l p, shows A s -> fresh A mem -> a_get A cur = Some (ADir l) -> (length p < fuel)%nat ->
  exists d A' s' mem', a_ensure_all A mem cur (removelast (parts p)) = (d, A', mem') /\ shows A' s' /\ fresh A' mem' /\
    (d <> 0 -> exists l', a_get A' d = Some (ADir l')) /\
    leaf_parts fuel s mem cur p = Ok (d, if d =? 0 then [] else default [] (last (parts p)), s', mem').
Proof.
  induction fuel as [|fuel IH]; intros A s mem cur l p Hs Hf Hc Hl; [lia|]. cbn [leaf_parts]. pose proof (split_next_ok p) as Hp.
  assert ((cur =? 0) = false) as H0 by (apply Z.eqb_neq; by apply (live_nonnull A cur _ (sh_tree _ _ Hs) Hc)).
  destruct (tmpfs_split_next p 128) as [[a r]|]; [|rewrite Hp; exists cur, A, s, mem; simpl; rewrite H0; split_and!; (done || eauto)].
  destruct Hp as (-> & Hlen & Hr & Ha & Hne). case_bool_decide as E.
  - rewrite (proj1 Hr E). exists cur, A, s, mem. simpl. rewrite H0. split_and!; (done || eauto).
  - destruct (parts r) as [|b ps] eqn:Ep; [destruct E; by apply Hr|]. cbn [removelast a_ensure_all].
    destruct (ensure_ok A s mem cur l a Hs Hf Ha Hne Hc) as (d & A' & s' & mem' & -> & -> & Hs' & Hf' & Hd). rewrite res_bind_ok.
    destruct (Z.eqb_spec d 0) as [->|Hd0]; [exists 0, A', s', mem'; by split_and!|]. destruct (Hd Hd0) as [l' Hl'].
    destruct (IH A' s' mem' d l' r) as (d2 & A2 & s2 & mem2 & E2 & Hs2 & Hf2 & Hd2 & Er); [done | done | done | lia|].
    rewrite Ep in E2, Er. exists d2, A2, s2, mem2. by split_and!.
Qed.

(** ** New files with contents *)

Lemma a_put_new A p k k' : a_put (a_new A p k) p k' = a_new A p k'.
Proof.
  unfold a_put, a_new. simpl. f_equal. apply map_eq. intros q. destruct (decide (p = q)) as [->|].
  - by rewrite lookup_alter_eq, !lookup_insert_eq.
  - by rewrite lookup_alter_ne, !lookup_insert_ne.
Qed.

(** The contents of a new file, when there is room for them. *)
Lemma fill_file_ok A s mem p n data : shows (a_new A p (AFile [])) s -> t_nodes s !! p = Some n -> n_data n = None -> n_cap n = 0 ->
  Z.of_nat (length data) < 4294967296 ->
  exists room s' mem', fill_file s mem p data = Ok (room || bool_decide (data = []), s', mem') /\
    (spare s mem (Z.of_nat (length data)) -> room = true) /\
    if room || bool_decide (data = []) then shows (a_new A p (AFile data)) s' /\ exists n', t_nodes s' !! p = Some n' /\ n_name n' = n_name n
    else shows (a_del (a_new A p (AFile [])) p) s'.
Proof.
  intros Hs Hn Hdn Hc Hlen. unfold fill_file, spare. pose proof (shows_used Hs) as Hu. unfold TMPFS_GLOBAL_QUOTA in *.
  destruct (Z.eqb_spec (Z.of_nat (length data)) 0) as [E|E].
  { destruct data; [|simpl in E; lia]. exists true, s, mem. split_and!; try done. simpl. eauto. }
  assert (shows (a_del (a_new A p (AFile [])) p) (set_nodes (delete p (t_nodes s)) s)) as Hdel.
  { apply (del_shows _ _ _ n (AFile [])); try done; [by rewrite get_new, decide_True | by rewrite parent_new, decide_True]. }
  rewrite bool_decide_eq_false_2 by (by intros ->). rewrite (kfree_node_ok s p), !res_bind_ok, u64_small by (eauto || lia).
  set (len := Z.of_nat (length data)) in *. destruct (Z.ltb_spec 536870912 (t_used s + len)) as [Hq|Hq].
  { exists false, (set_nodes (delete p (t_nodes s)) s), mem. split_and!; [done | lia | done]. }
  destruct (kmalloc mem) as [q mem']. destruct (Z.eqb_spec q 0) as [->|Hq0].
  { exists false, (set_nodes (delete p (t_nodes s)) s), mem'. split_and!; [done | simpl; lia | done]. }
  destruct (buffer_put_ok data (arr_new len 0) 0) as (a & -> & Ha1 & Ha2); [lia | simpl; lia|].
  unfold upd. rewrite (node_ok _ _ _ Hn), !res_bind_ok. eexists true, _, _. split; [done|]. split; [done|]. simpl.
  split; [|eexists; rewrite lookup_insert_eq; split; done]. rewrite u64_small by lia. rewrite <- (a_put_new A p (AFile [])).
  replace (t_used s + len) with (t_used s - n_cap n + len) by lia.
  apply (put_shows _ s p n (set_data (Some a) len len n) (AFile [])); try done; [by rewrite get_new, decide_True| |simpl; unfold TMPFS_GLOBAL_QUOTA; lia].
  destruct (shows_get Hs p (AFile [])) as (n0 & Hn0 & Hf & _); [by rewrite get_new, decide_True|]. assert (n0 = n) as -> by congruence.
  split; [done|]. split; [done|]. simpl. split; [done|]. split; [lia|]. split; [lia|].
  intros i Hi. rewrite Ha2. zdecide. simpl. by rewrite Z.sub_0_r.
Qed.

(** A new file with contents, in a directory where its name is free. *)
Lemma file_ok_in A s mem dir l name data : shows A s -> fresh A mem -> short name -> Z.of_nat (length data) < 4294967296 ->
  a_get A dir = Some (ADir l) -> a_find l name = 0 ->
  exists room p s1 mem1, tmpfs_node_alloc s mem name FS_FILE = (p, s1, mem1) /\ (spare s mem1 (Z.of_nat (length data)) -> room = true) /\
    if p =? 0 then a_file room A mem dir name data = (0, A) /\ s1 = s
    else exists s2 mem2, fill_file s1 mem1 p data = Ok (room || bool_decide (data = []), s2, mem2) /\
      if room || bool_decide (data = []) then
        (a_file room A mem dir name data).1 = p /\ exists s', tmpfs_child_add s2 dir p = Ok s' /\ shows (a_file room A mem dir name data).2 s'
      else (a_file room A mem dir name data).1 = 0 /\ shows (a_file room A mem dir name data).2 s2.
Proof.
  intros Hs Hf Hn Hlen Hd Hz. pose proof (node_alloc_ok A s mem name (AFile []) Hs Hf Hn eq_refl) as H. unfold a_file.
  destruct (kmalloc mem) as [p mem1] eqn:E. destruct H as (s1 & Ha & H). destruct (p =? 0) eqn:E0.
  { exists true, p, s1, mem1. split; [done|]. split; [done|]. rewrite E0. done. }
  destruct H as (Hs1 & Hp & _ & _ & n & Hnn & Hname & Hu).
  destruct (shows_get Hs1 p (AFile [])) as (n0 & Hn0 & _ & Hfo); [by rewrite get_new, decide_True|]. assert (n0 = n) as -> by congruence.
  assert (n_data n = None /\ n_cap n = 0) as [Hnd Hnc].
  { unfold tmpfs_node_alloc in Ha. rewrite E, E0 in Ha. injection Ha as <-. simpl in Hnn. rewrite lookup_insert_eq in Hnn. by injection Hnn as <-. }
  destruct (fill_file_ok A s1 mem1 p n data Hs1 Hnn Hnd Hnc Hlen) as (room & s2 & mem2 & Efill & Hsp & Hr).
  exists room, p, s1, mem1. split; [done|]. split; [unfold spare in *; by rewrite <- Hu|]. rewrite E0. exists s2, mem2. split; [done|].
  destruct (room || bool_decide (data = [])); [|done]. split; [done|]. destruct Hr as (Hs2 & n' & Hn' & Hname'). simpl.
  apply (attach_new_ok A s2 dir l name p (AFile data) n'); try done; [apply Hs | congruence].
Qed.

Lemma add_file_ok A s mem dir name data : shows A s -> fresh A mem -> short name -> Z.of_nat (length data) < 4294967296 -> arg A dir ->
  exists room s' mem', tmpfs_add_file s mem dir name data = Ok ((a_add_file room A mem dir name data).1, s', mem') /\
    shows (a_add_file room A mem dir name data).2 s' /\ (spare s (kmalloc mem).2 (Z.of_nat (length data)) -> room = true).
Proof.
  intros Hs Hf Hn Hlen Ha. unfold tmpfs_add_file, a_add_file. rewrite (dir_guard A) by done.
  destruct (a_get A dir) as [[| l |]|] eqn:Hd; [by eexists true, _, _| |by eexists true, _, _..].
  destruct (shows_get Hs dir _ Hd) as (n & Hnn & _). rewrite (node_ok _ _ _ Hnn), res_bind_ok. case_bool_decide; [by eexists true, _, _|].
  rewrite (child_find_ok A s dir l) by done. rewrite res_bind_ok. destruct (Z.eqb_spec (a_find l name) 0) as [Hz|Hz]; cbn [negb]; [|by eexists true, _, _].
  destruct (file_ok_in A s mem dir l name data) as (room & p & s1 & mem1 & E & Hsp & H'); [done..|].
  assert ((kmalloc mem).2 = mem1) as -> by (unfold tmpfs_node_alloc in E; destruct (kmalloc mem) as [p0 m0]; destruct (p0 =? 0); by injection E as _ _ <-).
  rewrite E. exists room. destruct (Z.eqb_spec p 0) as [->|Hp]; [destruct H' as [-> ->]; by eexists _, _|].
  destruct H' as (s2 & mem2 & -> & H'). rewrite res_bind_ok. destruct (a_file room A mem dir name data) as [q A'].
  destruct (room || bool_decide (data = [])); simpl in *.
  - destruct H' as (-> & s' & -> & Hs'). rewrite res_bind_ok, (proj2 (Z.eqb_neq p 0)) by done. by eexists _, _.
  - destruct H' as [-> Hs']. by eexists _, _.
Qed.

(** ** What a walk along a path leaves *)

(** At least [k] answers of [kmalloc] are not null. *)
Definition ample (k : nat) (mem : list Z) : Prop := (k <= length mem)%nat /\ Forall (fun p => 0 < p) mem.

Lemma ample_kmalloc k mem : ample (S k) mem -> 0 < (kmalloc mem).1 /\ ample k (kmalloc mem).2.
Proof. intros [Hl Hf]. destruct mem as [|p mem]; simpl in *; [lia|]. apply Forall_cons in Hf as [Hp Hf]. split; [done|]. split; [lia | done]. Qed.

Lemma ample_weaken k k' mem : (k' <= k)%nat -> ample k mem -> ample k' mem.
Proof. intros H [Hl Hf]. split; [lia | done]. Qed.

Lemma ensure_ample A mem dir name d A' mem' k : a_ensure A mem dir name = (d, A', mem') -> ample (S k) mem -> ample k mem'.
Proof.
  unfold a_ensure, a_child. intros E H. destruct (ample_kmalloc k mem H) as [_ Hk]. apply (ample_weaken _ k) in H; [|lia].
  destruct (kmalloc mem) as [p m]. destruct (a_get A dir) as [[| l |]|]; try (by injection E as _ _ <-).
  destruct (a_get A (a_find l name)) as [[| |]|]; try (by injection E as _ _ <-). destruct (p =? 0); by injection E as _ _ <-.
Qed.

Lemma ensure_all_ample ps : forall A mem dir d A' mem' k, a_ensure_all A mem dir ps = (d, A', mem') -> ample (length ps + k) mem -> ample k mem'.
Proof.
  induction ps as [|name ps IH]; intros A mem dir d A' mem' k E H; simpl in *; [by injection E as _ _ <-|].
  destruct (a_ensure A mem dir name) as [[d1 A1] mem1] eqn:E1. apply (ensure_ample _ _ _ _ _ _ _ (length ps + k)) in E1; [|done].
  destruct (d1 =? 0); [injection E as _ _ <-; apply (ample_weaken (length ps + k)); (done || lia)|]. by apply (IH A1 mem1 d1 d A' mem' k).
Qed.

Lemma child_add_used s dir p s' : tmpfs_child_add s dir p = Ok s' -> t_used s' = t_used s.
Proof.
  unfold tmpfs_child_add, upd, node. intros E. destruct (t_nodes s !! dir); [|done]. simpl in E. destruct (t_nodes s !! p); [|done]. simpl in E.
  destruct (_ !! dir); [|done]. simpl in E. by injection E as <-.
Qed.

Lemma ensure_used s mem dir name d s' mem' : tmpfs_child_ensure_dir s mem dir name = Ok (d, s', mem') -> t_used s' = t_used s.
Proof.
  unfold tmpfs_child_ensure_dir. destruct (_ || _); [by intros [= _ <- _]|]. intros E. apply res_bind_ok_inv in E as (c & _ & E).
  destruct (negb (c =? 0)); [apply res_bind_ok_inv in E as (n & _ & E); by injection E as _ <- _|].
  unfold tmpfs_node_alloc in E. destruct (kmalloc mem) as [p m]. destruct (p =? 0) eqn:E0; [by injection E as _ <- _|]. rewrite E0 in E.
  apply res_bind_ok_inv in E as (s1 & E1 & E). injection E as _ <- _. by apply child_add_used in E1.
Qed.

Lemma leaf_parts_used fuel : forall s mem cur p d leaf s' mem', leaf_parts fuel s mem cur p = Ok (d, leaf, s', mem') -> t_used s' = t_used s.
Proof.
  induction fuel as [|fuel IH]; intros s mem cur p d leaf s' mem' E; simpl in E; [done|]. destruct (tmpfs_split_next p 128) as [[a r]|]; [|by injection E as _ _ <- _].
  case_bool_decide; [by injection E as _ _ <- _|]. apply res_bind_ok_inv in E as ([[d1 s1] mem1] & E1 & E). apply ensure_used in E1.
  destruct (d1 =? 0); [by injection E as _ _ <- _|]. apply IH in E. congruence.
Qed.

(** ** Files and links by path *)

Lemma leaf_nonempty p leaf : last (parts p) = Some leaf -> leaf <> [] /\ short leaf.
Proof.
  unfold parts. rewrite fmap_last. intros H. destruct (last (filter _ _)) as [a|] eqn:E; [|done]. injection H as <-.
  apply last_Some in E as [l' E]. assert (a ∈ l' ++ [a]) as Ha by (apply elem_of_app; right; left).
  rewrite <- E in Ha.  apply list_elem_of_filter in Ha as [Ha _]. split; [by destruct a|]. unfold short. rewrite length_take. lia.
Qed.

Definition roomy_path (s : tmpfs) (mem : list Z) (path : cstr) (data : list Z) : Prop :=
  ample (length (parts path) + 2) mem /\ Z.of_nat (length data) <= TMPFS_MAX_CAP /\
  t_used s + Z.max 64 (2 * Z.of_nat (length data)) <= TMPFS_GLOBAL_QUOTA.

Lemma roomy_spare s s' mem mem' path data k : roomy_path s mem path data -> t_used s' = t_used s -> ample (S k) mem' -> spare s' mem' (Z.of_nat (length data)).
Proof. intros (_ & H1 & H2) Hu Ha. unfold spare. rewrite Hu. split; [|done]. apply (ample_kmalloc k mem' Ha). Qed.

(** The directory of the last part, with everything the walk keeps. *)
Lemma leaf_walk A s mem root l path : shows A s -> fresh A mem -> a_get A root = Some (ADir l) ->
  exists d A' s' mem', a_ensure_all A mem root (removelast (parts path)) = (d, A', mem') /\
    leaf_parts (S (length path)) s mem root path = Ok (d, if d =? 0 then [] else default [] (last (parts path)), s', mem') /\
    shows A' s' /\ fresh A' mem' /\ t_used s' = t_used s /\ (d <> 0 -> exists l', a_get A' d = Some (ADir l')) /\
    (last (parts path) = None -> d <> 0 /\ A' = A) /\ (forall k, ample (length (parts path) + k) mem -> ample k mem').
Proof.
  intros Hs Hf Hd. destruct (leaf_parts_ok (S (length path)) A s mem root l path Hs Hf Hd) as (d & A' & s' & mem' & Eall & Hs' & Hf' & Hdir & Elp); [lia|].
  exists d, A', s', mem'. split_and!; try done.
  - by apply leaf_parts_used in Elp.
  - intros El. apply last_None in El. rewrite El in Eall. simpl in Eall. injection Eall as <- <- _.
    split; [by apply (live_nonnull A root _ (sh_tree _ _ Hs) Hd) | done].
  - intros k Hk. apply (ensure_all_ample _ _ _ _ _ _ _ _ Eall). apply (ample_weaken (length (parts path) + k)); [|done].
    destruct (parts path) as [|x ps]; [simpl; lia|]. rewrite (app_removelast_last x (l := x :: ps)) at 2 by done. rewrite length_app. simpl; lia.
Qed.

(** A file that exists gets new bytes at its start. *)
Lemma overwrite_ok A s mem c b data : shows A s -> a_get A c = Some (AFile b) ->
  exists room s' mem',
    (if bool_decide (data = []) then mret (c, s, mem)
     else let '(buf, mem) := kmalloc mem in
       if buf =? 0 then mret (0, s, mem) else '(_, s, mem) ← tmpfs_write_impl s mem c 0 data; mret (c, s, mem)) =
    Ok ((if bool_decide (data = []) then c else if (kmalloc mem).1 =? 0 then 0 else c), s', mem') /\
    shows (if bool_decide (data = []) || ((kmalloc mem).1 =? 0) then A else (a_write room A c 0 data).2) s' /\
    (spare s (kmalloc mem).2 (Z.of_nat (length data)) -> room = true).
Proof.
  intros Hs Hc. case_bool_decide; [by eexists true, _, _|]. destruct (kmalloc mem) as [p m]. simpl. destruct (p =? 0); [by eexists true, _, _|].
  destruct (write_ok A s m c 0 data Hs) as (room & s' & mem' & -> & Hs' & Hsp); [|lia|].
  { right. unfold a_get in Hc. by destruct (a_nodes A !! c). }
  rewrite res_bind_ok. exists room, s', mem'. done.
Qed.

Lemma create_file_ok A s mem root path data : shows A s -> fresh A mem -> Z.of_nat (length data) < 4294967296 -> arg A root ->
  exists room s' mem', tmpfs_create_file s mem root path data = Ok ((a_create_file room A mem root path data).1, s', mem') /\
    shows (a_create_file room A mem root path data).2 s' /\ (roomy_path s mem path data -> room = true).
Proof.
  intros Hs Hf Hlen Ha. unfold tmpfs_create_file, a_create_file. rewrite (dir_guard A) by done.
  destruct (a_get A root) as [[| l |]|] eqn:Hd; [by eexists true, _, _| |by eexists true, _, _..].
  destruct (shows_get Hs root _ Hd) as (n & Hnn & _). rewrite (node_ok _ _ _ Hnn), res_bind_ok.
  destruct (leaf_walk A s mem root l path Hs Hf Hd) as (d & A' & s' & mem' & Eall & -> & Hs' & Hf' & Hu & Hdir & Hnone & Hamp). rewrite res_bind_ok, Eall.
  destruct (last (parts path)) as [leaf|] eqn:El; [|destruct (Hnone eq_refl) as [Hd0 ->]; rewrite (proj2 (Z.eqb_neq d 0)) by done; by eexists true, _, _].
  destruct (Z.eqb_spec d 0) as [->|Hd0]; [rewrite (ok_null _ (sh_tree _ _ Hs')); by eexists true, _, _|].
  destruct (Hdir Hd0) as [l' Hl']. rewrite Hl'. destruct (leaf_nonempty path leaf El) as [Hne Hshort]. change (default [] (Some leaf)) with leaf. rewrite bool_decide_eq_false_2 by done.
  rewrite (child_find_ok A' s' d l') by done. rewrite res_bind_ok. pose proof (find_get (sh_tree _ _ Hs') d l' leaf Hl') as Hfg.
  destruct (Z.eqb_spec (a_find l' leaf) 0) as [Hz|Hz]; cbn [negb].
  - rewrite (proj1 Hfg Hz). destruct (file_ok_in A' s' mem' d l' leaf data) as (room & p & s1 & mem1 & E & Hsp & H'); [done..|].
    assert (roomy_path s mem path data -> room = true) as Hroom.
    { intros Hr. apply Hsp. destruct (ample_kmalloc 1 mem') as [_ Ha1]; [by apply Hamp, Hr|]. unfold tmpfs_node_alloc in E.
      destruct (kmalloc mem') as [p0 m0]. assert (mem1 = m0) as -> by (destruct (p0 =? 0); by injection E). by apply (roomy_spare s _ mem _ path _ 0). }
    rewrite E. exists room. destruct (Z.eqb_spec p 0) as [->|Hp]; [destruct H' as [-> ->]; by eexists _, _|].
    destruct H' as (s2 & mem2 & -> & H'). rewrite res_bind_ok. destruct (a_file room A' mem' d leaf data) as [q A2].
    destruct (room || bool_decide (data = [])); simpl in *; [destruct H' as (-> & s3 & -> & Hs3) | destruct H' as [-> Hs3]]; by eexists _, _.
  - destruct (a_get A' (a_find l' leaf)) as [k|] eqn:Hk; [|tauto]. destruct (shows_get Hs' _ _ Hk) as (x & Hx & Hfl & _). rewrite (node_ok _ _ _ Hx), res_bind_ok, Hfl.
    destruct k as [b|l2|t]; cbn [negb kind_flags]; [|by eexists true, _, _..]. rewrite Z.eqb_refl. cbn [negb].
    destruct (overwrite_ok A' s' mem' (a_find l' leaf) b data Hs' Hk) as (room & s2 & mem2 & -> & Hs2 & Hsp). exists room, s2, mem2.
    assert (roomy_path s mem path data -> room = true) as Hroom.
    { intros Hr. apply Hsp. destruct (ample_kmalloc 1 mem') as [_ Ha1]; [by apply Hamp, Hr|]. by apply (roomy_spare s _ mem _ path _ 0). }
    destruct (bool_decide (data = [])); [done|]. destruct (kmalloc mem') as [q m]. simpl in *. by destruct (q =? 0).
Qed.

(** The target of a new link. *)
Lemma link_target_ok A s p n target len : shows (a_new A p (ALink [])) s -> t_nodes s !! p = Some n ->
  shows (a_new A p (ALink target)) (put s p (set_target target len n)).
Proof.
  intros Hs Hn. rewrite <- (a_put_new A p (ALink [])).
  destruct (shows_get Hs p (ALink [])) as (n0 & Hn0 & Hf & _ & Hd & Hc); [by rewrite get_new, decide_True|]. assert (n0 = n) as -> by congruence.
  replace (put s p _) with (set_used (t_used s - n_cap n + n_cap (set_target target len n)) (put s p (set_target target len n))).
  2:{ unfold set_used, put, set_nodes. simpl. f_equal. lia. }
  apply (put_shows _ s p n (set_target target len n) (ALink [])); try done; [by rewrite get_new, decide_True|].
  pose proof (sh_quota _ _ Hs). simpl. lia.
Qed.

Lemma create_symlink_ok A s mem root path target : shows A s -> fresh A mem -> arg A root ->
  exists s' mem', tmpfs_create_symlink s mem root path target = Ok ((a_create_symlink A mem root path target).1, s', mem') /\
    shows (a_create_symlink A mem root path target).2 s'.
Proof.
  intros Hs Hf Ha. unfold tmpfs_create_symlink, a_create_symlink. rewrite (dir_guard A) by done.
  destruct (a_get A root) as [[| l |]|] eqn:Hd; [by eexists _, _| |by eexists _, _..].
  destruct (shows_get Hs root _ Hd) as (n & Hnn & _). rewrite (node_ok _ _ _ Hnn), res_bind_ok.
  destruct (leaf_walk A s mem root l path Hs Hf Hd) as (d & A' & s' & mem' & Eall & -> & Hs' & Hf' & _ & Hdir & Hnone & _). rewrite res_bind_ok, Eall.
  destruct (last (parts path)) as [leaf|] eqn:El; [|destruct (Hnone eq_refl) as [Hd0 ->]; rewrite (proj2 (Z.eqb_neq d 0)) by done; by eexists _, _].
  destruct (Z.eqb_spec d 0) as [->|Hd0]; [rewrite (ok_null _ (sh_tree _ _ Hs')); by eexists _, _|].
  destruct (Hdir Hd0) as [l' Hl']. rewrite Hl'. destruct (leaf_nonempty path leaf El) as [Hne Hshort]. change (default [] (Some leaf)) with leaf. rewrite bool_decide_eq_false_2 by done.
  rewrite (child_find_ok A' s' d l') by done. rewrite res_bind_ok. destruct (Z.eqb_spec (a_find l' leaf) 0) as [Hz|Hz]; cbn [negb]; [|by eexists _, _].
  pose proof (node_alloc_ok A' s' mem' leaf (ALink []) Hs' Hf' Hshort eq_refl) as H. unfold a_child. cbn [kind_flags] in H.
  destruct (kmalloc mem') as [p m]. destruct H as (s1 & -> & H). destruct (Z.eqb_spec p 0) as [->|Hp]; [subst; by eexists _, _|].
  destruct H as (Hs1 & Hpn & _ & _ & x & Hx & Hname & _). unfold upd. rewrite (node_ok _ _ _ Hx), !res_bind_ok.
  apply (link_target_ok _ _ _ x (strtrunc 128 target) (Z.of_nat (length target))) in Hs1; [|done].
  destruct (attach_new_ok A' _ d l' leaf p _ (set_target (strtrunc 128 target) (Z.of_nat (length target)) x) Hs1 (sh_tree _ _ Hs') Hpn) as (s2 & -> & Hs2); try done.
  { simpl. by rewrite lookup_insert_eq. }
  rewrite res_bind_ok, (proj2 (Z.eqb_neq p 0)) by done. by eexists _, _.
Qed.

(** What the callers of an operation see to: node arguments are nodes, names fit in
    their buffer, offsets and sizes do not pass the end of the 32-bit range. *)
Definition tpre (A : atree) (o : top) : Prop :=
  match o with
  | TRead nd off size => arg A nd /\ 0 <= off /\ 0 <= size /\ off + size < 4294967296
  | TWrite nd off buf => arg A nd /\ 0 <= off
  | TFind nd name => arg A nd
  | TReaddir nd idx len => arg A nd /\ 0 <= idx /\ 0 <= len < 2147483648 /\ idx + len < 4294967296
  | TMkdir dir name | TCreate dir name _ => arg A dir /\ short name
  | TUnlink dir name | TRmdir dir name => arg A dir
  | TAddFile dir name data => arg A dir /\ short name /\ Z.of_nat (length data) < 4294967296
  | TMkdirP root _ | TSymlink root _ _ => arg A root
  | TCreateFile root _ data => arg A root /\ Z.of_nat (length data) < 4294967296
  end.

(** When there is certainly room for the bytes of a file. *)
Definition roomy (s : tmpfs) (mem : list Z) (o : top) : Prop :=
  match o with
  | TWrite _ off buf => spare s mem (off + Z.of_nat (length buf))
  | TAddFile _ _ data => spare s (kmalloc mem).2 (Z.of_nat (length data))
  | TCreateFile _ path data => roomy_path s mem path data
  | _ => True
  end.

(** One operation answers and changes the tree as [aexec] says. *)
Lemma texec_ok A s mem o : shows A s -> fresh A mem -> tpre A o ->
  exists room s', texec s mem o = Ok ((aexec room A mem o).1, s') /\ shows (aexec room A mem o).2 s' /\ (roomy s mem o -> room = true).
Proof.
  intros Hs Hf Hp. destruct o; simpl in *; unfold texec, aexec.
  - exists true, s. rewrite (read_ok A) by tauto. done.
  - destruct (write_ok A s mem nd off buf Hs) as (room & s' & mem' & -> & Hs' & Hr); [tauto | tauto|].
    exists room, s'. destruct (a_write room A nd off buf). done.
  - exists true, s. rewrite (finddir_ok A) by done. done.
  - exists true, s. rewrite (readdir_ok A) by tauto. destruct (a_readdir A nd idx buf_len) as [[r l] i]. done.
  - destruct (mkdir_ok A s mem dir name Hs Hf) as (s' & mem' & -> & Hs' & _); [tauto | tauto|]. exists true, s'. destruct (a_mkdir A mem dir name). done.
  - destruct (unlink_ok A s dir name Hs Hp) as (s' & -> & Hs'). exists true, s'. destruct (a_unlink A dir name). done.
  - destruct (rmdir_ok A s dir name Hs Hp) as (s' & -> & Hs'). exists true, s'. destruct (a_rmdir A dir name). done.
  - destruct (create_entry_ok A s mem dir name flags Hs Hf) as (s' & mem' & -> & Hs' & _); [tauto | tauto|]. exists true, s'. destruct (a_create A mem dir name flags) as [[r p] A']. done.
  - destruct (add_file_ok A s mem dir name data Hs Hf) as (room & s' & mem' & -> & Hs' & Hr); [tauto..|]. exists room, s'. destruct (a_add_file room A mem dir name data). done.
  - destruct (mkdir_p_ok A s mem root path Hs Hf Hp) as (s' & mem' & -> & Hs'). exists true, s'. destruct (a_mkdir_p A mem root path). done.
  - destruct (create_file_ok A s mem root path data Hs Hf) as (room & s' & mem' & -> & Hs' & Hr); [tauto..|]. exists room, s'. destruct (a_create_file room A mem root path data). done.
  - destruct (create_symlink_ok A s mem root path target Hs Hf Hp) as (s' & mem' & -> & Hs'). exists true, s'. destruct (a_create_symlink A mem root path target). done.
Qed.

(** ** Sequences *)

(** Each operation comes with the answers [kmalloc] gives during it. *)
Fixpoint truns (s : tmpfs) (l : list (list Z * top)) : res (list tout * tmpfs) :=
  match l with
  | [] => mret ([], s)
  | (mem, o) :: l => '(r, s) ← texec s mem o; '(rs, s) ← truns s l; mret (r :: rs, s)
  end.

Fixpoint aruns (rooms : list bool) (A : atree) (l : list (list Z * top)) : list tout * atree :=
  match l, rooms with
  | (mem, o) :: l, room :: rooms =>
      let '(r, A) := aexec room A mem o in let '(rs, A) := aruns rooms A l in (r :: rs, A)
  | _, _ => ([], A)
  end.

(** The callers' part for every operation, however the ones before went. *)
Fixpoint tpres (A : atree) (l : list (list Z * top)) : Prop :=
  match l with
  | [] => True
  | (mem, o) :: l => fresh A mem /\ tpre A o /\ forall room, tpres (aexec room A mem o).2 l
  end.

Lemma truns_ok l : forall A s, shows A s -> tpres A l ->
  exists rooms s', length rooms = length l /\ truns s l = Ok ((aruns rooms A l).1, s') /\ shows (aruns rooms A l).2 s'.
Proof.
  induction l as [|[mem o] l IH]; intros A s Hs Hp; simpl; [by exists [], s|].
  destruct Hp as (Hf & Ho & Hp). destruct (texec_ok A s mem o Hs Hf Ho) as (room & s1 & -> & Hs1 & _). rewrite res_bind_ok.
  destruct (IH _ s1 Hs1 (Hp room)) as (rooms & s' & Hlen & -> & Hs'). rewrite res_bind_ok. exists (room :: rooms), s'. simpl.
  destruct (aexec room A mem o) as [r A1]. simpl in *. destruct (aruns rooms A1 l). split; [congruence|]. done.
Qed.

(** ** The types of the pointers *)

(** Every link of a node leads to a node of the right sort, and every buffer has the
    size its node says. *)
Definition typed_node (m : gmap Z tnode) (p : Z) (n : tnode) : Prop :=
  (n_flags n = FS_FILE \/ n_flags n = FS_DIRECTORY \/ n_flags n = FS_SYMLINK) /\
  (n_parent n <> 0 -> exists d, m !! n_parent n = Some d /\ n_flags d = FS_DIRECTORY) /\
  (n_parent n <> 0 -> n_next n <> 0 -> exists x, m !! n_next n = Some x /\ n_parent x = n_parent n) /\
  (n_flags n = FS_DIRECTORY -> n_first n <> 0 -> exists c, m !! n_first n = Some c /\ n_parent c = p) /\
  match n_data n with
  | Some a => n_flags n = FS_FILE /\ arr_len a = n_cap n /\ 0 <= n_length n <= n_cap n
  | None => n_cap n = 0 /\ (n_flags n = FS_FILE -> n_length n = 0)
  end.

Definition well_typed (s : tmpfs) : Prop :=
  t_nodes s !! 0 = None /\ (forall p n, t_nodes s !! p = Some n -> typed_node (t_nodes s) p n) /\
  t_used s = caps (t_nodes s) /\ 0 <= t_used s <= TMPFS_GLOBAL_QUOTA.

(** The next sibling in a list of children is the next entry. *)
Lemma chain_next m c l nm k n : chain m c l -> (nm, k) ∈ l -> m !! k = Some n -> n_next n = 0 \/ n_next n ∈ l.*2.
Proof.
  revert c. induction l as [|[e x] l IH]; intros c Hc Hin Hn; [by apply not_elem_of_nil in Hin|].
  destruct Hc as (_ & _ & y & Hy & _ & Hc). apply elem_of_cons in Hin as [[= -> ->]|Hin].
  - assert (y = n) as -> by congruence. destruct l as [|[e' x'] l]; [by left|]. destruct Hc as (-> & _). right. right. left.
  - destruct (IH _ Hc Hin Hn) as [H|H]; [by left|]. right. by right.
Qed.

Lemma sibling_concrete A s d l k : shows A s -> a_get A d = Some (ADir l) -> k ∈ l.*2 -> exists x, t_nodes s !! k = Some x /\ n_parent x = d.
Proof.
  intros Hs Hd Hk. apply (sibling_parent Hs Hd) in Hk. unfold a_parent in Hk. destruct (a_nodes A !! k) as [y|] eqn:Hy; [|done].
  injection Hk as Hk. destruct (shows_some Hs k y Hy) as (x & Hx & _ & Hp & _). exists x. split; congruence.
Qed.

Lemma shows_typed A s : shows A s -> well_typed s.
Proof.
  intros Hs. split; [apply (shows_none Hs), a_get_none, (ok_null _ (sh_tree _ _ Hs))|]. split; [|split; [apply Hs | apply (shows_used Hs)]].
  intros p n Hn. destruct (proj1 (sh_dom _ _ Hs p)) as [x Hx]; [eauto|]. destruct (sh_node _ _ Hs _ _ _ Hn Hx) as (_ & Hp & Hf & Hk).
  assert (a_parent A p = Some (n_parent n)) as Hpar by (unfold a_parent; rewrite Hx; simpl; congruence).
  split; [rewrite Hf; destruct (a_kind x); simpl; tauto|]. split; [|split; [|split]].
  - intros H0. destruct (ok_up _ (sh_tree _ _ Hs) _ _ Hpar H0) as (l & nm & Hl & _). destruct (shows_get Hs _ _ Hl) as (d & Hd & Hdf & _). by exists d.
  - intros H0 H1. destruct (ok_up _ (sh_tree _ _ Hs) _ _ Hpar H0) as (l & nm & Hl & Hin). destruct (shows_get Hs _ _ Hl) as (d & Hd & _ & Hc & _).
    destruct (chain_next _ _ _ _ _ _ Hc Hin Hn) as [|Hnx]; [done|]. by apply (sibling_concrete A s _ l).
  - rewrite Hf. intros Hfl H0. destruct (a_kind x) as [b|l|t] eqn:Ek; try done. destruct Hk as [Hc _]. destruct l as [|[nm c] l]; [done|].
    destruct Hc as (Hc & _). apply (sibling_concrete A s p ((nm, c) :: l)); [done | by rewrite (a_get_some _ _ _ Hx), Ek | rewrite Hc; left].
  - destruct (a_kind x) as [b|l|t]; simpl in Hf; [|destruct Hk as (_ & -> & ->); by rewrite Hf..].
    destruct Hk as [Hl Hk]. destruct (n_data n) as [a|]; [split; [done|]; lia|]. destruct Hk as [-> ->]. done.
Qed.
