(* ===== verification/Vfs.v ===== *)
(** Paths and mounts (src/kernel/fs.c), with the references to block devices of
    src/kernel/blockdev.c.

    The file systems behind the mounts are an interface, [NodeOps]: what this code uses of
    a node, its [i_ops] and its [f_ops].  An operation that a node may lack is [None].  A
    node is an address, 0 is the null pointer.  [g_mounts] is the list of its first
    [g_mount_count] entries; block devices are named by their index in [g_blockdevs].
    [g_vfs_lock] is held throughout each access to the table, so that a step is atomic. *)

From S2P Require Import Prelude Tmpfs.

Definition EPERM : Z := 1.
Definition EACCES : Z := 13.
Definition EBUSY : Z := 16.
Definition ENOSPC : Z := 28.
Definition EROFS : Z := 30.
Definition ENAMETOOLONG : Z := 36.
Definition ENOSYS : Z := 38.

Definition MS_RDONLY : Z := 1.
Definition MS_REMOUNT : Z := 32.

(** The state of the file systems is [F]. *)
Class NodeOps (F : Type) : Type := {
  nd_flags : F -> Z -> res Z;
  nd_target : F -> Z -> res cstr;
  nd_owner : F -> Z -> res (Z * Z * Z);
  i_lookup : F -> Z -> res (option (cstr -> res Z));
  i_create : F -> Z -> res (option (cstr -> Z -> res (Z * Z * F)));
  i_mkdir : F -> Z -> res (option (cstr -> res (Z * F)));
  i_unlink : F -> Z -> res (option (cstr -> res (Z * F)));
  i_rmdir : F -> Z -> res (option (cstr -> res (Z * F)));
  i_rename : F -> Z -> res (option (cstr -> Z -> cstr -> res (Z * F)));
  i_truncate : F -> Z -> res (option (Z -> res (Z * F)));
  i_link : F -> Z -> res (option (cstr -> Z -> res (Z * F)));
  f_read : F -> Z -> res (option (Z -> Z -> res (list Z)));
  f_write : F -> Z -> res (option (Z -> list Z -> res (Z * F)));
  f_open : F -> Z -> res (option (res F));
  f_close : F -> Z -> res (option (res F));
  sb_kill : F -> Z -> res (option (res F))
}.

(** [struct vfs_mount] *)
Record vmount : Type := VMount {
  m_point : cstr;
  m_fstype : cstr;
  m_source : cstr;
  m_flags : Z;
  m_ref : Z;
  m_bdev : option nat;
  m_sb : Z;
  m_root : Z
}.

Definition set_flags (f : Z) (m : vmount) : vmount :=
  VMount (m_point m) (m_fstype m) (m_source m) f (m_ref m) (m_bdev m) (m_sb m) (m_root m).
Definition set_ref (r : Z) (m : vmount) : vmount :=
  VMount (m_point m) (m_fstype m) (m_source m) (m_flags m) r (m_bdev m) (m_sb m) (m_root m).

(** [fs_root], [g_initrd_root], [g_mounts] and the [refcount]s of [g_blockdevs]. *)
Record vfs (F : Type) : Type := Vfs {
  v_fs : F;
  v_root : Z;
  v_initrd : Z;
  v_mounts : list vmount;
  v_devs : list Z
}.
Arguments Vfs {F} _ _ _ _ _.
Arguments v_fs {F} _.
Arguments v_root {F} _.
Arguments v_initrd {F} _.
Arguments v_mounts {F} _.
Arguments v_devs {F} _.

Definition set_fs {F} (f : F) (v : vfs F) : vfs F := Vfs f (v_root v) (v_initrd v) (v_mounts v) (v_devs v).
Definition set_mounts {F} (ms : list vmount) (v : vfs F) : vfs F := Vfs (v_fs v) (v_root v) (v_initrd v) ms (v_devs v).

(** ** Mount points *)

Definition path_is_mountpoint_prefix (mp path : cstr) : bool :=
  if bool_decide (mp = []) then false
  else if bool_decide (mp = [SLASH]) then true
  else if negb (bool_decide (take (length mp) path = mp)) then false
  else match drop (length mp) path with [] => true | c :: _ => c =? SLASH end.

(** [while (l > 1 && out[l - 1] == '/')], on the reversed string *)
Fixpoint strip_slashes (r : cstr) : cstr :=
  match r with
  | c :: (_ :: _) as q => if c =? SLASH then strip_slashes q else r
  | _ => r
  end.

Definition normalize_mountpoint (s : cstr) (out_sz : Z) : cstr :=
  match s with
  | [] => [SLASH]
  | c :: _ => rev (strip_slashes (rev (strtrunc out_sz (if negb (c =? SLASH) then SLASH :: s else s))))
  end.

(** ** References to block devices *)

Definition blockdev_claim (devs : list Z) (dev : option nat) : list Z :=
  match dev with None => devs | Some i => alter (fun r => s32 (r + 1)) i devs end.

Definition blockdev_release (devs : list Z) (dev : option nat) : list Z :=
  match dev with None => devs | Some i => alter (fun r => if 0 <? r then r - 1 else r) i devs end.

(** ** Mounting *)

(** The first mount on a mount point. *)
Fixpoint mount_index (ms : list vmount) (mp : cstr) : option nat :=
  match ms with
  | [] => None
  | m :: ms => if bool_decide (m_point m = mp) then Some O else S <$> mount_index ms mp
  end.

Definition vfs_mount_nolock_full {F} (v : vfs F) (mountpoint : cstr) (root : Z) (fstype source : option cstr) (flags : Z) (bdev : option nat) (sb : Z) : Z * vfs F :=
  let mp := normalize_mountpoint mountpoint 128 in
  match mount_index (v_mounts v) mp with
  | Some i =>
      if negb (Z.land flags MS_REMOUNT =? 0) then (0, set_mounts (alter (set_flags (Z.land flags (Z.lnot MS_REMOUNT))) i (v_mounts v)) v)
      else (- EBUSY, v)
  | None =>
      if 32 <=? Z.of_nat (length (v_mounts v)) then (- ENOSPC, v)
      else if root =? 0 then (- EINVAL, v)
      else
        let m := VMount mp (match fstype with Some t => strtrunc 32 t | None => [] end)
                   (match source with Some t => strtrunc 64 t | None => [] end) flags 0 bdev sb root in
        (0, set_mounts (v_mounts v ++ [m]) v)
  end.

Definition vfs_mount_nolock {F} (v : vfs F) (mountpoint : cstr) (root : Z) : Z * vfs F :=
  vfs_mount_nolock_full v mountpoint root None None 0 None 0.
Definition vfs_mount_full {F} (v : vfs F) (mountpoint : cstr) (root : Z) (fstype source : option cstr) (flags : Z) (bdev : option nat) (sb : Z) : Z * vfs F :=
  vfs_mount_nolock_full v mountpoint root fstype source flags bdev sb.
Definition vfs_mount {F} (v : vfs F) (mountpoint : cstr) (root : Z) : Z * vfs F :=
  vfs_mount_full v mountpoint root None None 0 None 0.

(** Some mount but the one with index [idx] lies below [mp]. *)
Fixpoint has_child_mount (ms : list vmount) (i idx : nat) (mp : cstr) : bool :=
  match ms with
  | [] => false
  | m :: ms =>
      (negb (i =? idx)%nat
       && (length mp <? length (m_point m))%nat
       && bool_decide (take (length mp) (m_point m) = mp)
       && match drop (length mp) (m_point m) with c :: _ => c =? SLASH | [] => false end)
      || has_child_mount ms (S i) idx mp
  end.

Definition vfs_umount_nolock {F} `{NodeOps F} (v : vfs F) (mountpoint : cstr) : res (Z * vfs F) :=
  let mp := normalize_mountpoint mountpoint 128 in
  if bool_decide (mp = [SLASH]) then mret (- EBUSY, v)
  else
    match mount_index (v_mounts v) mp with
    | None => mret (- EINVAL, v)
    | Some idx =>
        m ← of_option (v_mounts v !! idx);
        if 0 <? m_ref m then mret (- EBUSY, v)
        else if has_child_mount (v_mounts v) 0 idx mp then mret (- EBUSY, v)
        else
          let devs := blockdev_release (v_devs v) (m_bdev m) in
          o ← (if m_sb m =? 0 then mret None else sb_kill (v_fs v) (m_sb m));
          f ← match o with Some r => r | None => mret (v_fs v) end;
          mret (0, Vfs f (v_root v) (v_initrd v) (delete idx (v_mounts v)) devs)
    end.

Definition vfs_umount {F} `{NodeOps F} (v : vfs F) (mountpoint : cstr) : res (Z * vfs F) := vfs_umount_nolock v mountpoint.

(** ** The mount of a path *)

(** The loop of [vfs_lookup_depth]: the best length so far and the base.  The rest of the
    path, [rel], starts that many bytes into it. *)
Fixpoint scan_base (ms : list vmount) (path : cstr) (best : nat) (base : Z) : Z * nat :=
  match ms with
  | [] => (base, best)
  | m :: ms =>
      if bool_decide (m_point m = []) || (m_root m =? 0) then scan_base ms path best base
      else if path_is_mountpoint_prefix (m_point m) path && (best <=? length (m_point m))%nat then
        scan_base ms path (length (m_point m)) (m_root m)
      else scan_base ms path best base
  end.

(** Reading a string from the byte [n] on; behind its terminator there is nothing to read. *)
Definition from_byte (path : cstr) (n : nat) : res cstr := if (length path <? n)%nat then Ub else mret (drop n path).

(** The loop of [vfs_mount_flags]. *)
Fixpoint scan_flags (ms : list vmount) (path : cstr) (best : nat) (flags : Z) : Z :=
  match ms with
  | [] => flags
  | m :: ms =>
      if bool_decide (m_point m = []) then scan_flags ms path best flags
      else if path_is_mountpoint_prefix (m_point m) path && (best <=? length (m_point m))%nat then
        scan_flags ms path (length (m_point m)) (m_flags m)
      else scan_flags ms path best flags
  end.

Definition vfs_mount_flags {F} (v : vfs F) (path : cstr) : Z := scan_flags (v_mounts v) path 0 0.

Fixpoint scan_root (ms : list vmount) (root : Z) : Z :=
  match ms with [] => 0 | m :: ms => if m_root m =? root then m_flags m else scan_root ms root end.

Definition vfs_node_mount_flags {F} (v : vfs F) (root : Z) : Z := if root =? 0 then 0 else scan_root (v_mounts v) root.

(** The loop of [vfs_find_mount_root]. *)
Fixpoint scan_mount_root (ms : list vmount) (path : cstr) (best : nat) (root : Z) : Z :=
  match ms with
  | [] => root
  | m :: ms =>
      if bool_decide (m_point m = []) || (m_root m =? 0) then scan_mount_root ms path best root
      else if path_is_mountpoint_prefix (m_point m) path && (best <=? length (m_point m))%nat then
        scan_mount_root ms path (length (m_point m)) (m_root m)
      else scan_mount_root ms path best root
  end.

Definition vfs_find_mount_root {F} (v : vfs F) (path : cstr) : Z := scan_mount_root (v_mounts v) path 0 0.

Definition vfs_require_writable_path {F} (v : vfs F) (path : cstr) : Z :=
  if negb (Z.land (vfs_mount_flags v path) MS_RDONLY =? 0) then - EROFS else 0.

(** Applies [f] to the first mount with a root. *)
Fixpoint at_root (f : vmount -> vmount) (ms : list vmount) (root : Z) : list vmount :=
  match ms with
  | [] => []
  | m :: ms => if m_root m =? root then f m :: ms else m :: at_root f ms root
  end.

Definition vfs_mount_ref {F} (v : vfs F) (root : Z) : vfs F :=
  if root =? 0 then v else set_mounts (at_root (fun m => set_ref (s32 (m_ref m + 1)) m) (v_mounts v) root) v.
Definition unref (m : vmount) : vmount := if 0 <? m_ref m then set_ref (m_ref m - 1) m else m.
Definition vfs_mount_unref {F} (v : vfs F) (root : Z) : vfs F :=
  if root =? 0 then v else set_mounts (at_root unref (v_mounts v) root) v.

(** The loop of [vfs_mount_ref_by_path]: the index of the longest mount point. *)
Fixpoint scan_index (ms : list vmount) (i : nat) (path : cstr) (best : nat) (idx : option nat) : option nat :=
  match ms with
  | [] => idx
  | m :: ms =>
      if path_is_mountpoint_prefix (m_point m) path && (best <? length (m_point m))%nat then
        scan_index ms (S i) path (length (m_point m)) (Some i)
      else scan_index ms (S i) path best idx
  end.

Definition vfs_mount_ref_by_path {F} (v : vfs F) (path : cstr) : vfs F :=
  if bool_decide (path = []) then v
  else match scan_index (v_mounts v) 0 path 0 None with
       | Some i => set_mounts (alter (fun m => set_ref (s32 (m_ref m + 1)) m) i (v_mounts v)) v
       | None => v
       end.

Definition vfs_mount_unref_by_path {F} (v : vfs F) (path : cstr) : vfs F :=
  if bool_decide (path = []) then v
  else match scan_index (v_mounts v) 0 path 0 None with
       | Some i => set_mounts (alter unref i (v_mounts v)) v
       | None => v
       end.

(** ** The registry of file system types *)

(** [vfs_fs_type_t]; the functions it points to are the numbers [ft_mount] and [ft_kill]. *)
Record fs_type : Type := FsType { ft_name : cstr; ft_flags : Z; ft_mount : Z; ft_kill : Z }.

Definition FS_TYPE_MAX : Z := 8.

(** Replaces the entry with the name of [t]; [None] when there is none. *)
Fixpoint replace_type (l : list fs_type) (t : fs_type) : option (list fs_type) :=
  match l with
  | [] => None
  | x :: l => if bool_decide (ft_name x = ft_name t) then Some (t :: l) else cons x <$> replace_type l t
  end.

Definition vfs_fs_type_register (l : list fs_type) (t : fs_type) : Z * list fs_type :=
  if FS_TYPE_MAX <=? Z.of_nat (length l) then (- ENOSPC, l)
  else match replace_type l t with Some l => (0, l) | None => (0, l ++ [t]) end.

Fixpoint vfs_fs_type_find (l : list fs_type) (name : cstr) : option fs_type :=
  match l with
  | [] => None
  | x :: l => if bool_decide (ft_name x = name) then Some x else vfs_fs_type_find l name
  end.

(** ** Paths *)

Definition LOOKUP_FOLLOW : Z := 1.
Definition LOOKUP_NOFOLLOW : Z := 2.

Section paths.
Context {F : Type} `{NodeOps F}.
Implicit Types (v : vfs F) (path : cstr).

(** The child of [cur] with the name [part]; 0 when there is none. *)
Definition step_into (f : F) (cur : Z) (part : cstr) : res Z :=
  o ← i_lookup f cur;
  match o with Some fn_finddir => fn_finddir part | None => mret 0 end.

(** The target of a link; empty for other nodes. *)
Definition link_target (f : F) (cur : Z) : res cstr :=
  fl ← nd_flags f cur; if fl =? FS_SYMLINK then nd_target f cur else mret [].

(** [while ( *p != 0)] of [vfs_lookup_depth], where [p] does not start with a slash;
    [follow] resolves the target of a link. *)
Fixpoint walk_parts (fuel : nat) (follow : cstr -> res Z) (lookup_flags : Z) (f : F) (p : cstr) (cur : Z) : res Z :=
  match fuel with
  | O => NoFuel
  | S fuel =>
      match p with
      | [] => mret cur
      | _ =>
          let '(part, r) := span_part p in
          let part := strtrunc 128 part in
          let p := skip_slashes r in
          match part with
          | [] => walk_parts fuel follow lookup_flags f p cur
          | _ =>
              if cur =? 0 then mret 0
              else
                cur ← step_into f cur part;
                if cur =? 0 then mret 0
                else
                  t ← link_target f cur;
                  if negb (bool_decide (t = [])) then
                    if negb (Z.land lookup_flags LOOKUP_NOFOLLOW =? 0) then mret cur
                    else
                      cur ← follow t;
                      if cur =? 0 then mret 0 else walk_parts fuel follow lookup_flags f p cur
                  else walk_parts fuel follow lookup_flags f p cur
          end
      end
  end.

(** [fuel] bounds the nesting of links, which [depth] limits. *)
Fixpoint vfs_lookup_depth (fuel : nat) (v : vfs F) (path : cstr) (depth lookup_flags : Z) : res Z :=
  match fuel with
  | O => NoFuel
  | S fuel =>
      if 8 <? depth then mret 0
      else if 128 <=? Z.of_nat (length path) then mret 0
      else if v_root v =? 0 then mret 0
      else
        let '(base, best_len) := scan_base (v_mounts v) path 0 (v_root v) in
        rel ← from_byte path best_len;
        let rel := skip_slashes rel in
        match rel with
        | [] => mret base
        | _ => walk_parts (S (length rel)) (fun t => vfs_lookup_depth fuel v t (depth + 1) lookup_flags) lookup_flags (v_fs v) rel base
        end
  end.

(** Ten levels, for the depths from 0 to 9. *)
Definition vfs_lookup_nofollow v path : res Z := vfs_lookup_depth 10 v path 0 LOOKUP_NOFOLLOW.
Definition vfs_lookup v path : res Z := vfs_lookup_depth 10 v path 0 LOOKUP_FOLLOW.

(** [while ( *p != 0)] of [vfs_lookup_initrd] *)
Fixpoint walk_initrd (fuel : nat) (f : F) (p : cstr) (cur : Z) : res Z :=
  match fuel with
  | O => NoFuel
  | S fuel =>
      match p with
      | [] => mret cur
      | _ =>
          let '(part, r) := span_part p in
          let p := skip_slashes r in
          match strtrunc 128 part with
          | [] => walk_initrd fuel f p cur
          | part =>
              if cur =? 0 then mret 0
              else cur ← step_into f cur part; if cur =? 0 then mret 0 else walk_initrd fuel f p cur
          end
      end
  end.

Definition vfs_lookup_initrd v path : res Z :=
  if v_initrd v =? 0 then mret 0
  else
    match skip_slashes path with
    | [] => mret (v_initrd v)
    | p => walk_initrd (S (length p)) (v_fs v) p (v_initrd v)
    end.

(** What is before and after the last slash. *)
Fixpoint last_slash (p : cstr) : option (cstr * cstr) :=
  match p with
  | [] => None
  | c :: q =>
      match last_slash q with
      | Some (a, b) => Some (c :: a, b)
      | None => if c =? SLASH then Some ([], q) else None
      end
  end.

(** The parent directory and [name_out]; the parent is 0 when there is none. *)
Definition vfs_lookup_parent v path (name_sz : Z) : res (Z * cstr) :=
  if 128 <=? Z.of_nat (length path) then mret (0, [])
  else
    match last_slash path with
    | None => mret (0, [])
    | Some (pre, base) =>
        let plen := if (length pre =? 0)%nat then 1%nat else length pre in
        if 128 <? Z.of_nat plen + 1 then mret (0, [])
        else
          let parent_path := take plen path in
          if (length base =? 0)%nat then mret (0, [])
          else if name_sz <? Z.of_nat (length base) + 1 then mret (0, [])
          else parent ← vfs_lookup v parent_path; mret (parent, base)
    end.

(** The frame of the operations on a parent directory: the checks before the call of the
    file system's operation [op]. *)
Definition with_parent {A} v path (fail : Z -> A) (op : Z -> cstr -> res A) : res A :=
  let rc := vfs_require_writable_path v path in
  if rc <? 0 then mret (fail rc)
  else
    '(parent, name) ← vfs_lookup_parent v path 128;
    if parent =? 0 then mret (fail (- ENOENT))
    else
      fl ← nd_flags (v_fs v) parent;
      if negb (fl =? FS_DIRECTORY) then mret (fail (- ENOTDIR)) else op parent name.

(** The result and [*out]. *)
Definition vfs_create v path (flags : Z) : res (Z * Z * vfs F) :=
  with_parent v path (fun e => (e, 0, v)) (fun parent name =>
    o ← i_create (v_fs v) parent;
    match o with
    | Some create => '(r, out, f) ← create name flags; mret (r, out, set_fs f v)
    | None => mret (- ENOSYS, 0, v)
    end).

Definition vfs_mkdir v path : res (Z * vfs F) :=
  with_parent v path (fun e => (e, v)) (fun parent name =>
    o ← i_mkdir (v_fs v) parent;
    match o with
    | Some mkdir => '(r, f) ← mkdir name; mret (r, set_fs f v)
    | None => mret (- ENOSYS, v)
    end).

Definition vfs_unlink v path : res (Z * vfs F) :=
  with_parent v path (fun e => (e, v)) (fun parent name =>
    o ← i_unlink (v_fs v) parent;
    match o with
    | Some unlink => '(r, f) ← unlink name; mret (r, set_fs f v)
    | None => mret (- ENOSYS, v)
    end).

Definition vfs_rmdir v path : res (Z * vfs F) :=
  with_parent v path (fun e => (e, v)) (fun parent name =>
    o ← i_rmdir (v_fs v) parent;
    match o with
    | Some rmdir => '(r, f) ← rmdir name; mret (r, set_fs f v)
    | None => mret (- ENOSYS, v)
    end).

(** [while ( *p)] of [vfs_mkdirp]: [pre] is what is before [p], with its slashes. *)
Fixpoint mkdirp_loop (fuel : nat) v (pre p : cstr) : res (Z * vfs F) :=
  match fuel with
  | O => NoFuel
  | S fuel =>
      match p with
      | [] => mret (0, v)
      | _ =>
          let '(seg, r) := span_part p in
          let tmp := pre ++ seg in
          let p := match r with c :: q => q | [] => [] end in
          check ← vfs_lookup v tmp;
          if check =? 0 then
            '(rc, v) ← vfs_mkdir v tmp;
            if (rc <? 0) && negb (rc =? - EEXIST) then mret (rc, v) else mkdirp_loop fuel v (tmp ++ [SLASH]) p
          else
            fl ← nd_flags (v_fs v) check;
            if Z.land fl FS_DIRECTORY =? 0 then mret (- ENOTDIR, v) else mkdirp_loop fuel v (tmp ++ [SLASH]) p
      end
  end.

Definition vfs_mkdirp v path : res (Z * vfs F) :=
  match path with
  | [] => mret (- EINVAL, v)
  | c :: p =>
      if negb (c =? SLASH) then mret (- EINVAL, v)
      else if 128 <=? Z.of_nat (length path) then mret (- ENAMETOOLONG, v)
      else
        node ← vfs_lookup v path;
        if negb (node =? 0) then
          fl ← nd_flags (v_fs v) node;
          mret (if negb (Z.land fl FS_DIRECTORY =? 0) then - EEXIST else - ENOTDIR, v)
        else mkdirp_loop (S (length p)) v [SLASH] p
  end.

Definition vfs_rename v (old_path new_path : cstr) : res (Z * vfs F) :=
  let rc := vfs_require_writable_path v old_path in
  if rc <? 0 then mret (rc, v)
  else
    let rc := vfs_require_writable_path v new_path in
    if rc <? 0 then mret (rc, v)
    else
      '(old_parent, old_name) ← vfs_lookup_parent v old_path 128;
      '(new_parent, new_name) ← vfs_lookup_parent v new_path 128;
      if (old_parent =? 0) || (new_parent =? 0) then mret (- ENOENT, v)
      else
        o ← i_rename (v_fs v) old_parent;
        match o with
        | Some rename => '(r, f) ← rename old_name new_parent new_name; mret (r, set_fs f v)
        | None => mret (- ENOSYS, v)
        end.

(** The call of the file system's [truncate]. *)
Definition truncate_node v (node len : Z) : res (Z * vfs F) :=
  o ← i_truncate (v_fs v) node;
  match o with
  | Some truncate => '(r, f) ← truncate len; mret (r, set_fs f v)
  | None => mret (- ENOSYS, v)
  end.

Definition vfs_truncate v path (len : Z) : res (Z * vfs F) :=
  let rc := vfs_require_writable_path v path in
  if rc <? 0 then mret (rc, v)
  else
    node ← vfs_lookup v path;
    if node =? 0 then mret (- ENOENT, v)
    else fl ← nd_flags (v_fs v) node; if negb (fl =? FS_FILE) then mret (- EISDIR, v) else truncate_node v node len.

Definition vfs_truncate_node v (node len : Z) : res (Z * vfs F) :=
  if node =? 0 then mret (- EINVAL, v)
  else fl ← nd_flags (v_fs v) node; if negb (fl =? FS_FILE) then mret (- EINVAL, v) else truncate_node v node len.

Definition vfs_link v (old_path new_path : cstr) : res (Z * vfs F) :=
  let rc := vfs_require_writable_path v new_path in
  if rc <? 0 then mret (rc, v)
  else
    target ← vfs_lookup v old_path;
    if target =? 0 then mret (- ENOENT, v)
    else
      fl ← nd_flags (v_fs v) target;
      if negb (fl =? FS_FILE) then mret (- EPERM, v)
      else
        '(parent, name) ← vfs_lookup_parent v new_path 128;
        if parent =? 0 then mret (- ENOENT, v)
        else
          pfl ← nd_flags (v_fs v) parent;
          if negb (pfl =? FS_DIRECTORY) then mret (- ENOTDIR, v)
          else
            o ← i_link (v_fs v) parent;
            match o with
            | Some link => '(r, f) ← link name target; mret (r, set_fs f v)
            | None => mret (- ENOSYS, v)
            end.

(** ** Reading, writing, permissions *)

Definition vfs_read v (node offset size : Z) : res (list Z) :=
  o ← f_read (v_fs v) node; match o with Some read => read offset size | None => mret [] end.

Definition vfs_write v (node offset : Z) (buffer : list Z) : res (Z * vfs F) :=
  o ← f_write (v_fs v) node;
  match o with Some write => '(r, f) ← write offset buffer; mret (r, set_fs f v) | None => mret (0, v) end.

Definition vfs_open v (node : Z) : res (vfs F) :=
  o ← f_open (v_fs v) node; match o with Some open => f ← open; mret (set_fs f v) | None => mret v end.

Definition vfs_close v (node : Z) : res (vfs F) :=
  o ← f_close (v_fs v) node; match o with Some close => f ← close; mret (set_fs f v) | None => mret v end.

Definition vfs_set_initrd_root v (root : Z) : vfs F := Vfs (v_fs v) (v_root v) root (v_mounts v) (v_devs v).

(** The identity of the caller: [None] in the kernel. *)
Definition check_bits (who : option (Z * Z)) (uid gid mode want : Z) : Z :=
  match who with
  | None => 0
  | Some (cu, cg) =>
      if cu =? 0 then 0
      else
        let perm := if cu =? uid then Z.land (Z.shiftr mode 6) 7
                    else if cg =? gid then Z.land (Z.shiftr mode 3) 7 else Z.land mode 7 in
        if negb (Z.land want perm =? want) then - EACCES else 0
  end.

(** [who] holds the effective ids for [vfs_check_permission] and the real ones for
    [vfs_check_permission_real]. *)
Definition vfs_check_permission (who : option (Z * Z)) v (node want : Z) : res Z :=
  '(uid, gid, mode) ← nd_owner (v_fs v) node; mret (check_bits who uid gid mode want).

Definition vfs_check_parent_permission (who : option (Z * Z)) v path (perm : Z) : res Z :=
  match last_slash path with
  | None | Some ([], _) => mret 0
  | Some (pre, _) =>
      if 256 <=? Z.of_nat (length pre) then mret (- EINVAL)
      else
        parent_node ← vfs_lookup v pre;
        if parent_node =? 0 then mret (- ENOENT)
        else
          fl ← nd_flags (v_fs v) parent_node;
          if Z.land fl FS_DIRECTORY =? 0 then mret (- ENOTDIR) else vfs_check_permission who v parent_node perm
  end.
End paths.

(** ** The file system in memory behind a mount *)

(** Its nodes with the answers [kmalloc] is going to give.  Directories have
    [tmpfs_dir_iops] and files [tmpfs_file_ops]; [tmpfs_mount] makes no superblock; the
    owner and the mode of its nodes stay 0. *)
#[global] Instance tmpfs_ops : NodeOps (tmpfs * list Z) := {
  nd_flags f p := n ← node f.1 p; mret (n_flags n);
  nd_target f p := n ← node f.1 p; mret (n_target n);
  nd_owner f p := _ ← node f.1 p; mret (0, 0, 0);
  i_lookup f p := n ← node f.1 p; mret (if n_flags n =? FS_DIRECTORY then Some (fun name => tmpfs_finddir_impl f.1 p name) else None);
  i_create f p := n ← node f.1 p; mret (if n_flags n =? FS_DIRECTORY then Some (fun name flags =>
    '(r, out, s, mem) ← tmpfs_create_impl f.1 f.2 p name flags; mret (r, out, (s, mem))) else None);
  i_mkdir f p := n ← node f.1 p; mret (if n_flags n =? FS_DIRECTORY then Some (fun name =>
    '(r, s, mem) ← tmpfs_mkdir_impl f.1 f.2 p name; mret (r, (s, mem))) else None);
  i_unlink f p := n ← node f.1 p; mret (if n_flags n =? FS_DIRECTORY then Some (fun name =>
    '(r, s) ← tmpfs_unlink_impl f.1 p name; mret (r, (s, f.2))) else None);
  i_rmdir f p := n ← node f.1 p; mret (if n_flags n =? FS_DIRECTORY then Some (fun name =>
    '(r, s) ← tmpfs_rmdir_impl f.1 p name; mret (r, (s, f.2))) else None);
  i_rename f p := _ ← node f.1 p; mret None;
  i_truncate f p := _ ← node f.1 p; mret None;
  i_link f p := _ ← node f.1 p; mret None;
  f_read f p := n ← node f.1 p; mret (if n_flags n =? FS_FILE then Some (fun off size => tmpfs_read_impl f.1 p off size) else None);
  f_write f p := n ← node f.1 p; mret (if n_flags n =? FS_FILE then Some (fun off buf =>
    '(r, s, mem) ← tmpfs_write_impl f.1 f.2 p off buf; mret (r, (s, mem))) else None);
  f_open f p := _ ← node f.1 p; mret None;
  f_close f p := _ ← node f.1 p; mret None;
  sb_kill f sb := mret None
}.
