(* ===== verification/VfsSpec.v ===== *)
(** The mount table of src/kernel/fs.c: what a mount point covers, which mount a path
    belongs to, the invariant of the table, the operations that change it and the round
    trip of a mount. *)

From S2P Require Import Prelude Tmpfs Vfs.

(** ** Mount points *)

(** Absolute, short enough for its buffer, no slash at the end but in the root. *)
Definition normal (mp : cstr) : Prop :=
  (length mp <= 127)%nat /\ (exists q, mp = SLASH :: q) /\ (mp = [SLASH] \/ last mp <> Some SLASH).

(** [mp] is the directory [path] or one above it. *)
Definition covers (mp path : cstr) : Prop :=
  mp = [SLASH] \/ exists rest, path = mp ++ rest /\ (rest = [] \/ exists q, rest = SLASH :: q).

Lemma prefix_covers mp path : mp <> [] -> path_is_mountpoint_prefix mp path = true <-> covers mp path.
Proof.
  intros Hne. unfold path_is_mountpoint_prefix, covers. rewrite bool_decide_eq_false_2 by done.
  case_bool_decide as E1; [tauto|]. case_bool_decide as E2; simpl.
  - split.
    + intros H. right. exists (drop (length mp) path). split; [by rewrite <- E2 at 1; rewrite take_drop|].
      destruct (drop (length mp) path) as [|c q]; [by left|]. right. exists q. apply Z.eqb_eq in H. by subst.
    + intros [|(rest & -> & Hr)]; [done|]. rewrite drop_app_length. by destruct Hr as [->|[q ->]].
  - split; [done|]. intros [|(rest & -> & Hr)]; [done|]. by rewrite take_app_length in E2.
Qed.

Lemma strip_slashes_ok r : r <> [] -> (length (strip_slashes r) <= length r)%nat /\ last (strip_slashes r) = last r /\
  (length (strip_slashes r) = 1%nat \/ head (strip_slashes r) <> Some SLASH) /\ strip_slashes r <> [].
Proof.
  induction r as [|c r IH]; [done|]. intros _. destruct r as [|d r]; [simpl; split_and!; (done || lia || by left)|].
  destruct IH as (H1 & H2 & H3 & H4); [done|]. cbn [strip_slashes]. destruct (Z.eqb_spec c SLASH) as [->|Hc].
  - split_and!; [simpl in *; lia | by rewrite last_cons_cons | done | done].
  - split_and!; [done | done | right; simpl; congruence | done].
Qed.

Lemma normalize_normal s : normal (normalize_mountpoint s 128).
Proof.
  unfold normalize_mountpoint. destruct s as [|c s]; [split; [simpl; lia|]; split; [by exists [] | by left]|].
  set (t := strtrunc 128 _). assert (exists q, t = SLASH :: q) as [q Ht].
  { unfold t, strtrunc. change (Z.to_nat (128 - 1)) with 127%nat. destruct (Z.eqb_spec c SLASH) as [->|]; simpl; eauto. }
  assert (length t <= 127)%nat as Hl by (unfold t, strtrunc; rewrite length_take; change (Z.to_nat (128 - 1)) with 127%nat; lia).
  destruct (strip_slashes_ok (rev t)) as (H1 & H2 & H3 & H4); [rewrite Ht; simpl; by destruct (rev q)|].
  rewrite Ht in H2 at 2. simpl in H2. rewrite last_snoc in H2. rewrite length_rev in H1. set (r := strip_slashes (rev t)) in *.
  apply last_Some in H2 as [r' Hr]. split; [rewrite length_rev; lia|]. rewrite Hr, rev_app_distr. simpl. split; [eauto|].
  destruct H3 as [H3|H3].
  - left. rewrite Hr, length_app in H3. simpl in H3. destruct r'; [done | simpl in H3; lia].
  - right. rewrite Hr in H3. destruct r' as [|x r']; [done|]. simpl in *. rewrite app_comm_cons, last_snoc. done.
Qed.

Lemma normalize_id mp : normal mp -> normalize_mountpoint mp 128 = mp.
Proof.
  intros (Hl & [q ->] & Hlast). unfold normalize_mountpoint. simpl (negb _). cbn iota.
  unfold strtrunc. rewrite take_ge by (change (Z.to_nat (128 - 1)) with 127%nat; lia).
  destruct Hlast as [[= ->]|Hlast]; [done|]. rewrite <- (rev_involutive (SLASH :: q)) at 2. f_equal.
  destruct (rev (SLASH :: q)) as [|c r] eqn:E; [done|]. assert (c <> SLASH) as Hc.
  { intros ->. apply Hlast. rewrite <- (rev_involutive (SLASH :: q)), E. simpl. by rewrite last_snoc. }
  simpl. destruct r as [|d r]; [done|]. by rewrite (proj2 (Z.eqb_neq c SLASH)).
Qed.

(** ** The mount of a path *)

(** [m] is the mount of [path]: of those that cover it, the one with the longest mount point. *)
Definition mount_of (ms : list vmount) (path : cstr) (m : vmount) : Prop :=
  m ∈ ms /\ covers (m_point m) path /\
  forall m', m' ∈ ms -> covers (m_point m') path -> m' = m \/ (length (m_point m') < length (m_point m))%nat.

Record table_ok (k : Z) (ms : list vmount) : Prop := TableOk {
  tb_size : (length ms <= 32)%nat;
  tb_points : NoDup (m_point <$> ms);
  tb_normal : forall m, m ∈ ms -> normal (m_point m);
  tb_root : forall m, m ∈ ms -> m_root m <> 0;
  tb_ref : forall m, m ∈ ms -> 0 <= m_ref m <= k
}.

Lemma normal_nonempty mp : normal mp -> mp <> [].
Proof. by intros (_ & [q ->] & _). Qed.

(** Two mount points of the same length that cover a path are the same. *)
Lemma covers_same mp mp' path : normal mp -> normal mp' -> covers mp path -> covers mp' path -> length mp = length mp' -> mp = mp'.
Proof.
  intros Hn Hn' [->|(r & -> & _)] H' Hl.
  - destruct Hn' as (_ & [q ->] & _). simpl in Hl. destruct q; [done | simpl in Hl; lia].
  - destruct H' as [->|(r' & E & _)]; [destruct Hn as (_ & [q ->] & _); simpl in Hl; destruct q; [done | simpl in Hl; lia]|].
    apply (app_inj_1 mp mp' r r') in E; tauto.
Qed.

(** What every loop over the table finds: the last of the longest matches so far. *)
Fixpoint best_mount (ms : list vmount) (path : cstr) (acc : option vmount) : option vmount :=
  match ms with
  | [] => acc
  | m :: ms =>
      if path_is_mountpoint_prefix (m_point m) path && (match acc with Some a => length (m_point a) | None => 0 end <=? length (m_point m))%nat
      then best_mount ms path (Some m) else best_mount ms path acc
  end.

Definition acc_ok (ms : list vmount) (path : cstr) (acc : option vmount) : Prop :=
  forall a, acc = Some a -> covers (m_point a) path /\ normal (m_point a) /\ m_point a ∉ m_point <$> ms.

(** [r] is the longest of the mounts in [ms] and [acc] that cover [path]. *)
Definition best_of (ms : list vmount) (path : cstr) (acc r : option vmount) : Prop :=
  match r with
  | Some m => (m ∈ ms \/ acc = Some m) /\ covers (m_point m) path /\
      forall m', (m' ∈ ms \/ acc = Some m') -> covers (m_point m') path -> m' = m \/ (length (m_point m') < length (m_point m))%nat
  | None => acc = None /\ forall m', m' ∈ ms -> ~ covers (m_point m') path
  end.

Lemma best_of_take m ms path acc r : covers (m_point m) path -> normal (m_point m) -> acc_ok (m :: ms) path acc ->
  (match acc with Some a => length (m_point a) | None => 0 end <= length (m_point m))%nat ->
  best_of ms path (Some m) r -> best_of (m :: ms) path acc r.
Proof.
  intros Hc Hn Ha Hl Hr. destruct r as [r|]; [|destruct Hr; done]. destruct Hr as (Hin & Hcr & Hmax).
  split; [destruct Hin as [|[= ->]]; [left; by right | left; left]|]. split; [done|].
  intros m' [Hm'|Hm'] Hc'.
  - apply elem_of_cons in Hm' as [->|Hm']; apply Hmax; (done || (by left) || (by right)).
  - right. subst acc. destruct (Ha m' eq_refl) as (_ & Hn' & Hnot). rewrite fmap_cons, elem_of_cons in Hnot.
    assert (length (m_point m') <> length (m_point m)) as Hne by (intros E; apply Hnot; left; by apply (covers_same _ _ path)).
    destruct (Hmax m (or_intror eq_refl) Hc) as [->|]; lia.
Qed.

Lemma best_of_skip m ms path acc r : (covers (m_point m) path -> exists a, acc = Some a /\ (length (m_point m) < length (m_point a))%nat) ->
  acc_ok (m :: ms) path acc -> best_of ms path acc r -> best_of (m :: ms) path acc r.
Proof.
  intros Hc Ha Hr. destruct r as [r|].
  - destruct Hr as (Hin & Hcr & Hmax). split; [destruct Hin; [left; by right | by right]|]. split; [done|].
    intros m' [Hm'|Hm'] Hc'; [|apply Hmax; [by right | done]]. apply elem_of_cons in Hm' as [->|Hm']; [|apply Hmax; [by left | done]].
    destruct (Hc Hc') as (a & -> & Hl). destruct (Ha a eq_refl) as (Hca & _). destruct (Hmax a (or_intror eq_refl) Hca) as [->|]; right; lia.
  - destruct Hr as [-> Hr]. split; [done|]. intros m' Hm' Hc'. apply elem_of_cons in Hm' as [->|Hm']; [|by apply (Hr m')].
    by destruct (Hc Hc') as (a & ? & _).
Qed.

Lemma best_mount_ok ms : forall path acc, NoDup (m_point <$> ms) -> (forall m, m ∈ ms -> normal (m_point m)) -> acc_ok ms path acc ->
  best_of ms path acc (best_mount ms path acc).
Proof.
  induction ms as [|m ms IH]; intros path acc Hnd Hn Ha; simpl.
  - destruct acc as [a|]; simpl; [|split; [done|]; intros m' Hm'; by apply not_elem_of_nil in Hm'].
    split; [by right|]. split; [by apply (Ha a)|]. intros m' [Hm'|[= ->]] _; [by apply not_elem_of_nil in Hm' | by left].
  - rewrite fmap_cons in Hnd. apply NoDup_cons in Hnd as [Hm Hnd].
    assert (normal (m_point m)) as Hnm by (apply Hn; left). pose proof (normal_nonempty _ Hnm) as Hne.
    assert (forall m', m' ∈ ms -> normal (m_point m')) as Hn' by (intros; apply Hn; by right).
    assert (acc_ok ms path acc) as Ha'.
    { intros a Ea. destruct (Ha a Ea) as (H1 & H2 & H3). rewrite fmap_cons, elem_of_cons in H3. tauto. }
    destruct (path_is_mountpoint_prefix (m_point m) path) eqn:Ec; simpl.
    + apply prefix_covers in Ec; [|done]. destruct (Nat.leb_spec (match acc with Some a => length (m_point a) | None => 0%nat end) (length (m_point m))) as [Hl|Hl].
      * apply best_of_take; try done. apply IH; try done. intros a [= <-]. done.
      * apply best_of_skip; [|done|by apply IH]. intros _. destruct acc as [a|]; [|lia]. eauto.
    + apply best_of_skip; [|done|by apply IH]. intros Hc. apply prefix_covers in Hc; [congruence | done].
Qed.

(** ** The loops agree *)

Lemma scan_base_best ms path : forall acc root, (forall m, m ∈ ms -> normal (m_point m) /\ m_root m <> 0) ->
  scan_base ms path (match acc with Some a => length (m_point a) | None => 0 end) (match acc with Some a => m_root a | None => root end) =
  match best_mount ms path acc with Some m => (m_root m, length (m_point m)) | None => (root, 0%nat) end.
Proof.
  induction ms as [|m ms IH]; intros acc root Hn; [by destruct acc|]. cbn [scan_base best_mount].
  destruct (Hn m) as [Hm Hr]; [left|]. rewrite bool_decide_eq_false_2 by (by apply normal_nonempty). rewrite (proj2 (Z.eqb_neq _ 0)) by done. cbn [orb].
  destruct (_ && _); [apply (IH (Some m)) | apply IH]; intros; apply Hn; by right.
Qed.

Lemma scan_flags_best ms path : forall acc, (forall m, m ∈ ms -> normal (m_point m)) ->
  scan_flags ms path (match acc with Some a => length (m_point a) | None => 0 end) (match acc with Some a => m_flags a | None => 0 end) =
  match best_mount ms path acc with Some m => m_flags m | None => 0 end.
Proof.
  induction ms as [|m ms IH]; intros acc Hn; [by destruct acc|]. cbn [scan_flags best_mount].
  rewrite bool_decide_eq_false_2 by (apply normal_nonempty, Hn; left). destruct (_ && _); [apply (IH (Some m)) | apply IH]; intros; apply Hn; by right.
Qed.

Lemma scan_mount_root_best ms path : forall acc, (forall m, m ∈ ms -> normal (m_point m) /\ m_root m <> 0) ->
  scan_mount_root ms path (match acc with Some a => length (m_point a) | None => 0 end) (match acc with Some a => m_root a | None => 0 end) =
  match best_mount ms path acc with Some m => m_root m | None => 0 end.
Proof.
  induction ms as [|m ms IH]; intros acc Hn; [by destruct acc|]. cbn [scan_mount_root best_mount].
  destruct (Hn m) as [Hm Hr]; [left|]. rewrite bool_decide_eq_false_2 by (by apply normal_nonempty). rewrite (proj2 (Z.eqb_neq _ 0)) by done. cbn [orb].
  destruct (_ && _); [apply (IH (Some m)) | apply IH]; intros; apply Hn; by right.
Qed.

(** The index [vfs_mount_ref_by_path] counts on is that of the same mount: it asks for a
    longer mount point where the others accept an equal one, but no two are equal. *)
Lemma scan_index_best ms0 path : forall ms i acc idx, ms = drop i ms0 -> NoDup (m_point <$> ms) -> (forall m, m ∈ ms -> normal (m_point m)) -> acc_ok ms path acc ->
  (forall a, acc = Some a -> exists j, idx = Some j /\ ms0 !! j = Some a) -> (acc = None -> idx = None) ->
  match best_mount ms path acc with
  | Some m => exists j, scan_index ms i path (match acc with Some a => length (m_point a) | None => 0 end) idx = Some j /\ ms0 !! j = Some m
  | None => scan_index ms i path (match acc with Some a => length (m_point a) | None => 0 end) idx = None
  end.
Proof.
  intros ms. induction ms as [|m ms IH]; intros i acc idx Hms Hnd Hn Ha Hi H0; simpl.
  - destruct acc as [a|]; [by apply Hi | by apply H0].
  - assert (ms0 !! i = Some m /\ ms = drop (S i) ms0) as [Hlk Hms'].
    { rewrite <- (Nat.add_0_r i), <- lookup_drop, <- Hms. split; [done|]. by rewrite Nat.add_0_r, <- Nat.add_1_r, Nat.add_comm, Nat.add_comm, <- drop_drop, <- Hms. }
    rewrite fmap_cons in Hnd. apply NoDup_cons in Hnd as [Hm Hnd].
    assert (normal (m_point m)) as Hnm by (apply Hn; left). pose proof (normal_nonempty _ Hnm) as Hne.
    assert (forall m', m' ∈ ms -> normal (m_point m')) as Hn' by (intros; apply Hn; by right).
    assert (acc_ok ms path acc) as Ha'.
    { intros a Ea. destruct (Ha a Ea) as (H1 & H2 & H3). rewrite fmap_cons, elem_of_cons in H3. tauto. }
    destruct (path_is_mountpoint_prefix (m_point m) path) eqn:Ec; simpl; [|by apply IH].
    apply prefix_covers in Ec; [|done]. set (len := match acc with Some a => length (m_point a) | None => 0%nat end) in *.
    assert (len <> length (m_point m)) as Hlen.
    { unfold len. destruct acc as [a|]; [|destruct (m_point m); done]. destruct (Ha a eq_refl) as (H1 & H2 & H3). rewrite fmap_cons, elem_of_cons in H3.
      intros E. apply H3. left. by apply (covers_same _ _ path). }
    destruct (Nat.leb_spec len (length (m_point m))) as [Hl|Hl].
    + rewrite (proj2 (Nat.ltb_lt len _)) by lia. apply (IH (S i) (Some m)); try done; [intros a [= <-]; done | intros a [= <-]; eauto].
    + rewrite (proj2 (Nat.ltb_ge len _)) by lia. by apply IH.
Qed.

(** ** File system types *)

Lemma replace_type_find l t l' : replace_type l t = Some l' ->
  length l' = length l /\ vfs_fs_type_find l' (ft_name t) = Some t /\ forall name, name <> ft_name t -> vfs_fs_type_find l' name = vfs_fs_type_find l name.
Proof.
  revert l'. induction l as [|x l IH]; intros l'; simpl; [done|]. case_bool_decide as E.
  - intros [= <-]. simpl. rewrite bool_decide_eq_true_2 by done. split_and!; [done | done|]. intros name Hn. by rewrite !bool_decide_eq_false_2 by congruence.
  - destruct (replace_type l t) as [r|]; [|done]. intros [= <-]. destruct (IH r eq_refl) as (H1 & H2 & H3). simpl. split_and!; [congruence | by rewrite bool_decide_eq_false_2|].
    intros name Hn. by rewrite H3.
Qed.

(** A type that was registered is found under its name, and the others as before; with
    eight types nothing can be registered, not even to replace one. *)
Lemma register_find l t :
  let '(r, l') := vfs_fs_type_register l t in
  if FS_TYPE_MAX <=? Z.of_nat (length l) then r = - ENOSPC /\ l' = l
  else r = 0 /\ vfs_fs_type_find l' (ft_name t) = Some t /\ forall name, name <> ft_name t -> vfs_fs_type_find l' name = vfs_fs_type_find l name.
Proof.
  unfold vfs_fs_type_register. destruct (FS_TYPE_MAX <=? _); [done|]. destruct (replace_type l t) as [l'|] eqn:E; [split; [done|]; by apply replace_type_find in E as (_ & ? & ?)|].
  split; [done|]. induction l as [|x l IH]; simpl in *.
  - split; [by rewrite bool_decide_eq_true_2|]. intros name Hn. by rewrite bool_decide_eq_false_2 by congruence.
  - case_bool_decide as Ex; [done|]. destruct (replace_type l t); [done|]. destruct IH as [H1 H2]; [done|]. split; [done|]. intros name Hn. by rewrite H2.
Qed.

Inductive vop : Type :=
| VMountAt (mountpoint : cstr) (root : Z) (fstype source : option cstr) (flags : Z) (bdev : option nat) (sb : Z)
| VUmount (mountpoint : cstr)
| VRef (root : Z)
| VUnref (root : Z)
| VRefPath (path : cstr)
| VUnrefPath (path : cstr).

Section table.
Context {F : Type} `{NodeOps F}.

Definition vexec (v : vfs F) (o : vop) : res (Z * vfs F) :=
  match o with
  | VMountAt mp root fstype source flags bdev sb => mret (vfs_mount_full v mp root fstype source flags bdev sb)
  | VUmount mp => vfs_umount v mp
  | VRef root => mret (0, vfs_mount_ref v root)
  | VUnref root => mret (0, vfs_mount_unref v root)
  | VRefPath path => mret (0, vfs_mount_ref_by_path v path)
  | VUnrefPath path => mret (0, vfs_mount_unref_by_path v path)
  end.

Fixpoint vruns (v : vfs F) (l : list vop) : res (list Z * vfs F) :=
  match l with
  | [] => mret ([], v)
  | o :: l => '(r, v) ← vexec v o; '(rs, v) ← vruns v l; mret (r :: rs, v)
  end.

(** ** Updates of the table *)

Lemma table_weaken k k' ms : k <= k' -> table_ok k ms -> table_ok k' ms.
Proof. intros Hk [H1 H2 H3 H4 H5]. constructor; try done. intros m Hm. specialize (H5 m Hm). lia. Qed.

(** Changing flags and references of one entry. *)
Lemma table_alter k ms i f : (forall m, m_point (f m) = m_point m /\ m_root (f m) = m_root m) -> (forall m, m ∈ ms -> 0 <= m_ref m <= k -> 0 <= m_ref (f m) <= k + 1) ->
  0 <= k -> table_ok k ms -> table_ok (k + 1) (alter f i ms).
Proof.
  intros Hf Hr H0 [H1 H2 H3 H4 H5].
  assert (forall m, m ∈ alter f i ms -> exists m0, m0 ∈ ms /\ (m = m0 \/ m = f m0)) as Hin.
  { intros m Hm. apply list_elem_of_lookup in Hm as [j Hj]. destruct (decide (i = j)) as [->|Hne].
    - rewrite list_lookup_alter_eq in Hj. destruct (ms !! j) as [m0|] eqn:E; [|done]. injection Hj as <-. apply list_elem_of_lookup_2 in E. eauto.
    - rewrite list_lookup_alter_ne in Hj by done. apply list_elem_of_lookup_2 in Hj. eauto. }
  constructor.
  - by rewrite length_alter.
  - replace (m_point <$> alter f i ms) with (m_point <$> ms); [done|]. apply list_eq. intros j. rewrite !list_lookup_fmap.
    destruct (decide (i = j)) as [->|]; [|by rewrite list_lookup_alter_ne]. rewrite list_lookup_alter_eq. destruct (ms !! j); simpl; [|done]. by rewrite (proj1 (Hf _)).
  - intros m Hm. destruct (Hin m Hm) as (m0 & Hm0 & [->| ->]); [by apply H3|]. rewrite (proj1 (Hf _)). by apply H3.
  - intros m Hm. destruct (Hin m Hm) as (m0 & Hm0 & [->| ->]); [by apply H4|]. rewrite (proj2 (Hf _)). by apply H4.
  - intros m Hm. destruct (Hin m Hm) as (m0 & Hm0 & [->| ->]); [specialize (H5 m0 Hm0); lia|]. apply Hr; [done|]. by apply H5.
Qed.

Lemma at_root_alter f ms root : exists i, at_root f ms root = alter f i ms.
Proof.
  induction ms as [|m ms [i IH]]; simpl; [by exists O|]. destruct (m_root m =? root); [by exists O|]. exists (S i). by rewrite IH.
Qed.

Lemma table_snoc k ms m : (length ms < 32)%nat -> m_point m ∉ m_point <$> ms -> normal (m_point m) -> m_root m <> 0 -> 0 <= m_ref m <= k ->
  table_ok k ms -> table_ok k (ms ++ [m]).
Proof.
  intros Hl Hp Hn Hr Hm [H1 H2 H3 H4 H5].
  assert (forall (P : vmount -> Prop), (forall x, x ∈ ms -> P x) -> P m -> forall x, x ∈ ms ++ [m] -> P x) as Hall.
  { intros P HP Pm x Hx. apply elem_of_app in Hx as [Hx|Hx]; [by apply HP|]. apply list_elem_of_singleton in Hx. by subst. }
  constructor; [rewrite length_app; simpl; lia | | apply Hall; done | apply Hall; done | apply Hall; done].
  rewrite fmap_app. apply NoDup_app. split; [done|]. split; [|apply NoDup_singleton]. intros x Hx Hx'. apply list_elem_of_singleton in Hx'. by subst.
Qed.

Lemma table_delete k ms i : table_ok k ms -> table_ok k (delete i ms).
Proof.
  intros [H1 H2 H3 H4 H5]. assert (delete i ms `sublist_of` ms) as Hs by apply sublist_delete.
  assert (forall m, m ∈ delete i ms -> m ∈ ms) as Hin by (intros m Hm; eapply elem_of_submseteq; [done | by apply sublist_submseteq]).
  constructor; [apply sublist_length in Hs; lia | | auto..]. apply (sublist_NoDup _ (m_point <$> ms)); [done | by apply fmap_sublist].
Qed.

Lemma mount_index_none ms mp : mount_index ms mp = None -> mp ∉ m_point <$> ms.
Proof.
  induction ms as [|m ms IH]; simpl; [intros _; apply not_elem_of_nil|]. case_bool_decide as E; [done|]. intros Hn.
  rewrite elem_of_cons. intros [->|Hin]; [done|]. apply IH; [|done]. by destruct (mount_index ms mp).
Qed.

Lemma mount_index_some ms mp i : mount_index ms mp = Some i -> exists m, ms !! i = Some m /\ m_point m = mp.
Proof.
  revert i. induction ms as [|m ms IH]; intros i; simpl; [done|]. case_bool_decide as E; [intros [= <-]; eauto|].
  destruct (mount_index ms mp) as [j|]; [|done]. intros [= <-]. by apply IH.
Qed.

Lemma mount_table k v mp root fstype source flags bdev sb : 0 <= k -> table_ok k (v_mounts v) ->
  table_ok (k + 1) (v_mounts (vfs_mount_full (F := F) v mp root fstype source flags bdev sb).2).
Proof.
  intros H0 Ht. unfold vfs_mount_full, vfs_mount_nolock_full. destruct (mount_index (v_mounts v) _) as [i|] eqn:Ei.
  - destruct (negb _); simpl; [|apply (table_weaken k); (done || lia)]. apply table_alter; (done || (simpl; lia)).
  - destruct (Z.leb_spec 32 (Z.of_nat (length (v_mounts v)))); [apply (table_weaken k); (done || lia)|].
    destruct (Z.eqb_spec root 0); [apply (table_weaken k); (done || lia)|]. simpl. apply (table_weaken k); [lia|].
    apply table_snoc; simpl; [lia | by apply mount_index_none | apply normalize_normal | done | lia | done].
Qed.

Lemma ref_table k ms i : 0 <= k < 2147483647 -> table_ok k ms -> table_ok (k + 1) (alter (fun m => set_ref (s32 (m_ref m + 1)) m) i ms).
Proof. intros H0 Ht. apply table_alter; [done | | lia | done]. intros m _ Hr. simpl. rewrite s32_small; lia. Qed.

Lemma unref_table k ms i : 0 <= k -> table_ok k ms -> table_ok (k + 1) (alter unref i ms).
Proof.
  intros H0 Ht. apply table_alter; [| |done|done]; unfold unref; [by intros m; destruct (0 <? m_ref m)|].
  intros m _ Hr. destruct (Z.ltb_spec 0 (m_ref m)); simpl; lia.
Qed.

(** ** Every operation *)

(** Superblocks can be torn down. *)
Definition kills (F : Type) `{NodeOps F} : Prop :=
  forall (f : F) sb, exists o, sb_kill f sb = Ok o /\ match o with Some r => exists f', r = Ok f' | None => True end.

Lemma umount_table k v mp : kills F -> 0 <= k -> table_ok k (v_mounts v) ->
  exists r v', vfs_umount v mp = Ok (r, v') /\ table_ok (k + 1) (v_mounts v').
Proof.
  intros Hk H0 Ht. assert (table_ok (k + 1) (v_mounts v)) as Ht' by (apply (table_weaken k); (done || lia)).
  unfold vfs_umount, vfs_umount_nolock. case_bool_decide; [by eexists _, _|].
  destruct (mount_index (v_mounts v) _) as [i|] eqn:Ei; [|by eexists _, _]. destruct (mount_index_some _ _ _ Ei) as (m & Hm & _). rewrite Hm. simpl.
  destruct (0 <? m_ref m); [by eexists _, _|]. destruct (has_child_mount _ _ _ _); [by eexists _, _|].
  assert (exists o, (if m_sb m =? 0 then mret None else sb_kill (v_fs v) (m_sb m)) = Ok o /\ match o with Some r => exists f', r = Ok f' | None => True end) as (o & -> & Ho).
  { destruct (m_sb m =? 0); [by exists None | apply Hk]. }
  rewrite res_bind_ok. destruct o as [r|]; [destruct Ho as [f' ->]|]; rewrite res_bind_ok; eexists _, _; (split; [done|]); simpl; by apply table_delete.
Qed.

Lemma vexec_ok k v o : kills F -> 0 <= k < 2147483647 -> table_ok k (v_mounts v) -> exists r v', vexec v o = Ok (r, v') /\ table_ok (k + 1) (v_mounts v').
Proof.
  intros Hk H0 Ht. assert (table_ok (k + 1) (v_mounts v)) as Ht' by (apply (table_weaken k); (done || lia)). destruct o; simpl.
  - pose proof (mount_table k v mountpoint root fstype source flags bdev sb) as Hm. destruct (vfs_mount_full v mountpoint root fstype source flags bdev sb) as [r v'].
    eexists _, _. split; [done|]. apply Hm; (done || lia).
  - apply umount_table; (done || lia).
  - eexists _, _. split; [done|]. unfold vfs_mount_ref. destruct (root =? 0); [done|]. simpl.
    destruct (at_root_alter (fun m => set_ref (s32 (m_ref m + 1)) m) (v_mounts v) root) as [i ->]. by apply ref_table.
  - eexists _, _. split; [done|]. unfold vfs_mount_unref. destruct (root =? 0); [done|]. simpl.
    destruct (at_root_alter unref (v_mounts v) root) as [i ->]. apply unref_table; (done || lia).
  - eexists _, _. split; [done|]. unfold vfs_mount_ref_by_path. case_bool_decide; [done|]. destruct (scan_index _ _ _ _ _); [|done]. by apply ref_table.
  - eexists _, _. split; [done|]. unfold vfs_mount_unref_by_path. case_bool_decide; [done|]. destruct (scan_index _ _ _ _ _); [|done]. apply unref_table; (done || lia).
Qed.

Lemma vruns_ok l : forall k v, kills F -> 0 <= k -> k + Z.of_nat (length l) <= 2147483647 -> table_ok k (v_mounts v) ->
  exists rs v', vruns v l = Ok (rs, v') /\ table_ok (k + Z.of_nat (length l)) (v_mounts v').
Proof.
  induction l as [|o l IH]; intros k v Hk H0 Hl Ht; simpl; [eexists _, _; split; [done|]; by rewrite Z.add_0_r|].
  simpl in Hl. destruct (vexec_ok k v o Hk) as (r & v1 & -> & Ht1); [lia | done|]. rewrite res_bind_ok.
  destruct (IH (k + 1) v1 Hk) as (rs & v2 & -> & Ht2); [lia | lia | done|]. rewrite res_bind_ok. eexists _, _. split; [done|].
  by replace (k + Z.of_nat (S (length l))) with (k + 1 + Z.of_nat (length l)) by lia.
Qed.

(** ** A mount and its references *)

Lemma mount_index_snoc ms m : m_point m ∉ m_point <$> ms -> mount_index (ms ++ [m]) (m_point m) = Some (length ms).
Proof.
  induction ms as [|x ms IH]; simpl; intros Hn; [by rewrite bool_decide_eq_true_2|]. rewrite elem_of_cons in Hn.
  rewrite bool_decide_eq_false_2 by (intros E; apply Hn; by left). rewrite IH by tauto. done.
Qed.

Lemma no_child_mount ms i idx mp : mp <> [] -> mp <> [SLASH] -> (forall m, m ∈ ms -> covers mp (m_point m) -> m_point m = mp) -> has_child_mount ms i idx mp = false.
Proof.
  intros Hne Hns. revert i. induction ms as [|m ms IH]; intros i Hc; [done|]. cbn [has_child_mount]. rewrite IH by (intros x Hx; apply Hc; by right).
  rewrite orb_false_r. apply not_true_iff_false. intros Hb. apply andb_prop in Hb as [Hb Hd]. apply andb_prop in Hb as [Hb Ht]. apply andb_prop in Hb as [_ Hl].
  apply Nat.ltb_lt in Hl. apply bool_decide_eq_true in Ht. assert (m_point m = mp) as E; [|rewrite E in Hl; lia].
  apply Hc; [left|]. right. exists (drop (length mp) (m_point m)). split; [by rewrite <- Ht at 1; rewrite take_drop|].
  destruct (drop (length mp) (m_point m)) as [|c q]; [done|]. apply Z.eqb_eq in Hd. subst. right. eauto.
Qed.

Lemma alter_snoc {A} (f : A -> A) (l : list A) x : alter f (length l) (l ++ [x]) = l ++ [f x].
Proof. induction l as [|y l IH]; simpl; [done|]. f_equal. apply IH. Qed.

Lemma delete_snoc {A} (l : list A) x : delete (length l) (l ++ [x]) = l.
Proof. induction l as [|y l IH]; simpl; [done|]. f_equal. apply IH. Qed.

(** The mount of a mount point is the one on it. *)
Lemma scan_index_snoc k ms m : table_ok k (ms ++ [m]) -> scan_index (ms ++ [m]) 0 (m_point m) 0 None = Some (length ms).
Proof.
  intros Ht. assert (m ∈ ms ++ [m]) as Hin by (apply elem_of_app; right; left).
  pose proof (tb_normal _ _ Ht m Hin) as Hn. assert (covers (m_point m) (m_point m)) as Hcm by (right; exists []; rewrite app_nil_r; eauto).
  pose proof (best_mount_ok (ms ++ [m]) (m_point m) None (tb_points _ _ Ht) (tb_normal _ _ Ht)) as Hb.
  pose proof (scan_index_best (ms ++ [m]) (m_point m) (ms ++ [m]) 0 None None) as Hs.
  destruct (best_mount (ms ++ [m]) (m_point m) None) as [r|]; [|destruct Hb as [_ Hb]; [done|]; by destruct (Hb m Hin)].
  destruct Hb as ([Hr|] & Hcr & Hmax); [done| |done]. destruct Hs as (j & Hj & Hlk); [by rewrite drop_0 | apply Ht | apply Ht | done | done | done|].
  rewrite Hj. f_equal. assert (r = m) as ->.
  { destruct (Hmax m (or_introl Hin) Hcm) as [->|Hlt]; [done|]. exfalso. destruct Hcr as [Er|(rest & E & _)]; [|rewrite E, length_app in Hlt; lia].
    destruct Hn as (_ & [q Eq] & _). rewrite Er, Eq in Hlt. simpl in Hlt. lia. }
  apply (NoDup_lookup (m_point <$> ms ++ [m]) j (length ms) (m_point m) (tb_points _ _ Ht)); rewrite list_lookup_fmap; [by rewrite Hlk|].
  rewrite lookup_app_r, Nat.sub_diag by done. done.
Qed.

Lemma ref_last k (v : vfs F) ms m : table_ok k (ms ++ [m]) -> v_mounts v = ms ++ [m] ->
  vfs_mount_ref_by_path v (m_point m) = set_mounts (ms ++ [set_ref (s32 (m_ref m + 1)) m]) v /\
  vfs_mount_unref_by_path v (m_point m) = set_mounts (ms ++ [unref m]) v.
Proof.
  intros Ht Hv. assert (m_point m <> []) as Hne by (apply normal_nonempty, (tb_normal _ _ Ht); apply elem_of_app; right; left).
  unfold vfs_mount_ref_by_path, vfs_mount_unref_by_path. rewrite bool_decide_eq_false_2, Hv, (scan_index_snoc k ms m Ht), !alter_snoc by done. done.
Qed.

(** The file system after its superblock, if it has one, has been torn down. *)
Definition killed (f : F) (sb : Z) : res F :=
  if sb =? 0 then mret f else o ← sb_kill f sb; match o with Some r => r | None => mret f end.

Lemma umount_last (v : vfs F) ms m mountpoint : v_mounts v = ms ++ [m] -> normalize_mountpoint mountpoint 128 = m_point m -> m_point m <> [SLASH] ->
  m_point m ∉ m_point <$> ms -> (forall x, x ∈ ms -> ~ covers (m_point m) (m_point x)) ->
  vfs_umount v mountpoint =
    if 0 <? m_ref m then Ok (- EBUSY, v)
    else f ← killed (v_fs v) (m_sb m); mret (0, Vfs f (v_root v) (v_initrd v) ms (blockdev_release (v_devs v) (m_bdev m))).
Proof.
  intros Hv Hmp Hns Hnot Hbelow. pose proof (normalize_normal mountpoint) as Hnorm. rewrite Hmp in Hnorm.
  unfold vfs_umount, vfs_umount_nolock. rewrite Hmp, bool_decide_eq_false_2, Hv, (mount_index_snoc ms m Hnot) by done.
  rewrite lookup_app_r, Nat.sub_diag by done. simpl. destruct (0 <? m_ref m); [done|].
  rewrite no_child_mount; [|by apply normal_nonempty|done|].
  - rewrite delete_snoc. unfold killed. destruct (m_sb m =? 0); [done|]. by destruct (sb_kill _ _) as [[r|]| |].
  - intros y Hy Hc. apply elem_of_app in Hy as [Hy|Hy]; [by destruct (Hbelow y Hy)|]. apply list_elem_of_singleton in Hy. by subst.
Qed.

(** A new mount is the last entry of the table. *)
Lemma mount_last k (v v1 : vfs F) mountpoint root fstype source flags bdev sb : 0 <= k -> table_ok k (v_mounts v) ->
  normalize_mountpoint mountpoint 128 ∉ m_point <$> v_mounts v -> vfs_mount_full v mountpoint root fstype source flags bdev sb = (0, v1) ->
  exists m, v1 = set_mounts (v_mounts v ++ [m]) v /\ m_point m = normalize_mountpoint mountpoint 128 /\ m_ref m = 0 /\ m_bdev m = bdev /\ m_sb m = sb /\
    forall r, 0 <= r <= k -> table_ok k (v_mounts v ++ [set_ref r m]).
Proof.
  intros H0 Ht Hnot Hm. unfold vfs_mount_full, vfs_mount_nolock_full in Hm. destruct (mount_index (v_mounts v) _) as [i|] eqn:Ei.
  { destruct (mount_index_some _ _ _ Ei) as (m & Hlk & E). destruct Hnot. rewrite <- E. apply list_elem_of_fmap_2. by apply list_elem_of_lookup_2 in Hlk. }
  destruct (Z.leb_spec 32 (Z.of_nat (length (v_mounts v)))); [done|]. destruct (Z.eqb_spec root 0); [done|]. injection Hm as <-.
  eexists. split; [done|]. split_and!; [done..|]. intros r Hr. apply table_snoc; simpl; [lia | done | apply normalize_normal | done | done | done].
Qed.
End table.
