(* ===== verification/VfsTmpfs.v ===== *)
(** Path lookup of src/kernel/fs.c as a walk over the parts of a path: it always ends, it
    only finds live nodes, and names that are added do not change what it found; and the
    operations by path on mounts whose nodes are those of src/kernel/tmpfs.c: whatever
    paths they are given, but for the empty one, they return, touch only live nodes and
    keep the tree and the mount table. *)

From S2P Require Import Prelude Tmpfs TmpfsSpec TmpfsInv TmpfsRep TmpfsOps TmpfsSim Vfs VfsSpec.

Section walks.
Context {F : Type} `{NodeOps F}.

(** The loop over the parts of a path, one name at a time. *)
Fixpoint walk_list (follow : cstr -> res Z) (fl : Z) (f : F) (ps : list cstr) (cur : Z) : res Z :=
  match ps with
  | [] => mret cur
  | part :: ps =>
      if cur =? 0 then mret 0
      else
        cur ← step_into f cur part;
        if cur =? 0 then mret 0
        else
          t ← link_target f cur;
          if negb (bool_decide (t = [])) then
            if negb (Z.land fl LOOKUP_NOFOLLOW =? 0) then mret cur
            else
              cur ← follow t;
              if cur =? 0 then mret 0 else walk_list follow fl f ps cur
          else walk_list follow fl f ps cur
  end.

Lemma res_bind_ext {A B} (m : res A) (g h : A -> res B) : (forall a, g a = h a) -> (m ≫= g) = (m ≫= h).
Proof. intros E. destruct m; simpl; [apply E | done | done]. Qed.

Lemma walk_parts_list follow fl f : forall fuel p cur, (length p < fuel)%nat -> (p = [] \/ exists c q, p = c :: q /\ c <> SLASH) ->
  walk_parts fuel follow fl f p cur = walk_list follow fl f (parts p) cur.
Proof.
  induction fuel as [|fuel IH]; intros p cur Hl Hp; [lia|]. destruct Hp as [->|(c & q & -> & Hc)]; [done|].
  pose proof (split_next_ok (c :: q)) as Hs. unfold tmpfs_split_next in Hs. cbn [skip_slashes] in Hs. rewrite (proj2 (Z.eqb_neq c SLASH)) in Hs by done.
  cbn [walk_parts]. destruct (span_part (c :: q)) as [a r]. destruct (strtrunc 128 a) as [|x a'] eqn:Ea.
  { destruct a as [|y a]; [|done]. exfalso. unfold parts in Hs. cbn [split_slash] in Hs. rewrite (proj2 (Z.eqb_neq c SLASH)) in Hs by done.
    destruct (split_slash q); rewrite filter_cons_True in Hs by done; done. }
  destruct Hs as (-> & Hlen & _). cbn [walk_list]. destruct (cur =? 0); [done|].
  assert (forall cur, walk_parts fuel follow fl f (skip_slashes r) cur = walk_list follow fl f (parts (skip_slashes r)) cur) as E.
  { intros. apply IH; [simpl in *; lia|]. apply skip_slashes_head. }
  apply res_bind_ext. intros d. destruct (d =? 0); [done|]. apply res_bind_ext. intros t.
  destruct (negb (bool_decide _)); [|apply E]. destruct (negb _); [done|]. apply res_bind_ext. intros e. destruct (e =? 0); [done | apply E].
Qed.

(** The base of a path and the parts that are left. *)
Definition start_of (v : vfs F) (path : cstr) : Z * list cstr :=
  let '(base, n) := scan_base (v_mounts v) path 0 (v_root v) in (base, parts (drop n path)).

(** The rest of the path would start behind its terminator. *)
Definition past_end (v : vfs F) (path : cstr) : bool := (length path <? (scan_base (v_mounts v) path 0 (v_root v)).2)%nat.

Lemma scan_base_within ms path : path <> [] -> forall best base, (best <= length path)%nat -> ((scan_base ms path best base).2 <= length path)%nat.
Proof.
  intros Hp. induction ms as [|m ms IH]; intros best base Hb; cbn [scan_base]; [done|]. destruct (_ || _); [by apply IH|].
  destruct (path_is_mountpoint_prefix (m_point m) path) eqn:E; cbn [andb]; [|by apply IH]. destruct (_ <=? _)%nat; [|by apply IH]. apply IH.
  unfold path_is_mountpoint_prefix in E. destruct (bool_decide_reflect (m_point m = [])) as [->|_]; [done|].
  destruct (bool_decide_reflect (m_point m = [SLASH])) as [->|_]; [destruct path; [done | simpl; lia]|].
  destruct (bool_decide_reflect (take (length (m_point m)) path = m_point m)) as [Et|_]; [|done]. apply (f_equal length) in Et. rewrite length_take in Et. lia.
Qed.

(** Only the empty path has its rest there. *)
Lemma past_end_empty v path : path <> [] -> past_end v path = false.
Proof. intros Hp. apply Nat.ltb_ge, scan_base_within; [done | lia]. Qed.

Lemma lookup_depth_eq fuel v path depth fl :
  vfs_lookup_depth (S fuel) v path depth fl =
    if (8 <? depth) || (128 <=? Z.of_nat (length path)) || (v_root v =? 0) then mret 0
    else if past_end v path then Ub
    else walk_list (fun t => vfs_lookup_depth fuel v t (depth + 1) fl) fl (v_fs v) (start_of v path).2 (start_of v path).1.
Proof.
  cbn [vfs_lookup_depth]. unfold start_of, past_end, from_byte. destruct (8 <? depth); [done|]. destruct (128 <=? _); [done|]. destruct (v_root v =? 0); [done|].
  destruct (scan_base _ _ _ _) as [base n]. cbn [orb fst snd]. destruct (_ <? _)%nat; [done|]. rewrite res_bind_ok. set (rel := drop n path). rewrite <- (skip_slashes_parts rel).
  destruct (skip_slashes rel) as [|c q] eqn:E; [done|]. apply walk_parts_list; [simpl; lia|].
  destruct (skip_slashes_head rel) as [E'|E']; [congruence|]. right. by rewrite E in E'.
Qed.

(** With links followed, a walk can be cut anywhere. *)
Lemma walk_list_app follow f ps qs : forall cur,
  walk_list follow LOOKUP_FOLLOW f (ps ++ qs) cur = (c ← walk_list follow LOOKUP_FOLLOW f ps cur; walk_list follow LOOKUP_FOLLOW f qs c).
Proof.
  assert (walk_list follow LOOKUP_FOLLOW f qs 0 = Ok 0) as H0 by (by destruct qs).
  induction ps as [|part ps IH]; intros cur; simpl; [done|]. destruct (cur =? 0); [done|].
  destruct (step_into f cur part) as [c| |]; simpl; [|done|done]. destruct (c =? 0); [done|].
  destruct (link_target f c) as [t| |]; simpl; [|done|done].
  destruct (negb (bool_decide _)); [|apply IH]. destruct (follow t) as [e| |]; simpl; [|done|done]. destruct (e =? 0); [done | apply IH].
Qed.

(** ** Names that are added *)

(** Everything that was found before is found again. *)
Definition extends (f f' : F) : Prop :=
  forall p part c, step_into f p part = Ok c -> c <> 0 ->
    step_into f' p part = Ok c /\ link_target f' c = link_target f c.

Lemma walk_extends follow follow' fl f f' ps : extends f f' -> (forall t c, follow t = Ok c -> c <> 0 -> follow' t = Ok c) ->
  forall cur c, walk_list follow fl f ps cur = Ok c -> c <> 0 -> walk_list follow' fl f' ps cur = Ok c.
Proof.
  intros Hf Hfol. induction ps as [|part ps IH]; intros cur c Hw Hc; simpl in *; [done|]. destruct (cur =? 0); [done|].
  apply res_bind_ok_inv in Hw as (d & Hd & Hw). destruct (Z.eqb_spec d 0) as [->|Hd0]; [by injection Hw as <-|].
  destruct (Hf cur part d Hd Hd0) as [-> Et]. rewrite res_bind_ok, (proj2 (Z.eqb_neq d 0)), Et by done.
  apply res_bind_ok_inv in Hw as (t & -> & Hw). rewrite res_bind_ok.
  destruct (negb (bool_decide _)); [|by apply IH]. destruct (negb _); [done|]. apply res_bind_ok_inv in Hw as (e & He & Hw).
  destruct (Z.eqb_spec e 0) as [->|He0]; [by injection Hw as <-|]. rewrite (Hfol t e He He0), res_bind_ok, (proj2 (Z.eqb_neq e 0)) by done. by apply IH.
Qed.

Lemma lookup_extends fuel : forall v f' path depth fl c, extends (v_fs v) f' ->
  vfs_lookup_depth fuel v path depth fl = Ok c -> c <> 0 -> vfs_lookup_depth fuel (set_fs f' v) path depth fl = Ok c.
Proof.
  induction fuel as [|fuel IH]; intros v f' path depth fl c Hf Hl Hc; [done|]. rewrite lookup_depth_eq in *. simpl v_root. destruct (_ || _ || _); [done|].
  change (past_end (set_fs f' v) path) with (past_end v path). destruct (past_end v path); [done|].
  apply (walk_extends (fun t => vfs_lookup_depth fuel v t (depth + 1) fl) _ fl (v_fs v) f' _ Hf); [|done|done]. intros t d. by apply IH.
Qed.
End walks.

Notation tvfs := (vfs (tmpfs * list Z)).

(** ** Steps *)

Lemma tmpfs_step A s mem p part : shows A s -> is_Some (a_nodes A !! p) ->
  step_into (s, mem) p part = Ok (match a_get A p with Some (ADir l) => a_find l part | _ => 0 end).
Proof.
  intros Hs [x Hx]. unfold step_into. simpl. destruct (shows_some Hs p x Hx) as (n & Hn & _ & _ & Hf & _). rewrite (node_ok _ _ _ Hn). simpl.
  rewrite (a_get_some _ _ _ Hx), Hf. destruct (a_kind x) as [b|l|t] eqn:Hk; simpl; [done| |done].
  rewrite (finddir_ok A) by (done || (right; eauto)). by rewrite (a_get_some _ _ _ Hx), Hk.
Qed.

Lemma tmpfs_step_inv A s mem p part c : shows A s -> step_into (s, mem) p part = Ok c -> c <> 0 ->
  exists l, a_get A p = Some (ADir l) /\ a_find l part = c.
Proof.
  intros Hs Hst Hc. destruct (a_nodes A !! p) as [x|] eqn:Hx.
  - rewrite (tmpfs_step A) in Hst by (done || eauto). injection Hst as Hst. destruct (a_get A p) as [[| l |]|]; eauto; congruence.
  - unfold step_into in Hst. simpl in Hst. unfold node in Hst. by rewrite (shows_none Hs p Hx) in Hst.
Qed.

Lemma tmpfs_flags A s mem p k : shows A s -> a_get A p = Some k -> nd_flags (s, mem) p = Ok (kind_flags k).
Proof. intros Hs Hk. simpl. destruct (shows_get Hs p k Hk) as (n & Hn & Hf & _). rewrite (node_ok _ _ _ Hn). simpl. by rewrite Hf. Qed.

Lemma tmpfs_target A s mem p k : shows A s -> a_get A p = Some k -> link_target (s, mem) p = Ok (match k with ALink t => t | _ => [] end).
Proof.
  intros Hs Hk. unfold link_target. rewrite (tmpfs_flags A s mem p k Hs Hk), res_bind_ok. destruct k as [b|l|t]; [done|done|].
  simpl. destruct (shows_get Hs p _ Hk) as (n & Hn & _ & <- & _). by rewrite (node_ok _ _ _ Hn).
Qed.

Lemma find_arg A p l nm : tree_ok A -> a_get A p = Some (ADir l) -> arg A (a_find l nm).
Proof.
  intros HA Hp. destruct (decide (a_find l nm = 0)) as [->|Hf]; [by left|]. right. pose proof (find_live HA p l nm Hp Hf) as H.
  unfold a_parent in H. by destruct (a_nodes A !! a_find l nm).
Qed.

(** ** Lookups always end *)

Lemma walk_total A s mem follow fl ps : shows A s -> (forall t, t <> [] -> exists c, follow t = Ok c /\ arg A c) ->
  forall cur, arg A cur -> exists c, walk_list follow fl (s, mem) ps cur = Ok c /\ arg A c.
Proof.
  intros Hs Hfol. induction ps as [|part ps IH]; intros cur Hcur; cbn [walk_list]; [by exists cur|].
  destruct Hcur as [->|Hcur]; [exists 0; split; [done | by left]|]. destruct (cur =? 0); [exists 0; split; [done | by left]|].
  rewrite (tmpfs_step A), res_bind_ok by done. set (d := match a_get A cur with Some (ADir l) => a_find l part | _ => 0 end).
  assert (arg A d) as Hd by (unfold d; destruct (a_get A cur) as [[| l |]|] eqn:E; try (by left); by apply (find_arg A cur l part (sh_tree _ _ Hs))).
  destruct (Z.eqb_spec d 0) as [E|E]; [exists 0; split; [done | by left]|]. destruct Hd as [|Hd]; [done|]. destruct (Hd) as [x Hx].
  rewrite (tmpfs_target A s mem d (a_kind x) Hs (a_get_some _ _ _ Hx)), res_bind_ok. set (t := match a_kind x with ALink t => t | _ => [] end).
  destruct (bool_decide_reflect (t = [])) as [_|Ht]; cbn [negb]; [apply IH; by right|]. destruct (negb _); [exists d; split; [done | by right]|]. destruct (Hfol t Ht) as (e & -> & He). rewrite res_bind_ok.
  destruct (Z.eqb_spec e 0); [exists 0; split; [done | by left] | by apply IH].
Qed.

(** The roots of all mounts are nodes. *)
Definition roots_ok (A : atree) (v : tvfs) : Prop := is_Some (a_nodes A !! v_root v) /\ forall m, m ∈ v_mounts v -> is_Some (a_nodes A !! m_root m).

Lemma scan_base_root ms path : forall best base, (scan_base ms path best base).1 = base \/ exists m, m ∈ ms /\ (scan_base ms path best base).1 = m_root m.
Proof.
  induction ms as [|m ms IH]; intros best base; cbn [scan_base]; [by left|].
  assert (forall x y, (scan_base ms path x y).1 = y \/ exists m0, m0 ∈ m :: ms /\ (scan_base ms path x y).1 = m_root m0) as IH'.
  { intros x y. destruct (IH x y) as [|(m0 & Hin & E)]; [by left|]. right. exists m0. split; [by right | done]. }
  destruct (_ || _); [apply IH'|]. destruct (_ && _); [|apply IH']. destruct (IH' (length (m_point m)) (m_root m)) as [E|E]; [|by right].
  right. exists m. split; [left | done].
Qed.

Lemma start_live A v path : roots_ok A v -> arg A (start_of v path).1.
Proof.
  intros [Hr Hm]. unfold start_of. pose proof (scan_base_root (v_mounts v) path 0 (v_root v)) as Hs.
  destruct (scan_base _ _ _ _) as [base n]. simpl in *. right. destruct Hs as [->|(m & Hin & ->)]; [done | by apply Hm].
Qed.

Lemma lookup_depth_total A v fuel : shows A (v_fs v).1 -> roots_ok A v -> forall path depth fl, path <> [] -> depth <= 9 -> 10 <= Z.of_nat fuel + depth ->
  exists c, vfs_lookup_depth fuel v path depth fl = Ok c /\ arg A c.
Proof.
  intros Hs Hr. induction fuel as [|fuel IH]; intros path depth fl Hp H9 Hd; [lia|]. rewrite lookup_depth_eq, past_end_empty by done.
  destruct (Z.ltb_spec 8 depth); [exists 0; split; [done | by left]|]. cbn [orb]. destruct (_ || _); [exists 0; split; [done | by left]|].
  destruct (v_fs v) as [s mem] eqn:Ev. apply (walk_total A); [done| |by apply start_live]. intros t Ht. apply IH; (done || lia).
Qed.

Lemma lookup_node_live A v path : shows A (v_fs v).1 -> roots_ok A v -> path <> [] -> exists c, vfs_lookup v path = Ok c /\ arg A c.
Proof. intros Hs Hr Hp. apply (lookup_depth_total A); (done || lia). Qed.

(** ** A path and its parent *)

Lemma last_slash_ok path pre base : last_slash path = Some (pre, base) -> path = pre ++ SLASH :: base /\ SLASH ∉ base.
Proof.
  revert pre. induction path as [|c q IH]; intros pre; simpl; [done|]. destruct (last_slash q) as [[a b]|] eqn:E.
  - intros [= <- <-]. destruct (IH a eq_refl) as [-> Hb]. done.
  - destruct (Z.eqb_spec c SLASH) as [->|]; [|done]. intros [= <- <-]. split; [done|]. clear IH.
    induction q as [|x q IH]; [apply not_elem_of_nil|]. simpl in E. destruct (last_slash q) as [[? ?]|]; [done|].
    destruct (Z.eqb_spec x SLASH) as [|Hx]; [done|]. rewrite elem_of_cons. intros [?|Hin]; [congruence | by apply IH].
Qed.

Lemma split_slash_app p q : split_slash (p ++ SLASH :: q) = split_slash p ++ split_slash q.
Proof.
  induction p as [|c p IH]; simpl; [done|]. rewrite IH. destruct (c =? SLASH); [done|]. destruct (split_slash p) as [|a l] eqn:E; [|done].
  destruct p as [|d p]; [done|]. simpl in E. destruct (d =? SLASH); [done|]. by destruct (split_slash p).
Qed.

Lemma parts_snoc p base : SLASH ∉ base -> base <> [] -> short base -> parts (p ++ SLASH :: base) = parts p ++ [base].
Proof.
  intros Hn Hne Hs. unfold parts. rewrite split_slash_app, filter_app, fmap_app. f_equal.
  assert (split_slash base = [base]) as ->.
  { clear Hne Hs. induction base as [|c b IH]; simpl; [done|]. rewrite elem_of_cons in Hn. rewrite (proj2 (Z.eqb_neq c SLASH)) by (intros ->; tauto).
    rewrite IH by tauto. done. }
  rewrite filter_cons_True by done. rewrite fmap_cons, take_ge by (unfold short in Hs; lia). done.
Qed.

(** The path of the parent directory. *)
Definition parent_of (pre : cstr) : cstr := if (length pre =? 0)%nat then [SLASH] else pre.

Lemma slash_split pre base mp q : pre ++ SLASH :: base = mp ++ SLASH :: q -> SLASH ∉ base -> pre = mp \/ exists r, pre = mp ++ SLASH :: r.
Proof.
  revert mp. induction pre as [|c pre IH]; intros mp E Hb; destruct mp as [|d mp]; simpl in *; [by left| |injection E as -> E; right; eauto|].
  - injection E as <- ->. destruct Hb. apply elem_of_app. right. left.
  - injection E as -> E. destruct (IH mp E Hb) as [->|[r ->]]; [by left|]. right. eauto.
Qed.

(** A mount that is not on the path itself covers it when it covers its parent. *)
Lemma covers_parent mp pre base : normal mp -> SLASH ∉ base -> mp <> pre ++ SLASH :: base ->
  covers mp (pre ++ SLASH :: base) <-> covers mp (parent_of pre).
Proof.
  intros Hn Hb Hne. pose proof (normal_nonempty _ Hn) as H0. unfold covers, parent_of. split; intros [->|(rest & E & Hr)]; try (by left).
  - right. destruct Hr as [->|[q ->]]; [by rewrite app_nil_r in E|]. destruct (slash_split _ _ _ _ E Hb) as [->|[r ->]].
    + exists []. rewrite app_nil_r. destruct mp; [done|]. simpl. eauto.
    + exists (SLASH :: r). destruct mp; [done|]. simpl. eauto.
  - destruct pre as [|c pre]; simpl in E.
    + left. destruct mp as [|d mp]; [done|]. destruct mp; [|done]. by injection E as -> _.
    + right. exists (rest ++ SLASH :: base). rewrite app_assoc, <- E. split; [done|]. destruct Hr as [->|[q ->]]; simpl; eauto.
Qed.

Lemma best_mount_ext ms path path' : (forall m, m ∈ ms -> path_is_mountpoint_prefix (m_point m) path = path_is_mountpoint_prefix (m_point m) path') ->
  forall acc, best_mount ms path acc = best_mount ms path' acc.
Proof.
  induction ms as [|m ms IH]; intros He acc; cbn [best_mount]; [done|]. rewrite He by left. destruct (_ && _); apply IH; intros; apply He; by right.
Qed.

(** What is left of a path in its mount ends with its last name. *)
Lemma rest_parts mp pre base : normal mp -> covers mp (parent_of pre) -> SLASH ∉ base -> base <> [] -> short base ->
  parts (drop (length mp) (pre ++ SLASH :: base)) = parts (drop (length mp) (parent_of pre)) ++ [base].
Proof.
  intros Hn Hc Hb Hne Hs. unfold parent_of in *. destruct pre as [|c pre]; simpl in Hc |- *.
  - assert (mp = [SLASH]) as ->.
    { destruct Hc as [|(r & E & _)]; [done|]. destruct Hn as (_ & [q ->] & _). destruct q; [done | done]. }
    simpl. rewrite drop_0. exact (parts_snoc [] base Hb Hne Hs).
  - destruct Hc as [->|(r & E & _)]; simpl.
    + rewrite !drop_0. by apply parts_snoc.
    + rewrite app_comm_cons, E, <- app_assoc, !drop_app_length. by apply parts_snoc.
Qed.

Lemma start_split k (v : tvfs) pre base : table_ok k (v_mounts v) -> (forall m, m ∈ v_mounts v -> m_point m <> pre ++ SLASH :: base) ->
  SLASH ∉ base -> base <> [] -> short base ->
  start_of v (pre ++ SLASH :: base) = ((start_of v (parent_of pre)).1, (start_of v (parent_of pre)).2 ++ [base]).
Proof.
  intros Ht Hm Hb Hne Hs. unfold start_of.
  assert (forall m, m ∈ v_mounts v -> normal (m_point m) /\ m_root m <> 0) as Hn by (intros m Hin; split; [by apply Ht | by apply (tb_root _ _ Ht)]).
  rewrite !(scan_base_best (v_mounts v) _ None (v_root v) Hn).
  rewrite (best_mount_ext _ _ (parent_of pre)).
  2:{ intros m Hin. destruct (Hn m Hin) as [Hnm _]. apply eq_true_iff_eq. rewrite !prefix_covers by (by apply normal_nonempty). apply covers_parent; auto. }
  pose proof (best_mount_ok (v_mounts v) (parent_of pre) None (tb_points _ _ Ht) (tb_normal _ _ Ht)) as Hbest.
  destruct (best_mount (v_mounts v) (parent_of pre) None) as [m|]; simpl.
  - destruct Hbest as ([Hin|] & Hc & _); [done| |done]. f_equal. apply rest_parts; auto. by apply (Hn m).
  - f_equal. unfold parent_of. destruct pre as [|c pre]; [exact (parts_snoc [] base Hb Hne Hs) | by apply parts_snoc].
Qed.

(** Looking a path up is looking its parent up and then its last name. *)
Lemma lookup_split k (v : tvfs) pre base : table_ok k (v_mounts v) -> (forall m, m ∈ v_mounts v -> m_point m <> pre ++ SLASH :: base) ->
  SLASH ∉ base -> base <> [] -> (length (pre ++ SLASH :: base) < 128)%nat -> v_root v <> 0 ->
  vfs_lookup v (pre ++ SLASH :: base) =
    (c ← vfs_lookup v (parent_of pre); walk_list (fun t => vfs_lookup_depth 9 v t 1 LOOKUP_FOLLOW) LOOKUP_FOLLOW (v_fs v) [base] c).
Proof.
  intros Ht Hm Hb Hne Hl Hr. rewrite length_app in Hl. simpl in Hl.
  assert (length (parent_of pre) < 128)%nat by (unfold parent_of; destruct pre; simpl in *; lia).
  assert (parent_of pre <> []) as Hpp by (unfold parent_of; by destruct pre).
  unfold vfs_lookup. rewrite !lookup_depth_eq, !past_end_empty by (done || by destruct pre). rewrite (start_split k) by (done || (unfold short; lia)).
  rewrite !(proj2 (Z.leb_gt 128 _)) by (rewrite ?length_app; simpl; lia). rewrite (proj2 (Z.eqb_neq _ 0)) by done. cbn [orb fst snd].
  change (8 <? 0) with false. cbn [orb]. apply walk_list_app.
Qed.

(** ** Directories made and removed by path *)

(** Every name of [A] leads to the same node of the same sort in [A']. *)
Definition names_kept (A A' : atree) : Prop :=
  forall p k, a_get A p = Some k -> exists k', a_get A' p = Some k' /\ kind_flags k' = kind_flags k /\
    match k, k' with
    | ADir l, ADir l' => forall nm, a_find l nm <> 0 -> a_find l' nm = a_find l nm
    | _, _ => k' = k
    end.

Lemma kept_extends A A' s s' mem mem' : shows A s -> shows A' s' -> names_kept A A' -> extends (s, mem) (s', mem').
Proof.
  intros Hs Hs' Hk p part c Hst Hc. destruct (tmpfs_step_inv A s mem p part c Hs Hst Hc) as (l & Hl & Hf).
  destruct (Hk p _ Hl) as (k' & Hk' & Hfl & Hn). destruct k' as [|l'|]; try done.
  assert (a_get A c <> None) as Hlive.
  { intros E. apply Hc. rewrite <- Hf in E |- *. by apply (find_get (sh_tree _ _ Hs) p l part Hl). }
  destruct (a_get A c) as [kc|] eqn:Hgc; [|done]. destruct (Hk c kc Hgc) as (kc' & Hgc' & Hflc & Hcase). split.
  - rewrite (tmpfs_step A') by (done || (unfold a_get in Hk'; destruct (a_nodes A' !! p); done)). rewrite Hk', Hn by congruence. by rewrite Hf.
  - rewrite (tmpfs_target A s mem c kc Hs Hgc), (tmpfs_target A' s' mem' c kc' Hs' Hgc'). destruct kc, kc'; try done; congruence.
Qed.

(** An entry with a new name keeps the others. *)
Lemma attach_keeps A dir name p l k : a_get A dir = Some (ADir l) -> a_nodes A !! p = None -> a_find l name = 0 ->
  names_kept A (a_attach (a_new A p k) dir name p).
Proof.
  intros Hd Hp Hz q kq Hq. assert (p <> dir /\ p <> q) as [Hpd Hpq] by (split; intros ->; apply a_get_none in Hp; congruence).
  rewrite (get_attach _ _ _ _ l) by (by rewrite get_new, decide_False). case_decide as E.
  - subst q. assert (kq = ADir l) as -> by congruence. eexists. split; [done|]. split; [done|]. intros nm Hnm. simpl.
    rewrite bool_decide_eq_false_2 by (intros ->; congruence). done.
  - rewrite get_new, decide_False by done. exists kq. split; [done|]. split; [done|]. by destruct kq.
Qed.

(** An empty directory that is made and removed again leaves the nodes as they were. *)
Lemma attach_remove A dir name p l k : a_get A dir = Some (ADir l) -> a_nodes A !! p = None -> name ∉ l.*1 -> NoDup l.*1 ->
  a_nodes (a_remove (a_attach (a_new A p k) dir name p) dir ((name, p) :: l) name) = a_nodes A.
Proof.
  intros Hd Hp Hn Hnd. assert (p <> dir) as Hpd by (intros ->; apply a_get_none in Hp; congruence).
  assert (a_get (a_new A p k) dir = Some (ADir l)) as Hd' by (by rewrite get_new, decide_False).
  apply map_eq. intros q. destruct (decide (q = p)) as [->|Hq].
  - unfold a_remove. simpl. rewrite bool_decide_eq_true_2 by done. by rewrite lookup_delete_eq.
  - rewrite (remove_lookup _ _ ((name, p) :: l)).
    2:{ by rewrite (get_attach _ _ _ _ l), decide_True. } 2:{ simpl. by rewrite bool_decide_eq_true_2. }
    case_decide as E; rewrite (attach_lookup _ _ _ _ l) by done.
    + subst q. rewrite decide_True by done. simpl. rewrite lookup_insert_ne by done. unfold a_get in Hd. destruct (a_nodes A !! dir) as [[i u kd]|]; [|done]. simpl in *. injection Hd as ->.
      assert (a_without name ((name, p) :: l) = l) as ->; [|done]. exact (a_without_split [] name p l (NoDup_cons_2 _ _ Hn Hnd)).
    + rewrite !decide_False by done. simpl. by rewrite lookup_insert_ne.
Qed.

Lemma lookup_parent_eq (v : tvfs) path pre base : last_slash path = Some (pre, base) -> base <> [] -> (length path < 128)%nat ->
  vfs_lookup_parent v path 128 = (c ← vfs_lookup v (parent_of pre); mret (c, base)).
Proof.
  intros Hls Hne Hl. unfold vfs_lookup_parent. rewrite Hls. destruct (last_slash_ok _ _ _ Hls) as [E _].
  rewrite E, length_app in Hl. simpl in Hl. rewrite (proj2 (Z.leb_gt 128 _)) by (rewrite E, length_app; simpl; lia).
  assert (take (if (length pre =? 0)%nat then 1%nat else length pre) path = parent_of pre) as ->.
  { unfold parent_of. rewrite E. destruct pre; simpl; [done|]. by rewrite take_app_length. }
  rewrite (proj2 (Z.ltb_ge 128 _)) by (destruct pre; simpl in *; lia). destruct base; [done|]. cbn [length Nat.eqb].
  rewrite (proj2 (Z.ltb_ge 128 _)) by (simpl in *; lia). done.
Qed.

Lemma lookup_parent_inv (v : tvfs) path dir name : vfs_lookup_parent v path 128 = Ok (dir, name) -> dir <> 0 ->
  exists pre, last_slash path = Some (pre, name) /\ name <> [] /\ (length path < 128)%nat /\ vfs_lookup v (parent_of pre) = Ok dir.
Proof.
  intros Ep Hd. destruct (decide (length path < 128)%nat) as [Hl|Hl].
  2:{ unfold vfs_lookup_parent in Ep. rewrite (proj2 (Z.leb_le 128 _)) in Ep by lia. by injection Ep as <- _. }
  destruct (last_slash path) as [[pre base]|] eqn:Els.
  2:{ unfold vfs_lookup_parent in Ep. rewrite Els in Ep. destruct (_ <=? _); by injection Ep as <- _. }
  destruct (decide (base = [])) as [->|Hb].
  { unfold vfs_lookup_parent in Ep. rewrite Els in Ep. destruct (_ <=? _); [by injection Ep as <- _|]. cbn [length Nat.eqb] in Ep. destruct (_ <? _); by injection Ep as <- _. }
  rewrite (lookup_parent_eq v path pre base Els Hb Hl) in Ep. apply res_bind_ok_inv in Ep as (c & Hc & Ep). injection Ep as <- <-. eauto.
Qed.

(** The frame of the operations on a directory, from the inside. *)
Lemma with_parent_inv {T} A (v : tvfs) path (fail : Z -> T) op r : shows A (v_fs v).1 -> with_parent v path fail op = Ok r -> (forall e, e < 0 -> r <> fail e) ->
  vfs_require_writable_path v path = 0 /\ exists dir name, vfs_lookup_parent v path 128 = Ok (dir, name) /\ dir <> 0 /\ nd_flags (v_fs v) dir = Ok FS_DIRECTORY /\ op dir name = Ok r.
Proof.
  intros Hs E Hr. unfold with_parent in E. assert (vfs_require_writable_path v path = 0 \/ vfs_require_writable_path v path < 0) as [Hw|Hw] by (unfold vfs_require_writable_path, EROFS; destruct (negb _); lia).
  2:{ rewrite (proj2 (Z.ltb_lt _ 0)) in E by done. injection E as <-. by destruct (Hr _ Hw). }
  rewrite Hw in *. split; [done|]. simpl in E. apply res_bind_ok_inv in E as ([dir name] & Ep & E). exists dir, name. split; [done|].
  destruct (Z.eqb_spec dir 0) as [->|Hd]; [injection E as <-; by destruct (Hr (- ENOENT))|]. split; [done|].
  apply res_bind_ok_inv in E as (fl & Hfl & E). destruct (Z.eqb_spec fl FS_DIRECTORY) as [->|]; [done|]. simpl in E. injection E as <-. by destruct (Hr (- ENOTDIR)).
Qed.

Lemma dir_flags A s mem dir : shows A s -> nd_flags (s, mem) dir = Ok FS_DIRECTORY -> exists l, a_get A dir = Some (ADir l).
Proof.
  intros Hs Hf. destruct (a_get A dir) as [k|] eqn:Hk; [|apply a_get_none in Hk; simpl in Hf; unfold node in Hf; by rewrite (shows_none Hs _ Hk) in Hf].
  rewrite (tmpfs_flags A s mem dir k Hs Hk) in Hf. destruct k; try done. eauto.
Qed.

(** What a directory made by path leaves behind. *)
Lemma mkdir_made A (v v1 : tvfs) path : shows A (v_fs v).1 -> fresh A (v_fs v).2 -> vfs_mkdir v path = Ok (0, v1) ->
  exists pre name dir l p f, last_slash path = Some (pre, name) /\ name <> [] /\ (length path < 128)%nat /\ vfs_require_writable_path v path = 0 /\
    vfs_lookup v (parent_of pre) = Ok dir /\ a_get A dir = Some (ADir l) /\ a_find l name = 0 /\ p <> 0 /\ a_nodes A !! p = None /\
    v1 = set_fs f v /\ shows (a_attach (a_new A p (ADir [])) dir name p) f.1.
Proof.
  intros Hs Hf E. destruct (with_parent_inv A v path _ _ _ Hs E) as (Hw & dir & name & Ep & Hd & Hfl & Eop); [intros e He [= He']; lia|].
  destruct (lookup_parent_inv v path dir name Ep Hd) as (pre & Hls & Hne & Hl & Hlk). destruct (v_fs v) as [s mem] eqn:Ev. cbn [fst snd] in Hs, Hf.
  destruct (dir_flags A s mem dir Hs Hfl) as [l Hg]. destruct (last_slash_ok _ _ _ Hls) as [Epath _].
  assert (short name) as Hsh by (unfold short; rewrite Epath, length_app in Hl; simpl in Hl; lia).
  destruct (shows_get Hs dir _ Hg) as (n & Hn & Hnf & _).
  assert (i_mkdir (s, mem) dir = Ok (Some (fun name => '(r, s, mem) ← tmpfs_mkdir_impl s mem dir name; mret (r, (s, mem))))) as Ei.
  { simpl. rewrite (node_ok _ _ _ Hn). simpl. by rewrite Hnf. }
  rewrite Ei, res_bind_ok in Eop. destruct (mkdir_ok A s mem dir name Hs Hf Hsh) as (s' & mem' & Em & Hs' & _); [right; unfold a_get in Hg; by destruct (a_nodes A !! dir)|].
  rewrite Em in Eop. simpl in Eop. injection Eop as Er <-. unfold a_mkdir in *. rewrite Hg in *.
  destruct (Z.eqb_spec (a_find l name) 0) as [Hz|]; simpl in *; [|done]. unfold a_child in *. destruct (kmalloc mem) as [p m] eqn:Ek.
  destruct (Z.eqb_spec p 0) as [->|Hp]; simpl in *; [done|]. destruct (fresh_head A mem p m Hf Ek Hp) as (Hfr & _).
  exists pre, name, dir, l, p, (s', mem'). by split_and!.
Qed.

(** The directory [parent_of pre] of a path, still found after names were added, then the
    last name of the path. *)
Lemma lookup_last k A' (v : tvfs) f pre name dir l : table_ok k (v_mounts v) -> (forall m, m ∈ v_mounts v -> m_point m <> pre ++ SLASH :: name) ->
  SLASH ∉ name -> name <> [] -> (length (pre ++ SLASH :: name) < 128)%nat -> v_root v <> 0 -> dir <> 0 ->
  vfs_lookup v (parent_of pre) = Ok dir -> extends (v_fs v) f -> shows A' f.1 -> a_get A' dir = Some (ADir l) ->
  match a_get A' (a_find l name) with Some (ALink _) => False | _ => True end ->
  vfs_lookup (set_fs f v) (pre ++ SLASH :: name) = Ok (a_find l name).
Proof.
  intros Ht Hm Hn Hne Hl Hr Hd Hlk Hex Hs Hg Hk. rewrite (lookup_split k (set_fs f v)) by done.
  apply (lookup_extends 10 v f) in Hlk; [|done|done]. unfold vfs_lookup at 1. rewrite Hlk, res_bind_ok. cbn [walk_list].
  rewrite (proj2 (Z.eqb_neq dir 0)) by done. destruct f as [s mem]. cbn [v_fs set_fs]. rewrite (tmpfs_step A'), Hg, res_bind_ok by (done || (unfold a_get in Hg; destruct (a_nodes A' !! dir); done)).
  destruct (Z.eqb_spec (a_find l name) 0) as [->|Hf]; [done|]. pose proof (find_get (sh_tree _ _ Hs) dir l name Hg) as Hfg.
  destruct (a_get A' (a_find l name)) as [kc|] eqn:Hkc; [|tauto]. rewrite (tmpfs_target A' s mem _ kc Hs Hkc), res_bind_ok. by destruct kc.
Qed.

(** Removing an empty directory by path. *)
Lemma rmdir_done A (v : tvfs) path pre name dir l d : shows A (v_fs v).1 -> vfs_require_writable_path v path = 0 -> last_slash path = Some (pre, name) -> name <> [] ->
  (length path < 128)%nat -> vfs_lookup v (parent_of pre) = Ok dir -> a_get A dir = Some (ADir l) -> a_find l name = d -> a_get A d = Some (ADir []) ->
  exists f, vfs_rmdir v path = Ok (0, set_fs f v) /\ shows (a_remove A dir l name) f.1.
Proof.
  intros Hs Hw Hls Hne Hl Hlk Hg Hf Hd. unfold vfs_rmdir, with_parent. rewrite Hw, (lookup_parent_eq v path pre name Hls Hne Hl), Hlk, !res_bind_ok. simpl (0 <? 0). cbn iota.
  rewrite (proj2 (Z.eqb_neq dir 0)) by (by apply (live_nonnull A dir _ (sh_tree _ _ Hs) Hg)). destruct (v_fs v) as [s mem]. cbn [fst snd] in *.
  rewrite (tmpfs_flags A s mem dir _ Hs Hg), res_bind_ok. cbn [kind_flags]. rewrite Z.eqb_refl. cbn [negb].
  destruct (shows_get Hs dir _ Hg) as (n & Hn & Hnf & _). simpl. rewrite (node_ok _ _ _ Hn). simpl. rewrite Hnf. simpl.
  destruct (rmdir_ok A s dir name Hs) as (s' & -> & Hs'); [right; unfold a_get in Hg; by destruct (a_nodes A !! dir)|].
  unfold a_rmdir in *. rewrite Hg, Hf, Hd in *. simpl in *. eexists. split; [done | done].
Qed.

(** The nodes show a tree, and the roots of the mounts are roots of the tree: no
    directory holds them. *)
Record vfs_inv (A : atree) (v : tvfs) : Prop := VfsInv {
  vi_shows : shows A (v_fs v).1;
  vi_fresh : fresh A (v_fs v).2;
  vi_root : a_parent A (v_root v) = Some 0;
  vi_mounts : forall m, m ∈ v_mounts v -> a_parent A (m_root m) = Some 0
}.

Lemma root_live A p : a_parent A p = Some 0 -> is_Some (a_nodes A !! p).
Proof. unfold a_parent. destruct (a_nodes A !! p); [eauto | done]. Qed.

Lemma inv_roots A v : vfs_inv A v -> roots_ok A v.
Proof. intros [_ _ Hr Hm]. split; [by apply root_live|]. intros m Hin. by apply root_live, Hm. Qed.

(** A new state of the file system in which the roots are still roots. *)
Lemma inv_step A A' v s mem : vfs_inv A v -> shows A' s -> fresh A' mem -> (forall p, a_parent A p = Some 0 -> a_parent A' p = Some 0) ->
  vfs_inv A' (set_fs (s, mem) v).
Proof. intros [_ _ Hr Hm] Hs Hf Hk. constructor; simpl; auto. Qed.

Lemma attach_roots A dir name p l k q : a_get A dir = Some (ADir l) -> a_nodes A !! p = None -> a_parent A q = Some 0 ->
  a_parent (a_attach (a_new A p k) dir name p) q = Some 0.
Proof.
  intros Hd Hp Hq. assert (p <> dir) by (intros ->; apply a_get_none in Hp; congruence).
  assert (p <> q) by (intros ->; unfold a_parent in Hq; by rewrite Hp in Hq).
  rewrite (parent_attach _ _ _ _ l) by (by rewrite get_new, decide_False). rewrite decide_False, parent_new, decide_False by done. done.
Qed.

Lemma remove_roots A dir l name q : tree_ok A -> a_get A dir = Some (ADir l) -> a_find l name <> 0 -> a_parent A q = Some 0 ->
  a_parent (a_remove A dir l name) q = Some 0.
Proof.
  intros HA Hd Hf Hq. rewrite parent_remove, decide_False; [done|]. intros <-. pose proof (find_live HA dir l name Hd Hf). pose proof (live_nonnull _ _ _ HA Hd). congruence.
Qed.

Lemma remove_fresh A dir l name mem : a_get A dir = Some (ADir l) -> fresh A mem -> fresh (a_remove A dir l name) mem.
Proof.
  intros Hd [Hnd Hf]. split; [done|]. intros p Hp H0. apply a_get_none. rewrite (get_remove _ _ l) by done. case_decide; [done|].
  rewrite decide_False; [apply a_get_none; by apply Hf|]. intros <-. specialize (Hf dir Hp H0). apply a_get_none in Hf. congruence.
Qed.

(** ** The frame of the operations *)

Lemma lookup_parent_total A v path : vfs_inv A v -> exists dir name, vfs_lookup_parent v path 128 = Ok (dir, name) /\ arg A dir /\ (dir <> 0 -> short name).
Proof.
  intros Hi. unfold vfs_lookup_parent. assert (arg A 0) as H0 by by left.
  destruct (Z.leb_spec 128 (Z.of_nat (length path))); [by exists 0, []|]. destruct (last_slash path) as [[pre base]|] eqn:E; [|by exists 0, []].
  destruct (128 <? _); [by exists 0, []|]. destruct (length base =? 0)%nat; [by exists 0, []|]. destruct (Z.ltb_spec 128 (Z.of_nat (length base) + 1)); [by exists 0, []|].
  destruct (lookup_node_live A v (take (if (length pre =? 0)%nat then 1%nat else length pre) path) (vi_shows _ _ Hi) (inv_roots _ _ Hi)) as (c & -> & Hc).
  { destruct (last_slash_ok _ _ _ E) as [-> _]. by destruct pre. }
  rewrite res_bind_ok. exists c, base. split; [done|]. split; [done|]. intros _. unfold short. lia.
Qed.

Lemma with_parent_ok {T} A v path (fail : Z -> T) op (P : T -> Prop) : vfs_inv A v -> (forall e, P (fail e)) ->
  (forall dir name l, a_get A dir = Some (ADir l) -> short name -> exists r, op dir name = Ok r /\ P r) ->
  exists r, with_parent v path fail op = Ok r /\ P r.
Proof.
  intros Hi Hfail Hop. unfold with_parent. destruct (_ <? 0); [by eexists|].
  destruct (lookup_parent_total A v path Hi) as (dir & name & -> & Ha & Hn). rewrite res_bind_ok.
  destruct (Z.eqb_spec dir 0) as [|Hd]; [by eexists|]. destruct Ha as [|[x Hx]]; [done|]. destruct (v_fs v) as [s mem] eqn:Ev.
  pose proof (vi_shows _ _ Hi) as Hs. rewrite Ev in Hs. rewrite (tmpfs_flags A s mem dir _ Hs (a_get_some _ _ _ Hx)), res_bind_ok.
  destruct (a_kind x) as [b|l|t] eqn:Hk; simpl; [by eexists| |by eexists]. apply (Hop dir name l); [by rewrite (a_get_some _ _ _ Hx), Hk | auto].
Qed.

(** The operations of a directory are there. *)
Lemma dir_ops A s mem dir l : shows A s -> a_get A dir = Some (ADir l) ->
  i_mkdir (s, mem) dir = Ok (Some (fun name => '(r, s, mem) ← tmpfs_mkdir_impl s mem dir name; mret (r, (s, mem)))) /\
  i_create (s, mem) dir = Ok (Some (fun name flags => '(r, out, s, mem) ← tmpfs_create_impl s mem dir name flags; mret (r, out, (s, mem)))) /\
  i_unlink (s, mem) dir = Ok (Some (fun name => '(r, s) ← tmpfs_unlink_impl s dir name; mret (r, (s, mem)))) /\
  i_rmdir (s, mem) dir = Ok (Some (fun name => '(r, s) ← tmpfs_rmdir_impl s dir name; mret (r, (s, mem)))).
Proof.
  intros Hs Hd. destruct (shows_get Hs dir _ Hd) as (n & Hn & Hf & _). simpl. rewrite (node_ok _ _ _ Hn). simpl. by rewrite Hf.
Qed.

Lemma get_arg A dir l : a_get A dir = Some (ADir l) -> arg A dir.
Proof. intros H. right. unfold a_get in H. by destruct (a_nodes A !! dir). Qed.

(** ** Each operation *)

Definition kept (v' : tvfs) : Prop := exists A', vfs_inv A' v'.

Lemma mkdir_inv A v path : vfs_inv A v -> exists r, vfs_mkdir v path = Ok r /\ kept r.2.
Proof.
  intros Hi. apply (with_parent_ok A); [done | intros e; by exists A|]. intros dir name l Hd Hn.
  destruct (v_fs v) as [s mem] eqn:Ev. pose proof (vi_shows _ _ Hi) as Hs. pose proof (vi_fresh _ _ Hi) as Hf. rewrite Ev in Hs, Hf.
  destruct (dir_ops A s mem dir l Hs Hd) as (-> & _). rewrite res_bind_ok. destruct (mkdir_ok A s mem dir name Hs Hf Hn (get_arg A dir l Hd)) as (s' & mem' & -> & Hs' & Hf').
  rewrite !res_bind_ok. eexists. split; [done|]. eexists. simpl. apply (inv_step A _ v s' mem' Hi Hs' Hf'). intros q Hq. unfold a_mkdir. rewrite Hd.
  destruct (negb _); [done|]. unfold a_child. destruct (kmalloc mem) as [p m] eqn:Ek. destruct (Z.eqb_spec p 0); [done|]. simpl.
  destruct (fresh_head A mem p m Hf Ek) as (Hp & _); [done|]. by apply (attach_roots A dir name p l).
Qed.

Lemma create_inv A v path flags : vfs_inv A v -> exists r, vfs_create v path flags = Ok r /\ kept r.2.
Proof.
  intros Hi. apply (with_parent_ok A); [done | intros e; by exists A|]. intros dir name l Hd Hn.
  destruct (v_fs v) as [s mem] eqn:Ev. pose proof (vi_shows _ _ Hi) as Hs. pose proof (vi_fresh _ _ Hi) as Hf. rewrite Ev in Hs, Hf.
  destruct (dir_ops A s mem dir l Hs Hd) as (_ & -> & _). rewrite res_bind_ok.
  destruct (create_entry_ok A s mem dir name flags Hs Hf Hn (get_arg A dir l Hd)) as (s' & mem' & E & Hs' & Hf'). rewrite E. clear E.
  destruct (a_create A mem dir name flags) as [[r out] A'] eqn:Ea. simpl in *. eexists. split; [done|]. exists A'. simpl.
  apply (inv_step A _ v s' mem' Hi Hs' Hf'). intros q Hq. unfold a_create in Ea. rewrite Hd in Ea.
  destruct (negb _); [by injection Ea as _ _ <-|]. destruct (_ =? 0); [by injection Ea as _ _ <-|]. unfold a_child in Ea. destruct (kmalloc mem) as [p m] eqn:Ek.
  destruct (Z.eqb_spec p 0) as [->|Hp]; injection Ea as _ _ <-; [done|]. destruct (fresh_head A mem p m Hf Ek Hp) as (Hfr & _). by apply (attach_roots A dir name p l).
Qed.

Lemma unlink_inv A v path : vfs_inv A v -> exists r, vfs_unlink v path = Ok r /\ kept r.2.
Proof.
  intros Hi. apply (with_parent_ok A); [done | intros e; by exists A|]. intros dir name l Hd Hn.
  destruct (v_fs v) as [s mem] eqn:Ev. pose proof (vi_shows _ _ Hi) as Hs. pose proof (vi_fresh _ _ Hi) as Hf. rewrite Ev in Hs, Hf.
  destruct (dir_ops A s mem dir l Hs Hd) as (_ & _ & -> & _). rewrite res_bind_ok. destruct (unlink_ok A s dir name Hs (get_arg A dir l Hd)) as (s' & -> & Hs').
  rewrite !res_bind_ok. eexists. split; [done|]. exists (a_unlink A dir name).2. simpl. pose proof (find_get (sh_tree _ _ Hs) dir l name Hd) as Hfg.
  unfold a_unlink in *. rewrite Hd in *.
  destruct (a_get A (a_find l name)) as [[b|l'|t]|] eqn:Hk; apply (inv_step A _ v s' mem Hi Hs'); simpl; try done; (by apply remove_fresh) || (intros q Hq; apply remove_roots; try done; [apply Hs | by rewrite Hfg]).
Qed.

Lemma rmdir_inv A v path : vfs_inv A v -> exists r, vfs_rmdir v path = Ok r /\ kept r.2.
Proof.
  intros Hi. apply (with_parent_ok A); [done | intros e; by exists A|]. intros dir name l Hd Hn.
  destruct (v_fs v) as [s mem] eqn:Ev. pose proof (vi_shows _ _ Hi) as Hs. pose proof (vi_fresh _ _ Hi) as Hf. rewrite Ev in Hs, Hf.
  destruct (dir_ops A s mem dir l Hs Hd) as (_ & _ & _ & ->). rewrite res_bind_ok. destruct (rmdir_ok A s dir name Hs (get_arg A dir l Hd)) as (s' & -> & Hs').
  rewrite !res_bind_ok. eexists. split; [done|]. exists (a_rmdir A dir name).2. simpl. pose proof (find_get (sh_tree _ _ Hs) dir l name Hd) as Hfg.
  unfold a_rmdir in *. rewrite Hd in *.
  destruct (a_get A (a_find l name)) as [[b|[|e l']|t]|] eqn:Hk; apply (inv_step A _ v s' mem Hi Hs'); simpl; try done; (by apply remove_fresh) || (intros q Hq; apply remove_roots; try done; [apply Hs | by rewrite Hfg]).
Qed.

Lemma lookup_flags A v path : vfs_inv A v -> path <> [] -> exists c, vfs_lookup v path = Ok c /\ (c <> 0 -> exists k, a_get A c = Some k /\ nd_flags (v_fs v) c = Ok (kind_flags k)).
Proof.
  intros Hi Hp. destruct (lookup_node_live A v path (vi_shows _ _ Hi) (inv_roots _ _ Hi) Hp) as (c & -> & Hc). exists c. split; [done|]. intros H0. destruct Hc as [|[x Hx]]; [done|].
  exists (a_kind x). split; [by apply a_get_some|]. destruct (v_fs v) as [s mem] eqn:Ev. pose proof (vi_shows _ _ Hi) as Hs. rewrite Ev in Hs. by apply (tmpfs_flags A), a_get_some.
Qed.

Lemma mkdirp_loop_inv fuel : forall A v pre p, vfs_inv A v -> pre <> [] -> (length p < fuel)%nat -> exists r, mkdirp_loop fuel v pre p = Ok r /\ kept r.2.
Proof.
  induction fuel as [|fuel IH]; intros A v pre p Hi Hpre Hl; [lia|]. cbn [mkdirp_loop]. destruct p as [|c p]; [eexists; split; [done|]; by exists A|].
  destruct (span_part (c :: p)) as [seg r] eqn:Es. destruct (span_part_split _ _ _ Es) as (Ep & _).
  assert (length (match r with [] => [] | _ :: q => q end) < fuel)%nat as Hlen.
  { assert (length (c :: p) = (length seg + length r)%nat) as E by (rewrite Ep; apply length_app). destruct r as [|d r]; [|simpl in *; lia]. simpl in *.
    destruct fuel; [|lia]. exfalso. destruct p; simpl in *; lia. }
  assert (pre ++ seg <> [] /\ (pre ++ seg) ++ [SLASH] <> []) as [Hp1 Hp2] by (by destruct pre).
  destruct (lookup_flags A v (pre ++ seg) Hi Hp1) as (d & -> & Hd). rewrite res_bind_ok. destruct (Z.eqb_spec d 0) as [->|H0].
  - destruct (mkdir_inv A v (pre ++ seg) Hi) as ([rc v'] & -> & A' & Hi'). rewrite res_bind_ok. destruct (_ && _); [eexists; split; [done|]; by exists A' | by apply (IH A')].
  - destruct (Hd H0) as (k & _ & ->). rewrite res_bind_ok. destruct (_ =? 0); [eexists; split; [done|]; by exists A | by apply (IH A)].
Qed.

Lemma mkdirp_inv A v path : vfs_inv A v -> exists r, vfs_mkdirp v path = Ok r /\ kept r.2.
Proof.
  intros Hi. assert (kept v) as Hk by by exists A. unfold vfs_mkdirp. destruct path as [|c p]; [by eexists|]. destruct (negb _); [by eexists|]. destruct (128 <=? _); [by eexists|].
  destruct (lookup_flags A v (c :: p) Hi) as (d & -> & Hd); [done|]. rewrite res_bind_ok. destruct (Z.eqb_spec d 0) as [->|H0]; cbn [negb].
  - apply (mkdirp_loop_inv _ A); [done | done | lia].
  - destruct (Hd H0) as (k & _ & ->). rewrite res_bind_ok. by eexists.
Qed.

(** Files in memory cannot be renamed, truncated or linked: these calls only answer. *)
Lemma rename_inv A v old_path new_path : vfs_inv A v -> exists r, vfs_rename v old_path new_path = Ok (r, v).
Proof.
  intros Hi. unfold vfs_rename. destruct (_ <? 0); [by eexists|]. destruct (_ <? 0); [by eexists|].
  destruct (lookup_parent_total A v old_path Hi) as (d1 & n1 & -> & Ha & _). destruct (lookup_parent_total A v new_path Hi) as (d2 & n2 & -> & _). rewrite !res_bind_ok.
  destruct (Z.eqb_spec d1 0) as [|H1]; [by eexists|]. destruct (d2 =? 0); [by eexists|]. destruct Ha as [|[x Hx]]; [done|].
  destruct (shows_some (vi_shows _ _ Hi) d1 x Hx) as (n & Hn & _). simpl. rewrite (node_ok _ _ _ Hn). by eexists.
Qed.

Lemma truncate_inv A v path len : vfs_inv A v -> path <> [] -> exists r, vfs_truncate v path len = Ok (r, v).
Proof.
  intros Hi Hp. unfold vfs_truncate. destruct (_ <? 0); [by eexists|]. destruct (lookup_flags A v path Hi Hp) as (c & -> & Hc). rewrite res_bind_ok.
  destruct (Z.eqb_spec c 0) as [|H0]; [by eexists|]. destruct (Hc H0) as (k & Hk & ->). rewrite res_bind_ok. destruct (negb _); [by eexists|].
  destruct (shows_get (vi_shows _ _ Hi) c k Hk) as (n & Hn & _). unfold truncate_node. simpl. rewrite (node_ok _ _ _ Hn). by eexists.
Qed.

Lemma link_inv A v old_path new_path : vfs_inv A v -> old_path <> [] -> exists r, vfs_link v old_path new_path = Ok (r, v).
Proof.
  intros Hi Hp. unfold vfs_link. destruct (_ <? 0); [by eexists|]. destruct (lookup_flags A v old_path Hi Hp) as (c & -> & Hc). rewrite res_bind_ok.
  destruct (Z.eqb_spec c 0) as [|H0]; [by eexists|]. destruct (Hc H0) as (k & Hk & ->). rewrite res_bind_ok. destruct (negb _); [by eexists|].
  destruct (lookup_parent_total A v new_path Hi) as (d & nm & -> & Ha & _). rewrite res_bind_ok. destruct (Z.eqb_spec d 0) as [|H1]; [by eexists|].
  destruct Ha as [|[x Hx]]; [done|]. destruct (v_fs v) as [s mem] eqn:Ev. pose proof (vi_shows _ _ Hi) as Hs. rewrite Ev in Hs. cbn [fst] in Hs.
  rewrite (tmpfs_flags A s mem d _ Hs (a_get_some _ _ _ Hx)), res_bind_ok. destruct (negb _); [by eexists|].
  destruct (shows_some Hs d x Hx) as (n & Hn & _). simpl. rewrite (node_ok _ _ _ Hn). by eexists.
Qed.

(** ** Sequences *)

Inductive pop : Type :=
| PLookup (path : cstr)
| PCreate (path : cstr) (flags : Z)
| PMkdir (path : cstr)
| PMkdirp (path : cstr)
| PUnlink (path : cstr)
| PRmdir (path : cstr)
| PRename (old_path new_path : cstr)
| PTruncate (path : cstr) (len : Z)
| PLink (old_path new_path : cstr).

Definition pexec (v : tvfs) (o : pop) : res (Z * tvfs) :=
  match o with
  | PLookup path => c ← vfs_lookup v path; mret (c, v)
  | PCreate path flags => '(r, _, v) ← vfs_create v path flags; mret (r, v)
  | PMkdir path => vfs_mkdir v path
  | PMkdirp path => vfs_mkdirp v path
  | PUnlink path => vfs_unlink v path
  | PRmdir path => vfs_rmdir v path
  | PRename old_path new_path => vfs_rename v old_path new_path
  | PTruncate path len => vfs_truncate v path len
  | PLink old_path new_path => vfs_link v old_path new_path
  end.

(** The paths that are looked up as they are given are not empty. *)
Definition named (o : pop) : Prop :=
  match o with PLookup path | PTruncate path _ | PLink path _ => path <> [] | _ => True end.

(** Each operation comes with the answers [kmalloc] gives during it. *)
Definition with_answers (mem : list Z) (v : tvfs) : tvfs := set_fs ((v_fs v).1, mem) v.

Fixpoint pruns (v : tvfs) (l : list (list Z * pop)) : res (list Z * tvfs) :=
  match l with
  | [] => mret ([], v)
  | (mem, o) :: l => '(r, v) ← pexec (with_answers mem v) o; '(rs, v) ← pruns v l; mret (r :: rs, v)
  end.

(** [kmalloc] answers with addresses that no node has when it is asked. *)
Definition fresh_nodes (v : tvfs) (mem : list Z) : Prop :=
  NoDup (filter (fun p => p <> 0) mem) /\ forall p, p ∈ mem -> p <> 0 -> t_nodes (v_fs v).1 !! p = None.

Fixpoint answers_fresh (v : tvfs) (l : list (list Z * pop)) : Prop :=
  match l with
  | [] => True
  | (mem, o) :: l => fresh_nodes v mem /\ forall r v', pexec (with_answers mem v) o = Ok (r, v') -> answers_fresh v' l
  end.

Lemma inv_answers A v mem : vfs_inv A v -> fresh_nodes v mem -> vfs_inv A (with_answers mem v).
Proof.
  intros [Hs _ Hr Hm] [Hnd Hf]. constructor; simpl; try done. split; [done|]. intros p Hp H0. specialize (Hf p Hp H0).
  destruct (a_nodes A !! p) as [x|] eqn:E; [|done]. destruct (shows_some Hs p x E) as (n & Hn & _). congruence.
Qed.

Lemma pexec_inv A v o : vfs_inv A v -> named o -> exists r, pexec v o = Ok r /\ kept r.2.
Proof.
  intros Hi Hn. destruct o; simpl in *.
  - destruct (lookup_node_live A v path (vi_shows _ _ Hi) (inv_roots _ _ Hi) Hn) as (c & -> & _). eexists. split; [done|]. by exists A.
  - destruct (create_inv A v path flags Hi) as ([[r out] v'] & -> & Hk). by eexists.
  - by apply (mkdir_inv A).
  - by apply (mkdirp_inv A).
  - by apply (unlink_inv A).
  - by apply (rmdir_inv A).
  - destruct (rename_inv A v old_path new_path Hi) as [r ->]. eexists. split; [done|]. by exists A.
  - destruct (truncate_inv A v path len Hi Hn) as [r ->]. eexists. split; [done|]. by exists A.
  - destruct (link_inv A v old_path new_path Hi Hn) as [r ->]. eexists. split; [done|]. by exists A.
Qed.

Lemma pruns_inv l : forall A v, vfs_inv A v -> Forall named l.*2 -> answers_fresh v l -> exists rs v', pruns v l = Ok (rs, v') /\ kept v'.
Proof.
  induction l as [|[mem o] l IH]; intros A v Hi Hn Hf; simpl; [eexists _, _; split; [done|]; by exists A|]. destruct Hf as [Hm Hf].
  apply Forall_cons in Hn as [Hno Hn].
  destruct (pexec_inv A (with_answers mem v) o (inv_answers A v mem Hi Hm) Hno) as ([r v1] & E & A1 & Hi1). rewrite E, res_bind_ok.
  destruct (IH A1 v1 Hi1 Hn (Hf r v1 E)) as (rs & v' & -> & Hk). rewrite res_bind_ok. by eexists _, _.
Qed.
