(* ===== verification/FsTheorems.v ===== *)
(** What the file system in memory and the paths over it guarantee: a tree that every
    sequence of operations keeps, bytes that come back as written, one mount for every
    path, lookups that always end. *)

From S2P Require Import Prelude Tmpfs TmpfsSpec TmpfsInv TmpfsRep TmpfsOps TmpfsSim Vfs VfsSpec VfsTmpfs.

(** ** A small file system *)

Definition demo_empty : tmpfs := Tmpfs ∅ 1 0.
Definition demo_none : atree := ATree ∅ 1.

Lemma empty_shows : shows demo_none demo_empty.
Proof.
  constructor; simpl; [|intros p; rewrite !lookup_empty; split; intros []; done|done..].
  constructor; [done | intros d l nm c H; done | intros c d H; done | intros d l H; done | intros d l H; done | exists (fun _ => O); intros c d H; done].
Qed.

(** The root 100 with the directory 101, the file 102 and, in the directory, a link
    to itself. *)
Definition demo_tree0 : atree := a_new demo_none 100 (ADir []).
Definition demo_root : tmpfs := (tmpfs_create_root demo_empty [100]).1.2.
Definition demo_mkdir : top := TMkdir 100 [100].
Definition demo_create : top := TCreate 100 [102] 64.
Definition demo_link : top := TSymlink 100 [47; 100; 47; 108] [47; 100; 47; 108].
Definition demo_tree : atree :=
  (aexec true (aexec true (aexec true demo_tree0 [101] demo_mkdir).2 [102] demo_create).2 [103] demo_link).2.
Definition demo_fs : tmpfs :=
  match truns demo_root [([101], demo_mkdir); ([102], demo_create); ([103], demo_link)] with Ok (_, s) => s | _ => demo_empty end.

Lemma root_shows : shows demo_tree0 demo_root.
Proof. by apply (alloc_shows demo_none demo_empty 100 [] (ADir []) FS_DIRECTORY empty_shows). Qed.

Lemma demo_fresh A p : a_nodes A !! p = None -> fresh A [p].
Proof.
  intros Hp. split; [|intros q Hq _; apply list_elem_of_singleton in Hq; by subst].
  rewrite filter_cons. case_decide; [apply NoDup_singleton | constructor].
Qed.

Lemma demo_fs_shows : shows demo_tree demo_fs.
Proof.
  assert (exists s1, texec demo_root [101] demo_mkdir = Ok (RInt 0, s1) /\ shows (aexec true demo_tree0 [101] demo_mkdir).2 s1) as (s1 & E1 & H1).
  { destruct (texec_ok demo_tree0 demo_root [101] demo_mkdir root_shows) as (room & s & E & H & _); [by apply demo_fresh | split; [right; by eexists | unfold short; simpl; lia]|]. exists s. by rewrite E. }
  set (A1 := (aexec true demo_tree0 [101] demo_mkdir).2) in *.
  assert (exists s2, texec s1 [102] demo_create = Ok (RNode 0 102, s2) /\ shows (aexec true A1 [102] demo_create).2 s2) as (s2 & E2 & H2).
  { destruct (texec_ok A1 s1 [102] demo_create H1) as (room & s & E & H & _); [by apply demo_fresh | split; [right; by eexists | unfold short; simpl; lia]|]. exists s. by rewrite E. }
  set (A2 := (aexec true A1 [102] demo_create).2) in *.
  assert (exists s3, texec s2 [103] demo_link = Ok (RInt 0, s3) /\ shows (aexec true A2 [103] demo_link).2 s3) as (s3 & E3 & H3).
  { destruct (texec_ok A2 s2 [103] demo_link H2) as (room & s & E & H & _); [by apply demo_fresh | right; by eexists|]. exists s. by rewrite E. }
  assert (truns demo_root [([101], demo_mkdir); ([102], demo_create); ([103], demo_link)] = Ok ([RInt 0; RNode 0 102; RInt 0], s3)) as E.
  { cbn [truns]. by rewrite E1, res_bind_ok, E2, res_bind_ok, E3. }
  unfold demo_fs. rewrite E. done.
Qed.

(** ** The tree *)

(** C17: Every sequence of operations on the file system in memory runs without touching a
    freed or missing node, and answers and changes the nodes exactly as the abstract tree of
    files, links and directories does: reads, writes, lookups, listings, making and removing
    entries, files, directories and links by path, on every branch. *)
Theorem tmpfs_follows_tree (A : atree) (s : tmpfs) (l : list (list Z * top)) : shows A s -> tpres A l ->
  exists rooms s', length rooms = length l /\ truns s l = Ok ((aruns rooms A l).1, s') /\ shows (aruns rooms A l).2 s'.
Proof. apply truns_ok. Qed.

Lemma demo_tpres : tpres demo_tree [([104; 105], TCreateFile 100 [47; 100; 47; 120] [1; 2; 3]); ([], TUnlink 100 [102]); ([], TRmdir 100 [100])].
Proof.
  split; [|split; [split; [right; by eexists | simpl; lia]|]].
  - split; [|intros p Hp _; repeat (apply elem_of_cons in Hp as [->|Hp]; [done|]); by apply not_elem_of_nil in Hp].
    vm_compute. repeat (constructor; [rewrite ?elem_of_cons, ?elem_of_nil; intuition congruence|]). constructor.
  - intros room. split; [split; [constructor | intros p Hp; by apply not_elem_of_nil in Hp]|]. split; [right; destruct room; by eexists|].
    intros room'. split; [split; [constructor | intros p Hp; by apply not_elem_of_nil in Hp]|]. split; [right; destruct room, room'; by eexists | done].
Qed.

Lemma tmpfs_follows_tree_witness : exists rooms s', length rooms = 3%nat /\
  truns demo_fs [([104; 105], TCreateFile 100 [47; 100; 47; 120] [1; 2; 3]); ([], TUnlink 100 [102]); ([], TRmdir 100 [100])] =
    Ok ((aruns rooms demo_tree [([104; 105], TCreateFile 100 [47; 100; 47; 120] [1; 2; 3]); ([], TUnlink 100 [102]); ([], TRmdir 100 [100])]).1, s').
Proof.
  destruct (tmpfs_follows_tree demo_tree demo_fs _ demo_fs_shows demo_tpres) as (rooms & s' & H1 & H2 & _). exists rooms, s'. split; [exact H1 | exact H2].
Defined.

(** C19: After every sequence of operations the links between the nodes are well typed: a
    parent is a live directory, the next sibling of a node has the same parent, the first
    child of a directory has it as its parent, only files have a buffer, it has the
    recorded size and holds the recorded length; and the quota counts the buffers exactly. *)
Theorem tmpfs_links_typed (A : atree) (s : tmpfs) (l : list (list Z * top)) : shows A s -> tpres A l ->
  exists rs s', truns s l = Ok (rs, s') /\ well_typed s'.
Proof. intros Hs Hp. destruct (truns_ok l A s Hs Hp) as (rooms & s' & _ & E & Hs'). eexists _, s'. split; [done | by apply (shows_typed _ s' Hs')]. Qed.

Lemma tmpfs_links_typed_witness : exists rs s',
  truns demo_fs [([104; 105], TCreateFile 100 [47; 100; 47; 120] [1; 2; 3]); ([], TUnlink 100 [102]); ([], TRmdir 100 [100])] = Ok (rs, s') /\ well_typed s'.
Proof. exact (tmpfs_links_typed demo_tree demo_fs _ demo_fs_shows demo_tpres). Defined.

(** ** Bytes *)

Lemma read_file A s nd b off n : shows A s -> a_get A nd = Some (AFile b) -> 0 <= off -> 0 <= n -> off + n < 4294967296 ->
  tmpfs_read_impl s nd off n = Ok (take (Z.to_nat n) (drop (Z.to_nat off) b)).
Proof.
  intros Hs Hg H0 H1 H2. rewrite (read_ok A) by (done || (right; unfold a_get in Hg; by destruct (a_nodes A !! nd))). unfold a_read. by rewrite Hg.
Qed.

(** C22: Bytes written to a file are read back from the same place, a gap before them reads
    as zeros, the rest of the file and all other files read as before.  The write succeeds
    whenever there is memory and quota for twice its end. *)
Theorem write_then_read (A : atree) (s : tmpfs) (mem : list Z) (nd off : Z) (buf b : list Z) :
  shows A s -> a_get A nd = Some (AFile b) -> 0 <= off -> spare s mem (off + Z.of_nat (length buf)) ->
  exists s' mem', tmpfs_write_impl s mem nd off buf = Ok (Z.of_nat (length buf), s', mem') /\
    tmpfs_read_impl s' nd off (Z.of_nat (length buf)) = Ok buf /\
    (forall i, Z.of_nat (length b) <= i < off -> tmpfs_read_impl s' nd i 1 = Ok [0]) /\
    (forall i, 0 <= i < Z.of_nat (length b) -> i < off \/ off + Z.of_nat (length buf) <= i -> tmpfs_read_impl s' nd i 1 = tmpfs_read_impl s nd i 1) /\
    (forall nd' i n, nd' <> nd -> arg A nd' -> 0 <= i -> 0 <= n -> i + n < 4294967296 -> tmpfs_read_impl s' nd' i n = tmpfs_read_impl s nd' i n).
Proof.
  intros Hs Hg H0 Hsp. destruct (write_ok A s mem nd off buf Hs) as (room & s' & mem' & E & Hs' & Hroom); [right; unfold a_get in Hg; by destruct (a_nodes A !! nd) | done|].
  rewrite (Hroom Hsp) in *. unfold a_write in *. rewrite Hg in *. destruct Hsp as (_ & Hmax & _). unfold TMPFS_MAX_CAP in Hmax.
  rewrite (proj2 (Z.leb_le _ 4294967295)) in * by lia. simpl in *. exists s', mem'. split; [done|].
  assert (a_get (a_put A nd (AFile (splice b off buf))) nd = Some (AFile (splice b off buf))) as Hg' by (by rewrite get_put, decide_True, Hg).
  assert (Z.of_nat (length b) <= 536870912) as Hb.
  { destruct (shows_get Hs nd _ Hg) as (n & Hn & _ & Hf). pose proof (shows_cap_used Hs _ _ Hn). pose proof (shows_used Hs) as Hu. unfold TMPFS_GLOBAL_QUOTA in Hu.
    destruct Hf as [_ Hf]. destruct (n_data n); [destruct Hf as (_ & _ & Hf & _); lia|]. destruct Hf as [-> _]. simpl. lia. }
  assert (forall i, 0 <= i < 2147483648 -> i < Z.max (Z.of_nat (length b)) (off + Z.of_nat (length buf)) -> tmpfs_read_impl s' nd i 1 = Ok [default 0 (splice b off buf !! Z.to_nat i)]) as Hone.
  { intros i Hi Hi'. rewrite (read_file _ s' nd _ i 1 Hs' Hg') by lia. destruct (lookup_lt_is_Some_2 (splice b off buf) (Z.to_nat i)) as [x Hx]; [pose proof (splice_length b off buf H0); lia|].
    rewrite (drop_S _ x) by done. by rewrite Hx. }
  split; [|split; [|split]].
  - rewrite (read_file _ s' nd _ off _ Hs' Hg') by lia. rewrite Nat2Z.id. by rewrite splice_read.
  - intros i Hi. rewrite Hone by lia. rewrite splice_at by lia. zdecide. simpl. by rewrite lookup_ge_None_2 by lia.
  - intros i Hi Ho. rewrite Hone, splice_at by lia. rewrite (read_file A s nd b) by (done || lia).
    destruct (lookup_lt_is_Some_2 b (Z.to_nat i)) as [x Hx]; [lia|]. rewrite (drop_S b x) by done. rewrite Hx.
    destruct Ho as [Ho|Ho]; [rewrite (proj2 (Z.leb_gt off i)) by lia | rewrite (proj2 (Z.ltb_ge i _)), andb_false_r by lia]; done.
  - intros nd' i n Hne Ha Hi Hn Hin. rewrite (read_ok A s nd' i n Hs Ha), (read_ok _ s' nd' i n Hs') by (done || (destruct Ha as [->|[x Hx]]; [by left | right; simpl; rewrite lookup_alter_ne by done; eauto])).
    unfold a_read. by rewrite get_put, decide_False.
Qed.

Lemma write_then_read_witness : exists s' mem', tmpfs_write_impl demo_fs [500] 102 3 [7; 8] = Ok (2, s', mem') /\ tmpfs_read_impl s' 102 3 2 = Ok [7; 8].
Proof.
  destruct (write_then_read demo_tree demo_fs [500] 102 3 [7; 8] [] demo_fs_shows) as (s' & mem' & H1 & H2 & _); [vm_compute; reflexivity | lia | split; [vm_compute; reflexivity | split; vm_compute; discriminate]|].
  exists s', mem'. split; [exact H1 | exact H2].
Defined.

(** ** Mounts *)

(** C21: Every path belongs to one mount, the one with the longest mount point that is the
    path or a directory above it, and all parts of the kernel agree on it: lookups start at
    its root with the rest of the path, the flags that are checked are its flags, the root
    kept in open files is its root, and a reference by path is counted on it.  A path no
    mount covers starts at the root of the file system, without flags. *)
Theorem one_mount_for_a_path {F : Type} (k : Z) (v : vfs F) (path : cstr) : table_ok k (v_mounts v) -> path <> [] ->
  (exists m j, mount_of (v_mounts v) path m /\ v_mounts v !! j = Some m /\
     scan_base (v_mounts v) path 0 (v_root v) = (m_root m, length (m_point m)) /\
     from_byte path (length (m_point m)) = Ok (drop (length (m_point m)) path) /\
     vfs_mount_flags v path = m_flags m /\ vfs_find_mount_root v path = m_root m /\
     vfs_mount_ref_by_path v path = set_mounts (alter (fun m => set_ref (s32 (m_ref m + 1)) m) j (v_mounts v)) v /\
     vfs_mount_unref_by_path v path = set_mounts (alter unref j (v_mounts v)) v) \/
  ((forall m, m ∈ v_mounts v -> ~ covers (m_point m) path) /\
     scan_base (v_mounts v) path 0 (v_root v) = (v_root v, 0%nat) /\
     vfs_mount_flags v path = 0 /\ vfs_find_mount_root v path = 0 /\ vfs_mount_ref_by_path v path = v /\ vfs_mount_unref_by_path v path = v).
Proof.
  intros Ht Hp. pose proof (tb_normal _ _ Ht) as Hn.
  assert (forall m, m ∈ v_mounts v -> normal (m_point m) /\ m_root m <> 0) as Hnr by (intros m Hm; split; [by apply Hn | by apply (tb_root _ _ Ht)]).
  pose proof (best_mount_ok (v_mounts v) path None (tb_points _ _ Ht) Hn) as Hb.
  pose proof (scan_index_best (v_mounts v) path (v_mounts v) 0 None None) as Hi.
  pose proof (scan_base_within (v_mounts v) path Hp 0 (v_root v) ltac:(lia)) as Hw. revert Hw.
  rewrite (scan_base_best (v_mounts v) path None (v_root v) Hnr). intros Hw. unfold vfs_mount_flags, vfs_find_mount_root, vfs_mount_ref_by_path, vfs_mount_unref_by_path.
  rewrite (scan_flags_best (v_mounts v) path None Hn), (scan_mount_root_best (v_mounts v) path None Hnr), bool_decide_eq_false_2 by done.
  destruct (best_mount (v_mounts v) path None) as [m|].
  - left. destruct Hi as (j & Hj & Hlk); [by rewrite drop_0 | apply Ht | done | done | done | done|]. cbn beta iota in Hj. rewrite Hj.
    destruct Hb as ([Hin|] & Hc & Hmax); [done| |done]. exists m, j. split_and!; try done.
    2:{ unfold from_byte. simpl in Hw. by rewrite (proj2 (Nat.ltb_ge _ _)). }
    split; [done|]. split; [done|]. intros m' Hm'. apply Hmax. by left.
  - right. cbn beta iota in Hi. rewrite Hi by (done || by rewrite drop_0 || apply Ht). destruct Hb as [_ Hb]; [done|]. by split_and!.
Qed.

Definition demo_mount (mp : cstr) (root flags : Z) : vmount := VMount mp [] [] flags 0 None 0 root.
(** A second file system in memory with the root 105, mounted read-only on the path [/m]. *)
Definition demo_two : tmpfs := (tmpfs_create_root demo_fs [105]).1.2.
Definition demo_tree_two : atree := a_new demo_tree 105 (ADir []).
Definition demo_vfs : tvfs := Vfs (demo_two, [110]) 100 0 [demo_mount [47] 100 0; demo_mount [47; 109] 105 1] [].

Lemma two_shows : shows demo_tree_two demo_two.
Proof. apply (alloc_shows demo_tree demo_fs 105 [] (ADir []) FS_DIRECTORY demo_fs_shows); [done | vm_compute; reflexivity | done | done]. Qed.

Lemma demo_table : table_ok 0 (v_mounts demo_vfs).
Proof.
  assert (forall (P : vmount -> Prop), P (demo_mount [47] 100 0) -> P (demo_mount [47; 109] 105 1) -> forall m, m ∈ v_mounts demo_vfs -> P m) as Hall.
  { intros P H1 H2 m Hm. simpl in Hm. repeat (apply elem_of_cons in Hm as [->|Hm]; [done|]). by apply not_elem_of_nil in Hm. }
  constructor; [simpl; lia | | apply Hall | apply Hall; done | apply Hall; simpl; lia].
  - simpl. constructor; [|constructor; [apply not_elem_of_nil | constructor]]. rewrite elem_of_cons. intros [[=]|H]. by apply not_elem_of_nil in H.
  - split; [simpl; lia|]. split; [by exists [] | by left].
  - split; [simpl; lia|]. split; [by exists [109] | right; discriminate].
Qed.

Lemma one_mount_for_a_path_witness : vfs_mount_flags demo_vfs [47; 109; 47; 108] = 1 /\
  ((exists m j, mount_of (v_mounts demo_vfs) [47; 109; 47; 108] m /\ v_mounts demo_vfs !! j = Some m /\ m_flags m = 1) \/ vfs_mount_flags demo_vfs [47; 109; 47; 108] = 0).
Proof.
  split; [vm_compute; reflexivity|].
  destruct (one_mount_for_a_path 0 demo_vfs [47; 109; 47; 108] demo_table) as [(m & j & H1 & H2 & _ & _ & H3 & _)|(_ & _ & H & _)]; [discriminate | left; exists m, j | right].
  - split; [exact H1|]. split; [exact H2|]. rewrite <- H3. vm_compute; reflexivity.
  - exact H.
Defined.

(** Every sequence of fewer than 2^31 mounts, remounts, unmounts and references keeps
    the mount table well formed: at most 32 entries, no mount point twice, every mount point
    absolute, within its buffer and without a slash at its end, every root present, and no
    count of references negative. *)
Theorem mount_table_kept {F : Type} `{NodeOps F} (v : vfs F) (l : list vop) : kills F -> table_ok 0 (v_mounts v) -> Z.of_nat (length l) < 2147483648 ->
  exists rs v', vruns v l = Ok (rs, v') /\ table_ok (Z.of_nat (length l)) (v_mounts v').
Proof. intros Hk Ht Hl. apply (vruns_ok l 0 v Hk); (done || lia). Qed.

Lemma demo_kills : kills (tmpfs * list Z).
Proof. intros f sb. by exists None. Qed.

Lemma mount_table_kept_witness : exists rs v',
  vruns demo_vfs [VMountAt [47; 100] 102 None None 0 None 0; VRefPath [47; 100; 47; 120]; VUmount [47; 100]; VUnref 102; VUmount [47; 100; 47]; VMountAt [47; 109; 47] 0 None None 32 None 0] = Ok (rs, v') /\
  table_ok 6 (v_mounts v') /\ rs = [0; 0; - EBUSY; 0; 0; 0].
Proof.
  destruct (mount_table_kept demo_vfs [VMountAt [47; 100] 102 None None 0 None 0; VRefPath [47; 100; 47; 120]; VUmount [47; 100]; VUnref 102; VUmount [47; 100; 47]; VMountAt [47; 109; 47] 0 None None 32 None 0] demo_kills demo_table) as (rs & v' & H1 & H2); [reflexivity|].
  exists rs, v'. split; [exact H1|]. split; [exact H2|].
  assert (match vruns demo_vfs [VMountAt [47; 100] 102 None None 0 None 0; VRefPath [47; 100; 47; 120]; VUmount [47; 100]; VUnref 102; VUmount [47; 100; 47]; VMountAt [47; 109; 47] 0 None None 32 None 0] with Ok (r, _) => bool_decide (r = [0; 0; - EBUSY; 0; 0; 0]) | _ => false end = true) as E by (vm_compute; reflexivity).
  rewrite H1 in E. by apply bool_decide_eq_true in E.
Defined.

(** C23: A mount, of whatever file system, on a mount point below which nothing is
    mounted stays while references to it are held, however many, and each one that is
    dropped takes back exactly one; when none is left, unmounting it gives back the mount
    table as it was, tears its superblock down and releases its block device once. *)
Theorem mount_stays_while_used {F : Type} `{NodeOps F} (k : Z) (v v1 : vfs F) (mountpoint mp : cstr) (root : Z) (fstype source : option cstr) (flags : Z) (bdev : option nat) (sb : Z) (n : nat) :
  0 <= k -> k + Z.of_nat n < 2147483648 -> table_ok k (v_mounts v) -> mp = normalize_mountpoint mountpoint 128 -> mp <> [SLASH] -> mp ∉ m_point <$> v_mounts v ->
  (forall m, m ∈ v_mounts v -> ~ covers mp (m_point m)) -> vfs_mount_full v mountpoint root fstype source flags bdev sb = (0, v1) ->
  let held i := Nat.iter i (fun v => vfs_mount_ref_by_path v mp) v1 in
  (forall i, (0 < i <= n)%nat -> vfs_umount (held i) mountpoint = Ok (- EBUSY, held i)) /\
  (forall i, (i < n)%nat -> vfs_mount_unref_by_path (held (S i)) mp = held i) /\
  vfs_umount v1 mountpoint =
    (f ← killed (v_fs v) sb; mret (0, Vfs f (v_root v) (v_initrd v) (v_mounts v) (blockdev_release (v_devs v) bdev))).
Proof.
  intros H0 Hk Ht Emp Hns Hnot Hbelow Hm held. apply (table_weaken k (k + Z.of_nat n)) in Ht; [|lia].
  destruct (mount_last (k + Z.of_nat n) v v1 mountpoint root fstype source flags bdev sb ltac:(lia) Ht ltac:(by rewrite <- Emp) Hm) as (m & -> & Hp & Hr & Hb & Hsb & Htr).
  assert (set_ref 0 m = m) as Em by (destruct m; simpl in *; by subst). rewrite <- Emp in Hp.
  assert (forall i, (i <= n)%nat -> held i = set_mounts (v_mounts v ++ [set_ref (Z.of_nat i) m]) v) as Hheld.
  { induction i as [|i IH]; intros Hi; [unfold held; change (Z.of_nat 0) with 0; by rewrite Em|]. change (held (S i)) with (vfs_mount_ref_by_path (held i) mp). rewrite IH by lia.
    destruct (ref_last (k + Z.of_nat n) (set_mounts (v_mounts v ++ [set_ref (Z.of_nat i) m]) v) (v_mounts v) (set_ref (Z.of_nat i) m)) as [E _]; [apply Htr; lia | done|].
    change (m_point (set_ref (Z.of_nat i) m)) with (m_point m) in E. rewrite Hp in E. rewrite E. cbn [m_ref set_ref]. rewrite s32_small by lia. unfold set_mounts. simpl. do 3 f_equal.
    replace (Z.of_nat i + 1) with (Z.of_nat (S i)) by lia. done. }
  split; [|split].
  - intros i Hi. rewrite Hheld by lia. rewrite (umount_last _ (v_mounts v) (set_ref (Z.of_nat i) m) mountpoint) by (try done; simpl; by rewrite ?Hp). cbn [m_ref set_ref].
    by rewrite (proj2 (Z.ltb_lt 0 _)) by lia.
  - intros i Hi. rewrite !Hheld by lia.
    destruct (ref_last (k + Z.of_nat n) (set_mounts (v_mounts v ++ [set_ref (Z.of_nat (S i)) m]) v) (v_mounts v) (set_ref (Z.of_nat (S i)) m)) as [_ E]; [apply Htr; lia | done|].
    change (m_point (set_ref (Z.of_nat (S i)) m)) with (m_point m) in E. rewrite Hp in E. rewrite E. unfold unref, set_mounts. cbn [m_ref set_ref v_fs v_root v_initrd v_devs].
    rewrite (proj2 (Z.ltb_lt 0 _)) by lia. replace (Z.of_nat (S i) - 1) with (Z.of_nat i) by lia. done.
  - rewrite (umount_last _ (v_mounts v) m mountpoint) by (try done; simpl; by rewrite ?Hp). by rewrite Hr, Hb, Hsb.
Qed.

Lemma mount_stays_while_used_witness : exists v1, vfs_mount_full demo_vfs [47; 100; 47] 102 None None 0 None 9 = (0, v1) /\
  let held i := Nat.iter i (fun v => vfs_mount_ref_by_path v [47; 100]) v1 in
  vfs_umount (held 3%nat) [47; 100; 47] = Ok (- EBUSY, held 3%nat) /\ vfs_mount_unref_by_path (held 3%nat) [47; 100] = held 2%nat.
Proof.
  exists (vfs_mount_full demo_vfs [47; 100; 47] 102 None None 0 None 9).2. split; [reflexivity|].
  destruct (mount_stays_while_used 0 demo_vfs (vfs_mount_full demo_vfs [47; 100; 47] 102 None None 0 None 9).2 [47; 100; 47] [47; 100] 102 None None 0 None 9 3 ltac:(lia) ltac:(vm_compute; reflexivity) demo_table eq_refl ltac:(discriminate)) as (H1 & H2 & _); [| |reflexivity|].
  - simpl. rewrite !elem_of_cons. intros [[=]|[[=]|H]]. by apply not_elem_of_nil in H.
  - intros m Hm Hc. apply prefix_covers in Hc; [|done]. simpl in Hm. repeat (apply elem_of_cons in Hm as [->|Hm]; [done|]). by apply not_elem_of_nil in Hm.
  - split; [exact (H1 3%nat ltac:(lia)) | exact (H2 2%nat ltac:(lia))].
Defined.

(** ** Lookups *)

(** Looking up any path but the empty one ends, whatever links there are, also links that
    lead to themselves: it gives a live node or none, with or without following links. *)
Theorem lookup_always_ends (A : atree) (v : tvfs) (path : cstr) : shows A (v_fs v).1 -> roots_ok A v -> path <> [] ->
  (exists c, vfs_lookup v path = Ok c /\ arg A c) /\ (exists c, vfs_lookup_nofollow v path = Ok c /\ arg A c).
Proof. intros Hs Hr Hp. split; apply (lookup_depth_total A); (done || lia). Qed.

Lemma scan_base_grows ms path : forall best base, (best <= (scan_base ms path best base).2)%nat.
Proof.
  induction ms as [|m ms IH]; intros best base; cbn [scan_base]; [done|]. destruct (_ || _); [apply IH|].
  destruct (_ && _) eqn:E; [|apply IH]. apply andb_true_iff in E as [_ E%Nat.leb_le]. etrans; [exact E | apply IH].
Qed.

(** The empty path is read behind its end: with a file system on the root directory, the
    rest of the path is taken to start one byte into it. *)
Theorem empty_path_overread {F : Type} `{NodeOps F} (v : vfs F) (m : vmount) : m ∈ v_mounts v -> m_point m = [SLASH] -> m_root m <> 0 -> v_root v <> 0 ->
  vfs_lookup v [] = Ub.
Proof.
  intros Hm Hp Hr H0. unfold vfs_lookup. rewrite lookup_depth_eq, (proj2 (Z.eqb_neq (v_root v) 0)) by done.
  change ((8 <? 0) || (128 <=? Z.of_nat (length ([] : cstr))) || false) with false. cbn iota.
  assert (forall ms best base, m ∈ ms -> (best <= 1)%nat -> (0 < (scan_base ms [] best base).2)%nat) as Hs.
  { intros ms best base Hin. revert best base. induction ms as [|m' ms IH]; intros best base Hb; [by apply not_elem_of_nil in Hin|]. cbn [scan_base].
    assert (forall mp, path_is_mountpoint_prefix mp [] = true -> mp = [SLASH]) as Hpre.
    { intros mp. unfold path_is_mountpoint_prefix. destruct (bool_decide_reflect (mp = [])); [done|]. destruct (bool_decide_reflect (mp = [SLASH])); [done|]. rewrite take_nil, bool_decide_eq_false_2 by done. done. }
    apply elem_of_cons in Hin as [<-|Hin].
    - rewrite Hp. rewrite bool_decide_eq_false_2, (proj2 (Z.eqb_neq _ 0)) by done. cbn [orb length]. change (path_is_mountpoint_prefix [SLASH] []) with true.
      rewrite (proj2 (Nat.leb_le _ _)) by done. cbn [andb]. pose proof (scan_base_grows ms [] 1 (m_root m)). lia.
    - destruct (_ || _); [by apply IH|]. destruct (_ && _) eqn:E; [|by apply IH]. apply andb_true_iff in E as [E _]. apply Hpre in E. rewrite E. by apply IH. }
  specialize (Hs (v_mounts v) 0%nat (v_root v) Hm ltac:(lia)). unfold past_end. by rewrite (proj2 (Nat.ltb_lt _ _)).
Qed.

Lemma demo_roots : roots_ok demo_tree_two demo_vfs.
Proof.
  split; [vm_compute; eauto|]. intros m Hm. simpl in Hm. repeat (apply elem_of_cons in Hm as [->|Hm]; [vm_compute; eauto|]). by apply not_elem_of_nil in Hm.
Qed.

(** The link [/d/l] leads to itself. *)
Lemma lookup_always_ends_witness : vfs_lookup demo_vfs [47; 100; 47; 108] = Ok 0 /\ exists c, vfs_lookup_nofollow demo_vfs [47; 100; 47; 108] = Ok c /\ arg demo_tree_two c.
Proof.
  destruct (lookup_always_ends demo_tree_two demo_vfs [47; 100; 47; 108] two_shows demo_roots ltac:(discriminate)) as [_ H]. split; [vm_compute; reflexivity | exact H].
Defined.

(** C18: No sequence of operations by path makes the kernel touch a node that is not there,
    read outside a path or run for ever, whatever strings the paths are, but for the empty
    path where one is looked up as it is given: lookups, files and directories made and
    removed, directories made along a path, and the calls that files in memory do not
    support.  The nodes stay a tree with the roots of the mounts as its roots. *)
Theorem paths_are_safe (A : atree) (v : tvfs) (l : list (list Z * pop)) : vfs_inv A v -> Forall named l.*2 -> answers_fresh v l ->
  exists rs v' A', pruns v l = Ok (rs, v') /\ vfs_inv A' v' /\ well_typed (v_fs v').1.
Proof.
  intros Hi Hn Hf. destruct (pruns_inv l A v Hi Hn Hf) as (rs & v' & E & A' & Hi'). exists rs, v', A'. split; [done|]. split; [done|]. apply (shows_typed A'), (vi_shows _ _ Hi').
Qed.

Lemma demo_vfs_inv : vfs_inv demo_tree_two demo_vfs.
Proof.
  constructor; [exact two_shows | by apply demo_fresh | vm_compute; reflexivity|].
  intros m Hm. simpl in Hm. repeat (apply elem_of_cons in Hm as [->|Hm]; [vm_compute; reflexivity|]). by apply not_elem_of_nil in Hm.
Qed.

Lemma paths_are_safe_witness : exists rs v' A',
  pruns demo_vfs [([110], PMkdirp [47; 100; 47; 47; 110; 47]); ([], PUnlink [47; 100; 47; 108])] = Ok (rs, v') /\ vfs_inv A' v' /\ well_typed (v_fs v').1.
Proof.
  apply (paths_are_safe demo_tree_two demo_vfs); [exact demo_vfs_inv | repeat constructor|]. split; [split|].
  - rewrite filter_cons_True by done. apply NoDup_singleton.
  - intros p Hp _. apply list_elem_of_singleton in Hp. rewrite Hp. vm_compute. reflexivity.
  - intros r v' _. split; [split; [constructor | intros p Hp; by apply not_elem_of_nil in Hp] | done].
Defined.

(** C20: A directory made by path is then found under that path, where nothing was found
    before; removing it by the same path succeeds and the path leads nowhere again; every
    other path that led to a node leads to the same node throughout. *)
Theorem mkdir_found_until_rmdir (A : atree) (k : Z) (v v1 : tvfs) (path : cstr) :
  shows A (v_fs v).1 -> fresh A (v_fs v).2 -> table_ok k (v_mounts v) -> v_root v <> 0 ->
  (forall m, m ∈ v_mounts v -> m_point m <> path) -> vfs_mkdir v path = Ok (0, v1) ->
  exists d v2, vfs_lookup v path = Ok 0 /\ vfs_lookup v1 path = Ok d /\ d <> 0 /\ nd_flags (v_fs v1) d = Ok FS_DIRECTORY /\
    vfs_rmdir v1 path = Ok (0, v2) /\ vfs_lookup v2 path = Ok 0 /\
    (forall q c, vfs_lookup v q = Ok c -> c <> 0 -> vfs_lookup v1 q = Ok c /\ vfs_lookup v2 q = Ok c).
Proof.
  intros Hs Hf Ht Hr Hm E. destruct (mkdir_made A v v1 path Hs Hf E) as (pre & name & dir & l & p & f & Hls & Hne & Hl & Hw & Hlk & Hg & Hz & Hp & Hfr & -> & Hs1).
  destruct (last_slash_ok _ _ _ Hls) as [Epath Hslash]. rewrite Epath in Hm, Hl |- *. pose proof (live_nonnull _ _ _ (sh_tree _ _ Hs) Hg) as Hd0.
  assert (p <> dir) as Hpd by (intros ->; apply a_get_none in Hfr; congruence). set (A1 := a_attach (a_new A p (ADir [])) dir name p) in *.
  assert (forall q, a_get A1 q = if decide (dir = q) then Some (ADir ((name, p) :: l)) else a_get (a_new A p (ADir [])) q) as Hg1 by (intros q; apply (get_attach _ _ _ _ l); by rewrite get_new, decide_False).
  assert (a_get A1 dir = Some (ADir ((name, p) :: l))) as Hg1d by (by rewrite Hg1, decide_True).
  assert (a_get A1 p = Some (ADir [])) as Hg1p by (by rewrite Hg1, decide_False, get_new, decide_True by done).
  assert (a_find ((name, p) :: l) name = p) as Hfind by (simpl; by rewrite bool_decide_eq_true_2).
  assert (extends (v_fs v) f) as Hx1 by (destruct (v_fs v), f; apply (kept_extends A A1); [done | done | by apply (attach_keeps A dir name p l)]).
  assert (vfs_lookup (set_fs f v) (parent_of pre) = Ok dir) as Hlk1 by (by apply lookup_extends).
  destruct (rmdir_done A1 (set_fs f v) (pre ++ SLASH :: name) pre name dir ((name, p) :: l) p Hs1) as (f2 & Hrm & Hs2); [by rewrite <- Epath | by rewrite <- Epath | done..|].
  assert (a_nodes (a_remove A1 dir ((name, p) :: l) name) = a_nodes A) as Hsame.
  { apply attach_remove; [done | done | by apply (find_zero (sh_tree _ _ Hs) dir) | by apply (ok_names _ (sh_tree _ _ Hs) dir)]. }
  assert (forall q, a_get (a_remove A1 dir ((name, p) :: l) name) q = a_get A q) as Hget2 by (intros q; unfold a_get; by rewrite Hsame).
  assert (extends (v_fs v) f2) as Hx2.
  { destruct (v_fs v), f2. apply (kept_extends A _ _ _ _ _ Hs Hs2). intros q kq Hq. exists kq. rewrite Hget2. split; [done|]. split; [done|]. by destruct kq. }
  assert (extends (v_fs v) (v_fs v)) as Hx0 by (intros q part c Hq Hc; done).
  exists p, (set_fs f2 (set_fs f v)). split_and!; [| | done | destruct f as [s1 mem1]; exact (tmpfs_flags A1 s1 mem1 p _ Hs1 Hg1p) | done | |].
  - rewrite <- Hz. replace v with (set_fs (v_fs v) v) at 1 by (by destruct v). apply (lookup_last k A v (v_fs v) pre name dir l); try done. by rewrite Hz, (ok_null _ (sh_tree _ _ Hs)).
  - rewrite <- Hfind. apply (lookup_last k A1 v f pre name dir ((name, p) :: l)); try done. by rewrite Hfind, Hg1p.
  - rewrite <- Hz. apply (lookup_last k (a_remove A1 dir ((name, p) :: l) name) v f2 pre name dir l); try done; [by rewrite Hget2|]. by rewrite Hz, Hget2, (ok_null _ (sh_tree _ _ Hs)).
  - intros q c Hq Hc. split; [by apply (lookup_extends 10 v f) | by apply (lookup_extends 10 v f2)].
Qed.

Lemma mkdir_found_until_rmdir_witness : exists d v1 v2, vfs_mkdir demo_vfs [47; 100; 47; 110] = Ok (0, v1) /\
  vfs_lookup v1 [47; 100; 47; 110] = Ok d /\ vfs_rmdir v1 [47; 100; 47; 110] = Ok (0, v2) /\ vfs_lookup v2 [47; 100; 47; 110] = Ok 0.
Proof.
  assert (match vfs_mkdir demo_vfs [47; 100; 47; 110] with Ok (r, _) => r =? 0 | _ => false end = true) as Eb by (vm_compute; reflexivity).
  destruct (vfs_mkdir demo_vfs [47; 100; 47; 110]) as [[r v1]| |] eqn:E; [|discriminate Eb|discriminate Eb]. apply Z.eqb_eq in Eb. rewrite Eb in *.
  destruct (mkdir_found_until_rmdir demo_tree_two 0 demo_vfs v1 [47; 100; 47; 110] two_shows) as (d & v2 & _ & H1 & _ & _ & H2 & H3 & _);
    [apply demo_fresh; vm_compute; reflexivity | exact demo_table | discriminate | | exact E |].
  - intros m Hm. simpl in Hm. repeat (apply elem_of_cons in Hm as [->|Hm]; [discriminate|]). exfalso; exact (not_elem_of_nil _ Hm).
  - exists d, v1, v2. split; [reflexivity|]. split; [exact H1|]. split; [exact H2 | exact H3].
Defined.

(** ** What the code does not do *)

(** A size so large that the end of the range wraps is not cut to the end of the file: the
    copy leaves the buffer. *)
Lemma read_size_wraps A s nd b off size : shows A s -> a_get A nd = Some (AFile b) -> b <> [] -> 0 <= off <= Z.of_nat (length b) ->
  0 <= size < 4294967296 -> 4294967296 <= off + size <= 4294967296 + Z.of_nat (length b) -> tmpfs_read_impl s nd off size = Ub.
Proof.
  intros Hs Hg Hne H0 H1 H2. unfold tmpfs_read_impl. rewrite (proj2 (Z.eqb_neq nd 0)) by (by apply (live_nonnull A nd _ (sh_tree _ _ Hs) Hg)).
  destruct (shows_get Hs nd _ Hg) as (n & Hn & Hf & Hlen & Hk). pose proof (shows_cap_used Hs _ _ Hn) as Hc. pose proof (shows_used Hs) as Hu. unfold TMPFS_GLOBAL_QUOTA in Hu.
  rewrite (node_ok _ _ _ Hn), res_bind_ok, Hf. cbn [kind_flags]. rewrite Z.eqb_refl. cbn [negb]. destruct (n_data n) as [a|]; [|by destruct Hk].
  destruct Hk as (Ha & _ & Hb & _). rewrite Hlen, u32_wrap by lia. zdecide. cbn [of_option]. rewrite res_bind_ok. apply get_bytes_ub; lia.
Qed.

(** The root directory with a link [/w] to the read-only mount [/m]. *)
Definition demo_linked : tvfs :=
  match texec demo_two [104] (TSymlink 100 [47; 119] [47; 109]) with Ok (_, s) => set_fs (s, [110]) demo_vfs | _ => demo_vfs end.

(** The flags of a mount are looked up by the text of a path: through a link a directory
    is made in a mount that is read-only. *)
Example readonly_mount_written_through_link :
  vfs_require_writable_path demo_linked [47; 109; 47; 110] = - EROFS /\
  match vfs_mkdir demo_linked [47; 119; 47; 110] with
  | Ok (r, v) => (r =? 0) && match vfs_lookup v [47; 109; 47; 110] with Ok c => c =? 110 | _ => false end
  | _ => false
  end = true.
Proof. split; vm_compute; reflexivity. Qed.

(** Without following links, a path through a link ends at the link. *)
Example nofollow_ends_at_first_link : vfs_lookup_nofollow demo_vfs [47; 100; 47; 108; 47; 120] = Ok 103.
Proof. vm_compute. reflexivity. Qed.

(** Tearing the file system down frees the children of the root only. *)
Example kill_sb_keeps_grandchildren :
  match tmpfs_kill_sb demo_fs 100 with Ok s => bool_decide (dom (t_nodes s) = {[103]}) | _ => false end = true.
Proof. vm_compute. reflexivity. Qed.

(** Files in memory cannot be truncated. *)
Example truncate_not_supported : match vfs_truncate demo_vfs [47; 102] 0 with Ok (r, _) => r =? - ENOSYS | _ => false end = true.
Proof. vm_compute. reflexivity. Qed.
