(* ===== verification/Initrd.v ===== *)
(** The initial RAM disk (src/drivers/initrd.c): the tar archive the loader puts in memory,
    compressed or not, and the read-only file system made of it.

    Memory is a buffer of bytes with a first address, as for the decompressor.  A C string
    is the list of its bytes before the terminating zero.  The answers of [kmalloc] are an
    argument, in the order of the calls: for each size that may be asked for the size of
    the block that is returned, 0 for the null pointer.  A pointer to [nodes[i]] is
    [i + 1], 0 is the null pointer. *)

From S2P Require Import Prelude Kstack Lz4 Tmpfs Vfs.

Definition TAR_BLOCK : Z := 512.
Definition INITRD_DECOMP_BASE : Z := 3498049536.    (* 0xD0800000 *)
Definition LZ4B_MAGIC_U32 : Z := 1110727244.        (* 0x42345A4C *)
Definition LZ4B_HDR_SIZE : Z := 12.
Definition SIZEOF_ENTRY : Z := 152.
Definition SIZEOF_NODE : Z := 288.

(** [initrd_entry_t] *)
Record entry : Type := Entry {
  e_name : cstr;
  e_flags : Z;
  e_data_offset : Z;
  e_length : Z;
  e_parent : Z;
  e_first_child : Z;
  e_next_sibling : Z
}.

Definition set_child (c : Z) (e : entry) : entry :=
  Entry (e_name e) (e_flags e) (e_data_offset e) (e_length e) (e_parent e) c (e_next_sibling e).
Definition set_file (off len : Z) (e : entry) : entry :=
  Entry (e_name e) FS_FILE off len (e_parent e) (e_first_child e) (e_next_sibling e).

(** The tables of operations of a node. *)
Inductive optable : Type := OpsNone | OpsFile | OpsDir.

(** [fs_node_t] with the fields that this file system sets. *)
Record fnode : Type := FNode { fn_name : cstr; fn_inode : Z; fn_length : Z; fn_flags : Z; fn_ops : optable }.

(** [initrd_location_base], the first [entry_count] cells of [entries] and [nodes],
    [entry_cap], and the number of cells the two allocations really have room for. *)
Record initrd : Type := Initrd { i_base : Z; i_entries : list entry; i_nodes : list fnode; i_cap : Z; i_room : Z }.

Definition initrd_start : initrd := Initrd 0 [] [] 0 0.

Definition set_entries (l : list entry) (s : initrd) : initrd := Initrd (i_base s) l (i_nodes s) (i_cap s) (i_room s).
Definition entry_count (s : initrd) : Z := Z.of_nat (length (i_entries s)).
Definition ent (s : initrd) (i : Z) : res entry := if i <? 0 then Ub else of_option (i_entries s !! Z.to_nat i).
Definition upd_ent (s : initrd) (i : Z) (f : entry -> entry) : res initrd :=
  e ← ent s i; mret (set_entries (<[Z.to_nat i := f e]> (i_entries s)) s).

(** ** Pages for the decompressed archive *)

(** What [initrd_alloc_pages] calls besides the services of the kernel stacks. *)
Class PageOps (W : Type) : Type := {
  page_mem :: MemOps W;
  vmm_virt_to_phys : W -> Z -> res Z;
  pmm_free_blocks : W -> Z -> Z -> res W
}.

Section pages.
Context {W : Type} `{PageOps W}.

(** [for (j = 0; j < i; j++)] of the rollback *)
Fixpoint give_back (n : nat) (w : W) (j : Z) : res W :=
  match n with
  | O => mret w
  | S n =>
      let page_va := u32 (INITRD_DECOMP_BASE + u32 (j * 4096)) in
      p ← vmm_virt_to_phys w page_va;
      w ← vmm_unmap_page w page_va;
      w ← (if negb (p =? 0) then pmm_free_blocks w p 1 else mret w);
      give_back n w (j + 1)
  end.

(** [for (i = 0; i < npages; i++)] *)
Fixpoint take_pages (n : nat) (w : W) (va i : Z) : res (Z * W) :=
  match n with
  | O => mret (INITRD_DECOMP_BASE, w)
  | S n =>
      '(phys, w) ← pmm_alloc_page w;
      if phys =? 0 then w ← give_back (Z.to_nat i) w 0; mret (0, w)
      else
        w ← memset w phys 0 4096;
        w ← vmm_map_page w phys va 3;
        take_pages n w (u32 (va + 4096)) (i + 1)
  end.

Definition npages (size : Z) : Z := u32 (size + 4096 - 1) / 4096.

Definition initrd_alloc_pages (w : W) (size : Z) : res (Z * W) :=
  take_pages (Z.to_nat (npages size)) w INITRD_DECOMP_BASE 0.
End pages.

(** ** The table of entries *)

Definition answers : Type := list (Z -> Z).

(** The next answer of [kmalloc]. *)
Definition kmalloc_block (size : Z) (mem : answers) : Z * answers :=
  match mem with [] => (0, []) | f :: mem => (f size, mem) end.

(** The first part of [entry_alloc]: room for one more entry; [false] without memory. *)
Definition entry_grow (s : initrd) (mem : answers) : res (bool * initrd * answers) :=
  if negb (entry_count s =? i_cap s) then mret (true, s, mem)
  else if 2147483647 <? i_cap s * 2 then Ub
  else
    let new_cap := if i_cap s =? 0 then 32 else i_cap s * 2 in
    let '(new_entries, mem) := kmalloc_block (u32 (SIZEOF_ENTRY * new_cap)) mem in
    let '(new_nodes, mem) := kmalloc_block (u32 (SIZEOF_NODE * new_cap)) mem in
    if (new_entries =? 0) || (new_nodes =? 0) then mret (false, s, mem)
    else
      let room := Z.min (new_entries / SIZEOF_ENTRY) (new_nodes / SIZEOF_NODE) in
      if room <? entry_count s then Ub
      else mret (true, Initrd (i_base s) (i_entries s) (i_nodes s) new_cap room, mem).

Definition entry_alloc (s : initrd) (mem : answers) : res (Z * initrd * answers) :=
  '(ok, s, mem) ← entry_grow s mem;
  if negb ok then mret (- ENOMEM, s, mem)
  else
    let idx := entry_count s in
    if i_room s <=? idx then Ub
    else mret (idx, Initrd (i_base s) (i_entries s ++ [Entry [] 0 0 0 (-1) (-1) (-1)]) (i_nodes s ++ [FNode [] 0 0 0 OpsNone]) (i_cap s) (i_room s), mem).

(** One more step than there are entries: enough for every walk along siblings. *)
Definition chain_fuel (s : initrd) : nat := S (length (i_entries s)).

(** [while (c != -1)] *)
Fixpoint find_child (fuel : nat) (s : initrd) (c : Z) (name : cstr) : res Z :=
  match fuel with
  | O => NoFuel
  | S fuel =>
      if c =? -1 then mret (-1)
      else
        e ← ent s c;
        if bool_decide (e_name e = name) then mret c else find_child fuel s (e_next_sibling e) name
  end.

Definition entry_find_child (s : initrd) (parent : Z) (name : cstr) : res Z :=
  p ← ent s parent; find_child (chain_fuel s) s (e_first_child p) name.

(** [strcpy] into [char name[128]] *)
Definition copy_name (name : cstr) : res cstr :=
  if 128 <=? Z.of_nat (length name) then Ub else mret name.

Definition entry_add_child (s : initrd) (mem : answers) (parent : Z) (name : cstr) (flags : Z) : res (Z * initrd * answers) :=
  '(idx, s, mem) ← entry_alloc s mem;
  if idx <? 0 then mret (idx, s, mem)
  else
    name ← copy_name name;
    p ← ent s parent;
    s ← upd_ent s idx (fun e => Entry name flags (e_data_offset e) (e_length e) parent (e_first_child e) (e_first_child p));
    s ← upd_ent s parent (set_child idx);
    mret (idx, s, mem).

Definition ensure_dir (s : initrd) (mem : answers) (parent : Z) (name : cstr) : res (Z * initrd * answers) :=
  child ← entry_find_child s parent name;
  if negb (child =? -1) then mret (child, s, mem) else entry_add_child s mem parent name FS_DIRECTORY.

(** [while ( *p != 0)], where [p] does not start with a slash: the directory of the last
    part, or an error, and the last part. *)
Fixpoint path_dirs (fuel : nat) (s : initrd) (mem : answers) (cur : Z) (p : cstr) : res (Z * cstr * initrd * answers) :=
  match fuel with
  | O => NoFuel
  | S fuel =>
      match p with
      | [] => mret (- EINVAL, [], s, mem)
      | _ =>
          let '(part, r) := span_part p in
          let part := strtrunc 128 part in
          let p := skip_slashes r in
          match part with
          | [] => path_dirs fuel s mem cur p
          | _ =>
              match p with
              | [] => mret (cur, strtrunc 128 part, s, mem)
              | _ =>
                  '(cur, s, mem) ← ensure_dir s mem cur part;
                  if cur <? 0 then mret (cur, [], s, mem) else path_dirs fuel s mem cur p
              end
          end
      end
  end.

Definition ensure_path_dirs (s : initrd) (mem : answers) (root_idx : Z) (path : cstr) : res (Z * cstr * initrd * answers) :=
  let p := skip_slashes path in path_dirs (S (length p)) s mem root_idx p.

(** ** Headers of the archive *)

(** The loop of [str_copy_n] over at most [n] characters. *)
Fixpoint copy_chars (n : nat) (b : buf) (src : Z) : res cstr :=
  match n with
  | O => mret []
  | S n => c ← ld b src; if c =? 0 then mret [] else l ← copy_chars n b (u32 (src + 1)); mret (c :: l)
  end.

(** What [str_copy_n] leaves in its destination of [dst_sz > 0] bytes. *)
Definition str_copy_n (dst_sz : Z) (b : buf) (src src_n : Z) : res cstr :=
  copy_chars (Z.to_nat (Z.min (dst_sz - 1) src_n)) b src.

(** Bytes from 128 on are negative characters, skipped as the ones above ['7'] are. *)
Fixpoint octal_loop (n : nat) (b : buf) (s v : Z) : res Z :=
  match n with
  | O => mret v
  | S n =>
      c ← ld b s;
      if c =? 0 then mret v
      else if (c <? 48) || (55 <? c) then octal_loop n b (u32 (s + 1)) v
      else octal_loop n b (u32 (s + 1)) (u32 (u32 (Z.shiftl v 3) + (c - 48)))
  end.

Definition tar_parse_octal (b : buf) (s n : Z) : res Z := octal_loop (Z.to_nat n) b s 0.

Fixpoint zero_loop (n : nat) (b : buf) (p : Z) : res bool :=
  match n with
  | O => mret true
  | S n => c ← ld b p; if negb (c =? 0) then mret false else zero_loop n b (u32 (p + 1))
  end.

Definition tar_is_zero_block (b : buf) (p : Z) : res bool := zero_loop (Z.to_nat TAR_BLOCK) b p.

(** The name of the member whose header is at [p]. *)
Definition tar_name (b : buf) (p : Z) : res cstr :=
  prefix0 ← ld b (u32 (p + 345));
  if negb (prefix0 =? 0) then
    name ← str_copy_n 256 b (u32 (p + 345)) 155;
    let name := if Z.of_nat (length name) + 1 <? 256 then name ++ [SLASH] else name in
    let rem := 256 - Z.of_nat (length name) - 1 in
    tail ← str_copy_n (rem + 1) b p 100;
    mret (name ++ tail)
  else str_copy_n 256 b p 100.

(** [for (i = 0; i < 512; i++)]: the sum of the header from byte [i] on. *)
Fixpoint sum_loop (n : nat) (b : buf) (hp i calc_checksum : Z) : res Z :=
  match n with
  | O => mret calc_checksum
  | S n =>
      if (148 <=? i) && (i <? 156) then sum_loop n b hp (i + 1) (u32 (calc_checksum + 32))
      else c ← ld b (u32 (hp + i)); sum_loop n b hp (i + 1) (u32 (calc_checksum + c))
  end.

(** Without a leading ["./"]. *)
Definition strip_dot (name : cstr) : cstr :=
  match name with
  | c :: d :: r => if (c =? 46) && (d =? SLASH) then r else name
  | _ => name
  end.

(** Without a slash at the end; [true] when there was one. *)
Definition strip_slash (name : cstr) : cstr * bool :=
  match last name with
  | Some c => if c =? SLASH then (removelast name, true) else (name, false)
  | None => (name, false)
  end.

(** The entry of a member: its name, its type, and where its data are. *)
Definition add_member (s : initrd) (mem : answers) (name : cstr) (tf offset size : Z) (files : Z) : res (Z * initrd * answers) :=
  if bool_decide (name = []) then mret (files, s, mem)
  else
    '(parent, leaf, s, mem) ← ensure_path_dirs s mem 0 name;
    if parent <? 0 then mret (files, s, mem)
    else if tf =? 53 then '(_, s, mem) ← ensure_dir s mem parent leaf; mret (files, s, mem)
    else
      existing ← entry_find_child s parent leaf;
      '(idx, s, mem) ← (if existing =? -1 then entry_add_child s mem parent leaf FS_FILE else mret (existing, s, mem));
      if 0 <=? idx then s ← upd_ent s idx (set_file offset size); mret (files + 1, s, mem)
      else mret (files, s, mem).

Definition TAR_MAX_SIZE : Z := 268435456.    (* 256 * 1024 * 1024 *)

(** [while (1)]: the number of files, or [None] for an archive that is refused. *)
Fixpoint tar_loop (fuel : nat) (s : initrd) (mem : answers) (b : buf) (location p end_ files : Z) : res (option Z * initrd * answers) :=
  match fuel with
  | O => NoFuel
  | S fuel =>
      if end_ <? u32 (p + TAR_BLOCK) then mret (Some files, s, mem)
      else
        z ← tar_is_zero_block b p;
        if (z : bool) then mret (Some files, s, mem)
        else
          name ← tar_name b p;
          size ← tar_parse_octal b (u32 (p + 124)) 12;
          tf ← ld b (u32 (p + 156));
          let tf := if tf =? 0 then 48 else tf in
          if TAR_MAX_SIZE <? size then mret (None, s, mem)
          else
            let adv := u32 (TAR_BLOCK + Z.land (u32 (size + (TAR_BLOCK - 1))) (u32 (Z.lnot (TAR_BLOCK - 1)))) in
            if end_ <? u32 (p + adv) then mret (None, s, mem)
            else
              checksum ← tar_parse_octal b (u32 (p + 148)) 8;
              calc_checksum ← sum_loop 512 b p 0 0;
              if negb (checksum =? calc_checksum) then mret (None, s, mem)
              else
                let name := strip_dot name in
                let '(name, slash) := strip_slash name in
                let tf := if (slash : bool) then 53 else tf in
                '(files, s, mem) ← add_member s mem name tf (u32 (u32 (p + TAR_BLOCK) - location)) size files;
                tar_loop fuel s mem b location (u32 (p + adv)) end_ files
  end.

Definition finalize_node (i : nat) (e : entry) : fnode :=
  FNode (e_name e) (Z.of_nat i) (e_length e) (e_flags e)
    (if negb (Z.land (e_flags e) FS_FILE =? 0) then OpsFile else if negb (Z.land (e_flags e) FS_DIRECTORY =? 0) then OpsDir else OpsNone).

Definition initrd_finalize_nodes (s : initrd) : initrd :=
  Initrd (i_base s) (i_entries s) (imap finalize_node (i_entries s)) (i_cap s) (i_room s).

(** [initrd_init] from the line that sets [initrd_location_base]: the archive of [size]
    bytes at [location]; the result is the root node or null. *)
Definition tar_init (s : initrd) (mem : answers) (b : buf) (location size : Z) : res (Z * initrd * answers) :=
  let s := Initrd location [] [] (i_cap s) (i_room s) in
  '(root, s, mem) ← entry_alloc s mem;
  if root <? 0 then mret (0, s, mem)
  else
    s ← upd_ent s root (fun e => Entry [] FS_DIRECTORY 0 0 (-1) (e_first_child e) (e_next_sibling e));
    '(o, s, mem) ← tar_loop (S (Z.to_nat size)) s mem b location location (u32 (location + size)) 0;
    match o with
    | None => mret (0, s, mem)
    | Some _ => mret (root + 1, initrd_finalize_nodes s, mem)
    end.

(** ** The whole of [initrd_init] *)

Section init.
Context {W : Type} `{PageOps W}.

(** Of the [n] pages from page [i] on, those before the first that is not mapped:
    [vmm_map_page] says nothing when it has no frame for a page table. *)
Fixpoint backed (n : nat) (w : W) (i : Z) : res Z :=
  match n with
  | O => mret i
  | S n =>
      p ← vmm_virt_to_phys w (u32 (INITRD_DECOMP_BASE + u32 (i * 4096)));
      if p =? 0 then mret i else backed n w (i + 1)
  end.

(** The memory behind the address that [initrd_alloc_pages] returned: zeroed, as far as it
    is mapped. *)
Definition region (w : W) (addr size : Z) : res buf :=
  n ← backed (Z.to_nat (npages size)) w 0;
  mret (Buf addr (arr_new (n * 4096) 0)).

(** The archive and where it is: decompressed when the image is; [None] when that
    fails. *)
Definition initrd_unpack (w : W) (raw : buf) (location size : Z) : res (option (buf * Z * Z) * W) :=
  if size <? 4 then mret (None, w)
  else
    magic32 ← read_le32 raw location;
    if magic32 =? LZ4_FRAME_MAGIC then
      if size <? 10 then mret (None, w)
      else
        flg ← ld raw (u32 (location + 4));
        orig_sz ← (if negb (Z.land flg 8 =? 0) then read_le32 raw (u32 (location + 6)) else mret 4194304);
        '(decomp_buf, w) ← initrd_alloc_pages w orig_sz;
        if decomp_buf =? 0 then mret (None, w)
        else
          mem ← region w decomp_buf orig_sz;
          '(ret, d) ← lz4_decompress_frame raw mem location size decomp_buf orig_sz;
          if ret <? 0 then mret (None, w) else mret (Some (d, decomp_buf, u32 ret), w)
    else if magic32 =? LZ4B_MAGIC_U32 then
      if size <? 12 then mret (None, w)
      else
        orig_sz ← read_le32 raw (u32 (location + 4));
        comp_sz ← read_le32 raw (u32 (location + 8));
        if size <? u32 (LZ4B_HDR_SIZE + comp_sz) then mret (None, w)
        else
          '(decomp_buf, w) ← initrd_alloc_pages w orig_sz;
          if decomp_buf =? 0 then mret (None, w)
          else
            mem ← region w decomp_buf orig_sz;
            '(ret, d) ← lz4_decompress_block raw mem (u32 (location + LZ4B_HDR_SIZE)) comp_sz decomp_buf orig_sz;
            if (ret <? 0) || negb (u32 ret =? orig_sz) then mret (None, w) else mret (Some (d, decomp_buf, orig_sz), w)
    else mret (Some (raw, location, size), w).

(** The result, the memory that holds the archive, and the new state. *)
Definition initrd_init (w : W) (s : initrd) (mem : answers) (raw : buf) (location size : Z) : res (Z * buf * initrd * answers * W) :=
  '(o, w) ← initrd_unpack w raw location size;
  match o with
  | None => mret (0, raw, s, mem, w)
  | Some (b, location, size) =>
      '(root, s, mem) ← tar_init s mem b location size;
      mret (root, b, s, mem, w)
  end.
End init.

(** ** The operations of the nodes *)

Definition fnode_at (s : initrd) (p : Z) : res fnode := if p <=? 0 then Ub else of_option (i_nodes s !! Z.to_nat (p - 1)).

(** [memcpy] out of the archive *)
Fixpoint copy_out (n : nat) (b : buf) (src : Z) : res (list Z) :=
  match n with
  | O => mret []
  | S n => c ← ld b src; l ← copy_out n b (u32 (src + 1)); mret (c :: l)
  end.

(** The bytes copied to the buffer of the caller. *)
Definition initrd_read_impl (b : buf) (s : initrd) (nd offset size : Z) : res (list Z) :=
  if nd =? 0 then mret []
  else
    n ← fnode_at s nd;
    let idx := fn_inode n in
    if (s32 idx <? 0) || (entry_count s <=? s32 idx) then mret []
    else
      e ← ent s idx;
      if Z.land (e_flags e) FS_FILE =? 0 then mret []
      else if e_length e <? offset then mret []
      else
        let size := if e_length e <? u32 (offset + size) then u32 (e_length e - offset) else size in
        copy_out (Z.to_nat size) b (u32 (u32 (i_base s + e_data_offset e) + offset)).

Definition initrd_finddir (s : initrd) (nd : Z) (name : cstr) : res Z :=
  if nd =? 0 then mret 0
  else
    n ← fnode_at s nd;
    let parent := s32 (fn_inode n) in
    if (parent <? 0) || (entry_count s <=? parent) then mret 0
    else c ← entry_find_child s parent name; mret (if c =? -1 then 0 else c + 1).

(** [while (c != -1 && skip > 0)] *)
Fixpoint skip_entries (fuel : nat) (s : initrd) (c skip : Z) : res Z :=
  match fuel with
  | O => NoFuel
  | S fuel =>
      if (c =? -1) || negb (0 <? skip) then mret c
      else e ← ent s c; skip_entries fuel s (e_next_sibling e) (skip - 1)
  end.

(** The entry with index [idx] of the directory [parent]; [None] past the last one. *)
Definition initrd_dirent (s : initrd) (inode parent idx : Z) : res (option vfs_dirent) :=
  p ← ent s parent;
  if idx =? 0 then mret (Some (Dirent inode DIRENT_SIZE FS_DIRECTORY [46]))
  else if idx =? 1 then
    mret (Some (Dirent (if 0 <=? e_parent p then u32 (e_parent p) else inode) DIRENT_SIZE FS_DIRECTORY [46; 46]))
  else
    c ← skip_entries (chain_fuel s) s (e_first_child p) (idx - 2);
    if c =? -1 then mret None
    else e ← ent s c; mret (Some (Dirent (u32 c) DIRENT_SIZE (u8 (e_flags e)) (strtrunc 24 (e_name e)))).

(** [while (written < cap)]; [idx] is the index of the next entry. *)
Fixpoint initrd_fill (cap : nat) (s : initrd) (inode parent idx : Z) : res (list vfs_dirent * Z) :=
  match cap with
  | O => mret ([], idx)
  | S cap =>
      o ← initrd_dirent s inode parent idx;
      match o with
      | None => mret ([], idx)
      | Some e => '(l, idx) ← initrd_fill cap s inode parent (u32 (idx + 1)); mret (e :: l, idx)
      end
  end.

(** The result, the entries and the new index. *)
Definition initrd_readdir (s : initrd) (nd idx buf_len : Z) : res (Z * list vfs_dirent * Z) :=
  if nd =? 0 then mret (-1, [], idx)
  else
    n ← fnode_at s nd;
    if negb (fn_flags n =? FS_DIRECTORY) then mret (-1, [], idx)
    else if buf_len <? DIRENT_SIZE then mret (-1, [], idx)
    else
      let parent := s32 (fn_inode n) in
      if (parent <? 0) || (entry_count s <=? parent) then mret (-1, [], idx)
      else
        '(l, idx) ← initrd_fill (Z.to_nat (buf_len / DIRENT_SIZE)) s (fn_inode n) parent idx;
        mret (s32 (Z.of_nat (length l) * DIRENT_SIZE), l, idx).

(** The nodes of the initial RAM disk as nodes of the virtual file system. *)
#[global] Instance initrd_ops : NodeOps (buf * initrd) := {
  nd_flags f p := n ← fnode_at f.2 p; mret (fn_flags n);
  nd_target f p := _ ← fnode_at f.2 p; mret [];
  nd_owner f p := _ ← fnode_at f.2 p; mret (0, 0, 0);
  i_lookup f p := n ← fnode_at f.2 p; mret (match fn_ops n with OpsDir => Some (fun name => initrd_finddir f.2 p name) | _ => None end);
  i_create f p := _ ← fnode_at f.2 p; mret None;
  i_mkdir f p := _ ← fnode_at f.2 p; mret None;
  i_unlink f p := _ ← fnode_at f.2 p; mret None;
  i_rmdir f p := _ ← fnode_at f.2 p; mret None;
  i_rename f p := _ ← fnode_at f.2 p; mret None;
  i_truncate f p := _ ← fnode_at f.2 p; mret None;
  i_link f p := _ ← fnode_at f.2 p; mret None;
  f_read f p := n ← fnode_at f.2 p; mret (match fn_ops n with OpsFile => Some (fun off size => initrd_read_impl f.1 f.2 p off size) | _ => None end);
  f_write f p := _ ← fnode_at f.2 p; mret None;
  f_open f p := _ ← fnode_at f.2 p; mret None;
  f_close f p := _ ← fnode_at f.2 p; mret None;
  sb_kill f sb := mret None
}.
