(* ===== verification/InitrdSpec.v ===== *)
(** The initial RAM disk against its specification: the tree of files and directories that
    the members of an archive describe.

    The table of entries is determined by its keys, the parent and the name of each entry:
    siblings are linked from the last to the first, so the links of src/drivers/initrd.c
    are the largest index of a certain kind. *)

From S2P Require Import Prelude Heap Kstack Lz4 Lz4Spec Lz4Frame Lz4Theorems Tmpfs TmpfsSpec TmpfsOps TmpfsSim Vfs VfsTmpfs Initrd.

(** ** Last indices *)

Section last_index.
Context {A : Type}.
Implicit Types (P : A -> bool) (l : list A).

(** The largest index below [n] of an element with [P]; -1 when there is none. *)
Fixpoint last_ix P l (n : nat) : Z :=
  match n with
  | O => -1
  | S n => match l !! n with Some x => if P x then Z.of_nat n else last_ix P l n | None => last_ix P l n end
  end.

Lemma last_ix_range P l n : -1 <= last_ix P l n < Z.of_nat n \/ n = O /\ last_ix P l n = -1.
Proof. induction n as [|n IH]; [by right|]. left. simpl. destruct (l !! n) as [x|]; [destruct (P x)|]; lia. Qed.

Lemma last_ix_app P l l2 n : (n <= length l)%nat -> last_ix P (l ++ l2) n = last_ix P l n.
Proof. induction n as [|n IH]; simpl; [done|]. intros Hn. by rewrite lookup_app_l, IH by lia. Qed.

Lemma last_ix_snoc P l x : last_ix P (l ++ [x]) (S (length l)) = if P x then Z.of_nat (length l) else last_ix P l (length l).
Proof. simpl. rewrite list_lookup_middle by done. destruct (P x); [done|]. by apply last_ix_app. Qed.

Lemma last_ix_some P l n i : last_ix P l n = Z.of_nat i -> (i < n)%nat /\ exists x, l !! i = Some x /\ P x = true.
Proof.
  induction n as [|n IH]; simpl; [lia|]. destruct (l !! n) as [x|] eqn:E; [destruct (P x) eqn:Ep|].
  - intros ->%Nat2Z.inj. eauto with lia.
  - intros [? ?]%IH. split; [lia | done].
  - intros [? ?]%IH. split; [lia | done].
Qed.

Lemma last_ix_none P l n i x : last_ix P l n = -1 -> (i < n)%nat -> l !! i = Some x -> P x = false.
Proof.
  induction n as [|n IH]; simpl; [lia|]. intros E Hi Hx. destruct (decide (i = n)) as [->|].
  - rewrite Hx in E. destruct (P x); [lia | done].
  - apply IH; [|lia|done]. destruct (l !! n) as [y|]; [destruct (P y); [lia|done] | done].
Qed.

Lemma last_ix_ext P Q l n : (forall x, P x = Q x) -> last_ix P l n = last_ix Q l n.
Proof. intros E. induction n as [|n IH]; simpl; [done|]. destruct (l !! n); [rewrite E, IH; done | done]. Qed.
End last_index.

(** ** Keys *)

Notation key := (Z * cstr)%type.

Definition key_of (e : entry) : key := (e_parent e, e_name e).
Definition keys (l : list entry) : list key := key_of <$> l.

Definition last_child (ks : list key) (j : Z) (n : nat) : Z := last_ix (fun k => k.1 =? j) ks n.
Definition seek (ks : list key) (j : Z) (name : cstr) : Z := last_ix (fun k => bool_decide (k = (j, name))) ks (length ks).

Record keys_ok (ks : list key) : Prop := KeysOk {
  ko_root : exists r, ks !! 0%nat = Some r /\ r.1 = -1;
  ko_parent i k : ks !! i = Some k -> (0 < i)%nat -> 0 <= k.1 < Z.of_nat i;
  ko_unique i j k : ks !! i = Some k -> ks !! j = Some k -> i = j
}.

Lemma seek_range ks j name : -1 <= seek ks j name < Z.of_nat (length ks) \/ seek ks j name = -1.
Proof. unfold seek. destruct (last_ix_range (fun k => bool_decide (k = (j, name))) ks (length ks)) as [?|[_ ?]]; auto. Qed.

Lemma seek_some ks j name i : seek ks j name = Z.of_nat i -> ks !! i = Some (j, name).
Proof. intros (_ & k & Hk & ->%bool_decide_eq_true)%last_ix_some. done. Qed.

Lemma seek_none ks j name i : seek ks j name = -1 -> ks !! i <> Some (j, name).
Proof.
  intros E Hi. pose proof (last_ix_none _ _ _ _ _ E (lookup_lt_Some _ _ _ Hi) Hi) as H.
  by apply bool_decide_eq_false in H.
Qed.

Lemma seek_add ks j name j' name' :
  seek (ks ++ [(j, name)]) j' name' = if bool_decide ((j, name) = (j', name')) then Z.of_nat (length ks) else seek ks j' name'.
Proof. unfold seek. by rewrite length_app, Nat.add_1_r, last_ix_snoc. Qed.

Lemma seek_beyond ks j name : keys_ok ks -> Z.of_nat (length ks) <= j -> seek ks j name = -1.
Proof.
  intros Hk Hj. destruct (seek_range ks j name) as [R|]; [|done]. destruct (decide (seek ks j name = -1)); [done|]. exfalso.
  pose proof (seek_some ks j name (Z.to_nat (seek ks j name)) ltac:(lia)) as Hi. destruct (decide (Z.to_nat (seek ks j name) = O)) as [E0|].
  - destruct (ko_root _ Hk) as (r & Hr & Er). rewrite E0, Hr in Hi. injection Hi as ->. simpl in Er. lia.
  - pose proof (ko_parent _ Hk _ _ Hi ltac:(lia)) as Hp. simpl in Hp. lia.
Qed.

Lemma keys_add_ok ks j name : keys_ok ks -> 0 <= j < Z.of_nat (length ks) -> seek ks j name = -1 -> keys_ok (ks ++ [(j, name)]).
Proof.
  intros [(r & Hr & Er) Hp Hu] Hj Hs. split.
  - exists r. split; [by apply lookup_app_l_Some | done].
  - intros i k [Hi|[Hl Hi]]%lookup_app_Some H0; [by apply Hp|].
    apply list_lookup_singleton_Some in Hi as [E <-]. simpl. lia.
  - intros i i' k [Hi|[Hl Hi]]%lookup_app_Some [Hi'|[Hl' Hi']]%lookup_app_Some.
    + by eapply Hu.
    + apply list_lookup_singleton_Some in Hi' as [E <-]. by destruct (seek_none _ _ _ i Hs).
    + apply list_lookup_singleton_Some in Hi as [E <-]. by destruct (seek_none _ _ _ i' Hs).
    + apply list_lookup_singleton_Some in Hi as [E _]. apply list_lookup_singleton_Some in Hi' as [E' _]. lia.
Qed.

(** ** Paths *)

(** The entry at the end of a path from the root; -1 when there is none. *)
Definition resolve (ks : list key) (ps : list cstr) : Z :=
  fold_left (fun j name => if j <? 0 then -1 else seek ks j name) ps 0.

Lemma resolve_snoc ks (ps : list cstr) (name : cstr) : resolve ks (ps ++ [name]) = if resolve ks ps <? 0 then -1 else seek ks (resolve ks ps) name.
Proof. unfold resolve. by rewrite fold_left_app. Qed.

Lemma resolve_range ks ps : keys_ok ks -> -1 <= resolve ks ps < Z.of_nat (length ks).
Proof.
  intros [(r & Hr & _) _ _]. apply lookup_lt_Some in Hr. induction ps as [|name ps IH] using rev_ind; [unfold resolve; simpl; lia|].
  rewrite resolve_snoc. bdestr; [lia|]. destruct (seek_range ks (resolve ks ps) name); lia.
Qed.

Lemma resolve_snoc_some ks (ps : list cstr) (name : cstr) i : keys_ok ks -> resolve ks (ps ++ [name]) = Z.of_nat i ->
  0 <= resolve ks ps /\ ks !! i = Some (resolve ks ps, name).
Proof. intros Hk. rewrite resolve_snoc. bdestr; [lia|]. intros E%seek_some. done. Qed.

Lemma resolve_inj ks ps qs : keys_ok ks -> resolve ks ps = resolve ks qs -> 0 <= resolve ks ps -> ps = qs.
Proof.
  intros Hk. assert (forall ps name, resolve ks (ps ++ [name]) <> 0) as Hroot.
  { intros ps' name E. destruct (resolve_snoc_some ks ps' name 0 Hk E) as [H0 H1]. destruct (ko_root _ Hk) as (r & Hr & Er). rewrite Hr in H1. injection H1 as ->. simpl in Er. lia. }
  revert qs. induction ps as [|a ps IH] using rev_ind; intros qs E H0; destruct qs as [|c qs _] using rev_ind; [done| | |].
  - by destruct (Hroot qs c).
  - by destruct (Hroot ps a).
  - destruct (resolve_snoc_some ks ps a (Z.to_nat (resolve ks (ps ++ [a]))) Hk) as [H1 Ha]; [lia|].
    destruct (resolve_snoc_some ks qs c (Z.to_nat (resolve ks (ps ++ [a]))) Hk) as [H2 Hc]; [lia|].
    rewrite Ha in Hc. injection Hc as Er ->. by rewrite (IH qs).
Qed.

(** A new entry is at the path of its parent and its name, the others stay. *)
Lemma resolve_add ks (ps : list cstr) (name : cstr) qs : keys_ok ks -> 0 <= resolve ks ps -> seek ks (resolve ks ps) name = -1 ->
  resolve (ks ++ [(resolve ks ps, name)]) qs = if bool_decide (qs = ps ++ [name]) then Z.of_nat (length ks) else resolve ks qs.
Proof.
  intros Hk Hp Hs. induction qs as [|c qs IH] using rev_ind.
  { rewrite bool_decide_false; [done|]. by destruct ps. }
  rewrite resolve_snoc, IH. case_bool_decide as Eq.
  - subst qs. bdestr; [lia|]. rewrite seek_add, bool_decide_false, bool_decide_false.
    + rewrite resolve_snoc, resolve_snoc, (proj2 (Z.ltb_ge (resolve ks ps) 0)), Hs by lia. by rewrite seek_beyond.
    + intros E. apply (f_equal length) in E. rewrite !length_app in E. simpl in E. lia.
    + pose proof (resolve_range ks ps Hk). intros [= E _]. lia.
  - rewrite resolve_snoc. bdestr.
    { rewrite bool_decide_false; [done|]. intros [-> ->]%app_inj_tail. lia. }
    rewrite seek_add. case_bool_decide as E; case_bool_decide as E2; [done| | |done].
    + injection E as E ->. destruct E2. by rewrite (resolve_inj ks ps qs).
    + apply app_inj_tail in E2 as [-> ->]. done.
Qed.

(** ** The table of entries *)

(** The table for an archive of [sz] bytes. *)
Record table_ok (sz : Z) (l : list entry) : Prop := TableOk {
  tb_keys : keys_ok (keys l);
  tb_first i e : l !! i = Some e -> e_first_child e = last_child (keys l) (Z.of_nat i) (length l);
  tb_next i e : l !! i = Some e -> e_next_sibling e = last_child (keys l) (e_parent e) i;
  tb_name i e : l !! i = Some e -> (length (e_name e) < 128)%nat;
  tb_kind i e : l !! i = Some e -> e_flags e = FS_DIRECTORY \/ e_flags e = FS_FILE;
  tb_data i e : l !! i = Some e -> 0 <= e_data_offset e /\ 0 <= e_length e /\ e_data_offset e + e_length e <= sz
}.

Lemma keys_length l : length (keys l) = length l.
Proof. apply length_fmap. Qed.

Lemma keys_lookup l i e : l !! i = Some e -> keys l !! i = Some (key_of e).
Proof. intros H. unfold keys. by rewrite list_lookup_fmap, H. Qed.

Lemma keys_update l i e f : l !! i = Some e -> key_of (f e) = key_of e -> keys (<[i := f e]> l) = keys l.
Proof. intros H E. unfold keys. rewrite list_fmap_insert, E. apply list_insert_id. by rewrite list_lookup_fmap, H. Qed.

Lemma last_child_beyond ks j n : keys_ok ks -> Z.of_nat (length ks) <= j -> last_child ks j n = -1.
Proof.
  intros Hk Hj. unfold last_child. destruct (last_ix_range (fun k => k.1 =? j) ks n) as [R|[_ ?]]; [|done].
  set (c := last_ix _ ks n) in *. destruct (decide (c = -1)); [done|]. exfalso.
  destruct (last_ix_some (fun k => k.1 =? j) ks n (Z.to_nat c)) as (_ & k & Hi & Ek%Z.eqb_eq); [unfold c in *; lia|].
  pose proof (lookup_lt_Some _ _ _ Hi). destruct (decide (Z.to_nat c = O)) as [E0|].
  - destruct (ko_root _ Hk) as (r & Hr & Er). rewrite E0, Hr in Hi. injection Hi as ->. lia.
  - pose proof (ko_parent _ Hk _ _ Hi ltac:(lia)). lia.
Qed.

Lemma ent_ok s i e : i_entries s !! i = Some e -> ent s (Z.of_nat i) = Ok e.
Proof. intros H. unfold ent. zdecide. by rewrite Nat2Z.id, H. Qed.

Lemma upd_ent_ok s i e f : i_entries s !! i = Some e -> upd_ent s (Z.of_nat i) f = Ok (set_entries (<[i := f e]> (i_entries s)) s).
Proof. intros H. unfold upd_ent. rewrite (ent_ok _ _ _ H), res_bind_ok, Nat2Z.id. done. Qed.

Lemma find_child_ok sz s j name : table_ok sz (i_entries s) -> forall n fuel, (n < fuel)%nat -> (n <= length (i_entries s))%nat ->
  find_child fuel s (last_child (keys (i_entries s)) j n) name = Ok (last_ix (fun k => bool_decide (k = (j, name))) (keys (i_entries s)) n).
Proof.
  intros Ht. unfold last_child. induction n as [|n IH]; intros [|fuel] Hf Hn; try lia; [done|]. cbn [last_ix].
  destruct (lookup_lt_is_Some_2 (i_entries s) n) as [e He]; [lia|]. rewrite (keys_lookup _ _ _ He). simpl fst.
  destruct (Z.eqb_spec (e_parent e) j) as [<-|Hj].
  - cbn [find_child]. zdecide. rewrite (ent_ok _ _ _ He), res_bind_ok. unfold key_of. case_bool_decide as En; case_bool_decide as Ek; [done | congruence | congruence |].
    rewrite (tb_next _ _ Ht _ _ He). apply IH; lia.
  - rewrite (bool_decide_false (key_of e = _)) by (intros [= ? ?]; done). apply IH; lia.
Qed.

Lemma entry_find_child_ok sz s j name : table_ok sz (i_entries s) -> 0 <= j < entry_count s ->
  entry_find_child s j name = Ok (seek (keys (i_entries s)) j name).
Proof.
  intros Ht Hj. unfold entry_find_child. destruct (lookup_lt_is_Some_2 (i_entries s) (Z.to_nat j)) as [e He]; [unfold entry_count in *; lia|].
  replace j with (Z.of_nat (Z.to_nat j)) by lia. rewrite (ent_ok _ _ _ He), res_bind_ok, (tb_first _ _ Ht _ _ He).
  unfold seek. rewrite keys_length. apply (find_child_ok sz); [done | unfold chain_fuel; lia | lia].
Qed.

(** The table with one more entry. *)
Definition add_entry (l : list entry) (j : nat) (p : entry) (name : cstr) (flags : Z) : list entry :=
  <[j := set_child (Z.of_nat (length l)) p]> l ++ [Entry name flags 0 0 (Z.of_nat j) (-1) (e_first_child p)].

Lemma keys_add l j p name flags : l !! j = Some p -> keys (add_entry l j p name flags) = keys l ++ [(Z.of_nat j, name)].
Proof. intros H. unfold add_entry, keys. rewrite fmap_app. f_equal. apply (keys_update _ _ _ _ H). done. Qed.

Lemma add_entry_length l j p name flags : length (add_entry l j p name flags) = S (length l).
Proof. unfold add_entry. rewrite length_app, length_insert. simpl. lia. Qed.

Lemma add_entry_lookup l j p name flags i e : l !! j = Some p -> add_entry l j p name flags !! i = Some e ->
  (i = length l /\ e = Entry name flags 0 0 (Z.of_nat j) (-1) (e_first_child p)) \/
  (exists e0, l !! i = Some e0 /\ e = if bool_decide (i = j) then set_child (Z.of_nat (length l)) e0 else e0).
Proof.
  intros Hp [H|[Hl H]]%lookup_app_Some.
  - right. case_bool_decide as E.
    + subst i. rewrite list_lookup_insert_eq in H by (by eapply lookup_lt_Some). injection H as <-. eauto.
    + rewrite list_lookup_insert_ne in H by done. eauto.
  - left. rewrite length_insert in *. apply list_lookup_singleton_Some in H as [? <-]. split; [lia | done].
Qed.

Lemma table_add_ok sz l j p name flags : table_ok sz l -> 0 <= sz -> l !! j = Some p -> seek (keys l) (Z.of_nat j) name = -1 ->
  (length name < 128)%nat -> flags = FS_DIRECTORY \/ flags = FS_FILE -> table_ok sz (add_entry l j p name flags).
Proof.
  intros Ht Hsz Hp Hs Hn Hf. pose proof (lookup_lt_Some _ _ _ Hp) as Hj. pose proof (tb_keys _ _ Ht) as Hk.
  split; rewrite ?(keys_add _ _ _ _ _ Hp), ?add_entry_length; try (intros i e [[-> ->]|(e0 & He & ->)]%add_entry_lookup; [| |done]); simpl.
  - apply keys_add_ok; [done | rewrite keys_length; lia | done].
  - rewrite <- (keys_length l) in *. unfold last_child. rewrite last_ix_snoc. simpl. zdecide. symmetry. by apply last_child_beyond.
  - unfold last_child. rewrite <- (keys_length l), last_ix_snoc. simpl. case_bool_decide as E; simpl.
    + subst. by zdecide.
    + zdecide. rewrite keys_length. by apply (tb_first _ _ Ht).
  - unfold last_child. rewrite last_ix_app by (rewrite keys_length; lia). by apply (tb_first _ _ Ht).
  - pose proof (lookup_lt_Some _ _ _ He). unfold last_child. rewrite last_ix_app by (rewrite keys_length; lia).
    case_bool_decide; exact (tb_next _ _ Ht _ _ He).
  - done.
  - case_bool_decide; exact (tb_name _ _ Ht _ _ He).
  - done.
  - case_bool_decide; exact (tb_kind _ _ Ht _ _ He).
  - lia.
  - case_bool_decide; exact (tb_data _ _ Ht _ _ He).
Qed.

(** A file's data set. *)
Lemma table_file_ok sz l i e off len : table_ok sz l -> l !! i = Some e -> 0 <= off -> 0 <= len -> off + len <= sz ->
  table_ok sz (<[i := set_file off len e]> l).
Proof.
  intros Ht He H1 H2 H3. pose proof (keys_update l i e (set_file off len) He eq_refl) as Ek.
  assert (forall k x, <[i := set_file off len e]> l !! k = Some x ->
    exists y, l !! k = Some y /\ (x = y \/ x = set_file off len y)) as Hl.
  { intros k x. destruct (decide (k = i)) as [->|]; [rewrite list_lookup_insert_eq by (by eapply lookup_lt_Some) | rewrite list_lookup_insert_ne by done; eauto].
    intros [= <-]. eauto. }
  split; rewrite ?Ek, ?length_insert; try (intros k x (y & Hy & [->| ->])%Hl); simpl.
  - apply (tb_keys _ _ Ht).
  - by apply (tb_first _ _ Ht).
  - by apply (tb_first _ _ Ht).
  - by apply (tb_next _ _ Ht).
  - by apply (tb_next _ _ Ht).
  - by apply (tb_name _ _ Ht k).
  - by apply (tb_name _ _ Ht k).
  - by apply (tb_kind _ _ Ht k).
  - by right.
  - by apply (tb_data _ _ Ht k).
  - done.
Qed.

(** ** Memory for the table *)

(** A [kmalloc] that fails or returns a block that holds the request, inside the heap. *)
Definition grant_ok (f : Z -> Z) : Prop := forall size, f size = 0 \/ size <= f size <= BUDDY_HEAP_SIZE - HDR_SIZE.

Definition next_cap (cap : Z) : Z := if cap =? 0 then 32 else cap * 2.

(** The heap grants the arrays until there is room for [N] entries. *)
Inductive enough (N : Z) : Z -> answers -> Prop :=
| enough_now cap mem : N <= cap -> enough N cap mem
| enough_grow cap f g mem : f (SIZEOF_ENTRY * next_cap cap) <> 0 -> g (SIZEOF_NODE * next_cap cap) <> 0 ->
    enough N (next_cap cap) mem -> enough N cap (f :: g :: mem).

Record cap_ok (s : initrd) : Prop := CapOk {
  cp_count : entry_count s <= i_cap s;
  cp_room : i_cap s <= i_room s;
  cp_heap : SIZEOF_NODE * i_cap s <= BUDDY_HEAP_SIZE - HDR_SIZE;
  cp_nodes : length (i_nodes s) = length (i_entries s)
}.

Definition blank : entry := Entry [] 0 0 0 (-1) (-1) (-1).

Lemma kmalloc_block_ok size mem a mem' : Forall grant_ok mem -> kmalloc_block size mem = (a, mem') ->
  Forall grant_ok mem' /\ (a = 0 \/ size <= a <= BUDDY_HEAP_SIZE - HDR_SIZE).
Proof. intros Hm. destruct Hm as [|f mem Hf Hm]; simpl; intros [= <- <-]; auto. Qed.

Lemma entry_grow_ok s mem : cap_ok s -> Forall grant_ok mem ->
  exists ok s' mem', entry_grow s mem = Ok (ok, s', mem') /\ Forall grant_ok mem' /\ cap_ok s' /\
    i_entries s' = i_entries s /\ i_base s' = i_base s /\ i_nodes s' = i_nodes s /\ (ok = true -> entry_count s < i_cap s') /\
    forall N, enough N (i_cap s) mem -> entry_count s < N -> ok = true /\ enough N (i_cap s') mem'.
Proof.
  intros [H1 H2 H3 H4] Hm. unfold entry_grow, BUDDY_HEAP_SIZE, HDR_SIZE, SIZEOF_NODE in *.
  assert (0 <= entry_count s) by (unfold entry_count; lia).
  destruct (Z.eqb_spec (entry_count s) (i_cap s)) as [E|E]; simpl; cycle 1.
  { exists true, s, mem. split_and!; auto; [by split | intros; lia]. }
  rewrite (proj2 (Z.ltb_ge _ _)) by lia. fold (next_cap (i_cap s)). set (c := next_cap (i_cap s)).
  assert (i_cap s < c /\ 0 < c <= 100000) as [Hc Hc'] by (unfold c, next_cap; bdestr; lia).
  unfold SIZEOF_ENTRY in *. rewrite !u32_small by lia.
  destruct (kmalloc_block (152 * c) mem) as [a mem1] eqn:Ea. destruct (kmalloc_block_ok _ _ _ _ Hm Ea) as [Hm1 Ha].
  destruct (kmalloc_block (288 * c) mem1) as [b mem2] eqn:Eb. destruct (kmalloc_block_ok _ _ _ _ Hm1 Eb) as [Hm2 Hb].
  assert (forall N, enough N (i_cap s) mem -> entry_count s < N -> a <> 0 /\ b <> 0 /\ enough N c mem2) as Hen.
  { intros N HN Hlt. inversion HN as [|cap f g m Hf Hg Hr]; subst; [lia|]. simpl in Ea. injection Ea as <- <-. simpl in Eb. injection Eb as <- <-. done. }
  destruct (Z.eqb_spec a 0) as [->|Ha0]; simpl.
  { exists false, s, mem2. split_and!; auto; [by split | done |]. intros N HN HN'. by destruct (Hen N HN HN'). }
  destruct (Z.eqb_spec b 0) as [->|Hb0].
  { exists false, s, mem2. split_and!; auto; [by split | done |]. intros N HN HN'. by destruct (Hen N HN HN') as (_ & ? & _). }
  destruct Ha as [?|Ha]; [done|]. destruct Hb as [?|Hb]; [done|].
  assert (c <= a / 152) by (apply Z.div_le_lower_bound; lia). assert (c <= b / 288) by (apply Z.div_le_lower_bound; lia).
  rewrite (proj2 (Z.ltb_ge _ _)) by lia. eexists true, _, _. split; [reflexivity|]. split_and!; auto; simpl; [|lia|].
  - split; unfold entry_count, SIZEOF_NODE, BUDDY_HEAP_SIZE, HDR_SIZE in *; simpl; lia || done.
  - intros N HN HN'. by destruct (Hen N HN HN') as (_ & _ & ?).
Qed.

Lemma entry_alloc_ok s mem : cap_ok s -> Forall grant_ok mem ->
  exists idx s' mem', entry_alloc s mem = Ok (idx, s', mem') /\ Forall grant_ok mem' /\ cap_ok s' /\ i_base s' = i_base s /\
    (idx = - ENOMEM /\ i_entries s' = i_entries s \/ idx = entry_count s /\ i_entries s' = i_entries s ++ [blank]) /\
    forall N, enough N (i_cap s) mem -> entry_count s < N -> 0 <= idx /\ enough N (i_cap s') mem'.
Proof.
  intros Hc Hm. destruct (entry_grow_ok s mem Hc Hm) as (ok & s1 & mem1 & E & Hm1 & [C1 C2 C3 C4] & Ee & Eb & En & Hok & HN). unfold entry_alloc. rewrite E, res_bind_ok.
  assert (entry_count s1 = entry_count s) as Ec by (unfold entry_count; by rewrite Ee). assert (0 <= entry_count s) by (unfold entry_count; lia).
  destruct ok; simpl.
  - specialize (Hok eq_refl). rewrite (proj2 (Z.leb_gt _ _)) by lia. eexists _, _, _. split; [reflexivity|]. split_and!; simpl; auto.
    + split; simpl; [unfold entry_count in *; simpl; rewrite length_app; simpl; lia | done | done | rewrite !length_app, C4; done].
    + right. by rewrite Ec, Ee.
    + intros N H1 H2. split; [lia|]. by apply HN.
  - eexists _, _, _. split; [reflexivity|]. split_and!; auto; [by split|]. intros N H1 H2. by destruct (HN N H1 H2).
Qed.

(** ** The tree *)

Inductive ikind : Type := IDir | IFile (data : list Z).

(** What is at each path; the root is at the empty path. *)
Notation itree := (gmap (list cstr) ikind).

Definition kind_of (b : buf) (loc : Z) (e : entry) : ikind :=
  if e_flags e =? FS_FILE then IFile (bytes_at b (loc + e_data_offset e) (e_length e)) else IDir.
Definition kind_at (b : buf) (s : initrd) (i : Z) : option ikind :=
  if i <? 0 then None else kind_of b (i_base s) <$> i_entries s !! Z.to_nat i.

(** The table holds the tree [t], one entry for each path. *)
Record shows_tree (b : buf) (s : initrd) (t : itree) : Prop := ShowsTree {
  sh_lookup ps : t !! ps = kind_at b s (resolve (keys (i_entries s)) ps);
  sh_size : Z.of_nat (size t) = entry_count s
}.

Definition t_ensure (t : itree) (ps : list cstr) : itree := match t !! ps with None => <[ps := IDir]> t | Some _ => t end.

(** The directories along [ps] from [pre] on. *)
Fixpoint t_dirs (t : itree) (pre ps : list cstr) : itree :=
  match ps with [] => t | p :: ps => t_dirs (t_ensure t (pre ++ [p])) (pre ++ [p]) ps end.

(** A member of an archive: its path, whether it is a directory, and its data. *)
Record item : Type := Item { it_path : list cstr; it_dir : bool; it_data : list Z }.

(** A member puts its file or its directory at its path, after the directories on the
    way.  A directory leaves what is there, a file replaces it. *)
Definition add_item (t : itree) (x : item) : itree :=
  match it_path x with
  | [] => t
  | ps =>
      let t := t_dirs t [] (removelast ps) in
      if it_dir x then t_ensure t ps else <[ps := IFile (it_data x)]> t
  end.

Lemma size_insert_le (t : itree) ps k : (size t <= size (<[ps := k]> t))%nat.
Proof. destruct (t !! ps) eqn:E; [rewrite map_size_insert_Some by eauto | rewrite (map_size_insert_None _ _ _ E)]; lia. Qed.

Lemma size_ensure_le (t : itree) ps : (size t <= size (t_ensure t ps))%nat.
Proof. unfold t_ensure. destruct (t !! ps); [done | apply size_insert_le]. Qed.

Lemma size_dirs_le ps : forall (t : itree) pre, (size t <= size (t_dirs t pre ps))%nat.
Proof. induction ps as [|p ps IH]; intros t pre; simpl; [done|]. etrans; [apply size_ensure_le | apply IH]. Qed.

Lemma size_item_le t x : (size t <= size (add_item t x))%nat.
Proof.
  unfold add_item. destruct (it_path x) as [|p ps]; [done|]. etrans; [apply (size_dirs_le (removelast (p :: ps)) t [])|].
  destruct (it_dir x); [apply size_ensure_le | apply size_insert_le].
Qed.

Lemma kind_at_ok b s t ps i : shows_tree b s t -> resolve (keys (i_entries s)) ps = Z.of_nat i ->
  t !! ps = kind_of b (i_base s) <$> i_entries s !! i.
Proof. intros Hs E. rewrite (sh_lookup _ _ _ Hs), E. unfold kind_at. zdecide. by rewrite Nat2Z.id. Qed.

Lemma tree_none sz b s t ps : table_ok sz (i_entries s) -> shows_tree b s t -> t !! ps = None <-> resolve (keys (i_entries s)) ps = -1.
Proof.
  intros Ht Hs. pose proof (resolve_range _ ps (tb_keys _ _ Ht)) as R. rewrite keys_length in R. rewrite (sh_lookup _ _ _ Hs). unfold kind_at. bdestr; [split; lia || done|].
  rewrite fmap_None, lookup_ge_None. split; lia.
Qed.

Lemma shows_add sz b s s' t (ps : list cstr) j p (name : cstr) flags : table_ok sz (i_entries s) -> shows_tree b s t -> i_base s' = i_base s ->
  resolve (keys (i_entries s)) ps = Z.of_nat j -> i_entries s !! j = Some p -> seek (keys (i_entries s)) (Z.of_nat j) name = -1 ->
  i_entries s' = add_entry (i_entries s) j p name flags ->
  t !! (ps ++ [name]) = None /\
  shows_tree b s' (<[ps ++ [name] := if flags =? FS_FILE then IFile [] else IDir]> t).
Proof.
  intros Ht Hs Eb Ej Hp Hk El. assert (t !! (ps ++ [name]) = None) as Hn.
  { apply (tree_none sz b s); [done..|]. rewrite resolve_snoc, Ej. bdestr; [lia | done]. }
  split; [done|]. split.
  - intros qs. rewrite El, (keys_add _ _ _ _ _ Hp), <- Ej, (resolve_add _ _ _ _ (tb_keys _ _ Ht)) by (rewrite Ej; lia || done).
    unfold kind_at. rewrite El, Eb. case_bool_decide as E.
    + subst qs. rewrite lookup_insert_eq, keys_length. zdecide. unfold add_entry. rewrite Nat2Z.id, list_lookup_middle by (by rewrite length_insert).
      simpl. unfold kind_of. simpl. destruct (flags =? FS_FILE); done.
    + rewrite lookup_insert_ne, (sh_lookup _ _ _ Hs) by done. unfold kind_at. bdestr; [done|]. pose proof (resolve_range _ qs (tb_keys _ _ Ht)) as R.
      rewrite keys_length in R. unfold add_entry. rewrite lookup_app_l by (rewrite length_insert; lia).
      destruct (decide (Z.to_nat (resolve (keys (i_entries s)) qs) = j)) as [E'|]; [|by rewrite list_lookup_insert_ne].
      rewrite E', list_lookup_insert_eq, Hp by (by eapply lookup_lt_Some). done.
  - rewrite (map_size_insert_None _ _ _ Hn). pose proof (sh_size _ _ _ Hs). unfold entry_count in *. rewrite El, add_entry_length. lia.
Qed.

(** ** Entries made and found *)

Record st_ok (sz : Z) (s : initrd) (mem : answers) : Prop := StOk {
  so_cap : cap_ok s;
  so_mem : Forall grant_ok mem;
  so_table : table_ok sz (i_entries s);
  so_size : 0 <= sz
}.

(** The table holds [t], and there is memory for [N] entries. *)
Definition holds (N : Z) (b : buf) (s : initrd) (mem : answers) (t : itree) : Prop :=
  shows_tree b s t /\ enough N (i_cap s) mem.

Notation at_path s ps := (resolve (keys (i_entries s)) ps).

Lemma st_entry sz s mem (ps : list cstr) : st_ok sz s mem -> 0 <= at_path s ps ->
  exists j p, at_path s ps = Z.of_nat j /\ i_entries s !! j = Some p /\ 0 <= at_path s ps < entry_count s.
Proof.
  intros [_ _ Ht _] Hp. pose proof (resolve_range _ ps (tb_keys _ _ Ht)) as R. rewrite keys_length in R.
  destruct (lookup_lt_is_Some_2 (i_entries s) (Z.to_nat (at_path s ps))) as [p Hj]; [lia|].
  exists (Z.to_nat (at_path s ps)), p. unfold entry_count. split_and!; lia || done.
Qed.

Lemma st_find sz s mem (ps : list cstr) (name : cstr) : st_ok sz s mem -> 0 <= at_path s ps ->
  entry_find_child s (at_path s ps) name = Ok (at_path s (ps ++ [name])).
Proof.
  intros Hs Hp. destruct (st_entry _ _ _ _ Hs Hp) as (j & p & Ej & Hj & Hr).
  rewrite (entry_find_child_ok sz), resolve_snoc by (apply Hs || done). by zdecide.
Qed.

Lemma entry_add_child_ok sz s mem (ps : list cstr) (name : cstr) flags : st_ok sz s mem -> 0 <= at_path s ps -> at_path s (ps ++ [name]) = -1 ->
  (length name < 128)%nat -> flags = FS_DIRECTORY \/ flags = FS_FILE ->
  exists r s' mem', entry_add_child s mem (at_path s ps) name flags = Ok (r, s', mem') /\ st_ok sz s' mem' /\ i_base s' = i_base s /\
    (r < 0 /\ i_entries s' = i_entries s \/ 0 <= r /\ r = at_path s' (ps ++ [name])) /\
    forall N b t, holds N b s mem t -> Z.of_nat (S (size t)) <= N ->
      0 <= r /\ t !! (ps ++ [name]) = None /\ holds N b s' mem' (<[ps ++ [name] := if flags =? FS_FILE then IFile [] else IDir]> t).
Proof.
  intros Hs Hp Hn Hl Hf. destruct (st_entry _ _ _ _ Hs Hp) as (j & p & Ej & Hj & Hr). destruct Hs as [Hc Hm Ht Hz].
  assert (seek (keys (i_entries s)) (Z.of_nat j) name = -1) as Hk. { rewrite resolve_snoc, Ej in Hn. by rewrite (proj2 (Z.ltb_ge _ _)) in Hn by lia. }
  unfold entry_add_child. destruct (entry_alloc_ok s mem Hc Hm) as (idx & s1 & mem1 & E & Hm1 & Hc1 & Eb & He & HN). rewrite E, res_bind_ok.
  assert (0 <= entry_count s) by (unfold entry_count; lia). destruct He as [[-> El]|[-> El]].
  { unfold ENOMEM in *. zdecide. eexists _, _, _. split; [reflexivity|]. split_and!; auto; [split; by rewrite ?El | left; split; [lia | done]|].
    intros N b t [Hsh Hen] HS. destruct (HN N Hen) as [? _]; [|lia]. rewrite <- (sh_size _ _ _ Hsh). lia. }
  rewrite (proj2 (Z.ltb_ge _ _)) by lia. unfold copy_name. rewrite (proj2 (Z.leb_gt _ _)) by lia. rewrite res_bind_ok, Ej.
  pose proof (lookup_lt_Some _ _ _ Hj) as Hjl.
  rewrite (ent_ok s1 j p) by (rewrite El; by apply lookup_app_l_Some). rewrite res_bind_ok. unfold entry_count.
  rewrite (upd_ent_ok s1 (length (i_entries s)) blank) by (rewrite El; by apply list_lookup_middle). rewrite res_bind_ok. simpl e_data_offset. simpl e_length.
  set (new := Entry name flags 0 0 (Z.of_nat j) (-1) (e_first_child p)). rewrite El, insert_app_r_alt, Nat.sub_diag by lia. cbn [insert list_insert list_alter].
  rewrite (upd_ent_ok _ j p) by (by apply lookup_app_l_Some). rewrite res_bind_ok. simpl i_entries. rewrite insert_app_l by done.
  fold (add_entry (i_entries s) j p name flags).
  set (s2 := set_entries _ _). assert (i_entries s2 = add_entry (i_entries s) j p name flags) as E2 by done.
  exists (Z.of_nat (length (i_entries s))), s2, mem1. split; [reflexivity|]. split_and!.
  - split; [|done| |done].
    + destruct Hc1 as [C1 C2 C3 C4]. split; [|done|done|]; unfold entry_count in *; rewrite ?E2, ?add_entry_length, ?El, ?length_app in *; simpl in *; [lia|]. rewrite C4. lia.
    + rewrite E2. by apply table_add_ok.
  - done.
  - right. split; [lia|]. rewrite E2, (keys_add _ _ _ _ _ Hj), <- Ej, (resolve_add _ _ _ _ (tb_keys _ _ Ht)) by (rewrite Ej; lia || done).
    by rewrite bool_decide_true, keys_length.
  - intros N b t [Hsh Hen] HS. destruct (HN N Hen) as [_ Hen']; [rewrite <- (sh_size _ _ _ Hsh); lia|]. split; [lia|].
    destruct (shows_add sz b s s2 t ps j p name flags) as [? ?]; auto. split; [done|]. by split.
Qed.

Lemma ensure_dir_ok sz s mem (ps : list cstr) (name : cstr) : st_ok sz s mem -> 0 <= at_path s ps -> (length name < 128)%nat ->
  exists r s' mem', ensure_dir s mem (at_path s ps) name = Ok (r, s', mem') /\ st_ok sz s' mem' /\ i_base s' = i_base s /\
    (r < 0 \/ 0 <= r /\ r = at_path s' (ps ++ [name])) /\
    forall N b t, holds N b s mem t -> Z.of_nat (size (t_ensure t (ps ++ [name]))) <= N -> 0 <= r /\ holds N b s' mem' (t_ensure t (ps ++ [name])).
Proof.
  intros Hs Hp Hl. unfold ensure_dir. rewrite (st_find sz s mem) by done. rewrite res_bind_ok.
  match goal with |- context [?a =? -1] => destruct (Z.eqb_spec a (-1)) as [E|E] end; simpl.
  - destruct (entry_add_child_ok sz s mem ps name FS_DIRECTORY Hs Hp E Hl) as (r & s' & mem' & Er & Hs' & Eb & Hr & HN); [by left|].
    exists r, s', mem'. split; [done|]. split; [done|]. split; [done|]. split; [destruct Hr as [[? _]|?]; auto|]. intros N b t Ht HS. unfold t_ensure in *.
    assert (t !! (ps ++ [name]) = None) as Hn by (by apply (tree_none sz b s); [apply Hs | apply Ht |]).
    rewrite Hn in *. rewrite (map_size_insert_None _ _ _ Hn) in HS. by destruct (HN N b t Ht HS) as (? & _ & ?).
  - pose proof (resolve_range _ (ps ++ [name]) (tb_keys _ _ (so_table _ _ _ Hs))) as R.
    eexists _, _, _. split; [reflexivity|]. split_and!; auto; [right; split; [lia | done]|]. intros N b t Ht HS. split; [lia|].
    unfold t_ensure. destruct (t !! (ps ++ [name])) eqn:En; [done|]. by apply (tree_none sz b s) in En; [|apply Hs|apply Ht].
Qed.

(** The parts of a path one after the other, without the text around them. *)
Fixpoint dirs_list (s : initrd) (mem : answers) (cur : Z) (ps : list cstr) : res (Z * cstr * initrd * answers) :=
  match ps with
  | [] => mret (- EINVAL, [], s, mem)
  | [leaf] => mret (cur, leaf, s, mem)
  | part :: ps =>
      '(cur, s, mem) ← ensure_dir s mem cur part;
      if cur <? 0 then mret (cur, [], s, mem) else dirs_list s mem cur ps
  end.

Lemma strtrunc_twice n a : strtrunc n (strtrunc n a) = strtrunc n a.
Proof. unfold strtrunc. rewrite take_take. f_equal. lia. Qed.

Lemma parts_cons c q : c <> SLASH ->
  exists x a', strtrunc 128 (span_part (c :: q)).1 = x :: a' /\ parts (c :: q) = (x :: a') :: parts (skip_slashes (span_part (c :: q)).2) /\
    (length (skip_slashes (span_part (c :: q)).2) < length (c :: q))%nat.
Proof.
  intros Hc. pose proof (split_next_ok (c :: q)) as Hs. unfold tmpfs_split_next in Hs. cbn [skip_slashes] in Hs.
  rewrite (proj2 (Z.eqb_neq c SLASH)) in Hs by done. destruct (span_part (c :: q)) as [a r]. simpl fst in *. simpl snd in *.
  destruct (strtrunc 128 a) as [|x a'] eqn:Ea; [|destruct Hs as (? & ? & ?); eauto].
  exfalso. unfold parts in Hs. cbn [split_slash] in Hs. rewrite (proj2 (Z.eqb_neq c SLASH)) in Hs by done.
  destruct (split_slash q); by rewrite filter_cons_True in Hs by done.
Qed.

Lemma parts_nil p : p = [] \/ (exists c q, p = c :: q /\ c <> SLASH) -> parts p = [] <-> p = [].
Proof. intros [->|(c & q & -> & Hc)]; [done|]. destruct (parts_cons c q Hc) as (x & a' & _ & -> & _). done. Qed.

Lemma path_dirs_list : forall fuel s mem cur p, (length p < fuel)%nat -> (p = [] \/ exists c q, p = c :: q /\ c <> SLASH) ->
  path_dirs fuel s mem cur p = dirs_list s mem cur (parts p).
Proof.
  induction fuel as [|fuel IH]; intros s mem cur p Hl Hp; [lia|]. destruct Hp as [->|(c & q & -> & Hc)]; [done|].
  destruct (parts_cons c q Hc) as (x & a' & Ea & -> & Hlen). cbn [path_dirs].
  pose proof (strtrunc_twice 128 (span_part (c :: q)).1) as Htw. destruct (span_part (c :: q)) as [a r]. simpl fst in *. simpl snd in *. rewrite Ea in *.
  pose proof (skip_slashes_head r) as Hh. pose proof (parts_nil _ Hh) as Hnil. cbn [dirs_list].
  destruct (skip_slashes r) as [|y p] eqn:Er; [by rewrite (proj2 Hnil), Htw by done|].
  destruct (parts (y :: p)) as [|z zs] eqn:Ep; [discriminate (proj1 Hnil eq_refl)|]. rewrite <- Ep.
  destruct (ensure_dir s mem cur (x :: a')) as [[[cur' s'] mem']| |]; [|done|done]. rewrite !res_bind_ok.
  destruct (cur' <? 0); [done|]. apply IH; [simpl in *; lia | done].
Qed.

Lemma ensure_path_dirs_eq s mem cur path : ensure_path_dirs s mem cur path = dirs_list s mem cur (parts path).
Proof.
  unfold ensure_path_dirs. rewrite <- (skip_slashes_parts path). apply path_dirs_list; [lia | apply skip_slashes_head].
Qed.

Lemma parts_short path : Forall (fun a => (length a < 128)%nat) (parts path).
Proof. unfold parts. apply Forall_fmap, Forall_true. intros a. simpl. rewrite length_take. lia. Qed.

Lemma removelast_cons2 {A} (x y : A) l : removelast (x :: y :: l) = x :: removelast (y :: l).
Proof. done. Qed.

Lemma dirs_list_ok sz : forall ps pre s mem, st_ok sz s mem -> 0 <= at_path s pre -> Forall (fun a : cstr => (length a < 128)%nat) ps -> ps <> [] ->
  exists r leaf s' mem', dirs_list s mem (at_path s pre) ps = Ok (r, leaf, s', mem') /\ st_ok sz s' mem' /\ i_base s' = i_base s /\
    (r < 0 \/ 0 <= r /\ r = at_path s' (pre ++ removelast ps) /\ ps = removelast ps ++ [leaf]) /\
    forall N b t, holds N b s mem t -> Z.of_nat (size (t_dirs t pre (removelast ps))) <= N -> 0 <= r /\ holds N b s' mem' (t_dirs t pre (removelast ps)).
Proof.
  induction ps as [|a ps IH]; intros pre s mem Hs Hp Hf Hne; [done|]. apply Forall_cons in Hf as [Ha Hf]. destruct ps as [|a' ps].
  { exists (at_path s pre), a, s, mem. simpl. rewrite app_nil_r. split_and!; auto. }
  destruct (ensure_dir_ok sz s mem pre a Hs Hp Ha) as (r & s1 & mem1 & E & Hs1 & Eb & Hr & HN).
  assert (forall N b t, holds N b s mem t -> Z.of_nat (size (t_dirs t pre (removelast (a :: a' :: ps)))) <= N ->
    0 <= r /\ holds N b s1 mem1 (t_ensure t (pre ++ [a]))) as HN'.
  { intros N b t Ht HS. apply HN; [done|]. rewrite removelast_cons2 in HS. simpl in HS. etrans; [|exact HS]. apply inj_le, size_dirs_le. }
  change (dirs_list s mem (at_path s pre) (a :: a' :: ps)) with
    ('(cur, s, mem) ← ensure_dir s mem (at_path s pre) a; if cur <? 0 then mret (cur, [], s, mem) else dirs_list s mem cur (a' :: ps)).
  rewrite E, res_bind_ok. destruct Hr as [Hr|[Hr ->]].
  - rewrite (proj2 (Z.ltb_lt _ _)) by done. exists r, [], s1, mem1. split_and!; auto. intros N b t Ht HS. destruct (HN' N b t Ht HS). lia.
  - rewrite (proj2 (Z.ltb_ge _ _)) by done. destruct (IH (pre ++ [a]) s1 mem1 Hs1 Hr Hf) as (r & leaf & s' & mem' & E' & Hs' & Eb' & Hr' & HN2); [done|].
    exists r, leaf, s', mem'. split; [exact E'|]. split; [done|]. split; [congruence|]. rewrite removelast_cons2. split.
    + destruct Hr' as [?|(H1 & H2 & H3)]; [by left|]. right. split; [done|]. rewrite H2, <- app_assoc. split; [done|]. by rewrite <- app_comm_cons, <- H3.
    + intros N b t Ht HS. destruct (HN' N b t Ht HS) as [_ Ht']. exact (HN2 N b _ Ht' HS).
Qed.

(** The data of a file are set. *)
Lemma set_file_ok sz s mem ps off len : st_ok sz s mem -> 0 <= at_path s ps -> 0 <= off -> 0 <= len -> off + len <= sz ->
  exists s', upd_ent s (at_path s ps) (set_file off len) = Ok s' /\ st_ok sz s' mem /\ i_base s' = i_base s /\
    forall N b t, holds N b s mem t -> holds N b s' mem (<[ps := IFile (bytes_at b (i_base s + off) len)]> t).
Proof.
  intros Hs Hp H1 H2 H3. destruct (st_entry _ _ _ _ Hs Hp) as (j & e & Ej & Hj & Hr). rewrite Ej, (upd_ent_ok _ _ _ _ Hj).
  pose proof (keys_update _ _ _ (set_file off len) Hj eq_refl) as Ek. set (s' := set_entries _ s). exists s'. split; [done|]. destruct Hs as [[C1 C2 C3 C4] Hm Ht Hz]. split_and!.
  - split; [|done|by apply table_file_ok|done]. split; [|done|done|]; unfold entry_count in *; simpl; by rewrite length_insert.
  - done.
  - intros N b t [Hsh Hen]. split; [|done]. split.
    + intros qs. simpl. rewrite Ek. destruct (decide (qs = ps)) as [->|Hq].
      * rewrite lookup_insert_eq, Ej. unfold kind_at. zdecide. simpl. rewrite Nat2Z.id, list_lookup_insert_eq by (by eapply lookup_lt_Some). done.
      * rewrite lookup_insert_ne, (sh_lookup _ _ _ Hsh) by done. unfold kind_at. bdestr; [done|]. simpl. rewrite list_lookup_insert_ne; [done|].
        intros E. apply Hq. symmetry. apply (resolve_inj _ _ _ (tb_keys _ _ Ht)); lia.
    + rewrite map_size_insert_Some; [rewrite (sh_size _ _ _ Hsh); unfold entry_count; simpl; by rewrite length_insert|].
      rewrite (kind_at_ok b s t ps j Hsh Ej), Hj. by eexists.
Qed.

(** The entry of a file is found or made, and its data set. *)
Lemma file_entry_ok sz s mem (pre : list cstr) (leaf : cstr) off len files :
  st_ok sz s mem -> 0 <= at_path s pre -> (length leaf < 128)%nat -> 0 <= off -> 0 <= len -> off + len <= sz ->
  exists files' s' mem',
    (existing ← entry_find_child s (at_path s pre) leaf;
     '(idx, s, mem) ← (if existing =? -1 then entry_add_child s mem (at_path s pre) leaf FS_FILE else mret (existing, s, mem));
     if 0 <=? idx then s ← upd_ent s idx (set_file off len); mret (files + 1, s, mem) else mret (files, s, mem)) = Ok (files', s', mem') /\
    st_ok sz s' mem' /\ i_base s' = i_base s /\
    forall N b t, holds N b s mem t -> let t' := <[pre ++ [leaf] := IFile (bytes_at b (i_base s + off) len)]> t in
      Z.of_nat (size t') <= N -> holds N b s' mem' t'.
Proof.
  intros Hs Hp Hl H1 H2 H3. rewrite (st_find sz s mem), res_bind_ok by done.
  match goal with |- context [?a =? -1] => destruct (Z.eqb_spec a (-1)) as [E|E] end.
  - destruct (entry_add_child_ok sz s mem pre leaf FS_FILE Hs Hp E Hl) as (r & s1 & mem1 & -> & Hs1 & Eb & Hr & HN); [by right|]. rewrite res_bind_ok.
    assert (forall N b t, holds N b s mem t -> Z.of_nat (size (<[pre ++ [leaf] := IFile (bytes_at b (i_base s + off) len)]> t)) <= N ->
      0 <= r /\ holds N b s1 mem1 (<[pre ++ [leaf] := IFile []]> t)) as HN'.
    { intros N b t Ht HS. assert (t !! (pre ++ [leaf]) = None) as Hn by (by apply (tree_none sz b s); [apply Hs | apply Ht |]).
      rewrite (map_size_insert_None _ _ _ Hn) in HS. by destruct (HN N b t Ht HS) as (? & _ & ?). }
    destruct Hr as [[Hr El]|[Hr ->]].
    + rewrite (proj2 (Z.leb_gt _ _)) by done. eexists _, _, _. split; [reflexivity|]. split_and!; auto. intros N b t Ht t' HS. destruct (HN' N b t Ht HS). lia.
    + rewrite (proj2 (Z.leb_le _ _)) by done. destruct (set_file_ok sz s1 mem1 (pre ++ [leaf]) off len Hs1 Hr H1 H2 H3) as (s2 & -> & Hs2 & Eb2 & HF).
      eexists _, _, _. split; [reflexivity|]. split; [done|]. split; [congruence|]. intros N b t Ht t' HS. destruct (HN' N b t Ht HS) as [_ Ht'].
      specialize (HF N b _ Ht'). by rewrite insert_insert_eq, Eb in HF.
  - pose proof (resolve_range _ (pre ++ [leaf]) (tb_keys _ _ (so_table _ _ _ Hs))) as R. rewrite res_bind_ok, (proj2 (Z.leb_le _ _)) by lia.
    destruct (set_file_ok sz s mem (pre ++ [leaf]) off len Hs ltac:(lia) H1 H2 H3) as (s2 & -> & Hs2 & Eb2 & HF).
    eexists _, _, _. split; [reflexivity|]. split_and!; auto. intros N b t Ht t' HS. exact (HF N b t Ht).
Qed.

Lemma add_member_ok sz s mem name tf off len files : st_ok sz s mem -> 0 <= off -> 0 <= len -> off + len <= sz ->
  exists files' s' mem', add_member s mem name tf off len files = Ok (files', s', mem') /\ st_ok sz s' mem' /\ i_base s' = i_base s /\
    forall N b t, holds N b s mem t -> let t' := add_item t (Item (parts name) (tf =? 53) (bytes_at b (i_base s + off) len)) in
      Z.of_nat (size t') <= N -> holds N b s' mem' t'.
Proof.
  intros Hs H1 H2 H3. unfold add_member. case_bool_decide as En.
  { subst name. eexists _, _, _. split; [reflexivity|]. by split_and!. }
  rewrite ensure_path_dirs_eq. unfold add_item. cbn [it_path it_dir it_data]. destruct (decide (parts name = [])) as [Ep|Ep].
  { rewrite Ep. simpl. eexists _, _, _. split; [reflexivity|]. by split_and!. }
  change (dirs_list s mem 0 (parts name)) with (dirs_list s mem (at_path s []) (parts name)).
  destruct (dirs_list_ok sz (parts name) [] s mem Hs) as (r & leaf & s1 & mem1 & -> & Hs1 & Eb & Hr & HN);
    [unfold resolve; simpl; lia | apply parts_short | done |]. rewrite res_bind_ok.
  pose proof (parts_short name) as Hf. destruct (parts name) as [|p0 ps0] eqn:Eps; [done|]. rewrite <- Eps in *. clear p0 ps0 Eps Ep.
  set (t1 t := t_dirs t [] (removelast (parts name))) in *.
  assert (forall N b t, holds N b s mem t -> Z.of_nat (size (t1 t)) <= N -> 0 <= r /\ holds N b s1 mem1 (t1 t)) as HN' by exact HN.
  assert (forall t k, Z.of_nat (size (t1 t)) <= Z.of_nat (size (<[parts name := k]> (t1 t)))) as HS1 by (intros; apply inj_le, size_insert_le).
  assert (forall t, Z.of_nat (size (t1 t)) <= Z.of_nat (size (t_ensure (t1 t) (parts name)))) as HS2 by (intros; apply inj_le, size_ensure_le).
  destruct Hr as [Hr|(Hr & -> & El)].
  { rewrite (proj2 (Z.ltb_lt _ _)) by done. eexists _, _, _. split; [reflexivity|]. split_and!; auto. intros N b t Ht HS.
    destruct (HN' N b t Ht); [|lia]. etrans; [|exact HS]. destruct (tf =? 53); [apply HS2 | apply HS1]. }
  rewrite (proj2 (Z.ltb_ge _ _)) by done. rewrite app_nil_l in *. assert (length leaf < 128)%nat as Hl by (rewrite El in Hf; apply Forall_app in Hf as [_ Hl]; by inversion Hl).
  destruct (tf =? 53).
  - destruct (ensure_dir_ok sz s1 mem1 (removelast (parts name)) leaf Hs1 Hr Hl) as (r & s2 & mem2 & -> & Hs2 & Eb2 & _ & HN2). rewrite <- El in HN2.
    eexists _, _, _. split; [reflexivity|]. split; [done|]. split; [congruence|]. intros N b t Ht HS. apply (HN2 N b (t1 t)); [|done].
    apply HN'; [done|]. etrans; [apply HS2 | exact HS].
  - destruct (file_entry_ok sz s1 mem1 (removelast (parts name)) leaf off len files Hs1 Hr Hl H1 H2 H3) as (files' & s2 & mem2 & -> & Hs2 & Eb2 & HN2). rewrite <- El in HN2.
    eexists _, _, _. split; [reflexivity|]. split; [done|]. split; [congruence|]. intros N b t Ht HS. rewrite Eb in HN2. apply (HN2 N b (t1 t)); [|done].
    apply HN'; [done|]. etrans; [apply HS1 | exact HS].
Qed.
