(* ===== verification/InitrdTar.v ===== *)
(** The archives of the initial RAM disk: what the headers say, the members of an archive
    as a function of its bytes, and the proof that the loop of [initrd_init] of
    src/drivers/initrd.c builds the tree of the members. *)

From S2P Require Import Prelude Heap Kstack Lz4 Lz4Spec Lz4Frame Lz4Theorems Tmpfs TmpfsSpec TmpfsOps TmpfsSim Vfs VfsTmpfs Initrd InitrdSpec.

(** ** Fields of a header *)

(** The string at the start of a field. *)
Fixpoint upto0 (l : list Z) : list Z :=
  match l with [] => [] | c :: l => if c =? 0 then [] else c :: upto0 l end.

Definition field (off n : nat) (h : list Z) : list Z := take n (drop off h).

(** The value of the octal digits of a string; other characters are skipped. *)
Fixpoint octal (l : list Z) (v : Z) : Z :=
  match l with
  | [] => v
  | c :: l => if (c <? 48) || (55 <? c) then octal l v else octal l (u32 (v * 8 + (c - 48)))
  end.

Definition h_octal (off n : nat) (h : list Z) : Z := octal (upto0 (field off n h)) 0.

(** Prefix and name, cut to 255 characters. *)
Definition h_name (h : list Z) : cstr :=
  let pre := upto0 (field 345 155 h) in
  match pre with
  | [] => upto0 (field 0 100 h)
  | _ => pre ++ [SLASH] ++ upto0 (field 0 (Nat.min (254 - length pre) 100) h)
  end.

Definition sum_list (l : list Z) : Z := foldr Z.add 0 l.

(** The sum of the bytes, with spaces for the checksum itself. *)
Definition h_sum (h : list Z) : Z := u32 (sum_list (field 0 148 h) + 256 + sum_list (field 156 356 h)).

Definition h_type (h : list Z) : Z := nth 156 h 0.

(** The path of a name, and whether it is one of a directory. *)
Definition name_item (name : cstr) (tf : Z) (data : list Z) : item :=
  let '(name, slash) := strip_slash (strip_dot name) in
  Item (parts name) (if slash then true else tf =? 53) data.

Definition round512 (n : Z) : Z := (n + 511) / 512 * 512.

(** The members of an archive; [None] when it is refused. *)
Fixpoint members (fuel : nat) (l : list Z) : option (list item) :=
  match fuel with
  | O => None
  | S fuel =>
      if (length l <? 512)%nat then Some []
      else if forallb (fun c => c =? 0) (field 0 512 l) then Some []
      else
        let size := h_octal 124 12 l in
        if TAR_MAX_SIZE <? size then None
        else if zlen l <? 512 + round512 size then None
        else if negb (h_octal 148 8 l =? h_sum l) then None
        else
          xs ← members fuel (drop (Z.to_nat (512 + round512 size)) l);
          Some (name_item (h_name l) (h_type l) (take (Z.to_nat size) (drop 512 l)) :: xs)
  end.

Definition tar_members (l : list Z) : option (list item) := members (S (length l)) l.

(** ** Reading the fields *)

Lemma copy_chars_ok b : forall n p l, reads b p l -> (n <= length l)%nat -> 0 <= p -> p + zlen l < 4294967296 ->
  copy_chars n b p = Ok (upto0 (take n l)).
Proof.
  induction n as [|n IH]; intros p l Hr Hn Hp He; [done|]. destruct l as [|c l]; simpl in Hn; [lia|]. simpl.
  rewrite (ld_reads _ _ _ _ Hr), res_bind_ok. destruct (c =? 0); [done|]. simpl in He. rewrite u32_small by lia.
  rewrite (IH (p + 1) l (reads_cons _ _ _ _ Hr)) by lia. done.
Qed.

Lemma octal_loop_ok b : forall n p l v, reads b p l -> (n <= length l)%nat -> 0 <= p -> p + zlen l < 4294967296 ->
  octal_loop n b p v = Ok (octal (upto0 (take n l)) v).
Proof.
  induction n as [|n IH]; intros p l v Hr Hn Hp He; [done|]. destruct l as [|c l]; simpl in Hn; [lia|]. simpl.
  rewrite (ld_reads _ _ _ _ Hr), res_bind_ok. destruct (c =? 0); [done|]. simpl in He. rewrite (u32_small (p + 1)) by lia. simpl.
  destruct ((c <? 48) || (55 <? c)); rewrite (IH (p + 1) l _ (reads_cons _ _ _ _ Hr)) by lia; [done|].
  do 2 f_equal. rewrite Z.shiftl_mul_pow2 by lia. change (2 ^ 3) with 8. unfold u32. by rewrite Zplus_mod_idemp_l.
Qed.

Lemma zero_loop_ok b : forall n p l, reads b p l -> (n <= length l)%nat -> 0 <= p -> p + zlen l < 4294967296 ->
  zero_loop n b p = Ok (forallb (fun c => c =? 0) (take n l)).
Proof.
  induction n as [|n IH]; intros p l Hr Hn Hp He; [done|]. destruct l as [|c l]; simpl in Hn; [lia|]. simpl.
  rewrite (ld_reads _ _ _ _ Hr), res_bind_ok. destruct (c =? 0); [|done]. simpl in He. rewrite u32_small by lia. simpl.
  apply (IH (p + 1) l (reads_cons _ _ _ _ Hr)); lia.
Qed.

Lemma copy_out_ok b : forall n p l, reads b p l -> (n <= length l)%nat -> 0 <= p -> p + zlen l < 4294967296 ->
  copy_out n b p = Ok (take n l).
Proof.
  induction n as [|n IH]; intros p l Hr Hn Hp He; [done|]. destruct l as [|c l]; simpl in Hn; [lia|]. simpl.
  rewrite (ld_reads _ _ _ _ Hr), res_bind_ok. simpl in He. rewrite u32_small by lia. by rewrite (IH (p + 1) l (reads_cons _ _ _ _ Hr)) by lia.
Qed.

Lemma sum_list_app l1 l2 : sum_list (l1 ++ l2) = sum_list l1 + sum_list l2.
Proof. unfold sum_list. induction l1 as [|c l1 IH]; simpl; [done|]. rewrite IH. lia. Qed.

Lemma sum_list_bound l : Forall is_u8 l -> 0 <= sum_list l <= 255 * zlen l.
Proof. unfold sum_list. induction 1 as [|c l [H1 H2] _ IH]; simpl; lia. Qed.

Lemma field_app off n (h1 f h2 : list Z) : length h1 = off -> length f = n -> field off n (h1 ++ f ++ h2) = f.
Proof. intros <- <-. unfold field. by rewrite drop_app_length, take_app_length. Qed.

Lemma field_length off n (h : list Z) : (off + n <= length h)%nat -> length (field off n h) = n.
Proof. intros H. unfold field. rewrite length_take, length_drop. lia. Qed.

(** What the loop of the checksum adds up. *)
Definition masked (h : list Z) : list Z := field 0 148 h ++ replicate 8 32 ++ field 156 356 h.

Lemma masked_lookup (h : list Z) i : (512 <= length h)%nat -> (i < 512)%nat ->
  masked h !! i = if (148 <=? i)%nat && (i <? 156)%nat then Some 32 else h !! i.
Proof.
  intros Hl Hi. unfold masked. pose proof (field_length 0 148 h ltac:(lia)) as L1. pose proof (field_length 156 356 h ltac:(lia)) as L2.
  destruct (Nat.leb_spec 148 i); cbn [andb].
  - rewrite lookup_app_r, L1 by lia. destruct (Nat.ltb_spec i 156).
    + rewrite lookup_app_l, lookup_replicate_2 by (rewrite ?length_replicate; lia). done.
    + rewrite lookup_app_r, length_replicate by (rewrite length_replicate; lia). unfold field. rewrite lookup_take_lt, lookup_drop by lia. f_equal. lia.
  - rewrite lookup_app_l by lia. unfold field. by rewrite lookup_take_lt, lookup_drop by lia.
Qed.

Lemma masked_length (h : list Z) : (512 <= length h)%nat -> length (masked h) = 512%nat.
Proof. intros Hl. unfold masked. rewrite !length_app, length_replicate, !field_length by lia. done. Qed.

Lemma masked_sum h : u32 (sum_list (masked h)) = h_sum h.
Proof. unfold masked, h_sum. rewrite !sum_list_app. change (sum_list (replicate 8 32)) with 256. f_equal. lia. Qed.

Lemma u32_add_u32 a c : u32 (u32 a + c) = u32 (a + c).
Proof. unfold u32. by rewrite Zplus_mod_idemp_l. Qed.

Lemma sum_loop_ok b p h : reads b p h -> (512 <= length h)%nat -> 0 <= p -> p + zlen h < 4294967296 ->
  forall n i acc, (i + n = 512)%nat -> sum_loop n b p (Z.of_nat i) (u32 acc) = Ok (u32 (acc + sum_list (drop i (masked h)))).
Proof.
  intros Hr Hl Hp He. induction n as [|n IH]; intros i acc Hi.
  { rewrite drop_ge by (rewrite masked_length; lia). simpl. unfold mret, res_ret. do 2 f_equal. lia. }
  destruct (lookup_lt_is_Some_2 (masked h) i) as [c Hc]; [rewrite masked_length; lia|]. rewrite (drop_S _ _ _ Hc). simpl sum_list.
  rewrite (masked_lookup h i Hl) in Hc by lia. cbn [sum_loop]. replace (Z.of_nat i + 1) with (Z.of_nat (S i)) by lia.
  assert (h !! i = Some c -> ld b (u32 (p + Z.of_nat i)) = Ok c) as Hld.
  { intros Hx. pose proof (reads_drop _ _ _ i Hr ltac:(lia)) as Hd. rewrite (drop_S _ _ _ Hx) in Hd. rewrite u32_small by lia. exact (ld_reads _ _ _ _ Hd). }
  replace (acc + (c + sum_list (drop (S i) (masked h)))) with (acc + c + sum_list (drop (S i) (masked h))) by lia.
  destruct (Nat.leb_spec 148 i); [destruct (Nat.ltb_spec i 156)|]; simpl in Hc; zdecide; cbn [andb].
  - injection Hc as <-. by rewrite u32_add_u32, IH by lia.
  - by rewrite Hld, res_bind_ok, u32_add_u32, IH by (done || lia).
  - by rewrite Hld, res_bind_ok, u32_add_u32, IH by (done || lia).
Qed.

Lemma upto0_length l : (length (upto0 l) <= length l)%nat.
Proof. induction l as [|c l IH]; simpl; [lia|]. destruct (c =? 0); simpl; lia. Qed.

Lemma ld_nth b p l k : reads b p l -> (k < length l)%nat -> 0 <= p -> p + zlen l < 4294967296 -> ld b (u32 (p + Z.of_nat k)) = Ok (nth k l 0).
Proof.
  intros Hr Hk Hp He. rewrite u32_small by lia. pose proof (reads_drop _ _ _ k Hr ltac:(lia)) as Hd.
  destruct (lookup_lt_is_Some_2 l k Hk) as [c Hc]. rewrite (drop_S _ _ _ Hc) in Hd. rewrite (ld_reads _ _ _ _ Hd). f_equal. symmetry.
  rewrite nth_lookup, Hc. done.
Qed.

Lemma field_copy b p h off n : reads b p h -> (off + n <= length h)%nat -> 0 <= p -> p + zlen h < 4294967296 ->
  copy_chars n b (p + Z.of_nat off) = Ok (upto0 (field off n h)).
Proof.
  intros Hr Hn Hp He. apply copy_chars_ok; [apply reads_drop; [done|lia] | rewrite length_drop; lia | lia | rewrite length_drop; lia].
Qed.

Lemma field_octal b p h off n : reads b p h -> (off + n <= length h)%nat -> 0 <= p -> p + zlen h < 4294967296 ->
  tar_parse_octal b (u32 (p + Z.of_nat off)) (Z.of_nat n) = Ok (h_octal off n h).
Proof.
  intros Hr Hn Hp He. unfold tar_parse_octal. rewrite Nat2Z.id, u32_small by lia.
  apply octal_loop_ok; [apply reads_drop; [done|lia] | rewrite length_drop; lia | lia | rewrite length_drop; lia].
Qed.

Lemma tar_name_ok b p h : reads b p h -> (512 <= length h)%nat -> 0 <= p -> p + zlen h < 4294967296 -> tar_name b p = Ok (h_name h).
Proof.
  intros Hr Hl Hp He. unfold tar_name, h_name, str_copy_n. change (p + 345) with (p + Z.of_nat 345). rewrite (ld_nth b p h 345), res_bind_ok by (done || lia).
  pose proof (field_copy b p h 345 155 Hr ltac:(lia) Hp He) as Hpre. pose proof (fun n H => field_copy b p h 0 n Hr H Hp He) as Hname.
  rewrite Z.add_0_r in Hname. destruct (lookup_lt_is_Some_2 h 345) as [c Hc]; [lia|]. rewrite nth_lookup, Hc. simpl default.
  assert (field 345 155 h = c :: field 346 154 h) as Ef by (unfold field; by rewrite (drop_S _ _ _ Hc)).
  pose proof (upto0_length (field 345 155 h)) as Hu. rewrite (field_length 345 155 h) in Hu by lia. destruct (Z.eqb_spec c 0) as [->|Hc0]; cbn [negb].
  - rewrite Ef. simpl upto0. apply (Hname 100%nat). lia.
  - rewrite u32_small by lia. change (Z.to_nat (Z.min (256 - 1) 155)) with 155%nat. rewrite Hpre, res_bind_ok.
    set (pre := upto0 (field 345 155 h)) in *. rewrite (proj2 (Z.ltb_lt _ _)) by lia. rewrite length_app. simpl length.
    replace (Z.to_nat _) with (Nat.min (254 - length pre) 100) by lia. rewrite Hname, res_bind_ok by lia.
    assert (exists x q, pre = x :: q) as (x & q & Ep) by (unfold pre; rewrite Ef; simpl; rewrite (proj2 (Z.eqb_neq c 0)) by done; eauto).
    by rewrite Ep, <- app_assoc.
Qed.

Lemma land_round n : 0 <= n < 4294967296 -> Z.land n (u32 (Z.lnot (TAR_BLOCK - 1))) = n / 512 * 512.
Proof.
  intros Hn. rewrite land_u32_lnot by done. change (TAR_BLOCK - 1) with (Z.ones 9). rewrite <- Z.ldiff_land, Z.ldiff_ones_r, Z.shiftl_mul_pow2, Z.shiftr_div_pow2 by lia. done.
Qed.

Lemma round512_bound n : 0 <= n -> n <= round512 n < n + 512.
Proof. intros Hn. unfold round512. pose proof (Z.div_mod (n + 511) 512 ltac:(lia)). pose proof (Z.mod_pos_bound (n + 511) 512 ltac:(lia)). lia. Qed.

Lemma octal_range l v : 0 <= v < 4294967296 -> 0 <= octal l v < 4294967296.
Proof. revert v. induction l as [|c l IH]; intros v Hv; simpl; [done|]. destruct (_ || _); apply IH; [done | apply u32_range]. Qed.

Lemma bytes_at_eq b p l : reads b p l -> bytes_at b p (zlen l) = l.
Proof.
  intros (H1 & H2 & H3). apply list_eq. intros i. unfold bytes_at. rewrite list_lookup_fmap. destruct (decide (i < length l)%nat) as [Hi|Hi].
  - destruct (lookup_lt_is_Some_2 l i Hi) as [x Hx]. rewrite lookup_seqZ_lt by lia. simpl. rewrite Hx. f_equal. exact (H3 i x Hx).
  - rewrite lookup_seqZ_ge, lookup_ge_None_2 by lia. done.
Qed.

(** ** The loop over the members *)

Lemma size_items_le xs : forall t, (size t <= size (fold_left add_item xs t))%nat.
Proof. induction xs as [|x xs IH]; intros t; simpl; [done|]. etrans; [apply size_item_le | apply IH]. Qed.

Lemma reads_data b p l n : reads b p l -> 0 <= n -> 512 + n <= zlen l -> bytes_at b (p + 512) n = take (Z.to_nat n) (drop 512 l).
Proof.
  intros Hr Hn Hl. pose proof (reads_drop _ _ _ 512 Hr ltac:(lia)) as Hd. rewrite <- (take_drop (Z.to_nat n) (drop 512 l)) in Hd.
  pose proof (bytes_at_eq _ _ _ (reads_prefix _ _ _ _ Hd)) as E. rewrite length_take, length_drop in E. rewrite <- E. f_equal; lia.
Qed.

(** The item of the member whose header is [h]. *)
Lemma item_of_header name tf data :
  let '(n, slash) := strip_slash (strip_dot name) in
  Item (parts n) ((if (slash : bool) then 53 else if tf =? 0 then 48 else tf) =? 53) data = name_item name tf data.
Proof.
  unfold name_item. destruct (strip_slash (strip_dot name)) as [n slash]. destruct slash; [done|]. destruct (Z.eqb_spec tf 0) as [->|]; done.
Qed.

(** What the loop reads of a header. *)
Lemma header_reads b p h : reads b p h -> (512 <= length h)%nat -> 0 <= p -> p + zlen h < 4294967296 ->
  tar_is_zero_block b p = Ok (forallb (fun c => c =? 0) (field 0 512 h)) /\ tar_name b p = Ok (h_name h) /\
  tar_parse_octal b (u32 (p + 124)) 12 = Ok (h_octal 124 12 h) /\ ld b (u32 (p + 156)) = Ok (h_type h) /\
  tar_parse_octal b (u32 (p + 148)) 8 = Ok (h_octal 148 8 h) /\ sum_loop 512 b p 0 0 = Ok (h_sum h).
Proof.
  intros Hr Hl Hp He. split_and!.
  - apply zero_loop_ok; (done || unfold TAR_BLOCK; lia).
  - by apply tar_name_ok.
  - apply (field_octal b p h 124 12 Hr); lia.
  - apply (ld_nth b p h 156 Hr); lia.
  - apply (field_octal b p h 148 8 Hr); lia.
  - pose proof (sum_loop_ok b p h Hr Hl Hp He 512 0 0 eq_refl) as E. by rewrite drop_0, Z.add_0_l, masked_sum in E.
Qed.

Lemma advance_eq n : 0 <= n <= TAR_MAX_SIZE ->
  u32 (TAR_BLOCK + Z.land (u32 (n + (TAR_BLOCK - 1))) (u32 (Z.lnot (TAR_BLOCK - 1)))) = 512 + round512 n.
Proof.
  unfold TAR_MAX_SIZE. intros Hn. pose proof (round512_bound n ltac:(lia)). rewrite land_round by apply u32_range.
  rewrite (u32_small (n + _)) by (unfold TAR_BLOCK; lia). apply (u32_small (512 + round512 n)). lia.
Qed.

Section loop.
Context (b : buf) (location end_ : Z).
Hypothesis Hloc : 0 <= location.
Hypothesis Hend : end_ + 268436480 < 4294967296.

(** The state after the members that [o] says. *)
Definition loop_post (s : initrd) (mem : answers) (o : option (list item)) (r : res (option Z * initrd * answers)) : Prop :=
  exists f s' mem', r = Ok (f, s', mem') /\ st_ok (end_ - location) s' mem' /\ i_base s' = location /\ (is_Some f <-> is_Some o) /\
    forall N t xs, o = Some xs -> holds N b s mem t -> Z.of_nat (size (fold_left add_item xs t)) <= N -> holds N b s' mem' (fold_left add_item xs t).

Lemma loop_stop s mem files : st_ok (end_ - location) s mem -> i_base s = location -> loop_post s mem (Some []) (Ok (Some files, s, mem)).
Proof. intros Hs Hb. eexists _, _, _. split; [reflexivity|]. split_and!; auto; [split; intros _; eauto|]. intros N t xs [= <-] Ht _. exact Ht. Qed.

Lemma loop_refuse s mem : st_ok (end_ - location) s mem -> i_base s = location -> loop_post s mem None (Ok (None, s, mem)).
Proof. intros Hs Hb. eexists _, _, _. split; [reflexivity|]. by split_and!. Qed.

Lemma tar_loop_ok : forall fuel s mem p l files, reads b p l -> p + zlen l = end_ -> location <= p -> (length l < fuel)%nat ->
  st_ok (end_ - location) s mem -> i_base s = location -> loop_post s mem (members fuel l) (tar_loop fuel s mem b location p end_ files).
Proof.
  induction fuel as [|fuel IH]; intros s mem p l files Hr He Hp Hf Hs Hb; [lia|]. cbn [tar_loop members].
  rewrite (u32_small (p + TAR_BLOCK)) by (unfold TAR_BLOCK; lia). destruct (Nat.ltb_spec (length l) 512) as [Hl|Hl].
  { rewrite (proj2 (Z.ltb_lt end_ _)) by (unfold TAR_BLOCK; lia). by apply loop_stop. }
  rewrite (proj2 (Z.ltb_ge end_ _)) by (unfold TAR_BLOCK; lia). destruct (header_reads b p l Hr Hl) as (-> & -> & -> & -> & -> & ->); [lia..|].
  rewrite res_bind_ok. destruct (forallb _ _); [by apply loop_stop|]. rewrite !res_bind_ok.
  set (size := h_octal 124 12 l). assert (0 <= size < 4294967296) as Hsz by (apply octal_range; lia).
  destruct (Z.ltb_spec TAR_MAX_SIZE size) as [|Hmax]; [by apply loop_refuse|]. rewrite advance_eq by lia. pose proof (round512_bound size ltac:(lia)) as Hrd.
  unfold TAR_MAX_SIZE in Hmax. rewrite (u32_small (p + (512 + _))) by lia.
  destruct (Z.ltb_spec (zlen l) (512 + round512 size)) as [Hx|Hx]; [rewrite (proj2 (Z.ltb_lt end_ _)) by lia; by apply loop_refuse|].
  rewrite (proj2 (Z.ltb_ge end_ _)) by lia. rewrite ?res_bind_ok. destruct (negb _); [by apply loop_refuse|].
  pose proof (item_of_header (h_name l) (h_type l) (take (Z.to_nat size) (drop 512 l))) as Hit. destruct (strip_slash _) as [name slash].
  rewrite (u32_small (_ - location)) by (unfold TAR_BLOCK; lia).
  set (tf := if slash then 53 else _) in *. rewrite <- Hit. clear Hit.
  destruct (add_member_ok (end_ - location) s mem name tf (p + TAR_BLOCK - location) size files Hs) as (files' & s1 & mem1 & -> & Hs1 & Hb1 & HN);
    [unfold TAR_BLOCK; lia..|]. rewrite res_bind_ok. set (adv := 512 + round512 size) in *.
  destruct (IH s1 mem1 (p + adv) (drop (Z.to_nat adv) l) files') as (f & s2 & mem2 & E & Hs2 & Hb2 & Hiff & HN2).
  { replace adv with (Z.of_nat (Z.to_nat adv)) at 1 by lia. apply reads_drop; [done | lia]. }
  1-3: rewrite ?length_drop; lia. 1: done. 1: congruence.
  exists f, s2, mem2. split; [exact E|]. split; [done|]. split; [done|]. destruct (members fuel _) as [xs|] eqn:Em; simpl; [|split; [done | done]].
  split; [rewrite Hiff; split; intros _; eauto|]. intros N t ys [= <-] Ht HS. simpl in HS |- *. apply (HN2 N _ xs); [done| |done].
  specialize (HN N b t Ht). rewrite Hb in HN. replace (location + (p + TAR_BLOCK - location)) with (p + 512) in HN by (unfold TAR_BLOCK; lia).
  rewrite (reads_data b p l size Hr) in HN by lia. apply HN. etrans; [|exact HS]. apply inj_le, size_items_le.
Qed.
End loop.

(** ** [initrd_init] on an archive *)

(** The tree of the members of an archive. *)
Definition tree_of (xs : list item) : itree := fold_left add_item xs {[ [] := IDir ]}.

(** The nodes are those of the table [i_entries], for the archive at [i_base] in [b]. *)
Record ready (b : buf) (l : list Z) (s : initrd) : Prop := Ready {
  rd_cap : cap_ok s;
  rd_table : table_ok (zlen l) (i_entries s);
  rd_nodes : i_nodes s = imap finalize_node (i_entries s);
  rd_reads : reads b (i_base s) l;
  rd_place : 0 <= i_base s /\ i_base s + zlen l < 4294967296
}.

Definition root_entry : entry := Entry [] FS_DIRECTORY 0 0 (-1) (-1) (-1).

Lemma root_table sz : 0 <= sz -> table_ok sz [root_entry].
Proof.
  intros Hz. assert (forall i e, [root_entry] !! i = Some e -> i = O /\ e = root_entry) as H.
  { intros i e [-> <-]%list_lookup_singleton_Some. done. }
  split; [split; [by exists (-1, [])|..]|..]; try (intros i e [-> ->]%H; simpl; auto; lia).
  - intros i k [-> <-]%list_lookup_singleton_Some ?. lia.
  - intros i j k [-> _]%list_lookup_singleton_Some [-> _]%list_lookup_singleton_Some. done.
Qed.

Lemma root_resolve ps : resolve (keys [root_entry]) ps = if bool_decide (ps = []) then 0 else -1.
Proof.
  induction ps as [|p ps IH] using rev_ind; [done|]. rewrite resolve_snoc, IH. rewrite (bool_decide_false (ps ++ [p] = [])) by (by destruct ps).
  case_bool_decide; [|done]. done.
Qed.

Lemma root_only_shows b s : i_entries s = [root_entry] -> shows_tree b s {[ [] := IDir ]}.
Proof.
  intros E. split; [|unfold entry_count; by rewrite E, map_size_singleton]. intros ps. rewrite E, root_resolve. unfold kind_at. rewrite E.
  case_bool_decide as Ep; [subst; by rewrite lookup_singleton_eq | by rewrite lookup_singleton_ne by congruence].
Qed.

Lemma tar_init_ok s mem b location l : cap_ok s -> Forall grant_ok mem -> reads b location l -> 0 <= location ->
  location + zlen l + 268436480 < 4294967296 ->
  exists r s' mem', tar_init s mem b location (zlen l) = Ok (r, s', mem') /\ (r = 0 \/ r = 1 /\ is_Some (tar_members l) /\ ready b l s') /\
    (tar_members l = None -> r = 0) /\
    forall N xs, enough N (i_cap s) mem -> tar_members l = Some xs -> Z.of_nat (size (tree_of xs)) <= N -> r = 1 /\ shows_tree b s' (tree_of xs).
Proof.
  intros [C1 C2 C3 C4] Hm Hr Hloc Hend. unfold tar_init. set (s0 := Initrd location [] [] (i_cap s) (i_room s)). assert (0 <= entry_count s) by (unfold entry_count; lia).
  assert (forall xs N, Z.of_nat (size (tree_of xs)) <= N -> 0 < N) as Hpos.
  { intros xs N HS. pose proof (size_items_le xs {[ [] := IDir ]}) as Hle. rewrite map_size_singleton in Hle. fold (tree_of xs) in Hle. lia. }
  destruct (entry_alloc_ok s0 mem) as (idx & s1 & mem1 & E & Hm1 & Hc1 & Eb & He & HN); [split; simpl; (done || unfold entry_count in *; simpl; lia)|done|].
  change (entry_count s0) with 0 in *. rewrite E, res_bind_ok. destruct He as [[-> El]|[-> El]].
  { eexists _, _, _. split; [reflexivity|]. split_and!; auto. intros N xs Hen Hx HS. destruct (HN N Hen); [by eapply Hpos | unfold ENOMEM in *; lia]. }
  change (i_entries s0 ++ [blank]) with [blank] in El. change (0 <? 0) with false. cbv iota. change (upd_ent s1 0) with (upd_ent s1 (Z.of_nat 0)).
  rewrite (upd_ent_ok s1 0 blank) by (by rewrite El). rewrite res_bind_ok, El. set (s2 := set_entries _ s1). assert (i_entries s2 = [root_entry]) as El2 by done.
  assert (st_ok (zlen l) s2 mem1) as Hs2.
  { split; [|done|rewrite El2; apply root_table; lia|lia]. destruct Hc1 as [D1 D2 D3 D4]. unfold entry_count in *. split; unfold entry_count; simpl; rewrite ?El in *; done. }
  replace (zlen l) with (location + zlen l - location) in Hs2 by lia. rewrite (u32_small (location + zlen l)), Nat2Z.id by lia.
  destruct (tar_loop_ok b location (location + zlen l) Hloc Hend (S (length l)) s2 mem1 location l 0 Hr) as (f & s3 & mem3 & E3 & Hs3 & Hb3 & Hiff & HN3); [lia..|done|done|].
  fold (tar_members l) in *. rewrite E3, res_bind_ok.
  assert (forall N xs, enough N (i_cap s) mem -> tar_members l = Some xs -> Z.of_nat (size (tree_of xs)) <= N -> holds N b s3 mem3 (tree_of xs)) as Hh.
  { intros N xs Hen Hx HS. apply (HN3 N _ xs Hx); [|done]. split; [by apply root_only_shows|]. apply (HN N Hen). by eapply Hpos. }
  destruct f as [files|].
  - eexists _, _, _. split; [reflexivity|]. destruct Hs3 as [D1 D2 D3 D4]. destruct Hiff as [Hsome _]. specialize (Hsome ltac:(eauto)). split_and!.
    + right. split; [done|]. split; [done|]. split; simpl; [destruct D1 as [F1 F2 F3 F4]; split; simpl; auto; by rewrite length_imap | | done | by rewrite Hb3 | rewrite Hb3; lia].
      replace (location + zlen l - location) with (zlen l) in D3 by lia. done.
    + intros Hn. rewrite Hn in Hsome. by destruct Hsome.
    + intros N xs Hen Hx HS. split; [done|]. destruct (Hh N xs Hen Hx HS) as [[Hl Hsz] _]. by split.
  - eexists _, _, _. split; [reflexivity|]. split_and!; auto. intros N xs Hen Hx HS. rewrite Hx in Hiff. destruct Hiff as [_ Hf]. by destruct Hf as [? ?]; [eauto|].
Qed.

(** ** Lookups and reads *)

(** What a path leads to: every directory on the way must be one. *)
Fixpoint walk_tree (look : list cstr -> option ikind) (pre ps : list cstr) : option ikind :=
  match ps with
  | [] => look pre
  | p :: ps => match look pre with Some IDir => walk_tree look (pre ++ [p]) ps | _ => None end
  end.

(** The node [nd] is a directory, or a file whose reads return the bytes of its data. *)
Definition node_shows (f : buf * initrd) (nd : Z) (k : ikind) : Prop :=
  match k with
  | IDir => nd_flags f nd = Ok FS_DIRECTORY
  | IFile data =>
      nd_flags f nd = Ok FS_FILE /\
      exists rd, f_read f nd = Ok (Some rd) /\
        forall off len, 0 <= off -> 0 <= len -> off + len < 4294967296 -> rd off len = Ok (take (Z.to_nat len) (drop (Z.to_nat off) data))
  end.

(** The walk of [vfs_lookup_initrd] over the parts of a path. *)
Fixpoint walk_names (f : buf * initrd) (ps : list cstr) (cur : Z) : res Z :=
  match ps with
  | [] => mret cur
  | part :: ps => if cur =? 0 then mret 0 else cur ← step_into f cur part; if cur =? 0 then mret 0 else walk_names f ps cur
  end.

Lemma walk_initrd_names f : forall fuel p cur, (length p < fuel)%nat -> (p = [] \/ exists c q, p = c :: q /\ c <> SLASH) ->
  walk_initrd fuel f p cur = walk_names f (parts p) cur.
Proof.
  induction fuel as [|fuel IH]; intros p cur Hl Hp; [lia|]. destruct Hp as [->|(c & q & -> & Hc)]; [done|].
  destruct (parts_cons c q Hc) as (x & a' & Ea & -> & Hlen). cbn [walk_initrd walk_names]. destruct (span_part (c :: q)) as [a r]. simpl fst in *. simpl snd in *.
  rewrite Ea. destruct (cur =? 0); [done|]. apply res_bind_ext. intros d. destruct (d =? 0); [done|]. apply IH; [simpl in *; lia | apply skip_slashes_head].
Qed.

Lemma lookup_initrd_names (v : vfs (buf * initrd)) path : v_initrd v <> 0 -> vfs_lookup_initrd v path = walk_names (v_fs v) (parts path) (v_initrd v).
Proof.
  intros Hv. unfold vfs_lookup_initrd. rewrite (proj2 (Z.eqb_neq _ _)) by done. rewrite <- (skip_slashes_parts path).
  pose proof (skip_slashes_head path) as Hh. destruct (skip_slashes path) as [|c q]; [done|]. apply walk_initrd_names; [lia | done].
Qed.

Section nodes.
Context (b : buf) (l : list Z) (s : initrd).
Hypothesis Hrd : ready b l s.

Notation look := (fun ps => kind_at b s (at_path s ps)).

Lemma fnode_ok i e : i_entries s !! i = Some e -> fnode_at s (Z.of_nat i + 1) = Ok (finalize_node i e) /\ Z.of_nat i < 2147483648 /\ Z.of_nat i < entry_count s.
Proof.
  intros He. pose proof (lookup_lt_Some _ _ _ He). destruct (rd_cap _ _ _ Hrd) as [C1 C2 C3 _]. unfold SIZEOF_NODE, BUDDY_HEAP_SIZE, HDR_SIZE, entry_count in *.
  split_and!; [|lia|lia]. unfold fnode_at. zdecide. rewrite (rd_nodes _ _ _ Hrd), Z.add_simpl_r, Nat2Z.id, list_lookup_imap, He. done.
Qed.

Lemma step_ok i e name : i_entries s !! i = Some e ->
  step_into (b, s) (Z.of_nat i + 1) name =
    Ok (if e_flags e =? FS_DIRECTORY then seek (keys (i_entries s)) (Z.of_nat i) name + 1 else 0).
Proof.
  intros He. destruct (fnode_ok i e He) as (Hn & Hi & Hc). unfold step_into. simpl. rewrite Hn, res_bind_ok.
  pose proof (tb_kind _ _ (rd_table _ _ _ Hrd) _ _ He) as Hk. unfold finalize_node at 1. simpl fn_ops. destruct Hk as [-> | ->]; [|done]. simpl.
  unfold initrd_finddir. zdecide. rewrite Hn, res_bind_ok. simpl fn_inode. rewrite s32_small by lia. zdecide. simpl.
  rewrite (entry_find_child_ok (zlen l)), res_bind_ok by (apply Hrd || lia). bdestr; [|done]. do 2 f_equal. lia.
Qed.

Lemma kind_ok i e : i_entries s !! i = Some e -> node_shows (b, s) (Z.of_nat i + 1) (kind_of b (i_base s) e).
Proof.
  intros He. destruct (fnode_ok i e He) as (Hn & Hi & Hc). pose proof (tb_kind _ _ (rd_table _ _ _ Hrd) _ _ He) as Hk.
  pose proof (tb_data _ _ (rd_table _ _ _ Hrd) _ _ He) as (H1 & H2 & H3). unfold kind_of. destruct Hk as [Ek|Ek]; rewrite Ek; simpl; rewrite Hn, res_bind_ok; simpl.
  { by rewrite Ek. }
  rewrite Ek. split; [done|]. eexists. split; [reflexivity|]. intros off len Ho Hlen Hw. unfold initrd_read_impl. zdecide. rewrite Hn, res_bind_ok. simpl fn_inode.
  rewrite s32_small by lia. zdecide. cbn [orb]. rewrite (ent_ok _ _ _ He), res_bind_ok, Ek. cbn [FS_FILE]. change (Z.land 1 1 =? 0) with false. cbv iota.
  destruct (rd_place _ _ _ Hrd) as [P1 P2]. destruct (rd_reads _ _ _ Hrd) as (R1 & R2 & _).
  pose proof (bytes_at_reads b (i_base s + e_data_offset e) (e_length e) H2 ltac:(lia) ltac:(lia)) as Hr.
  set (data := bytes_at b (i_base s + e_data_offset e) (e_length e)) in *. assert (zlen data = e_length e) as Hd by (by apply bytes_at_len).
  destruct (Z.ltb_spec (e_length e) off) as [Hoff|Hoff].
  { by rewrite drop_ge, take_nil by lia. }
  rewrite (u32_small (off + len)), (u32_small (i_base s + _)), (u32_small (_ + off)) by lia.
  pose proof (reads_drop _ _ _ (Z.to_nat off) Hr ltac:(lia)) as Hr'. rewrite Z2Nat.id in Hr' by lia. bdestr.
  - rewrite u32_small, (copy_out_ok b _ _ _ Hr') by (rewrite ?length_drop; lia). rewrite !take_ge by (rewrite length_drop; lia). done.
  - rewrite (copy_out_ok b _ _ _ Hr') by (rewrite ?length_drop; lia). done.
Qed.

Lemma walk_names_ok ps : forall pre, 0 <= at_path s pre ->
  exists nd, walk_names (b, s) ps (at_path s pre + 1) = Ok nd /\
    match walk_tree look pre ps with None => nd = 0 | Some k => nd = at_path s (pre ++ ps) + 1 /\ 0 <= at_path s (pre ++ ps) /\ node_shows (b, s) nd k end.
Proof.
  induction ps as [|p ps IH]; intros pre Hp; pose proof (resolve_range _ pre (tb_keys _ _ (rd_table _ _ _ Hrd))) as R; rewrite keys_length in R;
    destruct (lookup_lt_is_Some_2 (i_entries s) (Z.to_nat (at_path s pre))) as [e He]; try lia; simpl; unfold kind_at at 1; zdecide; rewrite He; simpl.
  - eexists. split; [reflexivity|]. rewrite app_nil_r. split; [done|]. split; [done|]. pose proof (kind_ok _ _ He) as Hk. by rewrite Z2Nat.id in Hk by lia.
  - pose proof (step_ok _ _ p He) as Es. rewrite Z2Nat.id in Es by lia. rewrite Es, res_bind_ok.
    unfold kind_of at 1. destruct (tb_kind _ _ (rd_table _ _ _ Hrd) _ _ He) as [-> | ->]; simpl; [|by exists 0].
    assert (seek (keys (i_entries s)) (at_path s pre) p = at_path s (pre ++ [p])) as -> by (rewrite resolve_snoc; by zdecide).
    destruct (Z.eqb_spec (at_path s (pre ++ [p]) + 1) 0) as [E0|E0].
    + exists 0. split; [done|]. destruct ps as [|p' ps]; simpl; unfold kind_at at 1; zdecide; done.
    + pose proof (resolve_range _ (pre ++ [p]) (tb_keys _ _ (rd_table _ _ _ Hrd))) as R'. destruct (IH (pre ++ [p])) as (nd & E & Hm); [lia|].
      exists nd. split; [done|]. by rewrite <- app_assoc in Hm.
Qed.
End nodes.

(** ** Directories *)

(** The entries below [n] whose parent is [j], the last one first. *)
Fixpoint children (ks : list key) (j : Z) (n : nat) : list Z :=
  match n with
  | O => []
  | S n =>
      match ks !! n with
      | Some k => if k.1 =? j then Z.of_nat n :: children ks j n else children ks j n
      | None => children ks j n
      end
  end.

(** What reading the directory [i] lists. *)
Definition listing (s : initrd) (i : Z) (e : entry) : list vfs_dirent :=
  Dirent i DIRENT_SIZE FS_DIRECTORY [46] ::
  Dirent (if 0 <=? e_parent e then e_parent e else i) DIRENT_SIZE FS_DIRECTORY [46; 46] ::
  omap (fun c => (fun x => Dirent c DIRENT_SIZE (e_flags x) (strtrunc 24 (e_name x))) <$> i_entries s !! Z.to_nat c)
    (children (keys (i_entries s)) i (length (i_entries s))).

Lemma children_spec ks j n c : c ∈ children ks j n <-> exists i k, c = Z.of_nat i /\ (i < n)%nat /\ ks !! i = Some k /\ k.1 = j.
Proof.
  induction n as [|n IH]; simpl; [rewrite elem_of_nil; split; [done | intros (? & ? & ? & ? & ?); lia]|].
  assert ((exists i k, c = Z.of_nat i /\ (i < S n)%nat /\ ks !! i = Some k /\ k.1 = j) <->
    (exists k, c = Z.of_nat n /\ ks !! n = Some k /\ k.1 = j) \/ c ∈ children ks j n) as ->.
  { rewrite IH. split.
    - intros (i & k & -> & Hi & Hk & Hj). destruct (decide (i = n)) as [->|]; [left; eauto | right; exists i, k; eauto with lia].
    - intros [(k & -> & Hk & Hj)|(i & k & -> & Hi & Hk & Hj)]; [exists n, k | exists i, k]; eauto with lia. }
  destruct (ks !! n) as [k|] eqn:Ek; [destruct (Z.eqb_spec k.1 j)|]; rewrite ?elem_of_cons; naive_solver.
Qed.

Lemma children_nodup ks j n : NoDup (children ks j n).
Proof.
  induction n as [|n IH]; simpl; [constructor|]. destruct (ks !! n) as [k|]; [destruct (k.1 =? j)|]; [|done|done].
  constructor; [|done]. rewrite children_spec. intros (i & ? & ? & ? & _). lia.
Qed.

Lemma skip_entries_ok sz s j : table_ok sz (i_entries s) -> forall n fuel k, (n < fuel)%nat -> (n <= length (i_entries s))%nat -> 0 <= k ->
  skip_entries fuel s (last_child (keys (i_entries s)) j n) k = Ok (default (-1) (children (keys (i_entries s)) j n !! Z.to_nat k)).
Proof.
  intros Ht. unfold last_child. induction n as [|n IH]; intros [|fuel] k Hf Hn Hk; try lia; [done|]. cbn [last_ix children].
  destruct (lookup_lt_is_Some_2 (i_entries s) n) as [e He]; [lia|]. rewrite (keys_lookup _ _ _ He). simpl fst.
  destruct (Z.eqb_spec (e_parent e) j) as [<-|Hj]; [|apply IH; lia]. cbn [skip_entries]. zdecide. cbn [orb]. destruct (Z.ltb_spec 0 k); simpl.
  - rewrite (ent_ok _ _ _ He), res_bind_ok, (tb_next _ _ Ht _ _ He). replace (Z.to_nat k) with (S (Z.to_nat (k - 1))) by lia. apply IH; lia.
  - by replace k with 0 by lia.
Qed.

Section dirs.
Context (b : buf) (l : list Z) (s : initrd).
Hypothesis Hrd : ready b l s.

Lemma dirent_ok i e idx : i_entries s !! i = Some e -> 0 <= idx -> initrd_dirent s (Z.of_nat i) (Z.of_nat i) idx = Ok (listing s (Z.of_nat i) e !! Z.to_nat idx).
Proof.
  intros He Hi. pose proof (rd_table _ _ _ Hrd) as Ht. unfold initrd_dirent. rewrite (ent_ok _ _ _ He), res_bind_ok. unfold listing.
  destruct (Z.eqb_spec idx 0) as [->|]; [done|]. destruct (Z.eqb_spec idx 1) as [->|].
  { simpl. destruct (Z.leb_spec 0 (e_parent e)); [|done]. destruct (decide (i = O)) as [->|].
    - destruct (ko_root _ (tb_keys _ _ Ht)) as (r & Hr & Er). rewrite (keys_lookup _ _ _ He) in Hr. injection Hr as <-. simpl in Er. lia.
    - pose proof (ko_parent _ (tb_keys _ _ Ht) _ _ (keys_lookup _ _ _ He) ltac:(lia)) as Hp. simpl in Hp. destruct (fnode_ok b l s Hrd i e He). by rewrite u32_small by lia. }
  rewrite (tb_first _ _ Ht _ _ He), (skip_entries_ok (zlen l) s _ Ht), res_bind_ok by (unfold chain_fuel; lia).
  replace (Z.to_nat idx) with (S (S (Z.to_nat (idx - 2)))) by lia. cbn [lookup list_lookup].
  set (cs := children _ _ _). assert (Forall (fun c => exists k x, c = Z.of_nat k /\ i_entries s !! k = Some x) cs) as Hcs.
  { apply Forall_forall. intros c (k & y & -> & Hk & Hy & _)%children_spec. unfold keys in Hy. apply list_lookup_fmap_Some in Hy as (x & _ & Hx). eauto. }
  clearbody cs. generalize (Z.to_nat (idx - 2)). induction Hcs as [|c cs (k & x & -> & Hx) _ IH]; intros m; [by destruct m|].
  cbn [omap list_omap]. rewrite Nat2Z.id, Hx. cbn [fmap option_fmap option_map]. destruct m as [|m]; [|exact (IH m)]. simpl. zdecide.
  destruct (fnode_ok b l s Hrd k x Hx) as (_ & ? & ?). rewrite (ent_ok _ _ _ Hx), res_bind_ok, u32_small by lia. destruct (tb_kind _ _ Ht _ _ Hx) as [-> | ->]; done.
Qed.

Lemma initrd_fill_ok i e : i_entries s !! i = Some e -> forall cap idx, 0 <= idx -> idx + Z.of_nat cap < 4294967296 ->
  initrd_fill cap s (Z.of_nat i) (Z.of_nat i) idx =
    Ok (take cap (drop (Z.to_nat idx) (listing s (Z.of_nat i) e)), idx + zlen (take cap (drop (Z.to_nat idx) (listing s (Z.of_nat i) e)))).
Proof.
  intros He. induction cap as [|cap IH]; intros idx Hi Hc; [simpl; unfold mret, res_ret; do 2 f_equal; lia|].
  cbn [initrd_fill]. rewrite (dirent_ok i e) by done. rewrite res_bind_ok. set (L := listing s (Z.of_nat i) e) in *.
  destruct (L !! Z.to_nat idx) as [x|] eqn:Ex.
  - rewrite u32_small, IH, res_bind_ok, (drop_S _ _ _ Ex) by lia. replace (Z.to_nat (idx + 1)) with (S (Z.to_nat idx)) by lia.
    simpl. unfold mret, res_ret. do 2 f_equal. lia.
  - apply lookup_ge_None in Ex. rewrite drop_ge, take_nil by lia. simpl. unfold mret, res_ret. do 2 f_equal. lia.
Qed.
End dirs.
