(* ===== verification/InitrdTheorems.v ===== *)
(** The theorems about the initial RAM disk: an image that keeps clear of the end of the
    address space is read safely, and one made of an archive, compressed or not, shows the
    files of the archive.  Before them, the pages for the decompressed archive, the images,
    and an encoder for archives; after them, the images that break the kernel. *)

From S2P Require Import Prelude Heap Kstack Lz4 Lz4Spec Lz4Frame Lz4Theorems Tmpfs TmpfsSpec TmpfsOps TmpfsSim Vfs VfsTmpfs Initrd InitrdSpec InitrdTar.

(** ** Pages *)

(** What [initrd_alloc_pages] relies on: the frames in use and the pages mapped change as
    the calls say.  Mapping a page may take frames for page tables, and does nothing when
    there is none left. *)
Class PageLaws (W : Type) `{PageOps W} : Type := {
  used : W -> gset Z;
  mapped : W -> gmap Z Z;
  law_alloc w : exists p w', pmm_alloc_page w = Ok (p, w') /\ mapped w' = mapped w /\
    (p = 0 /\ used w' = used w \/ p <> 0 /\ p ∉ used w /\ used w' = {[p]} ∪ used w);
  law_memset w p n : p ∈ used w -> exists w', memset w p 0 n = Ok w' /\ used w' = used w /\ mapped w' = mapped w;
  law_map w p va fl : exists w', vmm_map_page w p va fl = Ok w' /\ used w ⊆ used w' /\ (mapped w' = <[va := p]> (mapped w) \/ mapped w' = mapped w);
  law_unmap w va : exists w', vmm_unmap_page w va = Ok w' /\ used w' = used w /\ mapped w' = delete va (mapped w);
  law_phys w va : vmm_virt_to_phys w va = Ok (default 0 (mapped w !! va));
  law_free w p : p ∈ used w -> exists w', pmm_free_blocks w p 1 = Ok w' /\ used w' = used w ∖ {[p]} /\ mapped w' = mapped w
}.

Lemma npages_bound size : 0 <= size -> size + 4096 <= 4294967296 -> size <= npages size * 4096 < size + 4096 /\ 0 <= npages size.
Proof.
  intros H1 H2. unfold npages. rewrite u32_small by lia.
  pose proof (Z.div_mod (size + 4096 - 1) 4096 ltac:(lia)). pose proof (Z.mod_pos_bound (size + 4096 - 1) 4096 ltac:(lia)). lia.
Qed.

(** The pages for [size] bytes, zeroed. *)
Definition pages_of (size : Z) : buf := Buf INITRD_DECOMP_BASE (arr_new (npages size * 4096) 0).

Section pages.
Context {W : Type} `{PageLaws W}.

Definition page (i : Z) : Z := INITRD_DECOMP_BASE + i * 4096.

Lemma page_inj j k : page j = page k -> j = k.
Proof. unfold page. lia. Qed.

(** The window from page [lo] to page [hi] holds frames of its own, and nothing else differs
    from [m]. *)
Record took (m : gmap Z Z) (lo hi : Z) (w : W) : Prop := Took {
  tk_else va : (forall k, lo <= k < hi -> va <> page k) -> mapped w !! va = m !! va;
  tk_used k p : lo <= k < hi -> mapped w !! page k = Some p -> p <> 0 /\ p ∈ used w;
  tk_inj j k p : lo <= j < hi -> lo <= k < hi -> mapped w !! page j = Some p -> mapped w !! page k = Some p -> j = k
}.

Lemma took_done m lo w : took m lo lo w -> mapped w = m.
Proof. intros [H1 _ _]. apply map_eq. intros va. apply H1. lia. Qed.

Lemma give_back_step m lo hi w : took m lo hi w -> 0 <= lo < hi -> page hi <= 4294967296 -> m !! page lo = None ->
  exists p w1 w2, vmm_virt_to_phys w (page lo) = Ok p /\ vmm_unmap_page w (page lo) = Ok w1 /\
    (if negb (p =? 0) then pmm_free_blocks w1 p 1 else mret w1) = Ok w2 /\ took m (lo + 1) hi w2 /\
    used w2 ⊆ used w /\ (forall q, mapped w !! page lo = Some q -> q ∉ used w2) /\ (forall k, lo < k -> mapped w2 !! page k = mapped w !! page k).
Proof.
  intros [T1 T2 T3] Hlo Hhi Hm. destruct (law_unmap w (page lo)) as (w1 & E1 & U1 & M1).
  assert (exists w2, (if negb (default 0 (mapped w !! page lo) =? 0) then pmm_free_blocks w1 (default 0 (mapped w !! page lo)) 1 else mret w1) = Ok w2 /\
    used w2 = match mapped w !! page lo with Some p => used w ∖ {[p]} | None => used w end /\ mapped w2 = mapped w1) as (w2 & E2 & U2 & M2).
  { destruct (mapped w !! page lo) as [p|] eqn:Ep; simpl; [|by exists w1]. destruct (T2 lo p ltac:(lia) Ep) as [Hz Hu]. rewrite (proj2 (Z.eqb_neq _ _) Hz). simpl.
    destruct (law_free w1 p) as (w2 & -> & U2 & M2); [by rewrite U1|]. exists w2. by rewrite U2, U1. }
  assert (forall k, lo < k -> mapped w2 !! page k = mapped w !! page k) as Hk.
  { intros k Hk. rewrite M2, M1, lookup_delete_ne; [done|]. intros E%page_inj. lia. }
  exists (default 0 (mapped w !! page lo)), w1, w2. split_and!; [apply law_phys | done | exact E2 | | | | exact Hk].
  - split.
    + intros va Hva. rewrite M2, M1. destruct (decide (va = page lo)) as [->|Hne]; [by rewrite lookup_delete_eq|]. rewrite lookup_delete_ne by done.
      apply T1. intros k Hk' ->. destruct (decide (k = lo)) as [->|]; [done|]. by apply (Hva k); [lia|].
    + intros k p Hk'. rewrite Hk by lia. intros E. destruct (T2 k p ltac:(lia) E) as [Hz Hu]. split; [done|]. rewrite U2. destruct (mapped w !! page lo) as [q|] eqn:Eq; [|done].
      apply elem_of_difference. split; [done|]. intros ->%elem_of_singleton. pose proof (T3 k lo q ltac:(lia) ltac:(lia) E Eq). lia.
    + intros j k p Hj Hk'. rewrite !Hk by lia. apply T3; lia.
  - rewrite U2. destruct (mapped w !! page lo); set_solver.
  - intros q Eq. rewrite U2, Eq. set_solver.
Qed.

(** The rollback empties the window and gives the frames in it back. *)
Lemma give_back_ok m : forall n w lo, took m lo (lo + Z.of_nat n) w -> 0 <= lo -> page (lo + Z.of_nat n) <= 4294967296 ->
  (forall k, lo <= k < lo + Z.of_nat n -> m !! page k = None) ->
  exists w', give_back n w lo = Ok w' /\ mapped w' = m /\ used w' ⊆ used w /\
    forall k p, lo <= k < lo + Z.of_nat n -> mapped w !! page k = Some p -> p ∉ used w'.
Proof.
  induction n as [|n IH]; intros w lo Ht Hlo Hp Hm; cbn [give_back].
  { exists w. rewrite Z.add_0_r in Ht. split_and!; [done | by apply (took_done m lo) | done | lia]. }
  destruct (give_back_step m lo _ w Ht ltac:(lia) Hp (Hm lo ltac:(lia))) as (p & w1 & w2 & E0 & E1 & E2 & T2 & U2 & F2 & K2).
  rewrite (u32_small (lo * 4096)), u32_small by (unfold page, INITRD_DECOMP_BASE in *; lia). fold (page lo). rewrite E0, res_bind_ok, E1, res_bind_ok, E2, res_bind_ok.
  replace (lo + Z.of_nat (S n)) with (lo + 1 + Z.of_nat n) in * by lia.
  destruct (IH w2 (lo + 1) T2 ltac:(lia) Hp) as (w' & E & M & U & F); [intros k Hk; apply Hm; lia|]. exists w'. split_and!; [done | done | set_solver|].
  intros k q Hk Eq. destruct (decide (k = lo)) as [->|]; [intros Hu; by apply (F2 q Eq), U|]. apply (F k q); [lia|]. by rewrite K2 by lia.
Qed.

Lemma took_more m i w p w1 w2 w3 : took m 0 i w -> 0 <= i -> m !! page i = None -> p <> 0 -> p ∉ used w -> used w1 = {[p]} ∪ used w -> mapped w1 = mapped w ->
  used w2 = used w1 -> mapped w2 = mapped w1 -> used w2 ⊆ used w3 -> mapped w3 = <[page i := p]> (mapped w2) \/ mapped w3 = mapped w2 -> took m 0 (i + 1) w3.
Proof.
  intros [T1 T2 T3] Hi Hm Hz Hp U1 M1 U2 M2 U3 M3. rewrite M2, M1 in M3. assert (mapped w !! page i = None) as Hn.
  { rewrite T1, Hm; [done|]. intros k Hk E%page_inj. lia. }
  assert (forall k, 0 <= k < i -> mapped w3 !! page k = mapped w !! page k) as Hk.
  { intros k Hk. destruct M3 as [-> | ->]; [|done]. rewrite lookup_insert_ne; [done|]. intros E%page_inj. lia. }
  assert (forall q, mapped w3 !! page i = Some q -> q = p) as Hq.
  { intros q. destruct M3 as [-> | ->]; [rewrite lookup_insert_eq; congruence | by rewrite Hn]. }
  split.
  - intros va Hva. rewrite <- (T1 va); [|intros k Hk'; apply Hva; lia]. destruct M3 as [-> | ->]; [|done]. apply lookup_insert_ne. intros <-. by apply (Hva i); [lia|].
  - intros k q Hk' E. destruct (decide (k = i)) as [->|]; [rewrite (Hq q E); set_solver|]. rewrite Hk in E by lia. destruct (T2 k q ltac:(lia) E). set_solver.
  - intros j k q Hj Hk' Ej Ek. destruct (decide (j = i)) as [->|], (decide (k = i)) as [->|]; [done | | |].
    + rewrite (Hq q Ej) in *. rewrite Hk in Ek by lia. by destruct (T2 k p ltac:(lia) Ek).
    + rewrite (Hq q Ek) in *. rewrite Hk in Ej by lia. by destruct (T2 j p ltac:(lia) Ej).
    + rewrite Hk in Ej, Ek by lia. apply (T3 j k q); (done || lia).
Qed.

Lemma take_pages_ok m : forall n w i, took m 0 i w -> 0 <= i -> page (i + Z.of_nat n) <= 4294967296 -> (forall k, 0 <= k < i + Z.of_nat n -> m !! page k = None) ->
  exists r w', take_pages n w (u32 (page i)) i = Ok (r, w') /\
    (r = 0 /\ mapped w' = m \/ r = INITRD_DECOMP_BASE /\ took m 0 (i + Z.of_nat n) w').
Proof.
  induction n as [|n IH]; intros w i Ht Hi Hp Hm; cbn [take_pages].
  { eexists _, w. split; [reflexivity|]. right. by rewrite Z.add_0_r. }
  destruct (law_alloc w) as (p & w1 & -> & M1 & HA). rewrite res_bind_ok. destruct HA as [[-> U1]|(Hp0 & Hpu & U1)].
  - simpl. destruct (give_back_ok m (Z.to_nat i) w1 0) as (w2 & -> & M2 & _); rewrite ?Z2Nat.id by lia; try lia.
    + destruct Ht as [T1 T2 T3]. split; [intros va|intros k p|intros j k p]; rewrite !M1, ?U1; [apply T1|apply T2|apply T3].
    + unfold page in *. lia.
    + intros k Hk. apply Hm. lia.
    + eexists _, _. split; [reflexivity|]. by left.
  - rewrite (proj2 (Z.eqb_neq p 0)) by done. destruct (law_memset w1 p 4096) as (w2 & -> & U2 & M2); [set_solver|]. rewrite res_bind_ok.
    destruct (law_map w2 p (u32 (page i)) 3) as (w3 & -> & U3 & M3). rewrite res_bind_ok. rewrite (u32_small (page i)) in M3 by (unfold page, INITRD_DECOMP_BASE in *; lia).
    replace (u32 (u32 (page i) + 4096)) with (u32 (page (i + 1))) by (unfold u32, page; rewrite Zplus_mod_idemp_l; f_equal; lia).
    replace (i + Z.of_nat (S n)) with (i + 1 + Z.of_nat n) in * by lia.
    apply (IH w3 (i + 1)); [|lia | done | done]. apply (took_more m i w p w1 w2 w3); (done || apply Hm; lia).
Qed.

(** Nothing is mapped where the pages for [size] bytes go. *)
Definition window_free (w : W) (size : Z) : Prop := forall k, 0 <= k < npages size -> mapped w !! page k = None.

Lemma alloc_pages_ok w size : 0 <= size -> INITRD_DECOMP_BASE + size + 4096 <= 4294967296 -> window_free w size ->
  exists r w', initrd_alloc_pages w size = Ok (r, w') /\
    (r = 0 /\ mapped w' = mapped w \/ r = INITRD_DECOMP_BASE /\ took (mapped w) 0 (npages size) w').
Proof.
  intros Hs Hb Hw. unfold initrd_alloc_pages. pose proof (npages_bound size Hs ltac:(unfold INITRD_DECOMP_BASE in *; lia)) as Hn.
  destruct (take_pages_ok (mapped w) (Z.to_nat (npages size)) w 0) as (r & w' & E & Hr); rewrite ?Z2Nat.id by lia.
  - split; [done|lia..].
  - done.
  - unfold page, INITRD_DECOMP_BASE in *. lia.
  - exact Hw.
  - rewrite Z2Nat.id in Hr by lia. exists r, w'. split; [exact E|exact Hr].
Qed.

(** Every page for [size] bytes is mapped. *)
Definition window_backed (w : W) (size : Z) : Prop := forall k, 0 <= k < npages size -> is_Some (mapped w !! page k).

Lemma backed_ok m hi w : took m 0 hi w -> page hi <= 4294967296 -> forall n i, 0 <= i -> i + Z.of_nat n = hi ->
  (forall k, i <= k < hi -> is_Some (mapped w !! page k)) -> backed n w i = Ok hi.
Proof.
  intros Ht Hhi. induction n as [|n IH]; intros i Hi En Hk; cbn [backed]; [by replace i with hi by lia|].
  rewrite (u32_small (i * 4096)), u32_small by (unfold page, INITRD_DECOMP_BASE in *; lia). fold (page i). rewrite law_phys, res_bind_ok.
  destruct (Hk i ltac:(lia)) as [p Ep]. destruct (tk_used _ _ _ _ Ht i p ltac:(lia) Ep) as [Hz _]. rewrite Ep. simpl. rewrite (proj2 (Z.eqb_neq _ _) Hz).
  apply IH; [lia|lia|]. intros k ?. apply Hk. lia.
Qed.

Lemma region_ok m w size : took m 0 (npages size) w -> 0 <= size -> INITRD_DECOMP_BASE + size + 4096 <= 4294967296 -> window_backed w size ->
  region w INITRD_DECOMP_BASE size = Ok (pages_of size).
Proof.
  intros Ht Hs Hb Hw. unfold region. pose proof (npages_bound size Hs ltac:(unfold INITRD_DECOMP_BASE in *; lia)) as Hn.
  rewrite (backed_ok m (npages size) w Ht), res_bind_ok; [done | unfold page, INITRD_DECOMP_BASE in *; lia | done | lia | exact Hw].
Qed.
End pages.

(** ** Images *)

Definition packed (l : list Z) : bool := (word l =? LZ4_FRAME_MAGIC) || (word l =? LZ4B_MAGIC_U32).

(** The size of the archive that the header of an image announces. *)
Definition announced (l : list Z) : Z :=
  if word l =? LZ4_FRAME_MAGIC then if negb (Z.land (nth 4 l 0) 8 =? 0) then word (drop 6 l) else 4194304 else word (drop 4 l).

(** The archive in an image: a plain one, one in an LZ4 frame, or one in the older format of
    a single block; [None] when the image is damaged. *)
Definition image (l : list Z) : option (list Z) :=
  if (length l <? 4)%nat then None
  else if word l =? LZ4_FRAME_MAGIC then
    if (length l <? 10)%nat then None else frame_decode l (announced l)
  else if word l =? LZ4B_MAGIC_U32 then
    if (length l <? 12)%nat then None
    else
      let comp := word (drop 8 l) in
      if zlen l <? 12 + comp then None
      else
        let c := take (Z.to_nat comp) (drop 12 l) in
        out ← decode (S (length c)) c [];
        if zlen out =? announced l then Some out else None
  else Some l.

(** Where an image is in memory, and that neither it nor its archive come so near to the end
    of the address space that a pointer wraps around: 256 MB, the largest member, for the
    archive, and the longest length that the image can encode for a compressed one. *)
Record image_at (raw : buf) (location : Z) (l : list Z) : Prop := ImageAt {
  im_reads : reads raw location l;
  im_cells i : is_u8 (arr_at (bytes raw) i);
  im_pos : 0 <= location;
  im_plain : location + zlen l + 268436480 < 4294967296;
  im_packed : packed l = true ->
    0 <= announced l /\ location + zlen l + announced l < 4294967296 /\
    location + zlen l + 255 * Z.of_nat (longest l) + 280 < 4294967296 /\
    INITRD_DECOMP_BASE + announced l + 255 * Z.of_nat (longest l) + 268436480 < 4294967296 /\
    (word l = LZ4B_MAGIC_U32 -> 0 <= word (drop 8 l) < 4294967284)
}.

Lemma region_holds size : 0 <= size -> size + 4096 <= 4294967296 -> holds_bytes (pages_of size) INITRD_DECOMP_BASE size.
Proof. intros H1 H2. pose proof (npages_bound size H1 H2). split; simpl; lia. Qed.

Lemma filled_region size out d : 0 <= size -> size + 4096 <= 4294967296 -> zlen out <= size ->
  filled (pages_of size) INITRD_DECOMP_BASE out d -> reads d INITRD_DECOMP_BASE out.
Proof. intros H1 H2 H3 F. apply (filled_reads _ _ _ _ F). destruct (region_holds size H1 H2). split; lia. Qed.

Section unpack.
Context {W : Type} `{PageLaws W}.

(** The pages for the archive of an image can be had. *)
Definition pages_for (w : W) (l : list Z) : Prop := packed l = true -> exists w', initrd_alloc_pages w (announced l) = Ok (INITRD_DECOMP_BASE, w').

(** Where the pages for the archive go nothing is mapped before, and when they were had they
    are all mapped after: there were frames for the page tables as well. *)
Definition window_for (w : W) (l : list Z) : Prop := packed l = true ->
  window_free w (announced l) /\
  forall w', initrd_alloc_pages w (announced l) = Ok (INITRD_DECOMP_BASE, w') -> window_backed w' (announced l).

Definition unpack_post (w : W) (l : list Z) (r : res (option (buf * Z * Z) * W)) : Prop :=
  exists o w', r = Ok (o, w') /\
    (forall b loc n, o = Some (b, loc, n) -> exists a, image l = Some a /\ n = zlen a /\ reads b loc a /\ 0 <= loc /\ loc + zlen a + 268436480 < 4294967296) /\
    (pages_for w l -> is_Some (image l) -> is_Some o).

Lemma unpack_none w l w' : image l = None \/ (packed l = true /\ initrd_alloc_pages w (announced l) = Ok (0, w')) -> unpack_post w l (Ok (None, w')).
Proof.
  intros Hn. eexists _, _. split; [reflexivity|]. split; [done|]. intros Hp [a Ha]. destruct Hn as [Hn|[Hk Hn]]; [congruence|].
  destruct (Hp Hk) as (w2 & E). rewrite Hn in E. discriminate E.
Qed.

Lemma unpack_some w l b loc a w' : image l = Some a -> reads b loc a -> 0 <= loc -> loc + zlen a + 268436480 < 4294967296 -> unpack_post w l (Ok (Some (b, loc, zlen a), w')).
Proof. intros Hi Hr H1 H2. eexists _, _. split; [reflexivity|]. split; [|eauto]. intros ? ? ? [= <- <- <-]. eauto 10. Qed.

(** What [initrd_alloc_pages] answers for the announced size. *)
Lemma alloc_announced w raw location l : image_at raw location l -> packed l = true -> window_for w l ->
  exists r w', initrd_alloc_pages w (announced l) = Ok (r, w') /\
    (r = 0 \/ r = INITRD_DECOMP_BASE /\ region w' INITRD_DECOMP_BASE (announced l) = Ok (pages_of (announced l))).
Proof.
  intros [_ _ Hp _ Hk] Hpk Hw. destruct (Hk Hpk) as (K1 & K2 & K3 & K4 & _). destruct (Hw Hpk) as [Hf Hb].
  destruct (alloc_pages_ok w (announced l)) as (r & w' & E & Hr); [lia | lia | done |]. exists r, w'. split; [done|].
  destruct Hr as [[? _]|[-> Ht]]; [by left|]. right. split; [done|]. apply (region_ok (mapped w)); [done | lia | lia | by apply Hb].
Qed.

Lemma image_placed raw location l k n : image_at raw location l -> packed l = true -> (k <= length l)%nat -> 0 <= n -> Z.of_nat k + n <= zlen l ->
  placed raw (pages_of (announced l)) (location + Z.of_nat k) n INITRD_DECOMP_BASE (announced l).
Proof.
  intros [Hr Hc Hp Hpl Hk] Hpk Hkl Hn Hkn. pose proof Hr as (R1 & R2 & _). destruct (Hk Hpk) as (K1 & K2 & K3 & K4 & _). pose proof (region_holds (announced l) K1). unfold INITRD_DECOMP_BASE in K4.
  assert (longest (bytes_at raw (location + Z.of_nat k) n) <= longest l)%nat as Hlong.
  { pose proof (reads_drop _ _ _ k Hr Hkl) as Hd. rewrite <- (take_drop (Z.to_nat n) (drop k l)) in Hd. apply reads_prefix, bytes_at_eq in Hd.
    replace (zlen (take (Z.to_nat n) (drop k l))) with n in Hd by (rewrite length_take, length_drop; lia). rewrite Hd.
    destruct (longest_app (take (Z.to_nat n) (drop k l)) (drop (Z.to_nat n) (drop k l))) as [L1 _]. rewrite take_drop in L1.
    pose proof (longest_suffix l (drop k l) (suffix_drop k l)). lia. }
  split; try done; try (unfold INITRD_DECOMP_BASE in *; lia).
split; [unfold INITRD_DECOMP_BASE; lia|]. apply region_holds; lia.
Qed.

Lemma unpack_frame w raw location l : image_at raw location l -> window_for w l -> (10 <= length l)%nat -> word l = LZ4_FRAME_MAGIC ->
  unpack_post w l
    (flg ← ld raw (u32 (location + 4));
     orig_sz ← (if negb (Z.land flg 8 =? 0) then read_le32 raw (u32 (location + 6)) else mret 4194304);
     '(decomp_buf, w) ← initrd_alloc_pages w orig_sz;
     if decomp_buf =? 0 then mret (None, w)
     else
       mem ← region w decomp_buf orig_sz;
       '(ret, d) ← lz4_decompress_frame raw mem location (zlen l) decomp_buf orig_sz;
       if ret <? 0 then mret (None, w) else mret (Some (d, decomp_buf, u32 ret), w)).
Proof.
  intros Hi Hw Hl Em. assert (packed l = true) as Hpk by (unfold packed; by rewrite Em). pose proof Hi as [Hr _ Hp Hpl Hk]. destruct (Hk Hpk) as (K1 & K2 & K3 & K4 & _).
  pose proof (ld_nth raw location l 4 Hr ltac:(lia) Hp ltac:(lia)) as E4. change (Z.of_nat 4) with 4 in E4. rewrite E4, res_bind_ok.
  assert ((if negb (Z.land (nth 4 l 0) 8 =? 0) then read_le32 raw (u32 (location + 6)) else mret 4194304) = Ok (announced l)) as ->.
  { unfold announced. rewrite Em. simpl. destruct (negb _); [|done]. rewrite u32_small by lia. apply (read_le32_drop _ location); (done || lia). }
  rewrite res_bind_ok. destruct (alloc_announced w raw location l Hi Hpk Hw) as (r & w' & E & [-> | [-> Er]]); rewrite E, res_bind_ok.
  { apply unpack_none. by right. }
  change (INITRD_DECOMP_BASE =? 0) with false. cbv iota. rewrite Er, res_bind_ok. pose proof (image_placed raw location l 0 (zlen l) Hi Hpk ltac:(lia) ltac:(lia) ltac:(lia)) as P.
  rewrite Z.add_0_r in P. destruct (lz4_frame_ok _ _ _ _ _ _ P) as (ret & d & -> & Hf). rewrite res_bind_ok. rewrite (bytes_at_eq _ _ _ Hr) in Hf.
  assert (image l = frame_decode l (announced l)) as Ei.
  { unfold image. rewrite (proj2 (Nat.ltb_ge _ _)) by lia. rewrite Em. simpl. by rewrite (proj2 (Nat.ltb_ge _ _)) by lia. }
  destruct (frame_decode l (announced l)) as [out|].
  - destruct Hf as (-> & Ho & F). unfold INITRD_DECOMP_BASE in K4. rewrite (proj2 (Z.ltb_ge _ _)), u32_small by lia. apply unpack_some; [done | | done | unfold INITRD_DECOMP_BASE; lia].
    apply (filled_region (announced l)); (done || lia).
  - destruct Hf as (-> & _). apply unpack_none. by left.
Qed.

Lemma unpack_block w raw location l : image_at raw location l -> window_for w l -> (12 <= length l)%nat -> word l = LZ4B_MAGIC_U32 ->
  unpack_post w l
    (orig_sz ← read_le32 raw (u32 (location + 4));
     comp_sz ← read_le32 raw (u32 (location + 8));
     if zlen l <? u32 (LZ4B_HDR_SIZE + comp_sz) then mret (None, w)
     else
       '(decomp_buf, w) ← initrd_alloc_pages w orig_sz;
       if decomp_buf =? 0 then mret (None, w)
       else
         mem ← region w decomp_buf orig_sz;
         '(ret, d) ← lz4_decompress_block raw mem (u32 (location + LZ4B_HDR_SIZE)) comp_sz decomp_buf orig_sz;
         if (ret <? 0) || negb (u32 ret =? orig_sz) then mret (None, w) else mret (Some (d, decomp_buf, orig_sz), w)).
Proof.
  intros Hi Hw Hl Em. assert (packed l = true) as Hpk by (unfold packed; by rewrite Em). pose proof Hi as [Hr _ Hp Hpl Hk]. destruct (Hk Hpk) as (K1 & K2 & K3 & K4 & K5). specialize (K5 Em).
  unfold LZ4B_HDR_SIZE. rewrite !(u32_small (location + _)) by lia. unfold INITRD_DECOMP_BASE in K4.
  assert (word (drop 4 l) = announced l) as Ea by (unfold announced; by rewrite Em).
  rewrite (read_le32_drop _ location l 4 (location + 4) Hr), res_bind_ok, Ea by (done || lia). rewrite (read_le32_drop _ location l 8 (location + 8) Hr), res_bind_ok by (done || lia).
  set (comp := word (drop 8 l)) in *. rewrite (u32_small (12 + comp)) by lia.
  assert (image l = if zlen l <? 12 + comp then None else
    out ← decode (S (length (take (Z.to_nat comp) (drop 12 l)))) (take (Z.to_nat comp) (drop 12 l)) []; if zlen out =? announced l then Some out else None) as Ei.
  { unfold image. rewrite (proj2 (Nat.ltb_ge _ _)) by lia. rewrite Em. cbn [Z.eqb LZ4_FRAME_MAGIC LZ4B_MAGIC_U32 Pos.eqb]. by rewrite (proj2 (Nat.ltb_ge _ _)) by lia. }
  destruct (Z.ltb_spec (zlen l) (12 + comp)) as [|Hc]; [apply unpack_none; by left|].
  destruct (alloc_announced w raw location l Hi Hpk Hw) as (r & w' & E & [-> | [-> Er]]); rewrite E, res_bind_ok.
  { apply unpack_none. by right. }
  change (INITRD_DECOMP_BASE =? 0) with false. cbv iota. rewrite Er, res_bind_ok. pose proof (image_placed raw location l 12 comp Hi Hpk ltac:(lia) ltac:(lia) ltac:(lia)) as P.
  pose proof (placed_input P) as I. destruct P as [_ _ _ [P2 P3] P4 _ _ _]. change (Z.of_nat 12) with 12 in *.
  pose proof (reads_drop _ _ _ 12 Hr ltac:(lia)) as Hd. rewrite <- (take_drop (Z.to_nat comp) (drop 12 l)) in Hd. apply reads_prefix, bytes_at_eq in Hd.
  set (c := take (Z.to_nat comp) (drop 12 l)) in *. assert (zlen c = comp) as Ec by (unfold c; rewrite length_take, length_drop; lia).
  change (Z.of_nat 12) with 12 in Hd. rewrite Ec in Hd. rewrite Hd in I. rewrite <- Ec in I |- *.
  destruct (block_call_ok _ _ _ _ _ _ I P2 P3 P4) as (ret & d & -> & Ho). rewrite res_bind_ok. destruct Ho as [(out & Eo & Hlo & -> & F)|(Hno & -> & _)].
  - rewrite Eo in Ei. simpl in Ei. rewrite (proj2 (Z.ltb_ge _ _)), u32_small by lia. cbn [orb]. destruct (Z.eqb_spec (zlen out) (announced l)) as [Eq|]; simpl; [|apply unpack_none; by left].
    rewrite <- Eq. apply unpack_some; [done | | done | unfold INITRD_DECOMP_BASE; lia]. apply (filled_region (announced l)); (done || lia).
  - simpl. apply unpack_none. left. rewrite Ei. destruct (decode _ c []) as [out|] eqn:Eo; [|done]. simpl. specialize (Hno out eq_refl). by zdecide.
Qed.

Lemma initrd_unpack_ok w raw location l : image_at raw location l -> window_for w l -> unpack_post w l (initrd_unpack w raw location (zlen l)).
Proof.
  intros Hi Hw. pose proof Hi as [Hr Hc Hp Hpl Hk]. unfold initrd_unpack. destruct (Z.ltb_spec (zlen l) 4) as [H4|H4].
  { apply unpack_none. left. unfold image. by rewrite (proj2 (Nat.ltb_lt _ _)) by lia. }
  rewrite (read_le32_ok _ _ l Hr), res_bind_ok by lia. assert ((length l <? 4)%nat = false) as E4 by (apply Nat.ltb_ge; lia).
  destruct (Z.eqb_spec (word l) LZ4_FRAME_MAGIC) as [Em|Em]; [|destruct (Z.eqb_spec (word l) LZ4B_MAGIC_U32) as [Eb|Eb]].
  - destruct (Z.ltb_spec (zlen l) 10).
    + apply unpack_none. left. unfold image. rewrite E4, Em. simpl. by rewrite (proj2 (Nat.ltb_lt _ _)) by lia.
    + apply unpack_frame; [done | done | lia | done].
  - destruct (Z.ltb_spec (zlen l) 12).
    + apply unpack_none. left. unfold image. rewrite E4, (proj2 (Z.eqb_neq _ _) Em), Eb. simpl. by rewrite (proj2 (Nat.ltb_lt _ _)) by lia.
    + apply unpack_block; [done | done | lia | done].
  - apply unpack_some; [|done|done|done]. unfold image. by rewrite E4, (proj2 (Z.eqb_neq _ _) Em), (proj2 (Z.eqb_neq _ _) Eb).
Qed.
End unpack.

(** ** Archives *)

(** A member of a tar archive, with the fields of its header that are only carried along:
    the mode and owners, the time, the link name to the device numbers, and the padding. *)
Record member : Type := Member {
  m_prefix : cstr;
  m_name : cstr;
  m_type : Z;
  m_ids : list Z;
  m_time : list Z;
  m_link : list Z;
  m_pad : list Z;
  m_data : list Z
}.

Definition char (c : Z) : Prop := 0 < c < 256.

Record member_ok (m : member) : Prop := MemberOk {
  mo_prefix : Forall char (m_prefix m) /\ (length (m_prefix m) <= 155)%nat;
  mo_name : Forall char (m_name m) /\ (length (m_name m) <= 100)%nat;
  mo_both : m_prefix m <> [] -> (length (m_prefix m) + length (m_name m) <= 254)%nat;
  mo_type : is_u8 (m_type m);
  mo_ids : Forall is_u8 (m_ids m) /\ length (m_ids m) = 24%nat;
  mo_time : Forall is_u8 (m_time m) /\ length (m_time m) = 12%nat;
  mo_link : Forall is_u8 (m_link m) /\ length (m_link m) = 188%nat;
  mo_pad : Forall is_u8 (m_pad m) /\ length (m_pad m) = 12%nat;
  mo_data : zlen (m_data m) <= TAR_MAX_SIZE
}.

Definition full_name (m : member) : cstr := match m_prefix m with [] => m_name m | pre => pre ++ [SLASH] ++ m_name m end.
Definition member_item (m : member) : item := name_item (full_name m) (m_type m) (m_data m).

Definition fill (n : nat) (l : list Z) : list Z := l ++ replicate (n - length l) 0.

(** The [n] octal digits of a number. *)
Fixpoint digits (n : nat) (v : Z) : list Z :=
  match n with O => [] | S n => digits n (v / 8) ++ [48 + v mod 8] end.

(** The header before and after the checksum. *)
Definition head (m : member) : list Z := fill 100 (m_name m) ++ m_ids m ++ (digits 11 (zlen (m_data m)) ++ [0]) ++ m_time m.
Definition tail (m : member) : list Z := [m_type m] ++ m_link m ++ fill 155 (m_prefix m) ++ m_pad m.
Definition checksum (m : member) : list Z := digits 6 (sum_list (head m) + 256 + sum_list (tail m)) ++ [0; 32].

Definition enc_member (m : member) : list Z :=
  head m ++ checksum m ++ tail m ++ m_data m ++ replicate (Z.to_nat (round512 (zlen (m_data m)) - zlen (m_data m))) 0.

(** The members, and two blocks of zeros at the end. *)
Definition archive (ms : list member) : list Z := concat (map enc_member ms) ++ replicate 1024 0.

Lemma fill_length n l : (length l <= n)%nat -> length (fill n l) = n.
Proof. intros H. unfold fill. rewrite length_app, length_replicate. lia. Qed.

Lemma upto0_fill l k r : Forall char l -> upto0 (l ++ replicate k 0 ++ r) = match k with O => upto0 (l ++ r) | _ => l end.
Proof.
  intros Hl. destruct k as [|k]; [done|]. induction Hl as [|c l Hc _ IH]; [done|]. simpl in IH |- *. unfold char in Hc. rewrite (proj2 (Z.eqb_neq c 0)) by lia. by rewrite IH.
Qed.

Lemma upto0_chars l : Forall char l -> upto0 l = l.
Proof. induction 1 as [|c l Hc _ IH]; simpl; [done|]. unfold char in Hc. rewrite (proj2 (Z.eqb_neq c 0)) by lia. by rewrite IH. Qed.

Lemma upto0_zero l r : Forall char l -> upto0 (l ++ 0 :: r) = l.
Proof. intros Hl. exact (upto0_fill l 1 r Hl). Qed.

Lemma field_fill n l k : Forall char l -> (length l <= n)%nat -> (length l <= k)%nat -> upto0 (take k (fill n l)) = l.
Proof.
  intros Hl Hn Hk. unfold fill. rewrite take_app, take_ge, take_replicate by done. rewrite <- (app_nil_r (replicate _ 0)), upto0_fill by done.
  destruct (Nat.min _ _); [|done]. rewrite app_nil_r. by apply upto0_chars.
Qed.

Lemma digits_length n v : length (digits n v) = n.
Proof. revert v. induction n as [|n IH]; intros v; simpl; [done|]. rewrite length_app, IH. simpl. lia. Qed.

Lemma digits_range n v : Forall (fun c => 48 <= c <= 55) (digits n v).
Proof.
  revert v. induction n as [|n IH]; intros v; simpl; [constructor|]. apply Forall_app. split; [apply IH|]. constructor; [|constructor].
  pose proof (Z.mod_pos_bound v 8 ltac:(lia)). lia.
Qed.

Lemma digits_chars n v : Forall char (digits n v).
Proof. eapply Forall_impl; [apply digits_range|]. unfold char. intros; simpl in *; lia. Qed.

Lemma octal_snoc l c : forall v, 48 <= c <= 55 -> octal (l ++ [c]) v = u32 (octal l v * 8 + (c - 48)).
Proof.
  induction l as [|d l IH]; intros v Hc; simpl; [zdecide; done|]. destruct (_ || _); by apply IH.
Qed.

Lemma octal_digits n : forall v, 0 <= v < 4294967296 -> v < 8 ^ Z.of_nat n -> octal (digits n v) 0 = v.
Proof.
  induction n as [|n IH]; intros v Hv Hn; [simpl in *; lia|]. cbn [digits]. pose proof (Z.mod_pos_bound v 8 ltac:(lia)). pose proof (Z.div_mod v 8 ltac:(lia)).
  rewrite Nat2Z.inj_succ, Z.pow_succ_r in Hn by lia.
  rewrite octal_snoc, IH by lia. rewrite u32_small; lia.
Qed.

Section encode.
Context (m : member) (rest : list Z).
Hypothesis Hm : member_ok m.

Notation l := (enc_member m ++ rest).

Lemma head_length : length (head m) = 148%nat.
Proof.
  destruct Hm as [_ [_ H1] _ _ [_ H2] [_ H3] _ _ _]. unfold head. rewrite !length_app, fill_length, digits_length, H2, H3 by done. done.
Qed.

Lemma tail_length : length (tail m) = 356%nat.
Proof. destruct Hm as [[_ H1] _ _ _ _ _ [_ H2] [_ H3] _]. unfold tail. rewrite !length_app, fill_length, H2, H3 by done. done. Qed.

Lemma checksum_length : length (checksum m) = 8%nat.
Proof. unfold checksum. rewrite length_app, digits_length. done. Qed.

Lemma head_tail_bytes : Forall is_u8 (head m) /\ Forall is_u8 (tail m).
Proof.
  destruct Hm as [[H1 _] [H2 _] _ H3 [H4 _] [H5 _] [H6 _] [H7 _] _]. assert (forall n x, Forall char x -> Forall is_u8 (fill n x)) as Hf.
  { intros n x Hx. apply Forall_app. split; [eapply Forall_impl; [exact Hx|]; unfold char, is_u8; simpl; lia | apply Forall_replicate; unfold is_u8; lia]. }
  unfold head, tail. rewrite !Forall_app. split_and!; auto; [|by repeat constructor].
  eapply Forall_impl; [apply digits_chars|]. unfold char, is_u8. simpl. lia.
Qed.

Lemma enc_name : h_name l = full_name m.
Proof.
  pose proof Hm as [[P1 P2] [N1 N2] Hb _ _ _ [_ L2] [_ L3] _].
  assert (upto0 (field 345 155 l) = m_prefix m) as Ep.
  { replace l with ((head m ++ checksum m ++ [m_type m] ++ m_link m) ++ fill 155 (m_prefix m) ++ (m_pad m ++ m_data m ++ replicate (Z.to_nat (round512 (zlen (m_data m)) - zlen (m_data m))) 0 ++ rest))
      by (unfold enc_member, tail; by rewrite <- !app_assoc).
    rewrite field_app by (rewrite ?length_app, ?head_length, ?checksum_length, ?L2, ?fill_length by done; done).
    rewrite <- (take_ge (fill 155 (m_prefix m)) 155) by (rewrite fill_length; done). by apply field_fill. }
  assert (forall k, (length (m_name m) <= k <= 100)%nat -> upto0 (field 0 k l) = m_name m) as En.
  { intros k Hk. unfold field, enc_member, head. rewrite drop_0, <- !app_assoc, take_app_le by (rewrite fill_length by done; lia). apply field_fill; (done || lia). }
  unfold h_name, full_name. rewrite Ep. destruct (m_prefix m) as [|x q] eqn:E; [apply En; lia|]. specialize (Hb ltac:(done)).
  do 2 f_equal. rewrite En; [done|]. simpl in *. lia.
Qed.

Lemma enc_size : h_octal 124 12 l = zlen (m_data m).
Proof.
  pose proof Hm as [_ [_ N2] _ _ [_ I2] _ _ _ Hd]. unfold h_octal, TAR_MAX_SIZE in *.
  replace l with ((fill 100 (m_name m) ++ m_ids m) ++ (digits 11 (zlen (m_data m)) ++ [0]) ++ (m_time m ++ checksum m ++ tail m ++ m_data m ++ replicate (Z.to_nat (round512 (zlen (m_data m)) - zlen (m_data m))) 0 ++ rest))
    by (unfold enc_member, head; by rewrite <- !app_assoc).
  rewrite field_app by (rewrite ?length_app, ?fill_length, ?I2, ?digits_length by done; done). rewrite upto0_zero by apply digits_chars. apply octal_digits; simpl; lia.
Qed.

Lemma enc_type : h_type l = m_type m.
Proof.
  unfold h_type, enc_member, tail. rewrite <- !app_assoc, app_assoc. rewrite app_nth2 by (rewrite length_app, head_length, checksum_length; lia).
  rewrite length_app, head_length, checksum_length. done.
Qed.

Lemma enc_sum : h_sum l = sum_list (head m) + 256 + sum_list (tail m).
Proof.
  unfold h_sum, enc_member. destruct head_tail_bytes as [B1 B2]. apply sum_list_bound in B1, B2. rewrite head_length in B1. rewrite tail_length in B2.
  rewrite <- !app_assoc. change (field 0 148 (head m ++ ?r)) with (field 0 148 ([] ++ head m ++ r)). rewrite (field_app 0 148 [] (head m)) by (done || apply head_length).
  rewrite app_assoc, (field_app 156 356 (head m ++ checksum m) (tail m)) by (rewrite ?length_app, ?head_length, ?checksum_length, ?tail_length; done).
  rewrite u32_small; lia.
Qed.

Lemma enc_checksum : h_octal 148 8 l = h_sum l.
Proof.
  rewrite enc_sum. destruct head_tail_bytes as [B1 B2]. apply sum_list_bound in B1, B2. rewrite head_length in B1. rewrite tail_length in B2.
  unfold h_octal, enc_member. rewrite <- !app_assoc, (field_app 148 8 (head m) (checksum m)) by apply head_length || apply checksum_length.
  unfold checksum. rewrite upto0_zero by apply digits_chars. apply octal_digits; [lia|]. change (8 ^ Z.of_nat 6) with 262144. lia.
Qed.

Lemma enc_nonzero : forallb (fun c => c =? 0) (field 0 512 l) = false.
Proof.
  destruct (forallb _ _) eqn:E; [|done]. rewrite forallb_forall in E.
  pose proof (digits_range 6 (sum_list (head m) + 256 + sum_list (tail m))) as Hd. pose proof (digits_length 6 (sum_list (head m) + 256 + sum_list (tail m))) as Hl.
  destruct (digits 6 _) as [|x q] eqn:Ed; [done|]. apply Forall_cons in Hd as [Hx _]. assert (x = 0); [|lia].
  apply Z.eqb_eq, E, list_elem_of_In, (list_elem_of_lookup_2 _ 148). unfold field. rewrite drop_0, lookup_take_lt by lia.
  unfold enc_member, checksum. rewrite Ed, <- app_assoc, lookup_app_r, head_length by (rewrite head_length; lia). done.
Qed.

(** The parser takes a member off the front. *)
Lemma members_enc fuel : members (S fuel) l = (xs ← members fuel rest; Some (member_item m :: xs)).
Proof.
  pose proof Hm as [_ _ _ _ _ _ _ _ Hd]. pose proof (round512_bound (zlen (m_data m)) ltac:(lia)) as Hr.
  assert (l = (head m ++ checksum m ++ tail m) ++ m_data m ++ replicate (Z.to_nat (round512 (zlen (m_data m)) - zlen (m_data m))) 0 ++ rest) as El
    by (unfold enc_member; by rewrite <- !app_assoc).
  assert (length (head m ++ checksum m ++ tail m) = 512%nat) as E512 by (rewrite !length_app, head_length, checksum_length, tail_length; done).
  assert (length l = 512 + Z.to_nat (round512 (zlen (m_data m))) + length rest)%nat as Elen by (rewrite El, length_app, E512, !length_app, length_replicate; lia).
  cbn [members]. rewrite (proj2 (Nat.ltb_ge _ _)) by lia. rewrite enc_nonzero, enc_size, enc_checksum, Z.eqb_refl, enc_name, enc_type.
  rewrite (proj2 (Z.ltb_ge TAR_MAX_SIZE _)) by lia. rewrite (proj2 (Z.ltb_ge _ _)) by lia. cbn [negb].
  assert (drop (Z.to_nat (512 + round512 (zlen (m_data m)))) l = rest) as ->.
  { rewrite El, app_assoc, app_assoc. apply drop_app_length'. rewrite !length_app, length_replicate, head_length, checksum_length, tail_length. lia. }
  assert (take (Z.to_nat (zlen (m_data m))) (drop 512 l) = m_data m) as -> by (rewrite El, Nat2Z.id, <- E512, drop_app_length, take_app_length; done).
  done.
Qed.
End encode.

Lemma archive_cons m ms : archive (m :: ms) = enc_member m ++ archive ms.
Proof. unfold archive. simpl. by rewrite <- app_assoc. Qed.

Lemma members_archive ms : Forall member_ok ms -> forall fuel, (length (archive ms) < fuel)%nat -> members fuel (archive ms) = Some (map member_item ms).
Proof.
  induction 1 as [|m ms Hm _ IH]; intros [|fuel] Hf; try lia; [done|]. rewrite archive_cons in *. rewrite length_app in Hf.
  rewrite (members_enc m _ Hm fuel), IH; [done|]. assert (0 < length (enc_member m))%nat; [|lia].
  unfold enc_member. rewrite length_app, (head_length m Hm). lia.
Qed.

Lemma tar_members_archive ms : Forall member_ok ms -> tar_members (archive ms) = Some (map member_item ms).
Proof. intros Hm. apply members_archive; [done | lia]. Qed.

(** ** The whole of [initrd_init] *)

(** The images of an archive: the archive itself, or a frame that holds it. *)
Inductive image_of (ms : list member) : list Z -> Prop :=
| image_plain : packed (archive ms) = false -> image_of ms (archive ms)
| image_frame o cs : Forall chunk_ok cs -> content cs = archive ms -> zlen (content cs) < 2147483648 ->
    (with_size o = true \/ zlen (content cs) <= 4194304) -> image_of ms (enc_frame o cs).

Lemma frame_word o cs : word (enc_frame o cs) = LZ4_FRAME_MAGIC.
Proof. unfold enc_frame. by apply word_bytes32. Qed.

Lemma announced_frame o cs : zlen (content cs) < 2147483648 -> announced (enc_frame o cs) = if with_size o then zlen (content cs) else 4194304.
Proof.
  intros Hl. unfold announced. rewrite frame_word, Z.eqb_refl. change (nth 4 (enc_frame o cs) 0) with (flags o).
  assert (negb (Z.land (flags o) 8 =? 0) = with_size o) as ->.
  { unfold flags. destruct (block_sums o), (with_size o), (with_sum o), (bool_decide (is_Some (dict o))); done. }
  destruct (with_size o) eqn:Ew; [|done]. unfold enc_frame, descriptor. rewrite Ew. etrans; [|apply (word_bytes32 (zlen (content cs)) []); lia]. reflexivity.
Qed.

Lemma image_archive ms l : image_of ms l -> image l = Some (archive ms).
Proof.
  intros [Hp|o cs Hok Hc Hl Hw].
  - unfold packed in Hp. apply orb_false_iff in Hp as [E1 E2]. unfold image. rewrite E1, E2. unfold archive. by rewrite (proj2 (Nat.ltb_ge _ _)) by (rewrite length_app, length_replicate; lia).
  - unfold image. assert (11 <= length (enc_frame o cs))%nat as Hlen by (unfold enc_frame, descriptor; rewrite !length_app; simpl; rewrite !length_app; simpl; lia).
    rewrite (proj2 (Nat.ltb_ge _ 4)), frame_word, Z.eqb_refl, (proj2 (Nat.ltb_ge _ 10)), announced_frame by lia.
    rewrite <- Hc. apply frame_enc; [done| |]; destruct (with_size o); destruct Hw; (done || lia).
Qed.

(** What a lookup finds in a table. *)
Lemma lookup_ready b a s' (v : vfs (buf * initrd)) path : ready b a s' -> v_fs v = (b, s') -> v_initrd v = 1 ->
  exists nd, vfs_lookup_initrd v path = Ok nd /\
    match walk_tree (fun ps => kind_at b s' (at_path s' ps)) [] (parts path) with
    | None => nd = 0
    | Some k => nd <> 0 /\ node_shows (b, s') nd k
    end.
Proof.
  intros Hrd Ev Er. rewrite lookup_initrd_names, Er, Ev by (rewrite Er; done).
  destruct (walk_names_ok b a s' Hrd (parts path) []) as (nd & E & Hm); [done|]. exists nd. split; [exact E|].
  destruct (walk_tree _ _ _) as [k|]; [|done]. destruct Hm as (-> & Hn & Hk). split; [lia | done].
Qed.


Lemma walk_tree_ext look look' ps : (forall qs, look qs = look' qs) -> forall pre, walk_tree look pre ps = walk_tree look' pre ps.
Proof. intros E. induction ps as [|p ps IH]; intros pre; simpl; [apply E|]. rewrite E, IH. done. Qed.


Section init.
Context {W : Type} `{PageLaws W}.

Lemma initrd_init_ok w s mem raw location l : image_at raw location l -> window_for w l -> cap_ok s -> Forall grant_ok mem ->
  exists root b s' mem' w', initrd_init w s mem raw location (zlen l) = Ok (root, b, s', mem', w') /\
    (root = 0 \/ root = 1 /\ exists a, image l = Some a /\ is_Some (tar_members a) /\ ready b a s') /\
    forall N a xs, pages_for w l -> enough N (i_cap s) mem -> image l = Some a -> tar_members a = Some xs -> Z.of_nat (size (tree_of xs)) <= N ->
      root = 1 /\ shows_tree b s' (tree_of xs).
Proof.
  intros Hi Hw Hc Hm. unfold initrd_init. destruct (initrd_unpack_ok w raw location l Hi Hw) as (o & w' & -> & Ho & Hs). rewrite res_bind_ok.
  destruct o as [[[b loc] n]|].
  - destruct (Ho b loc n eq_refl) as (a & Ea & -> & Hr & Hp & He). destruct (tar_init_ok s mem b loc a Hc Hm Hr Hp He) as (r & s' & mem' & -> & Hr' & Hn & HN). rewrite res_bind_ok.
    eexists _, _, _, _, _. split; [reflexivity|]. split.
    + destruct Hr' as [->|(-> & H1 & H2)]; [by left|]. right. split; [done|]. eauto.
    + intros N a' xs _ Hen Ea' Hx HS. rewrite Ea in Ea'. injection Ea' as <-. by apply (HN N xs).
  - eexists _, _, _, _, _. split; [reflexivity|]. split; [by left|]. intros N a xs Hpg _ Ea _ _. destruct (Hs Hpg) as [? [=]]. by rewrite Ea.
Qed.


(** C25: An image of an archive reads back: a plain archive that does not begin with the mark
    of a compressed one, or an LZ4 frame that holds an archive and announces its size or
    holds at most 4 MB ([image_of]).  The members have names that fit the header, and data of
    at most 256 MB ([member_ok]); the sizes leave the pointers room ([image_at]); the pages
    can be had and are mapped ([pages_for], [window_for]); and the heap has room for the [N]
    entries of the tree ([enough]).  Then [initrd_init] makes the tree that the members
    describe.  A path leads where it leads in that tree and nowhere else, and reading a file
    returns the bytes of its last member. *)
Theorem initrd_reads_back w mem raw location l ms N :
  image_at raw location l -> window_for w l -> pages_for w l -> Forall grant_ok mem -> enough N 0 mem ->
  Forall member_ok ms -> image_of ms l -> Z.of_nat (size (tree_of (map member_item ms))) <= N ->
  exists b s mem' w', initrd_init w initrd_start mem raw location (zlen l) = Ok (1, b, s, mem', w') /\
    forall v path, v_fs v = (b, s) -> v_initrd v = 1 ->
      exists nd, vfs_lookup_initrd v path = Ok nd /\
        match walk_tree (fun ps => tree_of (map member_item ms) !! ps) [] (parts path) with
        | None => nd = 0
        | Some k => nd <> 0 /\ node_shows (b, s) nd k
        end.
Proof.
  intros Hi Hw Hpg Hm Hen Hok Him HS. destruct (initrd_init_ok w initrd_start mem raw location l Hi Hw) as (root & b & s & mem' & w' & E & Hr & HN); [by split|done|].
  destruct (HN N (archive ms) (map member_item ms)) as [-> Hsh]; [done | done | by apply image_archive | by apply tar_members_archive | done |].
  destruct Hr as [?|(_ & a & _ & _ & Hrd)]; [done|]. exists b, s, mem', w'. split; [exact E|]. intros v path Ev Er.
  destruct (lookup_ready b a s v path Hrd Ev Er) as (nd & En & Hk). exists nd. split; [exact En|].
  erewrite walk_tree_ext; [exact Hk|]. intros qs. apply (sh_lookup _ _ _ Hsh).
Qed.
End init.

(** Reading a directory lists it and its parent, then each child once, the last one first,
    from the index on and as many as fit. *)
Theorem initrd_lists_directory b a s ps e idx buf_len :
  ready b a s -> 0 <= at_path s ps -> i_entries s !! Z.to_nat (at_path s ps) = Some e -> e_flags e = FS_DIRECTORY ->
  0 <= idx -> DIRENT_SIZE <= buf_len < 2147483648 -> idx + buf_len < 4294967296 ->
  let out := take (Z.to_nat (buf_len / DIRENT_SIZE)) (drop (Z.to_nat idx) (listing s (at_path s ps) e)) in
  initrd_readdir s (at_path s ps + 1) idx buf_len = Ok (zlen out * DIRENT_SIZE, out, idx + zlen out) /\
  NoDup (children (keys (i_entries s)) (at_path s ps) (length (i_entries s))) /\
  (forall c, c ∈ children (keys (i_entries s)) (at_path s ps) (length (i_entries s)) <-> 0 <= c /\ exists name, at_path s (ps ++ [name]) = c).
Proof.
  intros Hrd Hp He Hf Hi Hb Hw out. pose proof (rd_table _ _ _ Hrd) as Ht. pose proof (tb_keys _ _ Ht) as Hk. set (i := Z.to_nat (at_path s ps)) in *.
  assert (at_path s ps = Z.of_nat i) as Ei by lia. split_and!.
  - unfold initrd_readdir, DIRENT_SIZE in *. pose proof (fnode_ok b a s Hrd i e He) as (Hn & Hi' & Hc). rewrite Ei. zdecide. rewrite Hn, res_bind_ok. simpl fn_flags. rewrite Hf. simpl negb. cbv iota.
    zdecide. simpl fn_inode. rewrite s32_small by lia. zdecide. cbn [orb]. pose proof (Z.div_mod buf_len 32 ltac:(lia)). pose proof (Z.mod_pos_bound buf_len 32 ltac:(lia)).
    rewrite (initrd_fill_ok b a s Hrd i e He), res_bind_ok by lia. rewrite <- Ei. fold out. rewrite s32_small; [done|].
    assert (length out <= Z.to_nat (buf_len / 32))%nat by (unfold out; rewrite length_take; lia). lia.
  - apply children_nodup.
  - intros c. rewrite children_spec. split.
    + intros (k & [j name] & -> & Hk' & Hl & Ej). simpl in Ej. subst j. split; [lia|]. exists name. rewrite resolve_snoc. zdecide.
      pose proof (seek_range (keys (i_entries s)) (at_path s ps) name) as R. destruct (decide (seek (keys (i_entries s)) (at_path s ps) name = -1)) as [Es|Es].
      * by destruct (seek_none _ _ _ k Es).
      * pose proof (seek_some (keys (i_entries s)) (at_path s ps) name (Z.to_nat (seek (keys (i_entries s)) (at_path s ps) name)) ltac:(lia)) as Hs.
        pose proof (ko_unique _ Hk _ _ _ Hs Hl). lia.
    + intros [Hc (name & <-)]. pose proof (resolve_range _ (ps ++ [name]) Hk) as R.
      destruct (resolve_snoc_some _ ps name (Z.to_nat (at_path s (ps ++ [name]))) Hk) as [_ Hl]; [lia|].
      eexists _, _. split; [|split; [|split; [exact Hl|done]]]; [lia|]. rewrite keys_length in R. lia.
Qed.

(** ** Reads that wrap around *)

Lemma copy_out_overrun b : forall n p, 0 <= base b -> base b + arr_len (bytes b) < 4294967296 -> base b <= p <= base b + arr_len (bytes b) ->
  base b + arr_len (bytes b) - p < Z.of_nat n -> copy_out n b p = Ub.
Proof.
  induction n as [|n IH]; intros p H0 He Hp Hn; [lia|]. simpl. unfold ld. destruct (decide (p < base b + arr_len (bytes b))).
  - rewrite arr_get_ok by lia. rewrite res_bind_ok, u32_small by lia. by rewrite IH by lia.
  - unfold arr_get, arr_in. zdecide. done.
Qed.

(** The sum of the offset and the size of a read wraps around: a read from inside a file, of
    a size that takes the sum past 32 bits, is not cut to the length of the file. *)
Theorem initrd_read_size_wraps b a s i e off size :
  ready b a s -> i_entries s !! i = Some e -> e_flags e = FS_FILE -> 0 < off <= e_length e -> 0 <= off + size - 4294967296 <= e_length e ->
  0 <= base b -> base b + arr_len (bytes b) < 4294967296 -> arr_len (bytes b) < size ->
  initrd_read_impl b s (Z.of_nat i + 1) off size = Ub.
Proof.
  intros Hrd He Hf Ho Hw H0 H1 H2. destruct (fnode_ok b a s Hrd i e He) as (Hn & Hi & Hc). pose proof (tb_data _ _ (rd_table _ _ _ Hrd) _ _ He) as (D1 & D2 & D3).
  destruct (rd_place _ _ _ Hrd) as [P1 P2]. destruct (rd_reads _ _ _ Hrd) as (R1 & R2 & _).
  unfold initrd_read_impl. zdecide. rewrite Hn, res_bind_ok. simpl fn_inode. rewrite s32_small by lia. zdecide. cbn [orb].
  rewrite (ent_ok _ _ _ He), res_bind_ok, Hf. change (Z.land FS_FILE FS_FILE =? 0) with false. cbv iota. zdecide. rewrite (u32_wrap (off + size)) by lia. zdecide.
  rewrite (u32_small (i_base s + _)), u32_small by lia. apply copy_out_overrun; lia.
Qed.

(** ** A small image *)

(** Frames in use, pages mapped, the number of frames left, and the page tables, one for
    each two megabytes. *)
Record world : Type := World { w_used : gset Z; w_mapped : gmap Z Z; w_left : nat; w_tables : gset Z }.

(** A frame that is not in use, when one is left. *)
Definition world_take (w : world) : Z * world :=
  match w_left w with
  | O => (0, w)
  | S n => let p := fresh ({[0]} ∪ w_used w) in (p, World ({[p]} ∪ w_used w) (w_mapped w) n (w_tables w))
  end.

(** Mapping takes a frame for a page table that is missing, and is dropped when there is none. *)
Definition world_map (w : world) (p va : Z) : world :=
  if bool_decide (va / 2097152 ∈ w_tables w) then World (w_used w) (<[va := p]> (w_mapped w)) (w_left w) (w_tables w)
  else
    let '(t, w) := world_take w in
    if t =? 0 then w else World (w_used w) (<[va := p]> (w_mapped w)) (w_left w) ({[va / 2097152]} ∪ w_tables w).

#[local] Instance world_mem : MemOps world := {
  pmm_alloc_page w := mret (world_take w);
  vmm_map_page w p va fl := mret (world_map w p va);
  vmm_unmap_page w va := mret (World (w_used w) (delete va (w_mapped w)) (w_left w) (w_tables w));
  memset w p c n := mret w
}.

#[local] Instance world_pages : PageOps world := {
  vmm_virt_to_phys w va := mret (default 0 (w_mapped w !! va));
  pmm_free_blocks w p n := mret (World (w_used w ∖ {[p]}) (w_mapped w) (S (w_left w)) (w_tables w))
}.

Lemma world_take_ok w : exists p w', world_take w = (p, w') /\ w_mapped w' = w_mapped w /\
  (p = 0 /\ w_used w' = w_used w \/ p <> 0 /\ p ∉ w_used w /\ w_used w' = {[p]} ∪ w_used w).
Proof.
  unfold world_take. destruct (w_left w) as [|n]; [eauto 10|]. eexists _, _. split; [reflexivity|]. split; [done|]. right.
  pose proof (is_fresh ({[0]} ∪ w_used w)) as Hf. simpl. set_solver.
Qed.

#[local] Program Instance world_laws : PageLaws world := { used := w_used; mapped := w_mapped }.
Next Obligation. intros w. destruct (world_take_ok w) as (p & w' & E & H). exists p, w'. split; [by rewrite <- E | done]. Qed.
Next Obligation. intros w p n _. by exists w. Qed.
Next Obligation.
  intros w p va fl. exists (world_map w p va). split; [done|]. unfold world_map. destruct (bool_decide _); [simpl; auto|].
  destruct (world_take_ok w) as (t & w' & -> & M & [[-> U]|(Ht & _ & U)]); simpl; [rewrite U, M; auto|].
  rewrite (proj2 (Z.eqb_neq _ _) Ht). simpl. rewrite M, U. split; [set_solver | auto].
Qed.
Next Obligation. intros w va. eexists. split; [reflexivity|]. done. Qed.
Next Obligation. done. Qed.
Next Obligation. intros w p _. eexists. split; [reflexivity|]. done. Qed.

Definition demo_world : world := World ∅ ∅ 8 ∅.

(** A directory [bin] and a file [bin/sh] of two bytes. *)
Definition demo_member (name : cstr) (tf : Z) (data : list Z) : member :=
  Member [] name tf (replicate 24 48) (replicate 12 48) (replicate 188 0) (replicate 12 0) data.
Definition demo_members : list member := [demo_member [98; 105; 110; 47] 53 []; demo_member [98; 105; 110; 47; 115; 104] 48 [104; 105]].
Definition demo_image : list Z := enc_frame (Options false true false None 64) [Stored (archive demo_members)].
Definition demo_raw : buf := buf_of 3225419776 demo_image.
Definition demo_heap : answers := [fun size => if size <=? 9216 then 9216 else 0; fun size => if size <=? 9216 then 9216 else 0].

Lemma demo_member_ok name tf data : Forall char name -> (length name <= 100)%nat -> is_u8 tf -> zlen data <= 100 -> member_ok (demo_member name tf data).
Proof.
  intros H1 H2 H3 H4. assert (forall n c, is_u8 c -> Forall is_u8 (replicate n c) /\ length (replicate n c) = n) as Hr.
  { intros n c Hc. split; [by apply Forall_replicate | apply length_replicate]. }
  split; [split; [constructor | simpl; lia] | done | done | done | apply Hr; unfold is_u8; lia.. | unfold TAR_MAX_SIZE; simpl; lia].
Qed.

Lemma demo_members_ok : Forall member_ok demo_members.
Proof.
  constructor; [|constructor; [|constructor]]; apply demo_member_ok; unfold is_u8, char; simpl; try lia; repeat constructor; lia.
Qed.

Lemma demo_image_at : image_at demo_raw 3225419776 demo_image.
Proof.
  split.
  - assert (bytes_at demo_raw 3225419776 (zlen demo_image) = demo_image) as E by (vm_compute; reflexivity). rewrite <- E at 1. apply bytes_at_reads; simpl; lia.
  - apply buf_of_u8. vm_compute. reflexivity.
  - lia.
  - vm_compute. reflexivity.
  - intros _. vm_compute. split_and!; congruence.
Qed.

Lemma demo_window : window_for demo_world demo_image.
Proof.
  intros _. split; [done|]. intros w' E. assert (exists w, initrd_alloc_pages demo_world (announced demo_image) = Ok (INITRD_DECOMP_BASE, w) /\
    forallb (fun k => bool_decide (is_Some (w_mapped w !! page k))) (seqZ 0 (npages (announced demo_image))) = true) as (w & Ew & Hw).
  { eexists. split; vm_compute; reflexivity. }
  rewrite Ew in E. injection E as <-. intros k Hk. rewrite forallb_forall in Hw. apply (bool_decide_unpack (is_Some (w_mapped w !! page k))), Is_true_true, Hw, list_elem_of_In, elem_of_seqZ. lia.
Qed.

Lemma demo_pages : pages_for demo_world demo_image.
Proof. intros _. eexists. vm_compute. reflexivity. Qed.

Lemma demo_grants : Forall grant_ok demo_heap.
Proof. constructor; [|constructor; [|constructor]]; intros size; unfold BUDDY_HEAP_SIZE, HDR_SIZE; bdestr; lia. Qed.

Lemma demo_enough : enough 32 0 demo_heap.
Proof. apply enough_grow; [done..|]. apply enough_now. done. Qed.


Lemma demo_image_of : image_of demo_members demo_image.
Proof.
  apply image_frame; [|vm_compute; reflexivity|vm_compute; reflexivity|by left]. constructor; [|constructor]. split; [|done]. vm_compute. split; congruence.
Qed.

(** The file reads back from the compressed image. *)
Lemma initrd_reads_back_witness :
  exists b s mem' w' nd rd, initrd_init demo_world initrd_start demo_heap demo_raw 3225419776 (zlen demo_image) = Ok (1, b, s, mem', w') /\
    vfs_lookup_initrd (Vfs (b, s) 1 1 [] []) [47; 98; 105; 110; 47; 115; 104] = Ok nd /\ f_read (b, s) nd = Ok (Some rd) /\ rd 0 10 = Ok [104; 105].
Proof.
  destruct (initrd_reads_back demo_world demo_heap demo_raw 3225419776 demo_image demo_members 32 demo_image_at demo_window demo_pages demo_grants demo_enough
    demo_members_ok demo_image_of) as (b & s & mem' & w' & E & Hl); [vm_compute; discriminate|].
  destruct (Hl (Vfs (b, s) 1 1 [] []) [47; 98; 105; 110; 47; 115; 104] eq_refl eq_refl) as (nd & En & Hk).
  assert (walk_tree (fun ps => tree_of (map member_item demo_members) !! ps) [] (parts [47; 98; 105; 110; 47; 115; 104]) = Some (IFile [104; 105])) as Ew by (vm_compute; reflexivity).
  rewrite Ew in Hk. destruct Hk as (_ & _ & rd & Hrd & Hread). exists b, s, mem', w', nd, rd. split; [exact E|]. split; [exact En|]. split; [exact Hrd|].
  rewrite Hread by lia. reflexivity.
Defined.

(** ** Sizes that wrap around *)

(** A frame that announces 2^32 - 1 bytes and holds one. *)
Definition huge_image : list Z := bytes32 LZ4_FRAME_MAGIC ++ [104; 64] ++ bytes32 4294967295 ++ bytes32 0 ++ [Z.land (Z.shiftr (hash ([104; 64] ++ bytes32 4294967295 ++ bytes32 0) 0) 8) 255] ++ bytes32 2147483649 ++ [65] ++ bytes32 0.

(** Rounding the announced size up to pages wraps around to none at all, and the
    decompressor writes where nothing is mapped. *)
Theorem announced_size_wraps :
  npages 4294967295 = 0 /\
  initrd_init demo_world initrd_start demo_heap (buf_of 3225419776 huge_image) 3225419776 (zlen huge_image) = Ub.
Proof. split; vm_compute; reflexivity. Qed.

(** [vmm_map_page] is not asked whether it had a frame for the page table: with one frame
    left, the frame is had, the page is not mapped, and the decompressor writes to it. *)
Theorem unmapped_page_written : initrd_init (World ∅ ∅ 1 ∅) initrd_start demo_heap demo_raw 3225419776 (zlen demo_image) = Ub.
Proof. vm_compute. reflexivity. Qed.

(** A first member whose name begins with the mark of the older compressed format is
    taken for a compressed image. *)
Theorem plain_archive_taken_for_compressed :
  let ms := [demo_member [76; 90; 52; 66] 48 [104; 105]] in
  Forall member_ok ms /\ image (archive ms) = None.
Proof.
  split; [|vm_compute; reflexivity]. constructor; [|constructor]. apply demo_member_ok; unfold is_u8, char; simpl; try lia; repeat constructor; lia.
Qed.
